(* ===== verification/_CoqProject ===== *)
-Q . S2P
Prelude.v
PyDict.v
FreeQueue.v
Request.v
Hashing.v
HashingLemmas.v
BlockPool.v
BlockPoolLemmas.v
Samples.v
HashingSpec.v
BlockPoolSpec.v
SingleType.v
SingleTypeLemmas.v
SingleTypeSpec.v
CacheHit.v
CacheHitLemmas.v
CacheHitSpec.v
Coordinator.v
CoordinatorLemmas.v
HybridHit.v
KVManager.v
KVManagerLemmas.v
KVManagerSpec.v
CoordinatorSpec.v
SchedUtils.v
EncoderCache.v
EncoderCacheSpec.v
RequestQueue.v
RequestQueueSpec.v
Partial.v
SchedState.v
SchedStep.v
SchedUpdate.v
SchedLemmas.v
SchedInv.v
SchedGrants.v
SchedSamples.v
SchedSpec.v
SchedFinish.v
SchedEngine.v
SchedEngineSpec.v
Echo.v
EchoSpec.v
PyFloat.v
OffloadPolicy.v
OffloadPolicyLemmas.v
OffloadManager.v
OffloadLemmas.v
OffloadRun.v
OffloadSpec.v
OffloadConnector.v
OffloadTransfer.v
OffloadWorker.v
OffloadLaws.v
OffloadTransferSpec.v
OffloadConnectorLemmas.v
OffloadConnectorStore.v
OffloadConnectorSpec.v
OffloadWorkerSpec.v
OffloadSetup.v
OffloadSystem.v
OffloadEndToEnd.v
PyRes.v
KVConfig.v
KVConfigLemmas.v
KVGroups.v
KVWorkers.v
KVConfigSpec.v
Ngram.v
NgramSpec.v
Aggregator.v
BatchUpdate.v
BlockTable.v
InputBatch.v
BatchRows.v
BatchInv.v
BatchOps.v
BatchReorder.v
BatchSpec.v
Runner.v
