(* ===== verification/Prelude.v ===== *)
(** * A verified model of the KV-cache and scheduling core of vLLM

    The repository holds an experiment ([echo/]) on top of two vendored trees:
    [vllm/] (the inference engine) and [vllm-ascend/] (its NPU plugin).  The
    engine's own logic is in [vllm/vllm/v1]: requests are queued, the scheduler
    gives each of them tokens and KV-cache blocks, the KV cache shares blocks
    between requests with a common prefix, and the workers run the model.  This
    development models the part of that logic that is independent of tensors and
    processes, and proves it correct.

    ** Parts and how they interact

    A [Request] carries tokens and the hashes of its full blocks.  The hash of a
    block covers its tokens, the hash of the block before it and the extra keys
    (multimodal inputs, LoRA adapter, cache salt).  The [BlockPool] owns all
    blocks; free blocks are in an intrusive doubly linked list
    ([FreeKVCacheBlockQueue]) in eviction order, full blocks are found by hash.
    A [Manager] per attention type keeps the block tables of the requests.

    ** Files

    - [Prelude]: exceptions and results of Python code, a state-and-error monad
      [M] with a weakest-precondition calculus [wp], Python sequence operations,
      byte strings, occurrence counts.
    - [FreeQueue]: [v1/core/kv_cache_utils.py],
      [KVCacheBlock] and [FreeKVCacheBlockQueue].  Blocks are objects in a store
      ([heap : gmap ref KVCacheBlock]); the sentinels are [Head] and [Tail].
      The class [list_contract] states what a queue promises its clients; the
      linked list is shown to implement it.
    - [Request]: [v1/request.py] and the parameter structs it reads.
    - [Hashing], [HashingLemmas], [HashingSpec]: block keys, extra keys, the
      request block hasher and the merged hash list of [kv_cache_utils.py].
      Theorems: the hasher maintains the reference chain, equal hashes mean equal
      prefixes (when the hash function does not collide on the inputs hashed),
      merged hashes keep both; two findings on the extra keys.
    - [BlockPool], [BlockPoolLemmas], [BlockPoolSpec]: [v1/core/block_pool.py].
      The invariant [pool_inv p fl own] relates the pool to its free list and to
      the number of owners of each block; every operation is specified against
      it and every reachable state satisfies it.
    - [SingleType], [SingleTypeLemmas], [SingleTypeSpec]:
      [v1/core/single_type_kv_cache_manager.py], the managers.  A method runs on
      the pair [MP] of a manager and the shared pool.  [step_ok] is what every
      operation guarantees to the other users of the pool.
    - [CacheHit], [CacheHitLemmas], [CacheHitSpec]: the longest-cache-hit
      searches of the manager classes.
    - [Coordinator], [CoordinatorLemmas], [HybridHit], [CoordinatorSpec]:
      [v1/core/kv_cache_coordinator.py]: the operations that run every manager of
      a model on the shared pool, and the fixed-point search of the hybrid
      coordinator, with soundness and termination of the search.
    - [KVManager], [KVManagerLemmas], [KVManagerSpec]:
      [v1/core/kv_cache_manager.py]; [allocate_slots] on every branch, and the
      ownership invariant over everything the scheduler may call.
    - [SchedUtils]: [v1/core/sched/utils.py]: the repetition
      detector against the definition of a repeated tail, [check_stop] on every
      branch, [remove_all].
    - [EncoderCache], [EncoderCacheSpec]:
      [v1/core/encoder_cache_manager.py]: the accounting invariant [enc_inv],
      admission, release; the order in which Python iterates over a set is the
      parameter [set_order].
    - [RequestQueue], [RequestQueueSpec]:
      [v1/core/sched/request_queue.py] and the functions of Python's [heapq] it
      calls.  The class [RequestQueueLaws] is the contract the scheduler's proofs
      use; the deque, the heap and their sum are its instances.
    - [PyDict]: Python dicts with their insertion order (association lists).
    - [SchedState], [SchedStep], [SchedUpdate]: [v1/core/sched/scheduler.py] and
      [async_scheduler.py]: the state and the small methods, [schedule], and
      everything that changes the state between two steps.  Requests are objects
      in the store [s_objs], shared by id between the queues; KV and encoder
      connectors are the records [KVConnector] and [ECConnector] of the methods
      the scheduler calls.
    - [Partial]: partial-correctness triples [wpp], and that no component runs out
      of the fuel of a loop.  [SchedLemmas], [SchedInv],
      [SchedGrants]: the invariant of [schedule] through its two loops;
      [SchedSpec]: conservation of requests, termination, budgets, assertions.
      [SchedFinish], [SchedEngine]: what aborts,
      resets, new requests and the model's output leave of the queues;
      [SchedEngineSpec]: runs of the core loop of [v1/engine/core.py] (one step in
      flight), in which no unfinished request is lost.  Its runs are without
      streaming sessions, which [SchedSpec] shows can be lost.
      [SchedSamples]: runs of a small scheduler; five runs in [SchedSpec] end where
      the code must not.
    - [Echo], [EchoSpec]: ECHO, in
      [vllm-ascend/vllm_ascend/worker/model_runner_v1.py]: the choice of the draft
      tokens that a step verifies, over an abstract type of scores ([log_softmax],
      [cumsum] and [topk] are parameters, [topk] with the contract [topk_law]); the
      host copy of the drafts; dummy and padded batches.  Its composition with
      [update_from_output] miscounts computed tokens
      ([echo_pruned_tokens_stay_computed]).
    - [PyFloat]: Python's mixed [int] and [float] arithmetic, on [SpecFloat]'s
      binary64, with the bounds of rounded sums and differences.
    - [OffloadPolicy], [OffloadPolicyLemmas]: [v1/kv_offload/cpu/policies/]: block
      statuses as objects in a store, the interface [CachePolicy] with its contract
      [CachePolicyLaws], and the instances LRU, ARC and their sum.
      [OffloadManager]: [abstract.py], [mediums.py], [cpu/manager.py] and
      [reuse_manager.py]: the interface [OffloadingManager], the CPU manager over
      any policy and the reuse filter over any manager.  [OffloadLemmas]: its
      operations preserve [mgr_inv]; [OffloadRun]: runs with the loads in flight
      and the events delivered; [OffloadSpec]: the properties.
    - [OffloadLaws]: the contract [OffloadingManagerLaws] between an offloading
      manager and its client, with the CPU manager and the reuse filter as
      instances.  [OffloadConnector]:
      [distributed/kv_transfer/kv_connector/v1/offloading/scheduler.py] over any
      manager; [OffloadConnectorLemmas], [OffloadConnectorStore]: every call keeps
      [conn_inv]; [OffloadConnectorSpec]: the calls succeed, loads and stores never
      meet, and the copies that loads and stores make, with a run.
      The client's side of the contract is [allowed]: hash lists as long as the
      tokens and without repetitions, the scheduler's blocks for the tokens
      offered ([blocks_fit]), fewer than 2^31 loads at once.
    - [OffloadTransfer]: [v1/kv_offload/worker/cpu_gpu.py], with [swap_blocks] as
      copies between memories; [OffloadTransferSpec]: what is
      stored is what is loaded, and a handler is a queue.  When an event has
      completed is the parameter [query].
    - [OffloadWorker], [OffloadWorkerSpec]: the registry of
      handlers ([v1/kv_offload/worker/worker.py]) and the jobs of the connector's
      worker ([offloading/worker.py]); handlers are objects, named by their index.
    - [OffloadSetup]: [v1/kv_offload/spec.py] and
      [cpu/spec.py]: what a configuration makes.  [OffloadSystem]:
      scheduler and worker together in a synchronous engine
      with one worker, [worker_step] being the connector's part of
      [v1/worker/gpu_model_runner.py]; [OffloadEndToEnd]: no step
      fails, the books agree, and everything owed is reported.
    - [PyRes]: pure computations that may raise, [min], [max] and [sum] over lists,
      and NumPy arrays as lists: slices, rows moved and swapped, by copy or by view.
    - [KVConfig], [KVConfigLemmas], [KVGroups], [KVWorkers], [KVConfigSpec]: the KV
      cache configuration ([v1/kv_cache_interface.py] and the rest of
      [kv_cache_utils.py]): the formats of layers and their page sizes, the groups
      (every layer once, layers of a group of one format, slots as deep as the
      groups), the largest model length that fits by binary search, and the
      configurations of all workers, which agree on groups and blocks and, unless the
      number of blocks is overridden, fit in the memory of each.
    - [Ngram], [NgramSpec]: [v1/spec_decode/ngram_proposer.py]: the search over
      prefix lengths proposes what the definition does, the tokens after the first
      occurrence of the longest suffix that occurs before; no tokens, lengths and
      bounds on every branch.
    - [Aggregator]: [distributed/kv_transfer/kv_connector/utils.py],
      [distributed/kv_events.py]: the reports of a request fall into [rounds], each as
      long as the number expected when it starts, and a request is reported in the
      step that completes a round, over any sequence of outputs, also when workers
      change that number; the events of all workers.
    - [InputBatch]: the persistent batch of a worker
      ([v1/worker/gpu_input_batch.py]); [BlockTable]: its block tables
      ([block_table.py]); [BatchUpdate]: the changes that logits processors get
      ([v1/sample/logits_processor/]); [BatchReorder]: the order of the rows that
      attention backends ask for ([v1/attention/backends/utils.py]), by swaps along
      cycles.  [BatchRows]: what a row shows, and arrays under a row map;
      [BatchInv]: the invariant [batch_ok], the agreement [in_sync] with a
      processor, and [condense]; [BatchOps]: removing, adding, swapping.
      [BatchSpec]: over the step relation [batch_reaches], the batch implements a
      map from requests to rows ([batch_map]), processors stay in sync, and rows
      are ordered.  The masks of allowed tokens are not part of what a row shows:
      they do not follow the requests ([allowed_mask_leaks]).  Prompt embeddings
      are not part of it either, since [remove_request] leaves them behind.
    - [Runner]: the model runner's requests ([_update_states] of
      [v1/worker/gpu_model_runner.py]): requests that finish, wait, start, go on or
      are resumed, and the batch of the step.  [phases_Ok] follows the four loops;
      [told_output] shows that what [schedule] returns names each scheduled request
      once; together a step of the scheduler and the update of the worker agree on
      the rows and on their computed tokens ([schedule_reaches_worker]).  The update
      may fail: the theorems are about updates that return, since a full batch, a
      prompt longer than a row or an unknown request raise.
    - [Samples]: concrete requests, pools and toy hash functions on which the
      [*Spec] files apply their theorems.

    ** Conventions

    Python integers are [Z]; a list is a [list] with Python's index rules
    ([py_get], [py_slice]); a dict is a [gmap], or an association list where the
    order is observable; an object that is shared is a reference into a store.
    An exception is a value of [exn]; a method is a computation in [M S A], whose
    state changes up to the exception are kept, as in Python.  Loops that are not
    structural take fuel, and a lemma shows that the fuel passed is enough: the
    rounds of [align_loop] are bounded by the length of the list they shorten,
    those of [hasher_loop] by the number of tokens.

    ** Assumptions and parameters

    The digest functions (hashlib, the serialisation before them) are parameters;
    theorems that need collision freedom state it for the inputs actually hashed.
    The sizes of data types, the conversion of a float to 32 bits and the lengths of
    tensors are parameters.  Logging and metrics do not influence the modelled state; the sampling metrics
    collector is represented by the calls it receives.

    ** Not modelled

    Processes, IPC, HTTP, device memory and the copies on it, kernels and model
    code, connectors that move blocks over the network, sampling and the draft
    models: these are I/O or arithmetic on tensors.  The benchmarks of memory that
    the configuration starts from are its argument.

    ** Plan

    The logic of the engine that is independent of tensors, processes and networks
    is modelled.  What a next step would add is the preparation of inputs and the
    draft bookkeeping of asynchronous scheduling in the model runner, capacities
    under which [_update_states] always returns, and the output processor of the
    front end. *)

From stdpp Require Export base tactics numbers list gmap sets strings.
From Stdlib Require Export ZArith Lia ZifyBool.
From Stdlib Require Import Strings.Byte.

#[export] Set Default Goal Selector "!".

(** ** Python exceptions, fallible results and the state-and-exception monad *)

(** The exceptions the modelled code raises, [PlainException] where it raises
    [Exception] itself; [FuelExhausted] is none of them: a
    loop that runs out of its fuel ends in it, and theorems exclude it. *)
Inductive exn :=
  | AssertionError
  | ValueError
  | RuntimeError
  | KeyError
  | IndexError
  | OverflowError
  | AttributeError
  | TypeError
  | NotImplementedError
  | ZeroDivisionError
  | StopIteration
  | PlainException
  | FuelExhausted.

#[export] Instance exn_eq_dec : EqDecision exn.
Proof. solve_decision. Defined.

(** The outcome of an evaluation: a value or a raised exception. *)
Inductive res (A : Type) :=
  | Ok (a : A)
  | Err (e : exn).
Arguments Ok {A} a.
Arguments Err {A} e.

#[export] Instance res_eq_dec `{EqDecision A} : EqDecision (res A).
Proof. solve_decision. Defined.

(** A method body: it reads and updates the object state [S] and either returns
    or raises.  The state reached when an exception is raised is kept, because
    Python does not roll back the updates made before a [raise]. *)
Definition M (S A : Type) : Type := S -> res A * S.

#[export] Instance res_ret : MRet res := fun A a => Ok a.
#[export] Instance res_bind : MBind res := fun A B f m =>
  match m with Ok a => f a | Err e => Err e end.

#[export] Instance M_ret {S} : MRet (M S) := fun A a s => (Ok a, s).
#[export] Instance M_bind {S} : MBind (M S) := fun A B f m s =>
  match m s with
  | (Ok a, s') => f a s'
  | (Err e, s') => (Err e, s')
  end.

Section Monad.
Context {S : Type}.

Definition raise {A} (e : exn) : M S A := fun s => (Err e, s).
Definition gets {A} (f : S -> A) : M S A := fun s => (Ok (f s), s).
Definition modify (f : S -> S) : M S unit := fun s => (Ok tt, f s).
Definition py_assert (b : bool) : M S unit := if b then mret tt else raise AssertionError.
Definition lift_res {A} (r : res A) : M S A := fun s => (r, s).
Definition lift_opt {A} (e : exn) (o : option A) : M S A :=
  match o with Some a => mret a | None => raise e end.
Definition when (b : bool) (m : M S unit) : M S unit := if b then m else mret tt.

(** [for x in l: body x] *)
Fixpoint forM_ {A} (l : list A) (body : A -> M S unit) : M S unit :=
  match l with
  | [] => mret tt
  | x :: l' => body x ;; forM_ l' body
  end.

(** [for x in l: acc = body acc x] *)
Fixpoint foldM {A B} (body : B -> A -> M S B) (acc : B) (l : list A) : M S B :=
  match l with
  | [] => mret acc
  | x :: l' => acc' ← body acc x ; foldM body acc' l'
  end.
End Monad.

(** Run a method of a sub-object of [S]. *)
Definition zoom {S T A} (get : S -> T) (put : T -> S -> S) (m : M T A) : M S A :=
  fun s => match m (get s) with (r, t) => (r, put t s) end.

(** ** Total-correctness weakest preconditions *)

(** [wp m Q s]: running [m] from [s] does not raise and ends in [Q]. *)
Definition wp {S A} (m : M S A) (Q : A -> S -> Prop) (s : S) : Prop :=
  match m s with (Ok a, s') => Q a s' | (Err _, _) => False end.

Section Wp.
Context {S : Type}.
Implicit Types s : S.

Lemma wp_run {A} (m : M S A) Q s :
  wp m Q s <-> exists a s', m s = (Ok a, s') /\ Q a s'.
Proof.
  unfold wp. destruct (m s) as [[a|e] s']; split.
  - intros HQ. by eexists _, _.
  - by intros (? & ? & [= <- <-] & ?).
  - done.
  - by intros (? & ? & ? & ?).
Qed.

Lemma wp_ok {A} (m : M S A) (Q : A -> S -> Prop) s a s' :
  m s = (Ok a, s') -> Q a s' -> wp m Q s.
Proof. unfold wp. by intros ->. Qed.

Lemma wp_mono {A} (m : M S A) (Q Q' : A -> S -> Prop) s :
  wp m Q s -> (forall a s', Q a s' -> Q' a s') -> wp m Q' s.
Proof. unfold wp. destruct (m s) as [[]]; naive_solver. Qed.

Lemma wp_ret {A} (a : A) (Q : A -> S -> Prop) s : Q a s -> wp (mret a) Q s.
Proof. done. Qed.

Lemma wp_bind {A B} (m : M S A) (f : A -> M S B) Q s :
  wp m (fun a s' => wp (f a) Q s') s -> wp (m ≫= f) Q s.
Proof. unfold wp, mbind, M_bind. by destruct (m s) as [[]]. Qed.

Lemma wp_gets {A} (f : S -> A) (Q : A -> S -> Prop) s : Q (f s) s -> wp (gets f) Q s.
Proof. done. Qed.

Lemma wp_modify (f : S -> S) (Q : unit -> S -> Prop) s : Q tt (f s) -> wp (modify f) Q s.
Proof. done. Qed.

Lemma wp_assert (b : bool) (Q : unit -> S -> Prop) s :
  b = true -> Q tt s -> wp (py_assert b) Q s.
Proof. by intros ->. Qed.

Lemma wp_lift_res {A} (a : A) (Q : A -> S -> Prop) r s :
  r = Ok a -> Q a s -> wp (lift_res r) Q s.
Proof. by intros ->. Qed.

Lemma wp_lift_opt {A} (a : A) (Q : A -> S -> Prop) e o s :
  o = Some a -> Q a s -> wp (lift_opt e o) Q s.
Proof. by intros ->. Qed.

Lemma wp_when (b : bool) (m : M S unit) (Q : unit -> S -> Prop) s :
  (b = true -> wp m Q s) -> (b = false -> Q tt s) -> wp (when b m) Q s.
Proof. destruct b; unfold when; [auto | intros _ H; by apply H]. Qed.

(** The loop rule: [I done todo] holds between iterations. *)
Lemma wp_forM_ {A} (I : list A -> list A -> S -> Prop) (body : A -> M S unit) l0 l s Q :
  I l0 l s ->
  (forall d x t s', I d (x :: t) s' -> wp (body x) (fun _ s'' => I (d ++ [x]) t s'') s') ->
  (forall s', I (l0 ++ l) [] s' -> Q tt s') ->
  wp (forM_ l body) Q s.
Proof.
  revert l0 s. induction l as [|x l IH]; intros l0 s HI Hstep Hend; simpl.
  - apply wp_ret, Hend. by rewrite app_nil_r.
  - apply wp_bind. eapply wp_mono; [by eapply Hstep|].
    intros [] s' HI'. eapply IH; [exact HI' | done |].
    intros s'' HI''. apply Hend. by rewrite <-app_assoc in HI''.
Qed.

Lemma wp_foldM {A B} (I : list A -> list A -> B -> S -> Prop) (body : B -> A -> M S B)
    l0 l b s Q :
  I l0 l b s ->
  (forall d x t b' s', I d (x :: t) b' s' ->
     wp (body b' x) (fun b'' s'' => I (d ++ [x]) t b'' s'') s') ->
  (forall b' s', I (l0 ++ l) [] b' s' -> Q b' s') ->
  wp (foldM body b l) Q s.
Proof.
  revert l0 b s. induction l as [|x l IH]; intros l0 b s HI Hstep Hend; simpl.
  - apply wp_ret, Hend. by rewrite app_nil_r.
  - apply wp_bind. eapply wp_mono; [by eapply Hstep|].
    intros b' s' HI'. eapply IH; [exact HI' | done |].
    intros b'' s'' HI''. apply Hend. by rewrite <-app_assoc in HI''.
Qed.
End Wp.

Lemma wp_zoom {S T A} (get : S -> T) (put : T -> S -> S) (m : M T A) Q s :
  wp m (fun a t => Q a (put t s)) (get s) -> wp (zoom get put m) Q s.
Proof. unfold wp, zoom. by destruct (m (get s)) as [[]]. Qed.

(** Symbolic execution of straight-line code. *)
Ltac wp_step :=
  match goal with
  | |- wp (mbind _ _) _ _ => apply wp_bind
  | |- wp (mret _) _ _ => apply wp_ret
  | |- wp (gets _) _ _ => apply wp_gets; cbn beta
  | |- wp (modify _) _ _ => apply wp_modify; cbn beta
  | |- wp (zoom _ _ _) _ _ => apply wp_zoom; cbn beta
  | |- wp (lift_res _) _ _ => eapply wp_lift_res; [eassumption|]
  | |- wp (lift_opt _ _) _ _ => eapply wp_lift_opt; [eassumption|]
  | |- wp (py_assert _) _ _ => apply wp_assert; [try done | ]
  end.
Ltac wp_steps := repeat wp_step.

(** ** Python integers and sequences *)

Local Open Scope Z_scope.

(** [len(l)]. *)
Definition zlen {A} (l : list A) : Z := Z.of_nat (length l).

(** [range(lo, hi)]. *)
Definition zrange (lo hi : Z) : list Z := seqZ lo (hi - lo).

(** [range(hi - 1, lo - 1, -1)]. *)
Definition zrange_down (hi lo : Z) : list Z := reverse (zrange lo hi).

(** A slice bound: negative bounds count from the end, all are clipped. *)
Definition py_clip (n i : Z) : Z := if i <? 0 then Z.max 0 (n + i) else Z.min i n.

(** [l[lo:hi]]. *)
Definition py_slice {A} (l : list A) (lo hi : Z) : list A :=
  let a := py_clip (zlen l) lo in
  let b := py_clip (zlen l) hi in
  take (Z.to_nat (b - a)) (drop (Z.to_nat a) l).

(** [l[lo:]] and [l[:hi]]. *)
Definition py_slice_from {A} (l : list A) (lo : Z) : list A := py_slice l lo (zlen l).
Definition py_slice_to {A} (l : list A) (hi : Z) : list A := py_slice l 0 hi.

(** [l[i]]: negative indices count from the end, others raise [IndexError]. *)
Definition py_get {A} (l : list A) (i : Z) : res A :=
  let j := if i <? 0 then zlen l + i else i in
  if j <? 0 then Err IndexError
  else match l !! Z.to_nat j with Some x => Ok x | None => Err IndexError end.

(** [l[i] = x] for an index the caller has checked to be non-negative. *)
Definition py_set {A} (l : list A) (i : Z) (x : A) : list A := <[Z.to_nat i := x]> l.

(** [l.pop()]. *)
Definition py_pop {A} (l : list A) : res (list A) :=
  match l with [] => Err IndexError | _ => Ok (removelast l) end.

(** [[x] * n]. *)
Definition zreplicate {A} (n : Z) (x : A) : list A := replicate (Z.to_nat n) x.

(** Python's [//] and [%] by a divisor: both raise on zero, and both round
    towards minus infinity, as [Z.div] and [Z.modulo] do. *)
Definition py_floordiv (a b : Z) : res Z := if b =? 0 then Err ZeroDivisionError else Ok (a / b).
Definition py_mod (a b : Z) : res Z := if b =? 0 then Err ZeroDivisionError else Ok (a mod b).

(** [vllm/utils/math_utils.py: cdiv], for a non-zero divisor. *)
Definition cdiv (a b : Z) : Z := - (a / - b).

Lemma cdiv_eq a b : 0 < b -> cdiv a b = (a + b - 1) / b.
Proof.
  intros Hb. unfold cdiv.
  assert (Hd : a / - b = - ((a + b - 1) / b)).
  { symmetry. apply (Z.div_unique_neg a (-b) _ (a + b * (- ((a + b - 1) / b)))); [|lia].
    pose proof (Z.div_mod (a + b - 1) b ltac:(lia)) as E.
    pose proof (Z.mod_pos_bound (a + b - 1) b Hb). nia. }
  lia.
Qed.

Lemma cdiv_bounds a b : 0 < b -> (cdiv a b - 1) * b < a <= cdiv a b * b.
Proof.
  intros Hb. rewrite cdiv_eq by done.
  pose proof (Z.div_mod (a + b - 1) b ltac:(lia)).
  pose proof (Z.mod_pos_bound (a + b - 1) b Hb). nia.
Qed.

Lemma cdiv_nonneg a b : 0 < b -> 0 <= a -> 0 <= cdiv a b.
Proof. intros Hb Ha. pose proof (cdiv_bounds a b Hb). nia. Qed.

Lemma cdiv_le_mono a a' b : 0 < b -> a <= a' -> cdiv a b <= cdiv a' b.
Proof.
  intros Hb Ha. rewrite !cdiv_eq by done. apply Z.div_le_mono; lia.
Qed.

Lemma cdiv_le_iff a b n : 0 < b -> cdiv a b <= n <-> a <= n * b.
Proof. intros Hb. pose proof (cdiv_bounds a b Hb). split; nia. Qed.

Lemma floordiv_le_cdiv a b : 0 < b -> a / b <= cdiv a b.
Proof.
  intros Hb. pose proof (cdiv_bounds a b Hb). pose proof (Z.mul_div_le a b Hb). nia.
Qed.

Section Slices.
Context {A : Type}.
Implicit Types l : list A.

Lemma zlen_nonneg l : 0 <= zlen l.
Proof. unfold zlen; lia. Qed.

Lemma zlen_app l1 l2 : zlen (l1 ++ l2) = zlen l1 + zlen l2.
Proof. unfold zlen. rewrite length_app. lia. Qed.

Lemma zlen_cons (x : A) l : zlen (x :: l) = 1 + zlen l.
Proof. unfold zlen. simpl. lia. Qed.

Lemma zlen_nil : zlen (@nil A) = 0.
Proof. done. Qed.

Lemma zlen_zreplicate n (x : A) : zlen (zreplicate n x) = Z.max 0 n.
Proof. unfold zlen, zreplicate. rewrite length_replicate. lia. Qed.

Lemma py_slice_nonneg l lo hi :
  0 <= lo -> 0 <= hi ->
  py_slice l lo hi = take (Z.to_nat (hi - lo)) (drop (Z.to_nat lo) l).
Proof.
  intros Hlo Hhi. unfold py_slice, py_clip.
  replace (lo <? 0) with false by lia. replace (hi <? 0) with false by lia.
  unfold zlen. destruct (decide (lo <= Z.of_nat (length l))).
  - rewrite (Z.min_l lo) by lia.
    destruct (decide (hi <= Z.of_nat (length l))).
    + by rewrite Z.min_l by lia.
    + rewrite Z.min_r by lia. rewrite !take_ge; rewrite ?length_drop; try lia; done.
  - rewrite (Z.min_r lo) by lia.
    rewrite !(drop_ge l) by lia. by rewrite !take_nil.
Qed.

Lemma py_slice_from_nonneg l lo : 0 <= lo -> py_slice_from l lo = drop (Z.to_nat lo) l.
Proof.
  intros Hlo. unfold py_slice_from. rewrite py_slice_nonneg by (unfold zlen; lia).
  rewrite take_ge; [done|]. rewrite length_drop. unfold zlen. lia.
Qed.

Lemma py_slice_to_nonneg l hi : 0 <= hi -> py_slice_to l hi = take (Z.to_nat hi) l.
Proof.
  intros Hhi. unfold py_slice_to. rewrite py_slice_nonneg by lia.
  by rewrite Z.sub_0_r.
Qed.

Lemma py_get_nonneg l i :
  0 <= i -> py_get l i = match l !! Z.to_nat i with Some x => Ok x | None => Err IndexError end.
Proof.
  intros Hi. unfold py_get. replace (i <? 0) with false by lia.
  by replace (i <? 0) with false by lia.
Qed.

Lemma py_get_Some l i x :
  0 <= i -> l !! Z.to_nat i = Some x -> py_get l i = Ok x.
Proof. intros Hi Hl. by rewrite py_get_nonneg, Hl. Qed.

Lemma py_pop_snoc l (x : A) : py_pop (l ++ [x]) = Ok l.
Proof.
  unfold py_pop. rewrite removelast_last. by destruct l.
Qed.
End Slices.

Lemma lookup_zrange lo hi (k : nat) :
  zrange lo hi !! k = if decide (lo + Z.of_nat k < hi) then Some (lo + Z.of_nat k) else None.
Proof.
  unfold zrange. case_decide.
  - by rewrite lookup_seqZ_lt by lia.
  - by rewrite lookup_seqZ_ge by lia.
Qed.

Lemma elem_of_zrange lo hi i : i ∈ zrange lo hi <-> lo <= i < hi.
Proof. unfold zrange. rewrite elem_of_seqZ. lia. Qed.

Lemma zrange_nil lo hi : hi <= lo -> zrange lo hi = [].
Proof. intros. apply seqZ_nil. lia. Qed.

Lemma zrange_cons lo hi : lo < hi -> zrange lo hi = lo :: zrange (lo + 1) hi.
Proof.
  intros. unfold zrange. rewrite seqZ_cons by lia. unfold Z.succ.
  by replace (Z.pred (hi - lo)) with (hi - (lo + 1)) by lia.
Qed.

Lemma zrange_snoc lo hi : lo <= hi -> zrange lo (hi + 1) = zrange lo hi ++ [hi].
Proof.
  intros. unfold zrange. replace (hi + 1 - lo) with ((hi - lo) + 1) by lia.
  rewrite seqZ_app by lia. f_equal. simpl. rewrite seqZ_cons by lia.
  rewrite seqZ_nil by lia. f_equal. lia.
Qed.

Lemma zrange_down_cons lo hi : lo <= hi -> zrange_down (hi + 1) lo = hi :: zrange_down hi lo.
Proof.
  intros. unfold zrange_down. by rewrite zrange_snoc, reverse_app.
Qed.

Lemma zrange_down_nil lo hi : hi <= lo -> zrange_down hi lo = [].
Proof. intros. unfold zrange_down. by rewrite zrange_nil. Qed.

(** ** Byte strings and big-endian integers *)

Abbreviation bytes := (list byte).

#[export] Instance byte_eq_dec : EqDecision byte := Byte.byte_eq_dec.
#[export] Program Instance byte_countable : Countable byte :=
  inj_countable Byte.to_N Byte.of_N Byte.of_to_N.

Definition byte_of_Z (z : Z) : byte :=
  match Byte.of_N (Z.to_N (z mod 256)) with Some b => b | None => x00 end.
Definition byte_to_Z (b : byte) : Z := Z.of_N (Byte.to_N b).

(** [int.from_bytes(l, "big")]. *)
Definition from_bytes_be (l : bytes) : Z := foldl (fun acc b => acc * 256 + byte_to_Z b) 0 l.

Fixpoint to_bytes_raw (n : nat) (z : Z) : bytes :=
  match n with
  | O => []
  | S n' => to_bytes_raw n' (z / 256) ++ [byte_of_Z z]
  end.

(** [z.to_bytes(n, "big", signed=False)]: raises when [z] does not fit. *)
Definition to_bytes_be (n : nat) (z : Z) : res bytes :=
  if (0 <=? z) && (z <? 256 ^ Z.of_nat n) then Ok (to_bytes_raw n z) else Err OverflowError.

Lemma byte_of_to_Z z : byte_to_Z (byte_of_Z z) = z mod 256.
Proof.
  unfold byte_to_Z, byte_of_Z. pose proof (Z.mod_pos_bound z 256 ltac:(lia)).
  destruct (Byte.of_N (Z.to_N (z mod 256))) eqn:E.
  - apply Byte.to_of_N in E. rewrite E. lia.
  - apply Byte.of_N_None_iff in E. lia.
Qed.

Lemma length_to_bytes_raw n z : length (to_bytes_raw n z) = n.
Proof. revert z. induction n; intros z; simpl; [done|]. rewrite length_app, IHn. simpl. lia. Qed.

Lemma from_to_bytes_raw n z :
  0 <= z < 256 ^ Z.of_nat n -> from_bytes_be (to_bytes_raw n z) = z.
Proof.
  revert z. induction n as [|n IH]; intros z Hz.
  - simpl in *. unfold from_bytes_be; simpl. lia.
  - simpl to_bytes_raw. unfold from_bytes_be in *. rewrite foldl_snoc, IH.
    + rewrite byte_of_to_Z. pose proof (Z.div_mod z 256 ltac:(lia)). lia.
    + rewrite Nat2Z.inj_succ, Z.pow_succ_r in Hz by lia.
      split; [apply Z.div_pos; lia|]. apply Z.div_lt_upper_bound; lia.
Qed.

(** ** Filters that keep everything or nothing *)

Lemma filter_all_out {A} (P : A -> Prop) `{forall x, Decision (P x)} (l : list A) :
  (forall x, x ∈ l -> ~ P x) -> filter P l = [].
Proof.
  intros Hl. destruct (filter P l) as [|x k] eqn:E; [done|].
  assert (Hx : x ∈ filter P l) by (rewrite E; left). apply list_elem_of_filter in Hx as [? ?].
  by destruct (Hl x).
Qed.

Lemma filter_all_in {A} (P : A -> Prop) `{forall x, Decision (P x)} (l : list A) :
  (forall x, x ∈ l -> P x) -> filter P l = l.
Proof.
  induction l as [|x l IH]; intros Hl; [done|]. rewrite filter_cons, decide_True, IH.
  - done.
  - intros y Hy. apply Hl. by right.
  - apply Hl. left.
Qed.

Lemma filter_ext_in {A} (P Q : A -> Prop) `{forall x, Decision (P x)} `{forall x, Decision (Q x)} (l : list A) :
  (forall x, x ∈ l -> P x <-> Q x) -> filter P l = filter Q l.
Proof.
  induction l as [|x l IH]; intros Hl; [done|]. rewrite !filter_cons, IH by (intros; apply Hl; by right).
  destruct (Hl x ltac:(left)). by repeat case_decide; tauto.
Qed.

(** ** Occurrence counts

    Block reference counts are compared with the number of times a block occurs
    in the block tables, so counting occurrences in lists is shared by every
    component of the KV cache. *)
Definition occ `{EqDecision A} (x : A) (l : list A) : nat := length (filter (x =.) l).

Section Occ.
Context `{EqDecision A}.
Implicit Types (x y : A) (l : list A).
Local Open Scope nat_scope.

Lemma occ_nil x : occ x [] = 0.
Proof. done. Qed.

Lemma occ_cons x y l : occ x (y :: l) = (if decide (x = y) then 1 else 0) + occ x l.
Proof. unfold occ. rewrite filter_cons. by case_decide. Qed.

Lemma occ_cons_eq x l : occ x (x :: l) = S (occ x l).
Proof. rewrite occ_cons. by rewrite decide_True by done. Qed.

Lemma occ_cons_ne x y l : x <> y -> occ x (y :: l) = occ x l.
Proof. intros. rewrite occ_cons. by rewrite decide_False by done. Qed.

Lemma occ_app x l1 l2 : occ x (l1 ++ l2) = occ x l1 + occ x l2.
Proof. unfold occ. by rewrite filter_app, length_app. Qed.

Lemma occ_0_iff x l : occ x l = 0 <-> x ∉ l.
Proof.
  induction l as [|y l IH]; [by split; [inversion 2 | done]|].
  rewrite occ_cons, not_elem_of_cons. case_decide as E.
  - split; [lia | by intros [? _]].
  - rewrite <-IH. split; [by intros | by intros [_ ?]].
Qed.

Lemma occ_pos_iff x l : 0 < occ x l <-> x ∈ l.
Proof.
  destruct (decide (x ∈ l)) as [Hx|Hx]; split; try done.
  - intros _. destruct (occ x l) eqn:E; [by apply occ_0_iff in E | lia].
  - apply occ_0_iff in Hx. lia.
Qed.

Lemma occ_perm x l1 l2 : l1 ≡ₚ l2 -> occ x l1 = occ x l2.
Proof. intros Hp. unfold occ. by rewrite Hp. Qed.

#[global] Instance occ_proper x : Proper ((≡ₚ) ==> (=)) (occ x).
Proof. intros ???. by apply occ_perm. Qed.

Lemma occ_reverse x l : occ x (reverse l) = occ x l.
Proof. by rewrite reverse_Permutation. Qed.

Lemma occ_NoDup x l : NoDup l -> occ x l <= 1.
Proof.
  induction 1 as [|y l Hy _ IH]; [by rewrite occ_nil; lia|].
  rewrite occ_cons. case_decide; [|lia]. subst. apply occ_0_iff in Hy. lia.
Qed.

Lemma occ_NoDup_elem x l : NoDup l -> x ∈ l -> occ x l = 1.
Proof. intros Hn Hx. pose proof (occ_NoDup x l Hn). apply occ_pos_iff in Hx. lia. Qed.

Lemma occ_replicate_ne x y n : x <> y -> occ x (replicate n y) = 0.
Proof. intros Hne. apply occ_0_iff. by intros [-> _]%elem_of_replicate. Qed.

Lemma occ_insert x y z l i :
  l !! i = Some y ->
  occ x (<[i := z]> l) + (if decide (x = y) then 1 else 0)
  = occ x l + (if decide (x = z) then 1 else 0).
Proof.
  revert i. induction l as [|w l IH]; intros [|i]; simpl; try done.
  - intros [= ->]. rewrite !occ_cons. lia.
  - intros Hi. rewrite !occ_cons. specialize (IH i Hi). lia.
Qed.

Lemma occ_le1_unique x l i j : occ x l <= 1 -> l !! i = Some x -> l !! j = Some x -> i = j.
Proof.
  revert i j. induction l as [|y l IH]; intros [|i] [|j]; simpl; try done; rewrite occ_cons.
  - intros Ho [= ->] Hj. apply list_elem_of_lookup_2, occ_pos_iff in Hj. rewrite decide_True in Ho by done. lia.
  - intros Ho Hi [= ->]. apply list_elem_of_lookup_2, occ_pos_iff in Hi. rewrite decide_True in Ho by done. lia.
  - intros Ho Hi Hj. f_equal. apply IH; [lia|done|done].
Qed.

Lemma occ_filter_le x (P : A -> Prop) `{forall y, Decision (P y)} l : occ x (filter P l) <= occ x l.
Proof.
  induction l as [|y l IH]; [done|]. rewrite filter_cons. case_decide; rewrite !occ_cons; lia.
Qed.

Lemma NoDup_occ l : (forall x, x ∈ l -> occ x l <= 1) -> NoDup l.
Proof.
  induction l as [|y l IH]; intros Hocc; [constructor|]. apply NoDup_cons. split.
  - intros Hy. specialize (Hocc y ltac:(left)). rewrite occ_cons_eq in Hocc.
    apply occ_pos_iff in Hy. lia.
  - apply IH. intros x Hx. specialize (Hocc x ltac:(by right)). rewrite occ_cons in Hocc. lia.
Qed.
End Occ.

(** ** Sums *)

(** [sum(l)] *)
Definition zsum (l : list Z) : Z := foldr Z.add 0 l.

Lemma zsum_cons x l : zsum (x :: l) = x + zsum l.
Proof. done. Qed.

Lemma zsum_app l l' : zsum (l ++ l') = zsum l + zsum l'.
Proof. induction l as [|x l IH]; simpl; [done|]. unfold zsum in *. simpl. lia. Qed.

#[export] Instance zsum_proper : Proper ((≡ₚ) ==> (=)) zsum.
Proof. intros l l'. induction 1; rewrite ?zsum_cons; lia. Qed.

Lemma zsum_replicate n x : zsum (replicate n x) = Z.of_nat n * x.
Proof. induction n as [|n IH]; [done|]. rewrite replicate_S, zsum_cons, IH. lia. Qed.

Lemma zsum_scaled n ps : zsum (map (fun p => p * n) ps) = zsum ps * n.
Proof. induction ps as [|p ps IH]; [done|]. cbn [map]. rewrite !zsum_cons, IH. lia. Qed.

Lemma zsum_const {A} (x : Z) (l : list A) : zsum (map (fun _ => x) l) = zlen l * x.
Proof. induction l as [|y l IH]; [done|]. cbn [map]. rewrite zsum_cons, IH. unfold zlen. cbn [length]. lia. Qed.

Lemma zsum_positive {A} (f : A -> Z) l : (forall x, x ∈ l -> 0 < f x) -> 0 <= zsum (map f l).
Proof.
  induction l as [|x l IH]; intros H; [done|]. cbn [map]. rewrite zsum_cons.
  specialize (IH ltac:(intros y Hy; apply H; by right)). specialize (H x ltac:(left)). lia.
Qed.

Create HintDb vllm discriminated.
Create Rewrite HintDb vllm.
#[export] Hint Resolve zlen_nonneg cdiv_nonneg wp_ret : vllm.
#[export] Hint Rewrite @zlen_app @zlen_cons @zlen_nil @zlen_zreplicate : vllm.
#[export] Hint Rewrite @occ_app @occ_nil @occ_reverse : vllm.
