(* ===== verification/PyDict.v ===== *)
(** Python dictionaries whose order is observed: pairs in insertion order, with
    the operations of [dict] and [OrderedDict] and their lemmas. *)
From S2P Require Import Prelude.
Local Open Scope Z_scope.

(** ** Operations *)

Section OrderedDict.
Context {K V : Type} `{EqDecision K}.

Fixpoint od_lookup (k : K) (d : list (K * V)) : option V :=
  match d with
  | [] => None
  | (k', v) :: d' => if decide (k = k') then Some v else od_lookup k d'
  end.

Fixpoint od_delete (k : K) (d : list (K * V)) : list (K * V) :=
  match d with
  | [] => []
  | (k', v) :: d' => if decide (k = k') then d' else (k', v) :: od_delete k d'
  end.

(** [d[k] = v]: an existing key keeps its place, a new one goes to the end. *)
Fixpoint od_set (k : K) (v : V) (d : list (K * V)) : list (K * V) :=
  match d with
  | [] => [(k, v)]
  | (k', v') :: d' => if decide (k = k') then (k, v) :: d' else (k', v') :: od_set k v d'
  end.
(** [k in d], [d.pop(k, None)] and [d.keys()]. *)
Definition od_mem (k : K) (d : list (K * V)) : bool := bool_decide (is_Some (od_lookup k d)).
Definition od_pop (k : K) (d : list (K * V)) : option (V * list (K * V)) :=
  v ← od_lookup k d ; Some (v, od_delete k d).
Definition od_keys (d : list (K * V)) : list K := map fst d.

(** [del d[k]], [d.move_to_end(k)] and [d.popitem(last=False)]. *)
Definition od_del (k : K) (d : list (K * V)) : res (list (K * V)) :=
  if od_mem k d then Ok (od_delete k d) else Err KeyError.
Definition od_move_to_end (k : K) (d : list (K * V)) : res (list (K * V)) :=
  match od_lookup k d with Some v => Ok (od_delete k d ++ [(k, v)]) | None => Err KeyError end.
Definition od_popitem_first (d : list (K * V)) : res ((K * V) * list (K * V)) :=
  match d with kv :: d' => Ok (kv, d') | [] => Err KeyError end.
End OrderedDict.

(** ** Lemmas *)

Section OdLemmas.
Context {K V : Type} `{EqDecision K}.
Implicit Types d : list (K * V).

Lemma od_lookup_Some k v d : NoDup (map fst d) -> od_lookup k d = Some v <-> (k, v) ∈ d.
Proof.
  induction d as [|[k' v'] d IH]; simpl.
  - intros _. split; [done|]. by intros ?%elem_of_nil.
  - intros [Hk Hnd]%NoDup_cons. rewrite elem_of_cons. case_decide as E.
    + subst k'. split; [intros [= ->]; by left|]. intros [[= ->] | Hin]; [done|].
      destruct Hk. by apply (list_elem_of_fmap_2 fst) in Hin.
    + rewrite IH by done. naive_solver.
Qed.

Lemma od_delete_elem k d kv : NoDup (map fst d) -> kv ∈ od_delete k d <-> kv ∈ d /\ kv.1 <> k.
Proof.
  destruct kv as [k1 v1]. induction d as [|[k' v'] d IH]; simpl.
  - intros _. rewrite !elem_of_nil. naive_solver.
  - intros [Hk Hnd]%NoDup_cons. specialize (IH Hnd). case_decide as E; simpl.
    + subst k'. rewrite elem_of_cons. split; [|naive_solver].
      intros Hin. split; [by right|]. intros ->. destruct Hk. by apply (list_elem_of_fmap_2 fst) in Hin.
    + rewrite !elem_of_cons, IH. naive_solver.
Qed.

Lemma od_delete_sublist k d : od_delete k d `sublist_of` d.
Proof. induction d as [|[k' v'] d IH]; simpl; [done|]. case_decide; by constructor. Qed.

Lemma od_delete_NoDup k d : NoDup (map fst d) -> NoDup (map fst (od_delete k d)).
Proof.
  intros Hnd. eapply sublist_NoDup; [exact Hnd|]. apply (fmap_sublist fst), od_delete_sublist.
Qed.

Lemma od_set_new k v d : k ∉ map fst d -> od_set k v d = d ++ [(k, v)].
Proof.
  induction d as [|[k' v'] d IH]; simpl; [done|]. intros [Hne Hn]%not_elem_of_cons.
  rewrite decide_False by done. by rewrite IH.
Qed.

(** [d[k]] after [d[k'] = v]. *)
Lemma od_lookup_set k k' v d : od_lookup k (od_set k' v d) = if decide (k = k') then Some v else od_lookup k d.
Proof.
  induction d as [|[k1 v1] d IH]; simpl; [done|]. repeat case_decide; simplify_eq/=; rewrite ?decide_True, ?decide_False by done; try done.
Qed.

(** Assigning to a key that is there keeps the keys and their order. *)
Lemma od_set_keys k v d : is_Some (od_lookup k d) -> od_keys (od_set k v d) = od_keys d.
Proof.
  unfold od_keys. induction d as [|[k1 v1] d IH]; simpl; [by intros []|]. case_decide; simpl; [by subst|]. intros Hs. by rewrite IH.
Qed.

Lemma od_lookup_keys k d : is_Some (od_lookup k d) <-> k ∈ od_keys d.
Proof.
  unfold od_keys. induction d as [|[k1 v1] d IH]; simpl; [split; [by intros []|by intros ?%elem_of_nil]|].
  rewrite elem_of_cons. case_decide; naive_solver.
Qed.

Lemma od_lookup_None k d : od_lookup k d = None <-> k ∉ od_keys d.
Proof. rewrite <-od_lookup_keys, <-eq_None_not_Some. done. Qed.

Lemma od_mem_spec k d : od_mem k d = true <-> k ∈ od_keys d.
Proof. unfold od_mem. by rewrite bool_decide_eq_true, od_lookup_keys. Qed.

Lemma od_delete_perm k v d : od_lookup k d = Some v -> d ≡ₚ (k, v) :: od_delete k d.
Proof.
  induction d as [|[k' v'] d IH]; simpl; [done|]. case_decide as E.
  - intros [= ->]. by subst.
  - intros H. rewrite perm_swap. by rewrite <-IH.
Qed.

Lemma od_delete_notin k d : k ∉ od_keys d -> od_delete k d = d.
Proof.
  unfold od_keys. induction d as [|[k' v'] d IH]; simpl; [done|]. intros [Hne Hn]%not_elem_of_cons.
  rewrite decide_False by done. by rewrite IH.
Qed.

Lemma od_move_to_end_ok k v d : od_lookup k d = Some v ->
  od_move_to_end k d = Ok (od_delete k d ++ [(k, v)]) /\ od_delete k d ++ [(k, v)] ≡ₚ d.
Proof.
  intros H. unfold od_move_to_end. rewrite H. split; [done|].
  rewrite (od_delete_perm k v d H) at 2. symmetry. apply Permutation_cons_append.
Qed.

(** The values in the order of the keys. *)
Lemma od_values d (x : V) : NoDup (od_keys d) -> map snd d = map (fun k => default x (od_lookup k d)) (od_keys d).
Proof.
  unfold od_keys. intros Hnd. rewrite map_map. apply map_ext_in. intros [k v] Hin. apply list_elem_of_In in Hin.
  simpl. by rewrite (proj2 (od_lookup_Some k v d Hnd) Hin).
Qed.
End OdLemmas.
