(* ===== verification/FreeQueue.v ===== *)
(** * KV-cache block objects and the queue of free blocks

    [vllm/v1/core/kv_cache_utils.py]: [KVCacheBlock] and
    [FreeKVCacheBlockQueue].  Blocks are Python objects that the queue, the
    block pool and every block table share, so they live in a store indexed by
    object identity ([ref]); the queue threads a doubly linked list through the
    [prev_free_block] / [next_free_block] attributes of the store's objects.

    The abstract specification of the queue is a list of references
    ([queue_repr]); the theorems show that every operation implements the list
    operation it stands for and leaves the data of the blocks untouched. *)
From S2P Require Import Prelude.
Local Open Scope Z_scope.

(** ** Object identities and block objects *)

(** The identity of a block object: the two sentinels of the queue or the
    [i]-th block of the pool. *)
Inductive ref := Head | Tail | Blk (i : nat).

#[export] Instance ref_eq_dec : EqDecision ref.
Proof. solve_decision. Defined.

#[export] Program Instance ref_countable : Countable ref :=
  inj_countable' (fun r => match r with Head => None | Tail => Some None | Blk i => Some (Some i) end)
    (fun o => match o with None => Head | Some None => Tail | Some (Some i) => Blk i end) _.
Next Obligation. by intros []. Qed.

#[export] Instance ref_inhabited : Inhabited ref := populate Head.

(** [class KVCacheBlock]. *)
Record KVCacheBlock := mkBlock {
  block_id : Z;
  ref_cnt : Z;
  block_hash : option bytes;
  prev_free_block : option ref;
  next_free_block : option ref;
  is_null : bool
}.

(** [KVCacheBlock(block_id=id)]: the dataclass defaults. *)
Definition new_block (id : Z) : KVCacheBlock := mkBlock id 0 None None None false.

Definition set_prev (p : option ref) (b : KVCacheBlock) : KVCacheBlock :=
  mkBlock (block_id b) (ref_cnt b) (block_hash b) p (next_free_block b) (is_null b).
Definition set_next (n : option ref) (b : KVCacheBlock) : KVCacheBlock :=
  mkBlock (block_id b) (ref_cnt b) (block_hash b) (prev_free_block b) n (is_null b).
Definition set_ref_cnt (f : Z -> Z) (b : KVCacheBlock) : KVCacheBlock :=
  mkBlock (block_id b) (f (ref_cnt b)) (block_hash b) (prev_free_block b) (next_free_block b)
    (is_null b).
Definition set_hash (h : option bytes) (b : KVCacheBlock) : KVCacheBlock :=
  mkBlock (block_id b) (ref_cnt b) h (prev_free_block b) (next_free_block b) (is_null b).
Definition set_is_null (v : bool) (b : KVCacheBlock) : KVCacheBlock :=
  mkBlock (block_id b) (ref_cnt b) (block_hash b) (prev_free_block b) (next_free_block b) v.

(** ** The queue *)

(** The object store and the counter of the queue object.  The sentinels
    [fake_free_list_head] and [fake_free_list_tail] are the objects [Head] and
    [Tail] of the store. *)
Record FreeKVCacheBlockQueue := mkQueue {
  heap : gmap ref KVCacheBlock;
  num_free_blocks : Z
}.

Definition set_heap (f : gmap ref KVCacheBlock -> gmap ref KVCacheBlock)
    (q : FreeKVCacheBlockQueue) : FreeKVCacheBlockQueue :=
  mkQueue (f (heap q)) (num_free_blocks q).
Definition set_num (f : Z -> Z) (q : FreeKVCacheBlockQueue) : FreeKVCacheBlockQueue :=
  mkQueue (heap q) (f (num_free_blocks q)).

(** Attribute reads and writes of a block object. *)
Definition load (r : ref) : M FreeKVCacheBlockQueue KVCacheBlock :=
  fun q => match heap q !! r with Some b => (Ok b, q) | None => (Err AttributeError, q) end.
Definition upd (r : ref) (f : KVCacheBlock -> KVCacheBlock) : M FreeKVCacheBlockQueue unit :=
  modify (set_heap (alter f r)).
Definition new_object (r : ref) (b : KVCacheBlock) : M FreeKVCacheBlockQueue unit :=
  modify (set_heap <[r := b]>).

(** [FreeKVCacheBlockQueue.__init__] *)
Definition queue_init (blocks : list ref) : M FreeKVCacheBlockQueue unit :=
  let n := zlen blocks in
  modify (set_num (fun _ => n)) ;;
  forM_ (zrange 0 n) (fun i =>
    when (0 <? i)
      (b ← lift_res (py_get blocks i) ; p ← lift_res (py_get blocks (i - 1)) ;
       upd b (set_prev (Some p))) ;;
    when (i <? n - 1)
      (b ← lift_res (py_get blocks i) ; s ← lift_res (py_get blocks (i + 1)) ;
       upd b (set_next (Some s)))) ;;
  new_object Head (new_block (-1)) ;;
  new_object Tail (new_block (-1)) ;;
  if 0 <? n then
    first ← lift_res (py_get blocks 0) ; last ← lift_res (py_get blocks (-1)) ;
    upd Head (set_next (Some first)) ;;
    upd first (set_prev (Some Head)) ;;
    upd Tail (set_prev (Some last)) ;;
    upd last (set_next (Some Tail))
  else
    upd Head (set_next (Some Tail)) ;;
    upd Tail (set_prev (Some Head)).

(** [FreeKVCacheBlockQueue.popleft] *)
Definition popleft : M FreeKVCacheBlockQueue ref :=
  h ← load Head ;
  match next_free_block h with
  | None | Some Tail =>
      n ← gets num_free_blocks ; py_assert (n =? 0) ;; raise ValueError
  | Some first_block =>
      fb ← load first_block ;
      match next_free_block fb with
      | None => raise RuntimeError
      | Some nxt =>
          upd Head (set_next (Some nxt)) ;;
          upd nxt (set_prev (Some Head)) ;;
          upd first_block (set_prev None) ;;
          upd first_block (set_next None) ;;
          modify (set_num (fun n => n - 1)) ;;
          mret first_block
      end
  end.

(** One iteration of the loop of [popleft_n]: the accumulator is
    [(curr_block, ret)]. *)
Definition popleft_n_step (acc : option ref * list ref) (_ : Z) :
    M FreeKVCacheBlockQueue (option ref * list ref) :=
  match acc.1 with
  | None => raise AssertionError
  | Some curr_block =>
      b ← load curr_block ;
      upd curr_block (set_prev None) ;;
      upd curr_block (set_next None) ;;
      mret (next_free_block b, acc.2 ++ [curr_block])
  end.

(** [FreeKVCacheBlockQueue.popleft_n] *)
Definition popleft_n (n : Z) : M FreeKVCacheBlockQueue (list ref) :=
  if n =? 0 then mret [] else
  free ← gets num_free_blocks ;
  py_assert (n <=? free) ;;
  modify (set_num (fun k => k - n)) ;;
  h ← load Head ;
  acc ← foldM popleft_n_step (next_free_block h, []) (zrange 0 n) ;
  match acc.1 with
  | Some curr_block =>
      upd Head (set_next (Some curr_block)) ;;
      upd curr_block (set_prev (Some Head)) ;;
      mret acc.2
  | None => mret acc.2
  end.

(** [FreeKVCacheBlockQueue.remove] *)
Definition queue_remove (block : ref) : M FreeKVCacheBlockQueue unit :=
  b ← load block ;
  match prev_free_block b, next_free_block b with
  | Some p, Some n =>
      upd p (set_next (Some n)) ;;
      upd n (set_prev (Some p)) ;;
      upd block (set_prev None) ;;
      upd block (set_next None) ;;
      modify (set_num (fun k => k - 1))
  | _, _ => raise RuntimeError
  end.

(** [FreeKVCacheBlockQueue.append] *)
Definition queue_append (block : ref) : M FreeKVCacheBlockQueue unit :=
  t ← load Tail ;
  match prev_free_block t with
  | None => raise RuntimeError
  | Some last_block =>
      upd last_block (set_next (Some block)) ;;
      upd block (set_prev (Some last_block)) ;;
      upd block (set_next (Some Tail)) ;;
      upd Tail (set_prev (Some block)) ;;
      modify (set_num (fun k => k + 1))
  end.

(** [FreeKVCacheBlockQueue.append_n] *)
Definition append_n (blocks : list ref) : M FreeKVCacheBlockQueue unit :=
  if zlen blocks =? 0 then mret tt else
  t ← load Tail ;
  match prev_free_block t with
  | None => raise AssertionError
  | Some last0 =>
      last_block ← foldM (fun last_block block =>
        upd block (set_prev (Some last_block)) ;;
        upd last_block (set_next (Some block)) ;;
        mret block) last0 blocks ;
      upd last_block (set_next (Some Tail)) ;;
      upd Tail (set_prev (Some last_block)) ;;
      modify (set_num (fun k => k + zlen blocks))
  end.

(** The [while] loop of [get_all_free_blocks], with fuel; running out of fuel
    is reported as [None]. *)
Fixpoint walk (h : gmap ref KVCacheBlock) (fuel : nat) (curr : ref) : option (list ref) :=
  match fuel with
  | O => None
  | S fuel' =>
      match h !! curr ≫= next_free_block with
      | None => Some []
      | Some nxt => (curr ::.) <$> walk h fuel' nxt
      end
  end.

(** [FreeKVCacheBlockQueue.get_all_free_blocks] *)
Definition get_all_free_blocks (fuel : nat) (q : FreeKVCacheBlockQueue) : res (option (list ref)) :=
  match heap q !! Head ≫= next_free_block with
  | None => Err RuntimeError
  | Some first => Ok (walk (heap q) fuel first)
  end.

(** [[KVCacheBlock(idx) for idx in range(n)]]: the objects and the list. *)
Definition block_refs (n : nat) : list ref := Blk <$> seq 0 n.
Definition new_heap (n : nat) : gmap ref KVCacheBlock :=
  list_to_map ((fun i => (Blk i, new_block (Z.of_nat i))) <$> seq 0 n).

(** ** The pointer view of the store *)

Definition next_of (h : gmap ref KVCacheBlock) (r : ref) : option ref := h !! r ≫= next_free_block.
Definition prev_of (h : gmap ref KVCacheBlock) (r : ref) : option ref := h !! r ≫= prev_free_block.

(** Everything but the two link attributes. *)
Definition data_of (h : gmap ref KVCacheBlock) (r : ref) : option (Z * Z * option bytes * bool) :=
  (fun b => (block_id b, ref_cnt b, block_hash b, is_null b)) <$> h !! r.
Definition same_data (h h' : gmap ref KVCacheBlock) : Prop := forall r, data_of h' r = data_of h r.

(** [linked N P a l]: following [N] from [a] visits exactly [l], and [P] points
    back along the way. *)
Fixpoint linked (N P : ref -> option ref) (a : ref) (l : list ref) : Prop :=
  match l with
  | [] => True
  | b :: l' => N a = Some b /\ P b = Some a /\ linked N P b l'
  end.

Definition last_or (a : ref) (l : list ref) : ref := default a (last l).

(** The abstract state: [l] is the queue, in order. *)
Record queue_repr (q : FreeKVCacheBlockQueue) (l : list ref) : Prop := {
  repr_linked : linked (next_of (heap q)) (prev_of (heap q)) Head (l ++ [Tail]);
  repr_nodup : NoDup (Head :: l ++ [Tail]);
  repr_alloc : forall r, r ∈ Head :: l ++ [Tail] -> is_Some (heap q !! r);
  repr_off : forall r, r ∉ Head :: l ++ [Tail] ->
    next_of (heap q) r = None /\ prev_of (heap q) r = None;
  repr_tail : next_of (heap q) Tail = None;
  repr_num : num_free_blocks q = zlen l
}.

(** ** Lemmas on the pointer view *)

Lemma last_or_snoc a l x : last_or a (l ++ [x]) = x.
Proof. unfold last_or. by rewrite last_snoc. Qed.

Lemma last_or_cons a b l : last_or a (b :: l) = last_or b l.
Proof. unfold last_or. rewrite last_cons. by destruct (last l). Qed.

Lemma last_or_elem a l : last_or a l ∈ a :: l.
Proof.
  unfold last_or. destruct (last l) eqn:E; simpl; [|set_solver].
  apply last_Some_elem_of in E. set_solver.
Qed.

Lemma linked_app N P a l1 l2 :
  linked N P a (l1 ++ l2) <-> linked N P a l1 /\ linked N P (last_or a l1) l2.
Proof.
  revert a. induction l1 as [|b l1 IH]; intros a; simpl.
  - unfold last_or; simpl. tauto.
  - rewrite IH, last_or_cons. tauto.
Qed.

(** A chain does not see updates of [N] at its end or outside of it, nor
    updates of [P] at its start or outside of it. *)
Lemma linked_frame N P N' P' a l :
  NoDup (a :: l) ->
  (forall r, r ∈ a :: l -> r <> last_or a l -> N' r = N r) ->
  (forall r, r ∈ l -> P' r = P r) ->
  linked N P a l -> linked N' P' a l.
Proof.
  revert a. induction l as [|b l IH]; intros a Hnd HN HP; simpl; [done|].
  intros (H1 & H2 & H3). apply NoDup_cons in Hnd as [Ha Hnd].
  assert (a <> last_or b l) by (intros ->; apply Ha, last_or_elem).
  rewrite last_or_cons in HN. split_and!.
  - rewrite HN; [done | left | done].
  - rewrite HP; [done | left].
  - apply IH; [done | | | done].
    + intros r Hr. apply HN. by right.
    + intros r Hr. apply HP. by right.
Qed.

Lemma next_of_set_next h r x r' :
  is_Some (h !! r) ->
  next_of (alter (set_next x) r h) r' = if decide (r = r') then x else next_of h r'.
Proof.
  intros [b Hb]. unfold next_of. rewrite lookup_alter. case_decide; [subst|done].
  by rewrite Hb.
Qed.

Lemma prev_of_set_prev h r x r' :
  is_Some (h !! r) ->
  prev_of (alter (set_prev x) r h) r' = if decide (r = r') then x else prev_of h r'.
Proof.
  intros [b Hb]. unfold prev_of. rewrite lookup_alter. case_decide; [subst|done].
  by rewrite Hb.
Qed.

Lemma next_of_alter_same h r f r' :
  (forall b, next_free_block (f b) = next_free_block b) ->
  next_of (alter f r h) r' = next_of h r'.
Proof.
  intros Hf. unfold next_of. rewrite lookup_alter. case_decide; [subst|done].
  destruct (h !! r'); simpl; [by rewrite Hf | done].
Qed.

Lemma prev_of_alter_same h r f r' :
  (forall b, prev_free_block (f b) = prev_free_block b) ->
  prev_of (alter f r h) r' = prev_of h r'.
Proof.
  intros Hf. unfold prev_of. rewrite lookup_alter. case_decide; [subst|done].
  destruct (h !! r'); simpl; [by rewrite Hf | done].
Qed.

Lemma is_Some_alter (h : gmap ref KVCacheBlock) f r r' :
  is_Some (alter f r h !! r') <-> is_Some (h !! r').
Proof. rewrite lookup_alter. case_decide; [subst; by rewrite fmap_is_Some | done]. Qed.

Lemma data_of_alter h r f r' :
  (forall b, block_id (f b) = block_id b /\ ref_cnt (f b) = ref_cnt b /\
             block_hash (f b) = block_hash b /\ is_null (f b) = is_null b) ->
  data_of (alter f r h) r' = data_of h r'.
Proof.
  intros Hf. unfold data_of. rewrite lookup_alter. case_decide; [subst|done].
  destruct (h !! r') as [b|]; simpl; [|done].
  by destruct (Hf b) as (-> & -> & -> & ->).
Qed.

Lemma data_of_is_Some h h' r : data_of h' r = data_of h r -> is_Some (h !! r) <-> is_Some (h' !! r).
Proof.
  intros E. rewrite <-!(fmap_is_Some (fun b => (block_id b, ref_cnt b, block_hash b, is_null b))).
  unfold data_of in E. by rewrite E.
Qed.

#[export] Instance same_data_equiv : Equivalence same_data.
Proof.
  split.
  - by intros h r.
  - intros h h' H r. by rewrite H.
  - intros h1 h2 h3 H1 H2 r. by rewrite H2, H1.
Qed.

(** Decide all the pointer equations produced by a sequence of updates. *)
Ltac ptr_simpl :=
  repeat first
    [ rewrite next_of_set_next by (rewrite ?is_Some_alter; eauto)
    | rewrite prev_of_set_prev by (rewrite ?is_Some_alter; eauto)
    | rewrite next_of_alter_same by done
    | rewrite prev_of_alter_same by done ].

Ltac ptr_cases :=
  repeat case_decide;
  repeat match goal with
    | H : _ ∈ [_] |- _ => apply list_elem_of_singleton in H
    | H : _ ∉ [_] |- _ => rewrite list_elem_of_singleton in H
    end; congruence.

Ltac ptr_decide :=
  repeat first [ rewrite decide_True by congruence | rewrite decide_False by congruence ].

Ltac data_simpl :=
  intros ?; repeat rewrite data_of_alter by done; try done.

(** The head of what follows a position of the queue, the tail sentinel
    included. *)
Definition head_or_tail (l : list ref) : ref := default Tail (head l).

Lemma head_or_tail_split l : exists l', l ++ [Tail] = head_or_tail l :: l'.
Proof. destruct l; simpl; eauto. Qed.

Section Unlink.
Context (q : FreeKVCacheBlockQueue) (h' : gmap ref KVCacheBlock) (n' : Z).
Context (l1 xs l2 : list ref).
Let a := last_or Head l1.
Let b := head_or_tail l2.

(** The chain [... a xs b ...] becomes [... a b ...] once [a] points to [b],
    [b] points back to [a] and the links of the elements of [xs] are cleared. *)
Lemma unlink_repr :
  queue_repr q (l1 ++ xs ++ l2) ->
  (forall r, next_of h' r = if decide (r ∈ xs) then None
                            else if decide (r = a) then Some b else next_of (heap q) r) ->
  (forall r, prev_of h' r = if decide (r ∈ xs) then None
                            else if decide (r = b) then Some a else prev_of (heap q) r) ->
  (forall r, is_Some (heap q !! r) -> is_Some (h' !! r)) ->
  n' = zlen (l1 ++ l2) ->
  queue_repr (mkQueue h' n') (l1 ++ l2).
Proof.
  intros [Hl Hnd Hal Hoff Ht _] HN HP Hal' Hn.
  destruct (head_or_tail_split l2) as [l3 Hl3]. fold b in Hl3.
  rewrite <-!app_assoc, Hl3 in Hl, Hnd, Hal, Hoff.
  change (Head :: l1 ++ xs ++ b :: l3) with ((Head :: l1) ++ xs ++ b :: l3) in Hnd, Hal, Hoff.
  apply linked_app in Hl as [Hl1 Hl2]. fold a in Hl2.
  apply linked_app in Hl2 as [_ Hl2]. simpl in Hl2. destruct Hl2 as (_ & _ & Hl2).
  apply NoDup_app in Hnd as (Hnd1 & Hd1 & Hnd23).
  apply NoDup_app in Hnd23 as (_ & Hd2 & Hnd3).
  assert (Ha : a ∈ Head :: l1) by apply last_or_elem.
  assert (Hax : a ∉ xs) by (intros ?; apply (Hd1 a Ha), elem_of_app; by left).
  assert (Hbx : b ∉ xs) by (intros Hb; apply (Hd2 b Hb); left).
  assert (Ha3 : a ∉ b :: l3) by (intros ?; apply (Hd1 a Ha), elem_of_app; by right).
  assert (Hb3 : b ∉ l3) by (by apply NoDup_cons in Hnd3 as [? _]).
  assert (Htl : Tail ∈ b :: l3) by (rewrite <-Hl3; apply elem_of_app; right; left).
  split; cbn [heap num_free_blocks]; rewrite <-?app_assoc, ?Hl3;
    try change (Head :: l1 ++ b :: l3) with ((Head :: l1) ++ b :: l3).
  - apply linked_app. split; [|simpl; fold a; split_and!].
    + apply (linked_frame (next_of (heap q)) (prev_of (heap q))); [done | | | done].
      * intros r Hr Hra. rewrite HN, decide_False, decide_False; try done.
        intros ?. apply (Hd1 r Hr), elem_of_app. by left.
      * intros r Hr. assert (Hr' : r ∈ Head :: l1) by by right.
        rewrite HP, !decide_False; [done | |].
        -- intros ->. apply (Hd1 b Hr'), elem_of_app. right; left.
        -- intros ?. apply (Hd1 r Hr'), elem_of_app. by left.
    + by rewrite HN, decide_False, decide_True.
    + by rewrite HP, decide_False, decide_True.
    + apply (linked_frame (next_of (heap q)) (prev_of (heap q))); [done | | | done].
      * intros r Hr _. rewrite HN, !decide_False; [done | by intros -> |].
        intros Hx. by apply (Hd2 r Hx).
      * intros r Hr. rewrite HP, !decide_False; [done | by intros -> |].
        intros Hx. apply (Hd2 r Hx). by right.
  - apply NoDup_app. split_and!; [done | | done].
    intros r Hr Hr3. apply (Hd1 r Hr), elem_of_app. by right.
  - intros r Hr. apply Hal', Hal. rewrite !elem_of_app in *. tauto.
  - intros r Hr. apply not_elem_of_app in Hr as [Hr1 Hr3]. rewrite HN, HP.
    destruct (decide (r ∈ xs)) as [|Hrx]; [done|].
    rewrite decide_False by (by intros ->).
    rewrite decide_False by (intros ->; apply Hr3; left).
    apply Hoff. rewrite !not_elem_of_app. done.
  - rewrite HN, decide_False, decide_False; [done | by intros <- |].
    intros Hx. by apply (Hd2 _ Hx).
  - done.
Qed.
End Unlink.

(** Where an element of the queue sits. *)
Lemma repr_split q l1 x l2 :
  queue_repr q (l1 ++ x :: l2) ->
  next_of (heap q) x = Some (head_or_tail l2) /\ prev_of (heap q) x = Some (last_or Head l1).
Proof.
  intros [Hl _ _ _ _ _]. destruct (head_or_tail_split l2) as [l3 Hl3].
  rewrite <-app_assoc in Hl. simpl in Hl. rewrite Hl3 in Hl.
  apply linked_app in Hl as [_ Hl]. simpl in Hl. naive_solver.
Qed.

Lemma repr_elem_ne q l x : queue_repr q l -> x ∈ l -> x <> Head /\ x <> Tail.
Proof.
  intros [_ Hnd _ _ _ _] Hx. apply NoDup_cons in Hnd as [Hh Hnd].
  apply NoDup_app in Hnd as (_ & Hd & _). specialize (Hd x Hx).
  split; intros ->.
  - apply Hh, elem_of_app. by left.
  - apply Hd. apply list_elem_of_singleton. done.
Qed.

Lemma repr_sentinels q l : queue_repr q l -> is_Some (heap q !! Head) /\ is_Some (heap q !! Tail).
Proof.
  intros [_ _ Hal _ _ _]. split; apply Hal; [left|]. right. apply elem_of_app; right; left.
Qed.

Lemma repr_nodup_list q l : queue_repr q l -> NoDup l.
Proof.
  intros [_ Hnd _ _ _ _]. apply NoDup_cons in Hnd as [_ Hnd]. by apply NoDup_app in Hnd as (? & _).
Qed.

Lemma repr_first q l : queue_repr q l -> next_of (heap q) Head = Some (head_or_tail l).
Proof.
  intros [Hl _ _ _ _ _]. destruct (head_or_tail_split l) as [l' E]. rewrite E in Hl.
  simpl in Hl. naive_solver.
Qed.

Lemma repr_last q l : queue_repr q l -> prev_of (heap q) Tail = Some (last_or Head l).
Proof. intros [Hl _ _ _ _ _]. apply linked_app in Hl as [_ Hl]. simpl in Hl. naive_solver. Qed.

Lemma load_ok q r b : heap q !! r = Some b -> load r q = (Ok b, q).
Proof. unfold load. by intros ->. Qed.

Lemma wp_load r b (Q : KVCacheBlock -> FreeKVCacheBlockQueue -> Prop) q :
  heap q !! r = Some b -> Q b q -> wp (load r) Q q.
Proof. intros Hb HQ. eapply wp_ok; [by apply load_ok | done]. Qed.

(** The list operation an operation implements, with the data left alone. *)
Definition refines {A} (q : FreeKVCacheBlockQueue) (m : M FreeKVCacheBlockQueue A)
    (a : A) (l' : list ref) : Prop :=
  wp m (fun a' q' => a' = a /\ queue_repr q' l' /\ same_data (heap q) (heap q')) q.

(** ** Each operation implements its list operation *)

Lemma popleft_refines q x l : queue_repr q (x :: l) -> refines q popleft x l.
Proof.
  intros Hr. pose proof (repr_split q [] x l Hr) as [Hnx _].
  pose proof (repr_first _ _ Hr) as Hf. change (head_or_tail (x :: l)) with x in Hf.
  pose proof (repr_sentinels _ _ Hr) as [[bh Hh] _].
  destruct (repr_elem_ne q (x :: l) x Hr) as [Hxh Hxt]; [left|].
  destruct (repr_alloc _ _ Hr x) as [bx Hx]; [right; left|].
  assert (Hbn : is_Some (heap q !! head_or_tail l)).
  { apply (repr_alloc _ _ Hr). destruct (head_or_tail_split l) as [l' E].
    simpl. rewrite E. do 2 right. left. }
  unfold next_of in Hf, Hnx. rewrite Hh in Hf. rewrite Hx in Hnx. simpl in Hf, Hnx.
  unfold refines, popleft. apply wp_bind. eapply wp_load; [done|]. rewrite Hf.
  destruct x as [| |i]; [done..|].
  apply wp_bind. eapply wp_load; [done|]. rewrite Hnx. unfold upd. wp_steps.
  split; [done|]. unfold set_heap, set_num. cbn [heap num_free_blocks]. split; [|data_simpl].
  apply (unlink_repr q _ _ [] [Blk i] l Hr); simpl.
  - intros r. ptr_simpl. unfold last_or. simpl.
    ptr_cases.
  - intros r. ptr_simpl. unfold last_or. simpl.
    ptr_cases.
  - intros r. by rewrite !is_Some_alter.
  - rewrite (repr_num _ _ Hr), zlen_cons. lia.
Qed.

Lemma queue_remove_refines q l1 x l2 :
  queue_repr q (l1 ++ x :: l2) -> refines q (queue_remove x) tt (l1 ++ l2).
Proof.
  intros Hr. destruct (repr_split q l1 x l2 Hr) as [Hnx Hpx].
  destruct (repr_elem_ne q _ x Hr) as [Hxh Hxt]; [apply elem_of_app; right; left|].
  destruct (repr_alloc _ _ Hr x) as [bx Hx].
  { right. rewrite <-app_assoc. apply elem_of_app; right; left. }
  assert (Hal : forall r, r ∈ Head :: l1 \/ r ∈ l2 ++ [Tail] -> is_Some (heap q !! r)).
  { intros r Hin. apply (repr_alloc _ _ Hr). rewrite <-app_assoc, app_comm_cons, elem_of_app.
    destruct Hin; [by left | right; by right]. }
  pose proof (Hal (last_or Head l1) (or_introl (last_or_elem _ _))) as Hla.
  assert (Hhb : is_Some (heap q !! head_or_tail l2)).
  { apply Hal. right. destruct (head_or_tail_split l2) as [l' ->]. left. }
  unfold next_of, prev_of in Hnx, Hpx. rewrite Hx in Hnx, Hpx. simpl in Hnx, Hpx.
  unfold refines, queue_remove. apply wp_bind. eapply wp_load; [done|]. rewrite Hpx, Hnx.
  unfold upd. wp_steps. split; [done|]. unfold set_heap, set_num. cbn [heap num_free_blocks].
  split; [|data_simpl].
  apply (unlink_repr q _ _ l1 [x] l2 Hr); simpl.
  - intros r. ptr_simpl. ptr_cases.
  - intros r. ptr_simpl. ptr_cases.
  - intros r. by rewrite !is_Some_alter.
  - rewrite (repr_num _ _ Hr), !zlen_app, zlen_cons. lia.
Qed.

Section PopLoop.
Context (q : FreeKVCacheBlockQueue) (l1 l2 : list ref).
Context (Hr : queue_repr q (l1 ++ l2)).

(** Between two iterations of [popleft_n]: the blocks of [d1] have been taken
    off the front and their links cleared; the head sentinel is not yet
    updated. *)
Definition pop_inv (t : list Z) (acc : option ref * list ref) (s : FreeKVCacheBlockQueue) : Prop :=
  exists d1 d2,
    l1 = d1 ++ d2 /\ length t = length d2 /\
    acc = (Some (head_or_tail (d2 ++ l2)), d1) /\
    (forall r, next_of (heap s) r = if decide (r ∈ d1) then None else next_of (heap q) r) /\
    (forall r, prev_of (heap s) r = if decide (r ∈ d1) then None else prev_of (heap q) r) /\
    (forall r, is_Some (heap s !! r) <-> is_Some (heap q !! r)) /\
    same_data (heap q) (heap s) /\ num_free_blocks s = num_free_blocks q - zlen l1.

Lemma pop_step x t acc s :
  pop_inv (x :: t) acc s ->
  wp (popleft_n_step acc x) (fun acc' s' => pop_inv t acc' s') s.
Proof.
  intros (d1 & d2 & El & Ht & -> & HN & HP & Hal & Hd & Hn).
  destruct d2 as [|y d2]; [done|]. simpl in Ht.
  assert (Hy : y ∉ d1).
  { intros Hy. pose proof (repr_nodup_list _ _ Hr) as Hnd. rewrite El in Hnd.
    apply NoDup_app in Hnd as [Hnd _]. apply NoDup_app in Hnd as (_ & Hnd & _).
    apply (Hnd y Hy). left. }
  assert (Hys : is_Some (heap s !! y)).
  { apply Hal, (repr_alloc _ _ Hr). rewrite El. right. rewrite !elem_of_app.
    left; left; right. left. }
  destruct Hys as [b Hb]. unfold popleft_n_step. cbn [fst snd].
  change (head_or_tail ((y :: d2) ++ l2)) with y.
  apply wp_bind. eapply wp_load; [exact Hb|].
  assert (Hnb : next_free_block b = Some (head_or_tail (d2 ++ l2))).
  { pose proof (HN y) as HNy. rewrite decide_False in HNy by done.
    pose proof Hr as Hr'. rewrite El, <-app_assoc in Hr'.
    destruct (repr_split _ d1 y (d2 ++ l2) Hr') as [Hny _].
    rewrite Hny in HNy. unfold next_of in HNy. by rewrite Hb in HNy. }
  assert (Hdec : forall (f : ref -> option ref) r,
    (if decide (y = r) then None else if decide (r ∈ d1) then None else f r)
    = if decide (r ∈ d1 ++ [y]) then None else f r).
  { intros f r. destruct (decide (r ∈ d1 ++ [y])) as [Hin|Hin];
      rewrite elem_of_app, list_elem_of_singleton in Hin; repeat case_decide; naive_solver. }
  unfold upd. wp_steps. exists (d1 ++ [y]), d2. cbn [heap num_free_blocks set_heap].
  split_and!; [by rewrite El, <-app_assoc | lia | by rewrite Hnb | | | | | done].
  - intros r. ptr_simpl. by rewrite HN.
  - intros r. ptr_simpl. by rewrite HP.
  - intros r. by rewrite !is_Some_alter.
  - etrans; [exact Hd|]. data_simpl.
Qed.

Lemma pop_finish acc s :
  pop_inv [] acc s ->
  exists b, acc = (Some b, l1) /\
  wp (upd Head (set_next (Some b)) ;; upd b (set_prev (Some Head)))
    (fun _ q' => queue_repr q' l2 /\ same_data (heap q) (heap q')) s.
Proof.
  intros (d1 & d2 & El & Ht & -> & HN & HP & Hal & Hd & Hn).
  destruct d2; [|done]. rewrite app_nil_r in El. subst d1. eexists. split; [done|].
  assert (Hhs : is_Some (heap s !! Head)) by (apply Hal, (repr_sentinels _ _ Hr)).
  assert (Hbs : is_Some (heap s !! head_or_tail l2)).
  { apply Hal, (repr_alloc _ _ Hr). destruct (head_or_tail_split l2) as [l' E].
    rewrite <-app_assoc, E. right. apply elem_of_app; right; left. }
  change ([] ++ l2) with l2.
  unfold upd. wp_steps. unfold set_heap. cbn [heap num_free_blocks].
  split; [|etrans; [exact Hd|]; data_simpl].
  pose proof (repr_nodup _ _ Hr) as Hnd. rewrite <-app_assoc in Hnd.
  destruct (head_or_tail_split l2) as [l' E]. rewrite E in Hnd.
  apply NoDup_cons in Hnd as [Hnd1 Hnd]. apply NoDup_app in Hnd as (_ & Hnd & _).
  apply (unlink_repr q _ _ [] l1 l2 Hr); simpl.
  - intros r. ptr_simpl. rewrite HN. unfold last_or; simpl.
    destruct (decide (Head = r)) as [<-|]; [|repeat case_decide; congruence].
    rewrite decide_False, decide_True; [done..|]. rewrite elem_of_app in Hnd1. tauto.
  - intros r. ptr_simpl. rewrite HP. unfold last_or; simpl.
    destruct (decide (head_or_tail l2 = r)) as [<-|]; [|repeat case_decide; congruence].
    rewrite decide_False, decide_True; [done..|]. intros Hin. apply (Hnd _ Hin). left.
  - intros r. by rewrite !is_Some_alter, Hal.
  - rewrite Hn, (repr_num _ _ Hr), zlen_app. lia.
Qed.

Lemma popleft_n_refines : refines q (popleft_n (zlen l1)) l1 l2.
Proof.
  unfold refines, popleft_n. destruct (zlen l1 =? 0) eqn:Hz.
  { apply Z.eqb_eq in Hz. destruct l1; [|unfold zlen in Hz; simpl in Hz; lia].
    apply wp_ret. by split_and!. }
  pose proof (repr_sentinels _ _ Hr) as [[bh Hh] _].
  pose proof (repr_first _ _ Hr) as Hf. unfold next_of in Hf. rewrite Hh in Hf.
  wp_steps. { rewrite (repr_num _ _ Hr), zlen_app. pose proof (zlen_nonneg l2). lia. }
  eapply wp_load; [exact Hh|]. simpl in Hf. rewrite Hf. apply wp_bind.
  eapply (wp_foldM (fun _ => pop_inv) _ []).
  - exists [], l1. split_and!; try done.
    unfold zrange. rewrite length_seqZ. unfold zlen. lia.
  - intros. by apply pop_step.
  - intros acc s Hinv. destruct (pop_finish _ _ Hinv) as (b & -> & Hfin).
    cbn [fst snd]. apply wp_bind.
    unfold upd in *. wp_steps. by split.
Qed.
End PopLoop.

Section Link.
Context (q : FreeKVCacheBlockQueue) (h' : gmap ref KVCacheBlock) (n' : Z).
Context (l xs : list ref).
Let a := last_or Head l.

(** The segment [xs] of blocks outside of the queue becomes its end. *)
Lemma link_repr :
  queue_repr q l ->
  NoDup xs ->
  (forall x, x ∈ xs -> x ∉ Head :: l ++ [Tail]) ->
  linked (next_of h') (prev_of h') a (xs ++ [Tail]) ->
  (forall r, r ∉ a :: xs -> next_of h' r = next_of (heap q) r) ->
  (forall r, r ∉ xs ++ [Tail] -> prev_of h' r = prev_of (heap q) r) ->
  (forall x, x ∈ xs -> is_Some (h' !! x)) ->
  (forall r, is_Some (heap q !! r) -> is_Some (h' !! r)) ->
  n' = zlen (l ++ xs) ->
  queue_repr (mkQueue h' n') (l ++ xs).
Proof.
  intros [Hl Hnd Hal Hoff Ht _] Hxs Hfr Hl2 HN HP Halx Hal' Hn.
  apply linked_app in Hl as [Hl1 _]. fold a in Hl2.
  change (Head :: l ++ [Tail]) with ((Head :: l) ++ [Tail]) in Hnd, Hal, Hoff, Hfr.
  apply NoDup_app in Hnd as (Hnd1 & HdT & _).
  assert (Hfr1 : forall x, x ∈ Head :: l -> x ∉ xs).
  { intros x Hx Hxx. apply (Hfr x Hxx), elem_of_app. by left. }
  assert (HfT : Tail ∉ xs).
  { intros HT. apply (Hfr _ HT), elem_of_app. right; left. }
  assert (Ha : a ∈ Head :: l) by apply last_or_elem.
  assert (HTl : Tail ∉ Head :: l).
  { intros HT. by apply (HdT _ HT), list_elem_of_singleton. }
  split; cbn [heap num_free_blocks]; rewrite <-?app_assoc;
    try change (Head :: l ++ xs ++ [Tail]) with ((Head :: l) ++ xs ++ [Tail]).
  - apply linked_app. split; [|done].
    apply (linked_frame (next_of (heap q)) (prev_of (heap q))); [done | | | done].
    + intros r Hr Hra. apply HN, not_elem_of_cons. split; [done|]. by apply Hfr1.
    + intros r Hr. apply HP. rewrite not_elem_of_app, list_elem_of_singleton. split.
      * apply Hfr1. by right.
      * intros ->. apply HTl. by right.
  - apply NoDup_app. split_and!; [done | |].
    + intros r Hr. rewrite not_elem_of_app, list_elem_of_singleton. split; [by apply Hfr1|].
      by intros ->.
    + apply NoDup_app. split_and!; [done | | apply NoDup_singleton].
      intros r Hr. rewrite list_elem_of_singleton. by intros ->.
  - intros r. rewrite !elem_of_app. intros [Hr|[Hr|Hr]]; [|by apply Halx|];
      apply Hal', Hal, elem_of_app; [by left | by right].
  - intros r. rewrite !not_elem_of_app. intros (Hr1 & Hr2 & Hr3). rewrite HN, HP.
    + apply Hoff. by rewrite not_elem_of_app.
    + by rewrite not_elem_of_app.
    + apply not_elem_of_cons. split; [by intros -> | done].
  - rewrite HN; [done|]. apply not_elem_of_cons. split; [|done]. intros E. apply HTl.
    by rewrite E.
  - done.
Qed.
End Link.

Lemma queue_append_refines q l x :
  queue_repr q l -> x ∉ Head :: l ++ [Tail] -> is_Some (heap q !! x) ->
  refines q (queue_append x) tt (l ++ [x]).
Proof.
  intros Hr Hx Hxs. pose proof (repr_sentinels _ _ Hr) as [_ [bt HT]].
  pose proof (repr_last _ _ Hr) as Hlt. unfold prev_of in Hlt. rewrite HT in Hlt. simpl in Hlt.
  assert (Hls : is_Some (heap q !! last_or Head l)).
  { apply (repr_alloc _ _ Hr). rewrite app_comm_cons. apply elem_of_app. left.
    apply last_or_elem. }
  assert (Hxl : last_or Head l <> x).
  { intros <-. apply Hx. rewrite app_comm_cons. apply elem_of_app. left. apply last_or_elem. }
  assert (HxT : x <> Tail).
  { intros ->. apply Hx. right. apply elem_of_app. right; left. }
  assert (HlT : last_or Head l <> Tail).
  { pose proof (repr_nodup _ _ Hr) as Hnd. rewrite app_comm_cons in Hnd.
    apply NoDup_app in Hnd as (_ & Hd & _). intros E.
    apply (Hd _ (last_or_elem Head l)), list_elem_of_singleton. done. }
  unfold refines, queue_append. apply wp_bind. eapply wp_load; [exact HT|]. rewrite Hlt.
  unfold upd. wp_steps. split; [done|]. unfold set_heap, set_num. cbn [heap num_free_blocks].
  split; [|data_simpl].
  apply (link_repr q); [done | apply NoDup_singleton | | | | | | |].
  - by intros y ->%list_elem_of_singleton.
  - simpl. ptr_simpl. ptr_decide. done.
  - intros r [? ?]%not_elem_of_cons. rewrite list_elem_of_singleton in H0. ptr_simpl.
    by ptr_decide.
  - intros r. rewrite not_elem_of_app, !list_elem_of_singleton. intros [??]. ptr_simpl.
    by ptr_decide.
  - intros y ->%list_elem_of_singleton. by rewrite !is_Some_alter.
  - intros r. by rewrite !is_Some_alter.
  - rewrite (repr_num _ _ Hr), zlen_app. done.
Qed.

Section AppendLoop.
Context (q : FreeKVCacheBlockQueue) (l xs : list ref).
Context (Hr : queue_repr q l) (Hnd : NoDup xs).
Context (Hfr : forall x, x ∈ xs -> x ∉ Head :: l ++ [Tail]).
Context (Hxs : forall x, x ∈ xs -> is_Some (heap q !! x)).
Let a := last_or Head l.

(** Between two iterations of [append_n]: the blocks of [d] hang off the last
    block of the queue, and [last] is the block the next one goes after. *)
Definition append_inv (d t : list ref) (last : ref) (s : FreeKVCacheBlockQueue) : Prop :=
  xs = d ++ t /\ last = last_or a d /\
  linked (next_of (heap s)) (prev_of (heap s)) a d /\
  (forall r, r ∉ a :: d -> next_of (heap s) r = next_of (heap q) r) /\
  (forall r, r ∉ d -> prev_of (heap s) r = prev_of (heap q) r) /\
  (forall r, is_Some (heap s !! r) <-> is_Some (heap q !! r)) /\
  same_data (heap q) (heap s) /\ num_free_blocks s = num_free_blocks q.

Lemma append_anchor : a ∈ Head :: l ++ [Tail] /\ a <> Tail /\ Tail ∉ xs.
Proof.
  pose proof (last_or_elem Head l) as Hla. fold a in Hla. split_and!.
  - rewrite app_comm_cons. apply elem_of_app. by left.
  - pose proof (repr_nodup _ _ Hr) as Hd. rewrite app_comm_cons in Hd.
    apply NoDup_app in Hd as (_ & Hd & _). intros E.
    by apply (Hd _ Hla), list_elem_of_singleton.
  - intros HTx. apply (Hfr _ HTx). right. apply elem_of_app. right; left.
Qed.

Lemma append_step d x t last s :
  append_inv d (x :: t) last s ->
  wp (upd x (set_prev (Some last)) ;; upd last (set_next (Some x)) ;; mret x)
    (fun last' s' => append_inv (d ++ [x]) t last' s') s.
Proof.
  destruct append_anchor as (Hac & HaT & HxT).
  intros (Ex & -> & Hl & HN & HP & Hal & Hd & Hn).
  assert (Hxin : x ∈ xs) by (rewrite Ex; apply elem_of_app; right; left).
  assert (Hsx : is_Some (heap s !! x)) by (apply Hal, Hxs, Hxin).
  pose proof (last_or_elem a d) as Hld. set (b := last_or a d) in *.
  assert (Hxad : x ∉ a :: d).
  { rewrite not_elem_of_cons. split; [intros ->; by apply (Hfr _ Hxin)|].
    rewrite Ex in Hnd. apply NoDup_app in Hnd as (_ & Hnd & _). intros Hin.
    apply (Hnd _ Hin). left. }
  assert (Hsb : is_Some (heap s !! b)).
  { apply Hal. apply elem_of_cons in Hld as [->|Hbd]; [by apply (repr_alloc _ _ Hr)|].
    apply Hxs. rewrite Ex. apply elem_of_app. by left. }
  assert (Hxb : x <> b) by (intros ->; done).
  unfold upd. wp_steps. unfold append_inv, set_heap. cbn [heap num_free_blocks]. split_and!.
  + by rewrite <-app_assoc.
  + by rewrite last_or_snoc.
  + apply linked_app. fold b. simpl. ptr_simpl. ptr_decide. split; [|done].
    apply (linked_frame (next_of (heap s)) (prev_of (heap s))); [| | | done].
    * apply NoDup_cons. split.
      -- intros Had. apply (Hfr a); [|done]. rewrite Ex. apply elem_of_app. by left.
      -- rewrite Ex in Hnd. by apply NoDup_app in Hnd as (? & _).
    * intros r Hrd Hrb. fold b in Hrb. ptr_simpl. by rewrite decide_False by congruence.
    * intros r Hrd. ptr_simpl. rewrite decide_False; [done|]. intros ->. apply Hxad.
      by right.
  + intros r. rewrite not_elem_of_cons, not_elem_of_app. intros (Hra & Hrd & _). ptr_simpl.
    assert (r ∉ a :: d) by by rewrite not_elem_of_cons.
    rewrite decide_False by (intros ->; done). by apply HN.
  + intros r. rewrite not_elem_of_app, list_elem_of_singleton. intros (Hrd & Hrx). ptr_simpl.
    rewrite decide_False by congruence. by apply HP.
  + intros r. by rewrite !is_Some_alter.
  + etrans; [exact Hd|]. data_simpl.
  + done.
Qed.

Lemma append_finish s :
  append_inv xs [] (last_or a xs) s ->
  wp (upd (last_or a xs) (set_next (Some Tail)) ;; upd Tail (set_prev (Some (last_or a xs))) ;;
      modify (set_num (fun k => k + zlen xs)))
    (fun _ q' => queue_repr q' (l ++ xs) /\ same_data (heap q) (heap q')) s.
Proof.
  destruct append_anchor as (Hac & HaT & HxT).
  intros (_ & _ & Hl & HN & HP & Hal & Hd & Hn).
  pose proof (last_or_elem a xs) as Hlx. set (b := last_or a xs) in *.
  assert (Hsb : is_Some (heap s !! b)).
  { apply Hal. apply elem_of_cons in Hlx as [->|Hbd]; [by apply (repr_alloc _ _ Hr)|].
    by apply Hxs. }
  assert (HsT : is_Some (heap s !! Tail)) by (apply Hal, (repr_sentinels _ _ Hr)).
  unfold upd. wp_steps. unfold set_heap, set_num. cbn [heap num_free_blocks].
  split; [|etrans; [exact Hd|]; data_simpl].
  assert (Hbx : b ∈ a :: xs) by done.
  apply (link_repr q); try done; fold a.
  + apply linked_app. fold b. simpl. ptr_simpl. ptr_decide. split; [|done].
    apply (linked_frame (next_of (heap s)) (prev_of (heap s))); [| | | done].
    * apply NoDup_cons. split; [|done]. intros Hax. by apply (Hfr a).
    * intros r Hrd Hrb. fold b in Hrb. ptr_simpl. by rewrite decide_False by congruence.
    * intros r Hrd. ptr_simpl. rewrite decide_False; [done|]. by intros <-.
  + intros r Hra. ptr_simpl. rewrite decide_False by (intros ->; done). by apply HN.
  + intros r. rewrite not_elem_of_app, list_elem_of_singleton. intros (Hrd & HrT). ptr_simpl.
    rewrite decide_False by congruence. by apply HP.
  + intros r Hrx. rewrite !is_Some_alter. by apply Hal, Hxs.
  + intros r. by rewrite !is_Some_alter, Hal.
  + rewrite Hn, (repr_num _ _ Hr), zlen_app. done.
Qed.

Lemma append_n_refines : refines q (append_n xs) tt (l ++ xs).
Proof.
  unfold refines, append_n. destruct (zlen xs =? 0) eqn:Hz.
  { apply Z.eqb_eq in Hz. destruct xs; [|unfold zlen in Hz; simpl in Hz; lia].
    apply wp_ret. by rewrite app_nil_r. }
  pose proof (repr_sentinels _ _ Hr) as [_ [bt HT]].
  pose proof (repr_last _ _ Hr) as Hlt. unfold prev_of in Hlt. rewrite HT in Hlt.
  apply wp_bind. eapply wp_load; [exact HT|]. simpl in Hlt. rewrite Hlt. apply wp_bind.
  eapply (wp_foldM append_inv _ []).
  - unfold append_inv. by split_and!.
  - intros. by apply append_step.
  - intros last s Hinv. simpl app in Hinv. pose proof Hinv as (_ & -> & _).
    eapply wp_mono; [by apply append_finish|]. by intros [] q' [? ?].
Qed.
End AppendLoop.

(** ** Construction *)

Lemma linked_lookup N P a l :
  (forall i x y, (a :: l) !! i = Some x -> (a :: l) !! S i = Some y -> N x = Some y /\ P y = Some x) ->
  linked N P a l.
Proof.
  revert a. induction l as [|b l IH]; intros a H; simpl; [done|].
  destruct (H 0%nat a b eq_refl eq_refl). split_and!; [done..|].
  apply IH. intros i x y Hx Hy. by apply (H (S i)).
Qed.

(** The blocks handed to the constructor: distinct pool objects with no links. *)
Record fresh_blocks (h : gmap ref KVCacheBlock) (blocks : list ref) : Prop := {
  fresh_nodup : NoDup blocks;
  fresh_real : forall r, r ∈ blocks -> exists i, r = Blk i;
  fresh_alloc : forall r, r ∈ blocks -> is_Some (h !! r);
  fresh_unlinked : forall r, next_of h r = None /\ prev_of h r = None
}.

Section Init.
Context (blocks : list ref) (h : gmap ref KVCacheBlock).
Context (Hf : fresh_blocks h blocks).

(** After [k] iterations of the constructor's loop. *)
Definition init_inv (k : nat) (s : FreeKVCacheBlockQueue) : Prop :=
  (forall i r, blocks !! i = Some r ->
     next_of (heap s) r = (if decide (i < k)%nat then blocks !! S i else None) /\
     prev_of (heap s) r = (if decide (i < k)%nat then
                             (if decide (i = 0)%nat then None else blocks !! pred i) else None)) /\
  (forall r, r ∉ blocks -> next_of (heap s) r = None /\ prev_of (heap s) r = None) /\
  (forall r, is_Some (heap s !! r) <-> is_Some (h !! r)) /\
  same_data h (heap s) /\ num_free_blocks s = zlen blocks.

Lemma init_step (k : nat) s :
  (k < length blocks)%nat -> init_inv k s ->
  wp (when (0 <? Z.of_nat k)
        (b ← lift_res (py_get blocks (Z.of_nat k)) ;
         p ← lift_res (py_get blocks (Z.of_nat k - 1)) ;
         upd b (set_prev (Some p))) ;;
      when (Z.of_nat k <? zlen blocks - 1)
        (b ← lift_res (py_get blocks (Z.of_nat k)) ;
         n ← lift_res (py_get blocks (Z.of_nat k + 1)) ;
         upd b (set_next (Some n))))
    (fun _ s' => init_inv (S k) s') s.
Proof.
  intros Hk (Hin & Hout & Hal & Hd & Hn).
  destruct (lookup_lt_is_Some_2 blocks k Hk) as [b Hb].
  assert (Hbs : is_Some (heap s !! b)).
  { apply Hal, (fresh_alloc _ _ Hf). by eapply list_elem_of_lookup_2. }
  destruct (Hin k b Hb) as [HNb HPb]. rewrite !decide_False in HNb, HPb by lia.
  assert (Hgb : py_get blocks (Z.of_nat k) = Ok b).
  { apply py_get_Some; [lia|]. by rewrite Nat2Z.id. }
  (* what the two conditional assignments leave behind *)
  assert (Hgoal : forall s',
    (forall r, next_of (heap s') r = if decide (b = r) then blocks !! S k else next_of (heap s) r) ->
    (forall r, prev_of (heap s') r = if decide (b = r)
       then (if decide (k = 0)%nat then None else blocks !! pred k) else prev_of (heap s) r) ->
    (forall r, is_Some (heap s' !! r) <-> is_Some (heap s !! r)) ->
    same_data (heap s) (heap s') -> num_free_blocks s' = num_free_blocks s ->
    init_inv (S k) s').
  { intros s' HN' HP' Hal' Hd' Hn'. split_and!.
    - intros i r Hi. rewrite HN', HP'. destruct (decide (b = r)) as [<-|Hbr].
      + pose proof (NoDup_lookup _ _ _ _ (fresh_nodup _ _ Hf) Hi Hb) as ->.
        destruct (decide (k < S k)%nat); [done | lia].
      + destruct (Hin i r Hi) as [-> ->].
        assert (i <> k) by (intros ->; congruence).
        destruct (decide (i < k)%nat), (decide (i < S k)%nat); try done; lia.
    - intros r Hr. rewrite HN', HP'. rewrite !decide_False; [by apply Hout|..];
        intros ->; apply Hr; by eapply list_elem_of_lookup_2.
    - intros r. by rewrite Hal'.
    - by etrans.
    - congruence. }
  apply wp_bind, wp_when; intros Hc1.
  - destruct k as [|k']; [simpl in Hc1; discriminate|].
    destruct (lookup_lt_is_Some_2 blocks k' ltac:(lia)) as [p Hp].
    assert (Hgp : py_get blocks (Z.of_nat (S k') - 1) = Ok p).
    { apply py_get_Some; [lia|]. by replace (Z.to_nat (Z.of_nat (S k') - 1)) with k' by lia. }
    unfold upd. wp_steps. apply wp_when; intros Hc2.
    + destruct (lookup_lt_is_Some_2 blocks (S (S k'))) as [n Hsn];
        [unfold zlen in Hc2; lia|].
      assert (Hgn : py_get blocks (Z.of_nat (S k') + 1) = Ok n).
      { apply py_get_Some; [lia|].
        by replace (Z.to_nat (Z.of_nat (S k') + 1)) with (S (S k')) by lia. }
      unfold upd. wp_steps. apply Hgoal; cbn [heap num_free_blocks set_heap]; try done.
      * intros r. ptr_simpl. by rewrite Hsn.
      * intros r. ptr_simpl. simpl. by rewrite Hp.
      * intros r. by rewrite !is_Some_alter.
      * data_simpl.
    + apply Hgoal; cbn [heap num_free_blocks set_heap]; try done.
      * intros r. ptr_simpl. destruct (decide (b = r)) as [<-|]; [|done]. rewrite HNb.
        rewrite lookup_ge_None_2; [done | unfold zlen in Hc2; lia].
      * intros r. ptr_simpl. simpl. by rewrite Hp.
      * intros r. by rewrite !is_Some_alter.
      * data_simpl.
  - assert (k = 0)%nat as -> by lia. apply wp_when; intros Hc2.
    + destruct (lookup_lt_is_Some_2 blocks 1) as [n Hsn]; [unfold zlen in Hc2; lia|].
      assert (Hgn : py_get blocks (Z.of_nat 0 + 1) = Ok n) by (by apply py_get_Some).
      unfold upd. wp_steps. apply Hgoal; cbn [heap num_free_blocks set_heap]; try done.
      * intros r. ptr_simpl. by rewrite Hsn.
      * intros r. ptr_simpl. destruct (decide (b = r)) as [<-|]; [|done]. by rewrite HPb.
      * intros r. by rewrite !is_Some_alter.
      * data_simpl.
    + apply Hgoal; try done.
      * intros r. destruct (decide (b = r)) as [<-|]; [|done]. rewrite HNb.
        rewrite lookup_ge_None_2; [done | unfold zlen in Hc2; lia].
      * intros r. destruct (decide (b = r)) as [<-|]; [|done]. by rewrite HPb.
Qed.

Lemma next_of_insert (g : gmap ref KVCacheBlock) r b r' :
  next_of (<[r := b]> g) r' = if decide (r = r') then next_free_block b else next_of g r'.
Proof. unfold next_of. rewrite lookup_insert. by case_decide. Qed.

Lemma prev_of_insert (g : gmap ref KVCacheBlock) r b r' :
  prev_of (<[r := b]> g) r' = if decide (r = r') then prev_free_block b else prev_of g r'.
Proof. unfold prev_of. rewrite lookup_insert. by case_decide. Qed.

(** The chain between the blocks, once the loop is over. *)
Lemma init_chain s b l :
  blocks = b :: l -> init_inv (length blocks) s ->
  linked (next_of (heap s)) (prev_of (heap s)) b l /\
  (forall r, r ∉ b :: l -> next_of (heap s) r = None /\ prev_of (heap s) r = None).
Proof.
  intros E (Hin & Hout & _). rewrite E in *. split; [|done].
  apply linked_lookup. intros i x y Hx Hy.
  assert (S i < length (b :: l))%nat by (by eapply lookup_lt_Some).
  destruct (Hin i x Hx) as [-> _]. destruct (Hin (S i) y Hy) as [_ ->].
  by rewrite !decide_True by lia.
Qed.

Definition link_sentinels : M FreeKVCacheBlockQueue unit :=
  new_object Head (new_block (-1)) ;;
  new_object Tail (new_block (-1)) ;;
  if 0 <? zlen blocks then
    first ← lift_res (py_get blocks 0) ; last ← lift_res (py_get blocks (-1)) ;
    upd Head (set_next (Some first)) ;;
    upd first (set_prev (Some Head)) ;;
    upd Tail (set_prev (Some last)) ;;
    upd last (set_next (Some Tail))
  else
    upd Head (set_next (Some Tail)) ;;
    upd Tail (set_prev (Some Head)).

Lemma init_sentinels_nil s :
  blocks = [] -> init_inv 0 s ->
  wp link_sentinels (fun _ s' => queue_repr s' [] /\
    forall r, r <> Head -> r <> Tail -> data_of (heap s') r = data_of h r) s.
Proof.
  intros E (_ & Hout & Hal & Hd & Hn). unfold link_sentinels, new_object, upd. rewrite E in *.
  wp_steps. unfold set_heap. cbn [heap num_free_blocks]. split.
  - split; cbn [heap num_free_blocks app].
    + simpl. unfold next_of, prev_of. rewrite !lookup_alter, !lookup_insert. done.
    + apply NoDup_cons. split; [by rewrite list_elem_of_singleton | apply NoDup_singleton].
    + intros r Hr. rewrite !is_Some_alter, !lookup_insert. repeat case_decide; eauto.
      apply elem_of_cons in Hr as [->|Hr]; [done|]. apply list_elem_of_singleton in Hr. done.
    + intros r [HrH HrT]%not_elem_of_cons. rewrite list_elem_of_singleton in HrT.
      unfold next_of, prev_of. rewrite !lookup_alter_ne, !lookup_insert_ne by done.
      apply Hout, not_elem_of_nil.
    + unfold next_of. rewrite !lookup_alter, !lookup_insert. done.
    + done.
  - intros r HrH HrT. rewrite <-Hd. unfold data_of. simpl.
    by rewrite !lookup_alter_ne, !lookup_insert_ne by done.
Qed.

Lemma py_get_last b l : py_get (b :: l) (-1) = Ok (last_or b l).
Proof.
  unfold py_get. change (-1 <? 0) with true. cbn iota.
  replace (zlen (b :: l) + -1 <? 0) with false by (unfold zlen; simpl; lia).
  replace (Z.to_nat (zlen (b :: l) + -1)) with (pred (length (b :: l)))
    by (unfold zlen; simpl; lia).
  rewrite <-last_lookup, last_cons. unfold last_or. by destruct (last l).
Qed.

Lemma init_sentinels_cons s b l :
  blocks = b :: l -> init_inv (length blocks) s ->
  wp link_sentinels (fun _ s' => queue_repr s' (b :: l) /\
    forall r, r <> Head -> r <> Tail -> data_of (heap s') r = data_of h r) s.
Proof.
  intros E Hinv. destruct (init_chain s b l E Hinv) as [Hch Hoff].
  destruct Hinv as (_ & Hout & Hal & Hd & Hn). unfold link_sentinels, new_object, upd.
  rewrite E in *. pose proof (last_or_elem b l) as Hzin.
  assert (Hreal : forall r, r ∈ b :: l -> r <> Head /\ r <> Tail /\ is_Some (heap s !! r)).
  { intros r Hr. split_and!; [| |by apply Hal, (fresh_alloc _ _ Hf)];
      by destruct (fresh_real _ _ Hf r Hr) as [? ->]. }
  pose proof (py_get_last b l) as Hz. set (z := last_or b l) in *.
  destruct (Hreal b) as (HbH & HbT & [bb Hb]); [left|].
  destruct (Hreal z Hzin) as (HzH & HzT & [bz Hbz]).
  replace (0 <? zlen (b :: l)) with true by (unfold zlen; simpl; lia).
  assert (Hg0 : py_get (b :: l) 0 = Ok b) by (by apply py_get_Some).
  wp_steps. unfold set_heap. cbn [heap num_free_blocks].
  match goal with |- context [mkQueue ?g _] => set (h' := g) end.
  assert (HN : forall r, next_of h' r = if decide (z = r) then Some Tail
    else if decide (Head = r) then Some b else if decide (Tail = r) then None
    else next_of (heap s) r).
  { intros r. unfold h', next_of. clear -Hb Hbz HbH HbT HzH HzT. clearbody z. rewrite !lookup_alter, !lookup_insert.
    repeat case_decide; subst; try congruence; by rewrite ?Hbz, ?Hb. }
  assert (HP : forall r, prev_of h' r = if decide (Tail = r) then Some z
    else if decide (b = r) then Some Head else if decide (Head = r) then None
    else prev_of (heap s) r).
  { intros r. unfold h', prev_of. clear -Hb Hbz HbH HbT HzH HzT. clearbody z. rewrite !lookup_alter, !lookup_insert.
    repeat case_decide; subst; try congruence; by rewrite ?Hbz, ?Hb. }
  split.
  2:{ intros r HrH HrT. rewrite <-Hd. unfold h'. rewrite !data_of_alter by done.
      unfold data_of. by rewrite !lookup_insert_ne by done. }
  pose proof (fresh_nodup _ _ Hf) as Hnd.
  split; cbn [heap num_free_blocks]; [| | | | |done].
  - simpl. rewrite HN, HP. ptr_decide. do 2 (split; [done|]).
    apply linked_app. fold z. simpl. rewrite HN, HP. ptr_decide. split; [|done].
    apply (linked_frame (next_of (heap s)) (prev_of (heap s))); [done | | | done].
    + intros r Hr Hrz. fold z in Hrz. destruct (Hreal r Hr) as (? & ? & _). rewrite HN.
      by ptr_decide.
    + intros r Hr. destruct (Hreal r) as (? & ? & _); [by right|]. rewrite HP.
      apply NoDup_cons in Hnd as [Hbl _]. assert (b <> r) by congruence. by ptr_decide.
  - apply NoDup_cons. split.
    + rewrite elem_of_app, list_elem_of_singleton. intros [Hr|?]; [|done].
      by destruct (Hreal _ Hr).
    + apply NoDup_app. split_and!; [done | | apply NoDup_singleton].
      intros r Hr ->%list_elem_of_singleton. by destruct (Hreal _ Hr) as (_ & ? & _).
  - intros r Hr. unfold h'. rewrite !is_Some_alter, !lookup_insert.
    repeat case_decide; eauto. rewrite elem_of_cons, elem_of_app, list_elem_of_singleton in Hr.
    apply Hreal. naive_solver.
  - intros r. rewrite not_elem_of_cons, not_elem_of_app, list_elem_of_singleton.
    intros (? & Hr & ?). rewrite HN, HP. assert (z <> r) by congruence.
    assert (b <> r) by (intros <-; apply Hr; left). ptr_decide. by apply Hoff.
  - rewrite HN. by ptr_decide.
Qed.

(** The constructor builds the queue of all its blocks, in their order, and
    leaves the data of the blocks alone. *)
Lemma queue_init_repr n0 :
  wp (queue_init blocks) (fun _ s' => queue_repr s' blocks /\
    forall r, r <> Head -> r <> Tail -> data_of (heap s') r = data_of h r) (mkQueue h n0).
Proof.
  unfold queue_init. apply wp_bind, wp_modify, wp_bind.
  eapply (wp_forM_ (fun d t s => exists k, length d = k /\ t = zrange (Z.of_nat k) (zlen blocks) /\
    (k <= length blocks)%nat /\ init_inv k s) _ []).
  - exists 0%nat. split_and!; try done; [lia|]. split_and!; try done.
    + intros i r Hi. cbn [heap set_num]. rewrite !decide_False by lia.
      apply (fresh_unlinked _ _ Hf).
    + intros r _. apply (fresh_unlinked _ _ Hf).
  - intros d x t s (k & Hk & Ht & Hle & Hinv).
    assert (Hlt : (k < length blocks)%nat).
    { destruct (decide (k < length blocks)%nat); [done|].
      rewrite zrange_nil in Ht by (unfold zlen; lia). done. }
    rewrite zrange_cons in Ht by (unfold zlen; lia). injection Ht as -> ->.
    eapply wp_mono; [by apply init_step|]. intros [] s' Hinv'. exists (S k).
    split_and!; [rewrite length_app; simpl; lia | f_equal; lia | lia | done].
  - intros s (k & Hk & Ht & Hle & Hinv).
    assert (k = length blocks) as ->.
    { destruct (decide (k < length blocks)%nat); [|lia].
      rewrite zrange_cons in Ht by (unfold zlen; lia). done. }
    destruct (decide (blocks = [])) as [E|].
    + assert (Hinv0 : init_inv 0 s) by (by rewrite E in Hinv at 1).
      pose proof (init_sentinels_nil s E Hinv0) as Hw. unfold link_sentinels in Hw.
      eapply wp_mono; [exact Hw|]. simpl. by rewrite E.
    + assert (exists b l, blocks = b :: l) as (b & l & Ebl) by (destruct blocks; eauto; done).
      pose proof (init_sentinels_cons s b l Ebl Hinv) as Hw. rewrite <-Ebl in Hw. exact Hw.
Qed.
End Init.

(** ** Traversal *)

Lemma walk_linked h l b :
  linked (next_of h) (prev_of h) b (l ++ [Tail]) -> next_of h Tail = None -> b <> Tail ->
  Tail ∉ l ->
  walk h (S (S (length l))) b = Some (b :: l).
Proof.
  revert b. induction l as [|c l IH]; intros b Hl HT Hb Htl.
  - simpl in Hl |- *. unfold next_of in Hl, HT. destruct Hl as (-> & _). simpl.
    by rewrite HT.
  - simpl in Hl. destruct Hl as (Hn & _ & Hl). apply not_elem_of_cons in Htl as [Hc Htl].
    change (walk h (S (S (length (c :: l)))) b) with
      (match h !! b ≫= next_free_block with
       | None => Some []
       | Some nxt => (b ::.) <$> walk h (S (S (length l))) nxt
       end).
    unfold next_of in Hn. by rewrite Hn, IH.
Qed.

Lemma walk_mono h n m b l : walk h n b = Some l -> (n <= m)%nat -> walk h m b = Some l.
Proof.
  revert m b l. induction n as [|n IH]; intros m b l Hw Hm; [done|].
  destruct m as [|m]; [lia|]. simpl in *.
  destruct (h !! b ≫= next_free_block) as [c|]; [|done].
  apply fmap_Some in Hw as (l' & Hw & ->). by rewrite (IH m c l' Hw ltac:(lia)).
Qed.

Lemma get_all_free_blocks_total q l fuel :
  queue_repr q l -> (length l < fuel)%nat -> get_all_free_blocks fuel q = Ok (Some l).
Proof.
  intros Hr Hfuel. pose proof (repr_first _ _ Hr) as Hf. unfold get_all_free_blocks.
  unfold next_of in Hf. rewrite Hf. do 2 f_equal. apply (walk_mono _ (S (length l))); [|lia].
  destruct l as [|b l]; cbn [head_or_tail head default from_option].
  - pose proof (repr_tail _ _ Hr) as HT. unfold next_of in HT. simpl. by rewrite HT.
  - destruct (repr_elem_ne q (b :: l) b Hr) as [_ HbT]; [left|].
    destruct Hr as [Hl Hnd _ _ HT _]. apply walk_linked.
    + simpl in Hl. by destruct Hl as (_ & _ & ?).
    + done.
    + done.
    + apply NoDup_cons in Hnd as [_ Hnd]. apply NoDup_app in Hnd as (_ & Hnd & _).
      intros Hin. apply (Hnd Tail); [by right | left].
Qed.

(** ** Errors *)

Lemma popleft_empty q : queue_repr q [] -> popleft q = (Err ValueError, q).
Proof.
  intros Hr. pose proof (repr_sentinels _ _ Hr) as [[bh Hh] _].
  pose proof (repr_first _ _ Hr) as Hf. unfold next_of in Hf. rewrite Hh in Hf. simpl in Hf.
  unfold popleft, mbind, M_bind, load. rewrite Hh, Hf. simpl.
  by rewrite (repr_num _ _ Hr).
Qed.

Lemma popleft_n_too_many q l n :
  queue_repr q l -> zlen l < n -> popleft_n n q = (Err AssertionError, q).
Proof.
  intros Hr Hn. pose proof (zlen_nonneg l). unfold popleft_n.
  replace (n =? 0) with false by lia. unfold mbind, M_bind, gets, py_assert.
  rewrite (repr_num _ _ Hr). by replace (n <=? zlen l) with false by lia.
Qed.

Lemma queue_remove_absent q l x b :
  queue_repr q l -> heap q !! x = Some b -> x ∉ Head :: l ++ [Tail] ->
  queue_remove x q = (Err RuntimeError, q).
Proof.
  intros Hr Hb Hx. destruct (repr_off _ _ Hr x Hx) as [_ Hp].
  unfold prev_of in Hp. rewrite Hb in Hp. simpl in Hp.
  unfold queue_remove, mbind, M_bind, load. by rewrite Hb, Hp.
Qed.

(** ** The blocks of a new pool *)

Lemma new_heap_lookup n r :
  new_heap n !! r =
    match r with Blk i => if decide (i < n)%nat then Some (new_block (Z.of_nat i)) else None | _ => None end.
Proof.
  unfold new_heap. set (f := fun i => (Blk i, new_block (Z.of_nat i))).
  assert (Hfst : (f <$> seq 0 n).*1 = block_refs n).
  { unfold block_refs. rewrite <-list_fmap_compose. done. }
  assert (Hnd : NoDup (f <$> seq 0 n).*1).
  { rewrite Hfst. apply NoDup_fmap; [by intros ?? [=] | apply NoDup_seq]. }
  assert (Hout : forall r, r ∉ block_refs n ->
    (list_to_map (f <$> seq 0 n) : gmap ref KVCacheBlock) !! r = None).
  { intros r' Hr'. apply not_elem_of_list_to_map_1. by rewrite Hfst. }
  destruct r as [| |i]; [apply Hout..|].
  1-2: unfold block_refs; intros (? & ? & ?)%list_elem_of_fmap; done.
  case_decide as Hi.
  - apply elem_of_list_to_map_1; [done|]. apply list_elem_of_fmap. exists i.
    split; [done|]. apply elem_of_seq. lia.
  - apply Hout. unfold block_refs. intros (j & [= <-] & Hj)%list_elem_of_fmap.
    apply elem_of_seq in Hj. lia.
Qed.

Lemma elem_of_block_refs n r : r ∈ block_refs n <-> exists i, r = Blk i /\ (i < n)%nat.
Proof.
  unfold block_refs. rewrite list_elem_of_fmap. setoid_rewrite elem_of_seq.
  split; intros (i & -> & ?); exists i; (split; [done | lia]).
Qed.

Lemma new_heap_fresh n : fresh_blocks (new_heap n) (block_refs n).
Proof.
  split.
  - apply NoDup_fmap; [by intros ?? [=] | apply NoDup_seq].
  - intros r (i & -> & _)%elem_of_block_refs. eauto.
  - intros r (i & -> & ?)%elem_of_block_refs. rewrite new_heap_lookup, decide_True by lia. eauto.
  - intros r. unfold next_of, prev_of. rewrite new_heap_lookup.
    destruct r as [| |i]; [done..|]. by case_decide.
Qed.

(** A queue of [n] new blocks, for the examples. *)
Definition new_queue (n : nat) : FreeKVCacheBlockQueue :=
  (queue_init (block_refs n) (mkQueue (new_heap n) 0)).2.

Lemma new_queue_repr n : queue_repr (new_queue n) (block_refs n).
Proof.
  pose proof (queue_init_repr _ _ (new_heap_fresh n) 0) as Hw. unfold wp in Hw.
  unfold new_queue. destruct (queue_init _ _) as [[]]; simpl; [tauto | done].
Qed.

#[export] Hint Resolve popleft_refines popleft_n_refines queue_remove_refines
  queue_append_refines append_n_refines new_queue_repr : vllm.

(** * * Properties of the free queue

    [FreeKVCacheBlockQueue] promises a list of blocks with constant-time removal.
    [list_contract] is that promise, stated on the list alone; the theorem shows
    that the pointer-level code keeps it. *)
Local Open Scope Z_scope.

(** What a queue holding [l] promises: every operation has the effect of the
    list operation, leaves the other attributes of the blocks alone, and raises
    exactly when the list operation is undefined. *)
Record list_contract (q : FreeKVCacheBlockQueue) (l : list ref) : Prop := {
  lc_num : num_free_blocks q = zlen l;
  lc_popleft : match l with
               | [] => popleft q = (Err ValueError, q)
               | x :: l' => refines q popleft x l'
               end;
  lc_popleft_n : forall n : nat, (n <= length l)%nat -> refines q (popleft_n (Z.of_nat n)) (take n l) (drop n l);
  lc_popleft_n_error : forall n, zlen l < n -> popleft_n n q = (Err AssertionError, q);
  lc_remove : forall l1 x l2, l = l1 ++ x :: l2 -> refines q (queue_remove x) tt (l1 ++ l2);
  lc_remove_error : forall x, is_Some (heap q !! x) -> (x ∉ Head :: l ++ [Tail]) ->
    queue_remove x q = (Err RuntimeError, q);
  lc_append : forall x, (x ∉ Head :: l ++ [Tail]) -> is_Some (heap q !! x) -> refines q (queue_append x) tt (l ++ [x]);
  lc_append_n : forall xs, NoDup xs -> (forall x, x ∈ xs -> (x ∉ Head :: l ++ [Tail]) /\ is_Some (heap q !! x)) ->
    refines q (append_n xs) tt (l ++ xs);
  lc_all : forall fuel, (length l < fuel)%nat -> get_all_free_blocks fuel q = Ok (Some l)
}.

(** C37: the doubly linked queue implements a list of blocks.  A queue that
    represents [l] (and every queue the constructor builds represents the list of
    its blocks) satisfies the whole contract, and each operation leaves a queue
    that represents the resulting list. *)
Theorem free_queue_implements_list (q : FreeKVCacheBlockQueue) (l : list ref) :
  queue_repr q l -> list_contract q l.
Proof.
  intros Hr. split.
  - apply (repr_num _ _ Hr).
  - destruct l as [|x l']; [by apply popleft_empty|by apply popleft_refines].
  - intros n Hn. replace (Z.of_nat n) with (zlen (take n l)) by (unfold zlen; rewrite length_take; lia).
    apply popleft_n_refines. by rewrite take_drop.
  - intros n Hn. by eapply popleft_n_too_many.
  - intros l1 x l2 ->. by apply queue_remove_refines.
  - intros x [b Hb] Hx. by eapply queue_remove_absent.
  - intros x Hx Hb. by apply queue_append_refines.
  - intros xs Hnd Hxs. apply append_n_refines; try done; intros x Hx; by apply Hxs.
  - intros fuel Hf. by apply get_all_free_blocks_total.
Qed.

Lemma free_queue_implements_list_witness :
  list_contract (new_queue 3) [Blk 0; Blk 1; Blk 2]
  /\ fst (popleft_n 2 (new_queue 3)) = Ok [Blk 0; Blk 1].
Proof.
  split; [|vm_compute; reflexivity].
  exact (free_queue_implements_list (new_queue 3) [Blk 0; Blk 1; Blk 2] (new_queue_repr 3)).
Defined.

(** The constructor links any list of distinct, unlinked blocks into a queue
    that represents exactly that list, in order. *)
Theorem queue_init_builds_list (h : gmap ref KVCacheBlock) (blocks : list ref) (n0 : Z) :
  fresh_blocks h blocks ->
  exists q, queue_init blocks (mkQueue h n0) = (Ok tt, q) /\ queue_repr q blocks
    /\ forall r, r <> Head -> r <> Tail -> data_of (heap q) r = data_of h r.
Proof.
  intros Hf. pose proof (queue_init_repr _ _ Hf n0) as Hw.
  apply wp_run in Hw as ([] & q & Hq & ?). by exists q.
Qed.

Lemma queue_init_builds_list_witness :
  exists q, queue_init (block_refs 3) (mkQueue (new_heap 3) 0) = (Ok tt, q) /\ queue_repr q [Blk 0; Blk 1; Blk 2].
Proof.
  destruct (queue_init_builds_list (new_heap 3) (block_refs 3) 0 (new_heap_fresh 3)) as (q & Hq & Hr & _).
  exists q. split; [exact Hq|exact Hr].
Defined.
