(* ===== verification/Request.v ===== *)
(** * Requests

    The request object of [vllm/v1/request.py] with the parameter records it
    reads ([sampling_params.py], [multimodal/inputs.py], [lora/request.py]),
    its lifecycle status and the operations that update it.

    Token ids, counters and timestamps are integers; a timestamp (a Python
    float, which the code only compares) is a number of clock ticks.  A field
    that the request only carries around ([Any]) is a value of the inductive
    [any].  [ConstantList] is a read-only view, so [output_token_ids] and
    [_output_token_ids] are one field. *)

From S2P Require Import Prelude.
Local Open Scope Z_scope.

(** An arbitrary JSON-like Python value. *)
Inductive any :=
  | ANone
  | ABool (b : bool)
  | AInt (z : Z)
  | AStr (s : string)
  | AList (l : list any)
  | ADict (l : list (string * any)).

(** Python's truth value of [any]. *)
Definition any_truthy (a : any) : bool :=
  match a with
  | ANone => false
  | ABool b => b
  | AInt z => negb (z =? 0)
  | AStr s => negb (bool_decide (s = EmptyString))
  | AList l => match l with [] => false | _ => true end
  | ADict l => match l with [] => false | _ => true end
  end.

(** ** Statuses *)

Inductive RequestStatus :=
  | WAITING
  | WAITING_FOR_STRUCTURED_OUTPUT_GRAMMAR
  | WAITING_FOR_REMOTE_KVS
  | WAITING_FOR_STREAMING_REQ
  | RUNNING
  | PREEMPTED
  | FINISHED_STOPPED
  | FINISHED_LENGTH_CAPPED
  | FINISHED_ABORTED
  | FINISHED_IGNORED
  | FINISHED_ERROR
  | FINISHED_REPETITION.

#[export] Instance RequestStatus_eq_dec : EqDecision RequestStatus.
Proof. solve_decision. Defined.

(** [enum.auto()] numbers the members of the [IntEnum] from 1. *)
Definition status_value (s : RequestStatus) : Z :=
  match s with
  | WAITING => 1
  | WAITING_FOR_STRUCTURED_OUTPUT_GRAMMAR => 2
  | WAITING_FOR_REMOTE_KVS => 3
  | WAITING_FOR_STREAMING_REQ => 4
  | RUNNING => 5
  | PREEMPTED => 6
  | FINISHED_STOPPED => 7
  | FINISHED_LENGTH_CAPPED => 8
  | FINISHED_ABORTED => 9
  | FINISHED_IGNORED => 10
  | FINISHED_ERROR => 11
  | FINISHED_REPETITION => 12
  end.

Inductive FinishReason :=
  | STOP
  | LENGTH
  | ABORT
  | ERROR
  | REPETITION.

#[export] Instance FinishReason_eq_dec : EqDecision FinishReason.
Proof. solve_decision. Defined.

Definition status_is_finished (s : RequestStatus) : bool := status_value PREEMPTED <? status_value s.

(** [_FINISHED_REASON_MAP.get(status)] *)
Definition finished_reason_map (s : RequestStatus) : option FinishReason :=
  match s with
  | FINISHED_STOPPED => Some STOP
  | FINISHED_LENGTH_CAPPED => Some LENGTH
  | FINISHED_ABORTED => Some ABORT
  | FINISHED_IGNORED => Some LENGTH
  | FINISHED_ERROR => Some ERROR
  | WAITING_FOR_STREAMING_REQ => Some STOP
  | FINISHED_REPETITION => Some REPETITION
  | _ => None
  end.

(** ** Parameters *)

Record StructuredOutputsParams := mkStructuredOutputsParams {
  so_json : option any;
  so_regex : option string;
  so_choice : option (list string);
  so_grammar : option string;
  so_json_object : option bool;
  so_structural_tag : option string
}.

Definition is_none {A} (o : option A) : bool := match o with None => true | Some _ => false end.

Definition all_constraints_none (p : StructuredOutputsParams) : bool :=
  is_none (so_json p) && is_none (so_regex p) && is_none (so_choice p) &&
  is_none (so_grammar p) && is_none (so_json_object p) && is_none (so_structural_tag p).

Record RepetitionDetectionParams := mkRepetitionDetectionParams {
  max_pattern_size : Z;
  min_pattern_size : Z;
  min_count : Z
}.

(** The sampling parameters the engine core reads; those that only shape the
    sampled distribution are consumed by the model runner. *)
Record SamplingParams := mkSamplingParams {
  sp_max_tokens : option Z;
  sp_min_tokens : Z;
  sp_eos_token_id : option Z;
  sp_stop_token_ids : option (list Z);
  sp_repetition_detection : option RepetitionDetectionParams;
  sp_structured_outputs : option StructuredOutputsParams;
  sp_skip_reading_prefix_cache : option bool;
  sp_extra_args : option (gmap string any);
  sp_logprobs : option Z
}.

Record PoolingParams := mkPoolingParams { pp_skip_reading_prefix_cache : option bool }.

Record LoRARequest := mkLoRARequest { lora_name : string; lora_int_id : Z }.

(** [PlaceholderRange]; [is_embed] is a boolean mask tensor. *)
Record PlaceholderRange := mkPlaceholderRange {
  offset : Z;
  length_ : Z;
  is_embed : option (list bool)
}.

Record MultiModalFeatureSpec := mkFeature {
  identifier : option string;
  modality : string;
  mm_position : PlaceholderRange
}.

(** [Tensor.cumsum(dim=0)] of a mask. *)
Fixpoint cumsum_from (acc : Z) (l : list bool) : list Z :=
  match l with
  | [] => []
  | b :: l' => let acc' := acc + (if b then 1 else 0) in acc' :: cumsum_from acc' l'
  end.

Definition embeds_cumsum (p : PlaceholderRange) : option (list Z) := cumsum_from 0 <$> is_embed p.

Definition get_num_embeds (p : PlaceholderRange) : res Z :=
  match embeds_cumsum p with
  | None => Ok (length_ p)
  | Some c => py_get c (-1)
  end.

Definition get_embeds_indices_in_range (p : PlaceholderRange) (start_idx end_idx : Z) : res (Z * Z) :=
  match embeds_cumsum p with
  | None => Ok (start_idx, end_idx)
  | Some c =>
      embeds_start_idx ← (if 0 <? start_idx then py_get c (start_idx - 1) else Ok 0) ;
      embeds_end_idx ← py_get c (end_idx - 1) ;
      Ok (embeds_start_idx, embeds_end_idx)
  end.

(** [so_grammar_ready]: the [grammar] property is not [None], i.e. the grammar
    has been compiled and its future has completed. *)
Record StructuredOutputRequest := mkStructuredOutputRequest {
  so_params : StructuredOutputsParams;
  so_grammar_ready : bool;
  so_reasoning_ended : option bool
}.

(** [StructuredOutputRequest.from_sampling_params] *)
Definition from_sampling_params (sp : option SamplingParams) : option StructuredOutputRequest :=
  match sp with
  | None => None
  | Some sp =>
      match sp_structured_outputs sp with
      | None => None
      | Some p => if all_constraints_none p then None else Some (mkStructuredOutputRequest p false None)
      end
  end.

Inductive EngineCoreEventType := QUEUED | SCHEDULED | PREEMPTED_EVENT.

Record EngineCoreEvent := mkEvent { event_type : EngineCoreEventType; timestamp : Z }.

(** [stop_reason: int | str | None] *)
Inductive StopReason := StopToken (t : Z) | StopText (s : string).

(** [StreamingUpdate] *)
Record StreamingUpdate := mkStreamingUpdate {
  su_mm_features : option (list MultiModalFeatureSpec);
  su_prompt_token_ids : option (list Z);
  su_max_tokens : Z;
  su_arrival_time : Z;
  su_sampling_params : option SamplingParams
}.

(** ** The request object *)

Record Request := mkRequest {
  request_id : string;
  client_index : Z;
  priority : Z;
  sampling_params : option SamplingParams;
  pooling_params : option PoolingParams;
  lora_request : option LoRARequest;
  structured_output_request : option StructuredOutputRequest;
  arrival_time : Z;
  status : RequestStatus;
  events : list EngineCoreEvent;
  stop_reason : option StopReason;
  kv_transfer_params : option any;
  max_tokens : Z;
  prompt_token_ids : option (list Z);
  prompt_embeds : option (list bytes);
  prompt_embeds_per_block_hashes : gmap (Z * Z) bytes;
  num_prompt_tokens : Z;
  output_token_ids : list Z;
  all_token_ids : list Z;
  num_output_placeholders : Z;
  discard_latest_async_tokens : bool;
  spec_token_ids : list Z;
  num_computed_tokens : Z;
  cache_salt : option string;
  mm_features : list MultiModalFeatureSpec;
  num_cached_tokens : Z;
  is_prefill_chunk : bool;
  num_nans_in_logits : Z;
  num_preemptions : Z;
  num_external_computed_tokens : Z;
  block_hashes : list bytes;
  skip_reading_prefix_cache : bool;
  resumable : bool;
  streaming_queue : option (list (option StreamingUpdate))
}.

(** Attribute updates: [set_x f r] is [r.x = f(r.x)]. *)
Definition set_sampling_params (f : (option SamplingParams) -> (option SamplingParams)) (r : Request) : Request :=
  mkRequest
    (request_id r) (client_index r) (priority r) (f (sampling_params r)) (pooling_params r)
    (lora_request r) (structured_output_request r) (arrival_time r) (status r) (events r)
    (stop_reason r) (kv_transfer_params r) (max_tokens r) (prompt_token_ids r)
    (prompt_embeds r) (prompt_embeds_per_block_hashes r) (num_prompt_tokens r)
    (output_token_ids r) (all_token_ids r) (num_output_placeholders r)
    (discard_latest_async_tokens r) (spec_token_ids r) (num_computed_tokens r) (cache_salt
    r) (mm_features r) (num_cached_tokens r) (is_prefill_chunk r) (num_nans_in_logits r)
    (num_preemptions r) (num_external_computed_tokens r) (block_hashes r)
    (skip_reading_prefix_cache r) (resumable r) (streaming_queue r).
Definition set_structured_output_request (f : (option StructuredOutputRequest) -> (option StructuredOutputRequest)) (r : Request) : Request :=
  mkRequest
    (request_id r) (client_index r) (priority r) (sampling_params r) (pooling_params r)
    (lora_request r) (f (structured_output_request r)) (arrival_time r) (status r) (events
    r) (stop_reason r) (kv_transfer_params r) (max_tokens r) (prompt_token_ids r)
    (prompt_embeds r) (prompt_embeds_per_block_hashes r) (num_prompt_tokens r)
    (output_token_ids r) (all_token_ids r) (num_output_placeholders r)
    (discard_latest_async_tokens r) (spec_token_ids r) (num_computed_tokens r) (cache_salt
    r) (mm_features r) (num_cached_tokens r) (is_prefill_chunk r) (num_nans_in_logits r)
    (num_preemptions r) (num_external_computed_tokens r) (block_hashes r)
    (skip_reading_prefix_cache r) (resumable r) (streaming_queue r).
Definition set_arrival_time (f : Z -> Z) (r : Request) : Request :=
  mkRequest
    (request_id r) (client_index r) (priority r) (sampling_params r) (pooling_params r)
    (lora_request r) (structured_output_request r) (f (arrival_time r)) (status r) (events
    r) (stop_reason r) (kv_transfer_params r) (max_tokens r) (prompt_token_ids r)
    (prompt_embeds r) (prompt_embeds_per_block_hashes r) (num_prompt_tokens r)
    (output_token_ids r) (all_token_ids r) (num_output_placeholders r)
    (discard_latest_async_tokens r) (spec_token_ids r) (num_computed_tokens r) (cache_salt
    r) (mm_features r) (num_cached_tokens r) (is_prefill_chunk r) (num_nans_in_logits r)
    (num_preemptions r) (num_external_computed_tokens r) (block_hashes r)
    (skip_reading_prefix_cache r) (resumable r) (streaming_queue r).
Definition set_status (f : RequestStatus -> RequestStatus) (r : Request) : Request :=
  mkRequest
    (request_id r) (client_index r) (priority r) (sampling_params r) (pooling_params r)
    (lora_request r) (structured_output_request r) (arrival_time r) (f (status r)) (events
    r) (stop_reason r) (kv_transfer_params r) (max_tokens r) (prompt_token_ids r)
    (prompt_embeds r) (prompt_embeds_per_block_hashes r) (num_prompt_tokens r)
    (output_token_ids r) (all_token_ids r) (num_output_placeholders r)
    (discard_latest_async_tokens r) (spec_token_ids r) (num_computed_tokens r) (cache_salt
    r) (mm_features r) (num_cached_tokens r) (is_prefill_chunk r) (num_nans_in_logits r)
    (num_preemptions r) (num_external_computed_tokens r) (block_hashes r)
    (skip_reading_prefix_cache r) (resumable r) (streaming_queue r).
Definition set_events (f : (list EngineCoreEvent) -> (list EngineCoreEvent)) (r : Request) : Request :=
  mkRequest
    (request_id r) (client_index r) (priority r) (sampling_params r) (pooling_params r)
    (lora_request r) (structured_output_request r) (arrival_time r) (status r) (f (events
    r)) (stop_reason r) (kv_transfer_params r) (max_tokens r) (prompt_token_ids r)
    (prompt_embeds r) (prompt_embeds_per_block_hashes r) (num_prompt_tokens r)
    (output_token_ids r) (all_token_ids r) (num_output_placeholders r)
    (discard_latest_async_tokens r) (spec_token_ids r) (num_computed_tokens r) (cache_salt
    r) (mm_features r) (num_cached_tokens r) (is_prefill_chunk r) (num_nans_in_logits r)
    (num_preemptions r) (num_external_computed_tokens r) (block_hashes r)
    (skip_reading_prefix_cache r) (resumable r) (streaming_queue r).
Definition set_stop_reason (f : (option StopReason) -> (option StopReason)) (r : Request) : Request :=
  mkRequest
    (request_id r) (client_index r) (priority r) (sampling_params r) (pooling_params r)
    (lora_request r) (structured_output_request r) (arrival_time r) (status r) (events r) (f
    (stop_reason r)) (kv_transfer_params r) (max_tokens r) (prompt_token_ids r)
    (prompt_embeds r) (prompt_embeds_per_block_hashes r) (num_prompt_tokens r)
    (output_token_ids r) (all_token_ids r) (num_output_placeholders r)
    (discard_latest_async_tokens r) (spec_token_ids r) (num_computed_tokens r) (cache_salt
    r) (mm_features r) (num_cached_tokens r) (is_prefill_chunk r) (num_nans_in_logits r)
    (num_preemptions r) (num_external_computed_tokens r) (block_hashes r)
    (skip_reading_prefix_cache r) (resumable r) (streaming_queue r).
Definition set_kv_transfer_params (f : (option any) -> (option any)) (r : Request) : Request :=
  mkRequest
    (request_id r) (client_index r) (priority r) (sampling_params r) (pooling_params r)
    (lora_request r) (structured_output_request r) (arrival_time r) (status r) (events r)
    (stop_reason r) (f (kv_transfer_params r)) (max_tokens r) (prompt_token_ids r)
    (prompt_embeds r) (prompt_embeds_per_block_hashes r) (num_prompt_tokens r)
    (output_token_ids r) (all_token_ids r) (num_output_placeholders r)
    (discard_latest_async_tokens r) (spec_token_ids r) (num_computed_tokens r) (cache_salt
    r) (mm_features r) (num_cached_tokens r) (is_prefill_chunk r) (num_nans_in_logits r)
    (num_preemptions r) (num_external_computed_tokens r) (block_hashes r)
    (skip_reading_prefix_cache r) (resumable r) (streaming_queue r).
Definition set_max_tokens (f : Z -> Z) (r : Request) : Request :=
  mkRequest
    (request_id r) (client_index r) (priority r) (sampling_params r) (pooling_params r)
    (lora_request r) (structured_output_request r) (arrival_time r) (status r) (events r)
    (stop_reason r) (kv_transfer_params r) (f (max_tokens r)) (prompt_token_ids r)
    (prompt_embeds r) (prompt_embeds_per_block_hashes r) (num_prompt_tokens r)
    (output_token_ids r) (all_token_ids r) (num_output_placeholders r)
    (discard_latest_async_tokens r) (spec_token_ids r) (num_computed_tokens r) (cache_salt
    r) (mm_features r) (num_cached_tokens r) (is_prefill_chunk r) (num_nans_in_logits r)
    (num_preemptions r) (num_external_computed_tokens r) (block_hashes r)
    (skip_reading_prefix_cache r) (resumable r) (streaming_queue r).
Definition set_prompt_token_ids (f : (option (list Z)) -> (option (list Z))) (r : Request) : Request :=
  mkRequest
    (request_id r) (client_index r) (priority r) (sampling_params r) (pooling_params r)
    (lora_request r) (structured_output_request r) (arrival_time r) (status r) (events r)
    (stop_reason r) (kv_transfer_params r) (max_tokens r) (f (prompt_token_ids r))
    (prompt_embeds r) (prompt_embeds_per_block_hashes r) (num_prompt_tokens r)
    (output_token_ids r) (all_token_ids r) (num_output_placeholders r)
    (discard_latest_async_tokens r) (spec_token_ids r) (num_computed_tokens r) (cache_salt
    r) (mm_features r) (num_cached_tokens r) (is_prefill_chunk r) (num_nans_in_logits r)
    (num_preemptions r) (num_external_computed_tokens r) (block_hashes r)
    (skip_reading_prefix_cache r) (resumable r) (streaming_queue r).
Definition set_prompt_embeds_per_block_hashes (f : (gmap (Z * Z) bytes) -> (gmap (Z * Z) bytes)) (r : Request) : Request :=
  mkRequest
    (request_id r) (client_index r) (priority r) (sampling_params r) (pooling_params r)
    (lora_request r) (structured_output_request r) (arrival_time r) (status r) (events r)
    (stop_reason r) (kv_transfer_params r) (max_tokens r) (prompt_token_ids r)
    (prompt_embeds r) (f (prompt_embeds_per_block_hashes r)) (num_prompt_tokens r)
    (output_token_ids r) (all_token_ids r) (num_output_placeholders r)
    (discard_latest_async_tokens r) (spec_token_ids r) (num_computed_tokens r) (cache_salt
    r) (mm_features r) (num_cached_tokens r) (is_prefill_chunk r) (num_nans_in_logits r)
    (num_preemptions r) (num_external_computed_tokens r) (block_hashes r)
    (skip_reading_prefix_cache r) (resumable r) (streaming_queue r).
Definition set_num_prompt_tokens (f : Z -> Z) (r : Request) : Request :=
  mkRequest
    (request_id r) (client_index r) (priority r) (sampling_params r) (pooling_params r)
    (lora_request r) (structured_output_request r) (arrival_time r) (status r) (events r)
    (stop_reason r) (kv_transfer_params r) (max_tokens r) (prompt_token_ids r)
    (prompt_embeds r) (prompt_embeds_per_block_hashes r) (f (num_prompt_tokens r))
    (output_token_ids r) (all_token_ids r) (num_output_placeholders r)
    (discard_latest_async_tokens r) (spec_token_ids r) (num_computed_tokens r) (cache_salt
    r) (mm_features r) (num_cached_tokens r) (is_prefill_chunk r) (num_nans_in_logits r)
    (num_preemptions r) (num_external_computed_tokens r) (block_hashes r)
    (skip_reading_prefix_cache r) (resumable r) (streaming_queue r).
Definition set_output_token_ids (f : (list Z) -> (list Z)) (r : Request) : Request :=
  mkRequest
    (request_id r) (client_index r) (priority r) (sampling_params r) (pooling_params r)
    (lora_request r) (structured_output_request r) (arrival_time r) (status r) (events r)
    (stop_reason r) (kv_transfer_params r) (max_tokens r) (prompt_token_ids r)
    (prompt_embeds r) (prompt_embeds_per_block_hashes r) (num_prompt_tokens r) (f
    (output_token_ids r)) (all_token_ids r) (num_output_placeholders r)
    (discard_latest_async_tokens r) (spec_token_ids r) (num_computed_tokens r) (cache_salt
    r) (mm_features r) (num_cached_tokens r) (is_prefill_chunk r) (num_nans_in_logits r)
    (num_preemptions r) (num_external_computed_tokens r) (block_hashes r)
    (skip_reading_prefix_cache r) (resumable r) (streaming_queue r).
Definition set_all_token_ids (f : (list Z) -> (list Z)) (r : Request) : Request :=
  mkRequest
    (request_id r) (client_index r) (priority r) (sampling_params r) (pooling_params r)
    (lora_request r) (structured_output_request r) (arrival_time r) (status r) (events r)
    (stop_reason r) (kv_transfer_params r) (max_tokens r) (prompt_token_ids r)
    (prompt_embeds r) (prompt_embeds_per_block_hashes r) (num_prompt_tokens r)
    (output_token_ids r) (f (all_token_ids r)) (num_output_placeholders r)
    (discard_latest_async_tokens r) (spec_token_ids r) (num_computed_tokens r) (cache_salt
    r) (mm_features r) (num_cached_tokens r) (is_prefill_chunk r) (num_nans_in_logits r)
    (num_preemptions r) (num_external_computed_tokens r) (block_hashes r)
    (skip_reading_prefix_cache r) (resumable r) (streaming_queue r).
Definition set_num_output_placeholders (f : Z -> Z) (r : Request) : Request :=
  mkRequest
    (request_id r) (client_index r) (priority r) (sampling_params r) (pooling_params r)
    (lora_request r) (structured_output_request r) (arrival_time r) (status r) (events r)
    (stop_reason r) (kv_transfer_params r) (max_tokens r) (prompt_token_ids r)
    (prompt_embeds r) (prompt_embeds_per_block_hashes r) (num_prompt_tokens r)
    (output_token_ids r) (all_token_ids r) (f (num_output_placeholders r))
    (discard_latest_async_tokens r) (spec_token_ids r) (num_computed_tokens r) (cache_salt
    r) (mm_features r) (num_cached_tokens r) (is_prefill_chunk r) (num_nans_in_logits r)
    (num_preemptions r) (num_external_computed_tokens r) (block_hashes r)
    (skip_reading_prefix_cache r) (resumable r) (streaming_queue r).
Definition set_discard_latest_async_tokens (f : bool -> bool) (r : Request) : Request :=
  mkRequest
    (request_id r) (client_index r) (priority r) (sampling_params r) (pooling_params r)
    (lora_request r) (structured_output_request r) (arrival_time r) (status r) (events r)
    (stop_reason r) (kv_transfer_params r) (max_tokens r) (prompt_token_ids r)
    (prompt_embeds r) (prompt_embeds_per_block_hashes r) (num_prompt_tokens r)
    (output_token_ids r) (all_token_ids r) (num_output_placeholders r) (f
    (discard_latest_async_tokens r)) (spec_token_ids r) (num_computed_tokens r) (cache_salt
    r) (mm_features r) (num_cached_tokens r) (is_prefill_chunk r) (num_nans_in_logits r)
    (num_preemptions r) (num_external_computed_tokens r) (block_hashes r)
    (skip_reading_prefix_cache r) (resumable r) (streaming_queue r).
Definition set_spec_token_ids (f : (list Z) -> (list Z)) (r : Request) : Request :=
  mkRequest
    (request_id r) (client_index r) (priority r) (sampling_params r) (pooling_params r)
    (lora_request r) (structured_output_request r) (arrival_time r) (status r) (events r)
    (stop_reason r) (kv_transfer_params r) (max_tokens r) (prompt_token_ids r)
    (prompt_embeds r) (prompt_embeds_per_block_hashes r) (num_prompt_tokens r)
    (output_token_ids r) (all_token_ids r) (num_output_placeholders r)
    (discard_latest_async_tokens r) (f (spec_token_ids r)) (num_computed_tokens r)
    (cache_salt r) (mm_features r) (num_cached_tokens r) (is_prefill_chunk r)
    (num_nans_in_logits r) (num_preemptions r) (num_external_computed_tokens r)
    (block_hashes r) (skip_reading_prefix_cache r) (resumable r) (streaming_queue r).
Definition set_num_computed_tokens (f : Z -> Z) (r : Request) : Request :=
  mkRequest
    (request_id r) (client_index r) (priority r) (sampling_params r) (pooling_params r)
    (lora_request r) (structured_output_request r) (arrival_time r) (status r) (events r)
    (stop_reason r) (kv_transfer_params r) (max_tokens r) (prompt_token_ids r)
    (prompt_embeds r) (prompt_embeds_per_block_hashes r) (num_prompt_tokens r)
    (output_token_ids r) (all_token_ids r) (num_output_placeholders r)
    (discard_latest_async_tokens r) (spec_token_ids r) (f (num_computed_tokens r))
    (cache_salt r) (mm_features r) (num_cached_tokens r) (is_prefill_chunk r)
    (num_nans_in_logits r) (num_preemptions r) (num_external_computed_tokens r)
    (block_hashes r) (skip_reading_prefix_cache r) (resumable r) (streaming_queue r).
Definition set_mm_features (f : (list MultiModalFeatureSpec) -> (list MultiModalFeatureSpec)) (r : Request) : Request :=
  mkRequest
    (request_id r) (client_index r) (priority r) (sampling_params r) (pooling_params r)
    (lora_request r) (structured_output_request r) (arrival_time r) (status r) (events r)
    (stop_reason r) (kv_transfer_params r) (max_tokens r) (prompt_token_ids r)
    (prompt_embeds r) (prompt_embeds_per_block_hashes r) (num_prompt_tokens r)
    (output_token_ids r) (all_token_ids r) (num_output_placeholders r)
    (discard_latest_async_tokens r) (spec_token_ids r) (num_computed_tokens r) (cache_salt
    r) (f (mm_features r)) (num_cached_tokens r) (is_prefill_chunk r) (num_nans_in_logits r)
    (num_preemptions r) (num_external_computed_tokens r) (block_hashes r)
    (skip_reading_prefix_cache r) (resumable r) (streaming_queue r).
Definition set_num_cached_tokens (f : Z -> Z) (r : Request) : Request :=
  mkRequest
    (request_id r) (client_index r) (priority r) (sampling_params r) (pooling_params r)
    (lora_request r) (structured_output_request r) (arrival_time r) (status r) (events r)
    (stop_reason r) (kv_transfer_params r) (max_tokens r) (prompt_token_ids r)
    (prompt_embeds r) (prompt_embeds_per_block_hashes r) (num_prompt_tokens r)
    (output_token_ids r) (all_token_ids r) (num_output_placeholders r)
    (discard_latest_async_tokens r) (spec_token_ids r) (num_computed_tokens r) (cache_salt
    r) (mm_features r) (f (num_cached_tokens r)) (is_prefill_chunk r) (num_nans_in_logits r)
    (num_preemptions r) (num_external_computed_tokens r) (block_hashes r)
    (skip_reading_prefix_cache r) (resumable r) (streaming_queue r).
Definition set_is_prefill_chunk (f : bool -> bool) (r : Request) : Request :=
  mkRequest
    (request_id r) (client_index r) (priority r) (sampling_params r) (pooling_params r)
    (lora_request r) (structured_output_request r) (arrival_time r) (status r) (events r)
    (stop_reason r) (kv_transfer_params r) (max_tokens r) (prompt_token_ids r)
    (prompt_embeds r) (prompt_embeds_per_block_hashes r) (num_prompt_tokens r)
    (output_token_ids r) (all_token_ids r) (num_output_placeholders r)
    (discard_latest_async_tokens r) (spec_token_ids r) (num_computed_tokens r) (cache_salt
    r) (mm_features r) (num_cached_tokens r) (f (is_prefill_chunk r)) (num_nans_in_logits r)
    (num_preemptions r) (num_external_computed_tokens r) (block_hashes r)
    (skip_reading_prefix_cache r) (resumable r) (streaming_queue r).
Definition set_num_nans_in_logits (f : Z -> Z) (r : Request) : Request :=
  mkRequest
    (request_id r) (client_index r) (priority r) (sampling_params r) (pooling_params r)
    (lora_request r) (structured_output_request r) (arrival_time r) (status r) (events r)
    (stop_reason r) (kv_transfer_params r) (max_tokens r) (prompt_token_ids r)
    (prompt_embeds r) (prompt_embeds_per_block_hashes r) (num_prompt_tokens r)
    (output_token_ids r) (all_token_ids r) (num_output_placeholders r)
    (discard_latest_async_tokens r) (spec_token_ids r) (num_computed_tokens r) (cache_salt
    r) (mm_features r) (num_cached_tokens r) (is_prefill_chunk r) (f (num_nans_in_logits r))
    (num_preemptions r) (num_external_computed_tokens r) (block_hashes r)
    (skip_reading_prefix_cache r) (resumable r) (streaming_queue r).
Definition set_num_preemptions (f : Z -> Z) (r : Request) : Request :=
  mkRequest
    (request_id r) (client_index r) (priority r) (sampling_params r) (pooling_params r)
    (lora_request r) (structured_output_request r) (arrival_time r) (status r) (events r)
    (stop_reason r) (kv_transfer_params r) (max_tokens r) (prompt_token_ids r)
    (prompt_embeds r) (prompt_embeds_per_block_hashes r) (num_prompt_tokens r)
    (output_token_ids r) (all_token_ids r) (num_output_placeholders r)
    (discard_latest_async_tokens r) (spec_token_ids r) (num_computed_tokens r) (cache_salt
    r) (mm_features r) (num_cached_tokens r) (is_prefill_chunk r) (num_nans_in_logits r) (f
    (num_preemptions r)) (num_external_computed_tokens r) (block_hashes r)
    (skip_reading_prefix_cache r) (resumable r) (streaming_queue r).
Definition set_num_external_computed_tokens (f : Z -> Z) (r : Request) : Request :=
  mkRequest
    (request_id r) (client_index r) (priority r) (sampling_params r) (pooling_params r)
    (lora_request r) (structured_output_request r) (arrival_time r) (status r) (events r)
    (stop_reason r) (kv_transfer_params r) (max_tokens r) (prompt_token_ids r)
    (prompt_embeds r) (prompt_embeds_per_block_hashes r) (num_prompt_tokens r)
    (output_token_ids r) (all_token_ids r) (num_output_placeholders r)
    (discard_latest_async_tokens r) (spec_token_ids r) (num_computed_tokens r) (cache_salt
    r) (mm_features r) (num_cached_tokens r) (is_prefill_chunk r) (num_nans_in_logits r)
    (num_preemptions r) (f (num_external_computed_tokens r)) (block_hashes r)
    (skip_reading_prefix_cache r) (resumable r) (streaming_queue r).
Definition set_block_hashes (f : (list bytes) -> (list bytes)) (r : Request) : Request :=
  mkRequest
    (request_id r) (client_index r) (priority r) (sampling_params r) (pooling_params r)
    (lora_request r) (structured_output_request r) (arrival_time r) (status r) (events r)
    (stop_reason r) (kv_transfer_params r) (max_tokens r) (prompt_token_ids r)
    (prompt_embeds r) (prompt_embeds_per_block_hashes r) (num_prompt_tokens r)
    (output_token_ids r) (all_token_ids r) (num_output_placeholders r)
    (discard_latest_async_tokens r) (spec_token_ids r) (num_computed_tokens r) (cache_salt
    r) (mm_features r) (num_cached_tokens r) (is_prefill_chunk r) (num_nans_in_logits r)
    (num_preemptions r) (num_external_computed_tokens r) (f (block_hashes r))
    (skip_reading_prefix_cache r) (resumable r) (streaming_queue r).
Definition set_skip_reading_prefix_cache (f : bool -> bool) (r : Request) : Request :=
  mkRequest
    (request_id r) (client_index r) (priority r) (sampling_params r) (pooling_params r)
    (lora_request r) (structured_output_request r) (arrival_time r) (status r) (events r)
    (stop_reason r) (kv_transfer_params r) (max_tokens r) (prompt_token_ids r)
    (prompt_embeds r) (prompt_embeds_per_block_hashes r) (num_prompt_tokens r)
    (output_token_ids r) (all_token_ids r) (num_output_placeholders r)
    (discard_latest_async_tokens r) (spec_token_ids r) (num_computed_tokens r) (cache_salt
    r) (mm_features r) (num_cached_tokens r) (is_prefill_chunk r) (num_nans_in_logits r)
    (num_preemptions r) (num_external_computed_tokens r) (block_hashes r) (f
    (skip_reading_prefix_cache r)) (resumable r) (streaming_queue r).
Definition set_resumable (f : bool -> bool) (r : Request) : Request :=
  mkRequest
    (request_id r) (client_index r) (priority r) (sampling_params r) (pooling_params r)
    (lora_request r) (structured_output_request r) (arrival_time r) (status r) (events r)
    (stop_reason r) (kv_transfer_params r) (max_tokens r) (prompt_token_ids r)
    (prompt_embeds r) (prompt_embeds_per_block_hashes r) (num_prompt_tokens r)
    (output_token_ids r) (all_token_ids r) (num_output_placeholders r)
    (discard_latest_async_tokens r) (spec_token_ids r) (num_computed_tokens r) (cache_salt
    r) (mm_features r) (num_cached_tokens r) (is_prefill_chunk r) (num_nans_in_logits r)
    (num_preemptions r) (num_external_computed_tokens r) (block_hashes r)
    (skip_reading_prefix_cache r) (f (resumable r)) (streaming_queue r).
Definition set_streaming_queue (f : (option (list (option StreamingUpdate))) -> (option (list (option StreamingUpdate)))) (r : Request) : Request :=
  mkRequest
    (request_id r) (client_index r) (priority r) (sampling_params r) (pooling_params r)
    (lora_request r) (structured_output_request r) (arrival_time r) (status r) (events r)
    (stop_reason r) (kv_transfer_params r) (max_tokens r) (prompt_token_ids r)
    (prompt_embeds r) (prompt_embeds_per_block_hashes r) (num_prompt_tokens r)
    (output_token_ids r) (all_token_ids r) (num_output_placeholders r)
    (discard_latest_async_tokens r) (spec_token_ids r) (num_computed_tokens r) (cache_salt
    r) (mm_features r) (num_cached_tokens r) (is_prefill_chunk r) (num_nans_in_logits r)
    (num_preemptions r) (num_external_computed_tokens r) (block_hashes r)
    (skip_reading_prefix_cache r) (resumable r) (f (streaming_queue r)).

(** A block hasher computes the hashes of the full blocks that have none yet; it
    updates the request's memo of prompt-embedding digests and raises on a
    malformed multimodal feature. *)
Definition BlockHasher : Type := M Request (list bytes).

(** [update_block_hashes]: [block_hasher] is the request's [_block_hasher]. *)
Definition update_block_hashes (block_hasher : option BlockHasher) : M Request unit :=
  match block_hasher with
  | None => mret tt
  | Some h => new ← h ; modify (set_block_hashes (fun l => l ++ new))
  end.

(** [get_skip_reading_prefix_cache] *)
Definition get_skip_reading_prefix_cache
    (sp : option SamplingParams) (pp : option PoolingParams) : bool :=
  match sp ≫= sp_skip_reading_prefix_cache with
  | Some b => b
  | None => match pp ≫= pp_skip_reading_prefix_cache with Some b => b | None => false end
  end.

(** [length_from_prompt_token_ids_or_embeds] of [vllm/utils/__init__.py] *)
Definition length_from_prompt_token_ids_or_embeds
    (prompt_token_ids : option (list Z)) (prompt_embeds : option (list bytes)) : res Z :=
  match prompt_token_ids, prompt_embeds with
  | None, None => Err ValueError
  | None, Some e => Ok (zlen e)
  | Some p, None => Ok (zlen p)
  | Some p, Some e => if negb (zlen e =? zlen p) then Err ValueError else Ok (zlen p)
  end.

(** The arguments of [Request.__init__] ([EngineCoreRequest] carries the same). *)
Record EngineCoreRequest := mkEngineCoreRequest {
  ec_request_id : string;
  ec_prompt_token_ids : option (list Z);
  ec_sampling_params : option SamplingParams;
  ec_pooling_params : option PoolingParams;
  ec_client_index : Z;
  ec_arrival_time : option Z;
  ec_prompt_embeds : option (list bytes);
  ec_mm_features : option (list MultiModalFeatureSpec);
  ec_lora_request : option LoRARequest;
  ec_cache_salt : option string;
  ec_priority : Z;
  ec_resumable : bool;
  ec_reasoning_ended : option bool
}.

(** The part of [__init__] that depends on the kind of request:
    [max_tokens], the initial status and [kv_transfer_params]. *)
Definition init_params (sp : option SamplingParams) (pp : option PoolingParams)
    (so : option StructuredOutputRequest) : res (Z * RequestStatus * option any) :=
  match pp, sp with
  | Some _, _ => Ok (1, WAITING, None)
  | None, Some sp =>
      match sp_max_tokens sp with
      | None => Err AssertionError
      | Some mt =>
          Ok (mt,
              match so with Some _ => WAITING_FOR_STRUCTURED_OUTPUT_GRAMMAR | None => WAITING end,
              sp_extra_args sp ≫= fun d => d !! "kv_transfer_params"%string)
      end
  | None, None => Err ValueError
  end.

(** [Request.__init__]; [now] is [time.time()]. *)
Definition request_init (now : Z) (block_hasher : option BlockHasher) (e : EngineCoreRequest)
    : res Request :=
  let so := (fun so => mkStructuredOutputRequest (so_params so) (so_grammar_ready so)
                         (ec_reasoning_ended e)) <$> from_sampling_params (ec_sampling_params e) in
  p ← init_params (ec_sampling_params e) (ec_pooling_params e) so ;
  n ← length_from_prompt_token_ids_or_embeds (ec_prompt_token_ids e) (ec_prompt_embeds e) ;
  let '(mt, st, kv) := p in
  let r := mkRequest (ec_request_id e) (ec_client_index e) (ec_priority e)
             (ec_sampling_params e) (ec_pooling_params e) (ec_lora_request e) so
             (default now (ec_arrival_time e)) st [] None kv mt
             (ec_prompt_token_ids e) (ec_prompt_embeds e) ∅ n []
             (default (zreplicate n 0) (ec_prompt_token_ids e)) 0 false [] 0 (ec_cache_salt e)
             (default [] (ec_mm_features e)) (-1) false 0 0 0 []
             (get_skip_reading_prefix_cache (ec_sampling_params e) (ec_pooling_params e))
             (ec_resumable e) None in
  match update_block_hashes block_hasher r with
  | (Ok _, r') => Ok r'
  | (Err x, _) => Err x
  end.

(** [Request.from_engine_core_request] passes every field on. *)
Definition from_engine_core_request := request_init.

(** [StreamingUpdate.from_request] *)
Definition streaming_update_from_request (r : Request) : option StreamingUpdate :=
  if negb (resumable r) then None
  else Some (mkStreamingUpdate (Some (mm_features r)) (prompt_token_ids r) (max_tokens r)
               (arrival_time r) (sampling_params r)).

(** [append_output_token_ids]: an [int] argument is the list of that token. *)
Definition append_output_token_ids (block_hasher : option BlockHasher) (token_ids : list Z)
    : M Request unit :=
  modify (set_output_token_ids (fun l => l ++ token_ids)) ;;
  modify (set_all_token_ids (fun l => l ++ token_ids)) ;;
  update_block_hashes block_hasher.

(** Properties. *)
Definition use_structured_output (r : Request) : bool := negb (is_none (structured_output_request r)).
Definition num_tokens (r : Request) : Z := zlen (all_token_ids r).
Definition num_tokens_with_spec (r : Request) : Z := zlen (all_token_ids r) + zlen (spec_token_ids r).
Definition num_output_tokens (r : Request) : Z := zlen (output_token_ids r).
Definition num_encoder_inputs (r : Request) : Z := zlen (mm_features r).
Definition has_encoder_inputs (r : Request) : bool := 0 <? num_encoder_inputs r.
Definition is_finished (r : Request) : bool := status_is_finished (status r).
Definition get_finished_reason (r : Request) : option FinishReason := finished_reason_map (status r).

Definition get_num_encoder_embeds (r : Request) (input_id : Z) : res Z :=
  if negb (input_id <? zlen (mm_features r)) then Err AssertionError
  else f ← py_get (mm_features r) input_id ; get_num_embeds (mm_position f).

(** [record_event]: [now] is [time.monotonic()]. *)
Definition record_event (now : Z) (t : EngineCoreEventType) (ts : option Z) : M Request unit :=
  modify (set_events (fun l => l ++ [mkEvent t (default now ts)])).

Definition take_events : M Request (option (list EngineCoreEvent)) :=
  ev ← gets events ;
  match ev with
  | [] => mret None
  | _ => modify (set_events (fun _ => [])) ;; mret (Some ev)
  end.

(** [__lt__]; [py_id] is the identity of the object, which breaks ties. *)
Definition request_lt (py_id : Request -> Z) (a b : Request) : bool :=
  if negb (priority a =? priority b) then priority a <? priority b
  else if negb (arrival_time a =? arrival_time b) then arrival_time a <? arrival_time b
  else if negb (String.eqb (request_id a) (request_id b))
       then String.ltb (request_id a) (request_id b)
  else py_id a <? py_id b.
