(* ===== verification/Hashing.v ===== *)
(** * Block hashing for prefix caching

    The hashing half of [vllm/v1/core/kv_cache_utils.py]: block keys (a block
    hash packed with a KV cache group id), the extra keys that make two blocks
    with the same tokens different (LoRA, multimodal inputs, cache salt, prompt
    embeddings), the chained block hasher of a request, and the lazily merged
    view of hashes at a coarser block size.

    The caching hash function, the digest function of [hashlib] and the seed
    [NONE_HASH] (a random or configured byte string) are parameters. *)

From S2P Require Import Prelude Request.
Local Open Scope Z_scope.

(** ** Block keys *)

Definition make_block_hash_with_group_id (block_hash : bytes) (group_id : Z) : res bytes :=
  g ← to_bytes_be 4 group_id ; Ok (block_hash ++ g).

(** [key[:-4]] and [key[-4:]] *)
Definition get_block_hash (key : bytes) : bytes := py_slice_to key (-4).
Definition get_group_id (key : bytes) : Z := from_bytes_be (py_slice_from key (-4)).

(** [use_int] is [envs.VLLM_KV_EVENTS_USE_INT_BLOCK_HASHES]. *)
Inductive ExternalBlockHash := ExtBytes (b : bytes) | ExtInt (z : Z).

Definition maybe_convert_block_hash (use_int : bool) (hash_bytes : bytes) : ExternalBlockHash :=
  if negb use_int then ExtBytes hash_bytes
  else ExtInt (Z.land (from_bytes_be hash_bytes) (Z.shiftl 1 64 - 1)).

(** ** Extra keys *)

(** The components of an extra-key tuple: a bare string (a LoRA name or a cache
    salt), a pair [(mm_hash, start_offset)], or a digest. *)
Inductive py_key :=
  | KStr (s : string)
  | KMM (identifier : string) (start_offset : Z)
  | KBytes (b : bytes).

#[export] Instance py_key_eq_dec : EqDecision py_key.
Proof. solve_decision. Defined.

(** The tuple that is hashed: parent hash, block tokens, extra keys. *)
Definition hash_input : Type := bytes * list Z * option (list py_key).

Definition need_extra_keys (r : Request) : bool :=
  negb (bool_decide (mm_features r = [])) || negb (is_none (lora_request r))
  || negb (is_none (cache_salt r)).

(** One iteration per feature of [mm_features[curr_mm_idx:]]: the [while] loop
    of [_gen_mm_extra_hash_keys]. *)
Fixpoint mm_keys_loop (features : list MultiModalFeatureSpec) (start_token_idx end_token_idx : Z)
    (extra_keys : list py_key) (curr_mm_idx : Z) : res (list py_key * Z) :=
  match features with
  | [] => Ok (extra_keys, curr_mm_idx)
  | f :: features' =>
      match identifier f with
      | None => Err AssertionError
      | Some id =>
          let off := offset (mm_position f) in
          let len := length_ (mm_position f) in
          if off <? end_token_idx then
            if off + len <=? start_token_idx then
              mm_keys_loop features' start_token_idx end_token_idx extra_keys (curr_mm_idx + 1)
            else
              let extra_keys' := extra_keys ++ [KMM id (off - start_token_idx)] in
              if off + len <=? end_token_idx then
                mm_keys_loop features' start_token_idx end_token_idx extra_keys' (curr_mm_idx + 1)
              else Ok (extra_keys', curr_mm_idx)
          else Ok (extra_keys, curr_mm_idx)
      end
  end.

Definition gen_mm_extra_hash_keys (mm_features : list MultiModalFeatureSpec)
    (start_token_idx end_token_idx start_mm_idx : Z) : res (list py_key * Z) :=
  match last mm_features with
  | None => Ok ([], start_mm_idx)
  | Some f =>
      let last_pos := mm_position f in
      if offset last_pos + length_ last_pos <=? start_token_idx then Ok ([], start_mm_idx)
      else
        if (start_mm_idx <? 0) && negb (- start_mm_idx <=? zlen mm_features) then Err AssertionError
        else
          let curr := if start_mm_idx <? 0 then zlen mm_features + start_mm_idx else start_mm_idx in
          mm_keys_loop (drop (Z.to_nat curr) mm_features) start_token_idx end_token_idx [] curr
  end.

Definition gen_lora_extra_hash_keys (r : Request) : list py_key :=
  match lora_request r with None => [] | Some l => [KStr (lora_name l)] end.

(** [[request.cache_salt] if (start_token_idx == 0 and request.cache_salt) else []] *)
Definition cache_salt_keys (r : Request) (start_token_idx : Z) : list py_key :=
  match cache_salt r with
  | Some s => if (start_token_idx =? 0) && negb (String.eqb s "") then [KStr s] else []
  | None => []
  end.

Section Hasher.
Context (sha256 : bytes -> bytes).
Context (hash_function : hash_input -> bytes).
Context (NONE_HASH : bytes).

(** The digest of a slice of the prompt embeddings is memoised per block range. *)
Definition gen_prompt_embeds_extra_hash_keys (start_token_idx end_token_idx : Z)
    : M Request (list py_key) :=
  pe ← gets prompt_embeds ;
  match pe with
  | None => mret []
  | Some rows =>
      memo ← gets prompt_embeds_per_block_hashes ;
      match memo !! (start_token_idx, end_token_idx) with
      | Some h => mret [KBytes h]
      | None =>
          let h := sha256 (concat (py_slice rows start_token_idx end_token_idx)) in
          modify (set_prompt_embeds_per_block_hashes
                    (insert (start_token_idx, end_token_idx) h)) ;;
          mret [KBytes h]
      end
  end.

Definition generate_block_hash_extra_keys (start_token_idx end_token_idx start_mm_idx : Z)
    : M Request (option (list py_key) * Z) :=
  features ← gets mm_features ;
  mm ← lift_res (gen_mm_extra_hash_keys features start_token_idx end_token_idx start_mm_idx) ;
  lora ← gets gen_lora_extra_hash_keys ;
  salt ← gets (fun r => cache_salt_keys r start_token_idx) ;
  embeds ← gen_prompt_embeds_extra_hash_keys start_token_idx end_token_idx ;
  match lora ++ mm.1 ++ salt ++ embeds with
  | [] => mret (None, mm.2)
  | keys => mret (Some keys, mm.2)
  end.

(** An absent or empty parent hash is replaced by the seed. *)
Definition hash_block_tokens (parent_block_hash : option bytes) (curr_block_token_ids : list Z)
    (extra_keys : option (list py_key)) : bytes :=
  let parent := match parent_block_hash with None | Some [] => NONE_HASH | Some h => h end in
  hash_function (parent, curr_block_token_ids, extra_keys).

Section BlockSize.
Context (block_size : Z).

(** The [while True] loop; [None]: the fuel ran out. *)
Fixpoint hasher_loop (fuel : nat) (start_token_idx curr_mm_idx : Z)
    (prev_block_hash_value : option bytes) (new_block_hashes : list bytes)
    : M Request (option (list bytes)) :=
  match fuel with
  | O => mret None
  | S fuel' =>
      n ← gets num_tokens ;
      let end_token_idx := start_token_idx + block_size in
      if n <? end_token_idx then mret (Some new_block_hashes)
      else
        ek ← generate_block_hash_extra_keys start_token_idx end_token_idx curr_mm_idx ;
        toks ← gets all_token_ids ;
        let block_hash := hash_block_tokens prev_block_hash_value
                            (py_slice toks start_token_idx end_token_idx) ek.1 in
        hasher_loop fuel' (start_token_idx + block_size) ek.2 (Some block_hash)
          (new_block_hashes ++ [block_hash])
  end.

(** [request_block_hasher].  The loop runs at most once per token when
    [block_size] is positive, and does not terminate otherwise: the code's
    divergence is the [RuntimeError] of the exhausted fuel. *)
Definition request_block_hasher : BlockHasher :=
  hashes ← gets block_hashes ;
  n ← gets num_tokens ;
  let start_token_idx := zlen hashes * block_size in
  if n <? start_token_idx + block_size then mret []
  else
    let curr_mm_idx := if 0 <? start_token_idx then -1 else 0 in
    out ← hasher_loop (S (Z.to_nat n)) start_token_idx curr_mm_idx (last hashes) [] ;
    lift_opt RuntimeError out.
End BlockSize.
End Hasher.

(** [get_request_block_hasher(block_size, caching_hash_fn)] *)
Definition get_request_block_hasher := request_block_hasher.

(** ** Hashes at a coarser block size *)

Record BlockHashListWithBlockSize := mkBlockHashList {
  bhl_block_hashes : list bytes;
  scale_factor : Z
}.

Definition bhl_init (hashes : list bytes) (hash_block_size target_block_size : Z)
    : res BlockHashListWithBlockSize :=
  m ← py_mod target_block_size hash_block_size ;
  if negb (m =? 0) then Err AssertionError
  else s ← py_floordiv target_block_size hash_block_size ; Ok (mkBlockHashList hashes s).

Definition bhl_len (b : BlockHashListWithBlockSize) : res Z :=
  py_floordiv (zlen (bhl_block_hashes b)) (scale_factor b).

(** [_get_value_at] *)
Definition get_value_at (b : BlockHashListWithBlockSize) (idx : Z) : res bytes :=
  let base := idx * scale_factor b in
  let end_ := base + scale_factor b in
  first ← py_get (bhl_block_hashes b) base ;
  foldl (fun acc i => merged ← acc ; h ← py_get (bhl_block_hashes b) i ; Ok (merged ++ h))
    (Ok first) (zrange (base + 1) end_).

(** [__iter__]: the elements at [0 .. len(self) - 1]. *)
Definition bhl_iter (b : BlockHashListWithBlockSize) : res (list bytes) :=
  n ← bhl_len b ;
  foldr (fun i acc => h ← get_value_at b i ; t ← acc ; Ok (h :: t)) (Ok []) (zrange 0 n).
