(* ===== verification/HashingLemmas.v ===== *)
(** * Lemmas on block hashing

    Reference definitions (the hash chain of a request, the multimodal keys of a
    block as a filter over all features) and the lemmas that relate the loops of
    [Hashing] to them. *)

From S2P Require Import Prelude Request Hashing.
Local Open Scope Z_scope.

(** ** Reference definitions *)

Definition mm_end (f : MultiModalFeatureSpec) : Z := offset (mm_position f) + length_ (mm_position f).

(** A feature contributes to the keys of the block [[s, e)]. *)
Definition overlaps (s e : Z) (f : MultiModalFeatureSpec) : bool :=
  (offset (mm_position f) <? e) && (s <? mm_end f).

Definition mm_key (s : Z) (f : MultiModalFeatureSpec) : py_key :=
  KMM (default EmptyString (identifier f)) (offset (mm_position f) - s).

(** The multimodal keys of a block: one per overlapping feature, in order. *)
Definition mm_keys_spec (fs : list MultiModalFeatureSpec) (s e : Z) : list py_key :=
  mm_key s <$> filter (fun f => overlaps s e f = true) fs.

(** Features as the input processor builds them: identified, non-empty, sorted
    and disjoint. *)
Fixpoint mm_wf (lo : Z) (fs : list MultiModalFeatureSpec) : Prop :=
  match fs with
  | [] => True
  | f :: fs' =>
      is_Some (identifier f) /\ lo <= offset (mm_position f) /\ 0 < length_ (mm_position f)
      /\ mm_wf (mm_end f) fs'
  end.

(** [idx] may be used as the start index for a block that starts at [s]: the
    features it skips end before [s]. *)
Definition mm_idx_ok (fs : list MultiModalFeatureSpec) (s idx : Z) : Prop :=
  (0 <= idx <= zlen fs /\ Forall (fun f => mm_end f <= s) (take (Z.to_nat idx) fs))
  \/ (idx = -1 /\ Forall (fun f => mm_end f <= s) (removelast fs)).

Definition embeds_keys_spec (sha256 : bytes -> bytes) (r : Request) (s e : Z) : list py_key :=
  match prompt_embeds r with
  | None => []
  | Some rows => [KBytes (sha256 (concat (py_slice rows s e)))]
  end.

Definition keys_spec (sha256 : bytes -> bytes) (r : Request) (s e : Z) : option (list py_key) :=
  match gen_lora_extra_hash_keys r ++ mm_keys_spec (mm_features r) s e
        ++ cache_salt_keys r s ++ embeds_keys_spec sha256 r s e with
  | [] => None
  | keys => Some keys
  end.

(** The [i]-th block of a request: its tokens and its extra keys. *)
Definition block_tokens (r : Request) (bs : Z) (i : nat) : list Z :=
  py_slice (all_token_ids r) (Z.of_nat i * bs) (Z.of_nat i * bs + bs).
Definition block_keys (sha256 : bytes -> bytes) (r : Request) (bs : Z) (i : nat) :=
  keys_spec sha256 r (Z.of_nat i * bs) (Z.of_nat i * bs + bs).

(** The memo of prompt-embedding digests holds digests of the embeddings. *)
Definition memo_ok (sha256 : bytes -> bytes) (r : Request) : Prop :=
  forall s e h rows, prompt_embeds r = Some rows ->
    prompt_embeds_per_block_hashes r !! (s, e) = Some h ->
    h = sha256 (concat (py_slice rows s e)).

(** Two requests that differ at most in the memo. *)
Definition memo_only (r r' : Request) : Prop :=
  exists m, r' = set_prompt_embeds_per_block_hashes (fun _ => m) r.

(** Full blocks of a request. *)
Definition num_full_blocks (bs : Z) (r : Request) : nat := Z.to_nat (num_tokens r / bs).

Section Chain.
Context (sha256 : bytes -> bytes) (hash_function : hash_input -> bytes) (NONE_HASH : bytes).

(** The chained hash of block [i]. *)
Fixpoint block_hash_spec (r : Request) (bs : Z) (i : nat) : bytes :=
  hash_block_tokens hash_function NONE_HASH
    (match i with O => None | S j => Some (block_hash_spec r bs j) end)
    (block_tokens r bs i) (block_keys sha256 r bs i).

(** [block_hashes] holds the hashes of the first [k] blocks. *)
Definition hashes_upto (r : Request) (bs : Z) (k : nat) : Prop :=
  block_hashes r = block_hash_spec r bs <$> seq 0 k.

(** Every full block has its hash. *)
Definition hashes_ok (bs : Z) (r : Request) : Prop :=
  hashes_upto r bs (num_full_blocks bs r) /\ memo_ok sha256 r.
End Chain.

(** ** Block keys *)

Lemma get_block_hash_app h g : length g = 4%nat -> get_block_hash (h ++ g) = h.
Proof.
  intros Hg. unfold get_block_hash, py_slice_to, py_slice, py_clip, zlen.
  rewrite length_app, Hg. simpl.
  replace (Z.to_nat _) with (length h) by lia.
  replace (Z.to_nat _) with 0%nat by lia. rewrite drop_0. by rewrite take_app_length.
Qed.

Lemma get_group_id_app h g : length g = 4%nat -> get_group_id (h ++ g) = from_bytes_be g.
Proof.
  intros Hg. unfold get_group_id, py_slice_from, py_slice, py_clip, zlen.
  rewrite length_app, Hg. f_equal. simpl.
  replace (Z.of_nat (length h + 4) <? 0) with false by lia.
  replace (Z.to_nat (Z.max 0 (Z.of_nat (length h + 4) + -4))) with (length h) by lia.
  rewrite drop_app_length. apply take_ge. lia.
Qed.

Lemma make_key_Ok h g k :
  make_block_hash_with_group_id h g = Ok k ->
  0 <= g < 2 ^ 32 /\ k = h ++ to_bytes_raw 4 g.
Proof.
  unfold make_block_hash_with_group_id, to_bytes_be, mbind, res_bind.
  destruct ((0 <=? g) && (g <? 256 ^ Z.of_nat 4)) eqn:E; [|done].
  intros [= <-]. change (256 ^ Z.of_nat 4) with (2 ^ 32) in E. split; [lia|done].
Qed.

Lemma make_key_in_range h g :
  0 <= g < 2 ^ 32 -> make_block_hash_with_group_id h g = Ok (h ++ to_bytes_raw 4 g).
Proof.
  intros Hg. unfold make_block_hash_with_group_id, to_bytes_be.
  change (256 ^ Z.of_nat 4) with (2 ^ 32).
  by replace ((0 <=? g) && (g <? 2 ^ 32)) with true by lia.
Qed.

(** Keys determine both components. *)
Lemma key_parts h g k :
  make_block_hash_with_group_id h g = Ok k -> get_block_hash k = h /\ get_group_id k = g.
Proof.
  intros [Hg ->]%make_key_Ok.
  rewrite get_block_hash_app, get_group_id_app by apply length_to_bytes_raw.
  split; [done|]. apply from_to_bytes_raw. change (256 ^ Z.of_nat 4) with (2 ^ 32). lia.
Qed.

Lemma key_inj h g h' g' k :
  make_block_hash_with_group_id h g = Ok k ->
  make_block_hash_with_group_id h' g' = Ok k -> h = h' /\ g = g'.
Proof. intros [<- <-]%key_parts [<- <-]%key_parts. done. Qed.

(** ** Multimodal keys *)

Lemma mm_wf_weaken lo lo' fs : lo' <= lo -> mm_wf lo fs -> mm_wf lo' fs.
Proof. destruct fs; simpl; [done|]. intros ? (? & ? & ? & ?). repeat split; try done. lia. Qed.

Lemma mm_wf_drop lo fs n : mm_wf lo fs -> exists lo', lo <= lo' /\ mm_wf lo' (drop n fs).
Proof.
  revert lo n. induction fs as [|f fs IH]; intros lo [|n]; simpl.
  - exists lo. split; [lia|done].
  - exists lo. split; [lia|done].
  - intros (Hi & Hlo & Hl & Hw). exists lo. split; [lia|]. done.
  - intros (Hi & Hlo & Hl & Hw). destruct (IH _ n Hw) as (lo' & ? & ?).
    exists lo'. split; [unfold mm_end in *; lia|done].
Qed.

Lemma mm_wf_ge lo fs f : mm_wf lo fs -> f ∈ fs ->
  lo <= offset (mm_position f) /\ offset (mm_position f) < mm_end f.
Proof.
  revert lo. induction fs as [|g fs IH]; intros lo; [inversion 2|].
  intros (_ & Hlo & Hl & Hw) [->|Hf]%elem_of_cons.
  - unfold mm_end. lia.
  - destruct (IH _ Hw Hf). unfold mm_end in *. lia.
Qed.

Lemma mm_wf_last lo fs f g : mm_wf lo fs -> last fs = Some g -> f ∈ fs -> mm_end f <= mm_end g.
Proof.
  revert lo. induction fs as [|h fs IH]; intros lo; [inversion 3|].
  intros (_ & Hlo & Hl & Hw) Hlast [->|Hf]%elem_of_cons.
  - destruct fs as [|h' fs]; [simpl in Hlast; by simplify_eq|].
    rewrite last_cons_cons in Hlast.
    destruct (mm_wf_ge _ _ g Hw); [by apply last_Some_elem_of in Hlast|].
    unfold mm_end in *. lia.
  - apply (IH _ Hw); [|done]. destruct fs as [|h' fs]; [by inversion Hf|].
    by rewrite last_cons_cons in Hlast.
Qed.

Lemma mm_keys_spec_nil fs s e :
  (forall f, f ∈ fs -> e <= offset (mm_position f) \/ mm_end f <= s) -> mm_keys_spec fs s e = [].
Proof.
  intros H. unfold mm_keys_spec.
  assert (filter (fun f => overlaps s e f = true) fs = []) as ->; [|done].
  destruct (filter _ fs) as [|f l] eqn:E; [done|].
  assert (Hf : f ∈ filter (fun f => overlaps s e f = true) fs) by (rewrite E; left).
  apply list_elem_of_filter in Hf as [Ho Hf]. destruct (H f Hf); unfold overlaps in Ho; lia.
Qed.

Lemma mm_keys_spec_cons f fs s e :
  mm_keys_spec (f :: fs) s e =
  (if overlaps s e f then [mm_key s f] else []) ++ mm_keys_spec fs s e.
Proof.
  unfold mm_keys_spec. rewrite filter_cons. destruct (overlaps s e f) eqn:E.
  - by rewrite decide_True by done.
  - by rewrite decide_False by done.
Qed.

Lemma mm_keys_spec_app fs1 fs2 s e :
  mm_keys_spec (fs1 ++ fs2) s e = mm_keys_spec fs1 s e ++ mm_keys_spec fs2 s e.
Proof. unfold mm_keys_spec. by rewrite filter_app, fmap_app. Qed.

Lemma mm_keys_loop_spec lo fs s e acc curr :
  mm_wf lo fs -> s <= e ->
  exists n : nat, mm_keys_loop fs s e acc curr = Ok (acc ++ mm_keys_spec fs s e, curr + Z.of_nat n)
    /\ (n <= length fs)%nat /\ Forall (fun f => mm_end f <= e) (take n fs).
Proof.
  intros Hwf Hse. revert lo acc curr Hwf. induction fs as [|f fs IH]; intros lo acc curr Hwf.
  { exists 0%nat. simpl. rewrite app_nil_r, Z.add_0_r. split_and!; [done|lia|done]. }
  destruct Hwf as ([id Hid] & Hlo & Hlen & Hwf). simpl. rewrite Hid.
  rewrite mm_keys_spec_cons. fold (mm_end f).
  assert (Hrest : e < mm_end f \/ e <= offset (mm_position f) -> mm_keys_spec fs s e = []).
  { intros He. apply mm_keys_spec_nil. intros g Hg.
    destruct (mm_wf_ge _ _ g Hwf Hg). left. unfold mm_end in *. lia. }
  assert (Hk : mm_key s f = KMM id (offset (mm_position f) - s)).
  { unfold mm_key. by rewrite Hid. }
  destruct (offset (mm_position f) <? e) eqn:Eo.
  - destruct (mm_end f <=? s) eqn:Es.
    + destruct (IH _ acc (curr + 1) Hwf) as (n & -> & ? & ?). exists (S n). simpl.
      replace (overlaps s e f) with false by (unfold overlaps; lia). simpl.
      split_and!; [f_equal; f_equal; lia|lia|]. constructor; [lia|done].
    + replace (overlaps s e f) with true by (unfold overlaps; lia).
      destruct (mm_end f <=? e) eqn:Ee.
      * destruct (IH _ (acc ++ [KMM id (offset (mm_position f) - s)]) (curr + 1) Hwf)
          as (n & -> & ? & ?). exists (S n). rewrite Hk, <-app_assoc. simpl.
        split_and!; [f_equal; f_equal; lia|lia|]. constructor; [lia|done].
      * exists 0%nat. rewrite Hrest, app_nil_r, Hk, Z.add_0_r by lia. split_and!; [done|simpl; lia|done].
  - exists 0%nat. replace (overlaps s e f) with false by (unfold overlaps; lia). simpl.
    rewrite Hrest, app_nil_r, Z.add_0_r by lia. split_and!; [done|lia|done].
Qed.

Lemma mm_idx_ok_all fs s e idx :
  mm_idx_ok fs s idx -> s <= e -> mm_idx_ok fs e idx.
Proof.
  intros [[? Hf]|[? Hf]] Hse; [left|right]; (split; [done|]); eapply Forall_impl; eauto; naive_solver lia.
Qed.

Lemma gen_mm_spec lo fs s e idx :
  mm_wf lo fs -> s <= e -> mm_idx_ok fs s idx ->
  exists idx', gen_mm_extra_hash_keys fs s e idx = Ok (mm_keys_spec fs s e, idx')
    /\ mm_idx_ok fs e idx'.
Proof.
  intros Hwf Hse Hidx. unfold gen_mm_extra_hash_keys.
  destruct (last fs) as [g|] eqn:Hlast; cycle 1.
  { apply last_None in Hlast as ->. exists idx. split; [done|]. by eapply mm_idx_ok_all. }
  fold (mm_end g). destruct (mm_end g <=? s) eqn:Eg.
  { exists idx. rewrite mm_keys_spec_nil; [|].
    - split; [done|]. by eapply mm_idx_ok_all.
    - intros f Hf. right. pose proof (mm_wf_last _ _ _ _ Hwf Hlast Hf). lia. }
  assert (Hne : (0 < length fs)%nat).
  { destruct fs; [done|simpl; lia]. }
  set (curr := if idx <? 0 then zlen fs + idx else idx).
  assert (Hcurr : 0 <= curr <= zlen fs /\ Forall (fun f => mm_end f <= s) (take (Z.to_nat curr) fs)).
  { destruct Hidx as [[? Hf]|[-> Hf]]; subst curr.
    - replace (idx <? 0) with false by lia. done.
    - simpl. unfold zlen in *. split; [lia|]. rewrite removelast_firstn_len in Hf.
      by replace (Z.to_nat (Z.of_nat (length fs) + -1)) with (pred (length fs)) by lia. }
  replace ((idx <? 0) && negb (- idx <=? zlen fs)) with false
    by (unfold zlen; destruct Hidx as [[? _]|[? _]]; lia).
  destruct Hcurr as [Hc Hskip].
  destruct (mm_wf_drop lo fs (Z.to_nat curr) Hwf) as (lo' & _ & Hwf').
  destruct (mm_keys_loop_spec lo' (drop (Z.to_nat curr) fs) s e [] curr Hwf' Hse)
    as (n & -> & Hn & Hfn). exists (curr + Z.of_nat n). split.
  - rewrite app_nil_l. rewrite <-(take_drop (Z.to_nat curr) fs) at 2.
    rewrite mm_keys_spec_app, (mm_keys_spec_nil (take _ _)); [done|].
    intros f Hf. right. by eapply Forall_forall in Hskip.
  - left. rewrite length_drop in Hn. unfold zlen in *. split; [lia|].
    replace (Z.to_nat (curr + Z.of_nat n)) with (Z.to_nat curr + n)%nat by lia.
    rewrite <-(take_drop (Z.to_nat curr) fs), take_app_add'.
    + apply Forall_app. split; [|done]. eapply Forall_impl; [done|]. naive_solver lia.
    + rewrite length_take. lia.
Qed.

(** ** The hasher *)

Section HasherLemmas.
Context (sha256 : bytes -> bytes) (hash_function : hash_input -> bytes) (NONE_HASH : bytes).
Local Abbreviation spec := (block_hash_spec sha256 hash_function NONE_HASH).
Local Abbreviation upto := (hashes_upto sha256 hash_function NONE_HASH).
Local Abbreviation hasher := (request_block_hasher sha256 hash_function NONE_HASH).

Lemma memo_only_refl r : memo_only r r.
Proof. exists (prompt_embeds_per_block_hashes r). by destruct r. Qed.

Lemma memo_only_trans r1 r2 r3 : memo_only r1 r2 -> memo_only r2 r3 -> memo_only r1 r3.
Proof. intros [m ->] [m' ->]. by exists m'. Qed.

(** The memo has no influence on the reference chain. *)
Lemma block_hash_spec_memo r r' bs i : memo_only r r' -> spec r' bs i = spec r bs i.
Proof. intros [m ->]. induction i as [|i IH]; simpl; [done|]. by rewrite IH. Qed.

(** The hash of a block depends on the tokens up to its end, and on the
    attributes that extra keys are made of. *)
Lemma block_hash_spec_ext r r' bs i :
  (forall j, (j <= i)%nat -> block_tokens r' bs j = block_tokens r bs j) ->
  (forall j, (j <= i)%nat -> block_keys sha256 r' bs j = block_keys sha256 r bs j) ->
  spec r' bs i = spec r bs i.
Proof.
  induction i as [|i IH]; intros Ht Hk; simpl; rewrite Ht, Hk by lia; [done|].
  rewrite IH; [done | intros; apply Ht; lia | intros; apply Hk; lia].
Qed.

Lemma gen_embeds_wp s e r :
  memo_ok sha256 r ->
  wp (gen_prompt_embeds_extra_hash_keys sha256 s e)
     (fun k r' => k = embeds_keys_spec sha256 r s e /\ memo_only r r' /\ memo_ok sha256 r') r.
Proof.
  intros Hok. unfold gen_prompt_embeds_extra_hash_keys, embeds_keys_spec. wp_steps.
  destruct (prompt_embeds r) as [rows|] eqn:Ep; wp_steps.
  2: { split_and!; [done|apply memo_only_refl|done]. }
  destruct (prompt_embeds_per_block_hashes r !! (s, e)) as [h|] eqn:Em; wp_steps.
  - rewrite (Hok _ _ _ _ Ep Em). split_and!; [done|apply memo_only_refl|done].
  - split_and!; [done|by eexists|].
    intros s' e' h' rows' Hr. simpl in *. rewrite lookup_insert.
    case_decide; [|by apply Hok]. intros [= <-]. simplify_eq. done.
Qed.

Lemma generate_keys_wp lo s e idx r :
  mm_wf lo (mm_features r) -> s <= e -> mm_idx_ok (mm_features r) s idx -> memo_ok sha256 r ->
  wp (generate_block_hash_extra_keys sha256 s e idx)
     (fun k r' => k.1 = keys_spec sha256 r s e /\ mm_idx_ok (mm_features r) e k.2
                  /\ memo_only r r' /\ memo_ok sha256 r') r.
Proof.
  intros Hwf Hse Hidx Hok. unfold generate_block_hash_extra_keys, keys_spec. wp_steps.
  destruct (gen_mm_spec lo _ s e idx Hwf Hse Hidx) as (idx' & Hg & Hidx').
  wp_steps. eapply wp_mono; [by apply gen_embeds_wp|].
  intros k r' (-> & Hm & Hok'). simpl.
  by destruct (gen_lora_extra_hash_keys r ++ _); wp_steps; simpl.
Qed.

Lemma block_tokens_memo r r' bs i : memo_only r r' -> block_tokens r' bs i = block_tokens r bs i.
Proof. by intros [m ->]. Qed.

Lemma hasher_loop_wp lo bs fuel (k : nat) idx prev acc r0 r :
  0 < bs -> mm_wf lo (mm_features r0) ->
  (num_full_blocks bs r0 < k + fuel)%nat -> (k <= num_full_blocks bs r0)%nat ->
  mm_idx_ok (mm_features r0) (Z.of_nat k * bs) idx ->
  prev = match k with O => None | S j => Some (spec r0 bs j) end ->
  memo_only r0 r -> memo_ok sha256 r ->
  wp (hasher_loop sha256 hash_function NONE_HASH bs fuel (Z.of_nat k * bs) idx prev acc)
     (fun out r' => out = Some (acc ++ (spec r0 bs <$> seq k (num_full_blocks bs r0 - k)))
                    /\ memo_only r0 r' /\ memo_ok sha256 r') r.
Proof.
  intros Hbs Hwf. revert k idx prev acc r.
  induction fuel as [|fuel IH]; intros k idx prev acc r Hfuel Hk Hidx Hprev Hm Hok; [lia|].
  simpl. wp_steps.
  assert (Hn : num_tokens r = num_tokens r0) by (destruct Hm as [m ->]; done).
  assert (Hk' : Z.of_nat (num_full_blocks bs r0) * bs <= num_tokens r0
                < Z.of_nat (num_full_blocks bs r0) * bs + bs).
  { unfold num_full_blocks. pose proof (zlen_nonneg (all_token_ids r0)).
    pose proof (Z.div_pos (num_tokens r0) bs ltac:(done) Hbs).
    pose proof (Z.div_mod (num_tokens r0) bs ltac:(lia)).
    pose proof (Z.mod_pos_bound (num_tokens r0) bs Hbs). nia. }
  rewrite Hn. destruct (num_tokens r0 <? Z.of_nat k * bs + bs) eqn:E; wp_steps.
  { replace (num_full_blocks bs r0 - k)%nat with 0%nat by nia. simpl. by rewrite app_nil_r. }
  assert (Hlt : (k < num_full_blocks bs r0)%nat) by nia.
  assert (Hf : mm_features r = mm_features r0) by (destruct Hm as [m ->]; done).
  eapply wp_mono; [eapply (generate_keys_wp lo); rewrite ?Hf; try done; lia|].
  intros ek r1 (Hek & Hidx1 & Hm1 & Hok1). wp_steps.
  assert (Hm01 : memo_only r0 r1) by (by eapply memo_only_trans).
  assert (Hh : hash_block_tokens hash_function NONE_HASH prev
                 (py_slice (all_token_ids r1) (Z.of_nat k * bs) (Z.of_nat k * bs + bs)) ek.1
               = spec r0 bs k).
  { rewrite Hek, Hprev. destruct Hm as [m ->], Hm01 as [m1 ->]. by destruct k. }
  rewrite Hh. replace (Z.of_nat k * bs + bs) with (Z.of_nat (S k) * bs) in Hidx1 |- * by lia.
  rewrite Hf in Hidx1.
  eapply wp_mono; [apply (IH (S k)); try done; lia|].
  intros out r' (-> & ? & ?). split; [|done]. rewrite <-app_assoc. simpl.
  replace (num_full_blocks bs r0 - k)%nat with (S (num_full_blocks bs r0 - S k)) by lia.
  done.
Qed.

Lemma last_fmap_seq {A} (f : nat -> A) k :
  last (f <$> seq 0 k) = match k with O => None | S j => Some (f j) end.
Proof. destruct k; [done|]. rewrite seq_S, fmap_app. simpl. by rewrite last_snoc. Qed.

(** [request_block_hasher] returns the hashes of the blocks [k ..] of the
    reference chain when the request holds those of the first [k] blocks. *)
Lemma hasher_wp lo bs (k : nat) r :
  0 < bs -> mm_wf lo (mm_features r) -> upto r bs k -> memo_ok sha256 r ->
  (k <= num_full_blocks bs r)%nat ->
  (k = 0%nat \/ Forall (fun f => mm_end f <= Z.of_nat k * bs) (removelast (mm_features r))) ->
  wp (hasher bs)
     (fun out r' => out = spec r bs <$> seq k (num_full_blocks bs r - k)
                    /\ memo_only r r' /\ memo_ok sha256 r') r.
Proof.
  intros Hbs Hwf Hup Hok Hk Hidx. unfold request_block_hasher. wp_steps.
  assert (Hz : zlen (block_hashes r) = Z.of_nat k).
  { unfold zlen. by rewrite Hup, length_fmap, length_seq. }
  rewrite Hz. assert (Hn : 0 <= num_tokens r) by apply zlen_nonneg.
  pose proof (Z.div_mod (num_tokens r) bs ltac:(lia)).
  pose proof (Z.mod_pos_bound (num_tokens r) bs Hbs).
  pose proof (Z.div_pos (num_tokens r) bs ltac:(done) Hbs).
  destruct (num_tokens r <? Z.of_nat k * bs + bs) eqn:E; wp_steps.
  { replace (num_full_blocks bs r - k)%nat with 0%nat by (unfold num_full_blocks in *; nia).
    split_and!; [done|apply memo_only_refl|done]. }
  eapply wp_mono.
  - apply (hasher_loop_wp lo bs _ k _ _ [] r r); try done.
    + unfold num_full_blocks. nia.
    + destruct (0 <? Z.of_nat k * bs) eqn:E0.
      * right. split; [done|]. destruct Hidx as [->|?]; [lia|done].
      * left. split; [unfold zlen; lia|done].
    + by rewrite Hup, last_fmap_seq.
    + apply memo_only_refl.
  - intros out r' (-> & ? & ?). simpl. by wp_steps.
Qed.

(** [update_block_hashes] completes the chain. *)
Lemma update_block_hashes_wp lo bs (k : nat) r :
  0 < bs -> mm_wf lo (mm_features r) -> upto r bs k -> memo_ok sha256 r ->
  (k <= num_full_blocks bs r)%nat ->
  (k = 0%nat \/ Forall (fun f => mm_end f <= Z.of_nat k * bs) (removelast (mm_features r))) ->
  wp (update_block_hashes (Some (hasher bs)))
     (fun _ r' => hashes_ok sha256 hash_function NONE_HASH bs r'
        /\ exists m, r' = set_block_hashes (fun _ => block_hashes r') (set_prompt_embeds_per_block_hashes (fun _ => m) r)) r.
Proof.
  intros Hbs Hwf Hup Hok Hk Hidx. unfold update_block_hashes. wp_steps.
  eapply wp_mono; [by eapply hasher_wp|]. intros out r' (-> & [m ->] & Hok'). wp_steps.
  split; [split|].
  - unfold hashes_upto. simpl. rewrite Hup, <-fmap_app, <-seq_app.
    replace (k + _)%nat with (num_full_blocks bs r) by lia.
    apply list_fmap_ext. intros i x _. symmetry.
    rewrite <-(block_hash_spec_memo r _ bs x (ex_intro _ m eq_refl)).
    apply block_hash_spec_ext; done.
  - exact Hok'.
  - by exists m.
Qed.

Lemma num_full_blocks_bound bs r :
  0 < bs -> Z.of_nat (num_full_blocks bs r) * bs <= num_tokens r
            < Z.of_nat (num_full_blocks bs r) * bs + bs.
Proof.
  intros Hbs. unfold num_full_blocks. pose proof (zlen_nonneg (all_token_ids r)) as Hn.
  fold (num_tokens r) in Hn. pose proof (Z.div_pos (num_tokens r) bs Hn Hbs).
  pose proof (Z.div_mod (num_tokens r) bs ltac:(lia)).
  pose proof (Z.mod_pos_bound (num_tokens r) bs Hbs). nia.
Qed.

(** Appending tokens does not change the blocks that are already full. *)
Lemma block_tokens_app r bs toks j :
  0 < bs -> (j < num_full_blocks bs r)%nat ->
  block_tokens (set_all_token_ids (fun l => l ++ toks) r) bs j = block_tokens r bs j.
Proof.
  intros Hbs Hj. pose proof (num_full_blocks_bound bs r Hbs) as Hb.
  unfold block_tokens. simpl. rewrite !py_slice_nonneg by nia.
  unfold num_tokens, zlen in Hb. rewrite drop_app_le by nia.
  rewrite take_app_le; [done|]. rewrite length_drop. nia.
Qed.

(** [append_output_token_ids] keeps every full block hashed. *)
Lemma append_output_token_ids_wp lo bs toks r :
  0 < bs -> mm_wf lo (mm_features r) -> hashes_ok sha256 hash_function NONE_HASH bs r ->
  (num_full_blocks bs r = 0%nat
   \/ Forall (fun f => mm_end f <= Z.of_nat (num_full_blocks bs r) * bs) (removelast (mm_features r))) ->
  wp (append_output_token_ids (Some (hasher bs)) toks)
     (fun _ r' => hashes_ok sha256 hash_function NONE_HASH bs r'
        /\ all_token_ids r' = all_token_ids r ++ toks
        /\ output_token_ids r' = output_token_ids r ++ toks
        /\ block_hashes r `prefix_of` block_hashes r' /\ mm_features r' = mm_features r) r.
Proof.
  intros Hbs Hwf [Hup Hok] Hidx. unfold append_output_token_ids. wp_steps.
  set (r1 := set_all_token_ids (fun l => l ++ toks) _).
  assert (Hup1 : upto r1 bs (num_full_blocks bs r)).
  { unfold hashes_upto. change (block_hashes r1) with (block_hashes r). rewrite Hup.
    apply list_fmap_ext. intros i x Hx%lookup_seq. symmetry.
    apply block_hash_spec_ext; [|done]. intros j Hj.
    by apply (block_tokens_app r bs toks j Hbs); lia. }
  assert (Hle : (num_full_blocks bs r <= num_full_blocks bs r1)%nat).
  { unfold num_full_blocks, num_tokens, r1. simpl. rewrite zlen_app.
    pose proof (zlen_nonneg toks). apply Z2Nat.inj_le.
    - apply Z.div_pos; [apply zlen_nonneg|done].
    - apply Z.div_pos; [|done]. pose proof (zlen_nonneg (all_token_ids r)). lia.
    - apply Z.div_le_mono; lia. }
  eapply wp_mono; [by eapply (update_block_hashes_wp lo bs (num_full_blocks bs r) r1)|].
  intros [] r' [[Hup' Hok'] [m Hr']]. split_and!; [done|by rewrite Hr'|by rewrite Hr'| |by rewrite Hr'].
  rewrite Hup', Hup. assert (Hn : num_full_blocks bs r' = num_full_blocks bs r1) by (by rewrite Hr').
  rewrite Hn. exists (spec r' bs <$> seq (num_full_blocks bs r) (num_full_blocks bs r1 - num_full_blocks bs r)).
  replace (num_full_blocks bs r1)
    with (num_full_blocks bs r + (num_full_blocks bs r1 - num_full_blocks bs r))%nat at 1 by lia.
  rewrite seq_app, fmap_app. f_equal. apply list_fmap_ext.
  intros i x Hx%lookup_seq. simpl in Hx. rewrite Hr'. apply block_hash_spec_ext; [|done].
  intros j Hj. apply (block_tokens_app r bs toks j Hbs). lia.
Qed.
End HasherLemmas.

(** ** Collision freedom

    With a collision-free hash function, the hash of a block determines the
    tokens and the extra keys of that block and of every block before it. *)

Definition is_mm_key (k : py_key) : Prop := match k with KMM _ _ => True | _ => False end.
#[export] Instance is_mm_key_dec k : Decision (is_mm_key k).
Proof. destruct k; simpl; apply _. Defined.
Definition is_str_key (k : py_key) : Prop := match k with KStr _ => True | _ => False end.
#[export] Instance is_str_key_dec k : Decision (is_str_key k).
Proof. destruct k; simpl; apply _. Defined.

(** No collision occurs among the inputs [I]: the function is injective there,
    with outputs that are neither empty nor the seed. *)
Record collision_free_on (I : hash_input -> Prop) (hash_function : hash_input -> bytes)
    (NONE_HASH : bytes) : Prop := {
  cf_inj : forall x y, I x -> I y -> hash_function x = hash_function y -> x = y;
  cf_nonempty : forall x, I x -> hash_function x <> [];
  cf_none : forall x, I x -> hash_function x <> NONE_HASH
}.

Section Collision.
Context (sha256 : bytes -> bytes) (hash_function : hash_input -> bytes) (NONE_HASH : bytes).
Local Abbreviation spec := (block_hash_spec sha256 hash_function NONE_HASH).

(** What is hashed for block [i]. *)
Definition block_input (r : Request) (bs : Z) (i : nat) : hash_input :=
  (match i with O => NONE_HASH | S j => spec r bs j end,
   block_tokens r bs i, block_keys sha256 r bs i).

Context (I : hash_input -> Prop) (Hcf : collision_free_on I hash_function NONE_HASH).

(** The inputs of the first [n] blocks of [r] are among [I]. *)
Definition inputs_in (r : Request) (bs : Z) (n : nat) : Prop :=
  forall i, (i < n)%nat -> I (block_input r bs i).

Lemma inputs_in_le r bs n m : inputs_in r bs n -> (m <= n)%nat -> inputs_in r bs m.
Proof. intros H ? i ?. apply H. lia. Qed.

Lemma spec_input r bs n i :
  inputs_in r bs n -> (i < n)%nat -> spec r bs i = hash_function (block_input r bs i).
Proof.
  intros HI Hi. destruct i as [|j]; [done|]. simpl. unfold hash_block_tokens. simpl.
  destruct (spec r bs j) eqn:E; [|by rewrite <-E].
  assert (Hj : spec r bs j = hash_function (block_input r bs j)).
  { clear -HI Hi Hcf. revert Hi. induction j as [|j IH]; intros Hi; [done|].
    simpl. unfold hash_block_tokens. simpl. specialize (IH ltac:(lia)).
    destruct (spec r bs j) eqn:E; [|by rewrite <-E].
    exfalso. symmetry in IH. revert IH. apply (cf_nonempty _ _ _ Hcf), HI. lia. }
  exfalso. rewrite E in Hj. symmetry in Hj. revert Hj. apply (cf_nonempty _ _ _ Hcf), HI. lia.
Qed.

Lemma block_hash_spec_inj r1 r2 bs i j :
  inputs_in r1 bs (S i) -> inputs_in r2 bs (S j) -> spec r1 bs i = spec r2 bs j ->
  i = j /\ forall l, (l <= i)%nat ->
    block_tokens r1 bs l = block_tokens r2 bs l /\ block_keys sha256 r1 bs l = block_keys sha256 r2 bs l.
Proof.
  revert j. induction i as [|i IH]; intros j H1 H2 Heq;
    rewrite (spec_input r1 bs _ _ H1), (spec_input r2 bs _ _ H2) in Heq by lia;
    apply (cf_inj _ _ _ Hcf) in Heq; try (first [apply H1 | apply H2]; lia);
    injection Heq as Hp Ht Hk; destruct j as [|j].
  - split; [done|]. intros l ?. by replace l with 0%nat by lia.
  - rewrite (spec_input r2 bs _ _ H2) in Hp by lia. symmetry in Hp.
    exfalso. revert Hp. apply (cf_none _ _ _ Hcf), H2. lia.
  - rewrite (spec_input r1 bs _ _ H1) in Hp by lia.
    exfalso. revert Hp. apply (cf_none _ _ _ Hcf), H1. lia.
  - destruct (IH j) as [-> Hl]; [eapply inputs_in_le; [done|lia]..|done|].
    split; [done|]. intros l Hle.
    destruct (decide (l = S j)) as [->|]; [done|]. apply Hl. lia.
Qed.

Lemma block_hash_spec_NoDup r bs n : inputs_in r bs n -> NoDup (spec r bs <$> seq 0 n).
Proof.
  intros Hin. apply NoDup_fmap_2_strong; [|apply NoDup_seq].
  intros i j [_ Hi]%elem_of_seq [_ Hj]%elem_of_seq Hij.
  by apply block_hash_spec_inj in Hij as [? _]; [|eapply inputs_in_le; [done|lia]..].
Qed.
End Collision.

Lemma keys_of_spec sha256 r s e :
  default [] (keys_spec sha256 r s e) =
  gen_lora_extra_hash_keys r ++ mm_keys_spec (mm_features r) s e
    ++ cache_salt_keys r s ++ embeds_keys_spec sha256 r s e.
Proof. unfold keys_spec. by destruct (_ ++ _). Qed.

Lemma lora_keys_str r k : k ∈ gen_lora_extra_hash_keys r -> is_str_key k.
Proof.
  unfold gen_lora_extra_hash_keys. destruct (lora_request r); [|by inversion 1].
  by intros ->%list_elem_of_singleton.
Qed.

Lemma salt_keys_str r s k : k ∈ cache_salt_keys r s -> is_str_key k.
Proof.
  unfold cache_salt_keys. destruct (cache_salt r); [|by inversion 1].
  destruct (_ && _); [|by inversion 1]. by intros ->%list_elem_of_singleton.
Qed.

Lemma mm_keys_mm fs s e k : k ∈ mm_keys_spec fs s e -> is_mm_key k.
Proof. by intros (f & -> & _)%list_elem_of_fmap. Qed.

Lemma embeds_keys_bytes sha256 r s e k :
  k ∈ embeds_keys_spec sha256 r s e -> ~ is_str_key k /\ ~ is_mm_key k.
Proof.
  unfold embeds_keys_spec. destruct (prompt_embeds r); [|by inversion 1].
  intros ->%list_elem_of_singleton. by split; intros [].
Qed.

Lemma str_not_mm k : is_str_key k -> ~ is_mm_key k.
Proof. destruct k; simpl; tauto. Qed.
Lemma mm_not_str k : is_mm_key k -> ~ is_str_key k.
Proof. destruct k; simpl; tauto. Qed.

(** The multimodal keys and the string keys of a block can be read back. *)
Lemma keys_spec_mm sha256 r s e :
  filter is_mm_key (default [] (keys_spec sha256 r s e)) = mm_keys_spec (mm_features r) s e.
Proof.
  rewrite keys_of_spec, !filter_app.
  rewrite (filter_all_out _ (gen_lora_extra_hash_keys r)) by (intros k ?; by eapply str_not_mm, lora_keys_str).
  rewrite (filter_all_out _ (cache_salt_keys r s)) by (intros k ?; by eapply str_not_mm, salt_keys_str).
  rewrite (filter_all_out _ (embeds_keys_spec _ _ _ _)) by (intros k Hk; by apply embeds_keys_bytes in Hk as [_ ?]).
  rewrite filter_all_in by (intros; by eapply mm_keys_mm). by rewrite app_nil_l, !app_nil_r.
Qed.

Lemma keys_spec_str sha256 r s e :
  filter is_str_key (default [] (keys_spec sha256 r s e)) =
  gen_lora_extra_hash_keys r ++ cache_salt_keys r s.
Proof.
  rewrite keys_of_spec, !filter_app.
  rewrite (filter_all_in _ (gen_lora_extra_hash_keys r)) by (intros; by eapply lora_keys_str).
  rewrite (filter_all_in _ (cache_salt_keys r s)) by (intros; by eapply salt_keys_str).
  rewrite (filter_all_out _ (embeds_keys_spec _ _ _ _)) by (intros k Hk; by apply embeds_keys_bytes in Hk as [? _]).
  rewrite filter_all_out by (intros; by eapply mm_not_str, mm_keys_mm). by rewrite app_nil_l, !app_nil_r.
Qed.

(** Equal tokens in every block up to [i] are equal token prefixes. *)
Lemma block_tokens_prefix r1 r2 bs i :
  0 < bs ->
  (forall l, (l <= i)%nat -> block_tokens r1 bs l = block_tokens r2 bs l) ->
  take (S i * Z.to_nat bs) (all_token_ids r1) = take (S i * Z.to_nat bs) (all_token_ids r2).
Proof.
  intros Hbs. induction i as [|i IH]; intros Heq.
  - specialize (Heq 0%nat ltac:(lia)). unfold block_tokens in Heq.
    rewrite !py_slice_nonneg in Heq by lia. simpl in Heq. rewrite !drop_0 in Heq.
    rewrite Nat.mul_1_l. by replace (Z.to_nat bs) with (Z.to_nat (bs - 0)) by lia.
  - specialize (IH ltac:(intros; apply Heq; lia)). specialize (Heq (S i) ltac:(lia)).
    unfold block_tokens in Heq. rewrite !py_slice_nonneg in Heq by lia.
    replace (S (S i) * Z.to_nat bs)%nat with (S i * Z.to_nat bs + Z.to_nat bs)%nat by lia.
    rewrite <-!take_take_drop, IH. f_equal.
    replace (Z.to_nat (Z.of_nat (S i) * bs + bs - Z.of_nat (S i) * bs)) with (Z.to_nat bs) in Heq by lia.
    by replace (Z.to_nat (Z.of_nat (S i) * bs)) with (S i * Z.to_nat bs)%nat in Heq by lia.
Qed.

(** ** Coarser hashes *)

(** The [i]-th group of [s] hashes, concatenated. *)
Definition merged (hashes : list bytes) (s i : nat) : bytes := concat (take s (drop (i * s) hashes)).

Lemma merge_loop (hs : list bytes) (acc : bytes) (base : Z) (n : nat) :
  0 <= base -> base + Z.of_nat n <= zlen hs ->
  foldl (fun acc i => m ← acc ; h ← py_get hs i ; Ok (m ++ h)) (Ok acc) (zrange base (base + Z.of_nat n))
  = Ok (acc ++ concat (take n (drop (Z.to_nat base) hs))).
Proof.
  intros Hb. induction n as [|n IH]; intros Hn.
  { rewrite zrange_nil, take_0 by lia. simpl. by rewrite app_nil_r. }
  replace (base + Z.of_nat (S n)) with (base + Z.of_nat n + 1) by lia.
  rewrite zrange_snoc by lia. rewrite foldl_snoc, IH by lia. simpl.
  destruct (hs !! (Z.to_nat (base + Z.of_nat n))) as [h|] eqn:E; cycle 1.
  { apply lookup_ge_None in E. unfold zlen in Hn. lia. }
  rewrite (py_get_Some _ _ h) by (try done; lia). simpl.
  rewrite (take_S_r _ _ h), concat_app by (rewrite lookup_drop; rewrite <-E; f_equal; lia).
  simpl. by rewrite app_nil_r, app_assoc.
Qed.

Lemma get_value_at_spec b i :
  0 < scale_factor b -> 0 <= i -> (i + 1) * scale_factor b <= zlen (bhl_block_hashes b) ->
  get_value_at b i = Ok (merged (bhl_block_hashes b) (Z.to_nat (scale_factor b)) (Z.to_nat i)).
Proof.
  intros Hs Hi Hlen. unfold get_value_at, merged.
  set (hs := bhl_block_hashes b) in *. set (s := scale_factor b) in *.
  destruct (hs !! Z.to_nat (i * s)) as [h|] eqn:E; cycle 1.
  { apply lookup_ge_None in E. unfold zlen in Hlen. nia. }
  rewrite (py_get_Some _ _ h) by (try done; lia). unfold mbind at 1, res_bind at 1.
  replace (i * s + s) with (i * s + 1 + Z.of_nat (Z.to_nat s - 1)) by lia.
  rewrite merge_loop by nia. f_equal.
  rewrite (drop_S hs h (Z.to_nat i * Z.to_nat s)) by (rewrite <-E; f_equal; lia).
  destruct (Z.to_nat s) as [|s'] eqn:Es; [lia|]. simpl. f_equal. f_equal. f_equal; [lia|].
  f_equal. lia.
Qed.

Lemma bhl_len_eq b : 0 < scale_factor b ->
  bhl_len b = Ok (zlen (bhl_block_hashes b) / scale_factor b).
Proof. intros. unfold bhl_len, py_floordiv. by replace (_ =? 0) with false by lia. Qed.

Lemma iter_loop {A} (f : Z -> res A) (g : nat -> A) n k :
  (forall i : nat, (k <= i < k + n)%nat -> f (Z.of_nat i) = Ok (g i)) ->
  foldr (fun i acc => h ← f i ; t ← acc ; Ok (h :: t)) (Ok []) (zrange (Z.of_nat k) (Z.of_nat (k + n)))
  = Ok (g <$> seq k n).
Proof.
  revert k. induction n as [|n IH]; intros k Hf; [by rewrite zrange_nil by lia|].
  rewrite zrange_cons by lia. simpl. rewrite Hf by lia. simpl.
  replace (Z.of_nat k + 1) with (Z.of_nat (S k)) by lia.
  replace (k + S n)%nat with (S k + n)%nat by lia. rewrite IH by (intros; apply Hf; lia). done.
Qed.

Lemma bhl_iter_spec b :
  0 < scale_factor b ->
  bhl_iter b = Ok (merged (bhl_block_hashes b) (Z.to_nat (scale_factor b))
                     <$> seq 0 (Z.to_nat (zlen (bhl_block_hashes b) / scale_factor b))).
Proof.
  intros Hs. unfold bhl_iter. rewrite bhl_len_eq by done. simpl.
  set (n := zlen (bhl_block_hashes b) / scale_factor b).
  assert (Hn : 0 <= n) by (apply Z.div_pos; [apply zlen_nonneg|done]).
  pose proof (iter_loop (get_value_at b)
    (merged (bhl_block_hashes b) (Z.to_nat (scale_factor b))) (Z.to_nat n) 0) as Hl.
  replace (Z.of_nat (0 + Z.to_nat n)) with n in Hl by lia. rewrite <-Hl; [done|].
  intros i Hi. rewrite get_value_at_spec by (try done; try lia;
    pose proof (Z.mul_div_le (zlen (bhl_block_hashes b)) (scale_factor b) Hs); subst n; nia).
  by rewrite Nat2Z.id.
Qed.

(** Groups of hashes of one length can be split again. *)
Lemma concat_inj_len {A} (L : nat) (l1 l2 : list (list A)) :
  length l1 = length l2 -> Forall (fun x => length x = L) l1 -> Forall (fun x => length x = L) l2 ->
  concat l1 = concat l2 -> l1 = l2.
Proof.
  revert l2. induction l1 as [|x l1 IH]; intros [|y l2]; simpl; try done.
  intros [= Hl] [Hx H1]%Forall_cons [Hy H2]%Forall_cons [-> Heq]%app_inj_1; [|congruence].
  f_equal. by apply IH.
Qed.
