(* ===== verification/BlockPool.v ===== *)
(** * The block pool

    [vllm/v1/core/block_pool.py]: the map from block keys to cached blocks
    ([BlockHashToBlockMap]) and the pool that allocates, shares, frees, caches and
    evicts blocks.  The block objects live in the store of the free queue
    ([FreeQueue.heap]); [self.blocks[i]] is the object [Blk i].

    The metrics collector, which samples at random and reads the clock, is
    represented by the sequence of calls it receives. *)

From S2P Require Import Prelude FreeQueue Request Hashing.
From Stdlib Require Import QArith.
Local Open Scope Z_scope.

(** ** The cache map *)

(** [KVCacheBlock | dict[int, KVCacheBlock]]; a dict keeps insertion order. *)
Inductive cache_entry :=
  | One (r : ref)
  | Many (d : list (Z * ref)).

(** [dict.get], [d[k] = v] and [dict.pop(k, None)] on an ordered dict. *)
Fixpoint dict_get (d : list (Z * ref)) (k : Z) : option ref :=
  match d with
  | [] => None
  | (k', r) :: d' => if k =? k' then Some r else dict_get d' k
  end.
Fixpoint dict_set (d : list (Z * ref)) (k : Z) (r : ref) : list (Z * ref) :=
  match d with
  | [] => [(k, r)]
  | (k', r') :: d' => if k =? k' then (k', r) :: d' else (k', r') :: dict_set d' k r
  end.
Fixpoint dict_del (d : list (Z * ref)) (k : Z) : list (Z * ref) :=
  match d with
  | [] => []
  | (k', r) :: d' => if k =? k' then d' else (k', r) :: dict_del d' k
  end.

(** [BlockHashToBlockMap._cache] *)
Abbreviation BlockHashToBlockMap := (gmap bytes cache_entry).

Definition get_one_block (c : BlockHashToBlockMap) (key : bytes) : res (option ref) :=
  match c !! key with
  | None => Ok None
  | Some (One r) => Ok (Some r)
  | Some (Many []) => Err StopIteration
  | Some (Many ((_, r) :: _)) => Ok (Some r)
  end.

(** [insert(key, block)]; [block_id_of] reads the [block_id] of a block. *)
Definition map_insert (block_id_of : ref -> Z) (key : bytes) (block : ref)
    (c : BlockHashToBlockMap) : BlockHashToBlockMap :=
  match c !! key with
  | None => <[key := One block]> c
  | Some (One r) => <[key := Many (dict_set [(block_id_of r, r)] (block_id_of block) block)]> c
  | Some (Many d) => <[key := Many (dict_set d (block_id_of block) block)]> c
  end.

Definition map_pop (block_id_of : ref -> Z) (key : bytes) (block_id : Z) (c : BlockHashToBlockMap)
    : option ref * BlockHashToBlockMap :=
  match c !! key with
  | None => (None, c)
  | Some (One r) =>
      if block_id_of r =? block_id then (Some r, delete key c) else (None, c)
  | Some (Many d) =>
      let d' := dict_del d block_id in
      (dict_get d block_id, match d' with [] => delete key c | _ => <[key := Many d']> c end)
  end.

(** [len(map)] *)
Definition map_len (c : BlockHashToBlockMap) : Z := Z.of_nat (size c).

(** ** Events and metrics *)

(** [MEDIUM_GPU], the [medium] of every event, is left implicit. *)
Inductive KVCacheEvent :=
  | BlockStored (block_hashes : list ExternalBlockHash) (parent_block_hash : option ExternalBlockHash)
      (token_ids : list Z) (block_size : Z) (lora_id : option Z) (lora_name : option string)
      (extra_keys : option (list (option (list py_key))))
  | BlockRemoved (block_hashes : list ExternalBlockHash)
  | AllBlocksCleared.

Inductive MetricsCall :=
  | on_block_allocated (block : ref)
  | on_block_accessed (block : ref)
  | on_block_evicted (block : ref)
  | metrics_reset.

(** ** The pool *)

Record BlockPool := mkPool {
  num_gpu_blocks : Z;
  enable_caching : bool;
  hash_block_size : Z;
  free_block_queue : FreeKVCacheBlockQueue;
  cached_block_hash_to_block : BlockHashToBlockMap;
  null_block : ref;
  enable_kv_cache_events : bool;
  kv_event_queue : list KVCacheEvent;
  metrics_collector : option (list MetricsCall)
}.

Definition set_queue (q : FreeKVCacheBlockQueue) (p : BlockPool) : BlockPool :=
  mkPool (num_gpu_blocks p) (enable_caching p) (hash_block_size p) q (cached_block_hash_to_block p)
    (null_block p) (enable_kv_cache_events p) (kv_event_queue p) (metrics_collector p).
Definition set_cache (f : BlockHashToBlockMap -> BlockHashToBlockMap) (p : BlockPool) : BlockPool :=
  mkPool (num_gpu_blocks p) (enable_caching p) (hash_block_size p) (free_block_queue p)
    (f (cached_block_hash_to_block p)) (null_block p) (enable_kv_cache_events p) (kv_event_queue p)
    (metrics_collector p).
Definition set_kv_events (f : list KVCacheEvent -> list KVCacheEvent) (p : BlockPool) : BlockPool :=
  mkPool (num_gpu_blocks p) (enable_caching p) (hash_block_size p) (free_block_queue p)
    (cached_block_hash_to_block p) (null_block p) (enable_kv_cache_events p) (f (kv_event_queue p))
    (metrics_collector p).
Definition set_metrics (m : option (list MetricsCall)) (p : BlockPool) : BlockPool :=
  mkPool (num_gpu_blocks p) (enable_caching p) (hash_block_size p) (free_block_queue p)
    (cached_block_hash_to_block p) (null_block p) (enable_kv_cache_events p) (kv_event_queue p) m.

Definition pheap (p : BlockPool) : gmap ref KVCacheBlock := heap (free_block_queue p).

Definition queue_op {A} (m : M FreeKVCacheBlockQueue A) : M BlockPool A :=
  zoom free_block_queue set_queue m.
Definition pool_load (r : ref) : M BlockPool KVCacheBlock := queue_op (load r).
Definition pool_upd (r : ref) (f : KVCacheBlock -> KVCacheBlock) : M BlockPool unit := queue_op (upd r f).

(** [if self.metrics_collector: self.metrics_collector.<call>(..)] *)
Definition notify (c : MetricsCall) : M BlockPool unit :=
  modify (fun p => match metrics_collector p with
                   | Some l => set_metrics (Some (l ++ [c])) p
                   | None => p
                   end).

(** The [block_hash] setter of [KVCacheBlock], and [reset_hash]. *)
Definition assign_block_hash (r : ref) (key : bytes) : M BlockPool unit :=
  b ← pool_load r ;
  py_assert (is_none (block_hash b)) ;;
  pool_upd r (set_hash (Some key)).
Definition reset_hash (r : ref) : M BlockPool unit := pool_upd r (set_hash None).

(** [block.block_id] *)
Definition block_id_in (p : BlockPool) (r : ref) : Z :=
  match pheap p !! r with Some b => block_id b | None => 0 end.

(** [self.blocks] *)
Definition pool_blocks (p : BlockPool) : list ref := block_refs (Z.to_nat (num_gpu_blocks p)).

Definition get_num_free_blocks (p : BlockPool) : Z := num_free_blocks (free_block_queue p).

(** [BlockPool.__init__] *)
Definition pool_init (num_gpu_blocks : Z) (enable_caching : bool) (hash_block_size : Z)
    (enable_kv_cache_events : bool) (metrics_collector : option (list MetricsCall)) : res BlockPool :=
  if negb (0 <? num_gpu_blocks) then Err AssertionError
  else
    let n := Z.to_nat num_gpu_blocks in
    let init := queue_init (block_refs n) ;;
                null ← popleft ;
                upd null (set_is_null true) ;;
                mret null in
    match init (mkQueue (new_heap n) 0) with
    | (Err e, _) => Err e
    | (Ok null, q) =>
        Ok (mkPool num_gpu_blocks enable_caching hash_block_size q ∅ null enable_kv_cache_events []
              metrics_collector)
    end.

(** [get_cached_block]: the first cached block of each group, or a miss. *)
Fixpoint get_cached_block (p : BlockPool) (block_hash : bytes) (kv_cache_group_ids : list Z)
    : res (option (list ref)) :=
  match kv_cache_group_ids with
  | [] => Ok (Some [])
  | group_id :: ids =>
      key ← make_block_hash_with_group_id block_hash group_id ;
      block ← get_one_block (cached_block_hash_to_block p) key ;
      match block with
      | None => Ok None
      | Some r => rest ← get_cached_block p block_hash ids ; Ok (option_map (cons r) rest)
      end
  end.

Section Pool.
(** [envs.VLLM_KV_EVENTS_USE_INT_BLOCK_HASHES] and the digest of [hashlib]. *)
Context (use_int : bool) (sha256 : bytes -> bytes).

(** [_maybe_evict_cached_block] *)
Definition maybe_evict_cached_block (r : ref) : M BlockPool bool :=
  notify (on_block_evicted r) ;;
  b ← pool_load r ;
  match block_hash b with
  | None => mret false
  | Some key =>
      popped ← gets (fun p => map_pop (block_id_in p) key (block_id b) (cached_block_hash_to_block p)) ;
      modify (set_cache (fun _ => popped.2)) ;;
      match popped.1 with
      | None => mret false
      | Some _ =>
          reset_hash r ;;
          ev ← gets enable_kv_cache_events ;
          when ev (modify (set_kv_events (fun l =>
            l ++ [BlockRemoved [maybe_convert_block_hash use_int (get_block_hash key)]]))) ;;
          mret true
      end
  end.

(** One block of the allocation loops of [get_new_blocks]. *)
Definition allocate_block (evict : bool) (r : ref) : M BlockPool unit :=
  when evict (maybe_evict_cached_block r ;; mret tt) ;;
  b ← pool_load r ;
  py_assert (ref_cnt b =? 0) ;;
  pool_upd r (set_ref_cnt (fun c => c + 1)) ;;
  notify (on_block_allocated r).

Definition get_new_blocks (num_blocks : Z) : M BlockPool (list ref) :=
  free ← gets get_num_free_blocks ;
  if free <? num_blocks then raise ValueError
  else
    ret ← queue_op (popleft_n num_blocks) ;
    caching ← gets enable_caching ;
    forM_ ret (allocate_block caching) ;;
    mret ret.

Definition touch (blocks : list ref) : M BlockPool unit :=
  forM_ blocks (fun r =>
    b ← pool_load r ;
    when ((ref_cnt b =? 0) && negb (is_null b)) (queue_op (queue_remove r)) ;;
    pool_upd r (set_ref_cnt (fun c => c + 1)) ;;
    notify (on_block_accessed r)).

(** The freed blocks whose count dropped to zero. *)
Definition releasable (p : BlockPool) (r : ref) : bool :=
  match pheap p !! r with
  | Some b => (ref_cnt b =? 0) && negb (is_null b)
  | None => false
  end.

Definition free_blocks (ordered_blocks : list ref) : M BlockPool unit :=
  forM_ ordered_blocks (fun r => pool_upd r (set_ref_cnt (fun c => c - 1))) ;;
  released ← gets (fun p => filter (fun r => releasable p r = true) ordered_blocks) ;
  queue_op (append_n released).

Definition evict_blocks (block_ids : list Z) : M BlockPool unit :=
  forM_ block_ids (fun id =>
    blocks ← gets pool_blocks ;
    py_assert (id <? zlen blocks) ;;
    r ← lift_res (py_get blocks id) ;
    maybe_evict_cached_block r ;;
    mret tt).

Definition reset_prefix_cache : M BlockPool bool :=
  used ← gets (fun p => num_gpu_blocks p - get_num_free_blocks p) ;
  if negb (used =? 1) then mret false
  else
    modify (set_cache (fun _ => ∅)) ;;
    blocks ← gets pool_blocks ;
    forM_ blocks reset_hash ;;
    modify (fun p => match metrics_collector p with
                     | Some l => set_metrics (Some (l ++ [metrics_reset])) p
                     | None => p
                     end) ;;
    ev ← gets enable_kv_cache_events ;
    when ev (modify (set_kv_events (fun l => l ++ [AllBlocksCleared]))) ;;
    mret true.

(** *** Caching full blocks *)

(** One block of the main loop of [cache_full_blocks]; the accumulator is
    [new_hashes], which is only filled when events are enabled. *)
Definition cache_block_step (new_block_hashes : list bytes) (kv_cache_group_id : Z)
    (new_hashes : list ExternalBlockHash) (ib : nat * ref) : M BlockPool (list ExternalBlockHash) :=
  b ← pool_load ib.2 ;
  if is_null b then mret new_hashes
  else
    py_assert (is_none (block_hash b)) ;;
    h ← lift_res (py_get new_block_hashes (Z.of_nat ib.1)) ;
    key ← lift_res (make_block_hash_with_group_id h kv_cache_group_id) ;
    assign_block_hash ib.2 key ;;
    modify (fun p => set_cache (map_insert (block_id_in p) key ib.2) p) ;;
    ev ← gets enable_kv_cache_events ;
    mret (if (ev : bool) then new_hashes ++ [maybe_convert_block_hash use_int h] else new_hashes).

(** One block of the extra-key loop of the event: [(extra_keys_list,
    curr_mm_idx)] and the request, whose digest memo the key generator fills. *)
Definition event_keys_step (blocks : list ref) (block_size : Z)
    (acc : list (option (list py_key)) * Z * Request) (i : Z)
    : M BlockPool (list (option (list py_key)) * Z * Request) :=
  let '(keys, curr_mm_idx, request) := acc in
  r ← lift_res (py_get blocks i) ;
  b ← pool_load r ;
  if is_null b then mret acc
  else
    match generate_block_hash_extra_keys sha256 (i * block_size) (i * block_size + block_size)
            curr_mm_idx request with
    | (Ok (k, idx), request') => mret (keys ++ [k], idx, request')
    | (Err e, _) => raise e
    end.

(** The event of [cache_full_blocks]. *)
Definition emit_block_stored (request : Request) (blocks : list ref) (block_hashes : list bytes)
    (new_hashes : list ExternalBlockHash) (num_cached_blocks num_full_blocks block_size : Z)
    : M BlockPool unit :=
  parent ← (if num_cached_blocks =? 0 then mret (@None ExternalBlockHash)
            else h ← lift_res (py_get block_hashes (num_cached_blocks - 1)) ;
                 mret (Some (maybe_convert_block_hash use_int h))) ;
  acc ← foldM (event_keys_step blocks block_size) (@nil (option (list py_key)), 0, request)
          (zrange num_cached_blocks num_full_blocks) ;
  let keys := acc.1.1 in
  modify (set_kv_events (fun l => l ++
    [BlockStored new_hashes parent
       (py_slice (all_token_ids request) (num_cached_blocks * block_size) (num_full_blocks * block_size))
       block_size (lora_int_id <$> lora_request request) (lora_name <$> lora_request request)
       (match keys with [] => None | _ => Some keys end)])).

(** [request.block_hashes] at the granularity of [block_size]. *)
Definition hashes_at (request : Request) (hash_block_size block_size : Z) : res (list bytes) :=
  if block_size =? hash_block_size then Ok (block_hashes request)
  else b ← bhl_init (block_hashes request) hash_block_size block_size ; bhl_iter b.

Definition cache_full_blocks (request : Request) (blocks : list ref)
    (num_cached_blocks num_full_blocks block_size kv_cache_group_id : Z) : M BlockPool unit :=
  if num_full_blocks <=? num_cached_blocks then mret tt
  else
    let new_full_blocks := py_slice blocks num_cached_blocks num_full_blocks in
    py_assert (num_full_blocks <=? zlen (block_hashes request)) ;;
    hbs ← gets hash_block_size ;
    hashes ← lift_res (hashes_at request hbs block_size) ;
    let new_block_hashes := py_slice_from hashes num_cached_blocks in
    new_hashes ← foldM (cache_block_step new_block_hashes kv_cache_group_id) []
                   (imap (fun i r => (i, r)) new_full_blocks) ;
    ev ← gets enable_kv_cache_events ;
    when ev (emit_block_stored request blocks hashes new_hashes num_cached_blocks num_full_blocks block_size).
End Pool.

(** [get_usage] *)
Definition get_usage (p : BlockPool) : Q :=
  let total_gpu_blocks := num_gpu_blocks p - 1 in
  if total_gpu_blocks =? 0 then 0%Q
  else (1 - inject_Z (get_num_free_blocks p) / inject_Z total_gpu_blocks)%Q.

(** [take_events] *)
Definition pool_take_events : M BlockPool (list KVCacheEvent) :=
  ev ← gets enable_kv_cache_events ;
  if negb ev then mret []
  else events ← gets kv_event_queue ; modify (set_kv_events (fun _ => [])) ;; mret events.
