(* ===== verification/BlockPoolLemmas.v ===== *)
(** * The block pool: invariant and preservation

    The pool invariant relates the block objects, the free queue and the cache to
    the number of owners of each block: a block is free exactly when nobody owns
    it, its reference count is its number of owners, and the cache and the hash
    attributes of the blocks describe each other. *)

From S2P Require Import Prelude FreeQueue Request Hashing HashingLemmas BlockPool.
Local Open Scope Z_scope.

(** ** The invariant *)

(** The attributes of a block other than its links. *)
Abbreviation bdata := (Z * Z * option bytes * bool)%type.
Definition bmap : Type := ref -> option bdata.

Definition hash_of (D : bmap) (r : ref) : option bytes := D r ≫= (fun d => d.1.2).

(** A block of the pool other than the null block. *)
Definition usable (n : nat) (r : ref) : Prop := exists i, r = Blk i /\ (0 < i < n)%nat.

Definition idx (r : ref) : Z := match r with Blk i => Z.of_nat i | _ => -1 end.

Definition entry_refs (e : cache_entry) : list ref :=
  match e with One r => [r] | Many d => d.*2 end.

(** A cache entry under key [k]: distinct blocks that carry that key. *)
Record entry_ok (n : nat) (D : bmap) (k : bytes) (e : cache_entry) : Prop := {
  eo_nonempty : entry_refs e <> [];
  eo_nodup : NoDup (entry_refs e);
  eo_refs : forall r, r ∈ entry_refs e -> usable n r /\ hash_of D r = Some k;
  eo_ids : match e with One _ => True | Many d => d = (fun r => (idx r, r)) <$> d.*2 end
}.

Record blocks_ok (n : nat) (D : bmap) (own : ref -> nat) (cache : BlockHashToBlockMap) : Prop := {
  bo_null : exists c, D (Blk 0) = Some (0, c, None, true);
  bo_block : forall r, usable n r -> exists h, D r = Some (idx r, Z.of_nat (own r), h, false);
  bo_cached : forall k e, cache !! k = Some e -> entry_ok n D k e;
  bo_hash : forall r k, usable n r -> hash_of D r = Some k ->
    exists e, cache !! k = Some e /\ r ∈ entry_refs e
}.

(** The free list and the block data agree with the counts [own]. *)
Record pool_core (p : BlockPool) (fl : list ref) (own : ref -> nat) : Prop := {
  pc_repr : queue_repr (free_block_queue p) fl;
  pc_pos : 0 < num_gpu_blocks p;
  pc_null : null_block p = Blk 0;
  pc_blocks : blocks_ok (Z.to_nat (num_gpu_blocks p)) (data_of (pheap p)) own (cached_block_hash_to_block p)
}.

Definition pool_usable (p : BlockPool) (r : ref) : Prop := usable (Z.to_nat (num_gpu_blocks p)) r.

(** [fl] is the free list, [own r] the number of owners of block [r]: a block is
    free exactly when it has no owner. *)
Definition pool_inv (p : BlockPool) (fl : list ref) (own : ref -> nat) : Prop :=
  pool_core p fl own /\ forall r, r ∈ fl <-> pool_usable p r /\ own r = 0%nat.

(** The hash attribute of a block. *)
Definition block_hash_in (p : BlockPool) (r : ref) : option bytes := hash_of (data_of (pheap p)) r.

(** What no operation changes. *)
Definition same_config (p p' : BlockPool) : Prop :=
  num_gpu_blocks p' = num_gpu_blocks p /\ enable_caching p' = enable_caching p
  /\ hash_block_size p' = hash_block_size p /\ null_block p' = null_block p
  /\ enable_kv_cache_events p' = enable_kv_cache_events p.

#[export] Instance same_config_preorder : PreOrder same_config.
Proof.
  split; [done|]. unfold same_config. intros p1 p2 p3 ? ?. intuition congruence.
Qed.

(** ** Updates of the attributes *)

Definition t_cnt (g : Z -> Z) (d : bdata) : bdata := let '(i, c, h, n) := d in (i, g c, h, n).
Definition t_hash (h' : option bytes) (d : bdata) : bdata := let '(i, c, h, n) := d in (i, c, h', n).

Definition b_upd (f : bdata -> bdata) (r : ref) (D : bmap) : bmap :=
  fun r' => if decide (r' = r) then f <$> D r' else D r'.

Definition own_add (own : ref -> nat) (l : list ref) : ref -> nat := fun r => (own r + occ r l)%nat.
Definition own_sub (own : ref -> nat) (l : list ref) : ref -> nat := fun r => (own r - occ r l)%nat.

Lemma usable_ne_null n r : usable n r -> r <> Blk 0.
Proof. intros (i & -> & ?) [=]. lia. Qed.

Lemma usable_blk n r : usable n r -> r <> Head /\ r <> Tail.
Proof. by intros (i & -> & ?). Qed.

Lemma idx_inj n r r' : usable n r -> usable n r' -> idx r = idx r' -> r = r'.
Proof. intros (i & -> & ?) (j & -> & ?). simpl. intros. f_equal. lia. Qed.

#[export] Instance usable_dec n r : Decision (usable n r).
Proof.
  destruct r as [| |i]; [right; by intros (? & ? & ?)..|].
  destruct (decide (0 < i < n)%nat).
  - left. by exists i.
  - right. intros (? & [= <-] & ?). done.
Defined.

Lemma blocks_ok_ext n D D' own own' c :
  (forall r, D' r = D r) -> (forall r, usable n r -> own' r = own r) ->
  blocks_ok n D own c -> blocks_ok n D' own' c.
Proof.
  intros HD Ho [Hn Hb Hc Hh]. unfold hash_of in *. split.
  - by rewrite HD.
  - intros r Hr. rewrite HD, Ho by done. by apply Hb.
  - intros k e He. destruct (Hc k e He) as [? ? Hrefs ?]. split; try done.
    intros r Hr. unfold hash_of. rewrite HD. by apply Hrefs.
  - intros r k Hr. unfold hash_of. rewrite HD. by apply Hh.
Qed.

(** Changing a reference count. *)
Lemma blocks_ok_cnt n D own own' c g r :
  blocks_ok n D own c -> (usable n r \/ r = Blk 0) ->
  (forall r', usable n r' -> Z.of_nat (own' r') = if decide (r' = r) then g (Z.of_nat (own r')) else Z.of_nat (own r')) ->
  blocks_ok n (b_upd (t_cnt g) r D) own' c.
Proof.
  intros [[c0 Hn] Hb Hc Hh] Hr Ho.
  assert (HD : forall r', hash_of (b_upd (t_cnt g) r D) r' = hash_of D r').
  { intros r'. unfold hash_of, b_upd. case_decide; [|done]. by destruct (D r') as [[[[]]]|]. }
  split.
  - unfold b_upd. rewrite Hn. case_decide; simpl; eauto.
  - intros r' Hr'. destruct (Hb r' Hr') as [h E]. unfold b_upd. rewrite E, (Ho r' Hr').
    case_decide; simpl; eauto.
  - intros k e He. destruct (Hc k e He) as [? ? Hrefs ?]. split; try done.
    intros r' Hin. rewrite HD. by apply Hrefs.
  - intros r' k Hr'. rewrite HD. by apply Hh.
Qed.

(** ** The cache map *)

Abbreviation mk := (fmap (fun r => (idx r, r))).

Lemma mk_snd (l : list ref) : (mk l : list (Z * ref)).*2 = l.
Proof. rewrite <-list_fmap_compose. by apply list_fmap_id. Qed.

Lemma dict_get_mk n l r :
  Forall (usable n) l -> usable n r -> dict_get (mk l) (idx r) = if decide (r ∈ l) then Some r else None.
Proof.
  intros Hl Hr. induction Hl as [|x l Hx Hl IH]; [done|]. rewrite fmap_cons. cbn [dict_get].
  destruct (idx r =? idx x) eqn:E.
  - rewrite (idx_inj n r x) by (try done; lia). rewrite decide_True by left. done.
  - rewrite IH. destruct (decide (r ∈ l)).
    + rewrite decide_True by (by right). done.
    + rewrite decide_False; [done|]. intros [->|?]%elem_of_cons; [lia|done].
Qed.

Lemma dict_set_mk n l r :
  Forall (usable n) l -> usable n r -> r ∉ l -> dict_set (mk l) (idx r) r = mk (l ++ [r]).
Proof.
  intros Hl Hr. induction Hl as [|x l Hx Hl IH]; [done|]. rewrite <-app_comm_cons, !fmap_cons.
  cbn [dict_set]. intros [Hne Hni]%not_elem_of_cons. destruct (idx r =? idx x) eqn:E.
  - destruct Hne. apply (idx_inj n); [done..|lia].
  - by rewrite IH.
Qed.

Lemma dict_del_mk n l r :
  Forall (usable n) l -> usable n r -> NoDup l ->
  dict_del (mk l) (idx r) = mk (filter (fun x => x <> r) l).
Proof.
  intros Hl Hr. induction Hl as [|x l Hx Hl IH]; [done|]. rewrite fmap_cons. cbn [dict_del].
  intros [Hni Hnd]%NoDup_cons. rewrite filter_cons. destruct (idx r =? idx x) eqn:E.
  - rewrite (idx_inj n r x) in * by (try done; lia). rewrite decide_False by auto.
    rewrite filter_all_in; [done|]. by intros y Hy ->.
  - rewrite decide_True by (intros ->; lia). simpl. by rewrite IH.
Qed.

Section CacheMap.
Context (n : nat) (idf : ref -> Z) (Hid : forall r, usable n r -> idf r = idx r).
Context (D : bmap) (own : ref -> nat).

Definition old_refs (c : BlockHashToBlockMap) (k : bytes) : list ref :=
  match c !! k with Some e => entry_refs e | None => [] end.

Lemma entry_usable k e : entry_ok n D k e -> Forall (usable n) (entry_refs e).
Proof. intros He. apply Forall_forall. intros r Hr. by apply (eo_refs _ _ _ _ He). Qed.

(** [insert] appends the block to the entry of its key. *)
Lemma map_insert_entry c k r :
  (forall e, c !! k = Some e -> entry_ok n D k e) -> usable n r -> r ∉ old_refs c k ->
  exists e', map_insert idf k r c = <[k := e']> c /\ entry_refs e' = old_refs c k ++ [r]
    /\ match e' with One _ => True | Many d => d = mk d.*2 end.
Proof.
  intros Hc Hr Hni. unfold map_insert, old_refs in *. destruct (c !! k) as [[r0|d]|] eqn:E.
  - assert (Hr0 : usable n r0) by (apply (eo_refs _ _ _ _ (Hc _ eq_refl)); left).
    rewrite (Hid r0), (Hid r) by done.
    change [(idx r0, r0)] with (mk [r0] : list (Z * ref)). simpl in Hni.
    rewrite (dict_set_mk n) by (repeat constructor; done).
    eexists; split; [done|]. cbn [entry_refs]. split; by rewrite mk_snd.
  - pose proof (Hc _ eq_refl) as He. pose proof (entry_usable _ _ He) as Hu.
    pose proof (eo_ids _ _ _ _ He) as Hd. simpl in *. rewrite Hid, Hd by done.
    rewrite (dict_set_mk n) by done.
    eexists; split; [done|]. cbn [entry_refs]. rewrite !mk_snd. by split.
  - eexists; split; [done|]. done.
Qed.

Lemma hash_of_upd_hash h r r' :
  is_Some (D r) -> hash_of (b_upd (t_hash h) r D) r' = if decide (r' = r) then h else hash_of D r'.
Proof.
  intros [[[[i c] h0] nl] E]. unfold hash_of, b_upd. case_decide; [subst|done].
  by rewrite E.
Qed.

Lemma blocks_ok_some c r : blocks_ok n D own c -> usable n r -> is_Some (D r).
Proof. intros Hok Hr. destruct (bo_block _ _ _ _ Hok r Hr) as [h ->]. eauto. Qed.

Lemma upd_hash_base c h r :
  blocks_ok n D own c -> usable n r ->
  (exists c0, b_upd (t_hash h) r D (Blk 0) = Some (0, c0, None, true))
  /\ forall r', usable n r' -> exists h', b_upd (t_hash h) r D r' = Some (idx r', Z.of_nat (own r'), h', false).
Proof.
  intros [[c0 Hn] Hb _ _] Hr. unfold b_upd. split.
  - exists c0. rewrite decide_False; [done|]. intros <-. by apply usable_ne_null in Hr.
  - intros r' Hr'. destruct (Hb r' Hr') as [h' E]. case_decide; [|eauto].
    rewrite E. simpl. eauto.
Qed.

Lemma map_insert_ok c k r :
  blocks_ok n D own c -> usable n r -> hash_of D r = None ->
  blocks_ok n (b_upd (t_hash (Some k)) r D) own (map_insert idf k r c).
Proof.
  intros Hok Hr Hnone. pose proof (blocks_ok_some c r Hok Hr) as Hs.
  destruct (upd_hash_base c (Some k) r Hok Hr) as [Hnull Hblk].
  assert (Hni : forall k' e, c !! k' = Some e -> r ∉ entry_refs e).
  { intros k' e He Hin. apply (eo_refs _ _ _ _ (bo_cached _ _ _ _ Hok k' e He)) in Hin as [_ Hh].
    by rewrite Hnone in Hh. }
  destruct (map_insert_entry c k r) as (e' & -> & Hrefs & Hids).
  { apply (bo_cached _ _ _ _ Hok). } { done. }
  { unfold old_refs. destruct (c !! k) eqn:E; [by eapply Hni|]. by apply not_elem_of_nil. }
  assert (Hold : forall r', r' ∈ old_refs c k -> usable n r' /\ hash_of D r' = Some k /\ r' <> r).
  { intros r'. unfold old_refs. destruct (c !! k) as [e|] eqn:E; [|by inversion 1]. intros Hin.
    destruct (eo_refs _ _ _ _ (bo_cached _ _ _ _ Hok k e E) r' Hin). split_and!; try done.
    intros ->. by apply (Hni k e E). }
  split; [done|done| |].
  - intros k' e. rewrite lookup_insert. case_decide as Hk; [subst k'|].
    + intros [= <-]. split; [| | |done].
      * rewrite Hrefs. by destruct (old_refs c k).
      * rewrite Hrefs. apply NoDup_app. split_and!.
        -- unfold old_refs. destruct (c !! k) as [e|] eqn:E; [|constructor].
           apply (eo_nodup _ _ _ _ (bo_cached _ _ _ _ Hok k e E)).
        -- intros r' Hin ->%list_elem_of_singleton. by destruct (Hold r Hin) as (_ & _ & ?).
        -- apply NoDup_singleton.
      * intros r'. rewrite Hrefs, hash_of_upd_hash by done. intros [Hin| ->%list_elem_of_singleton]%elem_of_app.
        -- destruct (Hold r' Hin) as (? & ? & ?). by rewrite decide_False.
        -- by rewrite decide_True.
    + intros He. destruct (bo_cached _ _ _ _ Hok k' e He) as [? ? Hr' ?]. split; try done.
      intros r' Hin. rewrite hash_of_upd_hash by done. rewrite decide_False; [by apply Hr'|].
      intros ->. by apply (Hni k' e He).
  - intros r' k' Hr'. rewrite hash_of_upd_hash by done. case_decide as Heq.
    + intros [= <-]. subst. exists e'. rewrite lookup_insert, decide_True by done.
      split; [done|]. rewrite Hrefs. apply elem_of_app. right. left.
    + intros Hh. destruct (bo_hash _ _ _ _ Hok r' k' Hr' Hh) as (e & He & Hin).
      rewrite lookup_insert. case_decide as Hk; [|by exists e]. subst k'.
      exists e'. split; [done|]. rewrite Hrefs. unfold old_refs. rewrite He. apply elem_of_app. by left.
Qed.

(** [pop] removes the block from the entry of its key, and the entry when it
    was the last one. *)
Lemma map_pop_entry c k e r :
  c !! k = Some e -> entry_ok n D k e -> usable n r -> r ∈ entry_refs e ->
  let rest := filter (fun x => x <> r) (entry_refs e) in
  exists c', map_pop idf k (idx r) c = (Some r, c')
    /\ (rest = [] /\ c' = delete k c
        \/ rest <> [] /\ exists e', c' = <[k := e']> c /\ entry_refs e' = rest
              /\ match e' with One _ => True | Many d => d = mk d.*2 end).
Proof.
  intros Hk He Hr Hin. pose proof (entry_usable _ _ He) as Hu. unfold map_pop. rewrite Hk.
  destruct e as [r0|d]; simpl in *.
  - apply list_elem_of_singleton in Hin as <-. rewrite Hid by done. replace (idx r =? idx r) with true by lia.
    eexists; split; [done|]. left. rewrite filter_cons, decide_False by auto. done.
  - pose proof (eo_ids _ _ _ _ He) as Hd. simpl in Hd. pose proof (eo_nodup _ _ _ _ He) as Hnd. simpl in Hnd.
    remember d.*2 as l eqn:El. clear El. subst d.
    rewrite (dict_get_mk n), decide_True, (dict_del_mk n) by done.
    eexists; split; [done|]. destruct (filter _ l) as [|x l'] eqn:E; [by left|]. right.
    split; [done|]. eexists; split; [done|]. cbn [entry_refs]. by rewrite !mk_snd.
Qed.

Lemma map_pop_ok c k r :
  blocks_ok n D own c -> usable n r -> hash_of D r = Some k ->
  exists c', map_pop idf k (idx r) c = (Some r, c')
    /\ blocks_ok n (b_upd (t_hash None) r D) own c'.
Proof.
  intros Hok Hr Hh. destruct (bo_hash _ _ _ _ Hok r k Hr Hh) as (e & Hk & Hin).
  pose proof (blocks_ok_some c r Hok Hr) as Hs. pose proof (bo_cached _ _ _ _ Hok k e Hk) as He.
  destruct (upd_hash_base c None r Hok Hr) as [Hnull Hblk].
  destruct (map_pop_entry c k e r Hk He Hr Hin) as (c' & -> & Hc'). exists c'. split; [done|].
  assert (Hother : forall k', k' <> k -> c' !! k' = c !! k').
  { intros k' Hne. destruct Hc' as [(_ & ->)|(_ & e' & -> & _)].
    - rewrite lookup_delete. by rewrite decide_False.
    - rewrite lookup_insert. by rewrite decide_False. }
  assert (Hsame : forall e', c' !! k = Some e' ->
    entry_refs e' = filter (fun x => x <> r) (entry_refs e) /\ entry_refs e' <> []
    /\ match e' with One _ => True | Many d => d = mk d.*2 end).
  { intros e'. destruct Hc' as [(_ & ->)|(Hne & e0 & -> & E & ?)].
    - rewrite lookup_delete. by rewrite decide_True.
    - rewrite lookup_insert, decide_True by done. intros [= <-]. by rewrite E. }
  split; [done|done| |].
  - intros k' e'. destruct (decide (k' = k)) as [->|Hne].
    + intros (Hrefs & Hne & Hids)%Hsame. split; [done| | |done].
      * rewrite Hrefs. apply NoDup_filter, (eo_nodup _ _ _ _ He).
      * intros r'. rewrite Hrefs, list_elem_of_filter. intros [Hner Hin'].
        rewrite hash_of_upd_hash, decide_False by done. by apply (eo_refs _ _ _ _ He).
    + rewrite Hother by done. intros He'. destruct (bo_cached _ _ _ _ Hok k' e' He') as [? ? Hr' ?].
      split; try done. intros r' Hin'. rewrite hash_of_upd_hash by done.
      destruct (Hr' r' Hin') as [? Hh']. rewrite decide_False; [done|]. intros ->. congruence.
  - intros r' k' Hr'. rewrite hash_of_upd_hash by done. case_decide as Heq; [done|]. intros Hh'.
    destruct (bo_hash _ _ _ _ Hok r' k' Hr' Hh') as (e' & He' & Hin').
    destruct (decide (k' = k)) as [->|Hne]; [|exists e'; by rewrite Hother].
    simplify_eq. assert (Hrest : r' ∈ filter (fun x => x <> r) (entry_refs e)) by by apply list_elem_of_filter.
    destruct Hc' as [(E & _)|(_ & e0 & -> & E & _)]; [rewrite E in Hrest; by inversion Hrest|].
    exists e0. rewrite lookup_insert, decide_True by done. by rewrite E.
Qed.

(** A lookup returns a block that carries the key, and misses only when none does. *)
Lemma get_one_block_ok c k :
  blocks_ok n D own c ->
  exists o, get_one_block c k = Ok o
    /\ match o with
       | Some r => usable n r /\ hash_of D r = Some k
       | None => forall r, usable n r -> hash_of D r <> Some k
       end.
Proof.
  intros Hok. unfold get_one_block. destruct (c !! k) as [e|] eqn:E.
  - pose proof (bo_cached _ _ _ _ Hok k e E) as He. pose proof (eo_nonempty _ _ _ _ He) as Hne.
    destruct e as [r|[|[i r] d]]; [eexists; split; [done|]..|done|eexists; split; [done|]];
      apply (eo_refs _ _ _ _ He); left.
  - exists None. split; [done|]. intros r Hr Hh.
    destruct (bo_hash _ _ _ _ Hok r k Hr Hh) as (e & He & _). congruence.
Qed.
End CacheMap.

(** ** Steps on the pool *)

Lemma data_of_set_cnt h r g r' :
  data_of (alter (set_ref_cnt g) r h) r' = b_upd (t_cnt g) r (data_of h) r'.
Proof.
  unfold data_of, b_upd. rewrite lookup_alter. repeat case_decide; try congruence. subst.
  by destruct (h !! r').
Qed.

Lemma data_of_set_hash h r k r' :
  data_of (alter (set_hash k) r h) r' = b_upd (t_hash k) r (data_of h) r'.
Proof.
  unfold data_of, b_upd. rewrite lookup_alter. repeat case_decide; try congruence. subst.
  by destruct (h !! r').
Qed.

Lemma repr_data q l f r :
  (forall b, next_free_block (f b) = next_free_block b /\ prev_free_block (f b) = prev_free_block b) ->
  queue_repr q l -> queue_repr (set_heap (alter f r) q) l.
Proof.
  intros Hf [Hl Hn Ha Ho Ht Hz].
  assert (HN : forall r', next_of (alter f r (heap q)) r' = next_of (heap q) r').
  { intros r'. apply next_of_alter_same. intros b. by destruct (Hf b). }
  assert (HP : forall r', prev_of (alter f r (heap q)) r' = prev_of (heap q) r').
  { intros r'. apply prev_of_alter_same. intros b. by destruct (Hf b). }
  split; simpl; try done.
  - apply (linked_frame (next_of (heap q)) (prev_of (heap q))); auto.
  - intros r' Hr'. rewrite is_Some_alter. by apply Ha.
  - intros r' Hr'. rewrite HN, HP. by apply Ho.
  - by rewrite HN.
Qed.

Lemma wp_pool_load r i c h nl (Q : KVCacheBlock -> BlockPool -> Prop) p :
  data_of (pheap p) r = Some (i, c, h, nl) ->
  (forall b, block_id b = i -> ref_cnt b = c -> block_hash b = h -> is_null b = nl -> Q b p) ->
  wp (pool_load r) Q p.
Proof.
  unfold data_of. intros (b & Hb & [= -> -> -> ->])%fmap_Some HQ.
  unfold pool_load, queue_op. apply wp_zoom. eapply wp_load; [exact Hb|].
  replace (set_queue (free_block_queue p) p) with p by (by destruct p). by apply HQ.
Qed.

Lemma wp_pool_upd r f (Q : unit -> BlockPool -> Prop) p :
  Q tt (set_queue (set_heap (alter f r) (free_block_queue p)) p) -> wp (pool_upd r f) Q p.
Proof. done. Qed.

(** Changes that leave the blocks, the queue and the cache alone. *)
Definition same_blocks (p p' : BlockPool) : Prop :=
  free_block_queue p' = free_block_queue p
  /\ cached_block_hash_to_block p' = cached_block_hash_to_block p /\ same_config p p'.

Lemma same_blocks_core p p' fl own : same_blocks p p' -> pool_core p fl own -> pool_core p' fl own.
Proof.
  intros (Hq & Hc & Hn & _ & _ & Hnl & _) [? ? ? ?].
  split; unfold pheap in *; rewrite ?Hq, ?Hc, ?Hn, ?Hnl; done.
Qed.

Lemma same_blocks_hash p p' r : same_blocks p p' -> block_hash_in p' r = block_hash_in p r.
Proof. intros (Hq & _). unfold block_hash_in, pheap. by rewrite Hq. Qed.

Lemma wp_notify c (Q : unit -> BlockPool -> Prop) p :
  (forall p', same_blocks p p' -> Q tt p') -> wp (notify c) Q p.
Proof. intros HQ. apply wp_modify, HQ. by destruct p as [???????? []]. Qed.

Lemma wp_events (b : bool) f (Q : unit -> BlockPool -> Prop) p :
  (forall p', same_blocks p p' -> Q tt p') -> wp (when b (modify (set_kv_events f))) Q p.
Proof. intros HQ. destruct b; [apply wp_modify|apply wp_ret]; by apply HQ. Qed.

Lemma core_load p fl own r :
  pool_core p fl own -> pool_usable p r ->
  exists h, data_of (pheap p) r = Some (idx r, Z.of_nat (own r), h, false).
Proof. intros Hc Hr. by apply (bo_block _ _ _ _ (pc_blocks _ _ _ Hc)). Qed.

Lemma block_id_in_ok p fl own r : pool_core p fl own -> pool_usable p r -> block_id_in p r = idx r.
Proof.
  intros Hc Hr. destruct (core_load p fl own r Hc Hr) as [h E]. unfold block_id_in.
  unfold data_of in E. by destruct (pheap p !! r); simplify_eq/=.
Qed.

(** Counting one owner more or less. *)
Lemma core_cnt p fl own own' g r :
  pool_core p fl own -> pool_usable p r \/ r = Blk 0 ->
  (forall r', pool_usable p r' ->
     Z.of_nat (own' r') = if decide (r' = r) then g (Z.of_nat (own r')) else Z.of_nat (own r')) ->
  pool_core (set_queue (set_heap (alter (set_ref_cnt g) r) (free_block_queue p)) p) fl own'.
Proof.
  intros [Hr Hp Hn Hb] Hu Ho. split; simpl; try done.
  - by apply repr_data.
  - eapply blocks_ok_ext; [| |eapply blocks_ok_cnt; [exact Hb|exact Hu|exact Ho]]; [|done].
    intros r'. apply data_of_set_cnt.
Qed.

Lemma hash_in_cnt p g r r' :
  block_hash_in (set_queue (set_heap (alter (set_ref_cnt g) r) (free_block_queue p)) p) r' = block_hash_in p r'.
Proof.
  unfold block_hash_in, hash_of, pheap. simpl. rewrite data_of_set_cnt. unfold b_upd.
  case_decide; [|done]. by destruct (data_of _ r') as [[[[]]]|].
Qed.

Lemma own_add_single own r r' : own_add own [r] r' = ((if decide (r' = r) then 1 else 0) + own r')%nat.
Proof. unfold own_add. rewrite occ_cons, occ_nil. lia. Qed.

Lemma wp_incr p fl own r (Q : unit -> BlockPool -> Prop) :
  pool_core p fl own -> pool_usable p r \/ r = Blk 0 ->
  (forall p', pool_core p' fl (own_add own [r]) -> same_config p p' ->
     (forall r', block_hash_in p' r' = block_hash_in p r') -> Q tt p') ->
  wp (pool_upd r (set_ref_cnt (fun c => c + 1))) Q p.
Proof.
  intros Hc Hr HQ. apply wp_pool_upd, HQ; [|done|apply hash_in_cnt].
  eapply core_cnt; [done|done|]. intros r' _. rewrite own_add_single. case_decide; lia.
Qed.

(** The block data of a usable block or of the null block, with its hash. *)
Lemma core_load_any p fl own r :
  pool_core p fl own -> pool_usable p r \/ r = Blk 0 ->
  exists i c nl, data_of (pheap p) r = Some (i, c, block_hash_in p r, nl)
    /\ (pool_usable p r -> i = idx r /\ c = Z.of_nat (own r) /\ nl = false)
    /\ (r = Blk 0 -> block_hash_in p r = None /\ nl = true).
Proof.
  intros Hc [Hr| ->].
  - destruct (core_load p fl own r Hc Hr) as [h E]. eexists _, _, _. unfold block_hash_in, hash_of.
    rewrite E. split_and!; [done|done|]. intros ->. by apply usable_ne_null in Hr.
  - destruct (bo_null _ _ _ _ (pc_blocks _ _ _ Hc)) as [c E]. eexists _, _, _.
    unfold block_hash_in, hash_of. rewrite E. split_and!; [done| |done].
    intros Hu. by apply usable_ne_null in Hu.
Qed.

(** Dropping the hash of a cached block together with its cache entry. *)
Lemma core_unhash p fl own r k c' :
  pool_core p fl own -> pool_usable p r -> block_hash_in p r = Some k ->
  map_pop (block_id_in p) k (idx r) (cached_block_hash_to_block p) = (Some r, c') ->
  let p' := set_queue (set_heap (alter (set_hash None) r) (free_block_queue p)) (set_cache (fun _ => c') p) in
  pool_core p' fl own
  /\ forall r', block_hash_in p' r' = if decide (r' = r) then None else block_hash_in p r'.
Proof.
  intros Hc Hr Hh Hpop p'.
  destruct (map_pop_ok (Z.to_nat (num_gpu_blocks p)) (block_id_in p)
    (fun r Hr => block_id_in_ok p fl own r Hc Hr) _ own _ k r (pc_blocks _ _ _ Hc) Hr Hh) as (c2 & E & Hok).
  rewrite E in Hpop. injection Hpop as <-. destruct Hc as [Hq Hp Hn Hb]. split.
  - split; simpl; try done; [by apply repr_data|].
    eapply blocks_ok_ext; [| |exact Hok]; [|done]. intros r'. apply data_of_set_hash.
  - intros r'. unfold block_hash_in, hash_of, p', pheap. simpl. rewrite data_of_set_hash.
    apply (hash_of_upd_hash (data_of (pheap p)) None r r'). by eapply blocks_ok_some.
Qed.

Section PoolSteps.
Context (use_int : bool) (sha256 : bytes -> bytes).

Lemma wp_evict p fl own r (Q : bool -> BlockPool -> Prop) :
  pool_core p fl own -> pool_usable p r \/ r = Blk 0 ->
  (forall p', pool_core p' fl own -> same_config p p' ->
     (forall r', block_hash_in p' r' = if decide (r' = r) then None else block_hash_in p r') ->
     Q (negb (is_none (block_hash_in p r))) p') ->
  wp (maybe_evict_cached_block use_int r) Q p.
Proof.
  intros Hc0 Hr HQ. unfold maybe_evict_cached_block. wp_steps. apply wp_notify. intros p1 Hs1.
  pose proof (same_blocks_core _ _ _ _ Hs1 Hc0) as Hc. pose proof Hs1 as (Hq1 & _ & Hconf).
  assert (Hr1 : pool_usable p1 r \/ r = Blk 0).
  { unfold pool_usable in *. by destruct Hconf as (-> & _). }
  destruct (core_load_any p1 fl own r Hc Hr1) as (i & c & nl & HD & Hu & Hnull).
  wp_steps. eapply wp_pool_load; [exact HD|]. intros b Hi _ Hh _. rewrite Hh.
  assert (Hsame : forall r', block_hash_in p1 r' = block_hash_in p r') by (intros; by apply same_blocks_hash).
  destruct (block_hash_in p1 r) as [k|] eqn:Ek.
  - destruct Hr1 as [Hr1| ->]; [|by destruct (Hnull eq_refl)].
    destruct (Hu Hr1) as (-> & _ & _).
    destruct (map_pop_ok (Z.to_nat (num_gpu_blocks p1)) (block_id_in p1)
      (fun r Hr => block_id_in_ok p1 fl own r Hc Hr) _ own _ k r (pc_blocks _ _ _ Hc) Hr1 Ek) as (c' & E & _).
    destruct (core_unhash p1 fl own r k c' Hc Hr1 Ek E) as [Hc' Hh'].
    wp_steps. rewrite Hi, E. simpl. wp_steps. apply wp_pool_upd. wp_steps. apply wp_events.
    intros p2 Hs2. wp_steps.
    replace true with (negb (is_none (block_hash_in p r))) by (by rewrite <-Hsame, Ek).
    apply HQ.
    + by eapply same_blocks_core.
    + destruct Hs2 as (_ & _ & Hs2). by rewrite Hconf, <-Hs2.
    + intros r'. rewrite (same_blocks_hash _ _ _ Hs2), <-Hsame. apply Hh'.
  - wp_steps. replace false with (negb (is_none (block_hash_in p r))) by (by rewrite <-Hsame, Ek).
    apply HQ; [done|done|]. intros r'. rewrite Hsame. case_decide; [subst|done]. by rewrite <-Hsame.
Qed.

Lemma own_add_nil own r : own_add own [] r = own r.
Proof. unfold own_add. rewrite occ_nil. lia. Qed.

Lemma core_own_ext p fl own own' :
  (forall r, pool_usable p r -> own' r = own r) -> pool_core p fl own -> pool_core p fl own'.
Proof. intros Ho [? ? ? Hb]. split; try done. by eapply blocks_ok_ext; [| |exact Hb]. Qed.

Lemma pool_usable_config p p' r : same_config p p' -> pool_usable p' r <-> pool_usable p r.
Proof. intros (Hn & _). unfold pool_usable. by rewrite Hn. Qed.

(** One block of [get_new_blocks]. *)
Lemma wp_allocate_block evict p fl own r (Q : unit -> BlockPool -> Prop) :
  pool_core p fl own -> pool_usable p r -> own r = 0%nat ->
  (forall p', pool_core p' fl (own_add own [r]) -> same_config p p' ->
     (forall r', block_hash_in p' r' = if decide (r' = r /\ evict = true) then None else block_hash_in p r') ->
     Q tt p') ->
  wp (allocate_block use_int evict r) Q p.
Proof.
  intros Hc Hr Hown HQ. unfold allocate_block. apply wp_bind.
  assert (Hgo : forall p1, pool_core p1 fl own -> same_config p p1 ->
    (forall r', block_hash_in p1 r' = if decide (r' = r /\ evict = true) then None else block_hash_in p r') ->
    wp (b ← pool_load r ; py_assert (ref_cnt b =? 0) ;; pool_upd r (set_ref_cnt (fun c => c + 1)) ;;
        notify (on_block_allocated r)) Q p1).
  { intros p1 Hc1 Hconf Hh. assert (Hr1 : pool_usable p1 r) by (by apply (pool_usable_config p p1)).
    destruct (core_load p1 fl own r Hc1 Hr1) as [h HD].
    wp_steps. eapply wp_pool_load; [exact HD|]. intros b _ Hcnt _ _. wp_steps.
    { rewrite Hcnt, Hown. done. }
    eapply wp_incr; [done|by left|]. intros p2 Hc2 Hconf2 Hh2. apply wp_notify. intros p3 Hs3.
    apply HQ.
    - by eapply same_blocks_core.
    - destruct Hs3 as (_ & _ & Hs3). by rewrite Hconf, Hconf2.
    - intros r'. by rewrite (same_blocks_hash _ _ _ Hs3), Hh2, Hh. }
  apply wp_when; intros ->.
  - apply wp_bind. eapply wp_evict; [done|by left|]. intros p1 Hc1 Hconf Hh. apply wp_ret.
    apply Hgo; [done|done|]. intros r'. rewrite Hh. repeat case_decide; tauto.
  - apply Hgo; [done|done|]. intros r'. rewrite decide_False; [done|]. by intros [_ ?].
Qed.
End PoolSteps.

(** ** Whole operations *)

Lemma core_requeue p fl fl' own q' :
  pool_core p fl own -> queue_repr q' fl' -> same_data (pheap p) (heap q') ->
  pool_core (set_queue q' p) fl' own
  /\ forall r, block_hash_in (set_queue q' p) r = block_hash_in p r.
Proof.
  intros [Hr Hp Hn Hb] Hq Hd. split.
  - split; try done. eapply blocks_ok_ext; [| |exact Hb]; [|done]. intros r. apply Hd.
  - intros r. unfold block_hash_in, hash_of. change (pheap (set_queue q' p)) with (heap q').
    by rewrite (Hd r).
Qed.

Lemma wp_queue_op {A} p fl fl' own (m : M FreeKVCacheBlockQueue A) a (Q : A -> BlockPool -> Prop) :
  pool_core p fl own -> refines (free_block_queue p) m a fl' ->
  (forall p', pool_core p' fl' own -> same_config p p' ->
     (forall r, block_hash_in p' r = block_hash_in p r) -> Q a p') ->
  wp (queue_op m) Q p.
Proof.
  intros Hc Href HQ. unfold queue_op. apply wp_zoom. eapply wp_mono; [exact Href|].
  intros a' q' (-> & Hq & Hd). destruct (core_requeue p fl fl' own q' Hc Hq Hd). by apply HQ.
Qed.

Lemma occ_take_le `{EqDecision A} (x : A) l1 l2 : (occ x l1 <= occ x (l1 ++ l2))%nat.
Proof. rewrite occ_app. lia. Qed.

Section PoolOps.
Context (use_int : bool) (sha256 : bytes -> bytes).

Lemma inv_fl_nodup p fl own : pool_inv p fl own -> NoDup fl.
Proof. intros [Hc _]. by eapply repr_nodup_list, pc_repr. Qed.

Lemma get_new_blocks_wp p fl own (k : nat) :
  pool_inv p fl own -> (k <= length fl)%nat ->
  wp (get_new_blocks use_int (Z.of_nat k))
     (fun ret p' => ret = take k fl /\ pool_inv p' (drop k fl) (own_add own ret) /\ same_config p p'
        /\ forall r, block_hash_in p' r = if decide (r ∈ ret /\ enable_caching p = true) then None else block_hash_in p r)
     p.
Proof.
  intros Hinv Hk. pose proof (inv_fl_nodup _ _ _ Hinv) as Hnd. destruct Hinv as [Hc Hfl].
  unfold get_new_blocks. wp_steps. unfold get_num_free_blocks. rewrite (repr_num _ _ (pc_repr _ _ _ Hc)).
  unfold zlen. replace (Z.of_nat (length fl) <? Z.of_nat k) with false by lia.
  assert (Hz : Z.of_nat k = zlen (take k fl)) by (unfold zlen; rewrite length_take; lia).
  wp_steps. eapply (wp_queue_op p fl (drop k fl) own _ (take k fl)); [done| |].
  { rewrite Hz. apply popleft_n_refines. rewrite take_drop. apply (pc_repr _ _ _ Hc). }
  intros p1 Hc1 Hconf1 Hh1. wp_steps. replace (enable_caching p1) with (enable_caching p) by (symmetry; apply Hconf1).
  set (ret := take k fl) in *.
  assert (Hret : forall r, r ∈ ret -> pool_usable p r /\ own r = 0%nat).
  { intros r Hr. apply Hfl. rewrite <-(take_drop k fl). apply elem_of_app. by left. }
  assert (Hndr : NoDup ret).
  { clear -Hnd. rewrite <-(take_drop k fl) in Hnd. by apply NoDup_app in Hnd as (? & _). }
  eapply (wp_forM_ (fun d t s => d ++ t = ret /\ pool_core s (drop k fl) (own_add own d) /\ same_config p s
    /\ forall r, block_hash_in s r = if decide (r ∈ d /\ enable_caching p = true) then None else block_hash_in p r)
    _ []).
  - split_and!; [done| |done|].
    + eapply core_own_ext; [|done]. intros r _. apply own_add_nil.
    + intros r. rewrite Hh1. rewrite decide_False; [done|]. intros [Hr _]. by inversion Hr.
  - intros d r t s (Hdt & Hcs & Hcf & Hhs).
    assert (Hr : r ∈ ret) by (rewrite <-Hdt; apply elem_of_app; right; left).
    destruct (Hret r Hr) as [Hu Ho].
    eapply (wp_allocate_block _ _ s); [done|by apply (pool_usable_config p s)| |].
    { unfold own_add. rewrite Ho. apply occ_0_iff. intros Hd. rewrite <-Hdt in Hndr.
      apply NoDup_app in Hndr as (_ & Hdis & _). apply (Hdis r Hd). left. }
    intros s' Hcs' Hcf' Hhs'. split_and!.
    + by rewrite <-app_assoc.
    + eapply core_own_ext; [|done]. intros r' _. unfold own_add. rewrite occ_app. lia.
    + by rewrite Hcf.
    + intros r'. rewrite Hhs', Hhs. repeat case_decide; try done; set_solver.
  - intros s (Hdt & Hcs & Hcf & Hhs). wp_steps. split; [done|]. rewrite app_nil_l in *. split_and!; [|done|done].
    split; [done|]. intros r. rewrite (pool_usable_config p s) by done. unfold own_add.
    split.
    + intros Hr. assert (Hrfl : r ∈ fl) by (rewrite <-(take_drop k fl); apply elem_of_app; by right).
      apply Hfl in Hrfl as [Hu Ho]. split; [done|]. rewrite Ho. apply occ_0_iff. intros Hr'.
      rewrite <-(take_drop k fl) in Hnd. apply NoDup_app in Hnd as (_ & Hdis & _). by apply (Hdis r).
    + intros [Hu Ho]. assert (Hrfl : r ∈ fl) by (apply Hfl; split; [done|lia]).
      rewrite <-(take_drop k fl) in Hrfl. apply elem_of_app in Hrfl as [Hr|Hr]; [|done].
      apply occ_pos_iff in Hr. fold ret in Hr. lia.
Qed.

(** The free list left by touching the blocks [d]. *)
Definition untouched (d fl : list ref) : list ref := filter (fun r => r ∉ d) fl.

Lemma untouched_snoc_out d r fl : r ∉ untouched d fl -> untouched (d ++ [r]) fl = untouched d fl.
Proof.
  unfold untouched. intros Hni. apply filter_ext_in. intros x Hx.
  rewrite list_elem_of_filter in Hni. rewrite not_elem_of_app, list_elem_of_singleton.
  split; [tauto|]. intros Hd. split; [done|]. intros ->. tauto.
Qed.

Lemma untouched_snoc_in d r fl l1 l2 :
  NoDup fl -> untouched d fl = l1 ++ r :: l2 -> untouched (d ++ [r]) fl = l1 ++ l2.
Proof.
  intros Hnd E. assert (Hf : untouched (d ++ [r]) fl = filter (fun x => x <> r) (untouched d fl)).
  { unfold untouched. rewrite list_filter_filter. apply filter_ext_in.
    intros x _. rewrite not_elem_of_app, list_elem_of_singleton. tauto. }
  rewrite Hf, E. assert (Hnd' : NoDup (l1 ++ r :: l2)) by (rewrite <-E; by apply NoDup_filter).
  apply NoDup_app in Hnd' as (_ & Hdis & [Hr _]%NoDup_cons).
  rewrite filter_app, filter_cons, decide_False by auto.
  rewrite !filter_all_in; [done|by intros x Hx ->|]. intros x Hx ->. apply (Hdis r Hx). left.
Qed.

Lemma touch_wp p fl own bs :
  pool_inv p fl own -> (forall r, r ∈ bs -> pool_usable p r \/ r = Blk 0) ->
  wp (touch bs)
     (fun _ p' => pool_inv p' (untouched bs fl) (own_add own bs) /\ same_config p p'
        /\ forall r, block_hash_in p' r = block_hash_in p r) p.
Proof.
  intros Hinv Hbs. pose proof (inv_fl_nodup _ _ _ Hinv) as Hnd. destruct Hinv as [Hc Hfl]. unfold touch.
  eapply (wp_forM_ (fun d t s => d ++ t = bs /\ pool_core s (untouched d fl) (own_add own d) /\ same_config p s
    /\ forall r, block_hash_in s r = block_hash_in p r) _ []).
  - split_and!; [done| |done|done]. unfold untouched. rewrite filter_all_in by (intros; apply not_elem_of_nil).
    eapply core_own_ext; [|done]. intros r _. apply own_add_nil.
  - intros d r t s (Hdt & Hcs & Hcf & Hhs).
    assert (Hr : r ∈ bs) by (rewrite <-Hdt; apply elem_of_app; right; left).
    assert (Hrs : pool_usable s r \/ r = Blk 0) by (rewrite (pool_usable_config p s) by done; auto).
    assert (Hend : forall s', pool_core s' (untouched (d ++ [r]) fl) (own_add own d) -> same_config p s' ->
      (forall r, block_hash_in s' r = block_hash_in p r) ->
      wp (pool_upd r (set_ref_cnt (fun c => c + 1)) ;; notify (on_block_accessed r))
        (fun _ s'' => (d ++ [r]) ++ t = bs /\ pool_core s'' (untouched (d ++ [r]) fl) (own_add own (d ++ [r]))
           /\ same_config p s'' /\ forall r, block_hash_in s'' r = block_hash_in p r) s').
    { intros s' Hcs' Hcf' Hhs'. apply wp_bind. eapply wp_incr; [done|rewrite (pool_usable_config p s') by done; auto|].
      intros s2 Hc2 Hcf2 Hh2. apply wp_notify. intros s3 Hs3. split_and!.
      - by rewrite <-app_assoc.
      - eapply same_blocks_core; [done|]. eapply core_own_ext; [|done].
        intros r' _. unfold own_add. rewrite occ_app. lia.
      - destruct Hs3 as (_ & _ & Hs3). by rewrite Hcf', Hcf2.
      - intros r'. by rewrite (same_blocks_hash _ _ _ Hs3), Hh2, Hhs'. }
    destruct (core_load_any s _ _ r Hcs Hrs) as (i & c & nl & HD & Hu & Hnull).
    apply wp_bind. eapply wp_pool_load; [exact HD|]. intros b _ Hcnt _ Hnl. rewrite Hcnt, Hnl.
    apply wp_bind, wp_when; intros Hcond.
    + destruct Hrs as [Hus| ->]; [|destruct (Hnull eq_refl) as [_ ->]; simpl in Hcond; lia].
      destruct (Hu Hus) as (_ & -> & _).
      assert (Hin : r ∈ untouched d fl).
      { unfold own_add in Hcond. apply list_elem_of_filter. split.
        - apply occ_0_iff. lia.
        - apply Hfl. split; [by apply (pool_usable_config p s)|lia]. }
      apply list_elem_of_split in Hin as (l1 & l2 & E).
      eapply (wp_queue_op s (untouched d fl) (l1 ++ l2) _ _ tt); [exact Hcs| |].
      { apply queue_remove_refines. rewrite <-E. apply (pc_repr _ _ _ Hcs). }
      intros s' Hcs' Hcf' Hhs'. apply Hend.
      * by rewrite (untouched_snoc_in d r fl l1 l2 Hnd E).
      * by rewrite Hcf.
      * intros r'. by rewrite Hhs'.
    + apply Hend; [|done|done]. rewrite untouched_snoc_out; [done|].
      intros [Hrd Hrf]%list_elem_of_filter. apply Hfl in Hrf as [Huse Hown].
      apply (pool_usable_config p s) in Huse; [|done]. destruct (Hu Huse) as (_ & -> & ->).
      unfold own_add in Hcond. apply occ_0_iff in Hrd. rewrite Hown, Hrd in Hcond. simpl in Hcond. lia.
  - intros s (_ & Hcs & Hcf & Hhs). split_and!; [|done|done]. split; [done|]. intros r.
    rewrite (pool_usable_config p s) by done. unfold untouched, own_add. rewrite list_elem_of_filter, Hfl.
    rewrite <-(occ_0_iff r bs). intuition lia.
Qed.

(** The blocks that freeing [bs] returns to the queue, in order. *)
Definition released (p : BlockPool) (own : ref -> nat) (bs : list ref) : list ref :=
  filter (fun r => pool_usable p r /\ own r = 1%nat) bs.

Lemma free_decr_wp p fl own bs :
  pool_core p fl own -> (forall r, r ∈ bs -> pool_usable p r \/ r = Blk 0) ->
  (forall r, pool_usable p r -> (occ r bs <= own r)%nat) ->
  wp (forM_ bs (fun r => pool_upd r (set_ref_cnt (fun c => c - 1))))
     (fun _ p' => pool_core p' fl (own_sub own bs) /\ same_config p p'
        /\ forall r, block_hash_in p' r = block_hash_in p r) p.
Proof.
  intros Hc Hbs Hocc.
  eapply (wp_forM_ (fun d t s => d ++ t = bs /\ pool_core s fl (own_sub own d) /\ same_config p s
    /\ forall r, block_hash_in s r = block_hash_in p r) _ []).
  - split_and!; [done| |done|done]. eapply core_own_ext; [|done]. intros r _. unfold own_sub. rewrite occ_nil. lia.
  - intros d r t s (Hdt & Hcs & Hcf & Hhs).
    assert (Hr : r ∈ bs) by (rewrite <-Hdt; apply elem_of_app; right; left).
    apply wp_pool_upd. split_and!.
    + by rewrite <-app_assoc.
    + eapply core_cnt; [done|rewrite (pool_usable_config p s) by done; auto|].
      intros r' Hr'. rewrite (pool_usable_config p s) in Hr' by done. specialize (Hocc r' Hr').
      rewrite <-Hdt in Hocc. unfold own_sub. rewrite occ_app in *. rewrite occ_cons in Hocc.
      rewrite occ_cons, occ_nil. case_decide; lia.
    + by rewrite Hcf.
    + intros r'. by rewrite hash_in_cnt.
  - intros s (_ & Hcs & Hcf & Hhs). done.
Qed.

Lemma free_blocks_wp p fl own bs :
  pool_inv p fl own -> (forall r, r ∈ bs -> pool_usable p r \/ r = Blk 0) ->
  (forall r, pool_usable p r -> (occ r bs <= 1)%nat /\ (occ r bs <= own r)%nat) ->
  wp (free_blocks bs)
     (fun _ p' => pool_inv p' (fl ++ released p own bs) (own_sub own bs) /\ same_config p p'
        /\ forall r, block_hash_in p' r = block_hash_in p r) p.
Proof.
  intros Hinv Hbs Hocc. pose proof (inv_fl_nodup _ _ _ Hinv) as Hnd. destruct Hinv as [Hc Hfl]. unfold free_blocks.
  apply wp_bind. eapply wp_mono.
  { apply (free_decr_wp p fl own bs Hc Hbs). intros r Hr. by apply Hocc. }
  intros [] s (Hcs & Hcf & Hhs). wp_steps.
  assert (Hrel : filter (fun r => releasable s r = true) bs = released p own bs).
  { unfold released. apply filter_ext_in. intros r Hr. unfold releasable.
    destruct (core_load_any s _ _ r Hcs) as (i & c & nl & HD & Hu & Hnull).
    { rewrite (pool_usable_config p s) by done. auto. }
    unfold data_of in HD. apply fmap_Some in HD as (b & Hb & [= Hbi Hbc Hbh Hbn]). rewrite Hb.
    destruct (Hbs r Hr) as [Hus| ->].
    - assert (Hus' : pool_usable s r) by by apply (pool_usable_config p s).
      destruct (Hu Hus') as (_ & -> & ->). rewrite <-Hbc, <-Hbn. unfold own_sub.
      destruct (Hocc r Hus). apply occ_pos_iff in Hr. split.
      + intros Hb0. split; [done|lia].
      + intros [_ Hown]. simpl. lia.
    - destruct (Hnull eq_refl) as [_ ->]. rewrite <-Hbn. simpl. split; [lia|].
      by intros [Hus%usable_ne_null _]. }
  rewrite Hrel.
  assert (Hin : forall r, r ∈ released p own bs <-> r ∈ bs /\ pool_usable p r /\ own r = 1%nat).
  { intros r. unfold released. rewrite list_elem_of_filter. tauto. }
  eapply (wp_queue_op s fl (fl ++ released p own bs) _ _ tt); [exact Hcs| |].
  - apply append_n_refines.
    + apply (pc_repr _ _ _ Hcs).
    + apply NoDup_occ. intros r Hr. apply Hin in Hr as (Hr & Hu & _). unfold released.
      destruct (Hocc r Hu). pose proof (occ_filter_le r (fun r => pool_usable p r /\ own r = 1%nat) bs). lia.
    + intros r (Hr & Hu & Ho)%Hin. rewrite not_elem_of_cons, not_elem_of_app, list_elem_of_singleton.
      destruct (usable_blk _ _ Hu). split_and!; [done| |done]. intros [_ ?]%Hfl. lia.
    + intros r (Hr & Hu & Ho)%Hin. apply (pool_usable_config p s) in Hu; [|done].
      destruct (core_load s _ _ r Hcs Hu) as [h HD]. unfold data_of in HD.
      apply fmap_Some in HD as (b & Hb & _). unfold pheap in Hb. by exists b.
  - intros s' Hcs' Hcf' Hhs'. split_and!; [|by rewrite Hcf|intros r; by rewrite Hhs'].
    split; [done|]. intros r. rewrite (pool_usable_config p s') by by rewrite Hcf.
    rewrite elem_of_app, Hin, Hfl. unfold own_sub. split.
    + intros [[Hu Ho]|(Hr & Hu & Ho)]; (split; [done|]); destruct (Hocc r Hu); [lia|].
      apply occ_pos_iff in Hr. lia.
    + intros [Hu Ho]. destruct (Hocc r Hu) as [H1 H2]. destruct (decide (own r = 0%nat)); [by left|].
      right. split_and!; [|done|lia]. apply occ_pos_iff. lia.
Qed.

Lemma pool_blocks_get p id : 0 <= id < num_gpu_blocks p -> py_get (pool_blocks p) id = Ok (Blk (Z.to_nat id)).
Proof.
  intros Hid. apply py_get_Some; [lia|]. unfold pool_blocks, block_refs.
  rewrite list_lookup_fmap, lookup_seq_lt by lia. done.
Qed.

Lemma zlen_pool_blocks p : 0 < num_gpu_blocks p -> zlen (pool_blocks p) = num_gpu_blocks p.
Proof. intros. unfold pool_blocks, block_refs, zlen. rewrite length_fmap, length_seq. lia. Qed.

Lemma blk_usable p i : (i < Z.to_nat (num_gpu_blocks p))%nat -> pool_usable p (Blk i) \/ Blk i = Blk 0.
Proof. intros Hi. destruct i; [by right|]. left. eexists; split; [done|lia]. Qed.

Lemma evict_blocks_wp p fl own ids :
  pool_inv p fl own -> Forall (fun id => 0 <= id < num_gpu_blocks p) ids ->
  wp (evict_blocks use_int ids)
     (fun _ p' => pool_inv p' fl own /\ same_config p p'
        /\ forall r, block_hash_in p' r = if decide (idx r ∈ ids) then None else block_hash_in p r) p.
Proof.
  intros [Hc Hfl] Hids. unfold evict_blocks.
  eapply (wp_forM_ (fun d t s => d ++ t = ids /\ pool_core s fl own /\ same_config p s
    /\ forall r, block_hash_in s r = if decide (idx r ∈ d) then None else block_hash_in p r) _ []).
  - split_and!; [done|done|done|]. intros r. by rewrite decide_False by apply not_elem_of_nil.
  - intros d id t s (Hdt & Hcs & Hcf & Hhs). assert (Hid : 0 <= id < num_gpu_blocks s).
    { replace (num_gpu_blocks s) with (num_gpu_blocks p) by (symmetry; apply Hcf).
      rewrite <-Hdt in Hids. apply Forall_app in Hids as [_ Hids]. by apply Forall_cons in Hids as [? _]. }
    wp_steps. { rewrite zlen_pool_blocks by lia. lia. }
    rewrite pool_blocks_get by done. eapply wp_lift_res; [done|].
    apply wp_bind. eapply wp_evict; [done|apply blk_usable; lia|]. intros s' Hcs' Hcf' Hhs'. wp_steps.
    split_and!; [by rewrite <-app_assoc|done|by rewrite Hcf|]. intros r. rewrite Hhs', Hhs.
    assert (Hblk : r = Blk (Z.to_nat id) <-> idx r = id).
    { destruct r as [| |j]; simpl; (split; [intros E; try done; simplify_eq; lia|]); try lia.
      intros E. f_equal. lia. }
    destruct (decide (r = Blk (Z.to_nat id))) as [E|E].
    { rewrite decide_True; [done|]. apply elem_of_app. right. apply list_elem_of_singleton. tauto. }
    destruct (decide (idx r ∈ d)) as [E'|E'].
    { rewrite decide_True; [done|]. apply elem_of_app. by left. }
    rewrite decide_False; [done|]. intros [?|?%list_elem_of_singleton]%elem_of_app; tauto.
  - intros s (_ & Hcs & Hcf & Hhs). split_and!; [|done|done]. split; [done|].
    intros r. rewrite (pool_usable_config p s) by done. apply Hfl.
Qed.

(** [reset_hash] on every block. *)
Lemma reset_hashes_wp p fl :
  queue_repr (free_block_queue p) fl ->
  wp (forM_ (pool_blocks p) reset_hash)
     (fun _ s => queue_repr (free_block_queue s) fl /\ same_config p s
        /\ cached_block_hash_to_block s = cached_block_hash_to_block p
        /\ forall r, data_of (pheap s) r =
              if decide (r ∈ pool_blocks p) then t_hash None <$> data_of (pheap p) r else data_of (pheap p) r) p.
Proof.
  intros Hq0.
  eapply (wp_forM_ (fun d t s => d ++ t = pool_blocks p /\ queue_repr (free_block_queue s) fl /\ same_config p s
    /\ cached_block_hash_to_block s = cached_block_hash_to_block p
    /\ forall r, data_of (pheap s) r =
          if decide (r ∈ d) then t_hash None <$> data_of (pheap p) r else data_of (pheap p) r) _ []).
  - split_and!; [done..|]. intros r. by rewrite decide_False by apply not_elem_of_nil.
  - intros d r t s (Hdt & Hq & Hcf & Hca & Hd). apply wp_pool_upd. split_and!.
    + by rewrite <-app_assoc.
    + by apply repr_data.
    + done.
    + done.
    + intros r'. etransitivity; [apply data_of_set_hash|].
      unfold b_upd. change (heap (free_block_queue s)) with (pheap s). rewrite Hd.
      assert (Hidem : forall o : option bdata, t_hash None <$> (t_hash None <$> o) = t_hash None <$> o)
        by (by intros [[[[]]]|]).
      repeat case_decide; rewrite ?Hidem; try done; set_solver.
  - intros s (Hdt & H). done.
Qed.

Lemma reset_prefix_cache_wp p fl own :
  pool_inv p fl own ->
  wp reset_prefix_cache
     (fun ok p' => ok = (num_gpu_blocks p - zlen fl =? 1) /\ pool_inv p' fl own /\ same_config p p'
        /\ (if ok then cached_block_hash_to_block p' = ∅ /\ forall r, pool_usable p r -> block_hash_in p' r = None
            else forall r, block_hash_in p' r = block_hash_in p r)) p.
Proof.
  intros [Hc Hfl]. unfold reset_prefix_cache. wp_steps. unfold get_num_free_blocks.
  rewrite (repr_num _ _ (pc_repr _ _ _ Hc)). destruct (num_gpu_blocks p - zlen fl =? 1) eqn:E; simpl; wp_steps.
  2: { split_and!; [done|done|done|done]. }
  set (p0 := set_cache (fun _ => ∅) p).
  eapply wp_mono; [apply (reset_hashes_wp p0 fl), (pc_repr _ _ _ Hc)|].
  intros [] s (Hq & Hcf & Hca & Hd). wp_steps.
  assert (Hin : forall r, pool_usable p r \/ r = Blk 0 -> r ∈ pool_blocks p).
  { pose proof (pc_pos _ _ _ Hc). intros r [(i & -> & Hi)| ->]; apply elem_of_block_refs; eexists; (split; [done|lia]). }
  assert (Hall : forall r, pool_usable p r -> block_hash_in s r = None).
  { intros r Hr. unfold block_hash_in, hash_of. rewrite Hd, decide_True by auto.
    by destruct (data_of _ _) as [[[[]]]|]. }
  assert (Hn : num_gpu_blocks s = num_gpu_blocks p) by apply Hcf.
  assert (Hcore : pool_core s fl own).
  { pose proof (pc_pos _ _ _ Hc). split; [done|by rewrite Hn| |].
    { destruct Hcf as (_ & _ & _ & -> & _). apply (pc_null _ _ _ Hc). }
    rewrite Hn. split.
    - destruct (bo_null _ _ _ _ (pc_blocks _ _ _ Hc)) as [c Hnull]. exists c.
      rewrite Hd, decide_True by auto. change (pheap p0) with (pheap p). by rewrite Hnull.
    - intros r Hr. destruct (core_load p fl own r Hc Hr) as [h HD]. exists None.
      rewrite Hd, decide_True by auto. change (pheap p0) with (pheap p). by rewrite HD.
    - intros k e. rewrite Hca. simpl. by rewrite lookup_empty.
    - intros r k Hr Hh. pose proof (Hall r Hr) as Hnone. unfold block_hash_in in Hnone. congruence. }
  assert (Hpost : forall s', same_blocks s s' ->
    pool_inv s' fl own /\ same_config p s' /\ cached_block_hash_to_block s' = ∅
    /\ forall r, pool_usable p r -> block_hash_in s' r = None).
  { intros s' Hs. pose proof Hs as (_ & Hc' & Hcf'). split_and!.
    - split; [by eapply same_blocks_core|]. intros r.
      rewrite (pool_usable_config p s'); [apply Hfl|]. etransitivity; [exact Hcf|exact Hcf'].
    - etransitivity; [exact Hcf|exact Hcf'].
    - by rewrite Hc', Hca.
    - intros r Hr. rewrite (same_blocks_hash _ _ _ Hs). by apply Hall. }
  assert (Hmet : same_blocks s (match metrics_collector s with
    Some l => set_metrics (Some (l ++ [metrics_reset])) s | None => s end)) by by destruct (metrics_collector s).
  apply wp_events. intros s2 Hs2. wp_steps. split; [done|]. apply Hpost.
  destruct Hmet as (? & ? & ?), Hs2 as (? & ? & ?). split_and!; [congruence..|]. by etransitivity.
Qed.

(** *** Caching *)

(** The key of hash [h] in group [gid]. *)
Definition key_of (h : bytes) (gid : Z) : bytes := h ++ to_bytes_raw 4 gid.

Lemma core_hash p fl own r k :
  pool_core p fl own -> pool_usable p r -> block_hash_in p r = None ->
  let p1 := set_queue (set_heap (alter (set_hash (Some k)) r) (free_block_queue p)) p in
  let p' := set_cache (map_insert (block_id_in p1) k r) p1 in
  pool_core p' fl own
  /\ forall r', block_hash_in p' r' = if decide (r' = r) then Some k else block_hash_in p r'.
Proof.
  intros Hc Hr Hh p1 p'.
  assert (Hid : forall r, pool_usable p r -> block_id_in p1 r = idx r).
  { intros r' Hr'. destruct (core_load p fl own r' Hc Hr') as [h E].
    unfold block_id_in, p1, pheap. simpl. rewrite lookup_alter. unfold data_of, pheap in E.
    destruct (heap (free_block_queue p) !! r') as [b|] eqn:Eb; [|done].
    injection E as E _ _ _. case_decide; [subst r; by rewrite Eb|done]. }
  pose proof (map_insert_ok _ (block_id_in p1) Hid _ own (cached_block_hash_to_block p) k r (pc_blocks _ _ _ Hc) Hr Hh) as Hok.
  assert (Hs : is_Some (data_of (pheap p) r)) by (destruct (core_load p fl own r Hc Hr) as [h ->]; eauto).
  destruct Hc as [Hq Hp Hn Hb]. split.
  - split; try done; [by apply repr_data|].
    eapply blocks_ok_ext; [| |exact Hok]; [|done]. intros r'. apply data_of_set_hash.
  - intros r'. etransitivity; [|exact (hash_of_upd_hash (data_of (pheap p)) (Some k) r r' Hs)].
    unfold block_hash_in, hash_of. f_equal. apply data_of_set_hash.
Qed.

Lemma cache_block_step_wp p fl own hashes gid acc ib h :
  pool_core p fl own -> pool_usable p ib.2 \/ ib.2 = Blk 0 -> 0 <= gid < 2 ^ 32 ->
  (pool_usable p ib.2 -> block_hash_in p ib.2 = None /\ py_get hashes (Z.of_nat ib.1) = Ok h) ->
  wp (cache_block_step use_int hashes gid acc ib)
     (fun _ p' => pool_core p' fl own /\ same_config p p'
        /\ forall r, block_hash_in p' r =
             if decide (r = ib.2 /\ pool_usable p ib.2) then Some (key_of h gid) else block_hash_in p r) p.
Proof.
  intros Hc Hr Hgid Hnew. destruct ib as [i r]; simpl in *. unfold cache_block_step. simpl.
  destruct (core_load_any p fl own r Hc Hr) as (id & c & nl & HD & Hu & Hnull).
  apply wp_bind. eapply wp_pool_load; [exact HD|]. intros b _ _ Hbh Hbn. rewrite Hbn.
  destruct Hr as [Hr| ->].
  - destruct (Hu Hr) as (_ & _ & ->). destruct (Hnew Hr) as [Hnone Hget]. wp_steps.
    { by rewrite Hbh, Hnone. }
    eapply wp_lift_res; [by apply make_key_in_range|]. unfold assign_block_hash. wp_steps.
    eapply wp_pool_load; [exact HD|]. intros b' _ _ Hbh' _. wp_steps. { by rewrite Hbh', Hnone. }
    apply wp_pool_upd. wp_steps.
    destruct (core_hash p fl own r (key_of h gid) Hc Hr Hnone) as [Hc' Hh']. split_and!; [exact Hc'|done|].
    intros r'. etransitivity; [apply Hh'|]. repeat case_decide; tauto.
  - destruct (Hnull eq_refl) as [_ ->]. wp_steps. split_and!; [done|done|]. intros r.
    rewrite decide_False; [done|]. by intros [_ ?%usable_ne_null].
Qed.

(** The main loop: the blocks of [news] get the keys of [hashes], in order. *)
Lemma cache_blocks_loop_wp p fl own hashes gid (news : list ref) :
  pool_core p fl own -> 0 <= gid < 2 ^ 32 ->
  (forall r, r ∈ news -> pool_usable p r \/ r = Blk 0) ->
  (forall r, r ∈ news -> pool_usable p r -> block_hash_in p r = None) ->
  (forall i j r, news !! i = Some r -> news !! j = Some r -> pool_usable p r -> i = j) ->
  (length news <= length hashes)%nat ->
  wp (foldM (cache_block_step use_int hashes gid) [] (imap (fun i r => (i, r)) news))
     (fun _ p' => pool_core p' fl own /\ same_config p p'
        /\ (forall i r h, news !! i = Some r -> hashes !! i = Some h -> pool_usable p r ->
              block_hash_in p' r = Some (key_of h gid))
        /\ (forall r, r ∉ news \/ ~ pool_usable p r -> block_hash_in p' r = block_hash_in p r)) p.
Proof.
  intros Hc Hgid Hu Hnone Hdist Hlen.
  eapply (wp_foldM (fun d t _ s => d ++ t = imap (fun i r => (i, r)) news /\ pool_core s fl own /\ same_config p s
    /\ (forall i r h, (i, r) ∈ d -> hashes !! i = Some h -> pool_usable p r -> block_hash_in s r = Some (key_of h gid))
    /\ (forall r, (forall i, (i, r) ∉ d) \/ ~ pool_usable p r -> block_hash_in s r = block_hash_in p r)) _ []).
  - split_and!; [done|done|done| |done]. intros i r h Hin. by inversion Hin.
  - intros d [i r] t acc s (Hdt & Hcs & Hcf & Hdone & Hrest).
    assert (Hlk : imap (fun i r => (i, r)) news !! length d = Some (i, r)).
    { by rewrite <-Hdt, list_lookup_middle. }
    rewrite list_lookup_imap in Hlk. apply fmap_Some in Hlk as (r0 & Hnr & [= -> <-]).
    assert (Hrn : r ∈ news) by (by eapply list_elem_of_lookup_2).
    assert (Hd : forall i' r', (i', r') ∈ d -> (i' < length d)%nat /\ news !! i' = Some r').
    { intros i' r' Hin. apply list_elem_of_lookup in Hin as [j Hj]. pose proof (lookup_lt_Some _ _ _ Hj).
      assert (Hj2 : imap (fun i r => (i, r)) news !! j = Some (i', r')) by (rewrite <-Hdt, lookup_app_l; done).
      rewrite list_lookup_imap in Hj2. apply fmap_Some in Hj2 as (r1 & ? & [= -> <-]). done. }
    assert (Hnd : pool_usable p r -> forall i', (i', r) ∉ d).
    { intros Hur i' [Hlt Hn']%Hd. pose proof (Hdist _ _ _ Hnr Hn' Hur). lia. }
    destruct (hashes !! length d) as [h|] eqn:Eh; cycle 1.
    { apply lookup_ge_None in Eh. apply lookup_lt_Some in Hnr. lia. }
    eapply wp_mono; [apply (cache_block_step_wp s fl own hashes gid acc (length d, r) h Hcs)|].
    + simpl. rewrite (pool_usable_config p s) by done. auto.
    + done.
    + simpl. rewrite (pool_usable_config p s) by done. intros Hur. split.
      * rewrite Hrest by (left; by apply Hnd). by apply Hnone.
      * apply py_get_Some; [lia|]. by rewrite Nat2Z.id.
    + simpl. intros _ s' (Hcs' & Hcf' & Hh0).
      assert (Hh' : forall r', block_hash_in s' r' =
        if decide (r' = r /\ pool_usable p r) then Some (key_of h gid) else block_hash_in s r').
      { intros r'. rewrite Hh0. pose proof (pool_usable_config p s r Hcf). repeat case_decide; tauto. }
      split_and!; [by rewrite <-app_assoc|done|by rewrite Hcf| |].
      * intros i' r' h' [Hin| [= -> ->]%list_elem_of_singleton]%elem_of_app Hh Hur; rewrite Hh'.
        -- rewrite decide_False; [by eapply Hdone|]. intros [-> Hur']. by apply (Hnd Hur' i').
        -- rewrite decide_True by done. congruence.
      * intros r' Hr'. rewrite Hh'. rewrite decide_False.
        -- apply Hrest. destruct Hr' as [Hr'|]; [left|by right]. intros i' Hin. apply (Hr' i'). apply elem_of_app. by left.
        -- intros [-> Hur]. destruct Hr' as [Hr'|]; [|done]. apply (Hr' (length d)). apply elem_of_app. right. left.
  - intros acc s (Hdt & Hcs & Hcf & Hdone & Hrest). split_and!; [done|done| |].
    + intros i r h Hi Hh Hur. apply (Hdone i r h); [|done|done].
      apply (list_elem_of_lookup_2 _ i). cbn [app]. by rewrite list_lookup_imap, Hi.
    + intros r Hr. apply Hrest. destruct Hr as [Hr|]; [left|by right]. intros i Hin. apply Hr.
      apply list_elem_of_lookup in Hin as [j Hj]. cbn [app] in Hj. rewrite list_lookup_imap in Hj.
      apply fmap_Some in Hj as (r1 & ? & [= -> <-]). by eapply list_elem_of_lookup_2.
Qed.

Lemma event_keys_wp p fl own lo request blocks bs nc nf (Q : list (option (list py_key)) * Z * Request -> BlockPool -> Prop) :
  pool_core p fl own -> (forall r, r ∈ blocks -> pool_usable p r \/ r = Blk 0) ->
  mm_wf lo (mm_features request) -> memo_ok sha256 request ->
  0 <= bs -> 0 <= nc <= nf -> nf <= zlen blocks ->
  (forall acc, Q acc p) ->
  wp (foldM (event_keys_step sha256 blocks bs) ([], 0, request) (zrange nc nf)) Q p.
Proof.
  intros Hc Hu Hwf Hok Hbs Hnc Hnf HQ.
  eapply (wp_foldM (fun _ t acc s => s = p /\ exists k, nc <= k /\ t = zrange k nf
    /\ mm_idx_ok (mm_features request) (k * bs) acc.1.2 /\ memo_only request acc.2 /\ memo_ok sha256 acc.2) _ []).
  - split; [done|]. exists nc. split_and!; [lia|done| |apply memo_only_refl|done]. simpl.
    left. split; [|constructor]. unfold zlen. lia.
  - intros d i t [[keys idx0] req] s (-> & k & Hk & Ht & Hidx & Hmo & Hmok). simpl in *.
    destruct (decide (k < nf)); [|rewrite zrange_nil in Ht by lia; done].
    rewrite zrange_cons in Ht by lia. injection Ht as -> ->.
    destruct (blocks !! Z.to_nat k) as [r|] eqn:Er; [|apply lookup_ge_None in Er; unfold zlen in Hnf; lia].
    unfold event_keys_step. rewrite (py_get_Some _ _ r) by (try done; lia). apply wp_bind.
    eapply wp_lift_res; [done|]. apply wp_bind.
    destruct (core_load_any p fl own r Hc) as (id & c & nl & HD & _).
    { apply Hu. by eapply list_elem_of_lookup_2. }
    eapply wp_pool_load; [exact HD|]. intros b _ _ _ _.
    replace (k * bs + bs) with ((k + 1) * bs) by lia.
    destruct (is_null b).
    + apply wp_ret. split; [done|]. exists (k + 1). split_and!; try done; [lia|]. simpl.
      eapply mm_idx_ok_all; [done|nia].
    + assert (Hf : mm_features req = mm_features request) by (destruct Hmo as [m ->]; done).
      pose proof (generate_keys_wp sha256 lo (k * bs) ((k + 1) * bs) idx0 req) as Hw.
      rewrite Hf in Hw. specialize (Hw Hwf ltac:(nia) Hidx Hmok).
      apply wp_run in Hw as ([ks idx1] & req' & -> & _ & Hidx' & Hmo' & Hmok'). apply wp_ret.
      split; [done|]. exists (k + 1). split_and!; try done; [lia|]. by eapply memo_only_trans.
  - intros acc s (-> & _). apply HQ.
Qed.

Lemma emit_block_stored_wp p fl own lo request blocks hashes nh bs nc nf (Q : unit -> BlockPool -> Prop) :
  pool_core p fl own -> (forall r, r ∈ blocks -> pool_usable p r \/ r = Blk 0) ->
  mm_wf lo (mm_features request) -> memo_ok sha256 request ->
  0 <= bs -> 0 <= nc <= nf -> nf <= zlen blocks -> nc <= zlen hashes ->
  (forall p', same_blocks p p' -> Q tt p') ->
  wp (emit_block_stored use_int sha256 request blocks hashes nh nc nf bs) Q p.
Proof.
  intros Hc Hu Hwf Hok Hbs Hnc Hnf Hnh HQ. unfold emit_block_stored. apply wp_bind.
  assert (Hrest : forall parent : option ExternalBlockHash, wp (acc ← foldM (event_keys_step sha256 blocks bs) ([], 0, request) (zrange nc nf) ;
    modify (set_kv_events (fun l => l ++
    [BlockStored nh parent (py_slice (all_token_ids request) (nc * bs) (nf * bs))
       bs (lora_int_id <$> lora_request request) (lora_name <$> lora_request request)
       (match acc.1.1 with [] => None | _ => Some acc.1.1 end)]))) Q p).
  { intros parent. apply wp_bind. eapply event_keys_wp; [done..|]. intros acc. apply wp_modify, HQ. done. }
  destruct (nc =? 0) eqn:E; [apply wp_ret, Hrest|].
  destruct (hashes !! Z.to_nat (nc - 1)) as [h|] eqn:Eh; [|apply lookup_ge_None in Eh; unfold zlen in Hnh; lia].
  apply wp_bind. eapply wp_lift_res; [by apply py_get_Some; [lia|]|]. apply wp_ret, Hrest.
Qed.

Lemma cache_full_blocks_wp p fl own request blocks hs nc nf bs gid :
  pool_inv p fl own -> 0 <= nc -> nf <= zlen blocks -> 0 <= gid < 2 ^ 32 ->
  (forall r, r ∈ blocks -> pool_usable p r \/ r = Blk 0) ->
  (forall r, r ∈ py_slice blocks nc nf -> pool_usable p r -> block_hash_in p r = None) ->
  (forall i j r, py_slice blocks nc nf !! i = Some r -> py_slice blocks nc nf !! j = Some r -> pool_usable p r -> i = j) ->
  hashes_at request (hash_block_size p) bs = Ok hs -> nf <= zlen hs -> nf <= zlen (block_hashes request) ->
  (enable_kv_cache_events p = true -> 0 <= bs /\ memo_ok sha256 request /\ exists lo, mm_wf lo (mm_features request)) ->
  wp (cache_full_blocks use_int sha256 request blocks nc nf bs gid)
     (fun _ p' => pool_inv p' fl own /\ same_config p p'
        /\ (forall i r h, nc <= Z.of_nat i < nf -> blocks !! i = Some r -> hs !! i = Some h -> pool_usable p r ->
              block_hash_in p' r = Some (key_of h gid))
        /\ (forall r, r ∉ py_slice blocks nc nf \/ ~ pool_usable p r -> block_hash_in p' r = block_hash_in p r)) p.
Proof.
  intros [Hc Hfl] Hnc Hnf Hgid Hu Hnone Hdist Hhs Hlen Hlenr Hev. unfold cache_full_blocks.
  destruct (nf <=? nc) eqn:E.
  { apply wp_ret. split_and!; [done|done| |done]. intros. lia. }
  rewrite (py_slice_nonneg blocks nc nf) in * by lia.
  set (news := take (Z.to_nat (nf - nc)) (drop (Z.to_nat nc) blocks)) in *.
  apply wp_bind, wp_assert; [lia|]. apply wp_bind, wp_gets, wp_bind.
  eapply wp_lift_res; [exact Hhs|]. rewrite py_slice_from_nonneg by lia. apply wp_bind.
  assert (Hnews : forall r, r ∈ news -> r ∈ blocks).
  { intros r [i Hi]%list_elem_of_lookup. unfold news in Hi. apply lookup_take_Some in Hi as [Hi _].
    rewrite lookup_drop in Hi. by eapply list_elem_of_lookup_2. }
  eapply wp_mono; [apply (cache_blocks_loop_wp p fl own (drop (Z.to_nat nc) hs) gid news); try done|].
  { intros r Hr. apply Hu. auto. }
  { unfold news, zlen in *. rewrite length_take, !length_drop. lia. }
  intros nh s (Hcs & Hcf & Hset & Hkeep). apply wp_bind, wp_gets.
  assert (Hpost : forall s', same_blocks s s' -> pool_inv s' fl own /\ same_config p s'
    /\ (forall i r h, nc <= Z.of_nat i < nf -> blocks !! i = Some r -> hs !! i = Some h -> pool_usable p r ->
          block_hash_in s' r = Some (key_of h gid))
    /\ (forall r, r ∉ news \/ ~ pool_usable p r -> block_hash_in s' r = block_hash_in p r)).
  { intros s' Hs. pose proof Hs as (_ & _ & Hcf'). assert (Hcf2 : same_config p s') by (by etransitivity).
    split_and!; [split; [by eapply same_blocks_core|]|done| |].
    - intros r. rewrite (pool_usable_config p s') by done. apply Hfl.
    - intros i r h Hi Hr Hh Hur. rewrite (same_blocks_hash _ _ _ Hs).
      apply (Hset (i - Z.to_nat nc)%nat); [| |done].
      + unfold news. rewrite lookup_take_lt by lia. rewrite lookup_drop, <-Hr. f_equal. lia.
      + rewrite lookup_drop, <-Hh. f_equal. lia.
    - intros r Hr. rewrite (same_blocks_hash _ _ _ Hs). by apply Hkeep. }
  apply wp_when; [|intros _; by apply Hpost]. intros Hevs.
  replace (enable_kv_cache_events s) with (enable_kv_cache_events p) in Hevs by (symmetry; apply Hcf).
  destruct (Hev Hevs) as (Hbs & Hmemo & lo & Hwf).
  eapply emit_block_stored_wp; try done; try lia.
  intros r Hr. rewrite (pool_usable_config p s) by done. auto.
Qed.

(** *** Lookups *)

(** [get_cached_block] hits exactly when every group holds a block with the
    key, and returns such blocks. *)
Lemma get_cached_block_ok p fl own h gids :
  pool_core p fl own -> Forall (fun g => 0 <= g < 2 ^ 32) gids ->
  exists o, get_cached_block p h gids = Ok o
    /\ match o with
       | Some rs => Forall2 (fun g r => pool_usable p r /\ block_hash_in p r = Some (key_of h g)) gids rs
       | None => exists g, g ∈ gids /\ forall r, pool_usable p r -> block_hash_in p r <> Some (key_of h g)
       end.
Proof.
  intros Hc Hg. induction Hg as [|g gids Hg Hgs (o & IH & Ho)].
  { exists (Some []). by split. }
  cbn [get_cached_block]. rewrite (make_key_in_range h g Hg). fold (key_of h g).
  destruct (get_one_block_ok _ _ own _ (key_of h g) (pc_blocks _ _ _ Hc)) as (o1 & Ho1e & Ho1).
  unfold mbind, res_bind. rewrite Ho1e. destruct o1 as [r|].
  - rewrite IH. eexists; split; [done|]. destruct o as [rs|]; simpl; [by constructor|].
    destruct Ho as (g' & ? & ?). exists g'. split; [by right|done].
  - eexists; split; [done|]. exists g. split; [left|]. exact Ho1.
Qed.

(** *** Errors *)

Lemma get_new_blocks_error p fl own k :
  pool_core p fl own -> zlen fl < k -> get_new_blocks use_int k p = (Err ValueError, p).
Proof.
  intros Hc Hk. unfold get_new_blocks, mbind, M_bind, gets, get_num_free_blocks.
  rewrite (repr_num _ _ (pc_repr _ _ _ Hc)). by replace (zlen fl <? k) with true by lia.
Qed.
End PoolOps.

(** ** The initial pool *)

Lemma pool_init_ok n caching hbs ev m :
  0 < n ->
  exists p, pool_init n caching hbs ev m = Ok p
    /\ pool_inv p (Blk <$> seq 1 (Z.to_nat n - 1)) (fun _ => 0%nat)
    /\ num_gpu_blocks p = n /\ enable_caching p = caching /\ hash_block_size p = hbs
    /\ enable_kv_cache_events p = ev /\ cached_block_hash_to_block p = ∅
    /\ forall r, pool_usable p r \/ r = Blk 0 -> block_hash_in p r = None.
Proof.
  intros Hn. unfold pool_init. replace (0 <? n) with true by lia. simpl.
  destruct (Z.to_nat n) as [|k] eqn:Ek; [lia|].
  assert (Hblk : forall i, (i < S k)%nat -> data_of (new_heap (S k)) (Blk i) = Some (Z.of_nat i, 0, None, false)).
  { intros i Hi. unfold data_of. rewrite new_heap_lookup, decide_True by done. done. }
  set (q0 := mkQueue (new_heap (S k)) 0).
  assert (Hw : wp (queue_init (block_refs (S k)) ;; null ← popleft ; upd null (set_is_null true) ;; mret null)
    (fun null q => null = Blk 0 /\ queue_repr q (Blk <$> seq 1 k)
       /\ (exists c, data_of (heap q) (Blk 0) = Some (0, c, None, true))
       /\ forall i, (0 < i < S k)%nat -> data_of (heap q) (Blk i) = Some (Z.of_nat i, 0, None, false)) q0).
  { apply wp_bind. eapply wp_mono; [apply (queue_init_repr _ _ (new_heap_fresh (S k)) 0)|].
    intros [] q1 [Hq1 Hd1]. apply wp_bind. change (block_refs (S k)) with (Blk 0 :: fmap (M:=list) Blk (seq 1 k)) in Hq1.
    eapply wp_mono; [exact (popleft_refines _ _ _ Hq1)|].
    intros null q2 (-> & Hq2 & Hd2). apply wp_bind, wp_modify, wp_ret. split_and!; [done|by apply repr_data| |].
    - exists 0. unfold data_of. simpl. rewrite lookup_alter, decide_True by done.
      pose proof (Hblk 0%nat ltac:(lia)) as Hb. rewrite <-Hd1, <-Hd2 in Hb by done. unfold data_of in Hb.
      destruct (heap q2 !! Blk 0) as [b|]; [|done]. injection Hb as E1 E2 E3 _. simpl. by rewrite E1, E2, E3.
    - intros i Hi. rewrite <-Hblk, <-Hd1, <-Hd2 by (try done; lia). unfold data_of. simpl.
      rewrite lookup_alter, decide_False; [done|]. intros [=]. lia. }
  apply wp_run in Hw as (null & q & -> & -> & Hq & [c Hnull] & Hd).
  eexists. split; [done|]. replace (S k - 1)%nat with k by lia. simpl.
  assert (Hh : forall r, usable (S k) r \/ r = Blk 0 -> hash_of (data_of (heap q)) r = None).
  { intros r [(i & -> & Hi)| ->]; unfold hash_of; [by rewrite Hd|by rewrite Hnull]. }
  split_and!; try done; [split|].
  - split; try done. simpl. rewrite Ek. split.
    + by exists c.
    + intros r (i & -> & Hi). exists None. by apply Hd.
    + intros k' e. by rewrite lookup_empty.
    + intros r k' Hr E. unfold pheap in E. simpl in E. rewrite Hh in E by auto. done.
  - intros r. unfold pool_usable. simpl. rewrite Ek. unfold usable. rewrite list_elem_of_fmap.
    setoid_rewrite elem_of_seq. split.
    + intros (i & -> & Hi). split; [|done]. exists i. split; [done|lia].
    + intros [(i & -> & Hi) _]. exists i. split; [done|lia].
  - intros r Hr. apply Hh. unfold pool_usable in Hr. simpl in Hr. by rewrite Ek in Hr.
Qed.
