(* ===== verification/Samples.v ===== *)
(** * Concrete instances

    Toy hash functions, requests and a small block pool, on which the theorems of
    the [*Spec] files are applied. *)

From S2P Require Import Prelude FreeQueue Request Hashing BlockPool BlockPoolLemmas.
From Stdlib Require Import Strings.Byte.
Local Open Scope Z_scope.

(** ** Requests *)

(** A toy caching hash: length-prefixed tokens after the parent hash. *)
Definition toy_hash (x : hash_input) : bytes :=
  let '(parent, toks, keys) := x in
  parent ++ [x01; byte_of_Z (zlen toks)] ++ (byte_of_Z <$> toks)
  ++ match keys with None => [x00] | Some k => [byte_of_Z (zlen k)] end.

Definition toy_sha256 (b : bytes) : bytes := b.

Definition toy_sampling : SamplingParams :=
  mkSamplingParams (Some 16) 0 None None None None None None None.

Definition toy_request (id : string) (prompt : list Z) (fs : list MultiModalFeatureSpec)
    (lora : option LoRARequest) (salt : option string) : EngineCoreRequest :=
  mkEngineCoreRequest id (Some prompt) (Some toy_sampling) None 0 (Some 0) None (Some fs) lora salt 0 false None.

(** A fixed-length toy hash: the sum of the tokens. *)
Definition toy_sum_hash (x : hash_input) : bytes := [x01; byte_of_Z (foldr Z.add 0 x.1.2)].

(** The request object that [request_init] builds, or the default. *)
Definition toy_init (h : hash_input -> bytes) (bs : Z) (e : EngineCoreRequest) : res Request :=
  request_init 0 (Some (request_block_hasher toy_sha256 h [x00] bs)) e.

Definition run_append (h : hash_input -> bytes) (bs : Z) (toks : list Z) (r : Request) : Request :=
  snd (append_output_token_ids (Some (request_block_hasher toy_sha256 h [x00] bs)) toks r).

Definition res_get {A} (d : A) (x : res A) : A := match x with Ok a => a | Err _ => d end.

(** A request as [__init__] leaves it before any hash is computed. *)
Definition bare_request (id : string) (toks : list Z) : Request :=
  mkRequest id 0 0 (Some toy_sampling) None None None 0 WAITING [] None None 16 (Some toks) None ∅
    (zlen toks) [] toks 0 false [] 0 None [] (-1) false 0 0 0 [] false false None.

(** Requests that share two full blocks of four tokens. *)
Definition sample_request (tl : list Z) : Request :=
  set_block_hashes (fun _ => [[x01; x0a]; [x01; x1a]])
    (bare_request "a" ([1; 2; 3; 4; 5; 6; 7; 8] ++ tl)).

(** Two full blocks of two tokens. *)
Definition sample_request_2 (tl : list Z) : Request :=
  set_block_hashes (fun _ => [[x01; x0a]; [x01; x1a]]) (bare_request "b" ([1; 2; 3; 4] ++ tl)).

(** ** A block pool *)

(** A pool of four blocks with prefix caching, and one of its steps. *)
Definition sample_pool : BlockPool :=
  match pool_init 4 true 2 false None with Ok p => p | Err _ => mkPool 0 false 0 (new_queue 0) ∅ Head false [] None end.

Lemma sample_pool_init : pool_init 4 true 2 false None = Ok sample_pool.
Proof. reflexivity. Qed.

Lemma sample_pool_inv : pool_inv sample_pool [Blk 1; Blk 2; Blk 3] (fun _ => 0%nat).
Proof.
  destruct (pool_init_ok 4 true 2 false None) as (p & Hp & Hinv & _); [lia|].
  rewrite sample_pool_init in Hp. injection Hp as <-. exact Hinv.
Qed.

Lemma run_eq {S A} (m : M S A) s a : fst (m s) = a -> m s = (a, snd (m s)).
Proof. intros <-. apply surjective_pairing. Qed.

(** The sample pool after an allocation of two blocks. *)
Definition sample_pool_used : BlockPool := snd (get_new_blocks false 2 sample_pool).

Lemma sample_pool_used_inv : pool_inv sample_pool_used [Blk 3] (own_add (fun _ => 0%nat) [Blk 1; Blk 2]).
Proof.
  pose proof (get_new_blocks_wp false _ _ _ 2 sample_pool_inv ltac:(simpl; lia)) as Hw.
  apply wp_run in Hw as (ret & p' & Hr & -> & Hinv & _). change (Z.of_nat 2) with 2 in Hr.
  unfold sample_pool_used. rewrite Hr. exact Hinv.
Qed.

(** Caching the two full blocks that a request holds. *)
Definition sample_pool_cached : BlockPool :=
  snd (cache_full_blocks false toy_sha256 (sample_request_2 []) [Blk 1; Blk 2] 0 2 2 0 sample_pool_used).

Lemma sample_used_blocks r : r ∈ [Blk 1; Blk 2] -> pool_usable sample_pool_used r.
Proof.
  intros Hr. apply list_elem_of_In in Hr. simpl in Hr.
  destruct Hr as [<-|[<-|[]]]; eexists; (split; [reflexivity|]); vm_compute; lia.
Qed.

Lemma sample_pool_cached_inv : pool_inv sample_pool_cached [Blk 3] (own_add (fun _ => 0%nat) [Blk 1; Blk 2]).
Proof.
  unshelve (epose proof (cache_full_blocks_wp false toy_sha256 sample_pool_used _ _ (sample_request_2 []) [Blk 1; Blk 2]
    [[x01; x0a]; [x01; x1a]] 0 2 2 0 sample_pool_used_inv _ _ _ _ _ _ _ _ _ _) as Hw).
  - lia.
  - by vm_compute.
  - split; [lia|reflexivity].
  - intros r Hr. left. by apply sample_used_blocks.
  - intros r Hr _. apply list_elem_of_In in Hr. vm_compute in Hr.
    destruct Hr as [<-|[<-|[]]]; vm_compute; reflexivity.
  - intros i j r Hi Hj _. eapply (NoDup_lookup [Blk 1; Blk 2]); [apply (bool_decide_unpack _); reflexivity|exact Hi|exact Hj].
  - reflexivity.
  - by vm_compute.
  - by vm_compute.
  - intros Hev. vm_compute in Hev. discriminate.
  - apply wp_run in Hw as (u & p' & Hr & Hinv & _). unfold sample_pool_cached. rewrite Hr. exact Hinv.
Qed.

(** The hashes of a prompt that extends the cached one by an uncached block. *)
Definition sample_hashes : list bytes := [[x01; x0a]; [x01; x1a]; [x01; x05]].
