(* ===== verification/HashingSpec.v ===== *)
(** * Properties of block hashing

    The contract of the hashing component: keys round-trip, the hasher maintains
    the hash chain, equal hashes mean equal prefixes, and merged hashes keep that
    guarantee.  The last section records two inputs on which the extra keys fail
    to tell blocks apart. *)

From S2P Require Import Prelude Request Hashing HashingLemmas Samples.
From Stdlib Require Import Strings.Byte.
Local Open Scope Z_scope.

(** ** Block keys *)

(** Packing a hash with a group id is total on 32-bit group ids, raises
    [OverflowError] outside them, and both components can be unpacked again. *)
Theorem block_key_roundtrip (h : bytes) (g : Z) :
  match make_block_hash_with_group_id h g with
  | Ok k => 0 <= g < 2 ^ 32 /\ get_block_hash k = h /\ get_group_id k = g
  | Err e => e = OverflowError /\ ~ (0 <= g < 2 ^ 32)
  end.
Proof.
  destruct (decide (0 <= g < 2 ^ 32)) as [Hg|Hg].
  - rewrite make_key_in_range by done. split; [done|].
    by apply key_parts, make_key_in_range.
  - unfold make_block_hash_with_group_id, to_bytes_be. change (256 ^ Z.of_nat 4) with (2 ^ 32).
    by replace ((0 <=? g) && (g <? 2 ^ 32)) with false by lia.
Qed.

(** ** The hash chain of a request *)

(** [Request.__init__] hashes every full block of the prompt: it raises only
    when the parameters or the prompt are rejected, and otherwise
    [block_hashes] is the reference hash chain. *)
Theorem request_init_hashes sha256 h none now bs lo (e : EngineCoreRequest) :
  0 < bs -> mm_wf lo (default [] (ec_mm_features e)) ->
  match request_init now (Some (request_block_hasher sha256 h none bs)) e with
  | Ok r => hashes_ok sha256 h none bs r /\ all_token_ids r = default (zreplicate (num_prompt_tokens r) 0) (ec_prompt_token_ids e)
            /\ output_token_ids r = [] /\ num_computed_tokens r = 0 /\ mm_features r = default [] (ec_mm_features e)
  | Err x =>
      init_params (ec_sampling_params e) (ec_pooling_params e) (from_sampling_params (ec_sampling_params e)) = Err x
      \/ length_from_prompt_token_ids_or_embeds (ec_prompt_token_ids e) (ec_prompt_embeds e) = Err x
  end.
Proof.
  intros Hbs Hwf. unfold request_init.
  set (so := _ <$> from_sampling_params _).
  assert (Hp : init_params (ec_sampling_params e) (ec_pooling_params e) so
    = init_params (ec_sampling_params e) (ec_pooling_params e) (from_sampling_params (ec_sampling_params e))).
  { unfold so. by destruct (ec_pooling_params e), (ec_sampling_params e), (from_sampling_params _). }
  rewrite <-Hp. unfold mbind, res_bind.
  destruct (init_params _ _ so) as [[[mt st] kv]|x]; [|simpl; by left].
  destruct (length_from_prompt_token_ids_or_embeds _ _) as [n|x]; [|simpl; by right].
  set (r := mkRequest _ _ _ _ _ _ _ _ _ _ _ _ _ _ _ _ _ _ _ _ _ _ _ _ _ _ _ _ _ _ _ _ _ _).
  assert (Hw : wp (update_block_hashes (Some (request_block_hasher sha256 h none bs))) (fun _ r' =>
    hashes_ok sha256 h none bs r' /\ exists m, r' = set_block_hashes (fun _ => block_hashes r')
      (set_prompt_embeds_per_block_hashes (fun _ => m) r)) r).
  { apply (update_block_hashes_wp sha256 h none lo bs 0); try done; lia. }
  apply wp_run in Hw as ([] & r' & -> & Hok & m & Hr'). split; [done|]. by rewrite Hr'.
Qed.

Lemma request_init_hashes_witness :
  let e := toy_request "a" [1; 2; 3; 4; 5; 6; 7; 8; 9]
             [mkFeature (Some "img"%string) "image" (mkPlaceholderRange 1 5 None)] None None in
  hashes_ok toy_sha256 toy_hash [x00] 4 (res_get (bare_request "" []) (toy_init toy_hash 4 e))
  /\ zlen (block_hashes (res_get (bare_request "" []) (toy_init toy_hash 4 e))) = 2.
Proof.
  split; [|vm_compute; reflexivity].
  exact (proj1 (request_init_hashes toy_sha256 toy_hash [x00] 0 4 0
    (toy_request "a" [1; 2; 3; 4; 5; 6; 7; 8; 9]
       [mkFeature (Some "img"%string) "image" (mkPlaceholderRange 1 5 None)] None None)
    ltac:(lia) ltac:(vm_compute; naive_solver lia))).
Defined.

(** [append_output_token_ids] keeps every full block hashed: if the
    multimodal inputs before the last one end in already hashed blocks, the
    update raises nothing, extends both token lists by the new tokens, only adds
    hashes, and [block_hashes] is again the whole reference chain. *)
Theorem append_keeps_hashes sha256 h none lo bs toks r :
  0 < bs -> mm_wf lo (mm_features r) -> hashes_ok sha256 h none bs r ->
  Forall (fun f => mm_end f <= Z.of_nat (num_full_blocks bs r) * bs) (removelast (mm_features r)) ->
  exists r',
    append_output_token_ids (Some (request_block_hasher sha256 h none bs)) toks r = (Ok tt, r')
    /\ hashes_ok sha256 h none bs r'
    /\ all_token_ids r' = all_token_ids r ++ toks
    /\ output_token_ids r' = output_token_ids r ++ toks
    /\ block_hashes r `prefix_of` block_hashes r'.
Proof.
  intros Hbs Hwf Hok Hmm.
  pose proof (append_output_token_ids_wp sha256 h none lo bs toks r Hbs Hwf Hok ltac:(by right)) as Hw.
  apply wp_run in Hw as ([] & r' & Hr & ? & ? & ? & ? & _). by exists r'.
Qed.

Lemma append_keeps_hashes_witness :
  exists r', append_output_token_ids (Some (request_block_hasher toy_sha256 toy_hash [x00] 4)) [7; 8; 9]
      (set_block_hashes (fun _ => [toy_hash ([x00], [1; 2; 3; 4], None)]) (bare_request "a" [1; 2; 3; 4; 5; 6]))
      = (Ok tt, r')
    /\ hashes_ok toy_sha256 toy_hash [x00] 4 r'.
Proof.
  destruct (append_keeps_hashes toy_sha256 toy_hash [x00] 0 4 [7; 8; 9]
    (set_block_hashes (fun _ => [toy_hash ([x00], [1; 2; 3; 4], None)]) (bare_request "a" [1; 2; 3; 4; 5; 6])))
    as (r' & Hr & Hok & _).
  - lia.
  - exact I.
  - split; [vm_compute; reflexivity|]. intros ???? [=].
  - constructor.
  - exists r'. split; [exact Hr|exact Hok].
Defined.

(** ** Hashes identify prefixes *)

Section Hashed.
Context (sha256 : bytes -> bytes) (h : hash_input -> bytes) (none : bytes) (bs : Z).
Local Abbreviation hasher := (request_block_hasher sha256 h none bs).

(** A request made by [Request.__init__] and extended by [append_output_token_ids], its
    multimodal inputs in order and disjoint; tokens are appended when the inputs before
    the last one end in hashed blocks. *)
Inductive hashed : Request -> Prop :=
| hashed_init now e r : mm_wf 0 (default [] (ec_mm_features e)) -> request_init now (Some hasher) e = Ok r -> hashed r
| hashed_append toks r r' : hashed r -> Forall (fun f => mm_end f <= Z.of_nat (num_full_blocks bs r) * bs) (removelast (mm_features r)) ->
    append_output_token_ids (Some hasher) toks r = (Ok tt, r') -> hashed r'.

Lemma hashed_ok r : 0 < bs -> hashed r -> hashes_ok sha256 h none bs r /\ mm_wf 0 (mm_features r).
Proof.
  intros Hbs. induction 1 as [now e r Hwf Hr|toks r r' Hr [Hok Hwf] Hmm Hr'].
  - pose proof (request_init_hashes sha256 h none now bs 0 e Hbs Hwf) as H. rewrite Hr in H. by destruct H as (? & _ & _ & _ & ->).
  - pose proof (append_output_token_ids_wp sha256 h none 0 bs toks r Hbs Hwf Hok (or_intror Hmm)) as Hw.
    apply wp_run in Hw as ([] & r1 & Hr1 & ? & _ & _ & _ & Hf). rewrite Hr' in Hr1. injection Hr1 as <-. by rewrite Hf.
Qed.

Lemma hashed_lookup r i x : 0 < bs -> hashed r -> block_hashes r !! i = Some x -> x = block_hash_spec sha256 h none r bs i.
Proof.
  intros Hbs Hr Hx. destruct (hashed_ok r Hbs Hr) as [[Hup _] _]. unfold hashes_upto in Hup. rewrite Hup in Hx. apply list_lookup_fmap_Some in Hx as (k & -> & Hk).
  by apply lookup_seq in Hk as [-> _].
Qed.

(** C35: if two requests made by [Request.__init__] and extended by
    [append_output_token_ids] ([hashed]: multimodal inputs in order, those before the
    last in hashed blocks when tokens are appended) have the same hash in their
    [block_hashes] at [i] and [j], and no two of the inputs that were hashed for these
    blocks and the blocks before them collide, then [i = j], and the requests have the
    same tokens up to the end of the block, the same multimodal inputs at the same
    places in each of these blocks, and, beyond the first block, the same LoRA adapter
    and the same cache salt (in the first block an adapter and a salt of the same name
    are confused, [lora_salt_collision]). *)
Theorem equal_hash_equal_prefix I r1 r2 (i j : nat) x :
  0 < bs -> collision_free_on I h none -> hashed r1 -> hashed r2 ->
  inputs_in sha256 h none I r1 bs (S i) -> inputs_in sha256 h none I r2 bs (S j) ->
  block_hashes r1 !! i = Some x -> block_hashes r2 !! j = Some x ->
  i = j
  /\ take (S i * Z.to_nat bs) (all_token_ids r1) = take (S i * Z.to_nat bs) (all_token_ids r2)
  /\ (forall l, (l <= i)%nat ->
        mm_keys_spec (mm_features r1) (Z.of_nat l * bs) (Z.of_nat l * bs + bs)
        = mm_keys_spec (mm_features r2) (Z.of_nat l * bs) (Z.of_nat l * bs + bs))
  /\ ((1 <= i)%nat ->
        gen_lora_extra_hash_keys r1 = gen_lora_extra_hash_keys r2
        /\ cache_salt_keys r1 0 = cache_salt_keys r2 0).
Proof.
  intros Hbs Hcf Hr1 Hr2 H1 H2 ->%(hashed_lookup r1 _ _ Hbs Hr1) Heq%(hashed_lookup r2 _ _ Hbs Hr2).
  destruct (block_hash_spec_inj _ _ _ _ Hcf r1 r2 bs i j H1 H2 Heq) as [<- Hl]. split; [done|].
  assert (Hstr : forall l, (l <= i)%nat ->
    gen_lora_extra_hash_keys r1 ++ cache_salt_keys r1 (Z.of_nat l * bs)
    = gen_lora_extra_hash_keys r2 ++ cache_salt_keys r2 (Z.of_nat l * bs)).
  { intros l Hle. destruct (Hl l Hle) as [_ Hk]. unfold block_keys in Hk.
    rewrite <-!(keys_spec_str sha256 _ _ (Z.of_nat l * bs + bs)). by rewrite Hk. }
  split_and!.
  - apply block_tokens_prefix; [done|]. intros l Hle. by apply Hl.
  - intros l Hle. destruct (Hl l Hle) as [_ Hk]. rewrite <-!(keys_spec_mm sha256).
    unfold block_keys in Hk. by rewrite Hk.
  - intros Hi. pose proof (Hstr 1%nat Hi) as E1. pose proof (Hstr 0%nat ltac:(lia)) as E0.
    assert (Hs : forall r, cache_salt_keys r (Z.of_nat 1 * bs) = []).
    { intros r. unfold cache_salt_keys. destruct (cache_salt r); [|done].
      by replace (Z.of_nat 1 * bs =? 0) with false by lia. }
    rewrite !Hs, !app_nil_r in E1. split; [done|]. simpl in E0. rewrite E1 in E0.
    by apply app_inv_head in E0.
Qed.
End Hashed.

(** The inputs hashed for the first two blocks of the sample requests. *)
Definition sample_inputs (x : hash_input) : Prop :=
  x = ([x00], [1; 2; 3; 4], None)
  \/ x = (toy_sum_hash ([x00], [1; 2; 3; 4], None), [5; 6; 7; 8], None).

Lemma sample_collision_free : collision_free_on sample_inputs toy_sum_hash [x00].
Proof.
  split.
  - intros x y [-> | ->] [-> | ->]; vm_compute; congruence.
  - intros x _; vm_compute; congruence.
  - intros x [-> | ->]; vm_compute; congruence.
Qed.

Lemma sample_inputs_in tl : tl = [9] \/ tl = [5; 5] ->
  inputs_in toy_sha256 toy_sum_hash [x00] sample_inputs (sample_request tl) 4 2.
Proof.
  intros [-> | ->] [|[|i]] Hi; try lia; [left|right|left|right]; vm_compute; reflexivity.
Qed.

(** Two requests of the same nine prompt tokens, the second with two output tokens. *)
Lemma equal_hash_equal_prefix_witness :
  let e id := toy_request id [1; 2; 3; 4; 5; 6; 7; 8; 9] [] None None in
  exists r1 r2 r2', toy_init toy_sum_hash 4 (e "a"%string) = Ok r1 /\ toy_init toy_sum_hash 4 (e "b"%string) = Ok r2
    /\ append_output_token_ids (Some (request_block_hasher toy_sha256 toy_sum_hash [x00] 4)) [5; 5] r2 = (Ok tt, r2')
    /\ take 8 (all_token_ids r1) = take 8 (all_token_ids r2').
Proof.
  cbv zeta. eexists _, _, _. split; [vm_compute; reflexivity|]. split; [vm_compute; reflexivity|]. split; [vm_compute; reflexivity|].
  match goal with |- take 8 (all_token_ids ?a) = take 8 (all_token_ids ?b) =>
    destruct (equal_hash_equal_prefix toy_sha256 toy_sum_hash [x00] 4 sample_inputs a b 1 1 [x01; x1a]) as (_ & H & _); [..|exact H] end.
  - lia.
  - apply sample_collision_free.
  - eapply (hashed_init _ _ _ _ 0 (toy_request "a" [1; 2; 3; 4; 5; 6; 7; 8; 9] [] None None)); [exact I|vm_compute; reflexivity].
  - eapply (hashed_append _ _ _ _ [5; 5]); [eapply (hashed_init _ _ _ _ 0 (toy_request "b" [1; 2; 3; 4; 5; 6; 7; 8; 9] [] None None)); [exact I|vm_compute; reflexivity]|constructor|vm_compute; reflexivity].
  - intros [|[|i]] Hi; try lia; [left|right]; vm_compute; reflexivity.
  - intros [|[|i]] Hi; try lia; [left|right]; vm_compute; reflexivity.
  - vm_compute. reflexivity.
  - vm_compute. reflexivity.
Defined.

(** A list of merged hashes has one entry per full target block, and each is
    the concatenation of the corresponding hashes; the constructor accepts
    exactly the multiples of the hash block size. *)
Theorem merged_hashes_correct (hs : list bytes) (hash_block_size target_block_size : Z) :
  0 < hash_block_size -> 0 < target_block_size ->
  match bhl_init hs hash_block_size target_block_size with
  | Ok b =>
      let s := Z.to_nat (target_block_size / hash_block_size) in
      target_block_size mod hash_block_size = 0
      /\ bhl_len b = Ok (Z.of_nat (length hs / s))
      /\ bhl_iter b = Ok (merged hs s <$> seq 0 (length hs / s))
      /\ forall i : nat, (i < length hs / s)%nat -> get_value_at b (Z.of_nat i) = Ok (merged hs s i)
  | Err e => e = AssertionError /\ target_block_size mod hash_block_size <> 0
  end.
Proof.
  intros Hh Ht. unfold bhl_init, py_mod, py_floordiv. replace (hash_block_size =? 0) with false by lia.
  simpl. destruct (target_block_size mod hash_block_size =? 0) eqn:E; simpl; [|split; [done|lia]].
  set (s := target_block_size / hash_block_size).
  assert (Hs : 0 < s).
  { subst s. pose proof (Z.div_mod target_block_size hash_block_size ltac:(lia)). nia. }
  assert (Hdiv : zlen hs / s = Z.of_nat (length hs / Z.to_nat s)).
  { unfold zlen. rewrite Nat2Z.inj_div. by rewrite Z2Nat.id by lia. }
  rewrite bhl_len_eq, bhl_iter_spec by done. simpl. rewrite Hdiv, Nat2Z.id. split_and!; try done; [lia|].
  intros i Hi. rewrite get_value_at_spec; simpl; [by rewrite Nat2Z.id|lia|lia|].
  unfold zlen in *. pose proof (Z.mul_div_le (Z.of_nat (length hs)) s Hs). nia.
Qed.

Lemma merged_hashes_correct_witness :
  bhl_init [[x01]; [x02]; [x03]; [x04]; [x05]] 16 32
    = Ok (mkBlockHashList [[x01]; [x02]; [x03]; [x04]; [x05]] 2)
  /\ bhl_iter (mkBlockHashList [[x01]; [x02]; [x03]; [x04]; [x05]] 2) = Ok [[x01; x02]; [x03; x04]].
Proof.
  pose proof (merged_hashes_correct [[x01]; [x02]; [x03]; [x04]; [x05]] 16 32 ltac:(lia) ltac:(lia)) as H.
  split; [reflexivity|]. exact (proj1 (proj2 (proj2 H))).
Defined.

(** With hashes of one length, a merged hash identifies the prefix up to the
    end of its coarser block, as the underlying hashes do. *)
Theorem merged_hash_equal_prefix sha256 h none I bs (s : nat) (L : nat) r1 r2 (n1 n2 i : nat) :
  0 < bs -> (0 < s)%nat -> collision_free_on I h none -> (forall x, I x -> length (h x) = L) ->
  inputs_in sha256 h none I r1 bs n1 -> inputs_in sha256 h none I r2 bs n2 ->
  hashes_upto sha256 h none r1 bs n1 -> hashes_upto sha256 h none r2 bs n2 ->
  (S i * s <= n1)%nat -> (S i * s <= n2)%nat ->
  merged (block_hashes r1) s i = merged (block_hashes r2) s i ->
  take (S i * s * Z.to_nat bs) (all_token_ids r1) = take (S i * s * Z.to_nat bs) (all_token_ids r2).
Proof.
  intros Hbs Hs Hcf HL H1 H2 U1 U2 Hi1 Hi2 Hm.
  assert (Hgroup : forall r n, inputs_in sha256 h none I r bs n -> hashes_upto sha256 h none r bs n ->
    (S i * s <= n)%nat ->
    take s (drop (i * s) (block_hashes r)) = block_hash_spec sha256 h none r bs <$> seq (i * s) s).
  { intros r n _ -> Hn. rewrite <-fmap_drop, <-fmap_take. f_equal.
    rewrite drop_seq, take_seq. f_equal; lia. }
  unfold merged in Hm. rewrite (Hgroup r1 n1), (Hgroup r2 n2) in Hm by done.
  assert (Hlen : forall r n, inputs_in sha256 h none I r bs n -> (S i * s <= n)%nat ->
    Forall (fun x => length x = L) (block_hash_spec sha256 h none r bs <$> seq (i * s) s)).
  { intros r n Hin Hn. apply Forall_fmap, Forall_forall. intros l Hl%elem_of_seq. simpl.
    rewrite (spec_input _ _ _ _ Hcf r bs n l Hin) by lia. apply HL, Hin. lia. }
  apply (concat_inj_len L) in Hm; [|by rewrite !length_fmap|by eapply Hlen..].
  assert (Hlast : block_hash_spec sha256 h none r1 bs (S i * s - 1) = block_hash_spec sha256 h none r2 bs (S i * s - 1)).
  { apply (f_equal (fun l => l !! (s - 1)%nat)) in Hm. rewrite !list_lookup_fmap in Hm.
    rewrite lookup_seq_lt in Hm by lia. simpl in Hm. injection Hm as Hm.
    by replace (S i * s - 1)%nat with (i * s + (s - 1))%nat by lia. }
  apply (block_hash_spec_inj _ _ _ _ Hcf) in Hlast as [_ Hl];
    [|eapply inputs_in_le; [done|lia]..].
  replace (S i * s)%nat with (S (S i * s - 1)) by lia.
  apply block_tokens_prefix; [done|]. intros l Hle. by apply Hl.
Qed.

Lemma merged_hash_equal_prefix_witness :
  take 8 (all_token_ids (sample_request [9]))
  = take 8 (all_token_ids (sample_request [5; 5])).
Proof.
  apply (merged_hash_equal_prefix toy_sha256 toy_sum_hash [x00] sample_inputs 4 2 2 _ _ 2 2 0).
  - lia.
  - lia.
  - apply sample_collision_free.
  - intros x _. reflexivity.
  - apply sample_inputs_in. by left.
  - apply sample_inputs_in. by right.
  - vm_compute. reflexivity.
  - vm_compute. reflexivity.
  - lia.
  - lia.
  - vm_compute. reflexivity.
Defined.

(** ** Inputs the extra keys do not tell apart *)

(** A prompt of seven tokens whose second block of four holds two one-token
    images, the first of which is [img]. *)
Definition two_images (img : string) : EngineCoreRequest :=
  toy_request "a" [1; 2; 3; 4; 5; 6; 7]
    [mkFeature (Some img) "image" (mkPlaceholderRange 4 1 None);
     mkFeature (Some "second"%string) "image" (mkPlaceholderRange 5 1 None)] None None.

(** The side condition of [append_keeps_hashes] is needed.  When the block
    completed by a generated token holds two multimodal inputs, the hasher starts
    at the last one ([curr_mm_idx = -1]) and leaves the other out of the keys: two
    prompts with different images get the same hash, for every hash function. *)
Theorem mm_shortcut_misses_input (h : hash_input -> bytes) :
  let r img := run_append h 4 [9] (res_get (bare_request "" []) (toy_init h 4 (two_images img))) in
  block_hashes (r "cat"%string) = block_hashes (r "dog"%string)
  /\ zlen (block_hashes (r "cat"%string)) = 2
  /\ mm_keys_spec (mm_features (r "cat"%string)) 4 8 <> mm_keys_spec (mm_features (r "dog"%string)) 4 8.
Proof. vm_compute. split_and!; [reflexivity|reflexivity|discriminate]. Qed.

(** A LoRA name and a cache salt are both bare strings in the key tuple of the
    first block: a request for an adapter and a request for the base model whose
    salt is the adapter's name get the same hash, for every hash function. *)
Theorem lora_salt_collision (h : hash_input -> bytes) (name : string) :
  name <> EmptyString ->
  let a := toy_request "a" [1; 2; 3; 4] [] (Some (mkLoRARequest name 1)) None in
  let b := toy_request "b" [1; 2; 3; 4] [] None (Some name) in
  block_hashes (res_get (bare_request "" []) (toy_init h 4 a))
  = block_hashes (res_get (bare_request "" []) (toy_init h 4 b)).
Proof. destruct name as [|c name]; [done|]. intros _. reflexivity. Qed.

Lemma lora_salt_collision_witness :
  block_hashes (res_get (bare_request "" []) (toy_init toy_hash 4
    (toy_request "a" [1; 2; 3; 4] [] (Some (mkLoRARequest "tenant" 1)) None)))
  = block_hashes (res_get (bare_request "" []) (toy_init toy_hash 4
    (toy_request "b" [1; 2; 3; 4] [] None (Some "tenant"%string)))).
Proof. apply (lora_salt_collision toy_hash "tenant"). discriminate. Defined.
