(* ===== verification/BlockPoolSpec.v ===== *)
(** * Properties of the block pool

    The pool as a state machine: its clients allocate, share, free, cache, evict
    and reset in any order, and the pool keeps one invariant.  Then the functional
    behaviour of each operation. *)

From S2P Require Import Prelude FreeQueue Request Hashing HashingLemmas BlockPool BlockPoolLemmas Samples.
From Stdlib Require Import QArith Strings.Byte.
Local Open Scope Z_scope.

(** ** The pool and its clients *)

(** [held] lists the references the clients hold, with multiplicity. *)
Inductive pool_step (use_int : bool) (sha256 : bytes -> bytes) : BlockPool * list ref -> BlockPool * list ref -> Prop :=
  | step_alloc p held (n : nat) ret p'
      (Hrun : get_new_blocks use_int (Z.of_nat n) p = (Ok ret, p')) :
      pool_step use_int sha256 (p, held) (p', ret ++ held)
  | step_alloc_fail p held (n : nat) e p'
      (Hrun : get_new_blocks use_int (Z.of_nat n) p = (Err e, p')) :
      pool_step use_int sha256 (p, held) (p', held)
  | step_touch p held bs r p'
      (Hbs : Forall (pool_usable p) bs) (Hrun : touch bs p = (r, p')) :
      pool_step use_int sha256 (p, held) (p', bs ++ held)
  | step_free p held held' bs r p'
      (Hnd : NoDup bs) (Hbs : Forall (pool_usable p) bs) (Hheld : held ≡ₚ bs ++ held')
      (Hrun : free_blocks bs p = (r, p')) :
      pool_step use_int sha256 (p, held) (p', held')
  | step_evict p held ids r p'
      (Hids : Forall (fun id => 0 <= id < num_gpu_blocks p) ids) (Hrun : evict_blocks use_int ids p = (r, p')) :
      pool_step use_int sha256 (p, held) (p', held)
  | step_reset p held r p' (Hrun : reset_prefix_cache p = (r, p')) :
      pool_step use_int sha256 (p, held) (p', held)
  | step_cache p held request blocks hs nc nf bs gid r p'
      (* a block table of the clients, uncached from position [nc] on *)
      (Hnc : 0 <= nc) (Hnf : nf <= zlen blocks) (Hgid : 0 <= gid < 2 ^ 32)
      (Hnd : NoDup blocks) (Hbs : Forall (pool_usable p) blocks)
      (Hnew : forall r, r ∈ py_slice blocks nc nf -> block_hash_in p r = None)
      (Hhs : hashes_at request (hash_block_size p) bs = Ok hs) (Hlen : nf <= zlen hs)
      (Hlenr : nf <= zlen (block_hashes request)) (Hev : enable_kv_cache_events p = false)
      (Hrun : cache_full_blocks use_int sha256 request blocks nc nf bs gid p = (r, p')) :
      pool_step use_int sha256 (p, held) (p', held).

Definition holds (held : list ref) : ref -> nat := fun r => occ r held.

Lemma wp_result {S A} (m : M S A) (Q : A -> S -> Prop) s r s' :
  wp m Q s -> m s = (r, s') -> exists a, r = Ok a /\ Q a s'.
Proof. intros (a & s2 & E & HQ)%wp_run Hm. rewrite E in Hm. injection Hm as <- <-. by exists a. Qed.

Lemma inv_own_ext p fl own own' :
  (forall r, own' r = own r) -> pool_inv p fl own -> pool_inv p fl own'.
Proof.
  intros Ho [Hc Hf]. split; [eapply core_own_ext; [|done]; auto|]. intros r. rewrite Ho. apply Hf.
Qed.

Lemma py_slice_elem {A} (l : list A) lo hi x : 0 <= lo -> 0 <= hi -> x ∈ py_slice l lo hi -> x ∈ l.
Proof.
  intros Hlo Hhi. rewrite py_slice_nonneg by done. intros [i Hi]%list_elem_of_lookup.
  apply lookup_take_Some in Hi as [Hi _]. rewrite lookup_drop in Hi. by eapply list_elem_of_lookup_2.
Qed.

Lemma nodup_slice_unique {A} (l : list A) lo hi i j x : 0 <= lo -> 0 <= hi -> NoDup l ->
  py_slice l lo hi !! i = Some x -> py_slice l lo hi !! j = Some x -> i = j.
Proof.
  intros Hlo Hhi Hnd. rewrite py_slice_nonneg by done. intros [Hi _]%lookup_take_Some [Hj _]%lookup_take_Some.
  rewrite lookup_drop in Hi, Hj. pose proof (NoDup_lookup _ _ _ _ Hnd Hi Hj). lia.
Qed.

Lemma usable_or_null p bs : Forall (pool_usable p) bs -> forall r, r ∈ bs -> pool_usable p r \/ r = Blk 0.
Proof. intros Hbs r Hr. left. by eapply Forall_forall in Hbs. Qed.

Lemma pool_step_inv use_int sha256 p held p' held' :
  pool_step use_int sha256 (p, held) (p', held') ->
  (exists fl, pool_inv p fl (holds held)) -> exists fl', pool_inv p' fl' (holds held').
Proof.
  intros Hstep [fl Hinv]. inversion Hstep; subst; clear Hstep.
  - destruct (decide (n <= length fl)%nat) as [Hn|Hn].
    + destruct (wp_result _ _ _ _ _ (get_new_blocks_wp use_int p fl _ n Hinv Hn) Hrun) as (a & [= <-] & _ & Hinv' & _).
      eexists. eapply inv_own_ext; [|exact Hinv']. intros r. unfold holds, own_add. rewrite occ_app. lia.
    + by rewrite (get_new_blocks_error use_int p fl _ _ (proj1 Hinv)) in Hrun by (unfold zlen; lia).
  - destruct (decide (n <= length fl)%nat) as [Hn|Hn].
    + by destruct (wp_result _ _ _ _ _ (get_new_blocks_wp use_int p fl _ n Hinv Hn) Hrun) as (a & [=] & _).
    + rewrite (get_new_blocks_error use_int p fl _ _ (proj1 Hinv)) in Hrun by (unfold zlen; lia).
      injection Hrun as _ <-. by exists fl.
  - destruct (wp_result _ _ _ _ _ (touch_wp p fl _ bs Hinv (usable_or_null _ _ Hbs)) Hrun) as (a & _ & Hinv' & _).
    eexists. eapply inv_own_ext; [|exact Hinv']. intros r'. unfold holds, own_add. rewrite occ_app. lia.
  - assert (Hocc : forall r, holds held r = (occ r bs + occ r held')%nat).
    { intros r'. unfold holds. by rewrite Hheld, occ_app. }
    pose proof (free_blocks_wp p fl (holds held) bs Hinv (usable_or_null _ _ Hbs)) as Hw.
    destruct (wp_result _ _ _ _ _ (Hw ltac:(intros r' _; rewrite Hocc; pose proof (occ_NoDup r' bs Hnd); lia)) Hrun)
      as (a & _ & Hinv' & _).
    eexists. eapply inv_own_ext; [|exact Hinv']. intros r'. unfold own_sub. rewrite Hocc. unfold holds. lia.
  - destruct (wp_result _ _ _ _ _ (evict_blocks_wp use_int p fl _ ids Hinv Hids) Hrun) as (a & _ & Hinv' & _). by exists fl.
  - destruct (wp_result _ _ _ _ _ (reset_prefix_cache_wp p fl _ Hinv) Hrun) as (a & _ & _ & Hinv' & _). by exists fl.
  - destruct (decide (nf <= nc)) as [Hle|Hle].
    { revert Hrun. unfold cache_full_blocks. replace (nf <=? nc) with true by lia. intros [= _ <-]. by exists fl. }
    assert (Huniq : forall i j r, py_slice blocks nc nf !! i = Some r -> py_slice blocks nc nf !! j = Some r ->
      pool_usable p r -> i = j) by (intros i j r' Hi Hj _; eapply nodup_slice_unique; [| |exact Hnd|exact Hi|exact Hj]; lia).
    pose proof (cache_full_blocks_wp use_int sha256 p fl _ request blocks hs nc nf bs gid Hinv Hnc Hnf Hgid
      (usable_or_null _ _ Hbs) ltac:(intros; auto) Huniq Hhs Hlen Hlenr ltac:(congruence)) as Hw.
    destruct (wp_result _ _ _ _ _ Hw Hrun) as (a & _ & Hinv' & _). by exists fl.
Qed.

(** ** The invariant of every reachable state *)

(** C34: whatever sequence of operations the clients perform on a new pool, the
    free queue is a well-formed list that holds exactly the blocks nobody holds,
    every reference count is the number of references held, free and held blocks
    together are all blocks but the null block, and the cache maps a key to a
    block exactly when the block carries that key. *)
Theorem pool_reachable_inv use_int sha256 n caching hbs ev m p0 p held :
  pool_init n caching hbs ev m = Ok p0 ->
  rtc (pool_step use_int sha256) (p0, []) (p, held) ->
  exists fl,
    queue_repr (free_block_queue p) fl
    /\ (forall r, pool_usable p r -> (r ∈ fl <-> r ∉ held))
    /\ (forall r b, pool_usable p r -> pheap p !! r = Some b -> ref_cnt b = Z.of_nat (occ r held))
    /\ fl ++ remove_dups (filter (pool_usable p) held) ≡ₚ Blk <$> seq 1 (Z.to_nat (num_gpu_blocks p) - 1)
    /\ (forall r k, pool_usable p r ->
          (block_hash_in p r = Some k <-> exists e, cached_block_hash_to_block p !! k = Some e /\ r ∈ entry_refs e)).
Proof.
  intros Hinit Hsteps.
  assert (Hinv : exists fl, pool_inv p fl (holds held)).
  { assert (Hn : 0 < n) by (unfold pool_init in Hinit; destruct (0 <? n) eqn:E; [lia|done]).
    destruct (pool_init_ok n caching hbs ev m Hn) as (p1 & Hp1 & Hinv1 & _). rewrite Hinit in Hp1. injection Hp1 as <-.
    assert (Hgen : forall s s', rtc (pool_step use_int sha256) s s' ->
      (exists fl, pool_inv s.1 fl (holds s.2)) -> exists fl, pool_inv s'.1 fl (holds s'.2)).
    { intros s s'. induction 1 as [|[p2 h2] [p3 h3] s' Hstep _ IH]; [done|].
      intros H2. apply IH. by eapply pool_step_inv. }
    apply (Hgen _ _ Hsteps). by exists (Blk <$> seq 1 (Z.to_nat n - 1)). }
  destruct Hinv as [fl Hinv]. pose proof (inv_fl_nodup _ _ _ Hinv) as Hnd. destruct Hinv as [Hc Hfl].
  assert (Hfree : forall r, pool_usable p r -> (r ∈ fl <-> r ∉ held)).
  { intros r Hr. rewrite Hfl, <-occ_0_iff. unfold holds. tauto. }
  exists fl. split_and!; [apply (pc_repr _ _ _ Hc)|exact Hfree| | |].
  - intros r b Hr Hb. destruct (core_load p fl _ r Hc Hr) as [h HD]. unfold data_of in HD. rewrite Hb in HD.
    by injection HD as _ -> _ _.
  - apply NoDup_Permutation.
    + apply NoDup_app. split_and!; [done| |apply NoDup_remove_dups].
      intros r Hr. rewrite elem_of_remove_dups, list_elem_of_filter. intros [Hu Hh]. by apply Hfree in Hr.
    + apply NoDup_fmap; [by intros ?? [=]|apply NoDup_seq].
    + intros r. rewrite elem_of_app, elem_of_remove_dups, list_elem_of_filter, list_elem_of_fmap.
      setoid_rewrite elem_of_seq. split.
      * intros Hr. assert (Hu : pool_usable p r) by (destruct Hr as [Hr|[Hr _]]; [by apply Hfl|done]).
        destruct Hu as (i & -> & Hi). exists i. split; [done|lia].
      * intros (i & -> & Hi). assert (Hu : pool_usable p (Blk i)) by (exists i; split; [done|lia]).
        destruct (decide (Blk i ∈ held)) as [Hh|Hh]; [by right|left]. by apply Hfree.
  - intros r k Hr. pose proof (pc_blocks _ _ _ Hc) as Hb. split; [by apply (bo_hash _ _ _ _ Hb)|].
    intros (e & He & Hin). by apply (eo_refs _ _ _ _ (bo_cached _ _ _ _ Hb k e He)).
Qed.

Lemma pool_reachable_inv_witness :
  exists fl, queue_repr (free_block_queue (snd (get_new_blocks false 2 sample_pool))) fl
    /\ fl ++ remove_dups (filter (pool_usable (snd (get_new_blocks false 2 sample_pool))) [Blk 1; Blk 2])
       ≡ₚ [Blk 1; Blk 2; Blk 3].
Proof.
  destruct (pool_reachable_inv false (fun b => b) 4 true 2 false None sample_pool
    (snd (get_new_blocks false 2 sample_pool)) ([Blk 1; Blk 2] ++ [])) as (fl & Hq & _ & _ & Hp & _).
  - exact sample_pool_init.
  - apply rtc_once. apply (step_alloc _ _ _ _ 2 [Blk 1; Blk 2]). apply run_eq. vm_compute. reflexivity.
  - exists fl. split; [exact Hq|exact Hp].
Defined.

(** ** Operations *)

(** [get_new_blocks] returns the [k] least recently used free blocks and
    removes them from the free queue; each gets one owner, and with caching
    enabled their old hashes (and no others) leave the cache.  It raises
    [ValueError], changing nothing, exactly when fewer than [k] blocks are free. *)
Theorem get_new_blocks_spec use_int p fl own (k : nat) :
  pool_inv p fl own ->
  if (k <=? length fl)%nat
  then exists p', get_new_blocks use_int (Z.of_nat k) p = (Ok (take k fl), p')
    /\ pool_inv p' (drop k fl) (own_add own (take k fl))
    /\ same_config p p'
    /\ forall r, block_hash_in p' r = if decide (r ∈ take k fl /\ enable_caching p = true) then None else block_hash_in p r
  else get_new_blocks use_int (Z.of_nat k) p = (Err ValueError, p).
Proof.
  intros Hinv. destruct (k <=? length fl)%nat eqn:E.
  - pose proof (get_new_blocks_wp use_int p fl own k Hinv ltac:(lia)) as Hw.
    apply wp_run in Hw as (ret & p' & Hr & -> & ? & ? & ?). by exists p'.
  - eapply get_new_blocks_error; [apply Hinv|]. unfold zlen. lia.
Qed.

Lemma get_new_blocks_spec_witness :
  (exists p', get_new_blocks false 2 sample_pool = (Ok [Blk 1; Blk 2], p'))
  /\ get_new_blocks false 4 sample_pool = (Err ValueError, sample_pool).
Proof.
  split.
  - destruct (get_new_blocks_spec false _ _ _ 2 sample_pool_inv) as (p' & Hr & _). exists p'. exact Hr.
  - exact (get_new_blocks_spec false _ _ _ 4 sample_pool_inv).
Defined.

(** [touch] gives every listed block one more owner per occurrence, takes the
    blocks that were free out of the queue without disturbing the order of the
    others, and never changes a hash. *)
Theorem touch_spec p fl own bs :
  pool_inv p fl own -> (forall r, r ∈ bs -> pool_usable p r \/ r = Blk 0) ->
  exists p', touch bs p = (Ok tt, p')
    /\ pool_inv p' (filter (fun r => r ∉ bs) fl) (own_add own bs)
    /\ same_config p p' /\ forall r, block_hash_in p' r = block_hash_in p r.
Proof.
  intros Hinv Hbs. pose proof (touch_wp p fl own bs Hinv Hbs) as Hw.
  apply wp_run in Hw as ([] & p' & ? & ? & ? & ?). by exists p'.
Qed.

Lemma touch_spec_witness :
  exists p', touch [Blk 2; Blk 2] sample_pool = (Ok tt, p') /\ pool_inv p' [Blk 1; Blk 3] (own_add (fun _ => 0%nat) [Blk 2; Blk 2]).
Proof.
  destruct (touch_spec sample_pool _ _ [Blk 2; Blk 2] sample_pool_inv) as (p' & Hr & Hi & _).
  - intros r Hr. left. apply list_elem_of_In in Hr. simpl in Hr.
    destruct Hr as [<-|[<-|[]]]; exists 2%nat; (split; [reflexivity|]); vm_compute; lia.
  - exists p'. split; [exact Hr|exact Hi].
Defined.

(** [free_blocks] takes one owner from each listed block and appends those
    left without owner to the free queue in the given order; hashes stay, so the
    blocks remain available to cache hits until they are reused. *)
Theorem free_blocks_spec p fl own bs :
  pool_inv p fl own -> (forall r, r ∈ bs -> pool_usable p r \/ r = Blk 0) ->
  (forall r, pool_usable p r -> (occ r bs <= 1)%nat /\ (occ r bs <= own r)%nat) ->
  exists p', free_blocks bs p = (Ok tt, p')
    /\ pool_inv p' (fl ++ filter (fun r => pool_usable p r /\ own r = 1%nat) bs) (own_sub own bs)
    /\ same_config p p' /\ forall r, block_hash_in p' r = block_hash_in p r.
Proof.
  intros Hinv Hbs Hocc. pose proof (free_blocks_wp p fl own bs Hinv Hbs Hocc) as Hw.
  apply wp_run in Hw as ([] & p' & ? & ? & ? & ?). by exists p'.
Qed.

Lemma free_blocks_spec_witness :
  exists p', free_blocks [Blk 2; Blk 1] sample_pool_used = (Ok tt, p')
    /\ pool_inv p' [Blk 3; Blk 2; Blk 1] (own_sub (own_add (fun _ => 0%nat) [Blk 1; Blk 2]) [Blk 2; Blk 1]).
Proof.
  destruct (free_blocks_spec sample_pool_used _ _ [Blk 2; Blk 1] sample_pool_used_inv) as (p' & Hr & Hi & _).
  - intros r Hr. left. apply list_elem_of_In in Hr. simpl in Hr.
    destruct Hr as [<-|[<-|[]]]; eexists; (split; [reflexivity|]); vm_compute; lia.
  - intros r _. unfold own_add. rewrite !occ_cons, !occ_nil. repeat case_decide; simplify_eq; lia.
  - exists p'. split; [exact Hr|exact Hi].
Defined.

(** A key in the cache is found, and a key that no block carries is not. *)
Lemma lookup_carried p fl own h gid r :
  pool_core p fl own -> 0 <= gid < 2 ^ 32 -> pool_usable p r -> block_hash_in p r = Some (key_of h gid) ->
  exists r', get_cached_block p h [gid] = Ok (Some [r']) /\ pool_usable p r' /\ block_hash_in p r' = Some (key_of h gid).
Proof.
  intros Hc Hg Hu Hr. destruct (get_cached_block_ok p fl own h [gid] Hc) as ([rs|] & Ho & Hrs); [by constructor| |].
  - inversion Hrs as [|g r' gs rs' [Hu' Hr'] Hnil]; subst. inversion Hnil; subst. by exists r'.
  - destruct Hrs as (g & ->%list_elem_of_singleton & Hno). by apply Hno in Hu.
Qed.

Lemma lookup_absent p fl own h gids g :
  pool_core p fl own -> Forall (fun g => 0 <= g < 2 ^ 32) gids -> g ∈ gids ->
  (forall r, pool_usable p r -> block_hash_in p r <> Some (key_of h g)) ->
  get_cached_block p h gids = Ok None.
Proof.
  intros Hc Hgs Hg Hno. destruct (get_cached_block_ok p fl own h gids Hc Hgs) as ([rs|] & Ho & Hrs); [|done].
  apply list_elem_of_lookup in Hg as [i Hi].
  destruct (Forall2_lookup_l _ _ _ _ _ Hrs Hi) as (r & _ & Hu & Hr). by apply Hno in Hr.
Qed.

(** [cache_full_blocks] never raises on a table whose new blocks are
    uncached; afterwards every newly full block is found under its own hash: the
    lookup returns a block of the pool that carries the same key.  No owner, no
    position in the free queue and no other block's hash changes. *)
Theorem cache_full_blocks_spec use_int sha256 p fl own request blocks hs nc nf bs gid :
  pool_inv p fl own -> 0 <= nc -> nf <= zlen blocks -> 0 <= gid < 2 ^ 32 ->
  (forall r, r ∈ blocks -> pool_usable p r \/ r = Blk 0) ->
  (forall r, r ∈ py_slice blocks nc nf -> pool_usable p r -> block_hash_in p r = None) ->
  (forall i j r, py_slice blocks nc nf !! i = Some r -> py_slice blocks nc nf !! j = Some r -> pool_usable p r -> i = j) ->
  hashes_at request (hash_block_size p) bs = Ok hs -> nf <= zlen hs -> nf <= zlen (block_hashes request) ->
  (enable_kv_cache_events p = true -> 0 <= bs /\ memo_ok sha256 request /\ exists lo, mm_wf lo (mm_features request)) ->
  exists p', cache_full_blocks use_int sha256 request blocks nc nf bs gid p = (Ok tt, p')
    /\ pool_inv p' fl own /\ same_config p p'
    /\ (forall i r h, nc <= Z.of_nat i < nf -> blocks !! i = Some r -> hs !! i = Some h -> pool_usable p r ->
          block_hash_in p' r = Some (key_of h gid)
          /\ exists r', get_cached_block p' h [gid] = Ok (Some [r']) /\ block_hash_in p' r' = Some (key_of h gid))
    /\ (forall r, r ∉ py_slice blocks nc nf \/ ~ pool_usable p r -> block_hash_in p' r = block_hash_in p r).
Proof.
  intros Hinv Hnc Hnf Hgid Hu Hnone Hdist Hhs Hlen Hlenr Hev.
  pose proof (cache_full_blocks_wp use_int sha256 p fl own request blocks hs nc nf bs gid
    Hinv Hnc Hnf Hgid Hu Hnone Hdist Hhs Hlen Hlenr Hev) as Hw.
  apply wp_run in Hw as ([] & p' & Hrun & Hinv' & Hcf & Hnew & Hold). exists p'. split_and!; try done.
  intros i r h Hi Hr Hh Hur. pose proof (Hnew i r h Hi Hr Hh Hur) as Hk. split; [done|].
  assert (Hur' : pool_usable p' r). { unfold pool_usable. by rewrite (proj1 Hcf). }
  destruct (lookup_carried p' fl own h gid r (proj1 Hinv') Hgid Hur' Hk) as (r' & ? & _ & ?). by exists r'.
Qed.

Lemma cache_full_blocks_spec_witness :
  pool_inv sample_pool_cached [Blk 3] (own_add (fun _ => 0%nat) [Blk 1; Blk 2])
  /\ exists r', get_cached_block sample_pool_cached [x01; x0a] [0] = Ok (Some [r']).
Proof.
  destruct (cache_full_blocks_spec false toy_sha256 sample_pool_used _ _ (sample_request_2 []) [Blk 1; Blk 2]
    [[x01; x0a]; [x01; x1a]] 0 2 2 0 sample_pool_used_inv) as (p' & Hr & Hi & _ & Hnew & _);
    try (vm_compute; congruence).
  - split; [lia|]. vm_compute. congruence.
  - intros r Hr. left. apply list_elem_of_In in Hr. simpl in Hr.
    destruct Hr as [<-|[<-|[]]]; eexists; (split; [reflexivity|]); vm_compute; lia.
  - intros r Hr _. apply list_elem_of_In in Hr. vm_compute in Hr.
    destruct Hr as [<-|[<-|[]]]; vm_compute; reflexivity.
  - intros i j r Hi Hj _. eapply (NoDup_lookup [Blk 1; Blk 2]); [apply (bool_decide_unpack _); reflexivity|exact Hi|exact Hj].
  - unfold sample_pool_cached. rewrite Hr. split; [exact Hi|].
    destruct (Hnew 0%nat (Blk 1) [x01; x0a]) as (_ & r' & Hg & _); [lia|reflexivity|reflexivity| |by exists r'].
    exists 1%nat. split; [reflexivity|]. vm_compute. lia.
Defined.

(** [evict_blocks] removes the cached contents of the listed blocks and
    nothing else: a hash that only evicted blocks carried misses afterwards, in
    every lookup that asks for its group. *)
Theorem evict_blocks_spec use_int p fl own ids :
  pool_inv p fl own -> Forall (fun id => 0 <= id < num_gpu_blocks p) ids ->
  exists p', evict_blocks use_int ids p = (Ok tt, p')
    /\ pool_inv p' fl own /\ same_config p p'
    /\ (forall r, block_hash_in p' r = if decide (idx r ∈ ids) then None else block_hash_in p r)
    /\ (forall h gids g, Forall (fun g => 0 <= g < 2 ^ 32) gids -> g ∈ gids ->
          (forall r, pool_usable p r -> block_hash_in p r = Some (key_of h g) -> idx r ∈ ids) ->
          get_cached_block p' h gids = Ok None).
Proof.
  intros Hinv Hids. pose proof (evict_blocks_wp use_int p fl own ids Hinv Hids) as Hw.
  apply wp_run in Hw as ([] & p' & Hrun & Hinv' & Hcf & Hh). exists p'. split_and!; try done.
  intros h gids g Hgs Hg Hall. apply (lookup_absent p' fl own h gids g (proj1 Hinv') Hgs Hg).
  intros r Hu. rewrite Hh. case_decide as Hin; [done|]. intros Hr. apply Hin, Hall; [|done].
  unfold pool_usable in *. by rewrite (proj1 Hcf) in Hu.
Qed.

Lemma evict_blocks_spec_witness :
  exists p', evict_blocks false [1; 2] sample_pool = (Ok tt, p') /\ pool_inv p' [Blk 1; Blk 2; Blk 3] (fun _ => 0%nat)
    /\ get_cached_block p' [x01; x0a] [0] = Ok None.
Proof.
  destruct (evict_blocks_spec false sample_pool _ _ [1; 2] sample_pool_inv) as (p' & Hr & Hi & _ & _ & Hm).
  - repeat constructor; vm_compute; congruence.
  - exists p'. split; [exact Hr|]. split; [exact Hi|]. apply (Hm _ [0] 0).
    + repeat constructor; vm_compute; congruence.
    + by left.
    + intros r (i & -> & Hi'). assert (i = 1%nat \/ i = 2%nat \/ i = 3%nat) as [-> | [-> | ->]] by (vm_compute in Hi'; lia);
        vm_compute; congruence.
Defined.

(** [reset_prefix_cache] succeeds exactly when every block but the null block
    is free; then no lookup hits any more.  Otherwise it returns [False] and
    changes nothing. *)
Theorem reset_prefix_cache_spec p fl own :
  pool_inv p fl own ->
  if num_gpu_blocks p - 1 =? zlen fl
  then exists p', reset_prefix_cache p = (Ok true, p') /\ pool_inv p' fl own
       /\ forall h g gids, Forall (fun g => 0 <= g < 2 ^ 32) (g :: gids) -> get_cached_block p' h (g :: gids) = Ok None
  else reset_prefix_cache p = (Ok false, p).
Proof.
  intros Hinv. pose proof (reset_prefix_cache_wp p fl own Hinv) as Hw.
  destruct (num_gpu_blocks p - 1 =? zlen fl) eqn:E.
  - apply wp_run in Hw as (ok & p' & Hrun & -> & Hinv' & Hcf & Hh).
    replace (num_gpu_blocks p - zlen fl =? 1) with true in * by lia. exists p'. split_and!; try done.
    intros h g gids Hgs. apply (lookup_absent p' fl own h _ g (proj1 Hinv') Hgs); [by left|].
    intros r Hu. destruct Hh as [_ Hh]. rewrite Hh; [done|]. unfold pool_usable in *. by rewrite (proj1 Hcf) in Hu.
  - unfold reset_prefix_cache, gets, mbind, M_bind, get_num_free_blocks.
    rewrite (repr_num _ _ (pc_repr _ _ _ (proj1 Hinv))).
    replace (num_gpu_blocks p - zlen fl =? 1) with false by lia. done.
Qed.

Lemma reset_prefix_cache_spec_witness :
  (exists p', reset_prefix_cache sample_pool = (Ok true, p')) /\ reset_prefix_cache sample_pool_used = (Ok false, sample_pool_used).
Proof.
  split.
  - destruct (reset_prefix_cache_spec _ _ _ sample_pool_inv) as (p' & Hr & _). exists p'. exact Hr.
  - exact (reset_prefix_cache_spec _ _ _ sample_pool_used_inv).
Defined.

Lemma usage_fraction f t : 0 <= f <= t -> 0 < t ->
  let u := (1 - inject_Z f / inject_Z t)%Q in
  (0 <= u /\ u <= 1)%Q /\ ((u == 0)%Q <-> f = t) /\ ((u == 1)%Q <-> f = 0).
Proof.
  intros Hf Ht. destruct t as [|t|t]; [lia| |lia].
  unfold Qle, Qeq, Qdiv, Qmult, Qinv, inject_Z, Qminus, Qplus, Qopp. cbn [Qnum Qden]. lia.
Qed.

Lemma free_bound p fl own : pool_inv p fl own -> zlen fl <= num_gpu_blocks p - 1.
Proof.
  intros Hinv. pose proof (inv_fl_nodup _ _ _ Hinv) as Hnd. destruct Hinv as [Hc Hfl].
  pose proof (pc_pos _ _ _ Hc) as Hpos.
  assert (Hle : (length fl <= length (Blk <$> seq 1 (Z.to_nat (num_gpu_blocks p) - 1)))%nat).
  { apply submseteq_length, NoDup_submseteq; [done|]. intros r [Hr _]%Hfl. destruct Hr as (i & -> & Hi).
    apply list_elem_of_fmap. exists i. split; [done|]. apply elem_of_seq. lia. }
  rewrite length_fmap, length_seq in Hle. unfold zlen. lia.
Qed.

(** The usage of the pool is a fraction between 0 and 1, 0 exactly when every
    block but the null block is free and 1 exactly when none is. *)
Theorem get_usage_bounds p fl own :
  pool_inv p fl own -> 1 < num_gpu_blocks p ->
  (0 <= get_usage p /\ get_usage p <= 1)%Q
  /\ ((get_usage p == 0)%Q <-> zlen fl = num_gpu_blocks p - 1) /\ ((get_usage p == 1)%Q <-> fl = []).
Proof.
  intros Hinv Hn. pose proof (free_bound _ _ _ Hinv) as Hle. unfold get_usage, get_num_free_blocks.
  rewrite (repr_num _ _ (pc_repr _ _ _ (proj1 Hinv))). replace (num_gpu_blocks p - 1 =? 0) with false by lia.
  destruct (usage_fraction (zlen fl) (num_gpu_blocks p - 1)) as (Hb & H0 & H1); [unfold zlen in *; lia|lia|].
  rewrite H1. split; [exact Hb|split; [exact H0|]]. unfold zlen. rewrite <-length_zero_iff_nil. lia.
Qed.

Lemma get_usage_bounds_witness : (get_usage sample_pool == 0)%Q /\ (get_usage sample_pool_used <= 1)%Q.
Proof.
  split.
  - apply (get_usage_bounds _ _ _ sample_pool_inv); [vm_compute; reflexivity|reflexivity].
  - apply (get_usage_bounds _ _ _ sample_pool_used_inv). vm_compute. reflexivity.
Defined.
