(* ===== verification/SingleType.v ===== *)
(** * Single-type KV cache managers

    [vllm/v1/core/single_type_kv_cache_manager.py]: per attention type, the block
    tables of the requests, how many blocks a request needs, how blocks are
    allocated, cached, freed and skipped, and how the longest cached prefix is
    found.

    A method runs on a pair of the manager and the pool it shares with the other
    managers.  The subclasses of [SingleTypeKVCacheManager] are the constructors
    of [attn_kind]; an overridden method dispatches on the kind.  Block sizes,
    window sizes and chunk sizes are positive, as the configuration enforces. *)

From S2P Require Import Prelude FreeQueue Request Hashing BlockPool.
Local Open Scope Z_scope.

(** ** Specs *)

Inductive mamba_mode := mamba_none | mamba_all | mamba_align.

(** The spec classes of [kv_cache_interface.py] that have a manager. *)
Inductive attn_kind :=
  | FullAttention
  | MLAAttention
  | SlidingWindow (sliding_window : Z)
  | ChunkedLocalAttention (attention_chunk_size : Z)
  | Mamba (mamba_cache_mode : mamba_mode) (num_speculative_blocks : Z)
  | CrossAttention
  | SinkFullAttention (sink_len : Z).

#[export] Instance mamba_mode_eq_dec : EqDecision mamba_mode.
Proof. solve_decision. Defined.
#[export] Instance attn_kind_eq_dec : EqDecision attn_kind.
Proof. solve_decision. Defined.

(** [spec_layout] stands for the fields that only describe the memory layout
    (heads, head size, dtype, page size): they are compared, never computed with. *)
Record KVCacheSpec := mkSpec {
  spec_block_size : Z;
  spec_kind : attn_kind;
  spec_layout : Z
}.

#[export] Instance KVCacheSpec_eq_dec : EqDecision KVCacheSpec.
Proof. solve_decision. Defined.

(** [get_num_skipped_tokens] of each subclass. *)
Definition sw_skipped_tokens (sliding_window num_computed_tokens : Z) : Z :=
  Z.max 0 (num_computed_tokens - sliding_window + 1).
Definition chunked_skipped_tokens (attention_chunk_size num_computed_tokens : Z) : Z :=
  num_computed_tokens / attention_chunk_size * attention_chunk_size.
Definition mamba_skipped_tokens (num_computed_tokens : Z) : Z := num_computed_tokens - 1.

Definition get_num_skipped_tokens (k : attn_kind) (num_computed_tokens : Z) : Z :=
  match k with
  | SlidingWindow w => sw_skipped_tokens w num_computed_tokens
  | ChunkedLocalAttention c => chunked_skipped_tokens c num_computed_tokens
  | Mamba _ _ => mamba_skipped_tokens num_computed_tokens
  | FullAttention | MLAAttention | CrossAttention | SinkFullAttention _ => 0
  end.

(** ** Manager state *)

Record Manager := mkManager {
  block_size : Z;
  kv_cache_spec : KVCacheSpec;
  mgr_enable_caching : bool;
  new_block_ids : list Z;
  req_to_blocks : gmap string (list ref);
  num_cached_block : gmap string Z;
  kv_cache_group_id : Z;
  mgr_null_block : ref;
  (* [SinkFullAttentionManager] *)
  sink_blocks : list ref;
  (* [MambaManager] *)
  cached_blocks_this_step : gset bytes;
  last_state_block_idx : gmap string Z;
  allocated_block_reqs : gset string
}.

Definition set_new_block_ids (f : list Z -> list Z) (m : Manager) : Manager :=
  mkManager (block_size m) (kv_cache_spec m) (mgr_enable_caching m) (f (new_block_ids m)) (req_to_blocks m)
    (num_cached_block m) (kv_cache_group_id m) (mgr_null_block m) (sink_blocks m)
    (cached_blocks_this_step m) (last_state_block_idx m) (allocated_block_reqs m).
Definition set_req_to_blocks (f : gmap string (list ref) -> gmap string (list ref)) (m : Manager) : Manager :=
  mkManager (block_size m) (kv_cache_spec m) (mgr_enable_caching m) (new_block_ids m) (f (req_to_blocks m))
    (num_cached_block m) (kv_cache_group_id m) (mgr_null_block m) (sink_blocks m)
    (cached_blocks_this_step m) (last_state_block_idx m) (allocated_block_reqs m).
Definition set_num_cached_block (f : gmap string Z -> gmap string Z) (m : Manager) : Manager :=
  mkManager (block_size m) (kv_cache_spec m) (mgr_enable_caching m) (new_block_ids m) (req_to_blocks m)
    (f (num_cached_block m)) (kv_cache_group_id m) (mgr_null_block m) (sink_blocks m)
    (cached_blocks_this_step m) (last_state_block_idx m) (allocated_block_reqs m).
Definition set_cached_this_step (f : gset bytes -> gset bytes) (m : Manager) : Manager :=
  mkManager (block_size m) (kv_cache_spec m) (mgr_enable_caching m) (new_block_ids m) (req_to_blocks m)
    (num_cached_block m) (kv_cache_group_id m) (mgr_null_block m) (sink_blocks m)
    (f (cached_blocks_this_step m)) (last_state_block_idx m) (allocated_block_reqs m).
Definition set_last_state (f : gmap string Z -> gmap string Z) (m : Manager) : Manager :=
  mkManager (block_size m) (kv_cache_spec m) (mgr_enable_caching m) (new_block_ids m) (req_to_blocks m)
    (num_cached_block m) (kv_cache_group_id m) (mgr_null_block m) (sink_blocks m)
    (cached_blocks_this_step m) (f (last_state_block_idx m)) (allocated_block_reqs m).
Definition set_allocated_reqs (f : gset string -> gset string) (m : Manager) : Manager :=
  mkManager (block_size m) (kv_cache_spec m) (mgr_enable_caching m) (new_block_ids m) (req_to_blocks m)
    (num_cached_block m) (kv_cache_group_id m) (mgr_null_block m) (sink_blocks m)
    (cached_blocks_this_step m) (last_state_block_idx m) (f (allocated_block_reqs m)).

(** A manager with the shared pool. *)
Definition MP : Type := Manager * BlockPool.
Definition on_pool {A} (m : M BlockPool A) : M MP A := zoom snd (fun p mp => (mp.1, p)) m.
Definition on_mgr (f : Manager -> Manager) : M MP unit := modify (fun mp => (f mp.1, mp.2)).
Definition get_mgr {A} (f : Manager -> A) : M MP A := gets (fun mp => f mp.1).

(** [self.req_to_blocks[request_id]]: a missing key is inserted, empty. *)
Definition req_blocks_of (request_id : string) : M MP (list ref) :=
  bs ← get_mgr (fun m => req_to_blocks m !! request_id) ;
  match bs with
  | Some l => mret l
  | None => on_mgr (set_req_to_blocks <[request_id := []]>) ;; mret []
  end.
(** Mutation of that list. *)
Definition put_req_blocks (request_id : string) (l : list ref) : M MP unit :=
  on_mgr (set_req_to_blocks <[request_id := l]>).

(** [SingleTypeKVCacheManager.__init__] with the [__init__] of the subclasses;
    [world_size] is [dcp_world_size * pcp_world_size]. *)
Definition manager_init (spec : KVCacheSpec) (enable_caching : bool) (kv_cache_group_id world_size : Z)
    : M BlockPool Manager :=
  let bs := if 1 <? world_size then spec_block_size spec * world_size else spec_block_size spec in
  null ← gets null_block ;
  sink ← match spec_kind spec with
         | SinkFullAttention sink_len =>
             py_assert ((0 <? sink_len) && (sink_len mod bs =? 0)) ;;
             queue_op (popleft_n (sink_len / bs))
         | _ => mret []
         end ;
  mret (mkManager bs spec enable_caching [] ∅ ∅ kv_cache_group_id null sink ∅ ∅ ∅).

(** ** The base class *)

Definition num_evictable_blocks (p : BlockPool) (blocks : list ref) : Z :=
  zlen (filter (fun r => releasable p r = true) blocks).

Definition base_num_blocks_to_allocate (request_id : string) (num_tokens : Z)
    (new_computed_blocks : list ref) (total_computed_tokens : Z) (mp : MP) : res Z :=
  let '(m, p) := mp in
  let num_required_blocks := cdiv num_tokens (block_size m) in
  let num_req_blocks := zlen (default [] (req_to_blocks m !! request_id)) in
  match num_cached_block m !! request_id with
  | Some _ =>
      if negb (zlen new_computed_blocks =? 0) then Err AssertionError
      else Ok (Z.max (num_required_blocks - num_req_blocks) 0)
  | None =>
      let num_skipped_tokens := get_num_skipped_tokens (spec_kind (kv_cache_spec m)) total_computed_tokens in
      let num_local_computed_blocks := zlen new_computed_blocks + num_req_blocks in
      let num_skipped_blocks := num_skipped_tokens / block_size m in
      let num_new_blocks :=
        Z.max (num_required_blocks - Z.max num_skipped_blocks num_local_computed_blocks) 0 in
      let num_skipped_new_computed_blocks := Z.max 0 (num_skipped_blocks - num_req_blocks) in
      Ok (num_new_blocks
          + num_evictable_blocks p (py_slice_from new_computed_blocks num_skipped_new_computed_blocks))
  end.

(** [self.new_block_ids.extend(b.block_id for b in blocks)], for full attention. *)
Definition note_new_blocks (blocks : list ref) : M MP unit := fun mp =>
  let '(m, p) := mp in
  match spec_kind (kv_cache_spec m) with
  | FullAttention => (Ok tt, (set_new_block_ids (fun l => l ++ (block_id_in p <$> blocks)) m, p))
  | _ => (Ok tt, mp)
  end.

Section Managers.
Context (use_int : bool) (sha256 : bytes -> bytes).

Definition base_allocate_new_computed_blocks (request_id : string) (new_computed_blocks : list ref)
    (num_local_computed_tokens num_external_computed_tokens : Z) : M MP unit :=
  running ← get_mgr (fun m => num_cached_block m !! request_id) ;
  match running with
  | Some _ => py_assert (zlen new_computed_blocks =? 0)
  | None =>
      req_blocks ← req_blocks_of request_id ;
      py_assert (zlen req_blocks =? 0) ;;
      let num_total_computed_tokens := num_local_computed_tokens + num_external_computed_tokens in
      k ← get_mgr (fun m => spec_kind (kv_cache_spec m)) ;
      bs ← get_mgr block_size ;
      null ← get_mgr mgr_null_block ;
      caching ← get_mgr mgr_enable_caching ;
      let num_skipped_tokens := get_num_skipped_tokens k num_total_computed_tokens in
      let num_skipped_blocks := num_skipped_tokens / bs in
      let '(computed, external) :=
        if 0 <? num_skipped_blocks
        then (py_slice_from new_computed_blocks num_skipped_blocks,
              Z.min (num_total_computed_tokens - num_skipped_tokens) num_external_computed_tokens)
        else (new_computed_blocks, num_external_computed_tokens) in
      (if (caching : bool) then on_pool (touch computed) else py_assert (bool_decide (computed = []))) ;;
      let req_blocks' := req_blocks ++ zreplicate num_skipped_blocks null ++ computed in
      put_req_blocks request_id req_blocks' ;;
      on_mgr (set_num_cached_block <[request_id := zlen req_blocks']>) ;;
      if 0 <? external then
        allocated ← on_pool (get_new_blocks use_int (cdiv num_total_computed_tokens bs - zlen req_blocks')) ;
        put_req_blocks request_id (req_blocks' ++ allocated) ;;
        note_new_blocks allocated
      else mret tt
  end.

Definition base_allocate_new_blocks (request_id : string) (num_tokens : Z) : M MP (list ref) :=
  req_blocks ← req_blocks_of request_id ;
  bs ← get_mgr block_size ;
  let num_new_blocks := cdiv num_tokens bs - zlen req_blocks in
  if num_new_blocks <=? 0 then mret []
  else
    new_blocks ← on_pool (get_new_blocks use_int num_new_blocks) ;
    put_req_blocks request_id (req_blocks ++ new_blocks) ;;
    note_new_blocks new_blocks ;;
    mret new_blocks.

Definition take_new_block_ids : M MP (list Z) :=
  ids ← get_mgr new_block_ids ; on_mgr (set_new_block_ids (fun _ => [])) ;; mret ids.

Definition base_cache_blocks (request : Request) (num_tokens : Z) : M MP unit :=
  num_cached_blocks ← get_mgr (fun m => default 0 (num_cached_block m !! request_id request)) ;
  bs ← get_mgr block_size ;
  gid ← get_mgr kv_cache_group_id ;
  let num_full_blocks := num_tokens / bs in
  if num_full_blocks <=? num_cached_blocks then mret tt
  else
    blocks ← req_blocks_of (request_id request) ;
    on_pool (cache_full_blocks use_int sha256 request blocks num_cached_blocks num_full_blocks bs gid) ;;
    on_mgr (set_num_cached_block <[request_id request := num_full_blocks]>).

Definition base_free (request_id : string) : M MP unit :=
  req_blocks ← get_mgr (fun m => default [] (req_to_blocks m !! request_id)) ;
  on_mgr (set_req_to_blocks (delete request_id)) ;;
  on_pool (free_blocks (reverse req_blocks)) ;;
  on_mgr (set_num_cached_block (delete request_id)).

(** The loop of [remove_skipped_blocks]: the block table with the skipped
    blocks nulled, and the removed blocks. *)
Fixpoint remove_loop (null : ref) (idxs : list Z) (blocks removed : list ref) : list ref * list ref :=
  match idxs with
  | [] => (blocks, removed)
  | i :: idxs' =>
      match blocks !! Z.to_nat i with
      | None => (blocks, removed)
      | Some r => if bool_decide (r = null) then (blocks, removed)
                  else remove_loop null idxs' (py_set blocks i null) (removed ++ [r])
      end
  end.

Definition base_remove_skipped_blocks (request_id : string) (total_computed_tokens : Z) : M MP unit :=
  k ← get_mgr (fun m => spec_kind (kv_cache_spec m)) ;
  bs ← get_mgr block_size ;
  null ← get_mgr mgr_null_block ;
  let num_skipped_tokens := get_num_skipped_tokens k total_computed_tokens in
  if num_skipped_tokens <=? 0 then mret tt
  else
    blocks ← req_blocks_of request_id ;
    let num_skipped_blocks := Z.min (num_skipped_tokens / bs) (zlen blocks) in
    let out := remove_loop null (zrange_down num_skipped_blocks 0) blocks [] in
    put_req_blocks request_id out.1 ;;
    on_pool (free_blocks out.2).

(** ** [MambaManager] *)

Definition mamba_num_blocks_to_allocate (mode : mamba_mode) (spec_blocks : Z) (request_id : string)
    (num_tokens : Z) (new_computed_blocks : list ref) (total_computed_tokens num_tokens_main_model : Z)
    : M MP Z :=
  this_step ← get_mgr cached_blocks_this_step ;
  last_hash ← gets (fun mp => r ← last new_computed_blocks ; b ← pheap mp.2 !! r ; block_hash b) ;
  if match last_hash with Some h => bool_decide (h ∈ this_step) | None => false end
  then gets (fun mp => num_gpu_blocks mp.2 + 1)
  else
    match mode with
    | mamba_align =>
        bs ← get_mgr block_size ;
        req_blocks ← req_blocks_of request_id ;
        old ← get_mgr (fun m => bool_decide (request_id ∈ allocated_block_reqs m)) ;
        let num_required_blocks := cdiv num_tokens_main_model bs + spec_blocks in
        let n := num_required_blocks - zlen new_computed_blocks - zlen req_blocks in
        let num_new_blocks := if 0 <? n then (if (old : bool) then 1 else 1 + spec_blocks) else n in
        gets (fun mp => num_new_blocks + num_evictable_blocks mp.2 new_computed_blocks)
    | _ =>
        sbs ← get_mgr (fun m => spec_block_size (kv_cache_spec m)) ;
        let num_tokens' := if 0 <? spec_blocks then num_tokens + sbs * spec_blocks else num_tokens in
        r ← gets (base_num_blocks_to_allocate request_id num_tokens' new_computed_blocks total_computed_tokens) ;
        lift_res r
    end.

(** The reuse loop of [allocate_new_blocks] in align mode: the speculative
    blocks that are now skipped move to the end of the table. *)
Fixpoint reuse_loop (null : ref) (num_skipped_blocks : Z) (idxs : list Z) (req_blocks : list ref)
    : res (list ref) :=
  match idxs with
  | [] => Ok req_blocks
  | i :: idxs' =>
      if i <? num_skipped_blocks then
        r ← py_get req_blocks i ;
        let j := if i <? 0 then zlen req_blocks + 1 + i else i in
        reuse_loop null num_skipped_blocks idxs' (py_set (req_blocks ++ [r]) j null)
      else Ok req_blocks
  end.

Definition mamba_align_allocate (spec_blocks : Z) (request_id : string) (num_tokens_main_model : Z)
    : M MP (list ref) :=
  req_blocks ← req_blocks_of request_id ;
  bs ← get_mgr block_size ;
  null ← get_mgr mgr_null_block ;
  let num_required_blocks := cdiv num_tokens_main_model bs + spec_blocks in
  let prev_block_len := zlen req_blocks in
  if num_required_blocks =? prev_block_len then mret []
  else
    py_assert (prev_block_len <? num_required_blocks) ;;
    blocks_allocated ← get_mgr (fun m => bool_decide (request_id ∈ allocated_block_reqs m)) ;
    (if (blocks_allocated : bool)
     then on_mgr (set_last_state <[request_id := prev_block_len - 1 - spec_blocks]>)
     else if 0 <? prev_block_len then on_mgr (set_last_state <[request_id := prev_block_len - 1]>)
     else mret tt) ;;
    let num_skipped_blocks := num_required_blocks - spec_blocks - 1 in
    let padded := req_blocks ++ zreplicate (num_skipped_blocks - prev_block_len) null in
    put_req_blocks request_id padded ;;
    reused ← (if (blocks_allocated : bool)
              then lift_res (reuse_loop null num_skipped_blocks
                               (zrange (prev_block_len - spec_blocks) prev_block_len) padded)
              else mret padded) ;
    put_req_blocks request_id reused ;;
    let num_new_blocks := num_required_blocks - zlen reused in
    py_assert (num_new_blocks <=? (if (blocks_allocated : bool) then 1 else spec_blocks + 1)) ;;
    new_blocks ← on_pool (get_new_blocks use_int num_new_blocks) ;
    put_req_blocks request_id (reused ++ new_blocks) ;;
    on_mgr (set_allocated_reqs (fun s => {[request_id]} ∪ s)) ;;
    mret (py_slice_from (reused ++ new_blocks) prev_block_len).

Definition mamba_remove_skipped_blocks (mode : mamba_mode) (spec_blocks : Z) (request_id : string)
    (num_computed_tokens : Z) : M MP unit :=
  let num_computed_tokens' := Z.max 0 (num_computed_tokens - spec_blocks) in
  base_remove_skipped_blocks request_id num_computed_tokens' ;;
  match mode with
  | mamba_align =>
      bs ← get_mgr block_size ;
      null ← get_mgr mgr_null_block ;
      idx ← get_mgr (fun m => last_state_block_idx m !! request_id) ;
      match idx with
      | Some i =>
          if i <? cdiv num_computed_tokens' bs - 1 then
            blocks ← req_blocks_of request_id ;
            r ← lift_res (py_get blocks i) ;
            if bool_decide (r = null) then mret tt
            else
              on_pool (free_blocks [r]) ;;
              put_req_blocks request_id (py_set blocks (if i <? 0 then zlen blocks + i else i) null)
          else mret tt
      | None => mret tt
      end
  | _ => mret tt
  end.

Definition mamba_cache_blocks (request : Request) (num_tokens : Z) : M MP unit :=
  before ← get_mgr (fun m => default 0 (num_cached_block m !! request_id request)) ;
  base_cache_blocks request num_tokens ;;
  after ← get_mgr (fun m => default 0 (num_cached_block m !! request_id request)) ;
  if before <? after then
    blocks ← req_blocks_of (request_id request) ;
    forM_ (py_slice blocks before after) (fun r =>
      b ← on_pool (pool_load r) ;
      if is_null b then mret tt
      else
        match block_hash b with
        | None => raise AssertionError
        | Some h => on_mgr (set_cached_this_step (fun s => {[h]} ∪ s))
        end)
  else mret tt.

(** ** Dispatch on the manager class *)

Definition mgr_num_blocks_to_allocate (request_id : string) (num_tokens : Z)
    (new_computed_blocks : list ref) (total_computed_tokens num_tokens_main_model : Z) : M MP Z :=
  k ← get_mgr (fun m => spec_kind (kv_cache_spec m)) ;
  match k with
  | Mamba mode n => mamba_num_blocks_to_allocate mode n request_id num_tokens new_computed_blocks
                      total_computed_tokens num_tokens_main_model
  | _ => r ← gets (base_num_blocks_to_allocate request_id num_tokens new_computed_blocks total_computed_tokens) ;
         lift_res r
  end.

Definition mgr_allocate_new_computed_blocks (request_id : string) (new_computed_blocks : list ref)
    (num_local_computed_tokens num_external_computed_tokens : Z) : M MP unit :=
  k ← get_mgr (fun m => spec_kind (kv_cache_spec m)) ;
  match k with
  | CrossAttention => py_assert (zlen new_computed_blocks =? 0)
  | _ => base_allocate_new_computed_blocks request_id new_computed_blocks num_local_computed_tokens
           num_external_computed_tokens
  end.

Definition mgr_allocate_new_blocks (request_id : string) (num_tokens num_tokens_main_model : Z)
    : M MP (list ref) :=
  k ← get_mgr (fun m => spec_kind (kv_cache_spec m)) ;
  bs ← get_mgr block_size ;
  match k with
  | Mamba mamba_align n => mamba_align_allocate n request_id num_tokens_main_model
  | Mamba _ n => base_allocate_new_blocks request_id (if 0 <? n then num_tokens + bs * n else num_tokens)
  | _ => base_allocate_new_blocks request_id num_tokens
  end.

Definition mgr_cache_blocks (request : Request) (num_tokens : Z) : M MP unit :=
  k ← get_mgr (fun m => spec_kind (kv_cache_spec m)) ;
  match k with
  | CrossAttention => raise ValueError
  | Mamba _ _ => mamba_cache_blocks request num_tokens
  | _ => base_cache_blocks request num_tokens
  end.

Definition mgr_free (request_id : string) : M MP unit :=
  k ← get_mgr (fun m => spec_kind (kv_cache_spec m)) ;
  match k with
  | Mamba mamba_align _ =>
      on_mgr (set_allocated_reqs (fun s => s ∖ {[request_id]})) ;;
      on_mgr (set_last_state (delete request_id))
  | _ => mret tt
  end ;;
  base_free request_id.

Definition mgr_remove_skipped_blocks (request_id : string) (total_computed_tokens : Z) : M MP unit :=
  k ← get_mgr (fun m => spec_kind (kv_cache_spec m)) ;
  match k with
  | Mamba mode n => mamba_remove_skipped_blocks mode n request_id total_computed_tokens
  | _ => base_remove_skipped_blocks request_id total_computed_tokens
  end.

Definition new_step_starts : M MP unit :=
  k ← get_mgr (fun m => spec_kind (kv_cache_spec m)) ;
  match k with
  | Mamba _ _ => on_mgr (set_cached_this_step (fun _ => ∅))
  | _ => mret tt
  end.

(** [get_num_common_prefix_blocks]: the leading blocks owned by every request. *)
Definition get_num_common_prefix_blocks (running_request_id : string) : M MP Z :=
  k ← get_mgr (fun m => spec_kind (kv_cache_spec m)) ;
  match k with
  | FullAttention | MLAAttention | SinkFullAttention _ =>
      blocks ← req_blocks_of running_request_id ;
      gets (fun mp =>
        let all := Z.of_nat (size (req_to_blocks mp.1)) in
        (fix count (l : list ref) : Z :=
           match l with
           | [] => 0
           | r :: l' => match pheap mp.2 !! r with
                        | Some b => if ref_cnt b =? all then 1 + count l' else 0
                        | None => 0
                        end
           end) blocks)
  | _ => mret 0
  end.
End Managers.
