(* ===== verification/SingleTypeLemmas.v ===== *)
(** * Single-type managers: invariant and preservation

    A manager owns one reference to a block for every occurrence of the block in
    its block tables.  The lemmas show that each operation keeps the reference
    counts of the pool equal to these occurrences, that blocks past the cached
    prefix of a request belong to that request alone, and how many free blocks an
    allocation takes. *)

From S2P Require Import Prelude FreeQueue Request Hashing HashingLemmas BlockPool BlockPoolLemmas SingleType.
Local Open Scope Z_scope.

(** ** Occurrences in block tables *)

Abbreviation tables := (gmap string (list ref)).

(** The number of occurrences of [r] in the tables [T]. *)
Definition tocc (r : ref) (T : tables) : nat := map_fold (fun _ l n => (occ r l + n)%nat) 0%nat T.

Lemma tocc_insert_None r (T : tables) k l :
  T !! k = None -> tocc r (<[k := l]> T) = (occ r l + tocc r T)%nat.
Proof.
  intros Hk. unfold tocc.
  apply (map_fold_insert_L (fun _ l n => (occ r l + n)%nat) 0%nat k l T); [|done]. intros. lia.
Qed.

Lemma tocc_delete r (T : tables) k l : T !! k = Some l -> tocc r T = (occ r l + tocc r (delete k T))%nat.
Proof.
  intros Hk. rewrite <-(insert_id T k l Hk) at 1. rewrite <-insert_delete_eq.
  apply tocc_insert_None. apply lookup_delete_eq.
Qed.

Lemma tocc_delete_default r (T : tables) k :
  tocc r T = (occ r (default [] (T !! k)) + tocc r (delete k T))%nat.
Proof.
  destruct (T !! k) as [l|] eqn:E; [by apply tocc_delete|]. rewrite delete_id by done. done.
Qed.

Lemma tocc_insert r (T : tables) k l :
  (tocc r (<[k := l]> T) + occ r (default [] (T !! k)) = tocc r T + occ r l)%nat.
Proof.
  rewrite <-insert_delete_eq, tocc_insert_None by apply lookup_delete_eq.
  rewrite (tocc_delete_default r T k). lia.
Qed.

Lemma tocc_lookup_le r (T : tables) k l : T !! k = Some l -> (occ r l <= tocc r T)%nat.
Proof. intros Hk. rewrite (tocc_delete r T k l Hk). lia. Qed.

Lemma tocc_lookup_two r (T : tables) k k' l l' :
  T !! k = Some l -> T !! k' = Some l' -> k <> k' -> (occ r l + occ r l' <= tocc r T)%nat.
Proof.
  intros Hk Hk' Hne. rewrite (tocc_delete r T k l Hk).
  pose proof (tocc_lookup_le r (delete k T) k' l') as Hle.
  rewrite lookup_delete_ne in Hle by done. specialize (Hle Hk'). lia.
Qed.

(** ** The invariant of a manager *)

Record mgr_ok (p : BlockPool) (own : ref -> nat) (m : Manager) : Prop := {
  mo_null : mgr_null_block m = Blk 0;
  mo_caching : mgr_enable_caching m = enable_caching p;
  mo_pos : 0 < block_size m;
  mo_gid : 0 <= kv_cache_group_id m < 2 ^ 32;
  mo_refs : forall rid l r, req_to_blocks m !! rid = Some l -> r ∈ l -> pool_usable p r \/ r = Blk 0;
  mo_distinct : forall rid l r, req_to_blocks m !! rid = Some l -> pool_usable p r -> (occ r l <= 1)%nat;
  mo_own : forall r, pool_usable p r -> (tocc r (req_to_blocks m) <= own r)%nat;
  (* past the cached prefix, blocks are unhashed and have one owner *)
  mo_tail : enable_caching p = true -> forall rid l i r,
    req_to_blocks m !! rid = Some l -> l !! i = Some r -> pool_usable p r ->
    default 0 (num_cached_block m !! rid) <= Z.of_nat i ->
    block_hash_in p r = None /\ own r = 1%nat;
  mo_cached : forall rid n, num_cached_block m !! rid = Some n -> 0 <= n
}.

(** A manager without tables is well-formed over any pool of its configuration. *)
Lemma mgr_ok_empty p own m :
  mgr_null_block m = Blk 0 -> mgr_enable_caching m = enable_caching p -> 0 < block_size m ->
  0 <= kv_cache_group_id m < 2 ^ 32 -> req_to_blocks m = ∅ -> num_cached_block m = ∅ -> mgr_ok p own m.
Proof.
  intros ? ? ? ? HT HC. split; try done.
  - intros rid l r. by rewrite HT, lookup_empty.
  - intros rid l r. by rewrite HT, lookup_empty.
  - intros r _. rewrite HT. unfold tocc. rewrite map_fold_empty. lia.
  - intros _ rid l i r. by rewrite HT, lookup_empty.
  - intros rid n. by rewrite HC, lookup_empty.
Qed.

(** The fields that are fixed at construction. *)
Definition same_static (m m' : Manager) : Prop :=
  block_size m' = block_size m /\ kv_cache_spec m' = kv_cache_spec m
  /\ kv_cache_group_id m' = kv_cache_group_id m /\ mgr_enable_caching m' = mgr_enable_caching m
  /\ mgr_null_block m' = mgr_null_block m.

(** What every operation of a manager guarantees: the pool and the manager stay
    well-formed, owners change as the tables do, and unhashed blocks that belong
    to somebody else are left alone. *)
Record step_ok (m : Manager) (p : BlockPool) (own : ref -> nat)
    (m' : Manager) (p' : BlockPool) (fl' : list ref) (own' : ref -> nat) : Prop := {
  st_pool : pool_inv p' fl' own';
  st_mgr : mgr_ok p' own' m';
  st_bal : forall r, pool_usable p r ->
    (own' r + tocc r (req_to_blocks m) = own r + tocc r (req_to_blocks m'))%nat;
  st_frame : forall r, pool_usable p r -> block_hash_in p r = None -> (0 < own r)%nat ->
    tocc r (req_to_blocks m) = 0%nat -> own' r = own r /\ block_hash_in p' r = None;
  st_config : same_config p p';
  st_static : same_static m m'
}.

(** Another manager of the same pool is not disturbed. *)
Lemma step_ok_other m p own m' p' fl' own' m2 :
  step_ok m p own m' p' fl' own' -> mgr_ok p own m2 ->
  (forall r, pool_usable p r -> (tocc r (req_to_blocks m) + tocc r (req_to_blocks m2) <= own r)%nat) ->
  mgr_ok p' own' m2.
Proof.
  intros [_ _ Hbal Hframe Hcf _] [? ? ? ? Hrefs Hdist Hown Htail ?] Hsum.
  assert (Hu : forall r, pool_usable p' r <-> pool_usable p r) by (intros; by apply pool_usable_config).
  split; try done.
  - destruct Hcf as (_ & -> & _). done.
  - intros rid l r Hl Hr. rewrite Hu. by eapply Hrefs.
  - intros rid l r Hl Hr. apply Hu in Hr. by eapply Hdist.
  - intros r Hr. apply Hu in Hr. specialize (Hbal r Hr). specialize (Hsum r Hr). lia.
  - intros Hc rid l i r Hl Hi Hr Hn. apply Hu in Hr.
    replace (enable_caching p') with (enable_caching p) in Hc by (symmetry; apply Hcf).
    destruct (Htail Hc rid l i r Hl Hi Hr Hn) as [Hh Ho].
    assert (Hone : (1 <= tocc r (req_to_blocks m2))%nat).
    { pose proof (tocc_lookup_le r _ _ _ Hl). apply list_elem_of_lookup_2, occ_pos_iff in Hi. lia. }
    specialize (Hsum r Hr). destruct (Hframe r Hr Hh ltac:(lia) ltac:(lia)) as [-> ->]. done.
Qed.

(** ** Running methods on the pair *)

Lemma wp_on_pool {A} (c : M BlockPool A) (Q : A -> MP -> Prop) m p :
  wp c (fun a p' => Q a (m, p')) p -> wp (on_pool c) Q (m, p).
Proof. intros H. by apply wp_zoom. Qed.

(** The manager after a read of [req_to_blocks[request_id]]. *)
Definition touch_table (rid : string) (m : Manager) : Manager :=
  match req_to_blocks m !! rid with
  | Some _ => m
  | None => set_req_to_blocks <[rid := []]> m
  end.

Definition table (m : Manager) (rid : string) : list ref := default [] (req_to_blocks m !! rid).

Lemma wp_req_blocks_of rid (Q : list ref -> MP -> Prop) m p :
  Q (table m rid) (touch_table rid m, p) -> wp (req_blocks_of rid) Q (m, p).
Proof.
  unfold req_blocks_of, table, touch_table. intros HQ. apply wp_bind, wp_gets. simpl.
  destruct (req_to_blocks m !! rid) as [l|]; [by apply wp_ret|]. apply wp_bind, wp_modify, wp_ret, HQ.
Qed.

Lemma run_req_blocks_of rid m p : req_blocks_of rid (m, p) = (Ok (table m rid), (touch_table rid m, p)).
Proof.
  unfold req_blocks_of, table, touch_table, get_mgr, gets, mbind, M_bind. cbn [fst snd].
  by destruct (req_to_blocks m !! rid) as [l|].
Qed.

Lemma put_touch rid l m :
  set_req_to_blocks <[rid := l]> (touch_table rid m) = set_req_to_blocks <[rid := l]> m.
Proof.
  unfold touch_table. destruct (req_to_blocks m !! rid); [done|].
  unfold set_req_to_blocks. simpl. by rewrite insert_insert_eq.
Qed.

Lemma tocc_touch r rid m : tocc r (req_to_blocks (touch_table rid m)) = tocc r (req_to_blocks m).
Proof.
  unfold touch_table. destruct (req_to_blocks m !! rid) as [l|] eqn:E; [done|]. simpl.
  rewrite tocc_insert_None by done. by rewrite occ_nil.
Qed.

Lemma touch_table_lookup rid m rid' l :
  req_to_blocks (touch_table rid m) !! rid' = Some l -> req_to_blocks m !! rid' = Some l \/ l = [].
Proof.
  unfold touch_table. destruct (req_to_blocks m !! rid) eqn:E; [by left|]. simpl.
  rewrite lookup_insert. case_decide; [|by left]. intros [= <-]. by right.
Qed.

Lemma table_touch rid rid' m : table (touch_table rid m) rid' = table m rid'.
Proof.
  unfold table, touch_table. destruct (req_to_blocks m !! rid) eqn:E; [done|]. simpl.
  rewrite lookup_insert. case_decide; [subst; by rewrite E|done].
Qed.

(** Reading a table keeps the invariant. *)
Lemma mgr_ok_touch p own rid m : mgr_ok p own m -> mgr_ok p own (touch_table rid m).
Proof.
  intros Hok. assert (Hst : same_static m (touch_table rid m) /\ num_cached_block (touch_table rid m) = num_cached_block m).
  { unfold touch_table. by destruct (req_to_blocks m !! rid). }
  destruct Hst as [(Hb & _ & Hg & Hc & Hn) Hnc]. destruct Hok as [? ? ? ? Hrefs Hdist Hown Htail ?].
  split; rewrite ?Hb, ?Hg, ?Hc, ?Hn, ?Hnc; try done.
  - intros rid' l r [Hl| ->]%touch_table_lookup Hr; [by eapply Hrefs|by inversion Hr].
  - intros rid' l r [Hl| ->]%touch_table_lookup Hr; [by eapply Hdist|rewrite occ_nil; lia].
  - intros r Hr. rewrite tocc_touch. by apply Hown.
  - intros Hca rid' l i r [Hl| ->]%touch_table_lookup Hi Hr; [by eapply Htail|done].
Qed.

Lemma table_refs p own m rid r : mgr_ok p own m -> r ∈ table m rid -> pool_usable p r \/ r = Blk 0.
Proof.
  intros Hok. unfold table. destruct (req_to_blocks m !! rid) as [l|] eqn:E; [|by inversion 1].
  by eapply mo_refs.
Qed.

Lemma table_distinct p own m rid r : mgr_ok p own m -> pool_usable p r -> (occ r (table m rid) <= 1)%nat.
Proof.
  intros Hok Hr. unfold table. destruct (req_to_blocks m !! rid) as [l|] eqn:E; [|cbn [default from_option id]; rewrite occ_nil; lia].
  by eapply mo_distinct.
Qed.

Lemma table_own p own m rid r : mgr_ok p own m -> pool_usable p r -> (occ r (table m rid) <= own r)%nat.
Proof.
  intros Hok Hr. pose proof (mo_own _ _ _ Hok r Hr). pose proof (tocc_delete_default r (req_to_blocks m) rid).
  unfold table. lia.
Qed.

(** Changing only the bookkeeping of new block ids. *)
Lemma mgr_ok_note p own m f : mgr_ok p own m -> mgr_ok p own (set_new_block_ids f m).
Proof. by intros [? ? ? ? ? ? ? ? ?]; split. Qed.

Lemma wp_note bs (Q : unit -> MP -> Prop) m p :
  (forall f, Q tt (set_new_block_ids f m, p)) -> wp (note_new_blocks bs) Q (m, p).
Proof.
  intros HQ. unfold wp, note_new_blocks. specialize (HQ (fun l => l)) as H0.
  replace (set_new_block_ids (fun l => l) m) with m in H0 by (by destruct m).
  destruct (spec_kind (kv_cache_spec m)); try exact H0. apply HQ.
Qed.

(** ** Replacing a block table

    The shared part of the operations: the table of [rid] becomes [l'], and the
    owners change by the difference. *)

Section Replace.
Context (p p' : BlockPool) (own own' : ref -> nat) (m : Manager) (rid : string) (l' : list ref) (nc : gmap string Z).
Context (Hok : mgr_ok p own m) (Hcf : same_config p p').
Let m' := set_num_cached_block (fun _ => nc) (set_req_to_blocks <[rid := l']> m).

(** [own'] is [own] with the occurrences in the old table exchanged for those
    in the new one. *)
Context (Hbal : forall r, pool_usable p r -> (own' r + occ r (table m rid) = own r + occ r l')%nat).
Context (Hrefs' : forall r, r ∈ l' -> pool_usable p r \/ r = Blk 0).
Context (Hdist' : forall r, pool_usable p r -> (occ r l' <= 1)%nat).
Context (Hnc : forall rid', rid' <> rid -> nc !! rid' = num_cached_block m !! rid').
Context (Hncpos : forall n, nc !! rid = Some n -> 0 <= n).
Context (Htail' : enable_caching p = true -> forall i r, l' !! i = Some r -> pool_usable p r ->
  default 0 (nc !! rid) <= Z.of_nat i -> block_hash_in p' r = None /\ own' r = 1%nat).
(* unhashed blocks of somebody else are left alone *)
Context (Hothers : forall r, pool_usable p r -> block_hash_in p r = None -> (0 < own r)%nat ->
  (occ r (table m rid) = 0%nat) -> own' r = own r /\ block_hash_in p' r = None).

Lemma replace_bal r : pool_usable p r ->
  (own' r + tocc r (req_to_blocks m) = own r + tocc r (req_to_blocks m'))%nat.
Proof.
  intros Hr. specialize (Hbal r Hr). pose proof (tocc_insert r (req_to_blocks m) rid l') as H.
  fold (table m rid) in H. unfold m'. simpl. lia.
Qed.

Lemma replace_mgr_ok : mgr_ok p' own' m'.
Proof.
  assert (Hu : forall r, pool_usable p' r <-> pool_usable p r) by (intros; by apply pool_usable_config).
  destruct Hok as [? ? ? ? Hrefs Hdist Hown Htail Hcp]. split; try done.
  - destruct Hcf as (_ & -> & _). done.
  - intros rid' l r. simpl. rewrite lookup_insert, Hu. case_decide; [|by apply Hrefs].
    intros [= <-]. apply Hrefs'.
  - intros rid' l r. simpl. rewrite lookup_insert, Hu. case_decide; [|by apply Hdist].
    intros [= <-]. apply Hdist'.
  - intros r Hr. apply Hu in Hr. pose proof (replace_bal r Hr). specialize (Hown r Hr). lia.
  - intros Hc rid' l i r. replace (enable_caching p') with (enable_caching p) in Hc by (symmetry; apply Hcf).
    simpl. rewrite lookup_insert, Hu. case_decide as Hrid; [subst rid'; intros [= <-]; by apply Htail'|].
    intros Hl Hi Hr Hn. rewrite Hnc in Hn by done. destruct (Htail Hc rid' l i r Hl Hi Hr Hn) as [Hh Ho].
    assert (Hr0 : occ r (table m rid) = 0%nat).
    { unfold table. destruct (req_to_blocks m !! rid) as [l0|] eqn:E; [|done]. simpl.
      pose proof (tocc_lookup_two r _ _ _ _ _ E Hl ltac:(auto)). pose proof (mo_own _ _ _ Hok r Hr).
      apply list_elem_of_lookup_2, occ_pos_iff in Hi. lia. }
    destruct (Hothers r Hr Hh ltac:(lia) Hr0) as [-> ->]. done.
  - intros rid' n. simpl. destruct (decide (rid' = rid)) as [->|Hne]; [apply Hncpos|].
    rewrite Hnc by done. apply Hcp.
Qed.

Lemma replace_step fl' : pool_inv p' fl' own' -> step_ok m p own m' p' fl' own'.
Proof.
  intros Hinv. split; [done|apply replace_mgr_ok|apply replace_bal| |done|done].
  intros r Hr Hh Ho Ht. apply Hothers; [done..|]. pose proof (tocc_delete_default r (req_to_blocks m) rid).
  unfold table. lia.
Qed.
End Replace.

(** ** Operations *)

Section Ops.
Context (use_int : bool) (sha256 : bytes -> bytes).

Lemma same_static_refl m : same_static m m.
Proof. done. Qed.

Lemma set_nc_id m : set_num_cached_block (fun _ => num_cached_block m) m = m.
Proof. by destruct m. Qed.

Lemma nc_table_id l rid m :
  set_num_cached_block (fun _ => num_cached_block m) (set_req_to_blocks <[rid := l]> m)
  = set_req_to_blocks <[rid := l]> m.
Proof. by destruct m. Qed.

Lemma step_ok_note m p own m' p' fl' own' f :
  step_ok m p own m' p' fl' own' -> step_ok m p own (set_new_block_ids f m') p' fl' own'.
Proof. intros [? ? ? ? ? ?]; split; try done. by apply mgr_ok_note. Qed.

(** The Mamba bookkeeping is not part of the invariant. *)
Definition same_tables (m m' : Manager) : Prop :=
  same_static m m' /\ req_to_blocks m' = req_to_blocks m /\ num_cached_block m' = num_cached_block m.

Lemma mgr_ok_same p own m m' : same_tables m m' -> mgr_ok p own m -> mgr_ok p own m'.
Proof.
  intros ((Hb & _ & Hg & Hc & Hn) & HT & HC) [H1 H2 H3 H4 H5 H6 H7 H8 H9].
  split; rewrite ?Hb, ?Hg, ?Hc, ?Hn, ?HT, ?HC; done.
Qed.

Lemma step_ok_same m1 m2 p own m' p' fl' own' :
  same_tables m1 m2 -> step_ok m2 p own m' p' fl' own' -> step_ok m1 p own m' p' fl' own'.
Proof.
  intros ((Hb & Hk & Hg & Hc & Hn) & HT & HC) [Hp Hm Hbal Hfr Hcf (S1 & S2 & S3 & S4 & S5)].
  split; [done|done|by rewrite <-HT|by rewrite <-HT|done|]. unfold same_static. by rewrite S1, S2, S3, S4, S5.
Qed.

Lemma occ_take_nodup (fl : list ref) k r : NoDup fl -> (occ r (take k fl) <= 1)%nat.
Proof.
  intros Hnd. apply occ_NoDup. rewrite <-(take_drop k fl) in Hnd. by apply NoDup_app in Hnd as (? & _).
Qed.

(** The table of [rid] grows by [k] blocks from the head of the free queue. *)
Lemma grow_step p p' fl own m rid k :
  pool_inv p fl own -> mgr_ok p own m -> (k <= length fl)%nat ->
  pool_inv p' (drop k fl) (own_add own (take k fl)) -> same_config p p' ->
  (forall r, block_hash_in p' r = if decide (r ∈ take k fl /\ enable_caching p = true) then None else block_hash_in p r) ->
  step_ok m p own (set_req_to_blocks <[rid := table m rid ++ take k fl]> m) p' (drop k fl) (own_add own (take k fl)).
Proof.
  intros Hinv Hok Hk Hinv' Hcf Hh. pose proof (inv_fl_nodup _ _ _ Hinv) as Hnd.
  set (new := take k fl) in *.
  assert (Hnew : forall r, r ∈ new -> pool_usable p r /\ own r = 0%nat).
  { intros r Hr. apply Hinv. rewrite <-(take_drop k fl). apply elem_of_app. by left. }
  rewrite <-(nc_table_id (table m rid ++ new) rid m).
  apply replace_step with (rid := rid); try done.
  - intros r Hr. unfold own_add. rewrite occ_app. lia.
  - intros r [Hr|Hr]%elem_of_app; [by eapply table_refs|left; by apply Hnew].
  - intros r Hr. rewrite occ_app. pose proof (table_distinct p own m rid r Hok Hr).
    pose proof (table_own p own m rid r Hok Hr). pose proof (occ_take_nodup fl k r Hnd). fold new in H1.
    destruct (decide (r ∈ new)) as [Hin|Hin]; [destruct (Hnew r Hin); lia|]. apply occ_0_iff in Hin. lia.
  - intros n Hn. by eapply mo_cached.
  - intros Hc i r [Hi|[_ Hi]]%lookup_app_Some Hr Hn.
    + unfold table in Hi. destruct (req_to_blocks m !! rid) as [l|] eqn:E; [|done].
      destruct (mo_tail _ _ _ Hok Hc rid l i r E Hi Hr Hn) as [Hn' Ho].
      assert (Hr' : r ∉ new) by (intros Hin; destruct (Hnew r Hin); lia).
      rewrite Hh, decide_False by tauto. split; [done|]. unfold own_add. apply occ_0_iff in Hr'. lia.
    + apply list_elem_of_lookup_2 in Hi as Hin. rewrite Hh, decide_True by done. split; [done|].
      destruct (Hnew r Hin) as [_ Ho]. unfold own_add. apply occ_pos_iff in Hin.
      pose proof (occ_take_nodup fl k r Hnd) as H1. fold new in H1. lia.
  - intros r Hr Hnone Ho _. assert (Hr' : r ∉ new) by (intros Hin; destruct (Hnew r Hin); lia).
    rewrite Hh, decide_False by tauto. split; [|done]. unfold own_add. apply occ_0_iff in Hr'. lia.
Qed.

Lemma step_ok_refl p fl own m : pool_inv p fl own -> mgr_ok p own m -> step_ok m p own m p fl own.
Proof. intros Hinv Hok. split; try done; by intros. Qed.

(** The tables of the other requests are left alone. *)
Definition others (rid : string) (m m' : Manager) : Prop :=
  forall rid', rid' <> rid -> table m' rid' = table m rid'.

Lemma others_touch rid m : others rid m (touch_table rid m).
Proof. intros rid' _. apply table_touch. Qed.

Lemma others_put rid l m : others rid m (set_req_to_blocks <[rid := l]> m).
Proof. intros rid' Hne. unfold table. simpl. by rewrite lookup_insert_ne. Qed.

Lemma others_trans rid m1 m2 m3 : others rid m1 m2 -> others rid m2 m3 -> others rid m1 m3.
Proof. intros H1 H2 rid' Hne. by rewrite H2, H1. Qed.

(** How many blocks [allocate_new_blocks] takes from the pool. *)
Definition blocks_missing (m : Manager) (rid : string) (num_tokens : Z) : Z :=
  Z.max 0 (cdiv num_tokens (block_size m) - zlen (table m rid)).

Lemma step_ok_refl_touch p fl own m rid :
  pool_inv p fl own -> mgr_ok p own m -> step_ok m p own (touch_table rid m) p fl own.
Proof.
  intros Hinv Hok. split; try done; [by apply mgr_ok_touch|intros r _; by rewrite tocc_touch|].
  unfold touch_table. by destruct (req_to_blocks m !! rid).
Qed.

Lemma step_ok_own_ext m p own m' p' fl' own1 own2 :
  (forall r, own2 r = own1 r) -> step_ok m p own m' p' fl' own1 -> step_ok m p own m' p' fl' own2.
Proof.
  intros Ho [[Hc Hf] Hm Hb Hfr Hcf Hst]. split; [| | | |done|done].
  - split; [eapply core_own_ext; [|done]; auto|]. intros r. rewrite Ho. apply Hf.
  - destruct Hm as [H1 H2 H3 H4 H5 H6 Hown Htail H9]. split; [done..| | |done].
    + intros r Hr. rewrite Ho. by apply Hown.
    + intros Hca rid l i r. rewrite Ho. by apply Htail.
  - intros r Hr. rewrite Ho. by apply Hb.
  - intros r Hr. rewrite Ho. by apply Hfr.
Qed.

Lemma allocate_new_blocks_wp p fl own m rid num_tokens :
  pool_inv p fl own -> mgr_ok p own m -> blocks_missing m rid num_tokens <= zlen fl ->
  let k := Z.to_nat (blocks_missing m rid num_tokens) in
  wp (base_allocate_new_blocks use_int rid num_tokens)
     (fun new mp' => new = take k fl /\ table mp'.1 rid = table m rid ++ new
        /\ num_cached_block mp'.1 = num_cached_block m
        /\ step_ok m p own mp'.1 mp'.2 (drop k fl) (own_add own new)
        /\ others rid m mp'.1) (m, p).
Proof.
  intros Hinv Hok Hk k. assert (Hkl : (k <= length fl)%nat) by (unfold k, zlen in *; lia).
  unfold base_allocate_new_blocks, blocks_missing in *.
  apply wp_bind, wp_req_blocks_of, wp_bind, wp_gets. simpl fst.
  replace (block_size (touch_table rid m)) with (block_size m)
    by (unfold touch_table; by destruct (req_to_blocks m !! rid)).
  destruct (cdiv num_tokens (block_size m) - zlen (table m rid) <=? 0) eqn:E.
  { apply wp_ret. replace k with 0%nat by lia. simpl. rewrite table_touch, app_nil_r, drop_0. split_and!; try done.
    - unfold touch_table. by destruct (req_to_blocks m !! rid).
    - eapply step_ok_own_ext; [|by apply step_ok_refl_touch]. intros r. apply own_add_nil.
    - apply others_touch. }
  replace (cdiv num_tokens (block_size m) - zlen (table m rid)) with (Z.of_nat k) by lia.
  apply wp_bind, wp_on_pool. eapply wp_mono; [by apply get_new_blocks_wp|].
  intros new p' (-> & Hinv' & Hcf & Hh). apply wp_bind, wp_modify. simpl. rewrite put_touch.
  apply wp_bind, wp_note. intros f. apply wp_ret. simpl. split_and!; try done.
  - unfold table at 1. simpl. by rewrite lookup_insert_eq.
  - apply step_ok_note. by apply grow_step.
  - exact (others_put rid _ m).
Qed.

(** [free]: every reference of the request is given back. *)
Lemma free_wp p fl own m rid :
  pool_inv p fl own -> mgr_ok p own m ->
  wp (base_free rid)
     (fun _ mp' => req_to_blocks mp'.1 = delete rid (req_to_blocks m)
        /\ num_cached_block mp'.1 = delete rid (num_cached_block m)
        /\ exists fl' own', step_ok m p own mp'.1 mp'.2 fl' own'
             /\ fl' = fl ++ released p own (reverse (table m rid))
             /\ forall r, block_hash_in mp'.2 r = block_hash_in p r) (m, p).
Proof.
  intros Hinv Hok. unfold base_free. apply wp_bind, wp_gets, wp_bind, wp_modify. simpl fst. simpl snd.
  fold (table m rid). apply wp_bind, wp_on_pool.
  assert (Hrefs : forall r, r ∈ reverse (table m rid) -> pool_usable p r \/ r = Blk 0).
  { intros r Hr. rewrite elem_of_reverse in Hr. by eapply table_refs. }
  eapply wp_mono; [apply (free_blocks_wp p fl own (reverse (table m rid)) Hinv Hrefs)|].
  { intros r Hr. rewrite occ_reverse. split; [by eapply table_distinct|by eapply table_own]. }
  intros [] p' (Hinv' & Hcf & Hh). apply wp_modify. simpl. split_and!; [done|done|].
  eexists _, _. split; [|split; [done|exact Hh]].
  assert (Hu : forall r, pool_usable p' r <-> pool_usable p r) by (intros; by apply pool_usable_config).
  assert (Hbal : forall r, pool_usable p r ->
    (own_sub own (reverse (table m rid)) r + tocc r (req_to_blocks m) = own r + tocc r (delete rid (req_to_blocks m)))%nat).
  { intros r Hr. pose proof (tocc_delete_default r (req_to_blocks m) rid) as Ht.
    pose proof (table_own p own m rid r Hok Hr). unfold own_sub. rewrite occ_reverse. unfold table in *. lia. }
  split; [done| |exact Hbal| |done|done].
  - destruct Hok as [? ? ? ? Hr0 Hd0 Ho0 Ht0 Hc0]. split; try done; simpl.
    + destruct Hcf as (_ & -> & _). done.
    + intros rid' l r. rewrite lookup_delete, Hu. case_decide; [done|]. by apply Hr0.
    + intros rid' l r. rewrite lookup_delete, Hu. case_decide; [done|]. by apply Hd0.
    + intros r Hr. apply Hu in Hr. specialize (Hbal r Hr). specialize (Ho0 r Hr). lia.
    + intros Hc rid' l i r. replace (enable_caching p') with (enable_caching p) in Hc by (symmetry; apply Hcf).
      rewrite !lookup_delete, Hu. case_decide as Hrid; [done|]. intros Hl Hi Hr Hn.
      destruct (Ht0 Hc rid' l i r Hl Hi Hr Hn) as [Hnone Hone]. rewrite Hh. split; [done|].
      unfold own_sub. rewrite occ_reverse. assert (Hz : occ r (table m rid) = 0%nat); [|lia].
      unfold table. destruct (req_to_blocks m !! rid) as [l0|] eqn:E; [|done]. simpl.
      pose proof (tocc_lookup_two r _ _ _ _ _ E Hl ltac:(auto)). specialize (Ho0 r Hr).
      apply list_elem_of_lookup_2, occ_pos_iff in Hi. lia.
    + intros rid' n. rewrite lookup_delete. case_decide; [done|]. apply Hc0.
  - intros r Hr Hnone Ho Hz. rewrite Hh. split; [|done]. unfold own_sub. rewrite occ_reverse.
    pose proof (tocc_delete_default r (req_to_blocks m) rid). unfold table. lia.
Qed.

Lemma mgr_free_wp p fl own m rid :
  pool_inv p fl own -> mgr_ok p own m ->
  wp (mgr_free rid)
     (fun _ mp' => req_to_blocks mp'.1 = delete rid (req_to_blocks m)
        /\ num_cached_block mp'.1 = delete rid (num_cached_block m)
        /\ exists fl' own', step_ok m p own mp'.1 mp'.2 fl' own'
             /\ fl' = fl ++ released p own (reverse (table m rid))
             /\ forall r, block_hash_in mp'.2 r = block_hash_in p r) (m, p).
Proof.
  intros Hinv Hok. unfold mgr_free. apply wp_bind, wp_gets. cbn [fst].
  assert (Hbase : forall m1, same_tables m m1 ->
    wp (base_free rid) (fun _ mp' => req_to_blocks mp'.1 = delete rid (req_to_blocks m)
        /\ num_cached_block mp'.1 = delete rid (num_cached_block m)
        /\ exists fl' own', step_ok m p own mp'.1 mp'.2 fl' own'
             /\ fl' = fl ++ released p own (reverse (table m rid))
             /\ forall r, block_hash_in mp'.2 r = block_hash_in p r) (m1, p)).
  { intros m1 Hs. eapply wp_mono; [apply (free_wp p fl own m1 rid Hinv)|]; [by eapply mgr_ok_same|].
    destruct (Hs) as (_ & HT & HC). unfold table. rewrite HT, HC. intros [] mp' (-> & -> & fl' & own' & Hst & H).
    split_and!; [done|done|]. exists fl', own'. split; [by eapply step_ok_same|exact H]. }
  apply wp_bind. destruct (spec_kind (kv_cache_spec m)) as [| | | |[| |] sp| |]; by apply wp_ret, Hbase.
Qed.

(** *** Skipped blocks *)

(** The loop nulls the blocks from position [k - 1] down to the first null. *)
Lemma remove_loop_spec null k blocks acc :
  (k <= length blocks)%nat ->
  exists j, (j <= k)%nat
    /\ remove_loop null (zrange_down (Z.of_nat k) 0) blocks acc
       = (take j blocks ++ replicate (k - j) null ++ drop k blocks,
          acc ++ reverse (take (k - j) (drop j blocks)))
    /\ (forall i r, (j <= i < k)%nat -> blocks !! i = Some r -> r <> null)
    /\ (j = 0%nat \/ blocks !! (j - 1)%nat = Some null).
Proof.
  revert blocks acc. induction k as [|k IH]; intros blocks acc Hk.
  { exists 0%nat. rewrite zrange_down_nil by lia. simpl. rewrite drop_0, app_nil_r.
    split_and!; [done|done|intros; lia|by left]. }
  replace (Z.of_nat (S k)) with (Z.of_nat k + 1) by lia. rewrite zrange_down_cons by lia. cbn [remove_loop].
  rewrite Nat2Z.id. destruct (lookup_lt_is_Some_2 blocks k ltac:(lia)) as [r Er]. rewrite Er.
  case_bool_decide as Hr.
  - subst r. exists (S k). rewrite Nat.sub_diag. simpl. rewrite app_nil_r, take_drop.
    split_and!; [done|done|intros; lia|]. right. by rewrite Nat.sub_0_r.
  - unfold py_set. rewrite Nat2Z.id.
    destruct (IH (<[k := null]> blocks) (acc ++ [r])) as (j & Hj & -> & Hne & Hstop); [rewrite length_insert; lia|].
    exists j. assert (Hlt : (k < length blocks)%nat) by lia. split_and!; [lia| | |].
    + rewrite (take_insert_ge blocks j k null) by lia.
      rewrite (drop_S (<[k := null]> blocks) null k) by (by apply list_lookup_insert_eq).
      rewrite drop_insert_lt by lia.
      replace (take (k - j) (drop j (<[k := null]> blocks))) with (take (k - j) (drop j blocks)).
      2: { rewrite drop_insert_ge by lia. by rewrite take_insert_ge by lia. }
      replace (S k - j)%nat with (S (k - j))%nat by lia. f_equal.
      * f_equal. rewrite replicate_S_end, <-app_assoc. done.
      * rewrite (take_S_r _ _ r) by (rewrite lookup_drop, <-Er; f_equal; lia).
        rewrite reverse_snoc. by rewrite <-app_assoc.
    + intros i r' Hi Hr'. destruct (decide (i = k)) as [->|]; [congruence|].
      apply (Hne i r'); [lia|]. by rewrite list_lookup_insert_ne by lia.
    + destruct Hstop as [|Hs]; [by left|]. destruct (decide (j = 0%nat)); [by left|]. right.
      by rewrite list_lookup_insert_ne in Hs by lia.
Qed.

(** How many leading blocks of the table are outside the attention window. *)
Definition num_skippable (m : Manager) (rid : string) (total_computed_tokens : Z) : nat :=
  let s := get_num_skipped_tokens (spec_kind (kv_cache_spec m)) total_computed_tokens in
  if s <=? 0 then 0%nat else Z.to_nat (Z.min (s / block_size m) (zlen (table m rid))).

Lemma remove_skipped_wp p fl own m rid n :
  pool_inv p fl own -> mgr_ok p own m ->
  wp (base_remove_skipped_blocks rid n)
     (fun _ mp' => exists j fl' own',
        let k := num_skippable m rid n in
        (j <= k)%nat
        /\ table mp'.1 rid = take j (table m rid) ++ replicate (k - j) (Blk 0) ++ drop k (table m rid)
        /\ (j = 0%nat \/ table m rid !! (j - 1)%nat = Some (Blk 0))
        /\ num_cached_block mp'.1 = num_cached_block m
        /\ step_ok m p own mp'.1 mp'.2 fl' own'
        /\ (exists freed, fl' = fl ++ freed)
        /\ others rid m mp'.1 /\ forall r, block_hash_in mp'.2 r = block_hash_in p r) (m, p).
Proof.
  intros Hinv Hok. unfold base_remove_skipped_blocks. apply wp_bind, wp_gets, wp_bind, wp_gets, wp_bind, wp_gets.
  simpl fst. unfold num_skippable. set (s := get_num_skipped_tokens _ n).
  destruct (s <=? 0) eqn:Es.
  { pose proof (step_ok_refl p fl own m Hinv Hok) as Hrefl.
    apply wp_ret. exists 0%nat, fl, own. simpl. rewrite drop_0. split_and!; try done; try by left.
    exists []. by rewrite app_nil_r. }
  apply wp_bind, wp_req_blocks_of. rewrite (mo_null _ _ _ Hok).
  set (l := table m rid). set (k := Z.to_nat (Z.min (s / block_size m) (zlen l))).
  assert (Hs0 : 0 <= s / block_size m) by (apply Z.div_pos; [lia|apply (mo_pos _ _ _ Hok)]).
  assert (Hk : Z.min (s / block_size m) (zlen l) = Z.of_nat k) by (pose proof (zlen_nonneg l); lia).
  rewrite Hk. destruct (remove_loop_spec (Blk 0) k l []) as (j & Hj & -> & Hne & Hstop); [unfold zlen in *; lia|].
  simpl. set (removed := reverse (take (k - j) (drop j l))).
  assert (Hsplit : l = take j l ++ take (k - j) (drop j l) ++ drop k l).
  { rewrite <-(take_drop j l) at 1. f_equal. rewrite <-(take_drop (k - j) (drop j l)) at 1. f_equal.
    rewrite drop_drop. f_equal. lia. }
  assert (Hrem : forall r, r ∈ removed -> r ∈ l /\ r <> Blk 0).
  { intros r Hr. unfold removed in Hr. rewrite elem_of_reverse in Hr. apply list_elem_of_lookup in Hr as [i Hi].
    apply lookup_take_Some in Hi as [Hi Hlt]. rewrite lookup_drop in Hi. split; [by eapply list_elem_of_lookup_2|].
    apply (Hne (j + i)%nat r); [lia|done]. }
  assert (Hocc : forall r, r <> Blk 0 -> (occ r (take j l ++ replicate (k - j) (Blk 0) ++ drop k l) + occ r removed = occ r l)%nat).
  { intros r Hr. assert (Hl : occ r l = occ r (take j l ++ take (k - j) (drop j l) ++ drop k l)) by (by rewrite <-Hsplit).
    rewrite Hl. unfold removed. rewrite occ_reverse, !occ_app, occ_replicate_ne by done. lia. }
  apply wp_bind, wp_modify. simpl. rewrite put_touch. apply wp_on_pool.
  eapply wp_mono; [apply (free_blocks_wp p fl own removed Hinv)|].
  { intros r [Hr _]%Hrem. by eapply table_refs. }
  { intros r Hr. specialize (Hocc r (usable_ne_null _ _ Hr)).
    pose proof (table_distinct p own m rid r Hok Hr) as Hd. pose proof (table_own p own m rid r Hok Hr) as Ho.
    fold l in Hd, Ho. lia. }
  intros [] p' (Hinv' & Hcf & Hh). exists j. eexists _, _. split; [done|]. split.
  { unfold table at 1. simpl. by rewrite lookup_insert_eq. }
  split_and!; [done|done| |by eexists|exact (others_put rid _ m)|exact Hh].
  rewrite <-(nc_table_id (take j l ++ replicate (k - j) (Blk 0) ++ drop k l) rid m).
  apply replace_step with (rid := rid); try done.
  - intros r Hr. specialize (Hocc r (usable_ne_null _ _ Hr)).
    pose proof (table_own p own m rid r Hok Hr) as Ho. unfold own_sub. fold l in Ho |- *. lia.
  - intros r. rewrite !elem_of_app. intros [Hr|[[-> _]%elem_of_replicate|Hr]]; [|by right|];
      (apply (table_refs p own m rid r Hok); fold l; rewrite Hsplit, !elem_of_app; tauto).
  - intros r Hr. specialize (Hocc r (usable_ne_null _ _ Hr)). pose proof (table_distinct p own m rid r Hok Hr) as Hd. fold l in Hd. lia.
  - intros n' Hn'. by eapply mo_cached.
  - intros Hc i r Hi Hr Hn.
    assert (Hil : l !! i = Some r /\ (occ r removed = 0)%nat).
    { pose proof (usable_ne_null _ _ Hr) as Hnz. specialize (Hocc r Hnz).
      pose proof (table_distinct p own m rid r Hok Hr) as Hd. fold l in Hd.
      assert (Hin : r ∈ take j l ++ replicate (k - j) (Blk 0) ++ drop k l) by (by eapply list_elem_of_lookup_2).
      apply occ_pos_iff in Hin. split; [|lia].
      assert (Hlj : length (take j l) = j) by (rewrite length_take; unfold zlen in *; lia).
      apply lookup_app_Some in Hi as [Hi|[Hge Hi]]; [by apply lookup_take_Some in Hi as [? _]|].
      apply lookup_app_Some in Hi as [[-> _]%lookup_replicate|[Hge' Hi]]; [done|].
      rewrite lookup_drop, length_replicate, Hlj in Hi. rewrite length_replicate, Hlj in Hge'. rewrite <-Hi. f_equal. lia. }
    destruct Hil as [Hil Hz]. rewrite Hh. unfold l, table in Hil.
    destruct (req_to_blocks m !! rid) as [l0|] eqn:E; [|done].
    destruct (mo_tail _ _ _ Hok Hc rid l0 i r E Hil Hr Hn) as [Hnone Hone]. split; [done|]. unfold own_sub. lia.
  - intros r Hr Hnone Ho Hz. rewrite Hh. split; [|done]. unfold own_sub. fold l in Hz.
    specialize (Hocc r (usable_ne_null _ _ Hr)). lia.
Qed.

(** *** Computed blocks of a new request *)

Lemma step_ok_trans m p own m1 p1 fl1 own1 m2 p2 fl2 own2 :
  step_ok m p own m1 p1 fl1 own1 -> step_ok m1 p1 own1 m2 p2 fl2 own2 ->
  step_ok m p own m2 p2 fl2 own2.
Proof.
  intros [Hi1 Hm1 Hb1 Hf1 Hc1 Hs1] [Hi2 Hm2 Hb2 Hf2 Hc2 Hs2].
  assert (Hu : forall r, pool_usable p1 r <-> pool_usable p r) by (intros; by apply pool_usable_config).
  split; [done|done| | | |].
  - intros r Hr. specialize (Hb1 r Hr). specialize (Hb2 r ltac:(by apply Hu)). lia.
  - intros r Hr Hh Ho Ht. destruct (Hf1 r Hr Hh Ho Ht) as [Ho1 Hh1]. specialize (Hb1 r Hr).
    destruct (Hf2 r ltac:(by apply Hu) Hh1 ltac:(lia) ltac:(lia)) as [-> ->]. done.
  - by etransitivity.
  - unfold same_static in *. intuition congruence.
Qed.

(** The leading blocks of a hit that the attention window skips. *)
Definition skipped_blocks (m : Manager) (total_computed_tokens : Z) : nat :=
  Z.to_nat (get_num_skipped_tokens (spec_kind (kv_cache_spec m)) total_computed_tokens / block_size m).

(** A prefix-cache hit: cached blocks, each at most once, or null blocks. *)
Definition hit_ok (p : BlockPool) (blocks : list ref) : Prop :=
  (forall r, r ∈ blocks -> (pool_usable p r /\ block_hash_in p r <> None) \/ r = Blk 0)
  /\ (forall r, pool_usable p r -> (occ r blocks <= 1)%nat).

Lemma hit_ok_drop p blocks n : hit_ok p blocks -> hit_ok p (drop n blocks).
Proof.
  intros [Hr Hd]. split.
  - intros r Hin. apply Hr. rewrite <-(take_drop n blocks). apply elem_of_app. by right.
  - intros r Hu. specialize (Hd r Hu). rewrite <-(take_drop n blocks), occ_app in Hd. lia.
Qed.

(** The first part: touch the hit and make it the table of the request. *)
Lemma touch_step p p' fl own m rid S bs :
  pool_inv p fl own -> mgr_ok p own m -> table m rid = [] -> num_cached_block m !! rid = None ->
  hit_ok p bs ->
  pool_inv p' (untouched bs fl) (own_add own bs) -> same_config p p' ->
  (forall r, block_hash_in p' r = block_hash_in p r) ->
  let l' := replicate S (Blk 0) ++ bs in
  step_ok m p own (set_num_cached_block (fun _ => <[rid := zlen l']> (num_cached_block m)) (set_req_to_blocks <[rid := l']> m))
    p' (untouched bs fl) (own_add own bs).
Proof.
  intros Hinv Hok Ht Hnc [Href Hdist] Hinv' Hcf Hh l'.
  assert (Hnull : forall r, pool_usable p r -> occ r l' = occ r bs).
  { intros r Hr. unfold l'. rewrite occ_app, occ_replicate_ne; [done|]. by eapply usable_ne_null. }
  apply replace_step with (rid := rid); try done.
  - intros r Hr. rewrite Ht, occ_nil, Hnull by done. unfold own_add. lia.
  - intros r [[-> _]%elem_of_replicate|Hr]%elem_of_app; [by right|].
    destruct (Href r Hr) as [[? _]|?]; auto.
  - intros r Hr. rewrite Hnull by done. auto.
  - intros rid' Hne. by rewrite lookup_insert_ne by done.
  - intros n. rewrite lookup_insert_eq. intros [= <-]. apply zlen_nonneg.
  - intros _ i r Hi _. rewrite lookup_insert_eq. simpl. apply lookup_lt_Some in Hi. unfold zlen. lia.
  - intros r Hr Hnone Ho _. rewrite Hh. split; [|done]. unfold own_add.
    assert (Hni : r ∉ bs); [|apply occ_0_iff in Hni; lia]. intros Hin.
    destruct (Href r Hin) as [[_ ?]| ->]; [done|]. by eapply usable_ne_null.
Qed.

Lemma allocate_new_computed_wp p fl own m rid computed local external :
  pool_inv p fl own -> mgr_ok p own m -> table m rid = [] -> num_cached_block m !! rid = None ->
  (enable_caching p = false -> computed = []) -> hit_ok p computed ->
  let S := skipped_blocks m (local + external) in
  let bs := drop S computed in
  let l := replicate S (Blk 0) ++ bs in
  let external' := if decide (S = 0%nat) then external
                   else Z.min (local + external - get_num_skipped_tokens (spec_kind (kv_cache_spec m)) (local + external)) external in
  let k := if 0 <? external' then cdiv (local + external) (block_size m) - zlen l else 0 in
  0 <= k <= zlen (untouched bs fl) ->
  wp (base_allocate_new_computed_blocks use_int rid computed local external)
     (fun _ mp' =>
        let new := take (Z.to_nat k) (untouched bs fl) in
        table mp'.1 rid = l ++ new
        /\ num_cached_block mp'.1 = <[rid := zlen l]> (num_cached_block m)
        /\ step_ok m p own mp'.1 mp'.2 (drop (Z.to_nat k) (untouched bs fl)) (own_add (own_add own bs) new)
        /\ others rid m mp'.1
        /\ (k = 0 -> forall r, block_hash_in mp'.2 r = block_hash_in p r)) (m, p).
Proof.
  intros Hinv Hok Ht Hnc Hcache Hhit S bs l external' k Hk.
  unfold base_allocate_new_computed_blocks. apply wp_bind, wp_gets. simpl fst. rewrite Hnc.
  apply wp_bind, wp_req_blocks_of, wp_bind, wp_assert; [by rewrite Ht|].
  assert (Hst : same_static m (touch_table rid m) /\ num_cached_block (touch_table rid m) = num_cached_block m).
  { unfold touch_table. by destruct (req_to_blocks m !! rid). }
  destruct Hst as [(Hb & Hsp & Hg & Hc & Hn) Hnceq].
  do 4 (apply wp_bind, wp_gets; simpl fst). rewrite Hb, Hsp, Hn, Hc, (mo_null _ _ _ Hok), Ht.
  set (skipped := get_num_skipped_tokens (spec_kind (kv_cache_spec m)) (local + external)).
  assert (Hpair : (if 0 <? skipped / block_size m
    then (py_slice_from computed (skipped / block_size m), Z.min (local + external - skipped) external)
    else (computed, external)) = (bs, external')).
  { unfold bs, external', S, skipped_blocks. fold skipped. destruct (0 <? skipped / block_size m) eqn:E.
    - rewrite py_slice_from_nonneg by lia. by rewrite decide_False by lia.
    - replace (Z.to_nat (skipped / block_size m)) with 0%nat by lia. by rewrite drop_0. }
  fold skipped. rewrite Hpair. unfold zreplicate. fold skipped.
  replace (Z.to_nat (skipped / block_size m)) with S by done. rewrite app_nil_l. fold l.
  apply wp_bind.
  assert (Hhit' : hit_ok p bs) by by apply hit_ok_drop.
  assert (Hrest : forall p1, pool_inv p1 (untouched bs fl) (own_add own bs) -> same_config p p1 ->
    (forall r, block_hash_in p1 r = block_hash_in p r) ->
    wp (put_req_blocks rid l ;; on_mgr (set_num_cached_block <[rid := zlen l]>) ;;
        (if 0 <? external' then
          allocated ← on_pool (get_new_blocks use_int (cdiv (local + external) (block_size m) - zlen l)) ;
          put_req_blocks rid (l ++ allocated) ;; note_new_blocks allocated
        else mret tt))
      (fun _ mp' => table mp'.1 rid = l ++ take (Z.to_nat k) (untouched bs fl)
        /\ num_cached_block mp'.1 = <[rid := zlen l]> (num_cached_block m)
        /\ step_ok m p own mp'.1 mp'.2 (drop (Z.to_nat k) (untouched bs fl))
             (own_add (own_add own bs) (take (Z.to_nat k) (untouched bs fl)))
        /\ others rid m mp'.1
        /\ (k = 0 -> forall r, block_hash_in mp'.2 r = block_hash_in p r)) (touch_table rid m, p1)).
  { intros p1 Hinv1 Hcf1 Hh1. apply wp_bind, wp_modify, wp_bind, wp_modify. simpl. rewrite put_touch.
    pose proof (touch_step p p1 fl own m rid S bs Hinv Hok Ht Hnc Hhit' Hinv1 Hcf1 Hh1) as Hstep.
    fold l in Hstep.
    set (m1 := set_num_cached_block (fun _ => <[rid := zlen l]> (num_cached_block m)) (set_req_to_blocks <[rid := l]> m)) in *.
    change (set_num_cached_block <[rid := zlen l]> (set_req_to_blocks <[rid := l]> m)) with m1.
    assert (Ht1 : table m1 rid = l) by (unfold table, m1; simpl; by rewrite lookup_insert_eq).
    destruct (0 <? external') eqn:Ee.
    - apply wp_bind, wp_on_pool. unfold k in *.
      set (kk := cdiv (local + external) (block_size m) - zlen l) in *.
      replace kk with (Z.of_nat (Z.to_nat kk)) at 1 by lia.
      eapply wp_mono; [apply get_new_blocks_wp; [exact Hinv1|unfold zlen in Hk; lia]|].
      intros new p2 (-> & Hinv2 & Hcf2 & Hh2). apply wp_bind, wp_modify, wp_note. intros f. cbn [fst snd].
      pose proof (grow_step p1 p2 (untouched bs fl) (own_add own bs) m1 rid (Z.to_nat kk) Hinv1
        (st_mgr _ _ _ _ _ _ _ Hstep) ltac:(unfold zlen in Hk; lia) Hinv2 Hcf2 Hh2) as Hstep2.
      rewrite Ht1 in Hstep2.
      split_and!.
      + unfold table. simpl. by rewrite lookup_insert_eq.
      + done.
      + apply step_ok_note. eapply step_ok_trans; [exact Hstep|exact Hstep2].
      + intros rid' Hne. unfold table. simpl. by rewrite !lookup_insert_ne.
      + intros Hk0 r. rewrite Hh2, Hk0. rewrite decide_False; [by rewrite Hh1|]. simpl. intros [Hin _]. by apply not_elem_of_nil in Hin.
    - apply wp_ret. cbn [fst snd]. unfold k. simpl. rewrite app_nil_r, drop_0. split_and!; [done|done| | |done].
      + eapply step_ok_own_ext; [|exact Hstep]. intros r. apply own_add_nil.
      + intros rid' Hne. unfold table. simpl. by rewrite lookup_insert_ne. }
  rewrite (mo_caching _ _ _ Hok). destruct (enable_caching p) eqn:Ec.
  - apply wp_on_pool. eapply wp_mono; [apply (touch_wp p fl own bs Hinv)|].
    { intros r Hr. destruct Hhit' as [Hr' _]. destruct (Hr' r Hr) as [[? _]|?]; auto. }
    intros [] p1 (Hinv1 & Hcf1 & Hh1). by apply Hrest.
  - assert (Hbs : bs = []) by (unfold bs; by rewrite (Hcache eq_refl), drop_nil).
    apply wp_assert; [by apply bool_decide_eq_true_2|]. apply Hrest; [|done|done]. rewrite Hbs.
    unfold untouched. rewrite filter_all_in by (intros; apply not_elem_of_nil).
    destruct Hinv as [Hc0 Hf0]. split.
    + eapply core_own_ext; [|exact Hc0]. intros r _. apply own_add_nil.
    + intros r. rewrite own_add_nil. apply Hf0.
Qed.

(** *** Caching full blocks *)

(** The events can be computed: the multimodal inputs are well-formed. *)
Definition events_ok (p : BlockPool) (request : Request) (bs : Z) : Prop :=
  enable_kv_cache_events p = true ->
  0 <= bs /\ memo_ok sha256 request /\ exists lo, mm_wf lo (mm_features request).

Lemma replace_table_id m rid l : req_to_blocks m !! rid = Some l -> set_req_to_blocks <[rid := l]> m = m.
Proof. intros H. unfold set_req_to_blocks. rewrite insert_id by done. by destruct m. Qed.

Lemma cache_blocks_wp p fl own m request num_tokens hs l :
  let rid := request_id request in
  let nc := default 0 (num_cached_block m !! rid) in
  let nf := num_tokens / block_size m in
  pool_inv p fl own -> mgr_ok p own m -> enable_caching p = true ->
  req_to_blocks m !! rid = Some l -> nf <= zlen l ->
  hashes_at request (hash_block_size p) (block_size m) = Ok hs -> nf <= zlen hs ->
  nf <= zlen (block_hashes request) -> events_ok p request (block_size m) ->
  wp (base_cache_blocks use_int sha256 request num_tokens)
     (fun _ mp' => req_to_blocks mp'.1 = req_to_blocks m
        /\ num_cached_block mp'.1 = (if nf <=? nc then num_cached_block m else <[rid := nf]> (num_cached_block m))
        /\ step_ok m p own mp'.1 mp'.2 fl own
        /\ (forall i r h, nc <= Z.of_nat i < nf -> l !! i = Some r -> hs !! i = Some h -> pool_usable p r ->
              block_hash_in mp'.2 r = Some (key_of h (kv_cache_group_id m)))
        /\ (forall r, pool_usable p r -> (forall i, nc <= Z.of_nat i < nf -> l !! i <> Some r) ->
              block_hash_in mp'.2 r = block_hash_in p r)) (m, p).
Proof.
  intros rid nc nf Hinv Hok Hca Hl Hnf Hhs Hlen Hlenr Hev. unfold base_cache_blocks.
  apply wp_bind, wp_gets, wp_bind, wp_gets, wp_bind, wp_gets. simpl fst. fold rid nc nf.
  destruct (nf <=? nc) eqn:E.
  { pose proof (step_ok_refl p fl own m Hinv Hok). apply wp_ret. split_and!; try done. intros. lia. }
  assert (Hnc : 0 <= nc).
  { unfold nc. destruct (num_cached_block m !! rid) as [n|] eqn:En; [by eapply mo_cached|done]. }
  apply wp_bind, wp_req_blocks_of. unfold table, touch_table. rewrite Hl. simpl. apply wp_bind, wp_on_pool.
  set (bs := block_size m) in *.
  assert (Hsl : forall j r, py_slice l nc nf !! j = Some r ->
    l !! (Z.to_nat nc + j)%nat = Some r /\ Z.of_nat j < nf - nc).
  { intros j r. rewrite py_slice_nonneg by lia. intros [Hj Hlt]%lookup_take_Some.
    rewrite lookup_drop in Hj. split; [done|lia]. }
  assert (Huniq : forall i j r, l !! i = Some r -> l !! j = Some r -> pool_usable p r -> i = j).
  { intros i j r Hi Hj Hr. pose proof (mo_distinct _ _ _ Hok rid l r Hl Hr) as Hd. by eapply occ_le1_unique. }
  assert (Hrefs : forall r, r ∈ l -> pool_usable p r \/ r = Blk 0) by (intros; by eapply mo_refs).
  eapply wp_mono; [apply (cache_full_blocks_wp use_int sha256 p fl own request l hs nc nf bs (kv_cache_group_id m))|]; try done.
  { apply (mo_gid _ _ _ Hok). }
  { intros r [j Hj]%list_elem_of_lookup Hr. apply Hsl in Hj as [Hj _].
    apply (mo_tail _ _ _ Hok Hca rid l _ r Hl Hj Hr). fold nc. lia. }
  { intros i j r Hi Hj Hr. apply Hsl in Hi as [Hi _], Hj as [Hj _]. pose proof (Huniq _ _ _ Hi Hj Hr). lia. }
  intros [] p' (Hinv' & Hcf & Hset & Hkeep). apply wp_modify. cbn [fst snd].
  assert (Hkeep' : forall r, pool_usable p r -> (forall i, nc <= Z.of_nat i < nf -> l !! i <> Some r) ->
              block_hash_in p' r = block_hash_in p r).
  { intros r Hr Hni. apply Hkeep. left. intros [j Hj]%list_elem_of_lookup. apply Hsl in Hj as [Hj Hlt].
    apply (Hni (Z.to_nat nc + j)%nat); [lia|done]. }
  split_and!; [done|done| |done|done].
  replace (set_num_cached_block <[rid := nf]> m)
    with (set_num_cached_block (fun _ => <[rid := nf]> (num_cached_block m)) (set_req_to_blocks <[rid := l]> m))
    by (rewrite replace_table_id by done; done).
  assert (Ht : table m rid = l) by (unfold table; by rewrite Hl).
  apply replace_step with (rid := rid); try done.
  - intros r _. by rewrite Ht.
  - intros r Hr. by eapply mo_distinct.
  - intros rid' Hne. by rewrite lookup_insert_ne.
  - intros n. rewrite lookup_insert_eq. intros [= <-]. lia.
  - intros _ i r Hi Hr. rewrite lookup_insert_eq. simpl. intros Hn.
    destruct (mo_tail _ _ _ Hok Hca rid l i r Hl Hi Hr ltac:(fold nc; lia)) as [Hnone Hone]. split; [|done].
    rewrite Hkeep'; [done|done|]. intros j Hj Hlj. pose proof (Huniq _ _ _ Hi Hlj Hr). lia.
  - intros r Hr Hnone Ho Hz. rewrite Ht in Hz. split; [done|]. rewrite Hkeep'; [done|done|].
    intros i _ Hi. apply occ_0_iff in Hz. apply Hz. by eapply list_elem_of_lookup_2.
Qed.

(** *** How many blocks an allocation takes *)

Lemma evictable_count p fl own bs :
  pool_inv p fl own -> (forall r, r ∈ bs -> pool_usable p r \/ r = Blk 0) ->
  (forall r, pool_usable p r -> (occ r bs <= 1)%nat) ->
  num_evictable_blocks p bs = zlen fl - zlen (untouched bs fl).
Proof.
  intros Hinv Href Hdist. pose proof (inv_fl_nodup _ _ _ Hinv) as Hnd. destruct Hinv as [Hc Hfl].
  unfold num_evictable_blocks.
  assert (Hrel : forall r, r ∈ bs -> releasable p r = true <-> r ∈ fl).
  { intros r Hr. destruct (core_load_any p fl own r Hc (Href r Hr)) as (i & c & nl & HD & Hu & Hnull).
    unfold releasable. unfold data_of in HD. apply fmap_Some in HD as (b & -> & [= _ <- _ <-]).
    destruct (Href r Hr) as [Hur| ->].
    - destruct (Hu Hur) as (_ & -> & ->). rewrite Hfl. split; [intros; split; [done|lia]|intros [_ ->]; done].
    - destruct (Hnull eq_refl) as [_ ->]. rewrite Hfl, andb_false_r. split; [done|].
      by intros [?%usable_ne_null _]. }
  assert (Hperm : filter (fun r => releasable p r = true) bs ≡ₚ filter (fun r => r ∈ bs) fl).
  { apply NoDup_Permutation.
    - apply NoDup_occ. intros r. rewrite list_elem_of_filter. intros [Hr Hin].
      pose proof (occ_filter_le r (fun r => releasable p r = true) bs).
      apply Hrel in Hr; [|done]. apply Hfl in Hr as [Hr _]. specialize (Hdist r Hr). lia.
    - by apply NoDup_filter.
    - intros r. rewrite !list_elem_of_filter. specialize (Hrel r). tauto. }
  unfold zlen. rewrite Hperm.
  assert (Hpart : (length (filter (fun r => r ∈ bs) fl) + length (untouched bs fl) = length fl)%nat).
  { unfold untouched. clear. induction fl as [|x fl IH]; [done|]. rewrite !filter_cons.
    repeat case_decide; simpl; try tauto; lia. }
  lia.
Qed.

(** The two phases of an allocation take exactly the announced number of
    blocks out of the free queue. *)
Lemma num_blocks_exact p fl own m rid num_tokens computed total :
  pool_inv p fl own -> mgr_ok p own m -> num_cached_block m !! rid = None -> table m rid = [] ->
  hit_ok p computed -> 0 <= num_tokens ->
  let S := skipped_blocks m total in
  let bs := drop S computed in
  base_num_blocks_to_allocate rid num_tokens computed total (m, p)
  = Ok (zlen fl - zlen (untouched bs fl)
        + Z.max 0 (cdiv num_tokens (block_size m) - zlen (replicate S (Blk 0) ++ bs))).
Proof.
  intros Hinv Hok Hnc Ht Hhit Hnt S bs. unfold base_num_blocks_to_allocate. rewrite Hnc. fold (table m rid).
  rewrite Ht, zlen_nil. f_equal.
  set (skipped := get_num_skipped_tokens (spec_kind (kv_cache_spec m)) total).
  assert (HS : Z.max 0 (skipped / block_size m - 0) = Z.of_nat S) by (unfold S, skipped_blocks; fold skipped; lia).
  rewrite HS, py_slice_from_nonneg, Nat2Z.id by lia. fold bs.
  destruct (hit_ok_drop p computed S Hhit) as [Href Hdist]. fold bs in Href, Hdist.
  rewrite (evictable_count p fl own bs Hinv); [|intros r Hr; destruct (Href r Hr) as [[? _]|?]; auto|done].
  rewrite zlen_app. unfold zlen, bs. rewrite length_replicate, length_drop. fold (zlen computed).
  set (F := Z.of_nat (length fl) - _). unfold zlen. clearbody F.
  pose proof (cdiv_nonneg num_tokens (block_size m) (mo_pos _ _ _ Hok) Hnt). lia.
Qed.
End Ops.
