(* ===== verification/SingleTypeSpec.v ===== *)
(** * Properties of the single-type managers

    The contract a manager offers the coordinator: the number of blocks it
    announces is the number it takes, so that an announced allocation never
    fails; tables grow, shrink and are nulled exactly as documented; and the
    reference counts of the pool stay equal to the occurrences in the tables. *)

From S2P Require Import Prelude FreeQueue Request Hashing HashingLemmas BlockPool BlockPoolLemmas Samples.
From S2P Require Import SingleType SingleTypeLemmas.
From Stdlib Require Import Strings.Byte.
Local Open Scope Z_scope.

Section Admission.
Context (use_int : bool).

(** What the coordinator runs on each manager to admit a request. *)
Definition admit_request (rid : string) (computed : list ref) (local external num_tokens : Z) : M MP (list ref) :=
  base_allocate_new_computed_blocks use_int rid computed local external ;;
  base_allocate_new_blocks use_int rid num_tokens.

(** Windows and chunks are positive. *)
Definition kind_ok (k : attn_kind) : Prop :=
  match k with SlidingWindow w => 1 <= w | ChunkedLocalAttention c => 1 <= c | _ => True end.

Lemma skipped_le k n : kind_ok k -> 0 <= n -> get_num_skipped_tokens k n <= n.
Proof.
  destruct k as [| |w|c|mo sp| |sl];
    cbn [get_num_skipped_tokens kind_ok]; unfold sw_skipped_tokens, chunked_skipped_tokens, mamba_skipped_tokens; try lia. intros Hc Hn. pose proof (Z.mul_div_le n c). lia.
Qed.

Lemma skipped_blocks_le m n : kind_ok (spec_kind (kv_cache_spec m)) -> 0 < block_size m -> 0 <= n ->
  Z.of_nat (skipped_blocks m n) <= cdiv n (block_size m).
Proof.
  intros Hk Hbs Hn. unfold skipped_blocks. pose proof (skipped_le _ _ Hk Hn) as Hs.
  pose proof (floordiv_le_cdiv n (block_size m) Hbs). pose proof (cdiv_nonneg n (block_size m) Hbs Hn).
  pose proof (Z.div_le_mono _ _ (block_size m) Hbs Hs). lia.
Qed.

(** The number of blocks a manager announces for a new request is exact.
    If that many blocks are free, admitting the request (touching the cached
    blocks, then allocating for the external and the new tokens) does not raise,
    takes exactly the announced number of blocks out of the free queue, and
    leaves a table of null blocks for the skipped prefix, the rest of the hit,
    and fresh blocks, long enough for all tokens. *)
Theorem admission_exact p fl own m rid computed local external num_tokens :
  pool_inv p fl own -> mgr_ok p own m -> kind_ok (spec_kind (kv_cache_spec m)) ->
  table m rid = [] -> num_cached_block m !! rid = None ->
  (enable_caching p = false -> computed = []) -> hit_ok p computed ->
  0 <= external -> zlen computed * block_size m <= local -> local + external <= num_tokens ->
  exists n, base_num_blocks_to_allocate rid num_tokens computed (local + external) (m, p) = Ok n /\ 0 <= n
    /\ (n <= get_num_free_blocks p ->
        exists new fl' own' m' p', admit_request rid computed local external num_tokens (m, p) = (Ok new, (m', p'))
          /\ step_ok m p own m' p' fl' own'
          /\ get_num_free_blocks p' = get_num_free_blocks p - n
          /\ exists fresh, table m' rid = replicate (skipped_blocks m (local + external)) (Blk 0)
                             ++ drop (skipped_blocks m (local + external)) computed ++ fresh
             /\ (forall r, r ∈ fresh -> r ∈ fl /\ r ∉ drop (skipped_blocks m (local + external)) computed)
             /\ cdiv num_tokens (block_size m) <= zlen (table m' rid)).
Proof.
  intros Hinv Hok Hk Ht Hnc Hca Hhit Hext Hloc Htot. pose proof (mo_pos _ _ _ Hok) as Hbs.
  pose proof (zlen_nonneg computed) as Hzc.
  rewrite (num_blocks_exact p fl own) by (done || nia). set (S := skipped_blocks m (local + external)) in *.
  set (bs := drop S computed). set (l := replicate S (Blk 0) ++ bs).
  assert (Hul : zlen (untouched bs fl) <= zlen fl).
  { unfold zlen, untouched. pose proof (length_filter (fun r => r ∉ bs) fl). lia. }
  eexists. split; [done|]. split; [lia|]. intros Hfree.
  assert (Hnum : forall q fl0 own0, pool_inv q fl0 own0 -> get_num_free_blocks q = zlen fl0).
  { intros q fl0 own0 [Hc _]. apply (repr_num _ _ (pc_repr _ _ _ Hc)). }
  rewrite (Hnum p fl own Hinv) in *.
  assert (HS : Z.of_nat S <= cdiv (local + external) (block_size m)).
  { apply skipped_blocks_le; [done|done|]. nia. }
  assert (Hlen : zlen l = Z.max (Z.of_nat S) (zlen computed)).
  { unfold l, bs, zlen. rewrite length_app, length_replicate, length_drop. lia. }
  pose proof (cdiv_le_mono (local + external) num_tokens (block_size m) Hbs Htot) as Hmono.
  set (external' := if decide (S = 0%nat) then external
    else Z.min (local + external - get_num_skipped_tokens (spec_kind (kv_cache_spec m)) (local + external)) external).
  set (k := if 0 <? external' then cdiv (local + external) (block_size m) - zlen l else 0).
  assert (Hcomp : zlen computed <= cdiv (local + external) (block_size m)).
  { pose proof (cdiv_bounds (local + external) (block_size m) Hbs). nia. }
  assert (Hk0 : 0 <= k <= zlen (untouched bs fl)).
  { pose proof (zlen_nonneg (untouched bs fl)). unfold k. destruct (0 <? external'); lia. }
  pose proof (allocate_new_computed_wp use_int p fl own m rid computed local external Hinv Hok Ht Hnc Hca Hhit Hk0) as Hw.
  apply wp_run in Hw as ([] & [m1 p1] & Hr1 & Ht1 & Hnc1 & Hst1 & _). cbn [fst snd] in Ht1, Hnc1, Hst1.
  fold S bs l external' k in Ht1, Hst1. set (fr1 := take (Z.to_nat k) (untouched bs fl)) in *.
  set (fl1 := drop (Z.to_nat k) (untouched bs fl)) in *.
  assert (Hbs1 : block_size m1 = block_size m) by apply (st_static _ _ _ _ _ _ _ Hst1).
  assert (Hfr1 : zlen fr1 = k) by (unfold fr1, zlen in *; rewrite length_take; lia).
  assert (Hfl1 : zlen fl1 = zlen (untouched bs fl) - k) by (unfold fl1, zlen in *; rewrite length_drop; lia).
  assert (Hmiss : blocks_missing m1 rid num_tokens = Z.max 0 (cdiv num_tokens (block_size m) - zlen l) - k).
  { unfold blocks_missing. rewrite Hbs1, Ht1, zlen_app, Hfr1. unfold k. destruct (0 <? external'); lia. }
  pose proof (allocate_new_blocks_wp use_int p1 fl1 _ m1 rid num_tokens (st_pool _ _ _ _ _ _ _ Hst1)
    (st_mgr _ _ _ _ _ _ _ Hst1) ltac:(lia)) as Hw2.
  apply wp_run in Hw2 as (new & [m2 p2] & Hr2 & -> & Ht2 & Hnc2 & Hst2 & _). cbn [fst snd] in Ht2, Hnc2, Hst2.
  set (k2 := Z.to_nat (blocks_missing m1 rid num_tokens)) in *.
  assert (Hk2 : Z.of_nat k2 = Z.max 0 (cdiv num_tokens (block_size m) - zlen l) - k /\ Z.of_nat k2 <= zlen fl1).
  { unfold k2. rewrite Hmiss. unfold k in *. destruct (0 <? external'); lia. }
  pose proof (eq_refl : fr1 = take (Z.to_nat k) (untouched bs fl)) as Efr.
  pose proof (eq_refl : fl1 = drop (Z.to_nat k) (untouched bs fl)) as Efl.
  clearbody k2 k fr1 fl1. clear Hmiss.
  eexists _, _, _, m2, p2. split; [unfold admit_request, mbind, M_bind; rewrite Hr1; exact Hr2|].
  split; [eapply step_ok_trans; [exact Hst1|exact Hst2]|]. split.
  { rewrite (Hnum p2 _ _ (st_pool _ _ _ _ _ _ _ Hst2)).
    assert (E : zlen (drop k2 fl1) = zlen fl1 - Z.of_nat k2) by (unfold zlen in *; rewrite length_drop; lia).
    rewrite E. lia. }
  exists (fr1 ++ take k2 fl1). rewrite Ht2, Ht1. unfold l. split; [by rewrite <-!app_assoc|]. split.
  - intros r [Hr|Hr]%elem_of_app; (assert (Hu : r ∈ untouched bs fl);
      [|by apply list_elem_of_filter in Hu as [? ?]]).
    + rewrite Efr in Hr. rewrite <-(take_drop (Z.to_nat k) (untouched bs fl)). apply elem_of_app. by left.
    + rewrite <-(take_drop (Z.to_nat k) (untouched bs fl)). apply elem_of_app. right. rewrite <-Efl.
      rewrite <-(take_drop k2 fl1). apply elem_of_app. by left.
  - fold l. rewrite !zlen_app, Hfr1. assert (zlen (take k2 fl1) = Z.of_nat k2); [|lia].
    unfold zlen in *. rewrite length_take. lia.
Qed.
End Admission.

(** A manager of group 0 with blocks of two tokens. *)
Definition sample_manager (k : attn_kind) : Manager :=
  mkManager 2 (mkSpec 2 k 0) true [] ∅ ∅ 0 (Blk 0) [] ∅ ∅ ∅.

Lemma sample_manager_ok k p own : enable_caching p = true -> mgr_ok p own (sample_manager k).
Proof. intros Hc. by apply mgr_ok_empty. Qed.

Lemma sample_hit_ok : hit_ok sample_pool_cached [Blk 1; Blk 2].
Proof.
  split.
  - intros r Hr. left. split; [by apply sample_used_blocks|]. apply list_elem_of_In in Hr.
    destruct Hr as [<-|[<-|[]]]; vm_compute; congruence.
  - intros r _. rewrite !occ_cons, occ_nil. repeat case_decide; simplify_eq; lia.
Qed.

Lemma admission_exact_witness :
  exists new mp', admit_request false "x" [Blk 1; Blk 2] 4 0 6 (sample_manager FullAttention, sample_pool_cached) = (Ok new, mp')
    /\ get_num_free_blocks mp'.2 = 0.
Proof.
  destruct (admission_exact false sample_pool_cached _ _ (sample_manager FullAttention) "x" [Blk 1; Blk 2] 4 0 6
    sample_pool_cached_inv) as (n & Hn & _ & Hadm).
  - by apply sample_manager_ok.
  - exact I.
  - reflexivity.
  - reflexivity.
  - discriminate.
  - apply sample_hit_ok.
  - lia.
  - vm_compute. discriminate.
  - lia.
  - vm_compute in Hn. injection Hn as <-.
    destruct Hadm as (new & fl' & own' & m' & p' & Hr & _ & Hf & _); [vm_compute; discriminate|].
    exists new, (m', p'). split; [exact Hr|]. cbn [snd]. rewrite Hf. reflexivity.
Defined.

Lemma mgr_ok_cached_zero p own m : mgr_ok p own m -> num_cached_block m = ∅ -> mgr_ok p own (set_num_cached_block <["x" := 0]> m).
Proof.
  intros [H1 H2 H3 H4 H5 H6 H7 H8 H9] HC. split; try done.
  - intros Hc rid l i r Hl Hi Hr _. eapply H8; try done. rewrite HC, lookup_empty. simpl. lia.
  - intros rid n. simpl. rewrite HC, insert_empty. intros [_ <-]%lookup_singleton_Some. done.
Qed.

Section Operations.
Context (use_int : bool) (sha256 : bytes -> bytes).

(** For a request that already runs, the manager announces the missing
    blocks; the allocation appends the first free blocks to its table, or, when
    fewer are free, raises [ValueError] and leaves the pool and every table as
    they were. *)
Theorem running_growth p fl own m rid num_tokens total n :
  pool_inv p fl own -> mgr_ok p own m -> num_cached_block m !! rid = Some n ->
  exists k, base_num_blocks_to_allocate rid num_tokens [] total (m, p) = Ok (Z.of_nat k)
    /\ if (k <=? length fl)%nat
       then exists m' p', base_allocate_new_blocks use_int rid num_tokens (m, p) = (Ok (take k fl), (m', p'))
              /\ table m' rid = table m rid ++ take k fl /\ num_cached_block m' = num_cached_block m
              /\ step_ok m p own m' p' (drop k fl) (own_add own (take k fl))
       else exists m', base_allocate_new_blocks use_int rid num_tokens (m, p) = (Err ValueError, (m', p))
              /\ forall rid', table m' rid' = table m rid'.
Proof.
  intros Hinv Hok Hn. exists (Z.to_nat (blocks_missing m rid num_tokens)). split.
  { unfold base_num_blocks_to_allocate. rewrite Hn. simpl. unfold blocks_missing, table. f_equal. lia. }
  destruct (_ <=? _)%nat eqn:E.
  - pose proof (allocate_new_blocks_wp use_int p fl own m rid num_tokens Hinv Hok) as Hw.
    apply wp_run in Hw as (new & [m' p'] & Hr & -> & Ht & Hnc & Hst & _); [|unfold zlen; lia]. by exists m', p'.
  - exists (touch_table rid m). split; [|intros rid'; apply table_touch].
    unfold base_allocate_new_blocks. unfold blocks_missing in E.
    unfold mbind, M_bind. rewrite run_req_blocks_of. unfold get_mgr, gets. cbn [fst snd].
    replace (block_size (touch_table rid m)) with (block_size m)
      by (unfold touch_table; by destruct (req_to_blocks m !! rid)).
    replace (cdiv num_tokens (block_size m) - zlen (table m rid) <=? 0) with false by lia.
    unfold on_pool, zoom. cbn [fst snd]. rewrite (get_new_blocks_error use_int p fl own); [done|apply Hinv|].
    unfold zlen at 1. lia.
Qed.

(** Freeing a request deletes its table, takes away its references, and puts
    the blocks nobody else owns at the end of the free queue, last block first,
    with their hashes, so that the tail of the request is evicted before its
    prefix; freeing an unknown request changes no block. *)
Theorem free_spec p fl own m rid :
  pool_inv p fl own -> mgr_ok p own m ->
  exists m' p' own', mgr_free rid (m, p) = (Ok tt, (m', p'))
    /\ req_to_blocks m' = delete rid (req_to_blocks m) /\ num_cached_block m' = delete rid (num_cached_block m)
    /\ step_ok m p own m' p' (fl ++ filter (fun r => pool_usable p r /\ own r = 1%nat) (reverse (table m rid))) own'
    /\ (forall r, pool_usable p r -> own' r = (own r - occ r (table m rid))%nat)
    /\ forall r, block_hash_in p' r = block_hash_in p r.
Proof.
  intros Hinv Hok. pose proof (mgr_free_wp p fl own m rid Hinv Hok) as Hw.
  apply wp_run in Hw as ([] & [m' p'] & Hr & HT & HC & fl' & own' & Hst & -> & Hh). cbn [fst snd] in *.
  exists m', p', own'. split_and!; try done. intros r Hu. pose proof (st_bal _ _ _ _ _ _ _ Hst r Hu) as Hb.
  rewrite HT, (tocc_delete_default r (req_to_blocks m) rid) in Hb. unfold table. lia.
Qed.

(** Once a block of the table is null, so are all before it. *)
Definition nulls_first (l : list ref) : Prop := forall i, l !! i = Some (Blk 0) -> forall j, (j < i)%nat -> l !! j = Some (Blk 0).

(** Removing skipped blocks replaces exactly the leading blocks that lie
    wholly before the attention window by the null block and frees them; the
    blocks of the window keep their place. *)
Theorem remove_skipped_spec p fl own m rid n :
  pool_inv p fl own -> mgr_ok p own m -> nulls_first (table m rid) ->
  exists k m' p' fl' own', base_remove_skipped_blocks rid n (m, p) = (Ok tt, (m', p'))
    /\ table m' rid = replicate k (Blk 0) ++ drop k (table m rid)
    /\ (forall i, (i < length (table m rid))%nat ->
          (i < k)%nat <-> (Z.of_nat i + 1) * block_size m <= get_num_skipped_tokens (spec_kind (kv_cache_spec m)) n)
    /\ (k <= length (table m rid))%nat
    /\ num_cached_block m' = num_cached_block m
    /\ step_ok m p own m' p' fl' own' /\ exists freed, fl' = fl ++ freed.
Proof.
  intros Hinv Hok Hnf. pose proof (remove_skipped_wp p fl own m rid n Hinv Hok) as Hw.
  apply wp_run in Hw as ([] & [m' p'] & Hr & j & fl' & own' & Hj & HT & Hstop & HC & Hst & Hfr & _). cbn [fst snd] in *.
  set (k := num_skippable m rid n) in *. pose proof (mo_pos _ _ _ Hok) as Hbs.
  assert (Hkl : (k <= length (table m rid))%nat).
  { unfold k, num_skippable. destruct (_ <=? 0); [lia|]. unfold zlen. lia. }
  exists k, m', p', fl', own'. split_and!; try done.
  - rewrite HT. replace (take j (table m rid)) with (replicate j (Blk 0)).
    { rewrite app_assoc, <-replicate_add. do 2 f_equal. lia. }
    apply list_eq. intros i. destruct (decide (i < j)%nat) as [Hi|Hi].
    + rewrite lookup_replicate_2, lookup_take_lt by done. symmetry. destruct Hstop as [->|Hs]; [lia|].
      destruct (decide (i = j - 1)%nat) as [->|]; [done|]. apply (Hnf _ Hs). lia.
    + rewrite !lookup_ge_None_2; [done| |]; rewrite ?length_take, ?length_replicate; lia.
  - intros i Hi. unfold k, num_skippable.
    set (s := get_num_skipped_tokens _ n). destruct (s <=? 0) eqn:E; [split; [lia|nia]|].
    pose proof (Z.mul_div_le s (block_size m) Hbs). pose proof (Z.mul_succ_div_gt s (block_size m) Hbs).
    pose proof (Z.div_pos s (block_size m)). unfold zlen. split; [|intros]; nia.
Qed.

(** Caching a request publishes exactly its newly full blocks under the
    hashes of their positions and moves the cached prefix of the request forward;
    no owner, table or free block changes. *)
Theorem cache_blocks_spec p fl own m request num_tokens hs l :
  let rid := request_id request in
  let nc := default 0 (num_cached_block m !! rid) in
  let nf := num_tokens / block_size m in
  pool_inv p fl own -> mgr_ok p own m -> enable_caching p = true ->
  req_to_blocks m !! rid = Some l -> nf <= zlen l ->
  hashes_at request (hash_block_size p) (block_size m) = Ok hs -> nf <= zlen hs ->
  nf <= zlen (block_hashes request) -> events_ok sha256 p request (block_size m) ->
  exists m' p', base_cache_blocks use_int sha256 request num_tokens (m, p) = (Ok tt, (m', p'))
    /\ req_to_blocks m' = req_to_blocks m
    /\ num_cached_block m' = (if nf <=? nc then num_cached_block m else <[rid := nf]> (num_cached_block m))
    /\ step_ok m p own m' p' fl own
    /\ (forall i r h, nc <= Z.of_nat i < nf -> l !! i = Some r -> hs !! i = Some h -> pool_usable p r ->
          block_hash_in p' r = Some (key_of h (kv_cache_group_id m)))
    /\ (forall r, pool_usable p r -> (forall i, nc <= Z.of_nat i < nf -> l !! i <> Some r) ->
          block_hash_in p' r = block_hash_in p r).
Proof.
  intros rid nc nf Hinv Hok Hca Hl Hnf Hhs Hlen Hlenr Hev.
  pose proof (cache_blocks_wp use_int sha256 p fl own m request num_tokens hs l Hinv Hok Hca Hl Hnf Hhs Hlen Hlenr Hev) as Hw.
  apply wp_run in Hw as ([] & [m' p'] & Hr & H). by exists m', p'.
Qed.
End Operations.

Lemma running_growth_witness :
  exists m' p', base_allocate_new_blocks false "x" 5
      (set_num_cached_block <["x" := 0]> (sample_manager FullAttention), sample_pool)
    = (Ok [Blk 1; Blk 2; Blk 3], (m', p')).
Proof.
  destruct (running_growth false sample_pool _ _ (set_num_cached_block <["x" := 0]> (sample_manager FullAttention)) "x" 5 0 0
    sample_pool_inv) as (k & Hk & Hr).
  - apply mgr_ok_cached_zero; [by apply sample_manager_ok|done].
  - reflexivity.
  - assert (Ok 3 = Ok (Z.of_nat k)) as [= Hk'] by (etransitivity; [|exact Hk]; vm_compute; reflexivity).
    assert (k = 3%nat) as -> by lia.
    destruct Hr as (m' & p' & Hr & _). exists m', p'. exact Hr.
Defined.


(** A sliding-window manager whose request ["b"] holds blocks 1 and 2. *)
Definition sample_mp : MP :=
  snd (base_allocate_new_blocks false "b" 4 (sample_manager (SlidingWindow 3), sample_pool)).

Lemma sample_mp_ok :
  pool_inv sample_mp.2 [Blk 3] (own_add (fun _ => 0%nat) [Blk 1; Blk 2])
  /\ mgr_ok sample_mp.2 (own_add (fun _ => 0%nat) [Blk 1; Blk 2]) sample_mp.1.
Proof.
  pose proof (allocate_new_blocks_wp false sample_pool _ _ (sample_manager (SlidingWindow 3)) "b" 4 sample_pool_inv
    (sample_manager_ok _ sample_pool _ eq_refl) ltac:(vm_compute; discriminate)) as Hw.
  apply wp_run in Hw as (new & mp' & Hr & -> & _ & _ & Hst & _). unfold sample_mp. rewrite Hr.
  change (Z.to_nat (blocks_missing (sample_manager (SlidingWindow 3)) "b" 4)) with 2%nat in Hst.
  split; [exact (st_pool _ _ _ _ _ _ _ Hst)|exact (st_mgr _ _ _ _ _ _ _ Hst)].
Qed.

Lemma free_spec_witness :
  exists mp', mgr_free "b" (sample_mp.1, sample_mp.2) = (Ok tt, mp') /\ get_num_free_blocks mp'.2 = 3
    /\ free_block_queue sample_mp.2 <> free_block_queue mp'.2.
Proof.
  destruct sample_mp_ok as [Hp Hm].
  destruct (free_spec sample_mp.2 _ _ sample_mp.1 "b" Hp Hm) as (m' & p' & own' & Hr & _ & _ & Hst & _).
  exists (m', p'). split; [exact Hr|].
  assert (Hn : get_num_free_blocks p' = 3).
  { destruct (st_pool _ _ _ _ _ _ _ Hst) as [Hc _]. unfold get_num_free_blocks.
    rewrite (repr_num _ _ (pc_repr _ _ _ Hc)). reflexivity. }
  split; [exact Hn|]. intros E. unfold get_num_free_blocks in Hn. cbn [snd] in E. rewrite <-E in Hn.
  vm_compute in Hn. discriminate.
Defined.

Lemma remove_skipped_spec_witness :
  exists m' p', base_remove_skipped_blocks "b" 4 (sample_mp.1, sample_mp.2) = (Ok tt, (m', p')) /\ table m' "b" = [Blk 0; Blk 2].
Proof.
  destruct sample_mp_ok as [Hp Hm].
  destruct (remove_skipped_spec sample_mp.2 _ _ sample_mp.1 "b" 4 Hp Hm) as (k & m' & p' & fl' & own' & Hr & Ht & Hk & Hle & _).
  - intros [|[|i]] Hi j Hj; vm_compute in Hi; discriminate.
  - exists m', p'. split; [exact Hr|]. rewrite Ht.
    change (table sample_mp.1 "b") with [Blk 1; Blk 2] in *. simpl in Hle.
    assert (k = 1%nat) as ->; [|reflexivity].
    pose proof (Hk 0%nat ltac:(simpl; lia)) as [_ H0]. pose proof (Hk 1%nat ltac:(simpl; lia)) as [H1 _].
    vm_compute in H0. specialize (H0 ltac:(discriminate)).
    assert (~ (1 < k)%nat) by (intros H; specialize (H1 H); vm_compute in H1; by apply H1). lia.
Defined.

Lemma cache_blocks_spec_witness :
  exists m' p', base_cache_blocks false toy_sha256 (sample_request_2 []) 4 (sample_mp.1, sample_mp.2) = (Ok tt, (m', p'))
    /\ num_cached_block m' !! "b" = Some 2.
Proof.
  destruct sample_mp_ok as [Hp Hm].
  destruct (cache_blocks_spec false toy_sha256 sample_mp.2 _ _ sample_mp.1 (sample_request_2 []) 4
    [[x01; x0a]; [x01; x1a]] [Blk 1; Blk 2] Hp Hm) as (m' & p' & Hr & _ & Hc & _).
  - reflexivity.
  - reflexivity.
  - vm_compute. discriminate.
  - reflexivity.
  - vm_compute. discriminate.
  - vm_compute. discriminate.
  - intros Hev. vm_compute in Hev. discriminate.
  - exists m', p'. split; [exact Hr|]. rewrite Hc. reflexivity.
Defined.
