(* ===== verification/CacheHit.v ===== *)
(** * Longest cache hits

    [find_longest_cache_hit] of each manager class in
    [vllm/v1/core/single_type_kv_cache_manager.py].  The block hashes are at the
    granularity of the group ([BlockHashList]; the lazily merged view is given by
    the list it denotes, see [Hashing.bhl_iter]).  A result holds, per group, the
    blocks of the hit, with the null block in the places the layer skips. *)

From S2P Require Import Prelude FreeQueue Request Hashing BlockPool SingleType.
Local Open Scope Z_scope.

(** [for computed, cached in zip(computed_blocks, cached_block): computed.append(cached)] *)
Definition append_each (computed : list (list ref)) (cached : list ref) : list (list ref) :=
  imap (fun i c => match cached !! i with Some r => c ++ [r] | None => c end) computed.

(** [... computed[i] = cached] *)
Definition assign_each (computed : list (list ref)) (i : Z) (cached : list ref) : list (list ref) :=
  imap (fun g c => match cached !! g with Some r => py_set c i r | None => c end) computed.

(** [for computed in computed_blocks: computed.pop()] *)
Fixpoint pop_each (computed : list (list ref)) : res (list (list ref)) :=
  match computed with
  | [] => Ok []
  | c :: cs => c' ← py_pop c ; cs' ← pop_each cs ; Ok (c' :: cs')
  end.

(** [while block_size != alignment_tokens and
    len(computed_blocks[0]) * block_size % alignment_tokens != 0: pop each].
    Each round shortens the first list, so its length bounds the rounds. *)
Fixpoint align_loop (fuel : nat) (bs alignment_tokens : Z) (computed : list (list ref))
    : res (list (list ref)) :=
  if bs =? alignment_tokens then Ok computed
  else
    first ← py_get computed 0 ;
    m ← py_mod (zlen first * bs) alignment_tokens ;
    if m =? 0 then Ok computed
    else
      match fuel with
      | O => Err RuntimeError
      | S fuel' => computed' ← pop_each computed ; align_loop fuel' bs alignment_tokens computed'
      end.

Definition align_computed (bs alignment_tokens : Z) (computed : list (list ref)) : res (list (list ref)) :=
  align_loop (match computed with c :: _ => length c | [] => 0%nat end) bs alignment_tokens computed.

(** [if use_eagle and computed_blocks[0]: pop each] *)
Definition eagle_pop (use_eagle : bool) (computed : list (list ref)) : res (list (list ref)) :=
  if use_eagle then
    first ← py_get computed 0 ;
    match first with [] => Ok computed | _ => pop_each computed end
  else Ok computed.

Section Hits.
Context (p : BlockPool) (kv_cache_group_ids : list Z).

(** ** Full attention *)

Fixpoint full_loop (hashes : list bytes) (computed : list (list ref)) : res (list (list ref)) :=
  match hashes with
  | [] => Ok computed
  | h :: hashes' =>
      cached ← get_cached_block p h kv_cache_group_ids ;
      match cached with
      | Some (r :: rs) => full_loop hashes' (append_each computed (r :: rs))
      | _ => Ok computed
      end
  end.

Definition full_attention_hit (block_hashes : list bytes) (max_length bs : Z) (use_eagle : bool)
    (alignment_tokens : Z) : res (list (list ref)) :=
  let max_num_blocks := max_length / bs in
  computed ← full_loop (take (Z.to_nat max_num_blocks) block_hashes)
               (replicate (length kv_cache_group_ids) []) ;
  computed ← eagle_pop use_eagle computed ;
  align_computed bs alignment_tokens computed.

(** ** Sliding window *)

(** State of the right-to-left search. *)
Record sw_state := mkSW {
  sw_computed : list (list ref);
  sw_contiguous : Z;
  sw_found : bool
}.

Fixpoint sw_loop (block_hashes : list bytes) (bs alignment_tokens need : Z) (idxs : list Z)
    (st : sw_state) : res sw_state :=
  match idxs with
  | [] => Ok st
  | i :: idxs' =>
      h ← py_get block_hashes i ;
      cached ← get_cached_block p h kv_cache_group_ids ;
      match cached with
      | Some (r :: rs) =>
          skip ← (if (sw_contiguous st =? 0) && negb (bs =? alignment_tokens)
                  then m ← py_mod ((i + 1) * bs) alignment_tokens ; Ok (negb (m =? 0))
                  else Ok false) ;
          if (skip : bool) then sw_loop block_hashes bs alignment_tokens need idxs' st
          else
            let computed := assign_each (sw_computed st) i (r :: rs) in
            let n := sw_contiguous st + 1 in
            if need <=? n
            then Ok (mkSW (fmap (fun c => py_slice_to c (i + n)) computed) n true)
            else sw_loop block_hashes bs alignment_tokens need idxs' (mkSW computed n false)
      | _ => sw_loop block_hashes bs alignment_tokens need idxs' (mkSW (sw_computed st) 0 false)
      end
  end.

Definition sliding_window_hit (block_hashes : list bytes) (max_length bs sliding_window : Z)
    (use_eagle : bool) (alignment_tokens world_size : Z) : res (list (list ref)) :=
  if negb (world_size =? 1) then Err AssertionError
  else
    let need := cdiv (sliding_window - 1) bs + (if use_eagle then 1 else 0) in
    let max_num_blocks := max_length / bs in
    st ← sw_loop block_hashes bs alignment_tokens need (zrange_down max_num_blocks 0)
           (mkSW (replicate (length kv_cache_group_ids) (zreplicate max_num_blocks (null_block p))) 0 false) ;
    computed ← (if sw_found st then Ok (sw_computed st)
                else align_computed bs alignment_tokens
                       (fmap (fun c => py_slice_to c (sw_contiguous st)) (sw_computed st))) ;
    if use_eagle then
      first ← py_get computed 0 ;
      match first with
      | [] => Ok computed
      | _ => computed ← pop_each computed ; align_computed bs alignment_tokens computed
      end
    else Ok computed.

(** ** Chunked local attention *)

Fixpoint chunked_loop (block_hashes : list bytes) (idxs : list Z) (computed : list (list ref))
    : res (list (list ref)) :=
  match idxs with
  | [] => Ok computed
  | i :: idxs' =>
      h ← py_get block_hashes i ;
      cached ← get_cached_block p h kv_cache_group_ids ;
      match cached with
      | Some (r :: rs) => chunked_loop block_hashes idxs' (append_each computed (r :: rs))
      | _ => Ok computed
      end
  end.

Definition chunked_local_hit (block_hashes : list bytes) (max_length bs attention_chunk_size : Z)
    (use_eagle : bool) (alignment_tokens world_size : Z) : res (list (list ref)) :=
  if use_eagle || negb (world_size =? 1) || negb (bs =? alignment_tokens) then Err AssertionError
  else
    let max_num_blocks := max_length / bs in
    let local_attention_start_idx :=
      if 0 <? max_length then max_length / attention_chunk_size * attention_chunk_size else 0 in
    let start := local_attention_start_idx / bs in
    chunked_loop block_hashes (zrange start max_num_blocks)
      (replicate (length kv_cache_group_ids) (zreplicate start (null_block p))).

(** ** Mamba *)

Fixpoint mamba_loop (block_hashes : list bytes) (bs alignment_tokens : Z) (idxs : list Z)
    (computed : list (list ref)) : res (list (list ref)) :=
  match idxs with
  | [] => Ok computed
  | i :: idxs' =>
      h ← py_get block_hashes i ;
      cached ← get_cached_block p h kv_cache_group_ids ;
      match cached with
      | Some (r :: rs) =>
          skip ← (if negb (bs =? alignment_tokens)
                  then m ← py_mod ((i + 1) * bs) alignment_tokens ; Ok (negb (m =? 0))
                  else Ok false) ;
          if (skip : bool) then mamba_loop block_hashes bs alignment_tokens idxs' computed
          else Ok (append_each (fmap (fun c => c ++ zreplicate i (null_block p)) computed) (r :: rs))
      | _ => mamba_loop block_hashes bs alignment_tokens idxs' computed
      end
  end.

Definition mamba_hit (block_hashes : list bytes) (max_length bs alignment_tokens world_size : Z)
    : res (list (list ref)) :=
  if negb (world_size =? 1) then Err AssertionError
  else
    mamba_loop block_hashes bs alignment_tokens (zrange_down (max_length / bs) 0)
      (replicate (length kv_cache_group_ids) []).

(** ** Dispatch on the manager class *)

Definition find_longest_cache_hit (block_hashes : list bytes) (max_length : Z) (spec : KVCacheSpec)
    (use_eagle : bool) (alignment_tokens world_size : Z) : res (list (list ref)) :=
  let bs := spec_block_size spec in
  match spec_kind spec with
  | FullAttention | MLAAttention | SinkFullAttention _ =>
      full_attention_hit block_hashes max_length (if 1 <? world_size then bs * world_size else bs)
        use_eagle alignment_tokens
  | SlidingWindow w => sliding_window_hit block_hashes max_length bs w use_eagle alignment_tokens world_size
  | ChunkedLocalAttention c =>
      chunked_local_hit block_hashes max_length bs c use_eagle alignment_tokens world_size
  | Mamba _ _ => mamba_hit block_hashes max_length bs alignment_tokens world_size
  | CrossAttention => Err NotImplementedError
  end.
End Hits.
