(* ===== verification/CacheHitLemmas.v ===== *)
(** * Lemmas on longest cache hits

    A result of [find_longest_cache_hit] is a tuple with one list per group.  The
    lemmas view it as a list of rows, one per block position, and describe which
    rows each search returns. *)

From S2P Require Import Prelude FreeQueue Request Hashing BlockPool BlockPoolLemmas SingleType CacheHit.
Local Open Scope Z_scope.

(** ** Rows and columns *)

(** The [G] columns of a list of rows. *)
Definition columns (G : nat) (rows : list (list ref)) : list (list ref) :=
  (fun g => (fun row : list ref => row !!! g) <$> rows) <$> seq 0 G.

Definition wide (G : nat) (rows : list (list ref)) : Prop := Forall (fun row => length row = G) rows.

Lemma length_columns G rows : length (columns G rows) = G.
Proof. unfold columns. by rewrite length_fmap, length_seq. Qed.

Lemma columns_lookup G rows g :
  (g < G)%nat -> columns G rows !! g = Some ((fun row : list ref => row !!! g) <$> rows).
Proof. intros Hg. unfold columns. by rewrite list_lookup_fmap, lookup_seq_lt by done. Qed.

Lemma columns_eq G cs rows :
  length cs = G -> (forall g, (g < G)%nat -> cs !! g = Some ((fun row : list ref => row !!! g) <$> rows)) ->
  cs = columns G rows.
Proof.
  intros Hl Hg. apply list_eq. intros g. destruct (decide (g < G)%nat).
  - by rewrite Hg, columns_lookup.
  - rewrite !lookup_ge_None_2; [done|rewrite length_columns; lia|lia].
Qed.

Lemma columns_nil G : columns G [] = replicate G [].
Proof.
  symmetry. apply columns_eq; [by rewrite length_replicate|]. intros g Hg.
  by rewrite lookup_replicate_2.
Qed.

Lemma columns_null G n (r : ref) :
  replicate G (replicate n r) = columns G (replicate n (replicate G r)).
Proof.
  apply columns_eq; [by rewrite length_replicate|]. intros g Hg. rewrite lookup_replicate_2 by done.
  f_equal. rewrite fmap_replicate. f_equal. by rewrite lookup_total_replicate_2.
Qed.

Lemma lookup_imap_columns G rows (f : nat -> list ref -> list ref) g :
  (g < G)%nat -> imap f (columns G rows) !! g = Some (f g ((fun row : list ref => row !!! g) <$> rows)).
Proof. intros Hg. by rewrite list_lookup_imap, columns_lookup. Qed.

Lemma append_each_columns G rows row :
  length row = G -> append_each (columns G rows) row = columns G (rows ++ [row]).
Proof.
  intros Hr. unfold append_each. apply columns_eq; [by rewrite length_imap, length_columns|].
  intros g Hg. rewrite lookup_imap_columns by done.
  destruct (lookup_lt_is_Some_2 row g ltac:(lia)) as [r Er]. rewrite Er, fmap_app. simpl.
  by rewrite (list_lookup_total_correct _ _ _ Er).
Qed.

Lemma assign_each_columns G rows i row :
  length row = G -> 0 <= i ->
  assign_each (columns G rows) i row = columns G (<[Z.to_nat i := row]> rows).
Proof.
  intros Hr Hi. unfold assign_each. apply columns_eq; [by rewrite length_imap, length_columns|].
  intros g Hg. rewrite lookup_imap_columns by done.
  destruct (lookup_lt_is_Some_2 row g ltac:(lia)) as [r Er]. rewrite Er. unfold py_set.
  rewrite list_fmap_insert. by rewrite (list_lookup_total_correct _ _ _ Er).
Qed.

Lemma py_pop_fmap {A B} (f : A -> B) l : l <> [] -> py_pop (f <$> l) = Ok (f <$> removelast l).
Proof.
  destruct l as [|x l] using rev_ind; [done|]. intros _. rewrite removelast_last, fmap_app.
  apply py_pop_snoc.
Qed.

Lemma pop_each_columns G rows : rows <> [] -> pop_each (columns G rows) = Ok (columns G (removelast rows)).
Proof.
  intros Hne. unfold columns. induction (seq 0 G) as [|g l IH]; [done|].
  rewrite !fmap_cons. cbn [pop_each]. by rewrite py_pop_fmap, IH by done.
Qed.

Lemma columns_first G rows : (0 < G)%nat ->
  exists c, py_get (columns G rows) 0 = Ok c /\ length c = length rows /\ (c = [] <-> rows = []).
Proof.
  intros HG. eexists. split; [by apply py_get_Some, columns_lookup|]. rewrite length_fmap.
  split; [done|]. by destruct rows.
Qed.

(** ** Alignment *)

(** The longest aligned number of blocks that is not larger than [n]. *)
Fixpoint aligned_len (bs al : Z) (n : nat) : nat :=
  if (bs =? al) || (Z.of_nat n * bs mod al =? 0) then n
  else match n with O => O | S n' => aligned_len bs al n' end.

Lemma aligned_len_le bs al n : (aligned_len bs al n <= n)%nat.
Proof. induction n as [|n IH]; simpl; [by destruct (_ || _)|]. destruct (_ || _); lia. Qed.

Lemma aligned_len_spec bs al n :
  bs = al \/ Z.of_nat (aligned_len bs al n) * bs mod al = 0.
Proof.
  destruct (decide (bs = al)) as [|Hne]; [by left|]. right.
  assert (Hb : (bs =? al) = false) by lia.
  induction n as [|n IH]; cbn [aligned_len]; rewrite Hb; cbn [orb].
  - replace (if _ =? 0 then 0%nat else 0%nat) with 0%nat by (by destruct (_ =? 0)). apply Zmod_0_l.
  - destruct (_ =? 0) eqn:E; [lia|done].
Qed.

Lemma aligned_len_max bs al n m :
  (m <= n)%nat -> Z.of_nat m * bs mod al = 0 -> (m <= aligned_len bs al n)%nat.
Proof.
  intros Hm Ha. induction n as [|n IH]; [simpl; by destruct (_ || _)|]. simpl.
  destruct (_ || _) eqn:E; [done|]. apply IH. destruct (decide (m = S n)) as [->|]; [|lia].
  rewrite Ha in E. rewrite orb_true_r in E. done.
Qed.

Lemma removelast_take {A} (l : list A) : removelast l = take (length l - 1) l.
Proof. rewrite removelast_firstn_len. by replace (pred (length l)) with (length l - 1)%nat by lia. Qed.

Lemma align_loop_columns G rows bs al fuel :
  (0 < G)%nat -> al <> 0 -> (length rows <= fuel)%nat ->
  align_loop fuel bs al (columns G rows) = Ok (columns G (take (aligned_len bs al (length rows)) rows)).
Proof.
  intros HG Hal. revert rows. induction fuel as [|fuel IH]; intros rows Hf.
  - destruct rows; [|simpl in Hf; lia]. cbn [align_loop length aligned_len]. rewrite take_nil.
    destruct (bs =? al); [done|]. destruct (columns_first G [] HG) as (c & -> & Hc & _).
    unfold mbind, res_bind, py_mod. replace (al =? 0) with false by lia. unfold zlen. rewrite Hc.
    change (Z.of_nat (length (@nil (list ref))) * bs) with 0. by rewrite Zmod_0_l.
  - cbn [align_loop]. destruct (bs =? al) eqn:E.
    { replace (aligned_len bs al (length rows)) with (length rows) by (destruct (length rows); simpl; by rewrite E).
      by rewrite take_ge by lia. }
    destruct (columns_first G rows HG) as (c & -> & Hc & _). unfold mbind, res_bind, py_mod.
    replace (al =? 0) with false by lia. unfold zlen. rewrite Hc.
    destruct (Z.of_nat (length rows) * bs mod al =? 0) eqn:Em.
    { replace (aligned_len bs al (length rows)) with (length rows)
        by (destruct (length rows); cbn [aligned_len]; by rewrite E, Em).
      by rewrite take_ge by lia. }
    destruct (length rows) as [|n] eqn:En.
    { change (Z.of_nat 0 * bs) with 0 in Em. by rewrite Zmod_0_l in Em. }
    rewrite pop_each_columns by (by intros ->).
    rewrite IH by (rewrite removelast_take, length_take; lia).
    rewrite removelast_take, En, length_take, En. replace (S n - 1)%nat with n by lia.
    replace (n `min` S n)%nat with n by lia. cbn [aligned_len]. rewrite E, Em. simpl.
    rewrite take_take. by rewrite Nat.min_l by (apply aligned_len_le).
Qed.

Lemma align_computed_columns G rows bs al :
  (0 < G)%nat -> al <> 0 ->
  align_computed bs al (columns G rows) = Ok (columns G (take (aligned_len bs al (length rows)) rows)).
Proof.
  intros HG Hal. unfold align_computed. destruct G as [|G]; [lia|].
  replace (match columns (S G) rows with c :: _ => length c | [] => 0%nat end) with (length rows)
    by (unfold columns; simpl; by rewrite length_fmap).
  by apply align_loop_columns.
Qed.

Lemma eagle_pop_columns G rows e :
  (0 < G)%nat ->
  eagle_pop e (columns G rows) = Ok (columns G (take (length rows - (if e then 1 else 0)) rows)).
Proof.
  intros HG. unfold eagle_pop. destruct e; [|by rewrite take_ge by lia].
  destruct (columns_first G rows HG) as (c & -> & _ & Hc). unfold mbind, res_bind.
  destruct c as [|x c].
  - destruct Hc as [Hc _]. by rewrite (Hc eq_refl).
  - rewrite pop_each_columns, removelast_take; [done|]. intros ->. by destruct Hc as [_ Hc]; specialize (Hc eq_refl).
Qed.

(** ** Searches *)

Section Search.
Context (p : BlockPool) (gids : list Z).
Abbreviation G := (length gids).

(** The cached blocks for a hash, one per group. *)
Definition hit_row (h : bytes) : option (list ref) :=
  match get_cached_block p h gids with Ok (Some rs) => Some rs | _ => None end.
Definition hit_at (hashes : list bytes) (i : nat) : option (list ref) := hashes !! i ≫= hit_row.

(** Lookups do not raise, and return one block per group. *)
Definition lookups_ok : Prop :=
  (0 < G)%nat /\ forall h, exists o, get_cached_block p h gids = Ok o
    /\ match o with Some rs => length rs = G | None => True end.

Context (Hok : lookups_ok).

Lemma lookup_row h :
  match hit_row h with
  | Some rs => length rs = G /\ exists r rs', rs = r :: rs' /\ get_cached_block p h gids = Ok (Some (r :: rs'))
  | None => get_cached_block p h gids = Ok None
  end.
Proof.
  destruct Hok as [HG Hl]. unfold hit_row. destruct (Hl h) as (o & E & Ho). rewrite E.
  destruct o as [rs|]; [|done]. split; [done|]. destruct rs as [|r rs]; [simpl in Ho; lia|eauto].
Qed.

(** *** Full attention *)

Fixpoint hit_prefix (hashes : list bytes) : list (list ref) :=
  match hashes with
  | [] => []
  | h :: t => match hit_row h with Some r => r :: hit_prefix t | None => [] end
  end.

Lemma full_loop_columns hashes rows :
  full_loop p gids hashes (columns G rows) = Ok (columns G (rows ++ hit_prefix hashes)).
Proof.
  revert rows. induction hashes as [|h hashes IH]; intros rows; simpl; [by rewrite app_nil_r|].
  pose proof (lookup_row h) as Hh. destruct (hit_row h) as [rs|] eqn:E.
  - destruct Hh as (Hlen & r & rs' & -> & ->). simpl.
    rewrite append_each_columns, IH by done. by rewrite <-app_assoc.
  - rewrite Hh. simpl. by rewrite app_nil_r.
Qed.

Lemma full_attention_hit_columns hashes max_length bs e al :
  al <> 0 ->
  let P := hit_prefix (take (Z.to_nat (max_length / bs)) hashes) in
  full_attention_hit p gids hashes max_length bs e al
  = Ok (columns G (take (aligned_len bs al (length P - (if e then 1 else 0))) P)).
Proof.
  intros Hal P. destruct Hok as [HG _]. unfold full_attention_hit. rewrite <-columns_nil.
  unfold mbind, res_bind. rewrite full_loop_columns, eagle_pop_columns by done.
  rewrite align_computed_columns by done. fold P. rewrite app_nil_l, length_take, take_take.
  assert (Hm : ((length P - (if e then 1 else 0)) `min` length P = length P - (if e then 1 else 0))%nat) by lia.
  rewrite Hm. do 3 f_equal.
  pose proof (aligned_len_le bs al (length P - (if e then 1 else 0))). lia.
Qed.

Lemma hit_prefix_lookup hashes i :
  (i < length (hit_prefix hashes))%nat -> hit_prefix hashes !! i = hit_at hashes i /\ is_Some (hit_at hashes i).
Proof.
  revert i. induction hashes as [|h hashes IH]; intros i; simpl; [lia|].
  destruct (hit_row h) as [r|] eqn:E; simpl; [|lia]. destruct i as [|i]; simpl.
  - intros _. unfold hit_at. simpl. rewrite E. eauto.
  - intros Hi. apply (IH i). lia.
Qed.

Lemma hit_prefix_max hashes :
  (length (hit_prefix hashes) <= length hashes)%nat
  /\ ((length (hit_prefix hashes) < length hashes)%nat -> hit_at hashes (length (hit_prefix hashes)) = None).
Proof.
  induction hashes as [|h hashes [IH1 IH2]]; simpl; [split; lia|].
  destruct (hit_row h) as [r|] eqn:E; simpl; [|split; [lia|intros _; unfold hit_at; simpl; by rewrite E]].
  split; [lia|]. intros Hlt. apply IH2. lia.
Qed.

(** *** Sliding windows *)

Definition null_row : list ref := replicate G (null_block p).

(** The rows of positions [lo .. hi - 1]. *)
Definition hit_rows (hashes : list bytes) (lo n : nat) : list (list ref) :=
  (fun i => default [] (hit_at hashes i)) <$> seq lo n.

Definition is_aligned (bs al : Z) (L : nat) : Prop := bs = al \/ Z.of_nat L * bs mod al = 0.

(** A hit of [L] blocks is usable by a layer that looks back [need] blocks. *)
Definition sw_valid (hashes : list bytes) (bs al : Z) (need L : nat) : Prop :=
  is_aligned bs al L /\ forall i, (L - need <= i < L)%nat -> is_Some (hit_at hashes i).

Lemma slice_columns rows j :
  fmap (fun c => py_slice_to c (Z.of_nat j)) (columns G rows) = columns G (take j rows).
Proof.
  unfold columns. rewrite <-list_fmap_compose. apply list_fmap_ext. intros i g _. simpl.
  by rewrite py_slice_to_nonneg, Nat2Z.id, fmap_take by lia.
Qed.

Section Window.
Context (hashes : list bytes) (bs al : Z) (need N : nat).
Context (Hal : al <> 0) (Hneed : (1 <= need)%nat) (HN : (N <= length hashes)%nat).
Local Abbreviation valid := (sw_valid hashes bs al need).

(** [L] is the best hit, and [rows] are its rows: blocks in the window, null
    blocks before it. *)
Definition sw_best (rows : list (list ref)) (L : nat) : Prop :=
  (L <= N)%nat /\ valid L /\ (forall L', (L < L' <= N)%nat -> ~ valid L')
  /\ rows = replicate (L - need) null_row ++ hit_rows hashes (L - need) (L - (L - need)).

(** Before position [k - 1] is examined, with a run of [n] hits above it. *)
Definition sw_inv (k n : nat) (rows : list (list ref)) : Prop :=
  (k + n <= N)%nat /\ (n < need)%nat /\ length rows = N
  /\ (n <> 0%nat -> is_aligned bs al (k + n))
  /\ (forall L', (k + n < L' <= N)%nat -> ~ valid L')
  /\ take (k + n) rows = replicate k null_row ++ hit_rows hashes k n
  /\ (forall i, (k <= i < k + n)%nat -> is_Some (hit_at hashes i)).

Lemma hit_rows_S lo n : hit_rows hashes lo (S n) = default [] (hit_at hashes lo) :: hit_rows hashes (S lo) n.
Proof. done. Qed.

Lemma length_hit_rows lo n : length (hit_rows hashes lo n) = n.
Proof. unfold hit_rows. by rewrite length_fmap, length_seq. Qed.

Lemma sw_inv_prefix k n rows : sw_inv (S k) n rows ->
  take k rows = replicate k null_row /\ drop (S k) (take (S k + n) rows) = hit_rows hashes (S k) n.
Proof.
  intros (Hle & _ & Hlen & _ & _ & Hrows & _). split.
  - replace (take k rows) with (take k (take (S k + n) rows)) by (rewrite take_take; f_equal; lia).
    rewrite Hrows, take_app_le by (rewrite length_replicate; lia). rewrite take_replicate. f_equal. lia.
  - rewrite Hrows. rewrite drop_app_length' by (by rewrite length_replicate). done.
Qed.

Lemma sw_miss k n rows : sw_inv (S k) n rows -> hit_at hashes k = None -> sw_inv k 0 rows.
Proof.
  intros Hinv Hmiss. pose proof (sw_inv_prefix k n rows Hinv) as [Hpre _].
  destruct Hinv as (Hle & Hn & Hlen & Ha & Hmax & Hrows & Hhit). unfold sw_inv. split_and!; try done; try lia.
  - intros L' HL [HaL Hw]. destruct (decide (S k + n < L')%nat); [apply (Hmax L'); [lia|by split]|].
    destruct (Hw k ltac:(lia)) as [r Hr]. congruence.
  - rewrite Nat.add_0_r, Hpre. by rewrite app_nil_r.
Qed.

Lemma sw_skip k rows : sw_inv (S k) 0 rows -> ~ is_aligned bs al (S k) -> sw_inv k 0 rows.
Proof.
  intros Hinv Hna. pose proof (sw_inv_prefix k 0 rows Hinv) as [Hpre _].
  destruct Hinv as (Hle & Hn & Hlen & Ha & Hmax & Hrows & Hhit). unfold sw_inv. split_and!; try done; try lia.
  - intros L' HL HvL. destruct (decide (L' = S k)) as [->|]; [by destruct HvL|]. apply (Hmax L'); [lia|done].
  - rewrite Nat.add_0_r, Hpre. by rewrite app_nil_r.
Qed.

Lemma sw_hit_rows k n rows row :
  sw_inv (S k) n rows -> hit_at hashes k = Some row ->
  take (k + S n) (<[k := row]> rows) = replicate k null_row ++ hit_rows hashes k (S n).
Proof.
  intros Hinv Hrow. pose proof (sw_inv_prefix k n rows Hinv) as [Hpre Hpost].
  destruct Hinv as (Hle & _ & Hlen & _). replace (k + S n)%nat with (S k + n)%nat by lia.
  rewrite take_insert_lt by lia.
  rewrite insert_take_drop by (rewrite length_take; lia).
  rewrite take_take, Hpost, hit_rows_S, Hrow. f_equal. rewrite <-Hpre. f_equal. lia.
Qed.

(** What the search leaves: the best hit, trimmed when it was found early. *)
Definition sw_result (st : sw_state) : Prop :=
  exists L rows, sw_best rows L /\
    if sw_found st then sw_computed st = columns G rows
    else sw_contiguous st = Z.of_nat L /\ exists rows2, sw_computed st = columns G rows2 /\ take L rows2 = rows.

Lemma sw_inv_end n rows : sw_inv 0 n rows -> sw_result (mkSW (columns G rows) (Z.of_nat n) false).
Proof.
  intros (Hle & Hn & Hlen & Ha & Hmax & Hrows & Hhit). exists n, (take n rows). split.
  - split_and!; [lia| |exact Hmax|].
    + split; [|intros i Hi; apply Hhit; lia]. destruct n as [|n]; [|by apply Ha].
      right. change (Z.of_nat 0 * bs) with 0. apply Zmod_0_l.
    + change (0 + n)%nat with n in Hrows. rewrite Hrows. replace (n - need)%nat with 0%nat by lia.
      simpl. by rewrite Nat.sub_0_r.
  - simpl. split; [done|]. by exists rows.
Qed.

Lemma sw_loop_best (needZ : Z) k n rows :
  need = Z.to_nat (Z.max 1 needZ) -> sw_inv k n rows ->
  exists st, sw_loop p gids hashes bs al needZ (zrange_down (Z.of_nat k) 0)
               (mkSW (columns G rows) (Z.of_nat n) false) = Ok st /\ sw_result st.
Proof.
  intros Hnz. revert n rows. induction k as [|k IH]; intros n rows Hinv.
  { rewrite zrange_down_nil by lia. eexists. split; [done|]. by apply sw_inv_end. }
  pose proof Hinv as (Hle & Hn & Hlen & Ha & Hmax & Hrows & Hhit).
  replace (Z.of_nat (S k)) with (Z.of_nat k + 1) by lia. rewrite zrange_down_cons by lia.
  cbn [sw_loop]. destruct (lookup_lt_is_Some_2 hashes k ltac:(lia)) as [h Eh].
  rewrite (py_get_Some _ _ h) by (rewrite ?Nat2Z.id; try done; lia).
  assert (Hat : hit_at hashes k = hit_row h) by (unfold hit_at; by rewrite Eh).
  pose proof (lookup_row h) as Hrow. destruct (hit_row h) as [row|] eqn:Er; unfold mbind, res_bind.
  2: { rewrite Hrow. apply (IH 0%nat). by eapply sw_miss. }
  destruct Hrow as (Hw & r & rs & -> & ->). cbn [sw_contiguous sw_computed].
  assert (Hcase : (n = 0%nat /\ ~ is_aligned bs al (S k)) \/ is_aligned bs al (S k + n)).
  { destruct (decide (n = 0%nat)) as [->|]; [|by right; apply Ha]. rewrite Nat.add_0_r.
    destruct (decide (bs = al)); [by right; left|].
    destruct (decide (Z.of_nat (S k) * bs mod al = 0)); [by right; right|].
    left. split; [done|]. by intros [?|?]. }
  assert (Hskip : (if (Z.of_nat n =? 0) && negb (bs =? al)
                   then match py_mod ((Z.of_nat k + 1) * bs) al with Ok m => Ok (negb (m =? 0)) | Err e => Err e end
                   else Ok false) = Ok (bool_decide (n = 0%nat /\ ~ is_aligned bs al (S k)))).
  { unfold py_mod. replace (al =? 0) with false by lia.
    replace ((Z.of_nat k + 1) * bs) with (Z.of_nat (S k) * bs) by lia.
    destruct (Z.of_nat n =? 0) eqn:En, (bs =? al) eqn:Eb; simpl; unfold is_aligned; repeat case_bool_decide; try done; f_equal; try tauto; lia. }
  rewrite Hskip. case_bool_decide as Hs.
  { destruct Hs as [-> Hna]. apply (IH 0%nat). by eapply sw_skip. }
  destruct Hcase as [|Hal']; [done|].
  pose proof (sw_hit_rows k n rows (r :: rs) Hinv Hat) as Hrows'.
  rewrite assign_each_columns, Nat2Z.id by (try done; lia).
  set (rows2 := <[k := r :: rs]> rows) in *.
  assert (Hrun : forall i, (k <= i < S k + n)%nat -> is_Some (hit_at hashes i)).
  { intros i Hi. destruct (decide (i = k)) as [->|]; [rewrite Hat; eauto|]. apply Hhit. lia. }
  destruct (needZ <=? Z.of_nat n + 1) eqn:En.
  - eexists. split; [done|]. exists (S k + n)%nat, (take (S k + n) rows2). split.
    + assert (Hlo : (S k + n - need = k)%nat) by lia. unfold sw_best. rewrite Hlo. split_and!; [lia| |exact Hmax|].
      * split; [done|]. intros i Hi. apply Hrun. lia.
      * replace (S k + n)%nat with (k + S n)%nat by lia. rewrite Hrows'. do 2 f_equal. lia.
    + cbn [sw_found sw_computed].
      replace (Z.of_nat k + (Z.of_nat n + 1)) with (Z.of_nat (S k + n)) by lia. by rewrite slice_columns.
  - replace (Z.of_nat n + 1) with (Z.of_nat (S n)) by lia. apply (IH (S n)).
    unfold sw_inv, rows2. rewrite length_insert. replace (k + S n)%nat with (S k + n)%nat in * by lia.
    split_and!; try done; lia.
Qed.
End Window.

Lemma sw_best_length hashes bs al need N rows L :
  sw_best hashes bs al need N rows L -> length rows = L.
Proof.
  intros (_ & _ & _ & ->). rewrite length_app, length_replicate, length_hit_rows. lia.
Qed.

Lemma aligned_len_id bs al L : is_aligned bs al L -> aligned_len bs al L = L.
Proof.
  intros Ha. assert (E : (bs =? al) || (Z.of_nat L * bs mod al =? 0) = true).
  { destruct Ha as [->|Ha]; [by rewrite Z.eqb_refl|]. rewrite Ha. by rewrite orb_true_r. }
  destruct L; cbn [aligned_len]; by rewrite E.
Qed.

(** The window a sliding-window hit needs, in blocks. *)
Definition sw_need (w bs : Z) (e : bool) : nat :=
  Z.to_nat (Z.max 1 (cdiv (w - 1) bs + (if e then 1 else 0))).

Lemma sliding_window_hit_columns hashes max_length bs w (e : bool) al :
  al <> 0 -> 0 < bs -> 0 <= max_length -> (Z.to_nat (max_length / bs) <= length hashes)%nat ->
  exists L rows, sw_best hashes bs al (sw_need w bs e) (Z.to_nat (max_length / bs)) rows L
    /\ sliding_window_hit p gids hashes max_length bs w e al 1
       = Ok (columns G (if e then take (aligned_len bs al (L - 1)) rows else rows)).
Proof.
  intros Hal Hbs Hml HN. set (N := Z.to_nat (max_length / bs)) in *. destruct Hok as [HG _].
  assert (HNz : max_length / bs = Z.of_nat N) by (pose proof (Z.div_pos max_length bs Hml Hbs); lia).
  assert (Hinv : sw_inv hashes bs al (sw_need w bs e) N N 0 (replicate N null_row)).
  { unfold sw_inv, sw_need. rewrite length_replicate, Nat.add_0_r. split_and!; try done; try lia.
    rewrite app_nil_r. by rewrite take_ge by (rewrite length_replicate; lia). }
  destruct (sw_loop_best hashes bs al (sw_need w bs e) N Hal ltac:(unfold sw_need; lia) HN
              (cdiv (w - 1) bs + (if e then 1 else 0)) N 0 _ eq_refl Hinv) as (st & Hst & L & rows & Hbest & Hres).
  exists L, rows. split; [done|]. pose proof (sw_best_length _ _ _ _ _ _ _ Hbest) as HL.
  unfold sliding_window_hit. cbn [negb Z.eqb Pos.eqb]. rewrite HNz. unfold zreplicate. rewrite Nat2Z.id.
  rewrite columns_null. fold null_row. change (Z.of_nat 0) with 0 in Hst. unfold mbind, res_bind. rewrite Hst.
  assert (Hcomp : (if sw_found st then Ok (sw_computed st)
                else align_computed bs al (fmap (fun c => py_slice_to c (sw_contiguous st)) (sw_computed st)))
              = Ok (columns G rows)).
  { destruct (sw_found st); [by rewrite Hres|]. destruct Hres as (-> & rows2 & -> & Htake).
    rewrite slice_columns, Htake, align_computed_columns, HL by done.
    destruct Hbest as (_ & [Ha _] & _). rewrite aligned_len_id by done. by rewrite take_ge by lia. }
  rewrite Hcomp. destruct e; [|done].
  destruct (columns_first G rows HG) as (c & -> & _ & Hc). destruct c as [|x c].
  - destruct Hc as [Hc _]. rewrite (Hc eq_refl). by rewrite take_nil.
  - rewrite pop_each_columns by (intros E; destruct Hc as [_ Hc]; by specialize (Hc E)).
    rewrite align_computed_columns by done. rewrite removelast_take, length_take, take_take, HL.
    replace ((L - 1) `min` L)%nat with (L - 1)%nat by lia.
    rewrite Nat.min_l by apply aligned_len_le. done.
Qed.

(** *** Chunked local attention *)

Lemma chunked_loop_columns hashes k n rows :
  (k + n <= length hashes)%nat ->
  chunked_loop p gids hashes (zrange (Z.of_nat k) (Z.of_nat (k + n))) (columns G rows)
  = Ok (columns G (rows ++ hit_prefix (take n (drop k hashes)))).
Proof.
  revert k rows. induction n as [|n IH]; intros k rows Hlen.
  { rewrite zrange_nil, take_0 by lia. simpl. by rewrite app_nil_r. }
  rewrite zrange_cons by lia. cbn [chunked_loop].
  destruct (lookup_lt_is_Some_2 hashes k ltac:(lia)) as [h Eh].
  rewrite (py_get_Some _ _ h) by (rewrite ?Nat2Z.id; try done; lia).
  rewrite (drop_S _ _ _ Eh). cbn [take hit_prefix]. unfold mbind, res_bind.
  pose proof (lookup_row h) as Hrow. destruct (hit_row h) as [row|]; [|by rewrite Hrow, app_nil_r].
  destruct Hrow as (Hw & r & rs & -> & ->). rewrite append_each_columns by done.
  replace (Z.of_nat k + 1) with (Z.of_nat (S k)) by lia. replace (k + S n)%nat with (S k + n)%nat by lia.
  rewrite IH by lia. by rewrite <-app_assoc.
Qed.

(** The first block of the chunk that holds token [max_length]. *)
Definition chunk_start (max_length bs c : Z) : Z :=
  (if 0 <? max_length then max_length / c * c else 0) / bs.

Lemma chunked_local_hit_columns hashes max_length bs c :
  0 < bs -> 0 < c -> 0 <= max_length -> (Z.to_nat (max_length / bs) <= length hashes)%nat ->
  let start := Z.to_nat (chunk_start max_length bs c) in
  chunked_local_hit p gids hashes max_length bs c false bs 1
  = Ok (columns G (replicate start null_row
                   ++ hit_prefix (take (Z.to_nat (max_length / bs) - start) (drop start hashes)))).
Proof.
  intros Hbs Hc Hml HN start. unfold chunked_local_hit. rewrite !Z.eqb_refl. cbn [negb orb Z.eqb Pos.eqb].
  fold (chunk_start max_length bs c).
  assert (Hs : 0 <= chunk_start max_length bs c <= max_length / bs).
  { unfold chunk_start. destruct (0 <? max_length) eqn:E.
    - pose proof (Z.mul_div_le max_length c Hc). pose proof (Z.div_pos max_length c Hml Hc). split.
      + apply Z.div_pos; [nia|done].
      + apply Z.div_le_mono; lia.
    - rewrite Zdiv_0_l. split; [done|]. apply Z.div_pos; lia. }
  unfold zreplicate. fold start. rewrite columns_null. fold null_row.
  replace (chunk_start max_length bs c) with (Z.of_nat start) by lia.
  set (n := Z.to_nat (max_length / bs)) in *.
  replace (max_length / bs) with (Z.of_nat (start + (n - start))) by lia.
  by apply chunked_loop_columns; lia.
Qed.

(** *** Mamba *)

(** [rows] of the last aligned hit among the first [N] blocks, if any. *)
Definition mamba_best (hashes : list bytes) (bs al : Z) (N : nat) (rows : list (list ref)) : Prop :=
  (exists j row, (j < N)%nat /\ is_aligned bs al (S j) /\ hit_at hashes j = Some row
     /\ (forall j', (j < j' < N)%nat -> is_aligned bs al (S j') -> hit_at hashes j' = None)
     /\ rows = replicate j null_row ++ [row])
  \/ (rows = [] /\ forall j, (j < N)%nat -> is_aligned bs al (S j) -> hit_at hashes j = None).

Lemma mamba_loop_best hashes bs al N k :
  al <> 0 -> (N <= length hashes)%nat -> (k <= N)%nat ->
  (forall j, (k <= j < N)%nat -> is_aligned bs al (S j) -> hit_at hashes j = None) ->
  exists rows, mamba_best hashes bs al N rows
    /\ mamba_loop p gids hashes bs al (zrange_down (Z.of_nat k) 0) (columns G []) = Ok (columns G rows).
Proof.
  intros Hal HN. induction k as [|k IH]; intros Hk Hmax.
  { exists []. rewrite zrange_down_nil by lia. split; [|done]. right. split; [done|]. intros j Hj. apply Hmax. lia. }
  replace (Z.of_nat (S k)) with (Z.of_nat k + 1) by lia. rewrite zrange_down_cons by lia. cbn [mamba_loop].
  destruct (lookup_lt_is_Some_2 hashes k ltac:(lia)) as [h Eh].
  rewrite (py_get_Some _ _ h) by (rewrite ?Nat2Z.id; try done; lia).
  assert (Hat : hit_at hashes k = hit_row h) by (unfold hit_at; by rewrite Eh).
  assert (Hnext : (is_aligned bs al (S k) -> hit_at hashes k = None) ->
    forall j, (k <= j < N)%nat -> is_aligned bs al (S j) -> hit_at hashes j = None).
  { intros Hnk j Hj Ha. destruct (decide (j = k)) as [->|]; [by apply Hnk|]. apply Hmax; [lia|done]. }
  pose proof (lookup_row h) as Hrow. unfold mbind, res_bind. destruct (hit_row h) as [row|] eqn:Er.
  2: { rewrite Hrow. apply IH; [lia|]. apply Hnext. by rewrite Hat. }
  destruct Hrow as (Hw & r & rs & -> & ->). unfold py_mod. replace (al =? 0) with false by lia.
  replace ((Z.of_nat k + 1) * bs) with (Z.of_nat (S k) * bs) by lia.
  assert (Hhit : is_aligned bs al (S k) -> exists rows, mamba_best hashes bs al N rows
    /\ Ok (append_each (fmap (fun c => c ++ zreplicate (Z.of_nat k) (null_block p)) (columns G [])) (r :: rs)) = Ok (columns G rows)).
  { intros Ha. exists (replicate k null_row ++ [r :: rs]). split.
    - left. exists k, (r :: rs). by split_and!.
    - rewrite columns_nil, fmap_replicate, app_nil_l. unfold zreplicate. rewrite Nat2Z.id, columns_null.
      fold null_row. by rewrite append_each_columns. }
  destruct (bs =? al) eqn:E; cbn [negb].
  - apply Hhit. left. lia.
  - destruct (Z.of_nat (S k) * bs mod al =? 0) eqn:Em; cbn [negb].
    + apply Hhit. right. lia.
    + apply IH; [lia|]. apply Hnext. intros [?|?]; lia.
Qed.

Lemma mamba_hit_columns hashes max_length bs al :
  al <> 0 -> 0 < bs -> 0 <= max_length -> (Z.to_nat (max_length / bs) <= length hashes)%nat ->
  exists rows, mamba_best hashes bs al (Z.to_nat (max_length / bs)) rows
    /\ mamba_hit p gids hashes max_length bs al 1 = Ok (columns G rows).
Proof.
  intros Hal Hbs Hml HN. pose proof (Z.div_pos max_length bs Hml Hbs) as Hd.
  unfold mamba_hit. cbn [negb Z.eqb Pos.eqb]. rewrite <-columns_nil.
  set (n := Z.to_nat (max_length / bs)) in *. replace (max_length / bs) with (Z.of_nat n) by lia.
  apply mamba_loop_best; [done|done|lia|]. intros j Hj. lia.
Qed.
End Search.

(** A pool that satisfies its invariant answers every lookup. *)
Lemma lookups_ok_inv p fl own gids :
  pool_core p fl own -> gids <> [] -> Forall (fun g => 0 <= g < 2 ^ 32) gids -> lookups_ok p gids.
Proof.
  intros Hc Hne Hg. split; [destruct gids; [done|simpl; lia]|]. intros h.
  destruct (get_cached_block_ok p fl own h gids Hc Hg) as (o & -> & Ho). exists o. split; [done|].
  destruct o as [rs|]; [|done]. symmetry. by eapply Forall2_length.
Qed.

(** The blocks of a hit carry the hash of their position and group. *)
Lemma hit_row_blocks p fl own gids h row :
  pool_core p fl own -> Forall (fun g => 0 <= g < 2 ^ 32) gids -> hit_row p gids h = Some row ->
  Forall2 (fun g r => pool_usable p r /\ block_hash_in p r = Some (key_of h g)) gids row.
Proof.
  intros Hc Hg Hrow. destruct (get_cached_block_ok p fl own h gids Hc Hg) as (o & E & Ho).
  unfold hit_row in Hrow. rewrite E in Hrow. destruct o; [|done]. by injection Hrow as <-.
Qed.

(** A miss means that some group caches no block with that hash. *)
Lemma hit_row_miss p fl own gids h :
  pool_core p fl own -> Forall (fun g => 0 <= g < 2 ^ 32) gids -> hit_row p gids h = None ->
  exists g, g ∈ gids /\ forall r, pool_usable p r -> block_hash_in p r <> Some (key_of h g).
Proof.
  intros Hc Hg Hrow. destruct (get_cached_block_ok p fl own h gids Hc Hg) as (o & E & Ho).
  unfold hit_row in Hrow. rewrite E in Hrow. by destruct o.
Qed.

(** ** Hits in terms of the hashes of the blocks *)

(** Every group caches a block whose key is [h]. *)
Definition cached (p : BlockPool) (gids : list Z) (h : bytes) : Prop :=
  Forall (fun g => exists r, pool_usable p r /\ block_hash_in p r = Some (key_of h g)) gids.

(** The blocks of [row], one per group, hold the content named [h]. *)
Definition carries (p : BlockPool) (gids : list Z) (h : bytes) (row : list ref) : Prop :=
  Forall2 (fun g r => pool_usable p r /\ block_hash_in p r = Some (key_of h g)) gids row.

Definition cached_at (p : BlockPool) (gids : list Z) (hashes : list bytes) (i : nat) : Prop :=
  exists h, hashes !! i = Some h /\ cached p gids h.

Definition carried_at (p : BlockPool) (gids : list Z) (hashes : list bytes) (i : nat) (row : list ref) : Prop :=
  exists h, hashes !! i = Some h /\ carries p gids h row.

Section Cached.
Context (p : BlockPool) (fl : list ref) (own : ref -> nat) (gids : list Z).
Context (Hc : pool_core p fl own) (Hne : gids <> []) (Hg : Forall (fun g => 0 <= g < 2 ^ 32) gids).
Local Abbreviation G := (length gids).

Lemma search_ok : lookups_ok p gids.
Proof. by eapply lookups_ok_inv. Qed.

Lemma hit_row_cached h : is_Some (hit_row p gids h) <-> cached p gids h.
Proof.
  split.
  - intros [row Hrow]. pose proof (hit_row_blocks _ _ _ _ _ _ Hc Hg Hrow) as H2. unfold cached.
    apply Forall_lookup. intros i g Hi. destruct (Forall2_lookup_l _ _ _ _ _ H2 Hi) as (r & _ & ?). by exists r.
  - intros Hca. destruct (hit_row p gids h) as [row|] eqn:E; [done|]. exfalso.
    destruct (hit_row_miss _ _ _ _ _ Hc Hg E) as (g & Hgi & Hno).
    unfold cached in Hca. rewrite Forall_forall in Hca. destruct (Hca g Hgi) as (r & Hu & Hr). by apply (Hno r).
Qed.

Lemma hit_at_cached hashes i : is_Some (hit_at p gids hashes i) <-> cached_at p gids hashes i.
Proof.
  unfold hit_at, cached_at. destruct (hashes !! i) as [h|]; simpl.
  - rewrite hit_row_cached. split; [eauto|]. by intros (h' & [= <-] & ?).
  - split; [by intros [? [=]]|]. by intros (? & [=] & _).
Qed.

Lemma hit_at_carried hashes i row : hit_at p gids hashes i = Some row -> carried_at p gids hashes i row.
Proof.
  unfold hit_at. destruct (hashes !! i) as [h|] eqn:E; [|done]. simpl. intros Hrow.
  exists h. split; [done|]. exact (hit_row_blocks _ _ _ _ _ _ Hc Hg Hrow).
Qed.

Lemma hit_at_take hashes n i : (i < n)%nat -> hit_at p gids (take n hashes) i = hit_at p gids hashes i.
Proof. intros Hi. unfold hit_at. by rewrite lookup_take_lt. Qed.

Lemma hit_prefix_carried hashes i row :
  hit_prefix p gids hashes !! i = Some row -> carried_at p gids hashes i row.
Proof.
  intros Hi. destruct (hit_prefix_lookup p gids hashes i) as [E _]; [by eapply lookup_lt_Some|].
  apply hit_at_carried. congruence.
Qed.

(** A run of cached blocks from the start is part of the prefix found. *)
Lemma hit_prefix_covers hashes n :
  (n <= length hashes)%nat -> (forall i, (i < n)%nat -> cached_at p gids hashes i) ->
  (n <= length (hit_prefix p gids hashes))%nat.
Proof.
  intros Hn Hall. destruct (hit_prefix_max p gids hashes) as [_ Hmax].
  destruct (decide (n <= length (hit_prefix p gids hashes))%nat) as [|Hlt]; [done|].
  specialize (Hmax ltac:(lia)).
  destruct (proj2 (hit_at_cached hashes (length (hit_prefix p gids hashes)))) as [x Hx]; [apply Hall; lia|].
  congruence.
Qed.
End Cached.

Lemma aligned_len_maximal bs al n m : (m <= n)%nat -> is_aligned bs al m -> (m <= aligned_len bs al n)%nat.
Proof.
  intros Hm [->|Ha]; [|by apply aligned_len_max].
  rewrite aligned_len_id by (by left). done.
Qed.

Lemma sw_best_rows p gids hashes bs al need N rows L i row :
  sw_best p gids hashes bs al need N rows L -> rows !! i = Some row ->
  if decide (L - need <= i)%nat then hit_at p gids hashes i = Some row else row = null_row p gids.
Proof.
  intros (HL & [_ Hhit] & _ & ->) Hi.
  assert (Hlt : (i < L)%nat).
  { apply lookup_lt_Some in Hi. rewrite length_app, length_replicate, length_hit_rows in Hi. lia. }
  destruct (decide (L - need <= i)%nat) as [Hge|Hlo].
  - rewrite lookup_app_r in Hi by (rewrite length_replicate; lia).
    rewrite length_replicate in Hi. unfold hit_rows in Hi. rewrite list_lookup_fmap, lookup_seq_lt in Hi by lia.
    injection Hi as <-. replace (L - need + (i - (L - need)))%nat with i by lia.
    destruct (Hhit i) as [x ->]; [lia|done].
  - rewrite lookup_app_l in Hi by (rewrite length_replicate; lia).
    by apply lookup_replicate in Hi as [-> _].
Qed.

(** The blocks that hold one of the [w - 1] tokens before position [H * bs]. *)
Lemma window_block bs w (H i : nat) (e : bool) :
  0 < bs -> Z.of_nat H * bs - (w - 1) < (Z.of_nat i + 1) * bs -> (i < H)%nat ->
  (H + (if e then 1 else 0) - sw_need w bs e <= i)%nat.
Proof.
  intros Hbs Hw Hi. unfold sw_need. pose proof (cdiv_bounds (w - 1) bs Hbs).
  assert (Z.of_nat H - Z.of_nat i - 1 < cdiv (w - 1) bs) by nia. destruct e; lia.
Qed.
