(* ===== verification/CacheHitSpec.v ===== *)
(** * Properties of the longest-cache-hit searches

    What each manager class promises its callers: every block of a hit holds the
    KV data of its own position, the positions a layer will read are present, and
    no longer hit satisfies the same conditions. *)

From S2P Require Import Prelude FreeQueue Request Hashing HashingLemmas BlockPool BlockPoolLemmas Samples.
From S2P Require Import SingleType CacheHit CacheHitLemmas.
From Stdlib Require Import Strings.Byte.
Local Open Scope Z_scope.

Lemma columns_rows_length (c : list ref) rows : Ok [c] = Ok (columns 1 rows) -> length rows = length c.
Proof. intros [= ->]. unfold columns. simpl. by rewrite length_fmap. Qed.

Lemma sample_gids : Forall (fun g => 0 <= g < 2 ^ 32) [0].
Proof. constructor; [|constructor]. split; [lia|reflexivity]. Qed.

(** ** Full attention *)

(** C36: the full-attention search returns, for every group, the longest aligned run
    of blocks from the start of the request whose hashes are cached; with EAGLE, the
    longest aligned run that has one cached block more behind it, which is dropped.
    The run, with that block, stays within [max_length] tokens, and every block
    returned carries the hash of its position. *)
Theorem full_attention_hit_longest p fl own gids hashes max_length bs (e : bool) al :
  pool_inv p fl own -> gids <> [] -> Forall (fun g => 0 <= g < 2 ^ 32) gids ->
  al <> 0 -> 0 < bs -> (Z.to_nat (max_length / bs) <= length hashes)%nat ->
  let hit L := is_aligned bs al L /\ (L + (if e then 1 else 0) <= Z.to_nat (max_length / bs))%nat
               /\ forall i, (i < L + (if e then 1 else 0))%nat -> cached_at p gids hashes i in
  exists rows, full_attention_hit p gids hashes max_length bs e al = Ok (columns (length gids) rows)
    /\ (forall i row, rows !! i = Some row -> carried_at p gids hashes i row)
    /\ (rows = [] \/ hit (length rows))
    /\ forall L, hit L -> (L <= length rows)%nat.
Proof.
  intros [Hc _] Hne Hg Hal Hbs HN hit. pose proof (search_ok p fl own gids Hc Hne Hg) as Hok.
  rewrite full_attention_hit_columns by done. subst hit. set (N := Z.to_nat (max_length / bs)) in *.
  set (P := hit_prefix p gids (take N hashes)). set (k := (length P - (if e then 1 else 0))%nat).
  exists (take (aligned_len bs al k) P). split; [done|].
  pose proof (aligned_len_le bs al k) as Hle.
  assert (Hlen : length (take (aligned_len bs al k) P) = aligned_len bs al k) by (rewrite length_take; lia).
  split; [|split].
  - intros i row [Hi _]%lookup_take_Some. apply (hit_prefix_carried p fl own gids Hc Hg) in Hi as (h & Hh & ?).
    exists h. split; [|done]. by apply lookup_take_Some in Hh as [? _].
  - destruct (aligned_len bs al k) as [|L] eqn:EL; [by left|]. right. rewrite Hlen, <-EL. split; [apply aligned_len_spec|].
    pose proof (proj1 (hit_prefix_max p gids (take N hashes))) as HP. rewrite length_take in HP. fold P in HP. split; [lia|].
    intros i Hi. destruct (hit_prefix_lookup p gids (take N hashes) i) as [_ Hat]; [fold P; lia|].
    apply (hit_at_cached p fl own gids Hc Hg) in Hat as (h & Hh & ?). exists h. split; [|done]. by apply lookup_take_Some in Hh as [? _].
  - intros L (Ha & HL & Hall). rewrite Hlen. apply aligned_len_maximal; [|done].
    assert (L + (if e then 1 else 0) <= length P)%nat; [|lia].
    apply (hit_prefix_covers p fl own gids Hc Hg); [rewrite length_take; lia|].
    intros i Hi. destruct (Hall i Hi) as (h & Hh & ?). exists h. split; [|done]. apply lookup_take_Some. split; [done|lia].
Qed.

(** Of two cached blocks EAGLE drops the second. *)
Lemma full_attention_hit_longest_witness :
  exists rows, full_attention_hit sample_pool_cached [0] sample_hashes 6 2 true 2 = Ok (columns 1 rows)
    /\ length rows = 1%nat.
Proof.
  destruct (full_attention_hit_longest sample_pool_cached _ _ [0] sample_hashes 6 2 true 2
    sample_pool_cached_inv ltac:(discriminate) sample_gids) as (rows & Hr & _); [lia|lia|vm_compute; lia|].
  exists rows. split; [exact Hr|]. apply (columns_rows_length [Blk 1]). etransitivity; [|exact Hr]. vm_compute. reflexivity.
Defined.

(** ** Sliding windows *)

(** The sliding-window search, without EAGLE or when the alignment is the
    block size, returns an aligned hit in which every block that the window of
    the next token overlaps is cached under the hash of its position; the blocks
    before are null (or cached).  No longer hit has its window cached (with EAGLE:
    with one more block, which is dropped). *)
Theorem sliding_window_hit_window p fl own gids hashes max_length bs w (e : bool) al :
  pool_inv p fl own -> gids <> [] -> Forall (fun g => 0 <= g < 2 ^ 32) gids ->
  al <> 0 -> 0 < bs -> 0 <= max_length -> (Z.to_nat (max_length / bs) <= length hashes)%nat ->
  (e = true -> bs = al) ->
  let e1 := if e then 1%nat else 0%nat in
  exists rows, sliding_window_hit p gids hashes max_length bs w e al 1 = Ok (columns (length gids) rows)
    /\ is_aligned bs al (length rows)
    /\ (forall i row, rows !! i = Some row ->
          carried_at p gids hashes i row
          \/ row = null_row p gids /\ (Z.of_nat i + 1) * bs <= Z.of_nat (length rows) * bs - (w - 1))
    /\ forall L, is_aligned bs al (L + e1) -> (L + e1 <= Z.to_nat (max_length / bs))%nat ->
         (forall i, (L + e1 - sw_need w bs e <= i < L + e1)%nat -> cached_at p gids hashes i) -> (L <= length rows)%nat.
Proof.
  intros [Hc _] Hne Hg Hal Hbs Hml HN He e1. pose proof (search_ok p fl own gids Hc Hne Hg) as Hok.
  destruct (sliding_window_hit_columns p gids Hok hashes max_length bs w e al Hal Hbs Hml HN) as (L & rows & Hbest & ->).
  pose proof (sw_best_length _ _ _ _ _ _ _ _ _ Hbest) as HlenL.
  set (rows' := if e then take (aligned_len bs al (L - 1)) rows else rows).
  assert (Hrows' : rows' = take (L - e1) rows).
  { unfold rows', e1. destruct e; [|by rewrite take_ge by lia]. by rewrite aligned_len_id by (left; auto). }
  assert (Hlen : length rows' = (L - e1)%nat) by (rewrite Hrows', length_take; lia).
  exists rows'. split; [done|]. rewrite Hlen. split_and!.
  - unfold e1. destruct e; [by left; auto|]. rewrite Nat.sub_0_r. apply Hbest.
  - intros i row Hi. rewrite Hrows' in Hi. apply lookup_take_Some in Hi as [Hi Hlt].
    pose proof (sw_best_rows _ _ _ _ _ _ _ _ _ _ _ Hbest Hi) as Hrow.
    destruct (decide (L - sw_need w bs e <= i)%nat) as [Hge|Hlo].
    + left. by eapply hit_at_carried.
    + right. split; [done|]. apply Z.le_ngt. intros Hw.
      pose proof (window_block bs w (L - e1) i e Hbs Hw ltac:(lia)). unfold e1 in *. destruct e; lia.
  - intros L' Ha HL' Hall. destruct Hbest as (_ & _ & Hmax & _).
    destruct (decide (L' + e1 <= L)%nat) as [|Hgt]; [lia|]. exfalso. apply (Hmax (L' + e1)%nat); [lia|].
    split; [done|]. intros i Hi. eapply hit_at_cached; [done..|]. by apply Hall.
Qed.

Lemma sliding_window_hit_window_witness :
  exists rows, sliding_window_hit sample_pool_cached [0] sample_hashes 6 2 3 false 2 1 = Ok (columns 1 rows)
    /\ length rows = 2%nat.
Proof.
  destruct (sliding_window_hit_window sample_pool_cached _ _ [0] sample_hashes 6 2 3 false 2
    sample_pool_cached_inv ltac:(discriminate) sample_gids) as (rows & Hr & _); [lia|lia|lia|vm_compute; lia|done|].
  exists rows. split; [exact Hr|]. apply (columns_rows_length [Blk 0; Blk 2]). etransitivity; [|exact Hr]. vm_compute. reflexivity.
Defined.

(** A pool that caches blocks 2 and 3 of a request of four blocks of two tokens,
    as a layer with a window of 3 tokens leaves it. *)
Definition window_pool : BlockPool :=
  snd (cache_full_blocks false toy_sha256
         (set_block_hashes (fun _ => [[x0a]; [x0b]; [x0c]; [x0d]]) (bare_request "w" [1; 2; 3; 4; 5; 6; 7; 8]))
         [Blk 0; Blk 0; Blk 1; Blk 2] 0 4 2 0 sample_pool_used).

(** With EAGLE and an alignment other than the block size, the realignment
    after the dropped block can return a hit whose window is not cached.  With an
    alignment of 4 tokens and a window of 3 the search finds blocks 2 and 3, drops
    the last one, and then pops the other: the hit of 4 tokens that remains has
    null blocks only, although the next token reads tokens 2 and 3, whose block is
    not cached (and no block is: the hit should be empty). *)
Theorem eagle_realign_loses_window :
  sliding_window_hit window_pool [0] [[x0a]; [x0b]; [x0c]; [x0d]] 8 2 3 true 4 1
  = Ok [[null_block window_pool; null_block window_pool]]
  /\ get_cached_block window_pool [x0b] [0] = Ok None.
Proof. split; vm_compute; reflexivity. Qed.

(** ** Chunked local attention *)

(** The chunked-local search skips the blocks before the attention chunk of
    token [max_length] (null blocks) and returns the longest run of cached blocks
    from the start of the chunk. *)
Theorem chunked_local_hit_chunk p fl own gids hashes max_length bs c :
  pool_inv p fl own -> gids <> [] -> Forall (fun g => 0 <= g < 2 ^ 32) gids ->
  0 < bs -> 0 < c -> 0 <= max_length -> (Z.to_nat (max_length / bs) <= length hashes)%nat ->
  let start := Z.to_nat (chunk_start max_length bs c) in
  exists rows, chunked_local_hit p gids hashes max_length bs c false bs 1 = Ok (columns (length gids) rows)
    /\ Z.of_nat start * bs <= max_length / c * c
    /\ (start <= length rows <= Z.to_nat (max_length / bs))%nat
    /\ (forall i row, rows !! i = Some row ->
          if decide (i < start)%nat then row = null_row p gids else carried_at p gids hashes i row)
    /\ ((length rows < Z.to_nat (max_length / bs))%nat -> ~ cached_at p gids hashes (length rows)).
Proof.
  intros [Hc _] Hne Hg Hbs Hcp Hml HN start. pose proof (search_ok p fl own gids Hc Hne Hg) as Hok.
  rewrite chunked_local_hit_columns by done. fold start. set (N := Z.to_nat (max_length / bs)) in *.
  assert (Hst : 0 <= chunk_start max_length bs c <= max_length / bs /\ chunk_start max_length bs c * bs <= max_length / c * c).
  { unfold chunk_start. pose proof (Z.mul_div_le max_length c Hcp). pose proof (Z.div_pos max_length c Hml Hcp).
    destruct (0 <? max_length) eqn:E.
    - pose proof (Z.mul_div_le (max_length / c * c) bs Hbs). split; [|lia].
      split; [apply Z.div_pos; nia|apply Z.div_le_mono; lia].
    - rewrite Zdiv_0_l. split; [split; [lia|apply Z.div_pos; lia]|nia]. }
  set (P := hit_prefix p gids (take (N - start) (drop start hashes))).
  destruct (hit_prefix_max p gids (take (N - start) (drop start hashes))) as [HP1 HP2]. fold P in HP1, HP2.
  rewrite length_take, length_drop in HP1, HP2.
  assert (HNs : (start <= N)%nat) by lia.
  exists (replicate start (null_row p gids) ++ P). rewrite length_app, length_replicate.
  split_and!; [done|lia|lia|lia| |].
  - intros i row Hi. case_decide as Hlt.
    + rewrite lookup_app_l in Hi by (rewrite length_replicate; lia). by apply lookup_replicate in Hi as [-> _].
    + rewrite lookup_app_r, length_replicate in Hi by (rewrite length_replicate; lia).
      apply (hit_prefix_carried p fl own gids Hc Hg) in Hi as (h & Hh & ?). exists h. split; [|done].
      apply lookup_take_Some in Hh as [Hh _]. rewrite lookup_drop in Hh. by replace (start + (i - start))%nat with i in Hh by lia.
  - intros Hlt (h & Hh & Hca). specialize (HP2 ltac:(lia)). unfold hit_at in HP2.
    rewrite lookup_take_lt, lookup_drop, Hh in HP2 by lia. simpl in HP2.
    apply (hit_row_cached p fl own gids Hc Hg) in Hca as [x Hx]. congruence.
Qed.

Lemma chunked_local_hit_chunk_witness :
  exists rows, chunked_local_hit sample_pool_cached [0] sample_hashes 4 2 3 false 2 1 = Ok (columns 1 rows)
    /\ length rows = 2%nat.
Proof.
  destruct (chunked_local_hit_chunk sample_pool_cached _ _ [0] sample_hashes 4 2 3
    sample_pool_cached_inv ltac:(discriminate) sample_gids) as (rows & Hr & _); [lia|lia|lia|vm_compute; lia|].
  exists rows. split; [exact Hr|]. apply (columns_rows_length [Blk 0; Blk 2]). etransitivity; [|exact Hr]. vm_compute. reflexivity.
Defined.

(** ** Mamba *)

(** The Mamba search returns the longest aligned hit whose last block, the
    only one that holds a state, is cached under the hash of its position; all
    blocks before it are null. *)
Theorem mamba_hit_last_state p fl own gids hashes max_length bs al :
  pool_inv p fl own -> gids <> [] -> Forall (fun g => 0 <= g < 2 ^ 32) gids ->
  al <> 0 -> 0 < bs -> 0 <= max_length -> (Z.to_nat (max_length / bs) <= length hashes)%nat ->
  exists rows, mamba_hit p gids hashes max_length bs al 1 = Ok (columns (length gids) rows)
    /\ is_aligned bs al (length rows)
    /\ (forall i row, rows !! i = Some row ->
          if decide (S i = length rows) then carried_at p gids hashes i row else row = null_row p gids)
    /\ (length rows <= Z.to_nat (max_length / bs))%nat
    /\ forall L, (0 < L <= Z.to_nat (max_length / bs))%nat -> is_aligned bs al L -> cached_at p gids hashes (L - 1) ->
         (L <= length rows)%nat.
Proof.
  intros [Hc _] Hne Hg Hal Hbs Hml HN. pose proof (search_ok p fl own gids Hc Hne Hg) as Hok.
  destruct (mamba_hit_columns p gids Hok hashes max_length bs al Hal Hbs Hml HN) as (rows & Hbest & ->).
  exists rows. split; [done|]. set (N := Z.to_nat (max_length / bs)) in *.
  assert (Hmiss : forall j, hit_at p gids hashes j = None -> ~ cached_at p gids hashes j).
  { intros j Hj Hca. apply (hit_at_cached p fl own gids Hc Hg) in Hca as [x Hx]. congruence. }
  destruct Hbest as [(j & row & Hj & Ha & Hrow & Hmax & ->)|[-> Hmax]].
  - rewrite length_app, length_replicate. simpl. replace (j + 1)%nat with (S j) by lia. split_and!; [done| |lia|].
    + intros i row' Hi. case_decide as Hd.
      * injection Hd as ->. rewrite lookup_app_r, length_replicate, Nat.sub_diag in Hi by (by rewrite length_replicate).
        injection Hi as <-. by eapply hit_at_carried.
      * assert (Hlt : (i < j)%nat).
        { apply lookup_lt_Some in Hi. rewrite length_app, length_replicate in Hi. simpl in Hi. lia. }
        rewrite lookup_app_l in Hi by (rewrite length_replicate; lia). by apply lookup_replicate in Hi as [-> _].
    + intros L HL HaL Hca. destruct (decide (L <= S j)%nat) as [|Hgt]; [done|]. exfalso.
      apply (Hmiss (L - 1)%nat); [|done]. apply Hmax; [lia|]. by replace (S (L - 1)) with L by lia.
  - split_and!; [|done|simpl; lia|].
    + right. change (Z.of_nat (length (@nil (list ref))) * bs) with 0. apply Zmod_0_l.
    + intros L HL HaL Hca. exfalso. apply (Hmiss (L - 1)%nat); [|done]. apply Hmax; [lia|]. by replace (S (L - 1)) with L by lia.
Qed.

Lemma mamba_hit_last_state_witness :
  exists rows, mamba_hit sample_pool_cached [0] sample_hashes 6 2 2 1 = Ok (columns 1 rows)
    /\ length rows = 2%nat.
Proof.
  destruct (mamba_hit_last_state sample_pool_cached _ _ [0] sample_hashes 6 2 2
    sample_pool_cached_inv ltac:(discriminate) sample_gids) as (rows & Hr & _); [lia|lia|lia|vm_compute; lia|].
  exists rows. split; [exact Hr|]. apply (columns_rows_length [Blk 0; Blk 2]). etransitivity; [|exact Hr]. vm_compute. reflexivity.
Defined.
