(* ===== verification/Coordinator.v ===== *)
(** * KV cache coordinators

    [vllm/v1/core/kv_cache_coordinator.py]: one manager per KV-cache group over a
    shared block pool.  The three subclasses differ in how they find the longest
    cache hit; they are the constructors of [coord_class]. *)

From S2P Require Import Prelude FreeQueue Request Hashing BlockPool SingleType CacheHit.
Local Open Scope Z_scope.

(** ** Configuration and state *)

(** [KVCacheConfig]; the tensors and layer names are used by the workers only. *)
Record KVCacheConfig := mkConfig {
  num_blocks : Z;
  kv_cache_groups : list KVCacheSpec
}.

(** An entry of [attention_groups]: the manager class follows from the spec. *)
Abbreviation attention_group := (KVCacheSpec * list Z)%type.

Inductive coord_class :=
  | NoPrefixCache
  | Unitary (c_block_size : Z)
  | Hybrid (attention_groups : list attention_group) (lcm_block_size : Z).

Record Coordinator := mkCoord {
  kv_cache_config : KVCacheConfig;
  max_model_len : Z;
  coord_caching : bool;
  block_pool : BlockPool;
  use_eagle : bool;
  single_type_managers : list Manager;
  world_size : Z;
  class_of : coord_class
}.

Definition set_managers (l : list Manager) (p : BlockPool) (c : Coordinator) : Coordinator :=
  mkCoord (kv_cache_config c) (max_model_len c) (coord_caching c) p (use_eagle c) l (world_size c) (class_of c).

Definition on_block_pool {A} (m : M BlockPool A) : M Coordinator A :=
  zoom block_pool (fun p c => set_managers (single_type_managers c) p c) m.

(** [isinstance(spec, FullAttentionSpec)], with the subclasses. *)
Definition is_full_spec (s : KVCacheSpec) : bool :=
  match spec_kind s with FullAttention | MLAAttention | SinkFullAttention _ => true | _ => false end.
Definition is_cross (m : Manager) : bool :=
  match spec_kind (SingleType.kv_cache_spec m) with CrossAttention => true | _ => false end.

(** ** Running the managers *)

(** A method of [self.single_type_managers[i]]. *)
Definition on_manager {A} (i : nat) (m : M MP A) : M Coordinator A := fun c =>
  match single_type_managers c !! i with
  | None => (Err IndexError, c)
  | Some mg =>
      let '(r, mp) := m (mg, block_pool c) in
      (r, set_managers (<[i := mp.1]> (single_type_managers c)) mp.2 c)
  end.

(** [[f(i, manager) for i, manager in enumerate(self.single_type_managers)]] *)
Fixpoint run_managers {A} (f : nat -> M MP A) (idxs : list nat) : M Coordinator (list A) :=
  match idxs with
  | [] => mret []
  | i :: idxs' =>
      a ← on_manager i (f i) ;
      l ← run_managers f idxs' ;
      mret (a :: l)
  end.
Definition for_managers {A} (f : nat -> M MP A) : M Coordinator (list A) :=
  n ← gets (fun c => length (single_type_managers c)) ;
  run_managers f (seq 0 n).

Section Coordinators.
Context (use_int : bool) (sha256 : bytes -> bytes).

(** ** Operations shared by the subclasses *)

Definition coord_num_blocks_to_allocate (request_id : string) (num_tokens : Z)
    (new_computed_blocks : list (list ref)) (num_encoder_tokens total_computed_tokens num_tokens_main_model : Z)
    : M Coordinator Z :=
  counts ← for_managers (fun i =>
    cross ← get_mgr is_cross ;
    if (cross : bool)
    then mgr_num_blocks_to_allocate request_id num_encoder_tokens [] 0 num_encoder_tokens
    else
      computed ← lift_res (py_get new_computed_blocks (Z.of_nat i)) ;
      mgr_num_blocks_to_allocate request_id num_tokens computed total_computed_tokens num_tokens_main_model) ;
  mret (foldl Z.add 0 counts).

Definition coord_allocate_new_computed_blocks (request_id : string) (new_computed_blocks : list (list ref))
    (num_local_computed_tokens num_external_computed_tokens : Z) : M Coordinator unit :=
  for_managers (fun i =>
    computed ← lift_res (py_get new_computed_blocks (Z.of_nat i)) ;
    mgr_allocate_new_computed_blocks use_int request_id computed num_local_computed_tokens
      num_external_computed_tokens) ;;
  mret tt.

Definition coord_allocate_new_blocks (request_id : string) (num_tokens num_tokens_main_model num_encoder_tokens : Z)
    : M Coordinator (list (list ref)) :=
  for_managers (fun _ =>
    cross ← get_mgr is_cross ;
    mgr_allocate_new_blocks use_int request_id (if (cross : bool) then num_encoder_tokens else num_tokens)
      num_tokens_main_model).

Definition coord_cache_blocks (request : Request) (num_computed_tokens : Z) : M Coordinator unit :=
  for_managers (fun _ => mgr_cache_blocks use_int sha256 request num_computed_tokens) ;; mret tt.

Definition coord_free (request_id : string) : M Coordinator unit :=
  for_managers (fun _ => mgr_free request_id) ;; mret tt.

Definition coord_num_common_prefix_blocks (running_request_id : string) : M Coordinator (list Z) :=
  cls ← gets class_of ;
  match cls with
  | NoPrefixCache => gets (fun c => replicate (length (single_type_managers c)) 0)
  | _ => for_managers (fun _ => get_num_common_prefix_blocks running_request_id)
  end.

Definition coord_remove_skipped_blocks (request_id : string) (total_computed_tokens : Z) : M Coordinator unit :=
  for_managers (fun _ => mgr_remove_skipped_blocks request_id total_computed_tokens) ;; mret tt.

Definition coord_get_blocks (c : Coordinator) (request_id : string) : list (list ref) :=
  (fun m => default [] (req_to_blocks m !! request_id)) <$> single_type_managers c.

Definition coord_new_step_starts : M Coordinator unit := for_managers (fun _ => new_step_starts) ;; mret tt.
End Coordinators.

(** ** Construction *)

(** One group of the loop of [verify_and_split_kv_cache_groups]. *)
Fixpoint add_group (spec : KVCacheSpec) (i : Z) (groups : list attention_group) : list attention_group :=
  match groups with
  | [] => [(spec, [i])]
  | (s, ids) :: groups' =>
      if bool_decide (s = spec) then (s, ids ++ [i]) :: groups' else (s, ids) :: add_group spec i groups'
  end.

(** The attention groups, full attention first (a stable sort), and the least
    common multiple of their block sizes. *)
Definition verify_and_split_kv_cache_groups (specs : list KVCacheSpec) : res (list attention_group * Z) :=
  let groups := foldl (fun gs x => add_group x.2 (Z.of_nat x.1) gs) [] (imap (fun i s => (i, s)) specs) in
  if negb (1 <? zlen groups) then Err AssertionError
  else
    Ok (filter (fun g => is_full_spec g.1 = true) groups ++ filter (fun g => is_full_spec g.1 = false) groups,
        foldr Z.lcm 1 ((fun g => spec_block_size g.1) <$> groups)).

(** The managers of the groups, created in order; a sink manager takes blocks. *)
Fixpoint init_managers (i : Z) (specs : list KVCacheSpec) (enable_caching : bool) (ws : Z)
    : M BlockPool (list Manager) :=
  match specs with
  | [] => mret []
  | s :: specs' =>
      m ← manager_init s enable_caching i ws ;
      l ← init_managers (i + 1) specs' enable_caching ws ;
      mret (m :: l)
  end.

(** [KVCacheCoordinator.__init__] *)
Definition coord_base_init (cfg : KVCacheConfig) (max_len : Z) (eagle caching events : bool)
    (dcp pcp hash_block_size : Z) (metrics : option (list MetricsCall)) (cls : coord_class) : res Coordinator :=
  p ← pool_init (num_blocks cfg) caching hash_block_size events metrics ;
  match init_managers 0 (kv_cache_groups cfg) caching (dcp * pcp) p with
  | (Ok ms, p') => Ok (mkCoord cfg max_len caching p' eagle ms (dcp * pcp) cls)
  | (Err e, _) => Err e
  end.

(** [get_kv_cache_coordinator] with the constructors of the subclasses. *)
Definition get_kv_cache_coordinator (cfg : KVCacheConfig) (max_len : Z) (eagle caching events : bool)
    (dcp pcp hash_block_size : Z) (metrics : option (list MetricsCall)) : res Coordinator :=
  if negb caching
  then coord_base_init cfg max_len eagle false events dcp pcp hash_block_size metrics NoPrefixCache
  else
    match kv_cache_groups cfg with
    | [s] =>
        let bs := spec_block_size s in
        let bs := if 1 <? dcp then bs * dcp else bs in
        let bs := if 1 <? pcp then bs * pcp else bs in
        c ← coord_base_init cfg max_len eagle caching events dcp pcp hash_block_size metrics (Unitary bs) ;
        if hash_block_size =? bs then Ok c else Err AssertionError
    | specs =>
        c ← coord_base_init cfg max_len eagle caching events dcp pcp hash_block_size metrics NoPrefixCache ;
        if negb (forallb (fun s => spec_block_size s mod hash_block_size =? 0) specs && (dcp =? 1) && (pcp =? 1))
        then Err AssertionError
        else
          split ← verify_and_split_kv_cache_groups specs ;
          Ok (mkCoord cfg max_len caching (block_pool c) eagle (single_type_managers c) (dcp * pcp)
                (Hybrid split.1 split.2))
    end.

(** ** The longest cache hit *)

Definition KVHit : Type := list (list ref) * Z.

Definition unitary_hit (c : Coordinator) (bs : Z) (block_hashes : list bytes) (max_cache_hit_length : Z) : res KVHit :=
  spec ← py_get (kv_cache_groups (kv_cache_config c)) 0 ;
  hit_blocks ← find_longest_cache_hit (block_pool c) [0] block_hashes max_cache_hit_length spec (use_eagle c) bs
                 (world_size c) ;
  first ← py_get hit_blocks 0 ;
  Ok (hit_blocks, zlen first * bs).

(** [for group_id, blocks in zip(group_ids, hit_blocks): by_group[group_id] = blocks] *)
Fixpoint assign_groups (ids : list Z) (hits : list (list ref)) (by_group : list (option (list ref)))
    : list (option (list ref)) :=
  match ids, hits with
  | g :: ids', h :: hits' => assign_groups ids' hits' (py_set by_group g (Some h))
  | _, _ => by_group
  end.

(** [_get_block_hashes] *)
Definition hashes_for (block_hashes : list bytes) (hash_block_size : Z) (spec : KVCacheSpec) : res (list bytes) :=
  if spec_block_size spec =? hash_block_size then Ok block_hashes
  else b ← bhl_init block_hashes hash_block_size (spec_block_size spec) ; bhl_iter b.

(** One attention group of a round: it accepts or reduces [curr_hit_length]. *)
Definition group_step (c : Coordinator) (lcm_block_size : Z) (block_hashes : list bytes)
    (acc : Z * list (option (list ref))) (g : attention_group) : res (Z * list (option (list ref))) :=
  let '(curr_hit_length, by_group) := acc in
  let '(spec, group_ids) := g in
  g0 ← py_get group_ids 0 ;
  cached_blocks ← py_get by_group g0 ;
  match is_full_spec spec, cached_blocks with
  | true, Some _ => Ok (curr_hit_length / spec_block_size spec * spec_block_size spec, by_group)
  | _, _ =>
      hs ← hashes_for block_hashes (hash_block_size (block_pool c)) spec ;
      hit_blocks ← find_longest_cache_hit (block_pool c) group_ids hs curr_hit_length spec (use_eagle c)
                     lcm_block_size 1 ;
      first ← py_get hit_blocks 0 ;
      Ok (zlen first * spec_block_size spec, assign_groups group_ids hit_blocks by_group)
  end.

Definition hit_round (c : Coordinator) (lcm_block_size : Z) (block_hashes : list bytes)
    (groups : list attention_group) (acc : Z * list (option (list ref))) : res (Z * list (option (list ref))) :=
  foldl (fun r g => acc ← r ; group_step c lcm_block_size block_hashes acc g) (Ok acc) groups.

(** [while True]; every round that is not the last one lowers [hit_length]. *)
Fixpoint hit_loop (fuel : nat) (c : Coordinator) (lcm_block_size : Z) (block_hashes : list bytes)
    (groups : list attention_group) (is_simple_hybrid : bool) (hit_length : Z) (by_group : list (option (list ref)))
    : res (Z * list (option (list ref))) :=
  match fuel with
  | O => Err RuntimeError
  | S fuel' =>
      round ← hit_round c lcm_block_size block_hashes groups (hit_length, by_group) ;
      let '(curr_hit_length, by_group') := round in
      if hit_length <=? curr_hit_length then Ok (hit_length, by_group')
      else if is_simple_hybrid then Ok (curr_hit_length, by_group')
      else hit_loop fuel' c lcm_block_size block_hashes groups is_simple_hybrid curr_hit_length by_group'
  end.

(** [del blks[num_blocks:]] for the groups of the first entry *)
Fixpoint truncate_groups (ids : list Z) (n : Z) (by_group : list (option (list ref))) : list (option (list ref)) :=
  match ids with
  | [] => by_group
  | g :: ids' =>
      truncate_groups ids' n
        (match by_group !! Z.to_nat g with
         | Some (Some blks) => py_set by_group g (Some (py_slice_to blks n))
         | _ => by_group
         end)
  end.

Definition hybrid_hit (c : Coordinator) (groups : list attention_group) (lcm_block_size : Z)
    (block_hashes : list bytes) (max_cache_hit_length : Z) : res KVHit :=
  g0 ← py_get groups 0 ;
  let is_simple_hybrid := (zlen groups =? 2) && is_full_spec g0.1 in
  out ← hit_loop (S (Z.to_nat (max_cache_hit_length + 1))) c lcm_block_size block_hashes groups is_simple_hybrid
          max_cache_hit_length (replicate (length (kv_cache_groups (kv_cache_config c))) None) ;
  let '(hit_length, by_group) := out in
  let by_group' :=
    if is_full_spec g0.1 then truncate_groups g0.2 (hit_length / spec_block_size g0.1) by_group else by_group in
  Ok (default [] <$> by_group', hit_length).

Definition coord_find_longest_cache_hit (c : Coordinator) (block_hashes : list bytes) (max_cache_hit_length : Z)
    : res KVHit :=
  match class_of c with
  | NoPrefixCache => Ok (replicate (length (single_type_managers c)) [], 0)
  | Unitary bs => unitary_hit c bs block_hashes max_cache_hit_length
  | Hybrid groups l => hybrid_hit c groups l block_hashes max_cache_hit_length
  end.
