(* ===== verification/CoordinatorLemmas.v ===== *)
(** * Coordinators: invariant and preservation

    The managers of a coordinator share the pool.  Together they own every block
    exactly as often as it occurs in their tables. *)

From S2P Require Import Prelude FreeQueue Request Hashing HashingLemmas BlockPool BlockPoolLemmas.
From S2P Require Import SingleType SingleTypeLemmas CacheHit CacheHitLemmas Coordinator.
Local Open Scope Z_scope.

(** ** The invariant *)

(** Occurrences of a block in the tables of all managers. *)
Definition towned (r : ref) (ms : list Manager) : nat := sum_list_with (fun m => tocc r (req_to_blocks m)) ms.

Lemma towned_insert r ms i m m' :
  ms !! i = Some m -> (towned r (<[i := m']> ms) + tocc r (req_to_blocks m) = towned r ms + tocc r (req_to_blocks m'))%nat.
Proof.
  unfold towned. revert i. induction ms as [|x ms IH]; intros [|i] Hi; try done; simpl in *.
  - injection Hi as ->. lia.
  - specialize (IH i Hi). lia.
Qed.

Lemma towned_lookup_le r ms i m : ms !! i = Some m -> (tocc r (req_to_blocks m) <= towned r ms)%nat.
Proof.
  unfold towned. revert i. induction ms as [|x ms IH]; intros [|i] Hi; try done; simpl in *.
  - injection Hi as ->. lia.
  - specialize (IH i Hi). lia.
Qed.

Lemma towned_lookup_two r ms i j m m' :
  ms !! i = Some m -> ms !! j = Some m' -> i <> j ->
  (tocc r (req_to_blocks m) + tocc r (req_to_blocks m') <= towned r ms)%nat.
Proof.
  unfold towned. revert i j. induction ms as [|x ms IH]; intros [|i] [|j] Hi Hj Hne; try done; simpl in *.
  - injection Hi as ->. pose proof (towned_lookup_le r ms j m' Hj) as H. unfold towned in H. lia.
  - injection Hj as ->. pose proof (towned_lookup_le r ms i m Hi) as H. unfold towned in H. lia.
  - specialize (IH i j Hi Hj ltac:(congruence)). lia.
Qed.

Record coord_inv (c : Coordinator) (fl : list ref) (own : ref -> nat) : Prop := {
  ci_pool : pool_inv (block_pool c) fl own;
  ci_mgrs : forall i m, single_type_managers c !! i = Some m -> mgr_ok (block_pool c) own m;
  ci_own : forall r, pool_usable (block_pool c) r -> own r = towned r (single_type_managers c)
}.

(** A step of one manager preserves the invariant of all. *)
Lemma coord_step c fl own i m m' p' fl' own' :
  coord_inv c fl own -> single_type_managers c !! i = Some m ->
  step_ok m (block_pool c) own m' p' fl' own' ->
  coord_inv (set_managers (<[i := m']> (single_type_managers c)) p' c) fl' own'.
Proof.
  intros [Hp Hm Ho] Hi Hst. assert (Hlt := lookup_lt_Some _ _ _ Hi). split; simpl.
  - apply (st_pool _ _ _ _ _ _ _ Hst).
  - intros j mj Hj. destruct (decide (i = j)) as [<-|Hne].
    + rewrite list_lookup_insert_eq in Hj by done. injection Hj as <-. apply (st_mgr _ _ _ _ _ _ _ Hst).
    + rewrite list_lookup_insert_ne in Hj by done. eapply step_ok_other; [exact Hst|by eapply Hm|].
      intros r Hr. rewrite (Ho r Hr). by eapply towned_lookup_two.
  - intros r Hr. assert (Hu : pool_usable (block_pool c) r).
    { apply (pool_usable_config _ _ _ (st_config _ _ _ _ _ _ _ Hst)) in Hr. done. }
    pose proof (st_bal _ _ _ _ _ _ _ Hst r Hu) as Hb. pose proof (towned_insert r _ i m m' Hi).
    rewrite (Ho r Hu) in Hb. lia.
Qed.

(** ** Running one manager after the other *)

Lemma wp_on_manager {A} i (f : M MP A) (Q : A -> Coordinator -> Prop) c m :
  single_type_managers c !! i = Some m ->
  wp f (fun a mp => Q a (set_managers (<[i := mp.1]> (single_type_managers c)) mp.2 c)) (m, block_pool c) ->
  wp (on_manager i f) Q c.
Proof. intros Hi Hw. unfold wp, on_manager in *. rewrite Hi. by destruct (f (m, block_pool c)) as [[a|e] mp]. Qed.

Lemma run_managers_wp {A} (f : nat -> M MP A) (I : list A -> Coordinator -> Prop) n c d :
  I d c ->
  (forall d' c', (length d <= length d' < length d + n)%nat -> I d' c' ->
     wp (on_manager (length d') (f (length d'))) (fun a c'' => I (d' ++ [a]) c'') c') ->
  wp (run_managers f (seq (length d) n)) (fun l c' => I (d ++ l) c') c.
Proof.
  revert c d. induction n as [|n IH]; intros c d HI Hstep; simpl.
  - apply wp_ret. by rewrite app_nil_r.
  - apply wp_bind. eapply wp_mono; [apply Hstep; [lia|done]|]. intros a c' HI'. apply wp_bind.
    specialize (IH c' (d ++ [a]) HI'). rewrite length_app in IH. simpl in IH. rewrite Nat.add_1_r in IH.
    eapply wp_mono; [apply IH|].
    + intros d' c'' Hd'. apply Hstep. lia.
    + intros l c'' Hl. apply wp_ret. by replace (d ++ a :: l) with ((d ++ [a]) ++ l) by (by rewrite <-app_assoc).
Qed.

Lemma run_managers_length {A} (f : nat -> M MP A) idxs c l c' :
  run_managers f idxs c = (Ok l, c') -> length l = length idxs.
Proof.
  revert c l. induction idxs as [|i idxs IH]; intros c l; cbn [run_managers].
  - by intros [= <- _].
  - unfold mbind, M_bind. destruct (on_manager i (f i) c) as [[a|] c1]; [|done].
    destruct (run_managers f idxs c1) as [[l1|] c2] eqn:E; [|done]. intros [= <- <-]. simpl. f_equal. by eapply IH.
Qed.

(** Reading managers changes nothing. *)
Lemma set_managers_id c i m :
  single_type_managers c !! i = Some m ->
  set_managers (<[i := m]> (single_type_managers c)) (block_pool c) c = c.
Proof. intros Hi. rewrite list_insert_id by done. by destruct c. Qed.

Lemma run_managers_read {A} (f : nat -> M MP A) (g : nat -> Manager -> A) c k ms :
  (forall i m, ms !! i = Some m -> single_type_managers c !! (k + i)%nat = Some m
     /\ f (k + i)%nat (m, block_pool c) = (Ok (g (k + i)%nat m), (m, block_pool c))) ->
  run_managers f (seq k (length ms)) c = (Ok (imap (fun i m => g (k + i)%nat m) ms), c).
Proof.
  revert k. induction ms as [|m ms IH]; intros k Hf; [done|].
  cbn [length seq run_managers]. unfold mbind, M_bind, on_manager.
  destruct (Hf 0%nat m eq_refl) as [Hk Hr]. rewrite Nat.add_0_r in *. rewrite Hk, Hr. cbn [fst snd].
  rewrite set_managers_id by done. rewrite IH.
  - cbn [imap]. unfold mret, M_ret. rewrite Nat.add_0_r. do 3 f_equal. apply imap_ext. intros i x Hx. simpl. f_equal. lia.
  - intros i x Hx. replace (S k + i)%nat with (k + S i)%nat by lia. apply (Hf (S i)). done.
Qed.

Lemma for_managers_read {A} (f : nat -> M MP A) (g : nat -> Manager -> A) c :
  (forall i m, single_type_managers c !! i = Some m ->
     f i (m, block_pool c) = (Ok (g i m), (m, block_pool c))) ->
  for_managers f c = (Ok (imap g (single_type_managers c)), c).
Proof.
  intros Hf. unfold for_managers, mbind, M_bind, gets.
  rewrite (run_managers_read f g c 0 (single_type_managers c)); [done|]. intros i m Hi. split; [done|by apply Hf].
Qed.

(** ** The managers without Mamba or cross attention *)

Definition plain_kind (k : attn_kind) : Prop :=
  match k with
  | FullAttention | MLAAttention => True
  | SlidingWindow w => 1 <= w
  | ChunkedLocalAttention c => 1 <= c
  | _ => False
  end.

Definition plain (m : Manager) : Prop := plain_kind (spec_kind (SingleType.kv_cache_spec m)).

Section Plain.
Context (use_int : bool) (sha256 : bytes -> bytes) (m : Manager) (p : BlockPool) (Hk : plain m).

Lemma plain_not_cross : is_cross m = false.
Proof. unfold plain, is_cross in *. by destruct (spec_kind _). Qed.

Lemma plain_allocate rid n nm :
  mgr_allocate_new_blocks use_int rid n nm (m, p) = base_allocate_new_blocks use_int rid n (m, p).
Proof. unfold plain, mgr_allocate_new_blocks, get_mgr, gets, mbind, M_bind in *. simpl. by destruct (spec_kind _). Qed.

Lemma plain_computed rid computed local ext :
  mgr_allocate_new_computed_blocks use_int rid computed local ext (m, p)
  = base_allocate_new_computed_blocks use_int rid computed local ext (m, p).
Proof.
  unfold plain, mgr_allocate_new_computed_blocks, get_mgr, gets, mbind, M_bind in *. simpl. by destruct (spec_kind _).
Qed.

Lemma plain_remove rid n :
  mgr_remove_skipped_blocks rid n (m, p) = base_remove_skipped_blocks rid n (m, p).
Proof. unfold plain, mgr_remove_skipped_blocks, get_mgr, gets, mbind, M_bind in *. simpl. by destruct (spec_kind _). Qed.

Lemma plain_cache request n :
  mgr_cache_blocks use_int sha256 request n (m, p) = base_cache_blocks use_int sha256 request n (m, p).
Proof. unfold plain, mgr_cache_blocks, get_mgr, gets, mbind, M_bind in *. simpl. by destruct (spec_kind _). Qed.

Lemma plain_count rid n computed total nm k :
  base_num_blocks_to_allocate rid n computed total (m, p) = Ok k ->
  mgr_num_blocks_to_allocate rid n computed total nm (m, p) = (Ok k, (m, p)).
Proof.
  unfold plain, mgr_num_blocks_to_allocate, get_mgr, gets, mbind, M_bind, lift_res in *. intros E.
  cbn [fst snd]. destruct (spec_kind _); try done; by rewrite E.
Qed.
End Plain.

(** [wp] of a computation that runs the same. *)
Lemma wp_eq {S A} (f g : M S A) Q s : f s = g s -> wp g Q s -> wp f Q s.
Proof. unfold wp. by intros ->. Qed.

(** ** A phase over all managers *)

(** Everything but the managers and the pool. *)
Definition same_rest (c c' : Coordinator) : Prop :=
  c' = set_managers (single_type_managers c') (block_pool c') c.

Lemma same_rest_set c c' ms p : same_rest c c' -> same_rest c (set_managers ms p c').
Proof. unfold same_rest. by intros ->. Qed.

Lemma same_rest_trans c1 c2 c3 : same_rest c1 c2 -> same_rest c2 c3 -> same_rest c1 c3.
Proof. unfold same_rest. intros -> ->. done. Qed.

(** The managers and results after a phase. *)
Definition phase_rel {A} (R : nat -> Manager -> A -> Manager -> Prop) (ms : list Manager) (l : list A) (ms' : list Manager) : Prop :=
  length l = length ms /\ length ms' = length ms
  /\ forall i m, ms !! i = Some m -> exists a m', l !! i = Some a /\ ms' !! i = Some m' /\ same_static m m' /\ R i m a m'.

Section Phase.
Context {A : Type} (f : nat -> M MP A) (R : nat -> Manager -> A -> Manager -> Prop).
Context (G : nat -> BlockPool -> list ref -> Prop) (c : Coordinator).
Local Abbreviation ms := (single_type_managers c).

(** After [d] managers. *)
Definition phase_at (d : list A) (c' : Coordinator) : Prop :=
  exists fl' own', coord_inv c' fl' own' /\ G (length d) (block_pool c') fl' /\ same_rest c c'
    /\ same_config (block_pool c) (block_pool c')
    /\ length (single_type_managers c') = length ms
    /\ (forall i, (length d <= i)%nat -> single_type_managers c' !! i = ms !! i)
    /\ forall i m a, ms !! i = Some m -> d !! i = Some a ->
         exists m', single_type_managers c' !! i = Some m' /\ same_static m m' /\ R i m a m'.

Context (Hstep : forall i m p fl own, ms !! i = Some m -> pool_inv p fl own -> mgr_ok p own m ->
  same_config (block_pool c) p -> G i p fl ->
  wp (f i) (fun a mp' => exists fl' own', step_ok m p own mp'.1 mp'.2 fl' own' /\ R i m a mp'.1
                           /\ G (S i) mp'.2 fl') (m, p)).

Lemma phase_step d c' : (length d < length ms)%nat -> phase_at d c' ->
  wp (on_manager (length d) (f (length d))) (fun a c'' => phase_at (d ++ [a]) c'') c'.
Proof.
  intros Hlt (fl & own & Hinv & HG & Hrest & Hcf & Hlen & Htail & Hdone).
  destruct (lookup_lt_is_Some_2 ms (length d) Hlt) as [m Hm].
  assert (Hm' : single_type_managers c' !! length d = Some m) by (by rewrite Htail).
  eapply wp_on_manager; [exact Hm'|]. eapply wp_mono.
  { apply (Hstep (length d) m (block_pool c') fl own Hm (ci_pool _ _ _ Hinv)); [by eapply ci_mgrs|done|done]. }
  intros a [m1 p1] (fl1 & own1 & Hst & HR & HG1). cbn [fst snd] in *.
  exists fl1, own1. rewrite length_app. simpl. rewrite Nat.add_1_r. split_and!.
  - by eapply coord_step.
  - done.
  - by apply same_rest_set.
  - etransitivity; [exact Hcf|apply (st_config _ _ _ _ _ _ _ Hst)].
  - by rewrite length_insert.
  - intros i Hi. rewrite list_lookup_insert_ne by lia. apply Htail. lia.
  - intros i mi ai Hmi Hai. destruct (decide (i = length d)) as [->|Hne].
    + rewrite list_lookup_insert_eq by lia. exists m1. rewrite lookup_app_r, Nat.sub_diag in Hai by lia.
      simpl in Hai. simplify_eq. split_and!; [done|apply (st_static _ _ _ _ _ _ _ Hst)|done].
    + rewrite list_lookup_insert_ne by done. apply Hdone; [done|].
      apply lookup_app_Some in Hai as [?|[Hge Hx]]; [done|]. apply list_lookup_singleton_Some in Hx as [? _]. lia.
Qed.

Lemma phase_wp fl own : coord_inv c fl own -> G 0 (block_pool c) fl ->
  wp (for_managers f)
     (fun l c' => exists fl' own', coord_inv c' fl' own' /\ G (length ms) (block_pool c') fl' /\ same_rest c c'
        /\ same_config (block_pool c) (block_pool c') /\ phase_rel R ms l (single_type_managers c')) c.
Proof.
  intros Hinv HG.
  assert (Hw : wp (for_managers f) (fun l c' => phase_at l c' /\ (length l <= length ms)%nat /\ (length ms <= length l)%nat) c).
  { apply wp_bind, wp_gets.
    assert (H0 : phase_at [] c /\ (0 <= length ms)%nat).
    { split; [|lia]. exists fl, own. split_and!; try done. unfold same_rest. by destruct c. }
    pose proof (run_managers_wp f (fun l c' => phase_at l c' /\ (length l <= length ms)%nat) (length ms) c [] H0) as Hr.
    assert (Hlen : forall l c', run_managers f (seq 0 (length ms)) c = (Ok l, c') -> length l = length ms).
    { intros l c' E. by rewrite (run_managers_length f _ _ _ _ E), length_seq. }
    unfold wp in Hr |- *. destruct (run_managers f (seq 0 (length ms)) c) as [[l|e] c'] eqn:E; simpl in Hr; rewrite E in Hr.
    - specialize (Hlen l c' eq_refl). destruct Hr as [Hr _]; [|split; [exact Hr|lia]].
      intros d' c2 Hd [Hp Hle]. eapply wp_mono; [apply phase_step; [lia|done]|]. intros a c3 H3. split; [done|].
      rewrite length_app. simpl. lia.
    - apply Hr. intros d' c2 Hd [Hp Hle]. eapply wp_mono; [apply phase_step; [lia|done]|]. intros a c3 H3. split; [done|].
      rewrite length_app. simpl. lia. }
  eapply wp_mono; [exact Hw|]. intros l c' ((fl' & own' & H1 & H2 & H3 & H4 & H5 & H6 & H7) & Hle & Hge).
  assert (E : length l = length ms) by lia. exists fl', own'. rewrite <-E. unfold phase_rel. split_and!; try done.
  intros i m Hm. destruct (lookup_lt_is_Some_2 l i) as [a Ha]; [rewrite E; by eapply lookup_lt_Some|].
  destruct (H7 i m a Hm Ha) as (m' & Hm' & ? & ?). by exists a, m'.
Qed.
End Phase.

(** ** The phases of an allocation *)

Definition sumZ (l : list Z) : Z := foldr Z.add 0 l.

Lemma sumZ_app l1 l2 : sumZ (l1 ++ l2) = sumZ l1 + sumZ l2.
Proof. unfold sumZ. induction l1 as [|x l1 IH]; simpl; lia. Qed.

Lemma foldl_sumZ l z : foldl Z.add z l = z + sumZ l.
Proof. revert z. unfold sumZ. induction l as [|x l IH]; intros z; simpl; [lia|]. rewrite IH. lia. Qed.

Lemma sumZ_take_S l i x : l !! i = Some x -> sumZ (take (S i) l) = sumZ (take i l) + x.
Proof. intros Hi. rewrite (take_S_r _ _ _ Hi), sumZ_app. simpl. lia. Qed.

Lemma sumZ_drop l i x : l !! i = Some x -> sumZ (drop i l) = x + sumZ (drop (S i) l).
Proof. intros Hi. by rewrite (drop_S _ _ _ Hi). Qed.

Lemma sumZ_nonneg l : Forall (fun x => 0 <= x) l -> 0 <= sumZ l.
Proof. induction 1; simpl; [done|]. unfold sumZ in *. simpl. lia. Qed.

Lemma sumZ_imap_add {A} (f g : nat -> A -> Z) l :
  sumZ (imap (fun i x => f i x + g i x) l) = sumZ (imap f l) + sumZ (imap g l).
Proof.
  revert f g. induction l as [|x l IH]; intros f g; [done|]. cbn [imap]. unfold sumZ in *. simpl.
  specialize (IH (f ∘ S) (g ∘ S)). unfold compose in *. simpl in IH. lia.
Qed.

Lemma hit_ok_config p p' bs :
  same_config p p' -> (forall r, block_hash_in p' r = block_hash_in p r) -> hit_ok p bs -> hit_ok p' bs.
Proof.
  intros Hcf Hh [H1 H2]. assert (Hu : forall r, pool_usable p' r <-> pool_usable p r) by (intros; by apply pool_usable_config).
  split.
  - intros r Hr. rewrite Hu, Hh. by apply H1.
  - intros r Hr. apply H2. by apply Hu.
Qed.

(** Without external tokens the first phase allocates nothing. *)
Lemma kzero (n : nat) a b : (if 0 <? (if decide (n = 0%nat) then 0 else Z.min a 0) then b else 0) = 0.
Proof. case_decide; [done|]. by replace (0 <? Z.min a 0) with false by lia. Qed.

(** Touching takes fewer blocks out of a part of the free list. *)
Lemma untouched_sublist bs fl fl' :
  fl' `sublist_of` fl -> zlen fl' - zlen (untouched bs fl') <= zlen fl - zlen (untouched bs fl).
Proof.
  unfold untouched, zlen. induction 1 as [|x l1 l2 H IH|x l1 l2 H IH]; [done| |].
  - rewrite !filter_cons. case_decide; simpl; lia.
  - rewrite filter_cons. case_decide; simpl; lia.
Qed.

Lemma untouched_sublist_of bs fl fl' : fl' `sublist_of` fl -> untouched bs fl' `sublist_of` fl.
Proof. intros H. etransitivity; [apply sublist_filter|done]. Qed.

Section Phases.
Context (use_int : bool) (sha256 : bytes -> bytes) (c : Coordinator) (fl : list ref) (own : ref -> nat) (rid : string).
Context (Hinv : coord_inv c fl own).
Context (Hplain : forall i m, single_type_managers c !! i = Some m -> plain m).
Local Abbreviation ms := (single_type_managers c).

(** *** Freeing skipped blocks *)

Definition removed_rel (i : nat) (m : Manager) (_ : unit) (m' : Manager) : Prop :=
  num_cached_block m' = num_cached_block m /\ length (table m' rid) = length (table m rid) /\ others rid m m'.

Lemma coord_remove_wp n :
  wp (coord_remove_skipped_blocks rid n)
     (fun _ c' => exists fl' own' l, coord_inv c' fl' own' /\ same_rest c c'
        /\ same_config (block_pool c) (block_pool c') /\ phase_rel removed_rel ms l (single_type_managers c')
        /\ (exists freed, fl' = fl ++ freed)
        /\ forall r, block_hash_in (block_pool c') r = block_hash_in (block_pool c) r) c.
Proof.
  unfold coord_remove_skipped_blocks. apply wp_bind. eapply wp_mono.
  { apply (phase_wp (fun _ => mgr_remove_skipped_blocks rid n) removed_rel
      (fun _ p fl' => (exists freed, fl' = fl ++ freed) /\ forall r, block_hash_in p r = block_hash_in (block_pool c) r) c)
      with (fl := fl) (own := own); [|done|].
    - intros i m p fl1 own1 Hm Hp Hmo Hcf [[fr ->] Hh].
      eapply wp_eq; [by apply plain_remove; eapply Hplain|]. eapply wp_mono; [by apply remove_skipped_wp|].
      intros [] [m' p'] (j & fl' & own' & Hj & HT & _ & Hnc & Hst & [fr' ->] & Hoth & Hh'). cbn [fst snd] in *.
      eexists _, _. split; [exact Hst|]. split_and!.
      + split_and!; [done| |done]. rewrite HT, !length_app, length_take, length_replicate, length_drop.
        assert (num_skippable m rid n <= length (table m rid))%nat; [|lia].
        unfold num_skippable. destruct (_ <=? 0); [lia|]. unfold zlen. lia.
      + exists (fr ++ fr'). by rewrite app_assoc.
      + intros r. by rewrite Hh', Hh.
    - split; [exists []; by rewrite app_nil_r|done]. }
  intros l c' (fl' & own' & H1 & [H2 H3] & H4 & H5 & H6). apply wp_ret. by exists fl', own', l.
Qed.

(** *** Touching the hits *)

Context (hits : list (list ref)) (local : Z).
Local Abbreviation hit_rest m h := (drop (skipped_blocks m local) h).
Local Abbreviation new_table m h := (replicate (skipped_blocks m local) (Blk 0) ++ hit_rest m h).

Definition evictable_of (i : nat) (m : Manager) : Z :=
  num_evictable_blocks (block_pool c) (hit_rest m (hits !!! i)).

(** What each manager may assume of its hit. *)
Definition hits_ok : Prop :=
  length hits = length ms
  /\ forall i m h, ms !! i = Some m -> hits !! i = Some h ->
       table m rid = [] /\ num_cached_block m !! rid = None /\ hit_ok (block_pool c) h
       /\ (enable_caching (block_pool c) = false -> h = []).

Definition computed_rel (i : nat) (m : Manager) (_ : unit) (m' : Manager) : Prop :=
  exists h, hits !! i = Some h /\ table m' rid = new_table m h /\ others rid m m'.

Lemma coord_computed_wp :
  hits_ok ->
  wp (coord_allocate_new_computed_blocks use_int rid hits local 0)
     (fun _ c' => exists fl' own' l, coord_inv c' fl' own' /\ same_rest c c'
        /\ same_config (block_pool c) (block_pool c') /\ phase_rel computed_rel ms l (single_type_managers c')
        /\ zlen fl - zlen fl' <= sumZ (imap evictable_of ms)) c.
Proof.
  intros [Hlen Hhits]. unfold coord_allocate_new_computed_blocks. apply wp_bind. eapply wp_mono.
  { apply (phase_wp _ computed_rel
      (fun i p fl' => fl' `sublist_of` fl /\ zlen fl - zlen fl' <= sumZ (take i (imap evictable_of ms))
         /\ forall r, block_hash_in p r = block_hash_in (block_pool c) r) c) with (fl := fl) (own := own); [|done|].
    - intros i m p fl1 own1 Hm Hp Hmo Hcf (Hsub & Hcnt & Hh).
      destruct (lookup_lt_is_Some_2 hits i) as [h Eh]; [rewrite Hlen; by eapply lookup_lt_Some|].
      destruct (Hhits i m h Hm Eh) as (Ht & Hnc & Hok & Hca).
      apply wp_bind. eapply wp_lift_res; [apply py_get_Some; [lia|by rewrite Nat2Z.id]|].
      eapply wp_eq; [by apply plain_computed; eapply Hplain|].
      pose proof (hit_ok_config _ _ _ Hcf Hh Hok) as Hok'.
      eapply wp_mono; [apply (allocate_new_computed_wp use_int p fl1 own1 m rid h local 0 Hp Hmo Ht Hnc)|].
      + intros E. apply Hca. rewrite <-E. symmetry. apply Hcf.
      + exact Hok'.
      + rewrite !Z.add_0_r. rewrite kzero. split; [done|apply zlen_nonneg].
      + intros [] [m' p']. rewrite !Z.add_0_r, kzero. simpl. rewrite app_nil_r, drop_0.
        intros (HT & HC & Hst & Hoth & Hh'). eexists _, _. split; [exact Hst|]. split_and!.
        * exists h. done.
        * by apply untouched_sublist_of.
        * rewrite (sumZ_take_S _ _ (evictable_of i m)) by (by rewrite list_lookup_imap, Hm).
          pose proof (untouched_sublist (hit_rest m h) fl fl1 Hsub).
          assert (evictable_of i m = zlen fl - zlen (untouched (hit_rest m h) fl)); [|lia].
          unfold evictable_of. rewrite (list_lookup_total_correct _ _ _ Eh).
          destruct (hit_ok_drop _ h (skipped_blocks m local) Hok) as [Hr Hd].
          apply (evictable_count _ _ _ _ (ci_pool _ _ _ Hinv)); [|done].
          intros r Hin. destruct (Hr r Hin) as [[? _]|?]; auto.
        * intros r. rewrite Hh' by done. apply Hh.
    - split_and!; [done| |done]. rewrite take_0. simpl. lia. }
  intros l c' (fl' & own' & H1 & (H2 & H3 & _) & H4 & H5 & H6). apply wp_ret. exists fl', own', l.
  rewrite take_ge in H3 by (by rewrite length_imap). done.
Qed.

(** *** Counting *)

Lemma coord_count g need enc total nm :
  length hits = length ms ->
  (forall i m h, ms !! i = Some m -> hits !! i = Some h ->
     base_num_blocks_to_allocate rid need h total (m, block_pool c) = Ok (g i m)) ->
  coord_num_blocks_to_allocate rid need hits enc total nm c = (Ok (sumZ (imap g ms)), c).
Proof.
  intros Hlen Hg. unfold coord_num_blocks_to_allocate, mbind, M_bind.
  rewrite (for_managers_read _ g).
  - by rewrite foldl_sumZ.
  - intros i m Hm. destruct (lookup_lt_is_Some_2 hits i) as [h Eh]; [rewrite Hlen; by eapply lookup_lt_Some|].
    unfold get_mgr, gets. cbn [fst]. rewrite plain_not_cross by (by eapply Hplain).
    rewrite (py_get_Some _ _ h) by (try lia; by rewrite Nat2Z.id). unfold lift_res.
    apply plain_count; [by eapply Hplain|by apply Hg].
Qed.

(** The blocks a new request still needs after its hit. *)
Definition needed_of (need : Z) (i : nat) (m : Manager) : Z :=
  Z.max 0 (cdiv need (block_size m) - zlen (new_table m (hits !!! i))).

Lemma coord_count_new need enc nm :
  hits_ok -> 0 <= need ->
  coord_num_blocks_to_allocate rid need hits enc local nm c
  = (Ok (sumZ (imap evictable_of ms) + sumZ (imap (needed_of need) ms)), c).
Proof.
  intros [Hlen Hhits] Hneed. rewrite (coord_count (fun i m => evictable_of i m + needed_of need i m)).
  - by rewrite sumZ_imap_add.
  - done.
  - intros i m h Hm Eh. destruct (Hhits i m h Hm Eh) as (Ht & Hnc & Hok & _).
    rewrite (num_blocks_exact _ fl own) by (done || by apply (ci_pool _ _ _ Hinv) || by eapply ci_mgrs).
    unfold evictable_of, needed_of. rewrite (list_lookup_total_correct _ _ _ Eh).
    destruct (hit_ok_drop _ h (skipped_blocks m local) Hok) as [Hr Hd].
    rewrite (evictable_count _ _ _ _ (ci_pool _ _ _ Hinv)); [done| |done].
    intros r Hin. destruct (Hr r Hin) as [[? _]|?]; auto.
Qed.

(** A request that runs: nothing is skipped beyond its table. *)
Definition running_ok (total : Z) : Prop :=
  forall i m, ms !! i = Some m ->
    is_Some (num_cached_block m !! rid) \/ Z.of_nat (skipped_blocks m total) <= zlen (table m rid).

Lemma coord_count_running need enc total nm :
  running_ok total -> hits = replicate (length ms) [] -> 0 <= total ->
  coord_num_blocks_to_allocate rid need hits enc total nm c
  = (Ok (sumZ (imap (fun _ m => blocks_missing m rid need) ms)), c).
Proof.
  intros Hrun Hh Htot. apply coord_count; [by rewrite Hh, length_replicate|].
  intros i m h Hm Eh. rewrite Hh in Eh. apply lookup_replicate in Eh as [-> _].
  unfold base_num_blocks_to_allocate, blocks_missing. fold (table m rid).
  destruct (num_cached_block m !! rid) as [n|] eqn:En; [simpl; f_equal; lia|].
  destruct (Hrun i m Hm) as [[? Hs]|Hs]; [congruence|].
  pose proof (mo_pos _ _ _ (ci_mgrs _ _ _ Hinv i m Hm)) as Hbs. unfold skipped_blocks in Hs.
  set (s := get_num_skipped_tokens _ total / block_size m) in *.
  assert (E : py_slice_from (@nil ref) (Z.max 0 (s - zlen (table m rid))) = []).
  { rewrite py_slice_from_nonneg by lia. apply drop_nil. }
  rewrite E. change (num_evictable_blocks (block_pool c) []) with 0. change (zlen (@nil ref)) with 0.
  pose proof (zlen_nonneg (table m rid)). f_equal. lia.
Qed.

(** *** Allocating *)

Definition alloc_rel (need : Z) (i : nat) (m : Manager) (a : list ref) (m' : Manager) : Prop :=
  table m' rid = table m rid ++ a /\ num_cached_block m' = num_cached_block m /\ others rid m m'
  /\ zlen a = blocks_missing m rid need.

Lemma coord_alloc_wp need nm enc :
  sumZ (imap (fun _ m => blocks_missing m rid need) ms) <= zlen fl ->
  wp (coord_allocate_new_blocks use_int rid need nm enc)
     (fun l c' => exists fl' own', coord_inv c' fl' own' /\ same_rest c c'
        /\ same_config (block_pool c) (block_pool c') /\ phase_rel (alloc_rel need) ms l (single_type_managers c')
        /\ zlen fl' = zlen fl - sumZ (imap (fun _ m => blocks_missing m rid need) ms)) c.
Proof.
  intros Hfree. set (miss := imap (fun _ m => blocks_missing m rid need) ms) in *. eapply wp_mono.
  { apply (phase_wp _ (alloc_rel need) (fun i p fl' => zlen fl' = zlen fl - sumZ (take i miss)) c)
      with (fl := fl) (own := own); [|done|rewrite take_0; simpl; lia].
    intros i m p fl1 own1 Hm Hp Hmo Hcf Hcnt.
    assert (Hmi : miss !! i = Some (blocks_missing m rid need)) by (unfold miss; by rewrite list_lookup_imap, Hm).
    assert (Hpos : 0 <= sumZ (drop (S i) miss)).
    { apply sumZ_nonneg, Forall_drop. unfold miss. apply Forall_lookup. intros j x. rewrite list_lookup_imap.
      destruct (ms !! j); [|done]. intros [= <-]. unfold blocks_missing. lia. }
    assert (Hsum : sumZ miss = sumZ (take i miss) + sumZ (drop i miss)) by (by rewrite <-sumZ_app, take_drop).
    rewrite (sumZ_drop _ _ _ Hmi) in Hsum.
    apply wp_bind, wp_gets. cbn [fst]. rewrite plain_not_cross by (by eapply Hplain).
    eapply wp_eq; [by apply plain_allocate; eapply Hplain|].
    eapply wp_mono; [apply (allocate_new_blocks_wp use_int p fl1 own1 m rid need Hp Hmo); lia|].
    intros a [m' p'] (-> & HT & HC & Hst & Hoth). cbn [fst snd] in *. eexists _, _. split; [exact Hst|].
    assert (0 <= blocks_missing m rid need) by (unfold blocks_missing; lia). split.
    - unfold alloc_rel. split_and!; try done. unfold zlen in *. rewrite length_take. lia.
    - rewrite (sumZ_take_S _ _ _ Hmi). unfold zlen in *. rewrite length_drop. lia. }
  intros l c' (fl' & own' & H1 & H2 & H3 & H4 & H5). exists fl', own'.
  rewrite take_ge in H2 by (unfold miss; by rewrite length_imap). done.
Qed.

(** *** Caching *)

(** The hashes of the full blocks of the first [n] tokens are available. *)
Definition hashable (request : Request) (n : Z) : Prop :=
  forall i m, ms !! i = Some m ->
    exists hs, hashes_at request (hash_block_size (block_pool c)) (block_size m) = Ok hs
      /\ n / block_size m <= zlen hs /\ n / block_size m <= zlen (block_hashes request)
      /\ events_ok sha256 (block_pool c) request (block_size m).

Definition cached_rel (i : nat) (m : Manager) (_ : unit) (m' : Manager) : Prop := req_to_blocks m' = req_to_blocks m.

Lemma coord_cache_wp request n :
  request_id request = rid -> enable_caching (block_pool c) = true -> hashable request n ->
  (forall i m, ms !! i = Some m -> n / block_size m <= zlen (table m rid)) ->
  wp (coord_cache_blocks use_int sha256 request n)
     (fun _ c' => exists own' l, coord_inv c' fl own' /\ same_rest c c'
        /\ same_config (block_pool c) (block_pool c') /\ phase_rel cached_rel ms l (single_type_managers c')) c.
Proof.
  intros Hrid Hca Hhash Hcov. unfold coord_cache_blocks. apply wp_bind. eapply wp_mono.
  { apply (phase_wp (fun _ => mgr_cache_blocks use_int sha256 request n) cached_rel (fun _ p fl' => fl' = fl) c)
      with (fl := fl) (own := own); [|done|done].
    intros i m p fl1 own1 Hm Hp Hmo Hcf ->. eapply wp_eq; [by apply plain_cache; eapply Hplain|].
    destruct (Hhash i m Hm) as (hs & Hhs & Hl1 & Hl2 & Hev). destruct Hcf as (_ & Hc1 & Hc2 & _ & Hc3).
    assert (Hw : wp (base_cache_blocks use_int sha256 request n)
      (fun _ mp' => req_to_blocks mp'.1 = req_to_blocks m /\ step_ok m p own1 mp'.1 mp'.2 fl own1) (m, p)).
    { destruct (decide (n / block_size m <= default 0 (num_cached_block m !! request_id request))) as [Hle|Hgt].
      - unfold base_cache_blocks. apply wp_bind, wp_gets, wp_bind, wp_gets, wp_bind, wp_gets. cbn [fst].
        replace (n / block_size m <=? _) with true by lia. apply wp_ret. split; [done|by apply step_ok_refl].
      - destruct (req_to_blocks m !! rid) as [l|] eqn:El.
        2: { specialize (Hcov i m Hm). unfold table in Hcov. rewrite El in Hcov. simpl in Hcov.
             assert (0 <= default 0 (num_cached_block m !! request_id request)); [|rewrite zlen_nil in Hcov; lia].
             destruct (num_cached_block m !! request_id request) eqn:En; [by eapply mo_cached|done]. }
        eapply wp_mono; [apply (cache_blocks_wp use_int sha256 p fl own1 m request n hs l Hp Hmo)|].
        + by rewrite Hc1.
        + by rewrite Hrid.
        + specialize (Hcov i m Hm). unfold table in Hcov. by rewrite El in Hcov.
        + by rewrite Hc2.
        + done.
        + done.
        + unfold events_ok in *. rewrite Hc3. exact Hev.
        + intros [] mp' (HT & _ & Hst & _). done. }
    eapply wp_mono; [exact Hw|]. intros [] mp' [HT Hst]. exists fl, own1. done. }
  intros l c' (fl' & own' & H1 & -> & H4 & H5 & H6). apply wp_ret. by exists own', l.
Qed.
End Phases.

(** ** Freeing, evicting, resetting *)

Definition freed_rel (rid : string) (i : nat) (m : Manager) (_ : unit) (m' : Manager) : Prop :=
  req_to_blocks m' = delete rid (req_to_blocks m) /\ num_cached_block m' = delete rid (num_cached_block m).

Lemma coord_free_wp c fl own rid :
  coord_inv c fl own ->
  wp (coord_free rid)
     (fun _ c' => exists fl' own' l, coord_inv c' fl' own' /\ same_rest c c'
        /\ same_config (block_pool c) (block_pool c') /\ phase_rel (freed_rel rid) (single_type_managers c) l (single_type_managers c')
        /\ (exists freed, fl' = fl ++ freed)
        /\ forall r, block_hash_in (block_pool c') r = block_hash_in (block_pool c) r) c.
Proof.
  intros Hinv. unfold coord_free. apply wp_bind. eapply wp_mono.
  { apply (phase_wp (fun _ => mgr_free rid) (freed_rel rid)
      (fun _ p fl' => (exists freed, fl' = fl ++ freed) /\ forall r, block_hash_in p r = block_hash_in (block_pool c) r) c)
      with (fl := fl) (own := own); [|done|].
    - intros i m p fl1 own1 Hm Hp Hmo Hcf [[fr ->] Hh].
      eapply wp_mono; [by apply mgr_free_wp|]. intros [] mp' (HT & HC & fl' & own' & Hst & -> & Hh').
      eexists _, _. split; [exact Hst|]. split; [done|]. split; [eexists; by rewrite <-app_assoc|].
      intros r. by rewrite Hh', Hh.
    - split; [exists []; by rewrite app_nil_r|done]. }
  intros l c' (fl' & own' & H1 & [H2 H3] & H4 & H5 & H6). apply wp_ret. by exists fl', own', l.
Qed.

(** Dropping hashes keeps the managers well-formed. *)
Lemma mgr_ok_unhash p p' own m :
  same_config p p' ->
  (forall r, pool_usable p r -> block_hash_in p' r = None \/ block_hash_in p' r = block_hash_in p r) ->
  mgr_ok p own m -> mgr_ok p' own m.
Proof.
  intros Hcf Hh [H1 H2 H3 H4 H5 H6 H7 H8 H9].
  assert (Hu : forall r, pool_usable p' r <-> pool_usable p r) by (intros; by apply pool_usable_config).
  destruct Hcf as (_ & Hc & _). split; try done.
  - by rewrite Hc.
  - intros rid l r Hl Hr. rewrite Hu. by eapply H5.
  - intros rid l r Hl Hr. apply Hu in Hr. by eapply H6.
  - intros r Hr. apply Hu in Hr. by apply H7.
  - rewrite Hc. intros Hca rid l i r Hl Hi Hr Hn. apply Hu in Hr. destruct (H8 Hca rid l i r Hl Hi Hr Hn) as [Hnone Ho].
    split; [|done]. destruct (Hh r Hr) as [?|E]; [done|by rewrite E].
Qed.

Lemma coord_pool_step {A} c fl own (f : M BlockPool A) (Q : A -> Coordinator -> Prop) :
  coord_inv c fl own ->
  wp f (fun a p' => pool_inv p' fl own /\ same_config (block_pool c) p'
          /\ (forall r, pool_usable (block_pool c) r ->
                block_hash_in p' r = None \/ block_hash_in p' r = block_hash_in (block_pool c) r)
          /\ (coord_inv (set_managers (single_type_managers c) p' c) fl own -> Q a (set_managers (single_type_managers c) p' c)))
     (block_pool c) ->
  wp (on_block_pool f) Q c.
Proof.
  intros [Hp Hm Ho] Hw. apply wp_zoom. eapply wp_mono; [exact Hw|]. intros a p' (Hp' & Hcf & Hh & HQ). apply HQ.
  split; simpl; [done| |].
  - intros i m Hi. eapply mgr_ok_unhash; [exact Hcf|exact Hh|by eapply Hm].
  - intros r Hr. apply (pool_usable_config _ _ _ Hcf) in Hr. by apply Ho.
Qed.

(** ** A new coordinator *)

Definition plain_spec (s : KVCacheSpec) : Prop := plain_kind (spec_kind s) /\ 0 < spec_block_size s.

(** The managers of [specs], numbered from [i]. *)
Definition fresh_managers (i : Z) (specs : list KVCacheSpec) (caching : bool) (ws : Z) : list Manager :=
  imap (fun j s => mkManager (if 1 <? ws then spec_block_size s * ws else spec_block_size s) s caching [] ∅ ∅
                     (i + Z.of_nat j) (Blk 0) [] ∅ ∅ ∅) specs.

Lemma init_managers_fresh p i specs caching ws :
  Forall plain_spec specs -> null_block p = Blk 0 ->
  init_managers i specs caching ws p = (Ok (fresh_managers i specs caching ws), p).
Proof.
  intros Hs Hn. revert i. induction Hs as [|s specs [Hk _] Hs IH]; intros i; [done|].
  cbn [init_managers].
  assert (Hm : manager_init s caching i ws p
    = (Ok (mkManager (if 1 <? ws then spec_block_size s * ws else spec_block_size s) s caching [] ∅ ∅ i (Blk 0) [] ∅ ∅ ∅), p)).
  { unfold manager_init, gets, mbind, M_bind. rewrite Hn. by destruct (spec_kind s). }
  unfold mbind, M_bind. rewrite Hm, IH. unfold fresh_managers. cbn [imap]. unfold mret, M_ret. do 3 f_equal.
  - f_equal. lia.
  - apply imap_ext. intros j s' _. simpl. f_equal. lia.
Qed.

Lemma fresh_managers_lookup i specs caching ws j m :
  fresh_managers i specs caching ws !! j = Some m ->
  exists s, specs !! j = Some s
    /\ m = mkManager (if 1 <? ws then spec_block_size s * ws else spec_block_size s) s caching [] ∅ ∅
             (i + Z.of_nat j) (Blk 0) [] ∅ ∅ ∅.
Proof.
  unfold fresh_managers. rewrite list_lookup_imap. destruct (specs !! j) as [s|]; [|done].
  intros [= <-]. by exists s.
Qed.

Lemma towned_empty r ms : (forall i m, ms !! i = Some m -> req_to_blocks m = ∅) -> towned r ms = 0%nat.
Proof.
  intros H. unfold towned. induction ms as [|m ms IH]; [done|]. simpl. rewrite IH by (intros j; apply (H (S j))).
  rewrite (H 0%nat m eq_refl). unfold tocc. by rewrite map_fold_empty.
Qed.

Lemma coord_base_init_inv cfg max_len eagle caching ev dcp pcp hbs metrics cls :
  0 < num_blocks cfg -> Forall plain_spec (kv_cache_groups cfg) -> 0 < dcp -> 0 < pcp ->
  zlen (kv_cache_groups cfg) < 2 ^ 32 ->
  exists c, coord_base_init cfg max_len eagle caching ev dcp pcp hbs metrics cls = Ok c
    /\ coord_inv c (Blk <$> seq 1 (Z.to_nat (num_blocks cfg) - 1)) (fun _ => 0%nat)
    /\ single_type_managers c = fresh_managers 0 (kv_cache_groups cfg) caching (dcp * pcp)
    /\ (forall i m, single_type_managers c !! i = Some m -> plain m)
    /\ enable_caching (block_pool c) = caching /\ kv_cache_config c = cfg.
Proof.
  intros Hn Hs Hd Hpp Hlen. destruct (pool_init_ok (num_blocks cfg) caching hbs ev metrics Hn) as (p & Hp & Hinv & _ & Hca & _).
  unfold coord_base_init. rewrite Hp. unfold mbind at 1, res_bind at 1.
  rewrite init_managers_fresh by (done || apply (pc_null _ _ _ (proj1 Hinv))).
  eexists. split; [done|]. split_and!; try done; simpl.
  - split; simpl; [done| |].
    + intros i m (s & Es & ->)%fresh_managers_lookup. pose proof (Forall_lookup_1 _ _ _ _ Hs Es) as [_ Hbs].
      apply mgr_ok_empty; simpl; try done.
      * destruct (1 <? dcp * pcp); nia.
      * apply lookup_lt_Some in Es. unfold zlen in Hlen. lia.
    + intros r _. rewrite towned_empty; [done|]. by intros i m (s & _ & ->)%fresh_managers_lookup.
  - intros i m (s & Es & ->)%fresh_managers_lookup. by pose proof (Forall_lookup_1 _ _ _ _ Hs Es) as [? _].
Qed.
