(* ===== verification/HybridHit.v ===== *)
(** * The hybrid search

    The fixed-point iteration of [HybridKVCacheCoordinator.find_longest_cache_hit]:
    every search answers with an aligned hit that is not longer than asked and in
    which the blocks a layer will read are present; the iteration ends with all
    groups at one length. *)

From S2P Require Import Prelude FreeQueue Request Hashing HashingLemmas BlockPool BlockPoolLemmas.
From S2P Require Import SingleType CacheHit CacheHitLemmas Coordinator.
Local Open Scope Z_scope.

(** ** One search *)

(** Block [i] is read by a layer of kind [k] that resumes after [H] blocks. *)
Definition reads (k : attn_kind) (bs : Z) (H i : nat) : Prop :=
  match k with
  | SlidingWindow w => Z.of_nat H * bs - (w - 1) < (Z.of_nat i + 1) * bs
  | ChunkedLocalAttention c => Z.of_nat H * bs / c * c < (Z.of_nat i + 1) * bs
  | Mamba _ _ => S i = H
  | _ => True
  end.

(** The specs whose search the hybrid coordinator supports: with EAGLE a sliding
    window needs the alignment to be its block size, and chunked attention needs
    that alignment, no EAGLE, and chunks of whole blocks. *)
Definition searchable (e : bool) (al : Z) (s : KVCacheSpec) : Prop :=
  0 < spec_block_size s /\ (spec_block_size s | al)
  /\ match spec_kind s with
     | SlidingWindow w => e = true -> spec_block_size s = al
     | ChunkedLocalAttention c => e = false /\ spec_block_size s = al /\ 0 < c /\ (spec_block_size s | c)
     | CrossAttention => False
     | _ => True
     end.

(** A hit whose read blocks carry the hashes of their positions. *)
Definition valid_rows (p : BlockPool) (gids : list Z) (hashes : list bytes) (s : KVCacheSpec) (rows : list (list ref)) : Prop :=
  forall i row, rows !! i = Some row -> reads (spec_kind s) (spec_block_size s) (length rows) i ->
    carried_at p gids hashes i row.

Lemma aligned_mod bs al L : 0 < bs -> is_aligned bs al L -> Z.of_nat L * bs mod al = 0.
Proof. intros Hbs [->|H]; [by rewrite Z_mod_mult|done]. Qed.

Section Search.
Context (p : BlockPool) (fl : list ref) (own : ref -> nat) (gids : list Z) (e : bool) (al : Z).
Context (Hc : pool_core p fl own) (Hne : gids <> []) (Hg : Forall (fun g => 0 <= g < 2 ^ 32) gids) (Hal : 0 < al).

Lemma full_valid hashes max_length bs :
  0 < bs -> 0 <= max_length ->
  exists rows, full_attention_hit p gids hashes max_length bs e al = Ok (columns (length gids) rows)
    /\ Z.of_nat (length rows) * bs <= max_length /\ is_aligned bs al (length rows)
    /\ forall i row, rows !! i = Some row -> carried_at p gids hashes i row.
Proof.
  intros Hbs Hml. rewrite full_attention_hit_columns by (lia || by eapply search_ok).
  set (N := Z.to_nat (max_length / bs)). set (P := hit_prefix p gids (take N hashes)).
  set (k := (length P - (if e then 1 else 0))%nat). exists (take (aligned_len bs al k) P). split; [done|].
  assert (Hlen : length (take (aligned_len bs al k) P) = aligned_len bs al k).
  { rewrite length_take. pose proof (aligned_len_le bs al k). lia. }
  rewrite Hlen. pose proof (aligned_len_le bs al k) as Hle.
  destruct (hit_prefix_max p gids (take N hashes)) as [HP _]. fold P in HP. rewrite length_take in HP.
  split_and!; [|apply aligned_len_spec|].
  - pose proof (Z.mul_div_le max_length bs Hbs). pose proof (Z.div_pos max_length bs Hml Hbs). unfold N in *. nia.
  - intros i row [Hi _]%lookup_take_Some. apply (hit_prefix_carried p fl own gids Hc Hg) in Hi as (h & Hh & ?).
    exists h. split; [|done]. by apply lookup_take_Some in Hh as [? _].
Qed.

Lemma sliding_valid hashes max_length bs w :
  0 < bs -> 0 <= max_length -> (Z.to_nat (max_length / bs) <= length hashes)%nat -> (e = true -> bs = al) ->
  exists rows, sliding_window_hit p gids hashes max_length bs w e al 1 = Ok (columns (length gids) rows)
    /\ Z.of_nat (length rows) * bs <= max_length /\ is_aligned bs al (length rows)
    /\ forall i row, rows !! i = Some row -> Z.of_nat (length rows) * bs - (w - 1) < (Z.of_nat i + 1) * bs ->
         carried_at p gids hashes i row.
Proof.
  intros Hbs Hml HN He.
  destruct (sliding_window_hit_columns p gids (search_ok p fl own gids Hc Hne Hg) hashes max_length bs w e al
    ltac:(lia) Hbs Hml HN) as (L & rows & Hbest & ->).
  pose proof (sw_best_length _ _ _ _ _ _ _ _ _ Hbest) as HlenL.
  set (e1 := if e then 1%nat else 0%nat).
  assert (Hrows : (if e then take (aligned_len bs al (L - 1)) rows else rows) = take (L - e1) rows).
  { unfold e1. destruct e; [|by rewrite take_ge by lia]. by rewrite aligned_len_id by (left; auto). }
  rewrite Hrows. eexists. split; [done|]. assert (Hlen : length (take (L - e1) rows) = (L - e1)%nat) by (rewrite length_take; lia).
  rewrite Hlen. destruct Hbest as (HL & [Ha Hv] & Hmax & Hr) eqn:Eb. split_and!.
  - pose proof (Z.mul_div_le max_length bs Hbs). pose proof (Z.div_pos max_length bs Hml Hbs). nia.
  - unfold e1. destruct e; [by left; auto|]. by rewrite Nat.sub_0_r.
  - intros i row [Hi Hlt]%lookup_take_Some Hw.
    assert (Hrow := sw_best_rows p gids hashes bs al (sw_need w bs e) _ rows L i row Hbest Hi).
    pose proof (window_block bs w (L - e1) i e Hbs Hw ltac:(lia)) as Hb.
    rewrite decide_True in Hrow by (unfold e1 in *; destruct e; lia). by eapply hit_at_carried.
Qed.

Lemma chunked_valid hashes max_length bs c :
  0 < bs -> 0 < c -> (bs | c) -> 0 <= max_length -> (Z.to_nat (max_length / bs) <= length hashes)%nat ->
  exists rows, chunked_local_hit p gids hashes max_length bs c false bs 1 = Ok (columns (length gids) rows)
    /\ Z.of_nat (length rows) * bs <= max_length
    /\ forall i row, rows !! i = Some row -> Z.of_nat (length rows) * bs / c * c < (Z.of_nat i + 1) * bs ->
         carried_at p gids hashes i row.
Proof.
  intros Hbs Hcp [q Hq] Hml HN. rewrite chunked_local_hit_columns by (done || by eapply search_ok).
  set (start := Z.to_nat (chunk_start max_length bs c)). set (N := Z.to_nat (max_length / bs)) in *.
  assert (Hst : Z.of_nat start * bs = max_length / c * c).
  { unfold start, chunk_start. destruct (0 <? max_length) eqn:E.
    - assert (Ed : max_length / c * c / bs = max_length / c * q) by (rewrite Hq at 2; rewrite Z.mul_assoc; by rewrite Z.div_mul by lia).
      rewrite Ed. pose proof (Z.div_pos max_length c Hml Hcp). rewrite Z2Nat.id by nia. nia.
    - assert (max_length = 0) as -> by lia. by rewrite !Zdiv_0_l. }
  set (P := hit_prefix p gids (take (N - start) (drop start hashes))).
  destruct (hit_prefix_max p gids (take (N - start) (drop start hashes))) as [HP1 _]. fold P in HP1.
  rewrite length_take, length_drop in HP1. pose proof (Z.mul_div_le max_length c Hcp) as Hmc.
  pose proof (Z.mul_div_le max_length bs Hbs) as Hmb. pose proof (Z.mul_succ_div_gt max_length bs Hbs) as Hmb2.
  assert (HNs : (start <= N)%nat) by (unfold N; nia).
  eexists. split; [done|]. rewrite length_app, length_replicate. split.
  { unfold N in *. pose proof (Z.div_pos max_length bs Hml Hbs). nia. }
  intros i row Hi Hread.
  assert (Hge : (start <= i)%nat).
  { assert (max_length / c <= Z.of_nat (start + length P) * bs / c); [|nia].
    apply Z.div_le_lower_bound; [done|]. nia. }
  rewrite lookup_app_r, length_replicate in Hi by (rewrite length_replicate; lia).
  apply (hit_prefix_carried p fl own gids Hc Hg) in Hi as (h & Hh & ?). exists h. split; [|done].
  apply lookup_take_Some in Hh as [Hh _]. rewrite lookup_drop in Hh. by replace (start + (i - start))%nat with i in Hh by lia.
Qed.

Lemma mamba_valid hashes max_length bs :
  0 < bs -> 0 <= max_length -> (Z.to_nat (max_length / bs) <= length hashes)%nat ->
  exists rows, mamba_hit p gids hashes max_length bs al 1 = Ok (columns (length gids) rows)
    /\ Z.of_nat (length rows) * bs <= max_length /\ is_aligned bs al (length rows)
    /\ forall i row, rows !! i = Some row -> S i = length rows -> carried_at p gids hashes i row.
Proof.
  intros Hbs Hml HN.
  destruct (mamba_hit_columns p gids (search_ok p fl own gids Hc Hne Hg) hashes max_length bs al ltac:(lia) Hbs Hml HN)
    as (rows & Hbest & ->). exists rows. split; [done|].
  pose proof (Z.mul_div_le max_length bs Hbs). pose proof (Z.div_pos max_length bs Hml Hbs).
  destruct Hbest as [(j & row & Hj & Ha & Hrow & _ & ->)|[-> _]].
  - rewrite length_app, length_replicate. simpl. replace (j + 1)%nat with (S j) by lia. split_and!; [nia|done|].
    intros i row' Hi [= ->]. rewrite lookup_app_r, length_replicate, Nat.sub_diag in Hi by (by rewrite length_replicate).
    injection Hi as <-. by eapply hit_at_carried.
  - split_and!; [simpl; lia|right; change (Z.of_nat (length (@nil (list ref))) * bs) with 0; apply Zmod_0_l|done].
Qed.

Lemma find_hit_valid hashes max_length s :
  searchable e al s -> 0 <= max_length -> (Z.to_nat (max_length / spec_block_size s) <= length hashes)%nat ->
  exists rows, find_longest_cache_hit p gids hashes max_length s e al 1 = Ok (columns (length gids) rows)
    /\ Z.of_nat (length rows) * spec_block_size s <= max_length
    /\ Z.of_nat (length rows) * spec_block_size s mod al = 0
    /\ (if is_full_spec s then forall i row, rows !! i = Some row -> carried_at p gids hashes i row
        else valid_rows p gids hashes s rows).
Proof.
  intros (Hbs & _ & Hk) Hml HN. unfold find_longest_cache_hit, is_full_spec, valid_rows, reads in *.
  change (1 <? 1) with false. cbv iota. destruct (spec_kind s) as [| |w|c|mo sp| |sl] eqn:Ek.
  - destruct (full_valid hashes max_length _ Hbs Hml) as (rows & -> & ? & ?%aligned_mod & ?); [|done]. by exists rows.
  - destruct (full_valid hashes max_length _ Hbs Hml) as (rows & -> & ? & ?%aligned_mod & ?); [|done]. by exists rows.
  - destruct (sliding_valid hashes max_length _ w Hbs Hml HN Hk) as (rows & -> & ? & ?%aligned_mod & ?); [|done]. by exists rows.
  - destruct Hk as (-> & <- & Hcp & Hd). destruct (chunked_valid hashes max_length _ c Hbs Hcp Hd Hml HN) as (rows & -> & ? & ?).
    exists rows. split_and!; try done. by rewrite Z_mod_mult.
  - destruct (mamba_valid hashes max_length _ Hbs Hml HN) as (rows & -> & ? & ?%aligned_mod & ?); [|done]. by exists rows.
  - done.
  - destruct (full_valid hashes max_length _ Hbs Hml) as (rows & -> & ? & ?%aligned_mod & ?); [|done]. by exists rows.
Qed.
End Search.

(** ** Storing the hits of a group *)

Abbreviation by_groups := (list (option (list ref))).

(** The hit [rows] is stored for the groups [ids]. *)
Definition stored (bg : by_groups) (ids : list Z) (rows : list (list ref)) : Prop :=
  forall j id, ids !! j = Some id -> bg !! Z.to_nat id = Some (Some ((fun row : list ref => row !!! j) <$> rows)).

Lemma assign_groups_frame ids hits bg (i : nat) :
  Forall (fun id => 0 <= id) ids -> Z.of_nat i ∉ ids -> assign_groups ids hits bg !! i = bg !! i.
Proof.
  revert hits bg. induction ids as [|id ids IH]; intros hits bg Hpos Hi; [by destruct hits|].
  destruct hits as [|h hits]; [done|]. apply Forall_cons in Hpos as [? Hpos]. apply not_elem_of_cons in Hi as [Hne Hi].
  cbn [assign_groups]. rewrite IH by done. unfold py_set. rewrite list_lookup_insert_ne; [done|]. lia.
Qed.

Lemma assign_groups_length ids hits bg : length (assign_groups ids hits bg) = length bg.
Proof.
  revert hits bg. induction ids as [|id ids IH]; intros [|h hits] bg; try done. cbn [assign_groups].
  rewrite IH. apply length_insert.
Qed.

Lemma assign_groups_lookup ids hits bg j id h :
  NoDup ids -> Forall (fun id => 0 <= id < zlen bg) ids -> ids !! j = Some id -> hits !! j = Some h ->
  assign_groups ids hits bg !! Z.to_nat id = Some (Some h).
Proof.
  revert hits bg j. induction ids as [|id0 ids IH]; intros [|h0 hits] bg [|j] Hnd Hpos Hj Hh; try done;
    apply NoDup_cons in Hnd as [Hni Hnd]; apply Forall_cons in Hpos as [Hp0 Hpos]; simpl in Hj, Hh; cbn [assign_groups].
  - injection Hj as ->. injection Hh as ->. rewrite assign_groups_frame.
    + unfold py_set. apply list_lookup_insert_eq. unfold zlen in Hp0. lia.
    + eapply Forall_impl; [exact Hpos|]. simpl. lia.
    + by rewrite Z2Nat.id by lia.
  - eapply IH; [done| |done|done]. eapply Forall_impl; [exact Hpos|]. intros x. simpl. unfold zlen, py_set. by rewrite length_insert.
Qed.

Lemma assign_groups_stored ids rows bg :
  NoDup ids -> Forall (fun id => 0 <= id < zlen bg) ids -> stored (assign_groups ids (columns (length ids) rows) bg) ids rows.
Proof.
  intros Hnd Hpos j id Hj. eapply assign_groups_lookup; [done|done|done|].
  apply columns_lookup. by eapply lookup_lt_Some.
Qed.

(** ** Rounds *)

Section Hybrid.
Context (c : Coordinator) (fl : list ref) (own : ref -> nat) (al maxlen : Z) (block_hashes : list bytes) (ng : nat).
Local Abbreviation p := (block_pool c).
Local Abbreviation e := (use_eagle c).
Context (Hc : pool_core p fl own) (Hal : 0 < al) (Hng : Z.of_nat ng < 2 ^ 32).

Record group_wf (g : attention_group) : Prop := {
  gw_ids : g.2 <> [];
  gw_nodup : NoDup g.2;
  gw_range : Forall (fun id => 0 <= id < Z.of_nat ng) g.2;
  gw_search : searchable e al g.1;
  gw_hashes : exists hs, hashes_for block_hashes (hash_block_size p) g.1 = Ok hs
    /\ (Z.to_nat (maxlen / spec_block_size g.1) <= length hs)%nat
}.

(** The entry of a group: a hit of [n] tokens. *)
Definition group_ok (bg : by_groups) (g : attention_group) (n : Z) : Prop :=
  exists hs rows, hashes_for block_hashes (hash_block_size p) g.1 = Ok hs /\ stored bg g.2 rows
    /\ Z.of_nat (length rows) * spec_block_size g.1 = n
    /\ (if is_full_spec g.1 then forall i row, rows !! i = Some row -> carried_at p g.2 hs i row
        else valid_rows p g.2 hs g.1 rows).

Lemma group_ok_frame bg bg' g n :
  group_wf g -> (forall i : nat, Z.of_nat i ∈ g.2 -> bg' !! i = bg !! i) -> group_ok bg g n -> group_ok bg' g n.
Proof.
  intros Hw Hf (hs & rows & H1 & Hst & H3 & H4). exists hs, rows. split_and!; try done. intros j id Hj.
  rewrite <-(Hst j id Hj). apply Hf. rewrite Z2Nat.id; [by eapply list_elem_of_lookup_2|].
  pose proof (Forall_lookup_1 _ _ _ _ (gw_range _ Hw) Hj). simpl in *. lia.
Qed.

(** A group that is searched. *)
Lemma group_step_search curr bg g :
  group_wf g -> 0 <= curr <= maxlen -> length bg = ng ->
  (is_full_spec g.1 = true -> forall i : nat, Z.of_nat i ∈ g.2 -> bg !! i = Some None) ->
  exists n bg', group_step c al block_hashes (curr, bg) g = Ok (n, bg')
    /\ 0 <= n <= curr /\ n mod al = 0 /\ group_ok bg' g n /\ length bg' = ng
    /\ forall i : nat, Z.of_nat i ∉ g.2 -> bg' !! i = bg !! i.
Proof.
  intros Hw Hcurr Hlen Hnone. destruct g as [s ids]. destruct Hw as [Hids Hnd Hr Hs (hs & Hhs & Hl)]. cbn [fst snd] in *.
  pose proof Hs as (Hbs & _ & _).
  assert (Hpos : Forall (fun id => 0 <= id) ids) by (eapply Forall_impl; [exact Hr|simpl; lia]).
  destruct (find_hit_valid p fl own ids e al Hc Hids) with (hashes := hs) (max_length := curr) (s := s)
    as (rows & Hrows & Hle & Hmod & Hval); try done; try lia.
  { eapply Forall_impl; [exact Hr|]. simpl. lia. }
  { pose proof (Z.div_le_mono curr maxlen _ Hbs ltac:(lia)). lia. }
  destruct ids as [|id0 ids0] eqn:Eids; [done|]. rewrite <-Eids in *.
  assert (H0 : py_get ids 0 = Ok id0) by (subst ids; done).
  assert (Hin0 : 0 <= id0 < Z.of_nat ng) by (subst ids; by apply Forall_cons in Hr as [? _]).
  destruct (lookup_lt_is_Some_2 bg (Z.to_nat id0)) as [o Ho]; [lia|].
  assert (Hcase : match is_full_spec s, o with true, Some _ => False | _, _ => True end).
  { destruct (is_full_spec s) eqn:Ef; [|done]. rewrite (Hnone eq_refl (Z.to_nat id0)) in Ho.
    - by injection Ho as <-.
    - rewrite Z2Nat.id by lia. subst ids. by left. }
  destruct (columns_first (length ids) rows) as (col & Hcol & Hcl & _); [subst ids; simpl; lia|].
  exists (Z.of_nat (length rows) * spec_block_size s), (assign_groups ids (columns (length ids) rows) bg).
  split_and!.
  - unfold group_step, mbind, res_bind. rewrite H0, (py_get_Some _ _ o) by (done || lia).
    destruct (is_full_spec s), o; try done; rewrite Hhs, Hrows, Hcol; unfold zlen; by rewrite Hcl.
  - nia.
  - done.
  - done.
  - exists hs, rows. split_and!; [done| |done|done]. apply assign_groups_stored; [done|].
    unfold zlen. by rewrite Hlen.
  - by rewrite assign_groups_length.
  - intros i Hi. by apply assign_groups_frame.
Qed.

(** A group of full attention that was searched in an earlier round. *)
Lemma group_step_reuse curr bg g n :
  group_wf g -> is_full_spec g.1 = true -> group_ok bg g n -> 0 <= curr -> curr mod al = 0 -> length bg = ng ->
  group_step c al block_hashes (curr, bg) g = Ok (curr, bg).
Proof.
  intros Hw Hf (hs & rows & _ & Hst & _) Hcurr Hmod Hlen. destruct g as [s ids]. destruct Hw as [Hids _ Hr (Hbs & [q Hq] & _) _]. cbn [fst snd] in *.
  destruct ids as [|id0 ids0]; [done|]. unfold group_step, mbind, res_bind. cbn [py_get].
  assert (H0 : py_get (id0 :: ids0) 0 = Ok id0) by done. rewrite H0.
  apply Forall_cons in Hr as [Hid _]. rewrite (py_get_Some bg id0 _ (proj1 Hid) (Hst 0%nat id0 eq_refl)), Hf. do 2 f_equal.
  apply Z.mod_divide in Hmod as [d ->]; [|lia]. rewrite Hq, Z.mul_assoc. by rewrite Z.div_mul by lia.
Qed.

Lemma hit_round_cons acc g gs acc' :
  group_step c al block_hashes acc g = Ok acc' ->
  hit_round c al block_hashes (g :: gs) acc = hit_round c al block_hashes gs acc'.
Proof. intros E. unfold hit_round. cbn [foldl]. f_equal. exact E. Qed.

(** The groups that are searched in every round. *)
Lemma tail_round gs : forall curr bg,
  Forall (fun g => group_wf g /\ is_full_spec g.1 = false) gs -> NoDup (gs ≫= snd) ->
  0 <= curr <= maxlen -> length bg = ng ->
  exists n bg', hit_round c al block_hashes gs (curr, bg) = Ok (n, bg')
    /\ 0 <= n <= curr /\ (gs <> [] -> n mod al = 0)
    /\ (forall g, g ∈ gs -> exists ngr, n <= ngr <= curr /\ group_ok bg' g ngr)
    /\ (forall g, last gs = Some g -> group_ok bg' g n)
    /\ (gs = [] -> n = curr)
    /\ length bg' = ng
    /\ forall i : nat, Z.of_nat i ∉ (gs ≫= snd) -> bg' !! i = bg !! i.
Proof.
  induction gs as [|g gs IH]; intros curr bg Hgs Hnd Hcurr Hlen.
  { exists curr, bg. split_and!; try done; try lia. by intros g ?%not_elem_of_nil. }
  apply Forall_cons in Hgs as [[Hw Hf] Hgs]. rewrite bind_cons in Hnd. apply NoDup_app in Hnd as (_ & Hdis & Hnd).
  destruct (group_step_search curr bg g Hw Hcurr Hlen ltac:(congruence)) as (n1 & bg1 & Hs1 & Hn1 & Hm1 & Hok1 & Hl1 & Hfr1).
  destruct (IH n1 bg1 Hgs Hnd ltac:(lia) Hl1) as (n & bg' & Hr & Hn & Hm & Hall & Hlast & Hnil & Hl & Hfr).
  assert (Hok : group_ok bg' g n1).
  { eapply group_ok_frame; [done| |exact Hok1]. intros i Hi. apply Hfr. intros Hin. by apply (Hdis _ Hi). }
  exists n, bg'. split_and!; try done.
  - by rewrite (hit_round_cons _ _ _ _ Hs1).
  - lia.
  - lia.
  - intros _. destruct gs as [|g' gs']; [by rewrite Hnil|by apply Hm].
  - intros g' [->|Hg']%elem_of_cons.
    + exists n1. split; [lia|done].
    + destruct (Hall g' Hg') as (ngr & ? & ?). exists ngr. split; [lia|done].
  - intros g' Hg'. destruct gs as [|g2 gs']; [|by apply Hlast]. simpl in Hg'. injection Hg' as <-. by rewrite Hnil.
  - intros i. rewrite bind_cons, not_elem_of_app. intros [Hi1 Hi2]. by rewrite Hfr, Hfr1.
Qed.

Context (g0 : attention_group) (gs : list attention_group).
Context (Hw0 : group_wf g0) (Hgs : Forall (fun g => group_wf g /\ is_full_spec g.1 = false) gs).
Context (Hnd : NoDup ((g0 :: gs) ≫= snd)) (Hgs_ne : gs <> []).

(** The first group has not been searched, or has a hit of at least [H] tokens. *)
Definition ready (bg : by_groups) (H : Z) : Prop :=
  is_full_spec g0.1 = true ->
  (forall i : nat, Z.of_nat i ∈ g0.2 -> bg !! i = Some None)
  \/ (H mod al = 0 /\ exists n0, H <= n0 /\ group_ok bg g0 n0).

Lemma first_step H bg :
  0 <= H <= maxlen -> length bg = ng -> ready bg H ->
  exists n bg', group_step c al block_hashes (H, bg) g0 = Ok (n, bg')
    /\ 0 <= n <= H /\ n mod al = 0 /\ length bg' = ng
    /\ (if is_full_spec g0.1 then exists n0, n <= n0 /\ group_ok bg' g0 n0 else group_ok bg' g0 n).
Proof.
  intros HH Hlen Hrdy.
  assert (Hsearch : (is_full_spec g0.1 = true -> forall i : nat, Z.of_nat i ∈ g0.2 -> bg !! i = Some None) ->
    exists n bg', group_step c al block_hashes (H, bg) g0 = Ok (n, bg')
      /\ 0 <= n <= H /\ n mod al = 0 /\ length bg' = ng
      /\ (if is_full_spec g0.1 then exists n0, n <= n0 /\ group_ok bg' g0 n0 else group_ok bg' g0 n)).
  { intros Hn. destruct (group_step_search H bg g0 Hw0 HH Hlen Hn) as (n & bg' & ? & ? & ? & ? & ? & _).
    exists n, bg'. split_and!; try done; try lia. destruct (is_full_spec g0.1); [|done]. exists n. split; [lia|done]. }
  destruct (is_full_spec g0.1) eqn:Ef; [|by apply Hsearch].
  destruct (Hrdy Ef) as [Hn|(Hm & n0 & Hle & Hok)]; [by apply Hsearch|].
  exists H, bg. split_and!; try done; try lia.
  - eapply group_step_reuse; [done|done|exact Hok|lia|done|done].
  - by exists n0.
Qed.

(** All groups have a hit of exactly [H] tokens, but for a longer one in front. *)
Definition agrees (bg : by_groups) (H : Z) : Prop :=
  (forall g, g ∈ gs -> group_ok bg g H)
  /\ (if is_full_spec g0.1 then exists n0, H <= n0 /\ group_ok bg g0 n0 else group_ok bg g0 H).

Lemma full_round H bg :
  0 <= H <= maxlen -> length bg = ng -> ready bg H ->
  exists n bg', hit_round c al block_hashes (g0 :: gs) (H, bg) = Ok (n, bg')
    /\ 0 <= n <= H /\ n mod al = 0 /\ length bg' = ng /\ ready bg' n
    /\ (n = H -> agrees bg' H)
    /\ (length gs = 1%nat -> is_full_spec g0.1 = true -> agrees bg' n).
Proof.
  intros HH Hlen Hrdy. destruct (first_step H bg HH Hlen Hrdy) as (n1 & bg1 & Hs1 & Hn1 & Hm1 & Hl1 & Hok1).
  rewrite bind_cons in Hnd. apply NoDup_app in Hnd as (_ & Hdis & Hnds).
  destruct (tail_round gs n1 bg1 Hgs Hnds ltac:(lia) Hl1) as (n & bg' & Hr & Hn & Hm & Hall & Hlast & _ & Hl & Hfr).
  assert (Hfr0 : forall m, group_ok bg1 g0 m -> group_ok bg' g0 m).
  { intros m. apply group_ok_frame; [done|]. intros i Hi. apply Hfr. intros Hin. by apply (Hdis _ Hi). }
  exists n, bg'. split_and!; try done; try lia.
  - by rewrite (hit_round_cons _ _ _ _ Hs1).
  - by apply Hm.
  - intros Hf. rewrite Hf in Hok1. right. split; [by apply Hm|]. destruct Hok1 as (n0 & ? & ?). exists n0. split; [lia|auto].
  - intros ->. split.
    + intros g Hg. destruct (Hall g Hg) as (ngr & Hle & Hok). by replace H with ngr by lia.
    + destruct (is_full_spec g0.1).
      * destruct Hok1 as (n0 & ? & ?). exists n0. split; [lia|auto].
      * apply Hfr0. by replace H with n1 by lia.
  - intros H1 Hf. rewrite Hf in Hok1. split.
    + destruct gs as [|g2 [|? ?]]; try done. intros g ->%list_elem_of_singleton. by apply Hlast.
    + rewrite Hf. destruct Hok1 as (n0 & ? & ?). exists n0. split; [lia|auto].
Qed.

Lemma hit_loop_agrees simple fuel : forall H bg,
  (simple = true -> length gs = 1%nat /\ is_full_spec g0.1 = true) ->
  (Z.to_nat H < fuel)%nat -> 0 <= H <= maxlen -> length bg = ng -> ready bg H ->
  exists n bg', hit_loop fuel c al block_hashes (g0 :: gs) simple H bg = Ok (n, bg')
    /\ 0 <= n <= H /\ n mod al = 0 /\ length bg' = ng /\ agrees bg' n.
Proof.
  induction fuel as [|fuel IH]; intros H bg Hsimple Hfuel HH Hlen Hrdy; [lia|].
  destruct (full_round H bg HH Hlen Hrdy) as (n & bg' & Hr & Hn & Hm & Hl & Hrdy' & Heq & Hone).
  cbn [hit_loop]. unfold mbind, res_bind. rewrite Hr. destruct (H <=? n) eqn:E.
  { assert (n = H) as -> by lia. exists H, bg'. split_and!; try done; try lia. by apply Heq. }
  destruct simple eqn:Es.
  { destruct (Hsimple eq_refl). exists n, bg'. split_and!; try done; try lia. by apply Hone. }
  destruct (IH n bg') as (n2 & bg2 & ? & ? & ? & ? & ?); try done; try lia. exists n2, bg2. split_and!; try done; lia.
Qed.
End Hybrid.

(** ** Truncation *)

Lemma truncate_groups_length ids n bg : length (truncate_groups ids n bg) = length bg.
Proof.
  revert bg. induction ids as [|id ids IH]; intros bg; [done|]. cbn [truncate_groups]. rewrite IH.
  destruct (bg !! Z.to_nat id) as [[?|]|]; [|done|done]. apply length_insert.
Qed.

Lemma truncate_groups_frame ids n bg (i : nat) :
  Forall (fun id => 0 <= id) ids -> Z.of_nat i ∉ ids -> truncate_groups ids n bg !! i = bg !! i.
Proof.
  revert bg. induction ids as [|id ids IH]; intros bg Hpos Hi; [done|].
  apply Forall_cons in Hpos as [? Hpos]. apply not_elem_of_cons in Hi as [Hne Hi]. cbn [truncate_groups].
  rewrite IH by done. destruct (bg !! Z.to_nat id) as [[?|]|]; [|done|done].
  unfold py_set. rewrite list_lookup_insert_ne; [done|]. lia.
Qed.

Lemma truncate_groups_stored ids (n : nat) bg rows :
  NoDup ids -> Forall (fun id => 0 <= id) ids -> stored bg ids rows ->
  stored (truncate_groups ids (Z.of_nat n) bg) ids (take n rows).
Proof.
  intros Hnd Hpos Hst j id Hj. specialize (Hst j id Hj). set (f := fun row : list ref => row !!! j) in *.
  clearbody f. revert bg j Hj Hst. induction ids as [|id0 ids IH]; intros bg [|j] Hj Hst; try done;
    apply NoDup_cons in Hnd as [Hni Hnd]; apply Forall_cons in Hpos as [Hp0 Hpos]; simpl in Hj; cbn [truncate_groups].
  - injection Hj as ->. rewrite truncate_groups_frame by (done || by rewrite Z2Nat.id).
    rewrite Hst. unfold py_set. rewrite list_lookup_insert_eq by (by eapply lookup_lt_Some).
    by rewrite py_slice_to_nonneg, Nat2Z.id, fmap_take by lia.
  - apply (IH Hnd Hpos _ j); [done|].
    assert (Hne : Z.to_nat id0 <> Z.to_nat id).
    { apply list_elem_of_lookup_2 in Hj as Hin. rewrite Forall_forall in Hpos. specialize (Hpos id Hin). intros E.
      assert (id0 = id) as -> by lia. done. }
    destruct (bg !! Z.to_nat id0) as [[?|]|]; [|done|done]. unfold py_set. by rewrite list_lookup_insert_ne.
Qed.
