(* ===== verification/KVManager.v ===== *)
(** * The KV cache manager

    [vllm/v1/core/kv_cache_manager.py]: the interface of the scheduler to the KV
    cache.  Its state is the coordinator and the prefix-cache statistics. *)

From S2P Require Import Prelude FreeQueue Request Hashing BlockPool SingleType CacheHit Coordinator.
From Stdlib Require Import QArith.
Local Open Scope Z_scope.

(** ** [KVCacheBlocks] *)

(** [shared_empty]: this is the manager's pre-constructed [empty_kv_cache_blocks]
    object, which [allocate_slots] recognises by identity. *)
Record KVCacheBlocks := mkBlocks {
  blocks : list (list ref);
  shared_empty : bool
}.

Definition blocks_add (a b : KVCacheBlocks) : KVCacheBlocks :=
  mkBlocks (zip_with app (blocks a) (blocks b)) false.

Definition blocks_get_block_ids (p : BlockPool) (allow_none : bool) (b : KVCacheBlocks) : option (list (list Z)) :=
  if allow_none && forallb (fun group => zlen group =? 0) (blocks b) then None
  else Some (map (map (block_id_in p)) (blocks b)).

(** Reads of the attributes of a block object. *)
Definition is_unhashed (p : BlockPool) (r : ref) : bool :=
  match pheap p !! r with Some b => is_none (block_hash b) | None => false end.
Definition is_null_in (p : BlockPool) (r : ref) : bool :=
  match pheap p !! r with Some b => is_null b | None => false end.

Definition get_unhashed_block_ids (p : BlockPool) (b : KVCacheBlocks) : res (list Z) :=
  match blocks b with
  | [group] => Ok (map (block_id_in p) (filter (fun r => is_unhashed p r = true) group))
  | _ => Err AssertionError
  end.

Definition get_unhashed_block_ids_all_groups (p : BlockPool) (b : KVCacheBlocks) : list (list Z) :=
  map (fun group => map (block_id_in p) (filter (fun r => is_unhashed p r && negb (is_null_in p r) = true) group))
    (blocks b).

Definition new_empty (b : KVCacheBlocks) : KVCacheBlocks := mkBlocks (replicate (length (blocks b)) []) false.

(** ** Statistics *)

Record PrefixCacheStats := mkStats {
  stats_reset : bool;
  requests : Z;
  queries : Z;
  hits : Z;
  preempted_requests : Z;
  preempted_queries : Z;
  preempted_hits : Z
}.
Definition new_stats : PrefixCacheStats := mkStats false 0 0 0 0 0 0.

Definition stats_record (num_tokens num_hits : Z) (preempted : bool) (s : PrefixCacheStats) : PrefixCacheStats :=
  if preempted
  then mkStats (stats_reset s) (requests s) (queries s) (hits s) (preempted_requests s + 1)
         (preempted_queries s + num_tokens) (preempted_hits s + num_hits)
  else mkStats (stats_reset s) (requests s + 1) (queries s + num_tokens) (hits s + num_hits)
         (preempted_requests s) (preempted_queries s) (preempted_hits s).

(** ** The manager *)

Record KVCacheManager := mkKVManager {
  kvm_max_model_len : Z;
  kvm_enable_caching : bool;
  log_stats : bool;
  prefix_cache_stats : option PrefixCacheStats;
  coordinator : Coordinator
}.

Definition set_stats (s : option PrefixCacheStats) (k : KVCacheManager) : KVCacheManager :=
  mkKVManager (kvm_max_model_len k) (kvm_enable_caching k) (log_stats k) s (coordinator k).
Definition set_coordinator (c : Coordinator) (k : KVCacheManager) : KVCacheManager :=
  mkKVManager (kvm_max_model_len k) (kvm_enable_caching k) (log_stats k) (prefix_cache_stats k) c.

Definition on_coord {A} (m : M Coordinator A) : M KVCacheManager A := zoom coordinator set_coordinator m.

Definition num_kv_cache_groups (k : KVCacheManager) : nat :=
  length (kv_cache_groups (kv_cache_config (coordinator k))).
Definition empty_kv_cache_blocks (k : KVCacheManager) : KVCacheBlocks :=
  mkBlocks (replicate (num_kv_cache_groups k) []) true.

(** [KVCacheManager.__init__] *)
Definition kv_manager_init (cfg : KVCacheConfig) (max_model_len hash_block_size : Z)
    (enable_caching use_eagle log_stats enable_kv_cache_events : bool) (dcp_world_size pcp_world_size : Z)
    (metrics_collector : option (list MetricsCall)) : res KVCacheManager :=
  c ← get_kv_cache_coordinator cfg max_model_len use_eagle enable_caching enable_kv_cache_events
        dcp_world_size pcp_world_size hash_block_size metrics_collector ;
  Ok (mkKVManager max_model_len enable_caching log_stats (if log_stats then Some new_stats else None) c).

Definition usage (k : KVCacheManager) : Q := get_usage (block_pool (coordinator k)).

Definition make_prefix_cache_stats : M KVCacheManager (option PrefixCacheStats) :=
  k ← gets id ;
  if negb (log_stats k) then mret None
  else modify (set_stats (Some new_stats)) ;; mret (prefix_cache_stats k).

(** [KVCacheBlocks(blocks) if any(blocks) else self.empty_kv_cache_blocks] *)
Definition create_kv_cache_blocks (bs : list (list ref)) (k : KVCacheManager) : KVCacheBlocks :=
  if existsb (fun l => negb (zlen l =? 0)) bs then mkBlocks bs false else empty_kv_cache_blocks k.

Definition get_computed_blocks (request : Request) : M KVCacheManager (KVCacheBlocks * Z) :=
  k ← gets id ;
  if negb (kvm_enable_caching k) || skip_reading_prefix_cache request
  then mret (empty_kv_cache_blocks k, 0)
  else
    let max_cache_hit_length := num_tokens request - 1 in
    hit ← lift_res (coord_find_longest_cache_hit (coordinator k) (block_hashes request) max_cache_hit_length) ;
    let '(computed_blocks, num_new_computed_tokens) := hit in
    when (log_stats k)
      (match prefix_cache_stats k with
       | None => raise AssertionError
       | Some s => modify (set_stats (Some (stats_record (num_tokens request) num_new_computed_tokens
                                              (0 <? num_preemptions request) s)))
       end) ;;
    mret (create_kv_cache_blocks computed_blocks k, num_new_computed_tokens).

Definition block_list (k : KVCacheManager) (new_computed_blocks : option KVCacheBlocks) : KVCacheBlocks :=
  match new_computed_blocks with Some b => b | None => empty_kv_cache_blocks k end.

Section Manager.
Context (use_int : bool) (sha256 : bytes -> bytes).

Definition can_fit_full_sequence (request : Request) (num_new_computed_tokens : Z)
    (new_computed_blocks : option KVCacheBlocks) (num_external_computed_tokens num_encoder_tokens : Z)
    : M KVCacheManager bool :=
  k ← gets id ;
  let new_computed_block_list := blocks (block_list k new_computed_blocks) in
  let num_local_computed_tokens := num_computed_tokens request + num_new_computed_tokens in
  let total_computed_tokens :=
    Z.min (num_local_computed_tokens + num_external_computed_tokens) (kvm_max_model_len k) in
  let full_num_tokens := Z.min (num_tokens request) (kvm_max_model_len k) in
  num_blocks_to_allocate ← on_coord (coord_num_blocks_to_allocate (request_id request) full_num_tokens
    new_computed_block_list num_encoder_tokens total_computed_tokens full_num_tokens) ;
  free ← gets (fun k => get_num_free_blocks (block_pool (coordinator k))) ;
  mret (num_blocks_to_allocate <=? free).

Definition allocate_slots (request : Request) (num_new_tokens num_new_computed_tokens : Z)
    (new_computed_blocks : option KVCacheBlocks) (num_lookahead_tokens num_external_computed_tokens : Z)
    (delay_cache_blocks : bool) (num_encoder_tokens : Z) : M KVCacheManager (option KVCacheBlocks) :=
  if (num_new_tokens =? 0) && (num_external_computed_tokens =? 0) then raise ValueError
  else
    k ← gets id ;
    let rid := request_id request in
    let new_computed := block_list k new_computed_blocks in
    let num_local_computed_tokens := num_computed_tokens request + num_new_computed_tokens in
    let total_computed_tokens :=
      Z.min (num_local_computed_tokens + num_external_computed_tokens) (kvm_max_model_len k) in
    let num_tokens_main_model := total_computed_tokens + num_new_tokens in
    let num_tokens_need_slot := Z.min (num_tokens_main_model + num_lookahead_tokens) (kvm_max_model_len k) in
    on_coord (coord_remove_skipped_blocks rid total_computed_tokens) ;;
    num_blocks_to_allocate ← on_coord (coord_num_blocks_to_allocate rid num_tokens_need_slot (blocks new_computed)
      num_encoder_tokens (num_local_computed_tokens + num_external_computed_tokens) num_tokens_main_model) ;
    free ← gets (fun k => get_num_free_blocks (block_pool (coordinator k))) ;
    if free <? num_blocks_to_allocate then mret None
    else
      when (negb (shared_empty new_computed) || (0 <? num_external_computed_tokens))
        (on_coord (coord_allocate_new_computed_blocks use_int rid (blocks new_computed)
                     num_local_computed_tokens num_external_computed_tokens)) ;;
      new_blocks ← on_coord (coord_allocate_new_blocks use_int rid num_tokens_need_slot num_tokens_main_model
                               num_encoder_tokens) ;
      if negb (kvm_enable_caching k) || delay_cache_blocks
      then gets (fun k => Some (create_kv_cache_blocks new_blocks k))
      else
        let num_tokens_to_cache := Z.min (total_computed_tokens + num_new_tokens) (num_tokens request) in
        on_coord (coord_cache_blocks use_int sha256 request num_tokens_to_cache) ;;
        gets (fun k => Some (create_kv_cache_blocks new_blocks k)).

Definition kv_free (request : Request) : M KVCacheManager unit := on_coord (coord_free (request_id request)).

Definition kv_remove_skipped_blocks (request_id : string) (total_computed_tokens : Z) : M KVCacheManager unit :=
  on_coord (coord_remove_skipped_blocks request_id total_computed_tokens).

Definition kv_evict_blocks (block_ids : list Z) : M KVCacheManager unit :=
  on_coord (on_block_pool (evict_blocks use_int block_ids)).

Definition kv_reset_prefix_cache : M KVCacheManager bool :=
  ok ← on_coord (on_block_pool reset_prefix_cache) ;
  if negb ok then mret false
  else
    k ← gets id ;
    when (log_stats k)
      (match prefix_cache_stats k with
       | None => raise AssertionError
       | Some s => modify (set_stats (Some (mkStats true (requests s) (queries s) (hits s) (preempted_requests s)
                                              (preempted_queries s) (preempted_hits s))))
       end) ;;
    mret true.

Definition kv_num_common_prefix_blocks (running_request_id : string) : M KVCacheManager (list Z) :=
  on_coord (coord_num_common_prefix_blocks running_request_id).

Definition kv_take_events : M KVCacheManager (list KVCacheEvent) := on_coord (on_block_pool pool_take_events).

Definition get_blocks (request_id : string) (k : KVCacheManager) : KVCacheBlocks :=
  create_kv_cache_blocks (coord_get_blocks (coordinator k) request_id) k.

Definition get_block_ids (request_id : string) (k : KVCacheManager) : option (list (list Z)) :=
  blocks_get_block_ids (block_pool (coordinator k)) false (get_blocks request_id k).

Definition kv_cache_blocks (request : Request) (num_computed_tokens : Z) : M KVCacheManager unit :=
  caching ← gets kvm_enable_caching ;
  when caching (on_coord (coord_cache_blocks use_int sha256 request num_computed_tokens)).

Definition kv_take_new_block_ids : M KVCacheManager (list Z) :=
  ids ← on_coord (for_managers (fun _ => take_new_block_ids)) ; mret (concat ids).

Definition kv_new_step_starts : M KVCacheManager unit := on_coord coord_new_step_starts.
End Manager.
