(* ===== verification/KVManagerLemmas.v ===== *)
(** * The KV cache manager: allocation

    The phases of [allocate_slots] composed: free skipped blocks, count, touch
    the hits, allocate, cache. *)

From S2P Require Import Prelude FreeQueue Request Hashing HashingLemmas BlockPool BlockPoolLemmas.
From S2P Require Import SingleType SingleTypeLemmas CacheHit CacheHitLemmas Coordinator CoordinatorLemmas KVManager.
Local Open Scope Z_scope.

Lemma wp_on_coord {A} (m : M Coordinator A) (Q : A -> KVCacheManager -> Prop) k :
  wp m (fun a c => Q a (set_coordinator c k)) (coordinator k) -> wp (on_coord m) Q k.
Proof. apply wp_zoom. Qed.

Lemma phase_rel_trans {A B C} (R1 : nat -> Manager -> A -> Manager -> Prop) (R2 : nat -> Manager -> B -> Manager -> Prop)
    (R : nat -> Manager -> C -> Manager -> Prop) ms1 l1 ms2 l2 ms3 (l : list C) :
  phase_rel R1 ms1 l1 ms2 -> phase_rel R2 ms2 l2 ms3 -> length l = length ms1 ->
  (forall i m1 a m2 b m3 x, ms1 !! i = Some m1 -> l1 !! i = Some a -> l2 !! i = Some b -> l !! i = Some x ->
     same_static m1 m2 -> R1 i m1 a m2 -> R2 i m2 b m3 -> R i m1 x m3) ->
  phase_rel R ms1 l ms3.
Proof.
  intros (Ha1 & Hl1 & H1) (Ha2 & Hl2 & H2) Hl HR. unfold phase_rel. split_and!; [done|lia|].
  intros i m1 Hm1. destruct (H1 i m1 Hm1) as (a & m2 & Ea & Hm2 & Hs12 & HR1).
  destruct (H2 i m2 Hm2) as (b & m3 & Eb & Hm3 & Hs23 & HR2).
  destruct (lookup_lt_is_Some_2 l i) as [x Ex]; [rewrite Hl; by eapply lookup_lt_Some|].
  exists x, m3. split_and!; [done|done| |by eapply HR].
  destruct Hs12 as (? & ? & ? & ? & ?), Hs23 as (? & ? & ? & ? & ?). unfold same_static. split_and!; congruence.
Qed.

Lemma phase_plain {A} (R : nat -> Manager -> A -> Manager -> Prop) ms l ms' :
  phase_rel R ms l ms' -> (forall i m, ms !! i = Some m -> plain m) -> forall i m, ms' !! i = Some m -> plain m.
Proof.
  intros (_ & Hl & H) Hp i m' Hm'. destruct (lookup_lt_is_Some_2 ms i) as [m Hm]; [rewrite <-Hl; by eapply lookup_lt_Some|].
  destruct (H i m Hm) as (_ & m2 & _ & E & (_ & Hsp & _) & _). rewrite Hm' in E. injection E as ->.
  unfold plain. rewrite Hsp. by eapply Hp.
Qed.

Lemma phase_lookup {A} (R : nat -> Manager -> A -> Manager -> Prop) ms l ms' i m' :
  phase_rel R ms l ms' -> ms' !! i = Some m' -> exists m a, ms !! i = Some m /\ l !! i = Some a /\ same_static m m' /\ R i m a m'.
Proof.
  intros (_ & Hl & H) Hm'. destruct (lookup_lt_is_Some_2 ms i) as [m Hm]; [rewrite <-Hl; by eapply lookup_lt_Some|].
  destruct (H i m Hm) as (a & m2 & Ea & E & ? & ?). rewrite Hm' in E. injection E as ->. by exists m, a.
Qed.

Section Slots.
Context (use_int : bool) (sha256 : bytes -> bytes) (rid : string).

(** The state of every manager after tokens got their slots: the table of the
    request extends [base], the other tables are as before. *)
Definition slots_rel (base : nat -> Manager -> list ref) (need : Z) (i : nat) (m : Manager) (a : list ref) (m' : Manager) : Prop :=
  table m' rid = base i m ++ a /\ others rid m m' /\ cdiv need (block_size m) <= zlen (table m' rid).

(** *** Allocation and caching, once the table of the request is [base] *)

Lemma alloc_cache_wp c fl own need nm enc (caching : bool) request n (Q : list (list ref) -> Coordinator -> Prop) :
  coord_inv c fl own -> (forall i m, single_type_managers c !! i = Some m -> plain m) -> request_id request = rid ->
  sumZ (imap (fun _ m => blocks_missing m rid need) (single_type_managers c)) <= zlen fl ->
  (caching = true -> enable_caching (block_pool c) = true /\ 0 <= n <= need /\ hashable sha256 c request n) ->
  (forall l c' fl' own', coord_inv c' fl' own' -> same_rest c c' -> same_config (block_pool c) (block_pool c') ->
     phase_rel (slots_rel (fun _ m => table m rid) need) (single_type_managers c) l (single_type_managers c') -> Q l c') ->
  wp (l ← coord_allocate_new_blocks use_int rid need nm enc ;
      when caching (coord_cache_blocks use_int sha256 request n) ;; mret l) Q c.
Proof.
  intros Hinv Hpl Hrid Hfree Hca HQ. apply wp_bind.
  eapply wp_mono; [apply (coord_alloc_wp use_int c fl own rid Hinv Hpl need nm enc Hfree)|].
  intros l c1 (fl1 & own1 & Hinv1 & Hrest1 & Hcf1 & Hph1 & _).
  assert (Hslots : phase_rel (slots_rel (fun _ m => table m rid) need) (single_type_managers c) l (single_type_managers c1)).
  { destruct Hph1 as (? & ? & H). unfold phase_rel. split_and!; [done|done|]. intros i m Hm.
    destruct (H i m Hm) as (a & m' & ? & ? & ? & HT & _ & Ho & Hz). exists a, m'. unfold slots_rel. split_and!; try done.
    rewrite HT, zlen_app, Hz. unfold blocks_missing. lia. }
  apply wp_bind. destruct caching; simpl.
  2: { apply wp_ret, wp_ret. by eapply HQ. }
  destruct (Hca eq_refl) as (Hc & Hn & Hhash).
  assert (Hhash1 : hashable sha256 c1 request n).
  { intros i m1 Hm1. destruct (phase_lookup _ _ _ _ _ _ Hph1 Hm1) as (m & a & Hm & _ & (Hbs & _) & _).
    destruct (Hhash i m Hm) as (hs & ? & ? & ? & ?). destruct Hcf1 as (_ & _ & Hc2 & _ & Hc3). exists hs.
    unfold events_ok in *. rewrite Hbs, Hc2, Hc3. done. }
  eapply wp_mono; [apply (coord_cache_wp use_int sha256 c1 fl1 own1 rid Hinv1)|].
  - by eapply phase_plain.
  - done.
  - destruct Hcf1 as (_ & -> & _). done.
  - exact Hhash1.
  - intros i m1 Hm1. destruct (phase_lookup _ _ _ _ _ _ Hslots Hm1) as (m & a & Hm & _ & (Hbs & _) & _ & _ & Hlen).
    rewrite Hbs. pose proof (mo_pos _ _ _ (ci_mgrs _ _ _ Hinv i m Hm)) as Hpos.
    pose proof (floordiv_le_cdiv n (block_size m) Hpos). pose proof (cdiv_le_mono n need (block_size m) Hpos). lia.
  - intros [] c2 (own2 & l2 & Hinv2 & Hrest2 & Hcf2 & Hph2). apply wp_ret. eapply HQ; [exact Hinv2| | |].
    + by eapply same_rest_trans.
    + by etransitivity.
    + eapply phase_rel_trans; [exact Hslots|exact Hph2|apply Hslots|].
      intros i m a m2 b m3 x _ Ea _ Ex _ (HT & Ho & Hlen) Hreq. unfold cached_rel in Hreq.
      assert (Htab : forall r', table m3 r' = table m2 r') by (intros; unfold table; by rewrite Hreq).
      simplify_eq. unfold slots_rel. rewrite !Htab. split_and!; [done| |done]. intros r' Hne. rewrite Htab. by apply Ho.
Qed.

(** *** [allocate_slots] without external tokens *)

(** What the scheduler guarantees when it asks for slots. *)
Record slots_pre (k : KVCacheManager) (request : Request) (num_new_tokens num_new_computed_tokens : Z)
    (new_computed_blocks : option KVCacheBlocks) (num_lookahead_tokens : Z) (delay_cache_blocks : bool) : Prop := {
  sp_plain : forall i m, single_type_managers (coordinator k) !! i = Some m -> plain m;
  sp_new : 0 < num_new_tokens;
  sp_local : 0 <= num_computed_tokens request + num_new_computed_tokens <= kvm_max_model_len k;
  sp_lookahead : 0 <= num_lookahead_tokens;
  sp_caching : kvm_enable_caching k = enable_caching (block_pool (coordinator k));
  (* either the request runs, or it is new and comes with a hit for every group *)
  sp_blocks :
    let b := block_list k new_computed_blocks in
    if shared_empty b
    then blocks b = replicate (length (single_type_managers (coordinator k))) []
         /\ running_ok (coordinator k) (request_id request) (num_computed_tokens request + num_new_computed_tokens)
    else hits_ok (coordinator k) (request_id request) (blocks b);
  sp_hash : kvm_enable_caching k && negb delay_cache_blocks = true ->
    0 <= num_tokens request <= kvm_max_model_len k
    /\ hashable sha256 (coordinator k) request
         (Z.min (num_computed_tokens request + num_new_computed_tokens + num_new_tokens) (num_tokens request))
}.

(** The table of the request before fresh blocks are appended: the hit behind
    null blocks, or the running table with the skipped blocks nulled. *)
Definition base_table (b : KVCacheBlocks) (local : Z) (i : nat) (m : Manager) (l : list ref) : Prop :=
  if shared_empty b then length l = length (table m rid)
  else l = replicate (skipped_blocks m local) (Blk 0) ++ drop (skipped_blocks m local) (blocks b !!! i).

(** The state of a manager after [allocate_slots] returned blocks. *)
Definition granted (b : KVCacheBlocks) (local need : Z) (i : nat) (m m' : Manager) : Prop :=
  others rid m m' /\ cdiv need (block_size m) <= zlen (table m' rid)
  /\ exists base fresh, base_table b local i m base /\ table m' rid = base ++ fresh.

Lemma slots_tail_eq need nm enc (caching delay : bool) request n k :
  (new_blocks ← on_coord (coord_allocate_new_blocks use_int rid need nm enc) ;
   if negb caching || delay then gets (fun k => Some (create_kv_cache_blocks new_blocks k))
   else on_coord (coord_cache_blocks use_int sha256 request n) ;;
        gets (fun k => Some (create_kv_cache_blocks new_blocks k))) k
  = (l ← on_coord (l ← coord_allocate_new_blocks use_int rid need nm enc ;
                   when (caching && negb delay) (coord_cache_blocks use_int sha256 request n) ;; mret l) ;
     gets (fun k => Some (create_kv_cache_blocks l k))) k.
Proof.
  unfold on_coord, zoom, mbind, M_bind.
  destruct (coord_allocate_new_blocks use_int rid need nm enc (coordinator k)) as [[l|e] c1]; [|done].
  replace (negb caching || delay) with (negb (caching && negb delay)) by (by destruct caching, delay).
  destruct (caching && negb delay); [|done]. simpl.
  by destruct (coord_cache_blocks use_int sha256 request n c1) as [[u|e] c2].
Qed.

Lemma slots_call_eq (call : bool) m0 need nm enc (caching delay : bool) request n k :
  (when call (on_coord m0) ;;
   new_blocks ← on_coord (coord_allocate_new_blocks use_int rid need nm enc) ;
   if negb caching || delay then gets (fun k => Some (create_kv_cache_blocks new_blocks k))
   else on_coord (coord_cache_blocks use_int sha256 request n) ;;
        gets (fun k => Some (create_kv_cache_blocks new_blocks k))) k
  = (l ← on_coord ((if call then m0 else mret tt) ;;
                   l ← coord_allocate_new_blocks use_int rid need nm enc ;
                   when (caching && negb delay) (coord_cache_blocks use_int sha256 request n) ;; mret l) ;
     gets (fun k => Some (create_kv_cache_blocks l k))) k.
Proof.
  pose proof (slots_tail_eq need nm enc caching delay request n) as Ht.
  unfold on_coord, zoom, mbind, M_bind in *. destruct call; simpl.
  - destruct (m0 (coordinator k)) as [[u|e] c1]; [|done]. rewrite Ht. cbn [coordinator set_coordinator].
    destruct (coord_allocate_new_blocks use_int rid need nm enc c1) as [[l|e] c2]; [|done].
    destruct (when _ _ c2) as [[u'|e] c3]; done.
  - rewrite Ht. destruct (coord_allocate_new_blocks use_int rid need nm enc (coordinator k)) as [[l|e] c2]; [|done].
    destruct (when _ _ c2) as [[u'|e] c3]; done.
Qed.

(** What holds of the coordinator after slots were granted. *)
Definition granted_all (b : KVCacheBlocks) (local need : Z) (c c' : Coordinator) : Prop :=
  (exists fl' own', coord_inv c' fl' own') /\ same_rest c c' /\ same_config (block_pool c) (block_pool c')
  /\ length (single_type_managers c') = length (single_type_managers c)
  /\ forall i m, single_type_managers c !! i = Some m ->
       exists m', single_type_managers c' !! i = Some m' /\ granted b local need i m m'.

Lemma hashable_phase {A} (R : nat -> Manager -> A -> Manager -> Prop) c c' l request n :
  phase_rel R (single_type_managers c) l (single_type_managers c') -> same_config (block_pool c) (block_pool c') ->
  hashable sha256 c request n -> hashable sha256 c' request n.
Proof.
  intros Hph Hcf Hh i m' Hm'. destruct (phase_lookup _ _ _ _ _ _ Hph Hm') as (m & a & Hm & _ & (Hbs & _) & _).
  destruct (Hh i m Hm) as (hs & ? & ? & ? & ?). destruct Hcf as (_ & _ & Hc2 & _ & Hc3). exists hs.
  unfold events_ok in *. rewrite Hbs, Hc2, Hc3. done.
Qed.

Lemma grant_running_wp c fl own b local need nm enc (caching : bool) request n :
  coord_inv c fl own -> (forall i m, single_type_managers c !! i = Some m -> plain m) -> request_id request = rid ->
  shared_empty b = true ->
  sumZ (imap (fun _ m => blocks_missing m rid need) (single_type_managers c)) <= zlen fl ->
  (caching = true -> enable_caching (block_pool c) = true /\ 0 <= n <= need /\ hashable sha256 c request n) ->
  wp (l ← coord_allocate_new_blocks use_int rid need nm enc ;
      when caching (coord_cache_blocks use_int sha256 request n) ;; mret l)
     (fun _ c' => granted_all b local need c c') c.
Proof.
  intros Hinv Hpl Hrid Hb Hfree Hca. eapply alloc_cache_wp; [done..|].
  intros l c' fl' own' Hinv' Hrest Hcf (_ & Hlen & Hph). split_and!; [by eexists _, _|done|done|done|].
  intros i m Hm. destruct (Hph i m Hm) as (a & m' & _ & Hm' & _ & HT & Ho & Hle). exists m'. split; [done|].
  split_and!; [done|done|]. exists (table m rid), a. split; [|done]. unfold base_table. by rewrite Hb.
Qed.

Lemma missing_after_hit c c' l hits local need :
  phase_rel (computed_rel rid hits local) (single_type_managers c) l (single_type_managers c') ->
  imap (fun _ m => blocks_missing m rid need) (single_type_managers c')
  = imap (needed_of hits local need) (single_type_managers c).
Proof.
  intros Hph. pose proof Hph as (_ & Hlen & H). apply list_eq. intros i. rewrite !list_lookup_imap.
  destruct (single_type_managers c !! i) as [m|] eqn:Hm; simpl.
  - destruct (H i m Hm) as (a & m' & _ & -> & (Hbs & _) & h & Eh & HT & _). simpl. f_equal.
    unfold blocks_missing, needed_of. by rewrite Hbs, HT, (list_lookup_total_correct _ _ _ Eh).
  - rewrite lookup_ge_None_2; [done|]. rewrite Hlen. by apply lookup_ge_None.
Qed.

Lemma grant_new_wp c fl own b local need nm enc (caching : bool) request n :
  coord_inv c fl own -> (forall i m, single_type_managers c !! i = Some m -> plain m) -> request_id request = rid ->
  shared_empty b = false -> hits_ok c rid (blocks b) ->
  sumZ (imap (evictable_of c (blocks b) local) (single_type_managers c))
    + sumZ (imap (needed_of (blocks b) local need) (single_type_managers c)) <= zlen fl ->
  (caching = true -> enable_caching (block_pool c) = true /\ 0 <= n <= need /\ hashable sha256 c request n) ->
  wp (coord_allocate_new_computed_blocks use_int rid (blocks b) local 0 ;;
      l ← coord_allocate_new_blocks use_int rid need nm enc ;
      when caching (coord_cache_blocks use_int sha256 request n) ;; mret l)
     (fun _ c' => granted_all b local need c c') c.
Proof.
  intros Hinv Hpl Hrid Hb Hhits Hfree Hca. apply wp_bind.
  eapply wp_mono; [apply (coord_computed_wp use_int c fl own rid Hinv Hpl (blocks b) local Hhits)|].
  intros [] c1 (fl1 & own1 & l1 & Hinv1 & Hrest1 & Hcf1 & Hph1 & Hfl1).
  eapply alloc_cache_wp; [exact Hinv1|by eapply phase_plain|done| | |].
  - rewrite (missing_after_hit _ _ _ _ _ _ Hph1). lia.
  - intros Ec. destruct (Hca Ec) as (? & ? & ?). split_and!; [|lia|lia|by eapply hashable_phase].
    destruct Hcf1 as (_ & -> & _). done.
  - intros l c' fl' own' Hinv' Hrest Hcf Hph. split_and!; [by eexists _, _|by eapply same_rest_trans|by etransitivity| |].
    { destruct Hph as (_ & -> & _). by destruct Hph1 as (_ & -> & _). }
    intros i m Hm. destruct Hph1 as (_ & _ & Hph1). destruct (Hph1 i m Hm) as (u & m1 & _ & Hm1 & (Hbs & _) & h & Eh & HT1 & Ho1).
    destruct Hph as (_ & _ & Hph). destruct (Hph i m1 Hm1) as (a & m' & _ & Hm' & _ & HT & Ho & Hle).
    exists m'. split; [done|]. rewrite Hbs in Hle. split_and!; [by eapply others_trans|done|].
    eexists _, a. split; [|rewrite HT, HT1; done]. unfold base_table. by rewrite Hb, (list_lookup_total_correct _ _ _ Eh).
Qed.

(** The preconditions survive the first phase. *)
Lemma hits_ok_removed c c1 l hits :
  phase_rel (removed_rel rid) (single_type_managers c) l (single_type_managers c1) ->
  same_config (block_pool c) (block_pool c1) ->
  (forall r, block_hash_in (block_pool c1) r = block_hash_in (block_pool c) r) ->
  hits_ok c rid hits -> hits_ok c1 rid hits.
Proof.
  intros Hph Hcf Hh [Hlen H]. split; [by destruct Hph as (_ & -> & _)|]. intros i m1 h Hm1 Eh.
  destruct (phase_lookup _ _ _ _ _ _ Hph Hm1) as (m & a & Hm & _ & _ & Hnc & Hl & _).
  destruct (H i m h Hm Eh) as (Ht & Hn & Hok & Hca). split_and!.
  - rewrite Ht in Hl. by apply length_zero_iff_nil.
  - by rewrite Hnc.
  - by eapply hit_ok_config.
  - intros E. apply Hca. rewrite <-E. symmetry. apply Hcf.
Qed.

Lemma running_ok_removed c c1 l total :
  phase_rel (removed_rel rid) (single_type_managers c) l (single_type_managers c1) ->
  running_ok c rid total -> running_ok c1 rid total.
Proof.
  intros Hph H i m1 Hm1. destruct (phase_lookup _ _ _ _ _ _ Hph Hm1) as (m & a & Hm & _ & (Hbs & Hsp & _) & Hnc & Hl & _).
  unfold skipped_blocks, zlen. rewrite Hnc, Hl, Hbs, Hsp. exact (H i m Hm).
Qed.

Lemma granted_removed c c1 l b local need i m m1 m' :
  phase_rel (removed_rel rid) (single_type_managers c) l (single_type_managers c1) ->
  single_type_managers c !! i = Some m -> single_type_managers c1 !! i = Some m1 ->
  granted b local need i m1 m' -> granted b local need i m m'.
Proof.
  intros (_ & _ & Hph) Hm Hm1 (Ho & Hle & base & fresh & Hb & HT).
  destruct (Hph i m Hm) as (a & m2 & _ & E & (Hbs & Hsp & _) & _ & Hl & Ho1). rewrite Hm1 in E. injection E as <-.
  rewrite Hbs in Hle. split_and!; [by eapply others_trans|done|]. exists base, fresh. split; [|done].
  unfold base_table, skipped_blocks in *. rewrite Hbs, Hsp, Hl in Hb. done.
Qed.

Lemma num_free_inv c fl own : coord_inv c fl own -> get_num_free_blocks (block_pool c) = zlen fl.
Proof. intros H. apply (repr_num _ _ (pc_repr _ _ _ (proj1 (ci_pool _ _ _ H)))). Qed.

(** The state after a refusal: the tables keep their length, and only the blocks that
    the request no longer reads have left its own. *)
Definition refused (c c' : Coordinator) : Prop :=
  (exists fl' own', coord_inv c' fl' own') /\ same_rest c c' /\ same_config (block_pool c) (block_pool c')
  /\ phase_rel (removed_rel rid) (single_type_managers c)
       (replicate (length (single_type_managers c)) tt) (single_type_managers c').

Lemma phase_rel_units (R : nat -> Manager -> unit -> Manager -> Prop) ms l ms' :
  phase_rel R ms l ms' -> phase_rel R ms (replicate (length ms) tt) ms'.
Proof.
  intros (H1 & H2 & H). unfold phase_rel. split_and!; [by rewrite length_replicate|done|]. intros i m Hm.
  destruct (H i m Hm) as ([] & m' & _ & ? & ? & ?). exists tt, m'. split_and!; try done.
  apply lookup_replicate_2. by eapply lookup_lt_Some.
Qed.

Lemma allocate_slots_wp k fl own request new ncomp ncb look delay enc :
  coord_inv (coordinator k) fl own -> request_id request = rid -> slots_pre k request new ncomp ncb look delay ->
  let b := block_list k ncb in
  let local := num_computed_tokens request + ncomp in
  let need := Z.min (local + new + look) (kvm_max_model_len k) in
  wp (allocate_slots use_int sha256 request new ncomp ncb look 0 delay enc)
     (fun r k' => k' = set_coordinator (coordinator k') k
        /\ exists c1 n, coord_remove_skipped_blocks rid local (coordinator k) = (Ok tt, c1)
           /\ coord_num_blocks_to_allocate rid need (blocks b) enc local (local + new) c1 = (Ok n, c1)
           /\ match r with
              | Some _ => n <= get_num_free_blocks (block_pool c1) /\ granted_all b local need (coordinator k) (coordinator k')
              | None => get_num_free_blocks (block_pool c1) < n /\ coordinator k' = c1 /\ refused (coordinator k) c1
              end) k.
Proof.
  intros Hinv Hrid [Hpl Hnew Hlocal Hlook Hcaching Hblocks Hhash] b local need.
  unfold allocate_slots. replace (new =? 0) with false by lia. cbn [andb].
  cbv zeta in Hblocks. fold b in Hblocks. apply wp_bind, wp_gets. fold b. cbv beta zeta. unfold id. rewrite Z.add_0_r, Hrid. fold b.
  fold local. replace (Z.min local (kvm_max_model_len k)) with local by (unfold local in *; lia). fold need.
  destruct (proj1 (wp_run _ _ _) (coord_remove_wp (coordinator k) fl own rid Hinv Hpl local))
    as ([] & c1 & Hrem & fl1 & own1 & l1 & Hinv1 & Hrest1 & Hcf1 & Hph1 & _ & Hh1).
  apply wp_bind, wp_on_coord. unfold wp at 1. cbn [coordinator set_coordinator]. rewrite Hrem.
  pose proof (phase_plain _ _ _ _ Hph1 Hpl) as Hpl1.
  assert (Hca : kvm_enable_caching k && negb delay = true ->
    enable_caching (block_pool c1) = true /\ 0 <= Z.min (local + new) (num_tokens request) <= need
    /\ hashable sha256 c1 request (Z.min (local + new) (num_tokens request))).
  { intros E. destruct (Hhash E) as [Hnt Hha]. split_and!; [|unfold local in *; lia|unfold need; lia|by eapply hashable_phase].
    destruct Hcf1 as (_ & -> & _). rewrite <-Hcaching. by destruct (kvm_enable_caching k). }
  assert (Hcount : exists n, coord_num_blocks_to_allocate rid need (blocks b) enc local (local + new) c1 = (Ok n, c1)
    /\ (n <= zlen fl1 -> wp ((if negb (shared_empty b) then coord_allocate_new_computed_blocks use_int rid (blocks b) local 0 else mret tt) ;;
          l ← coord_allocate_new_blocks use_int rid need (local + new) enc ;
          when (kvm_enable_caching k && negb delay)
            (coord_cache_blocks use_int sha256 request (Z.min (local + new) (num_tokens request))) ;; mret l)
         (fun _ c' => granted_all b local need c1 c') c1)).
  { destruct (shared_empty b) eqn:Eb.
    - destruct Hblocks as [Hbl Hrun]. rewrite Hrid in Hrun. apply (running_ok_removed _ _ _ _ Hph1) in Hrun.
      assert (Hlen1 : length (single_type_managers c1) = length (single_type_managers (coordinator k))) by apply Hph1.
      eexists. split; [apply (coord_count_running c1 fl1 own1 rid Hinv1 Hpl1 _ need enc local); [done|by rewrite Hlen1|unfold local in *; lia]|].
      intros Hle. apply wp_bind, wp_ret. by eapply grant_running_wp.
    - rewrite Hrid in Hblocks. apply (hits_ok_removed _ _ _ _ Hph1 Hcf1 Hh1) in Hblocks.
      eexists. split; [apply (coord_count_new c1 fl1 own1 rid Hinv1 Hpl1 _ local need enc); [done|unfold need, local in *; lia]|].
      intros Hle. by eapply grant_new_wp. }
  destruct Hcount as (n & Hcnt & Hgrant). apply wp_bind, wp_on_coord. unfold wp at 1. cbn [coordinator set_coordinator].
  rewrite Hcnt. apply wp_bind, wp_gets. cbn [coordinator set_coordinator]. rewrite (num_free_inv _ _ _ Hinv1).
  destruct (zlen fl1 <? n) eqn:E.
  { apply wp_ret. split; [done|]. exists c1, n. cbn [coordinator set_coordinator]. rewrite (num_free_inv _ _ _ Hinv1).
    split_and!; try done; [lia|].
    unfold refused. split_and!; [by eexists _, _|done|done|by eapply phase_rel_units]. }
  specialize (Hgrant ltac:(lia)). rewrite orb_false_r.
  assert (Hgr : forall c', granted_all b local need c1 c' -> granted_all b local need (coordinator k) c').
  { intros c' (H1 & H2 & H3 & H4 & H5). split_and!; [done|by eapply same_rest_trans|by etransitivity| |].
    - rewrite H4. apply Hph1.
    - intros i m Hm. destruct (Hph1) as (_ & _ & Hp). destruct (Hp i m Hm) as (a & m1 & _ & Hm1 & _).
      destruct (H5 i m1 Hm1) as (m' & ? & ?). exists m'. split; [done|]. by eapply granted_removed. }
  eapply wp_eq; [apply slots_call_eq|]. apply wp_bind, wp_on_coord. eapply wp_mono; [exact Hgrant|].
  intros l c' Hc'. apply wp_gets. split; [done|]. exists c1, n. rewrite (num_free_inv _ _ _ Hinv1).
  split_and!; [done|done|lia|by apply Hgr].
Qed.
End Slots.

(** ** The invariant of a manager *)

Definition kv_inv (k : KVCacheManager) : Prop := exists fl own, coord_inv (coordinator k) fl own.

Lemma kv_init_inv cfg max_len hbs caching eagle ls ev dcp pcp mc k0 :
  kv_manager_init cfg max_len hbs caching eagle ls ev dcp pcp mc = Ok k0 ->
  0 < num_blocks cfg -> Forall plain_spec (kv_cache_groups cfg) -> 0 < dcp -> 0 < pcp ->
  zlen (kv_cache_groups cfg) < 2 ^ 32 -> kv_inv k0.
Proof.
  intros Hk Hn Hs Hd Hp Hg. unfold kv_manager_init, mbind, res_bind in Hk.
  destruct (get_kv_cache_coordinator _ _ _ _ _ _ _ _ _) as [c|e] eqn:E; [|done]. injection Hk as <-.
  assert (Hbase : forall ca cls, exists c, coord_base_init cfg max_len eagle ca ev dcp pcp hbs mc cls = Ok c
    /\ coord_inv c (Blk <$> seq 1 (Z.to_nat (num_blocks cfg) - 1)) (fun _ => 0%nat)).
  { intros ca cls. destruct (coord_base_init_inv cfg max_len eagle ca ev dcp pcp hbs mc cls Hn Hs Hd Hp Hg) as (c1 & H1 & H2 & _).
    by exists c1. }
  eexists _, (fun _ => 0%nat). unfold get_kv_cache_coordinator in E. destruct caching; simpl in E.
  - destruct (kv_cache_groups cfg) as [|s [|s' specs]] eqn:Eg.
    + destruct (Hbase true NoPrefixCache) as (c1 & H1 & _). rewrite H1 in E. unfold mbind, res_bind in E.
      destruct (negb _) in E; [done|]. by vm_compute in E.
    + match type of E with context [Unitary ?b] => destruct (Hbase true (Unitary b)) as (c1 & H1 & H2) end.
      rewrite H1 in E. unfold mbind, res_bind in E. destruct (_ =? _) in E; [|done]. injection E as <-. exact H2.
    + destruct (Hbase true NoPrefixCache) as (c1 & H1 & H2). rewrite H1 in E. unfold mbind, res_bind in E.
      destruct (negb _) in E; [done|]. destruct (verify_and_split_kv_cache_groups _) as [[gs l]|]; [|done].
      injection E as <-. destruct H2 as [A B C]. by split.
  - destruct (Hbase false NoPrefixCache) as (c1 & H1 & H2). rewrite H1 in E. injection E as <-. exact H2.
Qed.

Lemma allocate_slots_inv use_int sha256 k request new ncomp ncb look delay enc :
  kv_inv k -> slots_pre sha256 k request new ncomp ncb look delay ->
  kv_inv (snd (allocate_slots use_int sha256 request new ncomp ncb look 0 delay enc k)).
Proof.
  intros (fl & own & Hinv) Hpre.
  pose proof (allocate_slots_wp use_int sha256 _ k fl own request new ncomp ncb look delay enc Hinv eq_refl Hpre) as Hw.
  apply wp_run in Hw as (r & k' & Hr & _ & c1 & n & _ & _ & HQ). rewrite Hr. cbn [snd].
  destruct r; [apply HQ|]. destruct HQ as (_ & Hc & HQ). unfold kv_inv. rewrite Hc. apply HQ.
Qed.
