(* ===== verification/KVManagerSpec.v ===== *)
(** * A small hybrid manager

    Concrete KV cache managers on which the theorems of [KVManagerSpec] and
    [CoordinatorSpec] are applied. *)
From S2P Require Import Prelude FreeQueue Request Hashing HashingLemmas BlockPool BlockPoolLemmas Samples.
From S2P Require Import SingleType SingleTypeLemmas CacheHit CacheHitLemmas Coordinator CoordinatorLemmas KVManager KVManagerLemmas.
From Stdlib Require Import Strings.Byte.
Local Open Scope Z_scope.

(** Five usable blocks of two tokens, a full-attention and a sliding-window group. *)
Definition sample_config : KVCacheConfig := mkConfig 6 [mkSpec 2 FullAttention 0; mkSpec 2 (SlidingWindow 3) 0].

Definition sample_kv_res : res KVCacheManager :=
  kv_manager_init sample_config 100 2 true false true false 1 1 None.

Definition sample_kv : KVCacheManager :=
  match sample_kv_res with
  | Ok k => k
  | Err _ => mkKVManager 0 false false None (mkCoord sample_config 0 false sample_pool false [] 1 NoPrefixCache)
  end.

Lemma sample_kv_init : sample_kv_res = Ok sample_kv.
Proof. vm_compute. reflexivity. Qed.

Lemma sample_kv_plain : Forall plain_spec (kv_cache_groups sample_config).
Proof. repeat constructor; vm_compute; congruence. Qed.

(** A request for slots for the four prompt tokens of [sample_request_2]. *)
Lemma sample_slots_pre : slots_pre toy_sha256 sample_kv (sample_request_2 [5]) 4 0 None 0 false.
Proof.
  split.
  - intros [|[|i]] m Hm; [vm_compute in Hm; injection Hm as <-; vm_compute; exact I
      |vm_compute in Hm; injection Hm as <-; vm_compute; congruence|vm_compute in Hm; destruct i; discriminate].
  - lia.
  - vm_compute. split; congruence.
  - lia.
  - reflexivity.
  - vm_compute. split; [reflexivity|]. intros [|[|i]] m Hm; [| |destruct i; discriminate]; injection Hm as <-; right; congruence.
  - intros _. split; [vm_compute; split; congruence|].
    intros [|[|i]] m Hm; [| |vm_compute in Hm; destruct i; discriminate]; vm_compute in Hm; injection Hm as <-;
      exists [[x01; x0a]; [x01; x1a]]; (split; [reflexivity|]);
      (split; [vm_compute; congruence|]); (split; [vm_compute; congruence|]);
      intros Hev; vm_compute in Hev; discriminate.
Qed.

Lemma sample_kv_inv : kv_inv sample_kv.
Proof.
  exact (kv_init_inv _ _ _ _ _ _ _ _ _ _ _ sample_kv_init ltac:(reflexivity) sample_kv_plain ltac:(reflexivity)
    ltac:(reflexivity) ltac:(reflexivity)).
Qed.

(** The manager after that request got its slots: both groups cache two blocks. *)
Definition sample_kv_cached : KVCacheManager :=
  snd (allocate_slots false toy_sha256 (sample_request_2 [5]) 4 0 None 0 0 false 0 sample_kv).

Lemma sample_kv_cached_inv : kv_inv sample_kv_cached.
Proof.
  apply allocate_slots_inv; [exact sample_kv_inv|exact sample_slots_pre].
Qed.

(** ** A longer run on a manager with ten blocks *)

Definition ten_blocks : list KVCacheSpec -> option KVCacheManager := fun specs =>
  match kv_manager_init (mkConfig 11 specs) 100 2 true false true false 1 1 None with Ok k => Some k | Err _ => None end.

(** Two requests that share the prefix [1; 2; 3; 4], and an unrelated one. *)
Definition prefix_request (id : string) : Request :=
  set_block_hashes (fun _ => [[x01; x0a]; [x01; x1a]]) (bare_request id [1; 2; 3; 4; 5; 6; 7; 8; 9]).
Definition other_request : Request :=
  set_block_hashes (fun _ => [[x02]; [x03]; [x04]]) (bare_request "c" [11; 12; 13; 14; 15; 16]).

(** * * Properties of the KV cache manager

    The manager as the scheduler uses it: [allocate_slots] grants or refuses and
    never raises, and whatever the scheduler does, the blocks in the tables and
    the free blocks are all the blocks there are. *)
Local Open Scope Z_scope.

(** ** Allocation *)

(** C31: [allocate_slots] for groups of plain specs (no Mamba, cross-attention or sink
    group) without tokens from a connector, called as the scheduler calls it
    ([slots_pre]: at least one new token, the computed ones within the model, and a
    request that runs, or is new and comes with prefix-cache hits of every group; with
    no new token it raises [ValueError]) does not raise.  After the blocks that the
    request no longer reads were removed, it grants the slots exactly when the count
    that the managers announce is at most the number of free blocks.  Then every group
    has a table long enough for all tokens and lookahead tokens that starts with the
    hit (or the running table), the tables of all other requests are unchanged and the
    invariant holds; otherwise it returns [None], the removal of these blocks is all
    that happened, and no table changed its length. *)
Theorem allocate_slots_spec use_int sha256 k fl own request new ncomp ncb look delay enc :
  coord_inv (coordinator k) fl own ->
  slots_pre sha256 k request new ncomp ncb look delay ->
  let rid := request_id request in
  let b := block_list k ncb in
  let local := num_computed_tokens request + ncomp in
  let need := Z.min (local + new + look) (kvm_max_model_len k) in
  exists r c' c1 n, allocate_slots use_int sha256 request new ncomp ncb look 0 delay enc k = (Ok r, set_coordinator c' k)
    /\ coord_remove_skipped_blocks rid local (coordinator k) = (Ok tt, c1)
    /\ coord_num_blocks_to_allocate rid need (blocks b) enc local (local + new) c1 = (Ok n, c1)
    /\ match r with
       | Some _ => n <= get_num_free_blocks (block_pool c1) /\ granted_all rid b local need (coordinator k) c'
       | None => get_num_free_blocks (block_pool c1) < n /\ c' = c1 /\ refused rid (coordinator k) c1
       end.
Proof.
  intros Hinv Hpre rid b local need.
  pose proof (allocate_slots_wp use_int sha256 rid k fl own request new ncomp ncb look delay enc Hinv eq_refl Hpre) as Hw.
  apply wp_run in Hw as (r & k' & Hr & Hk & c1 & n & HQ). exists r, (coordinator k'), c1, n. rewrite <-Hk. done.
Qed.

Lemma allocate_slots_spec_witness :
  exists r c', allocate_slots false toy_sha256 (sample_request_2 [5]) 4 0 None 0 0 false 0 sample_kv
    = (Ok r, set_coordinator c' sample_kv) /\ r <> None.
Proof.
  destruct sample_kv_inv as (fl & own & Hinv).
  destruct (allocate_slots_spec false toy_sha256 sample_kv fl own (sample_request_2 [5]) 4 0 None 0 false 0 Hinv sample_slots_pre)
    as (r & c' & c1 & n & Hr & _). exists r, c'. split; [exact Hr|]. intros ->.
  apply (f_equal fst) in Hr. vm_compute in Hr. discriminate.
Defined.

(** ** The manager and its scheduler *)

Inductive kv_step (use_int : bool) (sha256 : bytes -> bytes) : KVCacheManager -> KVCacheManager -> Prop :=
  | kv_alloc k request new ncomp ncb look delay enc r k'
      (Hpre : slots_pre sha256 k request new ncomp ncb look delay)
      (Hrun : allocate_slots use_int sha256 request new ncomp ncb look 0 delay enc k = (r, k')) :
      kv_step use_int sha256 k k'
  | kv_free_request k request r k' (Hrun : kv_free request k = (r, k')) : kv_step use_int sha256 k k'
  | kv_lookup k request r k' (Hrun : get_computed_blocks request k = (r, k')) : kv_step use_int sha256 k k'
  | kv_evict k ids r k'
      (Hids : Forall (fun id => 0 <= id < num_gpu_blocks (block_pool (coordinator k))) ids)
      (Hrun : kv_evict_blocks use_int ids k = (r, k')) : kv_step use_int sha256 k k'
  | kv_reset k r k' (Hrun : kv_reset_prefix_cache k = (r, k')) : kv_step use_int sha256 k k'.

Lemma wp_final {S A} (m : M S A) (Q : A -> S -> Prop) s r s' : wp m Q s -> m s = (r, s') -> exists a, Q a s'.
Proof. intros (a & s2 & E & HQ)%wp_run Hm. rewrite E in Hm. injection Hm as _ <-. by exists a. Qed.

Lemma get_computed_blocks_coord request k r k' :
  get_computed_blocks request k = (r, k') -> coordinator k' = coordinator k.
Proof.
  unfold get_computed_blocks, mbind, M_bind, gets, id. destruct (_ || _); [by intros [= _ <-]|].
  unfold lift_res. destruct (coord_find_longest_cache_hit _ _ _) as [[bs n]|e]; [|by intros [= _ <-]].
  destruct (log_stats k); simpl; [|by intros [= _ <-]].
  destruct (prefix_cache_stats k); [|by intros [= _ <-]]. by intros [= _ <-].
Qed.

Lemma kv_step_inv use_int sha256 k k' : kv_step use_int sha256 k k' -> kv_inv k -> kv_inv k'.
Proof.
  intros Hstep (fl & own & Hinv). inversion Hstep; subst; clear Hstep.
  - pose proof (allocate_slots_inv use_int sha256 k request new ncomp ncb look delay enc) as Hk. rewrite Hrun in Hk.
    apply Hk; [by exists fl, own|done].
  - assert (Hw : wp (kv_free request) (fun _ k' => kv_inv k') k).
    { apply wp_on_coord. eapply wp_mono; [by eapply coord_free_wp|]. intros [] c' (fl' & own' & l & Hc & _). by exists fl', own'. }
    by destruct (wp_final _ _ _ _ _ Hw Hrun).
  - unfold kv_inv. rewrite (get_computed_blocks_coord _ _ _ _ Hrun). by exists fl, own.
  - assert (Hw : wp (kv_evict_blocks use_int ids) (fun _ k' => kv_inv k') k).
    { apply wp_on_coord. eapply coord_pool_step; [exact Hinv|].
      eapply wp_mono; [by apply evict_blocks_wp; [apply (ci_pool _ _ _ Hinv)|]|].
      intros [] p' (Hp & Hcf & Hh). split_and!; [done|done| |intros Hc; by exists fl, own].
      intros r' _. rewrite Hh. case_decide; auto. }
    by destruct (wp_final _ _ _ _ _ Hw Hrun).
  - unfold kv_reset_prefix_cache, mbind, M_bind in Hrun.
    assert (Hw : wp (on_coord (on_block_pool reset_prefix_cache)) (fun _ k' => kv_inv k') k).
    { apply wp_on_coord. eapply coord_pool_step; [exact Hinv|].
      eapply wp_mono; [apply reset_prefix_cache_wp, (ci_pool _ _ _ Hinv)|].
      intros ok p' (_ & Hp & Hcf & Hh). split_and!; [done|done| |intros Hc; by exists fl, own].
      intros r' Hr'. destruct ok; [left; by apply Hh|right; apply Hh]. }
    apply wp_run in Hw as (ok & k1 & E & Hk1). rewrite E in Hrun. destruct ok; simpl in Hrun; [|by injection Hrun as _ <-].
    unfold gets, id in Hrun. destruct (log_stats k1); simpl in Hrun; [|by injection Hrun as _ <-].
    destruct (prefix_cache_stats k1); by injection Hrun as _ <-.
Qed.

(** Every request gave its blocks back. *)
Definition idle (k : KVCacheManager) : Prop :=
  forall i m rid, single_type_managers (coordinator k) !! i = Some m -> table m rid = [].

Lemma tocc_all_empty r (T : tables) : (forall rid, default [] (T !! rid) = []) -> tocc r T = 0%nat.
Proof.
  intros H. unfold tocc. apply (map_fold_weak_ind (fun n T' => (forall rid, default [] (T' !! rid) = []) -> n = 0%nat)); [done| |done].
  intros rid l T' n Hn IH HT'. pose proof (HT' rid) as Hl. rewrite lookup_insert_eq in Hl. simpl in Hl. subst l.
  rewrite occ_nil, IH; [done|]. intros rid'. specialize (HT' rid'). destruct (decide (rid' = rid)) as [->|Hne].
  - by rewrite Hn.
  - by rewrite lookup_insert_ne in HT'.
Qed.

Lemma all_free p fl own : pool_inv p fl own -> (forall r, pool_usable p r -> own r = 0%nat) -> zlen fl = num_gpu_blocks p - 1.
Proof.
  intros Hinv Ho. pose proof (inv_fl_nodup _ _ _ Hinv) as Hnd. destruct Hinv as [Hc Hfl]. pose proof (pc_pos _ _ _ Hc).
  assert (E : fl ≡ₚ Blk <$> seq 1 (Z.to_nat (num_gpu_blocks p) - 1)).
  { apply NoDup_Permutation; [done|apply NoDup_fmap; [by intros ?? [=]|apply NoDup_seq]|].
    intros r. rewrite Hfl, list_elem_of_fmap. setoid_rewrite elem_of_seq. split.
    - intros [(i & -> & Hi) _]. exists i. split; [done|lia].
    - intros (i & -> & Hi). assert (pool_usable p (Blk i)) by (exists i; split; [done|lia]). auto. }
  unfold zlen. rewrite E, length_fmap, length_seq. lia.
Qed.

(** C30: for groups of plain specs (no Mamba, cross-attention or sink group): whatever
    sequence of allocations (granted or refused), frees, lookups, evictions and resets
    is run on a new manager, the allocations called as the scheduler calls them and
    without tokens from a connector ([slots_pre]; with such tokens a table can hold a
    block twice, [external_tokens_share_blocks]), every block is owned exactly as often
    as it occurs in the tables of the groups, a block is free exactly when it is in no
    table, no table holds a block twice, and once all requests are freed all blocks are
    free again. *)
Theorem kv_reachable_inv use_int sha256 cfg max_len hbs caching eagle ls ev dcp pcp mc k0 k :
  kv_manager_init cfg max_len hbs caching eagle ls ev dcp pcp mc = Ok k0 ->
  0 < num_blocks cfg -> Forall plain_spec (kv_cache_groups cfg) -> 0 < dcp -> 0 < pcp ->
  zlen (kv_cache_groups cfg) < 2 ^ 32 ->
  rtc (kv_step use_int sha256) k0 k ->
  let p := block_pool (coordinator k) in
  let ms := single_type_managers (coordinator k) in
  exists fl, queue_repr (free_block_queue p) fl
    /\ (forall r b, pool_usable p r -> pheap p !! r = Some b -> ref_cnt b = Z.of_nat (towned r ms))
    /\ (forall r, r ∈ fl <-> pool_usable p r /\ towned r ms = 0%nat)
    /\ (forall i m rid r, ms !! i = Some m -> pool_usable p r -> (occ r (table m rid) <= 1)%nat)
    /\ (idle k -> get_num_free_blocks p = num_gpu_blocks p - 1).
Proof.
  intros Hinit Hn Hs Hd Hp Hg Hsteps p ms.
  assert (Hinv : kv_inv k).
  { pose proof (kv_init_inv _ _ _ _ _ _ _ _ _ _ _ Hinit Hn Hs Hd Hp Hg) as H0. clear Hinit.
    induction Hsteps as [|k1 k2 k3 Hstep _ IH]; [done|]. apply IH. by eapply kv_step_inv. }
  destruct Hinv as (fl & own & [Hpi Hm Ho]). fold p ms in Hpi, Hm, Ho. exists fl. pose proof Hpi as [Hc Hfl]. split_and!.
  - apply (pc_repr _ _ _ Hc).
  - intros r b Hr Hb. rewrite <-Ho by done. destruct (core_load p fl _ r Hc Hr) as [h HD]. unfold data_of in HD.
    rewrite Hb in HD. by injection HD as _ -> _ _.
  - intros r. rewrite Hfl. split; intros [Hr H0]; (split; [done|]); rewrite <-H0; [symmetry|]; by apply Ho.
  - intros i m rid r Hi Hr. eapply table_distinct; [by eapply Hm|done].
  - intros Hidle. unfold get_num_free_blocks. rewrite (repr_num _ _ (pc_repr _ _ _ Hc)).
    apply (all_free p fl own Hpi). intros r Hr. rewrite Ho by done. unfold towned.
    assert (Hall : forall i m, ms !! i = Some m -> tocc r (req_to_blocks m) = 0%nat).
    { intros i m Hi. apply tocc_all_empty. intros rid. exact (Hidle i m rid Hi). }
    clear -Hall. induction ms as [|m l IH]; [done|]. simpl. rewrite (Hall 0%nat m eq_refl), IH; [done|].
    intros i. apply (Hall (S i)).
Qed.

Lemma kv_reachable_inv_witness :
  exists fl, queue_repr (free_block_queue (block_pool (coordinator sample_kv_cached))) fl.
Proof.
  destruct (kv_reachable_inv false toy_sha256 sample_config 100 2 true false true false 1 1 None sample_kv sample_kv_cached sample_kv_init)
    as (fl & Hq & _).
  - reflexivity.
  - exact sample_kv_plain.
  - lia.
  - lia.
  - reflexivity.
  - apply rtc_once. unfold sample_kv_cached. eapply kv_alloc; [exact sample_slots_pre|]. apply surjective_pairing.
  - exists fl. exact Hq.
Defined.

(** ** External tokens *)

(** A manager with a full-attention and a sliding-window group: a request caches
    its prefix and is freed, another one uses and frees the rest of the pool; then
    a request hits the prefix in both groups and gets four more tokens from a
    connector. *)
Definition external_run : M KVCacheManager (option KVCacheBlocks) :=
  allocate_slots false toy_sha256 (sample_request_2 []) 4 0 None 0 0 false 0 ;;
  allocate_slots false toy_sha256 other_request 6 0 None 0 0 false 0 ;;
  kv_free (sample_request_2 []) ;;
  kv_free other_request ;;
  hit ← get_computed_blocks (prefix_request "d") ;
  allocate_slots false toy_sha256 (prefix_request "d") 1 hit.2 (Some hit.1) 0 4 true 0.

Definition external_tables : option (list (list ref)) :=
  k ← ten_blocks [mkSpec 2 FullAttention 0; mkSpec 2 (SlidingWindow 9) 0] ;
  match external_run k with
  | (Ok (Some _), k') => Some (coord_get_blocks (coordinator k') "d")
  | _ => None
  end.

(** With external tokens the invariant fails for two groups.  The first
    manager allocates the blocks of the external tokens before the second one has
    touched its hit, takes the hit's blocks out of the free queue, and both groups
    of the request end up with blocks 3 and 4 in their tables. *)
Theorem external_tokens_share_blocks :
  external_tables = Some [[Blk 1; Blk 2; Blk 4; Blk 3; Blk 5]; [Blk 3; Blk 4; Blk 7; Blk 6; Blk 10]].
Proof. vm_compute. reflexivity. Qed.
