(* ===== verification/CoordinatorSpec.v ===== *)
(** * Properties of the coordinators

    The hybrid search ends, all groups agree on the length of the hit, and every
    block that a layer will read after the hit carries the content of its
    position. *)
From S2P Require Import Prelude FreeQueue Request Hashing HashingLemmas BlockPool BlockPoolLemmas Samples.
From S2P Require Import SingleType SingleTypeLemmas CacheHit CacheHitLemmas Coordinator CoordinatorLemmas HybridHit.
From S2P Require Import KVManager KVManagerLemmas KVManagerSpec.
From Stdlib Require Import Strings.Byte.
Local Open Scope Z_scope.

(** The result for a group: [H] tokens, the read blocks carried. *)
Definition group_hit (c : Coordinator) (block_hashes : list bytes) (hit : list (list ref)) (H : Z) (g : attention_group) : Prop :=
  exists hs rows, hashes_for block_hashes (hash_block_size (block_pool c)) g.1 = Ok hs
    /\ Z.of_nat (length rows) * spec_block_size g.1 = H
    /\ (forall j id, g.2 !! j = Some id -> hit !! Z.to_nat id = Some ((fun row : list ref => row !!! j) <$> rows))
    /\ valid_rows (block_pool c) g.2 hs g.1 rows.

Lemma full_reads s bs H i : is_full_spec s = true -> reads (spec_kind s) bs H i.
Proof. unfold is_full_spec, reads. by destruct (spec_kind s). Qed.

Lemma valid_all p gids hs s rows :
  (if is_full_spec s then forall i row, rows !! i = Some row -> carried_at p gids hs i row else valid_rows p gids hs s rows) ->
  valid_rows p gids hs s rows.
Proof. destruct (is_full_spec s); [|done]. intros H i row Hi _. by apply H. Qed.

Lemma group_ok_hit c block_hashes bg g H : group_ok c block_hashes bg g H -> group_hit c block_hashes (default [] <$> bg) H g.
Proof.
  intros (hs & rows & Hhs & Hst & Hlen & Hval). exists hs, rows. split_and!; [done|done| |by apply valid_all].
  intros j id Hj. by rewrite list_lookup_fmap, (Hst j id Hj).
Qed.

Lemma truncated_hit c block_hashes al maxlen ng bg g n0 H :
  group_wf c al maxlen block_hashes ng g -> is_full_spec g.1 = true -> group_ok c block_hashes bg g n0 ->
  0 <= H <= n0 -> H mod al = 0 -> 0 < al ->
  group_ok c block_hashes (truncate_groups g.2 (H / spec_block_size g.1) bg) g H.
Proof.
  intros [_ Hnd Hr (Hbs & [q Hq] & _) _] Hf (hs & rows & Hhs & Hst & Hlen & Hval) HH Hm Hal.
  apply Z.mod_divide in Hm as [d Hd]; [|lia].
  assert (HdH : H / spec_block_size g.1 * spec_block_size g.1 = H).
  { rewrite Hd, Hq, Z.mul_assoc. by rewrite Z.div_mul by lia. }
  assert (H0 : 0 <= H / spec_block_size g.1) by (apply Z.div_pos; lia).
  rewrite <-(Z2Nat.id _ H0). set (n := Z.to_nat (H / spec_block_size g.1)) in *.
  exists hs, (take n rows). split_and!; [done| | |].
  - apply truncate_groups_stored; [done| |done]. eapply Forall_impl; [exact Hr|]. simpl. lia.
  - rewrite length_take, Nat.min_l; [lia|]. nia.
  - rewrite Hf in *. intros i row [Hi _]%lookup_take_Some. by apply Hval.
Qed.

(** C32: the hybrid search returns if only the first attention group may be full
    attention (the code assumes it: see [second_full_group_not_truncated]) and the
    search of every group is supported ([searchable]: block sizes that divide the
    alignment; no sliding window with EAGLE whose block size is not the alignment, see
    [eagle_realign_loses_window]; chunked attention without EAGLE, in whole blocks; no
    cross-attention), with a hash for every block of the requested length.  The length
    [H] of the hit is at most the requested length and a multiple of the alignment; the
    hit of every group is exactly [H] tokens long, and in every group the blocks that
    the layers read when they resume after [H] tokens carry the hashes of their
    positions. *)
Theorem hybrid_hit_sound c fl own al maxlen block_hashes g0 gs :
  let ng := length (kv_cache_groups (kv_cache_config c)) in
  pool_inv (block_pool c) fl own -> 0 < al -> Z.of_nat ng < 2 ^ 32 -> 0 <= maxlen ->
  group_wf c al maxlen block_hashes ng g0 ->
  Forall (fun g => group_wf c al maxlen block_hashes ng g /\ is_full_spec g.1 = false) gs ->
  NoDup ((g0 :: gs) ≫= snd) -> gs <> [] ->
  exists hit H, hybrid_hit c (g0 :: gs) al block_hashes maxlen = Ok (hit, H)
    /\ 0 <= H <= maxlen /\ H mod al = 0 /\ length hit = ng
    /\ forall g, g ∈ g0 :: gs -> group_hit c block_hashes hit H g.
Proof.
  intros ng [Hc _] Hal Hng Hml Hw0 Hgs Hnd Hne.
  set (simple := (zlen (g0 :: gs) =? 2) && is_full_spec g0.1).
  destruct (hit_loop_agrees c fl own al maxlen block_hashes ng Hc Hal Hng g0 gs Hw0 Hgs Hnd Hne simple
    (S (Z.to_nat (maxlen + 1))) maxlen (replicate ng None)) as (H & bg & Hloop & HH & Hm & Hlen & Hall & H0).
  - unfold simple. rewrite andb_true_iff, zlen_cons. unfold zlen. intros [? ?]. split; [lia|done].
  - lia.
  - lia.
  - by rewrite length_replicate.
  - intros Hf. left. intros i Hi. apply lookup_replicate_2.
    pose proof (gw_range _ _ _ _ _ _ Hw0) as Hr. rewrite Forall_forall in Hr. specialize (Hr _ Hi). simpl in Hr. lia.
  - unfold hybrid_hit. assert (E0 : py_get (g0 :: gs) 0 = Ok g0) by done. unfold mbind, res_bind. rewrite E0.
    fold simple. fold ng. rewrite Hloop. eexists _, H. split; [done|].
    rewrite bind_cons in Hnd. apply NoDup_app in Hnd as (_ & Hdis & _).
    assert (Hpos : Forall (fun id => 0 <= id) g0.2).
    { eapply Forall_impl; [apply (gw_range _ _ _ _ _ _ Hw0)|]. simpl. lia. }
    destruct (is_full_spec g0.1) eqn:Ef; (split_and!; [lia|lia|done| |]).
    + by rewrite length_fmap, truncate_groups_length.
    + intros g [->|Hg]%elem_of_cons; apply group_ok_hit.
      * destruct H0 as (n0 & Hle & Hok). eapply truncated_hit; [done|done|exact Hok|lia|done|done].
      * eapply (group_ok_frame c al maxlen block_hashes ng bg); [|intros i Hi|by apply Hall].
        -- rewrite Forall_forall in Hgs. by apply Hgs.
        -- apply truncate_groups_frame; [done|]. intros Hin. apply (Hdis _ Hin).
           apply list_elem_of_bind. by exists g.
    + by rewrite length_fmap.
    + intros g [->|Hg]%elem_of_cons; apply group_ok_hit; [done|by apply Hall].
Qed.

Lemma sample_group_wf g :
  g ∈ [(mkSpec 2 FullAttention 0, [0]); (mkSpec 2 (SlidingWindow 3) 0, [1])] ->
  group_wf (coordinator sample_kv_cached) 2 6 sample_hashes 2 g.
Proof.
  intros Hg. apply list_elem_of_In in Hg. destruct Hg as [<-|[<-|[]]]; (split;
    [discriminate|apply NoDup_singleton|repeat constructor; vm_compute; congruence
    |split; [vm_compute; reflexivity|split; [by exists 1|vm_compute; tauto]]
    |exists sample_hashes; split; [vm_compute; reflexivity|vm_compute; lia]]).
Qed.

Lemma hybrid_hit_sound_witness :
  exists hit, hybrid_hit (coordinator sample_kv_cached)
      [(mkSpec 2 FullAttention 0, [0]); (mkSpec 2 (SlidingWindow 3) 0, [1])] 2 sample_hashes 6 = Ok (hit, 4).
Proof.
  destruct sample_kv_cached_inv as (fl & own & [Hp _ _]).
  destruct (hybrid_hit_sound (coordinator sample_kv_cached) fl own 2 6 sample_hashes
    (mkSpec 2 FullAttention 0, [0]) [(mkSpec 2 (SlidingWindow 3) 0, [1])] Hp) as (hit & H & Hr & _).
  - lia.
  - vm_compute. reflexivity.
  - lia.
  - apply sample_group_wf. by left.
  - constructor; [|constructor]. split; [apply sample_group_wf; right; by left|reflexivity].
  - apply (bool_decide_unpack _). reflexivity.
  - discriminate.
  - exists hit. assert (E : hybrid_hit (coordinator sample_kv_cached)
      [(mkSpec 2 FullAttention 0, [0]); (mkSpec 2 (SlidingWindow 3) 0, [1])] 2 sample_hashes 6
      = Ok ([[Blk 1; Blk 2]; [Blk 0; Blk 4]], 4)) by (vm_compute; reflexivity).
    rewrite E in Hr |- *. injection Hr as <- <-. reflexivity.
Defined.

(** ** Two full-attention groups *)

(** Three attention groups, two of them full attention; a request of six tokens
    was cached, then the third block of the sliding-window group was evicted. *)
Definition three_groups_hit : option (list nat * Z) :=
  k ← ten_blocks [mkSpec 2 FullAttention 0; mkSpec 2 FullAttention 1; mkSpec 2 (SlidingWindow 3) 0] ;
  let run := allocate_slots false toy_sha256 other_request 6 0 None 0 0 false 0 ;;
             kv_evict_blocks false [9] in
  match run k with
  | (Ok _, k') =>
      match coord_find_longest_cache_hit (coordinator k') [[x02]; [x03]; [x04]] 6 with
      | Ok (hit, H) => Some (length <$> hit, H)
      | Err _ => None
      end
  | _ => None
  end.

(** The assumption of [hybrid_hit_sound] is needed.  Only the first full
    attention group is cut to the final length: with a second one, its hit of
    three blocks is returned together with a hit length of two. *)
Theorem second_full_group_not_truncated : three_groups_hit = Some ([2; 3; 2]%nat, 4).
Proof. vm_compute. reflexivity. Qed.
