(* ===== verification/SchedUtils.v ===== *)
(** Stop conditions and list helpers of the scheduler
    ([vllm/v1/core/sched/utils.py]): the repetition detector, [remove_all] and
    [check_stop], which decides after every generated token whether the request
    is finished and why. *)
From S2P Require Import Prelude Request.
From S2P Require Import Samples.
Local Open Scope Z_scope.

(** ** Repetition detection *)

(** The inner loop of [_has_repeating_pattern]: the token [n] places from the
    end against the same place of the [m]-th copy, for every [m]. *)
Fixpoint same_in_copies (token_ids : list Z) (pattern_len n target_token : Z) (ms : list Z) : res bool :=
  match ms with
  | [] => Ok true
  | m :: ms' =>
      t ← py_get token_ids (- (pattern_len * m + n)) ;
      if negb (t =? target_token) then Ok false
      else same_in_copies token_ids pattern_len n target_token ms'
  end.

(** The outer loop, over the places of the pattern. *)
Fixpoint repeats_at (token_ids : list Z) (pattern_len repetition_min_count : Z) (ns : list Z) : res bool :=
  match ns with
  | [] => Ok true
  | n :: ns' =>
      target_token ← py_get token_ids (- n) ;
      b ← same_in_copies token_ids pattern_len n target_token (zrange 1 repetition_min_count) ;
      if (b : bool) then repeats_at token_ids pattern_len repetition_min_count ns' else Ok false
  end.

Definition has_repeating_pattern (token_ids : list Z) (pattern_len repetition_min_count : Z) : res bool :=
  repeats_at token_ids pattern_len repetition_min_count (zrange 1 (pattern_len + 1)).

(** The loop of [check_sequence_repetition] over the pattern lengths. *)
Fixpoint try_pattern_lens (token_ids : list Z) (min_count : Z) (lens : list Z) : res bool :=
  match lens with
  | [] => Ok false
  | pattern_len :: lens' =>
      if zlen token_ids <? pattern_len * min_count then Ok false
      else
        b ← has_repeating_pattern token_ids pattern_len min_count ;
        if (b : bool) then Ok true else try_pattern_lens token_ids min_count lens'
  end.

Definition check_sequence_repetition (token_ids : list Z) (params : RepetitionDetectionParams) : res bool :=
  let min_pattern_size := if min_pattern_size params <=? 0 then 1 else min_pattern_size params in
  if (max_pattern_size params <=? 0) || (min_count params <? 2)
     || (max_pattern_size params <? min_pattern_size) then Ok false
  else try_pattern_lens token_ids (min_count params) (zrange min_pattern_size (max_pattern_size params + 1)).

(** ** [remove_all] *)

(** [lst.remove(x)] under [suppress(ValueError)]: the first occurrence goes. *)
Fixpoint list_remove_first {A} `{EqDecision A} (x : A) (l : list A) : list A :=
  match l with
  | [] => []
  | y :: l' => if decide (y = x) then l' else y :: list_remove_first x l'
  end.

Definition remove_all {A} `{Countable A} (lst : list A) (items_to_remove : gset A) : list A :=
  match elements items_to_remove with
  | [] => lst
  | [item] => list_remove_first item lst
  | _ => filter (fun item => item ∉ items_to_remove) lst
  end.

(** ** [check_stop] *)

(** [x in (l or ())] *)
Definition in_or_empty (x : Z) (l : option (list Z)) : bool := bool_decide (x ∈ default [] l).

Definition check_stop (max_model_len : Z) : M Request bool :=
  pooling ← gets pooling_params ;
  py_assert (is_none pooling) ;;
  sp ← gets sampling_params ;
  sp ← lift_opt AssertionError sp ;
  n_out ← gets num_output_tokens ;
  if n_out <? sp_min_tokens sp then mret false
  else
    out ← gets output_token_ids ;
    last_token_id ← lift_res (py_get out (-1)) ;
    if bool_decide (sp_eos_token_id sp = Some last_token_id) then
      modify (set_status (fun _ => FINISHED_STOPPED)) ;; mret true
    else if in_or_empty last_token_id (sp_stop_token_ids sp) then
      modify (set_status (fun _ => FINISHED_STOPPED)) ;;
      modify (set_stop_reason (fun _ => Some (StopToken last_token_id))) ;;
      mret true
    else
      n ← gets num_tokens ;
      mx ← gets max_tokens ;
      if (max_model_len <=? n) || (mx <=? n_out) then
        modify (set_status (fun _ => FINISHED_LENGTH_CAPPED)) ;; mret true
      else
        rep ← lift_res (match sp_repetition_detection sp with
                        | None => Ok false
                        | Some params => check_sequence_repetition out params
                        end) ;
        if (rep : bool) then
          modify (set_status (fun _ => FINISHED_REPETITION)) ;;
          modify (set_stop_reason (fun _ => Some (StopText "repetition_detected"))) ;;
          mret true
        else mret false.

(** * Properties of the scheduler utilities: the repetition detector finds exactly
    the sequences that end in copies of a pattern, [check_stop] on every branch,
    and [remove_all]. *)
Local Open Scope Z_scope.

(** ** The tail of a sequence *)

(** [l] ends in [c] copies of a pattern of length [n]. *)
Definition repeated_tail (l : list Z) (n c : nat) : Prop :=
  exists pre pat, length pat = n /\ l = pre ++ mjoin (replicate c pat).

Lemma py_get_from_end (l : list Z) i :
  1 <= i <= zlen l -> exists x, py_get l (- i) = Ok x /\ l !! (length l - Z.to_nat i)%nat = Some x.
Proof.
  intros Hi. unfold zlen in *.
  destruct (lookup_lt_is_Some_2 l (length l - Z.to_nat i)%nat ltac:(lia)) as [x Hx].
  exists x. split; [|done]. unfold py_get, zlen.
  replace (- i <? 0) with true by lia. replace (Z.of_nat (length l) + - i <? 0) with false by lia.
  by replace (Z.to_nat (Z.of_nat (length l) + - i)) with (length l - Z.to_nat i)%nat by lia; rewrite Hx.
Qed.

(** Every place of the last block carries the same token in the [m]-th copy. *)
Definition copies_agree (l : list Z) (p n : Z) (ms : list Z) : Prop :=
  forall m, m ∈ ms -> l !! (length l - Z.to_nat (p * m + n))%nat = l !! (length l - Z.to_nat n)%nat.

Lemma same_in_copies_spec (l : list Z) p n t ms :
  1 <= n -> 0 <= p -> l !! (length l - Z.to_nat n)%nat = Some t ->
  (forall m, m ∈ ms -> 1 <= m /\ p * m + n <= zlen l) ->
  exists b, same_in_copies l p n t ms = Ok b /\ (b = true <-> copies_agree l p n ms).
Proof.
  intros Hn Hp Ht. induction ms as [|m ms IH]; intros Hms; simpl.
  - exists true. split; [done|]. split; [|done]. intros _ m Hm. by apply elem_of_nil in Hm.
  - destruct (Hms m ltac:(left)) as [Hm Hb].
    destruct (py_get_from_end l (p * m + n) ltac:(nia)) as (x & -> & Hx). simpl.
    destruct (x =? t) eqn:E; simpl.
    + apply Z.eqb_eq in E as ->.
      destruct IH as (b & -> & Hiff); [intros m' Hm'; apply Hms; by right|].
      exists b. split; [done|]. rewrite Hiff. unfold copies_agree. setoid_rewrite elem_of_cons.
      split; [|naive_solver]. intros H m' [-> | Hm']; [congruence|auto].
    + exists false. split; [done|]. split; [done|]. intros H.
      specialize (H m ltac:(left)). apply Z.eqb_neq in E. congruence.
Qed.

Lemma repeats_at_spec (l : list Z) p c ns :
  0 <= p -> (forall n, n ∈ ns -> 1 <= n <= p) -> p * c <= zlen l -> 1 <= c ->
  exists b, repeats_at l p c ns = Ok b /\
            (b = true <-> forall n, n ∈ ns -> copies_agree l p n (zrange 1 c)).
Proof.
  intros Hp Hns Hl Hc. induction ns as [|n ns IH]; simpl.
  - exists true. split; [done|]. split; [|done]. intros _ n Hn. by apply elem_of_nil in Hn.
  - pose proof (Hns n ltac:(left)) as Hn.
    destruct (py_get_from_end l n ltac:(nia)) as (t & -> & Ht). simpl.
    destruct (same_in_copies_spec l p n t (zrange 1 c)) as (b & -> & Hb); [lia..|done| |].
    { intros m Hm%elem_of_zrange. split; [lia|nia]. }
    destruct IH as (b' & Hr & Hb'); [intros n' Hn'; apply Hns; by right|]. simpl. destruct b.
    + exists b'. split; [done|]. rewrite Hb'. setoid_rewrite elem_of_cons.
      split; [|naive_solver]. intros H n' [-> | Hn']; [by apply Hb|auto].
    + exists false. split; [done|]. split; [done|]. intros H. apply Hb, H. left.
Qed.

(** The last [k] blocks of [p] tokens, when all copies agree, are [k] copies of
    the last one. *)
Lemma agreeing_tail (l : list Z) (p c : nat) :
  (p * c <= length l)%nat ->
  (forall n m, (1 <= n <= p)%nat -> (1 <= m < c)%nat ->
     l !! (length l - (p * m + n))%nat = l !! (length l - n)%nat) ->
  forall k, (k <= c)%nat ->
  drop (length l - p * k) l = mjoin (replicate k (drop (length l - p) l)).
Proof.
  intros Hl Hag. induction k as [|k IH]; intros Hk.
  { rewrite Nat.mul_0_r, Nat.sub_0_r. by apply drop_ge. }
  rewrite replicate_S. simpl mjoin. rewrite <-IH by lia.
  assert (Hpk : (p * S k <= p * c)%nat) by (apply Nat.mul_le_mono_l; lia).
  rewrite Nat.mul_succ_r in *.
  rewrite <-(take_drop p (drop (length l - (p * k + p)) l)). f_equal.
  - apply list_eq. intros i. destruct (decide (i < p)%nat) as [Hi|Hi].
    + rewrite lookup_take_lt by done. rewrite !lookup_drop.
      replace (length l - (p * k + p) + i)%nat with (length l - (p * k + (p - i)))%nat by lia.
      replace (length l - p + i)%nat with (length l - (p - i))%nat by lia.
      destruct k as [|k]; [by rewrite Nat.mul_0_r|]. apply Hag; lia.
    + rewrite lookup_take_ge by lia. symmetry. apply lookup_ge_None. rewrite length_drop. lia.
  - rewrite drop_drop. f_equal. lia.
Qed.

Lemma lookup_copies (pat : list Z) (c j : nat) :
  (j < length pat * c)%nat -> mjoin (replicate c pat) !! j = pat !! (j mod length pat)%nat.
Proof.
  intros Hj. assert (length pat <> 0)%nat as Hp by (intros Hz; rewrite Hz in Hj; lia).
  revert j Hj. induction c as [|c IH]; intros j Hj; [lia|].
  rewrite replicate_S. simpl mjoin. destruct (decide (j < length pat)%nat) as [Hlt|Hge].
  - rewrite lookup_app_l by done. by rewrite Nat.mod_small.
  - rewrite lookup_app_r by lia. rewrite IH by lia. f_equal.
    replace j with ((j - length pat) + 1 * length pat)%nat at 2 by lia. by rewrite Nat.Div0.mod_add.
Qed.

Lemma length_copies (pat : list Z) c : length (mjoin (replicate c pat)) = (length pat * c)%nat.
Proof. induction c as [|c IH]; simpl; [lia|]. rewrite length_app, IH. lia. Qed.

Lemma has_repeating_pattern_spec (l : list Z) p c :
  1 <= p -> 1 <= c -> p * c <= zlen l ->
  exists b, has_repeating_pattern l p c = Ok b /\
            (b = true <-> repeated_tail l (Z.to_nat p) (Z.to_nat c)).
Proof.
  intros Hp Hc Hl. unfold has_repeating_pattern.
  destruct (repeats_at_spec l p c (zrange 1 (p + 1))) as (b & Hr & Hb); [lia| |lia..|].
  { intros n Hn%elem_of_zrange. lia. }
  exists b. split; [done|]. rewrite Hb. unfold zlen in Hl. split.
  - intros H. exists (take (length l - Z.to_nat p * Z.to_nat c) l), (drop (length l - Z.to_nat p) l).
    split; [rewrite length_drop; nia|].
    rewrite <-(agreeing_tail l _ (Z.to_nat c)); [by rewrite take_drop|nia| |lia].
    intros n m Hn Hm. specialize (H (Z.of_nat n) ltac:(apply elem_of_zrange; lia)
      (Z.of_nat m) ltac:(apply elem_of_zrange; lia)).
    rewrite Nat2Z.id in H. rewrite <-H. do 2 f_equal. lia.
  - intros (pre & pat & Hpat & ->) n Hn%elem_of_zrange m Hm%elem_of_zrange.
    rewrite length_app, length_copies, Hpat in *.
    assert (p * m <= p * (c - 1)) by nia.
    assert (Z.to_nat (p * m + n) = Z.to_nat p * Z.to_nat m + Z.to_nat n)%nat as -> by lia.
    assert (Z.to_nat p * Z.to_nat m + Z.to_nat p <= Z.to_nat p * Z.to_nat c)%nat by nia.
    rewrite !lookup_app_r by lia. rewrite !lookup_copies by (rewrite ?Hpat; lia). f_equal. rewrite Hpat.
    replace (length pre + Z.to_nat p * Z.to_nat c - Z.to_nat n - length pre)%nat with
      ((length pre + Z.to_nat p * Z.to_nat c - (Z.to_nat p * Z.to_nat m + Z.to_nat n) - length pre)
       + Z.to_nat m * Z.to_nat p)%nat by nia.
    by rewrite Nat.Div0.mod_add.
Qed.

Lemma repeated_tail_length l n c : repeated_tail l n c -> (n * c <= length l)%nat.
Proof. intros (pre & pat & <- & ->). rewrite length_app, length_copies. lia. Qed.

Lemma try_pattern_lens_spec (l : list Z) c hi lo :
  1 <= lo -> 2 <= c ->
  exists b, try_pattern_lens l c (zrange lo hi) = Ok b /\
            (b = true <-> exists n, lo <= n < hi /\ repeated_tail l (Z.to_nat n) (Z.to_nat c)).
Proof.
  intros Hlo Hc. remember (Z.to_nat (hi - lo)) as k eqn:Hk. revert lo Hlo Hk.
  induction k as [|k IH]; intros lo Hlo Hk.
  { rewrite zrange_nil by lia. exists false. split; [done|]. split; [done|]. intros (n & ? & _). lia. }
  rewrite zrange_cons by lia. simpl. destruct (zlen l <? lo * c) eqn:El.
  { exists false. split; [done|]. split; [done|]. intros (n & Hn & Ht%repeated_tail_length).
    unfold zlen in El. nia. }
  destruct (has_repeating_pattern_spec l lo c) as (b & -> & Hb); [lia..|]. simpl.
  destruct (IH (lo + 1)) as (b' & Hr & Hb'); [lia..|]. destruct b.
  - exists true. split; [done|]. split; [|done]. intros _. exists lo. split; [lia|]. by apply Hb.
  - exists b'. split; [done|]. rewrite Hb'. split; intros (n & Hn & Ht).
    + exists n. split; [lia|done].
    + exists n. split; [|done]. destruct (decide (n = lo)) as [-> |]; [|lia]. by apply Hb in Ht.
Qed.

Lemma check_sequence_repetition_iff (l : list Z) params :
  exists b, check_sequence_repetition l params = Ok b /\
  (b = true <-> 2 <= min_count params /\
     exists n, Z.max 1 (min_pattern_size params) <= n <= max_pattern_size params /\
               repeated_tail l (Z.to_nat n) (Z.to_nat (min_count params))).
Proof.
  unfold check_sequence_repetition.
  set (lo := if min_pattern_size params <=? 0 then 1 else min_pattern_size params).
  assert (lo = Z.max 1 (min_pattern_size params)) as Hlo.
  { subst lo. destruct (min_pattern_size params <=? 0) eqn:E; lia. }
  rewrite Hlo. clear lo Hlo.
  destruct (max_pattern_size params <=? 0) eqn:E1, (min_count params <? 2) eqn:E2,
    (max_pattern_size params <? Z.max 1 (min_pattern_size params)) eqn:E3; simpl;
    try by (exists false; split; [done|]; split; [done|]; intros (? & n & ? & _); lia).
  destruct (try_pattern_lens_spec l (min_count params) (max_pattern_size params + 1)
    (Z.max 1 (min_pattern_size params))) as (b & -> & Hb); [lia..|].
  exists b. split; [done|]. rewrite Hb. split.
  - intros (n & Hn & Ht). split; [lia|]. exists n. split; [lia|done].
  - intros (_ & n & Hn & Ht). exists n. split; [lia|done].
Qed.

(** ** [check_stop] *)

(** The last token ends the text. *)
Definition stops_text (sp : SamplingParams) (t : Z) : Prop :=
  sp_eos_token_id sp = Some t \/ t ∈ default [] (sp_stop_token_ids sp).

(** The request has no room for another token. *)
Definition length_capped (max_model_len : Z) (r : Request) : Prop :=
  max_model_len <= num_tokens r \/ max_tokens r <= num_output_tokens r.

(** The output ends in the configured number of copies of an admissible pattern. *)
Definition output_repeats (sp : SamplingParams) (r : Request) : Prop :=
  exists params, sp_repetition_detection sp = Some params /\ 2 <= min_count params /\
  exists n, Z.max 1 (min_pattern_size params) <= n <= max_pattern_size params /\
            repeated_tail (output_token_ids r) (Z.to_nat n) (Z.to_nat (min_count params)).

#[export] Instance stops_text_dec sp t : Decision (stops_text sp t).
Proof. unfold stops_text. apply _. Defined.
#[export] Instance length_capped_dec m r : Decision (length_capped m r).
Proof. unfold length_capped. apply _. Defined.

Lemma py_get_m1 (l : list Z) t : last l = Some t -> py_get l (-1) = Ok t.
Proof.
  intros Hl. rewrite last_lookup in Hl. pose proof (lookup_lt_Some _ _ _ Hl) as Hlen.
  destruct (py_get_from_end l 1) as (x & Hg & Hx); [unfold zlen; lia|].
  replace (length l - Z.to_nat 1)%nat with (Nat.pred (length l)) in Hx by lia.
  change (-1) with (Z.opp 1). congruence.
Qed.

Lemma repetition_check_iff sp r :
  exists b, match sp_repetition_detection sp with
            | None => Ok false
            | Some params => check_sequence_repetition (output_token_ids r) params
            end = Ok b /\ (b = true <-> output_repeats sp r).
Proof.
  unfold output_repeats. destruct (sp_repetition_detection sp) as [params|].
  - destruct (check_sequence_repetition_iff (output_token_ids r) params) as (b & -> & Hb).
    exists b. split; [done|]. rewrite Hb. naive_solver.
  - exists false. split; [done|]. naive_solver.
Qed.

(** The parts of a verdict that do not depend on why it was reached. *)
Local Ltac verdict r := split; [|split; [by intros|split; [done|by destruct r]]].

(** C33: [check_stop] returns for every request with sampling parameters and at
    least one output token; it says stop exactly when the minimum number of
    tokens is reached and the last token ends the text, or the request is at a
    length cap, or the output repeats; the finish reason is the first of these
    that applies, the stop reason names the stop token or the repetition, and
    nothing but the status and the stop reason changes. *)
Theorem check_stop_spec max_model_len r sp t :
  pooling_params r = None -> sampling_params r = Some sp -> last (output_token_ids r) = Some t ->
  exists b r', check_stop max_model_len r = (Ok b, r') /\
  (b = true <-> sp_min_tokens sp <= num_output_tokens r /\
     (stops_text sp t \/ length_capped max_model_len r \/ output_repeats sp r)) /\
  (b = true -> get_finished_reason r' =
     Some (if decide (stops_text sp t) then STOP
           else if decide (length_capped max_model_len r) then LENGTH else REPETITION)) /\
  stop_reason r' =
    (if b then
       if decide (sp_eos_token_id sp = Some t) then stop_reason r
       else if decide (stops_text sp t) then Some (StopToken t)
       else if decide (length_capped max_model_len r) then stop_reason r
       else Some (StopText "repetition_detected")
     else stop_reason r) /\
  r' = set_stop_reason (fun _ => stop_reason r')
         (set_status (fun s => if b then status r' else s) r).
Proof.
  intros Hp Hs Hl. unfold check_stop, gets, mbind, M_bind. simpl. rewrite Hp. simpl. rewrite Hs. simpl.
  destruct (num_output_tokens r <? sp_min_tokens sp) eqn:Emin.
  { exists false, r. split; [done|]. verdict r. split; [done|]. lia. }
  unfold lift_res. rewrite (py_get_m1 _ _ Hl).
  case_bool_decide as Heos.
  { eexists true, _. split; [reflexivity|].
    rewrite !(decide_True (P := stops_text sp t)) by (by left). rewrite !decide_True by done.
    verdict r. split; [|done]. intros _. split; [lia|]. by left; left. }
  unfold in_or_empty. case_bool_decide as Hstop.
  { eexists true, _. split; [reflexivity|].
    rewrite !(decide_True (P := stops_text sp t)) by (by right). rewrite !(decide_False (P := sp_eos_token_id sp = Some t)) by done.
    verdict r. split; [|done]. intros _. split; [lia|]. by left; right. }
  assert (~ stops_text sp t) as Hns by (intros [?|?]; done).
  rewrite !(decide_False (P := stops_text sp t)), !(decide_False (P := sp_eos_token_id sp = Some t)) by done.
  destruct ((max_model_len <=? num_tokens r) || (max_tokens r <=? num_output_tokens r)) eqn:Ecap.
  { assert (length_capped max_model_len r) as Hcap by (unfold length_capped; lia).
    eexists true, _. split; [reflexivity|]. rewrite !(decide_True (P := length_capped max_model_len r)) by done.
    verdict r. split; [|done]. intros _. split; [lia|]. by right; left. }
  assert (~ length_capped max_model_len r) as Hncap by (unfold length_capped; lia).
  rewrite !(decide_False (P := length_capped max_model_len r)) by done.
  destruct (repetition_check_iff sp r) as (b & -> & Hb). destruct b; simpl.
  - eexists true, _. split; [reflexivity|]. verdict r.
    split; [|done]. intros _. split; [lia|]. right; right. by apply Hb.
  - eexists false, _. split; [reflexivity|]. verdict r.
    split; [done|]. intros (_ & [? | [? | H%Hb]]); done.
Qed.

(** A request whose output ends in three copies of [7; 8]. *)
Definition looping_sampling : SamplingParams :=
  mkSamplingParams (Some 16) 2 (Some 2) (Some [5])
    (Some (mkRepetitionDetectionParams 3 0 3)) None None None None.
Definition looping_request : Request :=
  set_sampling_params (fun _ => Some looping_sampling)
    (set_output_token_ids (fun _ => [9; 7; 8; 7; 8; 7; 8]) (bare_request "l" [1; 2])).

Lemma check_stop_spec_witness :
  exists b r', check_stop 100 looping_request = (Ok b, r') /\ b = true /\ status r' = FINISHED_REPETITION.
Proof.
  destruct (check_stop_spec 100 looping_request looping_sampling 8 eq_refl eq_refl eq_refl)
    as (b & r' & Hr & _).
  exists b, r'. split; [exact Hr|]. vm_compute in Hr. injection Hr as <- <-. by split.
Defined.

(** The minimum number of tokens defers every stop condition, the length
    caps included: a request that fills the model's context before it has
    produced [min_tokens] tokens is left running. *)
Theorem min_tokens_defers_length_cap max_model_len r sp :
  pooling_params r = None -> sampling_params r = Some sp ->
  num_output_tokens r < sp_min_tokens sp -> max_model_len <= num_tokens r ->
  check_stop max_model_len r = (Ok false, r).
Proof.
  intros Hp Hs Hn _. unfold check_stop, gets, mbind, M_bind. simpl. rewrite Hp. simpl. rewrite Hs. simpl.
  by replace (num_output_tokens r <? sp_min_tokens sp) with true by lia.
Qed.

Lemma min_tokens_defers_length_cap_witness :
  let r := set_output_token_ids (fun _ => [9]) looping_request in
  num_tokens r = 2 /\ check_stop 2 r = (Ok false, r).
Proof.
  intros r. split; [reflexivity|].
  apply (min_tokens_defers_length_cap 2 r looping_sampling); vm_compute; congruence.
Defined.

(** ** [remove_all] *)

Section RemoveAll.
Context {A : Type} `{Countable A}.
Implicit Types l : list A.

Lemma list_remove_first_notin x l : x ∉ l -> list_remove_first x l = l.
Proof.
  induction l as [|y l IH]; [done|]. intros [Hy Hl]%not_elem_of_cons. simpl.
  rewrite decide_False by congruence. by rewrite IH.
Qed.

Lemma list_remove_first_filter x l : NoDup l -> list_remove_first x l = filter (fun y => y <> x) l.
Proof.
  induction l as [|y l IH]; [done|]. intros [Hy Hl]%NoDup_cons. simpl. rewrite filter_cons.
  case_decide as E; case_decide as E'; try done.
  - subst. symmetry. apply filter_all_in. intros z Hz ->. done.
  - by rewrite IH.
Qed.

(** On a list without duplicates, the special cases of [remove_all] agree with
    the general one. *)
Lemma remove_all_filter (s : gset A) l : NoDup l -> remove_all l s = filter (fun x => x ∉ s) l.
Proof.
  intros Hl. unfold remove_all. destruct (elements s) as [|x [|y xs]] eqn:Es; [|..|done].
  - symmetry. apply filter_all_in. intros x _. rewrite <-elem_of_elements, Es. apply not_elem_of_nil.
  - rewrite list_remove_first_filter by done. apply list_filter_iff. intros y.
    rewrite <-(elem_of_elements s), Es, list_elem_of_singleton. done.
Qed.
End RemoveAll.
