(* ===== verification/EncoderCache.v ===== *)
(** The encoder cache managers ([vllm/v1/core/encoder_cache_manager.py]): which
    outputs of the multimodal encoder are kept, which requests refer to them, and
    which of them may be evicted.

    [EncoderCacheManager] counts embeddings: an entry that no request refers to
    stays in [freeable] until [can_allocate] needs its space.  The order in which
    Python iterates over a set of input ids is the parameter [set_order]. *)
From S2P Require Import Prelude PyDict Request.
Local Open Scope Z_scope.

(** The content hash of a multimodal item. *)
Abbreviation mm_hash := (option string).

(** ** [EncoderCacheManager] *)

Record EncoderCacheManager := mkEncoderCache {
  enc_cache_size : Z;
  enc_num_free_slots : Z;
  enc_num_freeable_slots : Z;
  enc_cached : gmap mm_hash (gset string);
  enc_freeable : list (mm_hash * Z);
  enc_freed : list mm_hash
}.

Definition set_free_slots (f : Z -> Z) (e : EncoderCacheManager) : EncoderCacheManager :=
  mkEncoderCache (enc_cache_size e) (f (enc_num_free_slots e)) (enc_num_freeable_slots e)
    (enc_cached e) (enc_freeable e) (enc_freed e).
Definition set_freeable_slots (f : Z -> Z) (e : EncoderCacheManager) : EncoderCacheManager :=
  mkEncoderCache (enc_cache_size e) (enc_num_free_slots e) (f (enc_num_freeable_slots e))
    (enc_cached e) (enc_freeable e) (enc_freed e).
Definition set_cached (f : gmap mm_hash (gset string) -> gmap mm_hash (gset string))
    (e : EncoderCacheManager) : EncoderCacheManager :=
  mkEncoderCache (enc_cache_size e) (enc_num_free_slots e) (enc_num_freeable_slots e)
    (f (enc_cached e)) (enc_freeable e) (enc_freed e).
Definition set_freeable (f : list (mm_hash * Z) -> list (mm_hash * Z))
    (e : EncoderCacheManager) : EncoderCacheManager :=
  mkEncoderCache (enc_cache_size e) (enc_num_free_slots e) (enc_num_freeable_slots e)
    (enc_cached e) (f (enc_freeable e)) (enc_freed e).
Definition set_freed (f : list mm_hash -> list mm_hash) (e : EncoderCacheManager) : EncoderCacheManager :=
  mkEncoderCache (enc_cache_size e) (enc_num_free_slots e) (enc_num_freeable_slots e)
    (enc_cached e) (enc_freeable e) (f (enc_freed e)).

(** [__init__] *)
Definition encoder_cache_init (cache_size : Z) : EncoderCacheManager :=
  mkEncoderCache cache_size cache_size cache_size ∅ [] [].

(** [reset] *)
Definition enc_reset : M EncoderCacheManager unit :=
  modify (set_cached (fun _ => ∅)) ;;
  modify (set_freeable (fun _ => [])) ;;
  modify (set_freed (fun _ => [])) ;;
  modify (fun e => set_free_slots (fun _ => enc_cache_size e) e) ;;
  modify (fun e => set_freeable_slots (fun _ => enc_cache_size e) e).

(** [request.mm_features[input_id].identifier] *)
Definition feature_hash (r : Request) (input_id : Z) : res mm_hash :=
  f ← py_get (mm_features r) input_id ; Ok (identifier f).

(** [check_and_update_cache] *)
Definition check_and_update_cache (r : Request) (input_id : Z) : M EncoderCacheManager bool :=
  h ← lift_res (feature_hash r input_id) ;
  c ← gets enc_cached ;
  match c !! h with
  | None => mret false
  | Some refs =>
      (if decide (refs = ∅) then
         fr ← gets enc_freeable ;
         num_encoder_embeds ← lift_opt KeyError (od_lookup h fr) ;
         modify (set_freeable (od_delete h)) ;;
         modify (set_freeable_slots (fun n => n - num_encoder_embeds))
       else mret tt) ;;
      modify (set_cached (fun c => <[h := {[request_id r]} ∪ default ∅ (c !! h)]> c)) ;;
      mret true
  end.

(** The eviction loop of [can_allocate]; it ends because each round removes an
    entry of [freeable], and raises [KeyError] on an empty one. *)
Fixpoint evict_loop (fuel : nat) (num_embeds : Z) : M EncoderCacheManager unit :=
  free ← gets enc_num_free_slots ;
  if num_embeds <=? free then mret tt
  else match fuel with
  | O => raise KeyError
  | S fuel' =>
      fr ← gets enc_freeable ;
      match fr with
      | [] => raise KeyError
      | (h, num_free_embeds) :: fr' =>
          modify (set_freeable (fun _ => fr')) ;;
          c ← gets enc_cached ;
          lift_opt KeyError (c !! h) ;;
          modify (set_cached (delete h)) ;;
          modify (set_freed (fun l => l ++ [h])) ;;
          modify (set_free_slots (fun n => n + num_free_embeds)) ;;
          evict_loop fuel' num_embeds
      end
  end.

(** [can_allocate] *)
Definition can_allocate (r : Request) (input_id encoder_compute_budget num_embeds_to_schedule : Z)
    : M EncoderCacheManager bool :=
  num_embeds ← lift_res (get_num_encoder_embeds r input_id) ;
  if encoder_compute_budget <? num_embeds then mret false
  else
    let num_embeds := num_embeds + num_embeds_to_schedule in
    free ← gets enc_num_free_slots ;
    if num_embeds <=? free then mret true
    else
      freeable ← gets enc_num_freeable_slots ;
      if freeable <? num_embeds then mret false
      else
        fr ← gets enc_freeable ;
        evict_loop (S (length fr)) num_embeds ;;
        mret true.

(** [allocate] *)
Definition enc_allocate (r : Request) (input_id : Z) : M EncoderCacheManager unit :=
  h ← lift_res (feature_hash r input_id) ;
  modify (set_cached (fun c => match c !! h with None => <[h := ∅]> c | Some _ => c end)) ;;
  num_encoder_embeds ← lift_res (get_num_encoder_embeds r input_id) ;
  free ← gets enc_num_free_slots ;
  py_assert (num_encoder_embeds <=? free) ;;
  freeable ← gets enc_num_freeable_slots ;
  py_assert (num_encoder_embeds <=? freeable) ;;
  modify (set_cached (fun c => <[h := {[request_id r]} ∪ default ∅ (c !! h)]> c)) ;;
  modify (set_free_slots (fun n => n - num_encoder_embeds)) ;;
  modify (set_freeable_slots (fun n => n - num_encoder_embeds)).

(** [get_cached_input_ids]: the set, as the list of its elements. *)
Definition input_is_cached (r : Request) (e : EncoderCacheManager) (input_id : Z) : bool :=
  match feature_hash r input_id with
  | Ok h => bool_decide (is_Some (enc_cached e !! h))
  | Err _ => false
  end.
Definition get_cached_input_ids (r : Request) (e : EncoderCacheManager) : list Z :=
  filter (fun i => input_is_cached r e i = true) (zrange 0 (zlen (mm_features r))).

(** [free_encoder_input] *)
Definition free_encoder_input (r : Request) (input_id : Z) : M EncoderCacheManager unit :=
  h ← lift_res (feature_hash r input_id) ;
  c ← gets enc_cached ;
  if decide (default ∅ (c !! h) = ∅) then mret tt
  else
    modify (set_cached (fun c => <[h := default ∅ (c !! h) ∖ {[request_id r]}]> c)) ;;
    c ← gets enc_cached ;
    when (bool_decide (default ∅ (c !! h) = ∅))
      (num_encoder_embeds ← lift_res (get_num_encoder_embeds r input_id) ;
       modify (set_freeable (od_set h num_encoder_embeds)) ;;
       modify (set_freeable_slots (fun n => n + num_encoder_embeds))).

(** [free] *)
Definition enc_free (set_order : list Z -> list Z) (r : Request) : M EncoderCacheManager unit :=
  input_ids ← gets (get_cached_input_ids r) ;
  forM_ (set_order input_ids) (free_encoder_input r).

(** [get_freed_mm_hashes] *)
Definition get_freed_mm_hashes : M EncoderCacheManager (list mm_hash) :=
  freed ← gets enc_freed ;
  modify (set_freed (fun _ => [])) ;;
  mret freed.

(** ** [compute_mm_encoder_budget] *)

(** The fields of [SchedulerConfig] the encoder budget reads. *)
Record EncoderBudgetConfig := mkEncoderBudgetConfig {
  disable_chunked_mm_input : bool;
  max_num_batched_tokens : Z;
  max_num_encoder_input_tokens : Z;
  encoder_cache_size : Z
}.

(** [max(values)] of a non-empty sequence. *)
Definition py_max (x : Z) (l : list Z) : Z := foldl Z.max x l.

(** The mapping from modality to tokens per item, as its list of items. *)
Definition compute_mm_encoder_budget (cfg : EncoderBudgetConfig)
    (mm_max_toks_per_item : list (string * Z)) : res (Z * Z) :=
  match map snd mm_max_toks_per_item with
  | [] => Ok (0, 0)
  | x :: l =>
      let max_tokens_per_mm_item := py_max x l in
      if disable_chunked_mm_input cfg && (max_num_batched_tokens cfg <? max_tokens_per_mm_item)
      then Err ValueError
      else
        let encoder_compute_budget := Z.max (max_num_encoder_input_tokens cfg) max_tokens_per_mm_item in
        let encoder_cache_size := Z.max (encoder_cache_size cfg) max_tokens_per_mm_item in
        Ok (encoder_compute_budget, encoder_cache_size)
  end.

(** ** [EncoderDecoderCacheManager] *)

Record EncoderDecoderCacheManager := mkEncDecCache {
  ed_cache_size : Z;
  ed_num_free_slots : Z;
  ed_allocated : list mm_hash;
  ed_to_free : list mm_hash
}.

Definition ed_init (cache_size : Z) : EncoderDecoderCacheManager := mkEncDecCache cache_size cache_size [] [].

Definition ed_reset : M EncoderDecoderCacheManager unit :=
  modify (fun e => mkEncDecCache (ed_cache_size e) (ed_cache_size e) [] []).

Definition ed_check_and_update_cache (r : Request) (input_id : Z) : M EncoderDecoderCacheManager bool :=
  mret false.

Definition ed_can_allocate (r : Request) (input_id encoder_compute_budget num_embeds_to_schedule : Z)
    : M EncoderDecoderCacheManager bool :=
  num_encoder_embeds ← lift_res (get_num_encoder_embeds r input_id) ;
  if encoder_compute_budget <? num_encoder_embeds then mret false
  else gets (fun e => num_encoder_embeds + num_embeds_to_schedule <=? ed_num_free_slots e).

Definition ed_add_slots (d : Z) (e : EncoderDecoderCacheManager) : EncoderDecoderCacheManager :=
  mkEncDecCache (ed_cache_size e) (ed_num_free_slots e + d) (ed_allocated e) (ed_to_free e).

Definition ed_allocate (r : Request) (input_id : Z) : M EncoderDecoderCacheManager unit :=
  num_encoder_embeds ← lift_res (get_num_encoder_embeds r input_id) ;
  modify (ed_add_slots (- num_encoder_embeds)) ;;
  h ← lift_res (feature_hash r input_id) ;
  modify (fun e => mkEncDecCache (ed_cache_size e) (ed_num_free_slots e) (ed_allocated e ++ [h]) (ed_to_free e)).

Definition ed_free_encoder_input (r : Request) (input_id : Z) : M EncoderDecoderCacheManager unit :=
  num_encoder_embeds ← lift_res (get_num_encoder_embeds r input_id) ;
  modify (ed_add_slots num_encoder_embeds).

Definition ed_free (r : Request) : M EncoderDecoderCacheManager unit :=
  forM_ (zrange 0 (zlen (mm_features r))) (ed_free_encoder_input r).

Definition ed_get_cached_input_ids (r : Request) : list Z := zrange 0 (zlen (mm_features r)).

Definition ed_get_freed_mm_hashes : M EncoderDecoderCacheManager (list mm_hash) :=
  to_free ← gets ed_to_free ;
  modify (fun e => mkEncDecCache (ed_cache_size e) (ed_num_free_slots e) [] (ed_allocated e)) ;;
  mret to_free.
