(* ===== verification/EncoderCacheSpec.v ===== *)
(** The accounting invariant of the encoder cache and the specification of each
    of its operations as a weakest precondition over it. *)
From S2P Require Import Prelude PyDict Request EncoderCache.
From S2P Require Import Samples.
Local Open Scope Z_scope.

(** The sizes in an ordered dictionary. *)
Definition sum_sizes (d : list (mm_hash * Z)) : Z := foldr (fun kv acc => kv.2 + acc) 0 d.

Lemma sum_sizes_app d1 d2 : sum_sizes (d1 ++ d2) = sum_sizes d1 + sum_sizes d2.
Proof. induction d1 as [|kv d1 IH]; simpl; lia. Qed.

Lemma sum_sizes_delete h n d :
  od_lookup h d = Some n -> sum_sizes (od_delete h d) = sum_sizes d - n.
Proof.
  induction d as [|[h' n'] d IH]; simpl; [done|]. case_decide; [|intros Hl; simpl; rewrite IH by done; lia].
  intros [= ->]. simpl. lia.
Qed.

Lemma sum_sizes_nonneg d : (forall h n, (h, n) ∈ d -> 0 <= n) -> 0 <= sum_sizes d.
Proof.
  induction d as [|[h n] d IH]; simpl; [lia|]. intros Hd.
  pose proof (Hd h n ltac:(left)). enough (0 <= sum_sizes d) by lia. apply IH. intros ???. by eapply Hd; right.
Qed.

(** ** The space used by the entries of a cache map *)

Section Used.
Context (sz : mm_hash -> Z).
Implicit Types c : gmap mm_hash (gset string).

Definition used c : Z := map_fold (fun h _ acc => sz h + acc) 0 c.

Lemma used_empty : used ∅ = 0.
Proof. done. Qed.

Lemma used_insert_new h s c : c !! h = None -> used (<[h := s]> c) = sz h + used c.
Proof. intros Hh. unfold used. rewrite map_fold_insert_L; [done|lia..|done]. Qed.

Lemma used_delete h s c : c !! h = Some s -> used c = sz h + used (delete h c).
Proof. intros Hh. unfold used. by rewrite (map_fold_delete_L _ _ h s) by (lia || done). Qed.

Lemma used_insert_old h s s' c : c !! h = Some s' -> used (<[h := s]> c) = used c.
Proof.
  intros Hh. rewrite (used_delete h s' c) by done. rewrite <-insert_delete_eq.
  by rewrite used_insert_new by apply lookup_delete_eq.
Qed.

Lemma used_nonneg c : (forall h, 0 <= sz h) -> 0 <= used c.
Proof.
  intros Hsz. induction c as [|h s c Hh IH] using map_ind; [done|].
  rewrite used_insert_new by done. specialize (Hsz h). lia.
Qed.
End Used.

(** ** The invariant *)

(** Every embedding slot is free or belongs to an entry; [freeable] holds
    exactly the entries without references, each with its size. *)
Record enc_inv (sz : mm_hash -> Z) (e : EncoderCacheManager) : Prop := {
  ei_sizes : forall h, 0 <= sz h;
  ei_nodup : NoDup (map fst (enc_freeable e));
  ei_unreferenced : forall h n, (h, n) ∈ enc_freeable e <-> enc_cached e !! h = Some ∅ /\ n = sz h;
  ei_space : enc_num_free_slots e + used sz (enc_cached e) = enc_cache_size e;
  ei_reclaimable : enc_num_freeable_slots e = enc_num_free_slots e + sum_sizes (enc_freeable e);
  ei_free : 0 <= enc_num_free_slots e
}.

(** The request's items have the sizes that the cache accounts for. *)
Definition sized (sz : mm_hash -> Z) (r : Request) : Prop :=
  forall f, f ∈ mm_features r -> get_num_embeds (mm_position f) = Ok (sz (identifier f)).

Lemma encoder_cache_init_inv sz n :
  (forall h, 0 <= sz h) -> 0 <= n -> enc_inv sz (encoder_cache_init n).
Proof.
  intros Hsz Hn. constructor; simpl; try done; [constructor| |rewrite used_empty; lia|lia].
  intros h k. rewrite elem_of_nil, lookup_empty. naive_solver.
Qed.

Lemma reclaimable_ge_free sz e : enc_inv sz e -> enc_num_free_slots e <= enc_num_freeable_slots e.
Proof.
  intros [Hsz _ Hfr _ Hr _]. enough (0 <= sum_sizes (enc_freeable e)) by lia.
  apply sum_sizes_nonneg. intros h n Hin. apply Hfr in Hin as [_ ->]. apply Hsz.
Qed.

Lemma freeable_keys sz e h : enc_inv sz e -> h ∈ map fst (enc_freeable e) <-> enc_cached e !! h = Some ∅.
Proof.
  intros Hi. rewrite list_elem_of_fmap. split.
  - intros ([h' n] & -> & Hin). by apply (ei_unreferenced _ _ Hi) in Hin as [? _].
  - intros Hh. exists (h, sz h). split; [done|]. by apply (ei_unreferenced _ _ Hi).
Qed.

Lemma foldl_delete_lookup {V} (h : mm_hash) (v : V) (c : gmap mm_hash V) (ev : list (mm_hash * Z)) :
  c !! h = Some v -> h ∉ map fst ev -> foldl (fun c kv => delete kv.1 c) c ev !! h = Some v.
Proof.
  revert c. induction ev as [|[k n] ev IH]; intros c Hc; simpl; [done|].
  intros [Hne Hin]%not_elem_of_cons. apply IH; [|done]. by rewrite lookup_delete_ne.
Qed.

(** The evictable entries are entries. *)
Lemma freeable_le_used (sz : mm_hash -> Z) (fr : list (mm_hash * Z)) (c : gmap mm_hash (gset string)) :
  (forall h, 0 <= sz h) -> NoDup (map fst fr) ->
  (forall h n, (h, n) ∈ fr -> c !! h = Some ∅ /\ n = sz h) ->
  sum_sizes fr <= used sz c.
Proof.
  intros Hsz. revert c. induction fr as [|[h n] fr IH]; intros c Hnd Hin; simpl.
  - by apply used_nonneg.
  - simpl in Hnd. apply NoDup_cons in Hnd as [Hh Hnd]. destruct (Hin h n ltac:(left)) as [Hc ->].
    rewrite (used_delete sz h ∅ c) by done. enough (sum_sizes fr <= used sz (delete h c)) by lia.
    apply IH; [done|]. intros h' n' Hin'. destruct (decide (h' = h)) as [-> |Hne].
    + destruct Hh. by apply (list_elem_of_fmap_2 fst) in Hin'.
    + rewrite lookup_delete_ne by done. apply Hin. by right.
Qed.

(** Reading the [input_id]-th item of a request. *)
Lemma feature_reads sz r i f :
  sized sz r -> 0 <= i -> mm_features r !! Z.to_nat i = Some f ->
  feature_hash r i = Ok (identifier f) /\ get_num_encoder_embeds r i = Ok (sz (identifier f)).
Proof.
  intros Hs Hi Hf. unfold feature_hash, get_num_encoder_embeds.
  pose proof (lookup_lt_Some _ _ _ Hf). rewrite (py_get_Some _ _ f) by done. simpl.
  replace (i <? zlen (mm_features r)) with true by (unfold zlen; lia). simpl.
  split; [done|]. apply Hs. by eapply list_elem_of_lookup_2.
Qed.

(** ** Operations *)

Section Ops.
Context (sz : mm_hash -> Z).
Implicit Types e : EncoderCacheManager.

(** A reference is taken on an entry, whether or not it had any. *)
Definition referenced (h : mm_hash) (id : string) (refs : gset string) e : EncoderCacheManager :=
  mkEncoderCache (enc_cache_size e) (enc_num_free_slots e)
    (if decide (refs = ∅) then enc_num_freeable_slots e - sz h else enc_num_freeable_slots e)
    (<[h := {[id]} ∪ refs]> (enc_cached e))
    (if decide (refs = ∅) then od_delete h (enc_freeable e) else enc_freeable e) (enc_freed e).

Lemma singleton_union_nonempty (id : string) (refs : gset string) : {[id]} ∪ refs <> ∅.
Proof. set_solver. Qed.

Lemma referenced_inv h id refs e :
  enc_inv sz e -> enc_cached e !! h = Some refs -> enc_inv sz (referenced h id refs e).
Proof.
  intros Hi Hh. pose proof Hi as [Hsz Hnd Hfr Hsp Hrc Hf]. unfold referenced.
  assert (forall h' n, (h', n) ∈ enc_freeable e -> h' = h -> refs = ∅) as Hmem.
  { intros h' n Hin ->. apply Hfr in Hin as [Hin _]. congruence. }
  constructor; simpl; [done|..|done].
  - case_decide; [by apply od_delete_NoDup|done].
  - intros h' n. destruct (decide (h' = h)) as [-> |Hne].
    + rewrite lookup_insert_eq. pose proof (singleton_union_nonempty id refs).
      split; [|intros [[=] _]; done]. case_decide as E.
      * rewrite od_delete_elem by done. by intros [_ ?].
      * intros Hin. by destruct E; eapply Hmem.
    + rewrite lookup_insert_ne by done. case_decide; [|by apply Hfr].
      rewrite od_delete_elem, Hfr by done. naive_solver.
  - by rewrite (used_insert_old _ _ _ refs).
  - case_decide as E; [|done]. subst refs.
    rewrite (sum_sizes_delete h (sz h)); [lia|]. apply od_lookup_Some; [done|]. by apply Hfr.
Qed.

Lemma check_and_update_cache_wp r i f e :
  enc_inv sz e -> sized sz r -> 0 <= i -> mm_features r !! Z.to_nat i = Some f ->
  wp (check_and_update_cache r i) (fun b e' =>
    match enc_cached e !! identifier f with
    | None => b = false /\ e' = e
    | Some refs => b = true /\ e' = referenced (identifier f) (request_id r) refs e
    end) e.
Proof.
  intros Hi Hs H0 Hf. destruct (feature_reads sz r i f Hs H0 Hf) as [Hh _].
  unfold check_and_update_cache. wp_steps.
  destruct (enc_cached e !! identifier f) as [refs|] eqn:Hc; [|wp_steps; by split].
  wp_steps. unfold referenced. case_decide as E.
  - subst refs. assert (od_lookup (identifier f) (enc_freeable e) = Some (sz (identifier f))) as Hl.
    { apply od_lookup_Some; [apply Hi|]. by apply (ei_unreferenced _ _ Hi). }
    wp_steps. split; [done|]. unfold set_freeable_slots, set_freeable, set_cached. simpl. by rewrite Hc.
  - wp_steps. split; [done|]. unfold set_cached. by rewrite Hc.
Qed.

(** The entries [ev] were evicted. *)
Definition evicted (ev : list (mm_hash * Z)) e e' : Prop :=
  enc_freeable e = ev ++ enc_freeable e' /\
  enc_cached e' = foldl (fun c kv => delete kv.1 c) (enc_cached e) ev /\
  enc_freed e' = enc_freed e ++ map fst ev /\
  enc_num_free_slots e' = enc_num_free_slots e + sum_sizes ev /\
  enc_num_freeable_slots e' = enc_num_freeable_slots e /\
  enc_cache_size e' = enc_cache_size e.

Lemma evicted_nil e : evicted [] e e.
Proof. unfold evicted. simpl. rewrite app_nil_r. split_and!; try done. lia. Qed.

(** One round of the eviction loop. *)
Definition evict_one (h : mm_hash) (n : Z) (fr : list (mm_hash * Z)) e : EncoderCacheManager :=
  mkEncoderCache (enc_cache_size e) (enc_num_free_slots e + n) (enc_num_freeable_slots e)
    (delete h (enc_cached e)) fr (enc_freed e ++ [h]).

Lemma evict_one_inv h n fr e :
  enc_inv sz e -> enc_freeable e = (h, n) :: fr -> enc_inv sz (evict_one h n fr e).
Proof.
  intros [Hsz Hnd Hfr Hsp Hrc Hf] E. rewrite E in *. simpl in *. apply NoDup_cons in Hnd as [Hh Hnd].
  destruct (proj1 (Hfr h n)) as [Hc ->]; [by left|].
  constructor; simpl; [done|done|..].
  - intros h' n'. destruct (decide (h' = h)) as [-> |Hne].
    + rewrite lookup_delete_eq. split; [|naive_solver]. intros Hin.
      destruct Hh. by apply (list_elem_of_fmap_2 fst) in Hin.
    + rewrite lookup_delete_ne by done. rewrite <-Hfr, elem_of_cons. naive_solver.
  - rewrite (used_delete sz h ∅ (enc_cached e)) in Hsp by done. lia.
  - lia.
  - specialize (Hsz h). lia.
Qed.

Lemma evicted_cons h n fr e ev e' :
  enc_freeable e = (h, n) :: fr -> evicted ev (evict_one h n fr e) e' -> evicted ((h, n) :: ev) e e'.
Proof.
  intros E (H1 & H2 & H3 & H4 & H5 & H6). unfold evicted, evict_one in *. simpl in *.
  rewrite E, H1, H2, H3, H4, H5, H6. rewrite <-!app_assoc. simpl. split_and!; try done. lia.
Qed.

Lemma evict_loop_wp n fuel e :
  enc_inv sz e -> (length (enc_freeable e) < fuel)%nat -> n <= enc_num_freeable_slots e ->
  wp (evict_loop fuel n) (fun _ e' =>
    enc_inv sz e' /\ n <= enc_num_free_slots e' /\
    exists ev, evicted ev e e' /\
      forall ev' kv, ev = ev' ++ [kv] -> enc_num_free_slots e + sum_sizes ev' < n) e.
Proof.
  revert e. induction fuel as [|fuel IH]; intros e Hi Hl Hn; [lia|]. simpl. wp_steps.
  destruct (n <=? enc_num_free_slots e) eqn:En.
  { wp_steps. split; [done|]. split; [lia|]. exists []. split; [apply evicted_nil|]. by intros []. }
  wp_steps. destruct (enc_freeable e) as [|[h k] fr] eqn:E.
  { pose proof (ei_reclaimable _ _ Hi) as Hr. rewrite E in Hr. simpl in Hr. lia. }
  assert ((h, k) ∈ enc_freeable e) as Hin by (rewrite E; left).
  destruct (proj1 (ei_unreferenced sz e Hi h k) Hin) as [Hc _].
  wp_steps. eapply wp_mono; [apply IH|].
  - exact (evict_one_inv h k fr e Hi E).
  - simpl in *. lia.
  - done.
  - intros [] e' (Hi' & Hn' & ev & Hev & Hmin). split; [done|]. split; [done|].
    exists ((h, k) :: ev). split; [by eapply evicted_cons|]. intros [|kv1 ev1] kv [= <- ->].
    + simpl. lia.
    + specialize (Hmin ev1 kv eq_refl). simpl in *. lia.
Qed.

Lemma can_allocate_wp r i f budget scheduled e :
  enc_inv sz e -> sized sz r -> 0 <= i -> mm_features r !! Z.to_nat i = Some f ->
  let n := sz (identifier f) in
  wp (can_allocate r i budget scheduled) (fun b e' =>
    enc_inv sz e' /\
    (b = true <-> n <= budget /\ n + scheduled <= enc_num_freeable_slots e) /\
    (b = false -> e' = e) /\
    (b = true -> n + scheduled <= enc_num_free_slots e') /\
    exists ev, evicted ev e e' /\
      forall ev' kv, ev = ev' ++ [kv] -> enc_num_free_slots e + sum_sizes ev' < n + scheduled) e.
Proof.
  intros Hi Hs H0 Hf n. destruct (feature_reads sz r i f Hs H0 Hf) as [_ Hn]. fold n in Hn.
  pose proof (reclaimable_ge_free sz e Hi) as Hge.
  assert (exists ev, evicted ev e e /\
      forall ev' kv, ev = ev' ++ [kv] -> enc_num_free_slots e + sum_sizes ev' < n + scheduled) as Hsame.
  { exists []. split; [apply evicted_nil|]. by intros []. }
  unfold can_allocate. wp_steps. destruct (budget <? n) eqn:E1.
  { wp_steps. split_and!; try done; lia. }
  wp_steps. destruct (n + scheduled <=? enc_num_free_slots e) eqn:E2.
  { wp_steps. split_and!; try done; lia. }
  wp_steps. destruct (enc_num_freeable_slots e <? n + scheduled) eqn:E3.
  { wp_steps. split_and!; try done; lia. }
  wp_steps. eapply wp_mono; [apply evict_loop_wp; [done|lia|lia]|].
  intros [] e' (Hi' & Hn' & Hev). wp_steps. split_and!; try done; lia.
Qed.
(** A new entry, with its first reference. *)
Definition allocated (h : mm_hash) (id : string) e : EncoderCacheManager :=
  mkEncoderCache (enc_cache_size e) (enc_num_free_slots e - sz h) (enc_num_freeable_slots e - sz h)
    (<[h := {[id]}]> (enc_cached e)) (enc_freeable e) (enc_freed e).

Lemma allocated_inv h id e :
  enc_inv sz e -> enc_cached e !! h = None -> sz h <= enc_num_free_slots e ->
  enc_inv sz (allocated h id e).
Proof.
  intros [Hsz Hnd Hfr Hsp Hrc Hf] Hc Hle.
  constructor; simpl; [done|done|..|lia|lia].
  - intros h' n. rewrite Hfr. destruct (decide (h' = h)) as [-> |Hne].
    + rewrite lookup_insert_eq, Hc. split; [naive_solver|]. intros [[=] _].
    + by rewrite lookup_insert_ne.
  - rewrite used_insert_new by done. lia.
Qed.

Lemma enc_allocate_wp r i f e :
  enc_inv sz e -> sized sz r -> 0 <= i -> mm_features r !! Z.to_nat i = Some f ->
  enc_cached e !! identifier f = None -> sz (identifier f) <= enc_num_free_slots e ->
  wp (enc_allocate r i) (fun _ e' => e' = allocated (identifier f) (request_id r) e) e.
Proof.
  intros Hi Hs H0 Hf Hc Hle. destruct (feature_reads sz r i f Hs H0 Hf) as [Hh Hn].
  pose proof (reclaimable_ge_free sz e Hi) as Hge.
  unfold enc_allocate. wp_steps; [simpl; lia..|].
  unfold allocated, set_freeable_slots, set_free_slots, set_cached. simpl. rewrite Hc. simpl.
  rewrite lookup_insert_eq, insert_insert_eq. simpl. rewrite (right_id_L ∅ (∪)). done.
Qed.

(** The reference of [id] on the entry [h] is dropped. *)
Definition released (h : mm_hash) (id : string) e : EncoderCacheManager :=
  let refs := default ∅ (enc_cached e !! h) in
  if decide (refs = ∅) then e
  else
    let refs' := refs ∖ {[id]} in
    mkEncoderCache (enc_cache_size e) (enc_num_free_slots e)
      (if decide (refs' = ∅) then enc_num_freeable_slots e + sz h else enc_num_freeable_slots e)
      (<[h := refs']> (enc_cached e))
      (if decide (refs' = ∅) then enc_freeable e ++ [(h, sz h)] else enc_freeable e) (enc_freed e).

Lemma released_inv h id e : enc_inv sz e -> enc_inv sz (released h id e).
Proof.
  intros Hi. unfold released. destruct (enc_cached e !! h) as [refs|] eqn:Hc; simpl; [|done].
  case_decide as Er; [done|]. pose proof (freeable_keys sz e h Hi) as Hk.
  destruct Hi as [Hsz Hnd Hfr Hsp Hrc Hf].
  assert (h ∉ map fst (enc_freeable e)) as Hh by (rewrite Hk; congruence).
  constructor; simpl; [done|..|done].
  - case_decide; [|done]. rewrite map_app. apply NoDup_app. split_and!; [done| |apply NoDup_singleton].
    intros x Hx ->%list_elem_of_singleton. done.
  - intros h' n. destruct (decide (h' = h)) as [-> |Hne].
    + rewrite lookup_insert_eq. assert ((h, n) ∉ enc_freeable e) as Hn.
      { intros Hin. destruct Hh. by apply (list_elem_of_fmap_2 fst) in Hin. }
      case_decide as E; [|naive_solver].
      rewrite elem_of_app, list_elem_of_singleton, E. naive_solver.
    + rewrite lookup_insert_ne by done. case_decide; [|by apply Hfr].
      rewrite elem_of_app, list_elem_of_singleton, Hfr. naive_solver.
  - by rewrite (used_insert_old _ _ _ refs).
  - case_decide; [|done]. rewrite sum_sizes_app. simpl. lia.
Qed.

Lemma free_encoder_input_wp r i f e :
  enc_inv sz e -> sized sz r -> 0 <= i -> mm_features r !! Z.to_nat i = Some f ->
  wp (free_encoder_input r i) (fun _ e' => e' = released (identifier f) (request_id r) e) e.
Proof.
  intros Hi Hs H0 Hf. destruct (feature_reads sz r i f Hs H0 Hf) as [Hh Hn].
  pose proof (freeable_keys sz e (identifier f) Hi) as Hk.
  unfold free_encoder_input, released. wp_steps. case_decide as Er; [by wp_steps|]. wp_steps.
  unfold set_cached. simpl. rewrite lookup_insert_eq. simpl.
  apply wp_when; intros E; [apply bool_decide_eq_true in E|apply bool_decide_eq_false in E].
  - wp_steps. unfold set_freeable_slots, set_freeable. simpl. rewrite !decide_True by done.
    rewrite od_set_new; [done|]. rewrite Hk. intros E'. by rewrite E' in Er.
  - by rewrite !decide_False.
Qed.

(** Which references remain after the requests [hs] of [id] were released. *)
Definition refs_without (hs : list mm_hash) (id : string) (c c' : gmap mm_hash (gset string)) : Prop :=
  forall h, c' !! h = (fun refs => if decide (h ∈ hs) then refs ∖ {[id]} else refs) <$> c !! h.

Lemma released_refs h hs id c e :
  refs_without hs id c (enc_cached e) -> refs_without (hs ++ [h]) id c (enc_cached (released h id e)).
Proof.
  intros Hr h'. pose proof (Hr h) as Hh. specialize (Hr h').
  assert (enc_cached (released h id e) !! h' =
    (fun refs => if decide (h' = h) then refs ∖ {[id]} else refs) <$> enc_cached e !! h') as ->.
  { unfold released. destruct (enc_cached e !! h) as [refs|] eqn:Hc; simpl.
    - destruct (decide (refs = ∅)) as [Er|Er]; simpl; destruct (decide (h' = h)) as [-> |Hne].
      + subst refs. rewrite Hc. simpl. f_equal. set_solver.
      + by destruct (enc_cached e !! h').
      + by rewrite lookup_insert_eq, Hc.
      + rewrite lookup_insert_ne by done. by destruct (enc_cached e !! h').
    - rewrite decide_True by done. destruct (decide (h' = h)) as [-> |Hne]; [by rewrite Hc|].
      by destruct (enc_cached e !! h'). }
  rewrite Hr. destruct (c !! h') as [refs|]; simpl; [|done]. f_equal.
  repeat case_decide; set_solver.
Qed.

Lemma released_frame h id e :
  enc_num_free_slots (released h id e) = enc_num_free_slots e /\
  enc_cache_size (released h id e) = enc_cache_size e /\ enc_freed (released h id e) = enc_freed e.
Proof. unfold released. by case_decide. Qed.

(** Releasing the inputs [ids] of a request one by one. *)
Definition hash_at (r : Request) (i : Z) : mm_hash :=
  match feature_hash r i with Ok h => h | Err _ => None end.

Lemma release_all_wp r ids e :
  enc_inv sz e -> sized sz r -> (forall i, i ∈ ids -> 0 <= i < zlen (mm_features r)) ->
  wp (forM_ ids (free_encoder_input r)) (fun _ e' =>
    enc_inv sz e' /\ refs_without (map (hash_at r) ids) (request_id r) (enc_cached e) (enc_cached e') /\
    enc_num_free_slots e' = enc_num_free_slots e /\ enc_cache_size e' = enc_cache_size e /\
    enc_freed e' = enc_freed e) e.
Proof.
  intros Hi Hs Hids.
  apply (wp_forM_ (fun dn td e' =>
    (forall i, i ∈ td -> 0 <= i < zlen (mm_features r)) /\
    enc_inv sz e' /\ refs_without (map (hash_at r) dn) (request_id r) (enc_cached e) (enc_cached e') /\
    enc_num_free_slots e' = enc_num_free_slots e /\ enc_cache_size e' = enc_cache_size e /\
    enc_freed e' = enc_freed e) _ []).
  - split_and!; try done. intros h. by destruct (enc_cached e !! h).
  - intros dn i td e' (Htd & Hi' & Hr & Hf & Hc & Hd).
    pose proof (Htd i ltac:(left)) as Hb. unfold zlen in Hb.
    destruct (lookup_lt_is_Some_2 (mm_features r) (Z.to_nat i) ltac:(lia)) as [f Hfi].
    eapply wp_mono; [apply free_encoder_input_wp; [done|done|lia|done]|]. intros [] e'' ->.
    destruct (released_frame (identifier f) (request_id r) e') as (-> & -> & ->).
    split_and!; try done.
    + intros j Hj. apply Htd. by right.
    + by apply released_inv.
    + rewrite map_app. simpl. unfold hash_at at 2. destruct (feature_reads sz r i f Hs ltac:(lia) Hfi) as [-> _].
      by apply released_refs.
  - by intros e' (_ & ?).
Qed.

Lemma enc_free_wp set_order r e :
  (forall l, set_order l ≡ₚ l) -> enc_inv sz e -> sized sz r ->
  wp (enc_free set_order r) (fun _ e' =>
    enc_inv sz e' /\
    refs_without (map identifier (mm_features r)) (request_id r) (enc_cached e) (enc_cached e') /\
    enc_num_free_slots e' = enc_num_free_slots e /\ enc_cache_size e' = enc_cache_size e /\
    enc_freed e' = enc_freed e) e.
Proof.
  intros Ho Hi Hs. unfold enc_free. wp_steps. set (ids := get_cached_input_ids r e).
  assert (forall i, i ∈ set_order ids -> 0 <= i < zlen (mm_features r)) as Hids.
  { intros i. rewrite (Ho ids). unfold ids, get_cached_input_ids.
    rewrite list_elem_of_filter, elem_of_zrange. by intros [_ ?]. }
  eapply wp_mono; [by apply release_all_wp|]. intros [] e' (Hi' & Hr & Hrest). split_and!; try done; try apply Hrest.
  intros h. rewrite (Hr h). destruct (enc_cached e !! h) as [refs|] eqn:Hc; simpl; [|done]. f_equal.
  assert (h ∈ map (hash_at r) (set_order ids) <-> h ∈ map identifier (mm_features r)) as Hiff;
    [|by repeat case_decide; naive_solver].
  rewrite !list_elem_of_fmap. split.
  - intros (i & -> & Hin). pose proof (Hids i Hin) as Hb. unfold zlen in Hb.
    destruct (lookup_lt_is_Some_2 (mm_features r) (Z.to_nat i) ltac:(lia)) as [f Hfi].
    exists f. split; [|by eapply list_elem_of_lookup_2]. unfold hash_at.
    by destruct (feature_reads sz r i f Hs ltac:(lia) Hfi) as [-> _].
  - intros (f & -> & (i & Hfi)%list_elem_of_lookup_1). exists (Z.of_nat i).
    destruct (feature_reads sz r (Z.of_nat i) f Hs ltac:(lia) ltac:(by rewrite Nat2Z.id)) as [Hh _].
    unfold hash_at. rewrite Hh. split; [done|]. rewrite (Ho ids). unfold ids, get_cached_input_ids.
    rewrite list_elem_of_filter, elem_of_zrange. unfold input_is_cached. rewrite Hh, Hc.
    rewrite bool_decide_true by done. pose proof (lookup_lt_Some _ _ _ Hfi). split; [done|]. unfold zlen. lia.
Qed.

Lemma enc_reset_wp e : wp enc_reset (fun _ e' => e' = encoder_cache_init (enc_cache_size e)) e.
Proof. unfold enc_reset. by wp_steps. Qed.
End Ops.

(** * Properties of the encoder cache managers: the accounting invariant over all
    reachable states, what [can_allocate] promises, and what [free] releases. *)
Local Open Scope Z_scope.

(** ** Reachable states *)

Section Steps.
Context (sz : mm_hash -> Z) (set_order : list Z -> list Z).

(** What a client may call: inputs of requests whose items have their sizes, and
    [allocate] only for an input that is not cached and fits. *)
Inductive enc_call : M EncoderCacheManager unit -> EncoderCacheManager -> Prop :=
  | call_check r i f e : sized sz r -> 0 <= i -> mm_features r !! Z.to_nat i = Some f ->
      enc_call (check_and_update_cache r i ;; mret tt) e
  | call_can_allocate r i f budget scheduled e :
      sized sz r -> 0 <= i -> mm_features r !! Z.to_nat i = Some f ->
      enc_call (can_allocate r i budget scheduled ;; mret tt) e
  | call_allocate r i f e : sized sz r -> 0 <= i -> mm_features r !! Z.to_nat i = Some f ->
      enc_cached e !! identifier f = None -> sz (identifier f) <= enc_num_free_slots e ->
      enc_call (enc_allocate r i) e
  | call_free_input r i f e : sized sz r -> 0 <= i -> mm_features r !! Z.to_nat i = Some f ->
      enc_call (free_encoder_input r i) e
  | call_free r e : sized sz r -> enc_call (enc_free set_order r) e
  | call_get_freed e : enc_call (get_freed_mm_hashes ;; mret tt) e
  | call_reset e : enc_call enc_reset e.

Inductive enc_reachable (size : Z) : EncoderCacheManager -> Prop :=
  | reach_init : enc_reachable size (encoder_cache_init size)
  | reach_call e m : enc_reachable size e -> enc_call m e -> enc_reachable size (snd (m e)).

Context (Hsz : forall h, 0 <= sz h) (Horder : forall l, set_order l ≡ₚ l).

Lemma enc_call_wp m e size :
  enc_call m e -> enc_inv sz e -> enc_cache_size e = size -> 0 <= size ->
  wp m (fun _ e' => enc_inv sz e' /\ enc_cache_size e' = size) e.
Proof.
  intros Hcall Hi Hsize H0.
  destruct Hcall as [r i f e Hs Hp Hf|r i f b s e Hs Hp Hf|r i f e Hs Hp Hf Hc Hle|r i f e Hs Hp Hf|r e Hs|e|e].
  - apply wp_bind. eapply wp_mono; [by eapply check_and_update_cache_wp|]. intros b e' Hb. wp_steps.
    destruct (enc_cached e !! identifier f) as [refs|] eqn:Hc; destruct Hb as [_ ->]; [|done].
    by split; [apply referenced_inv|].
  - apply wp_bind. eapply wp_mono; [by eapply can_allocate_wp|]. intros b' e' (Hi' & _ & _ & _ & ev & Hev & _).
    wp_steps. split; [done|]. by destruct Hev as (_ & _ & _ & _ & _ & ->).
  - eapply wp_mono; [by eapply enc_allocate_wp|]. intros [] e' ->. by split; [apply allocated_inv|].
  - eapply wp_mono; [by eapply free_encoder_input_wp|]. intros [] e' ->.
    destruct (released_frame sz (identifier f) (request_id r) e) as (_ & -> & _).
    by split; [apply released_inv|].
  - eapply wp_mono; [by eapply enc_free_wp|]. intros [] e' (Hi' & _ & _ & -> & _). done.
  - unfold get_freed_mm_hashes. wp_steps. split; [|done]. by destruct Hi; constructor.
  - eapply wp_mono; [apply enc_reset_wp|]. intros [] e' ->. rewrite Hsize. split; [|done].
    by apply encoder_cache_init_inv.
Qed.

Lemma enc_reachable_inv size e :
  0 <= size -> enc_reachable size e -> enc_inv sz e /\ enc_cache_size e = size.
Proof.
  intros H0. induction 1 as [|e m _ [Hi Hsize] Hcall].
  - split; [by apply encoder_cache_init_inv|done].
  - pose proof (enc_call_wp m e size Hcall Hi Hsize H0) as Hw.
    apply wp_run in Hw as (u & e' & -> & Hw). exact Hw.
Qed.
End Steps.

(** C39: in every reachable state of the encoder cache, the free slots and the
    entries' sizes add up to the capacity, the evictable entries are exactly
    those no request refers to, [num_freeable_slots] is what evicting them all
    would leave free, and the next call a client may make ([enc_call]: items of the
    sizes accounted for, and an item is allocated when it is not cached and fits in the
    free slots) does not raise. *)
Theorem encoder_cache_accounting sz set_order size e :
  (forall h, 0 <= sz h) -> (forall l, set_order l ≡ₚ l) -> 0 <= size ->
  enc_reachable sz set_order size e ->
  enc_num_free_slots e + used sz (enc_cached e) = size /\
  0 <= enc_num_free_slots e <= enc_num_freeable_slots e /\ enc_num_freeable_slots e <= size /\
  enc_num_freeable_slots e = enc_num_free_slots e + sum_sizes (enc_freeable e) /\
  (forall h, h ∈ map fst (enc_freeable e) <-> enc_cached e !! h = Some ∅) /\
  (forall m, enc_call sz set_order m e -> exists e', m e = (Ok tt, e')).
Proof.
  intros Hsz Ho H0 Hr. destruct (enc_reachable_inv sz set_order Hsz Ho size e H0 Hr) as [Hi Hsize].
  pose proof (reclaimable_ge_free sz e Hi). pose proof (ei_space _ _ Hi). pose proof (ei_free _ _ Hi).
  pose proof (ei_reclaimable _ _ Hi).
  assert (sum_sizes (enc_freeable e) <= used sz (enc_cached e)).
  { apply freeable_le_used; [done|apply Hi|]. intros h n. by apply (ei_unreferenced _ _ Hi). }
  split; [lia|]. split; [lia|]. split; [lia|]. split; [lia|]. split.
  - intros h. by apply (freeable_keys sz).
  - intros m Hm. pose proof (enc_call_wp sz set_order Hsz Ho m e size Hm Hi Hsize H0) as Hw.
    apply wp_run in Hw as ([] & e' & -> & _). by exists e'.
Qed.

(** A request with two images of three and two embeddings. *)
Definition two_images : Request :=
  set_mm_features (fun _ =>
    [mkFeature (Some "img0"%string) "image" (mkPlaceholderRange 0 3 None);
     mkFeature (Some "img1"%string) "image" (mkPlaceholderRange 4 2 None)])
    (bare_request "v" [1; 1; 1; 2; 1; 1]).
Definition image_size (h : mm_hash) : Z := if decide (h = Some "img0"%string) then 3 else 2.

Lemma two_images_sized : sized image_size two_images.
Proof.
  intros f Hf. apply list_elem_of_In in Hf. destruct Hf as [<-|[<-|[]]]; reflexivity.
Qed.

(** The first image is cached and referenced, then released. *)
Definition encoder_sample : EncoderCacheManager :=
  snd (enc_free (fun l => l) two_images (snd (enc_allocate two_images 0 (encoder_cache_init 4)))).

Lemma encoder_sample_reachable : enc_reachable image_size (fun l => l) 4 encoder_sample.
Proof.
  unfold encoder_sample. apply (reach_call _ _ _ _ (enc_free (fun l => l) two_images)).
  - apply (reach_call _ _ _ _ (enc_allocate two_images 0)); [constructor|].
    eapply call_allocate; [apply two_images_sized|lia|reflexivity|reflexivity|].
    vm_compute. discriminate.
  - apply call_free, two_images_sized.
Qed.

Lemma image_size_nonneg h : 0 <= image_size h.
Proof. unfold image_size. case_decide; lia. Qed.

Lemma encoder_cache_accounting_witness :
  enc_num_free_slots encoder_sample = 1 /\ enc_num_freeable_slots encoder_sample = 4 /\
  enc_num_free_slots encoder_sample + used image_size (enc_cached encoder_sample) = 4.
Proof.
  split; [reflexivity|]. split; [reflexivity|].
  apply (encoder_cache_accounting image_size (fun l => l) 4 encoder_sample image_size_nonneg
    (fun l => reflexivity l) ltac:(lia) encoder_sample_reachable).
Defined.

(** ** Admission *)

(** [can_allocate] answers yes exactly when the item is within the compute
    budget and fits, with what is already promised, into the reclaimable space.
    It evicts only entries without references, oldest first, no more than needed,
    and reports them; when it says yes, [allocate] of an item that is not cached
    then takes a slot for each of its embeddings and does not raise. *)
Theorem can_allocate_spec sz r i f budget scheduled e :
  enc_inv sz e -> sized sz r -> 0 <= i -> mm_features r !! Z.to_nat i = Some f -> 0 <= scheduled ->
  let n := sz (identifier f) in
  exists b e' ev,
    can_allocate r i budget scheduled e = (Ok b, e') /\
    (b = true <-> n <= budget /\ n + scheduled <= enc_num_freeable_slots e) /\
    (b = false -> e' = e) /\
    enc_freeable e = ev ++ enc_freeable e' /\ enc_freed e' = enc_freed e ++ map fst ev /\
    (forall ev' kv, ev = ev' ++ [kv] -> enc_num_free_slots e + sum_sizes ev' < n + scheduled) /\
    (forall h refs, refs <> ∅ -> enc_cached e !! h = Some refs -> enc_cached e' !! h = Some refs) /\
    (b = true -> enc_cached e' !! identifier f = None ->
     enc_allocate r i e' = (Ok tt, allocated sz (identifier f) (request_id r) e')).
Proof.
  intros Hi Hs H0 Hf Hsch n.
  pose proof (can_allocate_wp sz r i f budget scheduled e Hi Hs H0 Hf) as Hw.
  apply wp_run in Hw as (b & e' & Hr & Hi' & Hb & Hno & Hyes & ev & Hev & Hmin).
  exists b, e', ev. destruct Hev as (Hfr & Hc & Hfd & Hslots & Hrec & Hsize).
  split; [done|]. split; [exact Hb|]. do 4 (split; [done|]). split.
  - intros h refs Hne Hh. rewrite Hc. apply foldl_delete_lookup; [done|].
    intros Hin. assert (h ∈ map fst (enc_freeable e)) as Hin'.
    { rewrite Hfr, map_app. apply elem_of_app. by left. }
    apply (freeable_keys sz e h Hi) in Hin'. congruence.
  - intros Ht Hnc. specialize (Hyes Ht). fold n in Hyes.
    assert (Hw : wp (enc_allocate r i) (fun _ e2 => e2 = allocated sz (identifier f) (request_id r) e') e').
    { apply (enc_allocate_wp sz r i f e'); try done. fold n. lia. }
    apply wp_run in Hw as ([] & e2 & -> & ->). done.
Qed.

(** The image of two embeddings is evicted to make room for the other. *)
Definition other_image : Request :=
  set_mm_features (fun _ => [mkFeature (Some "img2"%string) "image" (mkPlaceholderRange 0 2 None)])
    (bare_request "w" [1; 1]).

Lemma can_allocate_spec_witness :
  exists b e' (ev : list (mm_hash * Z)), can_allocate other_image 0 8 0 encoder_sample = (Ok b, e') /\ b = true /\
    enc_freed e' = [Some "img0"%string] /\ enc_freed e' = enc_freed encoder_sample ++ map fst ev.
Proof.
  assert (enc_inv image_size encoder_sample) as Hi.
  { apply (enc_reachable_inv image_size (fun l => l) image_size_nonneg (fun l => reflexivity l) 4);
      [lia|apply encoder_sample_reachable]. }
  assert (sized image_size other_image) as Hs.
  { intros f Hf. apply list_elem_of_In in Hf. destruct Hf as [<-|[]]. reflexivity. }
  destruct (can_allocate_spec image_size other_image 0 _ 8 0 encoder_sample Hi Hs ltac:(lia) eq_refl ltac:(lia))
    as (b & e' & ev & Hr & _ & _ & _ & Hfd & _).
  exists b, e', ev. split; [exact Hr|]. vm_compute in Hr. injection Hr as <- <-.
  split; [reflexivity|]. split; [reflexivity|exact Hfd].
Defined.

(** [free] drops the request's references on all of its items, whatever the
    order in which Python iterates over the set of input ids, and changes nothing
    else that a request can observe. *)
Theorem encoder_free_spec sz set_order r e :
  (forall l, set_order l ≡ₚ l) -> enc_inv sz e -> sized sz r ->
  exists e', enc_free set_order r e = (Ok tt, e') /\ enc_inv sz e' /\
    (forall h, enc_cached e' !! h =
       (fun refs => if decide (h ∈ map identifier (mm_features r))
                    then refs ∖ {[request_id r]} else refs) <$> enc_cached e !! h) /\
    enc_num_free_slots e' = enc_num_free_slots e /\ enc_freed e' = enc_freed e.
Proof.
  intros Ho Hi Hs. pose proof (enc_free_wp sz set_order r e Ho Hi Hs) as Hw.
  apply wp_run in Hw as ([] & e' & Hr & Hi' & Hrefs & Hfree & _ & Hfd). by exists e'.
Qed.

Lemma encoder_free_spec_witness :
  let e := snd (enc_allocate two_images 0 (encoder_cache_init 4)) in
  exists e', enc_free (fun l => l) two_images e = (Ok tt, e') /\ enc_cached e' !! Some "img0"%string = Some ∅.
Proof.
  intros e. assert (enc_inv image_size e) as Hi.
  { apply (enc_reachable_inv image_size (fun l => l) image_size_nonneg (fun l => reflexivity l) 4); [lia|].
    apply (reach_call _ _ _ _ (enc_allocate two_images 0)); [constructor|].
    eapply call_allocate; [apply two_images_sized|lia|reflexivity|reflexivity|].
    vm_compute. discriminate. }
  destruct (encoder_free_spec image_size (fun l => l) two_images e (fun l => reflexivity l) Hi two_images_sized)
    as (e' & Hr & _ & Hc & _).
  exists e'. split; [exact Hr|]. rewrite Hc. reflexivity.
Defined.

(** ** The budget *)

Lemma py_max_ge x l y : y ∈ x :: l -> y <= py_max x l.
Proof.
  unfold py_max. revert x y. induction l as [|z l IH]; intros x y; simpl.
  - intros ->%list_elem_of_singleton. lia.
  - specialize (IH (Z.max x z)). pose proof (IH (Z.max x z) ltac:(left)).
    intros [-> | [-> | Hy]%elem_of_cons]%elem_of_cons; [lia|lia|]. apply IH. by right.
Qed.

(** Both budgets hold the largest item, so that every single item can be
    scheduled by an empty step and stored in an empty cache. *)
Lemma encoder_budget_fits_items cfg items c s :
  compute_mm_encoder_budget cfg items = Ok (c, s) ->
  forall m n, (m, n) ∈ items -> n <= c /\ n <= s.
Proof.
  unfold compute_mm_encoder_budget. intros Hc m n Hin.
  apply (list_elem_of_fmap_2 snd) in Hin. change (snd <$> items) with (map snd items) in Hin. simpl in Hin.
  destruct (map snd items) as [|x l]; [by apply elem_of_nil in Hin|]. apply py_max_ge in Hin.
  destruct (_ && _); [done|]. injection Hc as <- <-. lia.
Qed.

(** ** The encoder-decoder variant *)

Lemma ed_free_encoder_input_run r i n e :
  get_num_encoder_embeds r i = Ok n -> ed_free_encoder_input r i e = (Ok tt, ed_add_slots n e).
Proof. intros Hn. unfold ed_free_encoder_input, mbind, M_bind, lift_res. by rewrite Hn. Qed.

Lemma ed_release_many r i n k e :
  get_num_encoder_embeds r i = Ok n ->
  let e' := snd (forM_ (replicate k i) (ed_free_encoder_input r) e) in
  ed_num_free_slots e' = ed_num_free_slots e + Z.of_nat k * n /\ ed_cache_size e' = ed_cache_size e.
Proof.
  intros Hn. revert e. induction k as [|k IH]; intros e; simpl; [lia|].
  unfold mbind, M_bind. rewrite (ed_free_encoder_input_run r i n e Hn).
  destruct (IH (ed_add_slots n e)) as [-> ->]. simpl. lia.
Qed.

(** Releasing the encoder input of an encoder-decoder request is not
    idempotent: the manager keeps no references, so that every further release
    of the same input adds its size to the free slots once more, and the count
    passes the capacity. *)
Theorem encdec_release_overcounts r i n k e :
  get_num_encoder_embeds r i = Ok n -> 0 < n -> ed_num_free_slots e = ed_cache_size e ->
  let e1 := snd (ed_allocate r i e) in
  let e2 := snd (forM_ (replicate k i) (ed_free_encoder_input r) e1) in
  ed_num_free_slots e2 = ed_cache_size e2 + (Z.of_nat k - 1) * n.
Proof.
  intros Hn Hpos Hfull e1 e2.
  assert (ed_num_free_slots e1 = ed_cache_size e1 - n) as H1.
  { subst e1. unfold ed_allocate, mbind, M_bind, lift_res. rewrite Hn. simpl.
    destruct (feature_hash r i); simpl; lia. }
  subst e2. destruct (ed_release_many r i n k e1 Hn) as [-> ->]. lia.
Qed.

Lemma encdec_release_overcounts_witness :
  let e1 := snd (ed_allocate two_images 0 (ed_init 10)) in
  let e2 := snd (forM_ (replicate 5 0) (ed_free_encoder_input two_images) e1) in
  ed_num_free_slots e2 = 22 /\ ed_num_free_slots e2 = ed_cache_size e2 + (5 - 1) * 3.
Proof.
  intros e1 e2. split; [reflexivity|].
  apply (encdec_release_overcounts two_images 0 3 5 (ed_init 10)); [reflexivity|lia|reflexivity].
Defined.
