(* ===== verification/RequestQueue.v ===== *)
(** The waiting queues ([vllm/v1/core/sched/request_queue.py]).

    [RequestQueue] is an abstract class with two implementations, a deque and a
    binary heap kept by the functions of Python's [heapq]; here it is the class of
    operations [RequestQueueOps] with the two instances, and the sum
    [RequestQueue] that [create_request_queue] returns.  A queue holds references
    to request objects; [lt] is [Request.__lt__] on them. *)
From S2P Require Import Prelude.

Section Heapq.
Context {A : Type} (lt : A -> A -> bool).
Implicit Types heap : list A.

(** [heapq._siftdown(heap, startpos, pos)] with [newitem = heap[pos]]. *)
Fixpoint siftdown_loop (fuel : nat) heap (newitem : A) (startpos pos : nat) : list A :=
  match fuel with
  | O => <[pos := newitem]> heap
  | S fuel' =>
      if decide (startpos < pos)%nat then
        let parentpos := Nat.div2 (pos - 1) in
        match heap !! parentpos with
        | Some parent =>
            if lt newitem parent then siftdown_loop fuel' (<[pos := parent]> heap) newitem startpos parentpos
            else <[pos := newitem]> heap
        | None => <[pos := newitem]> heap
        end
      else <[pos := newitem]> heap
  end.

(** The position at least halves, so that [pos] rounds are enough. *)
Definition siftdown heap (startpos pos : nat) : list A :=
  match heap !! pos with
  | Some newitem => siftdown_loop pos heap newitem startpos pos
  | None => heap
  end.

(** The child that [heapq._siftup] moves up. *)
Definition smaller_child heap (childpos : nat) : nat :=
  match heap !! childpos, heap !! (childpos + 1)%nat with
  | Some l, Some r => if lt l r then childpos else (childpos + 1)%nat
  | _, _ => childpos
  end.

(** The loop of [heapq._siftup(heap, pos)]: it moves the smaller child up until
    it reaches a leaf, and returns the position of the hole. *)
Fixpoint siftup_loop (fuel : nat) heap (pos : nat) : list A * nat :=
  match fuel with
  | O => (heap, pos)
  | S fuel' =>
      let childpos := (2 * pos + 1)%nat in
      if decide (childpos < length heap)%nat then
        let childpos := smaller_child heap childpos in
        match heap !! childpos with
        | Some c => siftup_loop fuel' (<[pos := c]> heap) childpos
        | None => (heap, pos)
        end
      else (heap, pos)
  end.

(** The position at least doubles, so that [length heap] rounds are enough. *)
Definition siftup heap (pos : nat) : list A :=
  match heap !! pos with
  | Some newitem =>
      let '(heap', pos') := siftup_loop (length heap) heap pos in
      siftdown (<[pos' := newitem]> heap') pos pos'
  | None => heap
  end.

(** [heapq.heappush] *)
Definition heappush heap (item : A) : list A := siftdown (heap ++ [item]) 0 (length heap).

(** [heapq.heappop] *)
Definition heappop heap : res (A * list A) :=
  match last heap with
  | None => Err IndexError
  | Some lastelt =>
      match removelast heap with
      | [] => Ok (lastelt, [])
      | (returnitem :: _) as heap' => Ok (returnitem, siftup (<[0%nat := lastelt]> heap') 0)
      end
  end.

(** [heapq.heapify]: [for i in reversed(range(n // 2))]. *)
Definition heapify heap : list A := foldl siftup heap (reverse (seq 0 (Nat.div2 (length heap)))).

(** [while heap_copy: yield heapq.heappop(heap_copy)] *)
Fixpoint heap_drain (fuel : nat) heap : list A :=
  match fuel with
  | O => []
  | S fuel' => match heappop heap with Ok (x, heap') => x :: heap_drain fuel' heap' | Err _ => [] end
  end.
End Heapq.

(** ** The queue interface *)

(** The abstract methods; [__bool__] is [0 < len]. *)
Class RequestQueueOps (A Q : Type) := {
  q_empty : Q;
  q_add : (A -> A -> bool) -> A -> Q -> Q;
  q_pop : (A -> A -> bool) -> Q -> res (A * Q);
  q_peek : Q -> res A;
  q_prepend : (A -> A -> bool) -> A -> Q -> Q;
  q_prepend_all : (A -> A -> bool) -> list A -> Q -> Q;
  q_remove : (A -> A -> bool) -> A -> Q -> res Q;
  q_remove_all : (A -> A -> bool) -> list A -> Q -> Q;
  q_len : Q -> nat;
  q_iter : (A -> A -> bool) -> Q -> list A
}.

Section Queues.
Context {A : Type} `{EqDecision A}.

(** [list.remove(x)] and [deque.remove(x)]. *)
Fixpoint py_remove (x : A) (l : list A) : res (list A) :=
  match l with
  | [] => Err ValueError
  | y :: l' => if decide (y = x) then Ok l' else l'' ← py_remove x l' ; Ok (y :: l'')
  end.

(** [FCFSRequestQueue]: a deque. *)
Record FCFSRequestQueue := mkFCFS { deque : list A }.

Definition fcfs_pop (q : FCFSRequestQueue) : res (A * FCFSRequestQueue) :=
  match deque q with [] => Err IndexError | x :: l => Ok (x, mkFCFS l) end.

#[export] Instance fcfs_ops : RequestQueueOps A FCFSRequestQueue := {
  q_empty := mkFCFS [];
  q_add _ x q := mkFCFS (deque q ++ [x]);
  q_pop _ q := fcfs_pop q;
  q_peek q := match deque q with [] => Err IndexError | x :: _ => Ok x end;
  q_prepend _ x q := mkFCFS (x :: deque q);
  q_prepend_all _ xs q := mkFCFS (foldl (fun l x => x :: l) (deque q) xs);
  q_remove _ x q := l ← py_remove x (deque q) ; Ok (mkFCFS l);
  q_remove_all _ xs q := mkFCFS (filter (fun x => x ∉ xs) (deque q));
  q_len q := length (deque q);
  q_iter _ q := deque q
}.

(** [PriorityRequestQueue]: a heap. *)
Record PriorityRequestQueue := mkPriority { heap_ : list A }.

Definition priority_add (lt : A -> A -> bool) (x : A) (q : PriorityRequestQueue) : PriorityRequestQueue :=
  mkPriority (heappush lt (heap_ q) x).

Definition priority_pop (lt : A -> A -> bool) (q : PriorityRequestQueue) : res (A * PriorityRequestQueue) :=
  match heap_ q with
  | [] => Err IndexError
  | _ => xh ← heappop lt (heap_ q) ; Ok (xh.1, mkPriority xh.2)
  end.

#[export] Instance priority_ops : RequestQueueOps A PriorityRequestQueue := {
  q_empty := mkPriority [];
  q_add := priority_add;
  q_pop := priority_pop;
  q_peek q := match heap_ q with [] => Err IndexError | x :: _ => Ok x end;
  q_prepend := priority_add;
  q_prepend_all lt xs q := foldl (fun q x => priority_add lt x q) q xs;
  q_remove lt x q := l ← py_remove x (heap_ q) ; Ok (mkPriority (heapify lt l));
  q_remove_all lt xs q := mkPriority (heapify lt (filter (fun x => x ∉ xs) (heap_ q)));
  q_len q := length (heap_ q);
  q_iter lt q := heap_drain lt (length (heap_ q)) (heap_ q)
}.

(** [SchedulingPolicy] *)
Inductive SchedulingPolicy := FCFS | PRIORITY.

#[export] Instance SchedulingPolicy_eq_dec : EqDecision SchedulingPolicy.
Proof. solve_decision. Defined.

(** A queue of either class, with the method calls dispatched on it. *)
Inductive RequestQueue := Fcfs (q : FCFSRequestQueue) | Prio (q : PriorityRequestQueue).

Definition q_map (f : FCFSRequestQueue -> FCFSRequestQueue) (g : PriorityRequestQueue -> PriorityRequestQueue)
    (q : RequestQueue) : RequestQueue :=
  match q with Fcfs q => Fcfs (f q) | Prio q => Prio (g q) end.

#[export] Instance request_queue_ops : RequestQueueOps A RequestQueue := {
  q_empty := Fcfs q_empty;
  q_add lt x := q_map (q_add lt x) (q_add lt x);
  q_pop lt q := match q with
                | Fcfs q => xq ← q_pop lt q ; Ok (xq.1, Fcfs xq.2)
                | Prio q => xq ← q_pop lt q ; Ok (xq.1, Prio xq.2)
                end;
  q_peek q := match q with Fcfs q => q_peek q | Prio q => q_peek q end;
  q_prepend lt x := q_map (q_prepend lt x) (q_prepend lt x);
  q_prepend_all lt xs := q_map (q_prepend_all lt xs) (q_prepend_all lt xs);
  q_remove lt x q := match q with
                     | Fcfs q => q ← q_remove lt x q ; Ok (Fcfs q)
                     | Prio q => q ← q_remove lt x q ; Ok (Prio q)
                     end;
  q_remove_all lt xs := q_map (q_remove_all lt xs) (q_remove_all lt xs);
  q_len q := match q with Fcfs q => q_len q | Prio q => q_len q end;
  q_iter lt q := match q with Fcfs q => q_iter lt q | Prio q => q_iter lt q end
}.

(** [create_request_queue] *)
Definition create_request_queue (policy : SchedulingPolicy) : RequestQueue :=
  match policy with PRIORITY => Prio q_empty | FCFS => Fcfs q_empty end.

(** [bool(queue)] and [prepend_requests(other)], which iterates over [other]. *)
Definition q_bool {Q} `{RequestQueueOps A Q} (q : Q) : bool := negb (q_len q =? 0)%nat.
Definition prepend_requests (lt : A -> A -> bool) (other q : RequestQueue) : RequestQueue :=
  q_prepend_all lt (q_iter lt other) q.
End Queues.
Arguments FCFSRequestQueue : clear implicits.
Arguments PriorityRequestQueue : clear implicits.
Arguments RequestQueue : clear implicits.
