(* ===== verification/RequestQueueSpec.v ===== *)
(** The binary heap of [heapq]: every operation keeps the elements and restores
    the heap order, for any strict weak order. *)
From S2P Require Import Prelude RequestQueue.
From stdpp Require Import sorting.
From S2P Require Import Request Samples.
(** A strict weak order as a boolean test: [le] is a total preorder. *)
Class StrictWeakOrder {A} (lt : A -> A -> bool) := {
  swo_asym : forall a b, lt a b = true -> lt b a = false;
  swo_trans : forall a b c, lt b a = false -> lt c b = false -> lt c a = false
}.

Section Heap.
Context {A : Type} (lt : A -> A -> bool).
Implicit Types h : list A.

Definition le (a b : A) : Prop := lt b a = false.

Definition child (i j : nat) : Prop := (j = 2 * i + 1 \/ j = 2 * i + 2)%nat.

(** The heap order below the positions from [s] on. *)
Definition heap_from (s : nat) h : Prop :=
  forall i j x y, (s <= i)%nat -> child i j -> h !! i = Some x -> h !! j = Some y -> le x y.

Definition is_heap h : Prop := heap_from 0 h.

(** [p] is [s] or below it. *)
Inductive below (s : nat) : nat -> Prop :=
  | below_refl : below s s
  | below_child p c : below s p -> child p c -> below s c.

Lemma below_ge s p : below s p -> (s <= p)%nat.
Proof. induction 1 as [|p c _ IH Hc]; [done|]. unfold child in Hc. lia. Qed.

Lemma child_parent i j : child i j <-> (0 < j)%nat /\ Nat.div2 (j - 1) = i.
Proof.
  unfold child. rewrite Nat.div2_div. split.
  - intros [-> | ->]; (split; [lia|]).
    + replace (2 * i + 1 - 1)%nat with (i * 2)%nat by lia. by rewrite Nat.div_mul.
    + replace (2 * i + 2 - 1)%nat with (1 + i * 2)%nat by lia. by rewrite Nat.div_add.
  - intros [Hj <-]. pose proof (Nat.div_mod_eq (j - 1) 2). pose proof (Nat.mod_upper_bound (j - 1) 2). lia.
Qed.

Lemma below_parent s p : below s p -> p <> s -> below s (Nat.div2 (p - 1)) /\ (0 < p)%nat.
Proof.
  intros Hb Hne. destruct Hb as [|q c Hb Hc]; [done|]. apply child_parent in Hc as [? <-]. done.
Qed.

(** ** Elements *)

Lemma insert_swap h p q x v :
  h !! q = Some x -> p <> q -> (p < length h)%nat ->
  <[q := v]> (<[p := x]> h) ≡ₚ <[p := v]> h.
Proof.
  intros Hq Hne Hp. rewrite <-(list_insert_insert_eq h p x v).
  apply Permutation_insert_swap; [by rewrite list_lookup_insert_eq|by rewrite list_lookup_insert_ne].
Qed.

Lemma siftdown_loop_perm fuel h v s p :
  (p < length h)%nat -> siftdown_loop lt fuel h v s p ≡ₚ <[p := v]> h.
Proof.
  revert h p. induction fuel as [|fuel IH]; intros h p Hp; simpl; [done|].
  case_decide as Hsp; [|done]. destruct (h !! Nat.div2 (p - 1)) as [x|] eqn:Hx; [|done].
  destruct (lt v x); [|done]. pose proof (lookup_lt_Some _ _ _ Hx).
  rewrite IH by (rewrite length_insert; done). apply insert_swap; [done| |done].
  intros E. pose proof (Nat.lt_div2 (p - 1)). destruct (decide (p = 1)%nat) as [-> |]; [done|]. lia.
Qed.

Lemma siftdown_perm h s p : siftdown lt h s p ≡ₚ h.
Proof.
  unfold siftdown. destruct (h !! p) as [v|] eqn:Hp; [|done].
  rewrite siftdown_loop_perm by (by eapply lookup_lt_Some). by rewrite list_insert_id.
Qed.

Lemma smaller_child_spec h c :
  smaller_child lt h c = c \/ smaller_child lt h c = (c + 1)%nat /\ (c + 1 < length h)%nat.
Proof.
  unfold smaller_child. destruct (h !! c), (h !! (c + 1)%nat) eqn:Hr; try by left.
  case_match; [by left|]. right. split; [done|]. by eapply lookup_lt_Some.
Qed.

Lemma siftup_loop_perm fuel h p h' p' v :
  siftup_loop lt fuel h p = (h', p') -> (p < length h)%nat ->
  (p' < length h')%nat /\ <[p' := v]> h' ≡ₚ <[p := v]> h.
Proof.
  revert h p. induction fuel as [|fuel IH]; intros h p; simpl; [by intros [= <- <-]|].
  case_decide as Hc; [|by intros [= <- <-]]. set (c := smaller_child lt h _).
  destruct (h !! c) as [x|] eqn:Hx; [|by intros [= <- <-]]. intros Hl Hp.
  assert (c <> p) as Hne by (destruct (smaller_child_spec h (p + (p + 0) + 1)); lia).
  pose proof (lookup_lt_Some _ _ _ Hx).
  apply IH in Hl as [Hp' ->]; [|by rewrite length_insert]. split; [done|]. apply insert_swap; [done|by apply not_eq_sym|done].
Qed.

Lemma siftup_perm h p : siftup lt h p ≡ₚ h.
Proof.
  unfold siftup. destruct (h !! p) as [v|] eqn:Hp; [|done].
  destruct (siftup_loop lt (length h) h p) as [h' p'] eqn:E.
  apply (siftup_loop_perm _ _ _ _ _ v) in E as [Hl E]; [|by eapply lookup_lt_Some].
  rewrite siftdown_perm, E. by rewrite list_insert_id.
Qed.

Lemma heapify_perm h : heapify lt h ≡ₚ h.
Proof.
  unfold heapify. generalize (reverse (seq 0 (Nat.div2 (length h)))). intros ixs. revert h.
  induction ixs as [|i ixs IH]; intros h; simpl; [done|]. by rewrite IH, siftup_perm.
Qed.

Lemma heappush_perm h x : heappush lt h x ≡ₚ x :: h.
Proof. unfold heappush. rewrite siftdown_perm. symmetry. apply Permutation_cons_append. Qed.

Lemma heappop_perm h x h' : heappop lt h = Ok (x, h') -> h ≡ₚ x :: h'.
Proof.
  unfold heappop. destruct h as [|v h _] using rev_ind; [done|].
  rewrite last_snoc, removelast_last. destruct h as [|y h]; [by intros [= -> <-]|].
  intros [= -> <-]. rewrite siftup_perm. simpl. constructor. symmetry. apply Permutation_cons_append.
Qed.

Lemma heappop_total h : h <> [] -> exists x h', heappop lt h = Ok (x, h').
Proof.
  intros Hne. unfold heappop. destruct h as [|v h _] using rev_ind; [done|].
  rewrite last_snoc, removelast_last. destruct h; by eexists _, _.
Qed.

(** ** Order *)

Section Order.
Context {Hswo : StrictWeakOrder lt}.

Lemma le_trans a b c : le a b -> le b c -> le a c.
Proof. unfold le. intros Hab Hbc. by apply (swo_trans a b c). Qed.
Lemma le_refl a : le a a.
Proof. unfold le. destruct (lt a a) eqn:E; [|done]. rewrite <-E at 1. by apply swo_asym. Qed.
Lemma lt_le a b : lt a b = true -> le a b.
Proof. apply swo_asym. Qed.

(** The heap order holds except that the element [v] at [p] may be too small. *)
Definition up_ok (s p : nat) (v : A) h : Prop :=
  (forall i j x y, (s <= i)%nat -> child i j -> j <> p ->
     <[p := v]> h !! i = Some x -> <[p := v]> h !! j = Some y -> le x y) /\
  (forall j x y, p <> s -> child p j -> h !! Nat.div2 (p - 1) = Some x -> h !! j = Some y -> le x y).

Lemma siftdown_loop_heap fuel h v s p :
  (p <= fuel)%nat -> (p < length h)%nat -> below s p -> up_ok s p v h ->
  heap_from s (siftdown_loop lt fuel h v s p).
Proof.
  revert h p. induction fuel as [|fuel IH]; intros h p Hf Hp Hb [Hup Hgp]; simpl.
  { intros i j x y Hi Hc. apply Hup; [done|done|]. unfold child in Hc. lia. }
  pose proof (below_ge s p Hb) as Hge.
  assert (p = s -> heap_from s (<[p := v]> h)) as Hroot.
  { intros -> i j x y Hi Hc. apply Hup; [done|done|]. unfold child in Hc. lia. }
  case_decide as Hsp; [|apply Hroot; lia].
  destruct (below_parent s p Hb ltac:(lia)) as [Hbq Hpos]. set (q := Nat.div2 (p - 1)) in *.
  assert (child q p) as Hqp by (by apply child_parent).
  assert (q < p)%nat as Hqlt by (unfold child in Hqp; lia).
  destruct (lookup_lt_is_Some_2 h q ltac:(lia)) as [x Hx]. rewrite Hx.
  destruct (lt v x) eqn:Hvx.
  - apply IH; [lia|by rewrite length_insert; lia|done|]. split.
    + intros i j a b Hi Hc Hjq. destruct (decide (i = q)) as [-> |Hiq].
      * rewrite list_lookup_insert_eq by (rewrite length_insert; lia). intros [= <-].
        rewrite list_lookup_insert_ne by done. destruct (decide (j = p)) as [-> |Hjp].
        { rewrite list_lookup_insert_eq by done. intros [= <-]. by apply lt_le. }
        rewrite list_lookup_insert_ne by done. intros Hj. apply (le_trans _ x); [by apply lt_le|].
        apply (Hup q j); [done|done|done| |]; by rewrite list_lookup_insert_ne by lia.
      * rewrite !(list_lookup_insert_ne _ q) by done.
        destruct (decide (i = p)) as [-> |Hip].
        { rewrite list_lookup_insert_eq by done. intros [= <-].
          assert (j <> p) by (unfold child in Hc; lia). rewrite list_lookup_insert_ne by done.
          intros Hj. apply (Hgp j); [lia|done|done|done]. }
        assert (j <> p) as Hjp. { intros ->. apply child_parent in Hc as [_ Hc]. done. }
        rewrite !list_lookup_insert_ne by done. intros Ha Hb'.
        apply (Hup i j); [done|done|done| |]; by rewrite list_lookup_insert_ne by done.
    + intros j a b Hqs Hc. destruct (below_parent s q Hbq Hqs) as [Hbr Hqpos].
      set (r := Nat.div2 (q - 1)) in *. assert (child r q) as Hrq by (by apply child_parent).
      pose proof (below_ge s r Hbr). assert (r < q)%nat by (unfold child in Hrq; lia).
      rewrite list_lookup_insert_ne by lia. intros Ha.
      assert (le a x) as Hax.
      { apply (Hup r q); [done|done|lia| |]; by rewrite list_lookup_insert_ne by lia. }
      destruct (decide (j = p)) as [-> |Hjp].
      * rewrite list_lookup_insert_eq by done. by intros [= <-].
      * rewrite list_lookup_insert_ne by done. intros Hj. apply (le_trans _ x); [done|].
        apply (Hup q j); [by apply below_ge|done|done| |]; by rewrite list_lookup_insert_ne by lia.
  - intros i j a b Hi Hc. destruct (decide (j = p)) as [-> |Hjp]; [|by apply Hup].
    assert (i = q) as -> by (apply child_parent in Hc as [_ <-]; done).
    rewrite list_lookup_insert_ne by lia. rewrite list_lookup_insert_eq by done. congruence.
Qed.

Lemma siftdown_heap h s p v :
  h !! p = Some v -> below s p -> up_ok s p v h -> heap_from s (siftdown lt h s p).
Proof.
  intros Hp Hb Hup. unfold siftdown. rewrite Hp.
  apply siftdown_loop_heap; [done|by eapply lookup_lt_Some|done|done].
Qed.

(** The heap order holds around a hole at [p]. *)
Definition hole_ok (s p : nat) h : Prop :=
  (forall i j x y, (s <= i)%nat -> child i j -> i <> p -> j <> p ->
     h !! i = Some x -> h !! j = Some y -> le x y) /\
  (forall j x y, p <> s -> child p j -> h !! Nat.div2 (p - 1) = Some x -> h !! j = Some y -> le x y).

Lemma smaller_child_child h p :
  child p (smaller_child lt h (2 * p + 1)).
Proof. destruct (smaller_child_spec h (2 * p + 1)) as [-> | [-> _]]; unfold child; lia. Qed.

Lemma smaller_child_lt h p :
  (2 * p + 1 < length h)%nat -> (smaller_child lt h (2 * p + 1) < length h)%nat.
Proof. intros Hl. destruct (smaller_child_spec h (2 * p + 1)) as [-> | [-> ?]]; lia. Qed.

Lemma smaller_child_le h p x j y :
  (2 * p + 1 < length h)%nat -> h !! smaller_child lt h (2 * p + 1) = Some x ->
  child p j -> h !! j = Some y -> le x y.
Proof.
  intros Hlen. unfold smaller_child, child.
  destruct (lookup_lt_is_Some_2 h (2 * p + 1) Hlen) as [l Hl]. rewrite Hl.
  replace (2 * p + 1 + 1)%nat with (2 * p + 2)%nat by lia.
  destruct (h !! (2 * p + 2)%nat) as [r|] eqn:Hr; [destruct (lt l r) eqn:E|];
    rewrite ?Hl, ?Hr; intros [= <-] [-> | ->] Hj; simplify_eq;
    first [apply le_refl | by apply lt_le | done].
Qed.

Lemma siftup_loop_hole fuel h s p h' p' :
  siftup_loop lt fuel h p = (h', p') -> (p < length h)%nat -> (length h <= p + fuel)%nat ->
  below s p -> hole_ok s p h ->
  below s p' /\ hole_ok s p' h' /\ (length h' <= 2 * p' + 1)%nat.
Proof.
  revert h p. induction fuel as [|fuel IH]; intros h p; simpl; [intros _ ? ?; lia|].
  replace (p + (p + 0) + 1)%nat with (2 * p + 1)%nat in * by lia.
  case_decide as Hlen; [|intros [= <- <-] ????; split_and!; [done|done|lia]].
  pose proof (smaller_child_child h p) as Hpc. pose proof (smaller_child_lt h p Hlen) as Hc.
  pose proof (smaller_child_le h p) as Hle. set (c := smaller_child lt h (2 * p + 1)) in *.
  destruct (lookup_lt_is_Some_2 h c Hc) as [x Hx]. rewrite Hx. intros Hrun Hp Hf Hb [Hin Hgp].
  assert (p < c)%nat as Hpc' by (unfold child in Hpc; lia).
  eapply (IH _ _ Hrun); [by rewrite length_insert|rewrite length_insert; lia|by eapply below_child|].
  split.
  - intros i j a b Hi Hij Hic Hjc. destruct (decide (i = p)) as [-> |Hip].
    + assert (j <> p) by (unfold child in Hij; lia).
      rewrite list_lookup_insert_eq, list_lookup_insert_ne by done. intros [= <-] Hj.
      by apply (Hle x j b).
    + rewrite (list_lookup_insert_ne _ p i) by done. destruct (decide (j = p)) as [-> |Hjp].
      * rewrite list_lookup_insert_eq by done. intros Ha [= <-].
        assert (p <> s) by (unfold child in Hij; lia).
        apply child_parent in Hij as [_ <-]. by apply (Hgp c).
      * rewrite list_lookup_insert_ne by done. by apply Hin.
  - intros j a b _ Hcj. apply child_parent in Hpc as [_ ->]. rewrite list_lookup_insert_eq by done.
    intros [= <-]. assert (c < j)%nat by (unfold child in Hcj; lia).
    rewrite list_lookup_insert_ne by lia. intros Hj. pose proof (below_ge _ _ Hb).
    apply (Hin c j); try done; lia.
Qed.

Lemma siftup_heap h s : (s < length h)%nat -> heap_from (S s) h -> heap_from s (siftup lt h s).
Proof.
  intros Hs Hh. unfold siftup. destruct (lookup_lt_is_Some_2 h s Hs) as [v Hv]. rewrite Hv.
  destruct (siftup_loop lt (length h) h s) as [h' p'] eqn:E.
  destruct (siftup_loop_perm _ _ _ _ _ v E Hs) as [Hp' _].
  destruct (siftup_loop_hole _ _ s _ _ _ E) as (Hb & [Hin Hgp] & Hleaf);
    [done|lia|constructor| |].
  { split; [|done]. intros i j x y Hi Hc Hne _. apply Hh; [lia|done]. }
  apply (siftdown_heap _ _ _ v); [by rewrite list_lookup_insert_eq|done|]. split.
  - intros i j x y Hi Hc Hj. rewrite list_insert_insert_eq. intros Hx.
    rewrite list_lookup_insert_ne by done. intros Hy.
    assert (i <> p').
    { intros ->. apply lookup_lt_Some in Hy. unfold child in Hc. lia. }
    rewrite list_lookup_insert_ne in Hx by done. by apply (Hin i j).
  - intros j x y _ Hc _ Hy. apply lookup_lt_Some in Hy. rewrite length_insert in Hy. unfold child in Hc. lia.
Qed.

Lemma heapify_heap h : is_heap (heapify lt h).
Proof.
  unfold heapify, is_heap.
  assert (forall k h, (k <= length h)%nat -> heap_from k h -> heap_from 0 (foldl (siftup lt) h (reverse (seq 0 k)))) as Hk.
  { induction k as [|k IH]; intros h0 Hl Hh; [done|].
    rewrite seq_S, reverse_app. simpl. apply IH; [|by apply siftup_heap].
    rewrite (Permutation_length (siftup_perm h0 k)). lia. }
  rewrite Nat.div2_div. pose proof (Nat.div_mod_eq (length h) 2).
  pose proof (Nat.mod_upper_bound (length h) 2).
  apply Hk; [lia|]. intros i j x y Hi Hc _ Hy. apply lookup_lt_Some in Hy. unfold child in Hc. lia.
Qed.

Lemma heappush_heap h x : is_heap h -> is_heap (heappush lt h x).
Proof.
  intros Hh. unfold heappush.
  apply (siftdown_heap _ _ _ x); [rewrite lookup_app_r by lia; by rewrite Nat.sub_diag| |].
  - assert (forall n, below 0 n) as Hb; [|apply Hb].
    intros n. induction (lt_wf n) as [n _ IH]. destruct n as [|n]; [constructor|].
    apply (below_child _ (Nat.div2 n)); [apply IH; pose proof (Nat.div2_decr n n ltac:(lia)); lia|].
    apply child_parent. simpl. rewrite Nat.sub_0_r. split; [lia|done].
  - split.
    + intros i j a b Hi Hc Hne. rewrite (list_lookup_insert_ne _ _ j) by done.
      intros Ha Hb. assert (j < length h)%nat as Hj.
      { apply lookup_lt_Some in Hb. rewrite length_app in Hb. simpl in Hb. lia. }
      assert (i < j)%nat by (unfold child in Hc; lia). rewrite list_lookup_insert_ne in Ha by lia.
      rewrite lookup_app_l in Ha, Hb by lia. by apply (Hh i j).
    + intros j a b _ Hc _ Hb. apply lookup_lt_Some in Hb. rewrite length_app in Hb. simpl in Hb.
      unfold child in Hc. lia.
Qed.

Lemma heap_root_min h x y : is_heap h -> h !! 0%nat = Some x -> y ∈ h -> le x y.
Proof.
  intros Hh Hx [n Hn]%list_elem_of_lookup_1. revert y Hn. induction (lt_wf n) as [n _ IH]. intros y Hy.
  destruct n as [|n]; [simplify_eq; apply le_refl|].
  assert (child (Nat.div2 n) (S n)) as Hc.
  { apply child_parent. simpl. rewrite Nat.sub_0_r. split; [lia|done]. }
  assert (Nat.div2 n < S n)%nat by (pose proof (Nat.div2_decr n n ltac:(lia)); lia).
  pose proof (lookup_lt_Some _ _ _ Hy).
  destruct (lookup_lt_is_Some_2 h (Nat.div2 n) ltac:(lia)) as [z Hz].
  apply (le_trans _ z); [by apply (IH (Nat.div2 n))|]. exact (Hh (Nat.div2 n) (S n) z y (Nat.le_0_l _) Hc Hz Hy).
Qed.

Lemma heappop_heap h x h' :
  is_heap h -> heappop lt h = Ok (x, h') -> is_heap h' /\ h !! 0%nat = Some x.
Proof.
  intros Hh. unfold heappop. destruct h as [|v h _] using rev_ind; [done|].
  rewrite last_snoc, removelast_last. destruct h as [|y h]; [by intros [= <- <-]|].
  intros [= <- <-]. split; [|done]. apply siftup_heap; [simpl; lia|].
  intros i j a b Hi Hc. assert (i < j)%nat by (unfold child in Hc; lia).
  destruct i as [|i]; [lia|]. destruct j as [|j]; [lia|]. simpl. intros Ha Hb.
  pose proof (lookup_lt_Some _ _ _ Hb). pose proof (lookup_lt_Some _ _ _ Ha).
  apply (Hh (S i) (S j)); [lia|done|simpl|simpl]; by rewrite lookup_app_l by lia.
Qed.

Lemma heappop_min h x h' y : is_heap h -> heappop lt h = Ok (x, h') -> y ∈ h -> le x y.
Proof. intros Hh Hpop. by apply heap_root_min, (heappop_heap h x h'). Qed.

Lemma heap_drain_sorted fuel h :
  is_heap h -> (length h <= fuel)%nat ->
  heap_drain lt fuel h ≡ₚ h /\ StronglySorted le (heap_drain lt fuel h).
Proof.
  revert h. induction fuel as [|fuel IH]; intros h Hh Hl.
  { destruct h; simpl in *; [|lia]. split; [done|constructor]. }
  simpl. destruct (decide (h = [])) as [-> |Hne]; [split; [done|constructor]|].
  destruct (heappop_total h Hne) as (x & h' & Hpop). rewrite Hpop.
  pose proof (heappop_perm h x h' Hpop) as Hp. destruct (heappop_heap h x h' Hh Hpop) as [Hh' _].
  pose proof (Permutation_length Hp) as Hlen. simpl in Hlen.
  destruct (IH h' Hh' ltac:(lia)) as [Hp' Hs]. split; [by rewrite Hp', Hp|].
  constructor; [done|]. apply List.Forall_forall. intros y Hy%list_elem_of_In.
  apply (heappop_min h x h'); [done|done|]. rewrite Hp, <-Hp'. by right.
Qed.
End Order.

Lemma heap_drain_perm fuel h : (length h <= fuel)%nat -> heap_drain lt fuel h ≡ₚ h.
Proof.
  revert h. induction fuel as [|fuel IH]; intros h Hl.
  { destruct h; simpl in *; [done|lia]. }
  simpl. destruct (decide (h = [])) as [-> |Hne]; [done|].
  destruct (heappop_total h Hne) as (x & h' & Hpop). rewrite Hpop.
  pose proof (heappop_perm h x h' Hpop) as Hp. pose proof (Permutation_length Hp). simpl in *.
  rewrite IH by lia. by rewrite Hp.
Qed.
End Heap.

(** * Properties of the waiting queues: the multiset contract that the scheduler
    relies on, as a class of laws that the deque, the heap and their sum satisfy,
    and the order in which each policy hands out requests. *)
From Stdlib Require OrderedTypeEx.

(** ** The order of requests *)

Lemma string_ltb_lt s t : String.ltb s t = true <-> OrderedTypeEx.String_as_OT.lt s t.
Proof.
  rewrite <-OrderedTypeEx.String_as_OT.cmp_lt. unfold String.ltb. change (OrderedTypeEx.String_as_OT.cmp s t) with (String.compare s t).
  destruct (String.compare s t); naive_solver.
Qed.

Lemma string_trichotomy s t : s <> t -> String.ltb s t = false -> String.ltb t s = true.
Proof.
  intros Hne. unfold String.ltb. rewrite (String.compare_antisym t s).
  destruct (String.compare s t) eqn:E; simpl; try done. by apply String.compare_eq_iff in E.
Qed.

Lemma string_ltb_asym s t : String.ltb s t = true -> String.ltb t s = false.
Proof.
  unfold String.ltb. rewrite (String.compare_antisym t s). by destruct (String.compare s t).
Qed.

Lemma string_ltb_trans s t u : String.ltb s t = true -> String.ltb t u = true -> String.ltb s u = true.
Proof. rewrite !string_ltb_lt. apply OrderedTypeEx.String_as_OT.lt_trans. Qed.

#[export] Instance Z_ltb_swo : StrictWeakOrder Z.ltb.
Proof. constructor; intros; lia. Qed.

#[export] Instance string_ltb_swo : StrictWeakOrder String.ltb.
Proof.
  constructor; [apply string_ltb_asym|]. intros s t u Hst Htu.
  destruct (String.ltb u s) eqn:Hus; [|done].
  destruct (decide (s = t)) as [-> |Hne]; [congruence|].
  destruct (decide (t = u)) as [-> |Hne']; [congruence|].
  apply string_trichotomy in Hst, Htu; [|done..].
  rewrite (string_ltb_asym s u) in Hus; [done|]. by eapply string_ltb_trans.
Qed.

(** Comparing by a key, and lexicographically by two orders. *)
#[export] Instance swo_on {A B} (f : A -> B) (lt : B -> B -> bool) :
  StrictWeakOrder lt -> StrictWeakOrder (fun a b => lt (f a) (f b)).
Proof. intros [Ha Ht]. constructor; [intros ??; apply Ha|intros ???; apply Ht]. Qed.

Definition lex {A} (lt1 lt2 : A -> A -> bool) (a b : A) : bool :=
  if lt1 a b then true else if lt1 b a then false else lt2 a b.

#[export] Instance swo_lex {A} (lt1 lt2 : A -> A -> bool) :
  StrictWeakOrder lt1 -> StrictWeakOrder lt2 -> StrictWeakOrder (lex lt1 lt2).
Proof.
  intros [Ha1 Ht1] [Ha2 Ht2]. unfold lex. constructor.
  - intros a b. destruct (lt1 a b) eqn:E; [by rewrite (Ha1 _ _ E)|]. destruct (lt1 b a); [done|]. apply Ha2.
  - intros a b c. pose proof (Ht1 a b c) as H1. pose proof (Ht1 c b a) as H2.
    pose proof (Ht1 b c a) as H3. pose proof (Ht1 c a b) as H4. pose proof (Ht1 a c b) as H5. pose proof (Ht1 b a c) as H6.
    destruct (lt1 b a), (lt1 a b), (lt1 c b), (lt1 b c), (lt1 c a), (lt1 a c);
      try done; try (by discriminate H1); try (by discriminate H2); try (by discriminate H3);
      try (by discriminate H4); try (by discriminate H5); try (by discriminate H6); auto;
      try (by specialize (H1 eq_refl eq_refl)); try (by specialize (H2 eq_refl eq_refl));
      try (by specialize (H3 eq_refl eq_refl)); try (by specialize (H4 eq_refl eq_refl));
      try (by specialize (H5 eq_refl eq_refl)); try (by specialize (H6 eq_refl eq_refl)); apply Ht2.
Qed.

(** [Request.__lt__] is the lexicographic order on priority, arrival time,
    request id and object identity. *)
Lemma request_lt_lex py_id a b :
  request_lt py_id a b =
  lex (fun a b => priority a <? priority b)%Z
    (lex (fun a b => arrival_time a <? arrival_time b)%Z
      (lex (fun a b => String.ltb (request_id a) (request_id b))
        (fun a b => py_id a <? py_id b)%Z)) a b.
Proof.
  unfold request_lt, lex.
  destruct (priority a =? priority b)%Z eqn:E1; simpl.
  2: { destruct (priority a <? priority b)%Z eqn:?, (priority b <? priority a)%Z eqn:?; try done; lia. }
  replace (priority a <? priority b)%Z with false by lia. replace (priority b <? priority a)%Z with false by lia.
  destruct (arrival_time a =? arrival_time b)%Z eqn:E2; simpl.
  2: { destruct (arrival_time a <? arrival_time b)%Z eqn:?, (arrival_time b <? arrival_time a)%Z eqn:?; try done; lia. }
  replace (arrival_time a <? arrival_time b)%Z with false by lia.
  replace (arrival_time b <? arrival_time a)%Z with false by lia.
  destruct (String.eqb_spec (request_id a) (request_id b)) as [E3|E3]; simpl.
  - rewrite E3. destruct (String.ltb (request_id b) (request_id b)) eqn:E; [|done].
    by rewrite (string_ltb_asym _ _ E) in E.
  - destruct (String.ltb (request_id a) (request_id b)) eqn:E; [done|].
    by rewrite (string_trichotomy _ _ E3 E).
Qed.

#[export] Instance request_lt_swo py_id : StrictWeakOrder (request_lt py_id).
Proof.
  assert (StrictWeakOrder (lex (fun a b => priority a <? priority b)%Z
    (lex (fun a b => arrival_time a <? arrival_time b)%Z
      (lex (fun a b => String.ltb (request_id a) (request_id b))
        (fun a b => py_id a <? py_id b)%Z)))) as [Ha Ht].
  { apply swo_lex; [apply (swo_on priority), _|]. apply swo_lex; [apply (swo_on arrival_time), _|].
    apply swo_lex; [apply (swo_on request_id), _|apply (swo_on py_id), _]. }
  constructor; intros; rewrite request_lt_lex in *; eauto.
Qed.

(** ** The multiset contract *)

Section Contract.
Context {A : Type} `{EqDecision A}.

(** What every queue class promises whatever its policy: each operation adds or
    removes exactly the requests it is asked to, and raises exactly on an empty
    queue or an absent request. *)
Class RequestQueueLaws (Q : Type) `{RequestQueueOps A Q} (items : Q -> list A) := {
  ql_empty : items q_empty = [];
  ql_len q : q_len q = length (items q);
  ql_iter lt q : q_iter lt q ≡ₚ items q;
  ql_add lt x q : items (q_add lt x q) ≡ₚ x :: items q;
  ql_prepend lt x q : items (q_prepend lt x q) ≡ₚ x :: items q;
  ql_prepend_all lt xs q : items (q_prepend_all lt xs q) ≡ₚ xs ++ items q;
  ql_peek_empty q : items q = [] -> q_peek q = Err IndexError;
  ql_pop_empty lt q : items q = [] -> q_pop lt q = Err IndexError;
  ql_pop lt q : items q <> [] ->
    exists x q', q_pop lt q = Ok (x, q') /\ q_peek q = Ok x /\ items q ≡ₚ x :: items q';
  ql_remove lt x q : x ∈ items q -> exists q', q_remove lt x q = Ok q' /\ items q ≡ₚ x :: items q';
  ql_remove_absent lt x q : x ∉ items q -> q_remove lt x q = Err ValueError;
  ql_remove_all lt xs q : items (q_remove_all lt xs q) ≡ₚ filter (fun x => x ∉ xs) (items q)
}.

Lemma py_remove_in (x : A) l : x ∈ l -> exists l', py_remove x l = Ok l' /\ l ≡ₚ x :: l'.
Proof.
  induction l as [|y l IH]; [by intros ?%elem_of_nil|]. simpl. case_decide as E.
  - subst. intros _. by exists l.
  - intros [-> | Hin]%elem_of_cons; [done|]. destruct (IH Hin) as (l' & -> & Hp).
    exists (y :: l'). split; [done|]. rewrite Hp. apply perm_swap.
Qed.

Lemma py_remove_notin (x : A) l : x ∉ l -> py_remove x l = Err ValueError.
Proof.
  induction l as [|y l IH]; [done|]. simpl. intros [Hy Hl]%not_elem_of_cons.
  rewrite decide_False by done. by rewrite IH.
Qed.

#[export] Instance fcfs_laws : RequestQueueLaws (FCFSRequestQueue A) (@deque A).
Proof.
  constructor; intros; simpl in *; try done.
  - symmetry. apply Permutation_cons_append.
  - revert q. induction xs as [|x xs IH]; intros [l]; simpl; [done|].
    rewrite (IH (mkFCFS (x :: l))). simpl. by rewrite Permutation_middle.
  - by destruct q as [[]].
  - by destruct q as [[]].
  - destruct q as [[|x l]]; [done|]. by exists x, (mkFCFS l).
  - destruct (py_remove_in x (deque q)) as (l' & -> & Hp); [done|]. by exists (mkFCFS l').
  - by rewrite py_remove_notin.
Qed.

Lemma priority_pop_heappop lt (q : PriorityRequestQueue A) :
  heap_ q <> [] -> exists x h, heappop lt (heap_ q) = Ok (x, h) /\ priority_pop lt q = Ok (x, mkPriority h).
Proof.
  intros Hne. destruct (heappop_total lt (heap_ q) Hne) as (x & h & Hpop). exists x, h. split; [done|].
  unfold priority_pop. rewrite Hpop. by destruct (heap_ q).
Qed.

Lemma heappop_head lt h (x : A) h' : heappop lt h = Ok (x, h') -> h !! 0%nat = Some x.
Proof.
  unfold heappop. destruct h as [|v h _] using rev_ind; [done|].
  rewrite last_snoc, removelast_last. destruct h; by intros [= <- _].
Qed.

#[export] Instance priority_laws : RequestQueueLaws (PriorityRequestQueue A) (@heap_ A).
Proof.
  constructor; intros; simpl in *; try done.
  - by apply heap_drain_perm.
  - apply heappush_perm.
  - apply heappush_perm.
  - revert q. induction xs as [|x xs IH]; intros q; simpl; [done|].
    rewrite IH. simpl. rewrite heappush_perm. by rewrite Permutation_middle.
  - by destruct q as [[]].
  - by destruct q as [[]].
  - destruct (priority_pop_heappop lt q) as (x & h & Hp & ->); [done|]. exists x, (mkPriority h).
    split; [done|]. split; [|by eapply heappop_perm].
    apply heappop_head in Hp. by destruct q as [[]]; simplify_eq/=.
  - destruct (py_remove_in x (heap_ q)) as (l' & -> & Hp); [done|].
    exists (mkPriority (heapify lt l')). split; [done|]. simpl. by rewrite heapify_perm.
  - by rewrite py_remove_notin.
  - apply heapify_perm.
Qed.

(** The requests in a queue of either class. *)
Definition items (q : RequestQueue A) : list A :=
  match q with Fcfs q => deque q | Prio q => heap_ q end.

#[export] Instance request_queue_laws : RequestQueueLaws (RequestQueue A) items.
Proof.
  constructor; intros; try (destruct q as [q|q]; simpl in * ).
  all: try (first [exact (ql_len q) | exact (ql_iter lt q) | exact (ql_add lt x q)
                  | exact (ql_prepend lt x q) | exact (ql_prepend_all lt xs q)
                  | exact (ql_remove_all lt xs q)
                  | match goal with H : _ = [] |- _ => exact (ql_peek_empty q H) end]).
  - done.
  - pose proof (ql_pop_empty lt q) as Hp. simpl in Hp. by rewrite Hp.
  - pose proof (ql_pop_empty lt q) as Hp. simpl in Hp. by rewrite Hp.
  - destruct (ql_pop (Q := FCFSRequestQueue A) lt q) as (x & q' & Hp & Hk & Hi); [done|].
    simpl in *. rewrite Hp. by exists x, (Fcfs q').
  - destruct (ql_pop (Q := PriorityRequestQueue A) lt q) as (x & q' & Hp & Hk & Hi); [done|].
    simpl in *. rewrite Hp. by exists x, (Prio q').
  - destruct (ql_remove (Q := FCFSRequestQueue A) lt x q) as (q' & Hr & Hi); [done|].
    simpl in *. rewrite Hr. by exists (Fcfs q').
  - destruct (ql_remove (Q := PriorityRequestQueue A) lt x q) as (q' & Hr & Hi); [done|].
    simpl in *. rewrite Hr. by exists (Prio q').
  - by rewrite py_remove_notin.
  - by rewrite py_remove_notin.
Qed.
End Contract.

(** ** The order of each policy *)

Section Policy.
Context {A : Type} `{EqDecision A} (lt : A -> A -> bool).

(** A priority queue after any sequence of calls. *)
Inductive pq_reachable : PriorityRequestQueue A -> Prop :=
  | pq_init : pq_reachable q_empty
  | pq_add x q : pq_reachable q -> pq_reachable (q_add lt x q)
  | pq_prepend x q : pq_reachable q -> pq_reachable (q_prepend lt x q)
  | pq_prepend_all xs q : pq_reachable q -> pq_reachable (q_prepend_all lt xs q)
  | pq_pop x q q' : pq_reachable q -> q_pop lt q = Ok (x, q') -> pq_reachable q'
  | pq_remove x q q' : pq_reachable q -> q_remove lt x q = Ok q' -> pq_reachable q'
  | pq_remove_all xs q : pq_reachable q -> pq_reachable (q_remove_all lt xs q).

Lemma pq_reachable_heap `{StrictWeakOrder A lt} q : pq_reachable q -> is_heap lt (heap_ q).
Proof.
  induction 1 as [|x q _ IH|x q _ IH|xs q _ IH|x q q' _ IH Hpop|x q q' _ IH Hr|xs q _ IH].
  - intros i j x y _ _ Hx. simpl in Hx. done.
  - by apply heappush_heap.
  - by apply heappush_heap.
  - simpl. revert q IH. induction xs as [|x xs IHxs]; intros q IH; simpl; [done|].
    apply IHxs. by apply heappush_heap.
  - destruct (decide (heap_ q = [])) as [E|Hne]; [by rewrite ql_pop_empty in Hpop by done|].
    destruct (priority_pop_heappop lt q Hne) as (y & h & Hp & Hq). simpl in Hpop. rewrite Hq in Hpop.
    injection Hpop as -> <-. by apply (heappop_heap lt (heap_ q) x).
  - simpl in Hr. destruct (py_remove x (heap_ q)); simpl in Hr; [|done]. injection Hr as <-. apply heapify_heap, _.
  - apply heapify_heap, _.
Qed.
End Policy.

(** C40: after any sequence of operations, popping from the priority queue returns
    a request that no other request in the queue precedes under
    [Request.__lt__] and takes out exactly that one; peeking shows the same
    request; and iterating yields every request once, in scheduling order. *)
Theorem priority_queue_order {A : Type} `{EqDecision A} (obj : A -> Request) py_id q :
  let lt a b := request_lt py_id (obj a) (obj b) in
  pq_reachable lt q ->
  (forall x q', q_pop lt q = Ok (x, q') ->
     q_peek q = Ok x /\ heap_ q ≡ₚ x :: heap_ q' /\ forall y, y ∈ heap_ q' -> lt y x = false) /\
  (q_iter lt q ≡ₚ heap_ q /\ StronglySorted (fun a b => lt b a = false) (q_iter lt q)).
Proof.
  intros lt Hr. pose proof (pq_reachable_heap lt q Hr) as Hh. split.
  - intros x q' Hpop. destruct (decide (heap_ q = [])) as [E|Hne]; [by rewrite ql_pop_empty in Hpop by done|].
    destruct (ql_pop lt q Hne) as (x' & q'' & Hpop' & Hpk & Hp). rewrite Hpop in Hpop'.
    injection Hpop' as <- <-. split; [done|]. split; [done|]. intros y Hy.
    apply (heap_root_min lt (heap_ q)); [done| |rewrite Hp; by right].
    simpl in Hpk. by destruct (heap_ q); simplify_eq/=.
  - apply heap_drain_sorted; [apply _|done|done].
Qed.

(** Requests of different priorities, by id. *)
Definition prio_of (id : string) : Request :=
  mkRequest id 0 (if decide (id = "urgent"%string) then 0 else 5) None None None None 0 WAITING [] None None 16
    (Some []) None ∅ 0 [] [] 0 false [] 0 None [] (-1) false 0 0 0 [] false false None.
Definition prio_lt (a b : string) : bool := request_lt (fun _ => 0%Z) (prio_of a) (prio_of b).
Definition sample_queue : PriorityRequestQueue string :=
  q_add prio_lt "urgent"%string (q_add prio_lt "b"%string (q_add prio_lt "a"%string q_empty)).

Lemma priority_queue_order_witness :
  q_peek sample_queue = Ok "urgent"%string /\
  q_iter prio_lt sample_queue = ["urgent"; "a"; "b"]%string /\
  StronglySorted (fun a b => prio_lt b a = false) (q_iter prio_lt sample_queue).
Proof.
  split; [reflexivity|]. split; [reflexivity|].
  apply (priority_queue_order prio_of (fun _ => 0%Z) sample_queue). do 3 apply pq_add. constructor.
Defined.

(** The requests that a scheduling pass skips go back ahead of the ones
    skipped earlier and in the order in which they were met: each is prepended to
    a queue of its own, and [prepend_requests] prepends that queue in reverse. *)
Theorem skipped_requests_keep_order {A : Type} `{EqDecision A} lt (skipped : list A) (q : RequestQueue A) :
  (exists l, q = Fcfs (mkFCFS l)) ->
  let step_skipped := foldl (fun q x => q_prepend lt x q) (create_request_queue FCFS) skipped in
  items (prepend_requests lt step_skipped q) = skipped ++ items q.
Proof.
  intros [l ->] step.
  assert (forall l0, foldl (fun q x => q_prepend lt x q) (Fcfs (mkFCFS l0)) skipped
            = Fcfs (mkFCFS (reverse skipped ++ l0))) as Hs.
  { clear. induction skipped as [|x xs IH]; intros l0; simpl; [done|].
    rewrite IH. rewrite reverse_cons, <-app_assoc. done. }
  subst step. simpl. unfold create_request_queue. simpl. rewrite Hs. unfold prepend_requests. simpl.
  rewrite app_nil_r.
  assert (forall xs l0, foldl (fun (l : list A) x => x :: l) l0 xs = reverse xs ++ l0) as Hf.
  { clear. induction xs as [|x xs IH]; intros l0; simpl; [done|].
    rewrite IH. by rewrite reverse_cons, <-app_assoc. }
  rewrite Hf. by rewrite reverse_involutive.
Qed.

Lemma skipped_requests_keep_order_witness :
  items (prepend_requests prio_lt
    (foldl (fun q x => q_prepend prio_lt x q) (create_request_queue FCFS) ["x"; "y"]%string)
    (Fcfs (mkFCFS ["old"%string]))) = ["x"; "y"; "old"]%string.
Proof.
  apply (skipped_requests_keep_order prio_lt ["x"; "y"]%string (Fcfs (mkFCFS ["old"%string]))).
  by exists ["old"%string].
Defined.
