(* ===== verification/Partial.v ===== *)
(** Partial correctness: what a method guarantees when it returns, and that no
    method of the components exhausts the fuel of a loop.

    [wpp m Q s] is the weakest precondition of [m] for runs that end in an
    ordinary exception or return with [Q]; it excludes [FuelExhausted], so that
    [wpp m (fun _ _ => True) s] says that every loop of [m] terminates. *)
From S2P Require Import Prelude PyDict FreeQueue Request Hashing BlockPool SingleType CacheHit Coordinator KVManager EncoderCache RequestQueue.
Local Open Scope Z_scope.

(** ** Partial-correctness weakest preconditions *)

Definition wpp {S A} (m : M S A) (Q : A -> S -> Prop) (s : S) : Prop :=
  match m s with (Ok a, s') => Q a s' | (Err e, _) => e <> FuelExhausted end.

(** [m] never ends in [FuelExhausted]. *)
Definition no_fuel {S A} (m : M S A) : Prop := forall s, fst (m s) <> Err FuelExhausted.
Definition no_fuel_res {A} (r : res A) : Prop := r <> Err FuelExhausted.

Create HintDb no_fuel.

Section Wpp.
Context {S : Type}.
Implicit Types s : S.

Lemma wpp_mono {A} (m : M S A) (Q Q' : A -> S -> Prop) s :
  wpp m Q s -> (forall a s', Q a s' -> Q' a s') -> wpp m Q' s.
Proof. unfold wpp. destruct (m s) as [[]]; naive_solver. Qed.

Lemma wpp_and {A} (m : M S A) (Q Q' : A -> S -> Prop) s :
  wpp m Q s -> wpp m Q' s -> wpp m (fun a s' => Q a s' /\ Q' a s') s.
Proof. unfold wpp. destruct (m s) as [[]]; naive_solver. Qed.

Lemma wpp_ok {A} (m : M S A) Q s a s' : wpp m Q s -> m s = (Ok a, s') -> Q a s'.
Proof. unfold wpp. intros H E. by rewrite E in H. Qed.

Lemma wpp_no_fuel {A} (m : M S A) Q s : wpp m Q s -> fst (m s) <> Err FuelExhausted.
Proof. unfold wpp. destruct (m s) as [[a|e] s']; simpl; [done|]. by intros H [= ->]. Qed.

Lemma wpp_ret {A} (a : A) (Q : A -> S -> Prop) s : Q a s -> wpp (mret a) Q s.
Proof. done. Qed.

Lemma wpp_raise {A} e (Q : A -> S -> Prop) s : e <> FuelExhausted -> wpp (raise e) Q s.
Proof. done. Qed.

Lemma wpp_bind {A B} (m : M S A) (f : A -> M S B) Q s :
  wpp m (fun a s' => wpp (f a) Q s') s -> wpp (m ≫= f) Q s.
Proof. unfold wpp, mbind, M_bind. by destruct (m s) as [[]]. Qed.

Lemma wpp_gets {A} (f : S -> A) (Q : A -> S -> Prop) s : Q (f s) s -> wpp (gets f) Q s.
Proof. done. Qed.

Lemma wpp_modify (f : S -> S) (Q : unit -> S -> Prop) s : Q tt (f s) -> wpp (modify f) Q s.
Proof. done. Qed.

Lemma wpp_assert (b : bool) (Q : unit -> S -> Prop) s : (b = true -> Q tt s) -> wpp (py_assert b) Q s.
Proof. destruct b; intros H; [by apply H|by apply wpp_raise]. Qed.

Lemma wpp_lift_res {A} (r : res A) (Q : A -> S -> Prop) s :
  no_fuel_res r -> (forall a, r = Ok a -> Q a s) -> wpp (lift_res r) Q s.
Proof. unfold wpp, lift_res. destruct r as [a|e]; intros H Ha; [by apply Ha|]. intros ->. by apply H. Qed.

Lemma wpp_lift_opt {A} e (o : option A) (Q : A -> S -> Prop) s :
  e <> FuelExhausted -> (forall a, o = Some a -> Q a s) -> wpp (lift_opt e o) Q s.
Proof. intros He H. destruct o; [by apply H|exact He]. Qed.

Lemma wpp_when (b : bool) (m : M S unit) (Q : unit -> S -> Prop) s :
  (b = true -> wpp m Q s) -> (b = false -> Q tt s) -> wpp (when b m) Q s.
Proof. destruct b; unfold when; [auto | intros _ H; by apply H]. Qed.

Lemma wpp_if {A} (b : bool) (m m' : M S A) Q s :
  (b = true -> wpp m Q s) -> (b = false -> wpp m' Q s) -> wpp (if b then m else m') Q s.
Proof. destruct b; auto. Qed.

Lemma wpp_forM_ {A} (I : S -> Prop) (body : A -> M S unit) l s (Q : unit -> S -> Prop) :
  I s -> (forall x s', x ∈ l -> I s' -> wpp (body x) (fun _ => I) s') -> (forall s', I s' -> Q tt s') ->
  wpp (forM_ l body) Q s.
Proof.
  revert s. induction l as [|x l IH]; intros s HI Hstep Hend; simpl; [by apply wpp_ret, Hend|].
  apply wpp_bind. eapply wpp_mono; [apply Hstep; [left|done]|]. intros [] s' HI'.
  apply IH; [done| |done]. intros y s'' Hy. apply Hstep. by right.
Qed.

Lemma wpp_foldM {A B} (I : list A -> list A -> B -> S -> Prop) (body : B -> A -> M S B) l0 l b s (Q : B -> S -> Prop) :
  I l0 l b s -> (forall d x t b' s', I d (x :: t) b' s' -> wpp (body b' x) (fun b'' => I (d ++ [x]) t b'') s') ->
  (forall b' s', I (l0 ++ l) [] b' s' -> Q b' s') -> wpp (foldM body b l) Q s.
Proof.
  revert l0 b s. induction l as [|x l IH]; intros l0 b s HI Hstep Hend; simpl.
  { apply wpp_ret, Hend. by rewrite app_nil_r. }
  apply wpp_bind. eapply wpp_mono; [by apply Hstep|]. intros b' s' HI'. eapply IH; [exact HI'|done|].
  intros b'' s'' HI''. apply Hend. by rewrite <-app_assoc in HI''.
Qed.

Lemma no_fuel_wpp {A} (m : M S A) s : no_fuel m -> wpp m (fun _ _ => True) s.
Proof. intros H. specialize (H s). unfold wpp. destruct (m s) as [[a|e] s']; [done|]. intros ->. by apply H. Qed.

(** *** Composition of [no_fuel] *)

Lemma nf_ret {A} (a : A) : no_fuel (S:=S) (mret a).
Proof. done. Qed.
Lemma nf_raise {A} e : e <> FuelExhausted -> no_fuel (S:=S) (A:=A) (raise e).
Proof. intros H s [= E]. by apply H. Qed.
Lemma nf_bind {A B} (m : M S A) (f : A -> M S B) : no_fuel m -> (forall a, no_fuel (f a)) -> no_fuel (m ≫= f).
Proof.
  intros Hm Hf s. specialize (Hm s). unfold mbind, M_bind. destruct (m s) as [[a|e] s']; [apply Hf|].
  simpl in *. intros [= ->]. by apply Hm.
Qed.
Lemma nf_gets {A} (f : S -> A) : no_fuel (gets f).
Proof. done. Qed.
Lemma nf_gets_bind {A B} (f : S -> A) (g : A -> M S B) : (forall s, no_fuel (g (f s))) -> no_fuel (gets f ≫= g).
Proof. intros H s. exact (H s s). Qed.
Lemma nf_modify (f : S -> S) : no_fuel (modify f).
Proof. done. Qed.
Lemma nf_assert b : no_fuel (S:=S) (py_assert b).
Proof. by destruct b. Qed.
Lemma nf_lift_res {A} (r : res A) : no_fuel_res r -> no_fuel (S:=S) (lift_res r).
Proof. by intros H s. Qed.
Lemma nf_lift_opt {A} e (o : option A) : e <> FuelExhausted -> no_fuel (S:=S) (lift_opt e o).
Proof. destruct o; [done|]. apply nf_raise. Qed.
Lemma nf_when b (m : M S unit) : no_fuel m -> no_fuel (when b m).
Proof. by destruct b. Qed.
Lemma nf_forM_ {A} (l : list A) (body : A -> M S unit) : (forall x, no_fuel (body x)) -> no_fuel (forM_ l body).
Proof. intros H. induction l; simpl; [apply nf_ret|]. by apply nf_bind. Qed.
Lemma nf_foldM {A B} (body : B -> A -> M S B) b (l : list A) :
  (forall b x, no_fuel (body b x)) -> no_fuel (foldM body b l).
Proof. intros H. revert b. induction l; simpl; intros b; [apply nf_ret|]. by apply nf_bind. Qed.
End Wpp.

Lemma nf_zoom {S T A} (get : S -> T) put (m : M T A) : no_fuel m -> no_fuel (zoom get put m).
Proof. intros H s. unfold zoom. specialize (H (get s)). by destruct (m (get s)). Qed.

Lemma nfr_ok {A} (a : A) : no_fuel_res (Ok a).
Proof. done. Qed.
Lemma nfr_err {A} e : e <> FuelExhausted -> no_fuel_res (A:=A) (Err e).
Proof. intros H [= E]. by apply H. Qed.
Lemma nfr_bind {A B} (m : res A) (f : A -> res B) : no_fuel_res m -> (forall a, no_fuel_res (f a)) -> no_fuel_res (m ≫= f).
Proof. intros Hm Hf. destruct m; [apply Hf|]. intros [= ->]. by apply Hm. Qed.

Lemma nf_on_manager {A} i (m : M MP A) : no_fuel m -> no_fuel (on_manager i m).
Proof.
  intros H c. unfold on_manager. destruct (single_type_managers c !! i) as [mg|]; [|done].
  specialize (H (mg, block_pool c)). by destruct (m (mg, block_pool c)).
Qed.

Lemma nf_for_managers {A} (f : nat -> M MP A) : (forall i, no_fuel (f i)) -> no_fuel (for_managers f).
Proof.
  intros H. unfold for_managers. apply nf_bind; [done|]. intros n. generalize (seq 0 n). intros l.
  induction l as [|i l IH]; simpl; [done|]. apply nf_bind; [by apply nf_on_manager|]. intros a.
  apply nf_bind; [done|]. intros l'. done.
Qed.


Lemma nfr_foldr {A B} (f : A -> res B -> res B) b l :
  no_fuel_res b -> (forall x r, no_fuel_res r -> no_fuel_res (f x r)) -> no_fuel_res (foldr f b l).
Proof. intros Hb Hf. induction l; simpl; auto. Qed.

Lemma nfr_foldl {A B} (f : res B -> A -> res B) b l :
  no_fuel_res b -> (forall x r, no_fuel_res r -> no_fuel_res (f r x)) -> no_fuel_res (foldl f b l).
Proof. intros Hb Hf. revert b Hb. induction l; simpl; auto. Qed.

(** A loop that keeps [no_fuel] through every branch: structural rules first,
    then the hints, then the definition of the head. *)
Ltac nf_head t := match t with ?f _ => nf_head f | _ => constr:(t) end.
Ltac nf_step :=
  lazymatch goal with
  | |- no_fuel (mbind _ (gets _)) => apply nf_gets_bind; intros ?; cbv beta
  | |- no_fuel (mbind _ (get_mgr _)) => apply nf_gets_bind; intros ?; cbv beta
  | |- no_fuel (mbind _ _) => apply nf_bind; [|intros ?]
  | |- no_fuel (mret _) => apply nf_ret
  | |- no_fuel (raise _) => apply nf_raise; discriminate
  | |- no_fuel (gets _) => apply nf_gets
  | |- no_fuel (modify _) => apply nf_modify
  | |- no_fuel (py_assert _) => apply nf_assert
  | |- no_fuel (lift_res _) => apply nf_lift_res
  | |- no_fuel (lift_opt _ _) => apply nf_lift_opt; discriminate
  | |- no_fuel (when _ _) => apply nf_when
  | |- no_fuel (forM_ _ _) => apply nf_forM_; intros ?
  | |- no_fuel (foldM _ _ _) => apply nf_foldM; intros ? ?
  | |- no_fuel (zoom _ _ _) => apply nf_zoom
  | |- no_fuel (for_managers _) => apply nf_for_managers; intros ?
  | |- no_fuel_res (mbind _ _) => apply nfr_bind; [|intros ?]
  | |- no_fuel_res (foldr _ _ _) => apply nfr_foldr; [|intros ? ? ?]
  | |- no_fuel_res (foldl _ _ _) => apply nfr_foldl; [|intros ? ? ?]
  | |- no_fuel_res (Ok _) => apply nfr_ok
  | |- no_fuel_res (mret _) => apply nfr_ok
  | |- no_fuel_res (Err _) => apply nfr_err; discriminate
  | |- no_fuel (fun _ => _) => let q := fresh in intros q; cbv beta; by repeat case_match
  | |- no_fuel (match ?x with _ => _ end) => destruct x
  | |- no_fuel_res (match ?x with _ => _ end) => destruct x
  | |- no_fuel ?m => first [solve [auto with no_fuel nocore] | let h := nf_head m in unfold h; cbv beta zeta]
  | |- no_fuel_res ?m => first [solve [auto with no_fuel nocore] | let h := nf_head m in unfold h; cbv beta zeta]
  end.
Ltac nf := intros; cbv beta zeta; repeat nf_step.

(** ** The components *)

Lemma nf_evict_loop n k : no_fuel (evict_loop n k).
Proof. revert k. induction n as [|n IH]; simpl; nf. Qed.

Lemma nf_pop_each l : no_fuel_res (pop_each l).
Proof. induction l as [|x l IH]; simpl; nf. Qed.

Lemma nf_align_loop n bs al l : no_fuel_res (align_loop n bs al l).
Proof. revert l. induction n as [|n IH]; simpl; nf; auto using nf_pop_each. Qed.
#[export] Hint Resolve nf_evict_loop nf_pop_each nf_align_loop : no_fuel.

Lemma nf_get_cached_block p h ids : no_fuel_res (get_cached_block p h ids).
Proof. induction ids as [|g ids IH]; simpl; nf. Qed.
#[export] Hint Resolve nf_get_cached_block : no_fuel.

Lemma nf_full_loop p ids hs l : no_fuel_res (full_loop p ids hs l).
Proof. revert l. induction hs as [|h hs IH]; simpl; nf. Qed.

Lemma nf_note_new_blocks l : no_fuel (note_new_blocks l).
Proof. intros [m p]. unfold note_new_blocks. by destruct (spec_kind _). Qed.

#[export] Hint Resolve nf_full_loop nf_note_new_blocks : no_fuel.

Lemma nf_sw_loop p ids hs bs al need idxs st : no_fuel_res (sw_loop p ids hs bs al need idxs st).
Proof. revert st. induction idxs as [|i idxs IH]; simpl; nf. Qed.
Lemma nf_chunked_loop p ids hs idxs l : no_fuel_res (chunked_loop p ids hs idxs l).
Proof. revert l. induction idxs as [|i idxs IH]; simpl; nf. Qed.
Lemma nf_mamba_loop p ids hs bs al idxs l : no_fuel_res (mamba_loop p ids hs bs al idxs l).
Proof. revert l. induction idxs as [|i idxs IH]; simpl; nf. Qed.
#[export] Hint Resolve nf_sw_loop nf_chunked_loop nf_mamba_loop : no_fuel.

Lemma nf_find_longest_cache_hit p ids hs n spec eagle al ws : no_fuel_res (find_longest_cache_hit p ids hs n spec eagle al ws).
Proof. nf. Qed.

Lemma nf_evict_cached r use_int : no_fuel (maybe_evict_cached_block use_int r).
Proof. nf. Qed.

Lemma nf_reuse_loop null n idxs l : no_fuel_res (reuse_loop null n idxs l).
Proof. revert l. induction idxs as [|i idxs IH]; simpl; nf. Qed.

Lemma nf_mm_keys_loop fs a b acc i : no_fuel_res (mm_keys_loop fs a b acc i).
Proof. revert i acc. induction fs as [|f fs IH]; simpl; nf. Qed.
#[export] Hint Resolve nf_reuse_loop nf_mm_keys_loop : no_fuel.

Section Ops.
Context (use_int : bool) (sha256 : bytes -> bytes).

Lemma nf_extra_keys a b i : no_fuel (generate_block_hash_extra_keys sha256 a b i).
Proof. nf. Qed.

Lemma nf_event_keys_step blocks bs acc i : no_fuel (event_keys_step sha256 blocks bs acc i).
Proof.
  destruct acc as [[keys idx] r]. do 2 (apply nf_bind; [nf|intros ?]). destruct (is_null _); [nf|].
  destruct (generate_block_hash_extra_keys _ _ _ _ r) as [[[k n]|e] r'] eqn:E; nf.
  apply nf_raise. intros ->. exact (nf_extra_keys _ _ _ r (f_equal fst E)).
Qed.
#[local] Hint Resolve nf_event_keys_step : no_fuel.

Lemma nf_allocate_slots r n c b look ext delay enc : no_fuel (allocate_slots use_int sha256 r n c b look ext delay enc).
Proof. nf. Qed.

Lemma nf_kv_free r : no_fuel (kv_free r).
Proof. nf. Qed.
Lemma nf_can_fit r n b ext enc : no_fuel (can_fit_full_sequence r n b ext enc).
Proof. nf. Qed.
Lemma nf_kv_cache_blocks r n : no_fuel (kv_cache_blocks use_int sha256 r n).
Proof. nf. Qed.
Lemma nf_kv_common_prefix rid : no_fuel (kv_num_common_prefix_blocks rid).
Proof. nf. Qed.
Lemma nf_kv_take_new_block_ids : no_fuel kv_take_new_block_ids.
Proof. nf. Qed.
Lemma nf_kv_new_step_starts : no_fuel kv_new_step_starts.
Proof. nf. Qed.

Lemma nf_hit_loop n c lcm hs gs simple len by_group : no_fuel_res (hit_loop n c lcm hs gs simple len by_group).
Proof. revert len by_group. induction n as [|n IH]; simpl; nf. Qed.
#[local] Hint Resolve nf_hit_loop nf_find_longest_cache_hit : no_fuel.

Lemma nf_get_computed_blocks r : no_fuel (get_computed_blocks r).
Proof. nf. Qed.
End Ops.
#[export] Hint Resolve nf_allocate_slots nf_kv_free nf_can_fit nf_kv_cache_blocks nf_kv_common_prefix nf_kv_take_new_block_ids
  nf_kv_new_step_starts nf_get_computed_blocks : no_fuel.

(** *** Queues *)

Lemma nf_py_remove {A} `{EqDecision A} (x : A) l : no_fuel_res (py_remove x l).
Proof. induction l as [|y l IH]; simpl; nf. Qed.
#[export] Hint Resolve nf_py_remove : no_fuel.

Lemma nf_q_pop {A} `{EqDecision A} lt (q : RequestQueue A) : no_fuel_res (q_pop lt q).
Proof. destruct q as [[l]|[l]]; simpl; nf. Qed.
Lemma nf_q_peek {A} `{EqDecision A} (q : RequestQueue A) : no_fuel_res (q_peek q).
Proof. destruct q as [[l]|[l]]; simpl; nf. Qed.
Lemma nf_q_remove {A} `{EqDecision A} lt (x : A) (q : RequestQueue A) : no_fuel_res (q_remove lt x q).
Proof. destruct q as [[l]|[l]]; simpl; nf. Qed.
#[export] Hint Resolve nf_q_pop nf_q_peek nf_q_remove : no_fuel.
