(* ===== verification/SchedState.v ===== *)
(** The state of the scheduler ([vllm/v1/core/sched/scheduler.py]), its
    configuration, its outputs ([sched/output.py]) and its small methods:
    preemption, queueing, promotion of blocked requests.

    Connectors are plugins: the scheduler knows them through the methods of
    [KVConnectorBase_V1] and [ECConnectorBase], which are the fields of the
    records [KVConnector] and [ECConnector].  The iteration order of Python sets
    is the parameter [set_order]. *)
From S2P Require Import Prelude PyDict Request BlockPool SingleType Coordinator KVManager.
From S2P Require Import SchedUtils EncoderCache RequestQueue.
Local Open Scope Z_scope.

(** ** Configuration *)

(** The attributes that [Scheduler.__init__] reads from the configuration and
    that no method changes. *)
Record SchedConfig := mkSchedConfig {
  cf_policy : SchedulingPolicy;
  cf_max_num_running_reqs : Z;
  cf_max_num_scheduled_tokens : Z;
  cf_max_model_len : Z;
  cf_block_size : Z;                     (* [self.block_size] *)
  cf_cache_block_size : Z;               (* [self.cache_config.block_size] *)
  cf_long_prefill_token_threshold : Z;
  cf_enable_chunked_prefill : bool;
  cf_disable_chunked_mm_input : bool;
  cf_max_num_encoder_input_tokens : Z;
  cf_num_lookahead_tokens : Z;
  cf_num_spec_tokens : Z;
  cf_use_eagle : bool;
  cf_is_encoder_decoder : bool;
  cf_need_mamba_block_aligned_split : bool;
  cf_scheduler_reserve_full_isl : bool;
  cf_needs_kv_cache_zeroing : bool;
  cf_use_pp : bool;
  cf_async_scheduling : bool;            (* [scheduler_config.async_scheduling] *)
  cf_async_class : bool;                 (* the object is an [AsyncScheduler] *)
  cf_use_v2_model_runner : bool;
  cf_log_stats : bool;
  cf_max_loras : option Z;               (* [None]: no LoRA configuration *)
  cf_recompute_kv_load_failures : bool
}.

(** [PauseState] *)
Inductive PauseState := UNPAUSED | PAUSED_NEW | PAUSED_ALL.

#[export] Instance PauseState_eq_dec : EqDecision PauseState.
Proof. solve_decision. Defined.

(** ** Outputs *)

Record NewRequestData := mkNewRequestData {
  nr_req_id : string;
  nr_prompt_token_ids : option (list Z);
  nr_mm_features : list MultiModalFeatureSpec;
  nr_sampling_params : option SamplingParams;
  nr_pooling_params : option PoolingParams;
  nr_block_ids : option (list (list Z));
  nr_num_computed_tokens : Z;
  nr_lora_request : option LoRARequest;
  nr_prompt_embeds : option (list bytes);
  nr_prefill_token_ids : option (list Z)
}.

(** [NewRequestData.from_request] *)
Definition new_request_data (r : Request) (block_ids : option (list (list Z)))
    (prefill_token_ids : option (list Z)) : NewRequestData :=
  mkNewRequestData (request_id r) (prompt_token_ids r) (mm_features r) (sampling_params r) (pooling_params r)
    block_ids (num_computed_tokens r) (lora_request r) (prompt_embeds r) prefill_token_ids.

Record CachedRequestData := mkCachedRequestData {
  cr_req_ids : list string;
  cr_resumed_req_ids : gset string;
  cr_new_token_ids : list (list Z);
  cr_all_token_ids : list (string * list Z);
  cr_new_block_ids : list (option (list (list Z)));
  cr_num_computed_tokens : list Z;
  cr_num_output_tokens : list Z
}.

(** [CachedRequestData.make_empty], [num_reqs] and [is_context_phase]. *)
Definition cached_make_empty : CachedRequestData := mkCachedRequestData [] ∅ [] [] [] [] [].
Definition num_reqs (d : CachedRequestData) : Z := zlen (cr_req_ids d).
Definition is_context_phase (d : CachedRequestData) (req_id : string) : bool :=
  match (list_to_map (reverse (zip (cr_req_ids d) (cr_num_output_tokens d))) : gmap string Z) !! req_id with
  | Some n => n =? 0
  | None => false
  end.

(** [SchedulerOutput]; the connectors' metadata are opaque. *)
Record SchedulerOutput := mkSchedulerOutput {
  so_scheduled_new_reqs : list NewRequestData;
  so_scheduled_cached_reqs : CachedRequestData;
  so_num_scheduled_tokens : list (string * Z);
  so_total_num_scheduled_tokens : Z;
  so_scheduled_spec_decode_tokens : list (string * list Z);
  so_scheduled_encoder_inputs : list (string * list Z);
  so_num_common_prefix_blocks : list Z;
  so_preempted_req_ids : option (gset string);
  so_finished_req_ids : gset string;
  so_free_encoder_mm_hashes : list mm_hash;
  so_has_structured_output_requests : bool;
  so_pending_structured_output_tokens : bool;
  so_num_invalid_spec_tokens : option (list (string * Z));
  so_new_block_ids_to_zero : option (list Z)
}.

(** [SchedulerOutput.make_empty] *)
Definition scheduler_output_make_empty : SchedulerOutput :=
  mkSchedulerOutput [] cached_make_empty [] 0 [] [] [] None ∅ [] false false None None.

Definition or_structured_output (has pending : bool) (o : SchedulerOutput) : SchedulerOutput :=
  mkSchedulerOutput (so_scheduled_new_reqs o) (so_scheduled_cached_reqs o) (so_num_scheduled_tokens o)
    (so_total_num_scheduled_tokens o) (so_scheduled_spec_decode_tokens o) (so_scheduled_encoder_inputs o)
    (so_num_common_prefix_blocks o) (so_preempted_req_ids o) (so_finished_req_ids o)
    (so_free_encoder_mm_hashes o) (so_has_structured_output_requests o || has)
    (so_pending_structured_output_tokens o || pending) (so_num_invalid_spec_tokens o) (so_new_block_ids_to_zero o).

Definition set_so_spec (spec : list (string * list Z)) (o : SchedulerOutput) : SchedulerOutput :=
  mkSchedulerOutput (so_scheduled_new_reqs o) (so_scheduled_cached_reqs o) (so_num_scheduled_tokens o)
    (so_total_num_scheduled_tokens o) spec (so_scheduled_encoder_inputs o)
    (so_num_common_prefix_blocks o) (so_preempted_req_ids o) (so_finished_req_ids o)
    (so_free_encoder_mm_hashes o) (so_has_structured_output_requests o)
    (so_pending_structured_output_tokens o) (so_num_invalid_spec_tokens o) (so_new_block_ids_to_zero o).

Definition set_so_invalid (d : list (string * Z)) (o : SchedulerOutput) : SchedulerOutput :=
  mkSchedulerOutput (so_scheduled_new_reqs o) (so_scheduled_cached_reqs o) (so_num_scheduled_tokens o)
    (so_total_num_scheduled_tokens o) (so_scheduled_spec_decode_tokens o) (so_scheduled_encoder_inputs o)
    (so_num_common_prefix_blocks o) (so_preempted_req_ids o) (so_finished_req_ids o)
    (so_free_encoder_mm_hashes o) (so_has_structured_output_requests o)
    (so_pending_structured_output_tokens o) (Some d) (so_new_block_ids_to_zero o).

(** ** Connectors *)

(** [KVConnectorOutput], the part the scheduler reads. *)
Record KVConnectorOutput := mkKVConnectorOutput {
  co_finished_sending : option (list string);
  co_finished_recving : option (list string);
  co_invalid_block_ids : gset Z
}.

(** The methods of a KV connector that the scheduler calls, on a connector state
    [C]; [kc_supports_hma] is [isinstance(connector, SupportsHMA)]. *)
Record KVConnector (C : Type) := mkKVConnector {
  kc_supports_hma : bool;
  kc_get_num_new_matched_tokens : Request -> Z -> M C (option Z * bool);
  kc_update_state_after_alloc : Request -> KVCacheBlocks -> Z -> M C unit;
  kc_request_finished : Request -> list Z -> M C (bool * option any);
  kc_request_finished_all_groups : Request -> list (list Z) -> M C (bool * option any);
  kc_update_connector_output : KVConnectorOutput -> M C unit;
  kc_build_connector_meta : SchedulerOutput -> M C unit;
  kc_take_events : M C (list KVCacheEvent);
  kc_reset_cache : M C (option bool)
}.
Arguments kc_supports_hma {C}. Arguments kc_get_num_new_matched_tokens {C}.
Arguments kc_update_state_after_alloc {C}. Arguments kc_request_finished {C}.
Arguments kc_request_finished_all_groups {C}. Arguments kc_update_connector_output {C}.
Arguments kc_build_connector_meta {C}. Arguments kc_take_events {C}. Arguments kc_reset_cache {C}.

(** The methods of an encoder-cache connector that the scheduler calls. *)
Record ECConnector (E : Type) := mkECConnector {
  ec_has_cache_item : mm_hash -> E -> bool;
  ec_update_state_after_alloc : Request -> Z -> M E unit;
  ec_build_connector_meta : SchedulerOutput -> M E unit
}.
Arguments ec_has_cache_item {E}. Arguments ec_update_state_after_alloc {E}. Arguments ec_build_connector_meta {E}.

(** ** The encoder cache, of either class *)

Inductive EncoderManager :=
  | EncCache (e : EncoderCacheManager)
  | EncDecCache (e : EncoderDecoderCacheManager).

(** A method call, dispatched on the class of the manager. *)
Definition on_encoder {A} (m : M EncoderCacheManager A) (md : M EncoderDecoderCacheManager A) : M EncoderManager A :=
  fun e => match e with
           | EncCache e => let '(r, e') := m e in (r, EncCache e')
           | EncDecCache e => let '(r, e') := md e in (r, EncDecCache e')
           end.

(** ** State *)

Section State.
Context {C E : Type}.

(** The scheduler.  [s_objs] is the store of request objects, by their id;
    [s_requests] are the keys of the dict [requests] in insertion order.  The
    queues and lists hold references, that is, ids. *)
Record Scheduler := mkScheduler {
  s_objs : gmap string Request;
  s_requests : list string;
  s_waiting : RequestQueue string;
  s_skipped_waiting : RequestQueue string;
  s_running : list string;
  s_finished_req_ids : gset string;
  s_finished_req_ids_dict : option (list (Z * gset string));
  s_prev_step_scheduled_req_ids : gset string;
  s_num_waiting_for_streaming_input : Z;
  s_finished_recving_kv_req_ids : gset string;
  s_failed_recving_kv_req_ids : gset string;
  s_encoder_cache_manager : EncoderManager;
  s_kv_cache_manager : KVCacheManager;
  s_connector : option C;
  s_ec_connector : option E;
  s_connector_prefix_cache_stats : option PrefixCacheStats;
  s_pause_state : PauseState
}.

Definition set_objs (f : (gmap string Request) -> (gmap string Request)) (s : Scheduler) : Scheduler :=
  mkScheduler
    (f (s_objs s)) (s_requests s) (s_waiting s) (s_skipped_waiting s) (s_running s)
    (s_finished_req_ids s) (s_finished_req_ids_dict s) (s_prev_step_scheduled_req_ids s)
    (s_num_waiting_for_streaming_input s) (s_finished_recving_kv_req_ids s)
    (s_failed_recving_kv_req_ids s) (s_encoder_cache_manager s) (s_kv_cache_manager s)
    (s_connector s) (s_ec_connector s) (s_connector_prefix_cache_stats s) (s_pause_state s).
Definition set_requests (f : (list string) -> (list string)) (s : Scheduler) : Scheduler :=
  mkScheduler
    (s_objs s) (f (s_requests s)) (s_waiting s) (s_skipped_waiting s) (s_running s)
    (s_finished_req_ids s) (s_finished_req_ids_dict s) (s_prev_step_scheduled_req_ids s)
    (s_num_waiting_for_streaming_input s) (s_finished_recving_kv_req_ids s)
    (s_failed_recving_kv_req_ids s) (s_encoder_cache_manager s) (s_kv_cache_manager s)
    (s_connector s) (s_ec_connector s) (s_connector_prefix_cache_stats s) (s_pause_state s).
Definition set_waiting (f : (RequestQueue string) -> (RequestQueue string)) (s : Scheduler) : Scheduler :=
  mkScheduler
    (s_objs s) (s_requests s) (f (s_waiting s)) (s_skipped_waiting s) (s_running s)
    (s_finished_req_ids s) (s_finished_req_ids_dict s) (s_prev_step_scheduled_req_ids s)
    (s_num_waiting_for_streaming_input s) (s_finished_recving_kv_req_ids s)
    (s_failed_recving_kv_req_ids s) (s_encoder_cache_manager s) (s_kv_cache_manager s)
    (s_connector s) (s_ec_connector s) (s_connector_prefix_cache_stats s) (s_pause_state s).
Definition set_skipped_waiting (f : (RequestQueue string) -> (RequestQueue string)) (s : Scheduler) : Scheduler :=
  mkScheduler
    (s_objs s) (s_requests s) (s_waiting s) (f (s_skipped_waiting s)) (s_running s)
    (s_finished_req_ids s) (s_finished_req_ids_dict s) (s_prev_step_scheduled_req_ids s)
    (s_num_waiting_for_streaming_input s) (s_finished_recving_kv_req_ids s)
    (s_failed_recving_kv_req_ids s) (s_encoder_cache_manager s) (s_kv_cache_manager s)
    (s_connector s) (s_ec_connector s) (s_connector_prefix_cache_stats s) (s_pause_state s).
Definition set_running (f : (list string) -> (list string)) (s : Scheduler) : Scheduler :=
  mkScheduler
    (s_objs s) (s_requests s) (s_waiting s) (s_skipped_waiting s) (f (s_running s))
    (s_finished_req_ids s) (s_finished_req_ids_dict s) (s_prev_step_scheduled_req_ids s)
    (s_num_waiting_for_streaming_input s) (s_finished_recving_kv_req_ids s)
    (s_failed_recving_kv_req_ids s) (s_encoder_cache_manager s) (s_kv_cache_manager s)
    (s_connector s) (s_ec_connector s) (s_connector_prefix_cache_stats s) (s_pause_state s).
Definition set_finished_req_ids (f : (gset string) -> (gset string)) (s : Scheduler) : Scheduler :=
  mkScheduler
    (s_objs s) (s_requests s) (s_waiting s) (s_skipped_waiting s) (s_running s)
    (f (s_finished_req_ids s)) (s_finished_req_ids_dict s) (s_prev_step_scheduled_req_ids s)
    (s_num_waiting_for_streaming_input s) (s_finished_recving_kv_req_ids s)
    (s_failed_recving_kv_req_ids s) (s_encoder_cache_manager s) (s_kv_cache_manager s)
    (s_connector s) (s_ec_connector s) (s_connector_prefix_cache_stats s) (s_pause_state s).
Definition set_finished_req_ids_dict (f : (option (list (Z * gset string))) -> (option (list (Z * gset string)))) (s : Scheduler) : Scheduler :=
  mkScheduler
    (s_objs s) (s_requests s) (s_waiting s) (s_skipped_waiting s) (s_running s)
    (s_finished_req_ids s) (f (s_finished_req_ids_dict s)) (s_prev_step_scheduled_req_ids s)
    (s_num_waiting_for_streaming_input s) (s_finished_recving_kv_req_ids s)
    (s_failed_recving_kv_req_ids s) (s_encoder_cache_manager s) (s_kv_cache_manager s)
    (s_connector s) (s_ec_connector s) (s_connector_prefix_cache_stats s) (s_pause_state s).
Definition set_prev_step_scheduled_req_ids (f : (gset string) -> (gset string)) (s : Scheduler) : Scheduler :=
  mkScheduler
    (s_objs s) (s_requests s) (s_waiting s) (s_skipped_waiting s) (s_running s)
    (s_finished_req_ids s) (s_finished_req_ids_dict s) (f (s_prev_step_scheduled_req_ids s))
    (s_num_waiting_for_streaming_input s) (s_finished_recving_kv_req_ids s)
    (s_failed_recving_kv_req_ids s) (s_encoder_cache_manager s) (s_kv_cache_manager s)
    (s_connector s) (s_ec_connector s) (s_connector_prefix_cache_stats s) (s_pause_state s).
Definition set_num_waiting_for_streaming_input (f : Z -> Z) (s : Scheduler) : Scheduler :=
  mkScheduler
    (s_objs s) (s_requests s) (s_waiting s) (s_skipped_waiting s) (s_running s)
    (s_finished_req_ids s) (s_finished_req_ids_dict s) (s_prev_step_scheduled_req_ids s)
    (f (s_num_waiting_for_streaming_input s)) (s_finished_recving_kv_req_ids s)
    (s_failed_recving_kv_req_ids s) (s_encoder_cache_manager s) (s_kv_cache_manager s)
    (s_connector s) (s_ec_connector s) (s_connector_prefix_cache_stats s) (s_pause_state s).
Definition set_finished_recving_kv_req_ids (f : (gset string) -> (gset string)) (s : Scheduler) : Scheduler :=
  mkScheduler
    (s_objs s) (s_requests s) (s_waiting s) (s_skipped_waiting s) (s_running s)
    (s_finished_req_ids s) (s_finished_req_ids_dict s) (s_prev_step_scheduled_req_ids s)
    (s_num_waiting_for_streaming_input s) (f (s_finished_recving_kv_req_ids s))
    (s_failed_recving_kv_req_ids s) (s_encoder_cache_manager s) (s_kv_cache_manager s)
    (s_connector s) (s_ec_connector s) (s_connector_prefix_cache_stats s) (s_pause_state s).
Definition set_failed_recving_kv_req_ids (f : (gset string) -> (gset string)) (s : Scheduler) : Scheduler :=
  mkScheduler
    (s_objs s) (s_requests s) (s_waiting s) (s_skipped_waiting s) (s_running s)
    (s_finished_req_ids s) (s_finished_req_ids_dict s) (s_prev_step_scheduled_req_ids s)
    (s_num_waiting_for_streaming_input s) (s_finished_recving_kv_req_ids s)
    (f (s_failed_recving_kv_req_ids s)) (s_encoder_cache_manager s) (s_kv_cache_manager s)
    (s_connector s) (s_ec_connector s) (s_connector_prefix_cache_stats s) (s_pause_state s).
Definition set_encoder_cache_manager (f : EncoderManager -> EncoderManager) (s : Scheduler) : Scheduler :=
  mkScheduler
    (s_objs s) (s_requests s) (s_waiting s) (s_skipped_waiting s) (s_running s)
    (s_finished_req_ids s) (s_finished_req_ids_dict s) (s_prev_step_scheduled_req_ids s)
    (s_num_waiting_for_streaming_input s) (s_finished_recving_kv_req_ids s)
    (s_failed_recving_kv_req_ids s) (f (s_encoder_cache_manager s)) (s_kv_cache_manager s)
    (s_connector s) (s_ec_connector s) (s_connector_prefix_cache_stats s) (s_pause_state s).
Definition set_kv_cache_manager (f : KVCacheManager -> KVCacheManager) (s : Scheduler) : Scheduler :=
  mkScheduler
    (s_objs s) (s_requests s) (s_waiting s) (s_skipped_waiting s) (s_running s)
    (s_finished_req_ids s) (s_finished_req_ids_dict s) (s_prev_step_scheduled_req_ids s)
    (s_num_waiting_for_streaming_input s) (s_finished_recving_kv_req_ids s)
    (s_failed_recving_kv_req_ids s) (s_encoder_cache_manager s) (f (s_kv_cache_manager s))
    (s_connector s) (s_ec_connector s) (s_connector_prefix_cache_stats s) (s_pause_state s).
Definition set_connector (f : (option C) -> (option C)) (s : Scheduler) : Scheduler :=
  mkScheduler
    (s_objs s) (s_requests s) (s_waiting s) (s_skipped_waiting s) (s_running s)
    (s_finished_req_ids s) (s_finished_req_ids_dict s) (s_prev_step_scheduled_req_ids s)
    (s_num_waiting_for_streaming_input s) (s_finished_recving_kv_req_ids s)
    (s_failed_recving_kv_req_ids s) (s_encoder_cache_manager s) (s_kv_cache_manager s)
    (f (s_connector s)) (s_ec_connector s) (s_connector_prefix_cache_stats s) (s_pause_state s).
Definition set_ec_connector (f : (option E) -> (option E)) (s : Scheduler) : Scheduler :=
  mkScheduler
    (s_objs s) (s_requests s) (s_waiting s) (s_skipped_waiting s) (s_running s)
    (s_finished_req_ids s) (s_finished_req_ids_dict s) (s_prev_step_scheduled_req_ids s)
    (s_num_waiting_for_streaming_input s) (s_finished_recving_kv_req_ids s)
    (s_failed_recving_kv_req_ids s) (s_encoder_cache_manager s) (s_kv_cache_manager s)
    (s_connector s) (f (s_ec_connector s)) (s_connector_prefix_cache_stats s) (s_pause_state s).
Definition set_connector_prefix_cache_stats (f : (option PrefixCacheStats) -> (option PrefixCacheStats)) (s : Scheduler) : Scheduler :=
  mkScheduler
    (s_objs s) (s_requests s) (s_waiting s) (s_skipped_waiting s) (s_running s)
    (s_finished_req_ids s) (s_finished_req_ids_dict s) (s_prev_step_scheduled_req_ids s)
    (s_num_waiting_for_streaming_input s) (s_finished_recving_kv_req_ids s)
    (s_failed_recving_kv_req_ids s) (s_encoder_cache_manager s) (s_kv_cache_manager s)
    (s_connector s) (s_ec_connector s) (f (s_connector_prefix_cache_stats s)) (s_pause_state s).
Definition set_pause_state_field (f : PauseState -> PauseState) (s : Scheduler) : Scheduler :=
  mkScheduler
    (s_objs s) (s_requests s) (s_waiting s) (s_skipped_waiting s) (s_running s)
    (s_finished_req_ids s) (s_finished_req_ids_dict s) (s_prev_step_scheduled_req_ids s)
    (s_num_waiting_for_streaming_input s) (s_finished_recving_kv_req_ids s)
    (s_failed_recving_kv_req_ids s) (s_encoder_cache_manager s) (s_kv_cache_manager s)
    (s_connector s) (s_ec_connector s) (s_connector_prefix_cache_stats s) (f (s_pause_state s)).

End State.
Arguments Scheduler : clear implicits.

(** ** Access *)

Section Methods.
Context {C E : Type} (kvc : KVConnector C) (ecc : ECConnector E).
Context (cfg : SchedConfig) (use_int : bool) (sha256 : bytes -> bytes) (py_id : Request -> Z).
Context (block_hasher : option BlockHasher) (set_order : forall A, list A -> list A).

Abbreviation SM := (M (Scheduler C E)).

(** Reading and updating a request object through a reference. *)
Definition robj (rid : string) : SM Request :=
  o ← gets (fun s => s_objs s !! rid) ; lift_opt KeyError o.
Definition upd (rid : string) (f : Request -> Request) : SM unit := modify (set_objs (alter f rid)).
Definition on_request {A} (rid : string) (m : M Request A) : SM A :=
  r ← robj rid ;
  let '(a, r') := m r in
  modify (set_objs (fun o => <[rid := r']> o)) ;; lift_res a.

(** [self.requests.get(req_id)] and [self.requests[req_id]]. *)
Definition requests_get (rid : string) : SM (option Request) :=
  gets (fun s => if decide (rid ∈ s_requests s) then s_objs s !! rid else None).
Definition requests_item (rid : string) : SM Request := o ← requests_get rid ; lift_opt KeyError o.

(** Calls on the components. *)
Definition on_kv {A} (m : M KVCacheManager A) : SM A :=
  zoom s_kv_cache_manager (fun k => set_kv_cache_manager (fun _ => k)) m.
Definition on_enc {A} (m : M EncoderManager A) : SM A :=
  zoom s_encoder_cache_manager (fun e => set_encoder_cache_manager (fun _ => e)) m.
(** [if self.connector is not None: ...] *)
Definition on_connector {A} (m : M C A) : SM (option A) :=
  c ← gets s_connector ;
  match c with
  | None => mret None
  | Some c => let '(a, c') := m c in
              modify (set_connector (fun _ => Some c')) ;; x ← lift_res a ; mret (Some x)
  end.
Definition on_ec_connector {A} (m : M E A) : SM (option A) :=
  e ← gets s_ec_connector ;
  match e with
  | None => mret None
  | Some e => let '(a, e') := m e in
              modify (set_ec_connector (fun _ => Some e')) ;; x ← lift_res a ; mret (Some x)
  end.

(** [Request.__lt__] on references. *)
Definition q_lt (s : Scheduler C E) (a b : string) : bool :=
  match s_objs s !! a, s_objs s !! b with
  | Some ra, Some rb => request_lt py_id ra rb
  | _, _ => false
  end.

(** Methods of the encoder cache manager, of either class. *)
Definition m_check_and_update_cache (r : Request) (i : Z) : M EncoderManager bool :=
  on_encoder (check_and_update_cache r i) (ed_check_and_update_cache r i).
Definition m_can_allocate (r : Request) (i budget to_schedule : Z) : M EncoderManager bool :=
  on_encoder (can_allocate r i budget to_schedule) (ed_can_allocate r i budget to_schedule).
Definition m_allocate (r : Request) (i : Z) : M EncoderManager unit :=
  on_encoder (enc_allocate r i) (ed_allocate r i).
Definition m_free_encoder_input (r : Request) (i : Z) : M EncoderManager unit :=
  on_encoder (free_encoder_input r i) (ed_free_encoder_input r i).
Definition m_free (r : Request) : M EncoderManager unit := on_encoder (enc_free (set_order Z) r) (ed_free r).
Definition m_get_cached_input_ids (r : Request) : M EncoderManager (list Z) :=
  on_encoder (gets (get_cached_input_ids r)) (mret (ed_get_cached_input_ids r)).
Definition m_get_freed_mm_hashes : M EncoderManager (list mm_hash) :=
  on_encoder get_freed_mm_hashes ed_get_freed_mm_hashes.
Definition m_reset : M EncoderManager unit := on_encoder enc_reset ed_reset.

(** ** Small methods *)

(** [_mamba_block_aligned_split] *)
Definition mamba_block_aligned_split (request : Request)
    (num_new_tokens num_new_local_computed_tokens num_external_computed_tokens : Z) : res Z :=
  if negb (num_external_computed_tokens =? 0) then Err AssertionError
  else
    let computed := num_computed_tokens request + num_new_local_computed_tokens + num_external_computed_tokens in
    if computed <? Z.max (num_prompt_tokens request) (num_tokens request - 1) then
      let block_size := cf_cache_block_size cfg in
      rem ← py_mod (num_tokens request) block_size ;
      let last_cache_position := num_tokens request - rem in
      let last_cache_position :=
        if cf_use_eagle cfg then Z.max (last_cache_position - block_size) 0 else last_cache_position in
      let after_sched := computed + num_new_tokens in
      if after_sched <? last_cache_position then
        q ← py_floordiv num_new_tokens block_size ; Ok (q * block_size)
      else if (computed <? last_cache_position) && (last_cache_position <? after_sched) then
        Ok (last_cache_position - computed)
      else Ok num_new_tokens
    else Ok num_new_tokens.

(** [_preempt_request] *)
Definition preempt_request (rid : string) (timestamp : Z) : SM unit :=
  r ← robj rid ;
  py_assert (bool_decide (status r = RUNNING)) ;;
  on_kv (kv_free r) ;;
  on_enc (m_free r) ;;
  upd rid (set_status (fun _ => PREEMPTED)) ;;
  upd rid (set_num_computed_tokens (fun _ => 0)) ;;
  upd rid (set_spec_token_ids (fun _ => [])) ;;
  upd rid (set_num_preemptions (fun n => n + 1)) ;;
  when (cf_log_stats cfg) (on_request rid (record_event timestamp PREEMPTED_EVENT (Some timestamp))) ;;
  modify (fun s => set_waiting (q_prepend (q_lt s) rid) s).

(** [_is_blocked_waiting_status] *)
Definition is_blocked_waiting_status (st : RequestStatus) : bool :=
  match st with
  | WAITING_FOR_STRUCTURED_OUTPUT_GRAMMAR | WAITING_FOR_REMOTE_KVS | WAITING_FOR_STREAMING_REQ => true
  | _ => false
  end.

(** [_enqueue_waiting_request] *)
Definition enqueue_waiting_request (rid : string) : SM unit :=
  r ← robj rid ;
  if is_blocked_waiting_status (status r)
  then modify (fun s => set_skipped_waiting (q_add (q_lt s) rid) s)
  else modify (fun s => set_waiting (q_add (q_lt s) rid) s).

(** A reference to one of the two waiting queues. *)
Inductive QueueRef := QWaiting | QSkipped.
Definition queue_at (q : QueueRef) (s : Scheduler C E) : RequestQueue string :=
  match q with QWaiting => s_waiting s | QSkipped => s_skipped_waiting s end.
Definition set_queue (q : QueueRef) (f : RequestQueue string -> RequestQueue string)
    : Scheduler C E -> Scheduler C E :=
  match q with QWaiting => set_waiting f | QSkipped => set_skipped_waiting f end.

(** [_select_waiting_queue_for_scheduling] *)
Definition select_waiting_queue_for_scheduling : SM (option QueueRef) :=
  s ← gets (fun s => s) ;
  let first a b := if q_bool (queue_at a s) then Some a else if q_bool (queue_at b s) then Some b else None in
  match cf_policy cfg with
  | FCFS => mret (first QSkipped QWaiting)
  | PRIORITY =>
      if q_bool (s_waiting s) && q_bool (s_skipped_waiting s) then
        waiting_req ← lift_res (q_peek (s_waiting s)) ;
        skipped_req ← lift_res (q_peek (s_skipped_waiting s)) ;
        mret (Some (if q_lt s waiting_req skipped_req then QWaiting else QSkipped))
      else mret (first QWaiting QSkipped)
  end.

(** [request_queue.pop_request()] *)
Definition pop_request (q : QueueRef) : SM string :=
  s ← gets (fun s => s) ;
  xq ← lift_res (q_pop (q_lt s) (queue_at q s)) ;
  modify (set_queue q (fun _ => xq.2)) ;;
  mret xq.1.

(** [_update_waiting_for_remote_kv] *)
Definition update_waiting_for_remote_kv (rid : string) : SM unit :=
  c ← gets s_connector ;
  py_assert (negb (is_none c)) ;;
  failed ← gets s_failed_recving_kv_req_ids ;
  r ← robj rid ;
  (if decide (rid ∈ failed) then
     (if negb (num_computed_tokens r =? 0)
      then on_kv (kv_cache_blocks use_int sha256 r (num_computed_tokens r))
      else on_kv (kv_free r)) ;;
     modify (set_failed_recving_kv_req_ids (fun x => x ∖ {[rid]}))
   else
     on_kv (kv_cache_blocks use_int sha256 r (num_computed_tokens r)) ;;
     when (num_computed_tokens r =? num_tokens r)
       (upd rid (set_num_computed_tokens (fun _ => num_tokens r - 1))) ;;
     r ← robj rid ;
     when (num_cached_tokens r <? 0) (upd rid (set_num_cached_tokens (fun _ => num_computed_tokens r)))) ;;
  finished ← gets s_finished_recving_kv_req_ids ;
  (if decide (rid ∈ finished) then mret tt else raise KeyError) ;;
  modify (set_finished_recving_kv_req_ids (fun x => x ∖ {[rid]})).

(** [_try_promote_blocked_waiting_request] *)
Definition try_promote_blocked_waiting_request (rid : string) : SM bool :=
  r ← robj rid ;
  match status r with
  | WAITING_FOR_REMOTE_KVS =>
      finished ← gets s_finished_recving_kv_req_ids ;
      if decide (rid ∈ finished) then
        update_waiting_for_remote_kv rid ;;
        upd rid (set_status (fun _ => if num_preemptions r =? 0 then WAITING else PREEMPTED)) ;;
        mret true
      else mret false
  | WAITING_FOR_STRUCTURED_OUTPUT_GRAMMAR =>
      match structured_output_request r with
      | Some so =>
          if so_grammar_ready so
          then upd rid (set_status (fun _ => WAITING)) ;; mret true
          else mret false
      | None => mret false
      end
  | WAITING_FOR_STREAMING_REQ =>
      py_assert (match streaming_queue r with Some (_ :: _) => false | _ => true end) ;;
      mret false
  | _ => raise AssertionError
  end.

(** [_free_encoder_inputs] *)
Definition free_encoder_inputs (rid : string) : SM unit :=
  r ← robj rid ;
  ids ← on_enc (m_get_cached_input_ids r) ;
  forM_ (set_order Z ids) (fun input_id =>
    f ← lift_res (py_get (mm_features r) input_id) ;
    let start_pos := offset (mm_position f) in
    let num_tokens := length_ (mm_position f) in
    if cf_is_encoder_decoder cfg && (0 <? num_computed_tokens r) then on_enc (m_free_encoder_input r input_id)
    else if start_pos + num_tokens <=? num_computed_tokens r then on_enc (m_free_encoder_input r input_id)
    else mret tt).

(** Queries. *)
Definition get_request_counts (s : Scheduler C E) : Z * Z :=
  (zlen (s_running s), Z.of_nat (q_len (s_waiting s)) + Z.of_nat (q_len (s_skipped_waiting s))).

Definition set_pause_state (p : PauseState) : SM unit := modify (set_pause_state_field (fun _ => p)).

Definition get_num_unfinished_requests (s : Scheduler C E) : Z :=
  match s_pause_state s with
  | PAUSED_ALL => 0
  | PAUSED_NEW => zlen (s_running s)
  | UNPAUSED =>
      let num_waiting := Z.of_nat (q_len (s_waiting s)) + Z.of_nat (q_len (s_skipped_waiting s))
                         - s_num_waiting_for_streaming_input s in
      num_waiting + zlen (s_running s)
  end.

Definition has_finished_requests (s : Scheduler C E) : bool := negb (bool_decide (s_finished_req_ids s = ∅)).
(** [SchedulerInterface.has_unfinished_requests] and [has_requests] *)
Definition has_unfinished_requests (s : Scheduler C E) : bool := 0 <? get_num_unfinished_requests s.
Definition has_requests (s : Scheduler C E) : bool := has_unfinished_requests s || has_finished_requests s.
End Methods.
