(* ===== verification/SchedStep.v ===== *)
(** One scheduling step ([Scheduler.schedule]): the loop over the running
    requests, which preempts when the KV cache is exhausted, the loop over the
    waiting requests, and the construction of the output. *)
From S2P Require Import Prelude PyDict Request BlockPool SingleType Coordinator KVManager.
From S2P Require Import SchedUtils EncoderCache RequestQueue SchedState.
Local Open Scope Z_scope.

(** ** Local variables *)

(** The local variables of [schedule]: the scheduled and preempted requests, the
    blocks, tokens, encoder inputs and speculative tokens granted so far, and the
    budgets that remain. *)
Record Step := mkStep {
  st_new : list string;
  st_resumed : list string;
  st_running : list string;
  st_preempted : list string;
  st_blocks : list (string * KVCacheBlocks);
  st_tokens : list (string * Z);
  st_budget : Z;
  st_encoder_inputs : list (string * list Z);
  st_encoder_budget : Z;
  st_spec : list (string * list Z);
  st_loras : gset Z;
  st_skipped : RequestQueue string
}.

Definition set_new (f : (list string) -> (list string)) (s : Step) : Step :=
  mkStep
    (f (st_new s)) (st_resumed s) (st_running s) (st_preempted s) (st_blocks s) (st_tokens s)
    (st_budget s) (st_encoder_inputs s) (st_encoder_budget s) (st_spec s) (st_loras s)
    (st_skipped s).
Definition set_resumed (f : (list string) -> (list string)) (s : Step) : Step :=
  mkStep
    (st_new s) (f (st_resumed s)) (st_running s) (st_preempted s) (st_blocks s) (st_tokens s)
    (st_budget s) (st_encoder_inputs s) (st_encoder_budget s) (st_spec s) (st_loras s)
    (st_skipped s).
Definition set_st_running (f : (list string) -> (list string)) (s : Step) : Step :=
  mkStep
    (st_new s) (st_resumed s) (f (st_running s)) (st_preempted s) (st_blocks s) (st_tokens s)
    (st_budget s) (st_encoder_inputs s) (st_encoder_budget s) (st_spec s) (st_loras s)
    (st_skipped s).
Definition set_preempted (f : (list string) -> (list string)) (s : Step) : Step :=
  mkStep
    (st_new s) (st_resumed s) (st_running s) (f (st_preempted s)) (st_blocks s) (st_tokens s)
    (st_budget s) (st_encoder_inputs s) (st_encoder_budget s) (st_spec s) (st_loras s)
    (st_skipped s).
Definition set_blocks (f : (list (string * KVCacheBlocks)) -> (list (string * KVCacheBlocks))) (s : Step) : Step :=
  mkStep
    (st_new s) (st_resumed s) (st_running s) (st_preempted s) (f (st_blocks s)) (st_tokens s)
    (st_budget s) (st_encoder_inputs s) (st_encoder_budget s) (st_spec s) (st_loras s)
    (st_skipped s).
Definition set_tokens (f : (list (string * Z)) -> (list (string * Z))) (s : Step) : Step :=
  mkStep
    (st_new s) (st_resumed s) (st_running s) (st_preempted s) (st_blocks s) (f (st_tokens s))
    (st_budget s) (st_encoder_inputs s) (st_encoder_budget s) (st_spec s) (st_loras s)
    (st_skipped s).
Definition set_budget (f : Z -> Z) (s : Step) : Step :=
  mkStep
    (st_new s) (st_resumed s) (st_running s) (st_preempted s) (st_blocks s) (st_tokens s)
    (f (st_budget s)) (st_encoder_inputs s) (st_encoder_budget s) (st_spec s) (st_loras s)
    (st_skipped s).
Definition set_encoder_inputs (f : (list (string * list Z)) -> (list (string * list Z))) (s : Step) : Step :=
  mkStep
    (st_new s) (st_resumed s) (st_running s) (st_preempted s) (st_blocks s) (st_tokens s)
    (st_budget s) (f (st_encoder_inputs s)) (st_encoder_budget s) (st_spec s) (st_loras s)
    (st_skipped s).
Definition set_encoder_budget (f : Z -> Z) (s : Step) : Step :=
  mkStep
    (st_new s) (st_resumed s) (st_running s) (st_preempted s) (st_blocks s) (st_tokens s)
    (st_budget s) (st_encoder_inputs s) (f (st_encoder_budget s)) (st_spec s) (st_loras s)
    (st_skipped s).
Definition set_spec (f : (list (string * list Z)) -> (list (string * list Z))) (s : Step) : Step :=
  mkStep
    (st_new s) (st_resumed s) (st_running s) (st_preempted s) (st_blocks s) (st_tokens s)
    (st_budget s) (st_encoder_inputs s) (st_encoder_budget s) (f (st_spec s)) (st_loras s)
    (st_skipped s).
Definition set_loras (f : (gset Z) -> (gset Z)) (s : Step) : Step :=
  mkStep
    (st_new s) (st_resumed s) (st_running s) (st_preempted s) (st_blocks s) (st_tokens s)
    (st_budget s) (st_encoder_inputs s) (st_encoder_budget s) (st_spec s) (f (st_loras s))
    (st_skipped s).
Definition set_st_skipped (f : (RequestQueue string) -> (RequestQueue string)) (s : Step) : Step :=
  mkStep
    (st_new s) (st_resumed s) (st_running s) (st_preempted s) (st_blocks s) (st_tokens s)
    (st_budget s) (st_encoder_inputs s) (st_encoder_budget s) (st_spec s) (st_loras s)
    (f (st_skipped s)).

(** The local variables of [_try_schedule_encoder_inputs]. *)
Record EncTrack := mkEncTrack {
  et_to_schedule : list Z;
  et_num_new_tokens : Z;
  et_budget : Z;
  et_external : list Z;
  et_hashes : list mm_hash;
  et_num_embeds : Z
}.

Section Schedule.
Context {C E : Type} (kvc : KVConnector C) (ecc : ECConnector E).
Context (cfg : SchedConfig) (use_int : bool) (sha256 : bytes -> bytes) (py_id : Request -> Z).
Context (set_order : forall A, list A -> list A).

Abbreviation SM := (M (Scheduler C E)).

(** ** Encoder inputs *)

(** [self.ec_connector is not None and self.ec_connector.has_cache_item(h)] *)
Definition external_item (h : mm_hash) (s : Scheduler C E) : bool :=
  match s_ec_connector s with None => false | Some e => ec_has_cache_item ecc h e end.

(** The loop of [_try_schedule_encoder_inputs] over the multimodal items. *)
Fixpoint encoder_loop (request : Request) (computed shift i : Z) (fs : list MultiModalFeatureSpec)
    (t : EncTrack) : SM EncTrack :=
  match fs with
  | [] => mret t
  | f :: fs' =>
      let start_pos := offset (mm_position f) in
      let num_encoder_tokens := length_ (mm_position f) in
      num_encoder_embeds ← lift_res (get_num_embeds (mm_position f)) ;
      let h := identifier f in
      let next := encoder_loop request computed shift (i + 1) fs' in
      let stop n := mret (mkEncTrack (et_to_schedule t) n (et_budget t) (et_external t) (et_hashes t) (et_num_embeds t)) in
      if computed + et_num_new_tokens t + shift <=? start_pos then mret t
      else if cf_is_encoder_decoder cfg && (0 <? computed) then
        py_assert (start_pos =? 0) ;; next t
      else if start_pos + num_encoder_tokens <=? computed then next t
      else
        cached ← (if cf_is_encoder_decoder cfg then mret false
                  else if bool_decide (h ∈ et_hashes t) then mret true
                  else on_enc (m_check_and_update_cache request i)) ;
        if (cached : bool) then next t
        else if cf_disable_chunked_mm_input cfg && (computed <? start_pos)
                && (computed + et_num_new_tokens t <? start_pos + num_encoder_tokens)
        then stop (Z.max 0 (start_pos - (computed + shift)))
        else
          ok ← on_enc (m_can_allocate request i (et_budget t) (et_num_embeds t)) ;
          if negb ok then
            stop (if computed + shift <? start_pos then start_pos - (computed + shift) else 0)
          else
            let start_idx_rel := Z.max 0 (computed - start_pos) in
            let end_idx_rel := Z.min num_encoder_tokens (computed + et_num_new_tokens t - start_pos) in
            idx ← lift_res (get_embeds_indices_in_range (mm_position f) start_idx_rel end_idx_rel) ;
            if idx.2 - idx.1 =? 0 then next t
            else
              ext ← gets (external_item h) ;
              if (ext : bool) then
                next (mkEncTrack (et_to_schedule t) (et_num_new_tokens t) (et_budget t) (et_external t ++ [i])
                        (et_hashes t ++ [h]) (et_num_embeds t + num_encoder_embeds))
              else
                next (mkEncTrack (et_to_schedule t ++ [i]) (et_num_new_tokens t) (et_budget t - num_encoder_embeds)
                        (et_external t) (et_hashes t ++ [h]) (et_num_embeds t + num_encoder_embeds))
  end.

(** [_try_schedule_encoder_inputs]: the inputs to schedule, the number of new
    tokens, the remaining compute budget and the inputs to load. *)
Definition try_schedule_encoder_inputs (request : Request) (computed num_new_tokens encoder_compute_budget shift : Z)
    : SM (list Z * Z * Z * list Z) :=
  if (num_new_tokens =? 0) || negb (has_encoder_inputs request)
  then mret ([], num_new_tokens, encoder_compute_budget, [])
  else
    t ← encoder_loop request computed shift 0 (mm_features request)
          (mkEncTrack [] num_new_tokens encoder_compute_budget [] [] 0) ;
    mret (et_to_schedule t, et_num_new_tokens t, et_budget t, et_external t).

(** [for i in inputs: self.encoder_cache_manager.allocate(request, i); ...] *)
Definition allocate_encoder_inputs (rid : string) (inputs : list Z) : SM unit :=
  forM_ inputs (fun i =>
    r ← robj rid ;
    on_enc (m_allocate r i) ;;
    on_ec_connector (ec_update_state_after_alloc ecc r i) ;;
    mret tt).

(** ** The running requests *)

(** [max(self.running, key=lambda r: (r.priority, r.arrival_time))]: the first of
    the largest. *)
Definition key_lt (a b : Request) : bool :=
  (priority a <? priority b) || ((priority a =? priority b) && (arrival_time a <? arrival_time b)).

Fixpoint max_request (s : Scheduler C E) (best : string) (l : list string) : string :=
  match l with
  | [] => best
  | x :: l' =>
      match s_objs s !! best, s_objs s !! x with
      | Some rb, Some rx => max_request s (if key_lt rb rx then x else best) l'
      | _, _ => max_request s best l'
      end
  end.

(** Taking a request that was scheduled in this step out of the step again. *)
Definition unschedule (rid : string) (st : Step) : SM Step :=
  tok ← lift_opt KeyError (od_pop rid (st_tokens st)) ;
  blk ← lift_opt KeyError (od_pop rid (st_blocks st)) ;
  let inputs := default [] (od_lookup rid (st_encoder_inputs st)) in
  r ← robj rid ;
  restored ← lift_res (foldr (fun i acc => n ← get_num_encoder_embeds r i ; m ← acc ; Ok (n + m)) (Ok 0) inputs) ;
  mret (mkStep (st_new st) (st_resumed st) (list_remove_first rid (st_running st)) (st_preempted st)
          blk.2 tok.2 (st_budget st + tok.1) (od_delete rid (st_encoder_inputs st))
          (st_encoder_budget st + restored) (od_delete rid (st_spec st)) (st_loras st) (st_skipped st)).

(** Choosing a victim; the step, [req_index] and the victim. *)
Definition choose_victim (st : Step) (req_index : nat) : SM (string * Step * nat) :=
  s ← gets (fun s => s) ;
  match cf_policy cfg with
  | PRIORITY =>
      match s_running s with
      | [] => raise ValueError
      | x :: l =>
          let preempted := max_request s x l in
          modify (set_running (list_remove_first preempted)) ;;
          if decide (preempted ∈ st_running st) then
            st' ← unschedule preempted st ; mret (preempted, st', (req_index - 1)%nat)
          else mret (preempted, st, req_index)
      end
  | FCFS =>
      match last (s_running s) with
      | None => raise IndexError
      | Some preempted => modify (set_running (fun l => removelast l)) ;; mret (preempted, st, req_index)
      end
  end.

(** The [while True] loop that allocates slots or preempts; [None]: the request
    itself was preempted. *)
Fixpoint allocate_or_preempt (fuel : nat) (rid : string) (num_new_tokens timestamp : Z) (st : Step)
    (req_index : nat) : SM (option KVCacheBlocks * Step * nat) :=
  match fuel with
  | O => raise FuelExhausted
  | S fuel' =>
      r ← robj rid ;
      new_blocks ← on_kv (allocate_slots use_int sha256 r num_new_tokens 0 None (cf_num_lookahead_tokens cfg) 0 false 0) ;
      match new_blocks with
      | Some b => mret (Some b, st, req_index)
      | None =>
          v ← choose_victim st req_index ;
          let '(preempted, st', req_index') := v in
          preempt_request cfg py_id set_order preempted timestamp ;;
          let st' := set_preempted (fun l => l ++ [preempted]) st' in
          if decide (preempted = rid) then mret (None, st', req_index')
          else allocate_or_preempt fuel' rid num_new_tokens timestamp st' req_index'
      end
  end.

(** Async scheduling: no step is needed when the previous one is sure to reach
    [max_tokens]. *)
Definition reached_max_tokens (r : Request) : bool :=
  (0 <? num_output_placeholders r)
  && (num_prompt_tokens r + max_tokens r <=? num_computed_tokens r + 2 - num_output_placeholders r).

(** [if 0 < threshold < n: n = threshold] *)
Definition cap_long_prefill (n : Z) : Z :=
  let threshold := cf_long_prefill_token_threshold cfg in
  if (0 <? threshold) && (threshold <? n) then threshold else n.

(** The number of tokens asked for, before the encoder inputs. *)
Definition running_num_new_tokens (r : Request) (token_budget : Z) : Z :=
  let n := num_tokens_with_spec r + num_output_placeholders r - num_computed_tokens r in
  let n := Z.min (cap_long_prefill n) token_budget in
  Z.min n (cf_max_model_len cfg - 1 - num_computed_tokens r).

Definition eagle_shift : Z := if cf_use_eagle cfg then 1 else 0.

(** The speculative tokens that go with a granted request. *)
Definition scheduled_spec (r : Request) (num_new_tokens : Z) : option (list Z) :=
  match spec_token_ids r with
  | [] => None
  | spec =>
      let n := num_new_tokens + num_computed_tokens r - num_tokens r - num_output_placeholders r in
      if 0 <? n then Some (if n <? zlen spec then py_slice_to spec n else spec) else None
  end.

(** The tail of the loop body, for a request that got its blocks. *)
Definition schedule_running (rid : string) (num_new_tokens : Z) (b : KVCacheBlocks)
    (inputs external : list Z) (new_budget : Z) (st : Step) : SM Step :=
  r ← robj rid ;
  let spec := scheduled_spec r num_new_tokens in
  when (negb (bool_decide (spec_token_ids r = []))) (upd rid (set_spec_token_ids (fun _ => []))) ;;
  allocate_encoder_inputs rid inputs ;;
  allocate_encoder_inputs rid external ;;
  let scheduled := negb (bool_decide (inputs = [])) in
  mret (mkStep (st_new st) (st_resumed st) (st_running st ++ [rid]) (st_preempted st)
          (od_set rid b (st_blocks st)) (od_set rid num_new_tokens (st_tokens st)) (st_budget st - num_new_tokens)
          (if scheduled then od_set rid inputs (st_encoder_inputs st) else st_encoder_inputs st)
          (if scheduled then new_budget else st_encoder_budget st)
          (match spec with Some l => od_set rid l (st_spec st) | None => st_spec st end)
          (st_loras st) (st_skipped st)).

(** The [while] loop over [self.running]. *)
Fixpoint running_loop (fuel : nat) (timestamp : Z) (st : Step) (req_index : nat) : SM Step :=
  match fuel with
  | O => raise FuelExhausted
  | S fuel' =>
      running ← gets s_running ;
      if negb ((req_index <? length running)%nat && (0 <? st_budget st)) then mret st
      else
        rid ← lift_opt IndexError (running !! req_index) ;
        r ← robj rid ;
        if reached_max_tokens r then running_loop fuel' timestamp st (req_index + 1)
        else
          enc ← (if has_encoder_inputs r
                 then try_schedule_encoder_inputs r (num_computed_tokens r)
                        (running_num_new_tokens r (st_budget st)) (st_encoder_budget st) eagle_shift
                 else mret ([], running_num_new_tokens r (st_budget st), st_encoder_budget st, [])) ;
          let '(inputs, n, new_budget, external) := enc in
          n ← lift_res (if cf_need_mamba_block_aligned_split cfg then mamba_block_aligned_split cfg r n 0 0 else Ok n) ;
          if n =? 0 then running_loop fuel' timestamp st (req_index + 1)
          else
            res ← allocate_or_preempt (S (length running)) rid n timestamp st req_index ;
            let '(new_blocks, st, req_index) := res in
            match new_blocks with
            | None => mret st
            | Some b =>
                st ← schedule_running rid n b inputs external new_budget st ;
                running_loop fuel' timestamp st (req_index + 1)
            end
  end.

(** ** The waiting requests *)

(** Whether the loop goes on. *)
Inductive Flow := Break (st : Step) | Continue (st : Step).

(** [request_queue.pop_request(); step_skipped_waiting.prepend_request(request)] *)
Definition skip_request (q : QueueRef) (rid : string) (st : Step) : SM Flow :=
  pop_request py_id q ;;
  s ← gets (fun s => s) ;
  mret (Continue (set_st_skipped (q_prepend (q_lt py_id s) rid) st)).

(** The computed tokens of a waiting request. *)
Record Computed := mkComputed {
  cp_blocks : KVCacheBlocks;
  cp_local : Z;           (* num_new_local_computed_tokens *)
  cp_external : Z;        (* num_external_computed_tokens *)
  cp_load_async : bool;
  cp_total : Z;           (* num_computed_tokens *)
  cp_queries : Z;
  cp_hits : Z
}.

(** "Get already-cached tokens"; [None]: the connector cannot tell yet. *)
Definition get_computed (rid : string) : SM (option Computed) :=
  r ← robj rid ;
  if num_computed_tokens r =? 0 then
    hit ← on_kv (get_computed_blocks r) ;
    let '(new_computed_blocks, local) := hit in
    m ← on_connector (kc_get_num_new_matched_tokens kvc r local) ;
    c ← (match m with
         | None => mret (Some (mkComputed new_computed_blocks local 0 false local 0 0))
         | Some (None, _) => mret None
         | Some (Some ext, load_async) =>
             upd rid (set_num_external_computed_tokens (fun _ => ext)) ;;
             mret (Some (mkComputed new_computed_blocks local ext load_async (local + ext)
                           (num_tokens r - local) ext))
         end) ;
    match c with
    | None => mret None
    | Some c => py_assert (cp_total c <=? num_tokens r) ;; mret (Some c)
    end
  else
    k ← gets s_kv_cache_manager ;
    mret (Some (mkComputed (empty_kv_cache_blocks k) 0 0 false (num_computed_tokens r) 0 0)).

(** "Number of tokens to be scheduled" and the encoder inputs; [None]: break. *)
Definition waiting_new_tokens (rid : string) (c : Computed) (st : Step) : SM (option (list Z * Z * Z * list Z)) :=
  if cp_load_async c then
    py_assert (0 <? cp_external c) ;; mret (Some ([], 0, st_encoder_budget st, []))
  else
    r ← robj rid ;
    let n := cap_long_prefill (num_tokens r - cp_total c) in
    if negb (cf_enable_chunked_prefill cfg) && (st_budget st <? n) then mret None
    else
      let n := Z.min n (st_budget st) in
      py_assert (0 <? n) ;;
      if has_encoder_inputs r then
        enc ← try_schedule_encoder_inputs r (cp_total c) n (st_encoder_budget st) eagle_shift ;
        if enc.1.1.2 =? 0 then mret None else mret (Some enc)
      else mret (Some ([], n, st_encoder_budget st, [])).

(** [if request.has_encoder_inputs: self.encoder_cache_manager.free(request)] *)
Definition untouch_encoder (rid : string) : SM unit :=
  r ← robj rid ; when (has_encoder_inputs r) (on_enc (m_free set_order r)).

(** The blocks of a waiting request; [None]: break. *)
Definition waiting_allocate (rid : string) (c : Computed) (n : Z) (inputs : list Z) : SM (option KVCacheBlocks) :=
  r ← robj rid ;
  let effective_lookahead_tokens := if num_computed_tokens r =? 0 then 0 else cf_num_lookahead_tokens cfg in
  num_encoder_tokens ← lift_res
    (if cf_is_encoder_decoder cfg && has_encoder_inputs r
     then foldr (fun i acc => n ← get_num_encoder_embeds r i ; m ← acc ; Ok (n + m)) (Ok 0) inputs
     else Ok 0) ;
  fits ← (if cf_scheduler_reserve_full_isl cfg
          then on_kv (can_fit_full_sequence r (cp_local c) (Some (cp_blocks c)) (cp_external c) num_encoder_tokens)
          else mret true) ;
  if negb fits then untouch_encoder rid ;; mret None
  else
    new_blocks ← on_kv (allocate_slots use_int sha256 r n (cp_local c) (Some (cp_blocks c)) effective_lookahead_tokens
                          (cp_external c) (cp_load_async c) num_encoder_tokens) ;
    match new_blocks with
    | None => untouch_encoder rid ;; mret None
    | Some b =>
        k ← gets s_kv_cache_manager ;
        u ← on_connector (kc_update_state_after_alloc kvc r (get_blocks rid k) (cp_external c)) ;
        when (negb (is_none u) && negb (cp_queries c =? 0))
          (modify (set_connector_prefix_cache_stats
             (fmap (stats_record (cp_queries c) (cp_hits c) (0 <? num_preemptions r))))) ;;
        mret (Some b)
    end.

(** The tail of the loop body: the request leaves its queue and runs, or waits
    for the blocks the connector loads. *)
Definition admit_request (q : QueueRef) (peeked : string) (timestamp : Z) (c : Computed) (n : Z)
    (inputs external : list Z) (new_budget : Z) (st : Step) : SM Flow :=
  rid ← pop_request py_id q ;
  if cp_load_async c then
    upd rid (set_status (fun _ => WAITING_FOR_REMOTE_KVS)) ;;
    s ← gets (fun s => s) ;
    let st := set_st_skipped (q_prepend (q_lt py_id s) rid) st in
    upd rid (set_num_computed_tokens (fun _ => cp_total c)) ;;
    mret (Continue st)
  else
    modify (set_running (fun l => l ++ [rid])) ;;
    when (cf_log_stats cfg) (on_request rid (record_event timestamp SCHEDULED (Some timestamp))) ;;
    r ← robj rid ;
    st ← (match status r with
          | WAITING => mret (set_new (fun l => l ++ [rid]) st)
          | PREEMPTED => mret (set_resumed (fun l => l ++ [rid]) st)
          | _ => raise RuntimeError
          end) ;
    let loras := match cf_max_loras cfg, lora_request r with
                 | Some _, Some l => {[lora_int_id l]} ∪ st_loras st
                 | _, _ => st_loras st
                 end in
    k ← gets s_kv_cache_manager ;
    upd rid (set_status (fun _ => RUNNING)) ;;
    upd rid (set_num_computed_tokens (fun _ => cp_total c)) ;;
    when (num_cached_tokens r <? 0) (upd rid (set_num_cached_tokens (fun _ => cp_total c))) ;;
    allocate_encoder_inputs rid inputs ;;
    allocate_encoder_inputs rid external ;;
    let scheduled := negb (bool_decide (inputs = [])) in
    mret (Continue (mkStep (st_new st) (st_resumed st) (st_running st) (st_preempted st)
            (od_set peeked (get_blocks peeked k) (st_blocks st)) (od_set peeked n (st_tokens st)) (st_budget st - n)
            (if scheduled then od_set peeked inputs (st_encoder_inputs st) else st_encoder_inputs st)
            (if scheduled then new_budget else st_encoder_budget st) (st_spec st) loras (st_skipped st))).

(** [self.lora_config and request.lora_request and (...)] *)
Definition exceeds_max_loras (r : Request) (st : Step) : bool :=
  match cf_max_loras cfg, lora_request r with
  | Some max_loras, Some l =>
      (Z.of_nat (size (st_loras st)) =? max_loras) && negb (bool_decide (lora_int_id l ∈ st_loras st))
  | _, _ => false
  end.

(** One round of the loop, for the request at the head of queue [q]. *)
Definition waiting_round (q : QueueRef) (timestamp : Z) (st : Step) : SM Flow :=
  s ← gets (fun s => s) ;
  rid ← lift_res (q_peek (queue_at q s)) ;
  r ← robj rid ;
  promoted ← (if is_blocked_waiting_status (status r)
              then try_promote_blocked_waiting_request use_int sha256 rid else mret true) ;
  if negb promoted then skip_request q rid st
  else
    r ← robj rid ;
    if exceeds_max_loras r st then skip_request q rid st
    else
      c ← get_computed rid ;
      match c with
      | None => skip_request q rid st
      | Some c =>
          enc ← waiting_new_tokens rid c st ;
          match enc with
          | None => mret (Break st)
          | Some (inputs, n, new_budget, external) =>
              r ← robj rid ;
              n' ← lift_res (if cf_need_mamba_block_aligned_split cfg
                             then mamba_block_aligned_split cfg r n (cp_local c) (cp_external c) else Ok n) ;
              if cf_need_mamba_block_aligned_split cfg && (n' =? 0) then mret (Break st)
              else
                b ← waiting_allocate rid c n' inputs ;
                match b with
                | None => mret (Break st)
                | Some _ => admit_request q rid timestamp c n' inputs external new_budget st
                end
          end
      end.

(** The [while] loop over the waiting queues. *)
Fixpoint waiting_loop (fuel : nat) (timestamp : Z) (st : Step) : SM Step :=
  match fuel with
  | O => raise FuelExhausted
  | S fuel' =>
      s ← gets (fun s => s) ;
      if negb ((q_bool (s_waiting s) || q_bool (s_skipped_waiting s)) && (0 <? st_budget st)) then mret st
      else if zlen (s_running s) =? cf_max_num_running_reqs cfg then mret st
      else
        q ← select_waiting_queue_for_scheduling cfg py_id ;
        q ← lift_opt AssertionError q ;
        f ← waiting_round q timestamp st ;
        match f with
        | Break st' => mret st'
        | Continue st' => waiting_loop fuel' timestamp st'
        end
  end.

(** ** The output *)

(** [_make_cached_request_data]: one request, [idx] places from the start. *)
Definition cached_request_step (num_running_reqs : nat) (st : Step) (d : CachedRequestData) (ir : nat * string)
    : SM CachedRequestData :=
  let '(idx, req_id) := ir in
  req ← robj req_id ;
  scheduled ← lift_opt KeyError (od_lookup req_id (st_tokens st)) ;
  let num_tokens := scheduled - zlen (default [] (od_lookup req_id (st_spec st))) in
  let new_token_ids :=
    if cf_use_pp cfg && negb (cf_async_scheduling cfg)
    then cr_new_token_ids d
         ++ [py_slice (all_token_ids req) (num_computed_tokens req) (num_computed_tokens req + num_tokens)]
    else cr_new_token_ids d in
  prev ← gets s_prev_step_scheduled_req_ids ;
  let scheduled_in_prev_step := bool_decide (req_id ∈ prev) in
  let resumed := (num_running_reqs <=? idx)%nat in
  when resumed (py_assert (negb scheduled_in_prev_step)) ;;
  b ← lift_opt KeyError (od_lookup req_id (st_blocks st)) ;
  k ← gets s_kv_cache_manager ;
  mret (mkCachedRequestData (cr_req_ids d ++ [req_id])
          (if resumed then {[req_id]} ∪ cr_resumed_req_ids d else cr_resumed_req_ids d)
          new_token_ids
          (if scheduled_in_prev_step then cr_all_token_ids d else od_set req_id (all_token_ids req) (cr_all_token_ids d))
          (cr_new_block_ids d ++ [blocks_get_block_ids (Coordinator.block_pool (coordinator k)) true b])
          (cr_num_computed_tokens d ++ [num_computed_tokens req])
          (cr_num_output_tokens d ++ [num_output_tokens req + num_output_placeholders req])).

Definition make_cached_request_data (running_reqs resumed_reqs : list string) (st : Step) : SM CachedRequestData :=
  foldM (cached_request_step (length running_reqs) st) cached_make_empty
    (imap pair (running_reqs ++ resumed_reqs)).

(** [NewRequestData.from_request] for each new request. *)
Definition make_new_request_data (reqs : list string) (st : Step) : SM (list NewRequestData) :=
  foldM (fun acc rid =>
    r ← robj rid ;
    b ← lift_opt KeyError (od_lookup rid (st_blocks st)) ;
    k ← gets s_kv_cache_manager ;
    mret (acc ++ [new_request_data r (blocks_get_block_ids (Coordinator.block_pool (coordinator k)) false b)
                    (if cf_use_v2_model_runner cfg then Some (all_token_ids r) else None)])) [] reqs.

(** [Scheduler._update_after_schedule] *)
Definition base_update_after_schedule (o : SchedulerOutput) : SM SchedulerOutput :=
  o ← foldM (fun o (it : string * Z) =>
    let '(req_id, num_scheduled_token) := it in
    requests_item req_id ;;
    upd req_id (set_num_computed_tokens (fun n => n + num_scheduled_token)) ;;
    r ← robj req_id ;
    let chunk := num_computed_tokens r <? num_tokens r + num_output_placeholders r in
    upd req_id (set_is_prefill_chunk (fun _ => chunk)) ;;
    when (has_encoder_inputs r) (free_encoder_inputs cfg set_order req_id) ;;
    mret (or_structured_output (use_structured_output r && negb chunk) false o)) o (so_num_scheduled_tokens o) ;
  modify (set_finished_req_ids (fun _ => ∅)) ;;
  mret o.

(** [AsyncScheduler._update_after_schedule] *)
Definition async_update_after_schedule (o : SchedulerOutput) : SM SchedulerOutput :=
  o ← base_update_after_schedule o ;
  foldM (fun o (it : string * Z) =>
    r ← requests_item it.1 ;
    if is_prefill_chunk r then mret o
    else
      let o := or_structured_output false (use_structured_output r && (0 <? num_output_placeholders r)) o in
      let cur_num_spec_tokens := zlen (default [] (od_lookup it.1 (so_scheduled_spec_decode_tokens o))) in
      upd it.1 (set_num_output_placeholders (fun n => n + (1 + cur_num_spec_tokens))) ;;
      upd it.1 (set_spec_token_ids (fun _ => zreplicate (cf_num_spec_tokens cfg) (-1))) ;;
      mret o) o (so_num_scheduled_tokens o).

Definition update_after_schedule (o : SchedulerOutput) : SM SchedulerOutput :=
  if cf_async_class cfg then async_update_after_schedule o else base_update_after_schedule o.

(** The local variables at the start of a step. *)
Definition init_step (pause : PauseState) : Step :=
  mkStep [] [] [] [] [] []
    (if decide (pause = PAUSED_ALL) then 0 else cf_max_num_scheduled_tokens cfg) []
    (cf_max_num_encoder_input_tokens cfg) [] ∅ (create_request_queue (cf_policy cfg)).

(** "Record the LoRAs in scheduled_running_reqs" *)
Definition record_loras (st : Step) : SM Step :=
  match cf_max_loras cfg with
  | None => mret st
  | Some max_loras =>
      s ← gets (fun s => s) ;
      let ids := omap (fun rid => r ← s_objs s !! rid ; l ← lora_request r ;
                         if 0 <? lora_int_id l then Some (lora_int_id l) else None) (st_running st) in
      let loras : gset Z := list_to_set ids in
      py_assert (Z.of_nat (size loras) <=? max_loras) ;;
      mret (set_loras (fun _ => loras) st)
  end.

(** The second half: the waiting requests, unless a request was preempted. *)
Definition schedule_waiting (timestamp : Z) (st : Step) : SM Step :=
  pause ← gets s_pause_state ;
  if bool_decide (st_preempted st = []) && bool_decide (pause = UNPAUSED) then
    s ← gets (fun s => s) ;
    st ← waiting_loop (S (q_len (s_waiting s) + q_len (s_skipped_waiting s))) timestamp st ;
    when (q_bool (st_skipped st))
      (modify (fun s => set_skipped_waiting (prepend_requests (q_lt py_id s) (st_skipped st)) s)) ;;
    mret st
  else mret st.

(** "Check if the scheduling constraints are satisfied." *)
Definition check_constraints (st : Step) : SM unit :=
  running ← gets s_running ;
  py_assert (zsum (map snd (st_tokens st)) <=? cf_max_num_scheduled_tokens cfg) ;;
  py_assert (0 <=? st_budget st) ;;
  py_assert (zlen running <=? cf_max_num_running_reqs cfg) ;;
  py_assert (zlen (st_new st) + zlen (st_resumed st) + zlen (st_running st) <=? zlen running).

(** "Construct the scheduler output." *)
Definition make_output (st : Step) : SM SchedulerOutput :=
  running ← gets s_running ;
  groups ← gets (fun s => num_kv_cache_groups (s_kv_cache_manager s)) ;
  common ← (match running with
            | [] => mret (replicate groups 0)
            | rid :: _ => on_kv (kv_num_common_prefix_blocks rid)
            end) ;
  let v2 := cf_use_v2_model_runner cfg in
  let new_reqs := if v2 then st_new st ++ st_resumed st else st_new st in
  let resumed := if v2 then [] else st_resumed st in
  new_data ← make_new_request_data new_reqs st ;
  cached ← make_cached_request_data (st_running st) resumed st ;
  modify (set_prev_step_scheduled_req_ids (fun _ => list_to_set (od_keys (st_tokens st)))) ;;
  to_zero ← (if cf_needs_kv_cache_zeroing cfg
             then ids ← on_kv kv_take_new_block_ids ; mret (match ids with [] => None | _ => Some ids end)
             else mret None) ;
  finished ← gets s_finished_req_ids ;
  freed ← on_enc m_get_freed_mm_hashes ;
  mret (mkSchedulerOutput new_data cached (st_tokens st) (zsum (map snd (st_tokens st))) (st_spec st)
          (st_encoder_inputs st) common (Some (list_to_set (st_preempted st))) finished freed false false None to_zero).

(** The part of [schedule] that decides what runs: the loop over the running
    requests, and the loop over the waiting ones. *)
Definition decide_step (now : Z) (pause : PauseState) : SM Step :=
  running ← gets s_running ;
  st ← running_loop (S (length running)) now (init_step pause) 0 ;
  st ← record_loras st ;
  schedule_waiting now st.

(** [schedule] *)
Definition schedule (now : Z) : SM SchedulerOutput :=
  pause ← gets s_pause_state ;
  on_kv kv_new_step_starts ;;
  st ← decide_step now pause ;
  check_constraints st ;;
  o ← make_output st ;
  on_connector (kc_build_connector_meta kvc o) ;;
  on_ec_connector (ec_build_connector_meta ecc o) ;;
  update_after_schedule o.
End Schedule.
