(* ===== verification/SchedUpdate.v ===== *)
(** What happens between two scheduling steps: processing the model's output
    ([update_from_output]), draft tokens, new, finished and aborted requests,
    streaming sessions, connector events and resets. *)
From S2P Require Import Prelude PyDict Request BlockPool SingleType Coordinator KVManager.
From S2P Require Import SchedUtils EncoderCache RequestQueue SchedState SchedStep.
From Stdlib Require Import QArith.
Local Open Scope Z_scope.

(** ** Data *)

(** [ModelRunnerOutput], the part the scheduler reads: pooler outputs and logprobs
    are tensors, of which only the presence matters. *)
Record ModelRunnerOutput := mkModelRunnerOutput {
  mr_req_id_to_index : gmap string Z;
  mr_sampled_token_ids : list (list Z);
  mr_pooler_output : option (list bool);
  mr_prompt_logprobs : gset string;
  mr_kv_connector_output : option KVConnectorOutput;
  mr_num_nans_in_logits : option (gmap string Z)
}.

(** [EngineCoreOutput] without its tensors. *)
Record EngineCoreOutput := mkEngineCoreOutput {
  eo_request_id : string;
  eo_new_token_ids : list Z;
  eo_pooling_output : bool;
  eo_finish_reason : option FinishReason;
  eo_stop_reason : option StopReason;
  eo_events : option (list EngineCoreEvent);
  eo_kv_transfer_params : option any;
  eo_num_cached_tokens : Z;
  eo_num_external_computed_tokens : Z;
  eo_num_nans_in_logits : Z
}.

(** [SpecDecodingStats], the counters of one step. *)
Record SpecDecodingStats := mkSpecStats {
  sd_num_spec_tokens : Z;
  sd_num_drafts : Z;
  sd_num_draft_tokens : Z;
  sd_num_accepted_tokens : Z;
  sd_num_accepted_tokens_per_pos : list Z
}.

(** [SpecDecodingStats.new] and [observe_draft] *)
Definition spec_stats_new (num_spec_tokens : Z) : SpecDecodingStats :=
  mkSpecStats num_spec_tokens 0 0 0 (zreplicate num_spec_tokens 0).
Definition observe_draft (num_draft_tokens num_accepted_tokens : Z) (d : SpecDecodingStats) : res SpecDecodingStats :=
  if num_accepted_tokens <=? sd_num_spec_tokens d then
    Ok (mkSpecStats (sd_num_spec_tokens d) (sd_num_drafts d + 1) (sd_num_draft_tokens d + num_draft_tokens)
          (sd_num_accepted_tokens d + num_accepted_tokens)
          (imap (fun i n => if Z.of_nat i <? num_accepted_tokens then n + 1 else n) (sd_num_accepted_tokens_per_pos d)))
  else Err AssertionError.

(** [SchedulerStats], without the payloads of connectors and profilers. *)
Record SchedulerStats := mkSchedulerStats {
  ss_num_running_reqs : Z;
  ss_num_waiting_reqs : Z;
  ss_kv_cache_usage : Q;
  ss_encoder_cache_usage : Q;
  ss_prefix_cache_stats : option PrefixCacheStats;
  ss_connector_prefix_cache_stats : option PrefixCacheStats;
  ss_spec_decoding_stats : option SpecDecodingStats
}.

(** [EngineCoreOutputs] *)
Record EngineCoreOutputs := mkEngineCoreOutputs {
  eos_outputs : list EngineCoreOutput;
  eos_scheduler_stats : option SchedulerStats;
  eos_finished_requests : option (gset string)
}.

(** The argument of [finish_requests]: a string, an iterable or [None]. *)
Inductive FinishIds := FinishOne (rid : string) | FinishMany (rids : gset string) | FinishAll.

(** The structured output manager: the reasoning parser and the grammar backends
    are plugins; a grammar's answers are functions of the request. *)
Record StructuredOutputManager := mkStructuredOutputManager {
  sm_reasoner : option (list Z -> list Z -> bool);  (* [is_reasoning_end_streaming] *)
  sm_enable_in_reasoning : bool;
  sm_accept_tokens : Request -> list Z -> bool;
  sm_validate_tokens : Request -> list Z -> list Z
}.

(** [StructuredOutputManager.should_advance] *)
Definition should_advance (m : StructuredOutputManager) : M Request bool :=
  r ← gets (fun r => r) ;
  match structured_output_request r, sm_reasoner m with
  | None, _ => mret false
  | Some _, None => mret true
  | Some so, Some is_reasoning_end =>
      if sm_enable_in_reasoning m then mret true
      else if default false (so_reasoning_ended so) then mret true
      else
        let delta_from := num_computed_tokens r - num_output_placeholders r in
        let start := if 0 <=? delta_from then delta_from else Z.max (num_tokens r + delta_from) 0 in
        when (is_reasoning_end (all_token_ids r) (py_slice_from (all_token_ids r) start))
          (modify (set_structured_output_request
             (fmap (fun so => mkStructuredOutputRequest (so_params so) (so_grammar_ready so) (Some true))))) ;;
        mret false
  end.

Section Update.
Context {C E : Type} (kvc : KVConnector C) (ecc : ECConnector E).
Context (cfg : SchedConfig) (use_int : bool) (sha256 : bytes -> bytes) (py_id : Request -> Z).
Context (block_hasher : option BlockHasher) (set_order : forall A, list A -> list A) (som : StructuredOutputManager).

Abbreviation SM := (M (Scheduler C E)).

(** ** Streaming sessions *)

(** [_update_request_as_session] *)
Definition update_request_as_session (rid : string) (update : StreamingUpdate) (now : Z) : SM unit :=
  session ← robj rid ;
  let computed := num_computed_tokens session in
  let kept_output_tokens := py_slice (all_token_ids session) (num_prompt_tokens session) computed in
  upd rid (set_all_token_ids (fun l => py_slice_to l computed)) ;;
  upd rid (set_output_token_ids (fun _ => [])) ;;
  py_assert (negb (is_none (prompt_token_ids session))) ;;
  upd rid (set_prompt_token_ids (fmap (fun l => l ++ kept_output_tokens))) ;;
  session ← robj rid ;
  let base := num_tokens session in
  let shift f := mkFeature (identifier f) (modality f)
                   (mkPlaceholderRange (offset (mm_position f) + base) (length_ (mm_position f)) (is_embed (mm_position f))) in
  upd rid (set_mm_features (fun l => l ++ map shift (default [] (su_mm_features update)))) ;;
  let new_tokens := default [] (su_prompt_token_ids update) in
  upd rid (set_all_token_ids (fun l => l ++ new_tokens)) ;;
  upd rid (set_prompt_token_ids (fmap (fun l => l ++ new_tokens))) ;;
  on_request rid (update_block_hashes block_hasher) ;;
  upd rid (fun r => set_num_prompt_tokens (fun _ => zlen (default [] (prompt_token_ids r))) r) ;;
  upd rid (set_arrival_time (fun _ => su_arrival_time update)) ;;
  upd rid (set_sampling_params (fun _ => su_sampling_params update)) ;;
  session ← robj rid ;
  when (bool_decide (status session = WAITING_FOR_STREAMING_REQ))
    (modify (set_num_waiting_for_streaming_input (fun n => n - 1))) ;;
  upd rid (set_status (fun _ => WAITING)) ;;
  when (cf_log_stats cfg) (on_request rid (record_event now QUEUED None)).

(** [_handle_stopped_request] *)
Definition handle_stopped_request (rid : string) (now : Z) : SM bool :=
  r ← robj rid ;
  if negb (resumable r) then mret true
  else
    match streaming_queue r with
    | Some (update :: rest) =>
        upd rid (set_streaming_queue (fun _ => Some rest)) ;;
        match update with
        | None => mret true
        | Some update =>
            update_request_as_session rid update now ;;
            enqueue_waiting_request py_id rid ;; mret false
        end
    | _ =>
        upd rid (set_status (fun _ => WAITING_FOR_STREAMING_REQ)) ;;
        modify (set_num_waiting_for_streaming_input (fun n => n + 1)) ;;
        enqueue_waiting_request py_id rid ;; mret false
    end.

(** ** Freeing *)

(** [_free_blocks] *)
Definition free_blocks_of (rid : string) : SM unit :=
  r ← robj rid ;
  py_assert (is_finished r) ;;
  on_kv (kv_free r) ;;
  present ← gets (fun s => bool_decide (rid ∈ s_requests s)) ;
  if (present : bool) then modify (set_requests (list_remove_first rid)) else raise KeyError.

(** [_connector_finished] *)
Definition connector_finished (rid : string) : SM (bool * option any) :=
  c ← gets s_connector ;
  match c with
  | None => mret (false, None)
  | Some _ =>
      r ← robj rid ;
      on_kv (kv_remove_skipped_blocks rid (num_tokens r)) ;;
      block_ids ← gets (fun s => default [] (get_block_ids rid (s_kv_cache_manager s))) ;
      if negb (kc_supports_hma kvc) then
        groups ← gets (fun s => num_kv_cache_groups (s_kv_cache_manager s)) ;
        py_assert (groups =? 1)%nat ;;
        ids ← lift_opt IndexError (head block_ids) ;
        x ← on_connector (kc_request_finished kvc r ids) ;
        mret (default (false, None) x)
      else
        x ← on_connector (kc_request_finished_all_groups kvc r block_ids) ;
        mret (default (false, None) x)
  end.

(** [defaultdict(set)[k].add(x)] *)
Definition dict_set_add (k : Z) (x : string) (d : list (Z * gset string)) : list (Z * gset string) :=
  od_set k ({[x]} ∪ default ∅ (od_lookup k d)) d.

(** [_free_request] *)
Definition free_request (rid : string) (delay_free_blocks : bool) : SM (option any) :=
  r ← robj rid ;
  py_assert (is_finished r) ;;
  cf ← connector_finished rid ;
  let '(connector_delay_free_blocks, kv_xfer_params) := cf in
  on_enc (m_free set_order r) ;;
  modify (set_finished_req_ids (fun s => {[rid]} ∪ s)) ;;
  modify (set_finished_req_ids_dict (fmap (dict_set_add (client_index r) rid))) ;;
  when (negb (delay_free_blocks || connector_delay_free_blocks)) (free_blocks_of rid) ;;
  mret kv_xfer_params.

(** [finish_requests]: the first pass. *)
Definition collect_finishing (ids : list string) : SM (list string * gset string * list string) :=
  foldM (fun acc req_id =>
    let '(valid, running, waiting) := acc in
    o ← requests_get req_id ;
    match o with
    | None => mret acc
    | Some r =>
        if is_finished r then mret acc
        else if decide (status r = RUNNING) then mret (valid ++ [req_id], {[req_id]} ∪ running, waiting)
        else
          when (bool_decide (status r = WAITING_FOR_STREAMING_REQ))
            (modify (set_num_waiting_for_streaming_input (fun n => n - 1))) ;;
          mret (valid ++ [req_id], running, waiting ++ [req_id])
    end) ([], ∅, []) ids.

(** [finish_requests] *)
Definition finish_requests (request_ids : FinishIds) (finished_status : RequestStatus) : SM (list (string * Z)) :=
  py_assert (status_is_finished finished_status) ;;
  keys ← gets s_requests ;
  let ids := match request_ids with
             | FinishOne rid => [rid]
             | FinishMany rids => set_order string (elements rids)
             | FinishAll => keys
             end in
  acc ← collect_finishing ids ;
  let '(valid, running, waiting) := acc in
  when (negb (bool_decide (running = ∅))) (modify (set_running (fun l => remove_all l running))) ;;
  when (negb (bool_decide (waiting = [])))
    (modify (fun s => set_waiting (q_remove_all (q_lt py_id s) waiting) s) ;;
     modify (fun s => set_skipped_waiting (q_remove_all (q_lt py_id s) waiting) s)) ;;
  forM_ valid (fun rid =>
    r ← robj rid ;
    delay ← (if decide (status r = WAITING_FOR_REMOTE_KVS) then
               d ← gets (fun s => negb (bool_decide (rid ∈ s_finished_recving_kv_req_ids s))) ;
               modify (set_finished_recving_kv_req_ids (fun x => x ∖ {[rid]})) ;;
               modify (set_failed_recving_kv_req_ids (fun x => x ∖ {[rid]})) ;;
               mret d
             else mret false) ;
    upd rid (set_status (fun _ => finished_status)) ;;
    free_request rid delay ;; mret tt) ;;
  foldM (fun acc rid => r ← robj rid ; mret (acc ++ [(rid, client_index r)])) [] valid.

(** [add_request] *)
Definition add_request (request : Request) (now : Z) : SM unit :=
  let rid := request_id request in
  existing ← requests_get rid ;
  match existing with
  | Some ex =>
      let update := streaming_update_from_request request in
      if negb (bool_decide (status ex = WAITING_FOR_STREAMING_REQ)) then
        py_assert (negb (is_none (streaming_queue ex))) ;;
        upd rid (set_streaming_queue (fmap (fun q => q ++ [update])))
      else
        match update with
        | Some update => update_request_as_session rid update now
        | None => finish_requests (FinishOne rid) FINISHED_ABORTED ;; mret tt
        end
  | None =>
      let request := if resumable request then set_streaming_queue (fun _ => Some []) request else request in
      modify (set_objs (fun o => <[rid := request]> o)) ;;
      enqueue_waiting_request py_id rid ;;
      modify (set_requests (fun l => l ++ [rid])) ;;
      when (cf_log_stats cfg) (on_request rid (record_event now QUEUED None))
  end.

(** ** Connector events *)

(** [_update_from_kv_xfer_finished] *)
Definition update_from_kv_xfer_finished (o : KVConnectorOutput) : SM unit :=
  on_connector (kc_update_connector_output kvc o) ;;
  forM_ (default [] (co_finished_recving o)) (fun req_id =>
    r ← requests_get req_id ;
    r ← lift_opt AssertionError r ;
    if decide (status r = WAITING_FOR_REMOTE_KVS)
    then modify (set_finished_recving_kv_req_ids (fun s => {[req_id]} ∪ s))
    else py_assert (is_finished r) ;; free_blocks_of req_id) ;;
  forM_ (default [] (co_finished_sending o)) (fun req_id =>
    r ← requests_get req_id ;
    lift_opt AssertionError r ;; free_blocks_of req_id).

(** The accumulators of [_update_requests_with_invalid_blocks]. *)
Record InvalidScan := mkInvalidScan {
  is_affected_req_ids : gset string;
  is_total_affected_tokens : Z;
  is_blocks_to_evict : gset Z;
  is_marked : gset Z
}.

(** The scan of one request's blocks, [(idx, block_id)] in order: whether it is
    affected, whether it marked a block, its computed and external tokens, and the
    accumulators. *)
Fixpoint scan_blocks (invalid : gset Z) (evict : bool) (req_block_ids : list Z) (req_computed : Z)
    (l : list (nat * Z)) (affected marked : bool) (computed external : Z) (a : InvalidScan)
    : bool * bool * Z * Z * InvalidScan :=
  match l with
  | [] => (affected, marked, computed, external, a)
  | (idx, b) :: l' =>
      if negb (bool_decide (b ∈ invalid)) then
        scan_blocks invalid evict req_block_ids req_computed l' affected marked computed external a
      else if bool_decide (b ∈ is_marked a) then
        scan_blocks invalid evict req_block_ids req_computed l' true marked computed external a
      else
        let a := mkInvalidScan (is_affected_req_ids a) (is_total_affected_tokens a) (is_blocks_to_evict a)
                   ({[b]} ∪ is_marked a) in
        if marked then scan_blocks invalid evict req_block_ids req_computed l' true marked computed external a
        else
          let computed' := Z.of_nat idx * cf_block_size cfg in
          let n := req_computed - computed' in
          let a := mkInvalidScan (is_affected_req_ids a) (is_total_affected_tokens a + n)
                     (if evict then list_to_set (drop idx req_block_ids) ∪ is_blocks_to_evict a
                      else is_blocks_to_evict a) (is_marked a) in
          scan_blocks invalid evict req_block_ids req_computed l' true true computed' (external - n) a
  end.

(** [_update_requests_with_invalid_blocks] *)
Definition update_requests_with_invalid_blocks (reqs : list string) (invalid : gset Z)
    (num_scheduled_tokens : list (string * Z)) (evict : bool) : SM InvalidScan :=
  foldM (fun a rid =>
    r ← robj rid ;
    groups ← gets (fun s => default [] (get_block_ids rid (s_kv_cache_manager s))) ;
    req_block_ids ← (match groups with [ids] => mret ids | _ => raise ValueError end) ;
    let req_computed := num_computed_tokens r - default 0 (od_lookup rid num_scheduled_tokens) in
    n ← lift_res (py_floordiv (req_computed + cf_block_size cfg - 1) (cf_block_size cfg)) ;
    let '(affected, marked, computed, external, a) :=
      scan_blocks invalid evict req_block_ids req_computed (imap pair (take (Z.to_nat n) req_block_ids))
        false false (num_computed_tokens r) (num_external_computed_tokens r) a in
    upd rid (set_num_external_computed_tokens (fun _ => external)) ;;
    if negb affected then mret a
    else if marked then
      upd rid (set_num_computed_tokens (fun _ => computed)) ;;
      mret (mkInvalidScan ({[rid]} ∪ is_affected_req_ids a) (is_total_affected_tokens a) (is_blocks_to_evict a) (is_marked a))
    else
      upd rid (set_num_computed_tokens (fun _ => req_computed)) ;;
      mret (mkInvalidScan ({[rid]} ∪ is_affected_req_ids a)
              (is_total_affected_tokens a + (num_computed_tokens r - req_computed))
              (is_blocks_to_evict a) (is_marked a))) (mkInvalidScan ∅ 0 ∅ ∅) reqs.

(** [_handle_invalid_blocks] *)
Definition handle_invalid_blocks (invalid : gset Z) (num_scheduled_tokens : list (string * Z)) : SM (gset string) :=
  s ← gets (fun s => s) ;
  let async_load_reqs := filter (fun rid => (status <$> s_objs s !! rid) = Some WAITING_FOR_REMOTE_KVS)
                           (q_iter (q_lt py_id s) (s_skipped_waiting s)) in
  a ← update_requests_with_invalid_blocks async_load_reqs invalid num_scheduled_tokens false ;
  running ← gets s_running ;
  b ← update_requests_with_invalid_blocks running invalid num_scheduled_tokens true ;
  if (size (is_affected_req_ids a) + size (is_affected_req_ids b) =? 0)%nat then mret ∅
  else
    when (negb (bool_decide (is_blocks_to_evict b = ∅)) && negb (cf_recompute_kv_load_failures cfg))
      (on_kv (kv_evict_blocks use_int (set_order Z (elements (is_blocks_to_evict b))))) ;;
    if negb (cf_recompute_kv_load_failures cfg)
    then mret (is_affected_req_ids a ∪ is_affected_req_ids b)
    else
      modify (set_failed_recving_kv_req_ids (fun x => x ∪ is_affected_req_ids a)) ;;
      mret (is_affected_req_ids b).

(** ** The model's output *)

(** [Scheduler._update_request_with_output]: append the tokens one by one and
    check for stop after each. *)
Fixpoint append_until_stopped (rid : string) (taken new_token_ids : list Z) : SM (list Z * bool) :=
  match new_token_ids with
  | [] => mret (taken, false)
  | t :: rest =>
      on_request rid (append_output_token_ids block_hasher [t]) ;;
      stopped ← on_request rid (check_stop (cf_max_model_len cfg)) ;
      if (stopped : bool) then mret (taken ++ [t], true) else append_until_stopped rid (taken ++ [t]) rest
  end.

(** [AsyncScheduler._update_request_with_output] *)
Definition async_update_request_with_output (rid : string) (new_token_ids : list Z) : SM (list Z * bool) :=
  r ← robj rid ;
  if discard_latest_async_tokens r then
    upd rid (set_discard_latest_async_tokens (fun _ => false)) ;; mret ([], false)
  else
    res ← append_until_stopped rid [] new_token_ids ;
    upd rid (set_num_output_placeholders (fun n => n - zlen res.1)) ;;
    r' ← robj rid ;
    py_assert (0 <=? num_output_placeholders r') ;;
    when (bool_decide (status r = RUNNING))
      (on_kv (kv_cache_blocks use_int sha256 r' (num_computed_tokens r' - num_output_placeholders r'))) ;;
    mret res.

Definition update_request_with_output (rid : string) (new_token_ids : list Z) : SM (list Z * bool) :=
  if cf_async_class cfg then async_update_request_with_output rid new_token_ids
  else append_until_stopped rid [] new_token_ids.

(** [make_spec_decoding_stats] *)
Definition make_spec_decoding_stats (stats : option SpecDecodingStats) (num_draft_tokens num_accepted_tokens : Z)
    (num_invalid_spec_tokens : option (list (string * Z))) (rid : string) : res (option SpecDecodingStats) :=
  if negb (cf_log_stats cfg) || (num_draft_tokens =? 0) then Ok None
  else
    let stats := default (spec_stats_new (cf_num_spec_tokens cfg)) stats in
    let num_draft_tokens := num_draft_tokens - default 0 (od_lookup rid (default [] num_invalid_spec_tokens)) in
    stats ← observe_draft num_draft_tokens num_accepted_tokens stats ; Ok (Some stats).

(** The accumulators of the loop of [update_from_output]. *)
Record OutAcc := mkOutAcc {
  oa_outputs : list (Z * list EngineCoreOutput);
  oa_spec_stats : option SpecDecodingStats;
  oa_stopped_running : gset string;
  oa_stopped_preempted : gset string
}.

(** [outputs[client_index].append(output)] on a [defaultdict(list)]. *)
Definition add_output (client : Z) (o : EngineCoreOutput) (d : list (Z * list EngineCoreOutput))
    : list (Z * list EngineCoreOutput) :=
  od_set client (default [] (od_lookup client d) ++ [o]) d.

(** Rejected draft tokens. *)
Definition count_rejected (o : SchedulerOutput) (req_id : string) (generated_token_ids : list Z) (acc : OutAcc)
    : SM OutAcc :=
  match default [] (od_lookup req_id (so_scheduled_spec_decode_tokens o)), generated_token_ids with
  | (_ :: _) as spec, _ :: _ =>
      let num_draft_tokens := zlen spec in
      let num_accepted := zlen generated_token_ids - 1 in
      let num_rejected := num_draft_tokens - num_accepted in
      upd req_id (fun r => set_num_computed_tokens
        (fun n => if 0 <? n then n - num_rejected else n) r) ;;
      upd req_id (fun r => set_num_output_placeholders
        (fun n => if 0 <? n then n - num_rejected else n) r) ;;
      stats ← lift_res (make_spec_decoding_stats (oa_spec_stats acc) num_draft_tokens num_accepted
                          (so_num_invalid_spec_tokens o) req_id) ;
      mret (mkOutAcc (oa_outputs acc) stats (oa_stopped_running acc) (oa_stopped_preempted acc))
  | _, _ => mret acc
  end.

(** What a stopped request leaves: the finish reason, the transfer parameters. *)
Definition finish_stopped (rid : string) (status_before_stop : RequestStatus) (now : Z) (acc : OutAcc)
    : SM (option FinishReason * option any * OutAcc) :=
  r ← robj rid ;
  let finish_reason := get_finished_reason r in
  finished ← handle_stopped_request rid now ;
  params ← (if (finished : bool) then free_request rid false else mret None) ;
  mret (finish_reason, params,
    if decide (status_before_stop = RUNNING)
    then mkOutAcc (oa_outputs acc) (oa_spec_stats acc) ({[rid]} ∪ oa_stopped_running acc) (oa_stopped_preempted acc)
    else mkOutAcc (oa_outputs acc) (oa_spec_stats acc) (oa_stopped_running acc) ({[rid]} ∪ oa_stopped_preempted acc)).

(** One request of the loop of [update_from_output]. *)
Definition process_request (o : SchedulerOutput) (m : ModelRunnerOutput) (failed : option (gset string)) (now : Z)
    (acc : OutAcc) (it : string * Z) : SM OutAcc :=
  let '(req_id, num_tokens_scheduled) := it in
  py_assert (0 <? num_tokens_scheduled) ;;
  request ← requests_get req_id ;
  if bool_decide (req_id ∈ default ∅ failed) then mret acc
  else match request with
  | None => mret acc
  | Some request =>
    if is_finished request then mret acc
    else
      req_index ← lift_opt KeyError (mr_req_id_to_index m !! req_id) ;
      generated ← lift_res (match mr_sampled_token_ids m with [] => Ok [] | l => py_get l req_index end) ;
      acc ← count_rejected o req_id generated acc ;
      pooler ← lift_res (match mr_pooler_output m with
                         | None | Some [] => Ok false
                         | Some l => py_get l req_index
                         end) ;
      let status_before_stop := status request in
      res ← (match generated with
             | [] =>
                 if negb (is_none (pooling_params request)) && pooler
                 then upd req_id (set_status (fun _ => FINISHED_STOPPED)) ;; mret ([], true)
                 else mret ([], false)
             | _ => update_request_with_output req_id generated
             end) ;
      let '(new_token_ids, stopped) := res in
      fin ← (if (stopped : bool) then finish_stopped req_id status_before_stop now acc else mret (None, None, acc)) ;
      let '(finish_reason, kv_transfer_params, acc) := fin in
      advance ← (match new_token_ids with [] => mret false | _ => on_request req_id (should_advance som) end) ;
      r ← robj req_id ;
      when advance (py_assert (match structured_output_request r with Some so => so_grammar_ready so | None => false end)) ;;
      when (bool_decide (is_Some (default ∅ (mr_num_nans_in_logits m) !! req_id)))
        (upd req_id (set_num_nans_in_logits (fun n => default n (default ∅ (mr_num_nans_in_logits m) !! req_id)))) ;;
      let has_new := match new_token_ids with [] => false | _ => true end in
      if has_new || pooler || match kv_transfer_params with Some p => any_truthy p | None => false end || stopped then
        events ← on_request req_id take_events ;
        r ← robj req_id ;
        mret (mkOutAcc (add_output (client_index r)
                (mkEngineCoreOutput req_id new_token_ids pooler finish_reason (stop_reason r) events kv_transfer_params
                   (num_cached_tokens r) (num_external_computed_tokens r) (num_nans_in_logits r)) (oa_outputs acc))
                (oa_spec_stats acc) (oa_stopped_running acc) (oa_stopped_preempted acc))
      else
        py_assert (negb (bool_decide (req_id ∈ mr_prompt_logprobs m))) ;; mret acc
  end.

(** Requests whose blocks failed to load, under the "fail" policy. *)
Definition fail_requests (failed : gset string) (outputs : list (Z * list EngineCoreOutput))
    : SM (list (Z * list EngineCoreOutput)) :=
  let ids := set_order string (elements failed) in
  forM_ ids (fun rid => requests_item rid ;; mret tt) ;;
  finish_requests (FinishMany failed) FINISHED_ERROR ;;
  foldM (fun outs rid =>
    events ← on_request rid take_events ;
    r ← robj rid ;
    mret (add_output (client_index r)
      (mkEngineCoreOutput rid [] false (get_finished_reason r) None events None (num_cached_tokens r) 0 0) outs))
    outputs ids.

(** [_get_encoder_cache_usage] *)
Definition get_encoder_cache_usage (s : Scheduler C E) : Q :=
  let '(size, free) := match s_encoder_cache_manager s with
                       | EncCache e => (enc_cache_size e, enc_num_free_slots e)
                       | EncDecCache e => (ed_cache_size e, ed_num_free_slots e)
                       end in
  if size =? 0 then 0%Q else (inject_Z (size - free) / inject_Z size)%Q.

(** [make_stats] *)
Definition make_stats (spec : option SpecDecodingStats) : SM (option SchedulerStats) :=
  if negb (cf_log_stats cfg) then mret None
  else
    prefix ← on_kv make_prefix_cache_stats ;
    py_assert (negb (is_none prefix)) ;;
    conn ← gets s_connector_prefix_cache_stats ;
    when (negb (is_none conn)) (modify (set_connector_prefix_cache_stats (fun _ => Some new_stats))) ;;
    s ← gets (fun s => s) ;
    mret (Some (mkSchedulerStats (zlen (s_running s))
      (Z.of_nat (q_len (s_waiting s)) + Z.of_nat (q_len (s_skipped_waiting s)))
      (usage (s_kv_cache_manager s)) (get_encoder_cache_usage s) prefix conn spec)).

(** The finished request ids of each client are attached to its outputs. *)
Definition attach_finished (finished : list (Z * gset string)) (outs : list (Z * EngineCoreOutputs))
    : list (Z * EngineCoreOutputs) :=
  foldl (fun outs (cs : Z * gset string) =>
    let eco := default (mkEngineCoreOutputs [] None None) (od_lookup cs.1 outs) in
    od_set cs.1 (mkEngineCoreOutputs (eos_outputs eco) (eos_scheduler_stats eco) (Some cs.2)) outs) outs finished.

(** The statistics go to one of the clients. *)
Definition attach_stats (stats : option SchedulerStats) (outs : list (Z * EngineCoreOutputs))
    : list (Z * EngineCoreOutputs) :=
  match stats, outs with
  | None, _ => outs
  | Some st, [] => [(0, mkEngineCoreOutputs [] (Some st) None)]
  | Some st, (k, eco) :: rest => (k, mkEngineCoreOutputs (eos_outputs eco) (Some st) (eos_finished_requests eco)) :: rest
  end.

(** [update_from_output]: the outputs of the step and the cache events published. *)
Definition update_from_output (o : SchedulerOutput) (m : ModelRunnerOutput) (now : Z)
    : SM (list (Z * EngineCoreOutputs) * list KVCacheEvent) :=
  failed ← (match mr_kv_connector_output m with
            | Some co =>
                if bool_decide (co_invalid_block_ids co = ∅) then mret None
                else f ← handle_invalid_blocks (co_invalid_block_ids co) (so_num_scheduled_tokens o) ; mret (Some f)
            | None => mret None
            end) ;
  acc ← foldM (process_request o m failed now) (mkOutAcc [] None ∅ ∅) (so_num_scheduled_tokens o) ;
  when (negb (bool_decide (oa_stopped_running acc = ∅)))
    (modify (set_running (fun l => remove_all l (oa_stopped_running acc)))) ;;
  when (negb (bool_decide (oa_stopped_preempted acc = ∅)))
    (modify (fun s => set_waiting (q_remove_all (q_lt py_id s) (elements (oa_stopped_preempted acc))) s)) ;;
  outs ← (if negb (bool_decide (default ∅ failed = ∅)) && negb (cf_recompute_kv_load_failures cfg)
          then fail_requests (default ∅ failed) (oa_outputs acc) else mret (oa_outputs acc)) ;
  match mr_kv_connector_output m with
  | Some co => update_from_kv_xfer_finished co
  | None => mret tt
  end ;;
  events ← on_kv kv_take_events ;
  connector_events ← on_connector (kc_take_events kvc) ;
  finished ← gets s_finished_req_ids_dict ;
  let outs := attach_finished (default [] finished)
                (map (fun co : Z * list EngineCoreOutput => (co.1, mkEngineCoreOutputs co.2 None None)) outs) in
  modify (set_finished_req_ids_dict (fmap (fun _ => []))) ;;
  stats ← make_stats (oa_spec_stats acc) ;
  mret (attach_stats stats outs, events ++ default [] connector_events).

(** ** Draft tokens *)

(** [update_draft_token_ids] *)
Definition update_draft_token_ids (drafts : list (string * list Z)) : SM unit :=
  forM_ drafts (fun d =>
    let '(req_id, spec) := d in
    o ← requests_get req_id ;
    match o with
    | None => mret tt
    | Some r =>
        if is_finished r then mret tt
        else if is_prefill_chunk r then upd req_id (set_spec_token_ids (fun _ => []))
        else
          advance ← on_request req_id (should_advance som) ;
          r ← robj req_id ;
          upd req_id (set_spec_token_ids (fun _ => if (advance : bool) then sm_validate_tokens som r spec else spec))
    end).

(** [update_draft_token_ids_in_output] *)
Definition update_draft_token_ids_in_output (drafts : list (string * list Z)) (o : SchedulerOutput) : SM SchedulerOutput :=
  acc ← foldM (fun (acc : list (string * list Z) * list (string * Z)) d =>
    let '(sched_spec_tokens, num_invalid_spec_tokens) := acc in
    let '(req_id, spec) := d in
    o ← requests_get req_id ;
    match o with
    | None => mret acc
    | Some r =>
        if is_finished r then mret acc
        else match default [] (od_lookup req_id sched_spec_tokens) with
        | [] => mret acc
        | placeholder =>
            let spec := py_slice_to spec (zlen placeholder) in
            advance ← on_request req_id (should_advance som) ;
            r ← robj req_id ;
            spec ← (if (advance : bool) then
                      py_assert (match structured_output_request r with Some so => so_grammar_ready so | None => false end) ;;
                      mret (sm_validate_tokens som r spec)
                    else mret spec) ;
            let num_invalid := zlen placeholder - zlen spec in
            if num_invalid =? 0 then mret (od_set req_id spec sched_spec_tokens, num_invalid_spec_tokens)
            else mret (od_set req_id (spec ++ zreplicate num_invalid (-1)) sched_spec_tokens,
                       od_set req_id num_invalid num_invalid_spec_tokens)
        end
    end) (so_scheduled_spec_decode_tokens o, []) drafts ;
  mret (set_so_invalid acc.2 (set_so_spec acc.1 o)).

(** [get_grammar_bitmask]: the requests whose rows the bitmask has. *)
Definition get_grammar_bitmask (o : SchedulerOutput) (s : Scheduler C E) : option (list string) :=
  if negb (so_has_structured_output_requests o) then None
  else
    match filter (fun rid => match s_objs s !! rid with
                             | Some r => bool_decide (rid ∈ s_requests s) && use_structured_output r && negb (is_prefill_chunk r)
                             | None => false
                             end = true) (od_keys (so_num_scheduled_tokens o)) with
    | [] => None
    | ids => Some ids
    end.

(** ** Resets *)

(** [reset_connector_cache] *)
Definition reset_connector_cache : SM bool :=
  c ← gets s_connector ;
  if is_none c then mret false
  else
    r ← on_connector (kc_reset_cache kvc) ;
    if bool_decide (r = Some (Some false)) then mret false
    else
      stats ← gets s_connector_prefix_cache_stats ;
      when (cf_log_stats cfg)
        (py_assert (negb (is_none stats)) ;;
         modify (set_connector_prefix_cache_stats (fmap (fun s => mkStats true (KVManager.requests s) (queries s) (hits s)
           (preempted_requests s) (preempted_queries s) (preempted_hits s))))) ;;
      mret true.

(** The loop of [reset_prefix_cache]: [while self.running: ...pop()...]. *)
Fixpoint preempt_all (running_reversed : list string) (timestamp : Z) : SM unit :=
  match running_reversed with
  | [] => mret tt
  | rid :: rest =>
      modify (set_running (fun l => removelast l)) ;;
      preempt_request cfg py_id set_order rid timestamp ;;
      upd rid (set_num_output_placeholders (fun _ => 0)) ;;
      upd rid (set_discard_latest_async_tokens (fun _ => true)) ;;
      preempt_all rest timestamp
  end.

(** [reset_prefix_cache] *)
Definition reset_prefix_cache (reset_running_requests reset_connector : bool) (now : Z) : SM bool :=
  when reset_running_requests
    (running ← gets s_running ;
     preempt_all (reverse running) now ;;
     modify (set_prev_step_scheduled_req_ids (fun _ => ∅))) ;;
  ok ← on_kv kv_reset_prefix_cache ;
  if reset_running_requests && negb ok then raise RuntimeError
  else if reset_connector then c ← reset_connector_cache ; mret (c && ok)
  else mret ok.

(** [reset_encoder_cache] *)
Definition reset_encoder_cache : SM unit := on_enc m_reset.
End Update.

(** ** Construction *)

(** [Scheduler.__init__], after the configuration was read: the encoder cache,
    the KV cache manager and the empty queues. *)
Definition scheduler_init {C E : Type} (cfg : SchedConfig) (kv_cfg : KVCacheConfig) (num_gpu_blocks : option Z)
    (enable_prefix_caching enable_kv_cache_events include_finished_set : bool)
    (dcp_world_size pcp_world_size encoder_cache_size : Z) (metrics_collector : option (list MetricsCall))
    (connector : option C) (ec_connector : option E) : res (Scheduler C E) :=
  if cf_is_encoder_decoder cfg && negb (is_none connector) then Err AssertionError
  else match num_gpu_blocks with
  | None => Err AssertionError
  | Some n =>
      if negb (0 <? n) then Err AssertionError
      else
        k ← kv_manager_init kv_cfg (cf_max_model_len cfg) (cf_block_size cfg) enable_prefix_caching (cf_use_eagle cfg)
              (cf_log_stats cfg) enable_kv_cache_events dcp_world_size pcp_world_size metrics_collector ;
        Ok (mkScheduler ∅ [] (create_request_queue (cf_policy cfg)) (create_request_queue (cf_policy cfg)) []
              ∅ (if include_finished_set then Some [] else None) ∅ 0 ∅ ∅
              (if cf_is_encoder_decoder cfg then EncDecCache (ed_init encoder_cache_size)
               else EncCache (encoder_cache_init encoder_cache_size))
              k connector ec_connector
              (if negb (is_none connector) && cf_log_stats cfg then Some new_stats else None) UNPAUSED)
  end.
