(* ===== verification/SchedLemmas.v ===== *)
(** Lemmas about the scheduler's steps: what leaves the queues alone, and what
    moves a request from one queue to another. *)
From S2P Require Import Prelude PyDict Request BlockPool SingleType Coordinator KVManager SchedUtils.
From S2P Require Import EncoderCache RequestQueue RequestQueueSpec SchedState SchedStep Partial.
Local Open Scope Z_scope.

(** ** Lists *)

Section Lists.
Context {A : Type} `{EqDecision A}.
Implicit Types l : list A.

Lemma remove_first_perm x l : x ∈ l -> l ≡ₚ x :: list_remove_first x l.
Proof.
  induction l as [|y l IH]; [by intros ?%elem_of_nil|]. simpl. case_decide as E; [by subst|].
  intros [->|Hin]%elem_of_cons; [done|]. rewrite (IH Hin) at 1. apply perm_swap.
Qed.

Lemma elem_of_take_S y k l : y ∈ take k l -> y ∈ take (S k) l.
Proof. rewrite !elem_of_take. intros (i & ? & ?). exists i. split; [done|lia]. Qed.

Lemma take_remove_first x y k l : y ∈ take k l -> y <> x -> y ∈ take k (list_remove_first x l).
Proof.
  revert k. induction l as [|z l IH]; intros [|k]; simpl; [by intros ?%elem_of_nil..|].
  intros [->|Hin]%elem_of_cons Hne.
  - rewrite decide_False by done. by left.
  - case_decide; [by apply elem_of_take_S|]. right. by apply IH.
Qed.

Lemma take_remove_first_pred x y k l :
  y ∈ take (S k) l -> x ∈ take (S k) l -> y <> x -> y ∈ take k (list_remove_first x l).
Proof.
  revert k. induction l as [|z l IH]; intros k; simpl; [by intros ?%elem_of_nil|].
  intros [->|Hy]%elem_of_cons Hx Hne.
  - rewrite decide_False by done. apply elem_of_cons in Hx as [->|Hx]; [done|].
    destruct k; [by apply elem_of_nil in Hx|]. by left.
  - case_decide as E; [done|]. apply elem_of_cons in Hx as [->|Hx]; [done|].
    destruct k; [by apply elem_of_nil in Hy|]. right. by apply IH.
Qed.

Lemma remove_first_elem x y l : y ∈ list_remove_first x l -> y ∈ l.
Proof.
  induction l as [|z l IH]; simpl; [done|]. case_decide; [by right|].
  intros [->|?]%elem_of_cons; [by left|right; auto].
Qed.

Lemma remove_first_length x l : x ∈ l -> length l = S (length (list_remove_first x l)).
Proof. intros H. by rewrite (remove_first_perm x l H) at 1. Qed.

Lemma removelast_snoc l x : last l = Some x -> l = removelast l ++ [x].
Proof. rewrite last_Some. intros [l' ->]. by rewrite removelast_last. Qed.
End Lists.

(** [d.pop(k)] takes the pair of [k] out. *)
Lemma od_pop_perm {K V} `{EqDecision K} (k : K) (d : list (K * V)) v d' : od_pop k d = Some (v, d') -> d ≡ₚ (k, v) :: d'.
Proof.
  unfold od_pop. revert d'. induction d as [|[k' w] d IH]; simpl; [done|]. intros d'. case_decide as E.
  { subst. by intros [= -> ->]. }
  destruct (od_lookup k d) eqn:El; simpl; [|done]. intros [= -> <-]. rewrite (IH _ eq_refl) at 1. apply perm_swap.
Qed.

(** ** Frames *)

Section Frames.
Context {C E T : Type} (v : Request -> T).
Abbreviation Sched := (Scheduler C E).

(** The part [v] of a request. *)
Definition seen (s : Sched) (rid : string) : option T := v <$> s_objs s !! rid.

(** The queues, the dict of requests and the part [v] of every request are as
    before. *)
Record frame (s s' : Sched) : Prop := mkFrame {
  fr_running : s_running s' = s_running s;
  fr_waiting : s_waiting s' = s_waiting s;
  fr_skipped : s_skipped_waiting s' = s_skipped_waiting s;
  fr_requests : s_requests s' = s_requests s;
  fr_pause : s_pause_state s' = s_pause_state s;
  fr_seen rid : seen s' rid = seen s rid
}.

#[export] Instance frame_preorder : PreOrder frame.
Proof.
  split; [intros s; by split|]. intros s1 s2 s3 [? ? ? ? ? H1] [? ? ? ? ? H2].
  split; [congruence..|]. intros rid. by rewrite H2.
Qed.

Definition framed {A} (m : M Sched A) : Prop := forall s, wpp m (fun _ s' => frame s s') s.

Lemma framed_ret {A} (a : A) : framed (mret a).
Proof. intros s. by apply wpp_ret. Qed.
Lemma framed_raise {A} e : e <> FuelExhausted -> framed (A:=A) (raise e).
Proof. intros He s. by apply wpp_raise. Qed.
Lemma framed_bind {A B} (m : M Sched A) (f : A -> M Sched B) : framed m -> (forall a, framed (f a)) -> framed (m ≫= f).
Proof.
  intros Hm Hf s. apply wpp_bind. eapply wpp_mono; [apply Hm|]. intros a s1 H1.
  eapply wpp_mono; [apply Hf|]. intros b s2 H2. exact (transitivity H1 H2).
Qed.
Lemma framed_gets {A} (f : Sched -> A) : framed (gets f).
Proof. intros s. by apply wpp_gets. Qed.
Lemma framed_modify f : (forall s, frame s (f s)) -> framed (modify f).
Proof. intros H s. by apply wpp_modify. Qed.
Lemma framed_assert b : framed (py_assert b).
Proof. intros s. by apply wpp_assert. Qed.
Lemma framed_lift_res {A} (r : res A) : no_fuel_res r -> framed (lift_res r).
Proof. intros H s. by apply wpp_lift_res. Qed.
Lemma framed_lift_opt {A} e (o : option A) : e <> FuelExhausted -> framed (lift_opt e o).
Proof. intros H s. by apply wpp_lift_opt. Qed.
Lemma framed_when b m : framed m -> framed (when b m).
Proof. destruct b; [done|]. intros _. apply framed_ret. Qed.
Lemma framed_forM_ {A} (l : list A) body : (forall x, framed (body x)) -> framed (forM_ l body).
Proof.
  intros H s. apply (wpp_forM_ (frame s)); [done| |done]. intros x s' _ H1.
  eapply wpp_mono; [apply H|]. intros ? s2 H2. exact (transitivity H1 H2).
Qed.
Lemma framed_foldM {A B} (body : B -> A -> M Sched B) b l : (forall b x, framed (body b x)) -> framed (foldM body b l).
Proof.
  intros H s. apply (wpp_foldM (fun _ _ _ => frame s) _ []); [done| |done]. intros d x t b' s' H1.
  eapply wpp_mono; [apply H|]. intros ? s2 H2. exact (transitivity H1 H2).
Qed.

Lemma framed_on_kv {A} (m : M KVCacheManager A) : no_fuel m -> framed (on_kv m).
Proof.
  intros H s. unfold on_kv, zoom, wpp. specialize (H (s_kv_cache_manager s)).
  destruct (m (s_kv_cache_manager s)) as [[a|e] k]; [by split|]. intros ->. by apply H.
Qed.
Lemma framed_on_enc {A} (m : M EncoderManager A) : no_fuel m -> framed (on_enc m).
Proof.
  intros H s. unfold on_enc, zoom, wpp. specialize (H (s_encoder_cache_manager s)).
  destruct (m (s_encoder_cache_manager s)) as [[a|e] k]; [by split|]. intros ->. by apply H.
Qed.
Lemma nf_on_encoder {A} (m : M EncoderCacheManager A) md : no_fuel m -> no_fuel md -> no_fuel (on_encoder m md).
Proof.
  intros H1 H2 [e|e]; unfold on_encoder; [specialize (H1 e); by destruct (m e)|specialize (H2 e); by destruct (md e)].
Qed.
Lemma framed_on_connector {A} (m : M C A) : no_fuel m -> framed (on_connector m).
Proof.
  intros H s. unfold on_connector, wpp, mbind, M_bind, gets, modify, lift_res.
  destruct (s_connector s) as [c|]; [|done]. specialize (H c). destruct (m c) as [[a|e] k]; simpl in *; [by split|].
  intros ->. by apply H.
Qed.
Lemma framed_on_ec_connector {A} (m : M E A) : no_fuel m -> framed (on_ec_connector m).
Proof.
  intros H s. unfold on_ec_connector, wpp, mbind, M_bind, gets, modify, lift_res.
  destruct (s_ec_connector s) as [c|]; [|done]. specialize (H c). destruct (m c) as [[a|e] k]; simpl in *; [by split|].
  intros ->. by apply H.
Qed.
Lemma framed_robj rid : framed (robj rid).
Proof. unfold robj. apply framed_bind; [apply framed_gets|]. intros o. by apply framed_lift_opt. Qed.

Lemma seen_alter f rid s r : seen (set_objs (alter f rid) s) r = if decide (r = rid) then v ∘ f <$> s_objs s !! rid else seen s r.
Proof.
  unfold seen. simpl. case_decide as Ex; [subst; rewrite lookup_alter_eq|by rewrite lookup_alter_ne].
  by destruct (s_objs s !! rid).
Qed.

Lemma framed_upd rid f : (forall r, v (f r) = v r) -> framed (upd rid f).
Proof.
  intros Hf. apply framed_modify. intros s. split; try done. intros r. rewrite seen_alter. case_decide as Er; [|done].
  subst. unfold seen. destruct (s_objs s !! rid); [|done]. simpl. by rewrite Hf.
Qed.

Lemma wpp_robj rid (Q : Request -> Sched -> Prop) s :
  (forall r, s_objs s !! rid = Some r -> Q r s) -> wpp (robj rid) Q s.
Proof. intros H. unfold robj. apply wpp_bind, wpp_gets. by apply wpp_lift_opt. Qed.

Lemma framed_record_event rid ts e t : (forall r, v (snd (record_event ts e t r)) = v r) -> framed (on_request rid (record_event ts e t)).
Proof.
  intros Hv s. unfold on_request. apply wpp_bind, wpp_robj. intros r Hr. specialize (Hv r). simpl in *.
  apply wpp_bind, wpp_modify. apply wpp_lift_res; [done|]. intros _ _. split; try done. intros x. unfold seen. simpl.
  destruct (decide (x = rid)) as [->|]; [rewrite lookup_insert_eq, Hr; simpl; by rewrite Hv|by rewrite lookup_insert_ne].
Qed.
End Frames.

(** What a plug-in must not do: exhaust the fuel of a loop of the scheduler. *)
Record connector_safe {C} (kvc : KVConnector C) : Prop := mkConnectorSafe {
  cs_matched r n : no_fuel (kc_get_num_new_matched_tokens kvc r n);
  cs_update r b n : no_fuel (kc_update_state_after_alloc kvc r b n);
  cs_build o : no_fuel (kc_build_connector_meta kvc o);
  cs_finished r l : no_fuel (kc_request_finished kvc r l);
  cs_finished_all r l : no_fuel (kc_request_finished_all_groups kvc r l);
  cs_output o : no_fuel (kc_update_connector_output kvc o);
  cs_events : no_fuel (kc_take_events kvc);
  cs_reset : no_fuel (kc_reset_cache kvc)
}.
Record ec_connector_safe {E} (ecc : ECConnector E) : Prop := mkECSafe {
  es_update r i : no_fuel (ec_update_state_after_alloc ecc r i);
  es_build o : no_fuel (ec_build_connector_meta ecc o)
}.

#[export] Hint Resolve cs_matched cs_update cs_build cs_finished cs_finished_all cs_output cs_events cs_reset es_update es_build : no_fuel.
#[export] Hint Resolve framed_robj : no_fuel.
#[export] Hint Extern 1 (no_fuel (on_encoder _ _)) => apply nf_on_encoder; nf : no_fuel.

(** The same search for [framed]. *)
Ltac fr_step :=
  lazymatch goal with
  | |- framed _ (mbind _ _) => apply framed_bind; [|intros ?]
  | |- framed _ (mret _) => apply framed_ret
  | |- framed _ (raise _) => apply framed_raise; discriminate
  | |- framed _ (gets _) => apply framed_gets
  | |- framed _ (modify _) => apply framed_modify; by split
  | |- framed _ (py_assert _) => apply framed_assert
  | |- framed _ (lift_res _) => apply framed_lift_res; nf
  | |- framed _ (lift_opt _ _) => apply framed_lift_opt; discriminate
  | |- framed _ (when _ _) => apply framed_when
  | |- framed _ (forM_ _ _) => apply framed_forM_; intros ?
  | |- framed _ (foldM _ _ _) => apply framed_foldM; intros ? ?
  | |- framed _ (on_kv _) => apply framed_on_kv; nf
  | |- framed _ (on_enc _) => apply framed_on_enc; nf
  | |- framed _ (on_connector _) => apply framed_on_connector; nf
  | |- framed _ (on_ec_connector _) => apply framed_on_ec_connector; nf
  | |- framed _ (on_request _ (record_event _ _ _)) => apply framed_record_event; by intros []
  | |- framed _ (upd _ _) => apply framed_upd; by intros []
  | |- framed _ (match ?x with _ => _ end) => destruct x
  | |- framed _ ?m => first [solve [auto with no_fuel nocore] | let h := nf_head m in unfold h; cbv beta zeta]
  end.
Ltac fr := intros; cbv beta zeta; repeat fr_step.

Section Operations.
Context {C E : Type} (kvc : KVConnector C) (ecc : ECConnector E).
Context (cfg : SchedConfig) (use_int : bool) (sha256 : bytes -> bytes) (py_id : Request -> Z).
Context (set_order : forall A, list A -> list A).
Context (Hkvc : connector_safe kvc) (Hecc : ec_connector_safe ecc).
Context {T : Type} (v : Request -> T).

Lemma framed_encoder_loop r computed shift i fs t :
  framed (C:=C) (E:=E) v (encoder_loop ecc cfg r computed shift i fs t).
Proof. revert i t. induction fs as [|f fs IH]; simpl; fr. Qed.
Hint Resolve framed_encoder_loop : no_fuel.

Lemma framed_try_schedule r c n b sh : framed (C:=C) (E:=E) v (try_schedule_encoder_inputs ecc cfg r c n b sh).
Proof. fr. Qed.
Lemma framed_allocate_encoder_inputs rid l : framed (C:=C) (E:=E) v (allocate_encoder_inputs ecc rid l).
Proof. fr. Qed.
Lemma framed_free_encoder_inputs rid : framed (C:=C) (E:=E) v (free_encoder_inputs cfg set_order rid).
Proof. fr. Qed.
Lemma framed_unschedule rid st : framed (C:=C) (E:=E) v (unschedule rid st).
Proof. fr. Qed.
Hint Resolve framed_allocate_encoder_inputs framed_free_encoder_inputs : no_fuel.
Lemma framed_schedule_running rid n b i ex nb st : framed (C:=C) (E:=E) status (schedule_running ecc rid n b i ex nb st).
Proof. fr. Qed.

Lemma framed_get_computed rid : framed (C:=C) (E:=E) status (get_computed kvc rid).
Proof. fr. Qed.
Lemma framed_waiting_new_tokens rid c st : framed (C:=C) (E:=E) v (waiting_new_tokens ecc cfg rid c st).
Proof. fr. Qed.
Lemma framed_untouch_encoder rid : framed (C:=C) (E:=E) v (untouch_encoder set_order rid).
Proof. fr. Qed.
Hint Resolve framed_untouch_encoder : no_fuel.
Lemma framed_waiting_allocate rid c n i :
  framed (C:=C) (E:=E) v (waiting_allocate kvc cfg use_int sha256 set_order rid c n i).
Proof. fr. Qed.
Lemma framed_update_waiting_for_remote_kv rid :
  framed (C:=C) (E:=E) status (update_waiting_for_remote_kv use_int sha256 rid).
Proof. fr. Qed.
Lemma framed_record_loras st : framed (C:=C) (E:=E) v (record_loras cfg st).
Proof. fr. Qed.
Lemma framed_check_constraints st : framed (C:=C) (E:=E) v (check_constraints cfg st).
Proof. fr. Qed.
Lemma framed_make_output st : framed (C:=C) (E:=E) v (make_output cfg st).
Proof. fr. Qed.
Lemma framed_base_update o : framed (C:=C) (E:=E) status (base_update_after_schedule cfg set_order o).
Proof. fr. Qed.
Hint Resolve framed_base_update : no_fuel.
Lemma framed_update_after_schedule o : framed (C:=C) (E:=E) status (update_after_schedule cfg set_order o).
Proof. fr. Qed.
End Operations.
