(* ===== verification/SchedInv.v ===== *)
(** The invariant of the local variables of [schedule] and of the queues, through
    the loop over the running requests. *)
From S2P Require Import Prelude PyDict Request BlockPool SingleType Coordinator KVManager SchedUtils.
From S2P Require Import EncoderCache RequestQueue RequestQueueSpec SchedState SchedStep Partial SchedLemmas.
Local Open Scope Z_scope.

Lemma wpp_framed {C E T} (v : Request -> T) {A} (m : M (Scheduler C E) A) (Q : A -> Scheduler C E -> Prop) s :
  framed v m -> (forall a s', frame v s s' -> Q a s') -> wpp m Q s.
Proof. intros H HQ. eapply wpp_mono; [apply H|]. done. Qed.

(** A status with which a request may wait. *)
Definition waiting_like (st : RequestStatus) : Prop :=
  st = WAITING \/ st = PREEMPTED \/ is_blocked_waiting_status st = true.

(** What the running loop reads of a request, and what makes the number of new
    tokens non-negative. *)
Definition rview (r : Request) : RequestStatus * Z * Z :=
  (status r, num_computed_tokens r, num_tokens_with_spec r + num_output_placeholders r).
Definition fits (cfg : SchedConfig) (x : RequestStatus * Z * Z) : Prop :=
  x.1.2 <= x.2 /\ x.1.2 <= cf_max_model_len cfg - 1.

Section Live.
Context {C E : Type}.
Implicit Types s : Scheduler C E.

(** A request that is registered and not finished. *)
Definition live s (rid : string) : Prop :=
  rid ∈ s_requests s /\ exists x, seen status s rid = Some x /\ status_is_finished x = false.

Lemma live_same s s' r :
  s_requests s' = s_requests s -> seen status s' r = seen status s r -> live s' r -> live s r.
Proof. intros Hq Hs [Hr (x & Hx & Hf)]. rewrite Hq in Hr. split; [done|]. exists x. by rewrite <-Hs. Qed.

(** When only [x] changed, the others are alive as before. *)
Lemma live_other s s' x r :
  s_requests s' = s_requests s -> (forall y, y <> x -> seen status s' y = seen status s y) ->
  live s' r -> r = x \/ live s r.
Proof. intros Hq Ho Hl. destruct (decide (r = x)); [by left|]. right. eapply live_same; eauto. Qed.
End Live.

Section Inv.
Context {C E : Type} (kvc : KVConnector C) (ecc : ECConnector E).
Context (cfg : SchedConfig) (use_int : bool) (sha256 : bytes -> bytes) (py_id : Request -> Z).
Context (set_order : forall A, list A -> list A).
Context (Hkvc : connector_safe kvc) (Hecc : ec_connector_safe ecc).
Context (Hbs : cf_need_mamba_block_aligned_split cfg = true -> 0 < cf_cache_block_size cfg).
Context (Hthr : 0 <= cf_long_prefill_token_threshold cfg).
Abbreviation Sched := (Scheduler C E).
Implicit Types s : Sched.

(** ** Encoder inputs and token counts *)

Lemma encoder_loop_tokens r computed shift i fs t s :
  wpp (encoder_loop ecc cfg r computed shift i fs t)
    (fun t' _ => et_num_new_tokens t' <= Z.max (et_num_new_tokens t) 0
                 /\ (0 <= et_num_new_tokens t -> 0 <= et_num_new_tokens t')) s.
Proof.
  revert i t s. induction fs as [|f fs IH]; intros i t s; simpl; [apply wpp_ret; lia|].
  apply wpp_bind, wpp_lift_res; [nf|]. intros ne _. cbv zeta.
  apply wpp_if; intros E1; [apply wpp_ret; lia|]. apply wpp_if; intros E2.
  { apply wpp_bind, wpp_assert. intros _. apply IH. }
  apply wpp_if; intros E3; [apply IH|]. apply wpp_bind. apply (wpp_framed status); [fr|]. intros cached s1 _.
  destruct cached; [apply IH|]. apply wpp_if; intros E4; [apply wpp_ret; simpl; lia|].
  apply wpp_bind. apply (wpp_framed status); [fr|]. intros ok s2 _. apply wpp_if; intros E5.
  { apply wpp_ret. simpl. destruct (computed + shift <? offset _) eqn:E6; lia. }
  apply wpp_bind, wpp_lift_res; [nf|]. intros idx _. apply wpp_if; intros E6; [apply IH|].
  apply wpp_bind, wpp_gets. destruct (external_item _ _ _); (eapply wpp_mono; [apply IH|]); simpl; auto.
Qed.

Lemma try_schedule_tokens r computed n b sh s :
  wpp (try_schedule_encoder_inputs ecc cfg r computed n b sh)
    (fun x s' => frame rview s s' /\ x.1.1.2 <= Z.max n 0 /\ (0 <= n -> 0 <= x.1.1.2)) s.
Proof.
  apply wpp_and; [by apply framed_try_schedule|]. unfold try_schedule_encoder_inputs.
  apply wpp_if; intros Ex; [apply wpp_ret; simpl; lia|]. apply wpp_bind.
  eapply wpp_mono; [apply encoder_loop_tokens|]. intros t s' Ht. by apply wpp_ret.
Qed.

Lemma mamba_split_bounds r n l ext n' :
  0 < cf_cache_block_size cfg -> mamba_block_aligned_split cfg r n l ext = Ok n' ->
  n' <= Z.max n 0 /\ (0 <= n -> 0 <= n').
Proof.
  intros Hb. unfold mamba_block_aligned_split, py_mod, py_floordiv.
  rewrite (proj2 (Z.eqb_neq (cf_cache_block_size cfg) 0)) by lia.
  unfold mbind, res_bind. repeat (case_match; simplify_eq); try lia.
  all: intros [= <-]; try lia.
  all: pose proof (Z.mul_div_le n _ Hb); split; [|intros Hn; pose proof (Z.div_pos n _ Hn Hb)]; nia.
Qed.

Lemma running_num_le r b : running_num_new_tokens cfg r b <= b.
Proof. unfold running_num_new_tokens. lia. Qed.

Lemma running_num_nonneg r b :
  0 <= b -> fits cfg (rview r) -> 0 <= running_num_new_tokens cfg r b.
Proof.
  unfold fits, running_num_new_tokens, cap_long_prefill, rview. simpl. intros Hb [H1 H2].
  destruct (_ && _) eqn:Et; lia.
Qed.

(** ** The invariant *)

(** [all]: every request of the three queues; [B]: the token budget of the step;
    [F]: whether the running requests were within the limits at the start. *)
Record step_inv (all : list string) (B : Z) (F : Prop) (st : Step) s : Prop := mkStepInv {
  si_nodup : NoDup all;
  si_all : s_running s ++ items (s_waiting s) ++ items (s_skipped_waiting s) ++ items (st_skipped st) ≡ₚ all;
  si_reg rid : rid ∈ all -> rid ∈ s_requests s;
  si_run rid : rid ∈ s_running s -> seen status s rid = Some RUNNING;
  si_wait rid : rid ∈ items (s_waiting s) ++ items (s_skipped_waiting s) ++ items (st_skipped st) ->
    exists x, seen status s rid = Some x /\ waiting_like x;
  si_live rid : live s rid -> rid ∈ all;
  si_nodup_keys : NoDup (od_keys (st_tokens st));
  si_keys : od_keys (st_tokens st) ≡ₚ st_running st ++ st_resumed st ++ st_new st;
  si_sub rid : rid ∈ od_keys (st_tokens st) -> rid ∈ s_running s;
  si_sum : zsum (map snd (st_tokens st)) + st_budget st = B;
  si_budget : F -> 0 <= st_budget st /\ Forall (fun kv => 0 < kv.2) (st_tokens st);
  si_preempted rid : rid ∈ st_preempted st -> rid ∈ items (s_waiting s)
}.

Lemma step_inv_running all B F st s : step_inv all B F st s -> NoDup (s_running s).
Proof. intros []. rewrite <-si_all0 in si_nodup0. by apply NoDup_app in si_nodup0 as [? _]. Qed.

Lemma step_inv_frame all B F st s s' : step_inv all B F st s -> frame status s s' -> step_inv all B F st s'.
Proof.
  intros [] [Hr Hw Hs Hq _ Hst]. split; rewrite ?Hr, ?Hw, ?Hs, ?Hq; try done.
  - intros rid Hin. rewrite Hst. auto.
  - intros rid Hin. rewrite Hst. auto.
  - intros rid Hl. apply si_live0. by eapply live_same.
Qed.

Lemma frame_weaken {T T'} (v : Request -> T) (f : T -> T') s s' : frame v s s' -> frame (fun r => f (v r)) s s'.
Proof.
  intros [? ? ? ? ? Hv]. split; try done. intros rid. specialize (Hv rid). unfold seen in *.
  destruct (s_objs s !! rid), (s_objs s' !! rid); simpl in *; congruence.
Qed.
Lemma frame_rview s s' : frame rview s s' -> frame status s s'.
Proof. apply (frame_weaken rview (fun x => x.1.1)). Qed.

Lemma seen_rview s s' r : seen rview s' r = seen rview s r -> seen status s' r = seen status s r.
Proof.
  unfold seen. destruct (s_objs s' !! r), (s_objs s !! r); simpl; [|done..]. unfold rview. congruence.
Qed.

(** ** Preemption *)

(** [rid] goes to the waiting queue; the other requests keep what is seen of them. *)
Record requeued (rid : string) s s' : Prop := mkRequeued {
  rq_running : s_running s' = s_running s;
  rq_waiting : items (s_waiting s') ≡ₚ rid :: items (s_waiting s);
  rq_skipped : s_skipped_waiting s' = s_skipped_waiting s;
  rq_requests : s_requests s' = s_requests s;
  rq_pause : s_pause_state s' = s_pause_state s;
  rq_status : seen status s' rid = Some PREEMPTED;
  rq_others r : r <> rid -> seen rview s' r = seen rview s r
}.

Lemma preempt_request_wpp rid ts s :
  wpp (preempt_request cfg py_id set_order rid ts) (fun _ s' => seen status s rid = Some RUNNING /\ requeued rid s s') s.
Proof.
  unfold preempt_request. apply wpp_bind, wpp_robj. intros r Hr. apply wpp_bind, wpp_assert. intros Hrun%bool_decide_eq_true.
  apply wpp_bind, (wpp_framed rview); [fr|]. intros _ s1 F1. apply wpp_bind, (wpp_framed rview); [fr|]. intros _ s2 F2.
  pose proof (transitivity F1 F2) as [Hru Hwa Hsk Hrq Hpa Hv]. clear F1 F2.
  assert (Hr2 : is_Some (s_objs s2 !! rid)).
  { specialize (Hv rid). unfold seen in Hv. rewrite Hr in Hv. by destruct (s_objs s2 !! rid). }
  do 4 (apply wpp_bind, wpp_modify). apply wpp_bind.
  assert (Hfin : forall s3, frame status (set_objs (alter (set_num_preemptions (fun n => n + 1)) rid)
      (set_objs (alter (set_spec_token_ids (fun _ => [])) rid) (set_objs (alter (set_num_computed_tokens (fun _ => 0)) rid)
        (set_objs (alter (set_status (fun _ => PREEMPTED)) rid) s2)))) s3 ->
      (forall r, r <> rid -> s_objs s3 !! r = s_objs s2 !! r) ->
      wpp (modify (fun s => set_waiting (q_prepend (q_lt py_id s) rid) s))
        (fun _ s' => seen status s rid = Some RUNNING /\ requeued rid s s') s3).
  { intros s3 [H1 H2 H3 H4 H5 H6] Ho. apply wpp_modify. split; [unfold seen; rewrite Hr; simpl; by rewrite Hrun|].
    split; try (simpl in *; congruence).
    - etrans; [apply (ql_prepend (RequestQueueLaws := request_queue_laws))|]. simpl in H2. by rewrite H2, Hwa.
    - specialize (H6 rid). unfold seen in *. simpl in *. rewrite H6, !lookup_alter_eq. by destruct Hr2 as [? ->].
    - intros x Hx. rewrite <-Hv. unfold seen. simpl. by rewrite Ho. }
  apply wpp_when; intros _.
  - match goal with |- wpp _ _ ?s0 => set (s4 := s0) in * end.
    apply (wpp_mono _ (fun _ s' => frame status s4 s' /\ (forall r, r <> rid -> s_objs s' !! r = s_objs s2 !! r)));
      [apply wpp_and; [by apply (framed_record_event status)|]|].
    2: { intros [] s3 [HF Ho]. by apply Hfin. }
    unfold on_request. apply wpp_bind, wpp_robj. intros r3 Hr3. apply wpp_bind, wpp_modify. apply wpp_lift_res; [done|].
    intros _ _ x Hx. simpl. by rewrite lookup_insert_ne, !lookup_alter_ne.
  - apply Hfin; [done|]. intros x Hx. simpl. by rewrite !lookup_alter_ne.
Qed.

(** Taking a request out of the step. *)
Lemma step_inv_unschedule all B F st st' s p n :
  step_inv all B F st s -> p ∈ st_running st ->
  od_pop p (st_tokens st) = Some (n, st_tokens st') -> st_budget st' = st_budget st + n ->
  st_running st' = list_remove_first p (st_running st) -> st_resumed st' = st_resumed st -> st_new st' = st_new st ->
  st_preempted st' = st_preempted st -> st_skipped st' = st_skipped st ->
  step_inv all B F st' s /\ p ∉ od_keys (st_tokens st').
Proof.
  intros [] Hp Hpop Hb Hr Hre Hn Hpr Hsk. pose proof (od_pop_perm _ _ _ _ Hpop) as HP.
  assert (Hk : od_keys (st_tokens st) ≡ₚ p :: od_keys (st_tokens st')) by (unfold od_keys; by rewrite HP).
  pose proof si_nodup_keys0 as Hnd. rewrite Hk in Hnd. apply NoDup_cons in Hnd as [Hnot Hnd]. split; [|done].
  split; rewrite ?Hsk, ?Hpr; try done.
  - rewrite Hr, Hre, Hn. apply (Permutation_cons_inv (a:=p)). rewrite <-Hk, si_keys0.
    rewrite (remove_first_perm p (st_running st) Hp) at 1. done.
  - intros rid Hin. apply si_sub0. rewrite Hk. by right.
  - rewrite <-si_sum0, Hb, HP. unfold zsum. simpl. lia.
  - intros HF. destruct (si_budget0 HF) as [H0 Hall]. rewrite HP in Hall. apply Forall_cons in Hall as [Hn0 Hall].
    simpl in Hn0. split; [lia|done].
Qed.

(** Moving a request that is not in the step to the waiting queue. *)
Lemma step_inv_preempt all B F st s s' p :
  step_inv all B F st s -> p ∉ od_keys (st_tokens st) -> s_running s ≡ₚ p :: s_running s' ->
  items (s_waiting s') ≡ₚ p :: items (s_waiting s) -> s_skipped_waiting s' = s_skipped_waiting s ->
  s_requests s' = s_requests s -> seen status s' p = Some PREEMPTED -> (forall r, r <> p -> seen status s' r = seen status s r) ->
  step_inv all B F (set_preempted (fun l => l ++ [p]) st) s'.
Proof.
  intros [] Hp Hru Hwa Hsk Hq Hst Ho. split; simpl; rewrite ?Hsk, ?Hq; try done.
  - rewrite <-si_all0, Hru, Hwa. simpl. symmetry. apply Permutation_middle.
  - intros rid Hin. rewrite Ho; [apply si_run0; rewrite Hru; by right|]. intros ->.
    pose proof si_nodup0 as Hnd. rewrite <-si_all0, Hru in Hnd. simpl in Hnd. apply NoDup_cons in Hnd as [Hnot _].
    apply Hnot, elem_of_app. by left.
  - intros rid Hin. rewrite Hwa in Hin. destruct (decide (rid = p)) as [->|Hne].
    { exists PREEMPTED. split; [done|]. by right; left. }
    rewrite Ho by done. apply si_wait0. simpl in Hin. apply elem_of_cons in Hin as [?|]; done.
  - intros rid Hl. destruct (live_other _ _ _ _ Hq Ho Hl) as [->|]; [|auto]. rewrite <-si_all0, Hru. by left.
  - intros rid Hin. pose proof (si_sub0 rid Hin) as Hr. rewrite Hru in Hr. apply elem_of_cons in Hr as [->|]; done.
  - intros rid [Hin| ->%list_elem_of_singleton]%elem_of_app; rewrite Hwa; [right; auto|by left].
Qed.

(** ** The loop over the running requests *)

(** The requests granted so far stand before [idx]; those still to be visited are
    within the limits. *)
Record run_inv (all : list string) (B : Z) (F : Prop) (st : Step) s (idx : nat) : Prop := mkRunInv {
  ri_step : step_inv all B F st s;
  ri_new : st_new st = [] /\ st_resumed st = [] /\ items (st_skipped st) = [];
  ri_before rid : rid ∈ od_keys (st_tokens st) -> rid ∈ take idx (s_running s);
  ri_fits : F -> forall rid, rid ∈ s_running s -> rid ∉ od_keys (st_tokens st) ->
    exists x, seen rview s rid = Some x /\ fits cfg x
}.

(** The request the loop is at. *)
Record cursor (st : Step) s (idx : nat) (rid : string) : Prop := mkCursor {
  cu_in : rid ∈ take (S idx) (s_running s);
  cu_fresh : rid ∉ od_keys (st_tokens st);
  cu_fcfs : cf_policy cfg = FCFS -> s_running s !! idx = Some rid
}.

Lemma max_request_in s x l : max_request s x l ∈ x :: l.
Proof.
  revert x. induction l as [|y l IH]; intros x; simpl; [by left|].
  assert (forall z, z = x \/ z = y -> max_request s z l ∈ x :: y :: l) as H.
  { intros z Hz. pose proof (IH z) as Hi. set_solver. }
  destruct (s_objs s !! x), (s_objs s !! y); try case_match; auto.
Qed.

Lemma unschedule_wpp p st s :
  wpp (unschedule p st) (fun st' s' => frame rview s s' /\
    exists n, od_pop p (st_tokens st) = Some (n, st_tokens st') /\ st_budget st' = st_budget st + n
      /\ st_running st' = list_remove_first p (st_running st) /\ st_resumed st' = st_resumed st /\ st_new st' = st_new st
      /\ st_preempted st' = st_preempted st /\ st_skipped st' = st_skipped st) s.
Proof.
  apply wpp_and; [by apply framed_unschedule|]. unfold unschedule.
  apply wpp_bind, wpp_lift_opt; [done|]. intros [n tok] Hn. apply wpp_bind, wpp_lift_opt; [done|]. intros blk _.
  apply wpp_bind, wpp_robj. intros r _. apply wpp_bind, wpp_lift_res; [nf|]. intros x _. apply wpp_ret.
  by exists n.
Qed.

(** What a preemption leaves: a smaller [running], and a cursor unless the
    request at the cursor was the victim. *)
Definition preempt_post all B F st s idx rid (p : string) (st' : Step) s' (idx' : nat) : Prop :=
  run_inv all B F (set_preempted (fun l => l ++ [p]) st') s' idx'
  /\ length (s_running s) = S (length (s_running s'))
  /\ (length (s_running s') - idx' <= length (s_running s) - idx)%nat
  /\ (p <> rid -> cursor st' s' idx' rid)
  /\ (F -> st_budget st <= st_budget st').

Lemma run_inv_preempt all B F st st' s s1 s2 idx idx' p :
  step_inv all B F st' s -> run_inv all B F st s idx -> st_new st' = st_new st -> st_resumed st' = st_resumed st ->
  st_skipped st' = st_skipped st -> p ∉ od_keys (st_tokens st') -> (forall x, x ∈ od_keys (st_tokens st) -> x ∈ od_keys (st_tokens st') \/ x = p) ->
  frame rview (set_running (fun _ => s_running s1) s) s1 -> s_running s ≡ₚ p :: s_running s1 -> requeued p s1 s2 ->
  (forall x, x ∈ od_keys (st_tokens st') -> x ∈ take idx' (s_running s1)) ->
  run_inv all B F (set_preempted (fun l => l ++ [p]) st') s2 idx'.
Proof.
  intros Hst' [_ (Hn & Hre & Hsn) _ Hfit] Hn' Hre' Hsk' Hp Hkeys [_ Hwa Hsk Hrq _ Hv] Hru [Q1 Q2 Q3 Q6 _ Q4 Q5] Hbef.
  assert (Hv' : forall r, seen rview s1 r = seen rview s r) by (intros r; by rewrite Hv).
  assert (Hs' : forall r, seen status s1 r = seen status s r).
  { intros r. by apply seen_rview. }
  assert (Ho : forall r, r <> p -> seen status s2 r = seen status s1 r).
  { intros r Hne. apply seen_rview. auto. }
  simpl in Hwa, Hsk, Hrq. split; simpl.
  - eapply step_inv_preempt; [exact Hst'|done|by rewrite Q1|by rewrite Q2, Hwa|congruence|congruence|done|].
    intros r Hne. by rewrite Ho, Hs'.
  - split_and!; congruence.
  - rewrite Q1. exact Hbef.
  - intros HF rid Hin Hk. rewrite Q1 in Hin.
    assert (rid <> p).
    { intros ->. pose proof (si_nodup _ _ _ _ _ Hst') as Hnd. rewrite <-(si_all _ _ _ _ _ Hst'), Hru in Hnd.
      simpl in Hnd. apply NoDup_cons in Hnd as [Hnot _]. apply Hnot, elem_of_app. by left. }
    rewrite Q5, Hv' by done. apply Hfit; [done|rewrite Hru; by right|]. intros Hc. destruct (Hkeys rid Hc); done.
Qed.

(** One round of preemption. *)
Lemma choose_victim_wpp all B F st s idx rid ts :
  run_inv all B F st s idx -> cursor st s idx rid ->
  wpp (choose_victim cfg st idx) (fun x s1 =>
    wpp (preempt_request cfg py_id set_order x.1.1 ts)
      (fun _ s2 => preempt_post all B F st s idx rid x.1.1 x.1.2 s2 x.2) s1) s.
Proof.
  intros Hri [Hin Hfr Hcu]. pose proof Hri as [Hsi (Hn & Hre & _) Hbef Hfit].
  assert (Hkeys : od_keys (st_tokens st) ≡ₚ st_running st).
  { rewrite (si_keys _ _ _ _ _ Hsi), Hn, Hre. by rewrite !app_nil_r. }
  unfold choose_victim. apply wpp_bind, wpp_gets. destruct (cf_policy cfg) eqn:Epol.
  - destruct (last (s_running s)) as [p|] eqn:El; [|by apply wpp_raise].
    specialize (Hcu eq_refl). pose proof (removelast_snoc _ _ El) as Hsn.
    pose proof (f_equal length Hsn) as Hlen. rewrite length_app in Hlen. simpl in Hlen.
    pose proof (lookup_lt_Some _ _ _ Hcu) as Hlt.
    assert (Htk : take idx (s_running s) = take idx (removelast (s_running s))).
    { rewrite Hsn at 1. rewrite take_app_le by lia. done. }
    assert (Hp : p ∉ od_keys (st_tokens st)).
    { intros Hc%Hbef. rewrite Htk in Hc. apply elem_of_take in Hc as (i & Hi%list_elem_of_lookup_2 & _).
      pose proof (step_inv_running _ _ _ _ _ Hsi) as Hnd. rewrite Hsn in Hnd.
      apply NoDup_app in Hnd as (_ & Hnd & _). apply (Hnd p Hi). by left. }
    apply wpp_bind, wpp_modify, wpp_ret. simpl. set (s1 := set_running _ s).
    eapply wpp_mono; [apply preempt_request_wpp|]. intros [] s2 [_ Hq]. pose proof (rq_running _ _ _ Hq) as Hq1. simpl in Hq1.
    split_and!.
    + eapply (run_inv_preempt _ _ _ st st s s1 s2 idx idx); try done.
      * intros x Hx. by left.
      * simpl. rewrite Hsn at 1. apply Permutation_app_comm.
      * intros x Hx. simpl. rewrite <-Htk. auto.
    + rewrite Hq1, Hlen. lia.
    + rewrite Hq1. lia.
    + intros Hne. rewrite Hsn in Hcu. destruct (decide (idx = length (removelast (s_running s)))) as [->|Hi].
      { rewrite lookup_app_r, Nat.sub_diag in Hcu by lia. by injection Hcu. }
      rewrite lookup_app_l in Hcu by lia. split; [|done|by rewrite Hq1].
      rewrite Hq1. apply elem_of_take. exists idx. split; [done|lia].
    + lia.
  - destruct (s_running s) as [|x0 l0] eqn:Er; [by apply wpp_raise|]. rewrite <-Er in *.
    set (p := max_request s x0 l0). assert (Hp : p ∈ s_running s) by (rewrite Er; apply max_request_in).
    pose proof (remove_first_perm p _ Hp) as Hperm. pose proof (remove_first_length p _ Hp) as Hlen.
    apply wpp_bind, wpp_modify. set (s1 := set_running _ s). case_decide as Hin1.
    + apply wpp_bind. eapply wpp_mono; [apply unschedule_wpp|].
      intros st' s1' (Hfr1 & n & U1 & U2 & U3 & U4 & U5 & U6 & U7). apply wpp_ret. simpl.
      destruct (step_inv_unschedule _ _ _ st st' s p n Hsi Hin1 U1 U2 U3 U4 U5 U6 U7) as [Hsi' Hnot].
      pose proof (od_pop_perm _ _ _ _ U1) as HP.
      assert (Hk : od_keys (st_tokens st) ≡ₚ p :: od_keys (st_tokens st')) by (unfold od_keys; by rewrite HP).
      assert (Hpi : p ∈ take idx (s_running s)) by (apply Hbef; rewrite Hk; by left).
      pose proof (fr_running _ _ _ Hfr1) as Hr1. simpl in Hr1.
      eapply wpp_mono; [apply preempt_request_wpp|]. intros [] s2 [_ Hq]. pose proof (rq_running _ _ _ Hq) as Hq1.
      rewrite Hr1 in Hq1. destruct idx as [|idx]; [by apply elem_of_nil in Hpi|].
      split_and!.
      * eapply (run_inv_preempt _ _ _ st st' s s1' s2 (S idx) _ p); try done.
        -- intros x Hx. rewrite Hk in Hx. apply elem_of_cons in Hx as [->|]; auto.
        -- by rewrite Hr1.
        -- by rewrite Hr1.
        -- intros x Hx. rewrite Hr1. simpl. rewrite Nat.sub_0_r. apply take_remove_first_pred; [|done|by intros ->].
           apply Hbef. rewrite Hk. by right.
      * rewrite Hq1. lia.
      * rewrite Hq1. lia.
      * intros Hne. split; [|intros Hc; apply Hfr; rewrite Hk; by right|by rewrite Epol].
        rewrite Hq1. simpl. rewrite Nat.sub_0_r. apply take_remove_first_pred; [done|by apply elem_of_take_S|done].
      * intros HF. rewrite U2. apply (si_budget _ _ _ _ _ Hsi) in HF as [_ Hpos]. rewrite HP in Hpos.
        apply Forall_cons in Hpos as [Hpos _]. simpl in Hpos. lia.
    + apply wpp_ret. simpl. assert (Hnot : p ∉ od_keys (st_tokens st)) by (by rewrite Hkeys).
      eapply wpp_mono; [apply preempt_request_wpp|]. intros [] s2 [_ Hq]. pose proof (rq_running _ _ _ Hq) as Hq1. simpl in Hq1.
      split_and!.
      * eapply (run_inv_preempt _ _ _ st st s s1 s2 idx idx p); try done.
        -- intros x Hx. by left.
        -- intros x Hx. simpl. apply take_remove_first; [auto|by intros ->].
      * rewrite Hq1. lia.
      * rewrite Hq1. lia.
      * intros Hne. split; [|done|by rewrite Epol]. rewrite Hq1. apply take_remove_first; [done|congruence].
      * lia.
Qed.

Lemma allocate_or_preempt_wpp fuel all B F rid n ts st idx s :
  run_inv all B F st s idx -> cursor st s idx rid -> (length (s_running s) < fuel)%nat ->
  wpp (allocate_or_preempt cfg use_int sha256 py_id set_order fuel rid n ts st idx) (fun x s' =>
    run_inv all B F x.1.2 s' x.2 /\ (length (s_running s') <= length (s_running s))%nat
    /\ (length (s_running s') - x.2 <= length (s_running s) - idx)%nat /\ (F -> st_budget st <= st_budget x.1.2)
    /\ (is_Some x.1.1 -> cursor x.1.2 s' x.2 rid)) s.
Proof.
  revert st idx s. induction fuel as [|fuel IH]; intros st idx s Hri Hcu Hf; [lia|]. simpl.
  apply wpp_bind, wpp_robj. intros r _. apply wpp_bind, (wpp_framed rview); [fr|]. intros b s1 HF1.
  pose proof (fr_running _ _ _ HF1) as Hr1.
  assert (Hri1 : run_inv all B F st s1 idx).
  { destruct Hri as [H1 H2 H3 H4]. split; [by eapply step_inv_frame, frame_rview|done|by rewrite Hr1|].
    intros HF x. rewrite Hr1, (fr_seen _ _ _ HF1). by apply H4. }
  assert (Hcu1 : cursor st s1 idx rid) by (destruct Hcu; split; by rewrite ?Hr1).
  destruct b as [b|]; [apply wpp_ret; simpl; rewrite Hr1; split_and!; done|].
  apply wpp_bind. eapply wpp_mono; [by apply (choose_victim_wpp all B F st s1 idx rid ts)|].
  intros [[p st'] idx'] s2 Hp. simpl in Hp. apply wpp_bind. eapply wpp_mono; [exact Hp|].
  intros [] s3 (Hri3 & Hl3 & Hm3 & Hcu3 & Hb3). rewrite Hr1 in Hl3, Hm3. case_decide as Ep.
  { apply wpp_ret. simpl. split_and!; [done|lia|lia|done|by intros []]. }
  eapply wpp_mono; [apply IH; [done|by destruct (Hcu3 Ep)|lia]|].
  intros [[b' st''] idx''] s4 (H1 & H2 & H3 & H4 & H5). simpl in *. split_and!; [done|lia|lia|intros HF; specialize (H4 HF); specialize (Hb3 HF); lia|done].
Qed.

Lemma schedule_running_wpp rid n b inputs external nb st s :
  wpp (schedule_running ecc rid n b inputs external nb st) (fun st' s' => frame status s s'
    /\ (forall r, r <> rid -> seen rview s' r = seen rview s r)
    /\ st_tokens st' = od_set rid n (st_tokens st) /\ st_budget st' = st_budget st - n
    /\ st_running st' = st_running st ++ [rid] /\ st_resumed st' = st_resumed st /\ st_new st' = st_new st
    /\ st_preempted st' = st_preempted st /\ st_skipped st' = st_skipped st) s.
Proof.
  apply wpp_and; [by apply framed_schedule_running|]. unfold schedule_running.
  apply wpp_bind, wpp_robj. intros r Hr. cbv zeta. apply wpp_bind.
  apply (wpp_mono _ (fun _ s' => forall r, r <> rid -> seen rview s' r = seen rview s r)).
  { apply wpp_when; intros _; [|done]. apply wpp_modify. intros x Hx. rewrite seen_alter. by rewrite decide_False. }
  intros [] s1 H1. apply wpp_bind, (wpp_framed rview); [by apply framed_allocate_encoder_inputs|]. intros [] s2 F2.
  apply wpp_bind, (wpp_framed rview); [by apply framed_allocate_encoder_inputs|]. intros [] s3 F3. apply wpp_ret.
  split; [|done]. intros x Hx. rewrite (fr_seen _ _ _ F3), (fr_seen _ _ _ F2). auto.
Qed.

(** Granting tokens to the request at the cursor. *)
Lemma run_inv_grant all B F st st' s s' idx rid n :
  run_inv all B F st s idx -> cursor st s idx rid -> (F -> 0 < n <= st_budget st) ->
  frame status s s' -> (forall r, r <> rid -> seen rview s' r = seen rview s r) ->
  st_tokens st' = od_set rid n (st_tokens st) -> st_budget st' = st_budget st - n ->
  st_running st' = st_running st ++ [rid] -> st_resumed st' = st_resumed st -> st_new st' = st_new st ->
  st_preempted st' = st_preempted st -> st_skipped st' = st_skipped st ->
  run_inv all B F st' s' (idx + 1).
Proof.
  intros [Hsi (Hn & Hre & Hsn) Hbef Hfit] [Hin Hfr _] Hpos Hf Hv Ht Hb Hr Hre' Hn' Hpr Hsk.
  pose proof (fr_running _ _ _ Hf) as Hrun.
  assert (Hk : od_keys (st_tokens st') = od_keys (st_tokens st) ++ [rid]).
  { rewrite Ht. unfold od_keys. rewrite od_set_new by done. apply map_app. }
  assert (Hino : rid ∈ s_running s) by (by apply elem_of_take in Hin as (i & Hi%list_elem_of_lookup_2 & _)).
  apply (step_inv_frame _ _ _ _ _ _ Hsi) in Hf as [A1 A2 A0 A3 A4 AL A5 A6 A7 A8 A9 A10].
  assert (Ht' : st_tokens st' = st_tokens st ++ [(rid, n)]) by (rewrite Ht; by apply od_set_new).
  split; [split; rewrite ?Hpr, ?Hsk; try done|..].
  - rewrite Hk. apply NoDup_app. split_and!; [done| |apply NoDup_singleton].
    intros x Hx ->%list_elem_of_singleton. done.
  - rewrite Hk, A6, Hr, Hre', Hn', Hn, Hre, !app_nil_r. done.
  - intros x. rewrite Hk, Hrun. intros [Hx| ->%list_elem_of_singleton]%elem_of_app; [rewrite <-Hrun; auto|done].
  - rewrite Ht', Hb, map_app, zsum_app, <-A8. unfold zsum at 2. simpl. lia.
  - intros HF. destruct (A9 HF) as [HB Hall]. specialize (Hpos HF). rewrite Hb, Ht'. split; [lia|].
    apply Forall_app. split; [done|]. apply Forall_singleton. simpl. lia.
  - split_and!; congruence.
  - intros x. rewrite Hk, Hrun. replace (idx + 1)%nat with (S idx) by lia.
    intros [Hx| ->%list_elem_of_singleton]%elem_of_app; [by apply elem_of_take_S, Hbef|done].
  - intros HF x. rewrite Hrun, Hk, not_elem_of_app. intros Hx [Hx1 Hx2]. rewrite Hv by set_solver. auto.
Qed.

(** The token count of a running request after the encoder inputs and after the
    Mamba alignment. *)
Lemma running_encoder_wpp r st s :
  wpp (if has_encoder_inputs r
       then try_schedule_encoder_inputs ecc cfg r (num_computed_tokens r)
              (running_num_new_tokens cfg r (st_budget st)) (st_encoder_budget st) (eagle_shift cfg)
       else mret ([], running_num_new_tokens cfg r (st_budget st), st_encoder_budget st, []))
    (fun x s' => frame rview s s' /\ (0 <= st_budget st -> fits cfg (rview r) -> 0 <= x.1.1.2 <= st_budget st)) s.
Proof.
  pose proof (running_num_le r (st_budget st)) as Hle. pose proof (running_num_nonneg r (st_budget st)) as Hge.
  apply wpp_if; intros _; [|apply wpp_ret; simpl; split; [done|auto]].
  eapply wpp_mono; [apply try_schedule_tokens|]. simpl. intros x s' (Hf & H1 & H2). split; [done|]. intros Hb Hfi.
  specialize (Hge Hb Hfi). lia.
Qed.

Lemma aligned_bounds r n l ext n' b :
  (if cf_need_mamba_block_aligned_split cfg then mamba_block_aligned_split cfg r n l ext else Ok n) = Ok n' ->
  0 <= n <= b -> 0 <= n' <= b.
Proof.
  intros H Hn. destruct (Bool.bool_dec (cf_need_mamba_block_aligned_split cfg) true) as [Em|Em%not_true_is_false];
    rewrite Em in H; [|by injection H as <-].
  apply mamba_split_bounds in H; [lia|by apply Hbs].
Qed.

(** What the loop over the running requests leaves. *)
Definition running_post all B F s0 (st : Step) s : Prop :=
  step_inv all B F st s /\ st_new st = [] /\ st_resumed st = [] /\ items (st_skipped st) = []
  /\ (length (s_running s) <= length (s_running s0))%nat.

Lemma running_loop_wpp fuel all B F ts st idx s :
  run_inv all B F st s idx -> (length (s_running s) - idx < fuel)%nat ->
  wpp (running_loop ecc cfg use_int sha256 py_id set_order fuel ts st idx) (running_post all B F s) s.
Proof.
  revert st idx s. induction fuel as [|fuel IH]; intros st idx s Hri Hf; [lia|].
  cbn [running_loop]. apply wpp_bind, wpp_gets. apply wpp_if; intros Econd.
  { apply wpp_ret. destruct Hri as [H1 (H2 & H3 & H4) _ _]. unfold running_post. done. }
  apply negb_false_iff, andb_true_iff in Econd as [Hidx%Nat.ltb_lt Hb0%Z.ltb_lt].
  apply wpp_bind, wpp_lift_opt; [done|]. intros rid Hrid. apply wpp_bind, wpp_robj. intros r Hr.
  assert (Hskip : forall s', frame rview s s' -> run_inv all B F st s' (idx + 1)).
  { intros s' Hfr. destruct Hri as [H1 H2 H3 H4]. pose proof (fr_running _ _ _ Hfr) as Hru.
    split; [by eapply step_inv_frame, frame_rview|done| |].
    - intros x Hx%H3. rewrite Hru. replace (idx + 1)%nat with (S idx) by lia. by apply elem_of_take_S.
    - intros HF x. rewrite Hru, (fr_seen _ _ _ Hfr). by apply H4. }
  apply wpp_if; intros _; [apply IH; [by apply Hskip|lia]|].
  apply wpp_bind. eapply wpp_mono; [apply running_encoder_wpp|]. intros [[[inputs n0] nb] ext] s1 [F1 Hn0].
  apply wpp_bind, wpp_lift_res; [nf|]. intros n Hn. apply wpp_if; intros En.
  { pose proof (fr_running _ _ _ F1) as Hr1. eapply wpp_mono; [apply IH; [by apply Hskip|rewrite Hr1; lia]|].
    intros st' s' (? & ? & ? & ? & ?). rewrite Hr1 in *. by split_and!. }
  pose proof (fr_running _ _ _ F1) as Hr1.
  assert (Hcu : cursor st s1 idx rid).
  { assert (Hfr : rid ∉ od_keys (st_tokens st)).
    { intros (i & Hi & Hlt)%(ri_before _ _ _ _ _ _ Hri)%elem_of_take.
      pose proof (NoDup_lookup _ _ _ _ (step_inv_running _ _ _ _ _ (ri_step _ _ _ _ _ _ Hri)) Hrid Hi). lia. }
    split; rewrite ?Hr1; [|done..]. apply elem_of_take. exists idx. split; [done|lia]. }
  assert (Hri1 : run_inv all B F st s1 idx).
  { destruct Hri as [H1 H2 H3 H4]. split; [by eapply step_inv_frame, frame_rview|done|by rewrite Hr1|].
    intros HF x. rewrite Hr1, (fr_seen _ _ _ F1). by apply H4. }
  assert (Hpos : F -> 0 < n <= st_budget st).
  { intros HF. destruct (ri_fits _ _ _ _ _ _ Hri HF rid) as (x & Hx & Hfi).
    { by eapply list_elem_of_lookup_2. } { apply Hcu. }
    unfold seen in Hx. rewrite Hr in Hx. injection Hx as <-.
    pose proof (aligned_bounds _ _ _ _ _ (st_budget st) Hn (Hn0 ltac:(lia) Hfi)). lia. }
  apply wpp_bind. eapply wpp_mono; [apply (allocate_or_preempt_wpp _ all B F); [done|done|rewrite Hr1; lia]|].
  intros [[b st'] idx'] s2 (Hri2 & Hl2 & Hm2 & Hb2 & Hcu2). simpl in *. destruct b as [b|].
  2: { apply wpp_ret. destruct Hri2 as [H1 (H2 & H3 & H4) _ _]. rewrite Hr1 in Hl2. by split_and!. }
  apply wpp_bind. eapply wpp_mono; [apply schedule_running_wpp|].
  intros st3 s3 (F3 & V3 & T1 & T2 & T3 & T4 & T5 & T6 & T7). pose proof (fr_running _ _ _ F3) as Hr3.
  assert (Hri3 : run_inv all B F st3 s3 (idx' + 1)).
  { eapply run_inv_grant; try done; [by apply Hcu2|]. intros HF. specialize (Hpos HF). specialize (Hb2 HF). lia. }
  eapply wpp_mono; [apply IH; [done|]|].
  - rewrite Hr3. pose proof (cu_in _ _ _ _ (Hcu2 ltac:(done))) as (i & Hi%lookup_lt_Some & Hlt)%elem_of_take.
    rewrite Hr1 in *. lia.
  - intros st4 s4 (H1 & H2 & H3 & H4 & H5). rewrite Hr3, Hr1 in *. split_and!; [done..|lia].
Qed.
End Inv.
