(* ===== verification/SchedGrants.v ===== *)
(** The invariant of [schedule] through the loop over the waiting requests. *)
From S2P Require Import Prelude PyDict Request BlockPool SingleType Coordinator KVManager SchedUtils.
From S2P Require Import EncoderCache RequestQueue RequestQueueSpec SchedState SchedStep Partial SchedLemmas SchedInv.
Local Open Scope Z_scope.

Section Waiting.
Context {C E : Type} (kvc : KVConnector C) (ecc : ECConnector E).
Context (cfg : SchedConfig) (use_int : bool) (sha256 : bytes -> bytes) (py_id : Request -> Z).
Context (set_order : forall A, list A -> list A).
Context (Hkvc : connector_safe kvc) (Hecc : ec_connector_safe ecc).
Context (Hbs : cf_need_mamba_block_aligned_split cfg = true -> 0 < cf_cache_block_size cfg).
Abbreviation Sched := (Scheduler C E).
Implicit Types s : Sched.

(** Every request in the two waiting queues. *)
Definition queued s : list string := items (s_waiting s) ++ items (s_skipped_waiting s).

Lemma q_bool_items (q : RequestQueue string) : q_bool q = true -> items q <> [].
Proof.
  unfold q_bool. rewrite (ql_len (RequestQueueLaws := request_queue_laws)). by destruct (items q).
Qed.

Lemma select_queue_wpp s :
  wpp (select_waiting_queue_for_scheduling cfg py_id) (fun q s' => s' = s /\ forall q0, q = Some q0 -> items (queue_at q0 s) <> []) s.
Proof.
  unfold select_waiting_queue_for_scheduling. apply wpp_bind, wpp_gets. cbv zeta.
  destruct (cf_policy cfg).
  - apply wpp_ret. split; [done|]. intros q0. simpl. repeat case_match; intros [= <-]; by apply q_bool_items.
  - destruct (q_bool (s_waiting s)) eqn:E1, (q_bool (s_skipped_waiting s)) eqn:E2; simpl;
      try (apply wpp_ret; split; [done|]; simpl; rewrite ?E1, ?E2; intros q0; repeat case_match; intros [= <-];
           by apply q_bool_items).
    apply wpp_bind, wpp_lift_res; [nf|]. intros a _. apply wpp_bind, wpp_lift_res; [nf|]. intros b _. apply wpp_ret.
    split; [done|]. intros q0 [= <-]. case_match; by apply q_bool_items.
Qed.

(** Taking the head [x] out of its queue. *)
Record popped (x : string) s s' : Prop := mkPopped {
  po_queued : queued s ≡ₚ x :: queued s';
  po_running : s_running s' = s_running s;
  po_requests : s_requests s' = s_requests s;
  po_pause : s_pause_state s' = s_pause_state s;
  po_objs : s_objs s' = s_objs s
}.

Lemma pop_request_wpp q s :
  wpp (pop_request py_id q) (fun x s' => q_peek (queue_at q s) = Ok x /\ popped x s s') s.
Proof.
  unfold pop_request. apply wpp_bind, wpp_gets. apply wpp_bind, wpp_lift_res; [nf|]. intros [x q'] Hq.
  assert (Hne : items (queue_at q s) <> []).
  { intros Hi. apply (ql_pop_empty (RequestQueueLaws := request_queue_laws) (q_lt py_id s)) in Hi. congruence. }
  destruct (ql_pop (RequestQueueLaws := request_queue_laws) (q_lt py_id s) _ Hne) as (y & q'' & Hp & Hk & Hi).
  rewrite Hp in Hq. injection Hq as -> ->. apply wpp_bind, wpp_modify, wpp_ret. simpl. split; [done|].
  destruct q; split; try done; unfold queued; simpl in *; rewrite Hi; [done|].
  symmetry. apply Permutation_middle.
Qed.

(** Promotion changes at most the status of [rid], between waiting statuses. *)
Lemma promote_wpp rid s :
  wpp (try_promote_blocked_waiting_request use_int sha256 rid) (fun b s' =>
    frame (fun _ => tt) s s' /\ (forall r, r <> rid -> seen status s' r = seen status s r)
    /\ (b = true -> exists x, seen status s' rid = Some x /\ (x = WAITING \/ x = PREEMPTED))
    /\ (b = false -> seen status s' rid = seen status s rid)) s.
Proof.
  unfold try_promote_blocked_waiting_request. apply wpp_bind, wpp_robj. intros r Hr.
  assert (Hup : forall (f : Request -> Request) s1, frame status s s1 ->
    (forall r, status (f r) = WAITING \/ status (f r) = PREEMPTED) ->
    wpp (upd rid f ;; mret true) (fun b s' =>
      frame (fun _ => tt) s s' /\ (forall r, r <> rid -> seen status s' r = seen status s r)
      /\ (b = true -> exists x, seen status s' rid = Some x /\ (x = WAITING \/ x = PREEMPTED))
      /\ (b = false -> seen status s' rid = seen status s rid)) s1).
  { intros f s1 [? ? ? ? ? Hs1] Hf. apply wpp_bind, wpp_modify, wpp_ret. split_and!; [split; try done|..|done].
    - intros x. specialize (Hs1 x). unfold seen in *. simpl. destruct (decide (x = rid)) as [->|];
        [rewrite lookup_alter_eq; destruct (s_objs s1 !! rid), (s_objs s !! rid)
        |rewrite lookup_alter_ne by done; destruct (s_objs s1 !! x), (s_objs s !! x)]; simpl in *; congruence.
    - intros x Hx. rewrite seen_alter, decide_False by done. apply Hs1.
    - intros _. rewrite seen_alter, decide_True by done. specialize (Hs1 rid). unfold seen in Hs1. rewrite Hr in Hs1.
      destruct (s_objs s1 !! rid) as [r1|]; [|done]. exists (status (f r1)). split; [done|apply Hf]. }
  destruct (status r) eqn:Est; try (by apply wpp_raise).
  - destruct (structured_output_request r) as [so|]; [|by apply wpp_ret].
    apply wpp_if; intros _; [|by apply wpp_ret]. apply Hup; [done|]. intros [] . by left.
  - apply wpp_bind, wpp_gets. case_decide; [|by apply wpp_ret].
    apply wpp_bind, (wpp_framed status); [by apply framed_update_waiting_for_remote_kv|]. intros [] s1 F1.
    apply Hup; [done|]. intros []. simpl. case_match; auto.
  - apply wpp_bind, wpp_assert. intros _. by apply wpp_ret.
Qed.

(** ** The invariant *)

Lemma step_inv_waiting all B F st s rid :
  step_inv all B F st s -> rid ∈ queued s -> exists x, seen status s rid = Some x /\ waiting_like x.
Proof. intros [] Hin. apply si_wait. unfold queued in Hin. set_solver. Qed.

(** The promotion of a waiting request. *)
Lemma step_inv_promote all B F st s s' rid :
  step_inv all B F st s -> rid ∈ queued s -> frame (fun _ => tt) s s' ->
  (forall r, r <> rid -> seen status s' r = seen status s r) ->
  (exists x, seen status s' rid = Some x /\ waiting_like x) -> step_inv all B F st s'.
Proof.
  intros Hsi Hq [Hru Hwa Hsk Hrq _ _] Ho Hx. pose proof Hsi as [].
  split; rewrite ?Hru, ?Hwa, ?Hsk, ?Hrq; try done.
  - intros r Hr. rewrite Ho; [auto|]. intros ->. rewrite <-si_all in si_nodup. apply NoDup_app in si_nodup as (_ & Hd & _).
    apply (Hd rid Hr). unfold queued in Hq. set_solver.
  - intros r Hr. destruct (decide (r = rid)) as [->|]; [done|]. rewrite Ho by done. auto.
  - intros r Hli. destruct (live_other _ _ _ _ Hrq Ho Hli) as [->|]; [|auto]. rewrite <-si_all. unfold queued in Hq. set_solver.
Qed.

(** A request passed over in this step. *)
Lemma step_inv_skip all B F st st' s s' x :
  step_inv all B F st s -> st_preempted st = [] -> queued s ≡ₚ x :: queued s' -> s_running s' = s_running s -> s_requests s' = s_requests s ->
  (forall r, r <> x -> seen status s' r = seen status s r) ->
  (exists y, seen status s' x = Some y /\ waiting_like y) ->
  items (st_skipped st') ≡ₚ x :: items (st_skipped st) ->
  st_new st' = st_new st -> st_resumed st' = st_resumed st -> st_running st' = st_running st ->
  st_preempted st' = [] -> st_tokens st' = st_tokens st -> st_budget st' = st_budget st ->
  step_inv all B F st' s'.
Proof.
  intros Hsi Hp Hq Hru Hrq Ho Hx Hsk Hn Hre Hr Hp' Ht Hb. pose proof Hsi as [].
  assert (Hxr : x ∉ s_running s).
  { intros Hc. rewrite <-si_all in si_nodup. apply NoDup_app in si_nodup as (_ & Hd & _). apply (Hd x Hc).
    assert (x ∈ queued s) as Hin by (rewrite Hq; by left). unfold queued in Hin. set_solver. }
  unfold queued in Hq. split; rewrite ?Ht, ?Hb, ?Hn, ?Hre, ?Hr, ?Hru, ?Hp', ?Hrq; try done.
  - rewrite <-si_all, Hsk. f_equiv. rewrite !app_assoc, Hq. symmetry. apply Permutation_middle.
  - intros r Hr1. rewrite Ho; [auto|]. by intros ->.
  - intros r Hr1. destruct (decide (r = x)) as [->|Hne]; [done|]. rewrite Ho by done. apply si_wait.
    rewrite !app_assoc, Hq. rewrite !app_assoc, Hsk in Hr1. set_solver.
  - intros r Hli. destruct (live_other _ _ _ _ Hrq Ho Hli) as [->|]; [|auto]. rewrite <-si_all, (app_assoc (items (s_waiting s))), Hq. set_solver.
  - by intros r ?%elem_of_nil.
Qed.

(** A request that gets tokens. *)
Lemma step_inv_admit all B F st st' s s' x n :
  step_inv all B F st s -> st_preempted st = [] -> queued s ≡ₚ x :: queued s' -> s_running s' = s_running s ++ [x] -> s_requests s' = s_requests s ->
  (forall r, r <> x -> seen status s' r = seen status s r) -> seen status s' x = Some RUNNING ->
  0 < n <= st_budget st -> st_tokens st' = od_set x n (st_tokens st) -> st_budget st' = st_budget st - n ->
  st_skipped st' = st_skipped st -> st_preempted st' = [] ->
  st_running st' ++ st_resumed st' ++ st_new st' ≡ₚ x :: st_running st ++ st_resumed st ++ st_new st ->
  step_inv all B F st' s'.
Proof.
  intros Hsi Hp Hq Hru Hrq Ho Hx Hn Ht Hb Hsk Hp' Hl. pose proof Hsi as [].
  assert (Hxr : x ∉ s_running s).
  { intros Hc. rewrite <-si_all in si_nodup. apply NoDup_app in si_nodup as (_ & Hd & _). apply (Hd x Hc).
    assert (x ∈ queued s) as Hin by (rewrite Hq; by left). unfold queued in Hin. set_solver. }
  assert (Hfr : x ∉ od_keys (st_tokens st)) by auto.
  assert (Hxw : x ∉ items (s_waiting s') ++ items (s_skipped_waiting s') ++ items (st_skipped st)).
  { pose proof si_nodup as Hnd. rewrite <-si_all in Hnd. apply NoDup_app in Hnd as (_ & _ & Hnd).
    unfold queued in Hq. rewrite app_assoc, Hq in Hnd. simpl in Hnd. apply NoDup_cons in Hnd as [Hnd _]. by rewrite app_assoc. }
  assert (Ht' : st_tokens st' = st_tokens st ++ [(x, n)]) by (rewrite Ht; by apply od_set_new).
  assert (Hk : od_keys (st_tokens st') = od_keys (st_tokens st) ++ [x]) by (rewrite Ht'; apply map_app).
  unfold queued in Hq. split; rewrite ?Hb, ?Hru, ?Hp', ?Hsk, ?Hrq; try done.
  - rewrite <-si_all, (app_assoc (items (s_waiting s))), Hq, <-app_assoc. simpl. by rewrite <-app_assoc.
  - intros r [Hr| ->%list_elem_of_singleton]%elem_of_app; [|done]. rewrite Ho; [auto|]. by intros ->.
  - intros r Hr. rewrite Ho; [|by intros ->]. apply si_wait. rewrite app_assoc, Hq. set_solver.
  - intros r Hli. destruct (live_other _ _ _ _ Hrq Ho Hli) as [->|]; [|auto]. rewrite <-si_all, (app_assoc (items (s_waiting s))), Hq. set_solver.
  - rewrite Hk. apply NoDup_app. split_and!; [done| |apply NoDup_singleton]. by intros y Hy ->%list_elem_of_singleton.
  - rewrite Hk, Hl, <-si_keys. symmetry. apply Permutation_cons_append.
  - intros r. rewrite Hk. set_solver.
  - rewrite Ht', map_app, zsum_app. unfold zsum at 2. simpl. lia.
  - intros HF. destruct (si_budget HF) as [HB Hall]. rewrite Ht'. split; [lia|]. apply Forall_app. split; [done|].
    apply Forall_singleton. simpl. lia.
  - by intros r ?%elem_of_nil.
Qed.

(** ** One round *)

Definition wait_ok all B F (st : Step) s : Prop :=
  step_inv all B F st s /\ st_preempted st = [] /\ zlen (s_running s) <= cf_max_num_running_reqs cfg.

(** A round that goes on took one request out of the queues. *)
Definition flow_ok all B F s (f : Flow) s' : Prop :=
  match f with
  | Break st' => wait_ok all B F st' s'
  | Continue st' => wait_ok all B F st' s' /\ length (queued s) = S (length (queued s'))
  end.

Lemma items_prepend lt x (q : RequestQueue string) : items (q_prepend lt x q) ≡ₚ x :: items q.
Proof. apply (ql_prepend (RequestQueueLaws := request_queue_laws)). Qed.

Lemma wait_ok_frame all B F st s s' : wait_ok all B F st s -> frame status s s' -> wait_ok all B F st s'.
Proof.
  intros (H1 & H2 & H3) Hf. split_and!; [by eapply step_inv_frame|done|]. by rewrite (fr_running _ _ _ Hf).
Qed.

Lemma queued_frame {T} (v : Request -> T) s s' : frame v s s' -> queued s' = queued s.
Proof. intros []. unfold queued. congruence. Qed.

Lemma popped_seen {T} (v : Request -> T) x s s' r : popped x s s' -> seen v s' r = seen v s r.
Proof. intros []. unfold seen. congruence. Qed.

Lemma queued_peek q s rid : q_peek (queue_at q s) = Ok rid -> rid ∈ queued s.
Proof.
  intros Hk. assert (Hne : items (queue_at q s) <> []).
  { intros Hi. apply (ql_peek_empty (RequestQueueLaws := request_queue_laws)) in Hi. congruence. }
  destruct (ql_pop (RequestQueueLaws := request_queue_laws) (q_lt py_id s) _ Hne) as (y & q'' & _ & Hk' & Hi).
  rewrite Hk in Hk'. injection Hk' as <-. assert (rid ∈ items (queue_at q s)) as Hin by (rewrite Hi; by left).
  unfold queued. destruct q; simpl in Hin; set_solver.
Qed.

Lemma popped_length x s s' : popped x s s' -> length (queued s) = S (length (queued s')).
Proof. intros []. by rewrite po_queued. Qed.

Lemma skip_request_wpp all B F q rid st s :
  wait_ok all B F st s -> q_peek (queue_at q s) = Ok rid -> wpp (skip_request py_id q rid st) (flow_ok all B F s) s.
Proof.
  intros (Hsi & Hp & Hle) Hk. unfold skip_request. apply wpp_bind. eapply wpp_mono; [apply pop_request_wpp|].
  intros x s1 [Hk' Hpo]. rewrite Hk in Hk'. injection Hk' as <-. apply wpp_bind, wpp_gets, wpp_ret. simpl.
  split; [|by eapply popped_length]. split_and!; [|done|by rewrite (po_running _ _ _ Hpo)].
  eapply (step_inv_skip all B F st _ s s1 rid); try done.
  - apply Hpo.
  - apply Hpo.
  - apply Hpo.
  - intros r _. by eapply popped_seen.
  - rewrite (popped_seen status _ _ _ rid Hpo). eapply step_inv_waiting; [done|by eapply queued_peek].
  - apply items_prepend.
Qed.

(** A request that waits for the connector. *)
Lemma admit_async_wpp all B F q rid ts c n inputs external nb st s :
  wait_ok all B F st s -> q_peek (queue_at q s) = Ok rid -> cp_load_async c = true ->
  wpp (admit_request ecc cfg py_id q rid ts c n inputs external nb st) (flow_ok all B F s) s.
Proof.
  intros (Hsi & Hp & Hle) Hk Hc. unfold admit_request. apply wpp_bind. eapply wpp_mono; [apply pop_request_wpp|].
  intros x s1 [Hk' Hpo]. rewrite Hk in Hk'. injection Hk' as <-. rewrite Hc.
  apply wpp_bind, wpp_modify. apply wpp_bind, wpp_gets. cbv zeta. set (s2 := set_objs _ s1).
  apply wpp_bind, (wpp_framed status); [fr|]. intros [] s3 F3. apply wpp_ret.
  assert (Hst : seen status s3 rid = Some WAITING_FOR_REMOTE_KVS).
  { rewrite (fr_seen _ _ _ F3). unfold s2. rewrite seen_alter, decide_True by done.
    destruct (step_inv_waiting _ _ _ _ _ rid Hsi) as (y & Hy & _); [by eapply queued_peek|].
    rewrite <-(popped_seen status _ _ _ rid Hpo) in Hy. unfold seen in Hy. by destruct (s_objs s1 !! rid). }
  assert (Hq3 : queued s3 = queued s1) by (rewrite (queued_frame _ _ _ F3); done).
  assert (Hr3 : s_running s3 = s_running s).
  { rewrite (fr_running _ _ _ F3). apply (po_running _ _ _ Hpo). }
  split; [|rewrite Hq3; by eapply popped_length]. split_and!; [|done|by rewrite Hr3].
  eapply (step_inv_skip all B F st _ s s3 rid); try done.
  - rewrite Hq3. apply Hpo.
  - rewrite (fr_requests _ _ _ F3). apply Hpo.
  - intros r Hr. rewrite (fr_seen _ _ _ F3). unfold s2. rewrite seen_alter, decide_False by done.
    by eapply popped_seen.
  - eexists. split; [exact Hst|]. by right; right.
  - apply items_prepend.
Qed.

Lemma admit_sync_wpp all B F0 q rid ts c n inputs external nb st s :
  wait_ok all B F0 st s -> q_peek (queue_at q s) = Ok rid -> cp_load_async c = false ->
  zlen (s_running s) < cf_max_num_running_reqs cfg -> 0 < n <= st_budget st ->
  wpp (admit_request ecc cfg py_id q rid ts c n inputs external nb st) (flow_ok all B F0 s) s.
Proof.
  intros (Hsi & Hp & _) Hk Hc Hlt Hn. unfold admit_request. apply wpp_bind. eapply wpp_mono; [apply pop_request_wpp|].
  intros x s1 [Hk' Hpo]. rewrite Hk in Hk'. injection Hk' as <-. rewrite Hc.
  apply wpp_bind, wpp_modify. set (s2 := set_running _ s1).
  apply wpp_bind, (wpp_framed status); [fr|]. intros [] s3 F3. apply wpp_bind, wpp_robj. intros r Hr. apply wpp_bind.
  apply (wpp_mono _ (fun st' s' => s' = s3 /\ st_preempted st' = st_preempted st /\ st_tokens st' = st_tokens st
    /\ st_budget st' = st_budget st /\ st_skipped st' = st_skipped st
    /\ st_running st' ++ st_resumed st' ++ st_new st' ≡ₚ rid :: st_running st ++ st_resumed st ++ st_new st)).
  { destruct (status r); try solve [by apply wpp_raise]; apply wpp_ret; split_and!; try done; simpl.
    - rewrite !app_assoc. symmetry. apply Permutation_cons_append.
    - rewrite (Permutation_middle (st_running st)), <-app_assoc. f_equiv. symmetry. apply Permutation_middle. }
  intros st' _ (-> & P1 & P2 & P3 & P4 & P5). cbv zeta. apply wpp_bind, wpp_gets.
  apply wpp_bind, wpp_modify. set (s4 := set_objs _ s3).
  apply wpp_bind, (wpp_framed status); [fr|]. intros [] s5 F5.
  apply wpp_bind, (wpp_framed status); [fr|]. intros [] s6 F6.
  apply wpp_bind, (wpp_framed status); [by apply framed_allocate_encoder_inputs|]. intros [] s7 F7.
  apply wpp_bind, (wpp_framed status); [by apply framed_allocate_encoder_inputs|]. intros [] s8 F8.
  pose proof (transitivity F5 (transitivity F6 (transitivity F7 F8))) as F. clear F5 F6 F7 F8. apply wpp_ret.
  assert (Hq8 : queued s8 = queued s1).
  { rewrite (queued_frame _ _ _ F). unfold s4. change (queued (set_objs _ s3)) with (queued s3).
    rewrite (queued_frame _ _ _ F3). done. }
  assert (Hr8 : s_running s8 = s_running s ++ [rid]).
  { rewrite (fr_running _ _ _ F). unfold s4. change (s_running (set_objs _ s3)) with (s_running s3).
    rewrite (fr_running _ _ _ F3). simpl. by rewrite (po_running _ _ _ Hpo). }
  split; [|rewrite Hq8; by eapply popped_length].
  split_and!; [|simpl; congruence|rewrite Hr8, zlen_app; unfold zlen in *; simpl; lia].
  eapply (step_inv_admit all B F0 st _ s s8 rid n); simpl; try done; try congruence.
  - rewrite Hq8. apply Hpo.
  - rewrite (fr_requests _ _ _ F). unfold s4. change (s_requests (set_objs _ s3)) with (s_requests s3).
    rewrite (fr_requests _ _ _ F3). apply Hpo.
  - intros y Hy. rewrite (fr_seen _ _ _ F). unfold s4. rewrite seen_alter, decide_False by done.
    rewrite (fr_seen _ _ _ F3). unfold s2. by rewrite <-(popped_seen status _ _ _ y Hpo).
  - rewrite (fr_seen _ _ _ F). unfold s4. rewrite seen_alter, decide_True, Hr by done. done.
Qed.

Lemma waiting_new_tokens_wpp rid c st s :
  wpp (waiting_new_tokens ecc cfg rid c st) (fun x s' => frame status s s' /\
    forall i n nb ext, x = Some (i, n, nb, ext) -> cp_load_async c = false -> 0 < n <= st_budget st) s.
Proof.
  apply wpp_and; [by apply framed_waiting_new_tokens|]. unfold waiting_new_tokens. apply wpp_if; intros Hc.
  { apply wpp_bind, wpp_assert. intros _. apply wpp_ret. congruence. }
  apply wpp_bind, wpp_robj. intros r _. cbv zeta. apply wpp_if; intros _; [by apply wpp_ret|].
  set (m := cap_long_prefill cfg _).
  apply wpp_bind, wpp_assert. intros Hm%Z.ltb_lt. apply wpp_if; intros _.
  - apply wpp_bind. eapply wpp_mono; [by apply try_schedule_tokens|]. intros [[[i n] nb] ext] s' (_ & H1 & H2). simpl in *.
    apply wpp_if; intros E0; apply wpp_ret; [done|]. intros i' n' nb' ext' [= <- <- <- <-] _. lia.
  - apply wpp_ret. intros i n nb ext [= <- <- <- <-] _. lia.
Qed.

Lemma waiting_round_wpp all B F0 q ts st s :
  wait_ok all B F0 st s -> zlen (s_running s) < cf_max_num_running_reqs cfg ->
  wpp (waiting_round kvc ecc cfg use_int sha256 py_id set_order q ts st) (flow_ok all B F0 s) s.
Proof.
  intros Hok Hlt. unfold waiting_round. apply wpp_bind, wpp_gets. apply wpp_bind, wpp_lift_res; [nf|]. intros rid Hk.
  apply wpp_bind, wpp_robj. intros r Hr. apply wpp_bind.
  (* the promotion *)
  apply (wpp_mono _ (fun b s1 => wait_ok all B F0 st s1 /\ frame (fun _ => tt) s s1)).
  { apply wpp_if; intros Hb; [|by apply wpp_ret]. eapply wpp_mono; [by apply promote_wpp|].
    intros b s1 (F1 & Ho & Ht & Hf). split; [|done]. destruct Hok as (Hsi & Hp & Hle).
    split_and!; [|done|by rewrite (fr_running _ _ _ F1)].
    pose proof (queued_peek _ _ _ Hk) as Hq. eapply step_inv_promote; try done.
    destruct b; [|rewrite Hf by done; by eapply step_inv_waiting].
    destruct (Ht eq_refl) as (x & Hx & [->| ->]); eexists; (split; [done|]); [by left|by right; left]. }
  intros b s1 [Hok1 F1].
  assert (Hgo : forall s2, frame (fun _ => tt) s s2 ->
    q_peek (queue_at q s2) = Ok rid /\ length (queued s2) = length (queued s) /\ s_running s2 = s_running s).
  { intros s2 F2. rewrite (queued_frame _ _ _ F2), (fr_running _ _ _ F2). split_and!; try done. rewrite <-Hk.
    destruct q; cbn [queue_at]; [by rewrite (fr_waiting _ _ _ F2)|by rewrite (fr_skipped _ _ _ F2)]. }
  assert (Hflow : forall s2 m, frame (fun _ => tt) s s2 -> wpp m (flow_ok all B F0 s2) s2 -> wpp m (flow_ok all B F0 s) s2).
  { intros s2 m F2 Hw. destruct (Hgo s2 F2) as (_ & Hl & _). eapply wpp_mono; [exact Hw|]. intros f s3.
    unfold flow_ok. rewrite Hl. done. }
  assert (Hskip : forall s2, frame (fun _ => tt) s s2 -> wait_ok all B F0 st s2 ->
    wpp (skip_request py_id q rid st) (flow_ok all B F0 s) s2).
  { intros s2 F2 Hok2. apply Hflow; [done|]. apply skip_request_wpp; [done|]. by apply Hgo. }
  assert (Htt : forall s2, frame status s1 s2 -> frame (fun _ => tt) s s2 /\ wait_ok all B F0 st s2).
  { intros s2 F2. split; [|by eapply wait_ok_frame]. exact (transitivity F1 (frame_weaken status (fun _ => tt) _ _ F2)). }
  apply wpp_if; intros _; [by apply Hskip|]. apply wpp_bind, wpp_robj. intros r1 _.
  apply wpp_if; intros _; [by apply Hskip|]. apply wpp_bind, (wpp_framed status); [by apply framed_get_computed|].
  intros c s2 F2. destruct (Htt s2 F2) as [G2 Hok2]. destruct c as [c|]; [|by apply Hskip].
  apply wpp_bind. eapply wpp_mono; [apply waiting_new_tokens_wpp|]. intros enc s3 [F3 Hn3].
  pose proof (transitivity F2 F3) as F23. destruct (Htt s3 F23) as [G3 Hok3].
  destruct enc as [[[[inputs n] nb] ext]|]; [|by apply wpp_ret].
  apply wpp_bind, wpp_robj. intros r3 _. apply wpp_bind, wpp_lift_res; [nf|]. intros n' Hn'.
  apply wpp_if; intros Ez; [by apply wpp_ret|].
  apply wpp_bind, (wpp_framed status); [by apply framed_waiting_allocate|]. intros b4 s4 F4.
  destruct (Htt s4 (transitivity F23 F4)) as [G4 Hok4]. destruct (Hgo s4 G4) as (Hk4 & Hl4 & Hr4).
  destruct b4 as [b4|]; [|by apply wpp_ret]. apply Hflow; [done|].
  destruct (cp_load_async c) eqn:Ec; [by apply admit_async_wpp|]. apply admit_sync_wpp; try done; [by rewrite Hr4|].
  specialize (Hn3 _ _ _ _ eq_refl eq_refl).
  pose proof (aligned_bounds cfg Hbs _ _ _ _ _ (st_budget st) Hn' ltac:(lia)) as Hb'.
  destruct (Bool.bool_dec (cf_need_mamba_block_aligned_split cfg) true) as [Em|Em%not_true_is_false]; rewrite Em in Ez, Hn'.
  - simpl in Ez. lia.
  - injection Hn' as <-. lia.
Qed.

Lemma waiting_loop_wpp fuel all B F0 ts st s :
  wait_ok all B F0 st s -> (length (queued s) < fuel)%nat ->
  wpp (waiting_loop kvc ecc cfg use_int sha256 py_id set_order fuel ts st) (wait_ok all B F0) s.
Proof.
  revert st s. induction fuel as [|fuel IH]; intros st s Hok Hf; [lia|]. cbn [waiting_loop].
  apply wpp_bind, wpp_gets. apply wpp_if; intros _; [by apply wpp_ret|].
  apply wpp_if; intros Er; [by apply wpp_ret|]. apply wpp_bind. eapply wpp_mono; [apply select_queue_wpp|].
  intros q s' [-> _]. apply wpp_bind, wpp_lift_opt; [done|]. intros q0 _. apply wpp_bind.
  eapply wpp_mono; [apply waiting_round_wpp; [done|destruct Hok as (_ & _ & ?); lia]|].
  intros [st'|st'] s1; [by intros; apply wpp_ret|]. intros [Hok1 Hl]. apply IH; [done|lia].
Qed.
End Waiting.

(** * What a scheduling step grants: the invariants of the two loops composed, from
    the state at the start to the output. *)
Local Open Scope Z_scope.

Section Spec.
Context {C E : Type} (kvc : KVConnector C) (ecc : ECConnector E).
Context (cfg : SchedConfig) (use_int : bool) (sha256 : bytes -> bytes) (py_id : Request -> Z).
Context (set_order : forall A, list A -> list A).
Abbreviation Sched := (Scheduler C E).
Implicit Types s : Sched.

(** Every request the scheduler holds in a queue. *)
Definition all_requests s : list string := s_running s ++ queued s.

(** The registered, unfinished requests are in one queue each, once, with a status
    that fits the queue, and the queues hold no other request. *)
Record sched_wf s : Prop := mkSchedWf {
  wf_nodup : NoDup (all_requests s);
  wf_registered rid : rid ∈ all_requests s -> rid ∈ s_requests s;
  wf_running rid : rid ∈ s_running s -> seen status s rid = Some RUNNING;
  wf_queued rid : rid ∈ queued s -> exists x, seen status s rid = Some x /\ waiting_like x;
  wf_kept rid : live s rid -> rid ∈ all_requests s;
  wf_max : zlen (s_running s) <= cf_max_num_running_reqs cfg
}.

(** The running requests have no more computed tokens than tokens (with the
    speculative and the placeholder ones), and room for one more. *)
Definition running_fits s : Prop :=
  forall rid, rid ∈ s_running s -> exists x, seen rview s rid = Some x /\ fits cfg x.

(** The configuration is one that [SchedulerConfig] accepts. *)
Record config_ok : Prop := mkConfigOk {
  co_block_size : cf_need_mamba_block_aligned_split cfg = true -> 0 < cf_cache_block_size cfg;
  co_threshold : 0 <= cf_long_prefill_token_threshold cfg;
  co_max_tokens : 0 <= cf_max_num_scheduled_tokens cfg
}.

(** What the step has granted. *)
Record granted_ok s (pause : PauseState) (st : Step) s' : Prop := mkGrantedOk {
  go_wf : sched_wf s';
  go_all : all_requests s' ≡ₚ all_requests s;
  go_nodup : NoDup (od_keys (st_tokens st));
  go_keys : od_keys (st_tokens st) ≡ₚ st_running st ++ st_resumed st ++ st_new st;
  go_sub rid : rid ∈ od_keys (st_tokens st) -> rid ∈ s_running s';
  go_sum : zsum (map snd (st_tokens st)) + st_budget st = st_budget (init_step cfg pause);
  go_budget : running_fits s -> 0 <= st_budget st /\ Forall (fun kv => 0 < kv.2) (st_tokens st);
  go_preempted rid : rid ∈ st_preempted st -> rid ∈ items (s_waiting s')
}.

Lemma running_post_wf s st s' all B F :
  running_post all B F s st s' -> zlen (s_running s) <= cf_max_num_running_reqs cfg ->
  zlen (s_running s') <= cf_max_num_running_reqs cfg.
Proof. intros (_ & _ & _ & _ & H) Hm. unfold zlen in *. lia. Qed.

Context (Hkvc : connector_safe kvc) (Hecc : ec_connector_safe ecc) (Hcfg : config_ok).

Lemma init_run_inv pause s :
  sched_wf s -> run_inv cfg (all_requests s) (st_budget (init_step cfg pause)) (running_fits s) (init_step cfg pause) s 0.
Proof.
  intros [Hnd Hreg Hr Hq Hk _]. assert (Hsk : items (st_skipped (init_step cfg pause)) = []) by (unfold init_step; simpl; by destruct (cf_policy cfg)).
  split; [split| | |]; try rewrite Hsk; simpl; rewrite ?app_nil_r; try done; try (by intros ? ?%elem_of_nil).
  - apply NoDup_nil_2.
  - intros _. split; [|by apply Forall_nil]. pose proof (co_max_tokens Hcfg). case_decide; lia.
  - intros Hfit rid Hin _. by apply Hfit.
Qed.

Lemma items_prepend_requests lt (other q : RequestQueue string) : items (prepend_requests lt other q) ≡ₚ items other ++ items q.
Proof.
  unfold prepend_requests. etrans; [apply (ql_prepend_all (RequestQueueLaws := request_queue_laws))|].
  f_equiv. apply (ql_iter (RequestQueueLaws := request_queue_laws)).
Qed.

(** The state once the skipped requests are back in their queue. *)
Lemma granted_ok_intro s pause st s1 s2 :
  sched_wf s -> step_inv (all_requests s) (st_budget (init_step cfg pause)) (running_fits s) st s1 ->
  zlen (s_running s1) <= cf_max_num_running_reqs cfg ->
  s_running s2 = s_running s1 -> s_waiting s2 = s_waiting s1 -> s_requests s2 = s_requests s1 ->
  items (s_skipped_waiting s2) ≡ₚ items (st_skipped st) ++ items (s_skipped_waiting s1) ->
  (forall r, seen status s2 r = seen status s1 r) -> granted_ok s pause st s2.
Proof.
  intros Hwf [] Hm Hr Hw Hrq Hs Hv.
  assert (Hq : queued s2 ≡ₚ items (s_waiting s1) ++ items (s_skipped_waiting s1) ++ items (st_skipped st)).
  { unfold queued. rewrite Hw, Hs. f_equiv. apply Permutation_app_comm. }
  assert (Hall : all_requests s2 ≡ₚ all_requests s) by (unfold all_requests; by rewrite Hr, Hq).
  split; try done.
  - split.
    + by rewrite Hall.
    + intros rid. rewrite Hall, Hrq. auto.
    + intros rid. rewrite Hr, Hv. auto.
    + intros rid. rewrite Hq, Hv. auto.
    + intros rid Hl. rewrite Hall. apply si_live. by eapply live_same.
    + by rewrite Hr.
  - intros rid. rewrite Hr. auto.
  - intros rid. rewrite Hw. auto.
Qed.

Lemma decide_step_wpp now pause s :
  sched_wf s -> wpp (decide_step kvc ecc cfg use_int sha256 py_id set_order now pause) (granted_ok s pause) s.
Proof.
  intros Hwf. unfold decide_step. apply wpp_bind, wpp_gets. apply wpp_bind.
  eapply wpp_mono; [eapply (running_loop_wpp kvc ecc cfg use_int sha256 py_id set_order Hkvc Hecc (co_block_size Hcfg) (co_threshold Hcfg));
    [by apply init_run_inv|lia]|].
  intros st s1 Hpost. pose proof (running_post_wf _ _ _ _ _ _ Hpost (wf_max _ Hwf)) as Hm1.
  destruct Hpost as (Hsi & _ & _ & Hsk & _).
  apply wpp_bind. apply (wpp_mono _ (fun st' s' => frame status s1 s' /\ exists l, st' = set_loras l st)).
  { apply wpp_and; [by apply framed_record_loras|]. unfold record_loras. destruct (cf_max_loras cfg) as [ml|].
    - apply wpp_bind, wpp_gets. cbv zeta. apply wpp_bind, wpp_assert. intros _. apply wpp_ret. by eexists.
    - apply wpp_ret. exists (fun x => x). by destruct st. }
  intros st' s2 [F2 [l ->]]. apply (step_inv_frame _ _ _ _ _ _ Hsi) in F2 as Hsi2.
  assert (Hsi3 : step_inv (all_requests s) (st_budget (init_step cfg pause)) (running_fits s) (set_loras l st) s2)
    by (destruct Hsi2; by split).
  assert (Hm2 : zlen (s_running s2) <= cf_max_num_running_reqs cfg) by (by rewrite (fr_running _ _ _ F2)).
  unfold schedule_waiting. apply wpp_bind, wpp_gets. apply wpp_if; intros Econd.
  2: { apply wpp_ret. eapply (granted_ok_intro s pause _ s2 s2); try done. simpl. by rewrite Hsk. }
  apply andb_true_iff in Econd as [Ep%bool_decide_eq_true _].
  apply wpp_bind, wpp_gets. apply wpp_bind.
  eapply wpp_mono; [eapply (waiting_loop_wpp kvc ecc cfg use_int sha256 py_id set_order Hkvc Hecc (co_block_size Hcfg))|].
  { by split_and!. }
  { unfold queued. rewrite length_app, <-!(ql_len (RequestQueueLaws := request_queue_laws)). lia. }
  intros st3 s3 (Hsi4 & _ & Hm3). apply wpp_bind. apply wpp_when; intros Eq.
  - apply wpp_modify, wpp_ret. eapply (granted_ok_intro s pause _ s3); try done. simpl. apply items_prepend_requests.
  - apply wpp_ret. eapply (granted_ok_intro s pause _ s3); try done.
    unfold q_bool in Eq. rewrite (ql_len (RequestQueueLaws := request_queue_laws)) in Eq. by destruct (items (st_skipped st3)).
Qed.

(** *** The output *)

Definition output_of (st : Step) (o : SchedulerOutput) : Prop :=
  so_num_scheduled_tokens o = st_tokens st /\ so_total_num_scheduled_tokens o = zsum (map snd (st_tokens st))
  /\ so_preempted_req_ids o = Some (list_to_set (st_preempted st)).

Lemma make_output_wpp st s : wpp (make_output cfg st) (fun o s' => frame status s s' /\ output_of st o) s.
Proof.
  apply wpp_and; [by apply framed_make_output|]. unfold make_output.
  assert (Hb : forall {A B} (m : M Sched A) (f : A -> M Sched B) Q s0, framed status m ->
    (forall a s1, wpp (f a) Q s1) -> wpp (m ≫= f) Q s0).
  { intros A B m f Q s0 Hm Hf. apply wpp_bind, (wpp_framed status); [done|]. intros a s1 _. apply Hf. }
  do 2 (apply Hb; [fr|intros ? ?]). apply Hb; [fr|intros ? ?]. cbv zeta. do 2 (apply Hb; [fr|intros ? ?]).
  do 4 (apply Hb; [fr|intros ? ?]). by apply wpp_ret.
Qed.

Lemma output_of_or st o a b : output_of st o -> output_of st (or_structured_output a b o).
Proof. done. Qed.

Lemma update_after_schedule_wpp st o s :
  output_of st o -> wpp (update_after_schedule cfg set_order o) (fun o' s' => frame status s s' /\ output_of st o') s.
Proof.
  intros Ho. apply wpp_and; [by apply framed_update_after_schedule|].
  assert (Hbase : wpp (base_update_after_schedule cfg set_order o) (fun o' _ => output_of st o') s).
  { unfold base_update_after_schedule. apply wpp_bind.
    apply (wpp_foldM (fun _ _ o' _ => output_of st o') _ []); [done| |].
    - intros d [rid n] t o' s' Ho'. apply wpp_bind, (wpp_framed status); [fr|]. intros ? s1 _.
      apply wpp_bind, wpp_modify. apply wpp_bind, wpp_robj. intros r _. cbv zeta. apply wpp_bind, wpp_modify.
      apply wpp_bind, (wpp_framed status); [apply framed_when, framed_free_encoder_inputs|]. intros ? s2 _. by apply wpp_ret.
    - intros o' s' Ho'. apply wpp_bind, wpp_modify. by apply wpp_ret. }
  unfold update_after_schedule. destruct (cf_async_class cfg); [|done].
  unfold async_update_after_schedule. apply wpp_bind. eapply wpp_mono; [exact Hbase|]. intros o1 s1 Ho1.
  apply (wpp_foldM (fun _ _ o' _ => output_of st o') _ []); [done| |done].
  intros d [rid n] t o' s' Ho'. apply wpp_bind, (wpp_framed status); [fr|]. intros r s2 _.
  apply wpp_if; intros _; [by apply wpp_ret|]. cbv zeta. do 2 (apply wpp_bind, wpp_modify). by apply wpp_ret.
Qed.

(** *** The whole step *)

Lemma sched_wf_frame s s' : sched_wf s -> frame status s s' -> sched_wf s' /\ all_requests s' = all_requests s.
Proof.
  intros [] [Hr Hw Hs Hrq _ Hv]. assert (Hq : queued s' = queued s) by (unfold queued; congruence).
  assert (Ha : all_requests s' = all_requests s) by (unfold all_requests; congruence).
  split; [split|done]; rewrite ?Ha, ?Hr, ?Hq, ?Hrq; try done; intros rid; [rewrite Hv; auto..|].
  intros Hl. apply wf_kept0. by eapply live_same.
Qed.

Lemma granted_ok_frame s s0 pause st s1 s2 :
  sched_wf s -> frame status s s0 -> frame rview s s0 ->
  granted_ok s0 pause st s1 -> frame status s1 s2 -> granted_ok s pause st s2.
Proof.
  intros Hwf F0 V0 [] F2. destruct (sched_wf_frame _ _ Hwf F0) as [_ Ha0]. destruct (sched_wf_frame _ _ go_wf0 F2) as [Hwf2 Ha2].
  split; try done.
  - by rewrite Ha2, go_all0, Ha0.
  - intros rid. rewrite (fr_running _ _ _ F2). auto.
  - intros Hf. apply go_budget0. intros rid. rewrite (fr_running _ _ _ F0), (fr_seen _ _ _ V0). apply Hf.
  - intros rid. rewrite (fr_waiting _ _ _ F2). auto.
Qed.

(** A step that passes its assertions has not overdrawn its budget. *)
Lemma check_constraints_wpp st s : wpp (check_constraints cfg st) (fun _ s' => frame status s s' /\ 0 <= st_budget st) s.
Proof.
  apply wpp_and; [by apply framed_check_constraints|]. unfold check_constraints. apply wpp_bind, wpp_gets.
  apply wpp_bind, wpp_assert. intros _. apply wpp_bind, wpp_assert. intros Hb%Z.leb_le.
  apply wpp_bind, wpp_assert. intros _. by apply wpp_assert.
Qed.

Lemma schedule_wpp now s :
  sched_wf s -> wpp (schedule kvc ecc cfg use_int sha256 py_id set_order now)
    (fun o s' => exists st, granted_ok s (s_pause_state s) st s' /\ 0 <= st_budget st /\ output_of st o) s.
Proof.
  intros Hwf. unfold schedule.
  apply wpp_bind, wpp_gets. apply wpp_bind, (wpp_framed rview); [fr|]. intros [] s0 V0.
  pose proof (frame_rview _ _ V0) as F0. destruct (sched_wf_frame _ _ Hwf F0) as [Hwf0 _].
  apply wpp_bind. eapply wpp_mono; [by apply decide_step_wpp|]. intros st s1 Hg.
  apply wpp_bind. eapply wpp_mono; [apply check_constraints_wpp|]. intros [] s2 [F2 Hb].
  apply wpp_bind. eapply wpp_mono; [apply make_output_wpp|]. intros o s3 [F3 Ho].
  apply wpp_bind, (wpp_framed status); [fr|]. intros ? s4 F4. apply wpp_bind, (wpp_framed status); [fr|]. intros ? s5 F5.
  eapply wpp_mono; [by apply update_after_schedule_wpp|]. intros o' s6 [F6 Ho']. exists st. split; [|by split].
  eapply (granted_ok_frame _ s0 _ _ s1); try done.
  exact (transitivity F2 (transitivity F3 (transitivity F4 (transitivity F5 F6)))).
Qed.

(** *** The assertions *)

Lemma granted_ok_budget s pause st s' :
  granted_ok s pause st s' -> running_fits s ->
  zsum (map snd (st_tokens st)) <= st_budget (init_step cfg pause) /\ 0 <= st_budget st.
Proof. intros [] Hf. destruct (go_budget0 Hf) as [Hb _]. split; lia. Qed.

Lemma granted_ok_count s pause st s' :
  granted_ok s pause st s' ->
  zlen (st_new st) + zlen (st_resumed st) + zlen (st_running st) <= zlen (s_running s').
Proof.
  intros []. assert (Hle : (length (od_keys (st_tokens st)) <= length (s_running s'))%nat).
  { apply submseteq_length, NoDup_submseteq; [done|]. intros x. apply go_sub0. }
  rewrite go_keys0, !length_app in Hle. unfold zlen. lia.
Qed.

Lemma check_constraints_pass s pause st s' :
  granted_ok s pause st s' -> running_fits s -> check_constraints cfg st s' = (Ok tt, s').
Proof.
  intros Hg Hf. destruct (granted_ok_budget _ _ _ _ Hg Hf) as [H1 H2]. pose proof (granted_ok_count _ _ _ _ Hg) as H3.
  pose proof (wf_max _ (go_wf _ _ _ _ Hg)) as H4. pose proof (co_max_tokens Hcfg) as H5.
  assert (st_budget (init_step cfg pause) <= cf_max_num_scheduled_tokens cfg) as H6.
  { simpl. case_decide; lia. }
  unfold check_constraints, mbind, M_bind, gets, py_assert.
  rewrite !(proj2 (Z.leb_le _ _)) by lia. done.
Qed.
End Spec.
