(* ===== verification/SchedSamples.v ===== *)
(** * A small scheduler

    Concrete schedulers, without connectors, on which the theorems about the
    scheduler are applied. *)
From S2P Require Import Prelude PyDict Request Hashing BlockPool SingleType Coordinator KVManager SchedUtils Samples.
From S2P Require Import EncoderCache RequestQueue RequestQueueSpec SchedState SchedStep SchedUpdate Partial SchedLemmas SchedInv SchedGrants.
From Stdlib Require Import Strings.Byte.
Local Open Scope Z_scope.

(** Connectors that are never called. *)
Definition no_connector : KVConnector unit := {|
  kc_supports_hma := false;
  kc_get_num_new_matched_tokens _ _ := mret (Some 0, false);
  kc_update_state_after_alloc _ _ _ := mret tt;
  kc_request_finished _ _ := mret (false, None);
  kc_request_finished_all_groups _ _ := mret (false, None);
  kc_update_connector_output _ := mret tt;
  kc_build_connector_meta _ := mret tt;
  kc_take_events := mret [];
  kc_reset_cache := mret None
|}.
Definition no_ec_connector : ECConnector unit := {|
  ec_has_cache_item _ _ := false;
  ec_update_state_after_alloc _ _ := mret tt;
  ec_build_connector_meta _ := mret tt
|}.

Lemma no_connector_safe : connector_safe no_connector.
Proof. by split. Qed.
Lemma no_ec_connector_safe : ec_connector_safe no_ec_connector.
Proof. by split. Qed.

(** Two running requests at most, eight tokens a step, blocks of two tokens, an
    encoder budget of four. *)
Definition small_config (policy : SchedulingPolicy) (max_model_len : Z) : SchedConfig := {|
  cf_policy := policy; cf_max_num_running_reqs := 2; cf_max_num_scheduled_tokens := 8;
  cf_max_model_len := max_model_len; cf_block_size := 2; cf_cache_block_size := 2;
  cf_long_prefill_token_threshold := 0; cf_enable_chunked_prefill := true; cf_disable_chunked_mm_input := false;
  cf_max_num_encoder_input_tokens := 4; cf_num_lookahead_tokens := 0; cf_num_spec_tokens := 0;
  cf_use_eagle := false; cf_is_encoder_decoder := false; cf_need_mamba_block_aligned_split := false;
  cf_scheduler_reserve_full_isl := false; cf_needs_kv_cache_zeroing := false; cf_use_pp := false;
  cf_async_scheduling := false; cf_async_class := false; cf_use_v2_model_runner := false; cf_log_stats := false;
  cf_max_loras := None; cf_recompute_kv_load_failures := false |}.

Lemma small_config_ok policy len : config_ok (small_config policy len).
Proof. split; simpl; [done|lia|lia]. Qed.

Abbreviation S0 := (Scheduler unit unit).

(** A scheduler with [n] blocks and one full-attention group. *)
Definition empty_scheduler (caching : bool) (cfg : SchedConfig) (n : Z) : res S0 :=
  scheduler_init cfg (mkConfig n [mkSpec 2 FullAttention 0]) (Some n) caching false false 1 1 8 None None None.

(** A run of the scheduler from its start. *)
Definition run {A} (caching : bool) (cfg : SchedConfig) (n : Z) (m : M S0 A) : res A * option S0 :=
  match empty_scheduler caching cfg n with
  | Ok s => let '(r, s') := m s in (r, Some s')
  | Err e => (Err e, None)
  end.

(** Requests with a priority, multimodal inputs and a LoRA, pooling requests and
    streaming sessions. *)
Definition sched_request (id : string) (prio max_tokens : Z) (toks : list Z) (fs : list MultiModalFeatureSpec)
    (lora : option LoRARequest) (pooling resumable : bool) : Request :=
  mkRequest id 0 prio (if pooling then None else Some toy_sampling)
    (if pooling then Some (mkPoolingParams None) else None) lora None 0 WAITING [] None None max_tokens (Some toks) None ∅
    (zlen toks) [] toks 0 false [] 0 None fs (-1) false 0 0 0 [] false resumable None.

Definition toy_hasher : option BlockHasher := Some (request_block_hasher toy_sha256 toy_sum_hash [x00] 2).

Definition add (cfg : SchedConfig) (r : Request) : M S0 unit :=
  add_request no_connector cfg (fun _ => 0) None (fun _ l => l) r 0.
Definition add_hashed (cfg : SchedConfig) (r : Request) : M S0 unit :=
  add_request no_connector cfg (fun _ => 0) toy_hasher (fun _ l => l) (snd (update_block_hashes toy_hasher r)) 0.
Definition abort (rid : string) : M S0 unit :=
  finish_requests no_connector (fun _ => 0) (fun _ l => l) (FinishOne rid) FINISHED_ABORTED ;; mret tt.

(** The model's output: sampled tokens by request, and the poolers that are done. *)
Definition model_output (ids : list (string * list Z)) (pooled : option (list bool)) : ModelRunnerOutput :=
  mkModelRunnerOutput (list_to_map (imap (fun i x => (x.1, Z.of_nat i)) ids)) (map snd ids) pooled ∅ None None.
Definition no_grammar : StructuredOutputManager :=
  mkStructuredOutputManager None false (fun _ _ => true) (fun _ l => l).
Definition update (cfg : SchedConfig) (o : SchedulerOutput) (m : ModelRunnerOutput) : M S0 unit :=
  update_from_output no_connector cfg false toy_sha256 (fun _ => 0) toy_hasher (fun _ l => l) no_grammar o m 0 ;; mret tt.

Definition step (cfg : SchedConfig) : M S0 SchedulerOutput :=
  schedule no_connector no_ec_connector cfg false toy_sha256 (fun _ => 0) (fun _ l => l) 0.

(** Two requests of six tokens run, a third one waits. *)
Definition busy_config : SchedConfig := small_config FCFS 20.
Definition busy_run : res unit * option S0 :=
  run false busy_config 20 (add busy_config (bare_request "a" [1; 2; 3; 4; 5; 6]) ;;
                      add busy_config (bare_request "b" [7; 8; 9; 10; 11; 12]) ;;
                      add busy_config (bare_request "c" [13; 14]) ;; step busy_config ;; mret tt).
Definition busy : S0 :=
  match busy_run with
  | (Ok _, Some s) => s
  | _ => mkScheduler ∅ [] (Fcfs q_empty) (Fcfs q_empty) [] ∅ None ∅ 0 ∅ ∅ (EncCache (encoder_cache_init 0))
           (mkKVManager 0 false false None (mkCoord (mkConfig 0 []) 0 false sample_pool false [] 1 NoPrefixCache))
           None None None UNPAUSED
  end.

Lemma busy_run_ok : fst busy_run = Ok tt.
Proof. vm_compute. reflexivity. Qed.
Lemma busy_running : s_running busy = ["a"; "b"].
Proof. vm_compute. reflexivity. Qed.
Lemma busy_queued : queued busy = ["c"].
Proof. vm_compute. reflexivity. Qed.

Lemma busy_wf : sched_wf busy_config busy.
Proof.
  split; unfold all_requests; rewrite ?busy_running, ?busy_queued.
  - apply (bool_decide_unpack _). vm_compute. exact I.
  - assert (s_requests busy = ["a"; "b"; "c"]) as -> by (vm_compute; reflexivity). done.
  - intros rid Hin. repeat (apply elem_of_cons in Hin as [->|Hin]; [vm_compute; reflexivity|]). by apply elem_of_nil in Hin.
  - intros rid ->%list_elem_of_singleton. exists WAITING. split; [vm_compute; reflexivity|by left].
  - intros rid [Hin _]. exact Hin.
  - vm_compute. congruence.
Qed.

Lemma busy_fits : running_fits busy_config busy.
Proof.
  intros rid Hin. rewrite busy_running in Hin.
  repeat (apply elem_of_cons in Hin as [->|Hin]; [eexists; split; [vm_compute; reflexivity|vm_compute; split; congruence]|]).
  by apply elem_of_nil in Hin.
Qed.
