(* ===== verification/SchedSpec.v ===== *)
(** * Properties of a scheduling step

    [schedule] loses and duplicates no request, keeps its budgets, terminates,
    and never trips over its own assertions, from any well-formed state. *)
From S2P Require Import Prelude PyDict Request BlockPool SingleType Coordinator KVManager SchedUtils Samples.
From S2P Require Import EncoderCache RequestQueue RequestQueueSpec SchedState SchedStep SchedUpdate Partial SchedLemmas SchedInv SchedGrants SchedSamples.
From S2P Require Import FreeQueue Hashing.
Local Open Scope Z_scope.

Section Spec.
Context {C E : Type} (kvc : KVConnector C) (ecc : ECConnector E).
Context (cfg : SchedConfig) (use_int : bool) (sha256 : bytes -> bytes) (py_id : Request -> Z).
Context (set_order : forall A, list A -> list A).
Context (Hkvc : connector_safe kvc) (Hecc : ec_connector_safe ecc) (Hcfg : config_ok cfg).
Implicit Types s : Scheduler C E.

(** C28: however blocks run out and requests are preempted, skipped, blocked or
    admitted, a scheduling step loses no request and duplicates none: the three
    queues hold the same requests afterwards, each in one queue, the running ones
    with status [RUNNING], the others with a waiting status, and no more than
    [max_num_running_reqs] run. *)
Theorem schedule_keeps_requests now s o s' :
  sched_wf cfg s -> schedule kvc ecc cfg use_int sha256 py_id set_order now s = (Ok o, s') ->
  sched_wf cfg s' /\ all_requests s' ≡ₚ all_requests s.
Proof.
  intros Hwf Hrun. apply (wpp_ok _ _ _ _ _ (schedule_wpp kvc ecc cfg use_int sha256 py_id set_order Hkvc Hecc Hcfg now s Hwf)) in Hrun.
  destruct Hrun as (st & [] & _). done.
Qed.

(** A scheduling step terminates: from a well-formed state none of the loops
    of [schedule] (over the running requests, over preemption victims, over the
    waiting requests) runs out of its fuel, whatever the connectors, the caches
    and the order of sets do. *)
Theorem schedule_terminates now s :
  sched_wf cfg s -> fst (schedule kvc ecc cfg use_int sha256 py_id set_order now s) <> Err FuelExhausted.
Proof.
  intros Hwf. pose proof (schedule_wpp kvc ecc cfg use_int sha256 py_id set_order Hkvc Hecc Hcfg now s Hwf) as H.
  unfold wpp in H. destruct (schedule _ _ _ _ _ _ _ _ s) as [[o|e] s']; [done|]. by intros [= ->].
Qed.

(** C29: what a step grants: each scheduled request is granted tokens once and runs
    afterwards; the numbers add up to the announced total, which is at most
    [max_num_scheduled_tokens], and at most zero when the scheduler is paused; a
    preempted request waits and is not scheduled.  The numbers are positive if no
    running request has more computed tokens than tokens (drafts and placeholders
    included) and each has room in the model for one more ([running_fits]; otherwise
    they need not be, [full_prompt_gets_negative_tokens]). *)
Theorem schedule_grants now s o s' :
  sched_wf cfg s -> schedule kvc ecc cfg use_int sha256 py_id set_order now s = (Ok o, s') ->
  let tokens := so_num_scheduled_tokens o in
  NoDup (od_keys tokens) /\ (forall rid, rid ∈ od_keys tokens -> rid ∈ s_running s')
  /\ so_total_num_scheduled_tokens o = zsum (map snd tokens)
  /\ so_total_num_scheduled_tokens o <= (if decide (s_pause_state s = PAUSED_ALL) then 0 else cf_max_num_scheduled_tokens cfg)
  /\ (exists preempted, so_preempted_req_ids o = Some preempted
     /\ forall rid, rid ∈ preempted -> rid ∈ items (s_waiting s') /\ rid ∉ od_keys tokens)
  /\ (running_fits cfg s -> forall rid n, (rid, n) ∈ tokens -> 0 < n).
Proof.
  intros Hwf Hrun.
  apply (wpp_ok _ _ _ _ _ (schedule_wpp kvc ecc cfg use_int sha256 py_id set_order Hkvc Hecc Hcfg now s Hwf)) in Hrun.
  destruct Hrun as (st & Hg & Hb & -> & -> & ->).
  destruct Hg as [Hwf' _ Hnd _ Hsub Hsum Hpos Hpre]. cbv zeta. split_and!; try done.
  - change (zsum (map snd (st_tokens st)) <= st_budget (SchedStep.init_step cfg (s_pause_state s))). lia.
  - eexists. split; [done|]. intros rid Hin%elem_of_list_to_set%Hpre. split; [done|]. intros Hk%Hsub.
    pose proof (wf_nodup _ _ Hwf') as Hn. apply NoDup_app in Hn as (_ & Hd & _). apply (Hd rid Hk).
    unfold queued. apply elem_of_app. by left.
  - intros Hfit rid n Hin. destruct (Hpos Hfit) as [_ Hall]. rewrite Forall_forall in Hall. exact (Hall _ Hin).
Qed.

(** C38: the four assertions at the end of [schedule] ("check if the scheduling
    constraints are satisfied") never fire: after the two loops, from a
    well-formed state in which no running request has more computed tokens than tokens
    or fills the model's length ([running_fits]), they all hold. *)
Theorem schedule_asserts_hold now pause s st s' :
  sched_wf cfg s -> running_fits cfg s ->
  decide_step kvc ecc cfg use_int sha256 py_id set_order now pause s = (Ok st, s') ->
  check_constraints cfg st s' = (Ok tt, s').
Proof.
  intros Hwf Hfit Hrun.
  apply (wpp_ok _ _ _ _ _ (decide_step_wpp kvc ecc cfg use_int sha256 py_id set_order Hkvc Hecc Hcfg now pause s Hwf)) in Hrun.
  by eapply check_constraints_pass.
Qed.
End Spec.

(** The second step of the busy scheduler: "b" gets its last four tokens. *)
Definition busy_step : res SchedulerOutput * S0 := step busy_config busy.

Lemma schedule_keeps_requests_witness :
  exists o s', busy_step = (Ok o, s') /\ sched_wf busy_config s' /\ all_requests s' ≡ₚ all_requests busy.
Proof.
  destruct busy_step as [[o|e] s'] eqn:Hrun; [|vm_compute in Hrun; discriminate].
  exists o, s'. split; [reflexivity|].
  exact (schedule_keeps_requests no_connector no_ec_connector busy_config false toy_sha256 (fun _ => 0) (fun _ l => l)
    no_connector_safe no_ec_connector_safe (small_config_ok FCFS 20) 0 busy o s' busy_wf Hrun).
Defined.

Lemma schedule_terminates_witness : fst busy_step <> Err FuelExhausted.
Proof.
  exact (schedule_terminates no_connector no_ec_connector busy_config false toy_sha256 (fun _ => 0) (fun _ l => l)
    no_connector_safe no_ec_connector_safe (small_config_ok FCFS 20) 0 busy busy_wf).
Defined.

Lemma schedule_grants_witness :
  exists o s', busy_step = (Ok o, s') /\ so_num_scheduled_tokens o = [("b", 4)] /\ so_total_num_scheduled_tokens o <= 8
    /\ forall rid n, (rid, n) ∈ so_num_scheduled_tokens o -> 0 < n.
Proof.
  destruct busy_step as [[o|e] s'] eqn:Hrun; [|vm_compute in Hrun; discriminate].
  exists o, s'. split; [reflexivity|]. split.
  - apply (f_equal fst) in Hrun. vm_compute in Hrun. injection Hrun as <-. reflexivity.
  - destruct (schedule_grants no_connector no_ec_connector busy_config false toy_sha256 (fun _ => 0) (fun _ l => l)
      no_connector_safe no_ec_connector_safe (small_config_ok FCFS 20) 0 busy o s' busy_wf Hrun) as (_ & _ & _ & Hmax & _ & Hpos).
    split; [exact Hmax|exact (Hpos busy_fits)].
Defined.

Lemma schedule_asserts_hold_witness :
  exists st s', decide_step no_connector no_ec_connector busy_config false toy_sha256 (fun _ => 0) (fun _ l => l) 0 UNPAUSED busy
    = (Ok st, s') /\ check_constraints busy_config st s' = (Ok tt, s').
Proof.
  destruct (decide_step no_connector no_ec_connector busy_config false toy_sha256 (fun _ => 0) (fun _ l => l) 0 UNPAUSED busy)
    as [[st|e] s'] eqn:Hrun; [|vm_compute in Hrun; discriminate].
  exists st, s'. split; [reflexivity|].
  exact (schedule_asserts_hold no_connector no_ec_connector busy_config false toy_sha256 (fun _ => 0) (fun _ l => l)
    no_connector_safe no_ec_connector_safe (small_config_ok FCFS 20) 0 UNPAUSED busy st s' busy_wf busy_fits Hrun).
Defined.

(** * * Where the scheduler goes wrong

    Runs of the scheduler, from its start, that end in a state its comments or its
    callers exclude. *)
Local Open Scope Z_scope.

(** ** A prompt that fills the model *)

Definition full_prompt_config : SchedConfig := small_config FCFS 6.
Definition full_prompt : Request := sched_request "a" 0 1 [1; 2; 3; 4; 5; 6] [] None true false.

(** Two steps in flight, as with pipeline parallelism: the second one is scheduled
    before the output of the first one is processed. *)
Definition full_prompt_run : M S0 (SchedulerOutput * SchedulerOutput) :=
  add full_prompt_config full_prompt ;;
  o1 ← step full_prompt_config ;
  o2 ← step full_prompt_config ;
  update full_prompt_config o1 (model_output [("a", [])] (Some [true])) ;;
  mret (o1, o2).

(** A pooling request may fill the model's context.  When it is scheduled
    again before its output is processed, [schedule] grants it minus one token,
    because [max_model_len - 1 - num_computed_tokens] is the least of the limits;
    and when that step's output is processed, [update_from_output] raises
    [AssertionError]. *)
Theorem full_prompt_gets_negative_tokens :
  (forall cfg r b, num_computed_tokens r = cf_max_model_len cfg ->
     num_tokens_with_spec r + num_output_placeholders r = num_computed_tokens r ->
     0 <= b -> 0 <= cf_long_prefill_token_threshold cfg -> running_num_new_tokens cfg r b = -1)
  /\ fst (run false full_prompt_config 11
            (os ← full_prompt_run ; mret (so_num_scheduled_tokens os.1, so_num_scheduled_tokens os.2)))
     = Ok ([("a", 6)], [("a", -1)])
  /\ fst (run false full_prompt_config 11
            (os ← full_prompt_run ; update full_prompt_config os.2 (model_output [("a", [])] (Some [true]))))
     = Err AssertionError.
Proof.
  split; [|split; vm_compute; reflexivity].
  intros cfg r b Hc Hn Hb Ht. unfold running_num_new_tokens, cap_long_prefill. rewrite Hn, Hc, Z.sub_diag.
  destruct (_ && _) eqn:Et; lia.
Qed.

(** ** An encoder input that is never computed *)

Definition preempt_config : SchedConfig :=
  mkSchedConfig PRIORITY 2 8 100 2 2 4 true false 4 0 0 false false false false false false false false false false None false.
Definition image_at_8 : MultiModalFeatureSpec := mkFeature (Some "img") "image" (mkPlaceholderRange 8 4 None).
Definition image_request : Request :=
  sched_request "a" 1 16 [1; 2; 3; 4; 5; 6; 7; 8; 9; 10; 11; 12; 13; 14; 15; 16] [image_at_8] None false false.

(** The third step schedules the image of "a", then preempts "a" to make room for
    "b"; afterwards "b" is aborted and "a" runs again. *)
Definition image_run : M S0 (list SchedulerOutput) :=
  add preempt_config image_request ;; o1 ← step preempt_config ;
  add preempt_config (sched_request "b" 0 16 [21; 22; 23; 24] [] None false false) ;; o2 ← step preempt_config ;
  update preempt_config o2 (model_output [("a", []); ("b", [30])] None) ;;
  o3 ← step preempt_config ; abort "b" ;;
  o4 ← step preempt_config ; o5 ← step preempt_config ; o6 ← step preempt_config ;
  mret [o1; o2; o3; o4; o5; o6].

(** When a request is preempted in the step that scheduled its image, the
    image stays marked as cached.  When the request runs again, the tokens that
    cover the image (8 to 12) are scheduled, but no step ever schedules the image
    for the encoder. *)
Theorem preempted_image_never_computed :
  fst (run false preempt_config 9 (os ← image_run ;
         mret (map (fun o => (so_num_scheduled_tokens o, so_scheduled_encoder_inputs o,
                              elements (default ∅ (so_preempted_req_ids o)))) os)))
  = Ok [([("a", 4)], [], []); ([("a", 4); ("b", 4)], [], []); ([("b", 1)], [], ["a"]);
        ([("a", 4)], [], []); ([("a", 4)], [], []); ([("a", 4)], [], [])].
Proof. vm_compute. reflexivity. Qed.

(** ** A streaming session that is lost *)

Definition session_config : SchedConfig :=
  mkSchedConfig FCFS 2 8 100 2 2 4 true false 4 0 0 false false false false false false false false false false None false.
Definition session (toks : list Z) : Request := sched_request "r" 0 1 toks [] None false true.

(** The second step preempts the session, whose first output is then processed:
    it stops, and the next update of its queue begins. *)
Definition session_run : M S0 unit :=
  add session_config (bare_request "a" [1; 2; 3; 4; 5; 6; 7; 8; 9; 10; 11; 12]) ;;
  add session_config (session [21; 22; 23; 24]) ;; add session_config (session [31; 32]) ;;
  o1 ← step session_config ; o2 ← step session_config ;
  update session_config o1 (model_output [("a", []); ("r", [30])] None).

(** In this run a streaming session stops while it is preempted, with its next
    update queued, and ends in no queue at all: it is put into the waiting queue and
    then removed from it with the stopped requests.  It stays registered, with
    status [WAITING], and its earlier prompt is gone from its tokens. *)
Theorem preempted_session_is_lost :
  match run false session_config 6 session_run with
  | (Ok _, Some s) =>
      Some (all_requests s, s_requests s,
            (fun r => (status r, all_token_ids r, prompt_token_ids r)) <$> s_objs s !! "r")
  | _ => None
  end = Some (["a"], ["a"; "r"], Some (WAITING, [31; 32], Some [21; 22; 23; 24; 31; 32])).
Proof. vm_compute. reflexivity. Qed.

(** ** A stale block hash *)

(** The session's first output token completes a block; the update discards the
    token; then another request comes with the discarded token in its prompt. *)
Definition stale_run : M S0 SchedulerOutput :=
  add_hashed session_config (session [21; 22; 23]) ;; add_hashed session_config (session [31; 32]) ;;
  o1 ← step session_config ; update session_config o1 (model_output [("r", [24])] None) ;;
  step session_config ;;
  add_hashed session_config (bare_request "x" [21; 22; 23; 24; 25]) ;;
  step session_config.

(** An update of a streaming session discards the last sampled token but
    keeps the hash of the block it completed.  The block that then holds tokens 23
    and 31 is cached under the hash of 23 and 24, and a request with the prompt 21
    to 25 is given it as a prefix-cache hit of four tokens. *)
Theorem discarded_token_keeps_hash :
  match run true session_config 11 stale_run with
  | (Ok _, Some s) =>
      Some ((fun r => (all_token_ids r, bool_decide (block_hashes r
                 = block_hashes (snd (update_block_hashes toy_hasher (bare_request "y" [21; 22; 23; 24; 25]))))))
              <$> s_objs s !! "r",
            num_cached_tokens <$> s_objs s !! "x",
            bool_decide (take 2 <$> coord_get_blocks (coordinator (s_kv_cache_manager s)) "x"
                         = take 2 <$> coord_get_blocks (coordinator (s_kv_cache_manager s)) "r"))
  | _ => None
  end = Some (Some ([21; 22; 23; 31; 32], true), Some 4, true).
Proof. vm_compute. reflexivity. Qed.

(** ** A finished request in the queue *)

Definition lora_config : SchedConfig :=
  mkSchedConfig FCFS 3 8 100 2 2 4 true false 4 0 0 false false false false false false false false false false (Some 2) false.
Definition lora_request_of (id : string) (lora max_tokens : Z) (toks : list Z) : Request :=
  sched_request id 0 max_tokens toks [] (Some (mkLoRARequest "l" lora)) false false.

(** Three steps in flight: "r" is preempted in the third one and passed over in
    the fourth, which exhausts the LoRAs of the step; then the output of the
    second step ends it. *)
Definition lora_run : M S0 unit :=
  add lora_config (lora_request_of "a" 1 16 [1; 2; 3; 4; 5; 6; 7; 8; 9; 10; 11; 12; 13; 14]) ;;
  add lora_config (lora_request_of "r" 2 1 [21; 22; 23; 24; 25; 26]) ;;
  add lora_config (lora_request_of "b" 3 16 [31; 32]) ;;
  o0 ← step lora_config ; o1 ← step lora_config ; step lora_config ;;
  update lora_config o0 (model_output [("a", []); ("r", [])] None) ;;
  step lora_config ;;
  update lora_config o1 (model_output [("a", []); ("r", [30])] None).

(** A request that is preempted, passed over in a later step and stopped by
    an output still in flight stays in [skipped_waiting] with a finished status,
    because only [waiting] is cleared of the stopped requests; as soon as there is
    room for it, [schedule] raises [RuntimeError]. *)
Theorem stopped_request_stays_skipped :
  match run false lora_config 9 lora_run with
  | (Ok _, Some s) =>
      Some (s_running s, items (s_waiting s), items (s_skipped_waiting s), s_requests s, status <$> s_objs s !! "r")
  | _ => None
  end = Some (["a"; "b"], [], ["r"], ["a"; "b"], Some FINISHED_LENGTH_CAPPED)
  /\ fst (run false lora_config 9 (lora_run ;; abort "a" ;; step lora_config)) = Err RuntimeError.
Proof. split; vm_compute; reflexivity. Qed.
