(* ===== verification/SchedFinish.v ===== *)
(** What a method leaves as it was when it returns: a logic for preorders on
    states, and that no step of the scheduler makes a request resumable. *)
From S2P Require Import Prelude PyDict Request BlockPool SingleType Coordinator KVManager SchedUtils.
From S2P Require Import EncoderCache RequestQueue RequestQueueSpec SchedState SchedStep SchedUpdate Partial SchedLemmas.
From S2P Require Import SchedInv SchedGrants.
Local Open Scope Z_scope.

(** ** Preorders kept by a method *)

Definition keeps {S A} (R : relation S) (m : M S A) : Prop := forall s a s', m s = (Ok a, s') -> R s s'.

Section Keeps.
Context {S : Type} (R : relation S) `{!PreOrder R}.

Lemma keeps_ret {A} (a : A) : keeps R (mret a).
Proof. by intros s b s' [= _ <-]. Qed.
Lemma keeps_raise {A} e : keeps (A:=A) R (raise e).
Proof. by intros s b s'. Qed.
Lemma keeps_bind {A B} (m : M S A) (f : A -> M S B) : keeps R m -> (forall a, keeps R (f a)) -> keeps R (m ≫= f).
Proof.
  intros Hm Hf s b s'. unfold mbind, M_bind. destruct (m s) as [[a|e] s1] eqn:Ea; [|done].
  intros Hb. etrans; [by eapply Hm|by eapply Hf].
Qed.
Lemma keeps_gets {A} (f : S -> A) : keeps R (gets f).
Proof. by intros s b s' [= _ <-]. Qed.
Lemma keeps_modify f : (forall s, R s (f s)) -> keeps R (modify f).
Proof. by intros H s b s' [= _ <-]. Qed.
Lemma keeps_assert b : keeps R (py_assert b).
Proof. destruct b; [apply keeps_ret|apply keeps_raise]. Qed.
Lemma keeps_lift_res {A} (r : res A) : keeps R (lift_res r).
Proof. by intros s b s' [= _ <-]. Qed.
Lemma keeps_lift_opt {A} e (o : option A) : keeps R (lift_opt e o).
Proof. destruct o; [apply keeps_ret|apply keeps_raise]. Qed.
Lemma keeps_when b m : keeps R m -> keeps R (when b m).
Proof. destruct b; [done|]. intros _. apply keeps_ret. Qed.
Lemma keeps_forM_ {A} (l : list A) body : (forall x, keeps R (body x)) -> keeps R (forM_ l body).
Proof. intros H. induction l; simpl; [apply keeps_ret|]. by apply keeps_bind. Qed.
Lemma keeps_foldM {A B} (body : B -> A -> M S B) b l : (forall b x, keeps R (body b x)) -> keeps R (foldM body b l).
Proof. intros H. revert b. induction l; simpl; intros b; [apply keeps_ret|]. by apply keeps_bind. Qed.
Lemma keeps_zoom {T A} (get : S -> T) put (m : M T A) : (forall s t, R s (put t s)) -> keeps R (zoom get put m).
Proof. intros H s a s'. unfold zoom. destruct (m (get s)) as [r t]. intros [= _ <-]. apply H. Qed.
End Keeps.

(** ** The fixed part of the requests *)

Section Static.
Context {C E T : Type} (v : Request -> T).
Abbreviation Sched := (Scheduler C E).

Definition same_view (s s' : Sched) : Prop := forall rid, seen v s' rid = seen v s rid.

#[export] Instance same_view_preorder : PreOrder same_view.
Proof. split; [by intros s rid|]. intros s1 s2 s3 H1 H2 rid. by rewrite H2. Qed.

Lemma keeps_upd rid f : (forall r, v (f r) = v r) -> keeps same_view (upd rid f).
Proof.
  intros Hf. apply keeps_modify. intros s x. rewrite seen_alter. case_decide as Ex; [|done].
  subst. unfold seen. destruct (s_objs s !! rid); [|done]. simpl. by rewrite Hf.
Qed.

(** A method of a request that keeps [v]. *)
Definition view_safe {A} (m : M Request A) : Prop := forall r, v (snd (m r)) = v r.

Lemma keeps_on_request {A} rid (m : M Request A) : view_safe m -> keeps same_view (on_request rid m).
Proof.
  intros Hm s a s'. unfold on_request, robj. repeat unfold mbind, M_bind. unfold gets, lift_opt, raise, modify, lift_res.
  destruct (s_objs s !! rid) as [r|] eqn:Er; [|discriminate]. unfold mret, M_ret. specialize (Hm r).
  destruct (m r) as [x r']. intros [= _ <-] y. unfold seen. simpl.
  destruct (decide (y = rid)) as [->|]; [|by rewrite lookup_insert_ne]. rewrite lookup_insert_eq, Er. simpl in *. by rewrite Hm.
Qed.

Lemma keeps_on_connector {A} (m : M C A) : keeps same_view (on_connector m).
Proof.
  intros s a s'. unfold on_connector, mbind, M_bind, gets. destruct (s_connector s); [|by intros [= _ <-]].
  destruct (m c) as [[x|e] c']; unfold modify, lift_res; simpl; [|done]. by intros [= _ <-].
Qed.
Lemma keeps_on_ec_connector {A} (m : M E A) : keeps same_view (on_ec_connector m).
Proof.
  intros s a s'. unfold on_ec_connector, mbind, M_bind, gets. destruct (s_ec_connector s) as [c|]; [|by intros [= _ <-]].
  destruct (m c) as [[x|e] c']; unfold modify, lift_res; simpl; [|done]. by intros [= _ <-].
Qed.
End Static.

Create HintDb keeps.

(** The search for a proof of [keeps], as for [framed]. *)
Ltac kp_step :=
  lazymatch goal with
  | |- keeps _ (mbind _ _) => apply keeps_bind; [exact _| |intros ?]
  | |- keeps _ (mret _) => apply keeps_ret; exact _
  | |- keeps _ (raise _) => apply keeps_raise
  | |- keeps _ (gets _) => apply keeps_gets; exact _
  | |- keeps _ (modify _) => apply keeps_modify; by intros ? ?
  | |- keeps _ (py_assert _) => apply keeps_assert; exact _
  | |- keeps _ (lift_res _) => apply keeps_lift_res; exact _
  | |- keeps _ (lift_opt _ _) => apply keeps_lift_opt; exact _
  | |- keeps _ (when _ _) => apply keeps_when; [exact _|]
  | |- keeps _ (forM_ _ _) => apply keeps_forM_; [exact _|intros ?]
  | |- keeps _ (foldM _ _ _) => apply keeps_foldM; [exact _|intros ? ?]
  | |- keeps _ (on_kv _) => apply keeps_zoom; by intros ? ? ?
  | |- keeps _ (on_enc _) => apply keeps_zoom; by intros ? ? ?
  | |- keeps _ (on_connector _) => apply keeps_on_connector
  | |- keeps _ (on_ec_connector _) => apply keeps_on_ec_connector
  | |- keeps _ (upd _ _) => apply keeps_upd; by intros []
  | |- keeps _ (on_request _ _) => apply keeps_on_request
  | |- keeps _ (match ?x with _ => _ end) => destruct x
  | |- keeps _ ?m => first [solve [auto with keeps nocore] | let h := nf_head m in unfold h; cbv beta zeta]
  end.
Ltac kp := intros; cbv beta zeta; repeat kp_step.

(** ** Schedulers without streaming sessions *)

Definition plain_request (r : Request) : Prop := status r <> WAITING_FOR_STREAMING_REQ /\ resumable r = false.

Section Plain.
Context {C E : Type}.
Abbreviation Sched := (Scheduler C E).

(** No request is a session, and none is counted as waiting for its next input. *)
Definition no_sessions (s : Sched) : Prop :=
  s_num_waiting_for_streaming_input s = 0 /\ map_Forall (fun _ => plain_request) (s_objs s).

Definition stays_plain (s s' : Sched) : Prop := no_sessions s -> no_sessions s'.

#[export] Instance stays_plain_preorder : PreOrder stays_plain.
Proof. split; [by intros s ?|]. intros s1 s2 s3 H1 H2 H. auto. Qed.

Definition plain_safe {A} (m : M Request A) : Prop := forall r, plain_request r -> plain_request (snd (m r)).

Lemma plain_upd rid f : (forall r, plain_request r -> plain_request (f r)) -> keeps stays_plain (upd rid f).
Proof.
  intros Hf. apply keeps_modify. intros s [Hn Hp]. split; [done|]. simpl. intros x r. rewrite lookup_alter_Some.
  intros [(-> & r0 & Hr0 & ->)|[_ Hr]]; [apply Hf|]; by eapply Hp.
Qed.

Lemma plain_on_request {A} rid (m : M Request A) : plain_safe m -> keeps stays_plain (on_request rid m).
Proof.
  intros Hm s a s'. unfold on_request, robj. repeat unfold mbind, M_bind. unfold gets, lift_opt, raise, modify, lift_res.
  destruct (s_objs s !! rid) as [r|] eqn:Er; [|discriminate]. unfold mret, M_ret. specialize (Hm r).
  destruct (m r) as [x r']. intros [= _ <-] [Hn Hp]. split; [done|]. simpl. intros y r1.
  rewrite lookup_insert_Some. intros [[_ <-]|[_ Hr1]]; [apply Hm|]; by eapply Hp.
Qed.

Lemma plain_on_connector {A} (m : M C A) : keeps stays_plain (on_connector m).
Proof.
  intros s a s'. unfold on_connector, mbind, M_bind, gets. destruct (s_connector s); [|by intros [= _ <-] ?].
  destruct (m c) as [[x|e] c']; unfold modify, lift_res; simpl; [|done]. intros [= _ <-] [? ?]. by split.
Qed.
Lemma plain_on_ec_connector {A} (m : M E A) : keeps stays_plain (on_ec_connector m).
Proof.
  intros s a s'. unfold on_ec_connector, mbind, M_bind, gets. destruct (s_ec_connector s) as [c|]; [|by intros [= _ <-] ?].
  destruct (m c) as [[x|e] c']; unfold modify, lift_res; simpl; [|done]. intros [= _ <-] [? ?]. by split.
Qed.
End Plain.

Ltac plain_request_tac := intros [] [? ?]; split; simpl in *; repeat case_match; done.

(** The same search for [stays_plain]. *)
Ltac pl_step :=
  lazymatch goal with
  | |- keeps stays_plain (upd _ _) => apply plain_upd; plain_request_tac
  | |- keeps stays_plain (on_request _ _) => apply plain_on_request
  | |- keeps stays_plain (on_connector _) => apply plain_on_connector
  | |- keeps stays_plain (on_ec_connector _) => apply plain_on_ec_connector
  | |- keeps stays_plain (modify _) => apply keeps_modify; intros ? [? ?]; by split
  | |- keeps stays_plain (on_kv _) => apply keeps_zoom; intros ? ? [? ?]; by split
  | |- keeps stays_plain (on_enc _) => apply keeps_zoom; intros ? ? [? ?]; by split
  | |- _ => kp_step
  end.
Ltac pl := intros; cbv beta zeta; repeat pl_step; auto with keeps.

Section PlainRuns.
Context {C E : Type} (kvc : KVConnector C) (ecc : ECConnector E).
Context (cfg : SchedConfig) (use_int : bool) (sha256 : bytes -> bytes) (py_id : Request -> Z).
Context (set_order : forall A, list A -> list A).
Abbreviation R := (stays_plain (C:=C) (E:=E)).

Lemma plain_record_event now t ts : plain_safe (record_event now t ts).
Proof. intros r. by destruct r. Qed.
Hint Resolve plain_record_event : keeps.

Lemma pl_preempt rid ts : keeps R (preempt_request cfg py_id set_order rid ts).
Proof. pl. Qed.
Hint Resolve pl_preempt : keeps.

Lemma pl_encoder_loop r computed shift i fs t : keeps R (encoder_loop ecc cfg r computed shift i fs t).
Proof. revert i t. induction fs as [|f fs IH]; simpl; pl. Qed.
Hint Resolve pl_encoder_loop : keeps.

Lemma pl_allocate_or_preempt fuel rid n ts st idx :
  keeps R (allocate_or_preempt cfg use_int sha256 py_id set_order fuel rid n ts st idx).
Proof. revert st idx. induction fuel as [|fuel IH]; simpl; pl. Qed.
Hint Resolve pl_allocate_or_preempt : keeps.

Lemma pl_running_loop fuel ts st idx : keeps R (running_loop ecc cfg use_int sha256 py_id set_order fuel ts st idx).
Proof. revert st idx. induction fuel as [|fuel IH]; simpl; pl. Qed.
Hint Resolve pl_running_loop : keeps.
Lemma pl_promote rid : keeps R (try_promote_blocked_waiting_request use_int sha256 rid).
Proof. pl. Qed.
Hint Resolve pl_promote : keeps.

Lemma pl_waiting_round q ts st : keeps R (waiting_round kvc ecc cfg use_int sha256 py_id set_order q ts st).
Proof. destruct q; pl. Qed.
Hint Resolve pl_waiting_round : keeps.

Lemma pl_waiting_loop fuel ts st : keeps R (waiting_loop kvc ecc cfg use_int sha256 py_id set_order fuel ts st).
Proof. revert st. induction fuel as [|fuel IH]; cbn [waiting_loop]; pl. Qed.
Hint Resolve pl_waiting_loop : keeps.

Lemma pl_schedule now : keeps R (schedule kvc ecc cfg use_int sha256 py_id set_order now).
Proof. pl. Qed.

(** *** Between two steps *)

Context (block_hasher : option BlockHasher) (som : StructuredOutputManager).
Context (Hbh : forall h, block_hasher = Some h -> plain_safe h).

(** What a lookup finds is plain. *)
Lemma plain_robj {A} rid (f : Request -> M (Scheduler C E) A) :
  (forall r, plain_request r -> keeps R (f r)) -> keeps R (r ← robj rid ; f r).
Proof.
  intros Hf s a s'. unfold robj, mbind, M_bind, gets, lift_opt. destruct (s_objs s !! rid) as [r|] eqn:Er; [|done].
  intros Hrun Hs. eapply (Hf r); [|exact Hrun|exact Hs]. by eapply (proj2 Hs).
Qed.
Lemma plain_requests_get {A} rid (f : option Request -> M (Scheduler C E) A) :
  (forall o, (forall r, o = Some r -> plain_request r) -> keeps R (f o)) -> keeps R (o ← requests_get rid ; f o).
Proof.
  intros Hf s a s'. unfold requests_get, mbind, M_bind, gets. intros Hrun Hs. eapply Hf; [|exact Hrun|exact Hs].
  intros r. case_decide; [|done]. intros Hr. by eapply (proj2 Hs).
Qed.

Lemma pl_free_request rid d : keeps R (free_request kvc set_order rid d).
Proof. pl. Qed.
Hint Resolve pl_free_request : keeps.

Lemma pl_collect_finishing ids : keeps R (collect_finishing ids).
Proof.
  unfold collect_finishing. apply keeps_foldM; [exact _|]. intros [[v ru] wa] x. apply plain_requests_get.
  intros [r|] Hr; [|pl]. destruct (Hr r eq_refl) as [Hn _]. rewrite bool_decide_false by done. simpl. pl.
Qed.
Hint Resolve pl_collect_finishing : keeps.

Lemma pl_finish_requests ids st : keeps R (finish_requests kvc py_id set_order ids st).
Proof.
  unfold finish_requests. destruct (status_is_finished st) eqn:Est; [|by intros s a s'].
  assert (Hst : forall r, plain_request r -> plain_request (set_status (fun _ => st) r))
    by (intros r [_ Hr]; split; [by destruct st|exact Hr]).
  pl. by apply plain_upd.
Qed.
Hint Resolve pl_finish_requests : keeps.

Lemma plain_check_stop len : plain_safe (check_stop len).
Proof.
  intros r Hr. unfold check_stop, mbind, M_bind, gets, modify, py_assert, lift_opt, lift_res, raise, mret, M_ret.
  repeat (case_match; simplify_eq/=); try done; destruct Hr; by split.
Qed.
Lemma plain_should_advance : plain_safe (should_advance som).
Proof.
  intros r [? ?]. unfold should_advance, mbind, M_bind, gets, when, modify, mret, M_ret.
  repeat case_match; simplify_eq; by split.
Qed.
Lemma plain_take_events : plain_safe take_events.
Proof. intros r [? ?]. unfold take_events, mbind, M_bind, gets, modify, mret, M_ret. destruct (events r); by split. Qed.
Lemma plain_append toks : plain_safe (append_output_token_ids block_hasher toks).
Proof.
  intros r [H1 H2]. unfold append_output_token_ids, update_block_hashes, mbind, M_bind, modify. simpl.
  destruct block_hasher as [h|] eqn:Eh; [|by split].
  match goal with |- context [h ?r0] => pose proof (Hbh h eq_refl r0) as Hr; destruct (h r0) as [[hs|e] r1] end; apply Hr; by split.
Qed.
Hint Resolve plain_check_stop plain_should_advance plain_take_events plain_append : keeps.

Lemma pl_append_until_stopped rid taken toks : keeps R (append_until_stopped cfg block_hasher rid taken toks).
Proof. revert taken. induction toks as [|t toks IH]; intros taken; simpl; pl. Qed.
Hint Resolve pl_append_until_stopped : keeps.

Lemma pl_handle_stopped rid now : keeps R (handle_stopped_request cfg py_id block_hasher rid now).
Proof. unfold handle_stopped_request. apply plain_robj. intros r [_ ->]. simpl. pl. Qed.
Hint Resolve pl_handle_stopped : keeps.

Lemma pl_update_from_output o m now :
  keeps R (update_from_output kvc cfg use_int sha256 py_id block_hasher set_order som o m now).
Proof. pl. Qed.

Lemma pl_update_drafts drafts : keeps R (update_draft_token_ids som drafts).
Proof. pl. Qed.

Lemma pl_preempt_all l ts : keeps R (preempt_all cfg py_id set_order l ts).
Proof. induction l as [|x l IH]; simpl; pl. Qed.
Hint Resolve pl_preempt_all : keeps.

Lemma pl_reset b c now : keeps R (reset_prefix_cache kvc cfg py_id set_order b c now).
Proof. pl. Qed.

(** A new request that is not a session. *)
Lemma pl_add_request request now (s s' : Scheduler C E) a :
  request_id request ∉ s_requests s -> plain_request request ->
  add_request kvc cfg py_id block_hasher set_order request now s = (Ok a, s') -> stays_plain s s'.
Proof.
  intros Hnew Hr. unfold add_request. assert (Hg : requests_get (request_id request) s = (Ok None, s)).
  { unfold requests_get, gets. by rewrite decide_False. }
  unfold mbind at 1, M_bind at 1. rewrite Hg. rewrite (proj2 Hr).
  match goal with |- ?m s = _ -> _ => assert (keeps R m) as Hk end; [|by apply Hk].
  pl. apply keeps_modify. intros s1 [Hn Hp]. split; [done|]. simpl. intros x r0.
  rewrite lookup_insert_Some. intros [[_ <-]|[_ Hr1]]; [done|by eapply Hp].
Qed.
End PlainRuns.

(** * Finishing requests: what [finish_requests] and [_free_request] leave of the
    queues. *)
Local Open Scope Z_scope.

Section Finish.
Context {C E : Type} (kvc : KVConnector C).
Context (cfg : SchedConfig) (py_id : Request -> Z) (set_order : forall A, list A -> list A).
Context (Hkvc : connector_safe kvc).
Abbreviation Sched := (Scheduler C E).
Implicit Types s : Sched.

(** Queues and statuses are as before; requests other than those of [P] stay
    registered. *)
Record unlisted (P : string -> Prop) s s' : Prop := mkUnlisted {
  ul_running : s_running s' = s_running s;
  ul_waiting : s_waiting s' = s_waiting s;
  ul_skipped : s_skipped_waiting s' = s_skipped_waiting s;
  ul_pause : s_pause_state s' = s_pause_state s;
  ul_status r : seen status s' r = seen status s r;
  ul_keep r : ~ P r -> r ∈ s_requests s -> r ∈ s_requests s';
  ul_sub r : r ∈ s_requests s' -> r ∈ s_requests s
}.

#[export] Instance unlisted_preorder P : PreOrder (unlisted P).
Proof.
  split; [intros s; by split|]. intros s1 s2 s3 [? ? ? ? V1 K1 L1] [? ? ? ? V2 K2 L2].
  split; try congruence; intros r; auto.
Qed.

Lemma frame_unlisted P s s' : frame status s s' -> unlisted P s s'.
Proof. intros [? ? ? Hq ? ?]. split; try done; by rewrite Hq. Qed.

Lemma live_unlisted P s s' r : unlisted P s s' -> live s' r -> live s r.
Proof. intros [] [Hr (x & Hx & Hf)]. split; [auto|]. exists x. by rewrite <-ul_status0. Qed.

Lemma framed_connector_finished {T} (v : Request -> T) rid : framed (C:=C) (E:=E) v (connector_finished kvc rid).
Proof. fr. Qed.

Lemma finished_not_live s rid r : s_objs s !! rid = Some r -> is_finished r = true -> ~ live s rid.
Proof. intros Hr Hf (_ & x & Hx & Hfx). unfold seen in Hx. rewrite Hr in Hx. injection Hx as <-. unfold is_finished in Hf. congruence. Qed.

Lemma remove_first_other {A} `{EqDecision A} (x y : A) l : y <> x -> y ∈ l -> y ∈ list_remove_first x l.
Proof. intros Hne. induction l as [|z l IH]; simpl; [done|]. intros Hin. case_decide; set_solver. Qed.

Lemma free_blocks_of_wpp rid s :
  wpp (free_blocks_of rid) (fun _ s' => unlisted (fun r => r = rid) s s' /\ ~ live s rid) s.
Proof.
  unfold free_blocks_of. apply wpp_bind, wpp_robj. intros r Hr. apply wpp_bind, wpp_assert. intros Hf.
  pose proof (finished_not_live _ _ _ Hr Hf) as Hnl.
  apply wpp_bind, (wpp_framed status); [fr|]. intros [] s1 F1. apply wpp_bind, wpp_gets.
  apply wpp_if; intros Hp; [|by apply wpp_raise]. apply wpp_modify. split; [|done].
  apply (frame_unlisted (fun r => r = rid)) in F1. destruct F1. split; simpl; try done.
  - intros x Hx Hin. apply remove_first_other; auto.
  - intros x Hin%remove_first_elem. auto.
Qed.

Lemma free_request_wpp rid delay s :
  wpp (free_request kvc set_order rid delay) (fun _ s' => unlisted (fun r => r = rid) s s' /\ ~ live s rid) s.
Proof.
  unfold free_request. apply wpp_bind, wpp_robj. intros r Hr. apply wpp_bind, wpp_assert. intros Hf.
  pose proof (finished_not_live _ _ _ Hr Hf) as Hnl.
  apply wpp_bind, (wpp_framed status); [apply framed_connector_finished|]. intros [d p] s1 F1.
  apply wpp_bind, (wpp_framed status); [fr|]. intros [] s2 F2. do 2 (apply wpp_bind, wpp_modify).
  set (s3 := set_finished_req_ids_dict _ _). assert (F3 : frame status s s3) by (pose proof (transitivity F1 F2) as []; by split).
  apply (frame_unlisted (fun r => r = rid)) in F3. apply wpp_bind.
  apply (wpp_mono _ (fun _ s' => unlisted (fun r => r = rid) s s')).
  - apply wpp_when; intros _; [|done]. eapply wpp_mono; [apply free_blocks_of_wpp|]. intros [] s4 [F4 _].
    exact (transitivity F3 F4).
  - intros [] s4 F4. by apply wpp_ret.
Qed.

(** *** The first pass *)

Definition collected s (ids : list string) (acc : list string * gset string * list string) : Prop :=
  (forall r, r ∈ acc.1.1 <-> r ∈ ids /\ live s r)
  /\ (forall r, r ∈ acc.1.2 <-> r ∈ acc.1.1 /\ seen status s r = Some RUNNING)
  /\ (forall r, r ∈ acc.2 <-> r ∈ acc.1.1 /\ seen status s r <> Some RUNNING).

Lemma live_lookup s rid r : s_objs s !! rid = Some r -> live s rid <-> rid ∈ s_requests s /\ is_finished r = false.
Proof.
  intros Hr. unfold live, seen, is_finished. rewrite Hr. split.
  - by intros [? (x & [= <-] & ?)].
  - intros [? ?]. split; [done|]. by exists (status r).
Qed.

Lemma requests_get_wpp rid (Q : option Request -> Sched -> Prop) s :
  (forall r, s_objs s !! rid = Some r -> rid ∈ s_requests s -> Q (Some r) s) ->
  ((rid ∉ s_requests s \/ s_objs s !! rid = None) -> Q None s) ->
  wpp (requests_get rid) Q s.
Proof.
  intros H1 H2. apply wpp_gets. case_decide; [|auto]. destruct (s_objs s !! rid) eqn:Er; auto.
Qed.

Lemma live_none s rid : rid ∉ s_requests s \/ s_objs s !! rid = None -> ~ live s rid.
Proof. intros [H|H] [Hin (x & Hx & _)]; [done|]. unfold seen in Hx. by rewrite H in Hx. Qed.

Lemma collect_finishing_wpp ids s :
  wpp (collect_finishing ids) (fun acc s' => frame status s s' /\ collected s ids acc) s.
Proof.
  unfold collect_finishing.
  apply (wpp_foldM (fun d _ acc s' => frame status s s' /\ collected s d acc) _ []); [| |by intros acc s'].
  { split; [done|]. unfold collected. simpl. set_solver. }
  intros d x t [[valid running] waiting] s1 [F1 (H1 & H2 & H3)]. simpl in *.
  assert (Hlive : live s1 x <-> live s x).
  { unfold live. by rewrite (fr_requests _ _ _ F1), (fr_seen _ _ _ F1). }
  assert (Hskip : ~ live s x -> collected s (d ++ [x]) (valid, running, waiting)).
  { intros Hn. unfold collected. simpl. split_and!; [|done|done]. intros r. rewrite H1, elem_of_app, list_elem_of_singleton.
    split; [naive_solver|]. intros [[?| ->] ?]; done. }
  apply wpp_bind, requests_get_wpp; [|intros Hn; apply wpp_ret; split; [done|apply Hskip; rewrite <-Hlive; by apply live_none]].
  intros r Hr Hin. apply wpp_if; intros Ef.
  { apply wpp_ret. split; [done|]. apply Hskip. rewrite <-Hlive, (live_lookup _ _ _ Hr). by rewrite Ef; intros []. }
  assert (Hl : live s x) by (by rewrite <-Hlive, (live_lookup _ _ _ Hr)).
  assert (Hst : seen status s x = Some (status r)) by (rewrite <-(fr_seen _ _ _ F1); unfold seen; by rewrite Hr).
  assert (Hv : forall r, r ∈ valid ++ [x] <-> r ∈ d ++ [x] /\ live s r).
  { intros y. rewrite !elem_of_app, H1, list_elem_of_singleton. split; [|naive_solver]. intros [[??]| ->]; auto. }
  case_decide as Er.
  - apply wpp_ret. split; [done|]. unfold collected. simpl. split_and!; [done| |].
    + intros y. rewrite elem_of_union, elem_of_singleton, H2, elem_of_app, list_elem_of_singleton. split; [|naive_solver].
      intros [->|[??]]; [split; [by right|congruence]|split; [by left|done]].
    + intros y. rewrite H3, elem_of_app, list_elem_of_singleton. split; [intros [??]; split; [by left|done]|].
      intros [[?| ->] Hne]; [done|congruence].
  - apply wpp_bind, (wpp_framed status); [fr|]. intros [] s2 F2. apply wpp_ret. split; [exact (transitivity F1 F2)|].
    unfold collected. simpl. split_and!; [done| |].
    + intros y. rewrite H2, elem_of_app, list_elem_of_singleton. split; [intros [??]; split; [by left|done]|].
      intros [[?| ->] He]; [done|congruence].
    + intros y. rewrite !elem_of_app, H3, list_elem_of_singleton. split; [|naive_solver].
      intros [[??]| ->]; [split; [by left|done]|split; [by right|congruence]].
Qed.

(** *** The second pass *)

(** The requests of [valid] leave the queues and have the final status. *)
Record finished_off (valid : list string) (st : RequestStatus) s s' : Prop := mkFinishedOff {
  fo_running : s_running s' = s_running s;
  fo_waiting : s_waiting s' = s_waiting s;
  fo_skipped : s_skipped_waiting s' = s_skipped_waiting s;
  fo_pause : s_pause_state s' = s_pause_state s;
  fo_done r : r ∈ valid -> seen status s r <> None -> seen status s' r = Some st;
  fo_others r : r ∉ valid -> seen status s' r = seen status s r;
  fo_keep r : r ∉ valid -> r ∈ s_requests s -> r ∈ s_requests s';
  fo_sub r : r ∈ s_requests s' -> r ∈ s_requests s
}.

Lemma finish_one_wpp rid st s :
  wpp (r ← robj rid ;
       delay ← (if decide (status r = WAITING_FOR_REMOTE_KVS) then
                  d ← gets (fun s => negb (bool_decide (rid ∈ s_finished_recving_kv_req_ids s))) ;
                  modify (set_finished_recving_kv_req_ids (fun x => x ∖ {[rid]})) ;;
                  modify (set_failed_recving_kv_req_ids (fun x => x ∖ {[rid]})) ;;
                  mret d
                else mret false) ;
       upd rid (set_status (fun _ => st)) ;;
       free_request kvc set_order rid delay ;; mret tt)
    (fun _ s' => finished_off [rid] st s s') s.
Proof.
  apply wpp_bind, wpp_robj. intros r Hr. apply wpp_bind, (wpp_framed status); [fr|]. intros delay s1 [].
  apply wpp_bind, wpp_modify. set (s2 := set_objs _ s1). apply wpp_bind.
  eapply wpp_mono; [apply free_request_wpp|]. intros p s3 [[] _]. apply wpp_ret. split; simpl in *; try congruence.
  - intros x ->%list_elem_of_singleton Hx. rewrite ul_status0. unfold s2. rewrite seen_alter, decide_True by done.
    specialize (fr_seen rid). unfold seen in fr_seen. rewrite Hr in fr_seen. by destruct (s_objs s1 !! rid).
  - intros x Hx%not_elem_of_cons. rewrite ul_status0. unfold s2. rewrite seen_alter, decide_False by naive_solver. done.
  - intros x Hx%not_elem_of_cons Hin. apply ul_keep0; [naive_solver|]. simpl. by rewrite fr_requests.
  - intros x Hx%ul_sub0. simpl in Hx. by rewrite fr_requests in Hx.
Qed.

Lemma finish_each_wpp valid st s :
  wpp (forM_ valid (fun rid =>
         r ← robj rid ;
         delay ← (if decide (status r = WAITING_FOR_REMOTE_KVS) then
                    d ← gets (fun s => negb (bool_decide (rid ∈ s_finished_recving_kv_req_ids s))) ;
                    modify (set_finished_recving_kv_req_ids (fun x => x ∖ {[rid]})) ;;
                    modify (set_failed_recving_kv_req_ids (fun x => x ∖ {[rid]})) ;;
                    mret d
                  else mret false) ;
         upd rid (set_status (fun _ => st)) ;;
         free_request kvc set_order rid delay ;; mret tt)) (fun _ s' => finished_off valid st s s') s.
Proof.
  revert s. induction valid as [|x valid IH]; intros s; simpl.
  { apply wpp_ret. split; try done. by intros r ?%elem_of_nil. }
  apply wpp_bind. eapply wpp_mono; [apply finish_one_wpp|]. intros [] s1 F1.
  eapply wpp_mono; [apply IH|]. intros [] s2 F2. destruct F1 as [? ? ? ? D1 O1 K1 S1], F2 as [? ? ? ? D2 O2 K2 S2].
  split; try congruence; try (intros r; rewrite not_elem_of_cons); auto.
  - intros r Hr Hs. destruct (decide (r ∈ valid)) as [Hv|Hv].
    + destruct (decide (r = x)) as [->|Hx]; [rewrite D2; [done|done|by rewrite D1; [|left|]]|].
      apply D2; [done|]. by rewrite O1 by set_solver.
    + rewrite O2 by done. apply D1; [|done]. set_solver.
  - intros [Hx Hv]. rewrite O2, O1; [done|set_solver|done].
  - intros [Hx Hv] Hin. apply K2, K1; [done|set_solver|done].
Qed.

(** *** [finish_requests] *)

(** The ids an argument of [finish_requests] stands for. *)
Definition finish_ids (request_ids : FinishIds) s : list string :=
  match request_ids with
  | FinishOne rid => [rid]
  | FinishMany rids => set_order string (elements rids)
  | FinishAll => s_requests s
  end.

(** The live requests among the ids leave the queues; the others stay. *)
Record finished_requests (ids : list string) (st : RequestStatus) s s' : Prop := mkFinishedRequests {
  fq_running r : r ∈ s_running s' <-> r ∈ s_running s /\ ~ (r ∈ ids /\ live s r);
  fq_queued r : r ∈ queued s' <-> r ∈ queued s /\ ~ (r ∈ ids /\ live s r);
  fq_done r : r ∈ ids -> live s r -> seen status s' r = Some st;
  fq_others r : ~ (r ∈ ids /\ live s r) -> seen status s' r = seen status s r;
  fq_keep r : ~ (r ∈ ids /\ live s r) -> r ∈ s_requests s -> r ∈ s_requests s';
  fq_sub r : r ∈ s_requests s' -> r ∈ s_requests s;
  fq_pause : s_pause_state s' = s_pause_state s;
  fq_final : status_is_finished st = true;
  fq_wf : sched_wf cfg s'
}.

Lemma wf_live s r : sched_wf cfg s -> r ∈ all_requests s -> live s r.
Proof.
  intros Hwf Hr. split; [by apply (wf_registered _ _ Hwf)|]. unfold all_requests in Hr.
  apply elem_of_app in Hr as [Hr|Hr]; [exists RUNNING; split; [by apply (wf_running _ _ Hwf)|done]|].
  destruct (wf_queued _ _ Hwf r Hr) as (x & Hx & Hw). exists x. split; [done|].
  destruct Hw as [->|[->|Hb]]; [done|done|]. by destruct x.
Qed.

Lemma wf_running_iff s r : sched_wf cfg s -> r ∈ all_requests s -> r ∈ s_running s <-> seen status s r = Some RUNNING.
Proof.
  intros Hwf Hr. split; [by apply (wf_running _ _ Hwf)|]. intros Hs. unfold all_requests in Hr.
  apply elem_of_app in Hr as [?|Hq]; [done|]. destruct (wf_queued _ _ Hwf r Hq) as (x & Hx & Hw).
  rewrite Hs in Hx. injection Hx as <-. by destruct Hw as [?|[?|?]].
Qed.

Lemma items_remove_all lt (xs : list string) (q : RequestQueue string) :
  items (q_remove_all lt xs q) ≡ₚ filter (fun x => x ∉ xs) (items q).
Proof. apply (ql_remove_all (RequestQueueLaws := request_queue_laws)). Qed.

(** The queues once the collected requests are removed. *)
Definition removed (valid : list string) s s' : Prop :=
  (forall r, r ∈ s_running s' <-> r ∈ s_running s /\ r ∉ valid)
  /\ (forall r, r ∈ queued s' <-> r ∈ queued s /\ r ∉ valid)
  /\ NoDup (all_requests s') /\ zlen (s_running s') <= zlen (s_running s)
  /\ (forall r, seen status s' r = seen status s r) /\ s_requests s' = s_requests s
  /\ s_pause_state s' = s_pause_state s.

Lemma remove_running_wpp (running : gset string) s (Q : unit -> Sched -> Prop) :
  NoDup (s_running s) -> Q tt (set_running (fun l => filter (fun x => x ∉ running) l) s) ->
  wpp (when (negb (bool_decide (running = ∅))) (modify (set_running (fun l => remove_all l running)))) Q s.
Proof.
  intros Hnd HQ. apply wpp_when; intros Hb.
  - apply wpp_modify. unfold set_running. by rewrite remove_all_filter.
  - apply negb_false_iff, bool_decide_eq_true in Hb. subst running.
    unfold set_running in HQ. rewrite filter_all_in in HQ by (intros; set_solver). by destruct s.
Qed.

Lemma finish_requests_wpp request_ids st s :
  sched_wf cfg s ->
  wpp (finish_requests kvc py_id set_order request_ids st) (fun _ s' => finished_requests (finish_ids request_ids s) st s s') s.
Proof.
  intros Hwf. unfold finish_requests. apply wpp_bind, wpp_assert. intros Hst. apply wpp_bind, wpp_gets. cbv zeta.
  fold (finish_ids request_ids s). set (ids := finish_ids request_ids s).
  apply wpp_bind. eapply wpp_mono; [apply collect_finishing_wpp|].
  intros [[valid running] waiting] s1 [F1 (Hv & Hr & Hw)]. simpl in *.
  pose proof (wf_nodup _ _ Hwf) as Hnd. pose proof Hnd as Hnd'. apply NoDup_app in Hnd' as (Hndr & _ & Hndq).
  pose proof F1 as [R1 W1 K1 Q1 P1 V1].
  assert (Hin_run : forall r, r ∈ s_running s -> r ∈ running <-> r ∈ valid).
  { intros r Hin. rewrite Hr. split; [by intros []|]. intros ?. split; [done|by apply (wf_running _ _ Hwf)]. }
  assert (Hin_wait : forall r, r ∈ queued s -> r ∈ waiting <-> r ∈ valid).
  { intros r Hin. rewrite Hw. split; [by intros []|]. intros ?. split; [done|]. intros Hs.
    assert (Ha : r ∈ all_requests s) by (apply elem_of_app; by right).
    apply (wf_running_iff _ _ Hwf Ha) in Hs. apply NoDup_app in Hnd as (_ & Hd & _). by apply (Hd r Hs). }
  apply wpp_bind, remove_running_wpp; [by rewrite R1|].
  set (s2 := set_running _ s1). apply wpp_bind.
  apply (wpp_mono _ (fun _ s' => removed valid s s')).
  { assert (Hrem : forall s', s_running s' = s_running s2 -> queued s' ≡ₚ filter (fun x => x ∉ waiting) (queued s) ->
      s_objs s' = s_objs s1 -> s_requests s' = s_requests s1 -> s_pause_state s' = s_pause_state s1 -> removed valid s s').
    { intros s' E1 E2 E3 E4 E5. unfold removed. rewrite E1. unfold s2. simpl. rewrite R1. split_and!.
      - intros r. rewrite list_elem_of_filter. split; [intros [Hn Hin]; split; [done|by rewrite <-Hin_run]|intros [Hin Hn]; split; [by rewrite Hin_run|done]].
      - intros r. rewrite E2, list_elem_of_filter. split; [intros [Hn Hin]; split; [done|by rewrite <-Hin_wait]|intros [Hin Hn]; split; [by rewrite Hin_wait|done]].
      - unfold all_requests. rewrite E1, E2. unfold s2. simpl. rewrite R1.
        eapply sublist_NoDup; [exact Hnd|]. unfold all_requests. apply sublist_app; apply sublist_filter.
      - unfold zlen. pose proof (length_filter (fun x => x ∉ running) (s_running s)). lia.
      - intros r. unfold seen. rewrite E3. apply V1.
      - congruence.
      - congruence. }
    apply wpp_when; intros Hb.
    - apply wpp_bind, wpp_modify, wpp_modify. apply Hrem; try done. unfold queued.
      etrans; [apply Permutation_app; apply items_remove_all|]. by rewrite <-W1, <-K1, filter_app.
    - apply Hrem; try done. apply negb_false_iff, bool_decide_eq_true in Hb. subst waiting. unfold queued. simpl. rewrite W1, K1.
      rewrite filter_all_in; [done|]. intros r _. apply not_elem_of_nil. }
  intros [] s3 (A1 & A2 & A3 & A4 & A5 & A6 & A7). apply wpp_bind.
  eapply wpp_mono; [apply finish_each_wpp|]. intros [] s4 [B1 B2 B3 B4 B5 B6 B7 B8].
  apply (wpp_framed status); [fr|]. intros out s5 [C1 C2 C3 C4 C5 C6].
  assert (Hq5 : queued s5 = queued s3) by (unfold queued; congruence).
  assert (Hr5 : s_running s5 = s_running s3) by congruence.
  assert (Ho : forall r, r ∉ valid -> seen status s5 r = seen status s r) by (intros r Hn; by rewrite C6, B6, A5).
  split.
  - intros r. by rewrite Hr5, A1, Hv.
  - intros r. by rewrite Hq5, A2, Hv.
  - intros r Hr1 Hl. rewrite C6. apply B5; [by apply Hv|]. rewrite A5. destruct Hl as (_ & x & -> & _). done.
  - intros r Hn. apply Ho. by rewrite Hv.
  - intros r Hn Hin. rewrite C4. apply B7; [by rewrite Hv|]. by rewrite A6.
  - intros r. rewrite C4. intros Hin%B8. by rewrite A6 in Hin.
  - congruence.
  - done.
  - split.
    + unfold all_requests. rewrite Hr5, Hq5. exact A3.
    + intros r Hin. unfold all_requests in Hin. rewrite Hr5, Hq5 in Hin.
      assert (Hin' : r ∈ all_requests s /\ r ∉ valid).
      { apply elem_of_app in Hin as [[? ?]%A1|[? ?]%A2]; (split; [|done]); apply elem_of_app; [by left|by right]. }
      destruct Hin' as [Ha Hn]. rewrite C4. apply B7; [done|]. rewrite A6. by apply (wf_registered _ _ Hwf).
    + intros r. rewrite Hr5. intros [Hin Hn]%A1. rewrite Ho by done. by apply (wf_running _ _ Hwf).
    + intros r. rewrite Hq5. intros [Hin Hn]%A2. rewrite Ho by done. by apply (wf_queued _ _ Hwf).
    + intros r Hl. assert (Hnv : r ∉ valid).
      { intros Hin. destruct Hl as [_ (x & Hx & Hfx)]. pose proof Hin as (_ & _ & y & Hy & _)%Hv.
        rewrite C6, B5 in Hx; [injection Hx as <-; congruence|done|]. rewrite A5. congruence. }
      assert (Ha : r ∈ all_requests s).
      { apply (wf_kept _ _ Hwf). destruct Hl as [Hreg (x & Hx & Hfx)]. split.
        - rewrite C4 in Hreg. apply B8 in Hreg. by rewrite A6 in Hreg.
        - exists x. by rewrite <-Ho. }
      unfold all_requests in *. rewrite Hr5, Hq5. apply elem_of_app in Ha as [Ha|Ha]; apply elem_of_app.
      * left. by apply A1.
      * right. by apply A2.
    + rewrite Hr5. pose proof (wf_max _ _ Hwf). lia.
Qed.
End Finish.

(** * Resetting the prefix cache: what [reset_prefix_cache] leaves of the queues
    when it preempts every running request. *)
Local Open Scope Z_scope.

Section Reset.
Context {C E : Type} (kvc : KVConnector C).
Context (cfg : SchedConfig) (py_id : Request -> Z) (set_order : forall A, list A -> list A).
Context (Hkvc : connector_safe kvc).
Abbreviation Sched := (Scheduler C E).
Implicit Types s : Sched.

(** A running request goes back to the waiting queue. *)
Lemma requeue_wf s s1 s2 p :
  sched_wf cfg s -> s_running s = s_running s1 ++ [p] -> frame status (set_running (fun _ => s_running s1) s) s1 ->
  requeued p s1 s2 -> sched_wf cfg s2 /\ all_requests s2 ≡ₚ all_requests s.
Proof.
  intros [Hnd Hreg Hrun Hq Hk Hm] Hr [_ Hw Hs Hrq _ Hv] [R1 R2 R3 R4 _ R5 R6]. simpl in Hw, Hs, Hrq.
  assert (Hq2 : queued s2 ≡ₚ p :: queued s) by (unfold queued; by rewrite R2, R3, Hw, Hs).
  assert (Hall : all_requests s2 ≡ₚ all_requests s).
  { unfold all_requests. rewrite R1, Hr, Hq2, <-app_assoc. simpl. done. }
  assert (Ho : forall r, r <> p -> seen status s2 r = seen status s r).
  { intros r Hne. etrans; [by apply seen_rview, R6|]. apply Hv. }
  split; [|done]. split.
  - by rewrite Hall.
  - intros r. rewrite Hall, R4, Hrq. apply Hreg.
  - intros r. rewrite R1. intros Hin. rewrite Ho; [apply Hrun; rewrite Hr; set_solver|]. intros ->.
    unfold all_requests in Hnd. rewrite Hr in Hnd. apply NoDup_app in Hnd as [Hnd _]. apply NoDup_app in Hnd as (_ & Hd & _).
    apply (Hd p Hin). by left.
  - intros r. rewrite Hq2. intros Hin. destruct (decide (r = p)) as [->|Hne]; [exists PREEMPTED; split; [done|by right; left]|].
    rewrite Ho by done. apply Hq. by apply elem_of_cons in Hin as [?|].
  - intros r Hl. rewrite Hall. destruct (live_other s s2 p r) as [->|Hl']; [by rewrite R4, Hrq|done|done| |auto].
    unfold all_requests. rewrite Hr. set_solver.
  - rewrite R1. unfold zlen in *. rewrite Hr, length_app in Hm. simpl in Hm. lia.
Qed.

Lemma preempt_all_wpp l now s :
  sched_wf cfg s -> s_running s = reverse l ->
  wpp (preempt_all cfg py_id set_order l now)
    (fun _ s' => sched_wf cfg s' /\ all_requests s' ≡ₚ all_requests s /\ s_running s' = []) s.
Proof.
  revert s. induction l as [|p l IH]; intros s Hwf Hr; simpl; [by apply wpp_ret|].
  rewrite reverse_cons in Hr. apply wpp_bind, wpp_modify. set (s1 := set_running _ s).
  assert (Hr1 : s_running s1 = reverse l) by (simpl; by rewrite Hr, removelast_last).
  apply wpp_bind. eapply wpp_mono; [apply preempt_request_wpp|]. intros [] s2 [_ Hq].
  destruct (requeue_wf s s1 s2 p Hwf) as [Hwf2 Ha2]; [by rewrite Hr1| |done|].
  { split; try done. }
  apply wpp_bind, (wpp_framed status); [fr|]. intros [] s3 F3. apply wpp_bind, (wpp_framed status); [fr|]. intros [] s4 F4.
  destruct (sched_wf_frame cfg _ _ Hwf2 (transitivity F3 F4)) as [Hwf4 Ha4].
  eapply wpp_mono; [apply IH; [done|]|].
  - by rewrite (fr_running _ _ _ F4), (fr_running _ _ _ F3), (rq_running _ _ _ Hq).
  - intros [] s5 (H1 & H2 & H3). split_and!; [done| |done]. by rewrite H2, Ha4, Ha2.
Qed.

Lemma reset_prefix_cache_wpp running connector now s :
  sched_wf cfg s ->
  wpp (reset_prefix_cache kvc cfg py_id set_order running connector now)
    (fun _ s' => sched_wf cfg s' /\ all_requests s' ≡ₚ all_requests s
                 /\ s_running s' = if (running : bool) then [] else s_running s) s.
Proof.
  intros Hwf. unfold reset_prefix_cache. apply wpp_bind.
  apply (wpp_mono _ (fun _ s' => sched_wf cfg s' /\ all_requests s' ≡ₚ all_requests s
                                 /\ s_running s' = if running then [] else s_running s)).
  { apply wpp_when; intros ->; [|done]. apply wpp_bind, wpp_gets, wpp_bind.
    eapply wpp_mono; [apply preempt_all_wpp; [done|by rewrite reverse_involutive]|].
    intros [] s1 (H1 & H2 & H3). apply wpp_modify. split_and!; [by destruct H1|done|done]. }
  intros [] s1 (H1 & H2 & H3). apply (wpp_framed status); [fr|]. intros b s2 F2.
  destruct (sched_wf_frame cfg _ _ H1 F2) as [Hwf2 Ha2]. split_and!; [done|by rewrite Ha2|].
  by rewrite (fr_running _ _ _ F2).
Qed.
End Reset.
