(* ===== verification/SchedEngine.v ===== *)
(** New requests and the model's output: what [add_request] and
    [update_from_output] leave of the queues. *)
From S2P Require Import Prelude PyDict Request BlockPool SingleType Coordinator KVManager SchedUtils.
From S2P Require Import EncoderCache RequestQueue RequestQueueSpec SchedState SchedStep SchedUpdate Partial SchedLemmas SchedInv SchedGrants SchedFinish.
Local Open Scope Z_scope.

Section Engine.
Context {C E : Type} (kvc : KVConnector C).
Context (cfg : SchedConfig) (use_int : bool) (sha256 : bytes -> bytes) (py_id : Request -> Z).
Context (block_hasher : option BlockHasher) (set_order : forall A, list A -> list A) (som : StructuredOutputManager).
Context (Hkvc : connector_safe kvc).
Abbreviation Sched := (Scheduler C E).
Implicit Types s : Sched.

(** ** A new request *)

Lemma items_add lt x (q : RequestQueue string) : items (q_add lt x q) ≡ₚ x :: items q.
Proof. apply (ql_add (RequestQueueLaws := request_queue_laws)). Qed.

(** A fresh request is queued and registered; the rest is as before. *)
Record added (request : Request) s s' : Prop := mkAdded {
  ad_running : s_running s' = s_running s;
  ad_queued : queued s' ≡ₚ request_id request :: queued s;
  ad_requests : s_requests s' = s_requests s ++ [request_id request];
  ad_pause : s_pause_state s' = s_pause_state s;
  ad_self : exists r, s_objs s' !! request_id request = Some r /\ status r = status request /\ resumable r = resumable request;
  ad_others r : r <> request_id request -> s_objs s' !! r = s_objs s !! r
}.

Lemma add_request_wpp request now s :
  request_id request ∉ s_requests s ->
  wpp (add_request kvc cfg py_id block_hasher set_order request now) (fun _ s' => added request s s') s.
Proof.
  intros Hnew. unfold add_request. apply wpp_bind, requests_get_wpp; [done|]. intros _.
  set (rid := request_id request) in *. set (req := if resumable request then _ else _).
  assert (Hreq : status req = status request /\ resumable req = resumable request) 
    by (unfold req; split; case_match; done).
  clearbody req. destruct Hreq as [Hs Hre]. apply wpp_bind, wpp_modify. set (s1 := set_objs _ s).
  assert (H1 : s_objs s1 !! rid = Some req) by (apply lookup_insert_eq).
  assert (H2 : forall r, r <> rid -> s_objs s1 !! r = s_objs s !! r) by (intros r Hr; by apply lookup_insert_ne).
  apply wpp_bind. apply (wpp_mono _ (fun _ s' => s_running s' = s_running s /\ queued s' ≡ₚ rid :: queued s
    /\ s_requests s' = s_requests s /\ s_pause_state s' = s_pause_state s /\ s_objs s' = s_objs s1)).
  { unfold enqueue_waiting_request. apply wpp_bind, wpp_robj. intros r _. destruct (is_blocked_waiting_status (status r));
      apply wpp_modify; split_and!; try done; unfold queued.
    - etrans; [apply Permutation_app; [done|apply items_add]|]. symmetry. apply Permutation_middle.
    - etrans; [apply Permutation_app; [apply items_add|done]|]. done. }
  intros [] s2 (A1 & A2 & A3 & A4 & A5). apply wpp_bind, wpp_modify. set (s3 := set_requests _ s2).
  assert (Hfin : forall s4, frame (fun r => (status r, resumable r)) s3 s4 -> (forall r, r <> rid -> s_objs s4 !! r = s_objs s3 !! r) ->
    added request s s4).
  { intros s4 [B1 B2 B3 B4 B5 B6] Ho. split.
    - by rewrite B1.
    - assert (queued s4 = queued s2) as -> by (unfold queued; by rewrite B2, B3). done.
    - rewrite B4. unfold s3. simpl. by rewrite A3.
    - by rewrite B5.
    - specialize (B6 rid). unfold seen in B6. unfold s3 in B6. simpl in B6. rewrite A5, H1 in B6. simpl in B6.
      fold rid. destruct (s_objs s4 !! rid) as [r4|]; [|done]. exists r4. simpl in B6. injection B6 as -> ->. done.
    - intros r Hr. rewrite Ho by done. unfold s3. simpl. rewrite A5. by apply H2. }
  apply wpp_when; intros _; [|by apply Hfin].
  apply (wpp_mono _ (fun _ s4 => frame (fun r => (status r, resumable r)) s3 s4 /\ forall r, r <> rid -> s_objs s4 !! r = s_objs s3 !! r)).
  2: { intros [] s4 [F4 Ho]. by apply Hfin. }
  apply wpp_and; [apply framed_record_event; by intros []|].
  unfold on_request. apply wpp_bind, wpp_robj. intros r3 Hr3. apply wpp_bind, wpp_modify. apply wpp_lift_res; [done|].
  intros _ _ x Hx. simpl. by rewrite lookup_insert_ne.
Qed.

Lemma added_wf request s s' :
  sched_wf cfg s -> request_id request ∉ s_requests s -> waiting_like (status request) -> added request s s' -> sched_wf cfg s'.
Proof.
  clear Hkvc py_id.
  intros Hwf Hnew Hw [Hr Hq Hrq _ (r & Hro & Hst & _) Ho].
  assert (Hna : request_id request ∉ all_requests s) by (intros Ha; by apply Hnew, (wf_registered _ _ Hwf)).
  assert (Hall : all_requests s' ≡ₚ request_id request :: all_requests s).
  { unfold all_requests. rewrite Hr, Hq. symmetry. apply Permutation_middle. }
  assert (Hsame : forall x, x ∈ all_requests s -> seen status s' x = seen status s x).
  { intros x Hx. unfold seen. rewrite Ho; [done|]. by intros ->. }
  destruct Hwf as [W1 W2 W3 W4 WK W5]. split.
  - rewrite Hall. by apply NoDup_cons.
  - intros x. rewrite Hall, Hrq. intros [->|Hx]%elem_of_cons; apply elem_of_app; [right; by left|left; auto].
  - intros x. rewrite Hr. intros Hx. rewrite Hsame; [auto|]. apply elem_of_app. by left.
  - intros x. rewrite Hq. intros [->|Hx]%elem_of_cons.
    + exists (status r). unfold seen. rewrite Hro. split; [done|]. by rewrite Hst.
    + rewrite Hsame; [auto|]. apply elem_of_app. by right.
  - intros x [Hx (y & Hy & Hf)]. rewrite Hall. destruct (decide (x = request_id request)) as [->|Hne]; [by left|right].
    apply WK. split; [rewrite Hrq in Hx; set_solver|]. exists y. unfold seen in *. by rewrite <-Ho.
  - by rewrite Hr.
Qed.

(** ** One request of the model's output *)

Definition kind (r : Request) : RequestStatus * bool := (status r, resumable r).

Context (Hbh : forall h, block_hasher = Some h -> view_safe kind h /\ no_fuel h).

Lemma seen_kind s s' r : seen kind s' r = seen kind s r ->
  seen status s' r = seen status s r /\ seen resumable s' r = seen resumable s r.
Proof. unfold seen. destruct (s_objs s' !! r), (s_objs s !! r); simpl; [|done..]. unfold kind. by intros [= -> ->]. Qed.

Lemma frame_kind s s' : frame kind s s' -> frame status s s'.
Proof. apply (frame_weaken kind fst). Qed.

(** The state of request [rid] changed, to a finished one if [b]. *)
Record touched (rid : string) (b : bool) s s' : Prop := mkTouched {
  to_frame : frame (fun _ => tt) s s';
  to_others r : r <> rid -> seen kind s' r = seen kind s r;
  to_resumable : seen resumable s' rid = seen resumable s rid;
  to_kept : b = false -> seen status s' rid = seen status s rid;
  to_finished x : b = true -> seen status s' rid = Some x -> status_is_finished x = true
}.

Lemma touched_frame rid s s' : frame kind s s' -> touched rid false s s'.
Proof.
  intros F. destruct (seen_kind _ _ _ (fr_seen _ _ _ F rid)) as [H1 H2].
  split; try done; [exact (frame_weaken kind (fun _ => tt) _ _ F)|intros r _; apply F].
Qed.

Lemma touched_trans rid b s1 s2 s3 : touched rid false s1 s2 -> touched rid b s2 s3 -> touched rid b s1 s3.
Proof.
  intros [F1 O1 R1 K1 _] [F2 O2 R2 K2 D2]. split.
  - exact (transitivity F1 F2).
  - intros r Hr. by rewrite O2, O1.
  - congruence.
  - intros Hb. rewrite K2 by done. by apply K1.
  - done.
Qed.

Lemma touched_frame_r rid b s1 s2 s3 : touched rid b s1 s2 -> frame kind s2 s3 -> touched rid b s1 s3.
Proof.
  intros [F1 O1 R1 K1 D1] F. destruct (seen_kind _ _ _ (fr_seen _ _ _ F rid)) as [H1 H2]. split.
  - exact (transitivity F1 (frame_weaken kind (fun _ => tt) _ _ F)).
  - intros r Hr. rewrite (fr_seen _ _ _ F). auto.
  - congruence.
  - intros Hb. rewrite H1. auto.
  - intros x Hb. rewrite H1. auto.
Qed.

Lemma touched_put rid r r' b s :
  s_objs s !! rid = Some r -> resumable r' = resumable r -> (b = false -> status r' = status r) ->
  (b = true -> is_finished r' = true) -> touched rid b s (set_objs (fun o => <[rid := r']> o) s).
Proof.
  intros Hr Hre Hk Hf. split.
  - split; try done. intros x. unfold seen. simpl. destruct (decide (x = rid)) as [->|Hx];
      [by rewrite lookup_insert_eq, Hr|by rewrite lookup_insert_ne].
  - intros x Hx. unfold seen. simpl. by rewrite lookup_insert_ne.
  - unfold seen. simpl. rewrite lookup_insert_eq, Hr. simpl. by rewrite Hre.
  - intros Hb. unfold seen. simpl. rewrite lookup_insert_eq, Hr. simpl. by rewrite Hk.
  - intros x Hb. unfold seen. simpl. rewrite lookup_insert_eq. intros [= <-]. by apply Hf.
Qed.

Lemma wpp_on_request {A} rid (m : M Request A) (Q : A -> Sched -> Prop) s :
  (forall r, s_objs s !! rid = Some r -> wpp m (fun a r' => Q a (set_objs (fun o => <[rid := r']> o) s)) r) ->
  wpp (on_request rid m) Q s.
Proof.
  intros H. unfold on_request. apply wpp_bind, wpp_robj. intros r Hr. specialize (H r Hr). unfold wpp in *.
  destruct (m r) as [[a|e] r']; unfold mbind, M_bind, modify, lift_res; done.
Qed.

(** A method of a request that keeps the view [v] of it. *)
Lemma framed_on_request {T A} (v : Request -> T) rid (m : M Request A) :
  view_safe v m -> no_fuel m -> framed (C:=C) (E:=E) v (on_request rid m).
Proof.
  intros Hv Hn s. apply wpp_on_request. intros r Hr. specialize (Hv r). specialize (Hn r). unfold wpp.
  destruct (m r) as [[a|e] r']; simpl in *; [|by intros ->]. split; try done.
  intros x. unfold seen. simpl. destruct (decide (x = rid)) as [->|Hx]; [|by rewrite lookup_insert_ne].
  rewrite lookup_insert_eq, Hr. simpl. by rewrite Hv.
Qed.

Lemma on_request_kind {A} rid (m : M Request A) s :
  view_safe kind m -> no_fuel m -> wpp (on_request rid m) (fun _ s' => frame kind s s') s.
Proof. intros Hv Hn. apply (wpp_framed kind); [by apply framed_on_request|done]. Qed.

Lemma framed_take_events {T} (v : Request -> T) rid :
  (forall r, v (set_events (fun _ => []) r) = v r) -> framed (C:=C) (E:=E) v (on_request rid take_events).
Proof.
  intros Hv. apply framed_on_request; [|nf]. intros r. unfold take_events, mbind, M_bind, gets. destruct (events r); [done|]. apply Hv.
Qed.

Lemma view_safe_append_kind toks : view_safe kind (append_output_token_ids block_hasher toks).
Proof.
  intros r. unfold append_output_token_ids, update_block_hashes, mbind, M_bind, modify. simpl.
  destruct block_hasher as [h|] eqn:Eh; [|done].
  match goal with |- context [h ?r0] => pose proof (proj1 (Hbh h eq_refl) r0) as Hr; destruct (h r0) as [[hs|e] r1] end; done.
Qed.

Lemma nf_append toks : no_fuel (append_output_token_ids block_hasher toks).
Proof.
  unfold append_output_token_ids, update_block_hashes. destruct block_hasher as [h|] eqn:Eh; nf. by apply (Hbh h).
Qed.

Lemma nf_check_repetition out p : no_fuel_res (check_sequence_repetition out p).
Proof.
  assert (H1 : forall toks len n t ms, no_fuel_res (same_in_copies toks len n t ms)).
  { intros toks len n t ms. induction ms as [|m ms IH]; simpl; nf. }
  assert (H2 : forall toks len n ns, no_fuel_res (repeats_at toks len n ns)).
  { intros toks len n ns. induction ns as [|m ns IH]; simpl; nf; auto. }
  assert (H3 : forall toks n ls, no_fuel_res (try_pattern_lens toks n ls)).
  { intros toks n ls. induction ls as [|l ls IH]; simpl; nf; auto. }
  unfold check_sequence_repetition. cbv zeta. case_match; [done|apply H3].
Qed.

Lemma check_stop_wpp len r :
  wpp (check_stop len) (fun b r' => resumable r' = resumable r /\ (b = false -> status r' = status r)
                                    /\ (b = true -> is_finished r' = true)) r.
Proof.
  unfold check_stop. apply wpp_bind, wpp_gets, wpp_bind, wpp_assert. intros _. apply wpp_bind, wpp_gets, wpp_bind.
  apply wpp_lift_opt; [done|]. intros sp _. apply wpp_bind, wpp_gets. apply wpp_if; intros _; [by apply wpp_ret|].
  apply wpp_bind, wpp_gets, wpp_bind, wpp_lift_res; [nf|]. intros t _.
  apply wpp_if; intros _; [by apply wpp_bind, wpp_modify, wpp_ret|].
  apply wpp_if; intros _; [by apply wpp_bind, wpp_modify, wpp_bind, wpp_modify, wpp_ret|].
  apply wpp_bind, wpp_gets, wpp_bind, wpp_gets. apply wpp_if; intros _; [by apply wpp_bind, wpp_modify, wpp_ret|].
  apply wpp_bind, wpp_lift_res; [|intros b _; apply wpp_if; intros _; [by apply wpp_bind, wpp_modify, wpp_bind, wpp_modify, wpp_ret|by apply wpp_ret]].
  destruct (sp_repetition_detection sp); [apply nf_check_repetition|done].
Qed.

Lemma append_until_stopped_wpp rid taken toks s :
  wpp (append_until_stopped cfg block_hasher rid taken toks) (fun x s' => touched rid x.2 s s') s.
Proof.
  revert taken s. induction toks as [|t toks IH]; intros taken s; simpl; [apply wpp_ret, touched_frame; done|].
  apply wpp_bind. eapply wpp_mono; [apply on_request_kind; [apply view_safe_append_kind|apply nf_append]|].
  intros [] s1 F1. apply wpp_bind, wpp_on_request. intros r Hr.
  eapply wpp_mono; [apply check_stop_wpp|]. intros b r' (H1 & H2 & H3).
  pose proof (touched_put rid r r' b s1 Hr H1 H2 H3) as Ht.
  apply wpp_if; intros Hb; subst b.
  - apply wpp_ret. eapply touched_trans; [by apply touched_frame|exact Ht].
  - eapply wpp_mono; [apply IH|]. intros x s2 Hx. eapply touched_trans; [|exact Hx].
    eapply touched_trans; [by apply touched_frame|exact Ht].
Qed.

Lemma update_request_with_output_wpp rid toks s :
  wpp (update_request_with_output cfg use_int sha256 block_hasher rid toks) (fun x s' => touched rid x.2 s s') s.
Proof.
  unfold update_request_with_output. destruct (cf_async_class cfg); [|apply append_until_stopped_wpp].
  unfold async_update_request_with_output. apply wpp_bind, wpp_robj. intros r Hr. apply wpp_if; intros _.
  { apply wpp_bind, (wpp_framed kind); [fr|]. intros [] s1 F1. by apply wpp_ret, touched_frame. }
  apply wpp_bind. eapply wpp_mono; [apply append_until_stopped_wpp|]. intros [l b] s1 Ht. simpl in *.
  apply wpp_bind, (wpp_framed kind); [fr|]. intros [] s2 F2. apply wpp_bind, wpp_robj. intros r' _.
  apply wpp_bind, wpp_assert. intros _. apply wpp_bind, (wpp_framed kind); [fr|]. intros [] s3 F3.
  apply wpp_ret. simpl. eapply touched_frame_r; [exact Ht|]. exact (transitivity F2 F3).
Qed.

(** ** The loop over the model's output *)

(** Since the start [s0] of the loop the queues are the same; the stopped requests
    ran and are finished, the others are as they were. *)
Record upd_inv s0 (acc : OutAcc) s : Prop := mkUpdInv {
  ui_running : s_running s = s_running s0;
  ui_waiting : s_waiting s = s_waiting s0;
  ui_skipped : s_skipped_waiting s = s_skipped_waiting s0;
  ui_pause : s_pause_state s = s_pause_state s0;
  ui_preempted : oa_stopped_preempted acc = ∅;
  ui_resumable r : seen resumable s r = seen resumable s0 r;
  ui_stopped r : r ∈ oa_stopped_running acc -> r ∈ s_running s0 /\ ~ live s r;
  ui_others r : r ∉ oa_stopped_running acc ->
    seen status s r = seen status s0 r /\ (r ∈ s_requests s0 -> r ∈ s_requests s);
  ui_sub r : r ∈ s_requests s -> r ∈ s_requests s0
}.

Lemma upd_inv_frame s0 acc acc' s s' :
  upd_inv s0 acc s -> frame kind s s' -> oa_stopped_running acc' = oa_stopped_running acc ->
  oa_stopped_preempted acc' = oa_stopped_preempted acc -> upd_inv s0 acc' s'.
Proof.
  intros [] F Hr Hp. pose proof (fun r => seen_kind _ _ r (fr_seen _ _ _ F r)) as Hk. destruct F as [F1 F2 F3 F4 F5 _].
  split; rewrite ?Hr, ?Hp, ?F1, ?F2, ?F3, ?F4, ?F5; try done.
  - intros r. by rewrite (proj2 (Hk r)).
  - intros r Hin. destruct (ui_stopped0 r Hin) as [? Hl]. split; [done|]. intros [Hq (x & Hx & Hf)]. apply Hl.
    rewrite F4 in Hq. split; [done|]. exists x. by rewrite <-(proj1 (Hk r)).
  - intros r Hin. rewrite (proj1 (Hk r)). auto.
Qed.

(** Stopping [rid], which runs. *)
Lemma upd_inv_stop s0 acc acc' s s1 s2 rid :
  upd_inv s0 acc s -> rid ∈ s_running s0 -> touched rid true s s1 -> unlisted (fun r => r = rid) s1 s2 ->
  ~ live s1 rid -> (forall r, seen resumable s2 r = seen resumable s1 r) ->
  oa_stopped_running acc' = {[rid]} ∪ oa_stopped_running acc -> oa_stopped_preempted acc' = oa_stopped_preempted acc ->
  upd_inv s0 acc' s2.
Proof.
  intros [] Hin [F O Re _ _] U Hnl Hre2 Hr Hp. destruct F as [F1 F2 F3 F4 F5 _].
  pose proof (live_unlisted (fun r => r = rid) s1 s2) as Hlu.
  assert (Hoth : forall r, r <> rid -> seen status s2 r = seen status s r).
  { intros r Hne. rewrite (ul_status _ _ _ U). exact (proj1 (seen_kind _ _ _ (O r Hne))). }
  split; rewrite ?Hr, ?Hp; try done.
  - rewrite (ul_running _ _ _ U). congruence.
  - rewrite (ul_waiting _ _ _ U). congruence.
  - rewrite (ul_skipped _ _ _ U). congruence.
  - rewrite (ul_pause _ _ _ U). congruence.
  - intros r. rewrite Hre2. destruct (decide (r = rid)) as [->|Hne]; [by rewrite Re|].
    rewrite (proj2 (seen_kind _ _ _ (O r Hne))). apply ui_resumable0.
  - intros r [->%elem_of_singleton|Hin']%elem_of_union.
    + split; [done|]. intros Hl. apply Hnl. by eapply Hlu.
    + destruct (ui_stopped0 r Hin') as [? Hl]. split; [done|]. intros Hl2%(Hlu r U). apply Hl.
      destruct Hl2 as [Hq (x & Hx & Hf)]. rewrite F4 in Hq. split; [done|].
      destruct (decide (r = rid)) as [->|Hne].
      * exfalso. apply Hnl. split; [by rewrite F4|]. by exists x.
      * exists x. split; [|done]. by rewrite <-(proj1 (seen_kind _ _ _ (O r Hne))).
  - intros r [Hne Hni]%not_elem_of_union. rewrite not_elem_of_singleton in Hne. destruct (ui_others0 r Hni) as [H1 H2].
    split; [by rewrite Hoth|]. intros Hq%H2. apply (ul_keep _ _ _ U); [done|]. by rewrite F4.
  - intros r Hq%(ul_sub _ _ _ U). rewrite F4 in Hq. auto.
Qed.

Lemma view_safe_should_advance : view_safe kind (should_advance som).
Proof.
  intros r. unfold should_advance, mbind, M_bind, gets, when, modify, mret, M_ret. repeat case_match; simplify_eq; done.
Qed.

Lemma nf_should_advance : no_fuel (should_advance som).
Proof. nf. Qed.

Lemma free_request_resumable rid delay s :
  wpp (free_request kvc set_order rid delay) (fun _ s' => forall r, seen resumable s' r = seen resumable s r) s.
Proof.
  assert (Hk : keeps (same_view (C:=C) (E:=E) resumable) (free_request kvc set_order rid delay)) by kp.
  unfold wpp. pose proof (free_request_wpp kvc set_order Hkvc rid delay s) as Hw. unfold wpp in Hw.
  destruct (free_request kvc set_order rid delay s) as [[a|e] s'] eqn:Ef; [|done]. exact (Hk _ _ _ Ef).
Qed.

(** A request that is not resumable is freed when it stops. *)
Lemma finish_stopped_wpp rid st now acc s r :
  s_objs s !! rid = Some r -> resumable r = false ->
  wpp (finish_stopped kvc cfg py_id block_hasher set_order rid st now acc) (fun x s' =>
    unlisted (fun y => y = rid) s s' /\ ~ live s rid /\ (forall y, seen resumable s' y = seen resumable s y)
    /\ (st = RUNNING -> oa_stopped_running x.2 = {[rid]} ∪ oa_stopped_running acc
                        /\ oa_stopped_preempted x.2 = oa_stopped_preempted acc)) s.
Proof.
  intros Hr Hre. unfold finish_stopped. apply wpp_bind, wpp_robj. intros r0 Hr0. rewrite Hr in Hr0. injection Hr0 as <-.
  apply wpp_bind. unfold handle_stopped_request. apply wpp_bind, wpp_robj. intros r0 Hr0. rewrite Hr in Hr0.
  injection Hr0 as <-. rewrite Hre. apply wpp_ret. apply wpp_bind.
  eapply wpp_mono; [apply wpp_and; [by apply free_request_wpp|by apply free_request_resumable]|].
  intros p s1 [[U Hl] Hs]. apply wpp_ret. simpl. split_and!; try done. intros ->. by rewrite decide_True.
Qed.

(** A request the output may name: when it is alive, it runs and is not resumable. *)
Definition answerable s (rid : string) : Prop :=
  live s rid -> rid ∈ s_running s /\ seen resumable s rid = Some false.

Lemma upd_inv_live s0 acc s rid :
  upd_inv s0 acc s -> live s rid -> live s0 rid /\ seen status s rid = seen status s0 rid.
Proof.
  intros [] Hl. assert (Hn : rid ∉ oa_stopped_running acc) by (intros Hin; by apply (ui_stopped0 rid)).
  destruct (ui_others0 rid Hn) as [Hs _]. split; [|done]. destruct Hl as [Hq (x & Hx & Hf)]. split; [auto|].
  exists x. by rewrite <-Hs.
Qed.

Lemma framed_count_rejected o rid toks acc : framed (C:=C) (E:=E) kind (count_rejected cfg o rid toks acc).
Proof. fr. Qed.

Lemma count_rejected_wpp s0 o rid toks acc s :
  upd_inv s0 acc s ->
  wpp (count_rejected (C:=C) (E:=E) cfg o rid toks acc) (fun acc' s' => upd_inv s0 acc' s' /\ frame kind s s') s.
Proof.
  intros I. apply (wpp_mono _ (fun acc' s' => frame kind s s' /\ oa_stopped_running acc' = oa_stopped_running acc
    /\ oa_stopped_preempted acc' = oa_stopped_preempted acc)).
  2: { intros acc' s' (F & H1 & H2). split; [by eapply upd_inv_frame|done]. }
  apply wpp_and; [apply (wpp_framed kind); [apply framed_count_rejected|done]|].
  unfold count_rejected. destruct (default [] _), toks; try by apply wpp_ret.
  do 2 apply wpp_bind, wpp_modify. apply wpp_bind, wpp_lift_res; [|intros st _; by apply wpp_ret].
  unfold make_spec_decoding_stats, observe_draft. nf.
Qed.

(** What the model answered for [rid]. *)
Lemma answer_wpp rid r toks pooler s :
  is_Some (s_objs s !! rid) ->
  wpp (match toks with
       | [] => if negb (is_none (pooling_params r)) && pooler
               then upd rid (set_status (fun _ => FINISHED_STOPPED)) ;; mret ([], true)
               else mret ([], false)
       | _ => update_request_with_output cfg use_int sha256 block_hasher rid toks
       end) (fun x s' => touched rid x.2 s s') s.
Proof.
  intros [r1 Hr]. destruct toks as [|t toks]; [|apply update_request_with_output_wpp].
  apply wpp_if; intros _; [|by apply wpp_ret, touched_frame]. apply wpp_bind, wpp_modify, wpp_ret.
  replace (set_objs _ s) with (set_objs (fun o => <[rid := set_status (fun _ => FINISHED_STOPPED) r1]> o) s);
    [by eapply touched_put|]. unfold set_objs. f_equal. apply map_eq. intros x. destruct (decide (x = rid)) as [->|Hx].
  - by rewrite lookup_insert_eq, lookup_alter_eq, Hr.
  - by rewrite lookup_insert_ne, lookup_alter_ne.
Qed.

(** Stopping changes the accumulators as [upd_inv_stop] says. *)
Lemma stop_step_wpp s0 acc s s1 rid b now :
  upd_inv s0 acc s -> rid ∈ s_running s0 -> seen resumable s rid = Some false -> touched rid b s s1 ->
  wpp (if (b : bool) then finish_stopped kvc cfg py_id block_hasher set_order rid RUNNING now acc else mret (None, None, acc))
    (fun x s' => upd_inv s0 x.2 s') s1.
Proof.
  intros I Hrun Hres Ht. apply wpp_if; intros ->.
  - destruct (s_objs s1 !! rid) as [r1|] eqn:Hr1.
    2: { pose proof (to_resumable _ _ _ _ Ht) as Hx. unfold seen in Hx, Hres. rewrite Hr1, Hres in Hx. done. }
    eapply wpp_mono; [apply (finish_stopped_wpp rid RUNNING now acc s1 r1 Hr1)|].
    + pose proof (to_resumable _ _ _ _ Ht) as Hx. rewrite Hres in Hx. unfold seen in Hx. rewrite Hr1 in Hx. by injection Hx.
    + intros [p acc'] s2 (U & Hl & Hk & Ha). destruct (Ha eq_refl) as [Ha1 Ha2]. by eapply upd_inv_stop.
  - apply wpp_ret. simpl. eapply upd_inv_frame; [exact I| |done..]. destruct Ht as [F O Re Ke _].
    split; try apply F. intros x. destruct (decide (x = rid)) as [->|Hx]; [|by apply O].
    unfold seen in *. specialize (Ke eq_refl). destruct (s_objs s1 !! rid), (s_objs s !! rid); simpl in *; try done.
    unfold kind. congruence.
Qed.


Lemma process_request_wpp s0 o m failed now acc it s :
  sched_wf cfg s0 -> upd_inv s0 acc s -> answerable s0 it.1 ->
  wpp (process_request kvc cfg use_int sha256 py_id block_hasher set_order som o m failed now acc it)
    (fun acc' s' => upd_inv s0 acc' s') s.
Proof.
  intros Hwf I Hans. destruct it as [rid n]. simpl in Hans. unfold process_request. apply wpp_bind, wpp_assert. intros _.
  apply wpp_bind, requests_get_wpp; [|intros _; apply wpp_if; intros _; by apply wpp_ret]. intros r Hr Hreg.
  apply wpp_if; intros _; [by apply wpp_ret|]. apply wpp_if; intros Hf; [by apply wpp_ret|].
  assert (Hl : live s rid) by (by apply (live_lookup _ _ _ Hr)).
  destruct (upd_inv_live _ _ _ _ I Hl) as [Hl0 Hst]. destruct (Hans Hl0) as [Hrun Hres].
  assert (Hrs : status r = RUNNING).
  { rewrite (wf_running _ _ Hwf rid Hrun) in Hst. unfold seen in Hst. rewrite Hr in Hst. by injection Hst. }
  apply wpp_bind, wpp_lift_opt; [done|]. intros i _. apply wpp_bind, wpp_lift_res; [case_match; nf|]. intros toks _.
  apply wpp_bind. eapply wpp_mono; [by apply count_rejected_wpp|]. intros acc1 s1 [I1 F1].
  apply wpp_bind, wpp_lift_res; [repeat case_match; nf|]. intros pooler _. cbv zeta. rewrite Hrs.
  assert (Hres1 : seen resumable s1 rid = Some false) by (rewrite <-Hres; apply I1).
  assert (Hp1 : is_Some (s_objs s1 !! rid)) by (unfold seen in Hres1; by destruct (s_objs s1 !! rid)).
  apply wpp_bind. eapply wpp_mono; [by apply (answer_wpp rid r)|]. intros [new b] s2 Ht. simpl in Ht.
  apply wpp_bind. eapply wpp_mono; [by eapply stop_step_wpp|]. intros [[fr par] acc2] s3 I3. simpl in I3.
  apply wpp_bind. apply (wpp_mono _ (fun _ s' => frame kind s3 s')).
  { destruct new; [by apply wpp_ret|]. apply on_request_kind; [apply view_safe_should_advance|apply nf_should_advance]. }
  intros adv s4 F4. apply wpp_bind, wpp_robj. intros r4 _. apply wpp_bind, (wpp_framed kind); [fr|]. intros [] s5 F5.
  apply wpp_bind, (wpp_framed kind); [fr|]. intros [] s6 F6.
  assert (F : frame kind s3 s6) by exact (transitivity F4 (transitivity F5 F6)).
  apply wpp_if; intros _.
  - apply wpp_bind, (wpp_framed kind); [by apply framed_take_events|]. intros ev s7 F7. apply wpp_bind, wpp_robj. intros r7 _. apply wpp_ret.
    eapply upd_inv_frame; [exact I3|exact (transitivity F F7)|done..].
  - apply wpp_bind, wpp_assert. intros _. apply wpp_ret. by eapply upd_inv_frame.
Qed.

(** ** The whole of [update_from_output] *)

(** The queues keep exactly the requests that are still alive. *)
Record pruned s s' : Prop := mkPruned {
  pr_running r : r ∈ s_running s' <-> r ∈ s_running s /\ live s' r;
  pr_queued r : r ∈ queued s' <-> r ∈ queued s /\ live s' r;
  pr_live r : live s' r -> live s r;
  pr_sub r : r ∈ s_requests s' -> r ∈ s_requests s;
  pr_pause : s_pause_state s' = s_pause_state s;
  pr_wf : sched_wf cfg s'
}.

Lemma pruned_trans s1 s2 s3 : pruned s1 s2 -> pruned s2 s3 -> pruned s1 s3.
Proof.
  intros [R1 Q1 L1 S1 P1 W1] [R2 Q2 L2 S2 P2 W2]. split; try congruence; auto; intros r.
  - rewrite R2, R1. split; [tauto|]. intros [? Hl]. auto.
  - rewrite Q2, Q1. split; [tauto|]. intros [? Hl]. auto.
Qed.

(** The queues are the same and no live request is unregistered. *)
Lemma unlisted_pruned s s' : sched_wf cfg s -> unlisted (fun r => ~ live s r) s s' -> pruned s s'.
Proof.
  intros Hwf U. pose proof (fun r => live_unlisted _ _ _ r U) as HL. destruct U as [Hr Hw Hk Hp Hs K S].
  assert (Hq : queued s' = queued s) by (unfold queued; congruence).
  assert (Hall : all_requests s' = all_requests s) by (unfold all_requests; congruence).
  assert (Hl : forall r, r ∈ all_requests s -> live s' r).
  { intros r Hin. pose proof (wf_live cfg _ _ Hwf Hin) as [Hreg (x & Hx & Hf)]. split.
    - apply K; [|done]. intros Hn. apply Hn. by split; [|exists x].
    - exists x. by rewrite Hs. }
  split; try done.
  - intros r. rewrite Hr. split; [intros Hin; split; [done|]|by intros []]. apply Hl, elem_of_app. by left.
  - intros r. rewrite Hq. split; [intros Hin; split; [done|]|by intros []]. apply Hl, elem_of_app. by right.
  - destruct Hwf as [W1 W2 W3 W4 WK W5]. split; rewrite ?Hall, ?Hr, ?Hq; try done.
    + intros r Hin. by apply Hl.
    + intros r. rewrite Hs. apply W3.
    + intros r. rewrite Hs. apply W4.
    + intros r Hlr. apply WK. by apply HL.
Qed.

Lemma frame_pruned s s' : sched_wf cfg s -> frame status s s' -> pruned s s'.
Proof. intros Hwf F. apply unlisted_pruned; [done|]. by apply frame_unlisted. Qed.

Lemma finished_requests_pruned ids st s s' :
  sched_wf cfg s -> finished_requests cfg ids st s s' -> pruned s s'.
Proof.
  intros Hwf [R Q D O K S P Hst W].
  assert (Hn : forall r, live s' r -> ~ (r ∈ ids /\ live s r)).
  { intros r [_ (x & Hx & Hf)] [Hin Hl]. rewrite (D r Hin Hl) in Hx. injection Hx as <-. congruence. }
  assert (Hl : forall r, ~ (r ∈ ids /\ live s r) -> live s r -> live s' r).
  { intros r Hr [Hreg (x & Hx & Hf)]. split; [by apply K|]. exists x. by rewrite O. }
  split; try done.
  - intros r. rewrite R. split; intros [Hin Hr]; (split; [done|]); [|by apply Hn]. apply Hl; [done|].
    apply (wf_live cfg); [done|]. apply elem_of_app. by left.
  - intros r. rewrite Q. split; intros [Hin Hr]; (split; [done|]); [|by apply Hn]. apply Hl; [done|].
    apply (wf_live cfg); [done|]. apply elem_of_app. by right.
  - intros r Hr. pose proof (Hn r Hr) as Hnn. destruct Hr as [Hreg (x & Hx & Hf)]. split; [auto|]. exists x. by rewrite <-O.
Qed.

(** The stopped requests leave the running queue. *)
Lemma upd_inv_pruned s0 acc s :
  sched_wf cfg s0 -> upd_inv s0 acc s ->
  pruned s0 (set_running (fun l => filter (fun x => x ∉ oa_stopped_running acc) l) s).
Proof.
  intros Hwf I. pose proof I as [Hr Hw Hk Hp _ _ Hst Ho Hsub]. set (s' := set_running _ s).
  assert (Hlive : forall r, live s' r <-> live s r) by (by intros r).
  assert (Hq : queued s' = queued s0) by (unfold queued; simpl; congruence).
  assert (Hkeep : forall r, r ∈ all_requests s0 -> r ∉ oa_stopped_running acc -> live s r).
  { intros r Hin Hn. destruct (wf_live cfg _ _ Hwf Hin) as [Hreg (x & Hx & Hf)]. destruct (Ho r Hn) as [Hs Hi].
    split; [auto|]. exists x. by rewrite Hs. }
  assert (Hnq : forall r, r ∈ queued s0 -> r ∉ oa_stopped_running acc).
  { intros r Hin Hb%Hst. destruct Hb as [Hb _]. pose proof (wf_nodup _ _ Hwf) as Hnd.
    apply NoDup_app in Hnd as (_ & Hd & _). by apply (Hd r Hb). }
  assert (Hrun : forall r, r ∈ s_running s' <-> r ∈ s_running s0 /\ r ∉ oa_stopped_running acc).
  { intros r. simpl. rewrite list_elem_of_filter, Hr. tauto. }
  split.
  - intros r. rewrite Hrun, Hlive. split; intros [Hin Hn]; (split; [done|]).
    + apply Hkeep; [|done]. apply elem_of_app. by left.
    + intros Hb%Hst. by destruct Hb.
  - intros r. rewrite Hq, Hlive. split; [|by intros []]. intros Hin. split; [done|]. apply Hkeep; [|auto].
    apply elem_of_app. by right.
  - intros r. rewrite Hlive. intros Hl. by destruct (upd_inv_live _ _ _ _ I Hl).
  - exact Hsub.
  - exact Hp.
  - split.
    + eapply sublist_NoDup; [apply Hwf|]. unfold all_requests. rewrite Hq. simpl. rewrite Hr.
      apply sublist_app; [apply sublist_filter|done].
    + intros r [[Hin Hn]%Hrun|Hin]%elem_of_app.
      * apply (Hkeep r); [|done]. apply elem_of_app. by left.
      * rewrite Hq in Hin. apply (Hkeep r); [|auto]. apply elem_of_app. by right.
    + intros r [Hin Hn]%Hrun. destruct (Ho r Hn) as [Hs _]. change (seen status s r = Some RUNNING). rewrite Hs. by apply Hwf.
    + intros r Hin. rewrite Hq in Hin. destruct (Ho r (Hnq r Hin)) as [Hs _].
      change (exists x, seen status s r = Some x /\ waiting_like x). rewrite Hs. by apply Hwf.
    + intros r Hl. change (live s r) in Hl. destruct (upd_inv_live _ _ _ _ I Hl) as [Hl0 _].
      apply (wf_kept _ _ Hwf) in Hl0. unfold all_requests in *. rewrite Hq. rewrite elem_of_app, Hrun.
      apply elem_of_app in Hl0 as [Hin|Hin]; [left|by right]. split; [done|]. intros Hb%Hst. by destruct Hb.
    + simpl. rewrite Hr. pose proof (wf_max _ _ Hwf). unfold zlen in *.
      pose proof (length_filter (fun x => x ∉ oa_stopped_running acc) (s_running s0)). lia.
Qed.

Lemma free_finished_wpp s rid s0 :
  sched_wf cfg s0 -> pruned s0 s -> wpp (free_blocks_of rid) (fun _ s' => pruned s0 s') s.
Proof.
  intros Hwf P. apply (wpp_mono _ (fun _ s' => unlisted (fun r => r = rid) s s' /\ ~ live s rid)); [by apply (free_blocks_of_wpp kvc)|].
  intros [] s' [[A1 A2 A3 A4 A5 A6 A7] Hn]. eapply pruned_trans; [exact P|]. apply unlisted_pruned; [apply P|]. split; try done.
  intros r Hr Hin. apply A6; [|done]. by intros ->.
Qed.

Lemma kv_xfer_wpp co s :
  sched_wf cfg s -> wpp (update_from_kv_xfer_finished kvc co) (fun _ s' => pruned s s') s.
Proof.
  intros Hwf. unfold update_from_kv_xfer_finished. apply wpp_bind, (wpp_framed status); [fr|]. intros x s1 F1.
  apply (frame_pruned _ _ Hwf) in F1. apply wpp_bind.
  apply (wpp_mono _ (fun _ s' => pruned s s')).
  - apply (wpp_forM_ (fun s' => pruned s s')); [done| |done]. intros rid s2 _ P2. apply wpp_bind, requests_get_wpp; intros; simpl.
    + apply wpp_bind, wpp_ret. case_decide; [|apply wpp_bind, wpp_assert; intros _; by apply free_finished_wpp].
      apply wpp_modify. eapply pruned_trans; [exact P2|]. by apply frame_pruned; [apply P2|].
    + by apply wpp_bind, wpp_raise.
  - intros [] s2 P2. apply (wpp_forM_ (fun s' => pruned s s')); [done| |done]. intros rid s3 _ P3.
    apply wpp_bind, requests_get_wpp; intros; simpl; [by apply wpp_bind, wpp_ret, free_finished_wpp|by apply wpp_bind, wpp_raise].
Qed.

Lemma fail_requests_wpp failed outs s :
  sched_wf cfg s -> wpp (fail_requests kvc py_id set_order failed outs) (fun _ s' => pruned s s') s.
Proof.
  intros Hwf. unfold fail_requests. cbv zeta. apply wpp_bind, (wpp_framed status); [fr|]. intros [] s1 F1.
  apply (frame_pruned _ _ Hwf) in F1. apply wpp_bind.
  eapply wpp_mono; [by apply finish_requests_wpp, F1|]. intros x s2 P2.
  apply (finished_requests_pruned _ _ _ _ (pr_wf _ _ F1)) in P2.
  apply (wpp_foldM (fun _ _ _ s' => pruned s s') _ []); [exact (pruned_trans _ _ _ F1 P2)| |done].
  intros d y t outs' s3 P3. apply wpp_bind, (wpp_framed status); [by apply framed_take_events|]. intros ev s4 F4.
  apply wpp_bind, wpp_robj. intros r _. apply wpp_ret. eapply pruned_trans; [exact P3|]. by apply frame_pruned; [apply P3|].
Qed.

Lemma answerable_frame s s' rid : frame kind s s' -> answerable s rid -> answerable s' rid.
Proof.
  intros F H Hl. destruct (seen_kind _ _ _ (fr_seen _ _ _ F rid)) as [_ ->]. rewrite (fr_running _ _ _ F). apply H.
  eapply live_unlisted; [|exact Hl]. by apply (frame_unlisted (fun _ => False)), frame_kind.
Qed.

Lemma process_requests_wpp o m failed now items s :
  sched_wf cfg s -> Forall (fun it => answerable s it.1) items ->
  wpp (foldM (process_request kvc cfg use_int sha256 py_id block_hasher set_order som o m failed now) (mkOutAcc [] None ∅ ∅) items)
    (fun acc s' => upd_inv s acc s') s.
Proof.
  intros Hwf Hans.
  apply (wpp_foldM (fun _ t acc s' => upd_inv s acc s' /\ Forall (fun it => answerable s it.1) t) _ []).
  - split; [|done]. split; try done; simpl; set_solver.
  - intros d it t acc s1 [I [H1 H2]%Forall_cons]. eapply wpp_mono; [by apply process_request_wpp|]. by intros acc' s2 I2.
  - by intros acc s' [I _].
Qed.

Lemma update_from_output_wpp o m now s :
  sched_wf cfg s -> Forall (fun it => answerable s it.1) (so_num_scheduled_tokens o) ->
  wpp (update_from_output kvc cfg use_int sha256 py_id block_hasher set_order som o m now) (fun _ s' => pruned s s') s.
Proof.
  intros Hwf Hans. unfold update_from_output. apply wpp_bind, (wpp_framed kind); [fr|]. intros failed s1 F1.
  pose proof (frame_pruned _ _ Hwf (frame_kind _ _ F1)) as P1. pose proof (pr_wf _ _ P1) as Hwf1.
  apply wpp_bind. eapply wpp_mono; [apply process_requests_wpp; [done|]|].
  { eapply Forall_impl; [exact Hans|]. intros it. by apply answerable_frame. }
  intros acc s2 I2. apply wpp_bind, (remove_running_wpp kvc); [done| |].
  { rewrite (ui_running _ _ _ I2). pose proof (wf_nodup _ _ Hwf1) as Hnd. by apply NoDup_app in Hnd as (? & _ & _). }
  set (s3 := set_running _ s2). apply wpp_bind, wpp_when; intros Hb.
  { apply negb_true_iff, bool_decide_eq_false in Hb. by destruct (Hb (ui_preempted _ _ _ I2)). }
  clear Hb.
  assert (P3 : pruned s s3) by (eapply pruned_trans; [exact P1|by apply upd_inv_pruned]).
  apply wpp_bind. apply (wpp_mono _ (fun _ s' => pruned s s')).
  { apply wpp_if; intros _; [|by apply wpp_ret]. eapply wpp_mono; [by apply fail_requests_wpp, P3|].
    intros x s4 P4. by eapply pruned_trans. }
  intros outs s4 P4. apply wpp_bind. apply (wpp_mono _ (fun _ s' => pruned s s')).
  { destruct (mr_kv_connector_output m); [|by apply wpp_ret]. eapply wpp_mono; [by apply kv_xfer_wpp, P4|].
    intros x s5 P5. by eapply pruned_trans. }
  intros [] s5 P5. apply (wpp_framed status); [fr|]. intros x s6 F6. eapply pruned_trans; [exact P5|].
  by apply frame_pruned; [apply P5|].
Qed.
End Engine.
