(* ===== verification/SchedEngineSpec.v ===== *)
(** * Runs of the engine's core loop

    The scheduler as the engine core drives it: requests arrive and are aborted,
    the scheduler decides a step, the model runs, its output is processed. From
    any state such a run reaches, no unfinished request is lost or duplicated. *)
From S2P Require Import Prelude PyDict Request BlockPool SingleType Coordinator KVManager SchedUtils Samples.
From S2P Require Import EncoderCache RequestQueue RequestQueueSpec SchedState SchedStep SchedUpdate Partial SchedLemmas SchedInv SchedGrants SchedFinish SchedEngine SchedSamples.
From stdpp Require Import relations.
Local Open Scope Z_scope.

Section EngineSpec.
Context {C E : Type} (kvc : KVConnector C) (ecc : ECConnector E).
Context (cfg : SchedConfig) (use_int : bool) (sha256 : bytes -> bytes) (py_id : Request -> Z).
Context (block_hasher : option BlockHasher) (set_order : forall A, list A -> list A) (som : StructuredOutputManager).
Abbreviation Sched := (Scheduler C E).
Implicit Types s : Sched.

(** The scheduler and the output of [schedule] that the model is running, as
    [EngineCore.step] has them: a step is scheduled once the previous one is
    processed; requests are added between steps, and aborted at any time. *)
Inductive engine_step : Sched * option SchedulerOutput -> Sched * option SchedulerOutput -> Prop :=
| es_add s s' request now :
    request_id request ∉ s_requests s -> waiting_like (status request) -> plain_request request ->
    add_request kvc cfg py_id block_hasher set_order request now s = (Ok tt, s') ->
    engine_step (s, None) (s', None)
| es_finish s s' p ids st out :
    finish_requests kvc py_id set_order ids st s = (Ok out, s') -> engine_step (s, p) (s', p)
| es_pause s s' p state :
    set_pause_state state s = (Ok tt, s') -> engine_step (s, p) (s', p)
| es_drafts s s' p drafts :
    update_draft_token_ids som drafts s = (Ok tt, s') -> engine_step (s, p) (s', p)
| es_reset s s' running connector now b :
    reset_prefix_cache kvc cfg py_id set_order running connector now s = (Ok b, s') ->
    engine_step (s, None) (s', None)
| es_schedule s s' now o :
    schedule kvc ecc cfg use_int sha256 py_id set_order now s = (Ok o, s') -> engine_step (s, None) (s', Some o)
| es_update s s' o m now out :
    update_from_output kvc cfg use_int sha256 py_id block_hasher set_order som o m now s = (Ok out, s') ->
    engine_step (s, Some o) (s', None).

(** What holds between two operations: the queues hold the unfinished requests,
    none is a streaming session, and the requests of the step in flight run unless
    they were aborted. *)
Record engine_wf (e : Sched * option SchedulerOutput) : Prop := mkEngineWf {
  ew_sched : sched_wf cfg e.1;
  ew_plain : no_sessions e.1;
  ew_flight o : e.2 = Some o -> Forall (fun it => answerable e.1 it.1) (so_num_scheduled_tokens o)
}.

Context (Hkvc : connector_safe kvc) (Hecc : ec_connector_safe ecc) (Hcfg : config_ok cfg).
Context (Hbh : forall h, block_hasher = Some h -> view_safe kind h /\ no_fuel h).

Lemma hasher_plain h : block_hasher = Some h -> plain_safe h.
Proof. intros [Hv _]%Hbh r [H1 H2]. specialize (Hv r). unfold kind in Hv. injection Hv as Hs Hr. split; congruence. Qed.

Lemma plain_live s rid : no_sessions s -> live s rid -> seen resumable s rid = Some false.
Proof.
  intros [_ Hp] [_ (x & Hx & _)]. unfold seen in *. destruct (s_objs s !! rid) as [r|] eqn:Er; [|done].
  simpl. f_equal. by apply (Hp rid r).
Qed.

Lemma pruned_wf s s' p : engine_wf (s, p) -> pruned cfg s s' -> no_sessions s' -> engine_wf (s', p).
Proof.
  intros [_ _ Hf] [R Q L _ _ W] Hv. split; simpl in *; [done|done|].
  intros o Ho. eapply Forall_impl; [by apply Hf|]. intros it Ha Hl. destruct (Ha (L _ Hl)) as [Hin _].
  split; [by apply R|by apply plain_live].
Qed.

Lemma add_engine_wf request now s s' :
  engine_wf (s, None) -> request_id request ∉ s_requests s -> waiting_like (status request) -> plain_request request ->
  add_request kvc cfg py_id block_hasher set_order request now s = (Ok tt, s') -> engine_wf (s', None).
Proof.
  intros [Hwf Hr _] Hnew Hw Hre Hrun. simpl in *.
  pose proof (pl_add_request kvc cfg py_id set_order block_hasher _ _ _ _ _ Hnew Hre Hrun Hr) as Hp.
  apply (wpp_ok _ _ _ _ _ (add_request_wpp kvc cfg py_id block_hasher set_order request now s Hnew)) in Hrun.
  split; simpl; [|done|done]. by eapply added_wf.
Qed.

Lemma schedule_engine_wf now s o s' :
  engine_wf (s, None) -> schedule kvc ecc cfg use_int sha256 py_id set_order now s = (Ok o, s') -> engine_wf (s', Some o).
Proof.
  intros [Hwf Hr _] Hrun. simpl in *.
  pose proof (pl_schedule kvc ecc cfg use_int sha256 py_id set_order now s o s' Hrun Hr) as Hv.
  apply (wpp_ok _ _ _ _ _ (schedule_wpp kvc ecc cfg use_int sha256 py_id set_order Hkvc Hecc Hcfg now s Hwf)) in Hrun.
  destruct Hrun as (st & [Hwf' Hall _ _ Hsub _ _ _] & _ & Ho & _). split; simpl; [done|done|].
  intros o' [= <-]. rewrite Ho. apply Forall_forall. intros [rid n] Hin Hl. apply (list_elem_of_fmap_2 fst) in Hin. simpl in *.
  split; [by apply Hsub|by apply plain_live].
Qed.

Lemma framed_update_draft_token_ids drafts : framed (C:=C) (E:=E) kind (update_draft_token_ids som drafts).
Proof.
  apply framed_forM_. intros [rid spec]. apply framed_bind; [fr|]. intros [r|]; [|fr].
  destruct (is_finished r); [fr|]. destruct (is_prefill_chunk r); [fr|].
  apply framed_bind; [apply framed_on_request; [apply view_safe_should_advance|apply nf_should_advance]|]. fr.
Qed.

Lemma engine_step_wf e e' : engine_step e e' -> engine_wf e -> engine_wf e'.
Proof.
  intros Hstep He. pose proof (ew_plain _ He) as Hp. pose proof (ew_sched _ He) as Hwf.
  destruct Hstep as [s s' r now Hnew Hw Hre Hrun|s s' p ids st out Hrun|s s' p st Hrun|s s' p d Hrun
    |s s' rr c now b Hrun|s s' now o Hrun|s s' o m now out Hrun]; simpl in Hp, Hwf.
  - by eapply add_engine_wf.
  - eapply pruned_wf; [exact He| |exact (pl_finish_requests kvc py_id set_order ids st s out s' Hrun Hp)].
    apply (finished_requests_pruned cfg (finish_ids set_order ids s) st); [done|].
    exact (wpp_ok _ _ _ _ _ (finish_requests_wpp kvc cfg py_id set_order Hkvc ids st s Hwf) Hrun).
  - injection Hrun as <-. destruct He as [_ _ Hf]. split; [by destruct Hwf|exact Hp|done].
  - eapply pruned_wf; [exact He| |exact (pl_update_drafts som d s tt s' Hrun Hp)]. apply frame_pruned; [done|].
    apply frame_kind. exact (wpp_ok _ _ _ _ _ (framed_update_draft_token_ids d s) Hrun).
  - pose proof (pl_reset kvc cfg py_id set_order rr c now s b s' Hrun Hp) as Hp'.
    pose proof (wpp_ok _ _ _ _ _ (reset_prefix_cache_wpp kvc cfg py_id set_order Hkvc rr c now s Hwf) Hrun) as (Hwf' & _).
    by split.
  - by eapply schedule_engine_wf.
  - eapply (pruned_wf s); [by split| |].
    + exact (wpp_ok _ _ _ _ _ (update_from_output_wpp kvc cfg use_int sha256 py_id block_hasher set_order som Hkvc Hbh o m now s
        Hwf (ew_flight _ He o eq_refl)) Hrun).
    + exact (pl_update_from_output kvc cfg use_int sha256 py_id set_order block_hasher som hasher_plain o m now s out s' Hrun Hp).
Qed.

Lemma init_wf kv_cfg n caching events finished dcp pcp enc metrics conn ec s :
  0 <= cf_max_num_running_reqs cfg ->
  scheduler_init cfg kv_cfg n caching events finished dcp pcp enc metrics conn ec = Ok s -> engine_wf (s, None).
Proof.
  intros Hmax. unfold scheduler_init. destruct (_ && _); [done|]. destruct n as [n|]; [|done].
  destruct (negb _); [done|]. destruct (kv_manager_init _ _ _ _ _ _ _ _ _ _) as [k|]; simpl; [|done]. intros [= <-].
  assert (Hall : forall q : RequestQueue string, q = create_request_queue (cf_policy cfg) -> items q = [])
    by (intros q ->; by destruct (cf_policy cfg)).
  split; [|split; [done|apply map_Forall_empty]|done].
  split; unfold all_requests, queued; simpl; rewrite ?Hall by done; simpl; try (by intros rid ?%elem_of_nil); [apply NoDup_nil_2| |].
  - by intros rid [? _].
  - exact Hmax.
Qed.

Lemma run_wf e e' : engine_wf e -> rtc engine_step e e' -> engine_wf e'.
Proof. intros He Hr. induction Hr as [|e1 e2 e3 Hs _ IH]; [done|]. by eapply IH, engine_step_wf. Qed.

(** ** Properties *)

(** A run of the engine from a new scheduler. *)
Definition engine_run (kv_cfg : KVCacheConfig) (n : option Z) (caching events finished : bool) (dcp pcp enc : Z)
    (metrics : option (list MetricsCall)) (conn : option C) (ec : option E) (e : Sched * option SchedulerOutput) : Prop :=
  exists s0, scheduler_init cfg kv_cfg n caching events finished dcp pcp enc metrics conn ec = Ok s0 /\ rtc engine_step (s0, None) e.

Context (Hmax : 0 <= cf_max_num_running_reqs cfg).

Lemma engine_run_wf kv_cfg n caching events finished dcp pcp enc metrics conn ec e :
  engine_run kv_cfg n caching events finished dcp pcp enc metrics conn ec e -> engine_wf e.
Proof. intros (s0 & Hi & Hr). eapply run_wf; [|exact Hr]. by eapply init_wf. Qed.

(** C1: in runs of the engine core without streaming sessions (the requests that are
    added are not resumable; a session can end in no queue, [preempted_session_is_lost]),
    with one step in flight at a time and safe connectors, no request is ever lost or
    duplicated: in whatever order requests arrive, are aborted, scheduled, preempted,
    stopped and reset, and whatever the model answers, as long as no operation raises,
    in every state the engine reaches the unfinished requests are exactly those of the
    queues, each in one queue, once; the running ones have status [RUNNING], the others
    a waiting status, and at most [max_num_running_reqs] run. *)
Theorem engine_requests_kept kv_cfg n caching events finished dcp pcp enc metrics conn ec s o :
  engine_run kv_cfg n caching events finished dcp pcp enc metrics conn ec (s, o) ->
  NoDup (all_requests s) /\ (forall rid, rid ∈ all_requests s <-> live s rid)
  /\ (forall rid, rid ∈ s_running s <-> live s rid /\ seen status s rid = Some RUNNING)
  /\ zlen (s_running s) <= cf_max_num_running_reqs cfg.
Proof.
  intros [Hwf _ _]%engine_run_wf. simpl in Hwf.
  assert (Hl : forall rid, rid ∈ all_requests s <-> live s rid) by (intros rid; split; [by apply (wf_live cfg)|by apply (wf_kept cfg)]).
  split_and!; [by apply (wf_nodup cfg)|done| |by apply wf_max]. intros rid. split.
  - intros Hin. assert (rid ∈ all_requests s) by (apply elem_of_app; by left). split; [by apply Hl|]. by eapply (wf_running_iff cfg).
  - intros [Hin%Hl Hs]. by eapply (wf_running_iff cfg).
Qed.

(** C3: every operation of the engine terminates in every state it reaches in such a run
    (no streaming session, one step in flight, no operation raised before): neither a
    scheduling step nor the processing of an output, an abort or a reset runs out of
    the fuel of a loop. *)
Theorem engine_terminates kv_cfg n caching events finished dcp pcp enc metrics conn ec s o :
  engine_run kv_cfg n caching events finished dcp pcp enc metrics conn ec (s, o) ->
  (forall now, fst (schedule kvc ecc cfg use_int sha256 py_id set_order now s) <> Err FuelExhausted)
  /\ (forall so m now, o = Some so ->
       fst (update_from_output kvc cfg use_int sha256 py_id block_hasher set_order som so m now s) <> Err FuelExhausted)
  /\ (forall ids st, fst (finish_requests kvc py_id set_order ids st s) <> Err FuelExhausted)
  /\ (forall running connector now, fst (reset_prefix_cache kvc cfg py_id set_order running connector now s) <> Err FuelExhausted).
Proof.
  intros [Hwf _ Hf]%engine_run_wf. simpl in *. split_and!.
  - intros now. by eapply wpp_no_fuel, schedule_wpp.
  - intros so m now Ho. by eapply wpp_no_fuel, update_from_output_wpp, Hf.
  - intros ids st. by eapply wpp_no_fuel, (finish_requests_wpp kvc cfg).
  - intros running connector now. by eapply wpp_no_fuel, reset_prefix_cache_wpp.
Qed.


(** C6: aborting: [finish_requests] takes the unfinished requests among its ids out
    of every queue and gives them the final status; every other request keeps its
    queue and its status. *)
Theorem finish_requests_spec ids st s out s' :
  sched_wf cfg s -> finish_requests kvc py_id set_order ids st s = (Ok out, s') ->
  let gone (rid : string) := (rid ∈ finish_ids set_order ids s) /\ live s rid in
  sched_wf cfg s'
  /\ (forall rid, gone rid -> (rid ∉ all_requests s') /\ seen status s' rid = Some st)
  /\ (forall rid, ~ gone rid -> (rid ∈ s_running s' <-> rid ∈ s_running s) /\ (rid ∈ queued s' <-> rid ∈ queued s)
                                /\ seen status s' rid = seen status s rid).
Proof.
  intros Hwf Hrun. apply (wpp_ok _ _ _ _ _ (finish_requests_wpp kvc cfg py_id set_order Hkvc ids st s Hwf)) in Hrun as [].
  cbv zeta. split_and!; [done| |].
  - intros rid [Hin Hl]. split; [|auto]. intros [[_ Hn]%fq_running|[_ Hn]%fq_queued]%elem_of_app; tauto.
  - intros rid Hn. rewrite fq_running, fq_queued. split_and!; [tauto|tauto|auto].
Qed.

(** C5: processing the output of the step in flight, in a well-formed state without
    streaming sessions ([engine_wf], which holds in every state of such a run), when it
    returns: exactly the requests that are still unfinished stay in their queues (those
    that stopped, and those that failed with their blocks, leave), no finished request
    comes back, and the state is well-formed for the next step. *)
Theorem update_keeps_unfinished o m now s out s' :
  engine_wf (s, Some o) ->
  update_from_output kvc cfg use_int sha256 py_id block_hasher set_order som o m now s = (Ok out, s') ->
  (forall rid, rid ∈ s_running s' <-> rid ∈ s_running s /\ live s' rid)
  /\ (forall rid, rid ∈ queued s' <-> rid ∈ queued s /\ live s' rid)
  /\ (forall rid, live s' rid -> live s rid) /\ sched_wf cfg s'.
Proof.
  intros [Hwf _ Hf] Hrun. simpl in *.
  pose proof (update_from_output_wpp kvc cfg use_int sha256 py_id block_hasher set_order som Hkvc Hbh o m now s Hwf (Hf o eq_refl)) as Hw.
  by apply (wpp_ok _ _ _ _ _ Hw) in Hrun as [].
Qed.

(** C0: resetting the prefix cache with [reset_running_requests]: every running
    request goes back to waiting, none is lost, and nothing runs. *)
Theorem reset_requeues_running connector now s b s' :
  sched_wf cfg s -> reset_prefix_cache kvc cfg py_id set_order true connector now s = (Ok b, s') ->
  s_running s' = [] /\ queued s' ≡ₚ all_requests s /\ sched_wf cfg s'.
Proof.
  intros Hwf Hrun. pose proof (reset_prefix_cache_wpp kvc cfg py_id set_order Hkvc true connector now s Hwf) as Hw.
  apply (wpp_ok _ _ _ _ _ Hw) in Hrun as (Hwf' & Ha & Hr). split_and!; [done| |done].
  rewrite <-Ha. unfold all_requests. by rewrite Hr.
Qed.
End EngineSpec.

(** ** A run *)

Definition engine_config : SchedConfig := small_config FCFS 20.
Definition engine_start : S0 := match empty_scheduler false engine_config 20 with Ok s => s | Err _ => busy end.
Definition engine_a : S0 := snd (add engine_config (sched_request "a" 0 1 [1; 2; 3] [] None false false) engine_start).
Definition engine_b : S0 := snd (add engine_config (bare_request "b" [4; 5; 6; 7]) engine_a).
Definition engine_scheduled : res SchedulerOutput * S0 := step engine_config engine_b.
Definition engine_out : SchedulerOutput := match fst engine_scheduled with Ok o => o | Err _ => scheduler_output_make_empty end.
Definition engine_busy : S0 := snd engine_scheduled.

Lemma ok_run {A} (x : res A * S0) a : fst x = Ok a -> x = (Ok a, snd x).
Proof. destruct x as [r s]. simpl. by intros ->. Qed.

Abbreviation small_run := (engine_run no_connector no_ec_connector engine_config false toy_sha256 (fun _ => 0) None
  (fun _ l => l) no_grammar (mkConfig 20 [mkSpec 2 FullAttention 0]) (Some 20) false false false 1 1 8 None None None).

Lemma engine_a_ok : fst (add engine_config (sched_request "a" 0 1 [1; 2; 3] [] None false false) engine_start) = Ok tt.
Proof. vm_compute. reflexivity. Qed.
Lemma engine_b_ok : fst (add engine_config (bare_request "b" [4; 5; 6; 7]) engine_a) = Ok tt.
Proof. vm_compute. reflexivity. Qed.
Lemma engine_scheduled_ok : fst engine_scheduled = Ok engine_out.
Proof. vm_compute. reflexivity. Qed.

Lemma engine_busy_run : small_run (engine_busy, Some engine_out).
Proof.
  exists engine_start. split; [vm_compute; reflexivity|].
  eapply rtc_l; [|eapply rtc_l; [|apply rtc_once]].
  - eapply (es_add _ _ _ _ _ _ _ _ _ engine_start engine_a (sched_request "a" 0 1 [1; 2; 3] [] None false false) 0).
    + assert (s_requests engine_start = []) as -> by (vm_compute; reflexivity). apply not_elem_of_nil.
    + by left.
    + by split.
    + exact (ok_run _ _ engine_a_ok).
  - eapply (es_add _ _ _ _ _ _ _ _ _ engine_a engine_b (bare_request "b" [4; 5; 6; 7]) 0).
    + assert (s_requests engine_a = ["a"]) as -> by (vm_compute; reflexivity). by intros ?%list_elem_of_singleton.
    + by left.
    + by split.
    + exact (ok_run _ _ engine_b_ok).
  - apply (es_schedule _ _ _ _ _ _ _ _ _ engine_b engine_busy 0 engine_out).
    exact (ok_run _ _ engine_scheduled_ok).
Qed.

Lemma no_hasher_ok : forall h, @None BlockHasher = Some h -> view_safe kind h /\ no_fuel h.
Proof. discriminate. Qed.

Lemma engine_max : 0 <= cf_max_num_running_reqs engine_config.
Proof. vm_compute. congruence. Qed.

Lemma engine_requests_kept_witness :
  s_running engine_busy = ["a"; "b"] /\ NoDup (all_requests engine_busy) /\ live engine_busy "b".
Proof.
  pose proof (engine_requests_kept no_connector no_ec_connector engine_config false toy_sha256 (fun _ => 0) None (fun _ l => l)
    no_grammar no_connector_safe no_ec_connector_safe (small_config_ok FCFS 20) no_hasher_ok engine_max
    _ _ _ _ _ _ _ _ _ _ _ _ _ engine_busy_run) as (H1 & H2 & _).
  assert (Hr : s_running engine_busy = ["a"; "b"]) by (vm_compute; reflexivity).
  split; [exact Hr|]. split; [exact H1|]. apply H2. unfold all_requests. rewrite Hr. right. left.
Defined.

(** The model's answer: "a" may generate one token and stops, "b" goes on. *)
Definition engine_answer : ModelRunnerOutput := model_output [("a", [2]); ("b", [5])] None.

Lemma engine_terminates_witness :
  s_running engine_busy = ["a"; "b"] /\
  fst (update_from_output no_connector engine_config false toy_sha256 (fun _ => 0) None (fun _ l => l) no_grammar
         engine_out engine_answer 0 engine_busy) <> Err FuelExhausted.
Proof.
  split; [vm_compute; reflexivity|].
  exact (proj1 (proj2 (engine_terminates no_connector no_ec_connector engine_config false toy_sha256 (fun _ => 0) None (fun _ l => l)
    no_grammar no_connector_safe no_ec_connector_safe (small_config_ok FCFS 20) no_hasher_ok engine_max
    _ _ _ _ _ _ _ _ _ _ _ _ _ engine_busy_run)) engine_out engine_answer 0 eq_refl).
Defined.


Definition engine_updated : res (list (Z * EngineCoreOutputs) * list KVCacheEvent) * S0 :=
  update_from_output no_connector engine_config false toy_sha256 (fun _ => 0) None (fun _ l => l) no_grammar
    engine_out engine_answer 0 engine_busy.

Lemma update_keeps_unfinished_witness :
  s_running (snd engine_updated) = ["b"] /\ ~ live (snd engine_updated) "a" /\ sched_wf engine_config (snd engine_updated).
Proof.
  assert (He : engine_wf engine_config (engine_busy, Some engine_out)).
  { exact (engine_run_wf no_connector no_ec_connector engine_config false toy_sha256 (fun _ => 0) None (fun _ l => l)
      no_grammar no_connector_safe no_ec_connector_safe (small_config_ok FCFS 20) no_hasher_ok engine_max
      _ _ _ _ _ _ _ _ _ _ _ _ engine_busy_run). }
  destruct engine_updated as [[out|e] s'] eqn:Hrun; [|vm_compute in Hrun; discriminate].
  pose proof (update_keeps_unfinished no_connector engine_config false toy_sha256 (fun _ => 0) None (fun _ l => l)
    no_grammar no_connector_safe no_hasher_ok engine_out engine_answer 0 engine_busy out s' He Hrun) as (H1 & _ & _ & H4).
  assert (Hr : s_running s' = ["b"]).
  { change s' with (snd (@Ok (list (Z * EngineCoreOutputs) * list KVCacheEvent) out, s')). rewrite <-Hrun. vm_compute. reflexivity. }
  split; [exact Hr|]. split; [|exact H4]. intros Hl. assert (Hb : "a" ∈ s_running engine_busy).
  { assert (s_running engine_busy = ["a"; "b"]) as -> by (vm_compute; reflexivity). left. }
  pose proof (proj2 (H1 "a") (conj Hb Hl)) as Hin. rewrite Hr in Hin. apply list_elem_of_singleton in Hin. discriminate.
Defined.

Lemma finish_requests_spec_witness :
  exists out s', finish_requests no_connector (fun _ => 0) (fun _ l => l) (FinishOne "a") FINISHED_ABORTED busy = (Ok out, s')
    /\ ("a" ∉ all_requests s') /\ ("c" ∈ queued s' <-> "c" ∈ queued busy).
Proof.
  destruct (finish_requests no_connector (fun _ => 0) (fun _ l => l) (FinishOne "a") FINISHED_ABORTED busy) as [[out|e] s'] eqn:Hrun;
    [|vm_compute in Hrun; discriminate].
  exists out, s'. split; [reflexivity|].
  pose proof (finish_requests_spec no_connector busy_config (fun _ => 0) (fun _ l => l) no_connector_safe
    (FinishOne "a") FINISHED_ABORTED busy out s' busy_wf Hrun) as (_ & H1 & H2).
  split.
  - apply H1. split; [left|]. apply (wf_live busy_config busy "a" busy_wf).
    unfold all_requests. rewrite busy_running. left.
  - apply (H2 "c"). intros [Hin _]. apply list_elem_of_singleton in Hin. discriminate.
Defined.

Lemma reset_requeues_running_witness :
  exists b s', reset_prefix_cache no_connector busy_config (fun _ => 0) (fun _ l => l) true false 0 busy = (Ok b, s')
    /\ s_running s' = [] /\ queued s' ≡ₚ ["a"; "b"; "c"].
Proof.
  destruct (reset_prefix_cache no_connector busy_config (fun _ => 0) (fun _ l => l) true false 0 busy) as [[b|e] s'] eqn:Hrun;
    [|vm_compute in Hrun; discriminate].
  exists b, s'. split; [reflexivity|].
  pose proof (reset_requeues_running no_connector busy_config (fun _ => 0) (fun _ l => l) no_connector_safe
    false 0 busy b s' busy_wf Hrun) as (H1 & H2 & _).
  split; [exact H1|]. rewrite H2. unfold all_requests. rewrite busy_running, busy_queued. reflexivity.
Defined.
