(* ===== verification/Echo.v ===== *)
(** ECHO, the pruning of draft tokens in the Ascend model runner
    ([vllm-ascend/vllm_ascend/worker/model_runner_v1.py]): the selection of the
    drafts a step verifies ([_echo_prune_drafts]), the copy of the drafts to the
    host and their way back to the scheduler, and the shapes of a dummy batch and
    of a padded batch, which ECHO changes. *)
From S2P Require Import Prelude PyDict Request SchedState SchedStep.
Local Open Scope Z_scope.

(** ** Helpers *)

(** [[f(x) for x in l]] for an [f] that may raise. *)
Fixpoint map_res {A B} (f : A -> res B) (l : list A) : res (list B) :=
  match l with
  | [] => Ok []
  | x :: l' => y ← f x ; ys ← map_res f l' ; Ok (y :: ys)
  end.

(** [t[i]] on a dimension of a tensor, by a non-negative index. *)
Definition t_get {A} (l : list A) (i : Z) : res A :=
  if i <? 0 then Err IndexError
  else match l !! Z.to_nat i with Some x => Ok x | None => Err IndexError end.

(** ** The drafts of the previous step *)

(** [_draft_token_ids]: [None], lists of tokens, or a tensor with its number of
    columns. *)
Inductive Drafts := NoDrafts | DraftLists (rows : list (list Z)) | DraftTensor (width : nat) (rows : list (list Z)).

Section Echo.
(** Scores are the floating-point numbers of the device.  [log_softmax], [cumsum]
    and [topk] (the indices it returns) are PyTorch's. *)
Context {F : Type} (log_softmax cumsum : list F -> list F) (topk : list F -> nat -> list nat).

(** What the runner keeps of the drafter's run: the drafts, the requests of their
    rows, and the logits of each draft step ([_echo_logits_list]; [None] when there
    is no drafter or it never ran). *)
Record EchoRunner := mkEchoRunner {
  er_draft_token_ids : Drafts;
  er_draft_token_req_ids : option (list string);
  er_echo_logits_list : option (list (list (list F)))
}.

(** [torch.stack(_echo_logits_list, dim=0)]: all steps have the same shape. *)
Definition stack_logits (steps : list (list (list F))) : res (list (list (list F))) :=
  match steps with
  | [] => Err RuntimeError
  | m :: _ =>
      if forallb (fun m' => bool_decide (map length m' = map length m)) steps then Ok steps else Err RuntimeError
  end.

(** [log_probs.gather(2, step_tokens.unsqueeze(-1))], transposed: for the draft [t]
    of row [i] the log-probability that step [t] gave it. *)
Definition gather_row (log_probs : list (list (list F))) (i : nat) (row : list Z) : res (list F) :=
  map_res (fun '(t, tok) =>
    step ← match log_probs !! t with Some m => Ok m | None => Err RuntimeError end ;
    dist ← match step !! i with Some d => Ok d | None => Err RuntimeError end ;
    t_get dist tok) (imap pair row).

(** The cumulative log-probabilities of the selected rows. *)
Definition echo_scores (width : nat) (rows : list (list Z)) (steps : list (list (list F))) (idx : list nat)
    : res (list (list Z) * list (list F)) :=
  drafts ← map_res (fun i => t_get rows (Z.of_nat i)) idx ;
  stacked ← stack_logits steps ;
  selected ← map_res (fun m => map_res (fun i => t_get m (Z.of_nat i)) idx) stacked ;
  if (length selected <? width)%nat then Err RuntimeError
  else
    let log_probs := map (map log_softmax) selected in
    cond ← map_res (fun '(i, row) => gather_row log_probs i row) (imap pair drafts) ;
    Ok (drafts, map cumsum cond).

(** How many drafts the step verifies. *)
Definition n_select (k_max : Z) (actual_bs numel : nat) : nat :=
  Z.to_nat (Z.min (Z.max (k_max - Z.of_nat actual_bs) 0) (Z.of_nat numel)).

(** The flat indices of the kept drafts. *)
Definition echo_top (k_max : Z) (scores : list (list F)) : list nat :=
  let flat := concat scores in
  let n := n_select k_max (length scores) (length flat) in
  if (0 <? n)%nat then topk flat n else [].

(** [mask[i, t]] *)
Definition echo_mask (top : list nat) (width i t : nat) : bool := bool_decide ((i * width + t)%nat ∈ top).

(** [[t for t, keep in zip(full_drafts, req_mask) if keep]], with the mask row cut to
    [n_in_layout]. *)
Definition keep_drafts (top : list nat) (width i : nat) (full_drafts : list Z) : list Z :=
  let n_in_layout := Nat.min (length full_drafts) width in
  let req_mask := map (echo_mask top width i) (seq 0 n_in_layout) in
  map fst (filter (fun tk : Z * bool => tk.2 = true) (zip full_drafts req_mask)).

(** One request of the loop that rewrites the scheduler's output. *)
Definition echo_prune_request (top : list nat) (width : nat)
    (acc : list (string * list Z) * list (string * Z)) (ir : nat * string) : list (string * list Z) * list (string * Z) :=
  let '(spec_tokens, sched_tokens_dict) := acc in
  let '(i, req_id) := ir in
  match od_lookup req_id spec_tokens with
  | None => acc
  | Some full_drafts =>
      match keep_drafts top width i full_drafts with
      | [] => (od_set req_id [] spec_tokens, od_set req_id 1 sched_tokens_dict)
      | pruned => (od_set req_id pruned spec_tokens, od_set req_id (zlen pruned + 1) sched_tokens_dict)
      end
  end.

Definition set_so_sched (spec : list (string * list Z)) (tokens : list (string * Z)) (total : Z) (o : SchedulerOutput)
    : SchedulerOutput :=
  mkSchedulerOutput (so_scheduled_new_reqs o) (so_scheduled_cached_reqs o) tokens total spec
    (so_scheduled_encoder_inputs o) (so_num_common_prefix_blocks o) (so_preempted_req_ids o) (so_finished_req_ids o)
    (so_free_encoder_mm_hashes o) (so_has_structured_output_requests o)
    (so_pending_structured_output_tokens o) (so_num_invalid_spec_tokens o) (so_new_block_ids_to_zero o).

(** The rows of the drafter whose request is still scheduled. *)
Definition sched_rows (req_ids : list string) (o : SchedulerOutput) : list (nat * string) :=
  filter (fun ir : nat * string => od_mem ir.2 (so_num_scheduled_tokens o) = true) (imap pair req_ids).

(** [_echo_prune_drafts], with [VLLM_ECHO_ENABLED] and [VLLM_ECHO_K_MAX]: the
    output it leaves in place of its argument. *)
Definition echo_prune_drafts (enabled : bool) (k_max : Z) (runner : EchoRunner) (o : SchedulerOutput)
    : res SchedulerOutput :=
  if negb enabled then Ok o
  else
    match er_draft_token_ids runner, er_echo_logits_list runner with
    | DraftTensor total_steps draft_token_ids, Some ((_ :: _) as logits) =>
        match er_draft_token_req_ids runner with
        | None => Err TypeError
        | Some req_ids =>
            let rows := sched_rows (take (length draft_token_ids) req_ids) o in
            match rows with
            | [] => Ok o
            | _ =>
                ds ← echo_scores total_steps draft_token_ids logits (map fst rows) ;
                let top := echo_top k_max ds.2 in
                let '(spec_tokens, sched_tokens_dict) :=
                  foldl (echo_prune_request top total_steps)
                    (so_scheduled_spec_decode_tokens o, so_num_scheduled_tokens o) (imap pair (map snd rows)) in
                Ok (set_so_sched spec_tokens sched_tokens_dict (zsum (map snd sched_tokens_dict)) o)
            end
        end
    | _, _ => Ok o
    end.
End Echo.

(** ** The host copy of the drafts *)

(** [draft_token_ids_cpu] and [_draft_token_req_ids]. *)
Record DraftBuffer := mkDraftBuffer {
  db_cpu : list (list Z);
  db_req_ids : option (list string)
}.

(** [buf[:len(rows)].copy_(rows)], each row by [f]. *)
Fixpoint write_rows (f : list Z -> list Z) (buf rows : list (list Z)) : res (list (list Z)) :=
  match rows, buf with
  | [], _ => Ok buf
  | _ :: _, [] => Err RuntimeError
  | r :: rows', _ :: buf' => l ← write_rows f buf' rows' ; Ok (f r :: l)
  end.

(** [NPUModelRunner._copy_draft_token_ids_to_cpu] with ECHO and async
    scheduling; [req_ids] are the rows of the input batch, [cols] the columns of the
    buffer. *)
Definition echo_copy_draft_token_ids_to_cpu (drafts : Drafts) (req_ids : list string) (cols : nat) (zeros_only : bool)
    (b : DraftBuffer) : res DraftBuffer :=
  match drafts with
  | DraftTensor num_cols rows =>
      if zeros_only then
        let n := length rows in
        Ok (mkDraftBuffer (map (fun _ => replicate cols 0) (take n (db_cpu b)) ++ drop n (db_cpu b)) (Some req_ids))
      else if (cols <? num_cols)%nat then Err RuntimeError
      else
        cpu ← write_rows (fun row => row ++ replicate (cols - num_cols) (-1)) (db_cpu b) rows ;
        Ok (mkDraftBuffer cpu (Some req_ids))
  | _ => Ok (mkDraftBuffer (db_cpu b) (Some req_ids))
  end.

(** [GPUModelRunner._get_draft_token_ids_cpu] and [take_draft_token_ids]. *)
Definition get_draft_token_ids_cpu (drafts : Drafts) (batch_req_ids : list string) (b : DraftBuffer)
    : list (list Z) * list string :=
  match drafts with
  | DraftLists rows => (rows, batch_req_ids)
  | _ =>
      match db_req_ids b with
      | None => ([], [])
      | Some req_ids => (take (length req_ids) (db_cpu b), req_ids)
      end
  end.

Definition take_draft_token_ids (num_spec_tokens : Z) (drafts : Drafts) (batch_req_ids : list string) (b : DraftBuffer)
    : option (list (list Z) * list string) :=
  if (num_spec_tokens =? 0) || match db_req_ids b with Some (_ :: _) => false | _ => true end then None
  else Some (get_draft_token_ids_cpu drafts batch_req_ids b).

(** ** Batch shapes *)

(** [l[-1] = f(l[-1])] *)
Definition set_last {A} (f : A -> A) (l : list A) : res (list A) :=
  match last l with
  | Some x => Ok (removelast l ++ [f x])
  | None => Err IndexError
  end.

(** The assertions on the numbers of tokens of a dummy batch. *)
Definition check_dummy (num_tokens num_reqs : Z) (l : list Z) : res (list Z) :=
  if negb (zsum l =? num_tokens) then Err AssertionError
  else if negb (zlen l =? num_reqs) then Err AssertionError
  else Ok l.

(** [_dummy_run]: the numbers of tokens of the requests of a dummy batch, with the
    assertions that follow. *)
Definition dummy_scheduled_tokens (create_mixed_batch uniform_decode profile_cpp echo_enabled : bool)
    (num_tokens max_num_batched_tokens max_num_reqs uniform_decode_query_len : Z) : res (list Z) :=
  let max_query_len := if uniform_decode then uniform_decode_query_len else num_tokens in
  if negb (num_tokens <=? max_num_batched_tokens) then Err AssertionError
  else
    x ← (if create_mixed_batch then Err NotImplementedError
         else if uniform_decode then
           if max_query_len =? 0 then Err ZeroDivisionError
           else
             let num_reqs := Z.min max_num_reqs (cdiv num_tokens max_query_len) in
             let l := zreplicate num_reqs max_query_len in
             if negb (num_tokens mod max_query_len =? 0)
             then l ← set_last (fun _ => num_tokens mod max_query_len) l ; Ok (num_reqs, l)
             else Ok (num_reqs, l)
         else if profile_cpp then Ok (1, [num_tokens])
         else if echo_enabled && negb uniform_decode then Ok (1, [num_tokens])
         else
           let num_reqs := Z.min num_tokens max_num_reqs in
           if num_reqs =? 0 then Err ZeroDivisionError
           else
             l ← set_last (fun n => n + num_tokens mod num_reqs) (zreplicate num_reqs (num_tokens / num_reqs)) ;
             Ok (num_reqs, l)) ;
    check_dummy num_tokens x.1 x.2.

(** [_pad_query_start_loc_for_fia]: [full] says that the step runs a full graph in
    the mode [FULL]; the buffer [query_start_loc] is long enough for the writes. *)
Definition pad_query_start_loc_for_fia (full : bool) (uniform_decode_query_len num_tokens_padded : Z) (num_reqs : nat)
    (batch_desc_num_reqs : option nat) (query_start_loc : list Z) : res (nat * list Z) :=
  let num_reqs_padded := if full then num_reqs else default num_reqs batch_desc_num_reqs in
  if num_tokens_padded =? Z.of_nat num_reqs_padded * uniform_decode_query_len then
    if negb (num_reqs <=? num_reqs_padded)%nat then Err AssertionError
    else
      last_loc ← py_get query_start_loc (Z.of_nat num_reqs) ;
      Ok (num_reqs_padded,
          take (S num_reqs) query_start_loc
          ++ map (fun i => Z.of_nat i * uniform_decode_query_len + last_loc) (seq 1 (num_reqs_padded - num_reqs))
          ++ drop (S num_reqs_padded) query_start_loc)
  else if negb (num_reqs =? num_reqs_padded)%nat then Err AssertionError
  else
    if (S num_reqs_padded <? length query_start_loc)%nat
    then Ok (S num_reqs_padded, py_set query_start_loc (Z.of_nat (S num_reqs_padded)) num_tokens_padded)
    else Err IndexError.
