(* ===== verification/EchoSpec.v ===== *)
(** Lemmas about ECHO: what the rewriting loop leaves of the scheduler's output, the
    counting of the kept drafts, and the contract of [torch.topk]. *)
From S2P Require Import Prelude PyDict Request SchedState SchedStep SchedLemmas Echo.
From stdpp Require Import sorting.
From S2P Require Import Hashing BlockPool SingleType Coordinator KVManager SchedUtils Samples.
From S2P Require Import EncoderCache RequestQueue SchedUpdate Partial SchedInv SchedGrants SchedSamples.
Local Open Scope Z_scope.

(** ** Lists *)

Lemma map_res_length {A B} (f : A -> res B) l l' : map_res f l = Ok l' -> length l' = length l.
Proof.
  revert l'. induction l as [|x l IH]; intros l'; simpl; [by intros [= <-]|].
  destruct (f x) as [y|]; simpl; [|done]. destruct (map_res f l) as [ys|]; simpl; [|done]. intros [= <-]. simpl. by rewrite (IH ys).
Qed.

Lemma map_res_lookup {A B} (f : A -> res B) l l' i y :
  map_res f l = Ok l' -> l' !! i = Some y -> exists x, l !! i = Some x /\ f x = Ok y.
Proof.
  revert l' i. induction l as [|x l IH]; intros l' i; simpl; [by intros [= <-]|].
  destruct (f x) as [y'|] eqn:Ef; simpl; [|done]. destruct (map_res f l) as [ys|] eqn:Er; simpl; [|done].
  intros [= <-]. destruct i as [|i]; simpl; [intros [= <-]; by exists x|]. by apply IH.
Qed.

Lemma imap_pair_lookup {A} (l : list A) i x : imap pair l !! i = Some x <-> x.1 = i /\ l !! i = Some x.2.
Proof.
  rewrite list_lookup_imap. destruct x as [j y]. simpl. destruct (l !! i); simpl; naive_solver.
Qed.

(** ** The kept drafts *)

Section Kept.
Context (top : list nat) (width : nat).

(** The positions of row [i] that are kept, out of the first [n]. *)
Definition kept_positions (i n : nat) : list nat := filter (fun t => (i * width + t)%nat ∈ top) (seq 0 n).

Lemma echo_mask_true i t : echo_mask top width i t = true <-> (i * width + t)%nat ∈ top.
Proof. apply bool_decide_eq_true. Qed.

Abbreviation kept := (fun tk : Z * bool => tk.2 = true).

Lemma keep_drafts_length i full :
  length (keep_drafts top width i full) = length (kept_positions i (Nat.min (length full) width)).
Proof.
  unfold keep_drafts, kept_positions. cbv zeta. set (n := Nat.min (length full) width).
  assert (Hn : (n <= length full)%nat) by lia. clearbody n. rewrite length_map. generalize 0%nat as a. revert n Hn.
  induction full as [|x full IH]; intros n Hn a; [simpl in Hn; replace n with 0%nat by lia; done|].
  destruct n as [|n]; [done|]. simpl in Hn. simpl. rewrite !filter_cons. simpl.
  pose proof (echo_mask_true i a). repeat case_decide; simpl; rewrite ?IH by lia; tauto.
Qed.

(** Nothing is kept after a position that is not. *)
Lemma keep_none i (l : list Z) n a :
  (forall t, (S t < width)%nat -> (i * width + S t)%nat ∈ top -> (i * width + t)%nat ∈ top) ->
  (i * width + a)%nat ∉ top -> (a + n <= width)%nat ->
  filter kept (zip l (map (echo_mask top width i) (seq a n))) = [].
Proof.
  intros Hdown. revert n a. induction l as [|x l IH]; intros n a Ha Hw; [done|]. destruct n as [|n]; [done|].
  simpl. rewrite filter_cons. simpl. rewrite decide_False by (by rewrite echo_mask_true).
  destruct n as [|n]; [by destruct l|]. apply IH; [|lia]. intros Hin. apply Ha, Hdown; [lia|done].
Qed.

(** Rows whose kept positions are downward closed keep a prefix. *)
Lemma keep_drafts_prefix i full :
  (forall t, (S t < width)%nat -> (i * width + S t)%nat ∈ top -> (i * width + t)%nat ∈ top) ->
  exists n, keep_drafts top width i full = take n full.
Proof.
  intros Hdown. unfold keep_drafts. cbv zeta. set (n := Nat.min (length full) width).
  assert (Hn : (0 + n <= width)%nat) by lia. clearbody n. revert n Hn. generalize 0%nat as a.
  induction full as [|x full IH]; intros a n Hn; [exists 0%nat; done|].
  destruct n as [|n]; [by exists 0%nat|]. destruct (decide ((i * width + a)%nat ∈ top)) as [Hin|Hin].
  - destruct (IH (S a) n) as [k Hk]; [lia|]. exists (S k). simpl. rewrite filter_cons. simpl.
    rewrite decide_True by (by rewrite echo_mask_true). simpl. by rewrite Hk.
  - exists 0%nat. by rewrite keep_none.
Qed.

(** The rows together keep no more drafts than were selected. *)
Lemma kept_positions_mono i n m : (n <= m)%nat -> (length (kept_positions i n) <= length (kept_positions i m))%nat.
Proof.
  intros Hle. unfold kept_positions. replace m with (n + (m - n))%nat by lia. rewrite seq_app, filter_app, length_app. lia.
Qed.

Lemma kept_positions_row i :
  length (kept_positions i width) = length (filter (fun x => x ∈ top) (seq (i * width) width)).
Proof.
  unfold kept_positions.
  assert (H : forall b n a, length (filter (fun t => (b + t)%nat ∈ top) (seq a n)) = length (filter (fun x => x ∈ top) (seq (b + a) n))).
  { intros b. induction n as [|n IH]; intros a; simpl; [done|]. rewrite !filter_cons, <-Nat.add_succ_r. by case_decide; simpl; rewrite IH. }
  rewrite H. by rewrite Nat.add_0_r.
Qed.

Lemma kept_total (fulls : list (list Z)) :
  NoDup top ->
  (sum_list (imap (fun i full => length (keep_drafts top width i full)) fulls) <= length top)%nat.
Proof.
  intros Hnd.
  assert (Hc : (sum_list (imap (fun i full => length (keep_drafts top width i full)) fulls)
                <= length (filter (fun x => x ∈ top) (seq 0 (length fulls * width))))%nat).
  { induction fulls as [|full fulls IH] using rev_ind; [simpl; lia|].
    rewrite imap_app, sum_list_with_app, length_app, Nat.mul_add_distr_r, seq_app, filter_app, length_app. simpl.
    rewrite !Nat.add_0_r, keep_drafts_length.
    pose proof (kept_positions_mono (length fulls) (Nat.min (length full) width) width ltac:(lia)).
    rewrite kept_positions_row in H. lia. }
  etrans; [exact Hc|]. apply NoDup_incl_length.
  - apply NoDup_ListNoDup, NoDup_filter, NoDup_seq.
  - intros x Hx. apply list_elem_of_In in Hx. apply list_elem_of_filter in Hx as [Hx _]. by apply list_elem_of_In.
Qed.
End Kept.

(** ** The rewriting loop *)

Section Loop.
Context (top : list nat) (width : nat).
Abbreviation prune := (echo_prune_request top width).

Lemma prune_request_eq spec tokens i rid :
  prune (spec, tokens) (i, rid) =
    match od_lookup rid spec with
    | None => (spec, tokens)
    | Some full => (od_set rid (keep_drafts top width i full) spec,
                    od_set rid (zlen (keep_drafts top width i full) + 1) tokens)
    end.
Proof. unfold echo_prune_request. destruct (od_lookup rid spec); [|done]. by destruct (keep_drafts _ _ _ _). Qed.

(** What the loop leaves for a request: the rows before it and after it are other
    requests'. *)
Lemma prune_other l acc k :
  k ∉ map snd l -> od_lookup k (foldl prune acc l).1 = od_lookup k acc.1 /\ od_lookup k (foldl prune acc l).2 = od_lookup k acc.2.
Proof.
  revert acc. induction l as [|[i rid] l IH]; intros [spec tokens] Hk; [done|]. simpl in Hk.
  apply not_elem_of_cons in Hk as [Hne Hk]. cbn [foldl]. rewrite prune_request_eq.
  destruct (od_lookup rid spec) as [full|]; [|by apply IH].
  destruct (IH (od_set rid (keep_drafts top width i full) spec, od_set rid (zlen (keep_drafts top width i full) + 1) tokens) Hk) as [-> ->].
  simpl. by rewrite !od_lookup_set, !decide_False.
Qed.

Lemma prune_none l acc k :
  od_lookup k acc.1 = None -> od_lookup k (foldl prune acc l).1 = None /\ od_lookup k (foldl prune acc l).2 = od_lookup k acc.2.
Proof.
  revert acc. induction l as [|[i rid] l IH]; intros [spec tokens] Hk; [done|]. cbn [foldl]. rewrite prune_request_eq.
  simpl in Hk. destruct (od_lookup rid spec) as [full|] eqn:Er; [|by apply IH].
  assert (k <> rid) by congruence.
  destruct (IH (od_set rid (keep_drafts top width i full) spec, od_set rid (zlen (keep_drafts top width i full) + 1) tokens)) as [-> ->];
    simpl; by rewrite od_lookup_set, decide_False.
Qed.

Lemma prune_row l acc i k full :
  NoDup (map snd l) -> (i, k) ∈ l -> od_lookup k acc.1 = Some full ->
  od_lookup k (foldl prune acc l).1 = Some (keep_drafts top width i full)
  /\ od_lookup k (foldl prune acc l).2 = Some (zlen (keep_drafts top width i full) + 1).
Proof.
  revert acc. induction l as [|[j rid] l IH]; intros [spec tokens] Hnd Hin Hf; [by apply elem_of_nil in Hin|].
  simpl in Hnd. apply NoDup_cons in Hnd as [Hn Hnd]. cbn [foldl]. rewrite prune_request_eq.
  apply elem_of_cons in Hin as [[= -> ->]|Hin].
  - simpl in Hf. rewrite Hf. destruct (prune_other l (od_set rid (keep_drafts top width j full) spec,
      od_set rid (zlen (keep_drafts top width j full) + 1) tokens) rid Hn) as [-> ->]. simpl. by rewrite !od_lookup_set, !decide_True.
  - assert (k <> rid) by (intros ->; apply Hn; by apply (list_elem_of_fmap_2 snd) in Hin).
    destruct (od_lookup rid spec); [|by apply IH]. apply IH; [done|done|]. simpl. by rewrite od_lookup_set, decide_False.
Qed.

Lemma prune_keys l acc :
  (forall ir, ir ∈ l -> is_Some (od_lookup ir.2 acc.2)) -> od_keys (foldl prune acc l).2 = od_keys acc.2.
Proof.
  revert acc. induction l as [|[i rid] l IH]; intros [spec tokens] Hl; [done|]. cbn [foldl]. rewrite prune_request_eq.
  destruct (od_lookup rid spec) as [full|]; [|apply IH; intros ir Hir; apply Hl; by right].
  assert (Hk : od_keys (od_set rid (zlen (keep_drafts top width i full) + 1) tokens) = od_keys tokens).
  { apply od_set_keys. by apply (Hl (i, rid)); left. }
  rewrite IH; [exact Hk|]. intros ir Hir. simpl. rewrite od_lookup_keys, Hk, <-od_lookup_keys. apply Hl. by right.
Qed.
End Loop.

(** ** The contract of [torch.topk] *)

(** [topk l k], for [k] at most the length of [l], gives [k] different indices of
    [l] whose elements are no smaller than the others; ties may go either way. *)
Record topk_law {F} (fle : relation F) (topk : list F -> nat -> list nat) : Prop := mkTopkLaw {
  tk_nodup l k : (k <= length l)%nat -> NoDup (topk l k);
  tk_length l k : (k <= length l)%nat -> length (topk l k) = k;
  tk_best l k i j x y : (k <= length l)%nat -> i ∈ topk l k -> j ∉ topk l k -> l !! i = Some x -> l !! j = Some y -> fle y x
}.

(** The rows of a matrix in its flat view. *)
Lemma concat_lookup {A} (rows : list (list A)) width i t row :
  Forall (fun r => length r = width) rows -> rows !! i = Some row -> (t < width)%nat ->
  concat rows !! (i * width + t)%nat = row !! t.
Proof.
  intros Hall Hi Ht. revert i Hi. induction Hall as [|r rows Hr Hall IH]; intros i Hi; [done|]. destruct i as [|i]; simpl in *.
  - injection Hi as ->. rewrite lookup_app_l by lia. done.
  - rewrite lookup_app_r by lia. rewrite <-(IH i Hi). f_equal. lia.
Qed.

Lemma concat_length {A} (rows : list (list A)) width :
  Forall (fun r => length r = width) rows -> length (concat rows) = (length rows * width)%nat.
Proof. induction 1 as [|r rows Hr _ IH]; simpl; [done|]. rewrite length_app, IH. lia. Qed.

Section Top.
Context {F : Type} (fle : relation F) (topk : list F -> nat -> list nat) (Htopk : topk_law fle topk).

Lemma echo_top_spec k_max (scores : list (list F)) :
  NoDup (echo_top topk k_max scores)
  /\ length (echo_top topk k_max scores) = n_select k_max (length scores) (length (concat scores)).
Proof.
  unfold echo_top. cbv zeta. set (n := n_select _ _ _).
  assert (Hn : (n <= length (concat scores))%nat) by (unfold n, n_select; lia).
  destruct (0 <? n)%nat eqn:E; [split; [by apply (tk_nodup fle)|by apply (tk_length fle)]|].
  apply Nat.ltb_ge in E. split; [apply NoDup_nil_2|simpl; lia].
Qed.

(** When a row's scores strictly decrease, its selected drafts are downward closed. *)
Lemma echo_top_downward k_max scores width i row :
  Forall (fun r => length r = width) scores -> scores !! i = Some row ->
  (forall t x y, row !! t = Some x -> row !! S t = Some y -> ~ fle x y) ->
  forall t, (S t < width)%nat -> (i * width + S t)%nat ∈ echo_top topk k_max scores -> (i * width + t)%nat ∈ echo_top topk k_max scores.
Proof.
  intros Hall Hi Hdec t Ht. unfold echo_top. cbv zeta. set (n := n_select _ _ _).
  assert (Hn : (n <= length (concat scores))%nat) by (unfold n, n_select; lia).
  destruct (0 <? n)%nat; [|by intros ?%elem_of_nil]. intros Hin.
  destruct (decide ((i * width + t)%nat ∈ topk (concat scores) n)) as [|Hnot]; [done|exfalso].
  assert (Hlen : length row = width) by (rewrite Forall_forall in Hall; apply Hall; by eapply list_elem_of_lookup_2).
  destruct (lookup_lt_is_Some_2 row t) as [x Hx]; [lia|]. destruct (lookup_lt_is_Some_2 row (S t)) as [y Hy]; [lia|].
  apply (Hdec t x y Hx Hy).
  eapply (tk_best _ _ Htopk (concat scores) n); [done|exact Hin|exact Hnot| |];
    (erewrite concat_lookup; [eassumption|done|done|lia]).
Qed.
End Top.

(** *** A [topk] that prefers the last of equal elements *)

Section TopkLast.
Context (l : list Z).

Definition ranks (i j : nat) : Prop := l !!! j < l !!! i \/ (l !!! i = l !!! j /\ (j <= i)%nat).

#[export] Instance ranks_dec i j : Decision (ranks i j).
Proof. unfold ranks. apply _. Defined.
#[export] Instance ranks_total : Total ranks.
Proof. intros i j. unfold ranks. lia. Qed.
#[export] Instance ranks_trans : Transitive ranks.
Proof. intros i j k. unfold ranks. lia. Qed.

Definition topk_last (k : nat) : list nat := take k (merge_sort ranks (seq 0 (length l))).
End TopkLast.

Lemma topk_last_law : topk_law Z.le topk_last.
Proof.
  assert (Hp : forall l, merge_sort (ranks l) (seq 0 (length l)) ≡ₚ seq 0 (length l)) by (intros l; apply merge_sort_Permutation).
  assert (Hnd : forall l, NoDup (merge_sort (ranks l) (seq 0 (length l)))) by (intros l; rewrite Hp; apply NoDup_seq).
  split.
  - intros l k _. unfold topk_last. eapply sublist_NoDup; [apply (Hnd l)|apply sublist_take].
  - intros l k Hk. unfold topk_last. rewrite length_take, Hp, length_seq. lia.
  - intros l k i j x y Hk Hi Hj Hx Hy. unfold topk_last in *. set (s := merge_sort (ranks l) (seq 0 (length l))) in *.
    assert (Hjd : j ∈ drop k s).
    { assert (Hjs : j ∈ s) by (unfold s; rewrite Hp; apply elem_of_seq; apply lookup_lt_Some in Hy; lia).
      rewrite <-(take_drop k s) in Hjs. by apply elem_of_app in Hjs as [?|]. }
    assert (HS : StronglySorted (ranks l) s) by (apply StronglySorted_merge_sort; apply _).
    rewrite <-(take_drop k s) in HS. apply (StronglySorted_app_1_elem_of _ _ _ _ _ HS Hi) in Hjd.
    unfold ranks in Hjd. rewrite (list_lookup_total_correct _ _ _ Hx), (list_lookup_total_correct _ _ _ Hy) in Hjd. lia.
Qed.

(** ** The scores *)

Lemma echo_scores_shape {F} (log_softmax cumsum : list F -> list F) width rows steps idx ds :
  (forall l, length (cumsum l) = length l) -> Forall (fun r : list Z => length r = width) rows ->
  echo_scores log_softmax cumsum width rows steps idx = Ok ds ->
  length ds.2 = length idx /\ Forall (fun r => length r = width) ds.2.
Proof.
  intros Hc Hrows. unfold echo_scores. destruct (map_res _ idx) as [drafts|] eqn:Ed; simpl; [|done].
  destruct (stack_logits steps) as [st|]; simpl; [|done]. destruct (map_res _ st) as [sel|]; simpl; [|done].
  destruct (_ <? _)%nat; [done|]. destruct (map_res _ (imap pair drafts)) as [cond|] eqn:Ec; simpl; [|done]. intros [= <-]. simpl.
  pose proof (map_res_length _ _ _ Ed) as Hd. pose proof (map_res_length _ _ _ Ec) as Hl. rewrite length_imap in Hl.
  split; [rewrite length_map; congruence|]. apply Forall_forall. intros r Hr. apply list_elem_of_fmap in Hr as (c & -> & Hc').
  rewrite Hc. apply list_elem_of_lookup in Hc' as [i Hi]. destruct (map_res_lookup _ _ _ _ _ Ec Hi) as ([j row] & Hj & Hg).
  apply imap_pair_lookup in Hj as [_ Hj]. simpl in Hj.
  unfold gather_row in Hg. apply map_res_length in Hg. rewrite length_imap in Hg. rewrite Hg.
  destruct (map_res_lookup _ _ _ _ _ Ed Hj) as (k & _ & Hk). unfold t_get in Hk.
  destruct (_ <? 0); [done|]. destruct (rows !! _) as [row'|] eqn:Er; [|done]. injection Hk as ->.
  rewrite Forall_forall in Hrows. apply Hrows. by eapply list_elem_of_lookup_2.
Qed.

(** * * Properties of ECHO

    What [_echo_prune_drafts] leaves of the scheduler's output; that it stays within
    the budget and keeps prefixes of the drafts when no score ties; and what goes
    wrong with ties, with requests the drafter did not see, with parallel drafting,
    and with the scheduler's count of computed tokens. *)
Local Open Scope Z_scope.

Section EchoSpec.
Context {F : Type} (log_softmax cumsum : list F -> list F) (topk : list F -> nat -> list nat) (fle : relation F).
Context (Htopk : topk_law fle topk) (Hcumsum : forall l, length (cumsum l) = length l).

(** The rows of the drafter's output that count: the ids in order. *)
Definition drafted (drafts : list (list Z)) (req_ids : list string) (o : SchedulerOutput) : list string :=
  map snd (sched_rows (take (length drafts) req_ids) o).

Lemma drafted_elem drafts req_ids o rid :
  rid ∈ drafted drafts req_ids o <-> rid ∈ take (length drafts) req_ids /\ rid ∈ od_keys (so_num_scheduled_tokens o).
Proof.
  unfold drafted, sched_rows. split.
  - intros ([i r] & -> & [Hm Hin]%list_elem_of_filter)%list_elem_of_fmap. simpl in *. split.
    + apply list_elem_of_lookup in Hin as [j Hj]. apply imap_pair_lookup in Hj as [_ Hj]. by eapply list_elem_of_lookup_2.
    + apply od_lookup_keys. unfold od_mem in Hm. by apply bool_decide_eq_true in Hm.
  - intros [[j Hj]%list_elem_of_lookup Hk]. apply list_elem_of_fmap. exists (j, rid). split; [done|].
    apply list_elem_of_filter. split; [by apply bool_decide_eq_true, od_lookup_keys|].
    apply list_elem_of_lookup. exists j. by apply imap_pair_lookup.
Qed.

Lemma drafted_nodup drafts req_ids o : NoDup req_ids -> NoDup (drafted drafts req_ids o).
Proof.
  intros Hnd. unfold drafted, sched_rows. eapply sublist_NoDup; [|apply fmap_sublist, sublist_filter].
  assert (snd <$> imap pair (take (length drafts) req_ids) = take (length drafts) req_ids) as ->.
  { apply list_eq. intros i. rewrite list_lookup_fmap, list_lookup_imap. by destruct (_ !! i). }
  eapply sublist_NoDup; [exact Hnd|apply sublist_take].
Qed.

(** The pruning, when it does something. *)
Record pruned_by (k_max : Z) (width : nat) (drafts : list (list Z)) (req_ids : list string) (scores : list (list F)) o o' : Prop := mkPrunedBy {
  pb_scores : length scores = length (drafted drafts req_ids o);
  pb_row i rid full : drafted drafts req_ids o !! i = Some rid -> od_lookup rid (so_scheduled_spec_decode_tokens o) = Some full ->
    let kept := keep_drafts (echo_top topk k_max scores) width i full in
    od_lookup rid (so_scheduled_spec_decode_tokens o') = Some kept
    /\ od_lookup rid (so_num_scheduled_tokens o') = Some (zlen kept + 1);
  pb_other rid : rid ∉ drafted drafts req_ids o \/ od_lookup rid (so_scheduled_spec_decode_tokens o) = None ->
    od_lookup rid (so_scheduled_spec_decode_tokens o') = od_lookup rid (so_scheduled_spec_decode_tokens o)
    /\ od_lookup rid (so_num_scheduled_tokens o') = od_lookup rid (so_num_scheduled_tokens o);
  pb_keys : od_keys (so_num_scheduled_tokens o') = od_keys (so_num_scheduled_tokens o);
  pb_total : so_total_num_scheduled_tokens o' = zsum (map snd (so_num_scheduled_tokens o'))
}.

Lemma prune_pruned k_max width drafts req_ids steps o o' :
  NoDup req_ids -> Forall (fun r => length r = width) drafts -> steps <> [] -> drafted drafts req_ids o <> [] ->
  echo_prune_drafts log_softmax cumsum topk true k_max (mkEchoRunner (DraftTensor width drafts) (Some req_ids) (Some steps)) o = Ok o' ->
  exists ds, echo_scores log_softmax cumsum width drafts steps (map fst (sched_rows (take (length drafts) req_ids) o)) = Ok ds
    /\ Forall (fun r => length r = width) ds.2 /\ pruned_by k_max width drafts req_ids ds.2 o o'.
Proof.
  intros Hnd Hw Hs Hd. unfold echo_prune_drafts. cbn [negb er_draft_token_ids er_draft_token_req_ids er_echo_logits_list].
  destruct steps as [|st steps]; [done|]. cbv zeta. unfold drafted in Hd. set (rows := sched_rows _ o) in *.
  assert (Hrows : map snd rows = drafted drafts req_ids o) by done.
  destruct rows as [|row rows'] eqn:Er; [done|]. rewrite <-Er in *. clear Hd.
  destruct (echo_scores _ _ _ _ _ _) as [ds|] eqn:Es; [|done]. cbn [mbind res_bind]. cbv beta.
  destruct (echo_scores_shape _ _ _ _ _ _ _ Hcumsum Hw Es) as [Hlen Hall]. rewrite length_map in Hlen.
  set (top := echo_top topk k_max ds.2). destruct (foldl _ _ _) as [spec tokens] eqn:Ef. intros [= <-].
  exists ds. split; [done|]. split; [done|].
  assert (Hsnd : map snd (imap pair (map snd rows)) = map snd rows).
  { apply list_eq. intros i. rewrite !list_lookup_fmap, list_lookup_imap, list_lookup_fmap. by destruct (rows !! i). }
  assert (Hnd' : NoDup (map snd (imap pair (map snd rows)))) by (rewrite Hsnd, Hrows; by apply drafted_nodup).
  split; simpl.
  - by rewrite <-Hrows, length_map.
  - intros i rid full Hi Hf. rewrite <-Hrows in Hi.
    pose proof (prune_row top width _ (so_scheduled_spec_decode_tokens o, so_num_scheduled_tokens o) i rid full Hnd') as H.
    rewrite Ef in H. apply H; [|done]. apply list_elem_of_lookup. exists i. by apply imap_pair_lookup.
  - intros rid [Hn|Hn].
    + pose proof (prune_other top width (imap pair (map snd rows)) (so_scheduled_spec_decode_tokens o, so_num_scheduled_tokens o) rid) as H.
      rewrite Ef, Hsnd, Hrows in H. by apply H.
    + pose proof (prune_none top width (imap pair (map snd rows)) (so_scheduled_spec_decode_tokens o, so_num_scheduled_tokens o) rid Hn) as H.
      rewrite Ef in H. by rewrite Hn.
  - pose proof (prune_keys top width (imap pair (map snd rows)) (so_scheduled_spec_decode_tokens o, so_num_scheduled_tokens o)) as H.
    rewrite Ef in H. apply H. intros [i rid] Hin. simpl. apply (list_elem_of_fmap_2 snd) in Hin.
    change (map snd (imap pair (map snd rows))) with (snd <$> imap pair (map snd rows)) in Hsnd. rewrite Hsnd, Hrows in Hin.
    apply od_lookup_keys. by apply drafted_elem in Hin as [_ ?].
  - done.
Qed.

Lemma zsum_counts (l : list string) (f : nat -> string -> Z) (g : nat -> string -> nat) :
  (forall i x, l !! i = Some x -> f i x = 1 + Z.of_nat (g i x)) ->
  zsum (imap f l) = zlen l + Z.of_nat (sum_list (imap g l)).
Proof.
  revert f g. induction l as [|x l IH]; intros f g H; [done|]. rewrite !imap_cons, zsum_cons, (H 0%nat x eq_refl).
  rewrite (IH (f ∘ S) (g ∘ S)); [|intros i y Hy; by apply (H (S i))]. unfold zlen. simpl. lia.
Qed.

Lemma keep_drafts_sublist top width i full : keep_drafts top width i full `sublist_of` full.
Proof.
  unfold keep_drafts. cbv zeta. set (m := map (echo_mask _ _ _) _). assert (H : map fst (zip full m) `sublist_of` full).
  { clearbody m. revert m. induction full as [|x full IH]; intros [|b m]; simpl; try constructor; [apply sublist_nil_l|apply IH]. }
  etrans; [|exact H]. apply (fmap_sublist fst), sublist_filter.
Qed.

(** C23: what ECHO's pruning does to the output of the scheduler: a request that was
    drafted keeps a subsequence of its scheduled drafts and is scheduled for these
    and one token more; every other request is left as it was; no request is added
    or dropped, and the total is the sum again. *)
Theorem echo_prune_spec k_max width drafts req_ids steps o o' :
  NoDup req_ids -> Forall (fun r => length r = width) drafts -> steps <> [] -> drafted drafts req_ids o <> [] ->
  echo_prune_drafts log_softmax cumsum topk true k_max (mkEchoRunner (DraftTensor width drafts) (Some req_ids) (Some steps)) o = Ok o' ->
  let ids := drafted drafts req_ids o in
  (forall rid full, rid ∈ ids -> od_lookup rid (so_scheduled_spec_decode_tokens o) = Some full ->
    exists kept, kept `sublist_of` full /\ od_lookup rid (so_scheduled_spec_decode_tokens o') = Some kept
      /\ od_lookup rid (so_num_scheduled_tokens o') = Some (zlen kept + 1))
  /\ (forall rid, rid ∉ ids \/ od_lookup rid (so_scheduled_spec_decode_tokens o) = None ->
       od_lookup rid (so_scheduled_spec_decode_tokens o') = od_lookup rid (so_scheduled_spec_decode_tokens o)
       /\ od_lookup rid (so_num_scheduled_tokens o') = od_lookup rid (so_num_scheduled_tokens o))
  /\ od_keys (so_num_scheduled_tokens o') = od_keys (so_num_scheduled_tokens o)
  /\ so_total_num_scheduled_tokens o' = zsum (map snd (so_num_scheduled_tokens o')).
Proof.
  intros Hnd Hw Hs Hd Hrun. destruct (prune_pruned _ _ _ _ _ _ _ Hnd Hw Hs Hd Hrun) as (ds & _ & _ & [_ Hrow Hoth Hk Ht]).
  cbv zeta. split_and!; [|exact Hoth|exact Hk|exact Ht].
  intros rid full [i Hi]%list_elem_of_lookup Hf. destruct (Hrow i rid full Hi Hf) as [H1 H2].
  eexists. split; [apply keep_drafts_sublist|done].
Qed.

(** C24: the budget: when every scheduled request was drafted and has drafts to
    verify, the step computes at most [k_max] tokens, or one for each request when
    there are more requests than that. *)
Theorem echo_within_budget k_max width drafts req_ids steps o o' :
  NoDup req_ids -> Forall (fun r => length r = width) drafts -> steps <> [] -> so_num_scheduled_tokens o <> [] ->
  NoDup (od_keys (so_num_scheduled_tokens o)) ->
  (forall rid, rid ∈ od_keys (so_num_scheduled_tokens o) ->
    rid ∈ take (length drafts) req_ids /\ is_Some (od_lookup rid (so_scheduled_spec_decode_tokens o))) ->
  echo_prune_drafts log_softmax cumsum topk true k_max (mkEchoRunner (DraftTensor width drafts) (Some req_ids) (Some steps)) o = Ok o' ->
  so_total_num_scheduled_tokens o' <= Z.max k_max (zlen (so_num_scheduled_tokens o)).
Proof.
  intros Hnd Hw Hs Hne Hndk Hall Hrun. set (ids := drafted drafts req_ids o).
  assert (Hperm : od_keys (so_num_scheduled_tokens o) ≡ₚ ids).
  { apply NoDup_Permutation; [done|by apply drafted_nodup|]. intros rid. unfold ids. rewrite drafted_elem. split; [|by intros []].
    intros Hin. split; [by apply Hall|done]. }
  assert (Hd : ids <> []).
  { intros E0. rewrite E0 in Hperm. apply Permutation_nil_r in Hperm. unfold od_keys in Hperm. by destruct (so_num_scheduled_tokens o). }
  destruct (prune_pruned _ _ _ _ _ _ _ Hnd Hw Hs Hd Hrun) as (ds & _ & Hlen & [Hsc Hrow _ Hk ->]).
  set (top := echo_top topk k_max ds.2) in *.
  destruct (echo_top_spec fle topk Htopk k_max ds.2) as [Htn Htl]. fold top in Htn, Htl.
  rewrite (od_values _ 0) by (by rewrite Hk). rewrite Hk.
  set (fulls := map (fun rid => default [] (od_lookup rid (so_scheduled_spec_decode_tokens o))) ids).
  assert (Hsum : zsum (map (fun k => default 0 (od_lookup k (so_num_scheduled_tokens o'))) (od_keys (so_num_scheduled_tokens o)))
    = zlen ids + Z.of_nat (sum_list (imap (fun i full => length (keep_drafts top width i full)) fulls))).
  { rewrite Hperm. unfold fulls. rewrite imap_fmap.
    rewrite <-(zsum_counts ids (fun _ k => default 0 (od_lookup k (so_num_scheduled_tokens o')))).
    - f_equal. apply list_eq. intros i. rewrite list_lookup_fmap, list_lookup_imap. by destruct (ids !! i).
    - intros i rid Hi. assert (Hin : rid ∈ ids) by (by eapply list_elem_of_lookup_2). rewrite <-Hperm in Hin.
      destruct (Hall rid Hin) as [_ [full Hf]]. destruct (Hrow i rid full Hi Hf) as [_ ->]. simpl. rewrite Hf. simpl. unfold zlen. lia. }
  rewrite Hsum. pose proof (kept_total top width fulls Htn) as Hkt. rewrite Htl in Hkt. unfold n_select in Hkt. rewrite Hsc in Hkt.
  pose proof (Permutation_length Hperm) as Hl. unfold od_keys in Hl. rewrite length_map in Hl. fold ids in Hkt. unfold zlen. lia.
Qed.

(** The kept drafts are prefixes: when no two cumulative scores of a row tie (or
    grow), the drafts that a request keeps are the first ones of those it was
    scheduled for, so the model verifies each at its own position, whatever [topk]
    does with equal scores of different requests. *)
Theorem echo_keeps_prefix k_max width drafts req_ids steps o o' rid full :
  NoDup req_ids -> Forall (fun r => length r = width) drafts -> steps <> [] ->
  rid ∈ drafted drafts req_ids o -> od_lookup rid (so_scheduled_spec_decode_tokens o) = Some full ->
  (forall ds row t x y, echo_scores log_softmax cumsum width drafts steps (map fst (sched_rows (take (length drafts) req_ids) o)) = Ok ds ->
    row ∈ ds.2 -> row !! t = Some x -> row !! S t = Some y -> ~ fle x y) ->
  echo_prune_drafts log_softmax cumsum topk true k_max (mkEchoRunner (DraftTensor width drafts) (Some req_ids) (Some steps)) o = Ok o' ->
  exists n, od_lookup rid (so_scheduled_spec_decode_tokens o') = Some (take n full).
Proof.
  intros Hnd Hw Hs Hin Hf Hdec Hrun. assert (Hd : drafted drafts req_ids o <> []) by (intros E0; rewrite E0 in Hin; by apply elem_of_nil in Hin).
  destruct (prune_pruned _ _ _ _ _ _ _ Hnd Hw Hs Hd Hrun) as (ds & Hds & Hlen & [Hsc Hrow _ _ _]).
  apply list_elem_of_lookup in Hin as [i Hi]. destruct (Hrow i rid full Hi Hf) as [-> _].
  destruct (lookup_lt_is_Some_2 ds.2 i) as [row Hr]; [rewrite Hsc; by eapply lookup_lt_Some|].
  destruct (keep_drafts_prefix (echo_top topk k_max ds.2) width i full) as [n ->]; [|by exists n].
  eapply echo_top_downward; [exact Htopk|done|exact Hr|]. intros t x y. eapply Hdec; [exact Hds|by eapply list_elem_of_lookup_2].
Qed.
End EchoSpec.

(** ** Samples *)

(** Scores in units of log-probability; the logits are log-probabilities already. *)
Fixpoint running_sum (acc : Z) (l : list Z) : list Z :=
  match l with [] => [] | x :: l' => (acc + x) :: running_sum (acc + x) l' end.

Lemma running_sum_length l : forall acc, length (running_sum acc l) = length l.
Proof. induction l as [|x l IH]; intros acc; simpl; [done|]. by rewrite IH. Qed.

(** The distribution of a draft step that gives the token [tok] the score [lp]. *)
Definition dist (tok lp : Z) : list Z := map (fun v => if Z.of_nat v =? tok then lp else -100) (seq 0 10).

Definition echo_sample := echo_prune_drafts (fun l : list Z => l) (running_sum 0) topk_last true.

Definition spec_output (l : list (string * list Z)) : SchedulerOutput :=
  let tokens := map (fun kv : string * list Z => (kv.1, zlen kv.2 + 1)) l in
  set_so_sched l tokens (zsum (map snd tokens)) scheduler_output_make_empty.

Definition two_drafts : list (list Z) := [[7; 8; 9]; [4; 5; 6]].
Definition two_steps : list (list (list Z)) :=
  [[dist 7 (-1); dist 4 (-2)]; [dist 8 (-1); dist 5 (-5)]; [dist 9 (-4); dist 6 (-1)]].
Definition two_requests : SchedulerOutput := spec_output [("a", [7; 8; 9]); ("b", [4; 5; 6])].
Definition two_runner := mkEchoRunner (DraftTensor 3 two_drafts) (Some ["a"; "b"]) (Some two_steps).
Definition two_pruned : SchedulerOutput := match echo_sample 5 two_runner two_requests with Ok o => o | Err _ => two_requests end.

(** A run with three drafts a step. *)
Definition echo_config : SchedConfig := {|
  cf_policy := FCFS; cf_max_num_running_reqs := 2; cf_max_num_scheduled_tokens := 8;
  cf_max_model_len := 20; cf_block_size := 2; cf_cache_block_size := 2;
  cf_long_prefill_token_threshold := 0; cf_enable_chunked_prefill := true; cf_disable_chunked_mm_input := false;
  cf_max_num_encoder_input_tokens := 4; cf_num_lookahead_tokens := 0; cf_num_spec_tokens := 3;
  cf_use_eagle := false; cf_is_encoder_decoder := false; cf_need_mamba_block_aligned_split := false;
  cf_scheduler_reserve_full_isl := false; cf_needs_kv_cache_zeroing := false; cf_use_pp := false;
  cf_async_scheduling := false; cf_async_class := false; cf_use_v2_model_runner := false; cf_log_stats := false;
  cf_max_loras := None; cf_recompute_kv_load_failures := false |}.

Definition echo_drafted_step : M S0 SchedulerOutput :=
  add echo_config (bare_request "a" [1; 2; 3]) ;;
  o1 ← step echo_config ; update echo_config o1 (model_output [("a", [4])] None) ;;
  update_draft_token_ids no_grammar [("a", [7; 8; 9])] ;;
  step echo_config.

Definition one_runner := mkEchoRunner (DraftTensor 3 [[7; 8; 9]]) (Some ["a"])
  (Some [[dist 7 (-1)]; [dist 8 (-1)]; [dist 9 (-1)]]).

(** The model verifies no draft and samples 5; [prune]: whether the output that the
    scheduler processes is the one that ECHO rewrote. *)
Definition echo_account (prune : bool) : M S0 unit :=
  o ← echo_drafted_step ;
  o' ← lift_res (if prune then echo_sample 1 one_runner o else Ok o) ;
  update echo_config o' (model_output [("a", [5])] None).
Definition counts_of (x : res unit * option S0) : option (Z * Z) :=
  match x with (Ok _, Some s) => (fun r => (num_computed_tokens r, num_tokens r)) <$> s_objs s !! "a" | _ => None end.

(** ** What the code gets wrong *)

(** A draft whose probability rounds to one ties with the draft before it (its
    log-probability is zero), and [topk] may keep the later one: scheduled for the
    drafts 7, 8 with budget for one, the request is left with the draft 8, which the
    model then verifies in the place of 7. *)
Theorem echo_tie_drops_first_draft :
  topk_law Z.le topk_last
  /\ exists o', echo_sample 2 (mkEchoRunner (DraftTensor 2 [[7; 8]]) (Some ["a"]) (Some [[dist 7 0]; [dist 8 0]]))
                  (spec_output [("a", [7; 8])]) = Ok o'
     /\ so_scheduled_spec_decode_tokens o' = [("a", [8])] /\ so_num_scheduled_tokens o' = [("a", 2)].
Proof.
  split; [exact topk_last_law|]. eexists. split; [vm_compute; reflexivity|]. split; reflexivity.
Qed.

(** A request that the drafter did not see keeps all its drafts, outside the
    budget: with [k_max = 5] and two requests the step still computes eight tokens. *)
Theorem echo_undrafted_exceeds_budget :
  exists o', echo_sample 5 (mkEchoRunner (DraftTensor 3 [[7; 8; 9]]) (Some ["a"]) (Some [[dist 7 (-1)]; [dist 8 (-1)]; [dist 9 (-1)]]))
               two_requests = Ok o'
    /\ so_num_scheduled_tokens o' = [("a", 4); ("b", 4)] /\ so_total_num_scheduled_tokens o' = 8.
Proof. eexists. split; [vm_compute; reflexivity|]. split; reflexivity. Qed.

(** ECHO and the scheduler's accounts, in a run: [schedule] has already counted all the
    scheduled drafts as computed, and [update_from_output] takes back the rejected
    ones of the output it is given.  Given the output that ECHO rewrote in place, it
    takes back none of the pruned drafts: a request of five tokens has seven computed
    ones, and the next step schedules it for -2 tokens; with the output as it was
    scheduled the count is right. *)
Theorem echo_pruned_tokens_stay_computed :
  counts_of (run false echo_config 20 (echo_account true)) = Some (7, 5)
  /\ counts_of (run false echo_config 20 (echo_account false)) = Some (4, 5)
  /\ exists o, fst (run false echo_config 20 (echo_account true ;; step echo_config)) = Ok o
       /\ so_num_scheduled_tokens o = [("a", -2)].
Proof. split; [vm_compute; reflexivity|]. split; [vm_compute; reflexivity|]. eexists. split; vm_compute; reflexivity. Qed.

(** Parallel drafting, which gives all the drafts of a step from one run of the
    drafter (so one matrix of logits for several columns of drafts), makes the
    pruning of any drafted batch raise. *)
Theorem echo_parallel_drafting_raises {F} (log_softmax cumsum : list F -> list F) topk k_max width drafts req_ids logits o :
  (1 < width)%nat -> drafted drafts req_ids o <> [] ->
  exists e, echo_prune_drafts log_softmax cumsum topk true k_max
              (mkEchoRunner (DraftTensor width drafts) (Some req_ids) (Some [logits])) o = Err e.
Proof.
  intros Hw Hd. unfold echo_prune_drafts. cbn [negb er_draft_token_ids er_draft_token_req_ids er_echo_logits_list]. cbv zeta.
  unfold drafted in Hd. destruct (sched_rows (take (length drafts) req_ids) o) as [|row rows] eqn:Er; [done|]. clear Hd Er.
  assert (H : exists e, echo_scores log_softmax cumsum width drafts [logits] (map fst (row :: rows)) = Err e).
  { unfold echo_scores. destruct (map_res _ (map fst (row :: rows))) as [ds|e]; [|by exists e]. cbn [mbind res_bind].
    destruct (stack_logits [logits]) as [st|e] eqn:Es; [|by exists e]. cbn [mbind res_bind].
    unfold stack_logits in Es. destruct (forallb _ _); [|done]. injection Es as <-.
    destruct (map_res _ [logits]) as [sel|e] eqn:El; [|by exists e]. cbn [mbind res_bind]. apply map_res_length in El. rewrite El.
    destruct (Nat.ltb_spec (length [logits]) width) as [_|Hge]; [by eexists|]. simpl in Hge. lia. }
  destruct H as [e ->]. by exists e.
Qed.

(** ** The host copy and the batch shapes *)

(** The drafts that come back from the host buffer are those of the drafter,
    each row padded with -1 to the width of the buffer: the padding reaches the
    scheduler. *)
Theorem echo_taken_drafts num_spec width rows req_ids batch_ids cols buf b' :
  num_spec <> 0 -> req_ids <> [] -> length rows = length req_ids ->
  echo_copy_draft_token_ids_to_cpu (DraftTensor width rows) req_ids cols false buf = Ok b' ->
  take_draft_token_ids num_spec (DraftTensor width rows) batch_ids b'
    = Some (map (fun row => row ++ replicate (cols - width) (-1)) rows, req_ids).
Proof.
  intros Hn Hr Hl. unfold echo_copy_draft_token_ids_to_cpu. destruct (_ <? _)%nat; [done|].
  destruct (write_rows _ _ _) as [cpu|] eqn:Ew; cbn [mbind res_bind]; [|done]. intros [= <-].
  unfold take_draft_token_ids, get_draft_token_ids_cpu. simpl. rewrite (proj2 (Z.eqb_neq num_spec 0) Hn).
  destruct req_ids as [|r ids]; [done|]. cbn [orb]. do 2 f_equal. rewrite <-Hl. clear Hl Hr Hn. destruct buf as [buf ?]. simpl in Ew.
  revert buf cpu Ew. induction rows as [|row rows IH]; intros buf cpu Ew; [done|].
  destruct buf as [|b buf]; simpl in Ew; [done|]. destruct (write_rows _ buf rows) as [l|] eqn:El; cbn [mbind res_bind] in Ew; [|done].
  injection Ew as <-. simpl. f_equal. by eapply IH.
Qed.

(** Padding the query offsets: the last offset that the attention gets is the
    padded number of tokens for a mixed batch, and for a batch of requests of the
    uniform length; for others whose padded size happens to be a multiple of the
    uniform length it is not, as for three requests of ten tokens padded to twelve
    (the lengths that pruned drafts produce). *)
Theorem pad_query_start_loc_last full q num_tokens_padded num_reqs desc qsl last_loc n qsl' :
  qsl !! num_reqs = Some last_loc ->
  pad_query_start_loc_for_fia full q num_tokens_padded num_reqs desc qsl = Ok (n, qsl') ->
  (n < length qsl)%nat ->
  let padded := if full then num_reqs else default num_reqs desc in
  qsl' !! n = Some (if num_tokens_padded =? Z.of_nat padded * q then last_loc + Z.of_nat (padded - num_reqs) * q
                    else num_tokens_padded).
Proof.
  intros Hl. unfold pad_query_start_loc_for_fia. cbv zeta. set (padded := if full then num_reqs else _).
  destruct (num_tokens_padded =? Z.of_nat padded * q).
  - destruct (Nat.leb_spec num_reqs padded) as [Hle|]; cbn [negb]; [|done].
    rewrite (py_get_Some _ _ last_loc) by (rewrite ?Nat2Z.id; first [lia|done]). cbn [mbind res_bind]. intros [= <- <-] Hn.
    assert (Hlen : length (take (S num_reqs) qsl) = S num_reqs).
    { apply length_take_le. apply lookup_lt_Some in Hl. lia. }
    destruct (decide (padded = num_reqs)) as [->|Hne].
    + rewrite Nat.sub_diag, lookup_app_l by lia. rewrite lookup_take_lt by lia. rewrite Hl. f_equal. lia.
    + rewrite lookup_app_r by lia. rewrite Hlen, lookup_app_l by (rewrite length_map, length_seq; lia).
      rewrite list_lookup_fmap, (proj2 (lookup_seq _ _ _ (padded - num_reqs)%nat)) by lia. simpl. f_equal. lia.
  - destruct (num_reqs =? padded)%nat; cbn [negb]; [|done].
    destruct (Nat.ltb_spec (S padded) (length qsl)) as [Hlt|]; [|done]. intros [= <- <-] _. unfold py_set. rewrite Nat2Z.id.
    by apply list_lookup_insert_eq.
Qed.

Lemma set_last_replicate (f : Z -> Z) n x :
  set_last f (replicate (S n) x) = Ok (replicate n x ++ [f x]).
Proof. rewrite replicate_S_end. unfold set_last. by rewrite last_snoc, removelast_last. Qed.

Definition dummy_ok (num_tokens max_reqs : Z) (r : res (list Z)) : Prop :=
  exists l, r = Ok l /\ zsum l = num_tokens /\ Forall (fun n => 0 < n) l /\ zlen l <= max_reqs.

Lemma check_dummy_ok num_tokens max_reqs n l :
  zsum l = num_tokens -> zlen l = n -> Forall (fun n => 0 < n) l -> n <= max_reqs ->
  dummy_ok num_tokens max_reqs (check_dummy num_tokens n l).
Proof. intros H1 H2 H3 H4. exists l. unfold check_dummy. rewrite H1, H2, !Z.eqb_refl. split_and!; [done|done|done|lia]. Qed.

(** [k] requests of [a] tokens and one of [b]. *)
Lemma check_dummy_last num_tokens max_reqs k a b :
  0 <= k -> 0 < a -> 0 < b -> k * a + b = num_tokens -> k + 1 <= max_reqs ->
  dummy_ok num_tokens max_reqs (check_dummy num_tokens (k + 1) (replicate (Z.to_nat k) a ++ [b])).
Proof.
  intros Hk Ha Hb Hs Hm. apply check_dummy_ok; [| | |lia].
  - rewrite zsum_app, zsum_replicate, Z2Nat.id by lia. unfold zsum. simpl. lia.
  - unfold zlen. rewrite length_app, length_replicate. simpl. lia.
  - apply Forall_app. split; [by apply Forall_replicate|by apply Forall_singleton].
Qed.

(** Dummy batches: the assertions of [_dummy_run] hold for every batch that fits: the
    dummy requests have all the tokens, each has some, and there are no more than
    [max_num_seqs], with ECHO one. *)
Theorem dummy_batch_covers uniform cpp echo num_tokens max_batched max_reqs q :
  0 < num_tokens <= max_batched -> 0 < max_reqs -> 0 < q -> (uniform = true -> num_tokens <= max_reqs * q) ->
  dummy_ok num_tokens max_reqs (dummy_scheduled_tokens false uniform cpp echo num_tokens max_batched max_reqs q).
Proof.
  intros Hn Hm Hq Hu. unfold dummy_scheduled_tokens. cbv zeta. rewrite (proj2 (Z.leb_le _ _)) by lia. cbn [negb].
  assert (Hone : dummy_ok num_tokens max_reqs (check_dummy num_tokens 1 [num_tokens]))
    by (apply (check_dummy_last _ _ 0 num_tokens); lia).
  assert (Hlast : forall k (f : Z -> Z) a, 0 <= k -> set_last f (zreplicate (k + 1) a) = Ok (replicate (Z.to_nat k) a ++ [f a])).
  { intros k f a Hk. unfold zreplicate. replace (Z.to_nat (k + 1)) with (S (Z.to_nat k)) by lia. apply set_last_replicate. }
  destruct uniform.
  - specialize (Hu eq_refl). rewrite (proj2 (Z.eqb_neq q 0)) by lia.
    pose proof (cdiv_bounds num_tokens q Hq) as Hb. pose proof (Z.div_mod num_tokens q ltac:(lia)) as Hdm.
    pose proof (Z.mod_pos_bound num_tokens q Hq) as Hmod. rewrite Z.min_r by nia.
    destruct (Z.eqb_spec (num_tokens mod q) 0) as [E0|E0]; cbn [negb mbind res_bind fst snd].
    + assert (Hc : cdiv num_tokens q = num_tokens / q) by nia. rewrite Hc. assert (0 < num_tokens / q) by nia. unfold zreplicate.
      apply check_dummy_ok; [rewrite zsum_replicate, Z2Nat.id; nia|unfold zlen; rewrite length_replicate; lia|by apply Forall_replicate|nia].
    + assert (Hc : cdiv num_tokens q = num_tokens / q + 1) by nia. rewrite Hc.
      assert (0 <= num_tokens / q) by (apply Z.div_pos; lia). rewrite Hlast by done. cbn [mbind res_bind fst snd].
      apply check_dummy_last; nia.
  - destruct cpp; [exact Hone|]. rewrite andb_true_r. destruct echo; [exact Hone|].
    set (n := Z.min num_tokens max_reqs). assert (Hn0 : 0 < n <= num_tokens) by lia. rewrite (proj2 (Z.eqb_neq n 0)) by lia.
    pose proof (Z.div_mod num_tokens n ltac:(lia)) as Hdm. pose proof (Z.mod_pos_bound num_tokens n ltac:(lia)) as Hmod.
    assert (0 < num_tokens / n) by (apply Z.div_str_pos; lia).
    pose proof (Hlast (n - 1) (fun n0 => n0 + num_tokens mod n) (num_tokens / n) ltac:(lia)) as Hl.
    pose proof (check_dummy_last num_tokens max_reqs (n - 1) (num_tokens / n) (num_tokens / n + num_tokens mod n)
      ltac:(lia) ltac:(lia) ltac:(lia) ltac:(nia) ltac:(lia)) as Hc.
    rewrite Z.sub_add in Hl, Hc. rewrite Hl. exact Hc.
Qed.

(** ** Witnesses *)

Lemma two_drafted : drafted two_drafts ["a"; "b"] two_requests = ["a"; "b"].
Proof. vm_compute. reflexivity. Qed.
Lemma two_ids : NoDup ["a"; "b"].
Proof. apply (bool_decide_unpack _). vm_compute. exact I. Qed.
Lemma two_width : Forall (fun r : list Z => length r = 3%nat) two_drafts.
Proof. repeat constructor. Qed.
Lemma two_ok : echo_sample 5 two_runner two_requests = Ok two_pruned.
Proof. vm_compute. reflexivity. Qed.

Lemma echo_prune_spec_witness :
  od_lookup "a" (so_scheduled_spec_decode_tokens two_pruned) = Some [7; 8]
  /\ od_keys (so_num_scheduled_tokens two_pruned) = ["a"; "b"].
Proof.
  split; [vm_compute; reflexivity|].
  refine (proj1 (proj2 (proj2 (echo_prune_spec (fun l => l) (running_sum 0) topk_last (fun l => running_sum_length l 0)
    5 3 two_drafts ["a"; "b"] two_steps two_requests two_pruned two_ids two_width _ _ two_ok)))).
  - discriminate.
  - rewrite two_drafted. discriminate.
Defined.

Lemma echo_within_budget_witness : so_total_num_scheduled_tokens two_pruned <= Z.max 5 2.
Proof.
  apply (echo_within_budget (fun l => l) (running_sum 0) topk_last Z.le topk_last_law (fun l => running_sum_length l 0)
    5 3 two_drafts ["a"; "b"] two_steps two_requests two_pruned two_ids two_width); try discriminate.
  - exact two_ids.
  - intros rid Hin. split; [exact Hin|]. apply elem_of_cons in Hin as [->|Hin]; [by eexists|].
    apply list_elem_of_singleton in Hin as ->. by eexists.
  - exact two_ok.
Defined.

Lemma echo_keeps_prefix_witness : exists n, od_lookup "a" (so_scheduled_spec_decode_tokens two_pruned) = Some (take n [7; 8; 9]).
Proof.
  apply (echo_keeps_prefix (fun l => l) (running_sum 0) topk_last Z.le topk_last_law (fun l => running_sum_length l 0)
    5 3 two_drafts ["a"; "b"] two_steps two_requests two_pruned "a" [7; 8; 9] two_ids two_width); try discriminate.
  - rewrite two_drafted. left.
  - reflexivity.
  - intros ds row t x y Hds Hin Hx Hy. vm_compute in Hds. injection Hds as <-. simpl in Hin.
    apply elem_of_cons in Hin as [->|Hin]; [|apply list_elem_of_singleton in Hin as ->];
      (destruct t as [|[|[|t]]]; simpl in Hx, Hy; simplify_eq; lia).
  - exact two_ok.
Defined.

Lemma echo_parallel_drafting_raises_witness :
  exists e, echo_sample 5 (mkEchoRunner (DraftTensor 3 two_drafts) (Some ["a"; "b"]) (Some [[dist 7 (-1); dist 8 (-2)]])) two_requests = Err e.
Proof.
  apply (echo_parallel_drafting_raises (fun l => l) (running_sum 0) topk_last 5 3 two_drafts ["a"; "b"] _ two_requests).
  - lia.
  - rewrite two_drafted. discriminate.
Defined.

Lemma echo_taken_drafts_witness :
  take_draft_token_ids 3 (DraftTensor 2 [[7; 8]]) ["a"] (mkDraftBuffer [[7; 8; -1]; [0; 0; 0]] (Some ["a"])) = Some ([[7; 8; -1]], ["a"]).
Proof.
  apply (echo_taken_drafts 3 2 [[7; 8]] ["a"] ["a"] 3 (mkDraftBuffer [[1; 2; 3]; [0; 0; 0]] None)); try discriminate; reflexivity.
Defined.

(** Three requests of 4, 4 and 2 tokens, with three drafts a request at most. *)
Lemma pad_query_start_loc_last_witness :
  exists n qsl', pad_query_start_loc_for_fia false 4 12 3 None [0; 4; 8; 10; 0; 0] = Ok (n, qsl') /\ qsl' !! n = Some 10.
Proof.
  exists 3%nat, [0; 4; 8; 10; 0; 0]. split; [vm_compute; reflexivity|].
  apply (pad_query_start_loc_last false 4 12 3 None [0; 4; 8; 10; 0; 0] 10 3 [0; 4; 8; 10; 0; 0]);
    [reflexivity|vm_compute; reflexivity|simpl; lia].
Defined.
