(* ===== verification/PyFloat.v ===== *)
(** Python numbers where the code mixes [int] and [float]: binary64 arithmetic is
    [SpecFloat]'s, an [int] that meets a [float] is converted, and comparisons
    between the two are exact.  The lemmas bound a rounded difference, which is
    what the adaptive target of the ARC cache policy needs. *)
From S2P Require Import Prelude.
From Stdlib Require Import SpecFloat.
Local Open Scope Z_scope.

(** ** Numbers and operations *)

Inductive PyNum :=
  | PInt (z : Z)
  | PFloat (f : spec_float).

(** [float(z)] and [a / b] on integers: correctly rounded; beyond the largest
    float they raise. *)
Definition check_overflow (f : spec_float) : res spec_float :=
  match f with S754_infinity _ => Err OverflowError | _ => Ok f end.
Definition py_float (z : Z) : res spec_float := check_overflow (binary_normalize 53 1024 z 0 false).
Definition py_truediv (a b : Z) : res spec_float :=
  if b =? 0 then Err ZeroDivisionError
  else if a =? 0 then Ok (S754_zero (b <? 0))
  else let '(m, e, l) := SFdiv_core_binary 53 1024 (Z.abs a) 0 (Z.abs b) 0 in
       check_overflow (binary_round_aux 53 1024 (xorb (a <? 0) (b <? 0)) m e l).

Definition to_float (a : PyNum) : res spec_float :=
  match a with PInt z => py_float z | PFloat f => Ok f end.

Definition py_add (a b : PyNum) : res PyNum :=
  match a, b with
  | PInt x, PInt y => Ok (PInt (x + y))
  | _, _ => x ← to_float a ; y ← to_float b ; Ok (PFloat (SFadd 53 1024 x y))
  end.
Definition py_sub (a b : PyNum) : res PyNum :=
  match a, b with
  | PInt x, PInt y => Ok (PInt (x - y))
  | _, _ => x ← to_float a ; y ← to_float b ; Ok (PFloat (SFsub 53 1024 x y))
  end.

(** A float against an integer: exact, [None] for NaN. *)
Definition compare_float_int (f : spec_float) (z : Z) : option comparison :=
  match f with
  | S754_nan => None
  | S754_infinity s => Some (if s then Lt else Gt)
  | S754_zero _ => Some (0 ?= z)
  | S754_finite s m e =>
      let v := cond_Zopp s (Zpos m) in
      Some (if 0 <=? e then v * 2 ^ e ?= z else v ?= z * 2 ^ (- e))
  end.
Definition py_compare (a b : PyNum) : option comparison :=
  match a, b with
  | PInt x, PInt y => Some (x ?= y)
  | PFloat f, PInt z => compare_float_int f z
  | PInt z, PFloat f => CompOpp <$> compare_float_int f z
  | PFloat f, PFloat g => SFcompare f g
  end.
Definition py_lt (a b : PyNum) : bool := match py_compare a b with Some Lt => true | _ => false end.

(** [min(a, b)] and [max(a, b)]: the first argument unless the second is strictly better. *)
Definition py_min (a b : PyNum) : PyNum := if py_lt b a then b else a.
Definition py_max (a b : PyNum) : PyNum := if py_lt a b then b else a.

(** [int(a)]: truncation. *)
Definition py_int (a : PyNum) : res Z :=
  match a with
  | PInt z => Ok z
  | PFloat S754_nan => Err ValueError
  | PFloat (S754_infinity _) => Err OverflowError
  | PFloat (S754_zero _) => Ok 0
  | PFloat (S754_finite s m e) =>
      let v := if 0 <=? e then Zpos m * 2 ^ e else Zpos m / 2 ^ (- e) in
      Ok (cond_Zopp s v)
  end.

(** [max(1, 5 / 3)], [min(1.666.. + 1, 2)] and the truncation of the rounded sum of 0.1 and 0.2 tenths. *)
Example py_float_ex :
  match py_truediv 5 3 with
  | Ok q => py_int (py_max (PInt 1) (PFloat q)) = Ok 1
            /\ (s ← py_add (PFloat q) (PInt 1) ; py_int (py_min s (PInt 2))) = Ok 2
  | Err _ => False
  end.
Proof. vm_compute. done. Qed.

(** ** Rounding *)

(** Nonnegative floats with a 53-bit mantissa, and their value in units of 2^-1074. *)
Definition f_nonneg (f : spec_float) : Prop :=
  match f with
  | S754_zero _ => True
  | S754_finite s m e => s = false /\ Zpos m < 2 ^ 53 /\ -1074 <= e <= 971
  | _ => False
  end.
Definition f_units (f : spec_float) : Z :=
  match f with S754_finite _ m e => Zpos m * 2 ^ (e + 1074) | _ => 0 end.

Lemma digits2_spec m : 2 ^ (Zpos (digits2_pos m) - 1) <= Zpos m < 2 ^ Zpos (digits2_pos m).
Proof.
  induction m as [m IH|m IH|]; simpl digits2_pos; [| |done];
    rewrite Pos2Z.inj_succ; replace (Z.succ (Zpos (digits2_pos m)) - 1) with (Zpos (digits2_pos m) - 1 + 1) by lia;
    rewrite Z.pow_succ_r, Z.pow_add_r by lia; lia.
Qed.

Lemma Zdigits2_le m k : 0 <= m < 2 ^ k -> 0 <= k -> Zdigits2 m <= k.
Proof.
  intros Hm Hk. destruct m as [|m|m]; simpl; [lia| |lia]. pose proof (digits2_spec m) as [H _].
  destruct (decide (Zpos (digits2_pos m) <= k)) as [|Hn]; [done|].
  assert (2 ^ k <= 2 ^ (Zpos (digits2_pos m) - 1)) by (apply Z.pow_le_mono_r; lia). lia.
Qed.

Lemma Zdigits2_lt m : 0 <= m -> m < 2 ^ Zdigits2 m.
Proof. intros Hm. destruct m as [|m|m]; simpl; [done| |lia]. apply digits2_spec. Qed.

Lemma Zdigits2_nonneg m : 0 <= Zdigits2 m.
Proof. destruct m; simpl; lia. Qed.

Definition inexact (r : shr_record) : bool := shr_r r || shr_s r.

Lemma shr_1_spec r : 0 <= shr_m r ->
  shr_m (shr_1 r) = shr_m r / 2 /\ (inexact (shr_1 r) = true -> inexact r = true \/ shr_m r mod 2 <> 0).
Proof.
  destruct r as [m b s]. unfold inexact; simpl. intros Hm. destruct m as [|[p|p|]|p]; simpl; try lia.
  - split; [done|]. by left.
  - split; [|intros _; right; rewrite Zmod_odd; done]. apply (Z.div_unique _ _ _ 1); lia.
  - split; [|by left]. apply (Z.div_unique _ _ _ 0); lia.
  - split; [done|]. intros _. by right.
Qed.

Lemma iter_pos_nat {A} (f : A -> A) p x : SpecFloat.iter_pos f p x = Nat.iter (Pos.to_nat p) f x.
Proof.
  revert x. induction p as [p IH|p IH|]; intros x; simpl SpecFloat.iter_pos.
  - rewrite !IH, Pos2Nat.inj_xI. rewrite Nat.iter_succ_r. replace (2 * Pos.to_nat p)%nat with (Pos.to_nat p + Pos.to_nat p)%nat by lia.
    by rewrite Nat.iter_add.
  - rewrite !IH, Pos2Nat.inj_xO. replace (2 * Pos.to_nat p)%nat with (Pos.to_nat p + Pos.to_nat p)%nat by lia.
    by rewrite Nat.iter_add.
  - done.
Qed.

(** Shifting right [n] times divides by [2 ^ n]; exactly, unless the record says so. *)
Lemma shr_iter_spec n r : 0 <= shr_m r ->
  let r' := Nat.iter n shr_1 r in
  shr_m r' = shr_m r / 2 ^ Z.of_nat n /\ (inexact r' = true -> inexact r = true \/ shr_m r' * 2 ^ Z.of_nat n < shr_m r).
Proof.
  intros Hm. induction n as [|n IH]; simpl.
  - rewrite Z.div_1_r. split; [done|]. by left.
  - simpl in IH. destruct IH as [IH1 IH2]. set (r1 := Nat.iter n shr_1 r) in *.
    assert (H0 : 0 <= shr_m r1) by (rewrite IH1; apply Z.div_pos; lia).
    destruct (shr_1_spec r1 H0) as [H1 H2]. rewrite Nat2Z.inj_succ, Z.pow_succ_r by lia.
    assert (Hp : 0 < 2 ^ Z.of_nat n) by lia. split.
    + rewrite H1, IH1, Z.div_div by lia. f_equal. lia.
    + intros Hi. rewrite H1. pose proof (Z.div_mod (shr_m r1) 2 ltac:(lia)) as Hdm.
      assert (Hle : shr_m r1 * 2 ^ Z.of_nat n <= shr_m r).
      { rewrite IH1. pose proof (Z.mul_div_le (shr_m r) (2 ^ Z.of_nat n) Hp). lia. }
      pose proof (Z.mod_pos_bound (shr_m r1) 2 ltac:(lia)).
      destruct (H2 Hi) as [H3|H3]; [destruct (IH2 H3); [by left|right; nia]|right; nia].
Qed.

(** [shr_fexp]: the mantissa and exponent that are kept. *)
Lemma shr_fexp_spec m e l : 0 <= m ->
  let '(r, e') := shr_fexp 53 1024 m e l in
  exists n, 0 <= n /\ e' = e + n /\ (e' = e \/ e' = Z.max (Zdigits2 m + e - 53) (-1074)) /\ Z.max (Zdigits2 m + e - 53) (-1074) <= e'
    /\ shr_m r = m / 2 ^ n /\ (l = loc_Exact -> loc_of_shr_record r <> loc_Exact -> shr_m r * 2 ^ n < m).
Proof.
  intros Hm. unfold shr_fexp, shr. change (fexp 53 1024 (Zdigits2 m + e)) with (Z.max (Zdigits2 m + e - 53) (-1074)).
  set (k := Z.max (Zdigits2 m + e - 53) (-1074)).
  assert (Hr : shr_m (shr_record_of_loc m l) = m) by (destruct l as [|[]]; done).
  assert (Hx : l = loc_Exact -> inexact (shr_record_of_loc m l) = false) by (by intros ->).
  assert (Hloc : forall r, loc_of_shr_record r <> loc_Exact -> inexact r = true) by (intros [? [] []]; done).
  destruct (k - e) as [|p|p] eqn:Hk.
  - exists 0. rewrite Z.div_1_r, Hr. split_and!; try lia; try done. intros Hl Hn%Hloc. rewrite Hx in Hn; done.
  - exists (Zpos p). rewrite iter_pos_nat. pose proof (shr_iter_spec (Pos.to_nat p) (shr_record_of_loc m l)) as Hs.
    rewrite Hr, positive_nat_Z in Hs. specialize (Hs Hm) as [Hs1 Hs2]. split_and!; try lia; try done.
    intros Hl Hn%Hloc. destruct (Hs2 Hn) as [H1|]; [|done]. rewrite Hx in H1; done.
  - exists 0. rewrite Z.div_1_r, Hr. split_and!; try lia; try done. intros Hl Hn%Hloc. rewrite Hx in Hn; done.
Qed.

(** Rounding a nonnegative number gives a nonnegative float, or infinity. *)
Lemma round_nonneg m e l : 0 < m -> -1074 <= e ->
  let f := binary_round_aux 53 1024 false m e l in f_nonneg f \/ f = S754_infinity false.
Proof.
  intros Hm He. unfold binary_round_aux. pose proof (shr_fexp_spec m e l ltac:(lia)) as H1.
  destruct (shr_fexp 53 1024 m e l) as [r1 e1]. destruct H1 as (n1 & Hn1 & He1 & _ & _ & Hr1 & _).
  set (x := round_nearest_even (shr_m r1) (loc_of_shr_record r1)).
  assert (Hx : 0 <= x).
  { assert (0 <= shr_m r1) by (rewrite Hr1; apply Z.div_pos; lia).
    subst x. unfold round_nearest_even. destruct (loc_of_shr_record r1) as [|[]]; try lia. destruct (Z.even _); lia. }
  pose proof (shr_fexp_spec x e1 loc_Exact Hx) as H2. destruct (shr_fexp 53 1024 x e1 loc_Exact) as [r2 e2].
  destruct H2 as (n2 & Hn2 & He2 & _ & Hb & Hr2 & _).
  assert (H0 : 0 <= shr_m r2) by (rewrite Hr2; apply Z.div_pos; lia).
  destruct (shr_m r2) as [|p|p] eqn:Hp; [by left| |lia]. destruct (e2 <=? 1024 - 53) eqn:He2'; [|by right].
  left. split; [done|]. split; [|lia]. rewrite Hr2. apply Z.div_lt_upper_bound; [lia|]. rewrite <-Z.pow_add_r by lia.
  eapply Z.lt_le_trans; [by apply Zdigits2_lt|]. apply Z.pow_le_mono_r; lia.
Qed.

(** Rounding does not exceed a representable upper bound. *)
Lemma round_le m e M E : 0 < m -> -1074 <= e <= E -> E <= 971 -> 0 <= M < 2 ^ 53 -> m <= M * 2 ^ (E - e) ->
  let f := binary_round_aux 53 1024 false m e loc_Exact in f_nonneg f /\ f_units f <= M * 2 ^ (E + 1074).
Proof.
  intros Hm He HE HM Hle f. assert (Hf : f_nonneg f \/ f = S754_infinity false) by (apply round_nonneg; lia).
  revert Hf. subst f. unfold binary_round_aux.
  assert (Hdig : forall x e0, 0 <= x -> e0 <= E -> x <= M * 2 ^ (E - e0) -> Zdigits2 x + e0 - 53 <= E).
  { intros x e0 Hx He0 Hx'. assert (Zdigits2 x <= 53 + (E - e0)); [|lia]. apply Zdigits2_le; [|lia].
    rewrite Z.pow_add_r by lia. split; [done|]. eapply Z.le_lt_trans; [exact Hx'|]. apply Z.mul_lt_mono_pos_r; lia. }
  pose proof (shr_fexp_spec m e loc_Exact ltac:(lia)) as H1.
  destruct (shr_fexp 53 1024 m e loc_Exact) as [r1 e1]. destruct H1 as (n1 & Hn1 & He1 & Hc1 & _ & Hr1 & Hx1).
  assert (HE1 : e1 <= E). { pose proof (Hdig m e ltac:(lia) ltac:(lia) Hle). lia. }
  set (x := round_nearest_even (shr_m r1) (loc_of_shr_record r1)).
  assert (Hmx : m <= M * 2 ^ (E - e1) * 2 ^ n1).
  { rewrite <-Z.mul_assoc, <-Z.pow_add_r by lia. by replace (E - e1 + n1) with (E - e) by lia. }
  assert (Hr1' : 0 <= shr_m r1 <= M * 2 ^ (E - e1)).
  { rewrite Hr1. split; [apply Z.div_pos; lia|]. apply Z.div_le_upper_bound; lia. }
  assert (Hx : 0 <= x <= M * 2 ^ (E - e1)).
  { assert (x = shr_m r1 \/ x = shr_m r1 + 1 /\ loc_of_shr_record r1 <> loc_Exact) as [->|[-> Hi]]; [|done|].
    - subst x. unfold round_nearest_even. destruct (loc_of_shr_record r1) as [|[]]; try (by left); try (by right).
      destruct (Z.even _); [by left|by right].
    - specialize (Hx1 eq_refl Hi). assert (shr_m r1 * 2 ^ n1 < M * 2 ^ (E - e1) * 2 ^ n1) as Hlt by lia.
      apply Z.mul_lt_mono_pos_r in Hlt; lia. }
  pose proof (shr_fexp_spec x e1 loc_Exact ltac:(lia)) as H2. destruct (shr_fexp 53 1024 x e1 loc_Exact) as [r2 e2].
  destruct H2 as (n2 & Hn2 & He2 & Hc2 & _ & Hr2 & _).
  assert (HE2 : e2 <= E). { pose proof (Hdig x e1 ltac:(lia) ltac:(lia) ltac:(lia)). lia. }
  replace (e2 <=? 1024 - 53) with true by lia.
  intros [Hf|Hf]; [|by destruct (shr_m r2)]. split; [done|].
  assert (Hb : shr_m r2 * 2 ^ (e2 + 1074) <= M * 2 ^ (E + 1074)).
  { replace (E + 1074) with ((E - e1) + (e1 + 1074)) by lia. replace (e2 + 1074) with (n2 + (e1 + 1074)) by lia.
    rewrite !(Z.pow_add_r 2 _ (e1 + 1074)), !Z.mul_assoc by lia. apply Z.mul_le_mono_nonneg_r; [lia|].
    rewrite Hr2. pose proof (Z.mul_div_le x (2 ^ n2) ltac:(lia)). lia. }
  destruct (shr_m r2) as [|p|p]; simpl in *; lia.
Qed.

(** ** Sums and differences of nonnegative numbers *)

Lemma shl_align_spec m e e' : e' <= e -> fst (shl_align m e e') = Z.to_pos (Zpos m * 2 ^ (e - e')) /\ snd (shl_align m e e') = e'.
Proof.
  intros He. unfold shl_align. destruct (e' - e) as [|d|d] eqn:Hd.
  - replace (e - e') with 0 by lia. rewrite Z.mul_1_r. simpl. split; [done|lia].
  - lia.
  - replace (e - e') with (Zpos d) by lia. split; [|done]. simpl fst. apply Pos2Z.inj. rewrite Z2Pos.id by lia.
    rewrite <-Z.shiftl_mul_pow2 by lia. simpl. apply Pos.iter_swap_gen. done.
Qed.

Lemma binary_round_pos m e : -1074 <= e ->
  exists m' e', (forall s, binary_round 53 1024 s m e = binary_round_aux 53 1024 s m' e' loc_Exact)
    /\ 0 < m' /\ -1074 <= e' <= e /\ m' = Zpos m * 2 ^ (e - e').
Proof.
  intros He. unfold binary_round.
  set (k := fexp 53 1024 (Zpos (digits2_pos m) + e)). unfold shl_align. destruct (k - e) as [|d|d] eqn:Hd.
  1,2: (eexists _, e; split; [done|]; rewrite Z.sub_diag; lia).
  assert (Hk : k <= e) by lia. pose proof (shl_align_spec m e k Hk) as [H1 H2]. unfold shl_align in H1, H2. rewrite Hd in H1, H2.
  simpl in H1. rewrite H1. assert (-1074 <= k) by (subst k; unfold fexp, emin; lia).
  assert (0 < Zpos m * 2 ^ (e - k)) by lia.
  exists (Zpos m * 2 ^ (e - k)), k. rewrite Z2Pos.id by done. split_and!; try done; lia.
Qed.

Lemma binary_normalize_pos m e b : 0 < m -> -1074 <= e ->
  exists m' e', binary_normalize 53 1024 m e b = binary_round_aux 53 1024 false m' e' loc_Exact
    /\ binary_normalize 53 1024 (- m) e b = binary_round_aux 53 1024 true m' e' loc_Exact
    /\ 0 < m' /\ -1074 <= e' <= e /\ m' = m * 2 ^ (e - e').
Proof.
  intros Hm He. destruct m as [|m|m]; [lia| |lia]. destruct (binary_round_pos m e He) as (m' & e' & Heq & Hr).
  exists m', e'. simpl. by rewrite !Heq.
Qed.

(** No overflow below 2^900. *)
Lemma round_finite m e l : 0 < m -> -1074 <= e <= 900 -> m < 2 ^ (900 - e) -> f_nonneg (binary_round_aux 53 1024 false m e l).
Proof.
  intros Hm He Hlt. assert (Hf : let f := binary_round_aux 53 1024 false m e l in f_nonneg f \/ f = S754_infinity false) by (apply round_nonneg; lia).
  revert Hf. unfold binary_round_aux. pose proof (shr_fexp_spec m e l ltac:(lia)) as H1.
  destruct (shr_fexp 53 1024 m e l) as [r1 e1]. destruct H1 as (n1 & Hn1 & He1 & Hc1 & _ & Hr1 & _).
  pose proof (Zdigits2_le m (900 - e) ltac:(lia) ltac:(lia)) as Hd1.
  set (x := round_nearest_even (shr_m r1) (loc_of_shr_record r1)).
  assert (Hr : 0 <= shr_m r1 < 2 ^ (900 - e1)).
  { rewrite Hr1. split; [apply Z.div_pos; lia|]. apply Z.div_lt_upper_bound; [lia|]. rewrite <-Z.pow_add_r by lia.
    by replace (n1 + (900 - e1)) with (900 - e) by lia. }
  assert (Hx : 0 <= x < 2 ^ (901 - e1)).
  { assert (2 ^ (901 - e1) = 2 * 2 ^ (900 - e1)) as -> by (rewrite <-Z.pow_succ_r by lia; f_equal; lia).
    subst x. unfold round_nearest_even. destruct (loc_of_shr_record r1) as [|[]]; try lia. destruct (Z.even _); lia. }
  pose proof (shr_fexp_spec x e1 loc_Exact ltac:(lia)) as H2. destruct (shr_fexp 53 1024 x e1 loc_Exact) as [r2 e2].
  destruct H2 as (n2 & Hn2 & He2 & Hc2 & _ & Hr2 & _).
  pose proof (Zdigits2_le x (901 - e1) ltac:(lia) ltac:(lia)) as Hd2.
  replace (e2 <=? 1024 - 53) with true by lia. intros [Hf|Hf]; [done|]. by destruct (shr_m r2).
Qed.

Definition num_ok (a : PyNum) : Prop := match a with PInt z => 0 <= z < 2 ^ 53 | PFloat f => f_nonneg f end.
Definition num_units (a : PyNum) : Z := match a with PInt z => z * 2 ^ 1074 | PFloat f => f_units f end.

Lemma py_float_ok z : 0 <= z < 2 ^ 53 -> exists f, py_float z = Ok f /\ f_nonneg f /\ f_units f <= z * 2 ^ 1074.
Proof.
  intros Hz. unfold py_float. destruct (decide (z = 0)) as [->|Hne].
  { eexists. split; [reflexivity|]. split; [done|]. simpl. lia. }
  destruct (binary_normalize_pos z 0 false) as (m' & e' & -> & _ & Hm' & He' & Hmz); [lia..|].
  destruct (round_le m' e' z 0) as [H1 H2]; [lia..|].
  destruct (binary_round_aux _ _ _ _ _ _) eqn:Hf; try done; eexists; (split; [reflexivity|]); split; done.
Qed.

Lemma to_float_ok a : num_ok a -> exists f, to_float a = Ok f /\ f_nonneg f /\ f_units f <= num_units a.
Proof. destruct a as [z|f]; [apply py_float_ok|]. intros Hf. exists f. split; [done|]. split; [done|]. simpl. lia. Qed.

Lemma py_truediv_ok a b : 0 <= a < 2 ^ 53 -> 0 < b < 2 ^ 53 -> exists f, py_truediv a b = Ok f /\ f_nonneg f.
Proof.
  intros Ha Hb. unfold py_truediv. replace (b =? 0) with false by lia.
  destruct (decide (a = 0)) as [->|Hne]; [eexists; split; [reflexivity|done]|].
  replace (a =? 0) with false by lia. replace (xorb (a <? 0) (b <? 0)) with false by (replace (a <? 0) with false by lia; replace (b <? 0) with false by lia; done).
  rewrite !Z.abs_eq by lia. unfold SFdiv_core_binary, fexp, emin.
  pose proof (Zdigits2_le a 53 ltac:(lia) ltac:(lia)). pose proof (Zdigits2_le b 53 ltac:(lia) ltac:(lia)).
  pose proof (Zdigits2_nonneg a). assert (0 < Zdigits2 b) by (destruct b; simpl; lia).
  set (e' := Z.min _ _). assert (He' : -1074 <= e' <= -1) by lia.
  assert (Hs : 0 - 0 - e' = - e') by lia. rewrite Hs. destruct (- e') as [|p|p] eqn:Hp; [lia| |lia].
  pose proof (Z_div_mod (Z.shiftl a (Zpos p)) b ltac:(lia)) as Hdm.
  destruct (Z.div_eucl (Z.shiftl a (Zpos p)) b) as [q r]. destruct Hdm as [Hq Hr].
  rewrite Z.shiftl_mul_pow2 in Hq by lia.
  assert (Hdb : b < 2 ^ Zdigits2 b) by (apply Zdigits2_lt; lia).
  assert (Hda : 2 ^ (Zdigits2 a - 1) <= a) by (destruct a as [|a|a]; [lia|apply digits2_spec|lia]).
  assert (Hp' : Zpos p = Zdigits2 b + 53 - Zdigits2 a) by (destruct b; simpl in *; lia).
  assert (Hbig : b <= a * 2 ^ Zpos p).
  { assert (2 ^ (Zdigits2 a - 1) * 2 ^ Zpos p <= a * 2 ^ Zpos p) as Hle by (apply Z.mul_le_mono_nonneg_r; lia).
    destruct (decide (Zdigits2 a = 0)) as [E|E]; [destruct a; simpl in E; lia|].
    rewrite <-Z.pow_add_r in Hle by lia. replace (Zdigits2 a - 1 + Zpos p) with (Zdigits2 b + 52) in Hle by lia.
    rewrite Z.pow_add_r in Hle by lia. lia. }
  assert (Hq0 : 0 < q) by nia.
  assert (Hqlt : q < 2 ^ (900 - e')).
  { assert (q <= a * 2 ^ Zpos p) as Hqa by nia. eapply Z.le_lt_trans; [exact Hqa|].
    apply Z.lt_le_trans with (2 ^ 53 * 2 ^ Zpos p); [apply Z.mul_lt_mono_pos_r; lia|].
    rewrite <-Z.pow_add_r by lia. apply Z.pow_le_mono_r; lia. }
  pose proof (round_finite q e' (new_location b r) Hq0 ltac:(lia) Hqlt) as Hf.
  destruct (binary_round_aux _ _ _ _ _ _); try done; eexists; (split; [reflexivity|done]).
Qed.

(** Comparisons with an integer are exact. *)
Lemma compare_float_int_ok f z : f_nonneg f -> compare_float_int f z = Some (f_units f ?= z * 2 ^ 1074).
Proof.
  assert (Hs : forall a b, (a * 2 ^ 1074 ?= b * 2 ^ 1074) = (a ?= b)) by (intros; symmetry; apply Zmult_compare_compat_r; lia).
  destruct f as [s|s| |s m e]; try done.
  - intros _. unfold compare_float_int. f_equal. symmetry. exact (Hs 0 z).
  - intros (-> & Hm & He). unfold compare_float_int, cond_Zopp, f_units. f_equal. destruct (0 <=? e) eqn:H0.
    + rewrite Z.pow_add_r, Z.mul_assoc by lia. symmetry. apply Hs.
    + replace (2 ^ 1074) with (2 ^ (- e) * 2 ^ (e + 1074)) by (rewrite <-Z.pow_add_r by lia; f_equal; lia).
      rewrite Z.mul_assoc. apply Zmult_compare_compat_r. lia.
Qed.

Lemma py_int_ok a c : num_ok a -> num_units a <= c * 2 ^ 1074 -> exists z, py_int a = Ok z /\ 0 <= z <= c.
Proof.
  destruct a as [z|f]; simpl.
  - intros Hz Hle. exists z. split; [done|]. split; [lia|]. apply (Z.mul_le_mono_pos_r _ _ (2 ^ 1074)); lia.
  - destruct f as [s|s| |s m e]; try done; simpl.
    + intros _ Hle. exists 0. split; [done|]. split; [done|]. apply (Z.mul_le_mono_pos_r _ _ (2 ^ 1074)); lia.
    + intros (-> & Hm & He) Hle. eexists. split; [reflexivity|]. unfold cond_Zopp. destruct (0 <=? e) eqn:H0.
      * split; [lia|]. apply (Z.mul_le_mono_pos_r _ _ (2 ^ 1074)); [lia|]. by rewrite <-Z.mul_assoc, <-Z.pow_add_r by lia.
      * split; [apply Z.div_pos; lia|]. apply Z.div_le_upper_bound; [lia|].
        apply (Z.mul_le_mono_pos_r _ _ (2 ^ (e + 1074))); [lia|].
        replace (2 ^ (- e) * c * 2 ^ (e + 1074)) with (c * (2 ^ (- e) * 2 ^ (e + 1074))) by ring.
        rewrite <-Z.pow_add_r by lia. by replace (- e + (e + 1074)) with 1074 by lia.
Qed.

(** [min(a + b, c)] of nonnegative numbers is between 0 and [c]. *)
Lemma py_add_min a b c : num_ok a -> num_ok b -> 0 <= c < 2 ^ 53 ->
  exists s, py_add a b = Ok s /\ num_ok (py_min s (PInt c)) /\ num_units (py_min s (PInt c)) <= c * 2 ^ 1074.
Proof.
  intros Ha Hb Hc. destruct (to_float_ok a Ha) as (x & Hx & Hfx & _). destruct (to_float_ok b Hb) as (y & Hy & Hfy & _).
  assert (Hfl : forall f, f_nonneg f \/ f = S754_infinity false ->
    num_ok (py_min (PFloat f) (PInt c)) /\ num_units (py_min (PFloat f) (PInt c)) <= c * 2 ^ 1074).
  { intros f Hf. unfold py_min, py_lt, py_compare. destruct Hf as [Hf| ->]; [|simpl; lia].
    rewrite compare_float_int_ok by done. simpl. destruct (Z.compare_spec (f_units f) (c * 2 ^ 1074)); simpl; split; try done; lia. }
  assert (Hadd : f_nonneg (SFadd 53 1024 x y) \/ SFadd 53 1024 x y = S754_infinity false).
  { destruct x as [sx|sx| |sx mx ex], y as [sy|sy| |sy my ey]; try done; simpl; try (by left).
    - left. by destruct sx, sy.
    - destruct Hfx as (-> & Hmx & Hex), Hfy as (-> & Hmy & Hey). simpl.
      destruct (binary_normalize_pos (Zpos (fst (shl_align mx ex (Z.min ex ey))) + Zpos (fst (shl_align my ey (Z.min ex ey)))) (Z.min ex ey) false)
        as (m' & e' & Heq & _ & ? & ? & ?); [lia..|]. simpl in Heq. rewrite Heq. apply round_nonneg; lia. }
  unfold py_add. destruct a as [za|fa], b as [zb|fb]; rewrite ?Hx, ?Hy; simpl; (eexists; split; [reflexivity|]); try by apply Hfl.
  unfold py_min, py_lt, py_compare. simpl in Ha, Hb. destruct (Z.compare_spec c (za + zb)); simpl; lia.
Qed.

Lemma round_aux_sign m e : 0 < m -> -1074 <= e ->
  binary_round_aux 53 1024 true m e loc_Exact = SFopp (binary_round_aux 53 1024 false m e loc_Exact).
Proof.
  intros Hm He. unfold binary_round_aux. destruct (shr_fexp 53 1024 m e loc_Exact) as [r1 e1].
  destruct (shr_fexp _ _ _ _ _) as [r2 e2]. destruct (shr_m r2); try done. by destruct (e2 <=? 1024 - 53).
Qed.

(** [max(a - b, 0)] of nonnegative numbers is between 0 and [a]. *)
Lemma py_sub_max a b : num_ok a -> num_ok b ->
  exists s, py_sub a b = Ok s /\ num_ok (py_max s (PInt 0)) /\ num_units (py_max s (PInt 0)) <= num_units a.
Proof.
  intros Ha Hb. destruct (to_float_ok a Ha) as (x & Hx & Hfx & Hux). destruct (to_float_ok b Hb) as (y & Hy & Hfy & _).
  assert (Hua : 0 <= f_units x) by (destruct x; simpl in *; lia).
  assert (Hle : forall f, f_nonneg f -> f_units f <= num_units a ->
    num_ok (py_max (PFloat f) (PInt 0)) /\ num_units (py_max (PFloat f) (PInt 0)) <= num_units a).
  { intros f Hf Hu. unfold py_max, py_lt, py_compare. rewrite compare_float_int_ok by done.
    destruct (Z.compare_spec (f_units f) (0 * 2 ^ 1074)); simpl; split; try done; lia. }
  assert (Hneg : forall f, f_nonneg f \/ f = S754_infinity false ->
    num_ok (py_max (PFloat (SFopp f)) (PInt 0)) /\ num_units (py_max (PFloat (SFopp f)) (PInt 0)) <= num_units a).
  { intros f [Hf| ->]; [|simpl; lia]. destruct f as [s|s| |s m e]; try done; [simpl; lia|]. destruct Hf as (-> & _).
    unfold py_max, py_lt, py_compare, SFopp, compare_float_int, cond_Zopp, negb.
    replace (if 0 <=? e then - Zpos m * 2 ^ e ?= 0 else - Zpos m ?= 0 * 2 ^ (- e)) with Lt; [simpl; lia|].
    destruct (0 <=? e) eqn:E0; symmetry; apply Z.compare_lt_iff; [|lia]. assert (0 < 2 ^ e) by lia. nia. }
  assert (Hsub : num_ok (py_max (PFloat (SFsub 53 1024 x y)) (PInt 0)) /\ num_units (py_max (PFloat (SFsub 53 1024 x y)) (PInt 0)) <= num_units a).
  { destruct x as [sx|sx| |sx mx ex], y as [sy|sy| |sy my ey]; try done.
    - simpl SFsub. apply Hle; [by destruct sx, sy|]. by destruct sx, sy.
    - simpl SFsub. destruct Hfy as (-> & Hmy & Hey). apply (Hneg (S754_finite false my ey)). left. split; [done|]. lia.
    - by apply Hle.
    - destruct Hfx as (-> & Hmx & Hex), Hfy as (-> & Hmy & Hey). simpl SFsub.
      destruct (shl_align_spec mx ex (Z.min ex ey) ltac:(lia)) as [-> _]. destruct (shl_align_spec my ey (Z.min ex ey) ltac:(lia)) as [-> _].
      assert (Hpx : 0 < Zpos mx * 2 ^ (ex - Z.min ex ey)) by lia. assert (Hpy : 0 < Zpos my * 2 ^ (ey - Z.min ex ey)) by lia.
      rewrite !Z2Pos.id by done. set (X := Zpos mx * _) in *. set (Y := Zpos my * _) in *.
      destruct (Z.lt_trichotomy X Y) as [Hlt|[He|Hgt]].
      + replace (X - Y) with (- (Y - X)) by lia.
        destruct (binary_normalize_pos (Y - X) (Z.min ex ey) false) as (m' & e' & _ & -> & ? & ? & ?); [lia..|].
        rewrite round_aux_sign by lia. apply Hneg, round_nonneg; lia.
      + rewrite He, Z.sub_diag. simpl. lia.
      + destruct (binary_normalize_pos (X - Y) (Z.min ex ey) false) as (m' & e' & -> & _ & Hm' & He' & Hmz); [lia..|].
        destruct (round_le m' e' (Zpos mx) ex) as [H1 H2]; try lia.
        { rewrite Hmz. replace (ex - e') with ((ex - Z.min ex ey) + (Z.min ex ey - e')) by lia. rewrite Z.pow_add_r, Z.mul_assoc by lia.
          apply Z.mul_le_mono_nonneg_r; lia. }
        apply Hle; [done|]. simpl in Hux. lia. }
  unfold py_sub. destruct a as [za|fa], b as [zb|fb]; rewrite ?Hx, ?Hy; simpl; (eexists; split; [reflexivity|]); try done.
  unfold py_max, py_lt, py_compare. simpl in Ha, Hb. destruct (Z.compare_spec (za - zb) 0); simpl; lia.
Qed.
