(* ===== verification/OffloadPolicy.v ===== *)
(** The cache policies of the CPU offloading tier
    ([vllm/v1/kv_offload/cpu/policies/]): the status of an offloaded block, the
    interface [CachePolicy] and its two implementations, LRU and ARC.

    A [BlockStatus] is an object shared between the policy's dictionaries and the
    manager, which updates its reference count in place; here it is a reference
    into the store [objs] of all the objects created.  A policy only reads the
    store.  The fields are C integers and wrap. *)
From S2P Require Import Prelude.
From S2P Require Import PyDict.
From S2P Require Import PyFloat.
Local Open Scope Z_scope.

(** ** Block status *)

Definition c_int32 (z : Z) : Z := (z + 2 ^ 31) mod 2 ^ 32 - 2 ^ 31.
Definition c_int64 (z : Z) : Z := (z + 2 ^ 63) mod 2 ^ 64 - 2 ^ 63.

Record BlockStatus := mkBlockStatus { bs_ref_cnt : Z; bs_block_id : Z }.

(** [BlockStatus(block_id)]: not ready. *)
Definition new_block_status (id : Z) : BlockStatus := mkBlockStatus (c_int32 (-1)) (c_int64 id).
Definition is_ready (b : BlockStatus) : bool := 0 <=? bs_ref_cnt b.

(** A reference to a [BlockStatus], and the object it points to.  References are
    made by the constructor only, so the default is never read. *)
Abbreviation obj := nat.
Definition deref (objs : list BlockStatus) (o : obj) : BlockStatus := default (mkBlockStatus (-1) 0) (objs !! o).

(** ** The interface *)

(** The methods of the abstract class; the constructors are the classes' own. *)
Class CachePolicy (P : Type) := {
  cp_get : bytes -> P -> option obj;
  cp_insert : bytes -> obj -> P -> P;
  cp_remove : bytes -> P -> res P;
  cp_touch : list BlockStatus -> list bytes -> M P unit;
  cp_evict : list BlockStatus -> Z -> gset bytes -> M P (option (list (bytes * obj)))
}.

(** ** LRU *)

Definition LRUCachePolicy : Type := list (bytes * obj).

Module LRU.
(** [__init__]; the capacity is not used. *)
Definition new (cache_capacity : Z) : LRUCachePolicy := [].
Definition get (block_hash : bytes) (p : LRUCachePolicy) : option obj := od_lookup block_hash p.
Definition insert (block_hash : bytes) (block : obj) (p : LRUCachePolicy) : LRUCachePolicy := od_set block_hash block p.
Definition remove (block_hash : bytes) (p : LRUCachePolicy) : res LRUCachePolicy := od_del block_hash p.

Definition touch (block_hashes : list bytes) : M LRUCachePolicy unit :=
  forM_ (reverse block_hashes) (fun block_hash =>
    p ← gets id ;
    when (od_mem block_hash p) (p' ← lift_res (od_move_to_end block_hash p) ; modify (fun _ => p'))).

(** The scan of [evict], from the least recently used block; it stops at [n]. *)
Fixpoint scan (objs : list BlockStatus) (n : Z) (protected : gset bytes) (items : list (bytes * obj))
    (candidates : list (bytes * obj)) : list (bytes * obj) :=
  match items with
  | [] => candidates
  | (block_hash, block) :: items' =>
      if (bs_ref_cnt (deref objs block) =? 0) && bool_decide (block_hash ∉ protected) then
        let candidates := candidates ++ [(block_hash, block)] in
        if zlen candidates =? n then candidates else scan objs n protected items' candidates
      else scan objs n protected items' candidates
  end.

Definition evict (objs : list BlockStatus) (n : Z) (protected : gset bytes)
    : M LRUCachePolicy (option (list (bytes * obj))) :=
  if n =? 0 then mret (Some [])
  else
    p ← gets id ;
    let candidates := scan objs n protected p [] in
    if zlen candidates <? n then mret None
    else
      forM_ candidates (fun c => p ← gets id ; p' ← lift_res (od_del c.1 p) ; modify (fun _ => p')) ;;
      mret (Some candidates).
End LRU.

#[export] Instance lru_policy : CachePolicy LRUCachePolicy := {
  cp_get := LRU.get;
  cp_insert := LRU.insert;
  cp_remove := LRU.remove;
  cp_touch _ := LRU.touch;
  cp_evict := LRU.evict
}.

(** ** ARC *)

Record ARCCachePolicy := mkARC {
  cache_capacity : Z;
  target_t1_size : PyNum;
  t1 : list (bytes * obj);
  t2 : list (bytes * obj);
  b1 : list (bytes * unit);
  b2 : list (bytes * unit)
}.

Module ARC.
Definition set_target (f : PyNum) (p : ARCCachePolicy) := mkARC (cache_capacity p) f (t1 p) (t2 p) (b1 p) (b2 p).
Definition set_t1 d (p : ARCCachePolicy) := mkARC (cache_capacity p) (target_t1_size p) d (t2 p) (b1 p) (b2 p).
Definition set_t2 d (p : ARCCachePolicy) := mkARC (cache_capacity p) (target_t1_size p) (t1 p) d (b1 p) (b2 p).
Definition set_b1 d (p : ARCCachePolicy) := mkARC (cache_capacity p) (target_t1_size p) (t1 p) (t2 p) d (b2 p).
Definition set_b2 d (p : ARCCachePolicy) := mkARC (cache_capacity p) (target_t1_size p) (t1 p) (t2 p) (b1 p) d.

(** [__init__]: [target_t1_size = 0.0]. *)
Definition new (capacity : Z) : ARCCachePolicy := mkARC capacity (PFloat (SpecFloat.S754_zero false)) [] [] [] [].

(** A [BlockStatus] is truthy: [or] falls through only on [None]. *)
Definition get (block_hash : bytes) (p : ARCCachePolicy) : option obj :=
  match od_lookup block_hash (t1 p) with Some b => Some b | None => od_lookup block_hash (t2 p) end.

Definition insert (block_hash : bytes) (block : obj) (p : ARCCachePolicy) : ARCCachePolicy :=
  mkARC (cache_capacity p) (target_t1_size p) (od_set block_hash block (t1 p)) (t2 p)
    (od_delete block_hash (b1 p)) (od_delete block_hash (b2 p)).

Definition remove (block_hash : bytes) (p : ARCCachePolicy) : res ARCCachePolicy :=
  match od_pop block_hash (t1 p) with
  | Some (_, d) => Ok (set_t1 d p)
  | None => Ok (set_t2 (od_delete block_hash (t2 p)) p)
  end.

(** [max(1, a / b)] *)
Definition delta (a b : Z) : res PyNum := q ← py_truediv a b ; Ok (py_max (PInt 1) (PFloat q)).

(** The body of the loop of [touch]. *)
Definition touch_step (objs : list BlockStatus) (block_hash : bytes) : M ARCCachePolicy unit :=
  p ← gets id ;
  if od_mem block_hash (t1 p) then
    match od_pop block_hash (t1 p) with
    | Some (block, d) =>
        modify (set_t1 d) ;;
        if negb (is_ready (deref objs block)) then modify (fun p => set_t1 (od_set block_hash block (t1 p)) p)
        else modify (fun p => set_t2 (od_set block_hash block (t2 p)) p)
    | None => raise KeyError
    end
  else if od_mem block_hash (t2 p) then
    d ← lift_res (od_move_to_end block_hash (t2 p)) ; modify (set_t2 d)
  else if od_mem block_hash (b1 p) then
    dl ← lift_res (delta (zlen (b2 p)) (zlen (b1 p))) ;
    s ← lift_res (py_add (target_t1_size p) dl) ;
    modify (set_target (py_min s (PInt (cache_capacity p)))) ;;
    d ← lift_res (od_move_to_end block_hash (b1 p)) ; modify (set_b1 d)
  else if od_mem block_hash (b2 p) then
    dl ← lift_res (delta (zlen (b1 p)) (zlen (b2 p))) ;
    s ← lift_res (py_sub (target_t1_size p) dl) ;
    modify (set_target (py_max s (PInt 0))) ;;
    d ← lift_res (od_move_to_end block_hash (b2 p)) ; modify (set_b2 d)
  else mret tt.

Definition touch (objs : list BlockStatus) (block_hashes : list bytes) : M ARCCachePolicy unit :=
  forM_ (reverse block_hashes) (touch_step objs).

(** The first block of a list that may be evicted. *)
Fixpoint first_evictable (objs : list BlockStatus) (protected already_selected : gset bytes)
    (items : list (bytes * obj)) : option (bytes * obj) :=
  match items with
  | [] => None
  | (block_hash, block) :: items' =>
      if (bs_ref_cnt (deref objs block) =? 0) && bool_decide (block_hash ∉ protected)
         && bool_decide (block_hash ∉ already_selected)
      then Some (block_hash, block)
      else first_evictable objs protected already_selected items'
  end.

(** The [n] rounds that choose the victims: [None] when a round finds none. *)
Fixpoint select (objs : list BlockStatus) (protected : gset bytes) (p : ARCCachePolicy) (n : nat)
    (candidates : list (bytes * obj * bool)) (already_selected : gset bytes) (virtual_t1_size : Z)
    : res (option (list (bytes * obj * bool))) :=
  match n with
  | O => Ok (Some candidates)
  | S n' =>
      target ← py_int (target_t1_size p) ;
      let from_t1 := if target <=? virtual_t1_size then first_evictable objs protected already_selected (t1 p) else None in
      match from_t1 with
      | Some (h, b) => select objs protected p n' (candidates ++ [(h, b, true)]) ({[h]} ∪ already_selected) (virtual_t1_size - 1)
      | None =>
          match first_evictable objs protected already_selected (t2 p) with
          | Some (h, b) => select objs protected p n' (candidates ++ [(h, b, false)]) ({[h]} ∪ already_selected) virtual_t1_size
          | None => Ok None
          end
      end
  end.

(** A victim leaves its list for the matching ghost list. *)
Definition apply_eviction (c : bytes * obj * bool) : M ARCCachePolicy unit :=
  let '(block_hash, _, from_t1) := c in
  p ← gets id ;
  if from_t1 : bool then
    d ← lift_res (od_del block_hash (t1 p)) ; modify (set_t1 d) ;;
    modify (fun p => set_b1 (od_set block_hash tt (b1 p)) p)
  else
    d ← lift_res (od_del block_hash (t2 p)) ; modify (set_t2 d) ;;
    modify (fun p => set_b2 (od_set block_hash tt (b2 p)) p).

(** [for _ in range(len(ghost) - cache_capacity): ghost.popitem(last=False)] *)
Definition trim (capacity : Z) : M (list (bytes * unit)) unit :=
  len ← gets zlen ;
  forM_ (zrange 0 (len - capacity)) (fun _ =>
    ghost ← gets id ; kv ← lift_res (od_popitem_first ghost) ; modify (fun _ => kv.2)).

Definition evict (objs : list BlockStatus) (n : Z) (protected : gset bytes)
    : M ARCCachePolicy (option (list (bytes * obj))) :=
  if n =? 0 then mret (Some [])
  else
    p ← gets id ;
    found ← lift_res (select objs protected p (Z.to_nat n) [] ∅ (zlen (t1 p))) ;
    match found with
    | None => mret None
    | Some candidates =>
        forM_ candidates apply_eviction ;;
        zoom b1 set_b1 (trim (cache_capacity p)) ;;
        zoom b2 set_b2 (trim (cache_capacity p)) ;;
        mret (Some (map fst candidates))
    end.
End ARC.

#[export] Instance arc_policy : CachePolicy ARCCachePolicy := {
  cp_get := ARC.get;
  cp_insert := ARC.insert;
  cp_remove := ARC.remove;
  cp_touch := ARC.touch;
  cp_evict := ARC.evict
}.

(** ** The policy of a configuration *)

(** A value of one of the classes of [_CACHE_POLICIES]. *)
Inductive AnyPolicy :=
  | PolicyLRU (p : LRUCachePolicy)
  | PolicyARC (p : ARCCachePolicy).

Definition on_policy {A} (lru : M LRUCachePolicy A) (arc : M ARCCachePolicy A) : M AnyPolicy A := fun p =>
  match p with
  | PolicyLRU q => let '(r, q') := lru q in (r, PolicyLRU q')
  | PolicyARC q => let '(r, q') := arc q in (r, PolicyARC q')
  end.

(** The methods are those of the object's class. *)
#[export] Instance any_policy : CachePolicy AnyPolicy := {
  cp_get h p := match p with PolicyLRU q => cp_get h q | PolicyARC q => cp_get h q end;
  cp_insert h b p := match p with PolicyLRU q => PolicyLRU (cp_insert h b q) | PolicyARC q => PolicyARC (cp_insert h b q) end;
  cp_remove h p := match p with PolicyLRU q => q' ← cp_remove h q ; Ok (PolicyLRU q') | PolicyARC q => q' ← cp_remove h q ; Ok (PolicyARC q') end;
  cp_touch objs hs := on_policy (cp_touch objs hs) (cp_touch objs hs);
  cp_evict objs n protected := on_policy (cp_evict objs n protected) (cp_evict objs n protected)
}.

(** [_CACHE_POLICIES.get(cache_policy)] applied to the capacity. *)
Definition cache_policies (cache_policy : string) (num_blocks : Z) : option AnyPolicy :=
  if String.eqb cache_policy "lru" then Some (PolicyLRU (LRU.new num_blocks))
  else if String.eqb cache_policy "arc" then Some (PolicyARC (ARC.new num_blocks))
  else None.
