(* ===== verification/OffloadPolicyLemmas.v ===== *)
(** The contract of [CachePolicy] and its proof for LRU, ARC and their sum. *)
From S2P Require Import Prelude.
From S2P Require Import PyDict.
From S2P Require Import PyFloat.
From S2P Require Import OffloadPolicy.
Local Open Scope Z_scope.

(** A block that [evict] may take: idle, and not among the protected hashes. *)
Definition evictable (objs : list BlockStatus) (protected : gset bytes) (c : bytes * obj) : bool :=
  (bs_ref_cnt (deref objs c.2) =? 0) && bool_decide (c.1 ∉ protected).

(** What the manager relies on, for a policy that holds the blocks [items]. *)
Class CachePolicyLaws (P : Type) `{CachePolicy P} (items : P -> list (bytes * obj)) (wf : P -> Prop) := {
  cl_nodup p : wf p -> NoDup (od_keys (items p));
  cl_get p h o : wf p -> cp_get h p = Some o <-> (h, o) ∈ items p;
  cl_insert p h o : wf p -> cp_get h p = None -> wf (cp_insert h o p) /\ items (cp_insert h o p) ≡ₚ (h, o) :: items p;
  cl_remove p h o : wf p -> cp_get h p = Some o ->
    exists p', cp_remove h p = Ok p' /\ wf p' /\ items p ≡ₚ (h, o) :: items p';
  cl_touch objs hs p : wf p -> wp (cp_touch objs hs) (fun _ p' => wf p' /\ items p' ≡ₚ items p) p;
  cl_evict objs n protected p : wf p -> 0 <= n ->
    wp (cp_evict objs n protected) (fun r p' =>
      match r with
      | None => p' = p
      | Some l => wf p' /\ zlen l = n /\ items p ≡ₚ l ++ items p' /\ Forall (fun c => evictable objs protected c = true) l
      end) p
}.

Lemma cl_get_None `{CachePolicyLaws P items wf} p h : wf p -> cp_get h p = None <-> h ∉ od_keys (items p).
Proof.
  intros Hp. split.
  - intros Hn Hin. unfold od_keys in Hin. apply list_elem_of_fmap in Hin as ([h' o] & -> & Hin).
    apply (cl_get p _ o Hp) in Hin. simpl in Hn. congruence.
  - intros Hn. destruct (cp_get h p) as [o|] eqn:Ho; [|done]. apply (cl_get p h o Hp) in Ho.
    destruct Hn. by apply (list_elem_of_fmap_2 fst) in Ho.
Qed.

(** ** Ordered dictionaries as sets of keys *)

Section Od.
Context {V : Type}.
Implicit Types d : list (bytes * V).

Lemma od_keys_perm d d' : d ≡ₚ d' -> od_keys d ≡ₚ od_keys d'.
Proof. apply Permutation_map. Qed.

Lemma od_delete_keys h d : NoDup (od_keys d) -> forall k, k ∈ od_keys (od_delete h d) <-> k ∈ od_keys d /\ k <> h.
Proof.
  intros Hnd k. unfold od_keys. rewrite !list_elem_of_fmap. split.
  - intros ([k' v] & -> & Hin). apply od_delete_elem in Hin as [Hin Hne]; [|done]. split; [|done]. by exists (k', v).
  - intros [([k' v] & -> & Hin) Hne]. exists (k', v). split; [done|]. by apply od_delete_elem.
Qed.

Lemma od_set_keys_elem h v d k : k ∈ od_keys (od_set h v d) <-> k = h \/ k ∈ od_keys d.
Proof.
  rewrite <-!od_lookup_keys, od_lookup_set. case_decide as E; [|naive_solver]. split; [by left|]. by eexists.
Qed.

Lemma od_set_NoDup h v d : NoDup (od_keys d) -> NoDup (od_keys (od_set h v d)).
Proof.
  intros Hnd. destruct (decide (h ∈ od_keys d)) as [Hin|Hn].
  - rewrite od_set_keys; [done|]. by apply od_lookup_keys.
  - rewrite od_set_new by done. unfold od_keys. rewrite map_app. apply NoDup_app. split_and!; [done| |apply NoDup_singleton].
    intros x Hx Hx'. apply list_elem_of_singleton in Hx' as ->. done.
Qed.

#[export] Instance od_keys_proper : Proper ((≡ₚ) ==> (≡ₚ)) (@od_keys bytes V).
Proof. intros d d'. apply od_keys_perm. Qed.

Lemma od_delete_keys_eq h d : NoDup (od_keys d) -> od_keys (od_delete h d) = filter (fun k => k <> h) (od_keys d).
Proof.
  unfold od_keys. induction d as [|[k v] d IH]; simpl; [done|]. intros [Hk Hnd]%NoDup_cons. simpl in Hk.
  rewrite filter_cons. case_decide as E; case_decide as E'; simpl; try done; [|by rewrite IH].
  subst k. symmetry. apply filter_all_in. intros k Hin ->. done.
Qed.

Lemma od_functional d h v v' : NoDup (od_keys d) -> (h, v) ∈ d -> (h, v') ∈ d -> v = v'.
Proof. intros Hnd H1 H2. apply (od_lookup_Some h _ d Hnd) in H1, H2. congruence. Qed.

Lemma od_delete_filter h d : NoDup (od_keys d) -> od_delete h d = filter (fun c => c.1 <> h) d.
Proof.
  unfold od_keys. induction d as [|[k v] d IH]; simpl; [done|]. intros [Hk Hnd]%NoDup_cons.
  rewrite filter_cons. case_decide as E; case_decide as E'; simpl in *; try done; [|by rewrite IH].
  subst k. symmetry. apply filter_all_in. intros [k' v'] Hin. simpl. intros Heq. destruct Hk. apply (list_elem_of_fmap_2 fst) in Hin. by subst.
Qed.

Lemma zlen_od_delete h d : zlen (od_delete h d) <= zlen d.
Proof. unfold zlen. pose proof (sublist_length _ _ (od_delete_sublist h d)). lia. Qed.

Lemma od_del_ok h d : h ∈ od_keys d -> exists v, od_lookup h d = Some v /\ od_del h d = Ok (od_delete h d).
Proof.
  intros Hin. pose proof Hin as [v Hv]%od_lookup_keys. exists v. split; [done|]. unfold od_del. by rewrite (proj2 (od_mem_spec h d) Hin).
Qed.
End Od.

(** ** LRU *)

Section Lru.
Context (objs : list BlockStatus) (protected : gset bytes).

(** The scan takes the first [n] evictable blocks in the order of the dictionary. *)
Lemma lru_scan_eq n items acc : zlen acc < n ->
  LRU.scan objs n protected items acc = acc ++ take (Z.to_nat (n - zlen acc)) (filter (fun c => evictable objs protected c = true) items).
Proof.
  revert acc. induction items as [|[h o] items IH]; intros acc Hlt; simpl LRU.scan.
  - by rewrite filter_nil, take_nil, app_nil_r.
  - change ((bs_ref_cnt (deref objs o) =? 0) && bool_decide (h ∉ protected)) with (evictable objs protected (h, o)).
    rewrite filter_cons. destruct (evictable objs protected (h, o)) eqn:He.
    + rewrite decide_True by done. rewrite zlen_app. change (zlen [(h, o)]) with 1.
      replace (Z.to_nat (n - zlen acc)) with (S (Z.to_nat (n - (zlen acc + 1)))) by lia. simpl take.
      destruct (zlen acc + 1 =? n) eqn:E.
      * by replace (n - (zlen acc + 1)) with 0 by lia.
      * rewrite IH, zlen_app; [by rewrite <-app_assoc|]. rewrite zlen_app. change (zlen [(h, o)]) with 1. lia.
    + rewrite decide_False by congruence. by apply IH.
Qed.

Lemma lru_delete_all cs : forall p, NoDup (od_keys p) -> NoDup (od_keys cs) -> (forall c, c ∈ cs -> c ∈ p) ->
  wp (forM_ cs (fun c : bytes * obj => p ← gets id ; p' ← lift_res (od_del c.1 p) ; modify (fun _ => p')))
    (fun _ p' => p' = filter (fun c => c ∉ cs) p /\ NoDup (od_keys p') /\ p ≡ₚ cs ++ p') p.
Proof.
  induction cs as [|[h o] cs IH]; intros p Hp Hcs Hin; simpl.
  - wp_steps. split_and!; try done. symmetry. apply filter_all_in. intros c _. apply not_elem_of_nil.
  - apply NoDup_cons in Hcs as [Hh Hcs]. pose proof (Hin (h, o) ltac:(left)) as Ho.
    destruct (od_del_ok h p) as (v & Hv & Hd); [by apply (list_elem_of_fmap_2 fst) in Ho|].
    rewrite (proj2 (od_lookup_Some h o p Hp) Ho) in Hv. injection Hv as <-.
    apply wp_bind, wp_bind, wp_gets. cbn beta. apply wp_bind. eapply wp_lift_res; [exact Hd|]. apply wp_modify.
    eapply wp_mono; [apply IH|]; [by apply od_delete_NoDup|done| |].
    + intros c Hc. apply od_delete_elem; [done|]. split; [apply Hin; by right|]. intros <-.
      destruct Hh. by apply (list_elem_of_fmap_2 fst) in Hc.
    + intros [] p' (-> & Hp' & Hperm). split_and!; [|done|].
      * rewrite od_delete_filter, list_filter_filter by done. apply filter_ext_in. intros [k v] Hkv. rewrite not_elem_of_cons.
        simpl. split; [intros [Hc Hk]; split; [congruence|done]|]. intros [Hne Hc]. split; [done|]. intros ->.
        apply Hne. by rewrite (od_functional p _ _ _ Hp Hkv Ho).
      * by rewrite (od_delete_perm h o p) at 1 by (by apply od_lookup_Some); rewrite Hperm at 1.
Qed.

Lemma lru_filter_zlen items : zlen (filter (fun c => evictable objs protected c = true) items) <= zlen items.
Proof. unfold zlen. pose proof (length_filter (fun c => evictable objs protected c = true) items). lia. Qed.

(** [evict]: the first [n] evictable blocks in the order of the dictionary, or nothing. *)
Lemma lru_evict_eq n p : NoDup (od_keys p) -> 0 <= n ->
  let candidates := filter (fun c => evictable objs protected c = true) p in
  LRU.evict objs n protected p =
    if zlen candidates <? n then (Ok None, p)
    else (Ok (Some (take (Z.to_nat n) candidates)), filter (fun c => c ∉ take (Z.to_nat n) candidates) p).
Proof.
  intros Hp Hn candidates. unfold LRU.evict. destruct (n =? 0) eqn:E.
  { replace n with 0 by lia. replace (zlen candidates <? 0) with false by (pose proof (zlen_nonneg candidates); lia).
    simpl. unfold mret, M_ret. f_equal. symmetry. apply filter_all_in. intros c _. apply not_elem_of_nil. }
  unfold mbind at 1, M_bind at 1, gets at 1. change (id p) with p. rewrite lru_scan_eq by (change (zlen []) with 0; lia).
  rewrite app_nil_l. change (zlen []) with 0. rewrite Z.sub_0_r. fold candidates.
  assert (Hlen : (zlen (take (Z.to_nat n) candidates) <? n) = (zlen candidates <? n)) by (unfold zlen; rewrite length_take; lia).
  rewrite Hlen. destruct (zlen candidates <? n); [done|].
  set (cs := take (Z.to_nat n) candidates).
  assert (Hsub : cs `sublist_of` p).
  { transitivity candidates; [apply sublist_take|apply sublist_filter]. }
  assert (Hcs : NoDup (od_keys cs)). { eapply sublist_NoDup; [exact Hp|]. by apply (fmap_sublist fst). }
  assert (Hin : forall c, c ∈ cs -> c ∈ p) by (intros c Hc; by eapply elem_of_sublist).
  pose proof (lru_delete_all cs p Hp Hcs Hin) as Hw.
  apply wp_run in Hw as ([] & p' & Hrun & -> & _). unfold mbind at 1, M_bind at 1. by rewrite Hrun.
Qed.
End Lru.

Lemma filter_not_in_snoc {A} `{EqDecision A} (d K : list A) h :
  filter (fun k => k ∉ d ++ [h]) K = filter (fun k => k <> h) (filter (fun k => k ∉ d) K).
Proof. rewrite list_filter_filter. apply filter_ext_in. intros k _. rewrite not_elem_of_app, not_elem_of_cons. set_solver. Qed.

Lemma sublist_filter_perm {A} `{EqDecision A} (cs l : list A) : NoDup l -> cs `sublist_of` l -> l ≡ₚ cs ++ filter (fun c => c ∉ cs) l.
Proof.
  intros Hnd Hsub. apply NoDup_Permutation; [done| |].
  - apply NoDup_app. split_and!; [by eapply sublist_NoDup| |by apply NoDup_filter].
    intros x Hx [Hx' _]%list_elem_of_filter. done.
  - intros x. rewrite elem_of_app, list_elem_of_filter. split.
    + intros Hx. destruct (decide (x ∈ cs)); naive_solver.
    + intros [Hx|[_ Hx]]; [|done]. by eapply elem_of_sublist.
Qed.

(** [touch]: the keys present move to the end, the first of [hs] last. *)
Lemma lru_touch_wp hs p : NoDup (od_keys p) ->
  wp (LRU.touch hs) (fun _ p' => NoDup (od_keys p') /\ p' ≡ₚ p
    /\ (NoDup hs -> od_keys p' = filter (fun k => k ∉ hs) (od_keys p) ++ reverse (filter (fun k => k ∈ od_keys p) hs))) p.
Proof.
  intros Hp. unfold LRU.touch.
  eapply (wp_forM_ (fun d t q => NoDup (od_keys q) /\ q ≡ₚ p
    /\ (NoDup (d ++ t) -> od_keys q = filter (fun k => k ∉ d) (od_keys p) ++ filter (fun k => k ∈ od_keys p) d)) _ []).
  - split_and!; [done|done|]. intros _. simpl. rewrite app_nil_r. symmetry. apply filter_all_in. intros k _. apply not_elem_of_nil.
  - intros d h t q (Hq & Hqp & Hord). wp_steps. cbn [id].
    assert (Hmem : h ∈ od_keys q <-> h ∈ od_keys p) by (by rewrite (od_keys_perm _ _ Hqp)).
    destruct (decide (h ∈ od_keys p)) as [Hin|Hn].
    + apply wp_when; [intros _|intros Hf; apply not_true_iff_false in Hf; destruct Hf; by apply od_mem_spec, Hmem].
      apply Hmem in Hin as Hinq. apply od_lookup_keys in Hinq as [v Hv].
      destruct (od_move_to_end_ok h v q Hv) as [Hm Hmp]. wp_steps.
      split_and!; [by rewrite Hmp|by rewrite Hmp|].
      intros Hnd. rewrite <-app_assoc in Hnd. specialize (Hord Hnd).
      assert (Hhd : h ∉ d). { apply NoDup_app in Hnd as (_ & Hnd & _). intros Hd. apply (Hnd h Hd). left. }
      rewrite filter_not_in_snoc, filter_app, filter_cons, decide_True, filter_nil by done.
      unfold od_keys at 1. rewrite map_app. fold (od_keys (od_delete h q)). rewrite od_delete_keys_eq, Hord, filter_app by done.
      rewrite <-app_assoc. f_equal. f_equal. apply filter_all_in. intros k [_ Hk]%list_elem_of_filter ->. done.
    + apply wp_when; [intros Hm%od_mem_spec; by apply Hmem in Hm|intros _].
      split_and!; [done|done|]. intros Hnd. rewrite <-app_assoc in Hnd. rewrite (Hord Hnd).
      rewrite filter_not_in_snoc, filter_app, filter_cons, decide_False, filter_nil, app_nil_r by done. f_equal.
      symmetry. apply filter_all_in. intros k [_ Hk]%list_elem_of_filter ->. done.
  - intros q (Hq & Hqp & Hord). split_and!; [done|done|]. intros Hnd. rewrite Hord by (by rewrite app_nil_r, reverse_Permutation).
    rewrite ?app_nil_l, filter_reverse. f_equal. apply filter_ext_in. intros k _. by rewrite elem_of_reverse.
Qed.

Lemma lru_evict_wp objs n protected (p : list (bytes * obj)) : NoDup (od_keys p) -> 0 <= n ->
  wp (LRU.evict objs n protected) (fun r p' =>
      match r with
      | None => p' = p
      | Some l => NoDup (od_keys p') /\ zlen l = n /\ p ≡ₚ l ++ p' /\ Forall (fun c => evictable objs protected c = true) l
      end) p.
Proof.
  intros Hp Hn. unfold wp. rewrite lru_evict_eq by done. cbv zeta.
  set (cs := filter (fun c => evictable objs protected c = true) p). destruct (zlen cs <? n) eqn:E; [done|].
  assert (Hsub : take (Z.to_nat n) cs `sublist_of` p). { transitivity cs; [apply sublist_take|apply sublist_filter]. }
  split_and!.
  - eapply sublist_NoDup; [exact Hp|]. apply (fmap_sublist fst), sublist_filter.
  - unfold zlen in *. rewrite length_take. lia.
  - by apply sublist_filter_perm; [apply (NoDup_fmap_1 fst)|].
  - apply Forall_take, Forall_forall. intros c Hc. subst cs. by apply list_elem_of_filter in Hc as [? _].
Qed.

#[export] Instance lru_policy_laws : CachePolicyLaws LRUCachePolicy (fun p => p) (fun p => NoDup (od_keys p)).
Proof.
  split.
  - done.
  - intros p h o Hp. by apply od_lookup_Some.
  - intros p h o Hp Hn. simpl. unfold LRU.insert. apply od_lookup_None in Hn. split; [by apply od_set_NoDup|].
    rewrite od_set_new by done. symmetry. apply Permutation_cons_append.
  - intros p h o Hp Ho. exists (od_delete h p). pose proof (od_delete_perm h o p Ho) as Hperm.
    split_and!; [|by apply od_delete_NoDup|done]. simpl. unfold LRU.remove, od_del.
    by rewrite (proj2 (od_mem_spec h p)) by (apply od_lookup_keys; by eexists).
  - intros objs hs p Hp. eapply wp_mono; [by apply lru_touch_wp|]. simpl. naive_solver.
  - intros objs n protected p Hp Hn. by apply lru_evict_wp.
Qed.

(** ** ARC *)

Definition arc_items (p : ARCCachePolicy) : list (bytes * obj) := t1 p ++ t2 p.
Definition arc_keys (p : ARCCachePolicy) : list bytes := od_keys (t1 p) ++ od_keys (t2 p) ++ od_keys (b1 p) ++ od_keys (b2 p).

(** The four lists hold disjoint sets of hashes, the ghost lists are no longer
    than the cache and the target is between 0 and the capacity. *)
Record arc_wf (p : ARCCachePolicy) : Prop := {
  aw_cap : 0 <= cache_capacity p < 2 ^ 53;
  aw_target : num_ok (target_t1_size p) /\ num_units (target_t1_size p) <= cache_capacity p * 2 ^ 1074;
  aw_nodup : NoDup (arc_keys p);
  aw_b1 : zlen (b1 p) <= cache_capacity p;
  aw_b2 : zlen (b2 p) <= cache_capacity p
}.

Lemma arc_nodup_parts p : NoDup (arc_keys p) ->
  NoDup (od_keys (t1 p)) /\ NoDup (od_keys (t2 p)) /\ NoDup (od_keys (b1 p)) /\ NoDup (od_keys (b2 p)).
Proof. intros (? & _ & (? & _ & (? & _ & ?)%NoDup_app)%NoDup_app)%NoDup_app. done. Qed.

Lemma arc_items_keys p : NoDup (arc_keys p) -> NoDup (od_keys (arc_items p)).
Proof.
  unfold arc_keys, arc_items, od_keys. rewrite map_app. intros Hnd. eapply sublist_NoDup; [exact Hnd|].
  rewrite app_assoc. apply sublist_inserts_r. done.
Qed.

Lemma arc_get_spec p h o : NoDup (arc_keys p) -> ARC.get h p = Some o <-> (h, o) ∈ arc_items p.
Proof.
  intros Hnd. pose proof (arc_nodup_parts p Hnd) as (H1 & H2 & _). unfold ARC.get, arc_items. rewrite elem_of_app.
  rewrite <-(od_lookup_Some h o _ H1), <-(od_lookup_Some h o _ H2).
  destruct (od_lookup h (t1 p)) as [o'|] eqn:E; [|naive_solver]. split; [naive_solver|]. intros [|Ho]; [done|].
  apply NoDup_app in Hnd as (_ & Hnd & _). destruct (Hnd h).
  - apply od_lookup_keys. by eexists.
  - apply elem_of_app. left. apply od_lookup_keys. by eexists.
Qed.

Lemma arc_new_wf n : 0 <= n < 2 ^ 53 -> arc_wf (ARC.new n) /\ arc_items (ARC.new n) = [].
Proof.
  intros Hn. split; [|done]. split; simpl; [done| |apply NoDup_nil_2|unfold zlen; simpl; lia..].
  split; [done|]. apply Z.mul_nonneg_nonneg; lia.
Qed.

Lemma NoDup_perm {A} (l l' : list A) : NoDup l -> l ≡ₚ l' -> NoDup l'.
Proof. by intros Hnd <-. Qed.

(** Taking a key out of a list. *)
Lemma od_delete_keys_perm {V} (h : bytes) (v : V) d : od_lookup h d = Some v -> od_keys d ≡ₚ h :: od_keys (od_delete h d).
Proof. intros H%od_delete_perm. by rewrite H at 1. Qed.

Lemma od_set_keys_new {V} (h : bytes) (v : V) d : h ∉ od_keys d -> od_keys (od_set h v d) ≡ₚ h :: od_keys d.
Proof. intros H. rewrite od_set_new by done. unfold od_keys. rewrite map_app. simpl. symmetry. apply Permutation_cons_append. Qed.

Lemma od_lookup_keys_Some {V} (h : bytes) (v : V) d : od_lookup h d = Some v -> h ∈ od_keys d.
Proof. intros H. apply od_lookup_keys. by eexists. Qed.

(** A key of one list is in no other. *)
Lemma arc_disjoint p h : NoDup (arc_keys p) ->
  (h ∈ od_keys (t1 p) -> (h ∉ od_keys (t2 p)) /\ (h ∉ od_keys (b1 p)) /\ h ∉ od_keys (b2 p))
  /\ (h ∈ od_keys (t2 p) -> (h ∉ od_keys (t1 p)) /\ (h ∉ od_keys (b1 p)) /\ h ∉ od_keys (b2 p)).
Proof.
  unfold arc_keys. rewrite !NoDup_app. intros (_ & H1 & _ & H2 & _). split; intros Hh.
  - specialize (H1 h Hh). rewrite !not_elem_of_app in H1. done.
  - specialize (H2 h Hh). rewrite not_elem_of_app in H2. split; [|done]. intros Hh1. apply (H1 h Hh1). apply elem_of_app. by left.
Qed.

Lemma zlen_lookup_pos {V} (h : bytes) (v : V) d : od_lookup h d = Some v -> 0 < zlen d.
Proof. destruct d; [done|]. intros _. rewrite zlen_cons. pose proof (zlen_nonneg d). lia. Qed.

Lemma zlen_perm {A} (l l' : list A) : l ≡ₚ l' -> zlen l = zlen l'.
Proof. unfold zlen. by intros ->. Qed.

Lemma arc_delta_ok a b : 0 <= a < 2 ^ 53 -> 0 < b < 2 ^ 53 -> exists d, ARC.delta a b = Ok d /\ num_ok d.
Proof.
  intros Ha Hb. unfold ARC.delta. destruct (py_truediv_ok a b Ha Hb) as (q & -> & Hq). eexists. split; [reflexivity|].
  unfold py_max. by destruct (py_lt _ _).
Qed.

Lemma arc_touch_step objs h p : arc_wf p ->
  wp (ARC.touch_step objs h) (fun _ p' => arc_wf p' /\ arc_items p' ≡ₚ arc_items p /\ cache_capacity p' = cache_capacity p) p.
Proof.
  intros [Hcap Ht Hnd H1 H2]. pose proof (arc_disjoint p h Hnd) as [Hd1 Hd2].
  unfold ARC.touch_step. wp_steps. cbn [id].
  destruct (od_mem h (t1 p)) eqn:M1.
  { apply od_mem_spec in M1 as Hk. destruct (proj2 (od_lookup_keys h (t1 p)) Hk) as [o Ho]. destruct (Hd1 Hk) as (N2 & _ & _).
    unfold od_pop. rewrite Ho. simpl. pose proof (od_delete_perm h o _ Ho) as Hperm.
    assert (Hn1 : h ∉ od_keys (od_delete h (t1 p))).
    { rewrite od_delete_keys by (by apply arc_nodup_parts). naive_solver. }
    wp_steps. destruct (is_ready (deref objs o)); simpl; wp_steps; (split; [split; try done|split; [|done]]); unfold arc_keys, arc_items in *; simpl.
    - rewrite (od_set_keys_new h o (t2 p)) by done. rewrite (od_delete_keys_perm h o) in Hnd by done.
      apply (NoDup_perm _ _ Hnd). solve_Permutation.
    - rewrite od_set_new by done. rewrite Hperm at 2. solve_Permutation.
    - rewrite (od_set_keys_new h o (od_delete _ _)) by done. by rewrite (od_delete_keys_perm h o) in Hnd by done.
    - rewrite od_set_new by done. rewrite Hperm at 2. solve_Permutation. }
  clear M1. destruct (od_mem h (t2 p)) eqn:M2.
  { apply od_mem_spec, od_lookup_keys in M2 as [o Ho]. destruct (od_move_to_end_ok h o _ Ho) as [Hm Hperm].
    wp_steps. split; [split; try done|split; [|done]]; unfold arc_keys, arc_items in *; simpl.
    - by rewrite Hperm.
    - by rewrite Hperm. }
  clear M2. destruct Ht as [Ht1 Ht2]. pose proof (zlen_nonneg (b1 p)). pose proof (zlen_nonneg (b2 p)).
  destruct (od_mem h (b1 p)) eqn:M3.
  { apply od_mem_spec, od_lookup_keys in M3 as [o Ho]. destruct (od_move_to_end_ok h o _ Ho) as [Hm Hperm].
    pose proof (zlen_lookup_pos h o _ Ho). destruct (arc_delta_ok (zlen (b2 p)) (zlen (b1 p))) as (d & Hd & Hdo); [lia..|].
    destruct (py_add_min (target_t1_size p) d (cache_capacity p)) as (s & Hs & Hs1 & Hs2); [done|done|lia|].
    wp_steps. split; [split; try done|split; [|done]]; unfold arc_keys in *; simpl; try done; [by rewrite Hperm|].
    by rewrite (zlen_perm _ _ Hperm). }
  destruct (od_mem h (b2 p)) eqn:M4; [|by wp_steps].
  apply od_mem_spec, od_lookup_keys in M4 as [o Ho]. destruct (od_move_to_end_ok h o _ Ho) as [Hm Hperm].
  pose proof (zlen_lookup_pos h o _ Ho). destruct (arc_delta_ok (zlen (b1 p)) (zlen (b2 p))) as (d & Hd & Hdo); [lia..|].
  destruct (py_sub_max (target_t1_size p) d) as (s & Hs & Hs1 & Hs2); [done|done|].
  wp_steps. split; [split; try done|split; [|done]]; unfold arc_keys in *; simpl; try done; [split; [done|lia]|by rewrite Hperm|].
  by rewrite (zlen_perm _ _ Hperm).
Qed.

(** ARC with its capacity. *)
Definition arc_wf_at (n : Z) (p : ARCCachePolicy) : Prop := arc_wf p /\ cache_capacity p = n.

Lemma arc_touch_wp n objs hs p : arc_wf_at n p -> wp (ARC.touch objs hs) (fun _ p' => arc_wf_at n p' /\ arc_items p' ≡ₚ arc_items p) p.
Proof.
  intros Hp. unfold ARC.touch. eapply (wp_forM_ (fun _ _ q => arc_wf_at n q /\ arc_items q ≡ₚ arc_items p) _ []); [done| |done].
  intros d h t q [[Hq Hc] Hqp]. eapply wp_mono; [by apply arc_touch_step|]. intros [] q' (Hq' & Hqq & Hc').
  split; [split; [done|congruence]|by rewrite Hqq].
Qed.

Section ArcEvict.
Context (objs : list BlockStatus) (protected : gset bytes).

Lemma first_evictable_Some selected items c : ARC.first_evictable objs protected selected items = Some c ->
  c ∈ items /\ evictable objs protected c = true /\ c.1 ∉ selected.
Proof.
  induction items as [|[h o] items IH]; [done|]. simpl.
  change ((bs_ref_cnt (deref objs o) =? 0) && bool_decide (h ∉ protected)) with (evictable objs protected (h, o)).
  destruct (evictable objs protected (h, o)) eqn:He; simpl.
  - destruct (bool_decide (h ∉ selected)) eqn:Hs; [|intros (? & ? & ?)%IH; split_and!; [by right|done|done]].
    apply bool_decide_eq_true in Hs. intros [= <-]. split_and!; [left|done|done].
  - intros (? & ? & ?)%IH. split_and!; [by right|done|done].
Qed.

(** A victim and the list it comes from. *)
Definition candidate_ok (p : ARCCachePolicy) (c : bytes * obj * bool) : Prop :=
  c.1 ∈ (if c.2 : bool then t1 p else t2 p) /\ evictable objs protected c.1 = true.

Lemma arc_select_spec p n : arc_wf p -> forall acc selected v, Forall (candidate_ok p) acc -> NoDup (map (fun c => c.1.1) acc) ->
  (forall h, h ∈ selected <-> h ∈ map (fun c => c.1.1) acc) ->
  exists r, ARC.select objs protected p n acc selected v = Ok r /\
    match r with
    | None => True
    | Some cs => Forall (candidate_ok p) cs /\ NoDup (map (fun c => c.1.1) cs) /\ length cs = (length acc + n)%nat
    end.
Proof.
  intros [_ [Ht1 Ht2] _ _ _]. destruct (py_int_ok _ _ Ht1 Ht2) as (t & Ht & _).
  induction n as [|n IH]; intros acc selected v Hok Hnd Hsel; simpl.
  { eexists. split; [reflexivity|]. split_and!; [done|done|lia]. }
  rewrite Ht. simpl.
  assert (Hadd : forall c, candidate_ok p c -> c.1.1 ∉ selected -> forall v,
    exists r, ARC.select objs protected p n (acc ++ [c]) ({[c.1.1]} ∪ selected) v = Ok r /\
    match r with None => True | Some cs => Forall (candidate_ok p) cs /\ NoDup (map (fun c => c.1.1) cs) /\ length cs = (length acc + S n)%nat end).
  { intros c Hc Hcs v'. destruct (IH (acc ++ [c]) ({[c.1.1]} ∪ selected) v') as (r & Hr & Hpost).
    - apply Forall_app. split; [done|]. by apply Forall_singleton.
    - rewrite map_app. apply NoDup_app. split_and!; [done| |apply NoDup_singleton].
      intros h Hh ->%list_elem_of_singleton. by apply Hcs, Hsel.
    - intros h. rewrite map_app, elem_of_app, elem_of_union, elem_of_singleton, Hsel. simpl. rewrite list_elem_of_singleton. tauto.
    - exists r. split; [done|]. destruct r as [cs|]; [|done]. rewrite length_app in Hpost. simpl in Hpost.
      destruct Hpost as (? & ? & ?). split_and!; [done|done|lia]. }
  destruct (if t <=? v then _ else None) as [[h o]|] eqn:E1.
  - destruct (t <=? v); [|done]. apply first_evictable_Some in E1 as (H1 & H2 & H3). by apply (Hadd (h, o, true)).
  - destruct (ARC.first_evictable objs protected selected (t2 p)) as [[h o]|] eqn:E2; [|by eexists].
    apply first_evictable_Some in E2 as (H1 & H2 & H3). by apply (Hadd (h, o, false)).
Qed.
End ArcEvict.

(** The state of the eviction loop: keys stay distinct, items leave. *)
Lemma arc_apply_step p c : NoDup (arc_keys p) -> c.1 ∈ (if c.2 : bool then t1 p else t2 p) ->
  wp (ARC.apply_eviction c) (fun _ p' => NoDup (arc_keys p') /\ arc_items p ≡ₚ c.1 :: arc_items p'
    /\ cache_capacity p' = cache_capacity p /\ target_t1_size p' = target_t1_size p
    /\ (forall c', c'.1.1 <> c.1.1 -> c'.1 ∈ (if c'.2 : bool then t1 p else t2 p) -> c'.1 ∈ (if c'.2 : bool then t1 p' else t2 p'))) p.
Proof.
  intros Hnd Hin. destruct c as [[h o] f]. simpl in Hin. pose proof (arc_nodup_parts p Hnd) as (N1 & N2 & _).
  pose proof (arc_disjoint p h Hnd) as [D1 D2]. unfold ARC.apply_eviction. wp_steps. cbn [id]. destruct f.
  - apply (od_lookup_Some h o _ N1) in Hin as Ho. destruct (od_del_ok h (t1 p)) as (v & Hv & Hd); [by eapply od_lookup_keys_Some|].
    destruct D1 as (_ & Hb & _); [by eapply od_lookup_keys_Some|]. wp_steps. unfold arc_keys, arc_items in *; simpl. split_and!; [| |done|done|].
    + rewrite (od_set_keys_new h tt) by done. rewrite (od_delete_keys_perm h o) in Hnd by done. apply (NoDup_perm _ _ Hnd). solve_Permutation.
    + by rewrite (od_delete_perm h o (t1 p)) at 1 by done.
    + intros [c' []] Hne Hc'; simpl in *; [|done]. by apply od_delete_elem.
  - apply (od_lookup_Some h o _ N2) in Hin as Ho. destruct (od_del_ok h (t2 p)) as (v & Hv & Hd); [by eapply od_lookup_keys_Some|].
    destruct D2 as (_ & _ & Hb); [by eapply od_lookup_keys_Some|]. wp_steps. unfold arc_keys, arc_items in *; simpl. split_and!; [| |done|done|].
    + rewrite (od_set_keys_new h tt) by done. rewrite (od_delete_keys_perm h o (t2 p)) in Hnd by done. apply (NoDup_perm _ _ Hnd). solve_Permutation.
    + rewrite (od_delete_perm h o (t2 p)) at 1 by done. solve_Permutation.
    + intros [c' []] Hne Hc'; simpl in *; [done|]. by apply od_delete_elem.
Qed.

Lemma arc_apply_all cs : forall p, NoDup (arc_keys p) -> NoDup (map (fun c => c.1.1) cs) ->
  Forall (fun c : bytes * obj * bool => c.1 ∈ (if c.2 then t1 p else t2 p)) cs ->
  wp (forM_ cs ARC.apply_eviction) (fun _ p' => NoDup (arc_keys p') /\ arc_items p ≡ₚ map fst cs ++ arc_items p'
    /\ cache_capacity p' = cache_capacity p /\ target_t1_size p' = target_t1_size p) p.
Proof.
  induction cs as [|c cs IH]; intros p Hnd Hcs Hin; simpl; [by wp_steps|].
  apply NoDup_cons in Hcs as [Hc Hcs]. apply Forall_cons in Hin as [Hin1 Hin].
  apply wp_bind. eapply wp_mono; [by apply arc_apply_step|]. intros [] q (Hq & Hperm & Hcap & Ht & Hkeep).
  eapply wp_mono; [apply IH; [done|done|]|].
  - apply Forall_forall. intros c' Hc'. apply Hkeep; [|by eapply Forall_forall in Hin].
    intros Heq. destruct Hc. simpl. rewrite <-Heq. by apply (list_elem_of_fmap_2 (fun c => c.1.1)).
  - intros [] p' (H1 & H2 & H3 & H4). split_and!; [done| |congruence|congruence]. by rewrite Hperm, H2.
Qed.

Lemma arc_trim_loop (l : list Z) : forall g : list (bytes * unit), (length l <= length g)%nat ->
  wp (forM_ l (fun _ => ghost ← gets id ; kv ← lift_res (od_popitem_first ghost) ; modify (fun _ => kv.2)))
    (fun _ g' => g' = drop (length l) g) g.
Proof.
  induction l as [|x l IH]; intros g Hl; simpl in *; [by wp_steps|].
  destruct g as [|kv g]; simpl in Hl; [lia|]. wp_steps. eapply wp_lift_res; [reflexivity|]. apply wp_modify. simpl. apply IH. lia.
Qed.

Lemma arc_trim_wp n (g : list (bytes * unit)) : 0 <= n -> wp (ARC.trim n) (fun _ g' => g' = drop (Z.to_nat (zlen g - n)) g) g.
Proof.
  intros Hn. unfold ARC.trim. apply wp_bind, wp_gets. cbn beta.
  assert (Hlen : length (zrange 0 (zlen g - n)) = Z.to_nat (zlen g - n)) by (unfold zrange; rewrite length_seqZ; lia).
  rewrite <-Hlen. apply arc_trim_loop. rewrite Hlen. unfold zlen. lia.
Qed.

Lemma arc_evict_wp cap objs n protected p : arc_wf_at cap p -> 0 <= n ->
  wp (ARC.evict objs n protected) (fun r p' =>
      match r with
      | None => p' = p
      | Some l => arc_wf_at cap p' /\ zlen l = n /\ arc_items p ≡ₚ l ++ arc_items p' /\ Forall (fun c => evictable objs protected c = true) l
      end) p.
Proof.
  intros [Hp Hcap0] Hn. unfold ARC.evict. destruct (n =? 0) eqn:E; [wp_steps; split_and!; try done; unfold zlen; simpl; lia|].
  apply wp_bind, wp_gets. cbn [id]. destruct (arc_select_spec objs protected p (Z.to_nat n) Hp [] ∅ (zlen (t1 p))) as (r & Hr & Hpost);
    [done|apply NoDup_nil_2|intros h; simpl; set_solver|].
  apply wp_bind. eapply wp_lift_res; [exact Hr|]. destruct r as [cs|]; [|by wp_steps]. destruct Hpost as (Hok & Hnd & Hlen).
  pose proof Hp as [Hcap Ht Hnd0 _ _].
  apply wp_bind. eapply wp_mono; [apply arc_apply_all; [done|done|]|].
  { eapply Forall_impl; [exact Hok|]. by intros c [? _]. }
  intros [] q (Hq & Hperm & Hqc & Hqt). 
  apply wp_bind, wp_zoom. eapply wp_mono; [apply arc_trim_wp; lia|]. intros [] g1 ->.
  apply wp_bind, wp_zoom. eapply wp_mono; [apply arc_trim_wp; lia|]. intros [] g2 ->. wp_steps. simpl.
  assert (Hdrop : forall g : list (bytes * unit), zlen (drop (Z.to_nat (zlen g - cache_capacity p)) g) <= cache_capacity p).
  { intros g. unfold zlen. rewrite length_drop. lia. }
  split_and!.
  - split; [|simpl; congruence]. split; simpl; rewrite ?Hqc, ?Hqt; try done.
    unfold arc_keys; simpl. eapply sublist_NoDup; [exact Hq|]. unfold arc_keys. 
    repeat apply sublist_app; try done; apply (fmap_sublist fst), sublist_drop.
  - unfold zlen. rewrite length_map, Hlen. simpl. lia.
  - done.
  - apply Forall_map. eapply Forall_impl; [exact Hok|]. by intros c [_ ?].
Qed.

Lemma arc_sublist_nodup p k1 k2 k3 k4 : NoDup (arc_keys p) -> k1 `sublist_of` od_keys (t1 p) -> k2 `sublist_of` od_keys (t2 p) ->
  k3 `sublist_of` od_keys (b1 p) -> k4 `sublist_of` od_keys (b2 p) -> NoDup (k1 ++ k2 ++ k3 ++ k4).
Proof. intros Hnd ? ? ? ?. eapply sublist_NoDup; [exact Hnd|]. unfold arc_keys. by repeat apply sublist_app. Qed.

Lemma od_delete_keys_sublist {V} (h : bytes) (d : list (bytes * V)) : od_keys (od_delete h d) `sublist_of` od_keys d.
Proof. apply (fmap_sublist fst), od_delete_sublist. Qed.

Lemma arc_insert_ok p h o : arc_wf p -> ARC.get h p = None ->
  arc_wf (ARC.insert h o p) /\ arc_items (ARC.insert h o p) ≡ₚ (h, o) :: arc_items p.
Proof.
  intros [Hcap Ht Hnd H1 H2] Hn. unfold ARC.get in Hn. destruct (od_lookup h (t1 p)) eqn:E1; [done|].
  apply od_lookup_None in E1, Hn. pose proof (arc_nodup_parts p Hnd) as (_ & _ & N3 & N4). split.
  - split; simpl; try done.
    + unfold arc_keys; simpl. rewrite (od_set_keys_new h o) by done. apply NoDup_cons. split.
      * rewrite !not_elem_of_app, !od_delete_keys by done. naive_solver.
      * apply (arc_sublist_nodup p); [done|done|done|apply od_delete_keys_sublist..].
    + pose proof (zlen_od_delete h (b1 p)). lia.
    + pose proof (zlen_od_delete h (b2 p)). lia.
  - unfold arc_items; simpl. rewrite od_set_new by done. solve_Permutation.
Qed.

Lemma arc_remove_ok p h o : arc_wf p -> ARC.get h p = Some o ->
  exists p', ARC.remove h p = Ok p' /\ arc_wf p' /\ cache_capacity p' = cache_capacity p /\ arc_items p ≡ₚ (h, o) :: arc_items p'.
Proof.
  intros [Hcap Ht Hnd H1 H2] Ho. unfold ARC.get in Ho. unfold ARC.remove, od_pop.
  destruct (od_lookup h (t1 p)) as [o'|] eqn:E1; simpl; (eexists; split; [reflexivity|]).
  - injection Ho as ->. split; [split; try done|split; [done|]].
    + apply (arc_sublist_nodup p); [done|apply od_delete_keys_sublist|done..].
    + unfold arc_items; simpl. by rewrite (od_delete_perm h o (t1 p)) at 1 by done.
  - split; [split; try done|split; [done|]].
    + apply (arc_sublist_nodup p); [done|done|apply od_delete_keys_sublist|done..].
    + unfold arc_items; simpl. rewrite (od_delete_perm h o (t2 p)) at 1 by done. solve_Permutation.
Qed.

#[export] Instance arc_policy_laws cap : CachePolicyLaws ARCCachePolicy arc_items (arc_wf_at cap).
Proof.
  split.
  - intros p [Hp _]. by apply arc_items_keys, aw_nodup.
  - intros p h o [Hp _]. by apply arc_get_spec, aw_nodup.
  - intros p h o [Hp Hc] Hn. destruct (arc_insert_ok p h o Hp Hn) as [? ?]. done.
  - intros p h o [Hp Hc] Ho. destruct (arc_remove_ok p h o Hp Ho) as (p' & Hr & Hp' & Hc' & Hperm). exists p'. split; [done|]. split; [|done].
    split; [done|congruence].
  - intros objs hs p Hp. by apply arc_touch_wp.
  - intros objs n protected p Hp Hn. by apply arc_evict_wp.
Qed.

(** ** The policy of a configuration *)

Definition any_items (p : AnyPolicy) : list (bytes * obj) := match p with PolicyLRU q => q | PolicyARC q => arc_items q end.
Definition any_wf (n : Z) (p : AnyPolicy) : Prop := match p with PolicyLRU q => NoDup (od_keys q) | PolicyARC q => arc_wf_at n q end.

Lemma on_policy_wp {A} lru arc (Q : A -> AnyPolicy -> Prop) p :
  match p with
  | PolicyLRU q => wp lru (fun a q' => Q a (PolicyLRU q')) q
  | PolicyARC q => wp arc (fun a q' => Q a (PolicyARC q')) q
  end -> wp (on_policy lru arc) Q p.
Proof. unfold wp, on_policy. destruct p as [q|q]; [by destruct (lru q)|by destruct (arc q)]. Qed.

#[export] Instance any_policy_laws n : CachePolicyLaws AnyPolicy any_items (any_wf n).
Proof.
  split.
  - intros [q|q] Hq; [exact (cl_nodup q Hq)|exact (cl_nodup q Hq)].
  - intros [q|q] h o Hq; [exact (cl_get q h o Hq)|exact (cl_get q h o Hq)].
  - intros [q|q] h o Hq; [exact (cl_insert q h o Hq)|exact (cl_insert q h o Hq)].
  - intros [q|q] h o Hq Ho; destruct (cl_remove q h o Hq Ho) as (q' & Hr & Hq' & Hperm); simpl in *; rewrite Hr; simpl;
      eexists; (split; [reflexivity|]); done.
  - intros objs hs [q|q] Hq; apply on_policy_wp; exact (cl_touch objs hs q Hq).
  - intros objs k protected [q|q] Hq Hn; apply on_policy_wp; eapply wp_mono; [exact (cl_evict objs k protected q Hq Hn)| |
      exact (cl_evict objs k protected q Hq Hn)|]; intros [l|] q'; simpl; congruence || done.
Qed.

Lemma cache_policies_wf name n p : 0 <= n < 2 ^ 53 -> cache_policies name n = Some p -> any_wf n p /\ any_items p = [].
Proof.
  intros Hn. unfold cache_policies. destruct (String.eqb name "lru"); [|destruct (String.eqb name "arc"); [|done]]; intros [= <-].
  - split; [apply NoDup_nil_2|done].
  - destruct (arc_new_wf n Hn). done.
Qed.
