(* ===== verification/OffloadManager.v ===== *)
(** The scheduler's side of KV offloading ([vllm/v1/kv_offload/]): the transfer
    specifications ([mediums.py]), the interface [OffloadingManager]
    ([abstract.py]), the CPU manager over a cache policy ([cpu/manager.py]) and
    the reuse filter that wraps another manager ([reuse_manager.py]). *)
From S2P Require Import Prelude.
From S2P Require Import PyDict.
From S2P Require Import OffloadPolicy.
Local Open Scope Z_scope.

(** ** Specifications and outputs *)

(** [CPULoadStoreSpec] and [GPULoadStoreSpec] with its assertions. *)
Record CPULoadStoreSpec := mkCPULoadStoreSpec { cpu_block_ids : list Z }.
Record GPULoadStoreSpec := mkGPULoadStoreSpec {
  gpu_block_ids : list Z;
  group_sizes : list Z;
  block_indices : option (list Z)
}.
Definition gpu_load_store_spec (block_ids sizes : list Z) (indices : option (list Z)) : res GPULoadStoreSpec :=
  if negb (foldr Z.add 0 sizes =? zlen block_ids) then Err AssertionError
  else if negb (match indices with None => true | Some l => zlen l =? zlen sizes end) then Err AssertionError
  else Ok (mkGPULoadStoreSpec block_ids sizes indices).
Definition cpu_medium : string := "CPU".
Definition gpu_medium : string := "GPU".

Record PrepareStoreOutput := mkPrepareStoreOutput {
  block_hashes_to_store : list bytes;
  store_spec : CPULoadStoreSpec;
  block_hashes_evicted : list bytes
}.

Record OffloadingEvent := mkOffloadingEvent {
  oe_block_hashes : list bytes;
  oe_block_size : Z;
  oe_medium : string;
  oe_removed : bool
}.

(** ** The interface *)

(** The methods of [OffloadingManager]; [take_events] is the generator consumed to
    its end, as its callers do. *)
Class OffloadingManager (T : Type) := {
  om_lookup : list bytes -> M T (option Z);
  om_prepare_load : list bytes -> M T CPULoadStoreSpec;
  om_touch : list bytes -> M T unit;
  om_complete_load : list bytes -> M T unit;
  om_prepare_store : list bytes -> M T (option PrepareStoreOutput);
  om_complete_store : list bytes -> bool -> M T unit;
  om_take_events : M T (list OffloadingEvent)
}.

(** ** The CPU manager *)

Record CPUOffloadingManager (P : Type) := mkManager {
  m_block_size : Z;
  m_num_blocks : Z;
  m_num_allocated_blocks : Z;
  m_free_list : list Z;
  m_events : option (list OffloadingEvent);
  m_policy : P;
  m_objs : list BlockStatus
}.
Arguments mkManager {P}. Arguments m_block_size {P}. Arguments m_num_blocks {P}.
Arguments m_num_allocated_blocks {P}. Arguments m_free_list {P}. Arguments m_events {P}.
Arguments m_policy {P}. Arguments m_objs {P}.

Section Setters.
Context {P : Type}.
Implicit Types m : CPUOffloadingManager P.
Definition set_num_allocated_blocks n m :=
  mkManager (m_block_size m) (m_num_blocks m) n (m_free_list m) (m_events m) (m_policy m) (m_objs m).
Definition set_free_list l m :=
  mkManager (m_block_size m) (m_num_blocks m) (m_num_allocated_blocks m) l (m_events m) (m_policy m) (m_objs m).
Definition set_m_events e m :=
  mkManager (m_block_size m) (m_num_blocks m) (m_num_allocated_blocks m) (m_free_list m) e (m_policy m) (m_objs m).
Definition set_policy (p : P) m :=
  mkManager (m_block_size m) (m_num_blocks m) (m_num_allocated_blocks m) (m_free_list m) (m_events m) p (m_objs m).
Definition set_objs os m :=
  mkManager (m_block_size m) (m_num_blocks m) (m_num_allocated_blocks m) (m_free_list m) (m_events m) (m_policy m) os.
End Setters.

(** [CPUOffloadingManager.__init__] *)
Definition new_manager (block_size num_blocks : Z) (cache_policy : string) (enable_events : bool)
    : res (CPUOffloadingManager AnyPolicy) :=
  match cache_policies cache_policy num_blocks with
  | None => Err ValueError
  | Some p => Ok (mkManager block_size num_blocks 0 [] (if enable_events then Some [] else None) p [])
  end.

Module CPUOffload.
Section Manager.
Context {P : Type} `{CachePolicy P}.
Abbreviation MM := (M (CPUOffloadingManager P)).

Definition on_cache {A} (f : M P A) : MM A := zoom m_policy set_policy f.

(** [self._policy.get(block_hash)] *)
Definition policy_get (block_hash : bytes) : MM (option obj) := gets (fun m => cp_get block_hash (m_policy m)).

(** [block.ref_cnt = f(block.ref_cnt)], stored in a C integer. *)
Definition set_ref_cnt (f : Z -> Z) (o : obj) : MM unit :=
  modify (fun m => set_objs (alter (fun b => mkBlockStatus (c_int32 (f (bs_ref_cnt b))) (bs_block_id b)) o (m_objs m)) m).

Definition get_num_free_blocks (m : CPUOffloadingManager P) : Z :=
  zlen (m_free_list m) + m_num_blocks m - m_num_allocated_blocks m.

(** [BlockStatus(block_id)] *)
Definition new_block (id : Z) : MM obj := fun m =>
  (Ok (length (m_objs m)), set_objs (m_objs m ++ [new_block_status id]) m).

(** [self._free_list.pop()] *)
Definition pop_free : MM Z := fun m =>
  match last (m_free_list m) with
  | Some id => (Ok id, set_free_list (removelast (m_free_list m)) m)
  | None => (Err IndexError, m)
  end.

Definition allocate_blocks (block_hashes : list bytes) : MM (list obj) :=
  m ← gets id ;
  let num_fresh := Z.min (zlen block_hashes) (m_num_blocks m - m_num_allocated_blocks m) in
  let num_reused := zlen block_hashes - num_fresh in
  py_assert (num_reused <=? zlen (m_free_list m)) ;;
  blocks ← foldM (fun blocks _ =>
    o ← (n ← gets m_num_allocated_blocks ; new_block n) ;
    modify (fun m => set_num_allocated_blocks (m_num_allocated_blocks m + 1) m) ;;
    mret (blocks ++ [o])) [] (zrange 0 num_fresh) ;
  foldM (fun blocks _ => id ← pop_free ; o ← new_block id ; mret (blocks ++ [o])) blocks (zrange 0 num_reused).

Definition free_block (o : obj) : MM unit :=
  modify (fun m => set_free_list (m_free_list m ++ [bs_block_id (deref (m_objs m) o)]) m).

Definition get_load_store_spec (blocks : list obj) : MM CPULoadStoreSpec :=
  gets (fun m => mkCPULoadStoreSpec (map (fun o => bs_block_id (deref (m_objs m) o)) blocks)).

(** The loop of [lookup]: blocks until the first that is absent or not ready. *)
Fixpoint lookup_loop (m : CPUOffloadingManager P) (block_hashes : list bytes) (hit_count : Z) : Z :=
  match block_hashes with
  | [] => hit_count
  | block_hash :: rest =>
      match cp_get block_hash (m_policy m) with
      | None => hit_count
      | Some o => if negb (is_ready (deref (m_objs m) o)) then hit_count else lookup_loop m rest (hit_count + 1)
      end
  end.
Definition lookup (block_hashes : list bytes) : MM (option Z) := gets (fun m => Some (lookup_loop m block_hashes 0)).

Definition prepare_load (block_hashes : list bytes) : MM CPULoadStoreSpec :=
  blocks ← foldM (fun blocks block_hash =>
    block ← policy_get block_hash ;
    o ← lift_opt AssertionError block ;
    m ← gets id ;
    py_assert (is_ready (deref (m_objs m) o)) ;;
    set_ref_cnt (fun c => c + 1) o ;;
    mret (blocks ++ [o])) [] block_hashes ;
  get_load_store_spec blocks.

Definition touch (block_hashes : list bytes) : MM unit :=
  m ← gets id ; on_cache (cp_touch (m_objs m) block_hashes).

Definition complete_load (block_hashes : list bytes) : MM unit :=
  forM_ block_hashes (fun block_hash =>
    block ← policy_get block_hash ;
    o ← lift_opt AssertionError block ;
    m ← gets id ;
    py_assert (0 <? bs_ref_cnt (deref (m_objs m) o)) ;;
    set_ref_cnt (fun c => c - 1) o).

(** [if ... and self.events is not None: self.events.append(...)] *)
Definition append_event (block_hashes : list bytes) (removed : bool) : MM unit :=
  m ← gets id ;
  match block_hashes, m_events m with
  | _ :: _, Some evs =>
      modify (set_m_events (Some (evs ++ [mkOffloadingEvent block_hashes (m_block_size m) cpu_medium removed])))
  | _, _ => mret tt
  end.

Definition prepare_store (block_hashes : list bytes) : MM (option PrepareStoreOutput) :=
  m ← gets id ;
  let to_store := filter (fun bh => cp_get bh (m_policy m) = None) block_hashes in
  if bool_decide (to_store = []) then
    spec ← get_load_store_spec [] ; mret (Some (mkPrepareStoreOutput [] spec []))
  else
    let num_blocks_to_evict := zlen to_store - get_num_free_blocks m in
    evicted ← (if 0 <? num_blocks_to_evict
               then on_cache (cp_evict (m_objs m) num_blocks_to_evict (list_to_set block_hashes))
               else mret (Some [])) ;
    match evicted with
    | None => mret None
    | Some evicted =>
        forM_ evicted (fun c => free_block c.2) ;;
        let to_evict := map fst evicted in
        append_event to_evict true ;;
        blocks ← allocate_blocks to_store ;
        py_assert (zlen blocks =? zlen to_store) ;;
        forM_ (zip to_store blocks) (fun hb => modify (fun m => set_policy (cp_insert hb.1 hb.2 (m_policy m)) m)) ;;
        spec ← get_load_store_spec blocks ;
        mret (Some (mkPrepareStoreOutput to_store spec to_evict))
    end.

Definition complete_store (block_hashes : list bytes) (success : bool) : MM unit :=
  stored ← (if success then
      foldM (fun stored block_hash =>
        block ← policy_get block_hash ;
        m ← gets id ;
        match block with
        | Some o => if negb (is_ready (deref (m_objs m) o)) then set_ref_cnt (fun _ => 0) o ;; mret (stored ++ [block_hash])
                    else mret stored
        | None => mret stored
        end) [] block_hashes
    else
      forM_ block_hashes (fun block_hash =>
        block ← policy_get block_hash ;
        m ← gets id ;
        match block with
        | Some o => when (negb (is_ready (deref (m_objs m) o)))
                      (p ← lift_res (cp_remove block_hash (m_policy m)) ; modify (set_policy p) ;; free_block o)
        | None => mret tt
        end) ;;
      mret []) ;
  append_event stored false.

Definition take_events : MM (list OffloadingEvent) :=
  evs ← gets m_events ;
  match evs with
  | Some l => modify (set_m_events (Some [])) ;; mret l
  | None => mret []
  end.
End Manager.
End CPUOffload.

#[export] Instance cpu_offloading_manager `{CachePolicy P} : OffloadingManager (CPUOffloadingManager P) := {
  om_lookup := CPUOffload.lookup;
  om_prepare_load := CPUOffload.prepare_load;
  om_touch := CPUOffload.touch;
  om_complete_load := CPUOffload.complete_load;
  om_prepare_store := CPUOffload.prepare_store;
  om_complete_store := CPUOffload.complete_store;
  om_take_events := CPUOffload.take_events
}.

(** ** The reuse filter *)

Record FilterReusedOffloadingManager (T : Type) := mkFilter {
  f_backing : T;
  f_store_threshold : Z;
  f_max_tracker_size : Z;
  f_counts : list (bytes * Z)
}.
Arguments mkFilter {T}. Arguments f_backing {T}. Arguments f_store_threshold {T}.
Arguments f_max_tracker_size {T}. Arguments f_counts {T}.

Module ReuseFilter.
Section Filter.
Context {T : Type} `{OffloadingManager T}.
Abbreviation FM := (M (FilterReusedOffloadingManager T)).

(** [__init__] *)
Definition new_filter (backing : T) (store_threshold max_tracker_size : Z) : res (FilterReusedOffloadingManager T) :=
  if store_threshold <? 2 then Err ValueError
  else if max_tracker_size <? 1 then Err ValueError
  else Ok (mkFilter backing store_threshold max_tracker_size []).

Definition on_backing {A} (f : M T A) : FM A :=
  zoom f_backing (fun b s => mkFilter b (f_store_threshold s) (f_max_tracker_size s) (f_counts s)) f.
Definition set_counts (c : list (bytes * Z)) (s : FilterReusedOffloadingManager T) :=
  mkFilter (f_backing s) (f_store_threshold s) (f_max_tracker_size s) c.

(** The body of the loop of [lookup]. *)
Definition record_hash (block_hash : bytes) : FM unit :=
  s ← gets id ;
  if od_mem block_hash (f_counts s) then
    d ← lift_res (od_move_to_end block_hash (f_counts s)) ;
    modify (set_counts d) ;;
    c ← lift_opt KeyError (od_lookup block_hash d) ;
    modify (set_counts (od_set block_hash (c + 1) d))
  else
    when (f_max_tracker_size s <=? zlen (f_counts s))
      (kv ← lift_res (od_popitem_first (f_counts s)) ; modify (set_counts kv.2)) ;;
    modify (fun s => set_counts (od_set block_hash 1 (f_counts s)) s).

Definition lookup (block_hashes : list bytes) : FM (option Z) :=
  forM_ block_hashes record_hash ;; on_backing (om_lookup block_hashes).

Definition prepare_store (block_hashes : list bytes) : FM (option PrepareStoreOutput) :=
  s ← gets id ;
  let eligible := filter (fun bh => f_store_threshold s <= default 0 (od_lookup bh (f_counts s))) block_hashes in
  on_backing (om_prepare_store eligible).

End Filter.
End ReuseFilter.

#[export] Instance filter_reused_offloading_manager `{OffloadingManager T} : OffloadingManager (FilterReusedOffloadingManager T) := {
  om_lookup := ReuseFilter.lookup;
  om_prepare_load hs := ReuseFilter.on_backing (om_prepare_load hs);
  om_touch hs := ReuseFilter.on_backing (om_touch hs);
  om_complete_load hs := ReuseFilter.on_backing (om_complete_load hs);
  om_prepare_store := ReuseFilter.prepare_store;
  om_complete_store hs ok := ReuseFilter.on_backing (om_complete_store hs ok);
  om_take_events := ReuseFilter.on_backing om_take_events
}.
