(* ===== verification/OffloadLemmas.v ===== *)
(** Invariants of the CPU offloading manager over any cache policy that satisfies
    [CachePolicyLaws], operation by operation. *)
From S2P Require Import Prelude.
From S2P Require Import PyDict.
From S2P Require Import OffloadPolicy.
From S2P Require Import OffloadPolicyLemmas.
From S2P Require Import OffloadManager.
Local Open Scope Z_scope.
Import CPUOffload.

Lemma occ_le_length `{EqDecision A} (x : A) l : (occ x l <= length l)%nat.
Proof. unfold occ. apply length_filter. Qed.

Section Manager.
Context {P : Type} `{CachePolicyLaws P items wf}.
Implicit Types m : CPUOffloadingManager P.

(** The status the manager has for a hash. *)
Definition blk m (h : bytes) : option BlockStatus := deref (m_objs m) <$> cp_get h (m_policy m).
Definition ready m (h : bytes) : bool := match blk m h with Some b => is_ready b | None => false end.

Definition id_of m (o : obj) : Z := bs_block_id (deref (m_objs m) o).

(** [L] are the loads in flight, [pend] the blocks allocated and not yet inserted:
    every buffer slot allocated so far belongs to one block or to the free list,
    and the reference count of a ready block is the number of its loads. *)
Record mgr_inv_pend m (L : list bytes) (pend : list obj) : Prop := {
  mi_wf : wf (m_policy m);
  mi_cap : 0 <= m_num_allocated_blocks m <= m_num_blocks m;
  mi_num_blocks : m_num_blocks m < 2 ^ 53;
  mi_valid : forall o, o ∈ map snd (items (m_policy m)) ++ pend -> (o < length (m_objs m))%nat;
  mi_ids : map (id_of m) (map snd (items (m_policy m)) ++ pend) ++ m_free_list m ≡ₚ zrange 0 (m_num_allocated_blocks m);
  mi_refs : forall h o, (h, o) ∈ items (m_policy m) ->
    let c := bs_ref_cnt (deref (m_objs m) o) in (c = -1 /\ h ∉ L) \/ c = Z.of_nat (occ h L);
  mi_pend : forall o, o ∈ pend -> bs_ref_cnt (deref (m_objs m) o) = -1;
  mi_loads : forall h, h ∈ L -> h ∈ od_keys (items (m_policy m));
  mi_width : zlen L < 2 ^ 31
}.
Definition mgr_inv m L := mgr_inv_pend m L [].

Lemma zrange_NoDup lo hi : NoDup (zrange lo hi).
Proof. apply NoDup_seqZ. Qed.

Section Views.
Context (m : CPUOffloadingManager P) (L : list bytes) (pend : list obj) (Hm : mgr_inv_pend m L pend).

Lemma inv_ids_NoDup : NoDup (map (id_of m) (map snd (items (m_policy m)) ++ pend) ++ m_free_list m).
Proof. rewrite (mi_ids _ _ _ Hm). apply zrange_NoDup. Qed.

Lemma inv_objs_NoDup : NoDup (map snd (items (m_policy m)) ++ pend).
Proof. eapply (NoDup_fmap_1 (id_of m)). pose proof inv_ids_NoDup as Hnd. by apply NoDup_app in Hnd as (? & _ & _). Qed.

Lemma inv_obj_unique h h' o : (h, o) ∈ items (m_policy m) -> (h', o) ∈ items (m_policy m) -> h = h'.
Proof.
  intros Hi Hi'. pose proof inv_objs_NoDup as Hnd. apply NoDup_app in Hnd as (Hnd & _ & _).
  assert (Hf : forall l : list (bytes * obj), NoDup (map snd l) -> (h, o) ∈ l -> (h', o) ∈ l -> h = h').
  { clear. induction l as [|[k v] l IH]; simpl; [by intros _ ?%elem_of_nil|]. intros [Hv Hnd]%NoDup_cons.
    rewrite !elem_of_cons. intros [E1|H1] [E2|H2]; simplify_eq; try done.
    - destruct Hv. by apply (list_elem_of_fmap_2 snd) in H2.
    - destruct Hv. by apply (list_elem_of_fmap_2 snd) in H1.
    - by apply IH. }
  by eapply Hf.
Qed.

Lemma blk_spec h b : blk m h = Some b <-> exists o, (h, o) ∈ items (m_policy m) /\ deref (m_objs m) o = b.
Proof.
  unfold blk. rewrite fmap_Some. split.
  - intros (o & Ho & ->). exists o. split; [|done]. apply cl_get; [apply Hm|done].
  - intros (o & Ho & <-). exists o. split; [|done]. apply (cl_get (m_policy m)); [apply Hm|done].
Qed.

(** Different hashes have different slots. *)
Lemma blk_ids_distinct h h' b b' : blk m h = Some b -> blk m h' = Some b' -> h <> h' -> bs_block_id b <> bs_block_id b'.
Proof.
  intros (o & Hi & <-)%blk_spec (o' & Hi' & <-)%blk_spec Hne Heq.
  assert (Hoo : o <> o') by (intros ->; by apply Hne, (inv_obj_unique h h' o')).
  pose proof inv_ids_NoDup as Hnd. apply NoDup_app in Hnd as (Hnd & _ & _). rewrite map_app in Hnd. apply NoDup_app in Hnd as (Hnd & _ & _).
  rewrite map_map in Hnd.
  assert (Hf : forall l : list (bytes * obj), NoDup (map (fun c => id_of m c.2) l) -> (h, o) ∈ l -> (h', o') ∈ l -> False); [|by eapply Hf].
  clear - Heq Hoo. unfold id_of in *. induction l as [|[k v] l IH]; simpl; [by intros _ ?%elem_of_nil|]. intros [Hv Hnd]%NoDup_cons.
  rewrite !elem_of_cons. intros [E1|H1] [E2|H2]; simplify_eq; try done.
  - destruct Hv. rewrite Heq. by apply (list_elem_of_fmap_2 (fun c => bs_block_id (deref (m_objs m) c.2))) in H2.
  - destruct Hv. rewrite <-Heq. by apply (list_elem_of_fmap_2 (fun c => bs_block_id (deref (m_objs m) c.2))) in H1.
  - by apply IH.
Qed.

Lemma blk_get h o : (h, o) ∈ items (m_policy m) -> cp_get h (m_policy m) = Some o.
Proof. intros Hi. apply (cl_get (m_policy m)); [apply Hm|done]. Qed.

Lemma blk_refs h b : blk m h = Some b -> (bs_ref_cnt b = -1 /\ h ∉ L) \/ bs_ref_cnt b = Z.of_nat (occ h L).
Proof. intros (o & Ho & <-)%blk_spec. by apply (mi_refs _ _ _ Hm h o). Qed.

Lemma not_ready_not_loaded h b : blk m h = Some b -> is_ready b = false -> h ∉ L.
Proof. intros Hb Hr. destruct (blk_refs h b Hb) as [[_ ?]|Hc]; [done|]. unfold is_ready in Hr. lia. Qed.

Lemma blk_loads h : h ∈ L -> exists b, blk m h = Some b /\ is_ready b = true /\ bs_ref_cnt b = Z.of_nat (occ h L) /\ 0 < bs_ref_cnt b.
Proof.
  intros Hh. pose proof (mi_loads _ _ _ Hm h Hh) as Hk. unfold od_keys in Hk. apply list_elem_of_fmap in Hk as ([h' o] & -> & Hi). simpl in *.
  exists (deref (m_objs m) o). split; [apply blk_spec; by exists o|]. apply occ_pos_iff in Hh as Hpos. unfold is_ready.
  destruct (mi_refs _ _ _ Hm h' o Hi) as [[_ ?]|Hc]; [done|]. rewrite Hc. split; [lia|]. split; [done|lia].
Qed.
End Views.

(** ** Reference counts *)

Lemma deref_alter f o o' objs : (o < length objs)%nat ->
  deref (alter f o objs) o' = if decide (o = o') then f (deref objs o) else deref objs o'.
Proof.
  intros Ho. unfold deref. case_decide as E.
  - subst o'. destruct (lookup_lt_is_Some_2 objs o Ho) as [b Hb]. by rewrite list_lookup_alter_eq, Hb.
  - by rewrite list_lookup_alter_ne by done.
Qed.

Lemma c_int32_id z : - 2 ^ 31 <= z < 2 ^ 31 -> c_int32 z = z.
Proof. intros Hz. unfold c_int32. rewrite Z.mod_small; lia. Qed.
Lemma c_int64_id z : 0 <= z < 2 ^ 53 -> c_int64 z = z.
Proof. intros Hz. unfold c_int64. rewrite Z.mod_small; lia. Qed.

(** Changing the count of the block of [h], with the loads [L'] afterwards. *)
Lemma inv_set_ref m L L' h o f : mgr_inv m L -> (h, o) ∈ items (m_policy m) ->
  (forall h', h' <> h -> occ h' L' = occ h' L) -> zlen L' < 2 ^ 31 ->
  c_int32 (f (bs_ref_cnt (deref (m_objs m) o))) = Z.of_nat (occ h L') ->
  wp (set_ref_cnt f o) (fun _ m' => mgr_inv m' L' /\ m' = set_objs (m_objs m') m
     /\ (forall o', id_of m' o' = id_of m o')
     /\ blk m' h = Some (mkBlockStatus (Z.of_nat (occ h L')) (id_of m o))
     /\ (forall h', h' <> h -> blk m' h' = blk m h')) m.
Proof.
  intros Hm Hi Hocc Hw Hc. unfold set_ref_cnt. wp_step. cbn beta.
  set (g := fun b => mkBlockStatus (c_int32 (f (bs_ref_cnt b))) (bs_block_id b)).
  assert (Ho : (o < length (m_objs m))%nat).
  { apply (mi_valid _ _ _ Hm). rewrite app_nil_r. by apply (list_elem_of_fmap_2 snd) in Hi. }
  assert (Hid : forall o', bs_block_id (deref (alter g o (m_objs m)) o') = bs_block_id (deref (m_objs m) o')).
  { intros o'. rewrite deref_alter by done. case_decide; [by subst|done]. }
  assert (Hg : g (deref (m_objs m) o) = mkBlockStatus (Z.of_nat (occ h L')) (id_of m o)) by (unfold g; by rewrite Hc).
  split_and!.
  - destruct Hm as [H1 H2 H2' H3 H4 H5 H6 H7 H8]. split; simpl; try done.
    + intros o'. rewrite length_alter. apply H3.
    + unfold id_of; simpl. rewrite <-H4. f_equiv. apply reflexive_eq, map_ext. intros o'. apply Hid.
    + intros h' o' Hi'. rewrite deref_alter by done. case_decide as E.
      * subst o'. rewrite (inv_obj_unique m L [] (Build_mgr_inv_pend _ _ _ H1 H2 H2' H3 H4 H5 H6 H7 H8) h' h o) by done. rewrite Hg. by right.
      * destruct (decide (h' = h)) as [->|Hne].
        { destruct E. eapply od_functional; [apply (cl_nodup _ H1)|done|done]. }
        rewrite <-occ_0_iff, Hocc, occ_0_iff by done. by apply H5.
    + intros o' Ho'. by apply elem_of_nil in Ho'.
    + intros h' Hh'. destruct (decide (h' = h)) as [->|Hne]; [by apply (list_elem_of_fmap_2 fst) in Hi|].
      apply H7, occ_pos_iff. rewrite <-Hocc by done. by apply occ_pos_iff.
  - done.
  - done.
  - unfold blk; simpl. rewrite (blk_get m L [] Hm h o Hi). simpl. rewrite deref_alter, decide_True by done. by rewrite Hg.
  - intros h' Hne. unfold blk; simpl. destruct (cp_get h' (m_policy m)) as [o'|] eqn:Ho'; [|done]. simpl.
    apply (cl_get (m_policy m)) in Ho'; [|apply Hm]. rewrite deref_alter by exact Ho. rewrite decide_False; [done|].
    intros ->. destruct Hne. by eapply (inv_obj_unique m L [] Hm).
Qed.

(** ** Loads *)

(** [lookup] counts the ready blocks up to the first that is not. *)
Lemma lookup_loop_spec m hs c : exists n : nat, lookup_loop m hs c = c + Z.of_nat n
  /\ Forall (fun h => ready m h = true) (take n hs)
  /\ match hs !! n with Some h => ready m h = false | None => n = length hs end.
Proof.
  revert c. induction hs as [|h hs IH]; intros c; simpl.
  - exists 0%nat. split; [lia|]. by split; [constructor|].
  - assert (Hh : ready m h = match cp_get h (m_policy m) with Some o => is_ready (deref (m_objs m) o) | None => false end).
    { unfold ready, blk. by destruct (cp_get h (m_policy m)). }
    destruct (cp_get h (m_policy m)) as [o|]; [destruct (is_ready (deref (m_objs m) o)) eqn:Hr; simpl|].
    + destruct (IH (c + 1)) as (n & Hn & H1 & H2). exists (S n). split; [lia|]. split; [by constructor|].
      simpl. destruct (hs !! n); [done|by f_equal].
    + exists 0%nat. split; [lia|]. split; [constructor|exact Hh].
    + exists 0%nat. split; [lia|]. split; [constructor|exact Hh].
Qed.

(** The block of [h] is the buffer slot [id]. *)
Definition has_id m (h : bytes) (id : Z) : Prop := exists b, blk m h = Some b /\ bs_block_id b = id.

Lemma prepare_load_wp m L hs : mgr_inv m L -> Forall (fun h => ready m h = true) hs -> zlen L + zlen hs < 2 ^ 31 ->
  wp (prepare_load hs) (fun spec m' => mgr_inv m' (hs ++ L) /\ m' = set_objs (m_objs m') m
    /\ (forall h, bs_block_id <$> blk m' h = bs_block_id <$> blk m h) /\ (forall h, ready m' h = ready m h)
    /\ Forall2 (has_id m) hs (cpu_block_ids spec)) m.
Proof.
  intros Hm Hr Hw. unfold prepare_load. apply wp_bind.
  eapply (wp_foldM (fun d t blocks m' => mgr_inv m' (d ++ L) /\ m' = set_objs (m_objs m') m
    /\ (forall o, id_of m' o = id_of m o)
    /\ (forall h, bs_block_id <$> blk m' h = bs_block_id <$> blk m h) /\ (forall h, ready m' h = ready m h)
    /\ Forall2 (fun h o => (h, o) ∈ items (m_policy m)) d blocks
    /\ Forall (fun h => ready m h = true) t /\ zlen (d ++ L) + zlen t < 2 ^ 31) _ []).
  - split_and!; try done. by destruct m.
  - intros d h t blocks m' (Hm' & Heq & Hid & Hids & Hrdy & Hblocks & [Hh Ht]%Forall_cons & Hlen).
    rewrite zlen_cons in Hlen. rewrite <-Hrdy in Hh. unfold ready in Hh. destruct (blk m' h) as [b|] eqn:Hb; [|done].
    apply (blk_spec m' _ _ Hm') in Hb as Ho. destruct Ho as (o & Hi & Hbo). subst b.
    assert (Hpol : m_policy m' = m_policy m) by (by rewrite Heq).
    wp_step. unfold policy_get. wp_step. wp_step. eapply wp_lift_opt; [by apply (blk_get m' _ _ Hm')|].
    wp_step. wp_step. wp_step. apply wp_assert; [done|]. wp_step.
    pose proof (blk_refs m' _ _ Hm' h _ Hb) as [[Hc _]|Hc]; [unfold is_ready in Hh; rewrite Hc in Hh; done|].
    pose proof (zlen_nonneg t) as Hnt. rewrite zlen_app in Hlen.
    eapply wp_mono; [eapply (inv_set_ref m' (d ++ L) ((d ++ [h]) ++ L) h o); [done|done| | |]|].
    + intros h' Hne. rewrite !occ_app, occ_cons_ne, occ_nil by done. lia.
    + rewrite !zlen_app. change (zlen [h]) with 1. lia.
    + rewrite Hc, !occ_app, occ_cons_eq, occ_nil. rewrite c_int32_id; [lia|].
      pose proof (occ_le_length h (d ++ L)). rewrite occ_app in *. unfold zlen in *. rewrite length_app in *. lia.
    + intros [] m'' (H1 & H2 & H3 & H4 & H5). wp_step. split_and!; try done.
      * rewrite H2, Heq. done.
      * intros o'. by rewrite H3.
      * intros h'. rewrite <-Hids. destruct (decide (h' = h)) as [->|Hne]; [|by rewrite H5]. by rewrite H4, Hb.
      * intros h'. rewrite <-Hrdy. unfold ready. destruct (decide (h' = h)) as [->|Hne]; [|by rewrite H5].
        rewrite H4, Hb, Hh. unfold is_ready; simpl. lia.
      * apply Forall2_app; [done|]. constructor; [|done]. by rewrite <-Hpol.
      * rewrite !zlen_app. change (zlen [h]) with 1. lia.
  - intros blocks m' (Hm' & Heq & Hid & Hids & Hrdy & Hblocks & _). unfold get_load_store_spec. wp_step.
    split_and!; try done. simpl. apply Forall2_fmap_r. eapply Forall2_impl; [exact Hblocks|]. intros h o Hi.
    exists (deref (m_objs m) o). split; [apply (blk_spec m L [] Hm); by exists o|]. symmetry. exact (Hid o).
Qed.

Lemma complete_load_wp m L hs : mgr_inv m (hs ++ L) ->
  wp (complete_load hs) (fun _ m' => mgr_inv m' L /\ m' = set_objs (m_objs m') m
    /\ (forall h, bs_block_id <$> blk m' h = bs_block_id <$> blk m h) /\ (forall h, ready m' h = ready m h)) m.
Proof.
  intros Hm. unfold complete_load.
  eapply (wp_forM_ (fun d t m' => mgr_inv m' (t ++ L) /\ m' = set_objs (m_objs m') m
    /\ (forall h, bs_block_id <$> blk m' h = bs_block_id <$> blk m h) /\ (forall h, ready m' h = ready m h)) _ []); [| |done].
  - split_and!; try done. by destruct m.
  - intros d h t m' (Hm' & Heq & Hids & Hrdy).
    destruct (blk_loads m' _ _ Hm' h) as (b & Hb & Hr & Hc & Hpos); [left|].
    apply (blk_spec m' _ _ Hm') in Hb as Ho. destruct Ho as (o & Hi & Hbo). subst b.
    wp_step. unfold policy_get. wp_step. wp_step. eapply wp_lift_opt; [by apply (blk_get m' _ _ Hm')|].
    wp_step. wp_step. wp_step. apply wp_assert; [cbn [id]; lia|].
    pose proof (mi_width _ _ _ Hm') as Hlen. rewrite <-app_comm_cons, zlen_cons in Hlen.
    eapply wp_mono; [eapply (inv_set_ref m' (h :: t ++ L) (t ++ L) h o); [done|done| | |]|].
    + intros h' Hne. by rewrite occ_cons_ne.
    + lia.
    + rewrite Hc. simpl. rewrite occ_cons_eq. rewrite c_int32_id; [lia|].
      pose proof (occ_le_length h (t ++ L)). unfold zlen in *. lia.
    + intros [] m'' (H1 & H2 & H3 & H4 & H5). split_and!; try done.
      * rewrite H2, Heq. done.
      * intros h'. rewrite <-Hids. destruct (decide (h' = h)) as [->|Hne]; [|by rewrite H5]. by rewrite H4, Hb.
      * intros h'. rewrite <-Hrdy. unfold ready. destruct (decide (h' = h)) as [->|Hne]; [|by rewrite H5].
        rewrite H4, Hb, Hr. unfold is_ready; simpl. lia.
Qed.

(** ** Recency *)

Lemma inv_items_perm m L p : mgr_inv m L -> wf p -> items p ≡ₚ items (m_policy m) ->
  mgr_inv (set_policy p m) L /\ forall h, blk (set_policy p m) h = blk m h.
Proof.
  intros Hm Hp Hperm. split.
  - destruct Hm as [H1 H2 H2' H3 H4 H5 H6 H7 H8]. split; simpl; try done.
    + intros o. rewrite Hperm. apply H3.
    + rewrite <-H4. by rewrite Hperm.
    + intros h o. rewrite Hperm. apply H5.
    + intros h. rewrite Hperm. apply H7.
  - intros h. unfold blk; simpl. f_equal. apply option_eq. intros o. rewrite (cl_get p), (cl_get (m_policy m)), Hperm by (done || apply Hm). done.
Qed.

Lemma offload_touch_wp m L hs : mgr_inv m L ->
  wp (touch hs) (fun _ m' => mgr_inv m' L /\ m' = set_policy (m_policy m') m /\ forall h, blk m' h = blk m h) m.
Proof.
  intros Hm. unfold touch, on_cache. wp_step. wp_step. cbn [id]. wp_step.
  eapply wp_mono; [apply cl_touch, Hm|]. intros [] p (Hp & Hperm). destruct (inv_items_perm m L p Hm Hp Hperm). done.
Qed.

(** ** Events *)

Definition events_after m (hs : list bytes) (removed : bool) : option (list OffloadingEvent) :=
  match hs, m_events m with
  | _ :: _, Some evs => Some (evs ++ [mkOffloadingEvent hs (m_block_size m) cpu_medium removed])
  | _, evs => evs
  end.

Lemma append_event_wp m hs removed :
  wp (append_event hs removed) (fun _ m' => m' = set_m_events (events_after m hs removed) m) m.
Proof.
  unfold append_event, events_after. wp_step. wp_step. cbn [id].
  destruct hs, (m_events m) eqn:E; wp_steps; rewrite <-?E; by destruct m.
Qed.

Lemma inv_events m L pend e : mgr_inv_pend m L pend <-> mgr_inv_pend (set_m_events e m) L pend.
Proof. split; intros [H1 H2 H2' H3 H4 H5 H6 H7 H8]; by split. Qed.

(** ** Completed and failed stores *)

(** A store completed: the blocks of [hs] that were not ready are, idle. *)
Definition stored_blk m (hs : list bytes) (h : bytes) : option BlockStatus :=
  match blk m h with
  | Some b => Some (if bool_decide (h ∈ hs) && negb (is_ready b) then mkBlockStatus 0 (bs_block_id b) else b)
  | None => None
  end.

Definition newly_stored m (hs : list bytes) (h : bytes) : Prop := h ∈ hs /\ ready m h = false /\ is_Some (blk m h).

Lemma stored_blk_snoc m d h h' : stored_blk m (d ++ [h]) h' =
  if decide (h' = h)
  then match stored_blk m d h with Some b => Some (if is_ready b then b else mkBlockStatus 0 (bs_block_id b)) | None => None end
  else stored_blk m d h'.
Proof.
  unfold stored_blk. case_decide as E.
  - subst h'. destruct (blk m h) as [b|]; [|done]. f_equal. rewrite bool_decide_eq_true_2 by set_solver. simpl.
    destruct (bool_decide (h ∈ d)), (is_ready b) eqn:Hr; simpl; rewrite ?Hr; done.
  - by assert (bool_decide (h' ∈ d ++ [h]) = bool_decide (h' ∈ d)) as -> by (apply bool_decide_ext; set_solver).
Qed.

Lemma newly_stored_snoc m d h h' : newly_stored m (d ++ [h]) h' <->
  newly_stored m d h' \/ (h' = h /\ exists b, stored_blk m d h = Some b /\ is_ready b = false).
Proof.
  unfold newly_stored, stored_blk, ready. rewrite elem_of_app, list_elem_of_singleton. split.
  - intros ([Hd| ->] & Hr & [b Hb]); [left; by rewrite Hb in *|]. rewrite Hb in *.
    destruct (decide (h ∈ d)) as [Hd|Hd]; [by left|]. right. split; [done|]. exists b.
    by rewrite bool_decide_eq_false_2 by done.
  - intros [(Hd & Hr & Hs)|(-> & b & Hb & Hr)]; [by split_and!; [left|..]|].
    destruct (blk m h) as [b'|] eqn:Hbm; [|done]. injection Hb as <-.
    destruct (is_ready b') eqn:Hr'; [by rewrite andb_false_r, Hr' in Hr|]. split_and!; [by right|done|done].
Qed.

Lemma complete_store_ok_loop m L hs : mgr_inv m L ->
  wp (foldM (fun stored block_hash =>
        block ← policy_get block_hash ;
        m ← gets id ;
        match block with
        | Some o => if negb (is_ready (deref (m_objs m) o)) then set_ref_cnt (fun _ => 0) o ;; mret (stored ++ [block_hash])
                    else mret stored
        | None => mret stored
        end) [] hs)
    (fun stored m' => mgr_inv m' L /\ m' = set_objs (m_objs m') m /\ (forall h, blk m' h = stored_blk m hs h)
       /\ (forall h, h ∈ stored <-> newly_stored m hs h)) m.
Proof.
  intros Hm.
  eapply (wp_foldM (fun d t stored m' => mgr_inv m' L /\ m' = set_objs (m_objs m') m /\ (forall h, blk m' h = stored_blk m d h)
     /\ (forall h, h ∈ stored <-> newly_stored m d h)) _ []); [| |done].
  - split_and!; [done|by destruct m| |].
    + intros h. unfold stored_blk. by destruct (blk m h).
    + intros h. unfold newly_stored. split; [by intros ?%elem_of_nil|]. intros [?%elem_of_nil _]. done.
  - intros d h t stored m' (Hm' & Heq & Hblk & Hst).
    wp_step. unfold policy_get. wp_step. wp_step. wp_step. cbn [id].
    destruct (cp_get h (m_policy m')) as [o|] eqn:Ho.
    + apply (cl_get (m_policy m')) in Ho as Hi; [|apply Hm'].
      assert (Hb : blk m' h = Some (deref (m_objs m') o)) by (apply (blk_spec m' L [] Hm'); by exists o).
      destruct (is_ready (deref (m_objs m') o)) eqn:Hr; simpl.
      * wp_step. split_and!; [done|done| |]; intros h'.
        -- rewrite stored_blk_snoc, <-!Hblk. case_decide as E; [|done]. by rewrite E, Hb, Hr.
        -- rewrite newly_stored_snoc, <-Hblk, Hb, Hst. naive_solver congruence.
      * pose proof (not_ready_not_loaded m' L _ Hm' h _ Hb Hr) as HhL. apply occ_0_iff in HhL.
        apply wp_bind. eapply wp_mono; [apply (inv_set_ref m' L L h o _ Hm' Hi)|]; [done|apply Hm'|by rewrite HhL|].
        intros [] m'' (H1 & H2 & _ & H4 & H5). wp_step. split_and!; [done|by rewrite H2, Heq| |]; intros h'.
        -- rewrite stored_blk_snoc, <-!Hblk. case_decide as E; [|by apply H5]. by rewrite E, H4, Hb, Hr, HhL.
        -- rewrite newly_stored_snoc, <-Hblk, Hb, elem_of_app, Hst, list_elem_of_singleton. naive_solver.
    + assert (Hb : blk m' h = None) by (unfold blk; by rewrite Ho).
      wp_step. split_and!; [done|done| |]; intros h'.
      * rewrite stored_blk_snoc, <-!Hblk. case_decide as E; [|done]. by rewrite E, Hb.
      * rewrite newly_stored_snoc, <-Hblk, Hb, Hst. naive_solver.
Qed.

(** ** Blocks that leave the cache *)

(** Blocks [l] without loads leave the policy and their slots become free. *)
Lemma inv_release m L p l : mgr_inv m L -> wf p -> items (m_policy m) ≡ₚ l ++ items p -> (forall h, h ∈ od_keys l -> h ∉ L) ->
  let m' := set_free_list (m_free_list m ++ map (fun c => id_of m c.2) l) (set_policy p m) in
  mgr_inv m' L /\ forall h, blk m' h = if decide (h ∈ od_keys l) then None else blk m h.
Proof.
  intros Hm Hp Hperm Hl m'. pose proof (cl_nodup _ (mi_wf _ _ _ Hm)) as Hnd. rewrite Hperm in Hnd. unfold od_keys in Hnd.
  rewrite map_app in Hnd. apply NoDup_app in Hnd as (_ & Hdisj & _). fold (od_keys l) (od_keys (items p)) in Hdisj. split.
  - destruct Hm as [H1 H2 H2' H3 H4 H5 H6 H7 H8]. split; simpl; try done.
    + intros o Ho. apply H3. rewrite Hperm, map_app, !elem_of_app. rewrite elem_of_app in Ho. naive_solver.
    + rewrite <-H4, Hperm, !app_nil_r, !map_app, <-(map_map snd (id_of m)). change (id_of m') with (id_of m). solve_Permutation.
    + intros h o Hi. apply H5. rewrite Hperm, elem_of_app. by right.
    + intros h Hh. specialize (H7 h Hh). rewrite Hperm in H7. unfold od_keys in H7. rewrite map_app, elem_of_app in H7.
      destruct H7 as [H7|H7]; [|done]. by destruct (Hl h H7).
  - intros h. unfold blk, m'; simpl. case_decide as E.
    + rewrite (proj2 (cl_get_None p h Hp)); [done|]. by apply Hdisj.
    + f_equal. apply option_eq. intros o. rewrite (cl_get p), (cl_get (m_policy m)), Hperm, elem_of_app by (done || apply Hm).
      split; [by right|]. intros [Hi|]; [|done]. destruct E. by apply (list_elem_of_fmap_2 fst) in Hi.
Qed.

(** A store failed: the blocks of [hs] that were not ready are gone. *)
Lemma complete_store_fail_loop m L hs : mgr_inv m L ->
  wp (forM_ hs (fun block_hash =>
        block ← policy_get block_hash ;
        m ← gets id ;
        match block with
        | Some o => when (negb (is_ready (deref (m_objs m) o)))
                      (p ← lift_res (cp_remove block_hash (m_policy m)) ; modify (set_policy p) ;; free_block o)
        | None => mret tt
        end))
    (fun _ m' => mgr_inv m' L /\ m_events m' = m_events m /\ m_block_size m' = m_block_size m /\ m_num_blocks m' = m_num_blocks m
       /\ (forall h, blk m' h = if decide (h ∈ hs /\ ready m h = false) then None else blk m h)) m.
Proof.
  intros Hm.
  eapply (wp_forM_ (fun d t m' => mgr_inv m' L /\ m_events m' = m_events m /\ m_block_size m' = m_block_size m /\ m_num_blocks m' = m_num_blocks m
     /\ (forall h, blk m' h = if decide (h ∈ d /\ ready m h = false) then None else blk m h)) _ []); [| |done].
  - by split_and!.
  - intros d h t m' (Hm' & He & Hbs & Hnb & Hblk).
    assert (Hsnoc : forall h', (if decide (h' ∈ d ++ [h] /\ ready m h' = false) then None else blk m h')
      = if decide (h' = h /\ ready m' h = false) then None else blk m' h').
    { intros h'. assert (Hrdy : forall k, ready m' k = if decide (k ∈ d /\ ready m k = false) then false else ready m k).
      { intros k. unfold ready at 1. rewrite Hblk. by case_decide. }
      rewrite Hblk. rewrite Hrdy. repeat case_decide; set_solver. }
    apply wp_bind, wp_gets, wp_bind, wp_gets. cbn beta. cbn [id].
    destruct (cp_get h (m_policy m')) as [o|] eqn:Ho.
    + apply (cl_get (m_policy m')) in Ho as Hi; [|apply Hm'].
      assert (Hb : blk m' h = Some (deref (m_objs m') o)) by (apply (blk_spec m' L [] Hm'); by exists o).
      destruct (is_ready (deref (m_objs m') o)) eqn:Hr; simpl.
      * apply wp_ret. split_and!; try done. intros h'. rewrite Hsnoc, decide_False; [done|].
        intros [-> Hn]. unfold ready in Hn. rewrite Hb, Hr in Hn. done.
      * destruct (cl_remove (m_policy m') h o) as (p & Hrm & Hp & Hperm); [apply Hm'|done|].
        apply wp_bind. eapply wp_lift_res; [exact Hrm|]. apply wp_bind, wp_modify, wp_modify.
        destruct (inv_release m' L p [(h, o)] Hm' Hp Hperm) as [Hm'' Hblk'].
        { intros h' ->%list_elem_of_singleton. by eapply (not_ready_not_loaded m' L). }
        split_and!; try done. intros h'. rewrite Hsnoc. rewrite Hblk'. unfold od_keys; simpl.
        unfold ready. rewrite Hb, Hr. repeat case_decide; set_solver.
    + apply wp_ret. split_and!; try done. intros h'. rewrite Hsnoc. destruct (decide (h' = h /\ ready m' h = false)) as [[-> _]|]; [|done].
      unfold blk. by rewrite Ho.
Qed.

(** [complete_store]: its effect on every block, and the events. *)
Lemma complete_store_wp m L hs success : mgr_inv m L ->
  wp (complete_store hs success) (fun _ m' => exists stored, mgr_inv m' L
      /\ (forall h, blk m' h = if success then stored_blk m hs h else if decide (h ∈ hs /\ ready m h = false) then None else blk m h)
      /\ m_events m' = events_after m stored false /\ m_block_size m' = m_block_size m /\ m_num_blocks m' = m_num_blocks m
      /\ forall h, h ∈ stored <-> success = true /\ newly_stored m hs h) m.
Proof.
  intros Hm. unfold complete_store. apply wp_bind. destruct success.
  - eapply wp_mono; [by apply complete_store_ok_loop|]. intros stored m' (Hm' & Heq & Hblk & Hst).
    eapply wp_mono; [apply append_event_wp|]. intros [] m'' ->. exists stored. split_and!; try done.
    + by apply (inv_events m' L []).
    + unfold events_after. by rewrite Heq.
    + simpl. by rewrite Heq.
    + simpl. by rewrite Heq.
    + intros h. rewrite Hst. naive_solver.
  - apply wp_bind. eapply wp_mono; [by apply complete_store_fail_loop|]. intros [] m' (Hm' & He & Hbs & Hnb & Hblk). apply wp_ret.
    eapply wp_mono; [apply append_event_wp|]. intros [] m'' ->. exists []. split_and!; try done.
    + by apply (inv_events m' L []).
    + intros h. rewrite elem_of_nil. naive_solver.
Qed.

(** ** Allocation *)

Lemma deref_app objs b o : (o < length objs)%nat -> deref (objs ++ [b]) o = deref objs o.
Proof. intros Ho. unfold deref. by rewrite lookup_app_l. Qed.
Lemma deref_new objs b : deref (objs ++ [b]) (length objs) = b.
Proof. unfold deref. by rewrite list_lookup_middle. Qed.

(** What allocation leaves alone. *)
Definition same_cache m m' : Prop :=
  m_policy m' = m_policy m /\ m_events m' = m_events m /\ m_block_size m' = m_block_size m /\ m_num_blocks m' = m_num_blocks m
  /\ (length (m_objs m) <= length (m_objs m'))%nat /\ forall o, (o < length (m_objs m))%nat -> deref (m_objs m') o = deref (m_objs m) o.

#[local] Instance same_cache_preorder : PreOrder same_cache.
Proof.
  split; [intros m; by repeat split|]. intros m1 m2 m3 (H1 & H2 & H3 & H4 & H5 & H6) (K1 & K2 & K3 & K4 & K5 & K6).
  split_and!; try congruence; [lia|]. intros o Ho. rewrite K6 by lia. by apply H6.
Qed.

Lemma inv_new_block m L pend id n free : mgr_inv_pend m L pend -> 0 <= id < 2 ^ 53 -> 0 <= n <= m_num_blocks m ->
  map (id_of m) (map snd (items (m_policy m)) ++ pend) ++ id :: free ≡ₚ zrange 0 n ->
  let m' := set_objs (m_objs m ++ [new_block_status id]) (set_free_list free (set_num_allocated_blocks n m)) in
  mgr_inv_pend m' L (pend ++ [length (m_objs m)]) /\ same_cache m m'.
Proof.
  intros Hm Hid Hn Hperm m'. pose proof Hm as [H1 H2 H2' H3 H4 H5 H6 H7 H8].
  assert (Hold : forall o, (o < length (m_objs m))%nat -> deref (m_objs m') o = deref (m_objs m) o) by (intros o Ho; by apply deref_app).
  assert (Hi : forall h o, (h, o) ∈ items (m_policy m) -> (o < length (m_objs m))%nat).
  { intros h o Hi. apply H3, elem_of_app. left. by apply (list_elem_of_fmap_2 snd) in Hi. }
  split; [split; simpl; try done|].
  - intros o. rewrite length_app, app_assoc, elem_of_app, list_elem_of_singleton. simpl. intros [Ho| ->]; [|lia]. specialize (H3 o Ho). lia.
  - rewrite app_assoc, map_app. simpl. rewrite <-Hperm. unfold id_of at 2. simpl. rewrite deref_new. simpl. rewrite c_int64_id by done.
    rewrite <-app_assoc. simpl. f_equiv. apply reflexive_eq, map_ext_in. intros o Ho. apply list_elem_of_In in Ho. unfold id_of.
    by rewrite Hold by (by apply H3).
  - intros h o Ho. rewrite deref_app by (by eapply Hi). by apply H5.
  - intros o. rewrite elem_of_app, list_elem_of_singleton. intros [Ho| ->].
    + rewrite deref_app by (apply H3, elem_of_app; by right). by apply H6.
    + by rewrite deref_new.
  - split_and!; try done. simpl. rewrite length_app. lia.
Qed.

Lemma inv_id_bound m L pend id : mgr_inv_pend m L pend -> id ∈ m_free_list m -> 0 <= id < 2 ^ 53.
Proof.
  intros [H1 H2 H2' H3 H4 _ _ _ _] Hid. assert (id ∈ zrange 0 (m_num_allocated_blocks m)) as Hin.
  { rewrite <-H4. apply elem_of_app. by right. }
  apply elem_of_zrange in Hin. lia.
Qed.

Lemma alloc_fresh_wp m L n : mgr_inv m L -> 0 <= n -> m_num_allocated_blocks m + n <= m_num_blocks m ->
  wp (foldM (fun blocks (_ : Z) =>
    o ← (n ← gets m_num_allocated_blocks ; new_block n) ;
    modify (fun m => set_num_allocated_blocks (m_num_allocated_blocks m + 1) m) ;;
    mret (blocks ++ [o])) [] (zrange 0 n))
  (fun blocks m' => mgr_inv_pend m' L blocks /\ same_cache m m' /\ zlen blocks = n /\ m_free_list m' = m_free_list m) m.
Proof.
  intros Hm Hn Hb.
  eapply (wp_foldM (fun d t blocks m' => mgr_inv_pend m' L blocks /\ same_cache m m' /\ m_free_list m' = m_free_list m
    /\ zlen blocks = zlen d /\ m_num_allocated_blocks m' + zlen t <= m_num_blocks m) _ []).
  - split_and!; try done. unfold zlen, zrange. rewrite length_seqZ. lia.
  - intros d x t blocks m' (Hm' & Hs & Hfree & Hlen & Hbound). rewrite zlen_cons in Hbound. pose proof (zlen_nonneg t).
    apply wp_bind, wp_bind, wp_gets. cbn beta. unfold new_block, wp at 1.
    pose proof (mi_cap _ _ _ Hm') as Hcap. pose proof (mi_num_blocks _ _ _ Hm') as Hnb.
    assert (Heqb : m_num_blocks m' = m_num_blocks m) by apply Hs.
    destruct (inv_new_block m' L blocks (m_num_allocated_blocks m') (m_num_allocated_blocks m' + 1) (m_free_list m')) as [Hnew Hs'];
      [done|lia|lia| |].
    { rewrite zrange_snoc by lia. rewrite <-(mi_ids _ _ _ Hm'). solve_Permutation. }
    apply wp_bind, wp_modify, wp_ret. split_and!; [exact Hnew|by transitivity m'|done| |simpl; lia].
    rewrite !zlen_app. by rewrite Hlen.
  - intros blocks m' (Hm' & Hs & Hfree & Hlen & _). split_and!; try done. rewrite Hlen. unfold zlen, zrange. simpl. rewrite length_seqZ. lia.
Qed.

Lemma last_removelast {A} (l : list A) x : last l = Some x -> l = removelast l ++ [x].
Proof. intros [l' ->]%last_Some. by rewrite removelast_last. Qed.

Lemma alloc_reused_wp m L n blocks0 : mgr_inv_pend m L blocks0 -> 0 <= n <= zlen (m_free_list m) ->
  wp (foldM (fun blocks (_ : Z) => id ← pop_free ; o ← new_block id ; mret (blocks ++ [o])) blocks0 (zrange 0 n))
  (fun blocks m' => mgr_inv_pend m' L blocks /\ same_cache m m' /\ zlen blocks = zlen blocks0 + n) m.
Proof.
  intros Hm Hn.
  eapply (wp_foldM (fun d t blocks m' => mgr_inv_pend m' L blocks /\ same_cache m m'
    /\ zlen blocks = zlen blocks0 + zlen d /\ zlen t <= zlen (m_free_list m')) _ []).
  - split_and!; try done; [rewrite zlen_nil; lia|]. unfold zrange, zlen in *. rewrite length_seqZ. lia.
  - intros d x t blocks m' (Hm' & Hs & Hlen & Hbound). rewrite zlen_cons in Hbound. pose proof (zlen_nonneg t).
    destruct (last (m_free_list m')) as [id|] eqn:Hlast.
    2:{ apply last_None in Hlast. rewrite Hlast, zlen_nil in Hbound. lia. }
    apply last_removelast in Hlast as Hfree.
    assert (Hid : id ∈ m_free_list m') by (rewrite Hfree, elem_of_app; right; left).
    pose proof (mi_cap _ _ _ Hm') as Hcap.
    destruct (inv_new_block m' L blocks id (m_num_allocated_blocks m') (removelast (m_free_list m'))) as [Hnew Hs'];
      [done|by eapply inv_id_bound|lia| |].
    { rewrite <-(mi_ids _ _ _ Hm'). rewrite Hfree at 2. solve_Permutation. }
    apply wp_bind. unfold pop_free, wp at 1. rewrite Hlast. apply wp_bind. unfold new_block, wp at 1. apply wp_ret.
    change (set_num_allocated_blocks (m_num_allocated_blocks m') m') with (set_num_allocated_blocks (m_num_allocated_blocks m') m') in *.
    assert (Hsame : set_num_allocated_blocks (m_num_allocated_blocks m') m' = m') by (by destruct m').
    rewrite Hsame in Hnew, Hs'. split_and!; [exact Hnew|by transitivity m'| |].
    + rewrite !zlen_app. rewrite Hlen. change (zlen [x]) with 1. unfold zlen; simpl. lia.
    + simpl. rewrite Hfree, zlen_app in Hbound. change (zlen [id]) with 1 in Hbound. lia.
  - intros blocks m' (Hm' & Hs & Hlen & _). split_and!; try done. rewrite Hlen. unfold zlen, zrange. simpl. rewrite length_seqZ. lia.
Qed.

Lemma allocate_blocks_wp m L hs : mgr_inv m L -> zlen hs <= get_num_free_blocks m ->
  wp (allocate_blocks hs) (fun blocks m' => mgr_inv_pend m' L blocks /\ same_cache m m' /\ zlen blocks = zlen hs) m.
Proof.
  intros Hm Hle. unfold get_num_free_blocks in Hle. pose proof (mi_cap _ _ _ Hm) as Hcap.
  pose proof (zlen_nonneg hs). pose proof (zlen_nonneg (m_free_list m)).
  unfold allocate_blocks. apply wp_bind, wp_gets. cbn beta. cbn [id]. apply wp_bind, wp_assert; [lia|].
  apply wp_bind. eapply wp_mono; [apply (alloc_fresh_wp m L); [done|lia|lia]|]. intros blocks m1 (Hm1 & Hs1 & Hlen1 & Hf1).
  eapply wp_mono; [apply (alloc_reused_wp m1 L); [done|rewrite Hf1; lia]|]. intros blocks' m2 (Hm2 & Hs2 & Hlen2).
  split_and!; [done|by transitivity m1|lia].
Qed.

(** Inserting the allocated blocks. *)
Lemma insert_blocks_wp hs : forall m L blocks, mgr_inv_pend m L blocks -> length hs = length blocks -> NoDup hs ->
  (forall h, h ∈ hs -> blk m h = None) ->
  wp (forM_ (zip hs blocks) (fun hb => modify (fun m => set_policy (cp_insert hb.1 hb.2 (m_policy m)) m)))
    (fun _ m' => mgr_inv m' L /\ m' = set_policy (m_policy m') m
       /\ (forall h, h ∉ hs -> blk m' h = blk m h)
       /\ Forall2 (fun h o => blk m' h = Some (mkBlockStatus (-1) (id_of m o))) hs blocks) m.
Proof.
  induction hs as [|h hs IH]; intros m L blocks Hm Hlen Hnd Hnone; destruct blocks as [|o blocks]; try done; simpl.
  { apply wp_ret. split_and!; [done|by destruct m|done|constructor]. }
  apply NoDup_cons in Hnd as [Hh Hnd]. pose proof Hm as [H1 H2 H2' H3 H4 H5 H6 H7 H8].
  assert (Hn : cp_get h (m_policy m) = None).
  { specialize (Hnone h ltac:(left)). unfold blk in Hnone. by destruct (cp_get h (m_policy m)). }
  destruct (cl_insert (m_policy m) h o H1 Hn) as [Hp Hperm]. set (p := cp_insert h o (m_policy m)) in *.
  apply wp_bind, wp_modify. fold p. set (m1 := set_policy p m).
  assert (Hm1 : mgr_inv_pend m1 L blocks).
  { split; simpl; try done.
    - intros o'. rewrite Hperm. intros Ho'. apply H3. simpl in Ho'. set_solver.
    - rewrite <-H4. rewrite Hperm. change (id_of m1) with (id_of m). simpl. rewrite !map_app. simpl. solve_Permutation.
    - intros h' o'. rewrite Hperm, elem_of_cons. intros [[= -> ->]|Hi]; [|by apply H5].
      left. split; [apply H6; left|]. intros HL. specialize (H7 h HL). by apply (cl_get_None (m_policy m)) in Hn.
    - intros o' Ho'. apply H6. by right.
    - intros h' HL. rewrite Hperm. right. by apply H7. }
  assert (Hblk1 : forall h', blk m1 h' = if decide (h' = h) then Some (mkBlockStatus (-1) (id_of m o)) else blk m h').
  { intros h'. unfold blk at 1. simpl. case_decide as E.
    - subst h'. rewrite (proj2 (cl_get p h o Hp)) by (rewrite Hperm; left). simpl. f_equal.
      rewrite <-(H6 o) by left. unfold id_of. by destruct (deref (m_objs m) o).
    - unfold blk. f_equal. apply option_eq. intros o'. rewrite (cl_get p), (cl_get (m_policy m)), Hperm, elem_of_cons by done.
      split; [|by right]. intros [[= ? ?]|]; done. }
  eapply wp_mono; [apply (IH m1 L blocks Hm1)|].
  - simpl in Hlen. lia.
  - done.
  - intros h' Hh'. rewrite Hblk1, decide_False by (intros ->; done). apply Hnone. by right.
  - intros [] m' (Hm' & Heq & Hother & Hall). split_and!; [done|by rewrite Heq| |].
    + intros h' [Hne Hn']%not_elem_of_cons. rewrite Hother, Hblk1, decide_False by done. done.
    + constructor; [|done]. rewrite Hother, Hblk1, decide_True by done. done.
Qed.

(** ** Stores *)

Lemma same_cache_blk m m' L : mgr_inv m L -> same_cache m m' -> forall h, blk m' h = blk m h.
Proof.
  intros Hm (Hp & _ & _ & _ & _ & Hd) h. unfold blk. rewrite Hp. destruct (cp_get h (m_policy m)) as [o|] eqn:Ho; [|done].
  simpl. f_equal. apply Hd. apply (cl_get (m_policy m)) in Ho; [|apply Hm]. apply (mi_valid _ _ _ Hm), elem_of_app. left.
  by apply (list_elem_of_fmap_2 snd) in Ho.
Qed.

(** The end of [prepare_store]: blocks for the hashes [hs], which are not in the cache. *)
Lemma store_blocks_wp m L hs evicted : mgr_inv m L -> NoDup hs -> (forall h, h ∈ hs -> blk m h = None) ->
  zlen hs <= get_num_free_blocks m ->
  wp (blocks ← allocate_blocks hs ;
      py_assert (zlen blocks =? zlen hs) ;;
      forM_ (zip hs blocks) (fun hb => modify (fun m => set_policy (cp_insert hb.1 hb.2 (m_policy m)) m)) ;;
      spec ← get_load_store_spec blocks ;
      mret (Some (mkPrepareStoreOutput hs spec evicted)))
    (fun r m' => exists spec, r = Some (mkPrepareStoreOutput hs spec evicted) /\ mgr_inv m' L
       /\ (forall h, h ∉ hs -> blk m' h = blk m h)
       /\ Forall2 (fun h id => blk m' h = Some (mkBlockStatus (-1) id)) hs (cpu_block_ids spec)
       /\ m_events m' = m_events m /\ m_block_size m' = m_block_size m /\ m_num_blocks m' = m_num_blocks m) m.
Proof.
  intros Hm Hnd Hnone Hle.
  apply wp_bind. eapply wp_mono; [by apply (allocate_blocks_wp m L)|]. intros blocks m1 (Hm1 & Hs1 & Hlen).
  pose proof (same_cache_blk m m1 L Hm Hs1) as Hblk1. destruct Hs1 as (_ & He & Hb & Hn & _ & _).
  apply wp_bind, wp_assert; [lia|]. apply wp_bind. eapply wp_mono; [apply (insert_blocks_wp hs m1 L blocks Hm1)|].
  - unfold zlen in Hlen. lia.
  - done.
  - intros h Hh. rewrite Hblk1. by apply Hnone.
  - intros [] m2 (Hm2 & Heq & Hother & Hall). apply wp_bind, wp_gets, wp_ret. eexists. split; [reflexivity|].
    split_and!; try done; [| |by rewrite Heq|by rewrite Heq|by rewrite Heq].
    + intros h Hh. by rewrite Hother, Hblk1.
    + simpl. apply Forall2_fmap_r. eapply Forall2_impl; [exact Hall|]. intros h o Hho. simpl. rewrite Hho. by rewrite Heq.
Qed.

Lemma free_evicted_wp m l :
  wp (forM_ l (fun c : bytes * obj => free_block c.2))
    (fun _ m' => m' = set_free_list (m_free_list m ++ map (fun c => id_of m c.2) l) m) m.
Proof.
  eapply (wp_forM_ (fun d t m' => m' = set_free_list (m_free_list m ++ map (fun c => id_of m c.2) d) m) _ []); [| |done].
  - simpl. rewrite app_nil_r. by destruct m.
  - intros d c t m' ->. unfold free_block. apply wp_modify. simpl. by rewrite map_app, app_assoc.
Qed.

(** The hashes of [hs] that [prepare_store] will store. *)
Definition to_store m hs : list bytes := filter (fun h => blk m h = None) hs.
Definition num_to_evict m hs : Z :=
  if bool_decide (to_store m hs = []) then 0 else Z.max 0 (zlen (to_store m hs) - get_num_free_blocks m).

(** What a successful [prepare_store] does. *)
Record stored_post m L hs (out : PrepareStoreOutput) m' : Prop := {
  sp_inv : mgr_inv m' L;
  sp_to_store : block_hashes_to_store out = to_store m hs;
  sp_count : zlen (block_hashes_evicted out) = num_to_evict m hs;
  sp_nodup : NoDup (block_hashes_evicted out);
  sp_evicted : forall h, h ∈ block_hashes_evicted out -> (h ∉ hs) /\ exists b, blk m h = Some b /\ bs_ref_cnt b = 0;
  sp_others : forall h, h ∉ to_store m hs -> blk m' h = if decide (h ∈ block_hashes_evicted out) then None else blk m h;
  sp_stored : Forall2 (fun h id => blk m' h = Some (mkBlockStatus (-1) id)) (to_store m hs) (cpu_block_ids (store_spec out));
  sp_events : m_events m' = events_after m (block_hashes_evicted out) true;
  sp_config : m_block_size m' = m_block_size m /\ m_num_blocks m' = m_num_blocks m
}.

Lemma get_none_blk m h : cp_get h (m_policy m) = None <-> blk m h = None.
Proof. unfold blk. by destruct (cp_get h (m_policy m)). Qed.

(** The eviction in [prepare_store]. *)
Lemma prepare_evict_wp m L n hs : mgr_inv m L -> 0 < n ->
  wp (on_cache (cp_evict (m_objs m) n (list_to_set hs)))
    (fun r m' => match r with
      | None => m' = m
      | Some l => exists p, m' = set_policy p m /\ wf p /\ zlen l = n /\ items (m_policy m) ≡ₚ l ++ items p
          /\ NoDup (map fst l) /\ (forall h, h ∈ map fst l -> (h ∉ hs) /\ (h ∉ L) /\ exists b, blk m h = Some b /\ bs_ref_cnt b = 0)
      end) m.
Proof.
  intros Hm Hn. unfold on_cache. apply wp_zoom. eapply wp_mono; [apply cl_evict; [apply Hm|lia]|].
  intros [l|] p; [|intros ->; by destruct m]. intros (Hp & Hlen & Hperm & Hev). exists p. split_and!; try done.
  - pose proof (cl_nodup _ (mi_wf _ _ _ Hm)) as Hnd. rewrite Hperm in Hnd. unfold od_keys in Hnd. rewrite map_app in Hnd.
    by apply NoDup_app in Hnd as [? _].
  - intros h Hh. apply list_elem_of_fmap in Hh as ([h' o] & -> & Hi). simpl.
    rewrite Forall_forall in Hev. specialize (Hev _ Hi). unfold evictable in Hev. simpl in Hev. apply andb_true_iff in Hev as [Hc Hpr].
    apply bool_decide_eq_true in Hpr. rewrite elem_of_list_to_set in Hpr.
    assert (Hb : blk m h' = Some (deref (m_objs m) o)).
    { apply (blk_spec m L [] Hm). exists o. split; [|done]. rewrite Hperm. apply elem_of_app. by left. }
    split; [done|]. split; [|exists (deref (m_objs m) o); split; [done|lia]].
    destruct (blk_refs m L [] Hm h' _ Hb) as [[_ ?]|Hocc]; [done|]. apply occ_0_iff. lia.
Qed.

Lemma prepare_store_wp m L hs : mgr_inv m L -> NoDup hs ->
  wp (prepare_store hs) (fun r m' => match r with
    | None => m' = m /\ 0 < num_to_evict m hs
    | Some out => stored_post m L hs out m'
    end) m.
Proof.
  intros Hm Hnd. unfold prepare_store. apply wp_bind, wp_gets. cbn beta. cbn [id].
  assert (Hts : filter (fun bh => cp_get bh (m_policy m) = None) hs = to_store m hs).
  { apply filter_ext_in. intros h _. apply get_none_blk. }
  rewrite Hts. destruct (bool_decide (to_store m hs = [])) eqn:Hnil.
  { apply bool_decide_eq_true in Hnil as Hnil'. apply wp_bind, wp_gets, wp_ret. split; simpl; rewrite ?Hnil'; try done.
    - unfold num_to_evict. by rewrite Hnil.
    - apply NoDup_nil_2.
    - by intros h ?%elem_of_nil. }
  assert (Hnum : num_to_evict m hs = Z.max 0 (zlen (to_store m hs) - get_num_free_blocks m)) by (unfold num_to_evict; by rewrite Hnil).
  apply wp_bind. eapply (wp_mono _ (fun r m' => match r with
      | None => m' = m /\ 0 < num_to_evict m hs
      | Some l => exists p, m' = set_policy p m /\ wf p /\ zlen l = num_to_evict m hs /\ items (m_policy m) ≡ₚ l ++ items p
          /\ NoDup (map fst l) /\ (forall h, h ∈ map fst l -> (h ∉ hs) /\ (h ∉ L) /\ exists b, blk m h = Some b /\ bs_ref_cnt b = 0)
      end)).
  { destruct (0 <? _) eqn:Hpos.
    - eapply wp_mono; [apply (prepare_evict_wp m L); [done|lia]|]. intros [l|] m'; [|intros ->; split; [done|lia]].
      replace (zlen (to_store m hs) - get_num_free_blocks m) with (num_to_evict m hs) by lia. done.
    - apply wp_ret. exists (m_policy m). split_and!; [by destruct m|apply Hm|unfold zlen; simpl; lia|done|apply NoDup_nil_2|].
      intros h ?%elem_of_nil. done. }
  intros [l|] m'; [|intros [-> ?]; by apply wp_ret]. intros (p & -> & Hp & Hlen & Hperm & Hndl & Hl).
  destruct (inv_release m L p l Hm Hp Hperm) as [Hm1 Hblk1]; [intros h Hh; by apply Hl|].
  apply wp_bind. eapply wp_mono; [apply free_evicted_wp|]. intros [] m1 Hm1eq.
  assert (Heq1 : m1 = set_free_list (m_free_list m ++ map (fun c => id_of m c.2) l) (set_policy p m)) by (rewrite Hm1eq; done).
  rewrite <-Heq1 in Hm1, Hblk1. clear Hm1eq. fold (od_keys l).
  apply wp_bind. eapply wp_mono; [apply append_event_wp|]. intros [] m2 Hm2eq.
  assert (Hm2 : mgr_inv m2 L) by (rewrite Hm2eq; by apply (inv_events m1 L [])).
  assert (Hblk2 : forall h, blk m2 h = if decide (h ∈ od_keys l) then None else blk m h) by (intros h; rewrite <-Hblk1; by rewrite Hm2eq).
  assert (Hev2 : m_events m2 = events_after m (od_keys l) true) by (rewrite Hm2eq, Heq1; done).
  assert (Hnone : forall h, h ∈ to_store m hs -> blk m h = None) by (by intros h [? _]%list_elem_of_filter).
  eapply wp_mono; [apply (store_blocks_wp m2 L (to_store m hs)); [done|by apply NoDup_filter| |]|].
  - intros h Hh. rewrite Hblk2. case_decide; [done|]. by apply Hnone.
  - rewrite Hm2eq, Heq1. unfold get_num_free_blocks in *; simpl. rewrite zlen_app. unfold zlen at 3. rewrite length_map.
    fold (zlen l). lia.
  - intros r m' (spec & -> & Hm' & Hother & Hall & He & Hb & Hn). split; simpl; try done.
    + unfold od_keys, zlen. by rewrite length_map.
    + intros h Hh. destruct (Hl h Hh) as (? & _ & ?). done.
    + intros h Hh. by rewrite Hother, Hblk2.
    + by rewrite He, Hev2.
    + by rewrite Hb, Hn, Hm2eq, Heq1.
Qed.
End Manager.
