(* ===== verification/OffloadRun.v ===== *)
(** Runs of the CPU offloading manager: the calls its client may make, as a step
    relation with the loads in flight and the events delivered so far, and the
    invariants that hold along every run. *)
From S2P Require Import Prelude.
From S2P Require Import PyDict.
From S2P Require Import OffloadPolicy.
From S2P Require Import OffloadPolicyLemmas.
From S2P Require Import OffloadManager.
From S2P Require Import OffloadLemmas.
Local Open Scope Z_scope.
Import CPUOffload.

(** The hashes whose blocks the events say are stored. *)
Definition replay_event (s : gset bytes) (e : OffloadingEvent) : gset bytes :=
  if oe_removed e then s ∖ list_to_set (oe_block_hashes e) else s ∪ list_to_set (oe_block_hashes e).
Definition replay (evs : list OffloadingEvent) : gset bytes := foldl replay_event ∅ evs.

Section Run.
Context {P : Type} `{CachePolicyLaws P items wf}.
Implicit Types m : CPUOffloadingManager P.
Local Abbreviation mgr_inv := (mgr_inv (items:=items) (wf:=wf)).
Local Abbreviation stored_post := (stored_post (items:=items) (wf:=wf)).

(** The client reads what [lookup] counted, completes loads it started, stores
    distinct hashes, and completes any store; it may call [touch] and
    [take_events] at any time.  [L] is the multiset of loads in flight and [log]
    the events taken. *)
Inductive off_step : CPUOffloadingManager P * list bytes * list OffloadingEvent ->
    CPUOffloadingManager P * list bytes * list OffloadingEvent -> Prop :=
  | step_touch m m' L log hs : touch hs m = (Ok tt, m') -> off_step (m, L, log) (m', L, log)
  | step_prepare_load m m' L log hs spec :
      fst (lookup hs m) = Ok (Some (zlen hs)) -> zlen L + zlen hs < 2 ^ 31 ->
      prepare_load hs m = (Ok spec, m') -> off_step (m, L, log) (m', hs ++ L, log)
  | step_complete_load m m' L L' log hs : L ≡ₚ hs ++ L' ->
      complete_load hs m = (Ok tt, m') -> off_step (m, L, log) (m', L', log)
  | step_prepare_store m m' L log hs out : NoDup hs ->
      prepare_store hs m = (Ok out, m') -> off_step (m, L, log) (m', L, log)
  | step_complete_store m m' L log hs success :
      complete_store hs success m = (Ok tt, m') -> off_step (m, L, log) (m', L, log)
  | step_take_events m m' L log evs :
      take_events m = (Ok evs, m') -> off_step (m, L, log) (m', L, log ++ evs).

Definition off_run : CPUOffloadingManager P * list bytes * list OffloadingEvent ->
    CPUOffloadingManager P * list bytes * list OffloadingEvent -> Prop := rtc off_step.

(** The events, taken or pending, say which blocks are ready. *)
Definition mirror m (log : list OffloadingEvent) : Prop :=
  forall evs, m_events m = Some evs -> forall h, h ∈ replay (log ++ evs) <-> ready m h = true.

(** [n] is the number of blocks configured. *)
Definition run_inv (n : Z) (s : CPUOffloadingManager P * list bytes * list OffloadingEvent) : Prop :=
  mgr_inv s.1.1 s.1.2 /\ mirror s.1.1 s.2 /\ m_num_blocks s.1.1 = n.

Lemma wp_det {S A} (f : M S A) Q s a s' : wp f Q s -> f s = (Ok a, s') -> Q a s'.
Proof. unfold wp. intros Hw Hf. by rewrite Hf in Hw. Qed.

Lemma inv_loads_perm m L L' : L ≡ₚ L' -> mgr_inv m L -> mgr_inv m L'.
Proof.
  intros Hp [H1 H2 H2' H3 H4 H5 H6 H7 H8]. split; try done.
  - intros h o Hi. destruct (H5 h o Hi) as [[? ?]|Hc]; [left|right].
    + by rewrite <-Hp.
    + by rewrite <-(occ_perm h L L' Hp).
  - intros h. rewrite <-Hp. apply H7.
  - rewrite <-(zlen_perm _ _ Hp). done.
Qed.

Lemma lookup_all_ready m hs : fst (lookup hs m) = Ok (Some (zlen hs)) <-> Forall (fun h => ready m h = true) hs.
Proof.
  unfold lookup, gets. simpl. destruct (lookup_loop_spec m hs 0) as (n & -> & Hall & Hn). split.
  - intros [= Hlen]. assert (Hn' : n = length hs) by (unfold zlen in Hlen; lia). rewrite Hn' in Hall. by rewrite firstn_all in Hall.
  - intros Hr. do 2 f_equal. unfold zlen. destruct (hs !! n) as [h|] eqn:E; [|by rewrite Hn].
    rewrite Forall_lookup in Hr. by rewrite (Hr n h E) in Hn.
Qed.

(** Events that change what is ready. *)
Lemma mirror_same m m' log : m_events m' = m_events m -> (forall h, ready m' h = ready m h) -> mirror m log -> mirror m' log.
Proof. intros He Hr Hmir evs Hevs h. rewrite Hr. apply Hmir. congruence. Qed.

Lemma replay_app l l' : replay (l ++ l') = foldl replay_event (replay l) l'.
Proof. apply foldl_app. Qed.

Lemma mirror_after m m' log hs removed : m_events m' = events_after m hs removed -> mirror m log ->
  (forall h, ready m' h = true <-> if removed : bool then ready m h = true /\ h ∉ hs else ready m h = true \/ h ∈ hs) ->
  mirror m' log.
Proof.
  intros He Hmir Hr evs' Hevs' h. unfold events_after in He. rewrite He in Hevs'.
  assert (Hstep : forall evs, m_events m = Some evs -> h ∈ replay_event (replay (log ++ evs)) (mkOffloadingEvent hs (m_block_size m) cpu_medium removed)
    <-> ready m' h = true).
  { intros evs Hevs. rewrite Hr. unfold replay_event; simpl. specialize (Hmir evs Hevs h). destruct removed; set_solver. }
  destruct (m_events m) as [evs|] eqn:E; [|by destruct hs].
  specialize (Hstep evs eq_refl). destruct hs as [|h0 hs]; injection Hevs' as <-.
  - rewrite <-Hstep. unfold replay_event; simpl. destruct removed; set_solver.
  - by rewrite app_assoc, replay_app.
Qed.

(** [blk] decides what is ready. *)
Lemma ready_ext m m' h : blk m' h = blk m h -> ready m' h = ready m h.
Proof. unfold ready. by intros ->. Qed.

Lemma stored_post_ready m L hs out m' : mgr_inv m L -> stored_post m L hs out m' -> forall h,
  ready m' h = true <-> ready m h = true /\ h ∉ block_hashes_evicted out.
Proof.
  intros Hm Hp h. destruct (decide (h ∈ to_store m hs)) as [Hts|Hts].
  - assert (Hn : blk m h = None) by (by apply list_elem_of_filter in Hts as [? _]).
    destruct (list_elem_of_lookup_1 _ _ Hts) as [i Hi]. pose proof (sp_stored _ _ _ _ _ Hp) as Hs.
    destruct (Forall2_lookup_l _ _ _ _ _ Hs Hi) as (id & _ & Hb). simpl in Hb. unfold ready. rewrite Hb, Hn. naive_solver.
  - unfold ready. rewrite (sp_others _ _ _ _ _ Hp h Hts). case_decide; naive_solver.
Qed.

Lemma off_step_inv n s s' : off_step s s' -> run_inv n s -> run_inv n s'.
Proof.
  intros Hstep (Hm & Hmir & Hn). inversion Hstep; subst; simpl in *.
  - destruct (wp_det _ _ _ _ _ (offload_touch_wp m L hs Hm) H1) as (Hm' & Heq & Hblk). split; [done|]. split; [|simpl; by rewrite Heq].
    apply (mirror_same m); [|intros h; by apply ready_ext|done]. simpl. by rewrite Heq.
  - apply lookup_all_ready in H1. destruct (wp_det _ _ _ _ _ (prepare_load_wp m L hs Hm H1 H2) H3) as (Hm' & Heq & _ & Hr & _).
    split; [done|]. split; [|simpl; by rewrite Heq]. apply (mirror_same m); [|done|done]. simpl. by rewrite Heq.
  - apply (inv_loads_perm _ _ _ H1) in Hm. destruct (wp_det _ _ _ _ _ (complete_load_wp m L' hs Hm) H2) as (Hm' & Heq & _ & Hr).
    split; [done|]. split; [|simpl; by rewrite Heq]. apply (mirror_same m); [|done|done]. simpl. by rewrite Heq.
  - pose proof (wp_det _ _ _ _ _ (prepare_store_wp m L hs Hm H1) H2) as Hpost. destruct out as [out|]; [|by destruct Hpost as [-> _]].
    split; [apply Hpost|]. split; [|apply Hpost]. apply (mirror_after m m' log (block_hashes_evicted out) true); [apply Hpost|done|]. intros h. simpl. by apply (stored_post_ready m L hs).
  - destruct (wp_det _ _ _ _ _ (complete_store_wp m L hs success Hm) H1) as (stored & Hm' & Hblk & He & _ & Hn' & Hst).
    split; [done|]. split; [|done]. apply (mirror_after m m' log stored false); [exact He|done|]. intros h. simpl. rewrite Hst. unfold newly_stored, ready in *. rewrite Hblk.
    destruct success; [|case_decide; naive_solver]. unfold stored_blk. destruct (blk m h) as [b|]; [|naive_solver].
    destruct (is_ready b) eqn:Hb; [rewrite andb_false_r; naive_solver|]. rewrite andb_true_r.
    case_bool_decide; simpl; [|rewrite Hb; naive_solver]. naive_solver.
  - unfold take_events in H1. destruct (m_events m) as [l|] eqn:E; unfold mbind, M_bind, gets, modify in H1; rewrite E in H1; injection H1 as <- <-.
    + split; [by apply (inv_events m L [])|]. split; [|done]. intros evs' [= <-] h. simpl. rewrite app_nil_r. change (ready (set_m_events (Some []) m) h) with (ready m h).
      by apply Hmir.
    + split; [done|]. split; [|done]. simpl. by rewrite app_nil_r.
Qed.

Lemma off_step_events s s' : off_step s s' -> forall n, run_inv n s -> is_Some (m_events s.1.1) -> is_Some (m_events s'.1.1).
Proof.
  intros Hstep n (Hm & _) He. assert (Hafter : forall m hs r, is_Some (m_events m) -> is_Some (events_after m hs r)).
  { intros m hs r [evs Hevs]. unfold events_after. rewrite Hevs. destruct hs; by eexists. }
  inversion Hstep as [? ? ? ? hs Hrun|? ? ? ? hs spec Hlk Hw Hrun|? ? ? ? ? hs Hp Hrun|? ? ? ? hs out Hnd Hrun|? ? ? ? hs success Hrun|? ? ? ? evs Hrun];
    subst; simpl in *.
  - destruct (wp_det _ _ _ _ _ (offload_touch_wp m L hs Hm) Hrun) as (_ & -> & _). done.
  - apply lookup_all_ready in Hlk. destruct (wp_det _ _ _ _ _ (prepare_load_wp m L hs Hm Hlk Hw) Hrun) as (_ & -> & _). done.
  - apply (inv_loads_perm _ _ _ Hp) in Hm. destruct (wp_det _ _ _ _ _ (complete_load_wp m L' hs Hm) Hrun) as (_ & -> & _). done.
  - pose proof (wp_det _ _ _ _ _ (prepare_store_wp m L hs Hm Hnd) Hrun) as Hpost. destruct out as [out|]; [|by destruct Hpost as [-> _]].
    rewrite (sp_events _ _ _ _ _ Hpost). by apply Hafter.
  - destruct (wp_det _ _ _ _ _ (complete_store_wp m L hs success Hm) Hrun) as (stored & _ & _ & -> & _). by apply Hafter.
  - unfold take_events in Hrun. destruct (m_events m) as [l|] eqn:E; unfold mbind, M_bind, gets, modify in Hrun; rewrite E in Hrun;
      injection Hrun as <- <-; by rewrite ?E.
Qed.

Lemma off_run_events n s s' : off_run s s' -> run_inv n s -> is_Some (m_events s.1.1) -> is_Some (m_events s'.1.1).
Proof. induction 1; [done|]. intros Hs He. apply IHrtc; [by apply (off_step_inv n x)|by eapply off_step_events]. Qed.

Lemma off_run_inv n s s' : off_run s s' -> run_inv n s -> run_inv n s'.
Proof. induction 1; [done|]. intros Hs. by apply IHrtc, (off_step_inv n x). Qed.

(** A block that is read before and after a step keeps its slot and stays readable. *)
Lemma off_step_block n m L log m' L' log' h : off_step (m, L, log) (m', L', log') -> run_inv n (m, L, log) ->
  h ∈ L -> h ∈ L' -> ready m' h = true /\ bs_block_id <$> blk m' h = bs_block_id <$> blk m h.
Proof.
  intros Hstep Hinv Hh Hh'. pose proof (off_step_inv _ _ _ Hstep Hinv) as (Hm' & _). destruct Hinv as (Hm & _). simpl in *.
  split. { destruct (blk_loads m' L' [] Hm' h Hh') as (b & Hb & Hr & _). unfold ready. by rewrite Hb. }
  destruct (blk_loads m L [] Hm h Hh) as (b & Hb & Hr & _ & Hpos).
  inversion Hstep as [? ? ? ? hs Hrun|? ? ? ? hs spec Hlk Hw Hrun|? ? ? ? ? hs Hp Hrun|? ? ? ? hs out Hnd Hrun|? ? ? ? hs success Hrun|? ? ? ? evs Hrun]; subst; simpl in *.
  - destruct (wp_det _ _ _ _ _ (offload_touch_wp m L' hs Hm) Hrun) as (_ & _ & Hblk). by rewrite Hblk.
  - apply lookup_all_ready in Hlk. by destruct (wp_det _ _ _ _ _ (prepare_load_wp m L hs Hm Hlk Hw) Hrun) as (_ & _ & Hid & _).
  - apply (inv_loads_perm _ _ _ Hp) in Hm. by destruct (wp_det _ _ _ _ _ (complete_load_wp m L' hs Hm) Hrun) as (_ & _ & Hid & _).
  - pose proof (wp_det _ _ _ _ _ (prepare_store_wp m L' hs Hm Hnd) Hrun) as Hpost. destruct out as [out|]; [|by destruct Hpost as [-> _]].
    rewrite (sp_others _ _ _ _ _ Hpost).
    + rewrite decide_False; [done|]. intros (_ & b' & Hb' & Hc)%(sp_evicted _ _ _ _ _ Hpost). rewrite Hb in Hb'. injection Hb' as ->. lia.
    + intros [Hn _]%list_elem_of_filter. by rewrite Hb in Hn.
  - destruct (wp_det _ _ _ _ _ (complete_store_wp m L' hs success Hm) Hrun) as (stored & _ & Hblk & _). rewrite Hblk.
    destruct success.
    + unfold stored_blk. rewrite Hb. simpl. by destruct (bool_decide _ && _).
    + rewrite decide_False; [done|]. unfold ready. rewrite Hb, Hr. by intros [_ ?].
  - unfold take_events in Hrun. destruct (m_events m) as [l|] eqn:E; unfold mbind, M_bind, gets, modify in Hrun; rewrite E in Hrun; by injection Hrun as <- <-.
Qed.
End Run.

(** * Concrete managers of two and four blocks and runs of them, on which the
    offloading theorems are applied. *)
Local Open Scope Z_scope.

Definition hash_a : bytes := [byte_of_Z 97].
Definition hash_b : bytes := [byte_of_Z 98].
Definition hash_c : bytes := [byte_of_Z 99].
Definition hash_d : bytes := [byte_of_Z 100].
Definition hash_e : bytes := [byte_of_Z 101].

Definition sample_manager (n : Z) (name : string) (p : AnyPolicy) : CPUOffloadingManager AnyPolicy :=
  match new_manager 16 n name true with Ok m => m | Err _ => mkManager 16 n 0 [] None p [] end.

Import CPUOffload.

(** Two blocks stored, the first being read. *)
Definition lru0 := sample_manager 2 "lru" (PolicyLRU []).
Definition lru1 := snd (prepare_store [hash_a; hash_b] lru0).
Definition lru2 := snd (complete_store [hash_a; hash_b] true lru1).
Definition lru3 := snd (prepare_load [hash_a] lru2).

Lemma lru_run : off_run (lru0, [], []) (lru3, [hash_a], []).
Proof.
  apply (rtc_l _ _ (lru1, [], [])).
  { apply (step_prepare_store _ _ _ _ [hash_a; hash_b] (Some (mkPrepareStoreOutput [hash_a; hash_b] (mkCPULoadStoreSpec [0; 1]) []))).
    - apply (bool_decide_unpack _). vm_compute. exact I.
    - vm_compute. reflexivity. }
  apply (rtc_l _ _ (lru2, [], [])).
  { apply (step_complete_store _ _ _ _ [hash_a; hash_b] true). vm_compute. reflexivity. }
  apply rtc_once, (step_prepare_load _ _ [] _ [hash_a] (mkCPULoadStoreSpec [0])).
  - vm_compute. reflexivity.
  - vm_compute. reflexivity.
  - vm_compute. reflexivity.
Qed.

(** ARC: two blocks stored, a third evicts the first, which is then asked for twice. *)
Definition arc0 := sample_manager 2 "arc" (PolicyARC (ARC.new 2)).
Definition arc1 := snd (prepare_store [hash_a; hash_b] arc0).
Definition arc2 := snd (complete_store [hash_a; hash_b] true arc1).
Definition arc3 := snd (prepare_store [hash_c] arc2).
Definition arc4 := snd (complete_store [hash_c] true arc3).
Definition arc5 := snd (touch [hash_a] arc4).
Definition arc6 := snd (touch [hash_a] arc5).

Lemma arc_run : off_run (arc0, [], []) (arc6, [], []).
Proof.
  apply (rtc_l _ _ (arc1, [], [])).
  { apply (step_prepare_store _ _ _ _ [hash_a; hash_b] (Some (mkPrepareStoreOutput [hash_a; hash_b] (mkCPULoadStoreSpec [0; 1]) []))).
    - apply (bool_decide_unpack _). vm_compute. exact I.
    - vm_compute. reflexivity. }
  apply (rtc_l _ _ (arc2, [], [])).
  { apply (step_complete_store _ _ _ _ [hash_a; hash_b] true). vm_compute. reflexivity. }
  apply (rtc_l _ _ (arc3, [], [])).
  { apply (step_prepare_store _ _ _ _ [hash_c] (Some (mkPrepareStoreOutput [hash_c] (mkCPULoadStoreSpec [0]) [hash_a]))).
    - apply (bool_decide_unpack _). vm_compute. exact I.
    - vm_compute. reflexivity. }
  apply (rtc_l _ _ (arc4, [], [])).
  { apply (step_complete_store _ _ _ _ [hash_c] true). vm_compute. reflexivity. }
  apply (rtc_l _ _ (arc5, [], [])); [|apply rtc_once]; apply (step_touch _ _ _ _ [hash_a]); vm_compute; reflexivity.
Qed.
