(* ===== verification/OffloadSpec.v ===== *)
(** What the CPU offloading tier promises: every buffer slot is accounted for,
    data that is being read is not overwritten, [prepare_store] and the lookups do
    what they say on every branch, the events mirror the cache, the policies evict
    what they should, and the reuse filter stores only what was looked up often
    enough. *)
From S2P Require Import Prelude.
From S2P Require Import PyDict.
From S2P Require Import PyFloat.
From S2P Require Import OffloadPolicy.
From S2P Require Import OffloadPolicyLemmas.
From S2P Require Import OffloadManager.
From S2P Require Import OffloadLemmas.
From S2P Require Import OffloadRun.
Local Open Scope Z_scope.
Import CPUOffload.

(** ** Runs of a configured manager *)

(** [(m, L, log)] is reached from the manager that [__init__] makes. *)
Definition offload_reaches (block_size num_blocks : Z) (cache_policy : string) (enable_events : bool)
    (s : CPUOffloadingManager AnyPolicy * list bytes * list OffloadingEvent) : Prop :=
  0 <= num_blocks < 2 ^ 53 /\
  exists m0, new_manager block_size num_blocks cache_policy enable_events = Ok m0 /\ off_run (m0, [], []) s.

Lemma new_manager_inv bs n name ev m0 : 0 <= n < 2 ^ 53 -> new_manager bs n name ev = Ok m0 ->
  run_inv (items:=any_items) (wf:=any_wf n) n (m0, [], []).
Proof.
  intros Hn Hnew. unfold new_manager in Hnew.
  destruct (cache_policies name n) as [p|] eqn:Hp; [|done]. injection Hnew as <-.
  destruct (cache_policies_wf name n p Hn Hp) as [Hwf Hit]. split_and!; simpl.
  - split; simpl; rewrite ?Hit; try done; try lia; try (by intros ? ?%elem_of_nil). by intros ? ? ?%elem_of_nil.
  - intros evs Hevs h. simpl in Hevs. destruct ev; [|done]. injection Hevs as <-.
    assert (Hnone : cp_get h p = None) by (apply (cl_get_None p h Hwf); rewrite Hit; apply not_elem_of_nil).
    unfold ready, blk. cbn [fst snd m_policy]. rewrite Hnone. split; [by intros Hx%elem_of_empty|done].
  - done.
Qed.

Lemma offload_reaches_inv bs n name ev s : offload_reaches bs n name ev s ->
  run_inv (items:=any_items) (wf:=any_wf n) n s.
Proof. intros (Hn & m0 & Hnew & Hrun). eapply off_run_inv; [exact Hrun|]. by eapply new_manager_inv. Qed.

Lemma offload_reaches_events bs n name s : offload_reaches bs n name true s -> is_Some (m_events s.1.1).
Proof.
  intros (Hn & m0 & Hnew & Hrun). eapply (off_run_events n); [exact Hrun|by eapply new_manager_inv|].
  unfold new_manager in Hnew. destruct (cache_policies name n); [|done]. injection Hnew as <-. by eexists.
Qed.

Section Reached.
Context (bs n : Z) (name : string) (ev : bool).
Implicit Types m : CPUOffloadingManager AnyPolicy.

(** C26: every slot of the buffer handed out so far holds the block of exactly one
    cached hash or is on the free list, and no more than the configured number are
    handed out; the reference count of a block that is ready is the number of
    loads reading it, and a block that is being read is ready. *)
Theorem offload_slots_conserved m L log :
  offload_reaches bs n name ev (m, L, log) ->
  (exists k, 0 <= k <= n /\
     map (fun c => bs_block_id (deref (m_objs m) c.2)) (any_items (m_policy m)) ++ m_free_list m ≡ₚ zrange 0 k)
  /\ (forall h b, blk m h = Some b -> if is_ready b then bs_ref_cnt b = Z.of_nat (occ h L) else h ∉ L)
  /\ (forall h, h ∈ L -> ready m h = true).
Proof.
  intros (Hm & _ & Hn)%offload_reaches_inv. simpl in *. split_and!.
  - exists (m_num_allocated_blocks m). pose proof (mi_cap _ _ _ Hm). split; [lia|].
    rewrite <-(mi_ids _ _ _ Hm), app_nil_r, map_map. done.
  - intros h b Hb. destruct (is_ready b) eqn:Hr; [|by apply (not_ready_not_loaded m L [] Hm h b)].
    destruct (blk_refs m L [] Hm h b Hb) as [[Hc _]|]; [|done]. unfold is_ready in Hr. lia.
  - intros h Hh. destruct (blk_loads m L [] Hm h Hh) as (b & Hb & Hr & _). unfold ready. by rewrite Hb.
Qed.

(** C25: the data of a load in flight is not overwritten: whatever call the client
    makes, a block that is read before and after keeps its slot and stays ready,
    and the slots that [prepare_store] hands out for writing are not read by any
    load. *)
Theorem offload_reads_protected m L log m' L' log' :
  offload_reaches bs n name ev (m, L, log) -> off_step (m, L, log) (m', L', log') ->
  (forall h, h ∈ L -> h ∈ L' -> ready m' h = true /\ bs_block_id <$> blk m' h = bs_block_id <$> blk m h)
  /\ (forall hs out h b id, NoDup hs -> prepare_store hs m = (Ok (Some out), m') -> h ∈ L -> blk m h = Some b ->
        id ∈ cpu_block_ids (store_spec out) -> id <> bs_block_id b).
Proof.
  intros Hs%offload_reaches_inv Hstep. split; [intros h Hh Hh'; by eapply off_step_block|].
  destruct Hs as (Hm & _). simpl in Hm. intros hs out h b id Hnd Hrun Hh Hb Hid.
  pose proof (wp_det _ _ _ _ _ (prepare_store_wp m L hs Hm Hnd) Hrun) as Hpost. simpl in Hpost.
  destruct (list_elem_of_lookup_1 _ _ Hid) as [i Hi]. destruct (Forall2_lookup_r _ _ _ _ _ (sp_stored _ _ _ _ _ Hpost) Hi) as (h' & Hh'i & Hb').
  assert (Hts : h' ∈ to_store m hs) by (by eapply list_elem_of_lookup_2).
  assert (Hne : h <> h'). { intros ->. apply list_elem_of_filter in Hts as [Hn _]. congruence. }
  assert (Hbh : blk m' h = Some b).
  { rewrite (sp_others _ _ _ _ _ Hpost), decide_False; [done| |].
    - intros (_ & b0 & Hb0 & Hc)%(sp_evicted _ _ _ _ _ Hpost). destruct (blk_loads m L [] Hm h Hh) as (b1 & Hb1 & _ & _ & Hpos).
      assert (b0 = b1) by congruence. subst. lia.
    - intros [Hn _]%list_elem_of_filter. congruence. }
  apply (blk_ids_distinct m' L [] (sp_inv _ _ _ _ _ Hpost) h' h _ _ Hb' Hbh). congruence.
Qed.

(** [lookup] is the length of the longest prefix of stored, ready blocks, and
    changes nothing; reading that prefix, or any part of it, and completing loads
    that were started never raise; each block read is the slot of its hash. *)
Theorem offload_lookup_then_load m L log hs :
  offload_reaches bs n name ev (m, L, log) ->
  (exists k, lookup hs m = (Ok (Some (Z.of_nat k)), m) /\ Forall (fun h => ready m h = true) (take k hs)
     /\ match hs !! k with Some h => ready m h = false | None => k = length hs end)
  /\ (Forall (fun h => ready m h = true) hs -> zlen L + zlen hs < 2 ^ 31 ->
      exists spec m', prepare_load hs m = (Ok spec, m') /\ Forall2 (has_id m) hs (cpu_block_ids spec))
  /\ (forall L', L ≡ₚ hs ++ L' -> exists m', complete_load hs m = (Ok tt, m')).
Proof.
  intros (Hm & _)%offload_reaches_inv. simpl in Hm. split_and!.
  - destruct (lookup_loop_spec m hs 0) as (k & Hk & H1 & H2). exists k. split; [|done]. unfold lookup, gets. by rewrite Hk.
  - intros Hr Hw. destruct (proj1 (wp_run _ _ _) (prepare_load_wp m L hs Hm Hr Hw)) as (spec & m' & Hrun & _ & _ & _ & _ & Hall).
    by exists spec, m'.
  - intros L' HL. apply (inv_loads_perm _ _ _ HL) in Hm.
    destruct (proj1 (wp_run _ _ _) (complete_load_wp m L' hs Hm)) as ([] & m' & Hrun & _). by exists m'.
Qed.

(** [prepare_store] on distinct hashes never raises.  It returns [None] only
    when blocks must be evicted, and then changes nothing.  Otherwise it stores
    exactly the hashes that are not in the cache, in order, as blocks that are not
    ready, at the slots it returns; it evicts exactly as many blocks as there are
    too few free slots, all of them idle and none among the hashes given; no other
    block changes. *)
Theorem offload_prepare_store_spec m L log hs :
  offload_reaches bs n name ev (m, L, log) -> NoDup hs ->
  (prepare_store hs m = (Ok None, m) /\ 0 < num_to_evict m hs)
  \/ exists out m', prepare_store hs m = (Ok (Some out), m')
    /\ block_hashes_to_store out = filter (fun h => blk m h = None) hs
    /\ Forall2 (fun h id => blk m' h = Some (mkBlockStatus (-1) id)) (block_hashes_to_store out) (cpu_block_ids (store_spec out))
    /\ zlen (block_hashes_evicted out) = num_to_evict m hs
    /\ (forall h, h ∈ block_hashes_evicted out -> (h ∉ hs) /\ exists b, blk m h = Some b /\ bs_ref_cnt b = 0)
    /\ (forall h, h ∉ block_hashes_to_store out -> blk m' h = if decide (h ∈ block_hashes_evicted out) then None else blk m h).
Proof.
  intros (Hm & _)%offload_reaches_inv Hnd. simpl in Hm.
  destruct (proj1 (wp_run _ _ _) (prepare_store_wp m L hs Hm Hnd)) as (r & m' & Hrun & Hpost). destruct r as [out|].
  - right. exists out, m'. destruct Hpost as [_ Hts ? _ ? Hoth Hst _ _]. rewrite Hts. by split_and!.
  - destruct Hpost as [-> Hpos]. by left.
Qed.

(** C27: with events enabled, the events taken so far and the pending ones say,
    replayed in order, exactly which hashes can be loaded. *)
Theorem offload_events_mirror_cache m L log :
  offload_reaches bs n name true (m, L, log) ->
  exists evs, take_events m = (Ok evs, set_m_events (Some []) m)
    /\ forall h, h ∈ replay (log ++ evs) <-> lookup [h] m = (Ok (Some 1), m).
Proof.
  intros Hreach. pose proof (offload_reaches_events _ _ _ _ Hreach) as [evs Hevs]. simpl in Hevs.
  apply offload_reaches_inv in Hreach as (_ & Hmir & _). exists evs. split.
  - unfold take_events, mbind, M_bind, gets, modify. by rewrite Hevs.
  - intros h. rewrite (Hmir evs Hevs h). unfold lookup, gets, ready, blk; simpl.
    change (match m_policy m with PolicyLRU q => LRU.get h q | PolicyARC q => ARC.get h q end) with (cp_get h (m_policy m)).
    destruct (cp_get h (m_policy m)) as [o|]; simpl; [|done]. destruct (is_ready (deref (m_objs m) o)); simpl; done.
Qed.
End Reached.

(** ** The policies *)

(** The LRU policy is least-recently-used: [evict] takes the first [n] idle,
    unprotected blocks in the order of the dictionary, or nothing when there are
    fewer; touching distinct hashes moves those that are cached behind all others,
    the first of them last, and keeps the order of the others. *)
Theorem lru_evicts_oldest objs n protected (p : LRUCachePolicy) hs :
  NoDup (od_keys p) -> 0 <= n -> NoDup hs ->
  (let idle := filter (fun c => evictable objs protected c = true) p in
   LRU.evict objs n protected p =
     if zlen idle <? n then (Ok None, p)
     else (Ok (Some (take (Z.to_nat n) idle)), filter (fun c => c ∉ take (Z.to_nat n) idle) p))
  /\ exists p', LRU.touch hs p = (Ok tt, p') /\ p' ≡ₚ p
       /\ od_keys p' = filter (fun k => k ∉ hs) (od_keys p) ++ reverse (filter (fun k => k ∈ od_keys p) hs).
Proof.
  intros Hp Hn Hnd. split; [by apply lru_evict_eq|].
  destruct (proj1 (wp_run _ _ _) (lru_touch_wp hs p Hp)) as ([] & p' & Hrun & _ & Hperm & Hord). exists p'. by split_and!; [| |apply Hord].
Qed.

(** ARC's lists stay within their bounds: the two resident lists together hold
    at most the number of blocks, each ghost list at most as many hashes, no hash
    is in two lists, and the adaptive target, computed in floating point, never
    becomes NaN or infinite and truncates to an integer between 0 and the
    capacity. *)
Theorem arc_bounds bs n ev m L log p :
  offload_reaches bs n "arc" ev (m, L, log) -> m_policy m = PolicyARC p ->
  cache_capacity p = n
  /\ zlen (t1 p) + zlen (t2 p) <= n /\ zlen (b1 p) <= n /\ zlen (b2 p) <= n
  /\ NoDup (od_keys (t1 p) ++ od_keys (t2 p) ++ od_keys (b1 p) ++ od_keys (b2 p))
  /\ exists t, py_int (target_t1_size p) = Ok t /\ 0 <= t <= n.
Proof.
  intros (Hm & _ & Hn)%offload_reaches_inv Hp. simpl in *. pose proof (mi_wf _ _ _ Hm) as Hwf. rewrite Hp in Hwf. destruct Hwf as [[Hc Ht Hnd H1 H2] Hcap].
  pose proof (mi_cap _ _ _ Hm) as Hcap'. pose proof (mi_ids _ _ _ Hm) as Hids. rewrite Hp, app_nil_r in Hids. simpl in Hids.
  split_and!; try done; try lia.
  - apply Permutation_length in Hids. unfold arc_items, zlen in *. rewrite length_app, !length_map, length_app in Hids.
    unfold zrange in Hids. rewrite length_seqZ in Hids. lia.
  - destruct Ht as [Ht1 Ht2]. rewrite Hcap in Ht2. by apply py_int_ok.
Qed.

(** ARC may refuse to evict although every block is idle: with room for two
    blocks, a run after which both blocks are idle and no load or store is in
    flight, yet [prepare_store] of two other hashes returns [None]; evicting two
    blocks from the same contents under LRU succeeds. *)
Theorem arc_refuses_idle_blocks :
  offload_reaches 16 2 "arc" true (arc6, [], [])
  /\ (forall h o, (h, o) ∈ any_items (m_policy arc6) -> bs_ref_cnt (deref (m_objs arc6) o) = 0)
  /\ length (any_items (m_policy arc6)) = 2%nat
  /\ prepare_store [hash_d; hash_e] arc6 = (Ok None, arc6)
  /\ exists out m', prepare_store [hash_d; hash_e] (set_policy (PolicyLRU (any_items (m_policy arc6))) arc6) = (Ok (Some out), m').
Proof.
  split_and!.
  - split; [lia|]. exists arc0. split; [reflexivity|exact arc_run].
  - assert (Hall : Forall (fun c => bs_ref_cnt (deref (m_objs arc6) c.2) = 0) (any_items (m_policy arc6))).
    { apply (bool_decide_unpack _). vm_compute. exact I. }
    intros h o Hi. rewrite Forall_forall in Hall. exact (Hall _ Hi).
  - vm_compute. reflexivity.
  - vm_compute. reflexivity.
  - eexists _, _. vm_compute. reflexivity.
Qed.

(** ** Witnesses *)

Lemma lru_reached : offload_reaches 16 2 "lru" true (lru3, [hash_a], []).
Proof. split; [lia|]. exists lru0. split; [reflexivity|exact lru_run]. Qed.

Lemma offload_slots_conserved_witness :
  map (fun c => bs_block_id (deref (m_objs lru3) c.2)) (any_items (m_policy lru3)) = [0; 1] /\ ready lru3 hash_a = true.
Proof.
  split; [vm_compute; reflexivity|].
  destruct (offload_slots_conserved 16 2 "lru" true lru3 [hash_a] [] lru_reached) as (_ & _ & H). apply H. left.
Defined.

(** While [hash_a] is read, [prepare_store] of [hash_c] takes the slot of [hash_b]. *)
Lemma offload_reads_protected_witness :
  exists m' out, prepare_store [hash_c] lru3 = (Ok (Some out), m') /\ cpu_block_ids (store_spec out) = [1]
    /\ bs_block_id <$> blk m' hash_a = Some 0.
Proof.
  exists (snd (prepare_store [hash_c] lru3)), (mkPrepareStoreOutput [hash_c] (mkCPULoadStoreSpec [1]) [hash_b]).
  assert (Hrun : prepare_store [hash_c] lru3 = (Ok (Some (mkPrepareStoreOutput [hash_c] (mkCPULoadStoreSpec [1]) [hash_b])), snd (prepare_store [hash_c] lru3))).
  { vm_compute. reflexivity. }
  split; [exact Hrun|]. split; [reflexivity|].
  destruct (offload_reads_protected 16 2 "lru" true lru3 [hash_a] [] (snd (prepare_store [hash_c] lru3)) [hash_a] [] lru_reached) as [H _].
  - eapply step_prepare_store; [|exact Hrun]. apply NoDup_singleton.
  - destruct (H hash_a) as [_ ->]; [left|left|]. vm_compute. reflexivity.
Defined.

Lemma offload_lookup_then_load_witness :
  exists spec m', prepare_load [hash_b; hash_a] lru3 = (Ok spec, m') /\ lookup [hash_b; hash_a; hash_c] lru3 = (Ok (Some 2), lru3).
Proof.
  destruct (offload_lookup_then_load 16 2 "lru" true lru3 [hash_a] [] [hash_b; hash_a] lru_reached) as (_ & H & _).
  destruct H as (spec & m' & Hrun & _).
  - repeat constructor; vm_compute; reflexivity.
  - vm_compute. reflexivity.
  - exists spec, m'. split; [exact Hrun|]. vm_compute. reflexivity.
Defined.

Lemma offload_prepare_store_spec_witness :
  num_to_evict lru3 [hash_a; hash_c] = 1 /\
  exists out m', prepare_store [hash_a; hash_c] lru3 = (Ok (Some out), m') /\ block_hashes_to_store out = [hash_c].
Proof.
  split; [vm_compute; reflexivity|].
  destruct (offload_prepare_store_spec 16 2 "lru" true lru3 [hash_a] [] [hash_a; hash_c] lru_reached) as [[Hrun _]|(out & m' & Hrun & Hts & _)].
  - apply (bool_decide_unpack _). vm_compute. exact I.
  - vm_compute in Hrun. discriminate.
  - exists out, m'. split; [exact Hrun|]. rewrite Hts. vm_compute. reflexivity.
Defined.

Lemma offload_events_mirror_cache_witness :
  exists evs, take_events lru3 = (Ok evs, set_m_events (Some []) lru3) /\ hash_b ∈ replay evs.
Proof.
  destruct (offload_events_mirror_cache 16 2 "lru" lru3 [hash_a] [] lru_reached) as (evs & Hrun & H).
  exists evs. split; [exact Hrun|]. apply (H hash_b). vm_compute. reflexivity.
Defined.

Lemma lru_evicts_oldest_witness :
  exists p', LRU.touch [hash_a] [(hash_a, 0%nat); (hash_b, 1%nat)] = (Ok tt, p') /\ od_keys p' = [hash_b; hash_a].
Proof.
  destruct (lru_evicts_oldest [] 1 ∅ [(hash_a, 0%nat); (hash_b, 1%nat)] [hash_a]) as (_ & p' & Hrun & _ & Hk).
  - apply (bool_decide_unpack _). vm_compute. exact I.
  - lia.
  - apply NoDup_singleton.
  - exists p'. split; [exact Hrun|]. rewrite Hk. vm_compute. reflexivity.
Defined.

Definition arc6_policy : ARCCachePolicy := match m_policy arc6 with PolicyARC p => p | PolicyLRU _ => ARC.new 2 end.

Lemma arc_bounds_witness : py_int (target_t1_size arc6_policy) = Ok 2 /\ zlen (t1 arc6_policy) + zlen (t2 arc6_policy) <= 2.
Proof.
  split; [vm_compute; reflexivity|].
  assert (Hr : offload_reaches 16 2 "arc" true (arc6, [], [])) by (split; [lia|]; exists arc0; split; [reflexivity|exact arc_run]).
  apply (arc_bounds 16 2 true arc6 [] [] arc6_policy Hr). vm_compute. reflexivity.
Defined.

(** * The reuse filter in front of an offloading manager: what it counts, and that a
    block is offered to the manager behind it exactly when it was looked up often
    enough. *)
Local Open Scope Z_scope.
Import ReuseFilter.

Section Filter.
Context {T : Type} `{OffloadingManager T}.
Implicit Types s : FilterReusedOffloadingManager T.

Definition count s (h : bytes) : Z := default 0 (od_lookup h (f_counts s)).

(** [seen] are the hashes looked up so far, in order. *)
Record filter_inv (seen : list bytes) s : Prop := {
  fi_nodup : NoDup (od_keys (f_counts s));
  fi_size : zlen (f_counts s) <= f_max_tracker_size s;
  fi_pos : 1 <= f_max_tracker_size s;
  fi_count : forall h, count s h <= Z.of_nat (occ h seen);
  fi_present : forall h v, od_lookup h (f_counts s) = Some v -> 1 <= v;
  fi_exact : zlen (remove_dups seen) <= f_max_tracker_size s -> forall h, count s h = Z.of_nat (occ h seen)
}.

Lemma occ_snoc (x y : bytes) l : Z.of_nat (occ x (l ++ [y])) = Z.of_nat (occ x l) + (if decide (x = y) then 1 else 0).
Proof. rewrite occ_app, occ_cons, occ_nil. case_decide; lia. Qed.

Lemma remove_dups_mono (l l' : list bytes) : l ⊆ l' -> zlen (remove_dups l) <= zlen (remove_dups l').
Proof.
  intros Hsub. unfold zlen. apply inj_le. apply submseteq_length, NoDup_submseteq; [apply NoDup_remove_dups|].
  intros x. rewrite !elem_of_remove_dups. apply Hsub.
Qed.

(** A full tracker has room for no further hash, if it has dropped none. *)
Lemma tracker_full seen s h : filter_inv seen s -> h ∉ od_keys (f_counts s) -> f_max_tracker_size s <= zlen (f_counts s) ->
  ~ zlen (remove_dups (seen ++ [h])) <= f_max_tracker_size s.
Proof.
  intros Hs Hh Hfull Hle. assert (Hsub : seen ⊆ seen ++ [h]) by (intros x Hx; apply elem_of_app; by left).
  pose proof (remove_dups_mono _ _ Hsub). pose proof (fi_exact _ _ Hs ltac:(lia)) as Hex.
  assert (Hn : (length (h :: od_keys (f_counts s)) <= length (remove_dups (seen ++ [h])))%nat).
  { apply submseteq_length, NoDup_submseteq; [by constructor; [|apply Hs]|]. intros x. rewrite elem_of_remove_dups, elem_of_app, elem_of_cons.
    intros [->|Hx]; [by right; left|left]. apply od_lookup_keys in Hx as [v Hv]. apply occ_pos_iff.
    specialize (Hex x). unfold count in Hex. rewrite Hv in Hex. pose proof (fi_present _ _ Hs x v Hv). simpl in Hex. lia. }
  unfold od_keys in Hn. simpl in Hn. rewrite length_map in Hn. unfold zlen in *. lia.
Qed.

Lemma record_hash_wp seen s h : filter_inv seen s ->
  wp (record_hash h) (fun _ s' => filter_inv (seen ++ [h]) s' /\ s' = set_counts (f_counts s') s) s.
Proof.
  intros Hs. pose proof Hs as [Hnd Hsize Hpos Hcount Hpres Hexact]. unfold record_hash. apply wp_bind, wp_gets. cbn [id].
  assert (Hsub : seen ⊆ seen ++ [h]) by (intros x Hx; apply elem_of_app; by left).
  pose proof (remove_dups_mono _ _ Hsub) as Hmono.
  destruct (od_mem h (f_counts s)) eqn:Hmem.
  - apply od_mem_spec, od_lookup_keys in Hmem as [v Hv]. destruct (od_move_to_end_ok h v _ Hv) as [Hmv Hperm].
    set (d := od_delete h (f_counts s) ++ [(h, v)]) in *.
    assert (Hndd : NoDup (od_keys d)) by (by rewrite Hperm).
    assert (Hlk : forall x, od_lookup x d = od_lookup x (f_counts s)).
    { intros x. apply option_eq. intros y. rewrite !od_lookup_Some, Hperm by done. done. }
    apply wp_bind. eapply wp_lift_res; [exact Hmv|]. apply wp_bind, wp_modify, wp_bind.
    eapply wp_lift_opt; [by rewrite Hlk|]. apply wp_modify.
    assert (Hc : forall x, default 0 (od_lookup x (od_set h (v + 1) d)) = count s x + (if decide (x = h) then 1 else 0)).
    { intros x. unfold count. rewrite od_lookup_set, Hlk. case_decide; [subst; rewrite Hv; simpl; lia|lia]. }
    split; [|by destruct s]. split; simpl; unfold count; simpl.
    + rewrite od_set_keys; [done|]. rewrite Hlk. by eexists.
    + assert (Hz : zlen (od_set h (v + 1) d) = zlen (f_counts s)); [|lia].
      transitivity (zlen d); [|by apply zlen_perm]. unfold zlen. rewrite <-!(length_map fst). fold (od_keys (od_set h (v + 1) d)).
      rewrite od_set_keys; [done|]. rewrite Hlk. by eexists.
    + done.
    + intros x. rewrite Hc, occ_snoc. specialize (Hcount x). lia.
    + intros x y. rewrite od_lookup_set, Hlk. case_decide; [intros [= <-]; specialize (Hpres h v Hv); lia|apply Hpres].
    + intros Hle x. rewrite Hc, occ_snoc, Hexact by lia. done.
  - assert (Hh : h ∉ od_keys (f_counts s)). { intros Hin. apply od_mem_spec in Hin. congruence. }
    apply wp_bind. eapply (wp_mono _ (fun _ s1 => s1 = set_counts (f_counts s1) s /\ NoDup (od_keys (f_counts s1))
      /\ zlen (f_counts s1) + 1 <= f_max_tracker_size s /\ (h ∉ od_keys (f_counts s1))
      /\ (forall x, count s1 x <= count s x) /\ (forall x v, od_lookup x (f_counts s1) = Some v -> 1 <= v)
      /\ (zlen (remove_dups (seen ++ [h])) <= f_max_tracker_size s -> s1 = s))).
    { apply wp_when; intros Hfull; [|split_and!; try done; [by destruct s|lia]].
      pose proof (tracker_full seen s h Hs Hh ltac:(lia)) as Hno.
      destruct (f_counts s) as [|[k v] d] eqn:Ed; [unfold zlen in Hfull; simpl in Hfull; lia|].
      apply wp_bind. eapply wp_lift_res; [reflexivity|]. apply wp_modify. simpl.
      assert (Hlk : forall x y, od_lookup x d = Some y -> od_lookup x ((k, v) :: d) = Some y).
      { intros x y Hx. apply od_lookup_Some; [done|]. right. apply od_lookup_Some; [|done]. by apply NoDup_cons in Hnd as [_ ?]. }
      rewrite zlen_cons in *. apply NoDup_cons in Hnd as Hnd'. destruct Hnd' as [Hk Hnd'].
      split; [reflexivity|]. split; [exact Hnd'|]. split; [lia|]. split; [by intros ?; destruct Hh; right|]. split; [|split; [|by intros ?]].
      - intros x. unfold count. rewrite Ed. simpl f_counts. destruct (od_lookup x d) as [y|] eqn:Hx; simpl default at 1.
        + by rewrite (Hlk x y Hx).
        + destruct (od_lookup x ((k, v) :: d)) as [y|] eqn:Hy; simpl; [|lia]. specialize (Hpres x y Hy). lia.
      - intros x y Hx. by apply (Hpres x y), Hlk. }
    intros [] s1 (Heq1 & Hnd1 & Hsize1 & Hh1 & Hle1 & Hpres1 & Hex1). apply wp_modify.
    assert (Hc : forall x, default 0 (od_lookup x (od_set h 1 (f_counts s1))) = count s1 x + (if decide (x = h) then 1 else 0)).
    { intros x. rewrite od_lookup_set. case_decide as E; unfold count; [|lia]. subst. apply od_lookup_None in Hh1. by rewrite Hh1. }
    assert (Hmax : f_max_tracker_size s1 = f_max_tracker_size s) by (by rewrite Heq1).
    split; [|rewrite Heq1; done]. split; simpl; unfold count; simpl; rewrite ?Hmax; try done.
    + by apply od_set_NoDup.
    + rewrite od_set_new, zlen_app by done. change (zlen [(h, 1)]) with 1. lia.
    + intros x. rewrite Hc, occ_snoc. specialize (Hcount x). specialize (Hle1 x). lia.
    + intros x y. rewrite od_lookup_set. case_decide; [intros [= <-]; lia|apply Hpres1].
    + intros Hle x. rewrite Hc, occ_snoc, (Hex1 Hle), Hexact by lia. done.
Qed.

(** ** Runs of the filter *)

(** Any call, whether it raises or not; [fs_delegate] are the methods that only
    delegate. *)
Inductive filter_step : FilterReusedOffloadingManager T * list bytes -> FilterReusedOffloadingManager T * list bytes -> Prop :=
  | fs_lookup s s' seen hs r : lookup hs s = (r, s') -> filter_step (s, seen) (s', seen ++ hs)
  | fs_prepare_store s s' seen hs r : prepare_store hs s = (r, s') -> filter_step (s, seen) (s', seen)
  | fs_delegate A (f : M T A) s s' seen r : on_backing f s = (r, s') -> filter_step (s, seen) (s', seen).

Lemma inv_on_backing {A} (f : M T A) s seen r s' : on_backing f s = (r, s') -> filter_inv seen s ->
  filter_inv seen s' /\ f_store_threshold s' = f_store_threshold s /\ f_max_tracker_size s' = f_max_tracker_size s.
Proof.
  unfold on_backing, zoom. destruct (f (f_backing s)) as [r' b]. intros [= <- <-] [H1 H2 H3 H4 H5 H6]. by split.
Qed.

Lemma record_all_wp hs s seen : filter_inv seen s ->
  wp (forM_ hs record_hash) (fun _ s' => filter_inv (seen ++ hs) s' /\ s' = set_counts (f_counts s') s) s.
Proof.
  intros Hs. eapply (wp_forM_ (fun d t s' => filter_inv (seen ++ d) s' /\ s' = set_counts (f_counts s') s) _ []); [| |done].
  - rewrite app_nil_r. split; [done|by destruct s].
  - intros d h t s' [Hs' Heq]. eapply wp_mono; [by apply record_hash_wp|]. intros [] s'' [Hs'' Heq']. rewrite app_assoc.
    split; [done|]. rewrite Heq', Heq. done.
Qed.

Lemma filter_step_inv x y : filter_step x y -> filter_inv x.2 x.1 ->
  filter_inv y.2 y.1 /\ f_store_threshold y.1 = f_store_threshold x.1 /\ f_max_tracker_size y.1 = f_max_tracker_size x.1.
Proof.
  intros Hstep Hs. destruct Hstep as [s s' seen hs r Hrun|s s' seen hs r Hrun|A f s s' seen r Hrun]; simpl in *.
  - unfold lookup in Hrun. unfold mbind, M_bind in Hrun.
    destruct (proj1 (wp_run _ _ _) (record_all_wp hs s seen Hs)) as ([] & s1 & Hrec & Hs1 & Heq). rewrite Hrec in Hrun.
    destruct (inv_on_backing _ _ _ _ _ Hrun Hs1) as (? & -> & ->). by rewrite Heq.
  - unfold prepare_store, mbind, M_bind, gets in Hrun. exact (inv_on_backing _ _ _ _ _ Hrun Hs).
  - exact (inv_on_backing _ _ _ _ _ Hrun Hs).
Qed.

Lemma filter_run_inv x y : rtc filter_step x y -> filter_inv x.2 x.1 ->
  filter_inv y.2 y.1 /\ f_store_threshold y.1 = f_store_threshold x.1 /\ f_max_tracker_size y.1 = f_max_tracker_size x.1.
Proof.
  induction 1 as [x|x y z Hstep _ IH]; [done|]. intros Hx. destruct (filter_step_inv x y Hstep Hx) as (Hy & H1 & H2).
  destruct (IH Hy) as (Hz & H3 & H4). split_and!; [done|congruence|congruence].
Qed.

(** The filter hands [prepare_store] on to the manager behind it with exactly
    the hashes whose counter has reached the threshold.  Such a hash has been
    looked up at least that often, whatever the other calls were and however often
    the table overflowed; as long as no more distinct hashes were looked up than
    the table holds, every hash looked up that often is handed on.  The table
    never exceeds its size. *)
Theorem reuse_filter_stores_reused backing threshold max_size s0 s seen hs :
  new_filter backing threshold max_size = Ok s0 -> rtc filter_step (s0, []) (s, seen) ->
  exists eligible,
    prepare_store hs s = on_backing (om_prepare_store eligible) s
    /\ eligible `sublist_of` hs
    /\ (forall h, h ∈ eligible -> threshold <= Z.of_nat (occ h seen))
    /\ (zlen (remove_dups seen) <= max_size -> eligible = filter (fun h => threshold <= Z.of_nat (occ h seen)) hs)
    /\ zlen (f_counts s) <= max_size.
Proof.
  intros Hnew Hrun. unfold new_filter in Hnew. destruct (threshold <? 2); [done|]. destruct (max_size <? 1) eqn:Hmax; [done|].
  injection Hnew as <-.
  destruct (filter_run_inv _ _ Hrun) as (Hs & Hthr & Hsize); simpl in *.
  { split; simpl; try done; try (by apply NoDup_nil_2); unfold zlen; simpl; lia. }
  exists (filter (fun h => threshold <= count s h) hs). split_and!.
  - unfold prepare_store, mbind, M_bind, gets, id. rewrite Hthr. done.
  - apply sublist_filter.
  - intros h [Hc _]%list_elem_of_filter. pose proof (fi_count _ _ Hs h). lia.
  - intros Hle. apply filter_ext_in. intros h _. rewrite (fi_exact _ _ Hs); [done|lia].
  - rewrite <-Hsize. apply Hs.
Qed.
End Filter.

(** ** A filter in front of a CPU manager *)

Definition sample_backing : CPUOffloadingManager AnyPolicy := sample_manager 4 "lru" (PolicyLRU []).
Definition sample_filter : FilterReusedOffloadingManager (CPUOffloadingManager AnyPolicy) := mkFilter sample_backing 2 3 [].
Definition sample_filter2 := snd (lookup [hash_a; hash_c] (snd (lookup [hash_a; hash_b] sample_filter))).

Lemma reuse_filter_stores_reused_witness :
  filter (fun h => 2 <= Z.of_nat (occ h [hash_a; hash_b; hash_a; hash_c])) [hash_a; hash_b] = [hash_a]
  /\ (exists s, prepare_store [hash_a; hash_b] sample_filter2 = (Ok (Some (mkPrepareStoreOutput [hash_a] (mkCPULoadStoreSpec [0]) [])), s)).
Proof.
  destruct (reuse_filter_stores_reused sample_backing 2 3 sample_filter sample_filter2 [hash_a; hash_b; hash_a; hash_c] [hash_a; hash_b])
    as (eligible & Heq & _ & _ & Hel & _).
  - reflexivity.
  - apply (rtc_l _ _ (snd (lookup [hash_a; hash_b] sample_filter), [hash_a; hash_b])).
    + apply (fs_lookup sample_filter _ [] [hash_a; hash_b] (fst (lookup [hash_a; hash_b] sample_filter))). vm_compute. reflexivity.
    + apply rtc_once. apply (fs_lookup _ _ [hash_a; hash_b] [hash_a; hash_c] (fst (lookup [hash_a; hash_c] (snd (lookup [hash_a; hash_b] sample_filter))))).
      vm_compute. reflexivity.
  - split; [vm_compute; reflexivity|]. rewrite Heq, Hel by (vm_compute; discriminate). eexists. vm_compute. reflexivity.
Defined.
