(* ===== verification/OffloadConnector.v ===== *)
(** The scheduler side of the offloading connector
    ([vllm/distributed/kv_transfer/kv_connector/v1/offloading/scheduler.py]), over
    any [OffloadingManager].

    The connector keeps references to the scheduler's request objects; here it
    keeps their ids, and the methods that read a request get the store [reqs] of
    the objects.  Python sets of hashes and request ids are iterated over in the
    order of the parameters [hash_order] and [id_order]. *)
From S2P Require Import Prelude PyDict Request FreeQueue SchedState.
From S2P Require Import OffloadManager.
Local Open Scope Z_scope.

(** [itertools.islice(l, start, stop, step)] *)
Fixpoint slice_from {A} (l : list A) (i next step : Z) (stop : option Z) : list A :=
  match l with
  | [] => []
  | x :: l' =>
      if match stop with Some e => e <=? i | None => false end then []
      else if i =? next then x :: slice_from l' (i + 1) (next + step) step stop
      else slice_from l' (i + 1) next step stop
  end.
Definition py_islice {A} (l : list A) (start : Z) (stop : option Z) (step : Z) : res (list A) :=
  if (start <? 0) || match stop with Some e => e <? 0 | None => false end || (step <? 1) then Err ValueError
  else Ok (slice_from l 0 start step stop).

(** [TransferSpec] of a load and of a store. *)
Definition LoadTransfer : Type := CPULoadStoreSpec * GPULoadStoreSpec.
Definition StoreTransfer : Type := GPULoadStoreSpec * CPULoadStoreSpec.

Record OffloadingConnectorMetadata := mkOffloadingConnectorMetadata {
  reqs_to_load : list (string * LoadTransfer);
  reqs_to_store : list (string * StoreTransfer);
  reqs_to_flush : option (gset string)
}.

(** [BlockRemoved] and [BlockStored] as the connector fills them in. *)
Inductive ConnectorEvent :=
  | ConnectorBlockRemoved (block_hashes : list bytes) (medium : string)
  | ConnectorBlockStored (block_hashes : list bytes) (block_size : Z) (medium : string).

Record OffloadingConnectorScheduler (T : Type) := mkConnector {
  oc_gpu_block_size : Z;
  oc_offloaded_block_size : Z;
  oc_block_size_factor : Z;
  oc_manager : T;
  oc_requests : gset string;
  oc_request_block_ids : gmap string (list Z);
  oc_reqs_to_load : list (string * LoadTransfer);
  oc_next_stored_block_idx : gmap string Z;
  oc_blocks_being_loaded : option (gset bytes);
  oc_reqs_being_stored : gmap string (gset bytes);
  oc_reqs_being_loaded : gmap string (gset bytes)
}.
Arguments mkConnector {T}. Arguments oc_gpu_block_size {T}. Arguments oc_offloaded_block_size {T}.
Arguments oc_block_size_factor {T}. Arguments oc_manager {T}. Arguments oc_requests {T}.
Arguments oc_request_block_ids {T}. Arguments oc_reqs_to_load {T}. Arguments oc_next_stored_block_idx {T}.
Arguments oc_blocks_being_loaded {T}. Arguments oc_reqs_being_stored {T}. Arguments oc_reqs_being_loaded {T}.

Section Setters.
Context {T : Type}.
Implicit Types c : OffloadingConnectorScheduler T.
Definition oc_set_manager (t : T) c := mkConnector (oc_gpu_block_size c) (oc_offloaded_block_size c) (oc_block_size_factor c) t
  (oc_requests c) (oc_request_block_ids c) (oc_reqs_to_load c) (oc_next_stored_block_idx c) (oc_blocks_being_loaded c)
  (oc_reqs_being_stored c) (oc_reqs_being_loaded c).
Definition oc_set_requests x c := mkConnector (oc_gpu_block_size c) (oc_offloaded_block_size c) (oc_block_size_factor c) (oc_manager c)
  x (oc_request_block_ids c) (oc_reqs_to_load c) (oc_next_stored_block_idx c) (oc_blocks_being_loaded c)
  (oc_reqs_being_stored c) (oc_reqs_being_loaded c).
Definition oc_set_request_block_ids x c := mkConnector (oc_gpu_block_size c) (oc_offloaded_block_size c) (oc_block_size_factor c) (oc_manager c)
  (oc_requests c) x (oc_reqs_to_load c) (oc_next_stored_block_idx c) (oc_blocks_being_loaded c)
  (oc_reqs_being_stored c) (oc_reqs_being_loaded c).
Definition oc_set_reqs_to_load x c := mkConnector (oc_gpu_block_size c) (oc_offloaded_block_size c) (oc_block_size_factor c) (oc_manager c)
  (oc_requests c) (oc_request_block_ids c) x (oc_next_stored_block_idx c) (oc_blocks_being_loaded c)
  (oc_reqs_being_stored c) (oc_reqs_being_loaded c).
Definition oc_set_next_stored x c := mkConnector (oc_gpu_block_size c) (oc_offloaded_block_size c) (oc_block_size_factor c) (oc_manager c)
  (oc_requests c) (oc_request_block_ids c) (oc_reqs_to_load c) x (oc_blocks_being_loaded c)
  (oc_reqs_being_stored c) (oc_reqs_being_loaded c).
Definition oc_set_blocks_being_loaded x c := mkConnector (oc_gpu_block_size c) (oc_offloaded_block_size c) (oc_block_size_factor c) (oc_manager c)
  (oc_requests c) (oc_request_block_ids c) (oc_reqs_to_load c) (oc_next_stored_block_idx c) x
  (oc_reqs_being_stored c) (oc_reqs_being_loaded c).
Definition oc_set_being_stored x c := mkConnector (oc_gpu_block_size c) (oc_offloaded_block_size c) (oc_block_size_factor c) (oc_manager c)
  (oc_requests c) (oc_request_block_ids c) (oc_reqs_to_load c) (oc_next_stored_block_idx c) (oc_blocks_being_loaded c)
  x (oc_reqs_being_loaded c).
Definition oc_set_being_loaded x c := mkConnector (oc_gpu_block_size c) (oc_offloaded_block_size c) (oc_block_size_factor c) (oc_manager c)
  (oc_requests c) (oc_request_block_ids c) (oc_reqs_to_load c) (oc_next_stored_block_idx c) (oc_blocks_being_loaded c)
  (oc_reqs_being_stored c) x.
End Setters.

Module Connector.
Section Connector.
Context {T : Type} `{OffloadingManager T}.
Context (hash_order : gset bytes -> list bytes) (id_order : gset string -> list string).
Abbreviation CM := (M (OffloadingConnectorScheduler T)).

(** [__init__], on the block sizes of the specification. *)
Definition new_connector (gpu_block_sizes : list Z) (block_size_factor : Z) (manager : T) (enable_prefix_caching : bool)
    : res (OffloadingConnectorScheduler T) :=
  match gpu_block_sizes with
  | [bs] => Ok (mkConnector bs (bs * block_size_factor) block_size_factor manager ∅ ∅ [] ∅
                  (if enable_prefix_caching then Some ∅ else None) ∅ ∅)
  | _ => Err AssertionError
  end.

Definition on_manager {A} (f : M T A) : CM A := zoom oc_manager oc_set_manager f.

(** [req.block_hashes[f*start + f - 1 : f*end : f]]; an [end_idx] of 0 is no end. *)
Definition get_block_hashes (c : OffloadingConnectorScheduler T) (req : Request) (start_idx : Z) (end_idx : option Z) : res (list bytes) :=
  let f := oc_block_size_factor c in
  py_islice (block_hashes req) (f * start_idx + f - 1)
    (match end_idx with Some e => if e =? 0 then None else Some (f * e) | None => None end) f.

Definition get_num_new_matched_tokens (request : Request) (num_computed_tokens : Z) : CM (option Z * bool) :=
  c ← gets id ;
  let bs := oc_offloaded_block_size c in
  num_blocks ← lift_res (py_floordiv (num_tokens request) bs) ;
  n ← lift_res (py_floordiv (zlen (block_hashes request)) (oc_block_size_factor c)) ;
  py_assert (n =? num_blocks) ;;
  hashes ← lift_res (get_block_hashes c request 0 None) ;
  on_manager (om_touch hashes) ;;
  let full_block_tokens := bs * num_blocks in
  if full_block_tokens - num_computed_tokens <? bs then mret (Some 0, false)
  else
    start_block_idx ← lift_res (py_floordiv num_computed_tokens bs) ;
    hashes ← lift_res (get_block_hashes c request start_block_idx None) ;
    hits ← on_manager (om_lookup hashes) ;
    match hits with
    | None => mret (None, false)
    | Some hits =>
        if hits =? 0 then mret (Some 0, false)
        else
          let num_hit_tokens := bs * (start_block_idx + hits) - num_computed_tokens in
          if num_hit_tokens <? bs then mret (Some 0, false)
          else
            c ← gets id ;
            match oc_blocks_being_loaded c with
            | Some being_loaded =>
                if bool_decide (being_loaded = ∅) then mret (Some num_hit_tokens, true)
                else
                  hashes ← lift_res (get_block_hashes c request start_block_idx (Some (start_block_idx + hits))) ;
                  if existsb (fun h => bool_decide (h ∈ being_loaded)) hashes then mret (None, false)
                  else mret (Some num_hit_tokens, true)
            | None => mret (Some num_hit_tokens, true)
            end
    end.

(** [blocks] are the block objects of the first KV group. *)
Definition update_state_after_alloc (request : Request) (blocks : list KVCacheBlock) (num_external_tokens : Z) : CM unit :=
  let rid := request_id request in
  modify (fun c => oc_set_requests ({[rid]} ∪ oc_requests c) c) ;;
  modify (fun c => oc_set_request_block_ids (<[rid := []]> (oc_request_block_ids c)) c) ;;
  if num_external_tokens =? 0 then mret tt
  else
    c ← gets id ;
    let block_ids := map block_id blocks in
    let num_computed_gpu_blocks := zlen (filter (fun b => is_Some (block_hash b)) blocks) in
    let num_computed_tokens := num_computed_gpu_blocks * oc_gpu_block_size c in
    let full_block_tokens := num_computed_tokens + num_external_tokens in
    r ← lift_res (py_mod full_block_tokens (oc_offloaded_block_size c)) ;
    py_assert (r =? 0) ;;
    let num_pending_gpu_blocks := zlen block_ids - num_computed_gpu_blocks in
    py_assert (num_external_tokens =? num_pending_gpu_blocks * oc_gpu_block_size c) ;;
    start_block_idx ← lift_res (py_floordiv num_computed_tokens (oc_offloaded_block_size c)) ;
    num_blocks ← lift_res (py_floordiv full_block_tokens (oc_offloaded_block_size c)) ;
    n ← lift_res (py_floordiv (zlen (block_hashes request)) (oc_block_size_factor c)) ;
    py_assert (num_blocks <=? n) ;;
    hashes ← lift_res (get_block_hashes c request start_block_idx (Some num_blocks)) ;
    src_spec ← on_manager (om_prepare_load hashes) ;
    dst_spec ← lift_res (gpu_load_store_spec (py_slice_from block_ids num_computed_gpu_blocks) [num_pending_gpu_blocks]
                           (Some [num_computed_gpu_blocks])) ;
    modify (fun c => oc_set_reqs_to_load (od_set rid (src_spec, dst_spec) (oc_reqs_to_load c)) c) ;;
    modify (fun c => oc_set_being_loaded
      (<[rid := default ∅ (oc_reqs_being_loaded c !! rid) ∪ list_to_set hashes]> (oc_reqs_being_loaded c)) c) ;;
    modify (fun c => oc_set_next_stored (<[rid := num_blocks]> (oc_next_stored_block_idx c)) c) ;;
    modify (fun c => oc_set_blocks_being_loaded
      (match oc_blocks_being_loaded c with
       | Some s => Some (s ∪ default ∅ (oc_reqs_being_loaded c !! rid))
       | None => None
       end) c).

(** [yield_req_data]: [(req_id, new_block_id_groups, preempted)]. *)
Definition yield_req_data (so : SchedulerOutput) : list (string * option (list (list Z)) * bool) :=
  let cached := so_scheduled_cached_reqs so in
  map (fun r => (nr_req_id r, nr_block_ids r, false)) (so_scheduled_new_reqs so)
  ++ map (fun x => (x.1, x.2, bool_decide (x.1 ∈ cr_resumed_req_ids cached))) (zip (cr_req_ids cached) (cr_new_block_ids cached)).

(** The GPU blocks of the offloaded blocks that [prepare_store] accepted. *)
Fixpoint src_block_ids (c : OffloadingConnectorScheduler T) (block_ids : list Z) (to_store : list bytes)
    (offloaded_block_idx : Z) (hashes : list bytes) : res (list Z) :=
  match hashes with
  | [] => Ok []
  | h :: hashes' =>
      if bool_decide (h ∈ to_store) then
        let gpu_block_idx := offloaded_block_idx * oc_block_size_factor c in
        ids ← foldr (fun i acc => x ← py_get block_ids (gpu_block_idx + i) ; l ← acc ; Ok (x :: l)) (Ok []) (zrange 0 (oc_block_size_factor c)) ;
        rest ← src_block_ids c block_ids to_store (offloaded_block_idx + 1) hashes' ;
        Ok (ids ++ rest)
      else src_block_ids c block_ids to_store (offloaded_block_idx + 1) hashes'
  end.

(** The body of the loop of [_get_reqs_to_store], for one scheduled request;
    [reqs] are the request objects. *)
Definition get_req_to_store (reqs : gmap string Request) (so : SchedulerOutput) (reqs_to_store : list (string * StoreTransfer))
    (data : string * option (list (list Z)) * bool) : CM (list (string * StoreTransfer)) :=
  let '(req_id, new_block_id_groups, preempted) := data in
  when preempted (modify (fun c => oc_set_request_block_ids (<[req_id := []]> (oc_request_block_ids c)) c)) ;;
  match new_block_id_groups with
  | Some ((_ :: _) as groups) =>
      new_block_ids ← lift_res (py_get groups 0) ;
      c ← gets id ;
      ids ← lift_opt KeyError (oc_request_block_ids c !! req_id) ;
      modify (fun c => oc_set_request_block_ids (<[req_id := ids ++ new_block_ids]> (oc_request_block_ids c)) c)
  | _ => mret tt
  end ;;
  c ← gets id ;
  block_ids ← lift_opt KeyError (oc_request_block_ids c !! req_id) ;
  req ← lift_opt KeyError (if bool_decide (req_id ∈ oc_requests c) then reqs !! req_id else None) ;
  new_tokens ← lift_opt KeyError (od_lookup req_id (so_num_scheduled_tokens so)) ;
  let expected_tokens := num_computed_tokens req + new_tokens in
  let total_tokens := Z.min expected_tokens (num_tokens req) in
  num_blocks ← lift_res (py_floordiv total_tokens (oc_offloaded_block_size c)) ;
  let start_block_idx := default 0 (oc_next_stored_block_idx c !! req_id) in
  if num_blocks - start_block_idx <=? 0 then mret reqs_to_store
  else
    py_assert (num_blocks * oc_block_size_factor c <=? zlen (block_hashes req)) ;;
    new_block_hashes ← lift_res (get_block_hashes c req start_block_idx (Some num_blocks)) ;
    store_output ← on_manager (om_prepare_store new_block_hashes) ;
    match store_output with
    | None => mret reqs_to_store
    | Some out =>
        modify (fun c => oc_set_next_stored (<[req_id := num_blocks]> (oc_next_stored_block_idx c)) c) ;;
        match block_hashes_to_store out with
        | [] => mret reqs_to_store
        | to_store =>
            hashes ← lift_res (get_block_hashes c req 0 (Some num_blocks)) ;
            on_manager (om_touch hashes) ;;
            ids ← lift_res (src_block_ids c block_ids to_store start_block_idx new_block_hashes) ;
            src_spec ← lift_res (gpu_load_store_spec ids [zlen ids] None) ;
            modify (fun c => oc_set_being_stored
              (<[req_id := default ∅ (oc_reqs_being_stored c !! req_id) ∪ list_to_set to_store]> (oc_reqs_being_stored c)) c) ;;
            mret (od_set req_id (src_spec, store_spec out) reqs_to_store)
        end
    end.

Definition get_reqs_to_store (reqs : gmap string Request) (so : SchedulerOutput) : CM (list (string * StoreTransfer)) :=
  foldM (get_req_to_store reqs so) [] (yield_req_data so).

Definition build_connector_meta (reqs : gmap string Request) (so : SchedulerOutput) : CM OffloadingConnectorMetadata :=
  to_load ← gets oc_reqs_to_load ;
  to_store ← get_reqs_to_store reqs so ;
  modify (oc_set_reqs_to_load []) ;;
  forM_ (id_order (default ∅ (so_preempted_req_ids so))) (fun req_id =>
    c ← gets id ;
    match oc_reqs_being_stored c !! req_id with
    | Some hashes =>
        when (negb (bool_decide (hashes = ∅)))
          (on_manager (om_complete_store (hash_order hashes) true) ;;
           modify (fun c => oc_set_being_stored (<[req_id := ∅]> (oc_reqs_being_stored c)) c))
    | None => mret tt
    end) ;;
  mret (mkOffloadingConnectorMetadata to_load to_store (so_preempted_req_ids so)).

Definition update_connector_output (co : KVConnectorOutput) : CM unit :=
  forM_ (default [] (co_finished_sending co)) (fun req_id =>
    c ← gets id ;
    modify (oc_set_being_stored (delete req_id (oc_reqs_being_stored c))) ;;
    match oc_reqs_being_stored c !! req_id with
    | Some hashes => when (negb (bool_decide (hashes = ∅))) (on_manager (om_complete_store (hash_order hashes) true))
    | None => mret tt
    end) ;;
  forM_ (default [] (co_finished_recving co)) (fun req_id =>
    c ← gets id ;
    modify (oc_set_being_loaded (delete req_id (oc_reqs_being_loaded c))) ;;
    match oc_reqs_being_loaded c !! req_id with
    | Some hashes =>
        when (negb (bool_decide (hashes = ∅)))
          (modify (fun c => oc_set_blocks_being_loaded
             (match oc_blocks_being_loaded c with Some s => Some (s ∖ hashes) | None => None end) c) ;;
           on_manager (om_complete_load (hash_order hashes)))
    | None => mret tt
    end).

Definition request_finished (request : Request) : CM (bool * option any) :=
  let req_id := request_id request in
  modify (fun c => oc_set_requests (oc_requests c ∖ {[req_id]}) c) ;;
  modify (fun c => oc_set_request_block_ids (delete req_id (oc_request_block_ids c)) c) ;;
  modify (fun c => oc_set_next_stored (delete req_id (oc_next_stored_block_idx c)) c) ;;
  c ← gets id ;
  mret (bool_decide (is_Some (oc_reqs_being_stored c !! req_id)), None).

Definition take_events : CM (list ConnectorEvent) :=
  evs ← on_manager om_take_events ;
  mret (map (fun e => if oe_removed e then ConnectorBlockRemoved (oe_block_hashes e) (oe_medium e)
                      else ConnectorBlockStored (oe_block_hashes e) (oe_block_size e) (oe_medium e)) evs).
End Connector.
End Connector.
