(* ===== verification/OffloadTransfer.v ===== *)
(** The transfers of KV offloading ([vllm/v1/kv_offload/worker/cpu_gpu.py]): the
    placement of sub-blocks, the copy of the bytes ([csrc/cache_kernels.cu]) and
    the queue of transfers of one direction.

    CUDA streams and events are opaque objects: a new one is the next number, and
    whether an event has completed is an argument of the methods that ask. *)
From S2P Require Import Prelude PyDict.
From S2P Require Import OffloadManager OffloadConnector.
Local Open Scope Z_scope.

(** ** Sub-blocks *)

(** [output[lo:hi] = values] on a NumPy array: the slice is clipped to the array
    and its length must be that of the values, or the one value is repeated. *)
Definition np_write (output : list Z) (lo hi : Z) (values : list Z) : res (list Z) :=
  let n := zlen output in
  let a := Z.min lo n in
  let b := Z.max a (Z.min hi n) in
  let put vs := take (Z.to_nat a) output ++ vs ++ drop (Z.to_nat b) output in
  if zlen values =? b - a then Ok (put values)
  else match values with [v] => Ok (put (zreplicate (b - a) v)) | _ => Err ValueError end.

(** The loop of [expand_block_ids]. *)
Fixpoint expand_loop (block_ids : list Z) (factor first : Z) (output : list Z) (output_idx : Z) : res (list Z) :=
  match block_ids with
  | [] => Ok output
  | block_id :: rest =>
      let indices := zrange first factor in
      let output_end_idx := output_idx + zlen indices in
      output ← np_write output output_idx output_end_idx (map (Z.add (block_id * factor)) indices) ;
      expand_loop rest factor 0 output output_end_idx
  end.
Definition expand_block_ids (block_ids : list Z) (block_size_factor : Z) (output : list Z) (skip_count : Z) : res (list Z) :=
  if negb (skip_count <? block_size_factor) then Err AssertionError
  else expand_loop block_ids block_size_factor skip_count output 0.

(** [np.empty]: the contents are arbitrary; here zeros, all of which are written. *)
Definition np_empty (n : Z) : res (list Z) := if n <? 0 then Err ValueError else Ok (zreplicate n 0).

(** The pairs of sub-blocks that [transfer_async] copies. *)
Definition src_to_dst (src_factor dst_factor : Z) (src_blocks dst_blocks : list Z) : res (list (Z * Z)) :=
  let src_sub_block_count := zlen src_blocks * src_factor in
  let dst_sub_block_count := zlen dst_blocks * dst_factor in
  src_sub_blocks_to_skip ← py_mod (- zlen dst_blocks) src_factor ;
  if negb (dst_sub_block_count =? src_sub_block_count - src_sub_blocks_to_skip) then Err AssertionError
  else
    out ← np_empty dst_sub_block_count ;
    src ← expand_block_ids src_blocks src_factor out src_sub_blocks_to_skip ;
    dst ← expand_block_ids dst_blocks dst_factor out 0 ;
    Ok (zip src dst).

(** The bytes of a tensor, by offset, and [cudaMemcpyAsync] between two of them. *)
Definition memory : Type := Z -> Byte.byte.
Definition memcpy (dst : memory) (dst_offset : Z) (src : memory) (src_offset n : Z) : memory :=
  fun i => if (dst_offset <=? i) && (i <? dst_offset + n) then src (src_offset + (i - dst_offset)) else dst i.
(** [swap_blocks]: the destination after the copies. *)
Definition swap_blocks (src dst : memory) (block_size_in_bytes : Z) (block_mapping : list (Z * Z)) : memory :=
  foldl (fun dst p => memcpy dst (p.2 * block_size_in_bytes) src (p.1 * block_size_in_bytes) block_size_in_bytes) dst block_mapping.

(** ** Transfers of one direction *)

Record Transfer := mkTransfer {
  tr_job_id : Z;
  tr_stream : Z;
  tr_start_event : Z;
  tr_end_event : Z;
  tr_num_bytes : Z;
  tr_after : option Z;                   (* the event the stream waits for *)
  tr_pairs : list (Z * Z)                (* what is copied, per tensor *)
}.

Record TransferResult := mkTransferResult { res_job_id : Z; res_success : bool; res_transfer_size : Z }.

Record SingleDirectionOffloadingHandler := mkHandler {
  h_gpu_to_cpu : bool;
  h_src_block_size_factor : Z;
  h_dst_block_size_factor : Z;
  h_group_block_size_in_bytes : list Z;
  h_transfer_events : list (Z * Z);
  h_transfers : list Transfer;
  h_stream_pool : list Z;
  h_event_pool : list Z;
  h_next : Z                             (* the next new stream or event *)
}.

Module Handler.
Abbreviation HM := (M SingleDirectionOffloadingHandler).
Definition set_events x h := mkHandler (h_gpu_to_cpu h) (h_src_block_size_factor h) (h_dst_block_size_factor h) (h_group_block_size_in_bytes h)
  x (h_transfers h) (h_stream_pool h) (h_event_pool h) (h_next h).
Definition set_transfers x h := mkHandler (h_gpu_to_cpu h) (h_src_block_size_factor h) (h_dst_block_size_factor h) (h_group_block_size_in_bytes h)
  (h_transfer_events h) x (h_stream_pool h) (h_event_pool h) (h_next h).
Definition set_pools s e h := mkHandler (h_gpu_to_cpu h) (h_src_block_size_factor h) (h_dst_block_size_factor h) (h_group_block_size_in_bytes h)
  (h_transfer_events h) (h_transfers h) s e (h_next h).
Definition set_next n h := mkHandler (h_gpu_to_cpu h) (h_src_block_size_factor h) (h_dst_block_size_factor h) (h_group_block_size_in_bytes h)
  (h_transfer_events h) (h_transfers h) (h_stream_pool h) (h_event_pool h) n.

(** [__init__], on the sizes of the tensors; [data_refs] are the tensor indices of
    the one KV cache group. *)
Definition new_handler (gpu_page_sizes cpu_page_sizes : list Z) (block_size_factor : Z) (group_data_refs : list (list Z)) (gpu_to_cpu : bool)
    : res SingleDirectionOffloadingHandler :=
  if negb (zlen gpu_page_sizes =? zlen cpu_page_sizes) then Err AssertionError
  else if negb (0 <? zlen gpu_page_sizes) then Err AssertionError
  else if negb (zlen group_data_refs =? 1) then Err AssertionError
  else if negb (forallb (fun gc => gc.2 =? gc.1 * block_size_factor) (zip gpu_page_sizes cpu_page_sizes)) then Err AssertionError
  else
    sizes ← foldr (fun refs acc =>
      n ← foldr (fun i acc => x ← py_get gpu_page_sizes i ; s ← acc ; Ok (x + s)) (Ok 0) refs ;
      l ← acc ; Ok (n :: l)) (Ok []) group_data_refs ;
    Ok (mkHandler gpu_to_cpu (if gpu_to_cpu then 1 else block_size_factor) (if gpu_to_cpu then block_size_factor else 1) sizes [] [] [] [] 0).

(** [pool.pop() if pool else Constructor()] *)
Definition fresh : HM Z := fun h => (Ok (h_next h), set_next (h_next h + 1) h).
Definition take_stream : HM Z :=
  h ← gets id ;
  match last (h_stream_pool h) with
  | Some s => modify (set_pools (removelast (h_stream_pool h)) (h_event_pool h)) ;; mret s
  | None => fresh
  end.
Definition take_event : HM Z :=
  h ← gets id ;
  match last (h_event_pool h) with
  | Some e => modify (set_pools (h_stream_pool h) (removelast (h_event_pool h))) ;; mret e
  | None => fresh
  end.

Definition transfer_async (job_id : Z) (src_blocks dst_blocks : list Z) : HM bool :=
  h ← gets id ;
  pairs ← lift_res (src_to_dst (h_src_block_size_factor h) (h_dst_block_size_factor h) src_blocks dst_blocks) ;
  stream ← take_stream ;
  start_event ← take_event ;
  end_event ← take_event ;
  h ← gets id ;
  modify (set_events (od_set job_id end_event (h_transfer_events h))) ;;
  bytes_per_block ← lift_res (py_get (h_group_block_size_in_bytes h) 0) ;
  modify (fun h => set_transfers (h_transfers h ++ [mkTransfer job_id stream start_event end_event
    (zlen dst_blocks * h_dst_block_size_factor h * bytes_per_block) (tr_end_event <$> last (h_transfers h)) pairs]) h) ;;
  mret true.

(** [get_finished]: the transfers at the head whose end event has completed. *)
Fixpoint finished_loop (query : Z -> bool) (transfers : list Transfer) (results : list TransferResult) : HM (list TransferResult) :=
  match transfers with
  | [] => mret results
  | t :: rest =>
      if query (tr_end_event t) then
        h ← gets id ;
        modify (set_transfers rest) ;;
        modify (fun h => set_pools (h_stream_pool h ++ [tr_stream t]) (h_event_pool h ++ [tr_end_event t; tr_start_event t]) h) ;;
        h ← gets id ;
        d ← lift_res (od_del (tr_job_id t) (h_transfer_events h)) ;
        modify (set_events d) ;;
        finished_loop query rest (results ++ [mkTransferResult (tr_job_id t) true (tr_num_bytes t)])
      else mret results
  end.
Definition get_finished (query : Z -> bool) : HM (list TransferResult) :=
  h ← gets id ; finished_loop query (h_transfers h) [].

(** [wait]: the events it synchronises with. *)
Definition wait (job_ids : list Z) (h : SingleDirectionOffloadingHandler) : list Z :=
  omap (fun j => od_lookup j (h_transfer_events h)) job_ids.
End Handler.
