(* ===== verification/OffloadWorker.v ===== *)
(** The worker side of KV offloading: the registry of transfer handlers
    ([vllm/v1/kv_offload/worker/worker.py]) and the connector's jobs
    ([vllm/distributed/kv_transfer/kv_connector/v1/offloading/worker.py]).

    Handlers are shared objects: the registry refers to them by their index in
    [ow_objs].  Python sets of handlers and of request ids are iterated over in the
    order of the parameters [handler_order] and [id_order].  The statistics of
    the transfers are not kept. *)
From S2P Require Import Prelude PyDict.
From S2P Require Import OffloadManager OffloadConnector OffloadTransfer.
Local Open Scope Z_scope.

(** [TransferSpec] and [TransferType]. *)
Inductive TransferSpec := LoadSpec (t : LoadTransfer) | StoreSpec (t : StoreTransfer).
Definition TransferType : Type := string * string.
Definition transfer_type (spec : TransferSpec) : TransferType :=
  match spec with LoadSpec _ => (cpu_medium, gpu_medium) | StoreSpec _ => (gpu_medium, cpu_medium) end.
Definition transfer_blocks (spec : TransferSpec) : list Z * list Z :=
  match spec with
  | LoadSpec (src, dst) => (cpu_block_ids src, gpu_block_ids dst)
  | StoreSpec (src, dst) => (gpu_block_ids src, cpu_block_ids dst)
  end.

(** ** The registry *)

Record OffloadingWorker := mkWorker {
  ow_objs : list SingleDirectionOffloadingHandler;
  ow_handlers : gset nat;
  ow_types : list (TransferType * nat)
}.

Module Worker.
Section Worker.
Context (handler_order : gset nat -> list nat).
Abbreviation WM := (M OffloadingWorker).

Definition new_worker (objs : list SingleDirectionOffloadingHandler) : OffloadingWorker := mkWorker objs ∅ [].
Definition set_objs (objs : list SingleDirectionOffloadingHandler) (w : OffloadingWorker) :=
  mkWorker objs (ow_handlers w) (ow_types w).

Definition register_handler (src_medium dst_medium : string) (handler : nat) : WM unit :=
  w ← gets id ;
  py_assert (negb (od_mem (src_medium, dst_medium) (ow_types w))) ;;
  modify (fun w => mkWorker (ow_objs w) ({[handler]} ∪ ow_handlers w) (od_set (src_medium, dst_medium) handler (ow_types w))).

(** A call of a method of one handler. *)
Definition on_handler {A} (i : nat) (f : M SingleDirectionOffloadingHandler A) : WM A := fun w =>
  match ow_objs w !! i with
  | Some h => let '(r, h') := f h in (r, set_objs (<[i := h']> (ow_objs w)) w)
  | None => (Err AttributeError, w)
  end.

(** [transfer_async]: a handler that raises is reported as a failure. *)
Definition transfer_async (job_id : Z) (spec : TransferSpec) : WM bool :=
  w ← gets id ;
  i ← lift_opt AssertionError (od_lookup (transfer_type spec) (ow_types w)) ;
  (fun w => match on_handler i (Handler.transfer_async job_id (transfer_blocks spec).1 (transfer_blocks spec).2) w with
            | (Ok success, w') => (Ok success, w')
            | (Err _, w') => (Ok false, w')
            end) : WM bool.

(** [get_finished]; [query i e] tells whether the event [e] of handler [i] has
    completed. *)
Definition get_finished (query : nat -> Z -> bool) : WM (list TransferResult) :=
  w ← gets id ;
  foldM (fun finished i => l ← on_handler i (Handler.get_finished (query i)) ; mret (finished ++ l)) [] (handler_order (ow_handlers w)).

(** [wait]: the events of each handler that are synchronised. *)
Definition wait (job_ids : list Z) (w : OffloadingWorker) : list (nat * list Z) :=
  omap (fun i => (fun h => (i, Handler.wait job_ids h)) <$> ow_objs w !! i) (handler_order (ow_handlers w)).
End Worker.
End Worker.

(** ** The connector's jobs *)

Record OffloadingConnectorWorker := mkConnectorWorker {
  cw_worker : OffloadingWorker;
  cw_job_counter : Z;
  cw_jobs : gmap Z (string * bool);
  cw_load_job : gmap string Z;
  cw_store_jobs : gmap string (gset Z);
  cw_unsubmitted_store_jobs : list (Z * TransferSpec);
  cw_finished_reqs_waiting_for_store : gset string
}.

Module ConnectorWorker.
Section ConnectorWorker.
Context (handler_order : gset nat -> list nat) (id_order : gset string -> list string) (job_order : gset Z -> list Z).
Abbreviation CW := (M OffloadingConnectorWorker).
Implicit Types c : OffloadingConnectorWorker.

Definition new_connector_worker (w : OffloadingWorker) : OffloadingConnectorWorker := mkConnectorWorker w 0 ∅ ∅ ∅ [] ∅.

Definition set_worker x c := mkConnectorWorker x (cw_job_counter c) (cw_jobs c) (cw_load_job c) (cw_store_jobs c)
  (cw_unsubmitted_store_jobs c) (cw_finished_reqs_waiting_for_store c).
Definition set_job_counter x c := mkConnectorWorker (cw_worker c) x (cw_jobs c) (cw_load_job c) (cw_store_jobs c)
  (cw_unsubmitted_store_jobs c) (cw_finished_reqs_waiting_for_store c).
Definition set_jobs x c := mkConnectorWorker (cw_worker c) (cw_job_counter c) x (cw_load_job c) (cw_store_jobs c)
  (cw_unsubmitted_store_jobs c) (cw_finished_reqs_waiting_for_store c).
Definition set_load_job x c := mkConnectorWorker (cw_worker c) (cw_job_counter c) (cw_jobs c) x (cw_store_jobs c)
  (cw_unsubmitted_store_jobs c) (cw_finished_reqs_waiting_for_store c).
Definition set_store_jobs x c := mkConnectorWorker (cw_worker c) (cw_job_counter c) (cw_jobs c) (cw_load_job c) x
  (cw_unsubmitted_store_jobs c) (cw_finished_reqs_waiting_for_store c).
Definition set_unsubmitted x c := mkConnectorWorker (cw_worker c) (cw_job_counter c) (cw_jobs c) (cw_load_job c) (cw_store_jobs c)
  x (cw_finished_reqs_waiting_for_store c).
Definition set_waiting x c := mkConnectorWorker (cw_worker c) (cw_job_counter c) (cw_jobs c) (cw_load_job c) (cw_store_jobs c)
  (cw_unsubmitted_store_jobs c) x.

Definition on_worker {A} (f : M OffloadingWorker A) : CW A := zoom cw_worker set_worker f.

Definition generate_job_id : CW Z :=
  job_id ← gets cw_job_counter ;
  modify (set_job_counter (job_id + 1)) ;;
  mret job_id.

(** The loop that [handle_preemptions] and [start_kv_transfers] begin with. *)
Definition submit_stores : CW unit :=
  jobs ← gets cw_unsubmitted_store_jobs ;
  forM_ jobs (fun job => success ← on_worker (Worker.transfer_async job.1 job.2) ; py_assert success) ;;
  modify (set_unsubmitted []).

(** [handle_preemptions]: the jobs of each request it waits for, and the events. *)
Definition handle_preemptions (meta : OffloadingConnectorMetadata) : CW (list (string * list (nat * list Z))) :=
  submit_stores ;;
  foldM (fun waited req_id =>
    c ← gets id ;
    match cw_store_jobs c !! req_id with
    | Some job_ids =>
        if bool_decide (job_ids = ∅) then mret waited
        else mret (waited ++ [(req_id, Worker.wait handler_order (job_order job_ids) (cw_worker c))])
    | None => mret waited
    end) [] (id_order (default ∅ (reqs_to_flush meta))).

Definition start_kv_transfers (meta : OffloadingConnectorMetadata) : CW unit :=
  submit_stores ;;
  forM_ (reqs_to_load meta) (fun load =>
    let req_id := load.1 in
    job_id ← generate_job_id ;
    modify (fun c => set_jobs (<[job_id := (req_id, false)]> (cw_jobs c)) c) ;;
    c ← gets id ;
    py_assert (bool_decide (cw_load_job c !! req_id = None)) ;;
    modify (fun c => set_load_job (<[req_id := job_id]> (cw_load_job c)) c) ;;
    success ← on_worker (Worker.transfer_async job_id (LoadSpec load.2)) ;
    py_assert success).

Definition prepare_store_kv (meta : OffloadingConnectorMetadata) : CW unit :=
  forM_ (reqs_to_store meta) (fun store =>
    let req_id := store.1 in
    job_id ← generate_job_id ;
    modify (fun c => set_jobs (<[job_id := (req_id, true)]> (cw_jobs c)) c) ;;
    modify (fun c => set_store_jobs (<[req_id := default ∅ (cw_store_jobs c !! req_id) ∪ {[job_id]}]> (cw_store_jobs c)) c) ;;
    modify (fun c => set_unsubmitted (cw_unsubmitted_store_jobs c ++ [(job_id, StoreSpec store.2)]) c)).

(** The body of the loop over the transfer results in [get_finished]. *)
Definition finish_result (sets : gset string * gset string) (result : TransferResult) : CW (gset string * gset string) :=
  let job_id := res_job_id result in
  py_assert (res_success result) ;;
  c ← gets id ;
  job ← lift_opt KeyError (cw_jobs c !! job_id) ;
  modify (fun c => set_jobs (delete job_id (cw_jobs c)) c) ;;
  let '(req_id, store) := job in
  if store : bool then
    let req_jobs := default ∅ (cw_store_jobs c !! req_id) in
    modify (fun c => set_store_jobs (<[req_id := req_jobs]> (cw_store_jobs c)) c) ;;
    lift_opt KeyError (if bool_decide (job_id ∈ req_jobs) then Some tt else None) ;;
    let req_jobs := req_jobs ∖ {[job_id]} in
    modify (fun c => set_store_jobs (<[req_id := req_jobs]> (cw_store_jobs c)) c) ;;
    if negb (bool_decide (req_jobs = ∅)) then mret sets
    else if bool_decide (req_id ∈ cw_finished_reqs_waiting_for_store c) then
      modify (fun c => set_waiting (cw_finished_reqs_waiting_for_store c ∖ {[req_id]}) c) ;;
      modify (fun c => set_store_jobs (delete req_id (cw_store_jobs c)) c) ;;
      mret ({[req_id]} ∪ sets.1, sets.2)
    else mret sets
  else
    req_job ← lift_opt KeyError (cw_load_job c !! req_id) ;
    py_assert (job_id =? req_job) ;;
    modify (fun c => set_load_job (delete req_id (cw_load_job c)) c) ;;
    mret (sets.1, {[req_id]} ∪ sets.2).

(** The body of its loop over the finished requests. *)
Definition finish_request (sent : gset string) (req_id : string) : CW (gset string) :=
  c ← gets id ;
  match cw_store_jobs c !! req_id with
  | Some pending =>
      if bool_decide (pending = ∅) then
        modify (fun c => set_store_jobs (delete req_id (cw_store_jobs c)) c) ;;
        mret ({[req_id]} ∪ sent)
      else
        modify (fun c => set_waiting ({[req_id]} ∪ cw_finished_reqs_waiting_for_store c) c) ;;
        mret sent
  | None => mret sent
  end.

Definition get_finished (query : nat -> Z -> bool) (finished_req_ids : gset string) : CW (gset string * gset string) :=
  results ← on_worker (Worker.get_finished handler_order query) ;
  sets ← foldM finish_result (∅, ∅) results ;
  sent ← foldM finish_request sets.1 (id_order finished_req_ids) ;
  mret (sent, sets.2).
End ConnectorWorker.
End ConnectorWorker.
