(* ===== verification/OffloadLaws.v ===== *)
(** The contract of [OffloadingManager] that the connector relies on, and its
    proof for the CPU manager over any lawful policy and for the reuse filter over
    any lawful manager. *)
From S2P Require Import Prelude PyDict.
From S2P Require Import OffloadPolicy OffloadPolicyLemmas OffloadManager OffloadLemmas OffloadRun.
From S2P Require Import OffloadSpec.
Local Open Scope Z_scope.

(** [inv t L]: the manager is well formed with the loads [L] in flight;
    [readable t h]: the block of [h] can be read; [slot t h]: where it is. *)
Class OffloadingManagerLaws (T : Type) `{OffloadingManager T}
    (inv : T -> list bytes -> Prop) (readable : T -> bytes -> bool) (slot : T -> bytes -> option Z) := {
  ml_perm t L L' : L ≡ₚ L' -> inv t L -> inv t L';
  ml_readable t h : readable t h = true -> is_Some (slot t h);
  ml_slots t L h h' i : inv t L -> slot t h = Some i -> slot t h' = Some i -> h = h';
  ml_slot_nonneg t L h i : inv t L -> slot t h = Some i -> 0 <= i;
  ml_loads t L h : inv t L -> h ∈ L -> readable t h = true;
  ml_touch t L hs : inv t L -> wp (om_touch hs) (fun _ t' => inv t' L
      /\ (forall h, readable t' h = readable t h) /\ (forall h, slot t' h = slot t h)) t;
  ml_lookup t L hs : inv t L -> wp (om_lookup hs) (fun r t' => inv t' L
      /\ (forall h, readable t' h = readable t h) /\ (forall h, slot t' h = slot t h)
      /\ forall k, r = Some k -> exists n : nat, k = Z.of_nat n /\ (n <= length hs)%nat
          /\ Forall (fun h => readable t h = true) (take n hs)) t;
  ml_prepare_load t L hs : inv t L -> Forall (fun h => readable t h = true) hs -> zlen L + zlen hs < 2 ^ 31 ->
    wp (om_prepare_load hs) (fun spec t' => inv t' (hs ++ L)
      /\ (forall h, readable t' h = readable t h) /\ (forall h, slot t' h = slot t h)
      /\ Forall2 (fun h i => slot t h = Some i) hs (cpu_block_ids spec)) t;
  ml_complete_load t L hs : inv t (hs ++ L) -> wp (om_complete_load hs) (fun _ t' => inv t' L
      /\ (forall h, readable t' h = readable t h) /\ (forall h, slot t' h = slot t h)) t;
  ml_prepare_store t L hs : inv t L -> NoDup hs -> wp (om_prepare_store hs) (fun r t' => inv t' L /\
      match r with
      | None => forall h, readable t' h = readable t h /\ slot t' h = slot t h
      | Some out => block_hashes_to_store out `sublist_of` hs
          /\ (forall h, h ∈ block_hashes_to_store out -> slot t h = None)
          /\ Forall2 (fun h i => slot t' h = Some i /\ readable t' h = false) (block_hashes_to_store out) (cpu_block_ids (store_spec out))
          /\ (forall h, h ∉ block_hashes_to_store out -> h ∉ block_hashes_evicted out -> readable t' h = readable t h /\ slot t' h = slot t h)
          /\ (forall h, h ∈ block_hashes_evicted out -> (h ∉ L) /\ readable t h = true /\ slot t' h = None)
      end) t;
  ml_complete_store t L hs ok : inv t L -> wp (om_complete_store hs ok) (fun _ t' => inv t' L
      /\ (forall h, readable t h = true -> readable t' h = true /\ slot t' h = slot t h)
      /\ (ok = true -> forall h, slot t' h = slot t h /\ (readable t' h = true <-> readable t h = true \/ h ∈ hs /\ is_Some (slot t h)))) t;
  ml_take_events t L : inv t L -> wp om_take_events (fun _ t' => inv t' L
      /\ (forall h, readable t' h = readable t h) /\ (forall h, slot t' h = slot t h)) t
}.

(** ** The CPU manager *)

Definition mgr_slot `{CachePolicy P} (m : CPUOffloadingManager P) (h : bytes) : option Z := bs_block_id <$> blk m h.

Section Cpu.
Context {P : Type} `{CachePolicyLaws P items wf}.
Implicit Types m : CPUOffloadingManager P.
Local Abbreviation mgr_inv := (mgr_inv (items:=items) (wf:=wf)).

Lemma mgr_slots m L h h' i : mgr_inv m L -> mgr_slot m h = Some i -> mgr_slot m h' = Some i -> h = h'.
Proof.
  intros Hm (b & Hb & ->)%fmap_Some (b' & Hb' & Hi)%fmap_Some. destruct (decide (h = h')) as [|Hne]; [done|].
  destruct (blk_ids_distinct m L [] Hm h h' b b' Hb Hb' Hne). congruence.
Qed.

Lemma mgr_slot_nonneg m L h i : mgr_inv m L -> mgr_slot m h = Some i -> 0 <= i.
Proof.
  intros Hm (b & Hb & ->)%fmap_Some. apply (blk_spec m L [] Hm) in Hb as (o & Hi & <-).
  assert (Hin : id_of m o ∈ zrange 0 (m_num_allocated_blocks m)); [|apply elem_of_zrange in Hin; unfold id_of in Hin; lia].
  rewrite <-(mi_ids _ _ _ Hm). apply elem_of_app. left. rewrite app_nil_r. apply list_elem_of_fmap_2.
  by apply (list_elem_of_fmap_2 snd) in Hi.
Qed.

Lemma mgr_prepare_store m L hs : mgr_inv m L -> NoDup hs -> wp (CPUOffload.prepare_store hs) (fun r m' => mgr_inv m' L /\
      match r with
      | None => forall h, ready m' h = ready m h /\ mgr_slot m' h = mgr_slot m h
      | Some out => block_hashes_to_store out `sublist_of` hs
          /\ (forall h, h ∈ block_hashes_to_store out -> mgr_slot m h = None)
          /\ Forall2 (fun h i => mgr_slot m' h = Some i /\ ready m' h = false) (block_hashes_to_store out) (cpu_block_ids (store_spec out))
          /\ (forall h, h ∉ block_hashes_to_store out -> h ∉ block_hashes_evicted out -> ready m' h = ready m h /\ mgr_slot m' h = mgr_slot m h)
          /\ (forall h, h ∈ block_hashes_evicted out -> (h ∉ L) /\ ready m h = true /\ mgr_slot m' h = None)
      end) m.
Proof.
  intros Hm Hnd. eapply wp_mono; [by apply (prepare_store_wp m L)|]. intros [out|] m'; [|by intros [-> _]].
  intros Hp. split; [apply Hp|]. rewrite (sp_to_store _ _ _ _ _ Hp). split_and!.
  - apply sublist_filter.
  - intros h [Hn _]%list_elem_of_filter. unfold mgr_slot. by rewrite Hn.
  - eapply Forall2_impl; [apply (sp_stored _ _ _ _ _ Hp)|]. intros h i Hb. unfold mgr_slot, ready. by rewrite Hb.
  - intros h Hts Hev. unfold mgr_slot, ready. by rewrite (sp_others _ _ _ _ _ Hp h Hts), decide_False.
  - intros h Hev. destruct (sp_evicted _ _ _ _ _ Hp h Hev) as (_ & b & Hb & Hc). split_and!.
    + intros Hl. destruct (blk_loads m L [] Hm h Hl) as (b' & Hb' & _ & _ & ?). rewrite Hb in Hb'. injection Hb' as ->. lia.
    + unfold ready. rewrite Hb. unfold is_ready. rewrite Hc. done.
    + unfold mgr_slot. rewrite (sp_others _ _ _ _ _ Hp), decide_True; [done|done|].
      intros [Hn _]%list_elem_of_filter. by rewrite Hb in Hn.
Qed.

Lemma mgr_complete_store m L hs ok : mgr_inv m L -> wp (CPUOffload.complete_store hs ok) (fun _ m' => mgr_inv m' L
      /\ (forall h, ready m h = true -> ready m' h = true /\ mgr_slot m' h = mgr_slot m h)
      /\ (ok = true -> forall h, mgr_slot m' h = mgr_slot m h
          /\ (ready m' h = true <-> ready m h = true \/ h ∈ hs /\ is_Some (mgr_slot m h)))) m.
Proof.
  intros Hm. eapply wp_mono; [by apply (complete_store_wp m L)|]. intros [] m' (stored & Hm' & Hblk & _). split; [done|].
  unfold mgr_slot, ready. split.
  - intros h Hr. rewrite Hblk. destruct ok; [|rewrite decide_False; [done|]; unfold ready; by rewrite Hr; intros [_ ?]].
    unfold stored_blk. destruct (blk m h) as [b|]; [|done]. by rewrite Hr, andb_false_r.
  - intros -> h. rewrite Hblk. unfold stored_blk. destruct (blk m h) as [b|]; [|split; [done|]; split; [done|by intros [?|[_ [? ?]]]]].
    destruct (is_ready b) eqn:Hb; [rewrite andb_false_r; simpl; split; [done|]; split; [by left|done]|].
    rewrite andb_true_r. case_bool_decide; simpl; split; try done; split; try done; [by right; split; [|eexists]|by rewrite Hb|].
    by intros [?|[? _]].
Qed.

Lemma mgr_take_events m L : mgr_inv m L -> wp CPUOffload.take_events (fun _ m' => mgr_inv m' L
      /\ (forall h, ready m' h = ready m h) /\ (forall h, mgr_slot m' h = mgr_slot m h)) m.
Proof.
  intros Hm. apply wp_bind, wp_gets. destruct (m_events m); [|by apply wp_ret].
  apply wp_bind, wp_modify, wp_ret. split; [by apply (inv_events m L [])|done].
Qed.

#[export] Instance cpu_manager_laws :
  OffloadingManagerLaws (CPUOffloadingManager P) mgr_inv ready mgr_slot.
Proof.
  split.
  - intros m L L'. apply inv_loads_perm.
  - intros m h. unfold ready, mgr_slot. destruct (blk m h); [by eexists|done].
  - apply mgr_slots.
  - apply mgr_slot_nonneg.
  - intros m L h Hm Hh. destruct (blk_loads m L [] Hm h Hh) as (b & Hb & Hr & _). unfold ready. by rewrite Hb.
  - intros m L hs Hm. eapply wp_mono; [by apply (offload_touch_wp m L)|]. intros [] m' (Hm' & _ & Hblk).
    unfold ready, mgr_slot. split_and!; [done|..]; intros h; by rewrite Hblk.
  - intros m L hs Hm. simpl. apply wp_gets. split_and!; try done. intros k [= <-].
    destruct (lookup_loop_spec m hs 0) as (n & -> & Hall & Hn). exists n. split; [lia|]. split; [|done].
    destruct (hs !! n) eqn:E; [apply lookup_lt_Some in E; lia|lia].
  - intros m L hs Hm Hr Hw. eapply wp_mono; [by apply (prepare_load_wp m L)|]. intros spec m' (Hm' & _ & Hid & Hrdy & Hall).
    split_and!; try done. eapply Forall2_impl; [exact Hall|]. intros h i (b & Hb & <-). unfold mgr_slot. by rewrite Hb.
  - intros m L hs Hm. eapply wp_mono; [by apply (complete_load_wp m L)|]. by intros [] m' (Hm' & _ & Hid & Hrdy).
  - apply mgr_prepare_store.
  - apply mgr_complete_store.
  - apply mgr_take_events.
Qed.
End Cpu.

(** ** The reuse filter *)

Section FilterLaws.
Context {T : Type} `{OffloadingManagerLaws T inv readable slot}.

Lemma filter_on_backing {A} (f : M T A) (Q : A -> T -> Prop) seen (s : FilterReusedOffloadingManager T) : filter_inv seen s ->
  wp f Q (f_backing s) -> wp (ReuseFilter.on_backing f) (fun a s' => filter_inv seen s' /\ Q a (f_backing s')) s.
Proof.
  intros [H1 H2' H3 H4 H5 H6] Hf. apply wp_zoom. eapply wp_mono; [exact Hf|]. intros a t Hq. by split.
Qed.

#[export] Instance filter_manager_laws :
  OffloadingManagerLaws (FilterReusedOffloadingManager T)
    (fun s L => (exists seen, filter_inv seen s) /\ inv (f_backing s) L) (fun s => readable (f_backing s)) (fun s => slot (f_backing s)).
Proof.
  split.
  - intros s L L' Hp [? ?]. split; [done|]. by eapply ml_perm.
  - intros s h. apply ml_readable.
  - intros s L h h' i [_ ?]. by eapply ml_slots.
  - intros s L h i [_ ?]. by eapply ml_slot_nonneg.
  - intros s L h [_ ?]. by eapply ml_loads.
  - intros s L hs [[seen Hs] Hb]. simpl. eapply wp_mono; [eapply (filter_on_backing _ _ seen); [done|by apply (ml_touch _ L)]|].
    intros a s' [? (? & ? & ?)]. naive_solver.
  - intros s L hs [[seen Hs] Hb]. simpl. unfold ReuseFilter.lookup. apply wp_bind.
    eapply wp_mono; [by apply (record_all_wp hs s seen)|]. intros [] s1 Hs1. cbn beta in Hs1.
    destruct Hs1 as (Hs1 & Heq). assert (Hbk : f_backing s1 = f_backing s) by (by rewrite Heq).
    eapply wp_mono; [eapply (filter_on_backing _ _ _); [exact Hs1|rewrite Hbk; by apply (ml_lookup _ L)]|].
    intros r s' [? (? & ? & ? & ?)]. naive_solver.
  - intros s L hs [[seen Hs] Hb] Hr Hw. simpl. eapply wp_mono; [eapply (filter_on_backing _ _ seen); [done|by apply (ml_prepare_load _ L)]|].
    intros a s' [? (? & ? & ? & ?)]. naive_solver.
  - intros s L hs [[seen Hs] Hb]. simpl. eapply wp_mono; [eapply (filter_on_backing _ _ seen); [done|by apply (ml_complete_load _ L)]|].
    intros a s' [? (? & ? & ?)]. naive_solver.
  - intros s L hs [[seen Hs] Hb] Hnd. simpl. unfold ReuseFilter.prepare_store. apply wp_bind, wp_gets. cbn [id].
    eapply wp_mono; [eapply (filter_on_backing _ _ seen); [done|apply (ml_prepare_store _ L); [done|by apply NoDup_filter]]|].
    intros [out|] s' [? (? & Hout)]; [|naive_solver]. destruct Hout as (Hsub & ?). split; [naive_solver|]. split; [|done].
    etrans; [exact Hsub|apply sublist_filter].
  - intros s L hs ok [[seen Hs] Hb]. simpl. eapply wp_mono; [eapply (filter_on_backing _ _ seen); [done|by apply (ml_complete_store _ L)]|].
    intros a s' [? (? & ? & ?)]. naive_solver.
  - intros s L [[seen Hs] Hb]. simpl. eapply wp_mono; [eapply (filter_on_backing _ _ seen); [done|by apply (ml_take_events _ L)]|].
    intros a s' [? (? & ? & ?)]. naive_solver.
Qed.
End FilterLaws.
