(* ===== verification/OffloadTransferSpec.v ===== *)
(** Sub-blocks and copies: [expand_block_ids] and [src_to_dst] against a reference
    expansion, and what memory holds after [swap_blocks]. *)
From S2P Require Import Prelude PyDict.
From S2P Require Import OffloadTransfer.
Local Open Scope Z_scope.

(** The sub-blocks of each block, in order. *)
Definition sub_blocks (factor : Z) (block_ids : list Z) : list Z :=
  flat_map (fun b => map (Z.add (b * factor)) (zrange 0 factor)) block_ids.

Section SubBlocks.
Context (f : Z) (Hf : 0 < f).

Lemma zlen_zrange lo hi : zlen (zrange lo hi) = Z.max 0 (hi - lo).
Proof. unfold zlen, zrange. rewrite length_seqZ. lia. Qed.

Lemma zlen_map {A B} (g : A -> B) l : zlen (map g l) = zlen l.
Proof. unfold zlen. by rewrite length_map. Qed.

Lemma zlen_sub_blocks ids : zlen (sub_blocks f ids) = zlen ids * f.
Proof.
  unfold sub_blocks. induction ids as [|b ids IH]; [done|]. simpl. rewrite zlen_app, zlen_cons, IH, zlen_map, zlen_zrange. lia.
Qed.

Lemma lookup_sub_blocks ids (p : nat) : sub_blocks f ids !! p =
  (fun b => b * f + Z.of_nat p mod f) <$> ids !! Z.to_nat (Z.of_nat p / f).
Proof.
  revert p. induction ids as [|b ids IH]; intros p; [done|]. simpl.
  assert (Hlen : length (map (Z.add (b * f)) (zrange 0 f)) = Z.to_nat f).
  { rewrite length_map. pose proof (zlen_zrange 0 f). unfold zlen in *. lia. }
  destruct (decide (p < Z.to_nat f)%nat) as [Hp|Hp].
  - rewrite lookup_app_l by lia. rewrite Z.div_small, Z.mod_small by lia. simpl.
    change (map (Z.add (b * f)) (zrange 0 f)) with (Z.add (b * f) <$> zrange 0 f). rewrite list_lookup_fmap, lookup_zrange.
    destruct (decide _); [simpl; f_equal; lia|lia].
  - rewrite lookup_app_r by lia. rewrite Hlen. unfold sub_blocks in IH. rewrite IH. clear IH.
    replace (Z.of_nat (p - Z.to_nat f)) with (Z.of_nat p + (-1) * f) by lia. rewrite Z.div_add, Z.mod_add by lia.
    assert (1 <= Z.of_nat p / f) by (apply Z.div_le_lower_bound; lia).
    replace (Z.to_nat (Z.of_nat p / f)) with (S (Z.to_nat (Z.of_nat p / f + -1))) by lia. done.
Qed.

Lemma sub_blocks_NoDup ids : NoDup ids -> NoDup (sub_blocks f ids).
Proof.
  intros Hnd. apply NoDup_alt. intros p q x. rewrite !lookup_sub_blocks.
  intros (b & Hb & ->)%fmap_Some (b' & Hb' & Heq)%fmap_Some.
  pose proof (Z.mod_pos_bound (Z.of_nat p) f Hf). pose proof (Z.mod_pos_bound (Z.of_nat q) f Hf).
  assert (b = b') as <- by nia. pose proof (NoDup_lookup _ _ _ _ Hnd Hb Hb') as Hpq.
  pose proof (Z.div_mod (Z.of_nat p) f ltac:(lia)). pose proof (Z.div_mod (Z.of_nat q) f ltac:(lia)).
  assert (Hp : 0 <= Z.of_nat p / f) by (apply Z.div_pos; lia). assert (Hq : 0 <= Z.of_nat q / f) by (apply Z.div_pos; lia).
  assert (Z.of_nat p / f = Z.of_nat q / f) by lia. nia.
Qed.

(** ** [expand_block_ids] *)

Lemma np_write_exact done rest values : zlen values <= zlen rest ->
  np_write (done ++ rest) (zlen done) (zlen done + zlen values) values = Ok (done ++ values ++ drop (length values) rest).
Proof.
  intros Hle. unfold np_write. pose proof (zlen_nonneg rest). pose proof (zlen_nonneg values). rewrite zlen_app.
  rewrite (Z.min_l (zlen done)), (Z.min_l (zlen done + zlen values)), Z.max_r by lia. rewrite (proj2 (Z.eqb_eq _ _)) by lia.
  rewrite <-zlen_app. unfold zlen. rewrite !Nat2Z.id, length_app. rewrite take_app_length. by rewrite <-drop_drop, drop_app_length.
Qed.

Lemma expand_loop_ok ids first done rest : 0 <= first < f -> zlen rest = Z.max 0 (zlen ids * f - first) ->
  expand_loop ids f first (done ++ rest) (zlen done) = Ok (done ++ drop (Z.to_nat first) (sub_blocks f ids)).
Proof.
  revert first done rest. induction ids as [|b ids IH]; intros first done rest Hfirst Hlen.
  - simpl. change (zlen (@nil Z)) with 0 in Hlen. destruct rest; [|rewrite zlen_cons in Hlen; pose proof (zlen_nonneg rest); lia].
    by rewrite drop_nil.
  - rewrite zlen_cons in Hlen. pose proof (zlen_nonneg ids). cbn [expand_loop].
    set (values := map (Z.add (b * f)) (zrange first f)).
    assert (Hv : zlen values = f - first) by (unfold values; rewrite zlen_map, zlen_zrange; lia).
    replace (zlen (zrange first f)) with (zlen values) by (unfold values; by rewrite zlen_map).
    rewrite np_write_exact by nia. cbn [mbind res_bind]. unfold mbind, res_bind. rewrite <-zlen_app, app_assoc.
    rewrite (IH 0 (done ++ values) (drop (length values) rest)); [|lia|].
    + rewrite drop_0, <-app_assoc. do 2 f_equal. simpl. unfold sub_blocks at 2. simpl. fold (sub_blocks f ids).
      rewrite drop_app_le by (rewrite length_map; pose proof (zlen_zrange 0 f); unfold zlen in *; lia). f_equal.
      unfold values. rewrite skipn_map. f_equal. apply list_eq. intros j. rewrite lookup_drop, !lookup_zrange.
      repeat case_decide; try done; try lia. f_equal. lia.
    + unfold zlen. rewrite length_drop. unfold zlen in *. nia.
Qed.

Lemma expand_block_ids_ok ids out skip : 0 <= skip < f -> zlen out = Z.max 0 (zlen ids * f - skip) ->
  expand_block_ids ids f out skip = Ok (drop (Z.to_nat skip) (sub_blocks f ids)).
Proof.
  intros Hs Hlen. unfold expand_block_ids. rewrite (proj2 (Z.ltb_lt _ _)) by lia. simpl.
  exact (expand_loop_ok ids skip [] out Hs Hlen).
Qed.
End SubBlocks.

Lemma sub_blocks_1 l : sub_blocks 1 l = l.
Proof.
  apply list_eq. intros p. rewrite lookup_sub_blocks by lia. rewrite Z.div_1_r, Z.mod_1_r, Nat2Z.id.
  destruct (l !! p) as [b|]; [simpl; f_equal; lia|done].
Qed.

(** ** [src_to_dst] *)

Lemma src_to_dst_ok fs fd src dst : 0 < fs -> 0 < fd ->
  zlen dst * fd = zlen src * fs - (- zlen dst) mod fs ->
  src_to_dst fs fd src dst = Ok (zip (drop (Z.to_nat ((- zlen dst) mod fs)) (sub_blocks fs src)) (sub_blocks fd dst)).
Proof.
  intros Hfs Hfd Hlen. unfold src_to_dst, py_mod. rewrite (proj2 (Z.eqb_neq fs 0)) by lia. cbn.
  rewrite (proj2 (Z.eqb_eq _ _)) by lia. cbn. pose proof (zlen_nonneg dst). pose proof (Z.mod_pos_bound (- zlen dst) fs Hfs).
  unfold np_empty. rewrite (proj2 (Z.ltb_ge _ 0)) by nia. cbn.
  rewrite (expand_block_ids_ok fs Hfs) by (rewrite ?zlen_zreplicate; nia). cbn.
  rewrite (expand_block_ids_ok fd Hfd) by (rewrite ?zlen_zreplicate; nia). done.
Qed.

(** ** [swap_blocks] *)

Section Swap.
Context (src : memory) (n : Z) (Hn : 0 < n).

(** Block [k] of a memory. *)
Definition block_at (m : memory) (k : Z) : Z -> Byte.byte := fun i => m (k * n + i).

Lemma memcpy_block dst k k' s i : 0 <= i < n -> block_at (memcpy dst (k * n) src (s * n) n) k' i =
  if decide (k = k') then block_at src s i else block_at dst k' i.
Proof.
  intros Hi. unfold block_at, memcpy. case_decide as E.
  - subst. rewrite andb_true_intro by (split; lia). f_equal. lia.
  - destruct ((k * n <=? k' * n + i) && (k' * n + i <? k * n + n)) eqn:Eb; [|done]. apply andb_prop in Eb as [? ?].
    destruct E. nia.
Qed.

Lemma swap_blocks_others pairs dst k i : 0 <= i < n -> (k ∉ map snd pairs) ->
  block_at (swap_blocks src dst n pairs) k i = block_at dst k i.
Proof.
  revert dst. induction pairs as [|[s d] pairs IH]; intros dst Hi Hk; [done|]. simpl in *. apply not_elem_of_cons in Hk as [Hne Hk].
  unfold swap_blocks in *. simpl. rewrite IH by done. by rewrite memcpy_block, decide_False by done.
Qed.

(** Destinations written once hold the source block. *)
Lemma swap_blocks_copied pairs dst (j : nat) s d i : NoDup (map snd pairs) -> pairs !! j = Some (s, d) -> 0 <= i < n ->
  block_at (swap_blocks src dst n pairs) d i = block_at src s i.
Proof.
  revert dst j. induction pairs as [|[s' d'] pairs IH]; intros dst j Hnd Hj Hi; [done|]. apply NoDup_cons in Hnd as [Hd' Hnd]. destruct j as [|j].
  - injection Hj as -> ->. change (block_at (swap_blocks src (memcpy dst (d * n) src (s * n) n) n pairs) d i = block_at src s i).
    rewrite swap_blocks_others by done. by rewrite memcpy_block, decide_True by done.
  - exact (IH _ j Hnd Hj Hi).
Qed.
End Swap.

(** * Transfers: a store followed by a load gives every GPU block its data back, and
    the queue of one direction is a FIFO whose streams and events are never shared. *)
Local Open Scope Z_scope.
Import Handler.

(** ** Round trip *)

(** C10: offloading is a round trip.  [ids] are the GPU blocks stored into the
    buffer slots [slots], [factor] of them per slot; later the last [zlen new_ids]
    of those blocks are loaded into other GPU blocks, from the slots that hold them.
    Both transfers are accepted, and byte [i] of every block loaded is the byte the
    corresponding block had when it was stored, whatever the GPU memory and the
    buffer held otherwise, and also when the load starts inside a slot. *)
Theorem kv_store_load_roundtrip (factor n : Z) (slots ids new_ids : list Z) (gpu cpu gpu2 : memory) :
  0 < factor -> 0 < n -> NoDup slots -> NoDup new_ids ->
  zlen ids = zlen slots * factor -> zlen new_ids <= zlen ids ->
  let first := (zlen ids - zlen new_ids) / factor in
  exists stored loaded,
    src_to_dst 1 factor ids slots = Ok stored
    /\ src_to_dst factor 1 (drop (Z.to_nat first) slots) new_ids = Ok loaded
    /\ forall (j : nat) (old new i : Z), new_ids !! j = Some new -> ids !! (length ids - length new_ids + j)%nat = Some old -> 0 <= i < n ->
       swap_blocks (swap_blocks gpu cpu n stored) gpu2 n loaded (new * n + i) = gpu (old * n + i).
Proof.
  intros Hf Hn Hslots Hnew Hids Hle first. pose proof (zlen_nonneg new_ids) as Hn0. pose proof (zlen_nonneg slots) as Hs0.
  set (skip := (- zlen new_ids) mod factor).
  assert (Hsplit : zlen ids - zlen new_ids = factor * first + skip).
  { unfold first, skip. rewrite Hids. replace (- zlen new_ids) with (zlen slots * factor - zlen new_ids + (- zlen slots) * factor) by lia.
    rewrite Z.mod_add by lia. apply Z.div_mod. lia. }
  assert (Hskip : 0 <= skip < factor) by (apply Z.mod_pos_bound; lia).
  assert (Hfirst : 0 <= first) by (apply Z.div_pos; lia).
  assert (Hdrop : zlen (drop (Z.to_nat first) slots) = zlen slots - first) by (unfold zlen in *; rewrite length_drop; nia).
  do 2 eexists. split; [apply src_to_dst_ok; [lia..|rewrite Z.mod_1_r; lia]|].
  split; [apply src_to_dst_ok; [lia..|]; fold skip; rewrite Hdrop; nia|].
  fold skip. rewrite Z.mod_1_r. change (Z.to_nat 0) with 0%nat. rewrite drop_0. intros j old new i Hj Hold Hi.
  rewrite !sub_blocks_1. set (p := (length ids - length new_ids + j)%nat) in *.
  assert (Hp : Z.of_nat p = factor * first + skip + Z.of_nat j) by (unfold p, zlen in *; lia).
  apply lookup_lt_Some in Hj as Hjlt. apply lookup_lt_Some in Hold as Hplt.
  assert (Hq : Z.of_nat p / factor < zlen slots) by (apply Z.div_lt_upper_bound; unfold zlen in *; nia).
  assert (Hq0 : 0 <= Z.of_nat p / factor) by (apply Z.div_pos; lia).
  destruct (lookup_lt_is_Some_2 slots (Z.to_nat (Z.of_nat p / factor))) as [slot Hslot]; [unfold zlen in *; lia|].
  set (sub := slot * factor + Z.of_nat p mod factor).
  assert (Hsub : sub_blocks factor slots !! p = Some sub) by (rewrite lookup_sub_blocks by lia; by rewrite Hslot).
  assert (Hload : zip (drop (Z.to_nat skip) (sub_blocks factor (drop (Z.to_nat first) slots))) new_ids !! j = Some (sub, new)).
  { apply lookup_zip_Some. split; [|done]. rewrite lookup_drop, lookup_sub_blocks, lookup_drop by lia.
    replace (Z.of_nat (Z.to_nat skip + j)) with (Z.of_nat p + (- first) * factor) by lia. rewrite Z.div_add, Z.mod_add by lia.
    assert (first <= Z.of_nat p / factor) by (apply Z.div_le_lower_bound; lia).
    replace (Z.to_nat first + Z.to_nat (Z.of_nat p / factor + - first))%nat with (Z.to_nat (Z.of_nat p / factor)) by lia. by rewrite Hslot. }
  assert (Hstore : zip ids (sub_blocks factor slots) !! p = Some (old, sub)) by (by apply lookup_zip_Some).
  assert (Hsnd : forall (a b : list Z), length a = length b -> map snd (zip a b) = b) by (intros a b Hab; by apply snd_zip, Nat.eq_le_incl).
  change (block_at n (swap_blocks (swap_blocks gpu cpu n (zip ids (sub_blocks factor slots))) gpu2 n
    (zip (drop (Z.to_nat skip) (sub_blocks factor (drop (Z.to_nat first) slots))) new_ids)) new i = block_at n gpu old i).
  rewrite (swap_blocks_copied _ n Hn _ _ j sub new i); [| |done|done].
  - apply (swap_blocks_copied _ n Hn _ _ p old sub i); [|done|done]. rewrite Hsnd by (pose proof (zlen_sub_blocks factor Hf slots); unfold zlen in *; lia).
    by apply sub_blocks_NoDup.
  - rewrite Hsnd; [done|]. rewrite length_drop. pose proof (zlen_sub_blocks factor Hf (drop (Z.to_nat first) slots)). unfold zlen in *. nia.
Qed.

(** ** The queue of transfers *)

Definition in_flight (h : SingleDirectionOffloadingHandler) : list Z :=
  flat_map (fun t => [tr_stream t; tr_start_event t; tr_end_event t]) (h_transfers h).

(** Each transfer waits for the one submitted before it. *)
Fixpoint chained (ts : list Transfer) : Prop :=
  match ts with
  | t :: ((t' :: _) as rest) => tr_after t' = Some (tr_end_event t) /\ chained rest
  | _ => True
  end.

(** The objects in [used], those in the pools and those not created yet are distinct. *)
Definition objects_ok (used : list Z) (h : SingleDirectionOffloadingHandler) : Prop :=
  NoDup (used ++ h_stream_pool h ++ h_event_pool h) /\ Forall (fun x => x < h_next h) (used ++ h_stream_pool h ++ h_event_pool h).

Record handler_inv (h : SingleDirectionOffloadingHandler) : Prop := {
  hi_events : h_transfer_events h = map (fun t => (tr_job_id t, tr_end_event t)) (h_transfers h);
  hi_jobs : NoDup (map tr_job_id (h_transfers h));
  hi_objects : objects_ok (in_flight h) h;
  hi_chained : chained (h_transfers h);
  hi_group : length (h_group_block_size_in_bytes h) = 1%nat
}.

Lemma new_handler_inv gs cs factor refs d h : new_handler gs cs factor refs d = Ok h -> handler_inv h /\ h_transfers h = [].
Proof.
  unfold new_handler. destruct (negb (zlen gs =? zlen cs)); [done|]. destruct (negb (0 <? zlen gs)); [done|].
  destruct (zlen refs =? 1) eqn:Hrefs; [|done]. simpl. destruct (forallb _ _); [|done]. simpl.
  destruct refs as [|r [|r' refs]]; [done| |rewrite !zlen_cons in Hrefs; pose proof (zlen_nonneg refs); lia]. simpl.
  destruct (foldr _ (Ok 0) r) as [s|e]; [|done]. simpl. intros [= <-]. split; [|done]. split; simpl; try done; [apply NoDup_nil_2|split; [apply NoDup_nil_2|constructor]].
Qed.

Lemma chained_snoc ts t : chained ts -> tr_after t = (tr_end_event <$> last ts) \/ ts = [] -> chained (ts ++ [t]).
Proof.
  intros Hc Ht. induction ts as [|t0 [|t1 ts] IH]; [done| |].
  - simpl in *. destruct Ht as [Ht|]; [|done]. by rewrite Ht.
  - destruct Hc as [H1 H2]. split; [done|]. apply IH; [done|]. left. by destruct Ht.
Qed.

Lemma chained_tail t ts : chained (t :: ts) -> chained ts.
Proof. destruct ts; [done|]. by intros [_ ?]. Qed.

Lemma objects_ok_perm used used' h : used ≡ₚ used' -> objects_ok used h -> objects_ok used' h.
Proof. intros Hp [H1 H2]. split; by rewrite <-Hp. Qed.

(** An object taken from a pool or created is in use nowhere else. *)
Lemma take_used used used' pools pools' next : NoDup (used ++ pools) -> Forall (fun x => x < next) (used ++ pools) ->
  used' ++ pools' ≡ₚ used ++ pools -> NoDup (used' ++ pools') /\ Forall (fun x => x < next) (used' ++ pools').
Proof. intros H1 H2 Hp. split; by rewrite Hp. Qed.

Lemma create_used used pools next : NoDup (used ++ pools) -> Forall (fun x => x < next) (used ++ pools) ->
  NoDup ((next :: used) ++ pools) /\ Forall (fun x => x < next + 1) ((next :: used) ++ pools).
Proof.
  intros H1 H2. split.
  - constructor; [|done]. intros Hin. rewrite Forall_forall in H2. specialize (H2 _ Hin). lia.
  - constructor; [lia|]. eapply Forall_impl; [exact H2|]. intros x ?. simpl in *. lia.
Qed.

Definition pools_change (h h' : SingleDirectionOffloadingHandler) : Prop :=
  h' = set_next (h_next h') (set_pools (h_stream_pool h') (h_event_pool h') h).

Lemma take_stream_wp used h : objects_ok used h -> wp take_stream (fun s h' => objects_ok (s :: used) h' /\ pools_change h h') h.
Proof.
  intros [H1 H2]. unfold take_stream. apply wp_bind, wp_gets. cbn [id]. destruct (last (h_stream_pool h)) as [s|] eqn:E.
  - apply last_Some in E as [pool Hpool]. rewrite Hpool in *. rewrite removelast_last. apply wp_bind, wp_modify, wp_ret.
    split; [|by destruct h]. apply (take_used _ _ _ _ _ H1 H2). simpl. rewrite !app_assoc. solve_Permutation.
  - split; [by apply create_used|by destruct h].
Qed.

Lemma take_event_wp used h : objects_ok used h -> wp take_event (fun e h' => objects_ok (e :: used) h' /\ pools_change h h') h.
Proof.
  intros [H1 H2]. unfold take_event. apply wp_bind, wp_gets. cbn [id]. destruct (last (h_event_pool h)) as [e|] eqn:E.
  - apply last_Some in E as [pool Hpool]. rewrite Hpool in *. rewrite removelast_last. apply wp_bind, wp_modify, wp_ret.
    split; [|by destruct h]. apply (take_used _ _ _ _ _ H1 H2). simpl. rewrite !app_assoc. solve_Permutation.
  - split; [by apply create_used|by destruct h].
Qed.

Definition same_factors (h h' : SingleDirectionOffloadingHandler) : Prop :=
  h_src_block_size_factor h' = h_src_block_size_factor h /\ h_dst_block_size_factor h' = h_dst_block_size_factor h.

Lemma transfer_async_wp job src dst pairs h : handler_inv h -> (job ∉ map tr_job_id (h_transfers h)) ->
  src_to_dst (h_src_block_size_factor h) (h_dst_block_size_factor h) src dst = Ok pairs ->
  wp (transfer_async job src dst) (fun ok h' => ok = true /\ handler_inv h'
    /\ exists t, h_transfers h' = h_transfers h ++ [t] /\ tr_job_id t = job /\ tr_pairs t = pairs
    /\ same_factors h h' /\ exists b, h_group_block_size_in_bytes h = [b] /\ tr_num_bytes t = zlen dst * h_dst_block_size_factor h * b) h.
Proof.
  intros [He Hj Ho Hc Hg] Hjob Hpairs. unfold transfer_async. apply wp_bind, wp_gets. cbn [id].
  apply wp_bind. eapply wp_lift_res; [exact Hpairs|].
  apply wp_bind. eapply wp_mono; [by apply take_stream_wp|]. intros s h1 [Ho1 ->]. 
  apply wp_bind. eapply wp_mono; [by apply take_event_wp|]. intros e1 h2 [Ho2 ->].
  apply wp_bind. eapply wp_mono; [by apply take_event_wp|]. intros e2 h3 [Ho3 ->]. 
  destruct (h_group_block_size_in_bytes h) as [|b [|]] eqn:Eg; [done| |done].
  apply wp_bind, wp_gets, wp_bind, wp_modify, wp_bind. simpl. rewrite Eg. eapply wp_lift_res; [reflexivity|].
  apply wp_bind, wp_modify, wp_ret. split; [done|]. split.
  - split; simpl; try done.
    + rewrite He, od_set_new, map_app; [done|]. rewrite map_map. done.
    + rewrite map_app. simpl. apply NoDup_app. split; [done|]. split; [|apply NoDup_singleton].
      intros x Hx ->%list_elem_of_singleton. done.
    + eapply objects_ok_perm; [|exact Ho3]. unfold in_flight. simpl. rewrite flat_map_app. simpl. solve_Permutation.
    + apply chained_snoc; [done|]. by left.
    + by rewrite Eg.
  - eexists. split; [reflexivity|]. split; [done|]. split; [done|]. split; [done|]. exists b. by split.
Qed.

Lemma od_del_head {V} (k : Z) (v : V) d : od_del k ((k, v) :: d) = Ok d.
Proof. unfold od_del, od_mem. simpl. rewrite !decide_True by done. done. Qed.

Definition result_of (t : Transfer) : TransferResult := mkTransferResult (tr_job_id t) true (tr_num_bytes t).

Lemma finished_wp query ts : forall results h, handler_inv h -> h_transfers h = ts ->
  wp (finished_loop query ts results) (fun r h' => handler_inv h' /\ same_factors h h' /\ exists done, ts = done ++ h_transfers h'
    /\ r = results ++ map result_of done /\ Forall (fun t => query (tr_end_event t) = true) done
    /\ match h_transfers h' with [] => True | t :: _ => query (tr_end_event t) = false end) h.
Proof.
  induction ts as [|t ts IH]; intros results h Hh Hts; simpl.
  - apply wp_ret. split; [done|]. split; [done|]. exists []. by rewrite app_nil_r, Hts.
  - destruct (query (tr_end_event t)) eqn:Hq.
    2: { apply wp_ret. split; [done|]. split; [done|]. exists []. rewrite app_nil_r, Hts. by split_and!. }
    destruct Hh as [He Hj Ho Hc Hg]. rewrite Hts in He, Hj, Hc. apply NoDup_cons in Hj as [Hjt Hj].
    apply wp_bind, wp_gets, wp_bind, wp_modify, wp_bind, wp_modify, wp_bind, wp_gets. cbn [id].
    apply wp_bind. simpl. rewrite He. eapply wp_lift_res; [apply od_del_head|].
    apply wp_bind, wp_modify. eapply wp_mono; [apply IH; [|done]|].
    + split; simpl; try done; [|by eapply chained_tail].
      unfold in_flight in *. rewrite Hts in Ho. destruct Ho as [Hnd Hlt]. simpl in *. unfold objects_ok; simpl.
      assert (Hp : tr_stream t :: tr_start_event t :: tr_end_event t :: flat_map (fun t => [tr_stream t; tr_start_event t; tr_end_event t]) ts ++ h_stream_pool h ++ h_event_pool h
        ≡ₚ flat_map (fun t => [tr_stream t; tr_start_event t; tr_end_event t]) ts ++ (h_stream_pool h ++ [tr_stream t]) ++ h_event_pool h ++ [tr_end_event t; tr_start_event t]).
      { solve_Permutation. }
      split; by rewrite <-Hp.
    + intros r h' (Hh' & Hf & done & -> & -> & Hall & Hend). split; [done|]. split; [exact Hf|]. exists (t :: done). split_and!; try done; [|by constructor].
      by rewrite <-app_assoc.
Qed.

(** ** Runs of one direction *)

(** The calls of the worker, with the jobs submitted and the jobs reported. *)
Inductive transfer_step : SingleDirectionOffloadingHandler * list Z * list Z -> SingleDirectionOffloadingHandler * list Z * list Z -> Prop :=
  | ts_submit h h' sub rep job src dst ok : (job ∉ sub) -> transfer_async job src dst h = (Ok ok, h') ->
      transfer_step (h, sub, rep) (h', sub ++ [job], rep)
  | ts_refused h h' sub rep job src dst e : (job ∉ sub) -> transfer_async job src dst h = (Err e, h') ->
      transfer_step (h, sub, rep) (h', sub, rep)
  | ts_finished h h' sub rep query rs : get_finished query h = (Ok rs, h') ->
      transfer_step (h, sub, rep) (h', sub, rep ++ map res_job_id rs).

Definition transfer_inv (s : SingleDirectionOffloadingHandler * list Z * list Z) : Prop :=
  handler_inv s.1.1 /\ s.1.2 = s.2 ++ map tr_job_id (h_transfers s.1.1).

Lemma transfer_async_inv h job src dst r h' : handler_inv h -> (job ∉ map tr_job_id (h_transfers h)) ->
  transfer_async job src dst h = (r, h') -> handler_inv h' /\
  map tr_job_id (h_transfers h') = map tr_job_id (h_transfers h) ++ match r with Ok _ => [job] | Err _ => [] end.
Proof.
  intros Hh Hjob Hrun. destruct (src_to_dst (h_src_block_size_factor h) (h_dst_block_size_factor h) src dst) as [pairs|e] eqn:E.
  - pose proof (transfer_async_wp job src dst pairs h Hh Hjob E) as Hw. apply wp_run in Hw as (ok & h1 & Hrun1 & _ & Hh1 & t & Ht & Hj & _).
    rewrite Hrun in Hrun1. injection Hrun1 as -> ->. split; [done|]. rewrite Ht, map_app. simpl. by rewrite Hj.
  - unfold transfer_async, mbind, M_bind, gets, lift_res in Hrun. cbn [id] in Hrun. rewrite E in Hrun. injection Hrun as <- <-.
    by rewrite app_nil_r.
Qed.

Lemma transfer_step_inv s s' : transfer_step s s' -> transfer_inv s -> transfer_inv s'.
Proof.
  intros Hstep [Hh Hsub]. inversion Hstep as [h h' sub rep job src dst ok Hjob Hrun|h h' sub rep job src dst e Hjob Hrun|h h' sub rep query rs Hrun]; subst; simpl in *.
  - assert (Hfresh : job ∉ map tr_job_id (h_transfers h)) by set_solver. destruct (transfer_async_inv h job src dst _ h' Hh Hfresh Hrun) as [Hh' Hmap]. split; [done|]. simpl.
    by rewrite Hmap, Hsub, app_assoc.
  - assert (Hfresh : job ∉ map tr_job_id (h_transfers h)) by set_solver. destruct (transfer_async_inv h job src dst _ h' Hh Hfresh Hrun) as [Hh' Hmap]. split; [done|]. simpl.
    by rewrite Hmap, Hsub, app_nil_r.
  - pose proof (finished_wp query (h_transfers h) [] h Hh eq_refl) as Hw. apply wp_run in Hw as (r & h1 & Hrun1 & Hh1 & _ & done & Hts & -> & _).
    unfold get_finished, mbind, M_bind, gets in Hrun. cbn [id] in Hrun. rewrite Hrun1 in Hrun. injection Hrun as <- <-.
    split; [done|]. simpl. rewrite Hsub, Hts, map_app, map_map, <-app_assoc. done.
Qed.

(** C20: transfers of one direction are a first-in first-out queue.  Along every run
    that begins with a new handler, the jobs submitted are the jobs reported
    followed by the jobs in flight, in order; each transfer in flight waits for the
    end event of the one before it; no two transfers in flight share a stream or an
    event, none of them is in a pool and no object is in the pools twice; and
    [get_finished] never raises: it reports the transfers at the head of the queue
    whose end event has completed, and stops at the first that has not. *)
Theorem transfers_fifo gs cs factor refs d h0 h sub rep :
  new_handler gs cs factor refs d = Ok h0 -> rtc transfer_step (h0, [], []) (h, sub, rep) ->
  sub = rep ++ map tr_job_id (h_transfers h) /\ chained (h_transfers h)
  /\ NoDup (in_flight h ++ h_stream_pool h ++ h_event_pool h)
  /\ forall query, exists done h', get_finished query h = (Ok (map result_of done), h') /\ h_transfers h = done ++ h_transfers h'
      /\ Forall (fun t => query (tr_end_event t) = true) done
      /\ match h_transfers h' with [] => True | t :: _ => query (tr_end_event t) = false end.
Proof.
  intros [H0 Hnil]%new_handler_inv Hrun.
  assert (Hinv : forall s, rtc transfer_step s (h, sub, rep) -> transfer_inv s -> transfer_inv (h, sub, rep)).
  { clear. intros s. remember (h, sub, rep) as s' eqn:E. clear E. induction 1; [done|]. intros Hs. by eapply IHrtc, transfer_step_inv. }
  destruct (Hinv _ Hrun) as [Hh Hsub]; [split; [done|]; simpl; by rewrite Hnil|]. simpl in *. split_and!; [done|apply Hh|apply Hh|].
  intros query. pose proof (finished_wp query (h_transfers h) [] h Hh eq_refl) as Hw. apply wp_run in Hw as (r & h' & Hrun' & _ & _ & done & Hts & -> & ? & ?).
  exists done, h'. split_and!; try done.
Qed.

(** ** Concrete transfers *)

Definition zero_memory : memory := fun _ => byte_of_Z 0.
Definition counting_memory : memory := byte_of_Z.

Lemma kv_store_load_roundtrip_witness : exists stored loaded,
  src_to_dst 1 2 [10; 11; 12; 13] [5; 3] = Ok stored /\ src_to_dst 2 1 [5; 3] [20; 21; 22] = Ok loaded
  /\ swap_blocks (swap_blocks counting_memory zero_memory 4 stored) zero_memory 4 loaded (20 * 4 + 1) = byte_of_Z 45.
Proof.
  destruct (kv_store_load_roundtrip 2 4 [5; 3] [10; 11; 12; 13] [20; 21; 22] counting_memory zero_memory zero_memory)
    as (stored & loaded & Hs & Hl & Hcopy).
  - lia.
  - lia.
  - apply (bool_decide_unpack _). vm_compute. exact I.
  - apply (bool_decide_unpack _). vm_compute. exact I.
  - reflexivity.
  - vm_compute. discriminate.
  - exists stored, loaded. split; [exact Hs|]. split; [exact Hl|]. apply (Hcopy 0%nat 11 20 1); [reflexivity|reflexivity|lia].
Defined.

Definition store_handler0 : SingleDirectionOffloadingHandler :=
  match new_handler [4] [8] 2 [[0]] true with Ok h => h | Err _ => mkHandler true 1 2 [] [] [] [] [] 0 end.
Definition store_handler1 := snd (transfer_async 7 [1; 2] [0] store_handler0).
Definition store_handler2 := snd (transfer_async 8 [3; 4] [1] store_handler1).
Definition store_handler3 := snd (get_finished (fun e => e =? 2) store_handler2).

Lemma store_run1 : transfer_step (store_handler0, [], []) (store_handler1, [7], []).
Proof.
  assert (E : transfer_async 7 [1; 2] [0] store_handler0 = (Ok true, store_handler1)) by (vm_compute; reflexivity).
  exact (ts_submit _ _ [] [] 7 [1; 2] [0] true (not_elem_of_nil 7) E).
Qed.

Lemma store_run2 : transfer_step (store_handler1, [7], []) (store_handler2, [7; 8], []).
Proof.
  assert (E : transfer_async 8 [3; 4] [1] store_handler1 = (Ok true, store_handler2)) by (vm_compute; reflexivity).
  refine (ts_submit _ _ [7] [] 8 [3; 4] [1] true _ E). intros H%list_elem_of_singleton. discriminate H.
Qed.

Lemma store_run3 : transfer_step (store_handler2, [7; 8], []) (store_handler3, [7; 8], [7]).
Proof.
  assert (E : get_finished (fun e => e =? 2) store_handler2 = (Ok [mkTransferResult 7 true 8], store_handler3)) by (vm_compute; reflexivity).
  exact (ts_finished _ _ [7; 8] [] (fun e => e =? 2) [mkTransferResult 7 true 8] E).
Qed.

Lemma transfers_fifo_witness :
  new_handler [4] [8] 2 [[0]] true = Ok store_handler0
  /\ [7; 8] = [7] ++ map tr_job_id (h_transfers store_handler3) /\ chained (h_transfers store_handler2).
Proof.
  pose proof (rtc_l _ _ _ _ store_run1 (rtc_once _ _ store_run2)) as H2. split; [reflexivity|]. split.
  - exact (proj1 (transfers_fifo [4] [8] 2 [[0]] true store_handler0 store_handler3 [7; 8] [7] eq_refl (rtc_r _ _ _ H2 store_run3))).
  - exact (proj1 (proj2 (transfers_fifo [4] [8] 2 [[0]] true store_handler0 store_handler2 [7; 8] [] eq_refl H2))).
Defined.
