(* ===== verification/OffloadConnectorLemmas.v ===== *)
(** The scheduler side of the offloading connector over any lawful manager: the
    hashes of offloaded blocks, the invariant of the loads in flight, and each
    method's effect. *)
From S2P Require Import Prelude PyDict Request FreeQueue SchedState.
From S2P Require Import OffloadPolicyLemmas OffloadManager OffloadLaws OffloadConnector OffloadTransferSpec.
Local Open Scope Z_scope.
Import Connector.

(** ** Slices *)

Lemma slice_from_lookup {A} (l : list A) : forall i k step stop (j : nat), 0 <= k -> 1 <= step ->
  slice_from l i (i + k) step stop !! j =
    if match stop with Some e => i + k + Z.of_nat j * step <? e | None => true end then l !! Z.to_nat (k + Z.of_nat j * step) else None.
Proof.
  induction l as [|x l IH]; intros i k step stop j Hk Hstep; simpl.
  { rewrite lookup_nil. by destruct (match stop with Some e => _ | None => true end). }
  destruct (match stop with Some e => e <=? i | None => false end) eqn:Hstop.
  { destruct stop as [e|]; [|done]. rewrite (proj2 (Z.ltb_ge _ _)) by nia. apply lookup_nil. }
  destruct (i =? i + k) eqn:Hi.
  - assert (k = 0) as -> by lia. destruct j as [|j]; simpl.
    + destruct stop as [e|]; [|done]. by rewrite (proj2 (Z.ltb_lt _ _)) by lia.
    + replace (i + 0 + step) with (i + 1 + (step - 1)) by lia. rewrite IH by lia.
      replace (i + 1 + (step - 1) + Z.of_nat j * step) with (i + 0 + Z.of_nat (S j) * step) by lia.
      replace (Z.to_nat (0 + Z.of_nat (S j) * step)) with (S (Z.to_nat (step - 1 + Z.of_nat j * step))) by lia. done.
  - replace (i + k) with (i + 1 + (k - 1)) by lia. rewrite IH by lia.
    replace (Z.to_nat (k + Z.of_nat j * step)) with (S (Z.to_nat (k - 1 + Z.of_nat j * step))) by lia. done.
Qed.

(** The hashes of the offloaded blocks: those of the last GPU block of each. *)
Definition offloaded_hashes (f : Z) (hashes : list bytes) : list bytes := slice_from hashes 0 (f - 1) f None.

Section Hashes.
Context (f : Z) (Hf : 0 < f).

Lemma lookup_offloaded hs (j : nat) : offloaded_hashes f hs !! j = hs !! Z.to_nat (f - 1 + Z.of_nat j * f).
Proof. unfold offloaded_hashes. replace (f - 1) with (0 + (f - 1)) at 1 by lia. by rewrite slice_from_lookup by lia. Qed.

Lemma zlen_offloaded hs : zlen (offloaded_hashes f hs) = zlen hs / f.
Proof.
  pose proof (zlen_nonneg hs). assert (Hq : 0 <= zlen hs / f) by (apply Z.div_pos; lia).
  assert (Hmul : f * (zlen hs / f) <= zlen hs < f * (zlen hs / f) + f).
  { pose proof (Z.div_mod (zlen hs) f ltac:(lia)). pose proof (Z.mod_pos_bound (zlen hs) f Hf). lia. }
  assert (H1 : length (offloaded_hashes f hs) = Z.to_nat (zlen hs / f)); [|unfold zlen in *; lia].
  apply Nat.le_antisymm.
  - destruct (decide (length (offloaded_hashes f hs) <= Z.to_nat (zlen hs / f))%nat) as [|Hgt]; [done|]. exfalso.
    destruct (lookup_lt_is_Some_2 (offloaded_hashes f hs) (Z.to_nat (zlen hs / f))) as [x Hx]; [lia|].
    rewrite lookup_offloaded in Hx. apply lookup_lt_Some in Hx. unfold zlen in *. nia.
  - destruct (decide (Z.to_nat (zlen hs / f) = 0%nat)) as [->|Hne]; [lia|].
    assert (Hlt : is_Some (offloaded_hashes f hs !! (Z.to_nat (zlen hs / f) - 1)%nat)).
    { rewrite lookup_offloaded. apply lookup_lt_is_Some_2. unfold zlen in *. nia. }
    apply lookup_lt_is_Some in Hlt. lia.
Qed.

Lemma NoDup_offloaded hs : NoDup hs -> NoDup (offloaded_hashes f hs).
Proof.
  intros Hnd. apply NoDup_alt. intros i j x. rewrite !lookup_offloaded. intros Hi Hj.
  pose proof (NoDup_lookup _ _ _ _ Hnd Hi Hj). nia.
Qed.
End Hashes.

(** A segment of a list. *)
Definition segment {A} (l : list A) (lo hi : Z) : list A := take (Z.to_nat (hi - lo)) (drop (Z.to_nat lo) l).

Lemma lookup_segment {A} (l : list A) lo hi (j : nat) : 0 <= lo ->
  segment l lo hi !! j = if decide (Z.of_nat j < hi - lo) then l !! Z.to_nat (lo + Z.of_nat j) else None.
Proof.
  intros Hlo. unfold segment. case_decide.
  - rewrite lookup_take_lt, lookup_drop by lia. f_equal. lia.
  - apply lookup_take_ge. lia.
Qed.

Lemma zlen_segment {A} (l : list A) lo hi : 0 <= lo <= hi -> hi <= zlen l -> zlen (segment l lo hi) = hi - lo.
Proof. intros ? ?. unfold segment, zlen in *. rewrite length_take, length_drop. lia. Qed.

Lemma segment_sublist {A} (l : list A) lo hi : segment l lo hi `sublist_of` l.
Proof. unfold segment. etrans; [apply sublist_take|apply sublist_drop]. Qed.

Section GetHashes.
Context {T : Type}.
Implicit Types c : OffloadingConnectorScheduler T.

Lemma get_block_hashes_all c req lo : 0 < oc_block_size_factor c -> 0 <= lo ->
  get_block_hashes c req lo None = Ok (drop (Z.to_nat lo) (offloaded_hashes (oc_block_size_factor c) (block_hashes req))).
Proof.
  intros Hf Hlo. unfold get_block_hashes, py_islice. set (f := oc_block_size_factor c) in *.
  rewrite (proj2 (Z.ltb_ge (f * lo + f - 1) 0)), (proj2 (Z.ltb_ge f 1)) by nia. simpl. f_equal.
  apply list_eq. intros j. rewrite lookup_drop, lookup_offloaded by done.
  replace (f * lo + f - 1) with (0 + (f * lo + f - 1)) by lia. rewrite slice_from_lookup by nia.
  f_equal. nia.
Qed.

Lemma get_block_hashes_to c req lo hi : 0 < oc_block_size_factor c -> 0 <= lo -> 0 < hi ->
  get_block_hashes c req lo (Some hi) = Ok (segment (offloaded_hashes (oc_block_size_factor c) (block_hashes req)) lo hi).
Proof.
  intros Hf Hlo Hhi. unfold get_block_hashes, py_islice. set (f := oc_block_size_factor c) in *.
  rewrite (proj2 (Z.eqb_neq hi 0)) by lia.
  rewrite (proj2 (Z.ltb_ge (f * lo + f - 1) 0)), (proj2 (Z.ltb_ge f 1)), (proj2 (Z.ltb_ge (f * hi) 0)) by nia. simpl. f_equal.
  apply list_eq. intros j. rewrite lookup_segment, lookup_offloaded by done.
  replace (f * lo + f - 1) with (0 + (f * lo + f - 1)) by lia. rewrite slice_from_lookup by nia.
  case_decide.
  - rewrite (proj2 (Z.ltb_lt _ _)) by nia. f_equal. nia.
  - rewrite (proj2 (Z.ltb_ge _ _)) by nia. done.
Qed.
End GetHashes.

(** ** The invariant *)

(** The elements of the sets of a map, counted with multiplicity. *)
Definition all_of (m : gmap string (gset bytes)) : list bytes := flat_map (fun p => elements p.2) (map_to_list m).

Lemma all_of_delete m r s : m !! r = Some s -> all_of m ≡ₚ elements s ++ all_of (delete r m).
Proof.
  intros Hr. unfold all_of. rewrite <-(map_to_list_delete m r s Hr). done.
Qed.

Lemma all_of_insert m r s : m !! r = None -> all_of (<[r := s]> m) ≡ₚ elements s ++ all_of m.
Proof. intros Hr. unfold all_of. by rewrite (map_to_list_insert m r s Hr). Qed.

Lemma all_of_update m r s : all_of (<[r := s]> m) ≡ₚ elements s ++ all_of (delete r m).
Proof. rewrite <-insert_delete_eq. apply all_of_insert, lookup_delete_eq. Qed.

Lemma all_of_default m r : all_of m ≡ₚ elements (default ∅ (m !! r)) ++ all_of (delete r m).
Proof.
  destruct (m !! r) as [s|] eqn:E; simpl; [by apply all_of_delete|]. rewrite elements_empty. simpl. by rewrite delete_id.
Qed.

Lemma elem_of_all_of m h : h ∈ all_of m <-> exists r s, m !! r = Some s /\ h ∈ s.
Proof.
  unfold all_of. rewrite list_elem_of_In, in_flat_map. split.
  - intros ([r s] & Hin & Hh). apply list_elem_of_In, elem_of_map_to_list in Hin. apply list_elem_of_In, elem_of_elements in Hh. by exists r, s.
  - intros (r & s & Hr & Hh). exists (r, s). by rewrite <-!list_elem_of_In, elem_of_map_to_list, elem_of_elements.
Qed.

Section Conn.
Context {T : Type} `{OffloadingManagerLaws T inv readable slot}.
Implicit Types c : OffloadingConnectorScheduler T.

Record conn_inv c : Prop := {
  ci_gpu : 0 < oc_gpu_block_size c;
  ci_factor : 0 < oc_block_size_factor c;
  ci_offl : oc_offloaded_block_size c = oc_gpu_block_size c * oc_block_size_factor c;
  ci_mgr : inv (oc_manager c) (all_of (oc_reqs_being_loaded c));
  ci_tracked : forall s, oc_blocks_being_loaded c = Some s ->
    NoDup (all_of (oc_reqs_being_loaded c)) /\ forall h, h ∈ s <-> h ∈ all_of (oc_reqs_being_loaded c);
  ci_stores : NoDup (all_of (oc_reqs_being_stored c));
  ci_unreadable : forall h, h ∈ all_of (oc_reqs_being_stored c) <-> is_Some (slot (oc_manager c) h) /\ readable (oc_manager c) h = false;
  ci_next : forall r i, oc_next_stored_block_idx c !! r = Some i -> 0 <= i;
  ci_dom : forall r, is_Some (oc_request_block_ids c !! r) <-> r ∈ oc_requests c
}.

Definition same_view (t t' : T) : Prop := (forall h, readable t' h = readable t h) /\ (forall h, slot t' h = slot t h).

Lemma conn_inv_manager c t : conn_inv c -> inv t (all_of (oc_reqs_being_loaded c)) -> same_view (oc_manager c) t ->
  conn_inv (oc_set_manager t c).
Proof. intros [] Ht [Hr Hs]. split; simpl; try done. intros h. by rewrite Hr, Hs. Qed.

Lemma on_manager_wp {A} (f : M T A) (Q : A -> T -> Prop) c : wp f Q (oc_manager c) ->
  wp (on_manager f) (fun a c' => Q a (oc_manager c') /\ c' = oc_set_manager (oc_manager c') c) c.
Proof. intros Hf. apply wp_zoom. eapply wp_mono; [exact Hf|]. by intros a t Hq. Qed.

Lemma conn_touch_wp c hs : conn_inv c -> wp (on_manager (om_touch hs)) (fun _ c' => conn_inv c' /\ c' = oc_set_manager (oc_manager c') c
  /\ same_view (oc_manager c) (oc_manager c')) c.
Proof.
  intros Hc. eapply wp_mono; [apply on_manager_wp, (ml_touch _ (all_of (oc_reqs_being_loaded c))), Hc|].
  intros [] c' [(Hi & Hv) ->]. split; [by apply conn_inv_manager|]. by split.
Qed.

(** The hash list of a request covers its tokens, and its hashes are distinct. *)
Definition hashed c (req : Request) : Prop :=
  zlen (block_hashes req) = num_tokens req / oc_gpu_block_size c /\ NoDup (block_hashes req).
Definition offl c (req : Request) : list bytes := offloaded_hashes (oc_block_size_factor c) (block_hashes req).

Lemma zlen_offl c req : conn_inv c -> hashed c req -> zlen (offl c req) = num_tokens req / oc_offloaded_block_size c.
Proof.
  intros Hc [Hh _]. unfold offl. rewrite zlen_offloaded by apply Hc. rewrite Hh, (ci_offl c Hc). apply Z.div_div; [|apply Hc].
  pose proof (ci_gpu c Hc). lia.
Qed.

(** What a match offers: blocks up to number [e], all readable and none of them
    being loaded. *)
Record match_of c (req : Request) (n k e : Z) : Prop := {
  mo_tokens : k = oc_offloaded_block_size c * e - n;
  mo_block : oc_offloaded_block_size c <= k;
  mo_end : e <= zlen (offl c req);
  mo_readable : Forall (fun h => readable (oc_manager c) h = true) (segment (offl c req) (n / oc_offloaded_block_size c) e);
  mo_free : forall s, oc_blocks_being_loaded c = Some s ->
    Forall (fun h => h ∉ s) (segment (offl c req) (n / oc_offloaded_block_size c) e)
}.

Lemma being_loaded_free c s e req n : conn_inv c -> 0 < e -> 0 <= n -> oc_blocks_being_loaded c = Some s ->
  wp (if bool_decide (s = ∅) then mret (Some (oc_offloaded_block_size c * e - n), true)
      else hashes ← lift_res (get_block_hashes c req (n / oc_offloaded_block_size c) (Some e)) ;
           if existsb (fun h => bool_decide (h ∈ s)) hashes then mret (None, false)
           else mret (Some (oc_offloaded_block_size c * e - n), true))
    (fun r c' => c' = c /\ (r = (None, false) \/ r = (Some (oc_offloaded_block_size c * e - n), true)
       /\ Forall (fun h => h ∉ s) (segment (offl c req) (n / oc_offloaded_block_size c) e))) c.
Proof.
  intros Hc He Hn Hs. case_bool_decide as Hempty.
  - apply wp_ret. split; [done|]. right. split; [done|]. subst s. apply Forall_forall. intros h _. apply not_elem_of_empty.
  - assert (0 < oc_offloaded_block_size c) by (rewrite (ci_offl c Hc); pose proof (ci_gpu c Hc); pose proof (ci_factor c Hc); nia).
    apply wp_bind. eapply wp_lift_res; [apply get_block_hashes_to; [apply Hc|apply Z.div_pos; lia|done]|].
    fold (offl c req). destruct (existsb _ _) eqn:E; apply wp_ret; split; try done; [by left|]. right. split; [done|].
    apply Forall_forall. intros h Hh Hin. apply not_true_iff_false in E. apply E, existsb_exists. exists h.
    split; [by apply list_elem_of_In|by apply bool_decide_eq_true].
Qed.

Lemma conn_offl_pos c : conn_inv c -> 0 < oc_offloaded_block_size c.
Proof. intros Hc. rewrite (ci_offl c Hc). pose proof (ci_gpu c Hc). pose proof (ci_factor c Hc). nia. Qed.

Lemma py_floordiv_ok a b : 0 < b -> py_floordiv a b = Ok (a / b).
Proof. intros Hb. unfold py_floordiv. by rewrite (proj2 (Z.eqb_neq b 0)) by lia. Qed.
Lemma py_mod_ok a b : 0 < b -> py_mod a b = Ok (a mod b).
Proof. intros Hb. unfold py_mod. by rewrite (proj2 (Z.eqb_neq b 0)) by lia. Qed.

Definition manager_only c c' : Prop := c' = oc_set_manager (oc_manager c') c.

Definition matched_post c req n (r : option Z * bool) c' : Prop :=
  conn_inv c' /\ manager_only c c' /\ same_view (oc_manager c) (oc_manager c') /\
  match r with
  | (None, b) => b = false
  | (Some k, false) => k = 0
  | (Some k, true) => exists e, match_of c' req n k e
  end.

Lemma num_blocks_assert c req : conn_inv c -> hashed c req ->
  zlen (block_hashes req) / oc_block_size_factor c = num_tokens req / oc_offloaded_block_size c.
Proof.
  intros Hc [Hh _]. rewrite Hh, (ci_offl c Hc). apply Z.div_div; [|apply Hc]. pose proof (ci_gpu c Hc). lia.
Qed.

(** After the touch: the lookup and the decision on its hits. *)
Lemma lookup_wp c req n : conn_inv c -> hashed c req -> 0 <= n ->
  let bs := oc_offloaded_block_size c in
  wp (hashes ← lift_res (get_block_hashes c req (n / bs) None) ;
      hits ← on_manager (om_lookup hashes) ;
      match hits with
      | None => mret (None, false)
      | Some hits =>
          if hits =? 0 then mret (Some 0, false)
          else if bs * (n / bs + hits) - n <? bs then mret (Some 0, false)
          else
            c0 ← gets id ;
            match oc_blocks_being_loaded c0 with
            | Some being_loaded =>
                if bool_decide (being_loaded = ∅) then mret (Some (bs * (n / bs + hits) - n), true)
                else
                  hashes ← lift_res (get_block_hashes c0 req (n / bs) (Some (n / bs + hits))) ;
                  if existsb (fun h => bool_decide (h ∈ being_loaded)) hashes then mret (None, false)
                  else mret (Some (bs * (n / bs + hits) - n), true)
            | None => mret (Some (bs * (n / bs + hits) - n), true)
            end
      end) (matched_post c req n) c.
Proof.
  intros Hc Hh Hn bs. pose proof (conn_offl_pos c Hc) as Hbs. fold bs in Hbs.
  assert (Hlo : 0 <= n / bs) by (apply Z.div_pos; lia). pose proof (zlen_nonneg (offl c req)).
  apply wp_bind. eapply wp_lift_res; [apply get_block_hashes_all; [apply Hc|done]|]. fold (offl c req).
  apply wp_bind. eapply wp_mono; [apply on_manager_wp, (ml_lookup _ (all_of (oc_reqs_being_loaded c))), Hc|].
  intros hits c1 [(Hi & Hr & Hs & Hhits) Heq]. assert (Hv : same_view (oc_manager c) (oc_manager c1)) by done.
  assert (Hc1 : conn_inv c1) by (rewrite Heq; by apply conn_inv_manager).
  destruct hits as [hits|]; [|by apply wp_ret]. destruct (Hhits hits eq_refl) as (m & -> & Hm & Hall).
  destruct (Z.of_nat m =? 0) eqn:Hm0; [by apply wp_ret|]. destruct (_ <? bs) eqn:Hlt; [by apply wp_ret|].
  rewrite length_drop in Hm.
  assert (Hmatch : (forall s, oc_blocks_being_loaded c = Some s -> Forall (fun h => h ∉ s) (segment (offl c req) (n / bs) (n / bs + Z.of_nat m))) ->
    match_of c1 req n (bs * (n / bs + Z.of_nat m) - n) (n / bs + Z.of_nat m)).
  { intros Hfree. split.
    - by rewrite Heq.
    - rewrite Heq. simpl. fold bs. lia.
    - rewrite Heq. change (n / bs + Z.of_nat m <= zlen (offl c req)). unfold zlen in *. lia.
    - rewrite Heq. unfold offl. simpl. fold bs (offl c req). unfold segment.
      replace (Z.to_nat (n / bs + Z.of_nat m - n / bs)) with m by lia. eapply Forall_impl; [exact Hall|]. intros h ?. simpl. by rewrite Hr.
    - rewrite Heq. exact Hfree. }
  apply wp_bind, wp_gets. cbn [id]. replace (oc_blocks_being_loaded c1) with (oc_blocks_being_loaded c) by (by rewrite Heq).
  destruct (oc_blocks_being_loaded c) as [s|] eqn:Es.
  - assert (Hs1 : oc_blocks_being_loaded c1 = Some s) by (by rewrite Heq).
    assert (Hb1 : bs = oc_offloaded_block_size c1) by (by rewrite Heq). rewrite Hb1.
    eapply wp_mono; [apply (being_loaded_free c1 s (n / oc_offloaded_block_size c1 + Z.of_nat m) req n); try done|].
    + rewrite <-Hb1. lia.
    + intros r c2 [-> Hcase]. split; [done|]. split; [done|]. split; [done|]. destruct Hcase as [->|[-> Hfree]]; [done|].
      exists (n / oc_offloaded_block_size c1 + Z.of_nat m). rewrite <-Hb1. apply Hmatch. intros s' [= <-].
      rewrite <-Hb1 in Hfree. unfold offl in *. by rewrite Heq in Hfree.
  - apply wp_ret. split; [done|]. split; [done|]. split; [done|]. exists (n / bs + Z.of_nat m). by apply Hmatch.
Qed.

Lemma matched_wp c req n : conn_inv c -> hashed c req -> 0 <= n -> wp (get_num_new_matched_tokens req n) (matched_post c req n) c.
Proof.
  intros Hc Hh Hn. pose proof (conn_offl_pos c Hc) as Hbs. unfold get_num_new_matched_tokens.
  apply wp_bind, wp_gets. cbn [id]. apply wp_bind. eapply wp_lift_res; [by apply py_floordiv_ok|].
  apply wp_bind. eapply wp_lift_res; [apply py_floordiv_ok, Hc|]. apply wp_bind, wp_assert; [apply Z.eqb_eq; by apply num_blocks_assert|].
  apply wp_bind. eapply wp_lift_res; [apply get_block_hashes_all; [apply Hc|done]|].
  apply wp_bind. eapply wp_mono; [by apply conn_touch_wp|]. intros [] c1 (Hc1 & Heq & Hv).
  destruct (_ <? _); [apply wp_ret; by split_and!|].
  apply wp_bind. eapply wp_lift_res; [by apply py_floordiv_ok|].
  assert (Hh1 : hashed c1 req) by (rewrite Heq; exact Hh).
  assert (Hget : get_block_hashes c req = get_block_hashes c1 req) by (by rewrite Heq).
  assert (Hb : oc_offloaded_block_size c = oc_offloaded_block_size c1) by (by rewrite Heq). rewrite Hget, Hb.
  eapply wp_mono; [exact (lookup_wp c1 req n Hc1 Hh1 Hn)|]. intros r c' (? & Hm & Hv' & Hr). split; [done|]. split; [|split; [|exact Hr]].
  - unfold manager_only in *. rewrite Hm, Heq. done.
  - destruct Hv, Hv'. split; intros h; etrans; eauto.
Qed.

(** ** Allocation *)

(** The blocks allocated cover the computed tokens, in hashed blocks, and the
    tokens to load. *)
Definition blocks_fit c (n k : Z) (blocks : list KVCacheBlock) : Prop :=
  zlen (filter (fun b => is_Some (block_hash b)) blocks) * oc_gpu_block_size c = n /\ zlen blocks * oc_gpu_block_size c = n + k.

Definition loads_fit c (req : Request) : Prop := zlen (all_of (oc_reqs_being_loaded c)) + zlen (block_hashes req) < 2 ^ 31.

(** The bookkeeping of a request that has nothing to load. *)
Definition known (rid : string) c : OffloadingConnectorScheduler T :=
  oc_set_request_block_ids (<[rid := []]> (oc_request_block_ids c)) (oc_set_requests ({[rid]} ∪ oc_requests c) c).

Lemma known_inv rid c : conn_inv c -> conn_inv (known rid c).
Proof.
  intros []. split; simpl; try done. intros r. destruct (decide (r = rid)) as [->|Hne].
  - rewrite lookup_insert_eq. set_solver.
  - rewrite lookup_insert_ne by done. rewrite ci_dom0. set_solver.
Qed.

Lemma alloc_nothing_wp c req blocks : conn_inv c ->
  wp (update_state_after_alloc req blocks 0) (fun _ c' => conn_inv c' /\ c' = known (request_id req) c) c.
Proof. intros Hc. unfold update_state_after_alloc. apply wp_bind, wp_modify, wp_bind, wp_modify, wp_ret. split; [exact (known_inv _ _ Hc)|done]. Qed.

Record load_placed c (req : Request) (n e : Z) (blocks : list KVCacheBlock) (load : LoadTransfer) : Prop := {
  lp_slots : Forall2 (fun h i => slot (oc_manager c) h = Some i) (segment (offl c req) (n / oc_offloaded_block_size c) e) (cpu_block_ids load.1);
  lp_readable : Forall (fun h => readable (oc_manager c) h = true) (segment (offl c req) (n / oc_offloaded_block_size c) e);
  lp_blocks : gpu_block_ids load.2 = drop (Z.to_nat (n / oc_gpu_block_size c)) (map block_id blocks)
}.

(** A connector whose request [rid] loads the blocks of [hs]. *)
Definition loading (rid : string) (hs : list bytes) (load : LoadTransfer) (e : Z) (t : T) c : OffloadingConnectorScheduler T :=
  mkConnector (oc_gpu_block_size c) (oc_offloaded_block_size c) (oc_block_size_factor c) t
    ({[rid]} ∪ oc_requests c) (<[rid := []]> (oc_request_block_ids c)) (od_set rid load (oc_reqs_to_load c))
    (<[rid := e]> (oc_next_stored_block_idx c))
    (match oc_blocks_being_loaded c with Some s => Some (s ∪ list_to_set hs) | None => None end)
    (oc_reqs_being_stored c) (<[rid := list_to_set hs]> (oc_reqs_being_loaded c)).

Lemma loading_inv rid hs load e t c : conn_inv c -> oc_reqs_being_loaded c !! rid = None -> NoDup hs -> 0 <= e ->
  (forall s, oc_blocks_being_loaded c = Some s -> Forall (fun h => h ∉ s) hs) ->
  inv t (hs ++ all_of (oc_reqs_being_loaded c)) -> same_view (oc_manager c) t -> conn_inv (loading rid hs load e t c).
Proof.
  intros [Hg Hf Ho Hm Ht Hst Hu Hn Hd] Hnone Hnd He Hfree Hi [Hr Hs].
  assert (Hall : all_of (<[rid := list_to_set hs]> (oc_reqs_being_loaded c)) ≡ₚ hs ++ all_of (oc_reqs_being_loaded c)).
  { rewrite all_of_insert by done. f_equiv. by apply elements_list_to_set. }
  split; simpl; try done.
  - eapply ml_perm; [|exact Hi]. by symmetry.
  - destruct (oc_blocks_being_loaded c) as [s|]; [|done]. intros s' [= <-]. destruct (Ht s eq_refl) as [Hnd' Hin].
    specialize (Hfree s eq_refl). rewrite Forall_forall in Hfree. split.
    + rewrite Hall. apply NoDup_app. split; [done|]. split; [|done]. intros h Hh. rewrite <-Hin. by apply Hfree.
    + intros h. rewrite Hall, elem_of_app, elem_of_union, elem_of_list_to_set, Hin. tauto.
  - intros h. by rewrite Hr, Hs.
  - intros r i. destruct (decide (r = rid)) as [->|Hne]; [rewrite lookup_insert_eq; by intros [= <-]|].
    rewrite lookup_insert_ne by done. apply Hn.
  - intros r. destruct (decide (r = rid)) as [->|Hne]; [rewrite lookup_insert_eq; set_solver|].
    rewrite lookup_insert_ne by done. rewrite Hd. set_solver.
Qed.

Lemma alloc_load_wp c req n k e blocks : conn_inv c -> hashed c req -> 0 <= n -> match_of c req n k e -> blocks_fit c n k blocks ->
  oc_reqs_being_loaded c !! request_id req = None -> loads_fit c req ->
  wp (update_state_after_alloc req blocks k) (fun _ c' => conn_inv c' /\ same_view (oc_manager c) (oc_manager c') /\ exists load,
      c' = loading (request_id req) (segment (offl c req) (n / oc_offloaded_block_size c) e) load e (oc_manager c') c
      /\ load_placed c req n e blocks load) c.
Proof.
  intros Hc [_ Hndh] Hn [Hk Hkb He Hr Hfree] [Hcomp Hblocks] Hnone Hw. pose proof (conn_offl_pos c Hc) as Hbs. pose proof (ci_gpu c Hc) as Hg.
  set (rid := request_id req) in *. set (bs := oc_offloaded_block_size c) in *. set (hs := segment (offl c req) (n / bs) e) in *.
  assert (Hnd : NoDup hs) by (eapply sublist_NoDup; [exact (NoDup_offloaded _ (ci_factor c Hc) _ Hndh)|apply segment_sublist]).
  assert (He0 : 0 < e) by nia. assert (Hlo : 0 <= n / bs) by (apply Z.div_pos; lia).
  unfold update_state_after_alloc. apply wp_bind, wp_modify, wp_bind, wp_modify. rewrite (proj2 (Z.eqb_neq k 0)) by lia.
  apply wp_bind, wp_gets. cbn [id]. simpl. fold bs rid. unfold hashed in *.
  rewrite Hcomp. assert (Hfull : n + k = bs * e) by lia. rewrite Hfull.
  apply wp_bind. eapply wp_lift_res; [by apply py_mod_ok|]. apply wp_bind, wp_assert; [rewrite Z.mul_comm, Z_mod_mult; done|].
  assert (Hids : zlen (map block_id blocks) = zlen blocks) by apply zlen_map. rewrite Hids.
  apply wp_bind, wp_assert; [apply Z.eqb_eq; lia|].
  apply wp_bind. eapply wp_lift_res; [by apply py_floordiv_ok|]. apply wp_bind. eapply wp_lift_res; [by apply py_floordiv_ok|].
  rewrite (Z.mul_comm bs e), Z_div_mult by lia.
  apply wp_bind. eapply wp_lift_res; [apply py_floordiv_ok, Hc|].
  assert (Hlen : zlen (block_hashes req) / oc_block_size_factor c = zlen (offl c req)) by (unfold offl; by rewrite zlen_offloaded by apply Hc).
  apply wp_bind, wp_assert; [apply Z.leb_le; lia|].
  apply wp_bind. eapply wp_lift_res; [apply (get_block_hashes_to (known rid c)); [apply Hc|done|done]|]. simpl. fold (offl c req) hs.
  apply wp_bind. eapply wp_mono; [apply on_manager_wp, (ml_prepare_load _ (all_of (oc_reqs_being_loaded c)) hs); [apply Hc|exact Hr|]|].
  { unfold loads_fit in Hw. pose proof (ci_factor c Hc). pose proof (zlen_nonneg (block_hashes req)).
    pose proof (sublist_length _ _ (segment_sublist (offl c req) (n / bs) e)) as Hsub. fold hs in Hsub.
    assert (zlen (block_hashes req) / oc_block_size_factor c <= zlen (block_hashes req)) by (apply Z.div_le_upper_bound; nia).
    unfold zlen in *. lia. }
  intros spec c1 [(Hi & Hvr & Hvs & Hslots) Heq]. simpl in Hvr, Hvs, Hslots.
  set (nc := zlen (filter (fun b => is_Some (block_hash b)) blocks)) in *.
  assert (Hnc : nc = n / oc_gpu_block_size c) by (rewrite <-Hcomp, Z_div_mult by lia; done).
  assert (Hnc0 : 0 <= nc) by apply zlen_nonneg. assert (Hncle : nc <= zlen blocks) by nia.
  rewrite py_slice_from_nonneg by done.
  apply wp_bind. eapply wp_lift_res.
  { unfold gpu_load_store_spec. simpl. rewrite (proj2 (Z.eqb_eq _ _)); [reflexivity|]. unfold zlen in *. rewrite length_drop, length_map. lia. }
  apply wp_bind, wp_modify, wp_bind, wp_modify, wp_bind, wp_modify, wp_modify.
  rewrite Heq. simpl. rewrite Hnone. simpl. rewrite !lookup_insert_eq. simpl. rewrite !union_empty_l_L.
  set (load := (spec, mkGPULoadStoreSpec (drop (Z.to_nat nc) (map block_id blocks)) [zlen blocks - nc] (Some [nc]))).
  split; [|split; [by split|]].
  - apply (loading_inv rid hs load e (oc_manager c1) c); try done. lia.
  - exists load. split; [done|]. split; [exact Hslots|exact Hr|]. simpl. by rewrite Hnc.
Qed.

(** ** Completions *)

Context (hash_order : gset bytes -> list bytes) (Hhash : forall s, hash_order s ≡ₚ elements s).

Lemma hash_order_elem s h : h ∈ hash_order s <-> h ∈ s.
Proof. by rewrite Hhash, elem_of_elements. Qed.

(** The store of the blocks [s] of request [rid] is complete. *)
Lemma stores_done c rid s : conn_inv c -> oc_reqs_being_stored c !! rid = Some s ->
  wp (om_complete_store (hash_order s) true) (fun _ t => (forall h, slot t h = slot (oc_manager c) h)
    /\ (forall h, readable t h = true <-> readable (oc_manager c) h = true \/ h ∈ s)
    /\ forall m', all_of m' ≡ₚ all_of (delete rid (oc_reqs_being_stored c)) -> conn_inv (oc_set_being_stored m' (oc_set_manager t c))) (oc_manager c).
Proof.
  intros [Hg Hf Ho Hm Ht Hst Hu Hn Hd] Hs.
  eapply wp_mono; [apply (ml_complete_store _ (all_of (oc_reqs_being_loaded c))), Hm|]. intros [] t (Hi & _ & Hdone). specialize (Hdone eq_refl).
  pose proof (all_of_delete _ _ _ Hs) as Hall. rewrite Hall in Hst. apply NoDup_app in Hst as (_ & Hdis & Hst).
  assert (Hslot : forall h, h ∈ s -> is_Some (slot (oc_manager c) h)).
  { intros h Hh. apply Hu. rewrite Hall. apply elem_of_app. left. by apply elem_of_elements. }
  assert (Hread : forall h, readable t h = true <-> readable (oc_manager c) h = true \/ h ∈ s).
  { intros h. destruct (Hdone h) as [_ ->]. rewrite hash_order_elem. naive_solver. }
  split; [intros h; apply Hdone|]. split; [done|]. intros m' Hm'.
  split; simpl; try done; [by rewrite Hm'|]. intros h. rewrite Hm'. destruct (Hdone h) as [-> _].
  assert (Hin : h ∈ all_of (delete rid (oc_reqs_being_stored c)) <-> h ∈ all_of (oc_reqs_being_stored c) /\ h ∉ s).
  { rewrite Hall, elem_of_app, elem_of_elements. split; [|tauto]. intros Hh. split; [by right|]. intros Hs'.
    apply (Hdis h); [by apply elem_of_elements|done]. }
  rewrite Hin, Hu, <-!not_true_iff_false, Hread. tauto.
Qed.

(** The load of the blocks [s] of request [rid] is complete. *)
Definition loaded (rid : string) (s : gset bytes) (t : T) c : OffloadingConnectorScheduler T :=
  oc_set_manager t (oc_set_blocks_being_loaded (match oc_blocks_being_loaded c with Some b => Some (b ∖ s) | None => None end)
    (oc_set_being_loaded (delete rid (oc_reqs_being_loaded c)) c)).

Lemma loads_done c rid s : conn_inv c -> oc_reqs_being_loaded c !! rid = Some s ->
  wp (om_complete_load (hash_order s)) (fun _ t => same_view (oc_manager c) t /\ conn_inv (loaded rid s t c)) (oc_manager c).
Proof.
  intros [Hg Hf Ho Hm Ht Hst Hu Hn Hd] Hs. pose proof (all_of_delete _ _ _ Hs) as Hall.
  eapply wp_mono; [apply (ml_complete_load _ (all_of (delete rid (oc_reqs_being_loaded c))))|].
  { eapply ml_perm; [|exact Hm]. rewrite Hall. by rewrite Hhash. }
  intros [] t (Hi & Hr & Hsl). split; [by split|]. split; simpl; try done.
  - destruct (oc_blocks_being_loaded c) as [b|]; [|done]. intros b' [= <-]. destruct (Ht b eq_refl) as [Hnd Hin].
    rewrite Hall in Hnd. apply NoDup_app in Hnd as (_ & Hdis & Hnd). split; [done|]. intros h.
    rewrite elem_of_difference, Hin, Hall, elem_of_app, elem_of_elements. split; [tauto|].
    intros Hh. split; [by right|]. intros Hs'. apply (Hdis h); [by apply elem_of_elements|done].
  - intros h. by rewrite Hr, Hsl.
Qed.

(** Nothing is being stored or loaded for a request without blocks. *)
Lemma drop_empty_store c m' : conn_inv c -> all_of m' ≡ₚ all_of (oc_reqs_being_stored c) -> conn_inv (oc_set_being_stored m' c).
Proof. intros [] Hp. split; simpl; try done; [by rewrite Hp|]. intros h. by rewrite Hp. Qed.

Lemma drop_empty_load c m' : conn_inv c -> all_of m' ≡ₚ all_of (oc_reqs_being_loaded c) -> conn_inv (oc_set_being_loaded m' c).
Proof.
  intros [] Hp. split; simpl; try done; [by eapply ml_perm|]. intros s Hs. destruct (ci_tracked0 s Hs) as [? Hin].
  split; [by rewrite Hp|]. intros h. by rewrite Hp, Hin.
Qed.

Lemma all_of_delete_empty m rid : default ∅ (m !! rid) = ∅ -> all_of (delete rid m) ≡ₚ all_of m.
Proof. intros He. by rewrite (all_of_default m rid), He, elements_empty. Qed.

(** What changes when the worker's answers are processed. *)
Definition outer_same c c' : Prop :=
  oc_gpu_block_size c' = oc_gpu_block_size c /\ oc_offloaded_block_size c' = oc_offloaded_block_size c
  /\ oc_block_size_factor c' = oc_block_size_factor c /\ oc_requests c' = oc_requests c
  /\ oc_request_block_ids c' = oc_request_block_ids c /\ oc_next_stored_block_idx c' = oc_next_stored_block_idx c.

Lemma sent_wp c rid : conn_inv c ->
  wp (c ← gets id ;
      modify (oc_set_being_stored (delete rid (oc_reqs_being_stored c))) ;;
      match oc_reqs_being_stored c !! rid with
      | Some hashes => when (negb (bool_decide (hashes = ∅))) (on_manager (om_complete_store (hash_order hashes) true))
      | None => mret tt
      end)
    (fun _ c' => conn_inv c' /\ outer_same c c' /\ oc_reqs_to_load c' = oc_reqs_to_load c /\ oc_reqs_being_loaded c' = oc_reqs_being_loaded c
       /\ oc_reqs_being_stored c' = delete rid (oc_reqs_being_stored c)) c.
Proof.
  intros Hc. apply wp_bind, wp_gets. cbn [id]. apply wp_bind, wp_modify.
  assert (Hempty : default ∅ (oc_reqs_being_stored c !! rid) = ∅ -> conn_inv (oc_set_being_stored (delete rid (oc_reqs_being_stored c)) c)).
  { intros He. apply drop_empty_store; [done|]. by apply all_of_delete_empty. }
  destruct (oc_reqs_being_stored c !! rid) as [s|] eqn:Es; [|apply wp_ret; split; [by apply Hempty|done]].
  apply wp_when; case_bool_decide as Hs; try done.
  - intros _. eapply wp_mono; [apply on_manager_wp, (stores_done c rid s Hc Es)|]. intros [] c' [(_ & _ & Hinv) ->].
    split; [by apply (Hinv (delete rid (oc_reqs_being_stored c)))|done].
  - intros _. split; [by apply Hempty|done].
Qed.

Lemma received_wp c rid : conn_inv c ->
  wp (c ← gets id ;
      modify (oc_set_being_loaded (delete rid (oc_reqs_being_loaded c))) ;;
      match oc_reqs_being_loaded c !! rid with
      | Some hashes =>
          when (negb (bool_decide (hashes = ∅)))
            (modify (fun c => oc_set_blocks_being_loaded
               (match oc_blocks_being_loaded c with Some s => Some (s ∖ hashes) | None => None end) c) ;;
             on_manager (om_complete_load (hash_order hashes)))
      | None => mret tt
      end)
    (fun _ c' => conn_inv c' /\ outer_same c c' /\ oc_reqs_to_load c' = oc_reqs_to_load c /\ oc_reqs_being_stored c' = oc_reqs_being_stored c
       /\ oc_reqs_being_loaded c' = delete rid (oc_reqs_being_loaded c)) c.
Proof.
  intros Hc. apply wp_bind, wp_gets. cbn [id]. apply wp_bind, wp_modify.
  assert (Hempty : default ∅ (oc_reqs_being_loaded c !! rid) = ∅ -> conn_inv (oc_set_being_loaded (delete rid (oc_reqs_being_loaded c)) c)).
  { intros He. apply drop_empty_load; [done|]. by apply all_of_delete_empty. }
  destruct (oc_reqs_being_loaded c !! rid) as [s|] eqn:Es; [|apply wp_ret; split; [by apply Hempty|done]].
  apply wp_when; case_bool_decide as Hs; try done.
  - intros _. apply wp_bind, wp_modify. eapply wp_mono; [apply on_manager_wp, (loads_done c rid s Hc Es)|]. intros [] c' [(_ & Hinv) ->].
    split; [exact Hinv|done].
  - intros _. split; [by apply Hempty|done].
Qed.

Lemma outer_same_trans c1 c2 c3 : outer_same c1 c2 -> outer_same c2 c3 -> outer_same c1 c3.
Proof. unfold outer_same. intuition congruence. Qed.

Lemma fold_delete {V} (m : gmap string V) l rid : foldr delete m l !! rid = if decide (rid ∈ l) then None else m !! rid.
Proof.
  induction l as [|r l IH]; simpl; [done|]. destruct (decide (r = rid)) as [->|Hne].
  - rewrite lookup_delete_eq, decide_True; [done|left].
  - rewrite lookup_delete_ne, IH by done. repeat case_decide; set_solver.
Qed.

Lemma connector_output_wp c co : conn_inv c ->
  wp (update_connector_output hash_order co) (fun _ c' => conn_inv c' /\ outer_same c c' /\ oc_reqs_to_load c' = oc_reqs_to_load c
    /\ (forall r, oc_reqs_being_stored c' !! r = if decide (r ∈ default [] (co_finished_sending co)) then None else oc_reqs_being_stored c !! r)
    /\ (forall r, oc_reqs_being_loaded c' !! r = if decide (r ∈ default [] (co_finished_recving co)) then None else oc_reqs_being_loaded c !! r)) c.
Proof.
  intros Hc. unfold update_connector_output. apply wp_bind.
  eapply (wp_forM_ (fun d t c' => conn_inv c' /\ outer_same c c' /\ oc_reqs_to_load c' = oc_reqs_to_load c
    /\ oc_reqs_being_loaded c' = oc_reqs_being_loaded c /\ oc_reqs_being_stored c' = foldr delete (oc_reqs_being_stored c) (reverse d)) _ []).
  - by split_and!.
  - intros d rid t c' (Hc' & Ho & H1 & H2 & H3). eapply wp_mono; [by apply sent_wp|]. intros [] c'' (? & ? & ? & ? & Hd).
    split; [done|]. split; [by eapply outer_same_trans|]. split_and!; [congruence..|]. by rewrite Hd, H3, reverse_snoc.
  - intros c1 (Hc1 & Ho1 & Hl1 & Hbl1 & Hbs1).
    eapply (wp_forM_ (fun d t c' => conn_inv c' /\ outer_same c c' /\ oc_reqs_to_load c' = oc_reqs_to_load c
      /\ oc_reqs_being_stored c' = oc_reqs_being_stored c1 /\ oc_reqs_being_loaded c' = foldr delete (oc_reqs_being_loaded c) (reverse d)) _ []).
    + by split_and!.
    + intros d rid t c' (Hc' & Ho & H1 & H2 & H3). eapply wp_mono; [by apply received_wp|]. intros [] c'' (? & ? & ? & ? & Hd).
      split; [done|]. split; [by eapply outer_same_trans|]. split_and!; [congruence..|]. by rewrite Hd, H3, reverse_snoc.
    + intros c2 (Hc2 & Ho2 & Hl2 & Hbs2 & Hbl2). split_and!; try done.
      * intros r. rewrite Hbs2, Hbs1, fold_delete. repeat case_decide; set_solver.
      * intros r. rewrite Hbl2, fold_delete. repeat case_decide; set_solver.
Qed.
End Conn.
