(* ===== verification/OffloadConnectorStore.v ===== *)
(** The stores of the offloading connector: which GPU blocks go to which slots, and
    the methods that build the metadata of a step. *)
From S2P Require Import Prelude PyDict Request FreeQueue SchedState.
From S2P Require Import OffloadPolicyLemmas OffloadManager OffloadLaws OffloadConnector OffloadTransfer OffloadTransferSpec.
From S2P Require Import OffloadConnectorLemmas.
Local Open Scope Z_scope.
Import Connector.

Lemma od_set_keys_nodup {V} (k : string) (v : V) d : NoDup (od_keys d) -> NoDup (od_keys (od_set k v d)).
Proof.
  intros Hnd. destruct (od_lookup k d) eqn:E; [rewrite od_set_keys; [done|by eexists]|]. apply od_lookup_None in E as Hk.
  rewrite od_set_new by done. unfold od_keys. rewrite map_app. simpl. rewrite <-Permutation_cons_append. by constructor.
Qed.

(** ** Source blocks *)

Definition block_id_at (ids : list Z) (p : Z) : Z := default 0 (ids !! Z.to_nat p).

Lemma get_blocks_ok ids g l : (forall i, i ∈ l -> 0 <= g + i < zlen ids) ->
  foldr (fun i acc => x ← py_get ids (g + i) ; l ← acc ; Ok (x :: l)) (Ok []) l = Ok (map (fun i => block_id_at ids (g + i)) l).
Proof.
  induction l as [|i l IH]; intros Hl; [done|]. cbn [foldr map]. rewrite IH by (intros j Hj; apply Hl; by right).
  specialize (Hl i ltac:(left)). rewrite py_get_nonneg by lia. unfold block_id_at.
  destruct (lookup_lt_is_Some_2 ids (Z.to_nat (g + i))) as [x Hx]; [unfold zlen in *; lia|]. rewrite Hx. done.
Qed.

(** The numbers of the offloaded blocks that are stored. *)
Fixpoint stored_positions (to_store : list bytes) (idx : Z) (hs : list bytes) : list Z :=
  match hs with
  | [] => []
  | h :: hs' => if decide (h ∈ to_store) then idx :: stored_positions to_store (idx + 1) hs' else stored_positions to_store (idx + 1) hs'
  end.

Lemma stored_positions_spec to_store hs : forall idx, Forall2 (fun h p => idx <= p /\ hs !! Z.to_nat (p - idx) = Some h)
  (filter (fun h => h ∈ to_store) hs) (stored_positions to_store idx hs).
Proof.
  induction hs as [|h hs IH]; intros idx; simpl; [constructor|]. rewrite filter_cons.
  assert (Htail : Forall2 (fun h0 p => idx <= p /\ (h :: hs) !! Z.to_nat (p - idx) = Some h0) (filter (fun h => h ∈ to_store) hs) (stored_positions to_store (idx + 1) hs)).
  { eapply Forall2_impl; [apply IH|]. intros x p [Hp Hx]. split; [lia|]. replace (Z.to_nat (p - idx)) with (S (Z.to_nat (p - (idx + 1)))) by lia. done. }
  case_decide; [|done]. constructor; [|done]. split; [lia|]. by rewrite Z.sub_diag.
Qed.

Lemma src_block_ids_ok {T} (c : OffloadingConnectorScheduler T) ids to_store hs : forall idx, 0 < oc_block_size_factor c -> 0 <= idx ->
  (idx + zlen hs) * oc_block_size_factor c <= zlen ids ->
  src_block_ids c ids to_store idx hs = Ok (map (block_id_at ids) (sub_blocks (oc_block_size_factor c) (stored_positions to_store idx hs))).
Proof.
  induction hs as [|h hs IH]; intros idx Hf Hidx Hlen; [done|]. rewrite zlen_cons in Hlen. pose proof (zlen_nonneg hs) as Hn. cbn [src_block_ids stored_positions].
  case_bool_decide as Hin; [rewrite decide_True by done|rewrite decide_False by done; apply IH; lia].
  rewrite get_blocks_ok by (intros i [? ?]%elem_of_zrange; nia). rewrite IH by lia.
  cbn [mbind]. unfold mbind, res_bind. unfold sub_blocks. cbn [flat_map]. rewrite map_app, map_map. done.
Qed.

Lemma src_block_ids_factor {T} (c c' : OffloadingConnectorScheduler T) ids to_store hs : oc_block_size_factor c = oc_block_size_factor c' ->
  forall idx, src_block_ids c ids to_store idx hs = src_block_ids c' ids to_store idx hs.
Proof. intros Hf. induction hs as [|h hs IH]; intros idx; [done|]. cbn [src_block_ids]. by rewrite Hf, IH. Qed.

Lemma filter_sublist (l k : list bytes) : NoDup k -> l `sublist_of` k -> filter (fun h => h ∈ l) k = l.
Proof.
  intros Hnd Hsub. revert Hnd. induction Hsub as [|x l k Hsub IH|x l k Hsub IH]; intros Hnd; [done| |].
  - apply NoDup_cons in Hnd as [Hx Hnd]. rewrite filter_cons_True by left. f_equal. etrans; [|exact (IH Hnd)].
    apply filter_ext_in. intros y Hy. rewrite elem_of_cons. split; [|by right]. intros [->|]; [done|done].
  - apply NoDup_cons in Hnd as [Hx Hnd]. rewrite filter_cons_False; [by apply IH|]. intros Hin. apply Hx. eapply sublist_subseteq; [done|exact Hin].
Qed.

(** ** One request *)

Section Store.
Context {T : Type} `{OffloadingManagerLaws T inv readable slot}.
Implicit Types c : OffloadingConnectorScheduler T.
Local Abbreviation conn_inv := (conn_inv (inv:=inv) (readable:=readable) (slot:=slot)).

(** Where a store copies: GPU block number [p] of the request to sub-block
    [p mod factor] of the slot of its offloaded block [p / factor]. *)
Definition store_copies c (req : Request) (ids : list Z) (to_store : list bytes) (start num : Z) (pairs : list (Z * Z)) : Prop :=
  let f := oc_block_size_factor c in
  forall src dst, (src, dst) ∈ pairs <-> exists p h i, start * f <= p < num * f /\ ids !! Z.to_nat p = Some src
    /\ offl c req !! Z.to_nat (p / f) = Some h /\ h ∈ to_store /\ slot (oc_manager c) h = Some i /\ dst = i * f + p mod f.

Lemma store_pairs c req ids to_store dst_ids start num : conn_inv c -> NoDup (block_hashes req) -> 0 <= start <= num ->
  num * oc_block_size_factor c <= zlen ids -> num <= zlen (offl c req) ->
  to_store `sublist_of` segment (offl c req) start num ->
  Forall2 (fun h i => slot (oc_manager c) h = Some i /\ readable (oc_manager c) h = false) to_store dst_ids ->
  exists src, src_block_ids c ids to_store start (segment (offl c req) start num) = Ok src
    /\ exists pairs, src_to_dst 1 (oc_block_size_factor c) src dst_ids = Ok pairs /\ store_copies c req ids to_store start num pairs.
Proof.
  intros Hc Hnd Hse Hids Hnum Hsub Hslots. set (f := oc_block_size_factor c) in *. assert (Hf : 0 < f) by apply Hc.
  set (hs := segment (offl c req) start num) in *. assert (Hlen : zlen hs = num - start) by (by apply zlen_segment).
  assert (Hndhs : NoDup hs) by (eapply sublist_NoDup; [exact (NoDup_offloaded _ Hf _ Hnd)|apply segment_sublist]).
  assert (Hndts : NoDup to_store) by (by eapply sublist_NoDup).
  set (ps := stored_positions to_store start hs). pose proof (stored_positions_spec to_store hs start) as Hps.
  rewrite (filter_sublist to_store hs Hndhs Hsub) in Hps. fold ps in Hps.
  assert (Hpl : length ps = length dst_ids) by (by rewrite <-(Forall2_length _ _ _ Hps), (Forall2_length _ _ _ Hslots)).
  eexists. split; [apply src_block_ids_ok; [done|lia|fold f; rewrite Hlen; nia]|]. fold f ps.
  eexists. split; [apply src_to_dst_ok; [lia|done|]; rewrite Z.mod_1_r, zlen_map, zlen_sub_blocks by done; unfold zlen; nia|].
  rewrite Z.mod_1_r. change (Z.to_nat 0) with 0%nat. rewrite drop_0.
  rewrite sub_blocks_1. unfold store_copies. fold f. intros s d.
  assert (Hpos : forall (k : nat) p, ps !! k = Some p -> exists h i, to_store !! k = Some h /\ dst_ids !! k = Some i
    /\ start <= p < num /\ offl c req !! Z.to_nat p = Some h /\ slot (oc_manager c) h = Some i).
  { intros k p Hk. destruct (Forall2_lookup_r _ _ _ _ _ Hps Hk) as (h & Hh & Hp & Hhp).
    destruct (Forall2_lookup_l _ _ _ _ _ Hslots Hh) as (i & Hi & Hsi & _). exists h, i.
    unfold hs in Hhp. rewrite lookup_segment in Hhp by lia. case_decide; [|done].
    replace (Z.to_nat (start + Z.of_nat (Z.to_nat (p - start)))) with (Z.to_nat p) in Hhp by lia. split_and!; try done. lia. }
  rewrite list_elem_of_lookup. split.
  - intros (q & Hq). apply lookup_zip_Some in Hq as [Hs Hd]. rewrite lookup_sub_blocks in Hd by done.
    change (map (block_id_at ids)) with (fmap (M:=list) (block_id_at ids)) in Hs. rewrite list_lookup_fmap, lookup_sub_blocks in Hs by done.
    apply fmap_Some in Hs as (x & (b & Hb & ->)%fmap_Some & ->). apply fmap_Some in Hd as (i & Hi & ->).
    destruct (Hpos _ _ Hb) as (h & i' & Hh & Hi' & Hbr & Hoff & Hsl). rewrite Hi in Hi'. injection Hi' as <-.
    pose proof (Z.mod_pos_bound (Z.of_nat q) f Hf). exists (b * f + Z.of_nat q mod f), h, i.
    assert (Hdiv : (b * f + Z.of_nat q mod f) / f = b) by (symmetry; apply (Z.div_unique_pos _ _ _ (Z.of_nat q mod f)); lia).
    assert (Hmod : (b * f + Z.of_nat q mod f) mod f = Z.of_nat q mod f) by (symmetry; apply (Z.mod_unique_pos _ _ b); lia).
    rewrite Hdiv, Hmod. split; [nia|]. split_and!; try done; [|by eapply list_elem_of_lookup_2].
    unfold block_id_at. destruct (lookup_lt_is_Some_2 ids (Z.to_nat (b * f + Z.of_nat q mod f))) as [y Hy]; [unfold zlen in *; nia|]. by rewrite Hy.
  - intros (p & h & i & Hp & Hs & Hoff & Hin & Hsl & ->). apply list_elem_of_lookup in Hin as [k Hk].
    destruct (Forall2_lookup_l _ _ _ _ _ Hps Hk) as (b & Hb & _). destruct (Hpos _ _ Hb) as (h' & i' & Hh' & Hi' & Hbr & Hoff' & Hsl').
    rewrite Hk in Hh'. injection Hh' as <-. rewrite Hsl in Hsl'. injection Hsl' as <-.
    assert (Hpf : p / f = b).
    { pose proof (NoDup_lookup _ _ _ _ (NoDup_offloaded _ Hf _ Hnd) Hoff Hoff'). assert (0 <= p / f) by (apply Z.div_pos; nia). lia. }
    pose proof (Z.div_mod p f ltac:(lia)) as Hdm. pose proof (Z.mod_pos_bound p f Hf) as Hmb. rewrite Hpf in Hdm.
    set (q := Z.to_nat (Z.of_nat k * f + p mod f)). exists q.
    assert (Hq : Z.of_nat q = Z.of_nat k * f + p mod f) by (unfold q; nia).
    assert (Hqd : Z.of_nat q / f = Z.of_nat k) by (symmetry; apply (Z.div_unique_pos _ _ _ (p mod f)); lia).
    assert (Hqm : Z.of_nat q mod f = p mod f) by (symmetry; apply (Z.mod_unique_pos _ _ (Z.of_nat k)); lia).
    apply lookup_zip_Some. rewrite lookup_sub_blocks by done. change (map (block_id_at ids)) with (fmap (M:=list) (block_id_at ids)).
    rewrite list_lookup_fmap, lookup_sub_blocks, Hqd, Hqm, Nat2Z.id, Hb, Hi' by done. simpl. split; [|done].
    f_equal. unfold block_id_at. replace (b * f + p mod f) with p by lia. by rewrite Hs.
Qed.

Lemma all_of_union m rid ts : NoDup ts -> (forall h, h ∈ ts -> h ∉ default ∅ (m !! rid)) ->
  all_of (<[rid := default ∅ (m !! rid) ∪ list_to_set ts]> m) ≡ₚ ts ++ all_of m.
Proof.
  intros Hnd Hdis. rewrite all_of_update, (all_of_default m rid), app_assoc. f_equiv. rewrite elements_disj_union by set_solver.
  rewrite elements_list_to_set by done. apply Permutation_app_comm.
Qed.

(** What [prepare_store] leaves in place for the blocks [ts] it accepted. *)
Record accepted (t t' : T) (ts evicted : list bytes) : Prop := {
  ac_new : forall h, h ∈ ts -> slot t h = None;
  ac_slots : forall h, h ∈ ts -> is_Some (slot t' h) /\ readable t' h = false;
  ac_others : forall h, h ∉ ts -> h ∉ evicted -> readable t' h = readable t h /\ slot t' h = slot t h;
  ac_evicted : forall h, h ∈ evicted -> readable t h = true /\ slot t' h = None
}.

Lemma accepted_inv c t ts evicted m' : conn_inv c -> inv t (all_of (oc_reqs_being_loaded c)) -> NoDup ts ->
  accepted (oc_manager c) t ts evicted -> all_of m' ≡ₚ ts ++ all_of (oc_reqs_being_stored c) ->
  conn_inv (oc_set_being_stored m' (oc_set_manager t c)).
Proof.
  intros [Hg Hf Ho Hm Ht Hst Hu Hn Hd] Hi Hnd [Hnew Hslots Hothers Hev] Hall. split; simpl; try done.
  - rewrite Hall. apply NoDup_app. split; [done|]. split; [|done]. intros h Hh [Hs _]%Hu. rewrite Hnew in Hs by done. by destruct Hs.
  - intros h. rewrite Hall, elem_of_app, Hu. destruct (decide (h ∈ ts)) as [Hts|Hts].
    { split; [intros _; by apply Hslots|intros _; by left]. }
    destruct (decide (h ∈ evicted)) as [He|He].
    + destruct (Hev h He) as [Hr Hs]. rewrite Hr, Hs. split; [intros [?|[_ ?]]; done|]. intros [[? ?] _]. done.
    + destruct (Hothers h Hts He) as [-> ->]. tauto.
Qed.

(** The GPU blocks of a request once the blocks of this step are added. *)
Definition blocks_after c (rid : string) (groups : option (list (list Z))) (preempted : bool) : list Z :=
  (if preempted then [] else default [] (oc_request_block_ids c !! rid)) ++ match groups with Some (g :: _) => g | _ => [] end.

(** A scheduled request has an object, its hashes, and a GPU block for every token
    the step computes. *)
Record store_ready (reqs : gmap string Request) (so : SchedulerOutput) c rid groups preempted req new_tokens : Prop := {
  sr_known : rid ∈ oc_requests c;
  sr_req : reqs !! rid = Some req;
  sr_tokens : od_lookup rid (so_num_scheduled_tokens so) = Some new_tokens;
  sr_nonneg : 0 <= num_computed_tokens req + new_tokens;
  sr_hashed : hashed c req;
  sr_blocks : Z.min (num_computed_tokens req + new_tokens) (num_tokens req) / oc_offloaded_block_size c * oc_block_size_factor c
    <= zlen (blocks_after c rid groups preempted)
}.

Lemma add_blocks_wp c rid groups preempted : conn_inv c -> rid ∈ oc_requests c ->
  wp (when preempted (modify (fun c => oc_set_request_block_ids (<[rid := []]> (oc_request_block_ids c)) c)) ;;
      match groups with
      | Some ((_ :: _) as groups) =>
          new_block_ids ← lift_res (py_get groups 0) ;
          c ← gets id ;
          ids ← lift_opt KeyError (oc_request_block_ids c !! rid) ;
          modify (fun c => oc_set_request_block_ids (<[rid := ids ++ new_block_ids]> (oc_request_block_ids c)) c)
      | _ => mret tt
      end)
    (fun _ c' => conn_inv c' /\ c' = oc_set_request_block_ids (<[rid := blocks_after c rid groups preempted]> (oc_request_block_ids c)) c) c.
Proof.
  intros Hc Hrid. pose proof (proj2 (ci_dom c Hc rid) Hrid) as [ids Hids].
  assert (Hinv : forall l, conn_inv (oc_set_request_block_ids (<[rid := l]> (oc_request_block_ids c)) c)).
  { intros l. destruct Hc as [Hg Hf Ho Hm Ht Hst Hu Hn Hd]. split; simpl; try done. intros r. rewrite lookup_insert_is_Some, Hd.
    split; [intros [<-|[_ ?]]; done|]. destruct (decide (rid = r)); [by left|by right]. }
  unfold blocks_after. rewrite Hids. simpl. apply wp_bind. apply wp_when; intros Hp; rewrite Hp.
  - destruct groups as [[|g gs]|]; [apply wp_ret; by split|
      |apply wp_ret; by split].
    apply wp_bind. eapply wp_lift_res; [reflexivity|]. apply wp_bind, wp_gets. cbn [id]. apply wp_bind. eapply wp_lift_opt; [apply lookup_insert_eq|].
    apply wp_modify. simpl. rewrite insert_insert_eq. split; [apply (Hinv g)|done].
  - destruct groups as [[|g gs]|]; [apply wp_ret; rewrite app_nil_r, insert_id by done; destruct c; by split| |apply wp_ret; rewrite app_nil_r, insert_id by done; destruct c; by split].
    apply wp_bind. eapply wp_lift_res; [reflexivity|]. apply wp_bind, wp_gets. cbn [id]. apply wp_bind. eapply wp_lift_opt; [exact Hids|].
    apply wp_modify. split; [apply Hinv|done].
Qed.

Lemma set_next_inv c rid num : conn_inv c -> 0 <= num -> conn_inv (oc_set_next_stored (<[rid := num]> (oc_next_stored_block_idx c)) c).
Proof.
  intros [Hg Hf Ho Hm Ht Hst Hu Hn Hd] Hnum. split; simpl; try done. intros r i. destruct (decide (r = rid)) as [->|Hne]; [rewrite lookup_insert_eq; by intros [= <-]|].
  rewrite lookup_insert_ne by done. apply Hn.
Qed.

(** What a step leaves alone, of the other requests and of the loads. *)
Record store_frame rid c c' : Prop := {
  sf_outer : oc_gpu_block_size c' = oc_gpu_block_size c /\ oc_offloaded_block_size c' = oc_offloaded_block_size c
    /\ oc_block_size_factor c' = oc_block_size_factor c /\ oc_requests c' = oc_requests c;
  sf_loads : oc_reqs_to_load c' = oc_reqs_to_load c /\ oc_reqs_being_loaded c' = oc_reqs_being_loaded c
    /\ oc_blocks_being_loaded c' = oc_blocks_being_loaded c;
  sf_others : forall r, r <> rid -> oc_request_block_ids c' !! r = oc_request_block_ids c !! r
    /\ oc_next_stored_block_idx c' !! r = oc_next_stored_block_idx c !! r /\ oc_reqs_being_stored c' !! r = oc_reqs_being_stored c !! r;
  sf_slots : forall h, is_Some (slot (oc_manager c) h) -> readable (oc_manager c) h = false -> slot (oc_manager c') h = slot (oc_manager c) h
}.

(** A store begun for request [rid]: new slots, the copies into them, the blocks
    recorded as being stored. *)
Definition store_begun c c' rid req ids (acc out : list (string * StoreTransfer)) : Prop :=
  exists spec ts start num pairs, out = od_set rid spec acc /\ ts <> [] /\ NoDup ts
    /\ (forall h, h ∈ ts -> slot (oc_manager c) h = None /\ readable (oc_manager c') h = false)
    /\ src_to_dst 1 (oc_block_size_factor c') (gpu_block_ids spec.1) (cpu_block_ids spec.2) = Ok pairs
    /\ store_copies c' req ids ts start num pairs
    /\ oc_reqs_being_stored c' = <[rid := default ∅ (oc_reqs_being_stored c !! rid) ∪ list_to_set ts]> (oc_reqs_being_stored c).

Definition store_post c rid req ids acc (out : list (string * StoreTransfer)) c' : Prop :=
  conn_inv c' /\ store_frame rid c c' /\ oc_request_block_ids c' = <[rid := ids]> (oc_request_block_ids c)
  /\ ((out = acc /\ oc_reqs_being_stored c' = oc_reqs_being_stored c) \/ store_begun c c' rid req ids acc out).

(** From the call of [prepare_store] on. *)
Lemma prepare_wp c rid req ids acc start num : conn_inv c -> hashed c req -> oc_request_block_ids c !! rid = Some ids ->
  0 <= start -> start < num -> num <= zlen (offl c req) -> num * oc_block_size_factor c <= zlen ids ->
  wp (store_output ← on_manager (om_prepare_store (segment (offl c req) start num)) ;
      match store_output with
      | None => mret acc
      | Some out =>
          modify (fun c => oc_set_next_stored (<[rid := num]> (oc_next_stored_block_idx c)) c) ;;
          match block_hashes_to_store out with
          | [] => mret acc
          | to_store =>
              hashes ← lift_res (get_block_hashes c req 0 (Some num)) ;
              on_manager (om_touch hashes) ;;
              ids ← lift_res (src_block_ids c ids to_store start (segment (offl c req) start num)) ;
              src_spec ← lift_res (gpu_load_store_spec ids [zlen ids] None) ;
              modify (fun c => oc_set_being_stored
                (<[rid := default ∅ (oc_reqs_being_stored c !! rid) ∪ list_to_set to_store]> (oc_reqs_being_stored c)) c) ;;
              mret (od_set rid (src_spec, store_spec out) acc)
          end
      end) (store_post c rid req ids acc) c.
Proof.
  intros Hc [_ Hndh] Hids Hst Hlt Hnum Hcover.
  assert (Hnd : NoDup (segment (offl c req) start num)) by (eapply sublist_NoDup; [exact (NoDup_offloaded _ (ci_factor c Hc) _ Hndh)|apply segment_sublist]).
  apply wp_bind. eapply wp_mono; [apply on_manager_wp, (ml_prepare_store _ (all_of (oc_reqs_being_loaded c))); [apply Hc|exact Hnd]|].
  intros [out|] c1 [(Hi1 & Hout) Heq1].
  2: { apply wp_ret. split; [|split; [|split]].
       - rewrite Heq1. apply conn_inv_manager; [done|done|]. split; intros h; apply Hout.
       - rewrite Heq1. split; try done. intros h _ _. apply Hout.
       - rewrite Heq1. by rewrite insert_id. 
       - left. by rewrite Heq1. }
  destruct Hout as (Hsub & Hnew & Hslots & Hothers & Hev).
  apply wp_bind, wp_modify. rewrite Heq1. simpl. set (t1 := oc_manager c1) in *. clear Heq1.
  assert (Hndts : NoDup (block_hashes_to_store out)) by (by eapply sublist_NoDup).
  destruct (block_hashes_to_store out) as [|h0 ts0] eqn:Ets.
  { apply wp_ret. assert (Hacc : accepted (oc_manager c) t1 [] (block_hashes_evicted out)).
    { split; try (by intros h Hh; apply elem_of_nil in Hh); [exact Hothers|intros h Hh; apply (Hev h Hh)]. }
    split; [|split; [|split; [|left; by split]]].
    - exact (set_next_inv _ rid num (accepted_inv c t1 [] _ (oc_reqs_being_stored c) Hc Hi1 (NoDup_nil_2) Hacc (Permutation_refl _)) ltac:(lia)).
    - split; try done; [intros r Hr; simpl; by rewrite lookup_insert_ne|]. intros h _ Hr. simpl. apply Hothers; [apply not_elem_of_nil|].
      intros Hh. destruct (Hev h Hh) as (_ & ? & _). congruence.
    - simpl. by rewrite insert_id. }
  set (ts := h0 :: ts0) in *.
  apply wp_bind. eapply wp_lift_res; [apply get_block_hashes_to; [apply Hc|done|lia]|].
  apply wp_bind. eapply wp_mono; [apply on_manager_wp, (ml_touch _ (all_of (oc_reqs_being_loaded c))), Hi1|].
  intros [] c2 [(Hi2 & Hvr & Hvs) Heq2]. simpl in Hvr, Hvs. rewrite Heq2. simpl. set (t2 := oc_manager c2) in *. clear Heq2.
  assert (Hacc : accepted (oc_manager c) t2 ts (block_hashes_evicted out)).
  { split; [done| | |].
    - intros h Hh. rewrite Hvr, Hvs. apply list_elem_of_lookup in Hh as [k Hk]. destruct (Forall2_lookup_l _ _ _ _ _ Hslots Hk) as (i & _ & -> & ->). by eexists.
    - intros h Hh1 Hh2. rewrite Hvr, Hvs. by apply Hothers.
    - intros h Hh. rewrite Hvs. apply (Hev h Hh). }
  assert (Hdis : forall h, h ∈ ts -> h ∉ default ∅ (oc_reqs_being_stored c !! rid)).
  { intros h Hh Hin. assert (Hall : h ∈ all_of (oc_reqs_being_stored c)).
    { rewrite (all_of_default _ rid). apply elem_of_app. left. by apply elem_of_elements. }
    apply (ci_unreadable c Hc) in Hall as [Hs _]. rewrite (Hnew h Hh) in Hs. by destruct Hs. }
  set (m' := <[rid := default ∅ (oc_reqs_being_stored c !! rid) ∪ list_to_set ts]> (oc_reqs_being_stored c)).
  assert (Hfin : conn_inv (oc_set_next_stored (<[rid := num]> (oc_next_stored_block_idx c)) (oc_set_being_stored m' (oc_set_manager t2 c)))).
  { exact (set_next_inv _ rid num (accepted_inv c t2 ts _ m' Hc Hi2 Hndts Hacc (all_of_union _ rid ts Hndts Hdis)) ltac:(lia)). }
  destruct (store_pairs _ req ids ts (cpu_block_ids (store_spec out)) start num Hfin Hndh) as (src & Hsrc & pairs & Hpairs & Hcopies); try done; [lia| |].
  { simpl. eapply Forall2_impl; [exact Hslots|]. intros h i. by rewrite Hvr, Hvs. }
  apply wp_bind. rewrite (src_block_ids_factor _ c) in Hsrc by done. eapply wp_lift_res; [exact Hsrc|]. apply wp_bind. eapply wp_lift_res.
  { unfold gpu_load_store_spec. simpl. rewrite (proj2 (Z.eqb_eq _ _)) by lia. reflexivity. }
  apply wp_bind, wp_modify, wp_ret. split; [exact Hfin|]. split; [|split; [simpl; by rewrite insert_id|right]].
  - split; try done; [intros r Hr; simpl; by rewrite !lookup_insert_ne|]. intros h Hs Hr. simpl. apply (ac_others _ _ _ _ Hacc).
    + intros Hh. rewrite (Hnew h Hh) in Hs. by destruct Hs.
    + intros Hh. destruct (Hev h Hh) as (_ & ? & _). congruence.
  - eexists _, ts, start, num, pairs. split; [reflexivity|]. split; [done|]. split; [done|]. split; [|done].
    intros h Hh. split; [by apply Hnew|]. simpl. by apply (ac_slots _ _ _ _ Hacc).
Qed.

Lemma wp_seq2 {S A B C} (m1 : M S A) (m2 : M S B) (k : B -> M S C) (Q' : B -> S -> Prop) Q s :
  wp (m1 ;; m2) Q' s -> (forall b s', Q' b s' -> wp (k b) Q s') -> wp (m1 ;; (m2 ≫= k)) Q s.
Proof.
  unfold wp, mbind, M_bind. destruct (m1 s) as [[a|e] s1]; [|done]. destruct (m2 s1) as [[b|e] s2]; [|done]. intros HQ Hk. by apply Hk.
Qed.

Lemma get_req_to_store_wp reqs so c rid groups preempted req n acc : conn_inv c -> store_ready reqs so c rid groups preempted req n ->
  wp (get_req_to_store reqs so acc (rid, groups, preempted)) (store_post c rid req (blocks_after c rid groups preempted) acc) c.
Proof.
  intros Hc [Hk Hreq Htok Hpos Hh Hcover]. unfold get_req_to_store. set (ids := blocks_after c rid groups preempted) in *.
  eapply wp_seq2; [exact (add_blocks_wp c rid groups preempted Hc Hk)|]. intros [] c1 [Hc1 Heq]. fold ids in Heq.
  assert (Hids : oc_request_block_ids c1 !! rid = Some ids) by (rewrite Heq; apply lookup_insert_eq).
  assert (Hk1 : rid ∈ oc_requests c1) by (by rewrite Heq). assert (Hh1 : hashed c1 req) by (by rewrite Heq).
  assert (Hframe : forall out c', store_post c1 rid req ids acc out c' -> store_post c rid req ids acc out c').
  { intros out c' (H1 & [F1 F2 F3 F4] & H3 & H4). rewrite Heq in F1, F2, F4, H3, H4. simpl in F1, F2, F4, H3, H4. rewrite insert_insert_eq in H3.
    split; [done|]. split; [|split; [done|]].
    - split; [done|done| |exact F4]. intros r Hr. specialize (F3 r Hr). rewrite Heq in F3. simpl in F3. by rewrite lookup_insert_ne in F3.
    - destruct H4 as [?|(spec & ts & start & num & pairs & H4)]; [by left|right]. by exists spec, ts, start, num, pairs. }
  eapply wp_mono; [|exact Hframe]. clear Hframe.
  assert (Hcover1 : Z.min (num_computed_tokens req + n) (num_tokens req) / oc_offloaded_block_size c1 * oc_block_size_factor c1 <= zlen ids) by (by rewrite Heq).
  clear Heq Hc Hk Hh Hcover. pose proof (conn_offl_pos c1 Hc1) as Hbs. pose proof (zlen_offl c1 req Hc1 Hh1) as Hoff.
  apply wp_bind, wp_gets. cbn [id]. apply wp_bind. eapply wp_lift_opt; [exact Hids|].
  apply wp_bind. eapply wp_lift_opt; [by rewrite bool_decide_eq_true_2|]. apply wp_bind. eapply wp_lift_opt; [exact Htok|].
  apply wp_bind. eapply wp_lift_res; [by apply py_floordiv_ok|].
  set (total := Z.min (num_computed_tokens req + n) (num_tokens req)) in *. set (num := total / oc_offloaded_block_size c1) in *.
  assert (Hnum : num <= zlen (offl c1 req)) by (rewrite Hoff; apply Z.div_le_mono; lia).
  set (start := default 0 (oc_next_stored_block_idx c1 !! rid)).
  assert (Hstart : 0 <= start) by (unfold start; destruct (oc_next_stored_block_idx c1 !! rid) eqn:E; simpl; [by apply (ci_next c1 Hc1 rid)|lia]).
  destruct (num - start <=? 0) eqn:Hle.
  { apply wp_ret. split; [done|]. split; [by split|]. split; [by rewrite insert_id|by left]. }
  apply wp_bind, wp_assert.
  { apply Z.leb_le. unfold offl in Hnum. rewrite zlen_offloaded in Hnum by apply Hc1.
    pose proof (Z.mul_div_le (zlen (block_hashes req)) (oc_block_size_factor c1) (ci_factor c1 Hc1)). pose proof (ci_factor c1 Hc1). nia. }
  apply wp_bind. eapply wp_lift_res; [apply get_block_hashes_to; [apply Hc1|done|lia]|]. fold (offl c1 req).
  apply (prepare_wp c1 rid req ids acc start num Hc1 Hh1 Hids Hstart); [lia|done|done].
Qed.

(** ** A step *)

Definition build_ready reqs so c : Prop :=
  NoDup (map (fun d => d.1.1) (yield_req_data so)) /\
  forall d, d ∈ yield_req_data so -> exists req n, store_ready reqs so c d.1.1 d.1.2 d.2 req n.

Lemma store_ready_frame reqs so c c' rid r groups preempted req n : r <> rid -> store_frame rid c c' ->
  store_ready reqs so c r groups preempted req n -> store_ready reqs so c' r groups preempted req n.
Proof.
  intros Hne [(Eg & Eo & Ef & Er) _ Hothers] [H1 H2 H3 H4 H5 H6]. destruct (Hothers r Hne) as (Hb & _).
  split; try done; [by rewrite Er|unfold hashed; by rewrite Eg|]. unfold blocks_after in *. by rewrite Hb, Ef, Eo.
Qed.

(** What an entry of the metadata makes the worker copy. *)
Definition copies_of c r req ids (spec : StoreTransfer) : Prop :=
  exists ts start num pairs, ts <> [] /\ NoDup ts /\ (forall h, h ∈ ts -> h ∈ default ∅ (oc_reqs_being_stored c !! r))
    /\ src_to_dst 1 (oc_block_size_factor c) (gpu_block_ids spec.1) (cpu_block_ids spec.2) = Ok pairs
    /\ store_copies c req ids ts start num pairs.

Lemma being_stored_unreadable c r h : conn_inv c -> h ∈ default ∅ (oc_reqs_being_stored c !! r) ->
  is_Some (slot (oc_manager c) h) /\ readable (oc_manager c) h = false.
Proof.
  intros Hc Hh. apply (ci_unreadable c Hc). destruct (oc_reqs_being_stored c !! r) as [s|] eqn:E; [|by apply not_elem_of_empty in Hh].
  apply elem_of_all_of. by exists r, s.
Qed.

Lemma store_copies_frame c c' req ids ts start num pairs : oc_block_size_factor c' = oc_block_size_factor c ->
  (forall h, h ∈ ts -> slot (oc_manager c') h = slot (oc_manager c) h) ->
  store_copies c req ids ts start num pairs -> store_copies c' req ids ts start num pairs.
Proof.
  intros Hf Hs Hc src dst. rewrite (Hc src dst). unfold offl. rewrite Hf.
  split; intros (p & h & i & ? & ? & ? & Hin & Hi & ?); exists p, h, i; by rewrite ?Hs in * by done.
Qed.

Lemma copies_of_frame c c' rid r req ids spec : r <> rid -> conn_inv c -> store_frame rid c c' ->
  copies_of c r req ids spec -> copies_of c' r req ids spec.
Proof.
  intros Hne Hc [(_ & _ & Ef & _) _ Hothers Hslots] (ts & start & num & pairs & H1 & H2 & H3 & H4 & H5).
  exists ts, start, num, pairs. destruct (Hothers r Hne) as (_ & _ & Hst). rewrite Hst, Ef. split_and!; try done.
  eapply store_copies_frame; [done| |exact H5]. intros h Hh. destruct (being_stored_unreadable c r h Hc (H3 h Hh)). by apply Hslots.
Qed.

(** What the stores of a whole step leave: [out] has an entry for exactly the
    requests that have begun a store. *)
Record stores_post (reqs : gmap string Request) c (out : list (string * StoreTransfer)) c' : Prop := {
  so_inv : conn_inv c';
  so_outer : oc_gpu_block_size c' = oc_gpu_block_size c /\ oc_offloaded_block_size c' = oc_offloaded_block_size c
    /\ oc_block_size_factor c' = oc_block_size_factor c /\ oc_requests c' = oc_requests c;
  so_loads : oc_reqs_to_load c' = oc_reqs_to_load c /\ oc_reqs_being_loaded c' = oc_reqs_being_loaded c
    /\ oc_blocks_being_loaded c' = oc_blocks_being_loaded c;
  so_stored : forall r, is_Some (oc_reqs_being_stored c' !! r) <-> is_Some (oc_reqs_being_stored c !! r) \/ r ∈ od_keys out;
  so_nodup : NoDup (od_keys out);
  so_known : forall r, r ∈ od_keys out -> r ∈ oc_requests c;
  so_copies : forall r spec, od_lookup r out = Some spec -> exists req ids, reqs !! r = Some req
    /\ oc_request_block_ids c' !! r = Some ids /\ copies_of c' r req ids spec
}.

Lemma stores_post_step reqs c c1 c2 acc rid req ids out : reqs !! rid = Some req -> (rid ∉ od_keys acc) ->
  rid ∈ oc_requests c1 ->
  stores_post reqs c acc c1 -> store_post c1 rid req ids acc out c2 -> stores_post reqs c out c2.
Proof.
  intros Hreq Hnew Hrid [H1 H2 H3 H4 H6 H7 H5] (S1 & Hframe & Hids & S3). pose proof Hframe as [F1 F2 F3 _].
  assert (Hold : forall r spec, od_lookup r acc = Some spec -> exists req ids, reqs !! r = Some req
    /\ oc_request_block_ids c2 !! r = Some ids /\ copies_of c2 r req ids spec).
  { intros r spec Hr. assert (Hne : r <> rid) by (intros ->; apply Hnew, od_lookup_keys; by eexists).
    destruct (H5 r spec Hr) as (req' & ids' & Hq & Hb & Hcp). exists req', ids'. split; [done|].
    split; [destruct (F3 r Hne) as [-> _]; done|]. by apply (copies_of_frame c1 c2 rid r req' ids' spec). }
  split; [done|intuition congruence|intuition congruence| | | |].
  - intros r. destruct S3 as [[-> ->]|(spec & ts & start & num & pairs & -> & _ & _ & _ & _ & _ & ->)]; [apply H4|].
    rewrite lookup_insert_is_Some, H4, <-!od_lookup_keys, od_lookup_set. destruct (decide (rid = r)) as [->|Hne].
    + rewrite decide_True by done. split; [intros _; right; by eexists|by left].
    + rewrite decide_False by done. split; [intros [?|[_ ?]]; [done|done]|by right].
  - destruct S3 as [[-> _]|(spec & ts & start & num & pairs & -> & _)]; [done|by apply od_set_keys_nodup].
  - destruct H2 as (_ & _ & _ & Er). intros r Hr. destruct S3 as [[-> _]|(spec & ts & start & num & pairs & -> & _)]; [by apply H7|].
    apply od_lookup_keys in Hr. rewrite od_lookup_set in Hr. case_decide as E; [by rewrite <-Er, E|]. by apply H7, od_lookup_keys.
  - destruct S3 as [[-> _]|(spec & ts & start & num & pairs & -> & Hts & Hnd & Hr & Hpairs & Hcp & Hst)]; [exact Hold|].
    intros r spec'. rewrite od_lookup_set. case_decide as E; [|apply Hold]. intros [= <-]. subst r. exists req, ids.
    split; [done|]. split; [by rewrite Hids, lookup_insert_eq|]. exists ts, start, num, pairs. split_and!; try done.
    intros h Hh. rewrite Hst, lookup_insert_eq. simpl. apply elem_of_union. right. by apply elem_of_list_to_set.
Qed.

Lemma store_post_keys c rid req ids acc out c' : store_post c rid req ids acc out c' -> forall r, r ∈ od_keys out -> r = rid \/ r ∈ od_keys acc.
Proof.
  intros (_ & _ & _ & S3) r Hr. destruct S3 as [[-> _]|(spec & ts & start & num & pairs & -> & _)]; [by right|].
  apply od_lookup_keys in Hr. rewrite od_lookup_set in Hr. case_decide; [by left|right]. by apply od_lookup_keys.
Qed.

Lemma get_reqs_to_store_wp reqs so c : conn_inv c -> build_ready reqs so c -> wp (get_reqs_to_store reqs so) (stores_post reqs c) c.
Proof.
  intros Hc [Hnd Hready]. unfold get_reqs_to_store.
  eapply (wp_foldM (fun d t acc c' => stores_post reqs c acc c' /\ NoDup (map (fun d => d.1.1) t)
    /\ (forall x, x ∈ t -> (x.1.1 ∉ od_keys acc) /\ exists req n, store_ready reqs so c' x.1.1 x.1.2 x.2 req n)) _ []).
  - split; [|split; [done|intros x Hx; split; [apply not_elem_of_nil|by apply Hready]]].
    split; try done; [intros r; rewrite elem_of_nil; tauto|apply NoDup_nil_2|by intros r ?%elem_of_nil].
  - intros d [[rid groups] preempted] t acc c1 (Hp & Hndt & Ht). simpl in Hndt. apply NoDup_cons in Hndt as [Hrid Hndt].
    destruct (Ht (rid, groups, preempted) ltac:(left)) as (Hnew & req & n & Hr). simpl in Hnew, Hr.
    eapply wp_mono; [apply (get_req_to_store_wp _ _ _ _ _ _ _ _ acc (so_inv _ _ _ _ Hp) Hr)|].
    intros out c2 Hpost. split; [eapply stores_post_step; [apply Hr|done|apply Hr|done|done]|]. split; [done|]. intros x Hx.
    assert (Hne : x.1.1 <> rid) by (intros Heq; apply Hrid; rewrite <-Heq; by apply (list_elem_of_fmap_2 (fun d => d.1.1))).
    destruct (Ht x ltac:(by right)) as (Hnx & req' & n' & Hr'). split.
    { intros [?|?]%(store_post_keys _ _ _ _ _ _ _ Hpost); done. }
    exists req', n'. destruct Hpost as (_ & Hframe & _). by eapply store_ready_frame.
  - by intros out c' [Hp _].
Qed.

Lemma request_finished_wp c req : conn_inv c ->
  wp (request_finished req) (fun r c' => conn_inv c' /\ r = (bool_decide (is_Some (oc_reqs_being_stored c !! request_id req)), None)
    /\ oc_reqs_to_load c' = oc_reqs_to_load c /\ oc_reqs_being_loaded c' = oc_reqs_being_loaded c /\ oc_reqs_being_stored c' = oc_reqs_being_stored c
    /\ oc_requests c' = oc_requests c ∖ {[request_id req]}) c.
Proof.
  intros [Hg Hf Ho Hm Ht Hst Hu Hn Hd]. unfold request_finished. apply wp_bind, wp_modify, wp_bind, wp_modify, wp_bind, wp_modify, wp_bind, wp_gets, wp_ret.
  cbn [id]. split_and!; try done. split; simpl; try done.
  - intros r i [_ Hr]%lookup_delete_Some. by apply (Hn r).
  - intros r. rewrite elem_of_difference, <-Hd, lookup_delete_is_Some. set_solver.
Qed.

Lemma take_events_wp c : conn_inv c -> wp Connector.take_events (fun _ c' => conn_inv c' /\ c' = oc_set_manager (oc_manager c') c
  /\ same_view (readable:=readable) (slot:=slot) (oc_manager c) (oc_manager c')) c.
Proof.
  intros Hc. apply wp_bind. eapply wp_mono; [apply on_manager_wp, (ml_take_events _ (all_of (oc_reqs_being_loaded c))), Hc|].
  intros evs c' [(Hi & Hv) Heq]. apply wp_ret. split; [|by split]. rewrite Heq. by apply conn_inv_manager.
Qed.

Context (hash_order : gset bytes -> list bytes) (id_order : gset string -> list string).
Context (Hhash : forall s, hash_order s ≡ₚ elements s).

(** Preempted requests: their stores are complete, for the next step begins with
    waiting for them. *)
Lemma flush_wp c rid : conn_inv c ->
  wp (c ← gets id ;
      match oc_reqs_being_stored c !! rid with
      | Some hashes =>
          when (negb (bool_decide (hashes = ∅)))
            (on_manager (om_complete_store (hash_order hashes) true) ;;
             modify (fun c => oc_set_being_stored (<[rid := ∅]> (oc_reqs_being_stored c)) c))
      | None => mret tt
      end)
    (fun _ c' => conn_inv c' /\ outer_same c c' /\ oc_reqs_to_load c' = oc_reqs_to_load c /\ oc_reqs_being_loaded c' = oc_reqs_being_loaded c
       /\ oc_blocks_being_loaded c' = oc_blocks_being_loaded c /\ (forall h, slot (oc_manager c') h = slot (oc_manager c) h)
       /\ forall r, oc_reqs_being_stored c' !! r = if decide (r = rid) then (fun _ => ∅) <$> oc_reqs_being_stored c !! r else oc_reqs_being_stored c !! r) c.
Proof.
  intros Hc. apply wp_bind, wp_gets. cbn [id]. destruct (oc_reqs_being_stored c !! rid) as [s|] eqn:Es.
  2: { apply wp_ret. split_and!; try done. intros r. case_decide; [by subst; rewrite Es|done]. }
  apply wp_when; case_bool_decide as Hs; try done.
  - intros _. apply wp_bind. eapply wp_mono; [apply on_manager_wp, (stores_done hash_order Hhash c rid s Hc Es)|]. intros [] c' [(Hsl & _ & Hinv) ->].
    apply wp_modify. simpl. split; [|split_and!; try done].
    + apply (Hinv (<[rid := ∅]> (oc_reqs_being_stored c))). by rewrite all_of_update, elements_empty.
    + intros r. case_decide as E; [subst; by rewrite lookup_insert_eq, Es|by rewrite lookup_insert_ne].
  - intros _. split_and!; try done. intros r. case_decide; [subst; by rewrite Es|done].
Qed.

Lemma build_connector_meta_wp reqs so c : conn_inv c -> build_ready reqs so c ->
  wp (build_connector_meta hash_order id_order reqs so) (fun meta c' => conn_inv c'
    /\ oc_reqs_to_load c' = [] /\ reqs_to_load meta = oc_reqs_to_load c /\ reqs_to_flush meta = so_preempted_req_ids so
    /\ oc_reqs_being_loaded c' = oc_reqs_being_loaded c /\ oc_requests c' = oc_requests c /\ oc_blocks_being_loaded c' = oc_blocks_being_loaded c
    /\ (forall r, is_Some (oc_reqs_being_stored c' !! r) <-> is_Some (oc_reqs_being_stored c !! r) \/ r ∈ od_keys (reqs_to_store meta))
    /\ NoDup (od_keys (reqs_to_store meta)) /\ oc_block_size_factor c' = oc_block_size_factor c
    /\ (forall r spec, od_lookup r (reqs_to_store meta) = Some spec -> exists req ids ts start num pairs, reqs !! r = Some req
         /\ oc_request_block_ids c' !! r = Some ids /\ ts <> [] /\ NoDup ts
         /\ src_to_dst 1 (oc_block_size_factor c') (gpu_block_ids spec.1) (cpu_block_ids spec.2) = Ok pairs
         /\ store_copies c' req ids ts start num pairs)
    /\ (forall r, r ∈ id_order (default ∅ (so_preempted_req_ids so)) -> default ∅ (oc_reqs_being_stored c' !! r) = ∅)
    /\ (forall r, r ∈ od_keys (reqs_to_store meta) -> r ∈ oc_requests c)) c.
Proof.
  intros Hc Hready. unfold build_connector_meta. apply wp_bind, wp_gets, wp_bind. eapply wp_mono; [by apply get_reqs_to_store_wp|].
  intros out c1 [H1 H2 H3 H4 H6 H7 H5]. apply wp_bind, wp_modify, wp_bind.
  set (c2 := oc_set_reqs_to_load [] c1). assert (Hc2 : conn_inv c2) by (destruct H1; by split).
  eapply (wp_forM_ (fun d t c' => conn_inv c' /\ outer_same c2 c' /\ oc_reqs_to_load c' = [] /\ oc_reqs_being_loaded c' = oc_reqs_being_loaded c
    /\ oc_blocks_being_loaded c' = oc_blocks_being_loaded c /\ (forall h, slot (oc_manager c') h = slot (oc_manager c1) h)
    /\ (forall r, is_Some (oc_reqs_being_stored c' !! r) <-> is_Some (oc_reqs_being_stored c1 !! r))
    /\ (forall r, r ∈ d -> default ∅ (oc_reqs_being_stored c' !! r) = ∅)) _ []).
  - split_and!; try done; [apply H3|apply H3|]. by intros r ?%elem_of_nil.
  - intros d rid t c' (Hc' & Ho & Hl & Hbl & Hb & Hsl & Hs & He). eapply wp_mono; [by apply flush_wp|].
    intros [] c'' (Hc'' & Ho' & Hl' & Hbl' & Hb' & Hsl' & Hs'). split; [done|]. split; [by eapply outer_same_trans|].
    split_and!; [congruence..| | |].
    + intros h. by rewrite Hsl', Hsl.
    + intros r. rewrite Hs', <-Hs. case_decide; [|done]. by rewrite fmap_is_Some.
    + intros r. rewrite Hs'. case_decide as E; [by destruct (oc_reqs_being_stored c' !! r)|].
      intros [Hr| ->%list_elem_of_singleton]%elem_of_app; [by apply He|done].
  - intros c3 (Hc3 & Ho & Hl & Hbl & Hb & Hsl & Hs & He). apply wp_ret. destruct Ho as (_ & _ & Ef & Er & Eb & _). split_and!; try done.
    + rewrite Er. apply H2.
    + intros r. by rewrite Hs, H4.
    + rewrite Ef. apply H2.
    + intros r spec Hr. destruct (H5 r spec Hr) as (req & ids & Hq & Hb' & ts & start & num & pairs & Hts & Hnd & _ & Hpairs & Hcp).
      exists req, ids, ts, start, num, pairs. rewrite Eb, Ef. split_and!; try done. by eapply store_copies_frame.
Qed.

Lemma no_requests_no_stores reqs so c meta c' : yield_req_data so = [] ->
  build_connector_meta hash_order id_order reqs so c = (Ok meta, c') -> reqs_to_store meta = [].
Proof.
  intros Hy. unfold build_connector_meta, get_reqs_to_store. rewrite Hy. unfold mbind, M_bind, gets, modify, mret, M_ret. simpl.
  destruct (forM_ _ _ _) as [[[]|] c1]; [|done]. by intros [= <- _].
Qed.

End Store.
