(* ===== verification/OffloadConnectorSpec.v ===== *)
(** The offloading connector along runs of the calls the scheduler makes: no call
    raises, a load is only of blocks nobody loads or stores, and the copies that
    the metadata describe put every GPU block where its hash says. *)
From S2P Require Import Prelude PyDict Request FreeQueue SchedState.
From S2P Require Import OffloadPolicyLemmas OffloadManager OffloadLaws OffloadConnector OffloadTransfer OffloadTransferSpec.
From S2P Require Import OffloadConnectorLemmas OffloadConnectorStore.
From S2P Require Import Samples.
From S2P Require Import OffloadPolicy OffloadLemmas OffloadRun.
Local Open Scope Z_scope.
Import Connector.

(** ** The scheduler's calls *)

(** [CallMatch] is a waiting request: the match, the allocation of blocks for what
    it offers, if that succeeds, and the notification of the connector. *)
Inductive connector_call :=
  | CallMatch (req : Request) (num_computed_tokens : Z) (allocate : Z -> option (list KVCacheBlock))
  | CallAlloc (req : Request) (blocks : list KVCacheBlock)
  | CallBuild (reqs : gmap string Request) (so : SchedulerOutput)
  | CallOutput (co : KVConnectorOutput)
  | CallFinish (req : Request)
  | CallEvents.

Section Spec.
Context {T : Type} `{OffloadingManagerLaws T inv readable slot}.
Context (hash_order : gset bytes -> list bytes) (id_order : gset string -> list string).
Context (Hhash : forall s, hash_order s ≡ₚ elements s).
Implicit Types c : OffloadingConnectorScheduler T.
Local Abbreviation conn_inv := (conn_inv (inv:=inv) (readable:=readable) (slot:=slot)).

Definition run_call (call : connector_call) : M (OffloadingConnectorScheduler T) unit :=
  match call with
  | CallMatch req n allocate =>
      r ← get_num_new_matched_tokens req n ;
      match r.1 with
      | Some k => match allocate k with Some blocks => update_state_after_alloc req blocks k | None => mret tt end
      | None => mret tt
      end
  | CallAlloc req blocks => update_state_after_alloc req blocks 0
  | CallBuild reqs so => _ ← build_connector_meta hash_order id_order reqs so ; mret tt
  | CallOutput co => update_connector_output hash_order co
  | CallFinish req => _ ← request_finished req ; mret tt
  | CallEvents => _ ← Connector.take_events ; mret tt
  end.

(** What the scheduler guarantees when it makes a call: a request that waits is not
    being loaded and gets blocks for exactly the tokens matched; a request that is
    scheduled has GPU blocks for its tokens. *)
Definition allowed c (call : connector_call) : Prop :=
  match call with
  | CallMatch req n allocate => hashed c req /\ 0 <= n /\ loads_fit c req /\ oc_reqs_being_loaded c !! request_id req = None
      /\ forall k blocks, 0 < k -> allocate k = Some blocks -> blocks_fit c n k blocks
  | CallBuild reqs so => build_ready reqs so c
  | _ => True
  end.

Inductive conn_step : OffloadingConnectorScheduler T -> OffloadingConnectorScheduler T -> Prop :=
  | conn_call c c' call r : allowed c call -> run_call call c = (r, c') -> conn_step c c'.

(** A connector over a new manager. *)
Definition started (gpu_block_sizes : list Z) (factor : Z) (manager : T) (caching : bool) c : Prop :=
  new_connector gpu_block_sizes factor manager caching = Ok c /\ Forall (fun b => 0 < b) gpu_block_sizes /\ 0 < factor
  /\ inv manager [] /\ forall h, slot manager h = None.

Lemma started_inv gs factor t caching c : started gs factor t caching c -> conn_inv c.
Proof.
  intros (Hnew & Hgs & Hf & Hi & Hs). destruct gs as [|g [|]]; try done. injection Hnew as <-. apply Forall_cons in Hgs as [Hg _].
  split; simpl; try done.
  - intros s. destruct caching; [|done]. intros [= <-]. split; [apply NoDup_nil_2|]. intros h. rewrite elem_of_empty. unfold all_of. rewrite map_to_list_empty. simpl. by rewrite elem_of_nil.
  - apply NoDup_nil_2.
  - intros h. unfold all_of. rewrite map_to_list_empty, Hs. simpl. rewrite elem_of_nil. split; [done|]. by intros [[? ?] _].
  - intros r. rewrite lookup_empty. split; [by intros [? ?]|set_solver].
Qed.

Lemma match_call_wp c req n allocate : conn_inv c -> allowed c (CallMatch req n allocate) ->
  wp (run_call (CallMatch req n allocate)) (fun _ c' => conn_inv c') c.
Proof.
  intros Hc (Hh & Hn & Hw & Hnone & Hfit). simpl. apply wp_bind. eapply wp_mono; [by apply matched_wp|].
  intros [[k|] b] c1 (Hc1 & Heq & Hv & Hr); [|by apply wp_ret]. simpl.
  destruct (allocate k) as [blocks|] eqn:Ha; [|by apply wp_ret]. destruct b.
  - destruct Hr as [e He]. assert (Hk : 0 < k) by (pose proof (conn_offl_pos c1 Hc1); destruct He; lia).
    eapply wp_mono; [apply (alloc_load_wp c1 req n k e blocks); try done|].
    + by rewrite Heq.
    + specialize (Hfit k blocks Hk Ha). by rewrite Heq.
    + by rewrite Heq.
    + by rewrite Heq.
    + by intros [] c' [? _].
  - subst k. eapply wp_mono; [by apply alloc_nothing_wp|]. by intros [] c' [? _].
Qed.

Lemma run_call_wp c call : conn_inv c -> allowed c call -> wp (run_call call) (fun _ c' => conn_inv c') c.
Proof.
  intros Hc Ha. destruct call as [req n allocate|req blocks|reqs so|co|req|]; simpl.
  - by apply match_call_wp.
  - eapply wp_mono; [by apply alloc_nothing_wp|]. by intros [] c' [? _].
  - apply wp_bind. eapply wp_mono; [by apply (build_connector_meta_wp hash_order id_order Hhash)|]. intros meta c' [? _]. by apply wp_ret.
  - eapply wp_mono; [by apply (connector_output_wp hash_order Hhash)|]. by intros [] c' [? _].
  - apply wp_bind. eapply wp_mono; [by apply request_finished_wp|]. intros r c' [? _]. by apply wp_ret.
  - apply wp_bind. eapply wp_mono; [by apply take_events_wp|]. intros r c' [? _]. by apply wp_ret.
Qed.

Lemma conn_step_inv c c' : conn_step c c' -> conn_inv c -> conn_inv c'.
Proof.
  intros [c1 c2 call r Ha Hrun] Hc. pose proof (run_call_wp c1 call Hc Ha) as Hw. apply wp_run in Hw as (a & c3 & Hrun' & Hc3).
  rewrite Hrun in Hrun'. by injection Hrun' as _ ->.
Qed.

Lemma conn_run_inv gs factor t caching c0 c : started gs factor t caching c0 -> rtc conn_step c0 c -> conn_inv c.
Proof. intros Hs%started_inv Hrun. induction Hrun; [done|]. by apply IHHrun, (conn_step_inv x). Qed.

(** No call of the connector raises.  Along every run of calls the scheduler
    may make, over any manager that satisfies its contract, each further call
    returns: the assertions on hash lists, block counts and alignment hold, the
    blocks that were matched can be prepared for loading, and the completion of a
    load or store finds every block. *)
Theorem connector_calls_succeed gs factor t caching c0 c call :
  started gs factor t caching c0 -> rtc conn_step c0 c -> allowed c call -> exists c', run_call call c = (Ok tt, c').
Proof.
  intros Hs Hrun Ha. pose proof (conn_run_inv _ _ _ _ _ _ Hs Hrun) as Hc.
  pose proof (run_call_wp c call Hc Ha) as Hw. apply wp_run in Hw as ([] & c' & Hrun' & _). by exists c'.
Qed.

(** C22: loads and stores never meet.  In every reachable state, with GPU prefix
    caching no block is loaded for two requests at once and the set of blocks being
    loaded is exact; every block being loaded is readable and in a slot of its own;
    a block being stored is stored for one request, once, and cannot be read; and
    once no store is under way, every block that has a slot can be read. *)
Theorem connector_loads_exclusive gs factor t caching c0 c :
  started gs factor t caching c0 -> rtc conn_step c0 c ->
  (forall s, oc_blocks_being_loaded c = Some s ->
     NoDup (all_of (oc_reqs_being_loaded c)) /\ forall h, h ∈ s <-> h ∈ all_of (oc_reqs_being_loaded c))
  /\ (forall h, h ∈ all_of (oc_reqs_being_loaded c) -> readable (oc_manager c) h = true /\ (h ∉ all_of (oc_reqs_being_stored c))
       /\ exists i, slot (oc_manager c) h = Some i /\ forall h', slot (oc_manager c) h' = Some i -> h' = h)
  /\ NoDup (all_of (oc_reqs_being_stored c))
  /\ (forall h, h ∈ all_of (oc_reqs_being_stored c) -> readable (oc_manager c) h = false)
  /\ (all_of (oc_reqs_being_stored c) = [] -> forall h, is_Some (slot (oc_manager c) h) -> readable (oc_manager c) h = true).
Proof.
  intros Hs Hrun. pose proof (conn_run_inv _ _ _ _ _ _ Hs Hrun) as [Hg Hf Ho Hm Ht Hst Hu Hn Hd]. split_and!; try done.
  - intros h Hh. pose proof (ml_loads _ _ _ Hm Hh) as Hr. split; [done|]. split; [intros [_ ?]%Hu; congruence|].
    destruct (ml_readable _ _ Hr) as [i Hi]. exists i. split; [done|]. intros h' Hi'. exact (ml_slots _ _ _ _ _ Hm Hi' Hi).
  - intros h [_ ?]%Hu. done.
  - intros Hnil h Hsl. destruct (readable (oc_manager c) h) eqn:E; [done|]. pose proof (proj2 (Hu h) (conj Hsl E)) as Hin.
    rewrite Hnil in Hin. by apply elem_of_nil in Hin.
Qed.

(** ** Where a load copies *)

(** GPU block number [p] of the request, from number [first] on, is filled from
    sub-block [p mod factor] of the slot of its offloaded block [p / factor], which
    can be read. *)
Definition load_copies c (req : Request) (ids : list Z) (first : Z) (pairs : list (Z * Z)) : Prop :=
  let f := oc_block_size_factor c in
  forall src dst, (src, dst) ∈ pairs <-> exists p h i, first <= p < zlen ids /\ ids !! Z.to_nat p = Some dst
    /\ offl c req !! Z.to_nat (p / f) = Some h /\ readable (oc_manager c) h = true /\ slot (oc_manager c) h = Some i /\ src = i * f + p mod f.

Lemma load_pairs c req n k e blocks load : conn_inv c -> 0 <= n -> match_of (readable:=readable) c req n k e -> blocks_fit c n k blocks ->
  load_placed (readable:=readable) (slot:=slot) c req n e blocks load ->
  exists pairs, src_to_dst (oc_block_size_factor c) 1 (cpu_block_ids load.1) (gpu_block_ids load.2) = Ok pairs
    /\ load_copies c req (map block_id blocks) (n / oc_gpu_block_size c) pairs.
Proof.
  intros Hc Hn [Hk Hkb He Hr _] [Hcomp Hblocks] [Hslots _ Hdst]. pose proof (ci_gpu c Hc) as Hg. pose proof (ci_factor c Hc) as Hf.
  pose proof (ci_offl c Hc) as Ho. set (f := oc_block_size_factor c) in *. set (g := oc_gpu_block_size c) in *. rewrite Ho in *.
  set (nc := n / g) in *. set (nb := zlen (filter (fun b => is_Some (block_hash b)) blocks)) in *.
  assert (Hnc : n = nc * g) by (unfold nc; rewrite <-Hcomp, Z_div_mult by lia; done).
  assert (Hnc0 : 0 <= nc) by nia. assert (Hlo : n / (g * f) = nc / f) by (unfold nc; symmetry; apply Z.div_div; lia). rewrite Hlo in *.
  pose proof (Z.div_mod nc f ltac:(lia)) as Hdm. pose proof (Z.mod_pos_bound nc f Hf) as Hmb. assert (Hq0 : 0 <= nc / f) by (apply Z.div_pos; lia).
  assert (Htot : zlen blocks = f * e) by nia. assert (He0 : nc <= f * e) by nia.
  assert (Hids : zlen (map block_id blocks) = f * e) by (by rewrite zlen_map).
  assert (Hlend : zlen (gpu_block_ids load.2) = f * e - nc) by (rewrite Hdst; unfold zlen in *; rewrite length_drop; lia).
  assert (Hlens : zlen (cpu_block_ids load.1) = e - nc / f).
  { unfold zlen. rewrite <-(Forall2_length _ _ _ Hslots). fold (zlen (segment (offl c req) (nc / f) e)). apply zlen_segment; [|done]. split; [done|]. nia. }
  assert (Hskip : (- zlen (gpu_block_ids load.2)) mod f = nc mod f).
  { rewrite Hlend. replace (- (f * e - nc)) with (nc + (- e) * f) by lia. by rewrite Z.mod_add by lia. }
  eexists. split; [apply src_to_dst_ok; [done|lia|]; rewrite Hskip, Hlend, Hlens; nia|].
  rewrite Hskip, sub_blocks_1, Hdst. unfold load_copies. fold f. intros s d.
  assert (Hsrc : forall (p : nat), nc <= Z.of_nat p -> cpu_block_ids load.1 !! Z.to_nat (Z.of_nat p / f - nc / f) =
    match offl c req !! Z.to_nat (Z.of_nat p / f) with Some h => if decide (Z.of_nat p / f < e) then slot (oc_manager c) h else None | None => None end).
  { intros p Hp. assert (nc / f <= Z.of_nat p / f) by (apply Z.div_le_mono; lia).
    pose proof (lookup_segment (offl c req) (nc / f) e (Z.to_nat (Z.of_nat p / f - nc / f)) Hq0) as Hseg.
    replace (Z.to_nat (nc / f + Z.of_nat (Z.to_nat (Z.of_nat p / f - nc / f)))) with (Z.to_nat (Z.of_nat p / f)) in Hseg by lia.
    destruct (decide (Z.of_nat p / f < e)) as [Hlt|Hge]; [rewrite decide_True in Hseg by lia|rewrite decide_False in Hseg by lia].
    - destruct (offl c req !! Z.to_nat (Z.of_nat p / f)) as [h|] eqn:E.
      + destruct (Forall2_lookup_l _ _ _ _ _ Hslots Hseg) as (i & Hi & Hsi). by rewrite Hi, Hsi.
      + apply lookup_ge_None. apply lookup_ge_None in Hseg. by rewrite <-(Forall2_length _ _ _ Hslots).
    - apply lookup_ge_None in Hseg. rewrite (proj2 (lookup_ge_None _ _)); [by destruct (offl c req !! _)|].
      by rewrite <-(Forall2_length _ _ _ Hslots). }
  rewrite list_elem_of_lookup. split.
  - intros (j & Hj). apply lookup_zip_Some in Hj as [Hs Hd]. rewrite lookup_drop, lookup_sub_blocks in Hs by done.
    rewrite lookup_drop in Hd. set (p := (Z.to_nat nc + j)%nat) in *. assert (Hp : Z.of_nat p = nc + Z.of_nat j) by lia.
    replace (Z.of_nat (Z.to_nat (nc mod f) + j)) with (Z.of_nat p + (- (nc / f)) * f) in Hs by lia.
    rewrite Z.div_add, Z.mod_add in Hs by lia. apply fmap_Some in Hs as (i & Hi & ->).
    replace (Z.of_nat p / f + - (nc / f)) with (Z.of_nat p / f - nc / f) in Hi by lia. rewrite Hsrc in Hi by lia.
    destruct (offl c req !! Z.to_nat (Z.of_nat p / f)) as [h|] eqn:Eh; [|done]. case_decide as Hlt; [|done].
    exists (Z.of_nat p), h, i. rewrite Nat2Z.id. apply lookup_lt_Some in Hd as Hdl. split_and!; try done; [lia|unfold zlen; lia|].
    rewrite Forall_lookup in Hr. apply (Hr (Z.to_nat (Z.of_nat p / f - nc / f))).
    rewrite lookup_segment by done. assert (nc / f <= Z.of_nat p / f) by (apply Z.div_le_mono; lia).
    rewrite decide_True by lia. by replace (Z.to_nat (nc / f + Z.of_nat (Z.to_nat (Z.of_nat p / f - nc / f)))) with (Z.to_nat (Z.of_nat p / f)) by lia.
  - intros (p & h & i & Hp & Hd & Hoff & Hrd & Hsl & ->). exists (Z.to_nat (p - nc)). apply lookup_zip_Some.
    rewrite lookup_drop, lookup_sub_blocks, lookup_drop by done.
    replace (Z.to_nat nc + Z.to_nat (p - nc))%nat with (Z.to_nat p) by lia. split; [|done].
    replace (Z.of_nat (Z.to_nat (nc mod f) + Z.to_nat (p - nc))) with (p + (- (nc / f)) * f) by lia. rewrite Z.div_add, Z.mod_add by lia.
    specialize (Hsrc (Z.to_nat p) ltac:(lia)). rewrite Z2Nat.id in Hsrc by lia. replace (p / f + - (nc / f)) with (p / f - nc / f) by lia.
    rewrite Hsrc, Hoff, decide_True, Hsl; [done|]. apply Z.div_lt_upper_bound; lia.
Qed.

(** C21: a load fills each GPU block with its own data.  In a reachable state, when
    the match offers [k] tokens beyond the [n] computed ones and the request gets
    blocks for them, the notification succeeds and records one load; the worker
    accepts its block lists, and the copies it makes are exactly these: every GPU
    block [p] of the request beyond the computed ones is filled from sub-block
    [p mod factor] of the slot that holds its offloaded block [p / factor] - also
    when the computed prefix ends inside an offloaded block. *)
Theorem connector_load_places gs factor t caching c0 c req n k blocks c1 :
  started gs factor t caching c0 -> rtc conn_step c0 c -> hashed c req -> 0 <= n -> loads_fit c req ->
  oc_reqs_being_loaded c !! request_id req = None ->
  get_num_new_matched_tokens req n c = (Ok (Some k, true), c1) -> blocks_fit c n k blocks ->
  exists c2 load pairs, update_state_after_alloc req blocks k c1 = (Ok tt, c2)
    /\ od_lookup (request_id req) (oc_reqs_to_load c2) = Some load
    /\ src_to_dst (oc_block_size_factor c2) 1 (cpu_block_ids load.1) (gpu_block_ids load.2) = Ok pairs
    /\ load_copies c2 req (map block_id blocks) (n / oc_gpu_block_size c2) pairs
    /\ zlen blocks * oc_gpu_block_size c2 = n + k.
Proof.
  intros Hs Hrun Hh Hn Hw Hnone Hmatch Hfit. pose proof (conn_run_inv _ _ _ _ _ _ Hs Hrun) as Hc.
  pose proof (matched_wp c req n Hc Hh Hn) as Hm. unfold wp in Hm. rewrite Hmatch in Hm. destruct Hm as (Hc1 & Heq & _ & e & He).
  assert (Hfit1 : blocks_fit c1 n k blocks) by (by rewrite Heq).
  assert (Halloc : wp (update_state_after_alloc req blocks k) (fun _ c' => conn_inv c' /\ same_view (readable:=readable) (slot:=slot) (oc_manager c1) (oc_manager c') /\ exists load,
      c' = loading (request_id req) (segment (offl c1 req) (n / oc_offloaded_block_size c1) e) load e (oc_manager c') c1
      /\ load_placed (readable:=readable) (slot:=slot) c1 req n e blocks load) c1).
  { apply (alloc_load_wp c1 req n k e blocks); try done; by rewrite Heq. }
  apply wp_run in Halloc as ([] & c2 & Hrun2 & Hc2 & [Hvr Hvs] & load & Heq2 & Hplaced).
  destruct (load_pairs c1 req n k e blocks load Hc1 Hn He Hfit1 Hplaced) as (pairs & Hpairs & Hcopies).
  assert (Ef : oc_block_size_factor c2 = oc_block_size_factor c1) by (by rewrite Heq2).
  assert (Eg : oc_gpu_block_size c2 = oc_gpu_block_size c1) by (by rewrite Heq2).
  exists c2, load, pairs. split; [done|]. rewrite Ef, Eg. split; [rewrite Heq2; simpl; rewrite od_lookup_set; by rewrite decide_True|].
  split; [done|]. split; [|apply Hfit1]. unfold load_copies, offl in *. rewrite Ef. intros src dst. rewrite (Hcopies src dst).
  split; intros (p & h & i & ? & ? & ? & ? & ? & ?); exists p, h, i; by rewrite ?Hvr, ?Hvs in *.
Qed.

(** A store fills each slot with the data of its own hash.  In a reachable
    state, building the metadata of a step succeeds, and every store it contains is
    of a scheduled request: the worker accepts its block lists, and the copies it
    makes are exactly these: every GPU block [p] of the request whose offloaded
    block [p / factor] is one of the blocks stored goes to sub-block [p mod factor]
    of the slot the manager has for that block; blocks already offloaded are left
    out, and no slot changes hands within the step. *)
Theorem connector_store_places gs factor t caching c0 c reqs so :
  started gs factor t caching c0 -> rtc conn_step c0 c -> build_ready reqs so c ->
  exists meta c', build_connector_meta hash_order id_order reqs so c = (Ok meta, c')
    /\ reqs_to_load meta = oc_reqs_to_load c /\ reqs_to_flush meta = so_preempted_req_ids so
    /\ forall r spec, od_lookup r (reqs_to_store meta) = Some spec -> exists req ids ts start num pairs,
         reqs !! r = Some req /\ oc_request_block_ids c' !! r = Some ids /\ ts <> [] /\ NoDup ts
         /\ src_to_dst 1 (oc_block_size_factor c') (gpu_block_ids spec.1) (cpu_block_ids spec.2) = Ok pairs
         /\ store_copies (slot:=slot) c' req ids ts start num pairs.
Proof.
  intros Hs Hrun Hready. pose proof (conn_run_inv _ _ _ _ _ _ Hs Hrun) as Hc.
  pose proof (build_connector_meta_wp hash_order id_order Hhash reqs so c Hc Hready) as Hw.
  apply wp_run in Hw as (meta & c' & Hrun' & _ & _ & Hl & Hf & _ & _ & _ & _ & _ & _ & Hcp & _). by exists meta, c'.
Qed.
End Spec.

(** * A run of the offloading connector over the CPU manager with LRU, on which the
    connector's theorems are applied.

    GPU blocks have two tokens, slots two GPU blocks; there are four slots.  Request
    "a" has eight tokens, whose two offloaded blocks are stored; then "b", with the
    same tokens and one block computed, loads the rest. *)
Local Open Scope Z_scope.
Import Connector.

Definition run_request (id : string) : Request :=
  set_block_hashes (fun _ => [hash_a; hash_b; hash_c; hash_d]) (bare_request id [1; 2; 3; 4; 5; 6; 7; 8]).
Definition run_block (id : Z) (h : option bytes) : KVCacheBlock := FreeQueue.set_hash h (FreeQueue.new_block id).
Definition run_output : SchedulerOutput :=
  mkSchedulerOutput [mkNewRequestData "a" None [] None None (Some [[11; 12; 13; 14]]) 0 None None None] cached_make_empty
    [("a", 8)] 8 [] [] [] None ∅ [] false false None None.

Definition set_order (s : gset bytes) : list bytes := elements s.
Definition string_order (s : gset string) : list string := elements s.
Lemma set_order_ok s : set_order s ≡ₚ elements s.
Proof. done. Qed.

Abbreviation RunState := (OffloadingConnectorScheduler (CPUOffloadingManager AnyPolicy)).
Definition run_start : RunState :=
  match new_connector [2] 2 (sample_manager 4 "lru" (PolicyLRU [])) true with
  | Ok c => c
  | Err _ => mkConnector 0 0 0 (sample_manager 4 "lru" (PolicyLRU [])) ∅ ∅ [] ∅ None ∅ ∅
  end.
Abbreviation call := (run_call set_order string_order).
Definition run_match : connector_call := CallMatch (run_request "a") 0 (fun k => if k =? 0 then Some [run_block 11 None] else None).
Definition run1 : RunState := snd (call run_match run_start).
Definition run2 : RunState := snd (call (CallBuild {["a" := run_request "a"]} run_output) run1).
Definition run3 : RunState := snd (call (CallFinish (run_request "a")) run2).
Definition run4 : RunState := snd (call (CallOutput (mkKVConnectorOutput (Some ["a"%string]) None ∅)) run3).
Definition run_blocks : list KVCacheBlock := [run_block 21 (Some hash_a); run_block 22 None; run_block 23 None; run_block 24 None].
Definition run_load : connector_call := CallMatch (run_request "b") 2 (fun k => if k =? 6 then Some run_blocks else None).
Definition run5 : RunState := snd (call run_load run4).

Lemma run_request_hashed (c : RunState) id : oc_gpu_block_size c = 2 -> hashed c (run_request id).
Proof. intros Hg. unfold hashed. rewrite Hg. split; [vm_compute; reflexivity|]. apply (bool_decide_unpack _). vm_compute. exact I. Qed.

Local Abbreviation run_inv := (mgr_inv (items:=any_items) (wf:=any_wf 4)).
Local Abbreviation run_starts := (started (inv:=run_inv) (slot:=mgr_slot)).
Local Abbreviation run_step := (conn_step set_order string_order).

Lemma run_started : run_starts [2] 2 (sample_manager 4 "lru" (PolicyLRU [])) true run_start.
Proof.
  split; [reflexivity|]. split; [constructor; [lia|constructor]|]. split; [lia|]. split; [|done].
  split; simpl; try done; try lia; try (by intros ? ?%elem_of_nil); try (by intros ? ? ?%elem_of_nil).
  apply NoDup_nil_2.
Qed.

Lemma step_of (c : RunState) k : allowed c k -> run_step c (snd (call k c)).
Proof. intros Ha. destruct (call k c) as [r c'] eqn:E. by apply (conn_call _ _ c c' k r). Qed.

Lemma run_steps : rtc run_step run_start run4.
Proof.
  apply (rtc_l _ _ run1).
  { apply step_of. split; [by apply run_request_hashed|]. split; [done|]. split; [done|]. split; [done|].
    intros k blocks Hk. by destruct (k =? 0) eqn:E; [lia|]. }
  apply (rtc_l _ _ run2).
  { apply step_of. split; [apply (bool_decide_unpack _); vm_compute; exact I|]. intros d Hd. apply list_elem_of_singleton in Hd as ->.
    exists (run_request "a"), 8. split; try done. by apply run_request_hashed. }
  apply (rtc_l _ _ run3); [by apply step_of|]. apply rtc_once. by apply step_of.
Qed.

Lemma run_load_allowed : allowed run4 run_load.
Proof.
  split; [by apply run_request_hashed|]. split; [done|]. split; [vm_compute; reflexivity|]. split; [vm_compute; reflexivity|].
  intros k blocks Hk. simpl. destruct (k =? 6) eqn:E; [|done]. intros [= <-]. assert (k = 6) as -> by lia. split; vm_compute; reflexivity.
Qed.

Lemma connector_calls_succeed_witness : exists c', call run_load run4 = (Ok tt, c').
Proof.
  exact (connector_calls_succeed set_order string_order set_order_ok [2] 2 _ true run_start run4 run_load run_started run_steps run_load_allowed).
Defined.

(** While "b" loads: both its blocks are being loaded, and can be read. *)
Lemma connector_loads_exclusive_witness :
  all_of (oc_reqs_being_loaded run5) ≡ₚ [hash_b; hash_d] /\ ready (oc_manager run5) hash_d = true
  /\ (hash_d ∉ all_of (oc_reqs_being_stored run5)).
Proof.
  assert (Hall : all_of (oc_reqs_being_loaded run5) ≡ₚ [hash_b; hash_d]) by (apply (bool_decide_unpack _); vm_compute; exact I).
  split; [exact Hall|].
  destruct (connector_loads_exclusive set_order string_order set_order_ok [2] 2 _ true run_start run5 run_started
    (rtc_r _ _ _ run_steps (step_of run4 run_load run_load_allowed))) as (_ & Hload & _).
  destruct (Hload hash_d) as (Hr & Hs & _); [rewrite Hall; right; left|]. split; [exact Hr|exact Hs].
Defined.

Lemma connector_load_places_witness : exists c2 load pairs,
  update_state_after_alloc (run_request "b") run_blocks 6 (snd (get_num_new_matched_tokens (run_request "b") 2 run4)) = (Ok tt, c2)
  /\ od_lookup "b"%string (oc_reqs_to_load c2) = Some load
  /\ src_to_dst (oc_block_size_factor c2) 1 (cpu_block_ids load.1) (gpu_block_ids load.2) = Ok pairs.
Proof.
  destruct (connector_load_places set_order string_order set_order_ok [2] 2 _ true run_start run4 (run_request "b") 2 6 run_blocks
    (snd (get_num_new_matched_tokens (run_request "b") 2 run4)) run_started run_steps) as (c2 & load & pairs & H1 & H2 & H3 & _).
  - by apply run_request_hashed.
  - lia.
  - vm_compute. reflexivity.
  - vm_compute. reflexivity.
  - vm_compute. reflexivity.
  - split; vm_compute; reflexivity.
  - exists c2, load, pairs. split; [exact H1|]. split; [exact H2|exact H3].
Defined.

Lemma run_build_ready : build_ready {["a"%string := run_request "a"]} run_output run1.
Proof.
  split; [apply (bool_decide_unpack _); vm_compute; exact I|]. intros d Hd. apply list_elem_of_singleton in Hd as ->.
  exists (run_request "a"), 8. split; try done. by apply run_request_hashed.
Qed.

Lemma run1_reached : rtc run_step run_start run1.
Proof.
  apply rtc_once, step_of. split; [by apply run_request_hashed|]. split; [done|]. split; [done|]. split; [done|].
  intros k blocks Hk. by destruct (k =? 0) eqn:E; [lia|].
Qed.

Lemma connector_store_places_witness : exists meta c',
  build_connector_meta set_order string_order {["a"%string := run_request "a"]} run_output run1 = (Ok meta, c')
  /\ reqs_to_flush meta = None.
Proof.
  destruct (connector_store_places set_order string_order set_order_ok [2] 2 _ true run_start run1 _ run_output run_started run1_reached run_build_ready)
    as (meta & c' & H1 & _ & H2 & _).
  exists meta, c'. split; [exact H1|exact H2].
Defined.
