(* ===== verification/OffloadWorkerSpec.v ===== *)
(** The worker of KV offloading: the registry of the two CPU handlers and the
    connector's jobs, call by call. *)
From S2P Require Import Prelude PyDict.
From S2P Require Import OffloadManager OffloadConnector OffloadTransfer OffloadTransferSpec OffloadWorker.
Local Open Scope Z_scope.

(** ** The registry *)

(** The jobs in flight, over all handlers. *)
Definition flight (w : OffloadingWorker) : list Z := flat_map (fun h => map tr_job_id (h_transfers h)) (ow_objs w).

(** The handlers of [CPUOffloadingSpec.get_handlers]: number 0 stores, number 1
    loads, for [f] GPU blocks per slot. *)
Record worker_inv (f : Z) (w : OffloadingWorker) : Prop := {
  wi_length : length (ow_objs w) = 2%nat;
  wi_handler : forall i h, ow_objs w !! i = Some h -> handler_inv h;
  wi_store : forall h, ow_objs w !! 0%nat = Some h -> h_src_block_size_factor h = 1 /\ h_dst_block_size_factor h = f;
  wi_load : forall h, ow_objs w !! 1%nat = Some h -> h_src_block_size_factor h = f /\ h_dst_block_size_factor h = 1;
  wi_handlers : ow_handlers w = {[0%nat; 1%nat]};
  wi_types : od_lookup (gpu_medium, cpu_medium) (ow_types w) = Some 0%nat /\ od_lookup (cpu_medium, gpu_medium) (ow_types w) = Some 1%nat
}.

(** A transfer whose block lists fit. *)
Definition spec_ok (f : Z) (spec : TransferSpec) : Prop :=
  match spec with
  | LoadSpec (src, dst) => exists pairs, src_to_dst f 1 (cpu_block_ids src) (gpu_block_ids dst) = Ok pairs
  | StoreSpec (src, dst) => exists pairs, src_to_dst 1 f (gpu_block_ids src) (cpu_block_ids dst) = Ok pairs
  end.

Lemma flight_at w i h : ow_objs w !! i = Some h ->
  flight w ≡ₚ map tr_job_id (h_transfers h) ++ flat_map (fun h => map tr_job_id (h_transfers h)) (take i (ow_objs w) ++ drop (S i) (ow_objs w)).
Proof.
  intros Hi. unfold flight. rewrite <-(take_drop_middle _ _ _ Hi) at 1. rewrite !flat_map_app. simpl.
  rewrite !app_assoc. f_equiv. apply Permutation_app_comm.
Qed.

Lemma flight_set w i h h' : ow_objs w !! i = Some h ->
  flight (Worker.set_objs (<[i := h']> (ow_objs w)) w) ≡ₚ
    map tr_job_id (h_transfers h') ++ flat_map (fun h => map tr_job_id (h_transfers h)) (take i (ow_objs w) ++ drop (S i) (ow_objs w)).
Proof.
  intros Hi. apply lookup_lt_Some in Hi as Hlt. unfold flight. simpl. rewrite insert_take_drop by done. rewrite !flat_map_app. simpl.
  rewrite !app_assoc. f_equiv. apply Permutation_app_comm.
Qed.

(** Replacing a handler by one in a state it can reach. *)
Lemma worker_inv_set f w i h h' : worker_inv f w -> ow_objs w !! i = Some h -> handler_inv h' -> same_factors h h' ->
  worker_inv f (Worker.set_objs (<[i := h']> (ow_objs w)) w).
Proof.
  intros [H1 H2 H3 H4 H5 H6] Hi Hh' [Fs Fd]. apply lookup_lt_Some in Hi as Hlt.
  assert (Hset : forall k x, <[i := h']> (ow_objs w) !! k = Some x -> (k = i /\ x = h') \/ (k <> i /\ ow_objs w !! k = Some x)).
  { intros k x Hk. destruct (decide (k = i)) as [->|Hne].
    - rewrite list_lookup_insert_eq in Hk by done. left. by injection Hk as <-.
    - rewrite list_lookup_insert_ne in Hk by done. by right. }
  split; simpl; try done.
  - by rewrite length_insert.
  - intros k x [[-> ->]|[_ Hk]]%Hset; [done|]. by apply (H2 k).
  - intros x [[E ->]|[_ Hk]]%Hset; [|by apply H3]. rewrite Fs, Fd. subst i. by apply H3.
  - intros x [[E ->]|[_ Hk]]%Hset; [|by apply H4]. rewrite Fs, Fd. subst i. by apply H4.
Qed.

Lemma submit_wp f w job spec : worker_inv f w -> spec_ok f spec -> (job ∉ flight w) ->
  wp (Worker.transfer_async job spec) (fun ok w' => ok = true /\ worker_inv f w' /\ flight w' ≡ₚ job :: flight w) w.
Proof.
  intros Hw Hspec Hjob.
  assert (Hi : exists i h pairs, od_lookup (transfer_type spec) (ow_types w) = Some i /\ ow_objs w !! i = Some h
    /\ src_to_dst (h_src_block_size_factor h) (h_dst_block_size_factor h) (transfer_blocks spec).1 (transfer_blocks spec).2 = Ok pairs).
  { destruct Hw as [H1 _ H3 H4 _ [H6 H7]]. destruct spec as [[src dst]|[src dst]]; destruct Hspec as [pairs Hpairs].
    - destruct (lookup_lt_is_Some_2 (ow_objs w) 1) as [h Hh]; [lia|]. exists 1%nat, h, pairs. destruct (H4 h Hh) as [-> ->]. done.
    - destruct (lookup_lt_is_Some_2 (ow_objs w) 0) as [h Hh]; [lia|]. exists 0%nat, h, pairs. destruct (H3 h Hh) as [-> ->]. done. }
  destruct Hi as (i & h & pairs & Ht & Hh & Hpairs). pose proof (flight_at w i h Hh) as Hfl.
  unfold Worker.transfer_async. apply wp_bind, wp_gets. cbn [id]. apply wp_bind. eapply wp_lift_opt; [exact Ht|].
  unfold Worker.on_handler, wp. rewrite Hh.
  assert (Hfresh : job ∉ map tr_job_id (h_transfers h)) by (intros Hin; apply Hjob; rewrite Hfl; apply elem_of_app; by left).
  pose proof (transfer_async_wp job _ _ pairs h (wi_handler f w Hw i h Hh) Hfresh Hpairs) as Ha. apply wp_run in Ha as (ok & h' & Hrun & -> & Hh' & t & Hts & Hj & _ & Hf & _).
  rewrite Hrun. split; [done|]. split; [by eapply worker_inv_set|]. rewrite (flight_set w i h h' Hh), Hfl, Hts, map_app. simpl. rewrite Hj.
  by rewrite <-app_assoc, Permutation_middle.
Qed.

(** No completed transfer is left at the head of handler [i]'s queue. *)
Definition drained (query : nat -> Z -> bool) (w : OffloadingWorker) (i : nat) : Prop :=
  forall h t ts, ow_objs w !! i = Some h -> h_transfers h = t :: ts -> query i (tr_end_event t) = false.

Section Order.
Context (handler_order : gset nat -> list nat) (Horder : forall s i, i ∈ handler_order s <-> i ∈ s).

Lemma registry_get_finished_wp f w query : worker_inv f w ->
  wp (Worker.get_finished handler_order query) (fun rs w' => worker_inv f w' /\ flight w ≡ₚ map res_job_id rs ++ flight w'
    /\ Forall (fun r => res_success r = true) rs /\ forall i, drained query w' i) w.
Proof.
  intros Hw. unfold Worker.get_finished. apply wp_bind, wp_gets. cbn [id].
  eapply (wp_foldM (fun d t rs w' => worker_inv f w' /\ flight w ≡ₚ map res_job_id rs ++ flight w' /\ (forall i, i ∈ t -> i ∈ ow_handlers w)
    /\ Forall (fun r => res_success r = true) rs /\ forall i, i ∈ d -> drained query w' i) _ []).
  - split_and!; try done; [intros i; by rewrite Horder|]. by intros i ?%elem_of_nil.
  - intros d i t rs w' (Hw' & Hfl & Hin & Hall & Hd). specialize (Hin i ltac:(left)) as Hi. rewrite (wi_handlers f w Hw) in Hi.
    assert (Hlt : (i < length (ow_objs w'))%nat) by (rewrite (wi_length f w' Hw'); set_solver).
    destruct (lookup_lt_is_Some_2 _ _ Hlt) as [h Hh]. apply wp_bind. unfold Worker.on_handler, wp. rewrite Hh.
    pose proof (finished_wp (query i) (h_transfers h) [] h (wi_handler f w' Hw' i h Hh) eq_refl) as Hf.
    apply wp_run in Hf as (r & h' & Hrun & Hh' & Hsf & done & Hts & -> & _ & Hend).
    assert (Hrun' : Handler.get_finished (query i) h = (Ok (map result_of done), h')) by exact Hrun. rewrite Hrun'. simpl.
    split; [by eapply worker_inv_set|]. split; [|split; [|split]].
    + rewrite map_app, <-app_assoc, Hfl, (flight_set w' i h h' Hh), (flight_at w' i h Hh), Hts, map_app, map_map. by rewrite <-app_assoc.
    + intros k Hk. apply Hin. by right.
    + apply Forall_app. split; [done|]. apply Forall_forall. intros x Hx. apply list_elem_of_fmap in Hx as (t0 & -> & _). done.
    + intros k Hk x t0 ts Hx Hq. simpl in Hx. destruct (decide (k = i)) as [->|Hne].
      * rewrite list_lookup_insert_eq in Hx by done. injection Hx as <-. by rewrite Hq in Hend.
      * rewrite list_lookup_insert_ne in Hx by done. apply elem_of_app in Hk as [Hk|Hk%list_elem_of_singleton]; [|done]. by eapply Hd.
  - intros rs w' (Hw' & Hfl & _ & Hall & Hd). split_and!; try done. intros i h t ts Hh. assert (Hi : (i < 2)%nat) by (rewrite <-(wi_length f w' Hw'); by eapply lookup_lt_Some).
    apply (Hd i) with (2 := Hh). apply Horder. rewrite (wi_handlers f w Hw). destruct i as [|[|]]; [set_solver|set_solver|lia].
Qed.
End Order.

(** ** The connector's jobs *)

Import ConnectorWorker.

(** Every job is in flight, waits to be submitted, or is one of [pend], whose
    results are being processed; the maps from requests to jobs agree with the jobs. *)
Record cw_inv_pend (f : Z) (c : OffloadingConnectorWorker) (pend : list Z) : Prop := {
  cw_worker_ok : worker_inv f (cw_worker c);
  cw_fresh : forall j, is_Some (cw_jobs c !! j) -> j < cw_job_counter c;
  cw_nodup : NoDup (flight (cw_worker c) ++ map fst (cw_unsubmitted_store_jobs c) ++ pend);
  cw_live : forall j, is_Some (cw_jobs c !! j) <-> j ∈ flight (cw_worker c) ++ map fst (cw_unsubmitted_store_jobs c) ++ pend;
  cw_loads : forall r j, cw_load_job c !! r = Some j <-> cw_jobs c !! j = Some (r, false);
  cw_stores : forall r j, cw_jobs c !! j = Some (r, true) <-> j ∈ default ∅ (cw_store_jobs c !! r);
  cw_unsub : Forall (fun u => spec_ok f u.2) (cw_unsubmitted_store_jobs c);
  cw_waiting : forall r, r ∈ cw_finished_reqs_waiting_for_store c -> default ∅ (cw_store_jobs c !! r) <> ∅
}.
Definition cw_inv f c := cw_inv_pend f c [].

Lemma cw_counter_fresh f c : cw_inv f c -> cw_jobs c !! cw_job_counter c = None.
Proof. intros Hc. destruct (cw_jobs c !! cw_job_counter c) eqn:E; [|done]. pose proof (cw_fresh _ _ _ Hc (cw_job_counter c) ltac:(rewrite E; by eexists)). lia. Qed.

Lemma submit_stores_wp f c : cw_inv f c ->
  wp submit_stores (fun _ c' => cw_inv f c' /\ c' = set_unsubmitted [] (set_worker (cw_worker c') c)) c.
Proof.
  intros Hc. unfold submit_stores. apply wp_bind, wp_gets, wp_bind.
  eapply (wp_forM_ (fun d t c' => c' = set_worker (cw_worker c') c /\ worker_inv f (cw_worker c')
    /\ flight (cw_worker c') ≡ₚ map fst d ++ flight (cw_worker c) /\ Forall (fun u => spec_ok f u.2) t
    /\ NoDup (flight (cw_worker c') ++ map fst t)) _ []).
  - pose proof (cw_nodup _ _ _ Hc) as Hnd. rewrite app_nil_r in Hnd. split; [by destruct c|]. split_and!; [apply Hc|done|apply Hc|exact Hnd].
  - intros d [j spec] t c' (Heq & Hw & Hfl & [Hs Ht]%Forall_cons & Hnd). simpl in Hs, Hnd.
    apply wp_bind. unfold on_worker. apply wp_zoom. eapply wp_mono; [apply (submit_wp f (cw_worker c') j spec Hw Hs)|].
    { apply NoDup_app in Hnd as (_ & Hd & _). intros Hin. apply (Hd j Hin). left. }
    intros ok w' (-> & Hw' & Hfl'). apply wp_assert; [done|]. simpl. rewrite Heq. simpl. split; [done|]. split; [done|]. split_and!.
    + rewrite Hfl', Hfl, map_app. simpl. rewrite <-app_assoc. simpl. by rewrite Permutation_middle.
    + done.
    + rewrite Hfl'. simpl. rewrite <-Permutation_middle in Hnd. done.
  - intros c' (Heq & Hw & Hfl & _ & Hnd). apply wp_modify. simpl. split; [|by rewrite Heq]. destruct Hc as [H1 H2 H3 H4 H5 H6 H7 H8].
    rewrite Heq. split; simpl; try done.
    intros j. rewrite H4, !app_nil_r, Hfl, !elem_of_app. simpl. tauto.
Qed.

(** The state after request [r] is given job [j]: a load. *)
Lemma load_job_inv f c w r : cw_inv f c -> cw_load_job c !! r = None -> worker_inv f w -> flight w ≡ₚ cw_job_counter c :: flight (cw_worker c) ->
  cw_inv f (set_worker w (set_load_job (<[r := cw_job_counter c]> (cw_load_job c))
    (set_jobs (<[cw_job_counter c := (r, false)]> (cw_jobs c)) (set_job_counter (cw_job_counter c + 1) c)))).
Proof.
  intros Hc Hr Hw Hfl. pose proof (cw_counter_fresh f c Hc) as Hnone. destruct Hc as [H1 H2 H3 H4 H5 H6 H7 H8]. set (k := cw_job_counter c) in *.
  split; simpl; try done.
  - intros j. rewrite lookup_insert_is_Some. intros [<-|[_ Hj]]; [lia|]. specialize (H2 j Hj). lia.
  - rewrite Hfl. simpl. constructor; [|done]. rewrite <-H4, Hnone. by intros [? ?].
  - intros j. rewrite Hfl, lookup_insert_is_Some, H4. simpl. rewrite elem_of_cons. split; [naive_solver|]. intros [->|Hj]; [by left|].
    destruct (decide (k = j)); [by left|by right].
  - intros r' j. destruct (decide (j = k)) as [->|Hj].
    + rewrite lookup_insert_eq. destruct (decide (r' = r)) as [->|Hne]; [by rewrite lookup_insert_eq|]. rewrite lookup_insert_ne by done.
      rewrite H5, Hnone. split; [done|]. by intros [= ?].
    + rewrite (lookup_insert_ne (cw_jobs c)) by done. rewrite <-H5. destruct (decide (r' = r)) as [->|Hne]; [|by rewrite lookup_insert_ne].
      rewrite lookup_insert_eq, Hr. split; [by intros [= ?]|done].
  - intros r' j. rewrite <-H6. destruct (decide (j = k)) as [->|Hj]; [|by rewrite lookup_insert_ne]. rewrite lookup_insert_eq, Hnone. by split.
Qed.

Definition loads_ready (f : Z) (loads : list (string * LoadTransfer)) (c : OffloadingConnectorWorker) : Prop :=
  NoDup (od_keys loads) /\ Forall (fun l => cw_load_job c !! l.1 = None /\ spec_ok f (LoadSpec l.2)) loads.

Lemma start_kv_transfers_wp f c meta : cw_inv f c -> loads_ready f (reqs_to_load meta) c ->
  wp (start_kv_transfers meta) (fun _ c' => cw_inv f c' /\ cw_store_jobs c' = cw_store_jobs c /\ cw_unsubmitted_store_jobs c' = []
    /\ cw_finished_reqs_waiting_for_store c' = cw_finished_reqs_waiting_for_store c
    /\ forall r, is_Some (cw_load_job c' !! r) <-> is_Some (cw_load_job c !! r) \/ r ∈ od_keys (reqs_to_load meta)) c.
Proof.
  intros Hc [Hnd Hall]. unfold start_kv_transfers. apply wp_bind. eapply wp_mono; [by apply submit_stores_wp|]. intros [] c0 [Hc0 Heq].
  eapply (wp_forM_ (fun d t c' => cw_inv f c' /\ cw_store_jobs c' = cw_store_jobs c /\ cw_unsubmitted_store_jobs c' = []
    /\ cw_finished_reqs_waiting_for_store c' = cw_finished_reqs_waiting_for_store c
    /\ (forall r, is_Some (cw_load_job c' !! r) <-> is_Some (cw_load_job c !! r) \/ r ∈ od_keys d)
    /\ NoDup (od_keys t) /\ Forall (fun l => cw_load_job c' !! l.1 = None /\ spec_ok f (LoadSpec l.2)) t) _ []).
  - rewrite Heq in *. simpl in *. split_and!; try done. intros r. rewrite elem_of_nil. tauto.
  - intros d [r t0] t c' (Hc' & Hs & Hu & Hw & Hl & [Hr Hndt]%NoDup_cons & [[Hnone Hok] Ht]%Forall_cons). simpl in Hnone, Hok, Hr.
    unfold generate_job_id. apply wp_bind, wp_bind, wp_gets, wp_bind, wp_modify, wp_ret, wp_bind, wp_modify, wp_bind, wp_gets. cbn [id]. simpl.
    apply wp_bind, wp_assert; [by apply bool_decide_eq_true|]. apply wp_bind, wp_modify, wp_bind. unfold on_worker. apply wp_zoom. simpl.
    eapply wp_mono; [apply (submit_wp f (cw_worker c') (cw_job_counter c') (LoadSpec t0)); [apply Hc'|done|]|].
    { intros Hin. pose proof (cw_counter_fresh f c' Hc') as Hf. assert (Hs' : is_Some (cw_jobs c' !! cw_job_counter c')); [|rewrite Hf in Hs'; by destruct Hs'].
      apply (cw_live _ _ _ Hc'). apply elem_of_app. by left. }
    intros ok w' (-> & Hw' & Hfl). apply wp_assert; [done|]. split; [by apply load_job_inv|]. simpl. split_and!; try done.
    + intros x. rewrite lookup_insert_is_Some, Hl. unfold od_keys. rewrite map_app, elem_of_app. simpl. rewrite list_elem_of_singleton.
      destruct (decide (r = x)); naive_solver.
    + rewrite Forall_forall in Ht |- *. intros l Hin. destruct (Ht l Hin) as [Hln Hlo]. split; [|done].
      rewrite lookup_insert_ne; [done|]. intros ->. apply Hr. by apply (list_elem_of_fmap_2 fst).
  - intros c' (Hc' & Hs & Hu & Hw & Hl & _). split_and!; try done.
Qed.

(** A store: the job is tracked and waits to be submitted. *)
Lemma store_job_inv f c r spec : cw_inv f c -> spec_ok f (StoreSpec spec) ->
  cw_inv f (set_unsubmitted (cw_unsubmitted_store_jobs c ++ [(cw_job_counter c, StoreSpec spec)])
    (set_store_jobs (<[r := default ∅ (cw_store_jobs c !! r) ∪ {[cw_job_counter c]}]> (cw_store_jobs c))
    (set_jobs (<[cw_job_counter c := (r, true)]> (cw_jobs c)) (set_job_counter (cw_job_counter c + 1) c)))).
Proof.
  intros Hc Hok. pose proof (cw_counter_fresh f c Hc) as Hnone. destruct Hc as [H1 H2 H3 H4 H5 H6 H7 H8]. set (k := cw_job_counter c) in *.
  assert (Hperm : flight (cw_worker c) ++ map fst (cw_unsubmitted_store_jobs c ++ [(k, StoreSpec spec)]) ++ []
    ≡ₚ k :: flight (cw_worker c) ++ map fst (cw_unsubmitted_store_jobs c) ++ []).
  { rewrite map_app, !app_nil_r, app_assoc. simpl. symmetry. apply Permutation_cons_append. }
  split; simpl; try done.
  - intros j. rewrite lookup_insert_is_Some. intros [<-|[_ Hj]]; [lia|]. specialize (H2 j Hj). lia.
  - rewrite Hperm. constructor; [|done]. rewrite <-H4, Hnone. by intros [? ?].
  - intros j. rewrite Hperm, lookup_insert_is_Some, elem_of_cons, H4. destruct (decide (k = j)); naive_solver.
  - intros r' j. rewrite H5. destruct (decide (j = k)) as [->|Hj]; [|by rewrite lookup_insert_ne]. rewrite lookup_insert_eq, Hnone. by split.
  - intros r' j. destruct (decide (j = k)) as [->|Hj].
    + rewrite lookup_insert_eq. destruct (decide (r' = r)) as [->|Hne].
      * rewrite lookup_insert_eq. simpl. split; [set_solver|done].
      * rewrite lookup_insert_ne by done. rewrite <-H6, Hnone. split; [by intros [= ?]|done].
    + rewrite lookup_insert_ne by done. rewrite H6. destruct (decide (r' = r)) as [->|Hne]; [|by rewrite lookup_insert_ne].
      rewrite lookup_insert_eq. simpl. set_solver.
  - apply Forall_app. split; [done|]. constructor; [done|constructor].
  - intros r' Hr'. destruct (decide (r' = r)) as [->|Hne]; [rewrite lookup_insert_eq; simpl; set_solver|]. rewrite lookup_insert_ne by done. by apply H8.
Qed.

Lemma prepare_store_kv_wp f c meta : cw_inv f c -> Forall (fun s => spec_ok f (StoreSpec s.2)) (reqs_to_store meta) ->
  wp (prepare_store_kv meta) (fun _ c' => cw_inv f c' /\ cw_load_job c' = cw_load_job c
    /\ cw_finished_reqs_waiting_for_store c' = cw_finished_reqs_waiting_for_store c
    /\ (forall r, is_Some (cw_store_jobs c' !! r) <-> is_Some (cw_store_jobs c !! r) \/ r ∈ od_keys (reqs_to_store meta))
    /\ cw_worker c' = cw_worker c /\ forall r, (r ∉ od_keys (reqs_to_store meta)) -> cw_store_jobs c' !! r = cw_store_jobs c !! r) c.
Proof.
  intros Hc Hall. unfold prepare_store_kv.
  eapply (wp_forM_ (fun d t c' => cw_inv f c' /\ cw_load_job c' = cw_load_job c
    /\ cw_finished_reqs_waiting_for_store c' = cw_finished_reqs_waiting_for_store c
    /\ (forall r, is_Some (cw_store_jobs c' !! r) <-> is_Some (cw_store_jobs c !! r) \/ r ∈ od_keys d)
    /\ cw_worker c' = cw_worker c /\ (forall r, (r ∉ od_keys d) -> cw_store_jobs c' !! r = cw_store_jobs c !! r)
    /\ Forall (fun s => spec_ok f (StoreSpec s.2)) t) _ []).
  - split_and!; try done. intros r. rewrite elem_of_nil. tauto.
  - intros d [r spec] t c' (Hc' & Hl & Hw & Hs & Ho & Hk & [Hok Ht]%Forall_cons).
    unfold generate_job_id. apply wp_bind, wp_bind, wp_gets, wp_bind, wp_modify, wp_ret, wp_bind, wp_modify, wp_bind, wp_modify, wp_modify. simpl.
    split; [by apply store_job_inv|]. simpl. unfold od_keys. rewrite map_app. simpl. split_and!; try done.
    + intros x. rewrite lookup_insert_is_Some, Hs, elem_of_app, list_elem_of_singleton. unfold od_keys. destruct (decide (r = x)); naive_solver.
    + intros x [Hx Hne]%not_elem_of_app. rewrite lookup_insert_ne; [by apply Hk|]. intros ->. by apply Hne, list_elem_of_singleton.
  - intros c' (Hc' & Hl & Hw & Hs & Ho & Hk & _). by split_and!.
Qed.

(** ** Results *)

(** Request [r] has stores, and all of them are among the jobs [D]. *)
Definition all_done (c : OffloadingConnectorWorker) (D : gset Z) (r : string) : Prop := exists s, cw_store_jobs c !! r = Some s /\ s ⊆ D.

(** The store jobs and the waiting requests once the jobs [D] are done, when the
    requests of [sent] have been reported. *)
Record after_jobs (c c' : OffloadingConnectorWorker) (D : gset Z) (sent recvd : gset string) : Prop := {
  aj_sent : forall r, r ∈ sent <-> r ∈ cw_finished_reqs_waiting_for_store c /\ all_done c D r;
  aj_waiting : forall r, r ∈ cw_finished_reqs_waiting_for_store c' <-> r ∈ cw_finished_reqs_waiting_for_store c /\ (r ∉ sent);
  aj_store : forall r, cw_store_jobs c' !! r = if decide (r ∈ sent) then None else (fun s => s ∖ D) <$> cw_store_jobs c !! r;
  aj_recvd : forall r, r ∈ recvd <-> exists j, cw_load_job c !! r = Some j /\ j ∈ D;
  aj_load : forall r, cw_load_job c' !! r = if decide (r ∈ recvd) then None else cw_load_job c !! r;
  aj_rest : cw_worker c' = cw_worker c /\ cw_unsubmitted_store_jobs c' = cw_unsubmitted_store_jobs c
}.

(** Job [j] leaves the jobs. *)
Lemma pend_done f c j pend : cw_inv_pend f c (j :: pend) ->
  NoDup (flight (cw_worker c) ++ map fst (cw_unsubmitted_store_jobs c) ++ pend)
  /\ (forall k, is_Some (delete j (cw_jobs c) !! k) <-> k ∈ flight (cw_worker c) ++ map fst (cw_unsubmitted_store_jobs c) ++ pend)
  /\ forall k, is_Some (delete j (cw_jobs c) !! k) -> k < cw_job_counter c.
Proof.
  intros [_ H2 H3 H4 _ _ _ _].
  assert (Hp : flight (cw_worker c) ++ map fst (cw_unsubmitted_store_jobs c) ++ j :: pend ≡ₚ j :: flight (cw_worker c) ++ map fst (cw_unsubmitted_store_jobs c) ++ pend) by (rewrite !app_assoc; symmetry; apply Permutation_middle).
  rewrite Hp in H3. apply NoDup_cons in H3 as [Hj H3]. split; [done|]. split.
  - intros k. rewrite lookup_delete_is_Some, H4, Hp, elem_of_cons. split; [intros [? [->|?]]; done|]. intros Hk. split; [by intros ->|by right].
  - intros k [_ Hk]%lookup_delete_is_Some. by apply H2.
Qed.

(** A job that is not done belongs to the request that the jobs name. *)
Lemma owner_of f c c' j D sent recvd pend p r s : cw_inv_pend f c' (j :: pend) -> after_jobs c c' D sent recvd ->
  cw_jobs c' !! j = Some p -> cw_store_jobs c !! r = Some s -> j ∈ s -> (j ∉ D) -> (r ∉ sent) -> p = (r, true).
Proof.
  intros Hc Ha Hp Hs Hj HD Hr. assert (H : cw_jobs c' !! j = Some (r, true)); [|congruence].
  apply (cw_stores _ _ _ Hc). rewrite (aj_store _ _ _ _ _ Ha), decide_False, Hs by done. simpl. set_solver.
Qed.

(** Jobs of other requests do not decide whether the stores of [r] are done. *)
Lemma all_done_other f c c' j D sent recvd pend p r : cw_inv_pend f c' (j :: pend) -> after_jobs c c' D sent recvd ->
  cw_jobs c' !! j = Some p -> p <> (r, true) -> (r ∉ sent) -> all_done c (D ∪ {[j]}) r <-> all_done c D r.
Proof.
  intros Hc Ha Hp Hne Hr. split; intros (s & Hs & Hsub); exists s; (split; [done|]); [|set_solver].
  intros k Hk. destruct (decide (k ∈ D)) as [|HD]; [done|]. specialize (Hsub k Hk). apply elem_of_union in Hsub as [|Hkj%elem_of_singleton]; [done|].
  subst k. destruct Hne. by eapply owner_of.
Qed.

Lemma store_other f c c' j D sent recvd pend p r : cw_inv_pend f c' (j :: pend) -> after_jobs c c' D sent recvd ->
  cw_jobs c' !! j = Some p -> p <> (r, true) -> (r ∉ sent) -> (fun s => s ∖ (D ∪ {[j]})) <$> cw_store_jobs c !! r = (fun s => s ∖ D) <$> cw_store_jobs c !! r.
Proof.
  intros Hc Ha Hp Hne Hr. destruct (cw_store_jobs c !! r) as [s|] eqn:Hs; [|done]. simpl. f_equal. apply set_eq. intros k.
  rewrite !elem_of_difference, elem_of_union, elem_of_singleton. split; [tauto|]. intros [Hk HD]. split; [done|]. intros [?| ->]; [done|].
  destruct Hne. by eapply owner_of.
Qed.

Lemma finish_load_wp f c c' r j x pend D sets : cw_inv_pend f c' (j :: pend) -> after_jobs c c' D sets.1 sets.2 ->
  res_job_id x = j -> res_success x = true -> cw_jobs c' !! j = Some (r, false) ->
  wp (finish_result sets x) (fun sets' c'' => cw_inv_pend f c'' pend /\ after_jobs c c'' (D ∪ {[j]}) sets'.1 sets'.2) c'.
Proof.
  intros Hc Ha <- Hx Hj. set (j := res_job_id x) in *. pose proof (pend_done f c' j pend Hc) as (P1 & P2 & P3).
  pose proof Hc as [H1 _ _ _ H5 H6 H7 H8]. pose proof Ha as [A1 A2 A3 A4 A5 A6].
  assert (Hl : cw_load_job c' !! r = Some j) by (by apply H5).
  unfold finish_result. rewrite Hx. apply wp_bind, wp_assert; [done|]. apply wp_bind, wp_gets. cbn [id]. fold j.
  apply wp_bind. eapply wp_lift_opt; [exact Hj|]. apply wp_bind, wp_modify. simpl.
  apply wp_bind. eapply wp_lift_opt; [exact Hl|]. apply wp_bind, wp_assert; [apply Z.eqb_refl|]. apply wp_bind, wp_modify, wp_ret.
  assert (Hr : (r ∉ sets.2) /\ cw_load_job c !! r = Some j) by (rewrite A5 in Hl; by case_decide).
  split; split; simpl; try done.
  - intros r' k. destruct (decide (r' = r)) as [->|Hne].
    + rewrite lookup_delete_eq. split; [done|]. intros [Hk Hjk]%lookup_delete_Some. apply H5 in Hjk. congruence.
    + rewrite lookup_delete_ne, H5, lookup_delete_Some by done. split; [|tauto]. intros Hk. split; [|done]. intros <-. congruence.
  - intros r' k. rewrite <-H6, lookup_delete_Some. split; [tauto|]. intros Hk. split; [|done]. intros <-. congruence.
  - intros r'. destruct (decide (r' ∈ sets.1)) as [Hin|Hn].
    + split; [intros _|done]. apply A1 in Hin as [? (s & ? & ?)]. split; [done|]. exists s. split; [done|set_solver].
    + rewrite (all_done_other f c c' j D sets.1 sets.2 pend (r, false) r') by done. by rewrite A1.
  - intros r'. rewrite A3. case_decide; [done|]. symmetry. by apply (store_other f c c' j D sets.1 sets.2 pend (r, false) r').
  - intros r'. rewrite elem_of_union, elem_of_singleton, A4. split.
    + intros [->|(k & ? & ?)]; [exists j|exists k]; split; try done; set_solver.
    + intros (k & Hk & HD). destruct (decide (k ∈ D)); [right; by exists k|]. assert (k = j) as -> by set_solver.
      destruct (decide (r' ∈ sets.2)) as [Hin|Hn]; [right; by apply A4|left]. specialize (A5 r'). rewrite decide_False, Hk in A5 by done.
      apply H5 in A5. congruence.
  - intros r'. destruct (decide (r' = r)) as [->|Hne]; [rewrite lookup_delete_eq, decide_True by set_solver; done|].
    rewrite lookup_delete_ne, A5 by done. repeat case_decide; set_solver.
Qed.

Lemma difference_none (s D : gset Z) : s ∖ D = ∅ <-> s ⊆ D.
Proof.
  split; [|set_solver]. intros Hd k Hk. destruct (decide (k ∈ D)) as [|HD]; [done|].
  assert (Hin : k ∈ s ∖ D) by (by apply elem_of_difference). rewrite Hd in Hin. by apply not_elem_of_empty in Hin.
Qed.

(** The tables after job [j] of request [r] is taken out of its store jobs, which
    become [s]; [None] when the request is reported. *)
Lemma store_done_inv f c j r pend m w s : cw_inv_pend f c (j :: pend) -> cw_jobs c !! j = Some (r, true) ->
  s = default ∅ (cw_store_jobs c !! r) ∖ {[j]} -> default ∅ (m !! r) = s -> (forall r', r' <> r -> m !! r' = cw_store_jobs c !! r') ->
  (forall r', r' ∈ w -> r' ∈ cw_finished_reqs_waiting_for_store c /\ (r' = r -> s <> ∅)) ->
  cw_inv_pend f (set_waiting w (set_store_jobs m (set_jobs (delete j (cw_jobs c)) c))) pend.
Proof.
  intros Hc Hj Hs Hm Hother Hw. pose proof (pend_done f c j pend Hc) as (P1 & P2 & P3). destruct Hc as [H1 _ _ _ H5 H6 H7 H8].
  split; simpl; try done.
  - intros r' k. rewrite H5, lookup_delete_Some. split; [|tauto]. intros Hk. split; [|done]. intros <-. congruence.
  - intros r' k. rewrite lookup_delete_Some. destruct (decide (r' = r)) as [->|Hne].
    + rewrite Hm, Hs, H6. set_solver.
    + rewrite Hother, <-H6 by done. split; [tauto|]. intros Hk. split; [|done]. intros <-. congruence.
  - intros r' [Hr' Hrs]%Hw. destruct (decide (r' = r)) as [->|Hne]; [rewrite Hm; by apply Hrs|]. rewrite Hother by done. by apply H8.
Qed.

(** The same, for any state with those tables. *)
Lemma store_done_state f c c' j r pend s : cw_inv_pend f c (j :: pend) -> cw_jobs c !! j = Some (r, true) ->
  s = default ∅ (cw_store_jobs c !! r) ∖ {[j]} -> c' = set_waiting (cw_finished_reqs_waiting_for_store c') (set_store_jobs (cw_store_jobs c') (set_jobs (delete j (cw_jobs c)) c)) ->
  default ∅ (cw_store_jobs c' !! r) = s -> (forall r', r' <> r -> cw_store_jobs c' !! r' = cw_store_jobs c !! r') ->
  (forall r', r' ∈ cw_finished_reqs_waiting_for_store c' -> r' ∈ cw_finished_reqs_waiting_for_store c /\ (r' = r -> s <> ∅)) ->
  cw_inv_pend f c' pend.
Proof. intros Hc Hj Hs -> Hm Hother Hw. by eapply store_done_inv. Qed.

Lemma finish_store_wp f c c' r j x pend D sets : cw_inv_pend f c' (j :: pend) -> after_jobs c c' D sets.1 sets.2 ->
  res_job_id x = j -> res_success x = true -> cw_jobs c' !! j = Some (r, true) ->
  wp (finish_result sets x) (fun sets' c'' => cw_inv_pend f c'' pend /\ after_jobs c c'' (D ∪ {[j]}) sets'.1 sets'.2) c'.
Proof.
  intros Hc Ha <- Hx Hj. set (j := res_job_id x) in *. pose proof Hc as [_ _ _ _ H5 H6 _ H8]. pose proof Ha as [A1 A2 A3 A4 A5 A6].
  assert (Hin : j ∈ default ∅ (cw_store_jobs c' !! r)) by (by apply H6).
  assert (Hr : exists s0, cw_store_jobs c !! r = Some s0 /\ (r ∉ sets.1) /\ default ∅ (cw_store_jobs c' !! r) = s0 ∖ D).
  { rewrite A3 in Hin |- *. case_decide; [by apply not_elem_of_empty in Hin|]. destruct (cw_store_jobs c !! r) as [s0|]; [by exists s0|by apply not_elem_of_empty in Hin]. }
  destruct Hr as (s0 & Hs0 & Hns & Hdef). set (s := default ∅ (cw_store_jobs c' !! r) ∖ {[j]}).
  assert (Hsd : s = s0 ∖ (D ∪ {[j]})) by (unfold s; rewrite Hdef; set_solver).
  assert (Hloads : forall r' k, cw_load_job c !! r' = Some k -> k ∈ D ∪ {[j]} -> r' ∈ sets.2).
  { intros r' k Hk HD. destruct (decide (r' ∈ sets.2)) as [|Hn]; [done|]. destruct (decide (k ∈ D)); [apply A4; by exists k|].
    assert (k = j) as -> by set_solver. specialize (A5 r'). rewrite decide_False, Hk in A5 by done. apply H5 in A5. congruence. }
  assert (Hrecv : forall r', r' ∈ sets.2 <-> exists k, cw_load_job c !! r' = Some k /\ k ∈ D ∪ {[j]}).
  { intros r'. split; [|by intros (k & Hk & HD); apply (Hloads r' k)]. intros (k & ? & ?)%A4. exists k. split; [done|set_solver]. }
  assert (Hother : forall r', r' <> r -> (r' ∈ sets.1 <-> r' ∈ cw_finished_reqs_waiting_for_store c /\ all_done c (D ∪ {[j]}) r')
    /\ (if decide (r' ∈ sets.1) then None else (fun s => s ∖ D) <$> cw_store_jobs c !! r')
       = (if decide (r' ∈ sets.1) then None else (fun s => s ∖ (D ∪ {[j]})) <$> cw_store_jobs c !! r')).
  { intros r' Hne. destruct (decide (r' ∈ sets.1)) as [Hi|Hn].
    - split; [|done]. split; [intros _|done]. apply A1 in Hi as [? (s1 & ? & ?)]. split; [done|]. exists s1. split; [done|set_solver].
    - split; [|symmetry; apply (store_other f c c' j D sets.1 sets.2 pend (r, true) r'); try done; congruence].
      rewrite (all_done_other f c c' j D sets.1 sets.2 pend (r, true) r') by (done || congruence). by rewrite A1. }
  unfold finish_result. rewrite Hx. apply wp_bind, wp_assert; [done|]. apply wp_bind, wp_gets. cbn [id]. fold j.
  apply wp_bind. eapply wp_lift_opt; [exact Hj|]. apply wp_bind, wp_modify. simpl. apply wp_bind, wp_modify. simpl.
  rewrite (bool_decide_eq_true_2 (j ∈ default ∅ (cw_store_jobs c' !! r))) by done. apply wp_bind. eapply wp_lift_opt; [reflexivity|]. apply wp_bind, wp_modify. simpl. fold s. rewrite insert_insert_eq.
  destruct (bool_decide (s = ∅)) eqn:Hempty; simpl.
  2: { apply bool_decide_eq_false in Hempty. apply wp_ret. split.
       - apply (store_done_state f c' _ j r pend s Hc Hj eq_refl); simpl; [done|by rewrite lookup_insert_eq|intros; by rewrite lookup_insert_ne|done].
       - split; simpl; try done.
         + intros r'. destruct (decide (r' = r)) as [->|Hne]; [|by apply Hother]. split; [done|]. intros [_ (s1 & Hs1 & Hsub)].
           destruct Hempty. rewrite Hs0 in Hs1. injection Hs1 as <-. rewrite Hsd. by apply difference_none.
         + intros r'. destruct (decide (r' = r)) as [->|Hne].
           * by rewrite lookup_insert_eq, decide_False, Hs0, Hsd by done.
           * rewrite lookup_insert_ne, A3 by done. by apply Hother. }
  apply bool_decide_eq_true in Hempty.
  destruct (bool_decide (r ∈ cw_finished_reqs_waiting_for_store c')) eqn:Hwait.
  - apply bool_decide_eq_true in Hwait. apply wp_bind, wp_modify, wp_bind, wp_modify, wp_ret. simpl. rewrite delete_insert_eq. split.
    + apply (store_done_state f c' _ j r pend s Hc Hj eq_refl); simpl; [done|..].
      * by rewrite lookup_delete_eq, Hempty.
      * intros r' Hne. by rewrite lookup_delete_ne.
      * intros r' [Hr' Hne]%elem_of_difference. split; [done|]. intros ->. by destruct Hne; apply elem_of_singleton.
    + split; simpl; try done.
      * intros r'. destruct (decide (r' = r)) as [->|Hne].
        -- split; [intros _|set_solver]. split; [by destruct (proj1 (A2 r) Hwait)|]. exists s0. split; [done|]. rewrite Hsd in Hempty. by apply difference_none.
        -- rewrite elem_of_union, elem_of_singleton. rewrite <-(proj1 (Hother r' Hne)). naive_solver.
      * intros r'. rewrite elem_of_difference, A2, elem_of_union, elem_of_singleton. tauto.
      * intros r'. destruct (decide (r' = r)) as [->|Hne]; [rewrite lookup_delete_eq, decide_True by set_solver; done|].
        rewrite lookup_delete_ne, A3, (proj2 (Hother r' Hne)) by done. repeat case_decide; set_solver.
  - apply bool_decide_eq_false in Hwait. apply wp_ret. split.
    + apply (store_done_state f c' _ j r pend s Hc Hj eq_refl); simpl; [done|by rewrite lookup_insert_eq|intros; by rewrite lookup_insert_ne|].
      intros r' Hr'. split; [done|]. by intros ->.
    + split; simpl; try done.
      * intros r'. destruct (decide (r' = r)) as [->|Hne]; [|by apply Hother]. split; [done|]. intros [Hw0 _]. destruct Hwait. by apply A2.
      * intros r'. destruct (decide (r' = r)) as [->|Hne].
        -- by rewrite lookup_insert_eq, decide_False, Hs0, Hsd by done.
        -- rewrite lookup_insert_ne, A3 by done. by apply Hother.
Qed.

Lemma finish_results_wp f c rs : Forall (fun r => res_success r = true) rs ->
  cw_inv_pend f c (map res_job_id rs) ->
  wp (foldM finish_result (∅, ∅) rs) (fun sets c' => cw_inv f c' /\ after_jobs c c' (list_to_set (map res_job_id rs)) sets.1 sets.2) c.
Proof.
  intros Hall Hc.
  eapply (wp_foldM (fun d t sets c' => cw_inv_pend f c' (map res_job_id t) /\ after_jobs c c' (list_to_set (map res_job_id d)) sets.1 sets.2
    /\ Forall (fun r => res_success r = true) t) _ []).
  - split; [done|]. split; [|done]. split; simpl; [intros r..|done].
    + split; [set_solver|]. intros [Hw (s & Hs & Hsub)]. apply (cw_waiting _ _ _ Hc) in Hw. rewrite Hs in Hw. simpl in Hw. set_solver.
    + set_solver.
    + rewrite decide_False by set_solver. destruct (cw_store_jobs c !! r) as [s|]; [|done]. simpl. by rewrite difference_empty_L.
    + set_solver.
    + by rewrite decide_False by set_solver.
  - intros d x t sets c' (Hc' & Ha & [Hx Ht]%Forall_cons). simpl in Hc'.
    assert (Hj : is_Some (cw_jobs c' !! res_job_id x)) by (apply (cw_live _ _ _ Hc'); rewrite !elem_of_app; right; right; left).
    destruct Hj as [[r store] Hj]. assert (Hfin : wp (finish_result sets x) (fun sets' c'' => cw_inv_pend f c'' (map res_job_id t)
      /\ after_jobs c c'' (list_to_set (map res_job_id d) ∪ {[res_job_id x]}) sets'.1 sets'.2) c').
    { destruct store; [by apply (finish_store_wp f c c' r)|by apply (finish_load_wp f c c' r)]. }
    eapply wp_mono; [exact Hfin|]. intros sets' c'' [Hc'' Ha']. split; [done|]. split; [|done].
    rewrite map_app, list_to_set_app_L. simpl. by rewrite union_empty_r_L.
  - intros sets c' (Hc' & Ha & _). by split.
Qed.

(** * The connector's worker: which requests [get_finished] reports, and that every
    job is followed until it is reported. *)
Local Open Scope Z_scope.
Import ConnectorWorker.

Section Worker.
Context (f : Z) (handler_order : gset nat -> list nat) (id_order : gset string -> list string) (job_order : gset Z -> list Z).
Context (Hhandlers : forall s i, i ∈ handler_order s <-> i ∈ s) (Hids : forall s r, r ∈ id_order s <-> r ∈ s).
Implicit Types c : OffloadingConnectorWorker.
Local Abbreviation cw_inv := (cw_inv f).

Lemma handle_preemptions_wp c meta : cw_inv c ->
  wp (handle_preemptions handler_order id_order job_order meta) (fun _ c' => cw_inv c' /\ c' = set_unsubmitted [] (set_worker (cw_worker c') c)) c.
Proof.
  intros Hc. unfold handle_preemptions. apply wp_bind. eapply wp_mono; [by apply submit_stores_wp|]. intros [] c1 [Hc1 Heq].
  eapply (wp_foldM (fun _ _ _ c' => c' = c1) _ []); [done| |by intros waited c' ->].
  intros d r t waited c' ->. apply wp_bind, wp_gets. cbn [id]. destruct (cw_store_jobs c1 !! r) as [jobs|]; [|by apply wp_ret].
  case_bool_decide; by apply wp_ret.
Qed.

(** ** Requests that have finished *)

(** After the loop over the requests of [l]: those without outstanding stores are
    reported, the others wait. *)
Record after_requests c c' (l : list string) (sent sent' : gset string) : Prop := {
  ar_sent : forall r, r ∈ sent' <-> r ∈ sent \/ r ∈ l /\ cw_store_jobs c !! r = Some ∅;
  ar_waiting : forall r, r ∈ cw_finished_reqs_waiting_for_store c' <-> r ∈ cw_finished_reqs_waiting_for_store c
    \/ r ∈ l /\ exists s, cw_store_jobs c !! r = Some s /\ s <> ∅;
  ar_store : forall r, cw_store_jobs c' !! r = if decide (r ∈ l /\ cw_store_jobs c !! r = Some ∅) then None else cw_store_jobs c !! r;
  ar_rest : cw_load_job c' = cw_load_job c /\ cw_jobs c' = cw_jobs c /\ cw_worker c' = cw_worker c
    /\ cw_unsubmitted_store_jobs c' = cw_unsubmitted_store_jobs c
}.

Lemma finish_request_wp c c1 r l sent0 sent : cw_inv c1 -> after_requests c c1 l sent0 sent ->
  wp (finish_request sent r) (fun sent' c' => cw_inv c' /\ after_requests c c' (l ++ [r]) sent0 sent') c1.
Proof.
  intros Hc [A1 A2 A3 (A4 & A5 & A6 & A7)]. assert (Hsnoc : forall x, x ∈ l ++ [r] <-> x ∈ l \/ x = r) by (intros x; rewrite elem_of_app, list_elem_of_singleton; done).
  pose proof Hc as [H1 H2 H3 H4 H5 H6 H7 H8]. unfold finish_request. apply wp_bind, wp_gets. cbn [id].
  assert (Hskip : cw_store_jobs c1 !! r = None -> after_requests c c1 (l ++ [r]) sent0 sent).
  { intros Hr. rewrite A3 in Hr. assert (Hcase : (r ∈ l /\ cw_store_jobs c !! r = Some ∅) \/ cw_store_jobs c !! r = None) by (case_decide; naive_solver).
    clear Hr Hc H1 H2 H3 H4 H5 H6 H7 H8. split; [| | |done]; clear A4 A5 A6 A7; intros x; [rewrite Hsnoc, A1|rewrite Hsnoc, A2|rewrite A3; repeat case_decide; rewrite Hsnoc in *];
      destruct (decide (x = r)) as [->|]; naive_solver. }
  destruct (cw_store_jobs c1 !! r) as [s|] eqn:Es; [|apply wp_ret; split; [done|by apply Hskip]].
  assert (Hrs : cw_store_jobs c !! r = Some s /\ (r ∈ l -> s <> ∅)).
  { rewrite A3 in Es. case_decide as Hd; [done|]. split; [done|]. intros Hl ->. by apply Hd. }
  destruct Hrs as [Hrs Hl]. case_bool_decide as Hs.
  - apply wp_bind, wp_modify, wp_ret. subst s. split.
    + split; simpl; try done.
      * intros x j. destruct (decide (x = r)) as [->|Hne]; [|by rewrite lookup_delete_ne]. rewrite lookup_delete_eq, H6, Es. done.
      * intros x Hx. destruct (decide (x = r)) as [->|Hne]; [|rewrite lookup_delete_ne by done; by apply H8]. apply H8 in Hx. by rewrite Es in Hx.
    + split; simpl; [| | |done]; clear Hc H1 H2 H3 H4 H5 H6 H7 H8 A4 A5 A6 A7 Hskip; intros x.
      * rewrite Hsnoc, elem_of_union, elem_of_singleton, A1. destruct (decide (x = r)) as [->|]; naive_solver.
      * rewrite Hsnoc, A2. destruct (decide (x = r)) as [->|]; naive_solver.
      * destruct (decide (x = r)) as [->|Hne]; [rewrite lookup_delete_eq, decide_True; [done|]; split; [by apply Hsnoc; right|done]|].
        rewrite lookup_delete_ne, A3 by done. repeat case_decide; rewrite Hsnoc in *; naive_solver.
  - apply wp_bind, wp_modify, wp_ret. split.
    + split; simpl; try done. intros x [->%elem_of_singleton|Hx]%elem_of_union; [by rewrite Es|by apply H8].
    + split; simpl; [| | |done]; clear Hc H1 H2 H3 H4 H5 H6 H7 H8 A4 A5 A6 A7 Hskip; intros x.
      * rewrite Hsnoc, A1. destruct (decide (x = r)) as [->|]; naive_solver.
      * rewrite Hsnoc, elem_of_union, elem_of_singleton, A2. destruct (decide (x = r)) as [->|]; naive_solver.
      * rewrite A3. repeat case_decide; rewrite Hsnoc in *; destruct (decide (x = r)) as [->|]; naive_solver.
Qed.

Lemma finish_requests_wp c l sent : cw_inv c ->
  wp (foldM finish_request sent l) (fun sent' c' => cw_inv c' /\ after_requests c c' l sent sent') c.
Proof.
  intros Hc. eapply (wp_foldM (fun d _ sent' c' => cw_inv c' /\ after_requests c c' d sent sent') _ []).
  - split; [done|]. split; [| | |done]; intros r; [rewrite elem_of_nil; tauto|rewrite elem_of_nil; tauto|].
    rewrite decide_False; [done|]. by intros [?%elem_of_nil _].
  - intros d r t sent' c' [Hc' Ha]. by apply finish_request_wp.
  - by intros sent' c' [? ?].
Qed.

(** ** [get_finished] *)

(** Its answer, when the transfers of the jobs [D] are complete. *)
Record finished_spec c (fin : gset string) (D : gset Z) (sent recvd : gset string) c' : Prop := {
  fs_inv : cw_inv c';
  fs_done : forall j, j ∈ flight (cw_worker c) <-> j ∈ D \/ j ∈ flight (cw_worker c');
  fs_sent : forall r, r ∈ sent <-> (r ∈ cw_finished_reqs_waiting_for_store c \/ r ∈ fin) /\ all_done c D r;
  fs_waiting : forall r, r ∈ cw_finished_reqs_waiting_for_store c' <->
    (r ∈ cw_finished_reqs_waiting_for_store c \/ r ∈ fin) /\ is_Some (cw_store_jobs c !! r) /\ ~ all_done c D r;
  fs_store : forall r, cw_store_jobs c' !! r = if decide (r ∈ sent) then None else (fun s => s ∖ D) <$> cw_store_jobs c !! r;
  fs_recvd : forall r, r ∈ recvd <-> exists j, cw_load_job c !! r = Some j /\ j ∈ D;
  fs_load : forall r, cw_load_job c' !! r = if decide (r ∈ recvd) then None else cw_load_job c !! r
}.

Lemma after_both c c1 c' D fin sent0 recvd sent :
  (forall r, r ∈ cw_finished_reqs_waiting_for_store c -> default ∅ (cw_store_jobs c !! r) <> ∅) -> after_jobs c c1 D sent0 recvd ->
  after_requests c1 c' (id_order fin) sent0 sent -> 
  (forall r, r ∈ sent <-> (r ∈ cw_finished_reqs_waiting_for_store c \/ r ∈ fin) /\ all_done c D r)
  /\ (forall r, r ∈ cw_finished_reqs_waiting_for_store c' <->
      (r ∈ cw_finished_reqs_waiting_for_store c \/ r ∈ fin) /\ is_Some (cw_store_jobs c !! r) /\ ~ all_done c D r)
  /\ forall r, cw_store_jobs c' !! r = if decide (r ∈ sent) then None else (fun s => s ∖ D) <$> cw_store_jobs c !! r.
Proof.
  intros Hc [A1 A2 A3 _ _ _] [B1 B2 B3 _].
  assert (Hempty : forall r, cw_store_jobs c1 !! r = Some ∅ <-> (r ∉ sent0) /\ all_done c D r).
  { intros r. rewrite A3. case_decide as Hs; [split; [done|]; by intros [? _]|]. unfold all_done.
    destruct (cw_store_jobs c !! r) as [s|]; simpl; [|split; [done|]; by intros [_ (s & ? & _)]]. split.
    - intros [= Hd]. split; [done|]. exists s. split; [done|by apply difference_none].
    - intros [_ (s' & [= <-] & Hsub)]. f_equal. by apply difference_none. }
  assert (Hfull : forall r, (exists s, cw_store_jobs c1 !! r = Some s /\ s <> ∅) <-> (r ∉ sent0) /\ is_Some (cw_store_jobs c !! r) /\ ~ all_done c D r).
  { intros r. split.
    - intros (s & Hs & Hne). assert (Hn : r ∉ sent0) by (intros Hin; rewrite A3, decide_True in Hs; done).
      split; [done|]. split; [rewrite A3, decide_False in Hs by done; destruct (cw_store_jobs c !! r); [by eexists|done]|].
      intros Ha. apply Hne. assert (Hse : cw_store_jobs c1 !! r = Some ∅) by (by apply Hempty). congruence.
    - intros (Hn & [s Hs] & Hna). exists (s ∖ D). split; [by rewrite A3, decide_False, Hs by done|]. intros Hd.
      apply Hna. exists s. split; [done|by apply difference_none]. }
  assert (Hw0 : forall r, r ∈ cw_finished_reqs_waiting_for_store c -> is_Some (cw_store_jobs c !! r)).
  { intros r Hr. apply Hc in Hr. destruct (cw_store_jobs c !! r); [by eexists|done]. }
  assert (Hsent : forall r, r ∈ sent <-> (r ∈ cw_finished_reqs_waiting_for_store c \/ r ∈ fin) /\ all_done c D r).
  { intros r. rewrite B1, Hids, Hempty, A1. destruct (decide (r ∈ cw_finished_reqs_waiting_for_store c)); [tauto|]. tauto. }
  split; [done|]. split.
  - intros r. rewrite B2, Hids, Hfull, A2, A1. specialize (Hw0 r). destruct (decide (r ∈ cw_finished_reqs_waiting_for_store c)); [|tauto]. split; [tauto|]. intros [_ [? ?]]. left. tauto.
  - intros r. rewrite B3. case_decide as Hd; rewrite Hids in Hd.
    + rewrite decide_True; [done|]. apply B1. right. by rewrite Hids.
    + rewrite A3. case_decide as Hs; [rewrite decide_True; [done|]; apply B1; by left|]. rewrite decide_False; [done|].
      rewrite B1, Hids. tauto.
Qed.

Lemma get_finished_wp c query fin : cw_inv c ->
  wp (get_finished handler_order id_order query fin) (fun a c' => exists D, finished_spec c fin D a.1 a.2 c'
    /\ cw_unsubmitted_store_jobs c' = cw_unsubmitted_store_jobs c /\ forall i, drained query (cw_worker c') i) c.
Proof.
  intros Hc. unfold get_finished. apply wp_bind. unfold on_worker. apply wp_zoom.
  eapply wp_mono; [apply (registry_get_finished_wp handler_order Hhandlers f _ query), Hc|]. intros rs w (Hw & Hfl & Hall & Hdr).
  set (c0 := set_worker w c). set (D := list_to_set (map res_job_id rs) : gset Z).
  assert (Hp : flight (cw_worker c) ++ map fst (cw_unsubmitted_store_jobs c) ++ [] ≡ₚ flight w ++ map fst (cw_unsubmitted_store_jobs c) ++ map res_job_id rs).
  { rewrite Hfl, app_nil_r, <-app_assoc, Permutation_app_comm. by rewrite <-app_assoc. }
  assert (Hc0 : cw_inv_pend f c0 (map res_job_id rs)).
  { destruct Hc as [H1 H2 H3 H4 H5 H6 H7 H8]. split; simpl; try done; [by rewrite <-Hp|]. intros j. by rewrite H4, Hp. }
  apply wp_bind. eapply wp_mono; [apply (finish_results_wp f c0 rs Hall Hc0)|]. intros [sent0 recvd] c1 [Hc1 Ha]. simpl in Ha. fold D in Ha.
  apply wp_bind. eapply wp_mono; [by apply finish_requests_wp|]. intros sent c' [Hc' Hr]. apply wp_ret. simpl.
  destruct (ar_rest _ _ _ _ _ Hr) as (R1 & R2 & R3 & R4).
  destruct (aj_rest _ _ _ _ _ Ha) as [A1 A2]. destruct (after_both c0 c1 c' D fin sent0 recvd sent (cw_waiting _ _ _ Hc0) Ha Hr) as (S1 & S2 & S3).
  exists D. split; [|split; [by rewrite R4, A2|by rewrite R3, A1]]. split; [done| |exact S1|exact S2|exact S3|apply Ha|rewrite R1; apply Ha].
  intros j. rewrite R3, A1. change (flight (cw_worker c0)) with (flight w). rewrite Hfl, elem_of_app. unfold D. by rewrite elem_of_list_to_set.
Qed.
End Worker.
