(* ===== verification/OffloadSetup.v ===== *)
(** What a configuration of KV offloading to CPU memory makes: the block sizes and
    the number of slots ([vllm/v1/kv_offload/spec.py], [cpu/spec.py]), the manager
    behind the abstract interface, and the two transfer handlers that the worker
    registers ([worker/cpu_gpu.py]). *)
From S2P Require Import Prelude PyDict Request FreeQueue SchedState.
From S2P Require Import OffloadPolicy OffloadPolicyLemmas OffloadManager OffloadConnector OffloadTransfer OffloadWorker.
From S2P Require Import OffloadLemmas OffloadRun OffloadSpec OffloadLaws.
From S2P Require Import OffloadTransferSpec.
From S2P Require Import OffloadConnectorLemmas OffloadConnectorStore OffloadConnectorSpec OffloadWorkerSpec.
Local Open Scope Z_scope.

(** The parts of [vllm_config] and [kv_cache_config] that are read; the options of
    [kv_connector_extra_config] may be absent. *)
Record offloading_config := mkOffloadingConfig {
  cfg_hash_block_size : Z;
  cfg_gpu_block_sizes : list Z;
  cfg_group_page_sizes : list Z;
  cfg_num_kv_cache_tensors : Z;
  cfg_world_size : Z;
  cfg_enable_prefix_caching : bool;
  cfg_enable_kv_cache_events : bool;
  cfg_block_size : option Z;
  cfg_cpu_bytes_to_use : option Z;
  cfg_eviction_policy : option string;
  cfg_store_threshold : option Z;
  cfg_max_tracker_size : option Z
}.

Record CPUOffloadingSpec := mkSpec {
  sp_gpu_block_size : list Z;
  sp_block_size_factor : Z;
  sp_num_blocks : Z;
  sp_eviction_policy : string
}.

Fixpoint assert_divides (block_sizes : list Z) (hash_block_size : Z) : res unit :=
  match block_sizes with
  | [] => Ok tt
  | b :: rest => m ← py_mod b hash_block_size ; if m =? 0 then assert_divides rest hash_block_size else Err AssertionError
  end.

(** [OffloadingSpec.__init__]: the number of GPU blocks per offloaded block. *)
Definition block_size_factor_of (cfg : offloading_config) : res Z :=
  _ ← assert_divides (cfg_gpu_block_sizes cfg) (cfg_hash_block_size cfg) ;
  match cfg_block_size cfg with
  | None => Ok 1
  | Some offloaded_block_size =>
      match remove_dups (cfg_gpu_block_sizes cfg) with
      | [gpu_block_size] =>
          m ← py_mod offloaded_block_size gpu_block_size ;
          if m =? 0 then py_floordiv offloaded_block_size gpu_block_size else Err AssertionError
      | _ => Err AssertionError
      end
  end.

(** [CPUOffloadingSpec.__init__] *)
Definition new_spec (cfg : offloading_config) : res CPUOffloadingSpec :=
  factor ← block_size_factor_of cfg ;
  match cfg_cpu_bytes_to_use cfg with
  | None => Err PlainException
  | Some cpu_bytes_to_use =>
      if cpu_bytes_to_use =? 0 then Err PlainException else
      match remove_dups (cfg_group_page_sizes cfg) with
      | [page_size_bytes] =>
          let kv_bytes_per_block := page_size_bytes * cfg_num_kv_cache_tensors cfg * cfg_world_size cfg in
          let kv_bytes_per_offloaded_block := kv_bytes_per_block * factor in
          Ok (mkSpec (cfg_gpu_block_sizes cfg) factor
                (if 0 <? kv_bytes_per_offloaded_block then cpu_bytes_to_use / kv_bytes_per_offloaded_block else 0)
                (default "lru"%string (cfg_eviction_policy cfg)))
      | _ => Err AssertionError
      end
  end.

(** ** The manager *)

(** The object that [get_manager] returns is of one of two classes. *)
Inductive SpecManager :=
  | PlainManager (m : CPUOffloadingManager AnyPolicy)
  | FilteredManager (s : FilterReusedOffloadingManager (CPUOffloadingManager AnyPolicy)).

Definition dispatch {A} (f : M (CPUOffloadingManager AnyPolicy) A)
    (g : M (FilterReusedOffloadingManager (CPUOffloadingManager AnyPolicy)) A) : M SpecManager A := fun t =>
  match t with
  | PlainManager m => let '(r, m') := f m in (r, PlainManager m')
  | FilteredManager s => let '(r, s') := g s in (r, FilteredManager s')
  end.

#[export] Instance spec_manager : OffloadingManager SpecManager := {
  om_lookup hs := dispatch (om_lookup hs) (om_lookup hs);
  om_prepare_load hs := dispatch (om_prepare_load hs) (om_prepare_load hs);
  om_touch hs := dispatch (om_touch hs) (om_touch hs);
  om_complete_load hs := dispatch (om_complete_load hs) (om_complete_load hs);
  om_prepare_store hs := dispatch (om_prepare_store hs) (om_prepare_store hs);
  om_complete_store hs success := dispatch (om_complete_store hs success) (om_complete_store hs success);
  om_take_events := dispatch om_take_events om_take_events
}.

Definition get_manager (cfg : offloading_config) (spec : CPUOffloadingSpec) : res SpecManager :=
  match sp_gpu_block_size spec with
  | [gpu_block_size] =>
      m ← new_manager (gpu_block_size * sp_block_size_factor spec) (sp_num_blocks spec) (sp_eviction_policy spec)
            (cfg_enable_kv_cache_events cfg) ;
      let store_threshold := default 0 (cfg_store_threshold cfg) in
      if 2 <=? store_threshold then
        s ← ReuseFilter.new_filter m store_threshold (default 64000 (cfg_max_tracker_size cfg)) ; Ok (FilteredManager s)
      else Ok (PlainManager m)
  | _ => Err AssertionError
  end.

Definition new_scheduler (cfg : offloading_config) (spec : CPUOffloadingSpec) : res (OffloadingConnectorScheduler SpecManager) :=
  _ ← (if zlen (sp_gpu_block_size spec) =? 1 then Ok tt else Err AssertionError) ;
  manager ← get_manager cfg spec ;
  Connector.new_connector (sp_gpu_block_size spec) (sp_block_size_factor spec) manager (cfg_enable_prefix_caching cfg).

(** ** The handlers *)

(** [CpuGpuOffloadingHandlers.__init__] on the page sizes of the GPU tensors: the
    handler that stores and the one that loads. *)
Definition CpuGpuOffloadingHandlers (gpu_page_sizes : list Z) (block_size_factor : Z) (group_data_refs : list (list Z))
    : res (list SingleDirectionOffloadingHandler) :=
  let cpu_page_sizes := map (fun gpu_page_size_bytes => gpu_page_size_bytes * block_size_factor) gpu_page_sizes in
  gpu_to_cpu_handler ← Handler.new_handler gpu_page_sizes cpu_page_sizes block_size_factor group_data_refs true ;
  cpu_to_gpu_handler ← Handler.new_handler gpu_page_sizes cpu_page_sizes block_size_factor group_data_refs false ;
  Ok [gpu_to_cpu_handler; cpu_to_gpu_handler].

(** [get_handlers]: the pairs of media with the numbers of their handlers. *)
Definition get_handlers : list (string * string * nat) := [(gpu_medium, cpu_medium, 0%nat); (cpu_medium, gpu_medium, 1%nat)].

(** [OffloadingConnectorWorker.__init__] and [_register_handlers]. *)
Definition _register_handlers : M OffloadingWorker unit :=
  forM_ get_handlers (fun d => Worker.register_handler d.1.1 d.1.2 d.2).

Definition new_worker_side (spec : CPUOffloadingSpec) (is_cuda_alike : bool) (gpu_page_sizes : list Z) (group_data_refs : list (list Z))
    : res OffloadingConnectorWorker :=
  if negb is_cuda_alike then Err PlainException else
  objs ← CpuGpuOffloadingHandlers gpu_page_sizes (sp_block_size_factor spec) group_data_refs ;
  match _register_handlers (Worker.new_worker objs) with
  | (Ok _, w) => Ok (ConnectorWorker.new_connector_worker w)
  | (Err e, _) => Err e
  end.

(** * The objects a configuration makes keep their contracts: the manager behind its
    dynamic class satisfies [OffloadingManagerLaws], the worker has its two
    handlers, and the slots fit into the memory that was given. *)
Local Open Scope Z_scope.

(** ** The manager *)

Section Manager.
Context (n : Z).
Local Abbreviation plain_inv := (mgr_inv (items:=any_items) (wf:=any_wf n)).

Definition sm_inv (t : SpecManager) (L : list bytes) : Prop :=
  match t with
  | PlainManager m => plain_inv m L
  | FilteredManager s => (exists seen, filter_inv seen s) /\ plain_inv (f_backing s) L
  end.
Definition sm_backing (t : SpecManager) : CPUOffloadingManager AnyPolicy :=
  match t with PlainManager m => m | FilteredManager s => f_backing s end.
Definition sm_readable (t : SpecManager) : bytes -> bool := ready (sm_backing t).
Definition sm_slot (t : SpecManager) : bytes -> option Z := mgr_slot (sm_backing t).

Lemma wp_dispatch {A} (f : M (CPUOffloadingManager AnyPolicy) A) g (Q : A -> SpecManager -> Prop) t :
  match t with
  | PlainManager m => wp f (fun a m' => Q a (PlainManager m')) m
  | FilteredManager s => wp g (fun a s' => Q a (FilteredManager s')) s
  end -> wp (dispatch f g) Q t.
Proof. unfold wp, dispatch. destruct t as [m|s]; [by destruct (f m) as [[] ?]|by destruct (g s) as [[] ?]]. Qed.

Local Abbreviation plain := (cpu_manager_laws (items:=any_items) (wf:=any_wf n)).
Local Abbreviation filtered := (filter_manager_laws (H0:=plain)).

#[export] Instance spec_manager_laws : OffloadingManagerLaws SpecManager sm_inv sm_readable sm_slot.
Proof.
  split.
  - intros [m|s] L L'; [apply (ml_perm (OffloadingManagerLaws:=plain))|apply (ml_perm (OffloadingManagerLaws:=filtered))].
  - intros t h. apply (ml_readable (OffloadingManagerLaws:=plain)).
  - intros [m|s] L h h' i; [apply (ml_slots (OffloadingManagerLaws:=plain))|apply (ml_slots (OffloadingManagerLaws:=filtered))].
  - intros [m|s] L h i; [apply (ml_slot_nonneg (OffloadingManagerLaws:=plain))|apply (ml_slot_nonneg (OffloadingManagerLaws:=filtered))].
  - intros [m|s] L h; [apply (ml_loads (OffloadingManagerLaws:=plain))|apply (ml_loads (OffloadingManagerLaws:=filtered))].
  - intros [m|s] L hs Hi; apply wp_dispatch; [by apply (ml_touch (OffloadingManagerLaws:=plain))|by apply (ml_touch (OffloadingManagerLaws:=filtered))].
  - intros [m|s] L hs Hi; apply wp_dispatch; [by apply (ml_lookup (OffloadingManagerLaws:=plain))|by apply (ml_lookup (OffloadingManagerLaws:=filtered))].
  - intros [m|s] L hs Hi Hr Hw; apply wp_dispatch; [by apply (ml_prepare_load (OffloadingManagerLaws:=plain))|by apply (ml_prepare_load (OffloadingManagerLaws:=filtered))].
  - intros [m|s] L hs Hi; apply wp_dispatch; [by apply (ml_complete_load (OffloadingManagerLaws:=plain))|by apply (ml_complete_load (OffloadingManagerLaws:=filtered))].
  - intros [m|s] L hs Hi Hnd; apply wp_dispatch; [by apply (ml_prepare_store (OffloadingManagerLaws:=plain))|by apply (ml_prepare_store (OffloadingManagerLaws:=filtered))].
  - intros [m|s] L hs ok Hi; apply wp_dispatch; [by apply (ml_complete_store (OffloadingManagerLaws:=plain))|by apply (ml_complete_store (OffloadingManagerLaws:=filtered))].
  - intros [m|s] L Hi; apply wp_dispatch; [by apply (ml_take_events (OffloadingManagerLaws:=plain))|by apply (ml_take_events (OffloadingManagerLaws:=filtered))].
Qed.
End Manager.

Lemma get_manager_inv cfg spec t : get_manager cfg spec = Ok t -> 0 <= sp_num_blocks spec < 2 ^ 53 ->
  sm_inv (sp_num_blocks spec) t [] /\ forall h, sm_slot t h = None.
Proof.
  unfold get_manager. intros Ht Hn. destruct (sp_gpu_block_size spec) as [|g [|]]; try done.
  destruct (new_manager _ _ _ _) as [m|] eqn:Hm; [|done]. simpl in Ht.
  destruct (new_manager_inv _ _ _ _ _ Hn Hm) as (Hi & _). simpl in Hi.
  assert (Hslot : forall h, mgr_slot m h = None).
  { unfold new_manager in Hm. destruct (cache_policies _ _) as [p|] eqn:Hp; [|done]. injection Hm as <-. intros h.
    destruct (cache_policies_wf _ _ _ Hn Hp) as [Hwf Hit].
    assert (Hnone : cp_get h p = None) by (apply (cl_get_None p h Hwf); rewrite Hit; apply not_elem_of_nil).
    unfold mgr_slot, blk. cbn [m_policy]. by rewrite Hnone. }
  destruct (2 <=? _); [|by injection Ht as <-].
  destruct (ReuseFilter.new_filter _ _ _) as [s|] eqn:Hs; [|done]. injection Ht as <-.
  unfold ReuseFilter.new_filter in Hs. destruct (_ <? 2); [done|]. destruct (default 64000 _ <? 1) eqn:Hmax; [done|]. injection Hs as <-.
  split; [|exact Hslot]. split; [|exact Hi]. exists [].
  split; simpl; try done; try (by apply NoDup_nil_2); unfold zlen; simpl; lia.
Qed.

(** ** The sizes *)

(** What the checks of [OffloadingSpec.__init__] leave. *)
Lemma block_size_factor_ok cfg factor : block_size_factor_of cfg = Ok factor ->
  Forall (fun b => b mod cfg_hash_block_size cfg = 0) (cfg_gpu_block_sizes cfg)
  /\ match cfg_block_size cfg with
     | None => factor = 1
     | Some bs => forall g, g ∈ cfg_gpu_block_sizes cfg -> bs = g * factor
     end.
Proof.
  unfold block_size_factor_of. intros Hf. split.
  - destruct (assert_divides _ _) eqn:Hd; [clear Hf|done]. revert Hd. induction (cfg_gpu_block_sizes cfg) as [|b bs IH]; [constructor|].
    simpl. unfold py_mod. destruct (cfg_hash_block_size cfg =? 0); [done|]. simpl. destruct (b mod _ =? 0) eqn:E; [|done].
    intros Hd. constructor; [lia|by apply IH].
  - destruct (assert_divides _ _); [|done]. simpl in Hf. destruct (cfg_block_size cfg) as [bs|]; [|by injection Hf].
    destruct (remove_dups _) as [|g [|]] eqn:Hd; try done. unfold py_mod, py_floordiv in Hf. destruct (g =? 0) eqn:Eg; [done|]. simpl in Hf.
    destruct (bs mod g =? 0) eqn:Em; [|done]. injection Hf as <-. intros g' Hg'. apply elem_of_remove_dups in Hg'. rewrite Hd in Hg'.
    apply list_elem_of_singleton in Hg' as ->. apply Z_div_exact_full_2; lia.
Qed.

(** A configuration that makes sense: sizes are positive, and the memory is small
    enough for the double-precision bookkeeping of the adaptive policy. *)
Record config_ok (cfg : offloading_config) : Prop := {
  co_gpu : Forall (fun b => 0 < b) (cfg_gpu_block_sizes cfg);
  co_block : forall bs, cfg_block_size cfg = Some bs -> 0 < bs;
  co_bytes : forall n, cfg_cpu_bytes_to_use cfg = Some n -> 0 <= n < 2 ^ 53;
}.

Lemma factor_pos cfg factor : config_ok cfg -> cfg_gpu_block_sizes cfg <> [] -> block_size_factor_of cfg = Ok factor -> 0 < factor.
Proof.
  intros [Hg Hb _] Hne [_ Hf]%block_size_factor_ok. destruct (cfg_block_size cfg) as [bs|]; [|lia]. specialize (Hb bs eq_refl).
  destruct (cfg_gpu_block_sizes cfg) as [|g gs]; [done|]. apply Forall_cons in Hg as [Hg _]. specialize (Hf g ltac:(left)). nia.
Qed.

Lemma num_blocks_small cfg spec : config_ok cfg -> new_spec cfg = Ok spec -> 0 <= sp_num_blocks spec < 2 ^ 53.
Proof.
  intros [_ _ Hb] Hs. unfold new_spec in Hs. destruct (block_size_factor_of cfg) as [factor|]; [|done]. simpl in Hs.
  destruct (cfg_cpu_bytes_to_use cfg) as [n|]; [|done]. specialize (Hb n eq_refl). destruct (n =? 0); [done|].
  destruct (remove_dups _) as [|p [|]]; try done. injection Hs as <-. simpl. destruct (0 <? _) eqn:E; [|lia].
  split; [apply Z.div_pos; lia|]. apply Z.div_lt_upper_bound; nia.
Qed.

(** The CPU memory is used, and not exceeded.  When the spec of a configuration
    can be made, hash blocks fit into GPU blocks and GPU blocks into offloaded
    blocks, the slots of all workers together take at most the configured number of
    bytes, and there is no room for one more slot. *)
Theorem offload_memory_fits cfg spec page n : new_spec cfg = Ok spec -> cfg_cpu_bytes_to_use cfg = Some n -> 0 <= n ->
  page ∈ cfg_group_page_sizes cfg ->
  let slot_bytes := page * cfg_num_kv_cache_tensors cfg * cfg_world_size cfg * sp_block_size_factor spec in
  Forall (fun b => b mod cfg_hash_block_size cfg = 0) (sp_gpu_block_size spec)
  /\ (forall bs g, cfg_block_size cfg = Some bs -> g ∈ sp_gpu_block_size spec -> bs = g * sp_block_size_factor spec)
  /\ 0 <= sp_num_blocks spec
  /\ (0 < slot_bytes -> sp_num_blocks spec * slot_bytes <= n < (sp_num_blocks spec + 1) * slot_bytes).
Proof.
  intros Hs Hn Hpos Hpage. unfold new_spec in Hs. destruct (block_size_factor_of cfg) as [factor|] eqn:Hf; [|done]. simpl in Hs. rewrite Hn in Hs.
  apply block_size_factor_ok in Hf as [Hh Hf]. destruct (n =? 0); [done|].
  destruct (remove_dups _) as [|p [|]] eqn:Hd; try done. injection Hs as <-.
  apply elem_of_remove_dups in Hpage. rewrite Hd in Hpage. apply list_elem_of_singleton in Hpage as ->. simpl.
  set (b := p * cfg_num_kv_cache_tensors cfg * cfg_world_size cfg * factor). split; [done|]. split; [|split].
  - intros bs g Hbs Hg. rewrite Hbs in Hf. by apply Hf.
  - destruct (0 <? b) eqn:E; [|lia]. apply Z.div_pos; lia.
  - intros Hb. rewrite (proj2 (Z.ltb_lt _ _)) by done. pose proof (Z.div_mod n b ltac:(lia)). pose proof (Z.mod_pos_bound n b Hb). nia.
Qed.

(** ** The two sides *)

Lemma new_handler_factors gs cs f refs d h : Handler.new_handler gs cs f refs d = Ok h ->
  h_src_block_size_factor h = (if d then 1 else f) /\ h_dst_block_size_factor h = (if d then f else 1).
Proof.
  unfold Handler.new_handler. destruct (negb _); [done|]. destruct (negb _); [done|]. destruct (negb _); [done|]. destruct (negb _); [done|].
  destruct (foldr _ _ _); [|done]. by intros [= <-].
Qed.

Lemma new_scheduler_started cfg spec c : config_ok cfg -> new_spec cfg = Ok spec -> new_scheduler cfg spec = Ok c ->
  exists t, started (inv:=sm_inv (sp_num_blocks spec)) (slot:=sm_slot) (sp_gpu_block_size spec) (sp_block_size_factor spec) t (cfg_enable_prefix_caching cfg) c.
Proof.
  intros Hcfg Hs Hc. pose proof (num_blocks_small _ _ Hcfg Hs) as Hn. unfold new_scheduler in Hc.
  destruct (zlen (sp_gpu_block_size spec) =? 1) eqn:Hl; [|done]. simpl in Hc. destruct (get_manager cfg spec) as [t|] eqn:Ht; [|done]. simpl in Hc.
  apply get_manager_inv in Ht as [Hi Hsl]; [|done]. exists t. split; [done|].
  unfold new_spec in Hs. destruct (block_size_factor_of cfg) as [factor|] eqn:Hf; [|done]. simpl in Hs.
  destruct (cfg_cpu_bytes_to_use cfg) as [n|]; [|done]. destruct (n =? 0); [done|]. destruct (remove_dups _) as [|p [|]]; try done. injection Hs as <-. simpl in *.
  split; [apply Hcfg|]. split; [|by split]. apply (factor_pos cfg); [done| |done]. intros E. by rewrite E in Hl.
Qed.

Lemma new_worker_side_inv spec cuda sizes refs w : new_worker_side spec cuda sizes refs = Ok w ->
  cw_inv (sp_block_size_factor spec) w /\ cw_load_job w = ∅ /\ cw_store_jobs w = ∅ /\ cw_finished_reqs_waiting_for_store w = ∅.
Proof.
  unfold new_worker_side, CpuGpuOffloadingHandlers. destruct (negb cuda); [done|].
  destruct (Handler.new_handler _ _ _ _ true) as [h0|] eqn:E0; [|done]. simpl. destruct (Handler.new_handler _ _ _ _ false) as [h1|] eqn:E1; [|done].
  simpl. intros [= <-]. pose proof (new_handler_factors _ _ _ _ _ _ E0) as F0. pose proof (new_handler_factors _ _ _ _ _ _ E1) as F1.
  apply new_handler_inv in E0 as [I0 N0], E1 as [I1 N1]. split; [|done].
  assert (Hfl : forall hs t, flight (mkWorker [h0; h1] hs t) = []) by (intros hs t; unfold flight; simpl; by rewrite N0, N1).
  split; simpl; rewrite ?Hfl; try done.
  - split; simpl; try done.
    + intros [|[|i]] h; simpl; [by intros [= <-]|by intros [= <-]|done].
    + by intros h [= <-].
    + by intros h [= <-].
  - by intros j [? ?].
  - apply NoDup_nil_2.
  - intros j. rewrite lookup_empty, elem_of_nil. split; [by intros [? ?]|done].
Qed.
