(* ===== verification/OffloadSystem.v ===== *)
(** The two sides of the offloading connector together, for a synchronous engine
    with one worker: the scheduler makes its calls, a step builds the metadata and
    the worker executes it ([vllm/v1/worker/gpu_model_runner.py] and
    [kv_connector_model_runner_mixin.py]), and
    the worker's answer goes back to the scheduler before the next step. *)
From S2P Require Import Prelude PyDict Request FreeQueue SchedState.
From S2P Require Import OffloadPolicyLemmas OffloadManager OffloadLaws OffloadConnector OffloadTransfer OffloadTransferSpec.
From S2P Require Import OffloadConnectorLemmas OffloadConnectorStore OffloadConnectorSpec.
From S2P Require Import OffloadWorker OffloadWorkerSpec.
Local Open Scope Z_scope.
Import Connector ConnectorWorker.

(** [finished] are the requests that have finished since the last step, [owed] those
    for which [request_finished] has said that the connector will report when their
    blocks may be freed, [output] what the worker has answered and the scheduler has
    not read. *)
Record system (T : Type) := mkSystem {
  sys_scheduler : OffloadingConnectorScheduler T;
  sys_worker : OffloadingConnectorWorker;
  sys_finished : gset string;
  sys_owed : gset string;
  sys_output : option (gset string * gset string)
}.
Arguments mkSystem {T}. Arguments sys_scheduler {T}. Arguments sys_worker {T}. Arguments sys_finished {T}.
Arguments sys_owed {T}. Arguments sys_output {T}.

Section System.
Context {T : Type} `{OffloadingManagerLaws T inv readable slot}.
Context (hash_order : gset bytes -> list bytes) (id_order : gset string -> list string).
Context (handler_order : gset nat -> list nat) (job_order : gset Z -> list Z).
Implicit Types c : OffloadingConnectorScheduler T.

(** What the model runner does with the metadata of a step: [handle_preemptions],
    then [start_load_kv], [wait_for_save] and [get_finished].  A step without
    tokens has no forward pass and does not save; with speculative decoding the
    saving is deferred until the drafts have been made. *)
Definition worker_step (speculative : bool) (so : SchedulerOutput) (meta : OffloadingConnectorMetadata) (query : nat -> Z -> bool)
    : M OffloadingConnectorWorker (gset string * gset string) :=
  _ ← handle_preemptions handler_order id_order job_order meta ;
  start_kv_transfers meta ;;
  let get_finished := ConnectorWorker.get_finished handler_order id_order query (so_finished_req_ids so) in
  if so_total_num_scheduled_tokens so =? 0 then get_finished
  else if speculative then output ← get_finished ; prepare_store_kv meta ;; mret output
  else prepare_store_kv meta ;; get_finished.

(** The scheduler's output is ready for a step: its requests are, it names the
    requests that have finished, and without tokens there are no requests. *)
Record step_ready (reqs : gmap string Request) (so : SchedulerOutput) (fin : gset string) c : Prop := {
  sr_build : build_ready reqs so c;
  sr_finished : so_finished_req_ids so = fin;
  sr_empty : so_total_num_scheduled_tokens so = 0 -> yield_req_data so = []
}.

(** The identifier of a request is not used again while the connector owes the
    report of an earlier one. *)
Inductive sys_step : system T -> system T -> Prop :=
  | sys_call c c' w fin owed call r :
      match call with CallMatch req _ _ | CallAlloc req _ => request_id req ∉ fin ∪ owed | CallEvents => True | _ => False end ->
      allowed c call -> run_call hash_order id_order call c = (r, c') ->
      sys_step (mkSystem c w fin owed None) (mkSystem c' w fin owed None)
  | sys_finish c c' w fin owed out req r : request_finished req c = (Ok r, c') ->
      sys_step (mkSystem c w fin owed out)
        (mkSystem c' w ({[request_id req]} ∪ fin) (if r.1 then {[request_id req]} ∪ owed else owed) out)
  | sys_execute c c' w w' fin owed speculative reqs so query meta out : step_ready reqs so fin c ->
      build_connector_meta hash_order id_order reqs so c = (Ok meta, c') -> worker_step speculative so meta query w = (Ok out, w') ->
      sys_step (mkSystem c w fin owed None) (mkSystem c' w' ∅ owed (Some out))
  | sys_read c c' w fin owed out co :
      (forall r, r ∈ default [] (co_finished_sending co) <-> r ∈ out.1) -> (forall r, r ∈ default [] (co_finished_recving co) <-> r ∈ out.2) ->
      update_connector_output hash_order co c = (Ok tt, c') ->
      sys_step (mkSystem c w fin owed (Some out)) (mkSystem c' w fin (owed ∖ out.1) None).
End System.

(** * The offloading connector end to end: the worker never fails on what the
    scheduler hands it, the books of the two sides agree, and every request whose
    blocks are held back is reported. *)
Local Open Scope Z_scope.
Import Connector ConnectorWorker.

Section System.
Context {T : Type} `{OffloadingManagerLaws T inv readable slot}.
Context (hash_order : gset bytes -> list bytes) (id_order : gset string -> list string).
Context (handler_order : gset nat -> list nat) (job_order : gset Z -> list Z).
Context (Hhash : forall s, hash_order s ≡ₚ elements s) (Hids : forall s r, r ∈ id_order s <-> r ∈ s).
Context (Hhandlers : forall s i, i ∈ handler_order s <-> i ∈ s).
Context (f : Z).
Implicit Types c : OffloadingConnectorScheduler T.
Implicit Types s : system T.
Local Abbreviation conn_inv := (conn_inv (inv:=inv) (readable:=readable) (slot:=slot)).
Local Abbreviation sys_step := (sys_step hash_order id_order handler_order job_order).

Definition sent_of s : gset string := match sys_output s with Some out => out.1 | None => ∅ end.
Definition recvd_of s : gset string := match sys_output s with Some out => out.2 | None => ∅ end.

Record sys_inv s : Prop := {
  si_conn : conn_inv (sys_scheduler s);
  si_factor : oc_block_size_factor (sys_scheduler s) = f;
  si_worker : cw_inv f (sys_worker s);
  si_loads : loads_ready f (oc_reqs_to_load (sys_scheduler s)) (sys_worker s);
  si_loading : forall r, is_Some (oc_reqs_being_loaded (sys_scheduler s) !! r) <->
    is_Some (cw_load_job (sys_worker s) !! r) \/ r ∈ od_keys (oc_reqs_to_load (sys_scheduler s)) \/ r ∈ recvd_of s;
  si_storing : forall r, is_Some (oc_reqs_being_stored (sys_scheduler s) !! r) <-> is_Some (cw_store_jobs (sys_worker s) !! r) \/ r ∈ sent_of s;
  si_sent : forall r, r ∈ sent_of s -> cw_store_jobs (sys_worker s) !! r = None;
  si_recvd : forall r, r ∈ recvd_of s -> cw_load_job (sys_worker s) !! r = None;
  si_idle : is_Some (sys_output s) -> oc_reqs_to_load (sys_scheduler s) = [];
  si_owed : forall r, r ∈ sys_owed s <-> is_Some (oc_reqs_being_stored (sys_scheduler s) !! r)
    /\ (r ∈ sys_finished s \/ r ∈ cw_finished_reqs_waiting_for_store (sys_worker s) \/ r ∈ sent_of s);
  si_gone : forall r, r ∈ sys_finished s \/ r ∈ sys_owed s -> (r ∉ oc_requests (sys_scheduler s))
}.

(** ** The scheduler's calls *)

(** The requests the call is about. *)
Definition call_ids (call : connector_call) : gset string :=
  match call with CallMatch req _ _ | CallAlloc req _ => {[request_id req]} | _ => ∅ end.

(** The loads and stores under way are those of before, but perhaps one load more,
    and only the requests [ids] have become known. *)
Definition one_load (ids : gset string) c c' : Prop :=
  oc_block_size_factor c' = oc_block_size_factor c /\ oc_requests c' ⊆ ids ∪ oc_requests c /\ oc_reqs_being_stored c' = oc_reqs_being_stored c /\
  ((oc_reqs_being_loaded c' = oc_reqs_being_loaded c /\ oc_reqs_to_load c' = oc_reqs_to_load c)
   \/ exists r load hs, oc_reqs_being_loaded c !! r = None /\ spec_ok (oc_block_size_factor c) (LoadSpec load)
      /\ oc_reqs_being_loaded c' = <[r := hs]> (oc_reqs_being_loaded c) /\ oc_reqs_to_load c' = od_set r load (oc_reqs_to_load c)).

Lemma match_call_loads c req n allocate : conn_inv c -> allowed c (CallMatch req n allocate) ->
  wp (run_call hash_order id_order (CallMatch req n allocate)) (fun _ c' => conn_inv c' /\ one_load {[request_id req]} c c') c.
Proof.
  intros Hc (Hh & Hn & Hw & Hnone & Hfit). simpl. apply wp_bind. eapply wp_mono; [by apply matched_wp|].
  assert (Hidle : forall c1, manager_only c c1 -> one_load {[request_id req]} c c1) by (intros c1 ->; split; [done|]; split; [set_solver|]; split; [done|]; by left).
  intros [[k|] b] c1 (Hc1 & Heq & Hv & Hr); [|apply wp_ret; split; [done|by apply Hidle]]. simpl.
  destruct (allocate k) as [blocks|] eqn:Ha; [|apply wp_ret; split; [done|by apply Hidle]]. destruct b.
  - destruct Hr as [e He]. assert (Hk : 0 < k) by (pose proof (conn_offl_pos c1 Hc1); destruct He; lia).
    assert (Hfit1 : blocks_fit c1 n k blocks) by (specialize (Hfit k blocks Hk Ha); by rewrite Heq).
    eapply wp_mono; [apply (alloc_load_wp c1 req n k e blocks); try done; by rewrite Heq|].
    intros [] c2 (Hc2 & _ & load & Heq2 & Hpl). split; [done|].
    destruct (load_pairs c1 req n k e blocks load Hc1 Hn He Hfit1 Hpl) as (pairs & Hpairs & _).
    rewrite Heq2, Heq. split; [done|]. split; [set_solver|]. split; [done|]. right. simpl.
    exists (request_id req), load, (list_to_set (segment (offl c1 req) (n / oc_offloaded_block_size c1) e)). split_and!; try done.
    + destruct load. exists pairs. rewrite Heq in Hpairs. exact Hpairs.
    + by rewrite Heq.
  - subst k. eapply wp_mono; [by apply alloc_nothing_wp|]. intros [] c' [? ->]. split; [done|].
    rewrite Heq. split; [done|]. split; [set_solver|]. split; [done|]. by left.
Qed.

Lemma call_loads c call : match call with CallMatch _ _ _ | CallAlloc _ _ | CallEvents => True | _ => False end ->
  conn_inv c -> allowed c call -> wp (run_call hash_order id_order call) (fun _ c' => conn_inv c' /\ one_load (call_ids call) c c') c.
Proof.
  intros Hcall Hc Ha. destruct call as [req n allocate|req blocks| | | |]; try done.
  - by apply match_call_loads.
  - eapply wp_mono; [by apply alloc_nothing_wp|]. intros [] c' [? ->]. split; [done|]. split; [done|]. split; [set_solver|]. split; [done|]. by left.
  - apply wp_bind. eapply wp_mono; [by apply take_events_wp|]. intros evs c' (Hc' & Heq & _). apply wp_ret. split; [done|].
    rewrite Heq. split; [done|]. split; [set_solver|]. split; [done|]. by left.
Qed.

Lemma loads_ready_add loads w r load : loads_ready f loads w -> (r ∉ od_keys loads) -> cw_load_job w !! r = None -> spec_ok f (LoadSpec load) ->
  loads_ready f (od_set r load loads) w.
Proof.
  intros [Hnd Hall] Hr Hw Hok. split; [by apply od_set_keys_nodup|]. rewrite od_set_new by done. apply Forall_app. split; [done|].
  by constructor.
Qed.

Lemma sys_call_inv c c' w fin owed ids : sys_inv (mkSystem c w fin owed None) -> ids ## fin ∪ owed -> conn_inv c' -> one_load ids c c' -> sys_inv (mkSystem c' w fin owed None).
Proof.
  intros [H1 H2 H3 H4 H5 H6 H7 H8 H9 H10 H11] Hids' Hc' (Ef & Er & Es & Hl). simpl in *.
  assert (Hgone : forall r, r ∈ fin \/ r ∈ owed -> (r ∉ oc_requests c')).
  { intros r Hr Hin. apply Er, elem_of_union in Hin as [Hin|Hin]; [|by apply (H11 r)]. apply (Hids' r Hin). by apply elem_of_union. }
  destruct Hl as [[El Et]|(r & load & hs & Hnone & Hok & El & Et)].
  - split; simpl; rewrite ?Es, ?El, ?Et; try done. congruence.
  - assert (Hr : cw_load_job w !! r = None /\ (r ∉ od_keys (oc_reqs_to_load c))).
    { assert (Hn : ~ is_Some (oc_reqs_being_loaded c !! r)) by (rewrite Hnone; by intros [? ?]). rewrite H5 in Hn.
      split; [apply eq_None_not_Some|]; tauto. }
    destruct Hr as [Hr1 Hr2]. split; simpl; rewrite ?Es, ?El, ?Et; try done; [congruence|apply loads_ready_add; [done|done|done|by rewrite <-H2]|].
    intros x. rewrite lookup_insert_is_Some, H5, <-!od_lookup_keys, od_lookup_set. destruct (decide (r = x)) as [->|Hne].
    + rewrite decide_True by done. split; [intros _; right; left; by eexists|by left].
    + rewrite decide_False by done. split; [intros [?|[_ ?]]; done|by right].
Qed.

Lemma sys_finish_inv c c' w fin owed out req r : sys_inv (mkSystem c w fin owed out) -> request_finished req c = (Ok r, c') ->
  sys_inv (mkSystem c' w ({[request_id req]} ∪ fin) (if r.1 then {[request_id req]} ∪ owed else owed) out).
Proof.
  intros [H1 H2 H3 H4 H5 H6 H7 H8 H9 H10 H11] Hrun. simpl in *. pose proof (request_finished_wp c req H1) as Hw. unfold wp in Hw. rewrite Hrun in Hw.
  destruct Hw as (Hc' & -> & Et & El & Es & Er).
  assert (Ef : oc_block_size_factor c' = f) by (unfold request_finished, mbind, M_bind, modify, gets in Hrun; injection Hrun as <-; exact H2).
  assert (Hx : forall x, x ∈ (if bool_decide (is_Some (oc_reqs_being_stored c !! request_id req)) then {[request_id req]} ∪ owed else owed)
    <-> x ∈ owed \/ x = request_id req /\ is_Some (oc_reqs_being_stored c !! x)).
  { intros x. case_bool_decide as Hb; [rewrite elem_of_union, elem_of_singleton|]; split; naive_solver. }
  split; simpl; rewrite ?Et, ?El, ?Es, ?Er; try done; intros x; rewrite Hx.
  - unfold sent_of in *; simpl in *. rewrite H10, elem_of_union, elem_of_singleton. tauto.
  - rewrite elem_of_union, elem_of_difference, elem_of_singleton. specialize (H11 x). tauto.
Qed.

Lemma sys_read_inv c c' w fin owed out co : sys_inv (mkSystem c w fin owed (Some out)) ->
  (forall r, r ∈ default [] (co_finished_sending co) <-> r ∈ out.1) -> (forall r, r ∈ default [] (co_finished_recving co) <-> r ∈ out.2) ->
  update_connector_output hash_order co c = (Ok tt, c') -> sys_inv (mkSystem c' w fin (owed ∖ out.1) None).
Proof.
  intros [H1 H2 H3 H4 H5 H6 H7 H8 H9 H10 H11] Hsent Hrecv Hrun. unfold sent_of, recvd_of in *. simpl in *.
  pose proof (connector_output_wp hash_order Hhash c co H1) as Hw. unfold wp in Hw. rewrite Hrun in Hw. destruct Hw as (Hc' & Ho & Et & Es & El).
  assert (Hs' : forall r, is_Some (oc_reqs_being_stored c' !! r) <-> is_Some (oc_reqs_being_stored c !! r) /\ (r ∉ out.1)).
  { intros r. rewrite Es. case_decide as Hd; rewrite Hsent in Hd; [split; [by intros [? ?]|tauto]|tauto]. }
  assert (Hl' : forall r, is_Some (oc_reqs_being_loaded c' !! r) <-> is_Some (oc_reqs_being_loaded c !! r) /\ (r ∉ out.2)).
  { intros r. rewrite El. case_decide as Hd; rewrite Hrecv in Hd; [split; [by intros [? ?]|tauto]|tauto]. }
  split; unfold sent_of, recvd_of; simpl; rewrite ?Et; try done.
  - destruct Ho as (_ & _ & -> & _). done.
  - intros r. rewrite Hl', H5, (H9 ltac:(by eexists)), elem_of_nil, elem_of_empty. split; [tauto|]. intros [Hr|[?|?]]; [|done|done].
    split; [by left|]. intros Hin. rewrite (H8 r Hin) in Hr. by destruct Hr.
  - intros r. rewrite Hs', H6, elem_of_empty. split; [tauto|]. intros [Hr|?]; [|done]. split; [by left|].
    intros Hin. rewrite (H7 r Hin) in Hr. by destruct Hr.
  - intros r. rewrite elem_of_difference, H10, Hs'. rewrite elem_of_empty. tauto.
  - destruct Ho as (_ & _ & _ & -> & _). intros r. rewrite elem_of_difference. specialize (H11 r). tauto.
Qed.

(** ** The worker's step *)

Record step_post w (meta : OffloadingConnectorMetadata) (fin : gset string) (query : nat -> Z -> bool) (out : gset string * gset string) w' : Prop := {
  sp_inv : cw_inv f w';
  sp_loads : forall r, is_Some (cw_load_job w' !! r) \/ r ∈ out.2 <-> is_Some (cw_load_job w !! r) \/ r ∈ od_keys (reqs_to_load meta);
  sp_recvd : forall r, r ∈ out.2 -> cw_load_job w' !! r = None;
  sp_stores : forall r, is_Some (cw_store_jobs w' !! r) \/ r ∈ out.1 <-> is_Some (cw_store_jobs w !! r) \/ r ∈ od_keys (reqs_to_store meta);
  sp_sent : forall r, r ∈ out.1 -> cw_store_jobs w' !! r = None;
  sp_kept : forall r, r ∈ out.1 \/ r ∈ cw_finished_reqs_waiting_for_store w' <->
    (r ∈ cw_finished_reqs_waiting_for_store w \/ r ∈ fin) /\ (is_Some (cw_store_jobs w !! r) \/ r ∈ od_keys (reqs_to_store meta));
  sp_all : (forall i e, query i e = true) -> (forall r, cw_load_job w' !! r = None)
    /\ forall r, r ∉ cw_finished_reqs_waiting_for_store w'
}.

Lemma drained_all query w : (forall i e, query i e = true) -> (forall i, drained query w i) -> flight w = [].
Proof.
  intros Hq Hd. assert (Hall : Forall (fun h => h_transfers h = []) (ow_objs w)).
  { apply Forall_lookup. intros i h Hh. destruct (h_transfers h) as [|t ts] eqn:Et; [done|]. specialize (Hd i h t ts Hh Et). by rewrite Hq in Hd. }
  unfold flight. induction Hall as [|h hs Hh _ IH]; [done|]. simpl. by rewrite Hh, IH.
Qed.

(** Requests that finished store nothing more. *)
Definition stores_live w (fin : gset string) (meta : OffloadingConnectorMetadata) : Prop :=
  forall r, r ∈ od_keys (reqs_to_store meta) -> ~ (r ∈ cw_finished_reqs_waiting_for_store w \/ r ∈ fin).

(** The state after the loads have started. *)
Record loads_started w (meta : OffloadingConnectorMetadata) w2 : Prop := {
  ls_inv : cw_inv f w2;
  ls_store : cw_store_jobs w2 = cw_store_jobs w;
  ls_waiting : cw_finished_reqs_waiting_for_store w2 = cw_finished_reqs_waiting_for_store w;
  ls_load : forall r, is_Some (cw_load_job w2 !! r) <-> is_Some (cw_load_job w !! r) \/ r ∈ od_keys (reqs_to_load meta);
  ls_flight : forall j p, cw_jobs w2 !! j = Some p -> j ∈ flight (cw_worker w2)
}.

(** A job of a map is complete when nothing is in flight any more. *)
Lemma finished_all w2 fin D sent recvd w4 w3 : finished_spec f w3 fin D sent recvd w4 -> cw_inv f w2 ->
  (forall j p, cw_jobs w2 !! j = Some p -> j ∈ flight (cw_worker w2)) -> cw_worker w3 = cw_worker w2 -> cw_load_job w3 = cw_load_job w2 ->
  flight (cw_worker w4) = [] ->
  (forall r, cw_load_job w4 !! r = None)
  /\ forall r, r ∈ cw_finished_reqs_waiting_for_store w4 -> cw_store_jobs w3 !! r <> cw_store_jobs w2 !! r.
Proof.
  intros [F1 F2 F3 F4 F5 F6 F7] Hw2 Hin Eo El Hfl.
  assert (HD : forall j p, cw_jobs w2 !! j = Some p -> j ∈ D).
  { intros j p Hj. apply Hin in Hj. rewrite <-Eo in Hj. apply F2 in Hj. rewrite Hfl, elem_of_nil in Hj. tauto. }
  split.
  - intros r. rewrite F7. case_decide as Hd; [done|]. destruct (cw_load_job w3 !! r) as [j|] eqn:Ej; [|done]. exfalso. apply Hd, F6.
    exists j. split; [done|]. rewrite El in Ej. apply (HD j (r, false)). by apply (cw_loads _ _ _ Hw2).
  - intros r (_ & [x Hx] & Hna)%F4 Heq. apply Hna. exists x. split; [done|]. intros j Hj. apply (HD j (r, true)), (cw_stores _ _ _ Hw2).
    by rewrite <-Heq, Hx.
Qed.

(** The results are collected after the stores of the step have been recorded. *)
Lemma collect_after_save w fin meta query w2 w3 : loads_started w meta w2 -> cw_inv f w3 -> stores_live w fin meta -> 
  cw_load_job w3 = cw_load_job w2 -> cw_finished_reqs_waiting_for_store w3 = cw_finished_reqs_waiting_for_store w2 -> cw_worker w3 = cw_worker w2 ->
  (forall r, is_Some (cw_store_jobs w3 !! r) <-> is_Some (cw_store_jobs w2 !! r) \/ r ∈ od_keys (reqs_to_store meta)) ->
  (forall r, (r ∉ od_keys (reqs_to_store meta)) -> cw_store_jobs w3 !! r = cw_store_jobs w2 !! r) ->
  wp (ConnectorWorker.get_finished handler_order id_order query fin) (step_post w meta fin query) w3.
Proof.
  intros [Hw2 Es2 Ew2 El2 Hin2] Hw3 Hlive El3 Ew3 Eo3 Es3 Ek3. 
  eapply wp_mono; [by apply (get_finished_wp f handler_order id_order job_order Hhandlers Hids)|]. intros [sent recvd] w4 (D & Hfin & _ & Hdr). simpl in Hfin.
  pose proof Hfin as [F1 F2 F3 F4 F5 F6 F7]. rewrite Ew3, Ew2 in F3, F4. rewrite Es2 in Es3. rewrite El3 in F6, F7.
  assert (Hdone : forall r, all_done w3 D r -> is_Some (cw_store_jobs w3 !! r)) by (intros r (x & Hx & _); by eexists).
  split; simpl; try done.
  - intros r. rewrite <-El2, F7. case_decide as Hd; [|tauto]. split; [|by right]. intros _. apply F6 in Hd as (j & Hj & _). by eexists.
  - intros r Hr. by rewrite F7, decide_True.
  - intros r. rewrite <-Es3, F5. case_decide as Hd; [|rewrite fmap_is_Some; tauto]. split; [|by right]. intros _. by apply Hdone, F3.
  - intros r Hr. by rewrite F5, decide_True.
  - intros r. rewrite F3, F4, <-Es3. specialize (Hdone r). destruct (decide (r ∈ sent)) as [Hd|Hd]; rewrite F3 in Hd; tauto.
  - intros Hq. destruct (finished_all w2 _ _ _ _ _ _ Hfin Hw2 Hin2 Eo3 El3 (drained_all _ _ Hq Hdr)) as [A1 A2]. split; [done|].
    intros r Hr. apply (A2 r Hr), Ek3. intros Hk. apply (Hlive r Hk). by apply F4 in Hr as [? _].
Qed.

(** The stores are recorded after the results have been collected. *)
Lemma collect_before_save w fin meta query w2 : loads_started w meta w2 -> stores_live w fin meta ->
  Forall (fun x => spec_ok f (StoreSpec x.2)) (reqs_to_store meta) ->
  wp (output ← ConnectorWorker.get_finished handler_order id_order query fin ; prepare_store_kv meta ;; mret output) (step_post w meta fin query) w2.
Proof.
  intros [Hw2 Es2 Ew2 El2 Hin2] Hlive Hall. apply wp_bind.
  eapply wp_mono; [by apply (get_finished_wp f handler_order id_order job_order Hhandlers Hids)|]. intros [sent recvd] w4 (D & Hfin & _ & Hdr). simpl in Hfin.
  pose proof Hfin as [F1 F2 F3 F4 F5 F6 F7]. rewrite Ew2 in F3, F4. apply wp_bind.
  eapply wp_mono; [by apply (prepare_store_kv_wp f)|]. intros [] w5 (Hw5 & El5 & Ew5 & Es5 & Eo5 & Ek5). apply wp_ret.
  assert (Hdone : forall r, all_done w2 D r -> is_Some (cw_store_jobs w !! r)) by (intros r (x & Hx & _); rewrite <-Es2; by eexists).
  assert (Hnew : forall r, r ∈ sent -> (r ∉ od_keys (reqs_to_store meta))) by (intros r [Hr _]%F3 Hk; by apply (Hlive r Hk)).
  rewrite Es2 in F4, F5.
  split; simpl; try done; rewrite ?El5, ?Ew5.
  - intros r. rewrite <-El2, F7. case_decide as Hd; [|tauto]. split; [|by right]. intros _. apply F6 in Hd as (j & Hj & _). by eexists.
  - intros r Hr. by rewrite F7, decide_True.
  - intros r. rewrite Es5, F5. case_decide as Hd; [|rewrite fmap_is_Some; tauto]. split; [|tauto]. intros _. left. by apply Hdone, F3.
  - intros r Hr. rewrite Ek5 by (by apply Hnew). by rewrite F5, decide_True.
  - intros r. rewrite F3, F4. specialize (Hdone r). specialize (Hlive r). destruct (decide (r ∈ sent)) as [Hd|Hd]; rewrite F3 in Hd; tauto.
  - intros Hq. destruct (finished_all w2 _ _ _ _ _ _ Hfin Hw2 Hin2 eq_refl eq_refl (drained_all _ _ Hq Hdr)) as [A1 A2]. split; [done|].
    intros r Hr. by destruct (A2 r Hr).
Qed.

Lemma worker_step_wp w speculative so meta query : cw_inv f w -> loads_ready f (reqs_to_load meta) w ->
  stores_live w (so_finished_req_ids so) meta -> (so_total_num_scheduled_tokens so = 0 -> reqs_to_store meta = []) ->
  Forall (fun x => spec_ok f (StoreSpec x.2)) (reqs_to_store meta) ->
  wp (worker_step id_order handler_order job_order speculative so meta query) (step_post w meta (so_finished_req_ids so) query) w.
Proof.
  intros Hw Hload Hlive Hempty Hstore. unfold worker_step.
  apply wp_bind. eapply wp_mono; [by apply (handle_preemptions_wp f)|]. intros _ w1 [Hw1 Eq1].
  apply wp_bind. eapply wp_mono; [apply (start_kv_transfers_wp f); [done|]|]. { rewrite Eq1. exact Hload. }
  intros [] w2 (Hw2 & Es2 & Eu2 & Ew2 & El2). rewrite Eq1 in Es2, Ew2, El2. simpl in Es2, Ew2, El2.
  assert (Hst : loads_started w meta w2).
  { split; try done. intros j p Hj. pose proof (proj1 (cw_live _ _ _ Hw2 j) ltac:(by eexists)) as Hin. by rewrite Eu2, app_nil_r in Hin. }
  cbv zeta. destruct (so_total_num_scheduled_tokens so =? 0) eqn:Et; [|destruct speculative].
  - apply (collect_after_save w _ meta query w2 w2); try done. intros r. rewrite (Hempty ltac:(lia)), elem_of_nil. tauto.
  - by apply collect_before_save.
  - apply wp_bind. eapply wp_mono; [by apply (prepare_store_kv_wp f)|]. intros [] w3 (Hw3 & El3 & Ew3 & Es3 & Eo3 & Ek3).
    by apply (collect_after_save w _ meta query w2 w3).
Qed.

(** ** A step of the engine *)

(** The metadata that [build_connector_meta] hands to the worker, and the worker's
    answer. *)
Record executed c w fin owed query (meta : OffloadingConnectorMetadata) c' (out : gset string * gset string) w' : Prop := {
  ex_inv : sys_inv (mkSystem c' w' ∅ owed (Some out));
  ex_post : step_post w meta fin query out w';
  ex_loads : reqs_to_load meta = oc_reqs_to_load c;
  ex_loading : oc_reqs_being_loaded c' = oc_reqs_being_loaded c;
  ex_stores : forall r, is_Some (oc_reqs_being_stored c' !! r) <-> is_Some (oc_reqs_being_stored c !! r) \/ r ∈ od_keys (reqs_to_store meta);
  ex_known : forall r, r ∈ od_keys (reqs_to_store meta) -> r ∈ oc_requests c
}.

Lemma execute_wp c w fin owed speculative reqs so query : sys_inv (mkSystem c w fin owed None) -> step_ready reqs so fin c ->
  wp (build_connector_meta hash_order id_order reqs so)
     (fun meta c' => wp (worker_step id_order handler_order job_order speculative so meta query)
       (fun out w' => executed c w fin owed query meta c' out w') w) c.
Proof.
  intros [H1 H2 H3 H4 H5 H6 H7 H8 H9 H10 H11] [Hready Hfin Hempty]. unfold sent_of, recvd_of in *. simpl in *. subst fin.
  pose proof (build_connector_meta_wp hash_order id_order Hhash reqs so c H1 Hready) as Hb.
  apply wp_run in Hb as (meta & c' & Hrun & Hc' & Et & Eml & _ & El & Er & _ & Es & Hnd & Ef & Hcp & _ & Hkn). rewrite H2 in Ef.
  unfold wp at 1. rewrite Hrun.
  assert (Hall : Forall (fun x => spec_ok f (StoreSpec x.2)) (reqs_to_store meta)).
  { apply Forall_forall. intros [r [gpu cpu]] Hin. apply (od_lookup_Some _ _ _ Hnd) in Hin. destruct (Hcp _ _ Hin) as (req & ids & ts & start & num & pairs & _ & _ & _ & _ & Hp & _).
    rewrite Ef in Hp. by exists pairs. }
  assert (Hgone : forall r, r ∈ od_keys (reqs_to_store meta) -> ~ (r ∈ so_finished_req_ids so \/ r ∈ owed)) by (intros r Hr Hf; by apply (H11 r Hf), Hkn).
  assert (Hw : forall r, r ∈ cw_finished_reqs_waiting_for_store w -> is_Some (cw_store_jobs w !! r)).
  { intros r Hr. pose proof (cw_waiting _ _ _ H3 r Hr) as Hne. destruct (cw_store_jobs w !! r); [by eexists|done]. }
  assert (Hst : forall r, is_Some (oc_reqs_being_stored c !! r) <-> is_Some (cw_store_jobs w !! r)).
  { intros r. rewrite H6, elem_of_empty. tauto. }
  assert (Hlive : stores_live w (so_finished_req_ids so) meta).
  { intros r Hr Hf. specialize (Hgone r Hr). rewrite H10, Hst in Hgone. specialize (Hw r). tauto. }
  eapply wp_mono; [apply worker_step_wp; [done|by rewrite Eml|done| |done]|].
  { intros Hz. by apply (no_requests_no_stores hash_order id_order reqs so c meta c' (Hempty Hz)). }
  intros out w' Hp. pose proof Hp as [P1 P2 P3 P4 P5 P6 P7].
  split; try done. split; unfold sent_of, recvd_of; simpl; try done.
  - rewrite Et. split; [apply NoDup_nil_2|constructor].
  - intros r. rewrite El, H5, Et, elem_of_nil, elem_of_empty, <-Eml. specialize (P2 r). tauto.
  - intros r. rewrite Es, Hst. specialize (P4 r). tauto.
  - intros r. rewrite H10, Es, Hst, elem_of_empty. specialize (P6 r). specialize (Hgone r). specialize (Hw r).
    rewrite H10, Hst, elem_of_empty in Hgone. tauto.
  - rewrite Er. intros r [?%elem_of_empty|Hr]; [done|]. apply H11. by right.
Qed.

Lemma sys_execute_inv c c' w w' fin owed speculative reqs so query meta out : sys_inv (mkSystem c w fin owed None) -> step_ready reqs so fin c ->
  build_connector_meta hash_order id_order reqs so c = (Ok meta, c') ->
  worker_step id_order handler_order job_order speculative so meta query w = (Ok out, w') -> executed c w fin owed query meta c' out w'.
Proof.
  intros Hi Hready Hb Hw. pose proof (execute_wp c w fin owed speculative reqs so query Hi Hready) as Hwp. unfold wp in Hwp. by rewrite Hb, Hw in Hwp.
Qed.

Lemma sys_step_inv s s' : sys_step s s' -> sys_inv s -> sys_inv s'.
Proof.
  intros [c c' w fin owed call r Hcall Ha Hrun|c c' w fin owed out req r Hrun|c c' w w' fin owed speculative reqs so query meta out Hready Hb Hw|c c' w fin owed out co Hs Hr Hrun] Hi.
  - assert (Hwp : wp (run_call hash_order id_order call) (fun _ c' => conn_inv c' /\ one_load (call_ids call) c c') c).
    { apply call_loads; [by destruct call|apply (si_conn _ Hi)|done]. }
    unfold wp in Hwp. rewrite Hrun in Hwp. destruct r; [|done]. destruct Hwp as [Hc' Hl].
    apply (sys_call_inv c c' w fin owed (call_ids call)); try done. destruct call; simpl; set_solver.
  - by eapply sys_finish_inv.
  - eapply ex_inv, sys_execute_inv; done.
  - by eapply sys_read_inv.
Qed.

Lemma sys_run_inv s s' : rtc sys_step s s' -> sys_inv s -> sys_inv s'.
Proof. induction 1 as [|s1 s2 s3 Hst _ IH]; [done|]. intros Hi. apply IH. by eapply sys_step_inv. Qed.
End System.
