(* ===== verification/OffloadEndToEnd.v ===== *)
(** KV offloading from its configuration on: every step of the engine succeeds, the
    books of scheduler and worker agree, and the requests whose blocks are held back
    are reported. *)
From S2P Require Import Prelude PyDict Request FreeQueue SchedState Samples.
From S2P Require Import OffloadPolicy OffloadPolicyLemmas OffloadManager OffloadLaws OffloadConnector OffloadTransfer OffloadTransferSpec.
From S2P Require Import OffloadConnectorLemmas OffloadConnectorStore OffloadConnectorSpec.
From S2P Require Import OffloadWorker OffloadWorkerSpec OffloadSetup OffloadSystem.
From S2P Require Import OffloadLemmas OffloadRun.
Local Open Scope Z_scope.
Import Connector ConnectorWorker.

Section EndToEnd.
Context (hash_order : gset bytes -> list bytes) (id_order : gset string -> list string).
Context (handler_order : gset nat -> list nat) (job_order : gset Z -> list Z).
Context (Hhash : forall s, hash_order s ≡ₚ elements s) (Hids : forall s r, r ∈ id_order s <-> r ∈ s).
Context (Hhandlers : forall s i, i ∈ handler_order s <-> i ∈ s).
Context (cfg : offloading_config) (cuda : bool) (sizes : list Z) (refs : list (list Z)).
Implicit Types s : system SpecManager.
Local Abbreviation sys_step := (sys_step hash_order id_order handler_order job_order).
Local Abbreviation worker_step := (worker_step id_order handler_order job_order).

(** [s] is reached from the connector that the configuration makes. *)
Definition system_reaches s : Prop :=
  config_ok cfg /\ exists spec c w, new_spec cfg = Ok spec /\ new_scheduler cfg spec = Ok c /\ new_worker_side spec cuda sizes refs = Ok w
    /\ rtc sys_step (mkSystem c w ∅ ∅ None) s.

Lemma reaches_inv s : system_reaches s -> exists n f, sys_inv (inv:=sm_inv n) (readable:=sm_readable) (slot:=sm_slot) f s.
Proof.
  intros (Hcfg & spec & c & w & Hs & Hc & Hw & Hrun). exists (sp_num_blocks spec), (sp_block_size_factor spec).
  eapply sys_run_inv; [done..|exact Hrun|].
  destruct (new_scheduler_started _ _ _ Hcfg Hs Hc) as (t & Hst). pose proof (started_inv hash_order Hhash _ _ _ _ _ Hst) as Hinv.
  destruct Hst as (Hnew & _). destruct (new_worker_side_inv _ _ _ _ _ Hw) as (Hcw & El & Es & Ew).
  destruct (sp_gpu_block_size spec) as [|g [|]]; try done. injection Hnew as <-.
  split; unfold sent_of, recvd_of; simpl; rewrite ?El, ?Es, ?Ew; try done.
  - split; [apply NoDup_nil_2|constructor].
  - intros r. rewrite !lookup_empty, elem_of_nil, elem_of_empty. split; [by intros [? ?]|by intros [[? ?]|[?|?]]].
  - intros r. rewrite !lookup_empty, elem_of_empty. split; [by intros [? ?]|by intros [[? ?]|?]].
  - intros r. rewrite lookup_empty, elem_of_empty. split; [done|]. by intros [[? ?] _].
Qed.

(** C8: no step fails, whatever the transfers do.  From any configuration that makes
    sense, after any run, with the worker's last answer read: a step for which the
    scheduler's output is ready builds its metadata, and the worker executes
    it - preempted requests, loads, deferred stores and results - without a failed
    assertion or missing job, also when speculative decoding defers the saving; and
    the answer can be read back. *)
Theorem offload_steps_succeed s speculative reqs so query co :
  system_reaches s -> sys_output s = None -> step_ready reqs so (sys_finished s) (sys_scheduler s) ->
  exists meta c' out w', build_connector_meta hash_order id_order reqs so (sys_scheduler s) = (Ok meta, c')
    /\ worker_step speculative so meta query (sys_worker s) = (Ok out, w')
    /\ exists c'', update_connector_output hash_order co c' = (Ok tt, c'').
Proof.
  intros Hr Ho Hready. destruct (reaches_inv s Hr) as (n & f & Hi). destruct s as [c w fin owed o]. simpl in *. subst o.
  pose proof (execute_wp hash_order id_order handler_order job_order Hhash Hids Hhandlers f c w fin owed speculative reqs so query Hi Hready) as Hw.
  apply wp_run in Hw as (meta & c' & Hb & Hw). apply wp_run in Hw as (out & w' & Hw & He).
  exists meta, c', out, w'. split; [done|]. split; [done|].
  pose proof (connector_output_wp hash_order Hhash c' co (si_conn _ _ (ex_inv _ _ _ _ _ _ _ _ _ _ He))) as Hc.
  apply wp_run in Hc as ([] & c'' & Hc & _). by exists c''.
Qed.

(** C7: every request whose blocks are held back is reported.  In every step the
    requests reported as saved are requests that the scheduler owes the blocks of,
    and those reported as loaded are being loaded; no such request is forgotten:
    it stays finished, waits in the worker, or has been reported; and a step in
    which all the transfers have completed reports them all. *)
Theorem offload_reports s speculative reqs so query meta c' out w' :
  system_reaches s -> sys_output s = None -> step_ready reqs so (sys_finished s) (sys_scheduler s) ->
  build_connector_meta hash_order id_order reqs so (sys_scheduler s) = (Ok meta, c') ->
  worker_step speculative so meta query (sys_worker s) = (Ok out, w') ->
  (forall r, r ∈ out.1 -> r ∈ sys_owed s) /\ (forall r, r ∈ out.2 -> is_Some (oc_reqs_being_loaded (sys_scheduler s) !! r))
  /\ (forall r, r ∈ sys_owed s -> r ∈ out.1 \/ r ∈ cw_finished_reqs_waiting_for_store w')
  /\ (forall r, is_Some (oc_reqs_being_loaded (sys_scheduler s) !! r) -> r ∈ out.2 \/ is_Some (cw_load_job w' !! r))
  /\ ((forall i e, query i e = true) ->
      (forall r, r ∈ sys_owed s -> r ∈ out.1) /\ forall r, is_Some (oc_reqs_being_loaded (sys_scheduler s) !! r) -> r ∈ out.2).
Proof.
  intros Hr Ho Hready Hb Hw. destruct (reaches_inv s Hr) as (n & f & Hi). destruct s as [c w fin owed o]. simpl in *. subst o.
  pose proof (sys_execute_inv hash_order id_order handler_order job_order Hhash Hids Hhandlers f c c' w w' fin owed speculative reqs so query meta out Hi Hready Hb Hw) as [E1 E2 E3 E4 E5 E6].
  destruct E1 as [_ _ _ _ I5 I6 _ _ I9 I10 _]. unfold sent_of, recvd_of in *. simpl in *. specialize (I9 ltac:(by eexists)).
  assert (Hload : forall r, is_Some (oc_reqs_being_loaded c !! r) <-> is_Some (cw_load_job w' !! r) \/ r ∈ out.2).
  { intros r. rewrite <-E4, I5, I9, elem_of_nil. tauto. }
  assert (Howed : forall r, r ∈ owed -> r ∈ out.1 \/ r ∈ cw_finished_reqs_waiting_for_store w').
  { intros r Hin. apply I10 in Hin as [_ [?%elem_of_empty|?]]; tauto. }
  split; [intros r Hs; apply I10; rewrite I6; tauto|]. split; [intros r; rewrite Hload; tauto|]. split; [done|].
  split; [intros r; rewrite Hload; tauto|]. intros Hq. destruct (sp_all _ _ _ _ _ _ _ E2 Hq) as [A1 A2]. split.
  - intros r Hin. destruct (Howed r Hin) as [|Hwait]; [done|]. by destruct (A2 r).
  - intros r [Hs|?]%Hload; [|done]. rewrite A1 in Hs. by destruct Hs.
Qed.

(** C9: scheduler and worker agree.  In every reachable state, a request is being
    loaded for the scheduler exactly when its load waits for the next step, is a job
    of the worker, or has just been reported; its blocks are being stored exactly
    when the worker follows its store jobs or has just reported it; the scheduler
    is owed a report for exactly the finished requests with blocks being stored. *)
Theorem offload_books_agree s r : system_reaches s ->
  (is_Some (oc_reqs_being_loaded (sys_scheduler s) !! r) <->
     is_Some (cw_load_job (sys_worker s) !! r) \/ r ∈ od_keys (oc_reqs_to_load (sys_scheduler s)) \/ r ∈ recvd_of s)
  /\ (is_Some (oc_reqs_being_stored (sys_scheduler s) !! r) <-> is_Some (cw_store_jobs (sys_worker s) !! r) \/ r ∈ sent_of s)
  /\ (r ∈ sys_owed s <-> is_Some (oc_reqs_being_stored (sys_scheduler s) !! r)
       /\ (r ∈ sys_finished s \/ r ∈ cw_finished_reqs_waiting_for_store (sys_worker s) \/ r ∈ sent_of s))
  /\ (r ∈ sys_owed s -> (r ∉ oc_requests (sys_scheduler s))).
Proof.
  intros Hr. destruct (reaches_inv s Hr) as (n & f & [_ _ _ _ H5 H6 _ _ _ H10 H11]). split; [done|]. split; [done|]. split; [done|].
  intros Ho. apply H11. by right.
Qed.
End EndToEnd.

(** * A run of the whole offloading system, on which its theorems are applied: the
    blocks of request "a" are stored while it runs, it finishes before the transfer
    is complete, and the next step reports it. *)
Local Open Scope Z_scope.
Import Connector ConnectorWorker.

Definition run_config : offloading_config :=
  mkOffloadingConfig 2 [2] [16; 16] 1 1 true true (Some 4) (Some 130) None None None.

Lemma run_config_ok : config_ok run_config.
Proof. split; simpl; [constructor; [lia|constructor]|by intros bs [= <-]|by intros n [= <-]]. Qed.

Lemma offload_memory_fits_witness :
  new_spec run_config = Ok (mkSpec [2] 2 4 "lru") /\ 4 * 32 <= 130 < 5 * 32.
Proof.
  assert (Hs : new_spec run_config = Ok (mkSpec [2] 2 4 "lru")) by (vm_compute; reflexivity). split; [exact Hs|].
  destruct (offload_memory_fits run_config _ 16 130 Hs eq_refl ltac:(lia) ltac:(left)) as (_ & _ & _ & H). apply H. reflexivity.
Defined.

Definition nat_order (s : gset nat) : list nat := elements s.
Definition int_order (s : gset Z) : list Z := elements s.
Abbreviation build := (build_connector_meta set_order string_order).
Abbreviation step := (worker_step string_order nat_order int_order true).

(** The states of the run; a step that failed would leave the state as it is. *)
Definition sys0 : option (system SpecManager) :=
  match new_spec run_config with
  | Ok spec => match new_scheduler run_config spec, new_worker_side spec true [8; 8] [[0; 1]] with
               | Ok c, Ok w => Some (mkSystem c w ∅ ∅ None)
               | _, _ => None
               end
  | _ => None
  end.
Definition sys_do (call : connector_call) (s : system SpecManager) : system SpecManager :=
  mkSystem (snd (run_call set_order string_order call (sys_scheduler s))) (sys_worker s) (sys_finished s) (sys_owed s) (sys_output s).
Definition sys_exec (reqs : gmap string Request) (so : SchedulerOutput) (query : nat -> Z -> bool) (s : system SpecManager) : option (system SpecManager) :=
  match build reqs so (sys_scheduler s) with
  | (Ok meta, c') => match step so meta query (sys_worker s) with
                     | (Ok out, w') => Some (mkSystem c' w' ∅ (sys_owed s) (Some out))
                     | _ => None
                     end
  | _ => None
  end.
Definition no_event : nat -> Z -> bool := fun _ _ => false.
Definition every_event : nat -> Z -> bool := fun _ _ => true.
Definition reqs_a : gmap string Request := {["a" := run_request "a"]}.
Definition idle_output : SchedulerOutput :=
  mkSchedulerOutput [] cached_make_empty [] 0 [] [] [] None {["a"]} [] false false None None.

Definition start_state : system SpecManager := default (mkSystem (mkConnector 0 0 0 (PlainManager (sample_manager 4 "lru" (PolicyLRU []))) ∅ ∅ [] ∅ None ∅ ∅)
  (new_connector_worker (Worker.new_worker [])) ∅ ∅ None) sys0.
Definition matched_state := sys_do run_match start_state.
Definition stored_state := default start_state (sys_exec reqs_a run_output no_event matched_state).
Definition read_state := mkSystem (snd (update_connector_output set_order (mkKVConnectorOutput None None ∅) (sys_scheduler stored_state)))
  (sys_worker stored_state) ∅ (∅ ∖ ∅) None.
Definition finished_state := mkSystem (snd (request_finished (run_request "a") (sys_scheduler read_state))) (sys_worker read_state) ({["a"]} ∪ ∅) ({["a"]} ∪ ∅ ∖ ∅) None.

Local Abbreviation sys_step := (sys_step set_order string_order nat_order int_order).
Local Abbreviation reaches := (system_reaches set_order string_order nat_order int_order run_config true [8; 8] [[0; 1]]).

Lemma string_order_ok (s : gset string) r : r ∈ string_order s <-> r ∈ s.
Proof. apply elem_of_elements. Qed.
Lemma nat_order_ok (s : gset nat) i : i ∈ nat_order s <-> i ∈ s.
Proof. apply elem_of_elements. Qed.

Lemma exec_step reqs so query c w owed s : step_ready reqs so (so_finished_req_ids so) c ->
  sys_exec reqs so query (mkSystem c w (so_finished_req_ids so) owed None) = Some s -> sys_step (mkSystem c w (so_finished_req_ids so) owed None) s.
Proof.
  intros Hready Hs. unfold sys_exec in Hs. simpl in Hs. destruct (build reqs so c) as [[meta|] c'] eqn:Eb; [|done].
  destruct (step so meta query w) as [[out|] w'] eqn:Ew; [|done]. injection Hs as <-. by apply (sys_execute _ _ _ _ c c' w w' _ owed true reqs so query meta out).
Qed.

Lemma finish_step s s' req r : request_finished req (sys_scheduler s) = (Ok r, sys_scheduler s') -> sys_worker s' = sys_worker s ->
  sys_finished s' = {[request_id req]} ∪ sys_finished s -> sys_owed s' = (if r.1 then {[request_id req]} ∪ sys_owed s else sys_owed s) ->
  sys_output s' = sys_output s -> sys_step s s'.
Proof. destruct s, s'. simpl. intros Hr -> -> -> ->. by apply sys_finish. Qed.

Lemma matched_ready : step_ready reqs_a run_output ∅ (sys_scheduler matched_state).
Proof.
  split; [|reflexivity|done]. split; [apply (bool_decide_unpack _); vm_compute; exact I|]. intros d Hd. apply list_elem_of_singleton in Hd as ->.
  exists (run_request "a"), 8. split; try done; try (by vm_compute). split; [vm_compute; reflexivity|]. apply (bool_decide_unpack _). vm_compute. exact I.
Qed.

Lemma finished_reached : reaches finished_state.
Proof.
  split; [exact run_config_ok|]. exists (mkSpec [2] 2 4 "lru"), (sys_scheduler start_state), (sys_worker start_state).
  split; [vm_compute; reflexivity|]. split; [vm_compute; reflexivity|]. split; [vm_compute; reflexivity|].
  apply (rtc_l _ _ matched_state).
  { apply (sys_call _ _ _ _ _ _ _ ∅ ∅ run_match (Ok tt)); [cbn; set_solver| |vm_compute; reflexivity].
    split; [split; [vm_compute; reflexivity|apply (bool_decide_unpack _); vm_compute; exact I]|]. split; [lia|]. split; [vm_compute; reflexivity|].
    split; [vm_compute; reflexivity|]. intros k blocks Hk. by destruct (k =? 0) eqn:E; [lia|]. }
  apply (rtc_l _ _ stored_state).
  { apply (exec_step reqs_a run_output no_event); [exact matched_ready|vm_compute; reflexivity]. }
  apply (rtc_l _ _ read_state).
  { assert (stored_state = mkSystem (sys_scheduler stored_state) (sys_worker stored_state) ∅ ∅ (Some (∅, ∅))) as -> by (vm_compute; reflexivity).
    apply (sys_read _ _ _ _ _ _ _ ∅ ∅ (∅, ∅) (mkKVConnectorOutput None None ∅)); [..|vm_compute; reflexivity];
      intros r; simpl; by rewrite elem_of_nil, elem_of_empty. }
  apply rtc_once, (finish_step _ _ (run_request "a") (true, None)); vm_compute; reflexivity.
Qed.

Lemma finished_ready : step_ready reqs_a idle_output (sys_finished finished_state) (sys_scheduler finished_state).
Proof. split; [|reflexivity|done]. split; [apply NoDup_nil_2|]. by intros d ?%elem_of_nil. Qed.

Lemma owes_a : "a"%string ∈ sys_owed finished_state.
Proof. vm_compute. reflexivity. Qed.

Lemma offload_steps_succeed_witness : exists meta c' out w',
  build reqs_a idle_output (sys_scheduler finished_state) = (Ok meta, c') /\ step idle_output meta every_event (sys_worker finished_state) = (Ok out, w')
  /\ exists c'', update_connector_output set_order (mkKVConnectorOutput (Some ["a"%string]) None ∅) c' = (Ok tt, c'').
Proof.
  exact (offload_steps_succeed set_order string_order nat_order int_order set_order_ok string_order_ok nat_order_ok run_config true [8; 8] [[0; 1]]
    finished_state true reqs_a idle_output every_event (mkKVConnectorOutput (Some ["a"%string]) None ∅) finished_reached eq_refl finished_ready).
Defined.

Definition reported := build reqs_a idle_output (sys_scheduler finished_state).
Definition reported_meta : OffloadingConnectorMetadata :=
  match fst reported with Ok meta => meta | Err _ => mkOffloadingConnectorMetadata [] [] None end.
Definition answered := step idle_output reported_meta every_event (sys_worker finished_state).

Lemma offload_reports_witness : exists out w', answered = (Ok out, w') /\ "a"%string ∈ out.1.
Proof.
  assert (Ha : answered = (Ok ({["a"%string]}, ∅), snd answered)) by (vm_compute; reflexivity).
  exists ({["a"%string]}, ∅), (snd answered). split; [exact Ha|].
  destruct (offload_reports set_order string_order nat_order int_order set_order_ok string_order_ok nat_order_ok run_config true [8; 8] [[0; 1]]
    finished_state true reqs_a idle_output every_event reported_meta (snd reported) ({["a"%string]}, ∅) (snd answered)
    finished_reached eq_refl finished_ready ltac:(vm_compute; reflexivity) Ha) as (_ & _ & _ & _ & Hall).
  exact (proj1 (Hall (fun i e => eq_refl)) _ owes_a).
Defined.

Lemma offload_books_agree_witness : "a"%string ∈ sys_owed finished_state /\ is_Some (cw_store_jobs (sys_worker finished_state) !! "a"%string).
Proof.
  split; [exact owes_a|].
  destruct (offload_books_agree set_order string_order nat_order int_order set_order_ok string_order_ok nat_order_ok run_config true [8; 8] [[0; 1]]
    finished_state "a"%string finished_reached) as (_ & Hstore & Howed & _).
  destruct (proj1 Howed owes_a) as [Hs _]. apply Hstore in Hs as [Hs|Hs]; [exact Hs|].
  exfalso. revert Hs. change (sent_of finished_state) with (∅ : gset string). apply not_elem_of_empty.
Defined.
