(* ===== verification/PyRes.v ===== *)
(** Pure computations that may raise, over lists: comprehensions, [sum], [min] and
    [max], with their inversion lemmas. *)
From S2P Require Import Prelude.
Local Open Scope Z_scope.

Definition r_assert (b : bool) : res unit := if b then Ok tt else Err AssertionError.
Definition py_cdiv (a b : Z) : res Z := if b =? 0 then Err ZeroDivisionError else Ok (cdiv a b).
(** [max(l)] and [min(l)]. *)
Definition py_list_max (l : list Z) : res Z := match l with [] => Err ValueError | x :: l' => Ok (foldl Z.max x l') end.
Definition py_list_min (l : list Z) : res Z := match l with [] => Err ValueError | x :: l' => Ok (foldl Z.min x l') end.
(** [sum(f(x) for x in l)] *)
Definition sum_with {A} (f : A -> res Z) (l : list A) : res Z := ns ← mapM f l ; Ok (zsum ns).

(** ** Inversion *)

Lemma bind_Ok {A B} (m : res A) (k : A -> res B) b : (x ← m ; k x) = Ok b -> exists x, m = Ok x /\ k x = Ok b.
Proof. destruct m as [x|e]; [|done]. intros Hk. by exists x. Qed.

Lemma r_assert_Ok b u : r_assert b = Ok u -> b = true.
Proof. by destruct b. Qed.

Lemma py_cdiv_Ok a b n : py_cdiv a b = Ok n -> b <> 0 /\ n = cdiv a b.
Proof. unfold py_cdiv. destruct (b =? 0) eqn:E; [done|]. intros [= <-]. lia. Qed.

Lemma py_floordiv_Ok a b n : py_floordiv a b = Ok n -> b <> 0 /\ n = a / b.
Proof. unfold py_floordiv. destruct (b =? 0) eqn:E; [done|]. intros [= <-]. lia. Qed.

Lemma py_mod_Ok a b n : py_mod a b = Ok n -> b <> 0 /\ n = a mod b.
Proof. unfold py_mod. destruct (b =? 0) eqn:E; [done|]. intros [= <-]. lia. Qed.

(** [H : (x ← m ; k x) = Ok b] becomes [Hx : m = Ok x] and [H : k x = Ok b]. *)
Tactic Notation "bind_inv" hyp(H) "as" simple_intropattern(x) simple_intropattern(Hx) :=
  apply bind_Ok in H as (x & Hx & H).

Lemma mapM_Ok {A B} (f : A -> res B) l ks : mapM f l = Ok ks <-> Forall2 (fun x y => f x = Ok y) l ks.
Proof.
  revert ks. induction l as [|x l IH]; intros ks; simpl.
  - split; [intros [= <-]; constructor|]. intros H. by inversion H.
  - split.
    + intros H. bind_inv H as y Hy. bind_inv H as ys Hys. injection H as <-. constructor; [done|]. by apply IH.
    + intros H. inversion H as [|? y ? ys Hy Hys]; subst. apply IH in Hys. unfold mbind, res_bind in *. by rewrite Hy, Hys.
Qed.

Lemma mapM_length {A B} (f : A -> res B) l ks : mapM f l = Ok ks -> length ks = length l.
Proof. intros H%mapM_Ok. symmetry. by eapply Forall2_length. Qed.

Lemma mapM_total {A B} (f : A -> res B) (g : A -> B) l : (forall x, x ∈ l -> f x = Ok (g x)) -> mapM f l = Ok (map g l).
Proof.
  intros H. apply mapM_Ok. induction l as [|x l IH]; simpl; [constructor|].
  constructor; [apply H; left|]. apply IH. intros y Hy. apply H. by right.
Qed.

Lemma sum_with_total {A} (f : A -> res Z) g l : (forall x, x ∈ l -> f x = Ok (g x)) -> sum_with f l = Ok (zsum (map g l)).
Proof. intros H. unfold sum_with. by rewrite (mapM_total f g l H). Qed.

Lemma py_list_max_Ok l m : py_list_max l = Ok m -> m ∈ l /\ forall x, x ∈ l -> x <= m.
Proof.
  destruct l as [|x l]; [done|]. simpl. intros [= <-].
  assert (H : forall a, foldl Z.max a l ∈ a :: l /\ forall y, y ∈ a :: l -> y <= foldl Z.max a l).
  { induction l as [|y l IH]; intros a; simpl.
    - split; [left|]. intros z ->%list_elem_of_singleton. lia.
    - destruct (IH (Z.max a y)) as [Hin Hle]. split.
      + apply elem_of_cons in Hin as [->|Hin]; [|by right; right]. destruct (Z.max_spec a y) as [[_ ->]|[_ ->]]; [right; left|left].
      + intros z Hz. pose proof (Hle (Z.max a y) ltac:(left)).
        apply elem_of_cons in Hz as [->|Hz]; [lia|]. apply elem_of_cons in Hz as [->|Hz]; [lia|]. apply Hle. by right. }
  apply H.
Qed.

Lemma py_list_min_Ok l m : py_list_min l = Ok m -> m ∈ l /\ forall x, x ∈ l -> m <= x.
Proof.
  destruct l as [|x l]; [done|]. simpl. intros [= <-].
  assert (H : forall a, foldl Z.min a l ∈ a :: l /\ forall y, y ∈ a :: l -> foldl Z.min a l <= y).
  { induction l as [|y l IH]; intros a; simpl.
    - split; [left|]. intros z ->%list_elem_of_singleton. lia.
    - destruct (IH (Z.min a y)) as [Hin Hle]. split.
      + apply elem_of_cons in Hin as [->|Hin]; [|by right; right]. destruct (Z.min_spec a y) as [[_ ->]|[_ ->]]; [left|right; left].
      + intros z Hz. pose proof (Hle (Z.min a y) ltac:(left)).
        apply elem_of_cons in Hz as [->|Hz]; [lia|]. apply elem_of_cons in Hz as [->|Hz]; [lia|]. apply Hle. by right. }
  apply H.
Qed.

Lemma py_list_max_total l : l <> [] -> exists m, py_list_max l = Ok m.
Proof. destruct l; [done|]. by eexists. Qed.

(** [len(set(l)) == 1] *)
Lemma remove_dups_single `{EqDecision A} (l : list A) x : remove_dups l = [x] -> forall y, y ∈ l <-> y = x.
Proof. intros H y. rewrite <-elem_of_remove_dups, H. apply list_elem_of_singleton. Qed.

Lemma remove_dups_const `{EqDecision A} (l : list A) x : l <> [] -> (forall y, y ∈ l -> y = x) -> remove_dups l = [x].
Proof.
  intros Hl H. assert (Hp : remove_dups l ≡ₚ [x]).
  { apply NoDup_Permutation; [apply NoDup_remove_dups|apply NoDup_singleton|]. intros y. rewrite elem_of_remove_dups, list_elem_of_singleton.
    split; [apply H|]. intros ->. destruct l as [|z l]; [done|]. rewrite <-(H z) by left. left. }
  symmetry in Hp. by apply Permutation_length_1_inv in Hp.
Qed.

(** * NumPy arrays and torch tensors on the host as lists: element and slice
    assignment, and rows moved and swapped. *)
Local Open Scope Z_scope.

(** [a[i] = x] for an index that is not negative. *)
Definition np_set {A} (a : list A) (i : Z) (x : A) : res (list A) :=
  if (0 <=? i) && (i <? zlen a) then Ok (py_set a i x) else Err IndexError.

(** [a[lo:hi] = vals]: the slice is clipped; the lengths must agree, or one value is
    broadcast. *)
Definition np_assign {A} (a : list A) (lo hi : Z) (vals : list A) : res (list A) :=
  let lo := py_clip (zlen a) lo in
  let hi := Z.max lo (py_clip (zlen a) hi) in
  let write v := Ok (take (Z.to_nat lo) a ++ v ++ drop (Z.to_nat hi) a) in
  if zlen vals =? hi - lo then write vals
  else match vals with [x] => write (zreplicate (hi - lo) x) | _ => Err ValueError end.
(** [a[lo:hi] = x] *)
Definition np_fill {A} (a : list A) (lo hi : Z) (x : A) : list A :=
  let lo := py_clip (zlen a) lo in
  let hi := Z.max lo (py_clip (zlen a) hi) in
  take (Z.to_nat lo) a ++ zreplicate (hi - lo) x ++ drop (Z.to_nat hi) a.

(** [f] on one element. *)
Definition np_update {A} (a : list A) (i : Z) (f : A -> res A) : res (list A) := x ← py_get a i ; y ← f x ; np_set a i y.

(** [a[tgt] = a[src]] *)
Definition np_move {A} (a : list A) (src tgt : Z) : res (list A) := x ← py_get a src ; np_set a tgt x.
(** [a[i], a[j] = a[j], a[i]], where indexing copies the element. *)
Definition np_swap {A} (a : list A) (i j : Z) : res (list A) := x ← py_get a i ; y ← py_get a j ; a ← np_set a i y ; np_set a j x.
(** The same statement on the rows of a tensor: indexing gives views, so the second
    assignment reads row [i] after the first has written it. *)
Definition view_swap {A} (a : list A) (i j : Z) : res (list A) :=
  y ← py_get a j ; a ← np_set a i y ; x ← py_get a i ; np_set a j x.

(** [a[tgt, :n] = a[src, :n]] *)
Definition prefix_copy {A} (n : Z) (src tgt : list A) : list A :=
  let n := Z.to_nat (py_clip (zlen tgt) n) in take n src ++ drop n tgt.
Definition np_move_prefix {A} (a : list (list A)) (src tgt n : Z) : res (list (list A)) :=
  x ← py_get a src ; y ← py_get a tgt ; np_set a tgt (prefix_copy n x y).
(** The prefixes of two rows swapped, through a copy of the first. *)
Definition np_swap_prefix {A} (a : list (list A)) (i j n : Z) : res (list (list A)) :=
  x ← py_get a i ; y ← py_get a j ; a ← np_set a i (prefix_copy n y x) ; np_set a j (prefix_copy n x y).

(** ** Lemmas *)

Lemma np_set_ok {A} (l : list A) i x : (i < length l)%nat -> np_set l (Z.of_nat i) x = Ok (<[i := x]> l).
Proof. intros Hi. unfold np_set, zlen, py_set. rewrite Nat2Z.id. replace (_ && _) with true; [done|]. symmetry. apply andb_true_iff. lia. Qed.

Lemma np_set_Ok {A} (l : list A) i x l' : np_set l i x = Ok l' -> 0 <= i < zlen l /\ l' = <[Z.to_nat i := x]> l.
Proof. unfold np_set, py_set. destruct (_ && _) eqn:E; [|done]. intros [= <-]. apply andb_true_iff in E. split; [lia|done]. Qed.

Lemma py_get_ok {A} (l : list A) i x : l !! i = Some x -> py_get l (Z.of_nat i) = Ok x.
Proof. intros H. apply py_get_Some; [lia|]. by rewrite Nat2Z.id. Qed.

Lemma py_get_Ok {A} (l : list A) (i : nat) x : py_get l (Z.of_nat i) = Ok x -> l !! i = Some x.
Proof. rewrite py_get_nonneg by lia. rewrite Nat2Z.id. destruct (l !! i); [by intros [= ->]|done]. Qed.

Lemma np_move_ok {A} (a : list A) i j x : a !! i = Some x -> (j < length a)%nat -> np_move a (Z.of_nat i) (Z.of_nat j) = Ok (<[j := x]> a).
Proof. intros Hx Hj. unfold np_move. rewrite (py_get_ok a i x Hx). cbn [mbind res_bind]. by apply np_set_ok. Qed.

Lemma np_swap_ok {A} (a : list A) i j x y : a !! i = Some x -> a !! j = Some y ->
  np_swap a (Z.of_nat i) (Z.of_nat j) = Ok (<[j := x]> (<[i := y]> a)).
Proof.
  intros Hx Hy. unfold np_swap. rewrite (py_get_ok a i x Hx), (py_get_ok a j y Hy). cbn [mbind res_bind].
  pose proof (lookup_lt_Some _ _ _ Hx). pose proof (lookup_lt_Some _ _ _ Hy).
  rewrite np_set_ok by done. cbn [mbind res_bind]. apply np_set_ok. by rewrite length_insert.
Qed.

(** A swap of views duplicates the second row. *)
Lemma view_swap_ok {A} (a : list A) i j x y : a !! i = Some x -> a !! j = Some y ->
  view_swap a (Z.of_nat i) (Z.of_nat j) = Ok (<[j := y]> (<[i := y]> a)).
Proof.
  intros Hx Hy. unfold view_swap. rewrite (py_get_ok a j y Hy). cbn [mbind res_bind].
  pose proof (lookup_lt_Some _ _ _ Hx). pose proof (lookup_lt_Some _ _ _ Hy).
  rewrite np_set_ok by done. cbn [mbind res_bind]. rewrite (py_get_ok _ i y) by (by apply list_lookup_insert_eq). cbn [mbind res_bind].
  apply np_set_ok. by rewrite length_insert.
Qed.

Lemma lookup_swap {A} (a : list A) i j x y k : a !! i = Some x -> a !! j = Some y ->
  <[j := x]> (<[i := y]> a) !! k = if decide (k = i) then Some y else if decide (k = j) then Some x else a !! k.
Proof.
  intros Hx Hy. pose proof (lookup_lt_Some _ _ _ Hx) as Hi. pose proof (lookup_lt_Some _ _ _ Hy) as Hj.
  destruct (decide (k = j)) as [->|Hkj].
  - rewrite list_lookup_insert_eq by (by rewrite length_insert). case_decide; [subst; congruence|done].
  - rewrite list_lookup_insert_ne by done. case_decide; [subst; by apply list_lookup_insert_eq|by rewrite list_lookup_insert_ne by done].
Qed.
