(* ===== verification/KVConfig.v ===== *)
(** How the KV cache of a model is configured ([vllm/v1/kv_cache_interface.py] and
    the second half of [vllm/v1/core/kv_cache_utils.py]): the formats of the layers,
    their grouping, the tensors, and the largest model length that fits.

    Dicts from layer names are pairs in insertion order.  The sizes of PyTorch's
    data types are the parameter [get_dtype_size].  [max_model_len], which the code
    changes in the configuration object and restores, is a field that is replaced.
    Log messages are left out, but not the computations behind them that may
    raise. *)
From S2P Require Import Prelude PyDict PyRes.
Local Open Scope Z_scope.

(** ** The formats of a layer *)

Abbreviation dtype := string.

(** The fields of [AttentionSpec]. *)
Record AttentionSpec := mkAttention {
  at_block_size : Z;
  at_num_kv_heads : Z;
  at_head_size : Z;
  at_dtype : dtype;
  at_page_size_padded : option Z
}.

(** The classes below [KVCacheSpec] that describe one layer. *)
Inductive LayerSpec :=
  | FullAttentionSpec (a : AttentionSpec) (head_size_v : Z) (sliding_window attention_chunk_size : option Z)
  | MLAAttentionSpec (a : AttentionSpec) (head_size_v : Z) (sliding_window attention_chunk_size : option Z)
      (cache_dtype_str : option string)
  | SinkFullAttentionSpec (a : AttentionSpec) (head_size_v : Z) (sliding_window attention_chunk_size : option Z)
      (sink_len : option Z)
  | ChunkedLocalAttentionSpec (a : AttentionSpec) (attention_chunk_size : Z)
  | SlidingWindowSpec (a : AttentionSpec) (sliding_window : Z)
  | MambaSpec (block_size : Z) (shapes : list (list Z)) (dtypes : list dtype) (page_size_padded : option Z)
      (mamba_type mamba_cache_mode : string) (num_speculative_blocks : Z)
  | EncoderOnlyAttentionSpec (a : AttentionSpec)
  | CrossAttentionSpec (a : AttentionSpec).

#[export] Instance AttentionSpec_eq_dec : EqDecision AttentionSpec.
Proof. solve_decision. Defined.
#[export] Instance LayerSpec_eq_dec : EqDecision LayerSpec.
Proof. solve_decision. Defined.

(** The part of [AttentionSpec], which Mamba layers do not have. *)
Definition attention_of (s : LayerSpec) : option AttentionSpec :=
  match s with
  | FullAttentionSpec a _ _ _ | MLAAttentionSpec a _ _ _ _ | SinkFullAttentionSpec a _ _ _ _
  | ChunkedLocalAttentionSpec a _ | SlidingWindowSpec a _ | EncoderOnlyAttentionSpec a | CrossAttentionSpec a => Some a
  | MambaSpec _ _ _ _ _ _ _ => None
  end.
Definition layer_block_size (s : LayerSpec) : Z :=
  match s with MambaSpec b _ _ _ _ _ _ => b | _ => from_option at_block_size 0 (attention_of s) end.

(** [isinstance(spec, FullAttentionSpec)], which its subclasses are too. *)
Definition is_full_attention (s : LayerSpec) : bool :=
  match s with FullAttentionSpec _ _ _ _ | MLAAttentionSpec _ _ _ _ _ | SinkFullAttentionSpec _ _ _ _ _ => true | _ => false end.
Definition is_mla (s : LayerSpec) : bool := match s with MLAAttentionSpec _ _ _ _ _ => true | _ => false end.
Definition sliding_window_of (s : LayerSpec) : option Z :=
  match s with FullAttentionSpec _ _ w _ | MLAAttentionSpec _ _ w _ _ | SinkFullAttentionSpec _ _ w _ _ => w | _ => None end.
Definition chunk_size_of (s : LayerSpec) : option Z :=
  match s with FullAttentionSpec _ _ _ c | MLAAttentionSpec _ _ _ c _ | SinkFullAttentionSpec _ _ _ c _ => c | _ => None end.
Definition cache_dtype_of (s : LayerSpec) : option string :=
  match s with MLAAttentionSpec _ _ _ _ c => c | _ => None end.
Definition head_size_v_of (s : LayerSpec) : Z :=
  match s with FullAttentionSpec _ v _ _ | MLAAttentionSpec _ v _ _ _ | SinkFullAttentionSpec _ v _ _ _ => v | _ => 0 end.

(** The layers by name. *)
Abbreviation layer_dict := (list (string * LayerSpec)).

(** The fields of [vllm_config] that are read. *)
Record kv_vllm_config := mkVllmConfig {
  kc_max_model_len : Z;
  kc_original_max_model_len : Z;
  kc_decode_context_parallel_size : Z;
  kc_prefill_context_parallel_size : Z;
  kc_max_num_batched_tokens : Z;
  kc_max_num_encoder_input_tokens : Z;
  kc_mamba_cache_mode : string;
  kc_num_gpu_blocks_override : option Z;
  kc_disable_hybrid_kv_cache_manager : bool
}.
Definition set_max_model_len (n : Z) (c : kv_vllm_config) : kv_vllm_config :=
  mkVllmConfig n (kc_original_max_model_len c) (kc_decode_context_parallel_size c) (kc_prefill_context_parallel_size c)
    (kc_max_num_batched_tokens c) (kc_max_num_encoder_input_tokens c) (kc_mamba_cache_mode c)
    (kc_num_gpu_blocks_override c) (kc_disable_hybrid_kv_cache_manager c).

Section Specs.
Context (get_dtype_size : dtype -> Z).

(** [math.prod] *)
Definition prod (shape : list Z) : Z := foldl Z.mul 1 shape.

Definition real_page_size_bytes (s : LayerSpec) : Z :=
  match s with
  | FullAttentionSpec a v _ _ | SinkFullAttentionSpec a v _ _ _ =>
      at_block_size a * at_num_kv_heads a * (at_head_size a + v) * get_dtype_size (at_dtype a)
  | MLAAttentionSpec a _ _ _ c =>
      if bool_decide (c = Some "fp8_ds_mla"%string) then at_block_size a * 656
      else at_block_size a * at_num_kv_heads a * at_head_size a * get_dtype_size (at_dtype a)
  | MambaSpec _ shapes dtypes _ _ _ _ => zsum (zip_with (fun shape d => prod shape * get_dtype_size d) shapes dtypes)
  | ChunkedLocalAttentionSpec a _ | SlidingWindowSpec a _ | EncoderOnlyAttentionSpec a | CrossAttentionSpec a =>
      2 * at_block_size a * at_num_kv_heads a * at_head_size a * get_dtype_size (at_dtype a)
  end.
Definition page_size_padded_of (s : LayerSpec) : option Z :=
  match s with MambaSpec _ _ _ p _ _ _ => p | _ => a ← attention_of s ; at_page_size_padded a end.
Definition page_size_bytes (s : LayerSpec) : res Z :=
  match page_size_padded_of s with
  | Some padded => if real_page_size_bytes s <=? padded then Ok padded else Err AssertionError
  | None => Ok (real_page_size_bytes s)
  end.

(** [max_memory_usage_bytes]: the blocks times the page size, in the order in which
    the code evaluates them. *)
Definition layer_max_memory_usage_bytes (c : kv_vllm_config) (s : LayerSpec) : res Z :=
  let pages num_tokens := n ← py_cdiv num_tokens (layer_block_size s) ; p ← page_size_bytes s ; Ok (n * p) in
  match s with
  | FullAttentionSpec _ _ _ _ | MLAAttentionSpec _ _ _ _ _ | SinkFullAttentionSpec _ _ _ _ _ =>
      let cp := kc_decode_context_parallel_size c * kc_prefill_context_parallel_size c in
      pages (if 1 <? cp then cdiv (kc_max_model_len c) cp else kc_max_model_len c)
  | ChunkedLocalAttentionSpec _ chunk =>
      pages (Z.min (chunk + kc_max_num_batched_tokens c) (kc_max_model_len c))
  | SlidingWindowSpec _ window =>
      _ ← r_assert (kc_decode_context_parallel_size c =? 1) ;
      n ← py_cdiv (Z.min (window - 1 + kc_max_num_batched_tokens c) (kc_max_model_len c)) (layer_block_size s) ;
      p ← page_size_bytes s ; Ok ((n + 1) * p)
  | MambaSpec _ _ _ _ _ _ spec_blocks =>
      if bool_decide (kc_mamba_cache_mode c = "all"%string) then pages (kc_max_model_len c)
      else if bool_decide (kc_mamba_cache_mode c = "align"%string) then p ← page_size_bytes s ; Ok (p * (2 + spec_blocks))
      else p ← page_size_bytes s ; Ok (p * (1 + spec_blocks))
  | EncoderOnlyAttentionSpec _ => Ok 0
  | CrossAttentionSpec _ => pages (kc_max_num_encoder_input_tokens c)
  end.

(** [dataclasses.replace(spec, block_size=n)] *)
Definition replace_block_size (n : Z) (s : LayerSpec) : LayerSpec :=
  let set a := mkAttention n (at_num_kv_heads a) (at_head_size a) (at_dtype a) (at_page_size_padded a) in
  match s with
  | FullAttentionSpec a v w c => FullAttentionSpec (set a) v w c
  | MLAAttentionSpec a v w c d => MLAAttentionSpec (set a) v w c d
  | SinkFullAttentionSpec a v w c l => SinkFullAttentionSpec (set a) v w c l
  | ChunkedLocalAttentionSpec a c => ChunkedLocalAttentionSpec (set a) c
  | SlidingWindowSpec a w => SlidingWindowSpec (set a) w
  | MambaSpec _ shapes ds p t m k => MambaSpec n shapes ds p t m k
  | EncoderOnlyAttentionSpec a => EncoderOnlyAttentionSpec (set a)
  | CrossAttentionSpec a => CrossAttentionSpec (set a)
  end.

(** ** Merging *)

(** [FullAttentionSpec.merge_window_sizes] on the set of the sizes. *)
Definition merge_window_sizes (window_sizes : list Z) : res (option Z) :=
  match remove_dups window_sizes with
  | [] => Ok None
  | [w] => Ok (Some w)
  | _ => Err ValueError
  end.

(** [FullAttentionSpec.merge] and [SinkFullAttentionSpec.merge], whose class [cls]
    makes the merged spec of its windows. *)
Definition merge_full (cls : option Z -> option Z -> LayerSpec) (specs : list LayerSpec) : res LayerSpec :=
  _ ← r_assert (forallb is_full_attention specs) ;
  _ ← r_assert (negb (existsb is_mla specs)) ;
  window ← merge_window_sizes (omap sliding_window_of specs) ;
  chunk ← merge_window_sizes (omap chunk_size_of specs) ;
  let merged_spec := cls window chunk in
  _ ← r_assert (forallb (fun spec => bool_decide (attention_of spec = attention_of merged_spec)) specs) ;
  _ ← r_assert (negb (bool_decide (is_Some window) && bool_decide (is_Some chunk))) ;
  Ok merged_spec.
Definition merge_mla (a : AttentionSpec) (specs : list LayerSpec) : res LayerSpec :=
  _ ← r_assert (forallb is_mla specs) ;
  match remove_dups (map cache_dtype_of specs) with
  | [c] => Ok (MLAAttentionSpec a (at_head_size a) None None c)
  | _ => Err AssertionError
  end.

(** [specs[0].merge(specs)] *)
Definition merge (specs : list LayerSpec) : res LayerSpec :=
  match specs with
  | [] => Err IndexError
  | spec0 :: rest =>
      match spec0 with
      | FullAttentionSpec a v _ _ => merge_full (FullAttentionSpec a v) specs
      | SinkFullAttentionSpec a v _ _ sink_len => merge_full (fun w c => SinkFullAttentionSpec a v w c sink_len) specs
      | MLAAttentionSpec a _ _ _ _ => merge_mla a specs
      | _ => _ ← r_assert (forallb (fun spec => bool_decide (spec = spec0)) rest) ; Ok spec0
      end
  end.

(** ** Specs of a group of layers *)

Inductive GroupSpec :=
  | OneSpec (s : LayerSpec)
  | UniformTypeKVCacheSpecs (block_size : Z) (kv_cache_specs : layer_dict).

Definition group_page_size_bytes (g : GroupSpec) : res Z :=
  match g with
  | OneSpec s => page_size_bytes s
  | UniformTypeKVCacheSpecs _ specs => sum_with (fun kv => page_size_bytes kv.2) specs
  end.
Definition group_block_size (g : GroupSpec) : Z :=
  match g with OneSpec s => layer_block_size s | UniformTypeKVCacheSpecs b _ => b end.
Definition group_max_memory_usage_bytes (c : kv_vllm_config) (g : GroupSpec) : res Z :=
  match g with
  | OneSpec s => layer_max_memory_usage_bytes c s
  | UniformTypeKVCacheSpecs _ specs =>
      ns ← mapM (fun kv => m ← layer_max_memory_usage_bytes c kv.2 ; p ← page_size_bytes kv.2 ; py_cdiv m p) specs ;
      max_num_pages ← py_list_max ns ;
      p ← group_page_size_bytes g ;
      Ok (max_num_pages * p)
  end.

Definition is_uniform_type (specs : layer_dict) : res bool :=
  if 1 <? zlen (remove_dups (map (fun kv => layer_block_size kv.2) specs)) then Ok false
  else
    let all (p : LayerSpec -> bool) := Ok (forallb (fun kv => p kv.2) specs) in
    match specs with
    | [] => Err StopIteration
    | (_, one_spec) :: _ =>
        match one_spec with
        | FullAttentionSpec _ _ _ _ | MLAAttentionSpec _ _ _ _ _ | SinkFullAttentionSpec _ _ _ _ _ => all is_full_attention
        | CrossAttentionSpec _ => all (fun s => match s with CrossAttentionSpec _ => true | _ => false end)
        | SlidingWindowSpec _ w => all (fun s => match s with SlidingWindowSpec _ w' => w' =? w | _ => false end)
        | ChunkedLocalAttentionSpec _ c => all (fun s => match s with ChunkedLocalAttentionSpec _ c' => c' =? c | _ => false end)
        | MambaSpec _ _ _ _ _ _ k => all (fun s => match s with MambaSpec _ _ _ _ _ _ k' => k' =? k | _ => false end)
        | EncoderOnlyAttentionSpec _ => Err NotImplementedError
        end
    end.
Definition from_specs (specs : layer_dict) : res (option GroupSpec) :=
  uniform ← is_uniform_type specs ;
  if uniform : bool then
    match specs with
    | [] => Err StopIteration
    | (_, s) :: _ => Ok (Some (UniformTypeKVCacheSpecs (layer_block_size s) specs))
    end
  else Ok None.

Record KVCacheGroupSpec := mkGroup { layer_names : list string; group_spec : GroupSpec }.
Record KVCacheTensor := mkTensor { tensor_size : Z; shared_by : list string }.
Record KVCacheConfig := mkKVCacheConfig {
  num_blocks : Z;
  kv_cache_tensors : list KVCacheTensor;
  kv_cache_groups : list KVCacheGroupSpec
}.

(** ** Memory checks *)

Definition max_memory_usage_bytes (c : kv_vllm_config) (specs : list GroupSpec) : res Z := sum_with (group_max_memory_usage_bytes c) specs.

(** The loop of the binary search for the largest length that fits; [fuel] bounds
    the rounds, and [right - left + 1] of them are enough. *)
Fixpoint search_loop (fits : Z -> res bool) (fuel : nat) (left right result : Z) : res Z :=
  match fuel with
  | O => Err FuelExhausted
  | S fuel =>
      if left <=? right then
        let mid := (left + right) / 2 in
        b ← fits mid ;
        if b : bool then search_loop fits fuel (mid + 1) right mid else search_loop fits fuel left (mid - 1) result
      else Ok result
  end.
Definition search_max_len (fits : Z -> res bool) (original_max : Z) : res Z :=
  b ← fits 1 ;
  if negb b then Ok 0 else search_loop fits (S (Z.to_nat original_max)) 1 original_max 1.

Definition estimate_max_model_len (c : kv_vllm_config) (specs : layer_dict) (available_memory : Z) : res Z :=
  search_max_len (fun model_len =>
    m ← max_memory_usage_bytes (set_max_model_len model_len c) (map (fun kv => OneSpec kv.2) specs) ;
    Ok (m <=? available_memory)) (kc_max_model_len c).

(** [_check_enough_kv_cache_memory]; the estimate is part of the error message. *)
Definition _check_enough_kv_cache_memory (available_memory : Z) (needed_memory estimate : res Z) : res unit :=
  if available_memory <=? 0 then Err ValueError
  else
    needed ← needed_memory ;
    if available_memory <? needed then _ ← estimate ; Err ValueError else Ok tt.
Definition check_enough_kv_cache_memory (c : kv_vllm_config) (specs : layer_dict) (available_memory : Z) : res unit :=
  match specs with
  | [] => Ok tt
  | _ => _check_enough_kv_cache_memory available_memory (max_memory_usage_bytes c (map (fun kv => OneSpec kv.2) specs))
           (estimate_max_model_len c specs available_memory)
  end.

(** ** Groups of layers *)

Definition create_kv_cache_group_specs (specs : layer_dict) (grouped_layer_names : list (list string)) : res (list KVCacheGroupSpec) :=
  mapM (fun names =>
    layer_specs ← mapM (fun name => match od_lookup name specs with Some s => Ok s | None => Err KeyError end) names ;
    merged_layer_spec ← merge layer_specs ;
    Ok (mkGroup names (OneSpec merged_layer_spec))) grouped_layer_names.

Definition is_kv_cache_spec_uniform (specs : layer_dict) : res bool :=
  match specs with
  | [] => Ok true
  | _ => match merge (map snd specs) with
         | Ok _ => Ok true
         | Err AssertionError => Ok false
         | Err e => Err e
         end
  end.

Definition may_override_num_blocks (c : kv_vllm_config) (n : Z) : Z := default n (kc_num_gpu_blocks_override c).
Definition get_num_blocks (c : kv_vllm_config) (num_layers available_memory page_size : Z) : res Z :=
  n ← py_floordiv available_memory page_size ;
  n ← py_floordiv n num_layers ;
  Ok (may_override_num_blocks c (Z.max n 0)).
(** [len(set(l)) == 1] and its element. *)
Definition get_uniform_page_size (specs : list GroupSpec) : res Z :=
  page_sizes ← mapM group_page_size_bytes specs ;
  match remove_dups page_sizes with [p] => Ok p | _ => Err AssertionError end.

(** [unify_kv_cache_spec_page_size] *)
Definition unify_layer (max_page_size : Z) (s : LayerSpec) : res LayerSpec :=
  p ← page_size_bytes s ;
  if p =? max_page_size then Ok s
  else
    m ← py_mod max_page_size p ;
    if negb (m =? 0) then Err NotImplementedError
    else
      let new_spec := replace_block_size (layer_block_size s * (max_page_size / p)) s in
      p' ← page_size_bytes new_spec ;
      _ ← r_assert (p' =? max_page_size) ;
      Ok new_spec.
Definition unify_kv_cache_spec_page_size (specs : layer_dict) : res layer_dict :=
  page_sizes ← mapM (fun kv => page_size_bytes kv.2) specs ;
  if zlen (remove_dups page_sizes) <=? 1 then Ok specs
  else
    max_page_size ← py_list_max page_sizes ;
    mapM (fun kv => s ← unify_layer max_page_size kv.2 ; Ok (kv.1, s)) specs.

(** [same_type_layers[layer_spec].append(layer_name)] *)
Fixpoint add_layer (name : string) (s : LayerSpec) (same : list (LayerSpec * list string)) : list (LayerSpec * list string) :=
  match same with
  | [] => [(s, [name])]
  | (s', names) :: rest => if decide (s = s') then (s', names ++ [name]) :: rest else (s', names) :: add_layer name s rest
  end.
Definition same_type_layers (specs : layer_dict) : list (LayerSpec * list string) :=
  foldl (fun same kv => add_layer kv.1 kv.2 same) [] specs.

(** [l[skip::step]] for [step = S pred]. *)
Fixpoint stride {A} (l : list A) (skip pred : nat) : list A :=
  match l with
  | [] => []
  | x :: l' => match skip with O => x :: stride l' pred pred | S k => stride l' k pred end
  end.

(** [max_num_layers < min_num_layers * 1.5] compares exactly. *)
Definition _get_kv_cache_groups_uniform_page_size (specs : layer_dict) : res (list KVCacheGroupSpec) :=
  let same := same_type_layers specs in
  let num_layers := map (fun d => zlen d.2) same in
  min_num_layers ← py_list_min num_layers ;
  max_num_layers ← py_list_max num_layers ;
  let group_size := if 2 * max_num_layers <? 3 * min_num_layers then max_num_layers else min_num_layers in
  grouped_layers ← mapM (fun d =>
    num_groups ← py_cdiv (zlen d.2) group_size ;
    Ok (map (fun i => stride d.2 (Z.to_nat i) (Z.to_nat (num_groups - 1))) (zrange 0 num_groups))) same ;
  create_kv_cache_group_specs specs (concat grouped_layers).

(** [unify_hybrid_kv_cache_specs]: the dict it leaves. *)
Definition unify_hybrid_layer (s : LayerSpec) : LayerSpec :=
  match s with
  | SlidingWindowSpec a w => FullAttentionSpec a (at_head_size a) (Some w) None
  | ChunkedLocalAttentionSpec a c => FullAttentionSpec a (at_head_size a) None (Some c)
  | _ => s
  end.
Definition uniform_spec_or_type (specs : layer_dict) : res bool :=
  b ← is_kv_cache_spec_uniform specs ; if b : bool then Ok true else is_uniform_type specs.
Definition unify_hybrid_kv_cache_specs (specs : layer_dict) : res layer_dict :=
  b ← uniform_spec_or_type specs ;
  if b : bool then Ok specs
  else
    let has p := existsb (fun kv => p kv.2) specs in
    let specs :=
      if has is_full_attention && (has (fun s => match s with SlidingWindowSpec _ _ => true | _ => false end)
                                   || has (fun s => match s with ChunkedLocalAttentionSpec _ _ => true | _ => false end))
      then map (fun kv => (kv.1, unify_hybrid_layer kv.2)) specs else specs in
    b ← uniform_spec_or_type specs ;
    if b : bool then Ok specs else Err ValueError.

Definition get_kv_cache_groups (c : kv_vllm_config) (specs : layer_dict) : res (list KVCacheGroupSpec) :=
  specs ← (if kc_disable_hybrid_kv_cache_manager c then unify_hybrid_kv_cache_specs specs else Ok specs) ;
  match specs with
  | [] => Ok []
  | _ =>
      uniform ← is_kv_cache_spec_uniform specs ;
      if uniform : bool then create_kv_cache_group_specs specs [od_keys specs]
      else
        uniform_spec ← from_specs specs ;
        match uniform_spec with
        | Some g => Ok [mkGroup (od_keys specs) g]
        | None => specs ← unify_kv_cache_spec_page_size specs ; _get_kv_cache_groups_uniform_page_size specs
        end
  end.

(** ** The configuration of a worker *)

Definition uniform_type_groups (groups : list KVCacheGroupSpec) : option (list string * layer_dict) :=
  match groups with
  | [g] => match group_spec g with UniformTypeKVCacheSpecs _ specs => Some (layer_names g, specs) | OneSpec _ => None end
  | _ => None
  end.

Definition get_kv_cache_config_from_groups (c : kv_vllm_config) (groups : list KVCacheGroupSpec) (available_memory : Z) : res KVCacheConfig :=
  match groups with
  | [] => Ok (mkKVCacheConfig 1 [] groups)
  | _ =>
      match uniform_type_groups groups with
      | Some (names, per_layer_specs) =>
          page_size ← sum_with (fun kv => page_size_bytes kv.2) per_layer_specs ;
          n ← py_floordiv available_memory page_size ;
          let n := may_override_num_blocks c n in
          tensors ← mapM (fun name =>
            s ← match od_lookup name per_layer_specs with Some s => Ok s | None => Err KeyError end ;
            p ← page_size_bytes s ; Ok (mkTensor (p * n) [name])) names ;
          Ok (mkKVCacheConfig n tensors groups)
      | None =>
          group_size ← py_list_max (map (fun g => zlen (layer_names g)) groups) ;
          page_size ← get_uniform_page_size (map group_spec groups) ;
          _ ← r_assert (0 <? group_size) ;
          n ← get_num_blocks c group_size available_memory page_size ;
          let tensors := map (fun i => mkTensor (page_size * n) (omap (fun g => layer_names g !! Z.to_nat i) groups)) (zrange 0 group_size) in
          Ok (mkKVCacheConfig n tensors groups)
      end
  end.

Definition _max_memory_usage_bytes_from_groups (c : kv_vllm_config) (groups : list KVCacheGroupSpec) : res Z :=
  match groups with
  | [] => Ok 0
  | _ =>
      match uniform_type_groups groups with
      | Some (_, per_layer_specs) => sum_with (fun kv => layer_max_memory_usage_bytes c kv.2) per_layer_specs
      | None =>
          group_size ← py_list_max (map (fun g => zlen (layer_names g)) groups) ;
          page_size ← get_uniform_page_size (map group_spec groups) ;
          blocks_needed ← sum_with (fun g => m ← group_max_memory_usage_bytes c (group_spec g) ; py_cdiv m page_size) groups ;
          Ok (group_size * page_size * blocks_needed)
      end
  end.
Definition _estimate_max_model_len_from_groups (c : kv_vllm_config) (groups : list KVCacheGroupSpec) (available_memory : Z) : res Z :=
  search_max_len (fun model_len =>
    m ← _max_memory_usage_bytes_from_groups (set_max_model_len model_len c) groups ; Ok (m <=? available_memory)) (kc_max_model_len c).

(** The new [max_model_len]. *)
Definition _auto_fit_max_model_len (c : kv_vllm_config) (groups_per_worker : list (list KVCacheGroupSpec)) (available_memory : list Z) : res Z :=
  let original_max := kc_max_model_len c in
  if forallb (fun groups => match groups with [] => true | _ => false end) groups_per_worker then Ok original_max
  else
    _ ← py_get available_memory 0 ;
    auto_fit_max ← foldl (fun acc ga =>
      auto_fit_max ← acc ;
      match ga.1 with
      | [] => Ok auto_fit_max
      | _ => worker_max ← _estimate_max_model_len_from_groups c ga.1 ga.2 ; Ok (Z.min worker_max auto_fit_max)
      end) (Ok original_max) (zip groups_per_worker available_memory) ;
    if auto_fit_max <=? 0 then Err ValueError
    else if original_max <=? auto_fit_max then Ok original_max
    else Ok auto_fit_max.

Definition _project_kv_cache_groups_to_worker (global_groups : list KVCacheGroupSpec) (worker_spec : layer_dict) : res (list KVCacheGroupSpec) :=
  mapM (fun group =>
    let worker_layer_names := filter (fun name => od_mem name worker_spec) (layer_names group) in
    match worker_layer_names, group_spec group with
    | _ :: _, UniformTypeKVCacheSpecs block_size specs =>
        specs' ← mapM (fun name => match od_lookup name specs with Some s => Ok (name, s) | None => Err KeyError end) worker_layer_names ;
        Ok (mkGroup worker_layer_names (UniformTypeKVCacheSpecs block_size specs'))
    | _, g => Ok (mkGroup worker_layer_names g)
    end) global_groups.

(** ** All the workers *)

Fixpoint merge_worker_specs (merged : layer_dict) (specs : layer_dict) : res layer_dict :=
  match specs with
  | [] => Ok merged
  | (name, s) :: rest =>
      match od_lookup name merged with
      | None => merge_worker_specs (od_set name s merged) rest
      | Some s' => _ ← r_assert (bool_decide (s' = s)) ; merge_worker_specs merged rest
      end
  end.

(** [get_max_concurrency_for_kv_cache_config]: the two sides of the division. *)
Definition get_max_concurrency_for_kv_cache_config (c : kv_vllm_config) (config : KVCacheConfig) : res (Z * Z) :=
  num_layer_per_group ← py_list_max (map (fun g => zlen (layer_names g)) (kv_cache_groups config)) ;
  m ← max_memory_usage_bytes c (map group_spec (kv_cache_groups config)) ;
  group0 ← py_get (kv_cache_groups config) 0 ;
  p ← group_page_size_bytes (group_spec group0) ;
  num_block_per_request ← py_cdiv (num_layer_per_group * m) (p * num_layer_per_group) ;
  if num_block_per_request =? 0 then Err ZeroDivisionError else Ok (num_blocks config, num_block_per_request).
Definition _report_kv_cache_config (c : kv_vllm_config) (config : KVCacheConfig) : res unit :=
  _ ← py_list_min (map (fun g => group_block_size (group_spec g)) (kv_cache_groups config)) ;
  _ ← get_max_concurrency_for_kv_cache_config c config ;
  Ok tt.

(** The number of blocks becomes [min_num_blocks], and the tensors shrink. *)
Definition shrink_config (c : kv_vllm_config) (min_num_blocks : Z) (config : KVCacheConfig) : res KVCacheConfig :=
  tensors ← mapM (fun t =>
    m ← py_mod (tensor_size t) (num_blocks config) ;
    _ ← r_assert (m =? 0) ;
    Ok (mkTensor (tensor_size t / num_blocks config * min_num_blocks) (shared_by t))) (kv_cache_tensors config) ;
  let config := mkKVCacheConfig min_num_blocks tensors (kv_cache_groups config) in
  match kv_cache_groups config with
  | [] => Ok config
  | _ => _ ← _report_kv_cache_config c config ; Ok config
  end.

(** The configurations, and the [max_model_len] it leaves in [vllm_config]. *)
Definition get_kv_cache_configs (c : kv_vllm_config) (kv_cache_specs : list layer_dict) (available_memory : list Z)
    : res (list KVCacheConfig * Z) :=
  merged ← foldl (fun acc specs => merged ← acc ; merge_worker_specs merged specs) (Ok []) kv_cache_specs ;
  global_groups ← get_kv_cache_groups c merged ;
  groups_per_worker ← mapM (_project_kv_cache_groups_to_worker global_groups) kv_cache_specs ;
  max_model_len ← (if kc_original_max_model_len c =? -1 then _auto_fit_max_model_len c groups_per_worker available_memory
                   else Ok (kc_max_model_len c)) ;
  let c := set_max_model_len max_model_len c in
  _ ← mapM (fun ga => match ga.1 with
    | [] => Ok tt
    | _ => _check_enough_kv_cache_memory ga.2 (_max_memory_usage_bytes_from_groups c ga.1) (_estimate_max_model_len_from_groups c ga.1 ga.2)
    end) (zip groups_per_worker available_memory) ;
  configs ← mapM (fun gsa =>
    _ ← r_assert (zsum (map (fun g => zlen (layer_names g)) gsa.1.1) =? zlen gsa.1.2) ;
    get_kv_cache_config_from_groups c gsa.1.1 gsa.2) (zip (zip groups_per_worker kv_cache_specs) available_memory) ;
  min_num_blocks ← py_list_min (map num_blocks configs) ;
  configs ← mapM (shrink_config c min_num_blocks) configs ;
  Ok (configs, max_model_len).

(** [generate_scheduler_kv_cache_config] *)
Definition generate_scheduler_kv_cache_config (configs : list KVCacheConfig) : res KVCacheConfig :=
  match configs with
  | [] => Err IndexError
  | cfg :: _ =>
      _ ← r_assert (forallb (fun cfg' => num_blocks cfg' =? num_blocks cfg) configs) ;
      groups ← mapM (fun g => match group_spec g with
        | OneSpec _ => Ok g
        | UniformTypeKVCacheSpecs _ [] => Err StopIteration
        | UniformTypeKVCacheSpecs _ ((_, s) :: _) => Ok (mkGroup (layer_names g) (OneSpec s))
        end) (kv_cache_groups cfg) ;
      Ok (mkKVCacheConfig (num_blocks cfg) (kv_cache_tensors cfg) groups)
  end.
End Specs.
