(* ===== verification/KVConfigLemmas.v ===== *)
(** Lemmas on the configuration of the KV cache: memory in pages, the binary
    search, the grouping of layers. *)
From S2P Require Import Prelude PyDict PyRes KVConfig.
Local Open Scope Z_scope.

(** ** The binary search *)

Section Search.
Context (g : Z -> bool) (fits : Z -> res bool) (Hfits : forall n, 1 <= n -> fits n = Ok (g n)).
Context (Hg : forall a b, 1 <= a <= b -> g b = true -> g a = true).

(** [r] is the largest length up to [m] that fits. *)
Definition largest (m r : Z) : Prop :=
  1 <= r <= Z.max 1 m /\ g r = true /\ forall n, r < n <= m -> g n = false.

Lemma search_loop_ok m fuel left right result :
  (Z.to_nat (right - left + 1) < fuel)%nat -> left = result + 1 \/ left = 1 /\ result = 1 -> 1 <= result -> left <= right + 1 ->
  g result = true -> right <= m -> result <= Z.max 1 right -> (forall n, right < n <= m -> g n = false) ->
  exists r, search_loop fits fuel left right result = Ok r /\ largest m r.
Proof.
  revert left right result. induction fuel as [|fuel IH]; intros left right result Hfuel Hl Hr Hlr Hg' Hm Hrr Hout; [lia|].
  simpl. destruct (left <=? right) eqn:E.
  - assert (Hmid : left <= (left + right) / 2 <= right) by (split; [apply Z.div_le_lower_bound|apply Z.div_le_upper_bound]; lia).
    set (mid := (left + right) / 2) in *. rewrite Hfits by lia. simpl. destruct (g mid) eqn:Eg.
    + apply IH; try done; lia.
    + assert (result < mid \/ left = 1 /\ result = 1 /\ mid = 1) as Hlow by lia.
      destruct Hlow as [Hlow|(-> & -> & Hm1)]; [|by rewrite Hm1, Hg' in Eg].
      apply IH; try done; try lia. intros n Hn. destruct (decide (right < n)); [apply Hout; lia|].
      destruct (g n) eqn:En; [|done]. by rewrite (Hg mid n) in Eg by (done || lia).
  - exists result. split; [done|]. split; [lia|]. split; [done|]. intros n Hn. apply Hout. lia.
Qed.

Lemma search_max_len_ok m : 1 <= m -> exists r, search_max_len fits m = Ok r
  /\ (r = 0 /\ (forall n, 1 <= n -> g n = false) \/ largest m r).
Proof.
  intros Hm. unfold search_max_len. rewrite Hfits by lia. simpl. destruct (g 1) eqn:E1; simpl.
  - destruct (search_loop_ok m (S (Z.to_nat m)) 1 m 1) as (r & Hr & Hl); try done; try lia. exists r. split; [done|by right].
  - exists 0. split; [done|]. left. split; [done|]. intros n Hn. destruct (g n) eqn:En; [|done]. by rewrite (Hg 1 n) in E1 by (done || lia).
Qed.
End Search.

(** ** Memory against the length *)

(** A computation that never raises and does not decrease with its argument. *)
Definition monotone (m : Z -> res Z) : Prop := exists f, (forall n, m n = Ok (f n)) /\ forall a b, a <= b -> f a <= f b.

Lemma monotone_ext m m' : (forall n, m n = m' n) -> monotone m -> monotone m'.
Proof. intros He (f & Hf & Hm). exists f. split; [|done]. intros n. by rewrite <-He. Qed.

Lemma monotone_const x : monotone (fun _ => Ok x).
Proof. exists (fun _ => x). split; [done|]. lia. Qed.

Lemma monotone_map h m : monotone m -> (forall a b, a <= b -> h a <= h b) -> monotone (fun n => x ← m n ; Ok (h x)).
Proof. intros (f & Hf & Hm) Hh. exists (fun n => h (f n)). split; [intros n; by rewrite Hf|auto]. Qed.

Lemma monotone_pages h b p k : 0 < b -> 0 <= p -> (forall x y, x <= y -> h x <= h y) ->
  monotone (fun n => n ← py_cdiv (h n) b ; q ← Ok p ; Ok ((n + k) * q)).
Proof.
  intros Hb Hp Hh. exists (fun n => (cdiv (h n) b + k) * p). split.
  - intros n. unfold py_cdiv. by rewrite (proj2 (Z.eqb_neq b 0) ltac:(lia)).
  - intros x y Hxy. pose proof (cdiv_le_mono (h x) (h y) b Hb (Hh x y Hxy)). nia.
Qed.

Lemma monotone_cdiv m p : 0 < p -> monotone m -> monotone (fun n => x ← m n ; py_cdiv x p).
Proof.
  intros Hp (f & Hf & Hm). exists (fun n => cdiv (f n) p). split.
  - intros n. rewrite Hf. cbn. unfold py_cdiv. by rewrite (proj2 (Z.eqb_neq p 0) ltac:(lia)).
  - intros a b Hab. apply cdiv_le_mono; auto.
Qed.

Lemma monotone_mapM {A} (m : Z -> A -> res Z) l : (forall x, x ∈ l -> monotone (fun n => m n x)) ->
  exists fs, (forall n, mapM (m n) l = Ok (map (fun f => f n) fs)) /\ length fs = length l /\ Forall (fun f => forall a b, a <= b -> f a <= f b) fs.
Proof.
  induction l as [|x l IH]; intros H.
  - exists []. by repeat split.
  - destruct (H x ltac:(left)) as (f & Hf & Hm). destruct IH as (fs & Hfs & Hlen & Hall); [intros y Hy; apply H; by right|].
    exists (f :: fs). split; [|split; [simpl; lia|by constructor]]. intros n. cbn. rewrite Hf. cbn. by rewrite Hfs.
Qed.

Lemma monotone_sum {A} (m : Z -> A -> res Z) l : (forall x, x ∈ l -> monotone (fun n => m n x)) -> monotone (fun n => sum_with (m n) l).
Proof.
  intros (fs & Hfs & _ & Hall)%monotone_mapM. exists (fun n => zsum (map (fun f => f n) fs)). split.
  - intros n. unfold sum_with. by rewrite Hfs.
  - intros a b Hab. clear Hfs. induction Hall as [|f fs Hf Hall IH]; [done|]. specialize (Hf a b Hab). cbn [map]. rewrite !zsum_cons. lia.
Qed.

Lemma monotone_max {A} (m : Z -> A -> res Z) l : l <> [] -> (forall x, x ∈ l -> monotone (fun n => m n x)) ->
  monotone (fun n => ns ← mapM (m n) l ; py_list_max ns).
Proof.
  intros Hl (fs & Hfs & Hlen & Hall)%monotone_mapM. destruct fs as [|f fs]; [by destruct l|].
  exists (fun n => foldl Z.max (f n) (map (fun g => g n) fs)). split; [intros n; by rewrite Hfs|].
  intros a b Hab. clear Hfs Hlen. apply Forall_cons in Hall as [Hf Hall]. specialize (Hf a b Hab).
  revert Hf. generalize (f a) (f b). induction Hall as [|g fs Hg Hall IH]; intros x y Hxy; cbn; [done|].
  apply IH. specialize (Hg a b Hab). lia.
Qed.

Section Memory.
Context (get_dtype_size : dtype -> Z).
Abbreviation page_size_bytes := (page_size_bytes get_dtype_size).
Abbreviation layer_max_memory_usage_bytes := (layer_max_memory_usage_bytes get_dtype_size).
Abbreviation group_max_memory_usage_bytes := (group_max_memory_usage_bytes get_dtype_size).
Abbreviation get_uniform_page_size := (get_uniform_page_size get_dtype_size).

(** A layer whose blocks and pages are not empty, and a sliding window only without
    decode context parallelism. *)
Definition sized (c : kv_vllm_config) (s : LayerSpec) : bool :=
  (0 <? layer_block_size s) && match page_size_bytes s with Ok p => 0 <? p | Err _ => false end
  && match s with SlidingWindowSpec _ _ => kc_decode_context_parallel_size c =? 1 | _ => true end.
Definition group_sized (c : kv_vllm_config) (g : GroupSpec) : bool :=
  match g with
  | OneSpec s => sized c s
  | UniformTypeKVCacheSpecs _ [] => false
  | UniformTypeKVCacheSpecs _ specs => forallb (fun kv => sized c kv.2) specs
  end.

Lemma sized_page c s : sized c s = true -> exists p, page_size_bytes s = Ok p /\ 0 < p.
Proof.
  unfold sized. intros [[_ H]%andb_true_iff _]%andb_true_iff. destruct (page_size_bytes s) as [p|]; [|done].
  exists p. split; [done|lia].
Qed.

Lemma layer_memory_monotone c s : sized c s = true ->
  monotone (fun n => layer_max_memory_usage_bytes (set_max_model_len n c) s).
Proof.
  intros Hs. destruct (sized_page c s Hs) as (p & Hp & Hpos).
  assert (Hb : 0 < layer_block_size s) by (unfold sized in Hs; apply andb_true_iff in Hs as [[Hs _]%andb_true_iff _]; lia).
  unfold sized in Hs. apply andb_true_iff in Hs as [_ Hw].
  assert (Hpages : forall h, (forall x y, x <= y -> h x <= h y) ->
    monotone (fun n => n ← py_cdiv (h n) (layer_block_size s) ; p ← page_size_bytes s ; Ok (n * p))).
  { intros h Hh. eapply monotone_ext; [|apply (monotone_pages h (layer_block_size s) p 0); (done || lia)].
    intros n. rewrite Hp. cbn. destruct (py_cdiv _ _); [cbn|done]. by rewrite Z.add_0_r. }
  assert (Hfull : forall cp, monotone (fun n => n ← py_cdiv (if 1 <? cp then cdiv n cp else n) (layer_block_size s) ;
    p ← page_size_bytes s ; Ok (n * p))).
  { intros cp. apply Hpages. intros x y Hxy. destruct (1 <? cp) eqn:E; [apply cdiv_le_mono; lia|done]. }
  destruct s; cbn -[KVConfig.page_size_bytes Z.mul].
  1-3: apply Hfull.
  - apply (Hpages (fun n => Z.min (attention_chunk_size + kc_max_num_batched_tokens c) n)). lia.
  - eapply monotone_ext; [|eapply (monotone_pages (fun n => Z.min (sliding_window - 1 + kc_max_num_batched_tokens c) n) _ p 1); [exact Hb|lia|lia]].
    intros n. unfold r_assert. rewrite Hw. cbn -[KVConfig.page_size_bytes]. by rewrite Hp.
  - case_bool_decide; [apply (Hpages (fun n => n)); lia|]. rewrite Hp. case_bool_decide; apply monotone_const.
  - apply monotone_const.
  - apply (Hpages (fun n => kc_max_num_encoder_input_tokens c)). lia.
Qed.

Lemma group_memory_monotone c g : group_sized c g = true ->
  monotone (fun n => group_max_memory_usage_bytes (set_max_model_len n c) g).
Proof.
  destruct g as [s|b specs]; [apply layer_memory_monotone|]. intros Hs.
  assert (Hne : specs <> []) by (by intros ->). assert (Hall : forall kv, kv ∈ specs -> sized c kv.2 = true).
  { destruct specs; [done|]. intros kv Hkv. eapply forallb_forall in Hs; [exact Hs|]. by apply list_elem_of_In. }
  clear Hs. assert (Hpage : exists p, group_page_size_bytes get_dtype_size (UniformTypeKVCacheSpecs b specs) = Ok p /\ 0 <= p).
  { cbn [group_page_size_bytes]. clear Hne. induction specs as [|kv specs IH]; [by exists 0|].
    destruct IH as (q & Hq & Hq0); [intros kv' Hkv; apply Hall; by right|].
    destruct (sized_page c kv.2) as (p & Hp & Hpos); [apply Hall; left|].
    exists (p + q). unfold sum_with in *. cbn -[KVConfig.page_size_bytes]. rewrite Hp. cbn -[KVConfig.page_size_bytes].
    bind_inv Hq as ns Hns. injection Hq as Hq. rewrite Hns. split; [|lia]. cbn [mbind res_bind]. rewrite <-Hq. by rewrite <-zsum_cons. }
  destruct Hpage as (p & Hp & Hp0).
  eapply monotone_ext; [|apply (monotone_map (fun x => x * p)); [apply (monotone_max (fun n kv => m ← layer_max_memory_usage_bytes (set_max_model_len n c) kv.2 ; q ← page_size_bytes kv.2 ; py_cdiv m q) specs Hne)|intros; nia]].
  - intros n. cbn -[KVConfig.page_size_bytes KVConfig.group_page_size_bytes KVConfig.layer_max_memory_usage_bytes] in *. rewrite Hp.
    by destruct (mapM _ _) as [ns|].
  - intros kv Hkv. specialize (Hall kv Hkv). destruct (sized_page c kv.2 Hall) as (q & Hq & Hq0).
    eapply monotone_ext; [|exact (monotone_cdiv _ q Hq0 (layer_memory_monotone c kv.2 Hall))].
    intros n. by rewrite Hq.
Qed.

Lemma mapM_elem {A B} (f : A -> res B) l ks x : mapM f l = Ok ks -> x ∈ l -> exists y, f x = Ok y /\ y ∈ ks.
Proof.
  intros H%mapM_Ok Hx. apply list_elem_of_lookup in Hx as [i Hi]. eapply Forall2_lookup_l in H as (y & Hy & Hf); [|done].
  exists y. split; [done|]. by eapply list_elem_of_lookup_2.
Qed.

Lemma uniform_page_Ok gs p : get_uniform_page_size gs = Ok p -> forall g, g ∈ gs -> group_page_size_bytes get_dtype_size g = Ok p.
Proof.
  unfold KVConfig.get_uniform_page_size. intros H g Hg. bind_inv H as ps Hps.
  destruct (mapM_elem _ _ _ _ Hps Hg) as (q & Hq & Hin). rewrite Hq. f_equal.
  destruct (remove_dups ps) as [|p' [|]] eqn:E; try done. injection H as ->. by apply (remove_dups_single ps p E).
Qed.

(** The memory of the groups is defined for every length and grows with it. *)
Lemma groups_memory_monotone c groups : forallb (fun g => group_sized c (group_spec g)) groups = true ->
  (uniform_type_groups groups = None -> groups <> [] -> exists p, get_uniform_page_size (map group_spec groups) = Ok p /\ 0 < p) ->
  monotone (fun n => _max_memory_usage_bytes_from_groups get_dtype_size (set_max_model_len n c) groups).
Proof.
  intros Hs Hpage. destruct groups as [|g groups]; [apply monotone_const|].
  destruct (uniform_type_groups (g :: groups)) as [[names specs]|] eqn:E; unfold _max_memory_usage_bytes_from_groups; rewrite E.
  - apply monotone_sum. intros kv Hkv. apply layer_memory_monotone.
    unfold uniform_type_groups in E. destruct groups; [|done]. destruct (group_spec g) as [|b specs'] eqn:Eg; [done|].
    injection E as <- <-. cbn in Hs. rewrite Eg, andb_true_r in Hs. cbn in Hs. destruct specs'; [done|].
    eapply forallb_forall in Hs; [exact Hs|]. by apply list_elem_of_In.
  - destruct Hpage as (p & Hp & Hpos); [done..|]. cbn [map] in Hp |- *. rewrite Hp.
    destruct (py_list_max_total (zlen (layer_names g) :: map (fun g => zlen (layer_names g)) groups)) as [size Hsize]; [done|].
    rewrite Hsize. assert (0 <= size). { apply py_list_max_Ok in Hsize as [_ H]. specialize (H (zlen (layer_names g)) ltac:(left)). unfold zlen in H. lia. }
    set (m := fun n g' => m ← group_max_memory_usage_bytes (set_max_model_len n c) (group_spec g') ; py_cdiv m p).
    apply (monotone_map (fun x => size * p * x) (fun n => sum_with (m n) (g :: groups))); [|intros; apply Z.mul_le_mono_nonneg_l; nia].
    apply (monotone_sum m).
    intros g' Hg'. apply (monotone_cdiv _ p Hpos). apply group_memory_monotone.
    eapply forallb_forall in Hs; [exact Hs|]. by apply list_elem_of_In.
Qed.
End Memory.
