(* ===== verification/KVGroups.v ===== *)
(** The grouping of layers: every group is made of layers of one spec, the groups
    partition the layers, and the pages of all the groups have one size. *)
From S2P Require Import Prelude PyDict PyRes KVConfig KVConfigLemmas.
Local Open Scope Z_scope.

(** ** Lists cut in strides *)

Section Stride.
Context {A : Type}.

Lemma stride_perm (l : list A) pred : concat (map (fun i => stride l i pred) (seq 0 (S pred))) ≡ₚ l.
Proof.
  induction l as [|x l IH].
  - generalize (seq 0 (S pred)). intros js. by induction js.
  - cbn [seq map concat stride app]. constructor. rewrite <-seq_shift, map_map. cbn [stride].
    etransitivity; [|apply IH]. rewrite seq_S, map_app, concat_app. cbn [map concat]. rewrite app_nil_r. apply Permutation_app_comm.
Qed.

Lemma stride_length (l : list A) skip pred : (skip <= pred)%nat ->
  (length (stride l skip pred) * S pred <= length l + (pred - skip))%nat.
Proof.
  revert skip. induction l as [|x l IH]; intros skip Hs; cbn [stride length]; [lia|].
  destruct skip as [|k]; cbn [length]; [specialize (IH pred ltac:(lia))|specialize (IH k ltac:(lia))]; lia.
Qed.

Lemma stride_nonempty (l : list A) skip pred : (skip < length l)%nat -> stride l skip pred <> [].
Proof. revert skip. induction l as [|x l IH]; intros skip Hs; cbn in *; [lia|]. destruct skip; [done|]. apply IH. lia. Qed.

Lemma stride_subseteq (l : list A) skip pred : stride l skip pred ⊆ l.
Proof.
  revert skip. induction l as [|x l IH]; intros skip y Hy; cbn in Hy; [by apply not_elem_of_nil in Hy|].
  destruct skip; [apply elem_of_cons in Hy as [->|Hy]; [left|]|]; right; by eapply IH.
Qed.

(** The pieces [l[i::n]] of [n = cdiv(len(l), size)]. *)
Lemma strides_perm (l : list A) n : 0 < n ->
  concat (map (fun i => stride l (Z.to_nat i) (Z.to_nat (n - 1))) (zrange 0 n)) ≡ₚ l.
Proof.
  intros Hn. etransitivity; [|apply (stride_perm l (Z.to_nat (n - 1)))]. unfold zrange, seqZ. rewrite map_map.
  replace (S (Z.to_nat (n - 1))) with (Z.to_nat (n - 0)) by lia. rewrite (map_ext _ (fun i => stride l i (Z.to_nat (n - 1)))); [done|].
  intros i. by rewrite Z.add_0_r, Nat2Z.id.
Qed.

Lemma strides_length (l : list A) size i : 0 < size -> 0 <= i < cdiv (zlen l) size ->
  0 < zlen (stride l (Z.to_nat i) (Z.to_nat (cdiv (zlen l) size - 1))) <= size.
Proof.
  intros Hs Hi. pose proof (cdiv_bounds (zlen l) size Hs) as Hc. set (n := cdiv (zlen l) size) in *. unfold zlen in *.
  assert (Hle : n <= Z.of_nat (length l)) by nia. split.
  - destruct (stride l (Z.to_nat i) (Z.to_nat (n - 1))) eqn:E; [|cbn; lia]. exfalso. by apply (stride_nonempty l (Z.to_nat i) (Z.to_nat (n - 1))); [lia|].
  - pose proof (stride_length l (Z.to_nat i) (Z.to_nat (n - 1)) ltac:(lia)) as Hl. nia.
Qed.
End Stride.

(** ** The layers of one spec *)

Lemma same_type_layers_spec specs same : same = same_type_layers specs ->
  concat (map snd same) ≡ₚ od_keys specs /\ forall s names, (s, names) ∈ same -> names <> [] /\ forall name, name ∈ names -> (name, s) ∈ specs.
Proof.
  intros ->. unfold same_type_layers.
  assert (Hadd : forall name s same0, concat (map snd (add_layer name s same0)) ≡ₚ name :: concat (map snd same0)
    /\ forall s' names, (s', names) ∈ add_layer name s same0 ->
         (s', names) ∈ same0 \/ s' = s /\ (names = [name] \/ exists names', names = names' ++ [name] /\ (s, names') ∈ same0)).
  { intros name s same0. induction same0 as [|[s0 names0] same0 [IHp IHe]]; cbn [add_layer].
    - split; [done|]. intros s' names [= -> ->]%list_elem_of_singleton. right. auto.
    - case_decide as Hd; [subst s0|]; cbn [map concat snd]; split.
      + rewrite <-app_assoc. symmetry. apply Permutation_middle.
      + intros s' names [[= -> ->]|Hin]%elem_of_cons; [right|left; by right]. split; [done|]. right. exists names0. split; [done|left].
      + by rewrite IHp, <-Permutation_middle.
      + intros s' names [[= -> ->]|Hin]%elem_of_cons; [left; left|]. destruct (IHe s' names Hin) as [H|[-> [->|(n' & -> & H)]]].
        * left. by right. * right. auto. * right. split; [done|]. right. exists n'. split; [done|]. by right. }
  assert (H : forall l same0, concat (map snd (foldl (fun same kv => add_layer kv.1 kv.2 same) same0 l)) ≡ₚ concat (map snd same0) ++ od_keys l
    /\ forall s names, (s, names) ∈ foldl (fun same kv => add_layer kv.1 kv.2 same) same0 l ->
      (forall s' names', (s', names') ∈ same0 -> names' <> []) -> names <> [] /\
      forall name, name ∈ names -> (name, s) ∈ l \/ exists names', (s, names') ∈ same0 /\ name ∈ names').
  { induction l as [|[k v] l IH]; intros same0; cbn [foldl fst snd].
    - split; [by rewrite app_nil_r|]. intros s names Hin Hne. split; [by eapply Hne|]. intros name Hn. right. eauto.
    - destruct (IH (add_layer k v same0)) as [IHp IHe]. destruct (Hadd k v same0) as [Hp He]. split.
      + rewrite IHp, Hp. cbn. by rewrite Permutation_middle.
      + intros s names Hin Hne. destruct (IHe s names Hin) as [Hn Hm].
        { intros s' n' Hin'. destruct (He s' n' Hin') as [H|[-> [->|(n'' & -> & H)]]]; [by eapply Hne|done|by destruct n'']. }
        split; [done|]. intros name Hname. destruct (Hm name Hname) as [H|(n' & H & Hn')]; [left; by right|].
        destruct (He s n' H) as [H'|[-> [->|(n'' & -> & H')]]]; [right; eauto|..].
        * apply list_elem_of_singleton in Hn' as ->. left. left.
        * apply elem_of_app in Hn' as [Hn'|Hn']; [right; eauto|]. apply list_elem_of_singleton in Hn' as ->. left. left. }
  destruct (H specs []) as [Hp He]. split; [done|]. intros s names Hin. destruct (He s names Hin) as [Hn Hm].
  { intros s' names' H'. by apply not_elem_of_nil in H'. }
  split; [done|]. intros name Hname. destruct (Hm name Hname) as [H'|(n0 & H' & _)]; [done|]. by apply not_elem_of_nil in H'.
Qed.

Section Groups.
Context (get_dtype_size : dtype -> Z).
Abbreviation page_size_bytes := (page_size_bytes get_dtype_size).
Abbreviation layer_max_memory_usage_bytes := (layer_max_memory_usage_bytes get_dtype_size).
Abbreviation group_max_memory_usage_bytes := (group_max_memory_usage_bytes get_dtype_size).

(** ** Merged specs *)

(** The merged spec has the pages and blocks of the first. *)
Lemma merge_first spec0 rest s : merge (spec0 :: rest) = Ok s ->
  page_size_bytes s = page_size_bytes spec0 /\ layer_block_size s = layer_block_size spec0.
Proof.
  assert (Hfull : forall cls, merge_full cls (spec0 :: rest) = Ok s -> exists w c, s = cls w c).
  { intros cls H. unfold merge_full in H. do 2 bind_inv H as ? _. bind_inv H as w _. bind_inv H as c _. cbn zeta in H.
    do 2 bind_inv H as ? _. injection H as <-. eauto. }
  destruct spec0; cbn [merge]; intros H.
  1,3: apply Hfull in H as (w & c & ->); done.
  2-6: bind_inv H as u _; by injection H as <-.
  unfold merge_mla in H. bind_inv H as u _. destruct (remove_dups _) as [|c [|]] eqn:E; try done. injection H as <-.
  assert (cache_dtype_str = c) as ->; [|done]. apply (remove_dups_single _ _ E). left.
Qed.

Lemma create_group_specs_Ok specs grouped groups : create_kv_cache_group_specs specs grouped = Ok groups ->
  map layer_names groups = grouped /\
  forall g, g ∈ groups -> exists name s0 s, head (layer_names g) = Some name /\ od_lookup name specs = Some s0
    /\ group_spec g = OneSpec s /\ page_size_bytes s = page_size_bytes s0 /\ layer_block_size s = layer_block_size s0.
Proof.
  intros H%mapM_Ok. unfold create_kv_cache_group_specs in *. induction H as [|names g grouped groups Hg H [IHn IHg]].
  - split; [done|]. intros g Hg. by apply not_elem_of_nil in Hg.
  - bind_inv Hg as ls Hls. bind_inv Hg as s Hs. injection Hg as <-. split; [cbn; by rewrite IHn|].
    intros g [->|Hg]%elem_of_cons; [|by apply IHg]. cbn [layer_names group_spec].
    destruct names as [|name names]; [cbn in Hls; injection Hls as <-; done|]. cbn in Hls. bind_inv Hls as s0 Hs0. bind_inv Hls as rest Hrest.
    injection Hls as <-. destruct (od_lookup name specs) as [s0'|] eqn:El; [|done]. injection Hs0 as ->.
    exists name, s0, s. apply merge_first in Hs. naive_solver.
Qed.

(** ** Unified pages *)

Lemma unify_layer_Ok p s s' : unify_layer get_dtype_size p s = Ok s' -> page_size_bytes s' = Ok p.
Proof.
  unfold unify_layer. intros H. bind_inv H as q Hq. destruct (q =? p) eqn:E.
  - injection H as <-. rewrite Hq. f_equal. lia.
  - bind_inv H as m Hm. destruct (negb _); [done|]. bind_inv H as q' Hq'. bind_inv H as u Hu.
    apply r_assert_Ok in Hu. injection H as <-. rewrite Hq'. f_equal. lia.
Qed.

Lemma unify_page_size_Ok specs specs' : unify_kv_cache_spec_page_size get_dtype_size specs = Ok specs' ->
  od_keys specs' = od_keys specs /\ exists p, (forall kv, kv ∈ specs' -> page_size_bytes kv.2 = Ok p)
    /\ (specs <> [] -> exists kv, kv ∈ specs /\ page_size_bytes kv.2 = Ok p).
Proof.
  unfold unify_kv_cache_spec_page_size. intros H. bind_inv H as ps Hps. destruct (zlen (remove_dups ps) <=? 1) eqn:E.
  - injection H as <-. split; [done|]. destruct specs as [|kv specs].
    { exists 0. split; [|done]. intros kv Hkv. by apply not_elem_of_nil in Hkv. }
    destruct (mapM_elem _ _ _ kv Hps ltac:(left)) as (p & Hp & Hin). exists p. split; [|intros _; exists kv; split; [left|done]].
    intros kv' Hkv'. destruct (mapM_elem _ _ _ kv' Hps Hkv') as (p' & Hp' & Hin'). rewrite Hp'. f_equal.
    apply elem_of_remove_dups in Hin, Hin'. destruct (remove_dups ps) as [|a [|b l]]; [by apply not_elem_of_nil in Hin| |unfold zlen in E; cbn in E; lia].
    apply list_elem_of_singleton in Hin, Hin'. congruence.
  - bind_inv H as p Hp. split.
    + apply mapM_Ok in H. clear Hps Hp E. induction H as [|kv kv' specs specs' Hkv H IH]; [done|]. cbn. f_equal; [|done].
      bind_inv Hkv as s Hs. by injection Hkv as <-.
    + exists p. split.
      * intros kv' Hkv'. apply mapM_Ok in H. apply list_elem_of_lookup in Hkv' as [i Hi]. eapply Forall2_lookup_r in H as (kv & _ & Hkv); [|done].
        bind_inv Hkv as s Hs. injection Hkv as <-. by apply unify_layer_Ok in Hs.
      * intros _. apply py_list_max_Ok in Hp as [Hin _]. apply mapM_Ok in Hps. apply list_elem_of_lookup in Hin as [i Hi].
        eapply Forall2_lookup_r in Hps as (kv & Hkv & Hp); [|done]. exists kv. split; [by eapply list_elem_of_lookup_2|done].
Qed.

Lemma unify_hybrid_Ok specs specs' : unify_hybrid_kv_cache_specs specs = Ok specs' ->
  od_keys specs' = od_keys specs /\ forall kv', kv' ∈ specs' -> exists kv, kv ∈ specs /\ page_size_bytes kv'.2 = page_size_bytes kv.2.
Proof.
  assert (Hpage : forall s, page_size_bytes (unify_hybrid_layer s) = page_size_bytes s).
  { intros []; try done; unfold unify_hybrid_layer, KVConfig.page_size_bytes; cbn [page_size_padded_of attention_of mbind option_bind];
      (replace (real_page_size_bytes _ (FullAttentionSpec _ _ _ _)) with (2 * at_block_size a * at_num_kv_heads a * at_head_size a * get_dtype_size (at_dtype a));
        [done|cbn; ring]). }
  unfold unify_hybrid_kv_cache_specs. intros H. bind_inv H as b _. destruct b.
  - injection H as <-. split; [done|]. eauto.
  - bind_inv H as b _. destruct b; [|done]. injection H as <-. destruct (_ && _); [|split; [done|eauto]]. split.
    + unfold od_keys. by rewrite map_map.
    + intros kv' (kv & -> & Hkv)%list_elem_of_fmap. eauto.
Qed.

(** ** Layers of one type *)

(** The pages that one request needs of a layer. *)
Definition layer_pages (c : kv_vllm_config) (s : LayerSpec) : Z :=
  let b := layer_block_size s in
  match s with
  | FullAttentionSpec _ _ _ _ | MLAAttentionSpec _ _ _ _ _ | SinkFullAttentionSpec _ _ _ _ _ =>
      let cp := kc_decode_context_parallel_size c * kc_prefill_context_parallel_size c in
      cdiv (if 1 <? cp then cdiv (kc_max_model_len c) cp else kc_max_model_len c) b
  | ChunkedLocalAttentionSpec _ chunk => cdiv (Z.min (chunk + kc_max_num_batched_tokens c) (kc_max_model_len c)) b
  | SlidingWindowSpec _ window => cdiv (Z.min (window - 1 + kc_max_num_batched_tokens c) (kc_max_model_len c)) b + 1
  | MambaSpec _ _ _ _ _ _ spec_blocks =>
      if bool_decide (kc_mamba_cache_mode c = "all"%string) then cdiv (kc_max_model_len c) b
      else if bool_decide (kc_mamba_cache_mode c = "align"%string) then 2 + spec_blocks else 1 + spec_blocks
  | EncoderOnlyAttentionSpec _ => 0
  | CrossAttentionSpec _ => cdiv (kc_max_num_encoder_input_tokens c) b
  end.

Lemma layer_memory_pages c s m p : layer_max_memory_usage_bytes c s = Ok m -> page_size_bytes s = Ok p -> m = layer_pages c s * p.
Proof.
  intros Hm Hp.
  assert (Hpages : forall n b, (n' ← py_cdiv n b ; p ← page_size_bytes s ; Ok (n' * p)) = Ok m -> m = cdiv n b * p).
  { intros n b H. bind_inv H as n' Hn. apply py_cdiv_Ok in Hn as [_ ->]. rewrite Hp in H. by injection H as <-. }
  unfold KVConfig.layer_max_memory_usage_bytes in Hm.
  destruct s; cbn -[KVConfig.page_size_bytes Z.mul Z.add Z.sub Z.min] in Hm |- *; try (by apply Hpages in Hm).
  - bind_inv Hm as u _. bind_inv Hm as n' Hn. apply py_cdiv_Ok in Hn as [_ ->]. rewrite Hp in Hm. by injection Hm as <-.
  - case_bool_decide; [by apply Hpages in Hm|]. rewrite Hp in Hm. case_bool_decide; injection Hm as <-; lia.
  - injection Hm as <-. lia.
Qed.

(** Layers of one type need the same number of pages for a request. *)
Lemma uniform_type_pages specs : is_uniform_type specs = Ok true ->
  forall c, exists k, forall kv, kv ∈ specs -> layer_pages c kv.2 = k.
Proof.
  unfold is_uniform_type. destruct (1 <? _) eqn:Eb; [done|]. intros Hu c. destruct specs as [|[name s] specs]; [done|].
  exists (layer_pages c s). intros kv Hkv.
  assert (Hb : layer_block_size kv.2 = layer_block_size s).
  { assert (Hin : forall kv, kv ∈ (name, s) :: specs -> layer_block_size kv.2 ∈ remove_dups (map (fun kv => layer_block_size kv.2) ((name, s) :: specs))).
    { intros kv' Hkv'. apply elem_of_remove_dups, list_elem_of_fmap. eauto. }
    pose proof (Hin kv Hkv) as H1. pose proof (Hin (name, s) ltac:(left)) as H2.
    destruct (remove_dups _) as [|a [|b l]]; [by apply not_elem_of_nil in H1| |unfold zlen in Eb; cbn in Eb; lia].
    apply list_elem_of_singleton in H1, H2. cbn in H2. congruence. }
  apply list_elem_of_In in Hkv. unfold layer_pages. rewrite Hb. clear Eb Hb.
  assert (Hinj : forall b, @Ok bool b = Ok true -> b = true) by (intros b; congruence).
  destruct s; try done; apply Hinj in Hu; (eapply forallb_forall in Hu; [|exact Hkv]); destruct (kv.2); try done; by apply Z.eqb_eq in Hu as ->.
Qed.
End Groups.
