(* ===== verification/KVWorkers.v ===== *)
(** The groups of a model, their projection on a worker and the tensors of the
    worker: what is well formed, and that the code builds only that. *)
From S2P Require Import Prelude PyDict PyRes KVConfig KVConfigLemmas KVGroups.
Local Open Scope Z_scope.

Section Workers.
Context (get_dtype_size : dtype -> Z).
Abbreviation page_size_bytes := (page_size_bytes get_dtype_size).
Abbreviation group_page_size_bytes := (group_page_size_bytes get_dtype_size).
Abbreviation layer_max_memory_usage_bytes := (layer_max_memory_usage_bytes get_dtype_size).
Abbreviation get_uniform_page_size := (get_uniform_page_size get_dtype_size).
Abbreviation get_kv_cache_groups := (get_kv_cache_groups get_dtype_size).

(** ** Well-formed groups *)

(** The pages that one request needs of a group, and of all the groups. *)
Definition group_pages (c : kv_vllm_config) (g : KVCacheGroupSpec) : Z :=
  match group_spec g with
  | OneSpec s => layer_pages c s
  | UniformTypeKVCacheSpecs _ specs => from_option (fun kv => layer_pages c kv.2) 0 (head specs)
  end.
Definition request_pages (c : kv_vllm_config) (groups : list KVCacheGroupSpec) : Z := zsum (map (group_pages c) groups).

Definition pages_positive (specs : layer_dict) : Prop := forall kv p, kv ∈ specs -> page_size_bytes kv.2 = Ok p -> 0 < p.

(** Either all the groups have one spec each and their pages one size, or there is
    one group, of layers of one type with pages of different sizes.  [K] is the
    number of pages that one request needs. *)
Inductive groups_wf (K : kv_vllm_config -> Z) : list KVCacheGroupSpec -> Prop :=
  | wf_pages r groups :
      (forall p, r = Ok p -> 0 < p) ->
      (forall g, g ∈ groups -> exists s, group_spec g = OneSpec s /\ page_size_bytes s = r) ->
      (forall c, request_pages c groups = K c) -> groups_wf K groups
  | wf_uniform names b specs :
      NoDup (od_keys specs) -> names = [] \/ names = od_keys specs -> pages_positive specs ->
      (forall c kv, kv ∈ specs -> layer_pages c kv.2 = K c) ->
      groups_wf K [mkGroup names (UniformTypeKVCacheSpecs b specs)].

Lemma one_spec_no_type groups : (forall g, g ∈ groups -> exists s, group_spec g = OneSpec s) -> uniform_type_groups groups = None.
Proof. intros H. destruct groups as [|g [|]]; try done. destruct (H g ltac:(left)) as [s Hs]. cbn. by rewrite Hs. Qed.

Lemma uniform_page_size_Ok groups r p : (forall g, g ∈ groups -> exists s, group_spec g = OneSpec s /\ page_size_bytes s = r) ->
  get_uniform_page_size (map group_spec groups) = Ok p -> r = Ok p.
Proof.
  intros Hg Hp. destruct groups as [|g groups]; [done|]. destruct (Hg g ltac:(left)) as (s & Hs & <-).
  pose proof (uniform_page_Ok _ _ _ Hp (group_spec g) ltac:(left)) as H. by rewrite Hs in H.
Qed.

(** ** The groups of the model *)

Lemma od_lookup_elem (name : string) (specs : layer_dict) s : od_lookup name specs = Some s -> (name, s) ∈ specs.
Proof.
  induction specs as [|[k v] specs IH]; [done|]. cbn. case_decide; [intros [= ->]; subst; left|]. intros H'%IH. by right.
Qed.

Lemma same_type_layers_size specs mn mx : py_list_min (map (fun d => zlen d.2) (same_type_layers specs)) = Ok mn ->
  py_list_max (map (fun d => zlen d.2) (same_type_layers specs)) = Ok mx ->
  0 < (if 2 * mx <? 3 * mn then mx else mn).
Proof.
  intros [Hmn _]%py_list_min_Ok [Hmx _]%py_list_max_Ok. destruct (same_type_layers_spec specs _ eq_refl) as [_ Hsame].
  assert (Hpos : forall n, n ∈ map (fun d => zlen d.2) (same_type_layers specs) -> 0 < n).
  { intros n ([s names] & -> & Hin)%list_elem_of_fmap. destruct (Hsame s names Hin) as [Hne _]. by destruct names. }
  destruct (_ <? _); by apply Hpos.
Qed.

Lemma uniform_page_groups_Ok specs groups : _get_kv_cache_groups_uniform_page_size specs = Ok groups ->
  concat (map layer_names groups) ≡ₚ od_keys specs /\
  forall g, g ∈ groups -> exists kv s, kv ∈ specs /\ group_spec g = OneSpec s /\ page_size_bytes s = page_size_bytes kv.2.
Proof.
  unfold _get_kv_cache_groups_uniform_page_size. intros H. bind_inv H as mn Hmn. bind_inv H as mx Hmx. bind_inv H as gl Hgl.
  pose proof (same_type_layers_size specs mn mx Hmn Hmx) as Hsize. clear Hmn Hmx.
  set (size := if _ <? _ then _ else _) in Hgl, Hsize. clearbody size.
  destruct (same_type_layers_spec specs _ eq_refl) as [Hperm Hsame]. apply (create_group_specs_Ok get_dtype_size) in H as [Hn Hg]. split.
  - rewrite Hn, <-Hperm. apply mapM_Ok in Hgl. clear -Hgl Hsame Hsize.
    induction Hgl as [|[s names] pieces same gl Hp Hgl IH]; [done|].
    cbn [concat map snd]. rewrite concat_app, IH; [|intros s' n' Hin; apply Hsame; by right]. apply Permutation_app_tail.
    bind_inv Hp as n Hn. injection Hp as <-. cbn [snd] in *. apply py_cdiv_Ok in Hn as [_ ->]. apply strides_perm.
    destruct (Hsame s names ltac:(left)) as [Hne _]. pose proof (cdiv_bounds (zlen names) size Hsize).
    destruct names; [done|]. unfold zlen in *. cbn [length] in *. nia.
  - intros g Hgin. destruct (Hg g Hgin) as (name & s0 & s & _ & Hl & Hs & Hp & _). exists (name, s0), s.
    split; [by apply od_lookup_elem|done].
Qed.

Lemma from_specs_Ok specs g : from_specs specs = Ok (Some g) -> is_uniform_type specs = Ok true /\ exists b, g = UniformTypeKVCacheSpecs b specs.
Proof.
  unfold from_specs. intros H. bind_inv H as u Hu. destruct u; [|done]. split; [done|]. destruct specs as [|[? ?] ?]; [done|].
  injection H as <-. eauto.
Qed.

Lemma one_spec_wf groups r (specs : layer_dict) : pages_positive specs -> (exists kv, kv ∈ specs /\ page_size_bytes kv.2 = r) \/ groups = [] ->
  (forall g, g ∈ groups -> exists s, group_spec g = OneSpec s /\ page_size_bytes s = r) -> groups_wf (fun c => request_pages c groups) groups.
Proof.
  intros Hpos Hr Hg. destruct Hr as [(kv & Hkv & <-)| ->].
  - apply (wf_pages _ (page_size_bytes kv.2)); [|done|done]. intros p. by apply Hpos.
  - apply (wf_pages _ (Ok 1)); [intros p [= <-]; lia| |done]. intros g Hin. by apply not_elem_of_nil in Hin.
Qed.

Lemma get_groups_Ok c specs groups : NoDup (od_keys specs) -> pages_positive specs -> get_kv_cache_groups c specs = Ok groups ->
  groups_wf (fun c => request_pages c groups) groups /\ concat (map layer_names groups) ≡ₚ od_keys specs.
Proof.
  unfold KVConfig.get_kv_cache_groups. intros Hnd Hpos H. bind_inv H as specs' Hspecs.
  assert (Hs : od_keys specs' = od_keys specs /\ pages_positive specs').
  { destruct (kc_disable_hybrid_kv_cache_manager c); [|by injection Hspecs as <-].
    destruct (unify_hybrid_Ok get_dtype_size _ _ Hspecs) as [Hk Hp]. split; [done|].
    intros kv' p Hkv' Hp'. destruct (Hp kv' Hkv') as (kv & Hkv & He). rewrite He in Hp'. by eapply Hpos. }
  destruct Hs as [Hk Hpos']. rewrite <-Hk in *. clear Hspecs Hpos Hk specs. destruct specs' as [|kv0 specs].
  { injection H as <-. split; [|done]. eapply (one_spec_wf _ (Ok 1)); [exact Hpos'|by right|]. intros g Hin. by apply not_elem_of_nil in Hin. }
  set (specs' := kv0 :: specs) in *. assert (Hne : specs' <> []) by done. clearbody specs'.
  bind_inv H as u Hu. destruct u; [|clear Hu; bind_inv H as us Hus; destruct us as [g|]].
  - apply (create_group_specs_Ok get_dtype_size) in H as [Hn Hg]. destruct groups as [|g [|]]; try done. injection Hn as Hn.
    destruct (Hg g ltac:(left)) as (name & s0 & s & _ & Hl & Hs & Hp & _). apply od_lookup_elem in Hl. split; [|cbn; by rewrite Hn, app_nil_r].
    apply (one_spec_wf _ (page_size_bytes s0) specs' Hpos'); [left; by exists (name, s0)|].
    intros g' ->%list_elem_of_singleton. eauto.
  - injection H as <-. apply from_specs_Ok in Hus as [Hut (b & ->)]. split; [|cbn; by rewrite app_nil_r]. apply wf_uniform; [done|by right|done|].
    intros c' kv Hkv. unfold request_pages, group_pages. cbn. destruct (uniform_type_pages specs' Hut c') as (k & Hk).
    rewrite (Hk kv Hkv). destruct specs' as [|kv' specs']; [done|]. cbn. rewrite (Hk kv' ltac:(left)). unfold zsum. cbn. lia.
  - bind_inv H as specs2 Hu. destruct (unify_page_size_Ok get_dtype_size _ _ Hu) as [Hk (p & Hp & Hex)]. rewrite <-Hk.
    apply uniform_page_groups_Ok in H as [Hperm Hg]. split; [|done]. destruct (Hex Hne) as (kv & Hkv & Hkp).
    apply (one_spec_wf _ (Ok p) specs' Hpos'); [left; by exists kv|]. intros g Hgin.
    destruct (Hg g Hgin) as (kv' & s & Hkv' & Hs & Hsp). exists s. split; [done|]. rewrite Hsp. by apply Hp.
Qed.

(** ** The groups of a worker *)

Lemma project_Ok K groups (worker : layer_dict) groups' : groups_wf K groups -> _project_kv_cache_groups_to_worker groups worker = Ok groups' ->
  groups_wf K groups' /\ concat (map layer_names groups') = filter (fun name => od_mem name worker) (concat (map layer_names groups)).
Proof.
  intros Hwf H. split.
  - destruct Hwf as [r groups Hr Hg HK|names b specs Hnd Hnames Hpos HK].
    + apply mapM_Ok in H. assert (HK' : forall c, request_pages c groups' = K c /\ forall g', g' ∈ groups' -> exists s, group_spec g' = OneSpec s /\ page_size_bytes s = r).
      { intros c. rewrite <-HK. clear HK Hr. induction H as [|g g' groups groups' Hgg H IH]; [split; [done|]; intros g' Hin; by apply not_elem_of_nil in Hin|].
        destruct IH as [IHK IHg]; [intros g'' Hin; apply Hg; by right|]. destruct (Hg g ltac:(left)) as (s & Hs & Hp).
        assert (Hg' : group_spec g' = OneSpec s) by (cbn beta zeta in Hgg; rewrite Hs in Hgg; by destruct (filter _ _); injection Hgg as <-).
        split; [|intros g'' [->|Hin]%elem_of_cons; [eauto|by apply IHg]].
        unfold request_pages in *. cbn [map]. rewrite !zsum_cons, IHK. f_equal. unfold group_pages. by rewrite Hg', Hs. }
      apply (wf_pages K r); [done| |intros c; apply HK'].
      destruct groups' as [|g' groups']; [intros g Hin; by apply not_elem_of_nil in Hin|]. exact (proj2 (HK' (mkVllmConfig 0 0 0 0 0 0 "" None false))).
    + cbn in H. destruct (filter _ names) as [|name names'] eqn:E.
      * injection H as <-. apply wf_uniform; auto.
      * rewrite <-E in H. bind_inv H as gs Hgs. injection H as <-. bind_inv Hgs as specs' Hs. injection Hgs as <-.
        destruct Hnames as [->|Hnames]; [done|].
        assert (Hs' : od_keys specs' = filter (fun name => od_mem name worker) names /\ forall kv, kv ∈ specs' -> kv ∈ specs).
        { clear E. revert specs' Hs. generalize (filter (fun name => od_mem name worker) names). intros l specs' Hs%mapM_Ok.
          induction Hs as [|n kv l specs' Hkv Hs [IHk IHs]]; [split; [done|]; intros kv Hin; by apply not_elem_of_nil in Hin|].
          destruct (od_lookup n specs) as [s|] eqn:El; [|done]. injection Hkv as <-. split; [by rewrite <-IHk|].
          intros kv [->|Hin]%elem_of_cons; [by apply od_lookup_elem|by apply IHs]. }
        destruct Hs' as [Hk Hsub]. apply wf_uniform.
        { rewrite Hk. apply NoDup_filter. by rewrite Hnames. } { by right. } { intros kv p Hkv. apply Hpos. by apply Hsub. }
        intros c kv Hkv. by apply HK, Hsub.
  - apply mapM_Ok in H. clear Hwf. induction H as [|g g' groups groups' Hgg H IH]; [done|]. cbn [map concat]. rewrite filter_app, IH. f_equal.
    cbn beta zeta in Hgg. destruct (filter _ (layer_names g)) as [|name names] eqn:E.
    + by injection Hgg as <-.
    + destruct (group_spec g); [by injection Hgg as <-|]. bind_inv Hgg as specs Hs. by injection Hgg as <-.
Qed.
(** ** The tensors of a worker *)

(** The pages of the layer [name] have [p] bytes. *)
Definition layer_page (groups : list KVCacheGroupSpec) (name : string) (p : Z) : Prop :=
  exists g, g ∈ groups /\ name ∈ layer_names g /\
  match group_spec g with
  | OneSpec s => page_size_bytes s = Ok p
  | UniformTypeKVCacheSpecs _ specs => exists s, (name, s) ∈ specs /\ page_size_bytes s = Ok p
  end.

(** The tensors hold every layer once, [num_blocks] pages each, [total] bytes per
    block together. *)
Record config_wf (groups : list KVCacheGroupSpec) (total : Z) (config : KVCacheConfig) : Prop := {
  cw_groups : kv_cache_groups config = groups;
  cw_layers : concat (map shared_by (kv_cache_tensors config)) ≡ₚ concat (map layer_names groups);
  cw_sizes : forall t, t ∈ kv_cache_tensors config -> exists p, tensor_size t = p * num_blocks config /\
    forall name, name ∈ shared_by t -> layer_page groups name p;
  cw_total : exists ps, map tensor_size (kv_cache_tensors config) = map (fun p => p * num_blocks config) ps /\ total = zsum ps;
  cw_nonneg : 0 <= total
}.

(** The columns of ragged rows. *)
Lemma columns_perm {A} (rows : list (list A)) size : (forall row, row ∈ rows -> zlen row <= size) ->
  concat (map (fun i => omap (fun row => row !! Z.to_nat i) rows) (zrange 0 size)) ≡ₚ concat rows.
Proof.
  induction rows as [|row rows IH]; intros H.
  - cbn. generalize (zrange 0 size). intros js. by induction js.
  - cbn [concat]. rewrite <-IH by (intros r Hr; apply H; by right). specialize (H row ltac:(left)). clear IH.
    assert (Hrow : concat (map (fun i => option_list (row !! Z.to_nat i)) (zrange 0 size)) = row).
    { unfold zrange, seqZ. rewrite map_map, Z.sub_0_r. assert (Hl : (length row <= Z.to_nat size)%nat) by (unfold zlen in H; lia).
      revert Hl. generalize (Z.to_nat size). clear H. intros n. rewrite (map_ext _ (fun i => option_list (row !! i))) by (intros i; by rewrite Z.add_0_r, Nat2Z.id).
      revert n. induction row as [|x row IH]; intros n Hl.
      - clear. generalize (seq 0 n). intros js. by induction js.
      - destruct n as [|n]; [cbn in Hl; lia|]. cbn [seq map concat lookup]. rewrite <-seq_shift, map_map. cbn in Hl |- *. f_equal. apply IH. lia. }
    apply (f_equal (fun l => l ++ concat (map (fun i => omap (fun row => row !! Z.to_nat i) rows) (zrange 0 size)))) in Hrow.
    rewrite <-Hrow. clear Hrow H. generalize (zrange 0 size). intros js. induction js as [|j js IH]; [done|].
    cbn [map concat omap list_omap]. rewrite IH. destruct (row !! Z.to_nat j) as [x|]; cbn [option_list app].
    + constructor. apply Permutation_app_swap_app.
    + apply Permutation_app_swap_app.
Qed.

Lemma config_total groups total config : config_wf groups total config -> zsum (map tensor_size (kv_cache_tensors config)) = total * num_blocks config.
Proof. intros [_ _ _ (ps & -> & ->) _]. apply zsum_scaled. Qed.

(** The tensors of groups with pages of one size. *)
Lemma pages_config_wf groups r size p n : (forall g, g ∈ groups -> exists s, group_spec g = OneSpec s /\ page_size_bytes s = r) -> r = Ok p -> 0 < p ->
  (forall g, g ∈ groups -> zlen (layer_names g) <= size) -> 0 < size ->
  config_wf groups (size * p) (mkKVCacheConfig n
    (map (fun i => mkTensor (p * n) (omap (fun g => layer_names g !! Z.to_nat i) groups)) (zrange 0 size)) groups).
Proof.
  intros Hg -> Hp Hsize Hs. constructor; cbn [kv_cache_groups kv_cache_tensors num_blocks]; [done|..].
  - rewrite map_map. cbn [shared_by]. rewrite <-(columns_perm (map layer_names groups) size).
    + erewrite map_ext; [done|]. intros i. cbn. clear. induction groups as [|g groups IH]; [done|]. cbn. by rewrite IH.
    + intros row (g & -> & Hin)%list_elem_of_fmap. by apply Hsize.
  - intros t (i & -> & _)%list_elem_of_fmap. exists p. split; [done|]. cbn [shared_by].
    intros name (g & Hin & Hl)%list_elem_of_omap. exists g. split; [done|]. split; [by eapply list_elem_of_lookup_2|].
    destruct (Hg g Hin) as (s & -> & Hps). done.
  - exists (map (fun _ => p) (zrange 0 size)). rewrite !map_map. split; [done|]. rewrite zsum_const. unfold zlen, zrange. rewrite length_seqZ. lia.
  - nia.
Qed.

(** The tensors of layers of one type. *)
Lemma uniform_config_wf names b specs n tensors : NoDup (od_keys specs) -> names = [] \/ names = od_keys specs -> pages_positive specs ->
  mapM (fun name => s ← match od_lookup name specs with Some s => Ok s | None => Err KeyError end ;
                    p ← page_size_bytes s ; Ok (mkTensor (p * n) [name])) names = Ok tensors ->
  exists total, config_wf [mkGroup names (UniformTypeKVCacheSpecs b specs)] total
    (mkKVCacheConfig n tensors [mkGroup names (UniformTypeKVCacheSpecs b specs)]) /\
  (names = [] /\ total = 0 \/ sum_with (fun kv => page_size_bytes kv.2) specs = Ok total).
Proof.
  intros Hnd Hnames Hpos Ht.
  assert (H : exists ps, tensors = map (fun np => mkTensor (np.2 * n) [np.1]) ps /\ map fst ps = names /\
    forall np, np ∈ ps -> exists s, (np.1, s) ∈ specs /\ page_size_bytes s = Ok np.2).
  { clear Hnames. apply mapM_Ok in Ht. induction Ht as [|name t names tensors Ht _ IH]; [exists []; split; [done|]; split; [done|]; intros np Hin; by apply not_elem_of_nil in Hin|].
    destruct IH as (ps & -> & <- & Hps). bind_inv Ht as s Hs. bind_inv Ht as p Hp. injection Ht as <-.
    destruct (od_lookup name specs) as [s'|] eqn:El; [|done]. injection Hs as ->.
    exists ((name, p) :: ps). split; [done|]. split; [done|]. intros np [->|Hin]%elem_of_cons; [|by apply Hps].
    exists s. split; [by apply od_lookup_elem|done]. }
  destruct H as (ps & -> & Hfst & Hps). exists (zsum (map snd ps)). split.
  - constructor; cbn [kv_cache_groups kv_cache_tensors num_blocks]; [done|..].
    + rewrite map_map. cbn. rewrite app_nil_r, <-Hfst. clear. induction ps as [|np ps IH]; [done|]. cbn. by rewrite IH.
    + intros t (np & -> & Hin)%list_elem_of_fmap. exists (np.2). split; [done|]. cbn [shared_by]. intros name ->%list_elem_of_singleton.
      exists (mkGroup names (UniformTypeKVCacheSpecs b specs)). split; [left|]. split; [|by apply Hps]. cbn. rewrite <-Hfst. apply list_elem_of_fmap. eauto.
    + exists (map snd ps). by rewrite !map_map.
    + apply zsum_positive. intros np Hin. destruct (Hps np Hin) as (s & Hs & Hp). by apply (Hpos (np.1, s)).
  - destruct Hnames as [->|Hnames]; [left; by destruct ps|right]. unfold sum_with.
    enough (mapM (fun kv => page_size_bytes kv.2) specs = Ok (map snd ps)) as ->; [done|]. apply mapM_Ok.
    rewrite Hnames in Hfst. clear -Hnd Hfst Hps. apply Forall2_same_length_lookup_2.
    { rewrite length_map. apply (f_equal length) in Hfst. unfold od_keys in Hfst. by rewrite !length_map in Hfst. }
    intros i kv p Hkv Hp. apply list_lookup_fmap_Some in Hp as (np & -> & Hnp).
    assert (Hk : kv.1 = np.1).
    { assert (H1 : od_keys specs !! i = Some kv.1) by (unfold od_keys; rewrite list_lookup_fmap, Hkv; done).
      rewrite <-Hfst, list_lookup_fmap, Hnp in H1. by injection H1. }
    destruct (Hps np) as (s & Hs & Hp); [by eapply list_elem_of_lookup_2|].
    apply list_elem_of_lookup_2 in Hkv. destruct kv as [k v]. cbn in *. subst k. rewrite <-Hp. f_equal.
    apply od_lookup_Some in Hs; [|done]. apply od_lookup_Some in Hkv; [|done]. congruence.
Qed.
(** ** Memory for one request *)

Lemma sum_with_Ok {A} (f : A -> res Z) l n : sum_with f l = Ok n -> exists ns, Forall2 (fun x y => f x = Ok y) l ns /\ n = zsum ns.
Proof. unfold sum_with. intros H. bind_inv H as ns Hns. injection H as <-. apply mapM_Ok in Hns. eauto. Qed.

Lemma pages_memory K groups r c needed : (forall p, r = Ok p -> 0 < p) ->
  (forall g, g ∈ groups -> exists s, group_spec g = OneSpec s /\ page_size_bytes s = r) ->
  request_pages c groups = K c -> groups <> [] -> _max_memory_usage_bytes_from_groups get_dtype_size c groups = Ok needed ->
  exists size p, py_list_max (map (fun g => zlen (layer_names g)) groups) = Ok size /\ r = Ok p /\ needed = size * p * K c.
Proof.
  intros Hr Hg HK Hne H. unfold _max_memory_usage_bytes_from_groups in H.
  rewrite one_spec_no_type in H by (intros g Hin; destruct (Hg g Hin) as (s & Hs & _); eauto).
  assert (H' : (group_size ← py_list_max (map (fun g => zlen (layer_names g)) groups) ;
    page_size ← get_uniform_page_size (map group_spec groups) ;
    blocks_needed ← sum_with (fun g => m ← group_max_memory_usage_bytes get_dtype_size c (group_spec g) ; py_cdiv m page_size) groups ;
    Ok (group_size * page_size * blocks_needed)) = Ok needed) by (by destruct groups).
  clear H Hne. bind_inv H' as size Hsize. bind_inv H' as p Hp. bind_inv H' as bn Hbn. injection H' as <-.
  pose proof (uniform_page_size_Ok groups r p Hg Hp) as ->. exists size, p. split; [done|]. split; [done|]. f_equal.
  rewrite <-HK. apply sum_with_Ok in Hbn as (ns & Hns & ->). specialize (Hr p eq_refl). clear HK Hp Hsize. unfold request_pages.
  induction Hns as [|g n groups ns Hn Hns IH]; [done|]. cbn [map]. rewrite !zsum_cons, <-IH by (intros g' Hin; apply Hg; by right). f_equal.
  destruct (Hg g ltac:(left)) as (s & Hs & Hps). unfold group_pages. rewrite Hs in Hn |- *. cbn [group_max_memory_usage_bytes] in Hn.
  bind_inv Hn as m Hm. apply py_cdiv_Ok in Hn as [_ ->]. rewrite (layer_memory_pages _ _ _ _ _ Hm Hps).
  unfold cdiv. rewrite Z.div_opp_r_z; [|lia|by apply Z.mod_mul; lia]. rewrite Z.div_mul; lia.
Qed.

Lemma uniform_memory k c (specs : layer_dict) needed total : (forall kv, kv ∈ specs -> layer_pages c kv.2 = k) ->
  sum_with (fun kv => layer_max_memory_usage_bytes c kv.2) specs = Ok needed -> sum_with (fun kv => page_size_bytes kv.2) specs = Ok total ->
  needed = k * total.
Proof.
  intros Hk (ns & Hns & ->)%sum_with_Ok (ps & Hps & ->)%sum_with_Ok. revert ps Hps.
  induction Hns as [|kv n specs ns Hn Hns IH]; intros ps Hps; inversion Hps as [|? p ? ps' Hp Hps']; subst; [unfold zsum; cbn; lia|].
  rewrite !zsum_cons, (IH (fun kv' Hin => Hk kv' ltac:(by right)) ps' Hps'), (layer_memory_pages _ _ _ _ _ Hn Hp), (Hk kv ltac:(left)). lia.
Qed.

(** ** The configuration of one worker *)

Lemma config_Ok K c groups mem config : groups_wf K groups -> get_kv_cache_config_from_groups get_dtype_size c groups mem = Ok config ->
  exists total, config_wf groups total config
  /\ (kc_num_gpu_blocks_override c = None -> 0 <= mem -> total * num_blocks config <= mem)
  /\ (forall c' needed, groups <> [] -> _max_memory_usage_bytes_from_groups get_dtype_size c' groups = Ok needed ->
      (needed = K c' * total \/ concat (map layer_names groups) = []) /\
      (kc_num_gpu_blocks_override c = None -> needed <= mem -> K c' <= num_blocks config)).
Proof.
  intros Hwf H. destruct Hwf as [r groups Hr Hg HK|names b specs Hnd Hnames Hpos HK].
  - destruct groups as [|g0 groups0].
    { injection H as <-. exists 0. split; [constructor; try done; [intros t Hin; by apply not_elem_of_nil in Hin|by exists []]|]. split; [done|done]. }
    unfold get_kv_cache_config_from_groups in H. set (groups := g0 :: groups0) in *. assert (Hne : groups <> []) by done.
    rewrite one_spec_no_type in H by (intros g Hin; destruct (Hg g Hin) as (s & Hs & _); eauto).
    clearbody groups. bind_inv H as size Hsize. bind_inv H as p Hp. bind_inv H as u Hu. apply r_assert_Ok in Hu. bind_inv H as n Hn. injection H as <-.
    pose proof (uniform_page_size_Ok groups r p Hg Hp) as Hrp. pose proof (Hr p Hrp) as Hppos.
    assert (Hn' : n = may_override_num_blocks c (Z.max (mem / p / size) 0)).
    { unfold get_num_blocks in Hn. bind_inv Hn as a Ha. apply py_floordiv_Ok in Ha as [_ ->]. bind_inv Hn as a Ha. apply py_floordiv_Ok in Ha as [_ ->]. by injection Hn as <-. }
    exists (size * p). split; [|split].
    + apply (pages_config_wf groups r size p n Hg Hrp Hppos); [|lia]. intros g Hin. apply py_list_max_Ok in Hsize as [_ Hmax].
      apply Hmax. apply list_elem_of_fmap. eauto.
    + intros Ho Hm. cbn [num_blocks]. rewrite Hn'. unfold may_override_num_blocks. rewrite Ho. cbn [default from_option].
      rewrite Z.div_div by lia. pose proof (Z.mul_div_le mem (p * size) ltac:(nia)).
      pose proof (Z.div_pos mem (p * size) Hm ltac:(nia)). rewrite Z.max_l by done. lia.
    + intros c' needed _ Hneed. destruct (pages_memory K groups r c' needed Hr Hg (HK c') Hne Hneed) as (size' & p' & Hs' & Hp' & ->).
      assert (size' = size) as -> by congruence. assert (p' = p) as -> by congruence. split; [left; lia|]. intros Ho Hle.
      cbn [num_blocks]. rewrite Hn'. unfold may_override_num_blocks. rewrite Ho. cbn [default from_option].
      rewrite Z.div_div by lia. pose proof (Z.div_le_lower_bound mem (p * size) (K c') ltac:(nia) ltac:(nia)). lia.
  - cbn in H. bind_inv H as P HP. bind_inv H as n Hn. apply py_floordiv_Ok in Hn as [HP0 ->]. bind_inv H as ts Hts. injection H as <-.
    destruct (uniform_config_wf names b specs _ ts Hnd Hnames Hpos Hts) as (total & Hwf & Htot). exists total. split; [done|].
    assert (HPpos : 0 < P).
    { assert (0 <= P); [|lia]. apply sum_with_Ok in HP as (ps & Hps & ->). clear -Hps Hpos. induction Hps as [|kv p specs ps Hp Hps IH]; [done|].
      rewrite zsum_cons. specialize (IH (fun kv' q Hin => Hpos kv' q ltac:(by right))). specialize (Hpos kv p ltac:(left) Hp). lia. }
    assert (Hcase : names = [] /\ total = 0 \/ total = P) by (destruct Htot as [?|Ht]; [by left|right; congruence]). split.
    + intros Ho Hm. cbn [num_blocks]. unfold may_override_num_blocks. rewrite Ho. cbn [default from_option].
      destruct Hcase as [[_ ->]| ->]; [lia|]. pose proof (Z.mul_div_le mem P HPpos). lia.
    + intros c' needed _ Hneed. cbn in Hneed. pose proof (uniform_memory (K c') c' specs needed P (HK c') Hneed HP) as ->. split.
      * destruct Hcase as [[-> _]| ->]; [by right|by left].
      * intros Ho Hle. cbn [num_blocks]. unfold may_override_num_blocks. rewrite Ho. cbn [default from_option].
        apply Z.div_le_lower_bound; [done|lia].
Qed.

(** Fewer blocks for every tensor. *)
Lemma shrink_Ok c groups total n config config' : config_wf groups total config -> shrink_config get_dtype_size c n config = Ok config' ->
  config_wf groups total config' /\ num_blocks config' = n /\ (kv_cache_tensors config' = [] <-> kv_cache_tensors config = []).
Proof.
  intros [Hg Hl Hs Ht Hn] H. unfold shrink_config in H. bind_inv H as ts Hts.
  assert (config' = mkKVCacheConfig n ts (kv_cache_groups config)) as ->.
  { cbn zeta in H. cbn [kv_cache_groups] in H. destruct (kv_cache_groups config) as [|g gs]; [by injection H as <-|].
    bind_inv H as u _. by injection H as <-. }
  clear H. assert (Hts' : ts = map (fun t => mkTensor (tensor_size t / num_blocks config * n) (shared_by t)) (kv_cache_tensors config)
    /\ (kv_cache_tensors config <> [] -> num_blocks config <> 0)).
  { apply mapM_Ok in Hts. clear -Hts. induction Hts as [|t t' ts ts' Ht Hts [-> IH]]; [done|].
    bind_inv Ht as m Hm. apply py_mod_Ok in Hm as [Hn _]. bind_inv Ht as u _. by injection Ht as <-. }
  destruct Hts' as [-> Hnb]. split; [|split; [done|]].
  - constructor; cbn [kv_cache_groups kv_cache_tensors num_blocks]; [done|..|done].
    + by rewrite map_map.
    + intros t (t0 & -> & Hin)%list_elem_of_fmap. destruct (Hs t0 Hin) as (p & Hp & Hsh). exists p. split; [|done].
      cbn [tensor_size]. rewrite Hp, Z.div_mul; [done|]. apply Hnb. intros E. by rewrite E in Hin; apply not_elem_of_nil in Hin.
    + destruct Ht as (ps & Hps & Htot). exists ps. split; [|done]. rewrite map_map. cbn [tensor_size].
      destruct ps as [|p0 ps0] eqn:Eps; [by destruct (kv_cache_tensors config)|]. rewrite <-Eps in *.
      assert (Hn0 : num_blocks config <> 0) by (apply Hnb; intros E; rewrite E, Eps in Hps; done).
      rewrite <-(map_map tensor_size (fun z => z / num_blocks config * n)), Hps, map_map. apply map_ext. intros p. by rewrite Z.div_mul.
  - cbn [kv_cache_tensors]. destruct (kv_cache_tensors config); done.
Qed.
End Workers.
