(* ===== verification/KVConfigSpec.v ===== *)
(** The KV cache configuration as a whole: the model length that is fitted, the
    groups of a model, and the configurations of the workers. *)
From S2P Require Import Prelude PyDict PyRes Request Samples SingleType Coordinator KVManager.
From S2P Require Import KVConfig KVConfigLemmas KVGroups KVWorkers.
Local Open Scope Z_scope.

Section Spec.
Context (get_dtype_size : dtype -> Z).
Abbreviation _max_memory_usage_bytes_from_groups := (_max_memory_usage_bytes_from_groups get_dtype_size).
Abbreviation _estimate_max_model_len_from_groups := (_estimate_max_model_len_from_groups get_dtype_size).
Abbreviation _auto_fit_max_model_len := (_auto_fit_max_model_len get_dtype_size).
Abbreviation get_uniform_page_size := (get_uniform_page_size get_dtype_size).

(** ** The largest length that fits *)

(** A request of [n] tokens fits in the memory of a worker. *)
Definition fits_len (c : kv_vllm_config) (worker : list KVCacheGroupSpec * Z) (n : Z) : bool :=
  match _max_memory_usage_bytes_from_groups (set_max_model_len n c) worker.1 with Ok m => m <=? worker.2 | Err _ => false end.

(** Layers that are not empty, in pages of one size if there are several groups. *)
Definition worker_sized (c : kv_vllm_config) (groups : list KVCacheGroupSpec) : bool :=
  forallb (fun g => group_sized get_dtype_size c (group_spec g)) groups &&
  match groups, uniform_type_groups groups with
  | _ :: _, None => match get_uniform_page_size (map group_spec groups) with Ok p => 0 <? p | Err _ => false end
  | _, _ => true
  end.

Lemma worker_monotone c groups : worker_sized c groups = true ->
  monotone (fun n => _max_memory_usage_bytes_from_groups (set_max_model_len n c) groups).
Proof.
  unfold worker_sized. intros [Hs Hp]%andb_true_iff. apply groups_memory_monotone; [done|].
  intros Hu Hne. destruct groups as [|g groups]; [done|]. set (gs := g :: groups) in *. rewrite Hu in Hp. clearbody gs.
  set (l := map group_spec gs) in *. clearbody l. destruct (get_uniform_page_size l) as [p|]; [|done]. exists p. split; [done|lia].
Qed.

Lemma fits_len_mono c worker a b : worker_sized c worker.1 = true -> a <= b -> fits_len c worker b = true -> fits_len c worker a = true.
Proof.
  intros (f & Hf & Hm)%worker_monotone Hab. unfold fits_len. rewrite !Hf. specialize (Hm a b Hab). lia.
Qed.

Lemma estimate_largest c worker : worker_sized c worker.1 = true -> 1 <= kc_max_model_len c ->
  exists r, _estimate_max_model_len_from_groups c worker.1 worker.2 = Ok r
  /\ (r = 0 /\ (forall n, 1 <= n -> fits_len c worker n = false) \/ largest (fits_len c worker) (kc_max_model_len c) r).
Proof.
  intros Hs Hm. apply search_max_len_ok; [|intros a b Hab; by apply fits_len_mono; [|lia]|done].
  intros n Hn. destruct (worker_monotone c worker.1 Hs) as (f & Hf & _). unfold fits_len. by rewrite Hf.
Qed.

(** C17: _auto_fit_max_model_len with at least one worker that has groups: the length it
    returns is the largest up to the length of the model for which one request fits in
    the memory of every worker with groups; it raises ValueError exactly when some
    worker cannot hold a request of one token.  The binary search ends for every
    input. *)
Theorem auto_fit_largest c workers :
  forallb (fun w => worker_sized c w.1) workers = true -> 1 <= kc_max_model_len c -> existsb (fun w => negb (bool_decide (length w.1 = 0%nat))) workers = true ->
  let active := filter (fun w => w.1 <> []) workers in
  match _auto_fit_max_model_len c (map fst workers) (map snd workers) with
  | Ok r => 1 <= r <= kc_max_model_len c /\ forallb (fun w => fits_len c w r) active = true
            /\ forall n, r < n <= kc_max_model_len c -> existsb (fun w => negb (fits_len c w n)) active = true
  | Err e => e = ValueError /\ existsb (fun w => negb (fits_len c w 1)) active = true
  end.
Proof.
  intros Hs Hm Hex. cbn zeta. set (m := kc_max_model_len c) in *.
  assert (Hstep : forall ws v, forallb (fun w => worker_sized c w.1) ws = true -> 0 <= v <= m ->
    exists r, foldl (fun acc ga => auto_fit_max ← acc ;
        match ga.1 with
        | [] => Ok auto_fit_max
        | _ => worker_max ← _estimate_max_model_len_from_groups c ga.1 ga.2 ; Ok (Z.min worker_max auto_fit_max)
        end) (Ok v) ws = Ok r
    /\ 0 <= r <= v /\ (1 <= r -> forallb (fun w => fits_len c w r) (filter (fun w => w.1 <> []) ws) = true)
    /\ forall n, r < n <= v -> existsb (fun w => negb (fits_len c w n)) (filter (fun w => w.1 <> []) ws) = true).
  { clear Hex Hs. induction ws as [|w ws IH]; intros v Hs Hv.
    - exists v. split; [done|]. split; [lia|]. split; [done|]. intros n Hn. lia.
    - cbn [forallb] in Hs. apply andb_true_iff in Hs as [Hw Hs]. cbn [foldl mbind res_bind]. rewrite filter_cons.
      destruct (w.1) as [|g gs] eqn:Eg; [rewrite decide_False by naive_solver; by apply IH|].
      rewrite decide_True by done. rewrite <-Eg in *. destruct (estimate_largest c w Hw Hm) as (r & -> & Hr). cbn [mbind res_bind].
      fold m in Hr. assert (Hv' : 0 <= Z.min r v <= m) by (destruct Hr as [[-> _]|[Hr _]]; lia).
      destruct (IH (Z.min r v) Hs Hv') as (r' & -> & Hr' & Hfit & Hnot). exists r'. split; [done|]. split; [lia|]. split.
      + intros H1. cbn [forallb]. rewrite (Hfit H1), andb_true_r. destruct Hr as [[-> _]|(_ & Hg & _)]; [lia|].
        apply (fits_len_mono c w r' r Hw); [lia|done].
      + intros n Hn. cbn [existsb]. destruct (decide (n <= Z.min r v)) as [Hle|Hgt]; [rewrite (Hnot n) by lia; apply orb_true_r|].
        assert (Hf : fits_len c w n = false) by (destruct Hr as [[-> Hr]|(_ & _ & Hr)]; apply Hr; lia). by rewrite Hf. }
  destruct (Hstep workers m Hs ltac:(lia)) as (r & Hr & Hrm & Hfit & Hnot). clear Hstep.
  unfold KVConfig._auto_fit_max_model_len. fold m.
  assert (Hall : forallb (fun groups => match groups with [] => true | _ => false end) (map fst workers) = false).
  { apply existsb_exists in Hex as (w & Hw & Hne). apply not_true_is_false. intros Hall. rewrite forallb_forall in Hall.
    specialize (Hall w.1 ltac:(by apply in_map)). by destruct (w.1). }
  rewrite Hall. clear Hall. assert (Hget : exists x, py_get (map snd workers) 0 = Ok x) by (destruct workers as [|w ws]; [done|by exists w.2]).
  destruct Hget as (x & ->). cbn [mbind res_bind].
  assert (Hzip : zip (map fst workers) (map snd workers) = workers) by apply zip_fst_snd. rewrite Hzip.
  rewrite Hr. cbn [mbind res_bind]. destruct (r <=? 0) eqn:E0.
  { split; [done|]. apply Hnot. lia. }
  destruct (m <=? r) eqn:Em; [assert (m = r) as -> by lia|]; (split; [lia|split; [apply Hfit; lia|done]]).
Qed.
(** ** The groups of a model *)

(** C16: get_kv_cache_groups: the groups it returns partition the layers of the model,
    and are well formed, with the hybrid manager disabled or not: each group has one
    merged spec and the pages of all the groups have one size, which is positive, so
    that get_uniform_page_size cannot fail on them; or there is a single group of
    layers of one type, each layer with its own spec, which all need the same number
    of pages for a request. *)
Theorem kv_groups_typed c (specs : layer_dict) groups : NoDup (od_keys specs) -> pages_positive get_dtype_size specs ->
  get_kv_cache_groups get_dtype_size c specs = Ok groups ->
  groups_wf get_dtype_size (fun c' => request_pages c' groups) groups /\ concat (map layer_names groups) ≡ₚ od_keys specs.
Proof. apply get_groups_Ok. Qed.

(** ** The workers *)

Lemma merge_worker_specs_Ok merged specs merged' : merge_worker_specs merged specs = Ok merged' -> NoDup (od_keys merged) ->
  NoDup (od_keys merged') /\ (forall kv, kv ∈ merged' -> kv ∈ merged \/ kv ∈ specs) /\
  (forall name, name ∈ od_keys merged \/ name ∈ od_keys specs -> name ∈ od_keys merged').
Proof.
  revert merged. induction specs as [|[name s] specs IH]; intros merged H Hnd; cbn in H.
  - injection H as <-. split; [done|]. split; [auto|]. intros name [?|Hin]; [done|]. by apply not_elem_of_nil in Hin.
  - destruct (od_lookup name merged) as [s'|] eqn:El.
    + bind_inv H as u _. destruct (IH merged H Hnd) as (Hnd' & Hin & Hkeys). split; [done|]. split.
      * intros kv Hkv. destruct (Hin kv Hkv); [by left|]. right. by right.
      * intros n [Hn|[->|Hn]%elem_of_cons]; apply Hkeys; auto. left. apply od_lookup_keys. eauto.
    + apply od_lookup_None in El. rewrite (od_set_new name s merged El) in H.
      destruct (IH _ H) as (Hnd' & Hin & Hkeys).
      { unfold od_keys in *. rewrite map_app. apply NoDup_app. split; [done|]. split; [|apply NoDup_singleton].
        intros x Hx ->%list_elem_of_singleton. done. }
      split; [done|]. split.
      * intros kv Hkv. destruct (Hin kv Hkv) as [[Hm|Hm]%elem_of_app|Hm]; [by left| |right; by right].
        apply list_elem_of_singleton in Hm as ->. right. left.
      * intros n Hn. apply Hkeys. unfold od_keys in *. rewrite map_app, elem_of_app.
        destruct Hn as [Hn|[->|Hn]%elem_of_cons]; [auto|left; right; left|auto].
Qed.

Lemma merge_workers_Ok workers merged : foldl (fun acc specs => merged ← acc ; merge_worker_specs merged specs) (Ok []) workers = Ok merged ->
  NoDup (od_keys merged) /\ (forall kv, kv ∈ merged -> exists specs, specs ∈ workers /\ kv ∈ specs) /\
  (forall specs name, specs ∈ workers -> name ∈ od_keys specs -> name ∈ od_keys merged).
Proof.
  assert (Herr : forall ws e, foldl (fun acc specs => merged ← acc ; merge_worker_specs merged specs) (Err e) ws = Err e) by (induction ws; auto).
  assert (H : forall ws m0, NoDup (od_keys m0) -> foldl (fun acc specs => merged ← acc ; merge_worker_specs merged specs) (Ok m0) ws = Ok merged ->
    NoDup (od_keys merged) /\ (forall kv, kv ∈ merged -> kv ∈ m0 \/ exists specs, specs ∈ ws /\ kv ∈ specs) /\
    (forall name, name ∈ od_keys m0 \/ (exists specs, specs ∈ ws /\ name ∈ od_keys specs) -> name ∈ od_keys merged)).
  { induction ws as [|specs ws IH]; intros m0 Hnd Hf; cbn [foldl] in Hf.
    - injection Hf as <-. split; [done|]. split; [auto|]. intros name [?|(? & Hin & _)]; [done|]. by apply not_elem_of_nil in Hin.
    - cbn [mbind res_bind] in Hf. destruct (merge_worker_specs m0 specs) as [m1|e] eqn:Em; [|by rewrite Herr in Hf].
      destruct (merge_worker_specs_Ok m0 specs m1 Em Hnd) as (Hnd1 & Hin1 & Hk1). destruct (IH m1 Hnd1 Hf) as (Hnd' & Hin & Hk).
      split; [done|]. split.
      + intros kv Hkv. destruct (Hin kv Hkv) as [Hm|(sp & Hsp & Hm)]; [destruct (Hin1 kv Hm); [by left|]|]; right; eexists; (split; [|done]); [left|by right].
      + intros name [Hn|(sp & [->|Hsp]%elem_of_cons & Hn)]; apply Hk; [left; apply Hk1; auto..|]. right. eauto. }
  intros Hf. destruct (H workers [] NoDup_nil_2 Hf) as (Hnd & Hin & Hk). split; [done|]. split.
  - intros kv Hkv. destruct (Hin kv Hkv) as [Hm|Hm]; [by apply not_elem_of_nil in Hm|done].
  - intros specs name Hsp Hn. apply Hk. right. eauto.
Qed.

Lemma check_memory_Ok mem needed estimate u : _check_enough_kv_cache_memory mem needed estimate = Ok u ->
  0 < mem /\ exists n, needed = Ok n /\ n <= mem.
Proof.
  unfold _check_enough_kv_cache_memory. destruct (mem <=? 0) eqn:E0; [done|]. intros H. bind_inv H as n Hn.
  destruct (mem <? n) eqn:E; [by bind_inv H as ? _|]. split; [lia|]. exists n. split; [done|lia].
Qed.

(** The configuration of a worker with the layers [specs] and [mem] bytes, for
    requests of [len] tokens. *)
Definition worker_config_ok (c : kv_vllm_config) (len n : Z) (specs : layer_dict) (mem : Z) (config : KVCacheConfig) : Prop :=
  let tensors := kv_cache_tensors config in
  num_blocks config = n
  /\ concat (map shared_by tensors) ≡ₚ od_keys specs
  /\ (forall t, t ∈ tensors -> exists p, tensor_size t = p * n
       /\ forall name, name ∈ shared_by t -> layer_page get_dtype_size (kv_cache_groups config) name p)
  /\ (kc_num_gpu_blocks_override c = None -> specs <> [] -> zsum (map tensor_size tensors) <= mem
       /\ exists needed, _max_memory_usage_bytes_from_groups (set_max_model_len len c) (kv_cache_groups config) = Ok needed
                         /\ needed <= zsum (map tensor_size tensors)).

Lemma mapM_lookup {A B} (f : A -> res B) l ks i y : mapM f l = Ok ks -> ks !! i = Some y -> exists x, l !! i = Some x /\ f x = Ok y.
Proof. intros H%mapM_Ok Hy. destruct (Forall2_lookup_r _ _ _ _ _ H Hy) as (x & Hx & Hf). eauto. Qed.

Lemma zip_lookup {A B} (l : list A) (k : list B) i xy : zip l k !! i = Some xy -> l !! i = Some xy.1 /\ k !! i = Some xy.2.
Proof. intros (x & y & -> & Hx & Hy)%lookup_zip_with_Some. done. Qed.

(** A worker before its tensors shrink: [total] bytes per block, and at least [K]
    blocks, the number that one request needs. *)
Lemma worker_before_shrink K c groups specs gs mem config : groups_wf get_dtype_size K groups -> NoDup (od_keys specs) ->
  NoDup (concat (map layer_names groups)) -> (forall name, name ∈ od_keys specs -> name ∈ concat (map layer_names groups)) ->
  _project_kv_cache_groups_to_worker groups specs = Ok gs -> get_kv_cache_config_from_groups get_dtype_size c gs mem = Ok config ->
  (gs <> [] -> 0 < mem /\ exists needed, _max_memory_usage_bytes_from_groups c gs = Ok needed /\ needed <= mem) ->
  exists total, config_wf get_dtype_size gs total config /\ concat (map layer_names gs) ≡ₚ od_keys specs
  /\ (kc_num_gpu_blocks_override c = None -> specs <> [] -> total * num_blocks config <= mem /\ _max_memory_usage_bytes_from_groups c gs = Ok (K c * total))
  /\ (kc_num_gpu_blocks_override c = None -> groups <> [] -> K c <= num_blocks config).
Proof.
  intros Hwf Hnds Hnd Hsub Hproj Hcfg Hchk. destruct (project_Ok get_dtype_size K groups specs gs Hwf Hproj) as [Hwf' Hnames].
  assert (Hp : concat (map layer_names gs) ≡ₚ od_keys specs).
  { rewrite Hnames. apply NoDup_Permutation; [by apply NoDup_filter|done|].
    intros name. rewrite list_elem_of_filter, Is_true_true, od_mem_spec. split; [by intros [? _]|auto]. }
  destruct (config_Ok get_dtype_size K c gs mem config Hwf' Hcfg) as (total & Hcwf & Htot & Hneed). exists total.
  split; [done|]. split; [done|]. assert (Hgl : length gs = length groups) by (by apply mapM_length in Hproj). split.
  - intros Ho Hsne. assert (Hempty : concat (map layer_names gs) <> []).
    { intros E. rewrite E in Hp. symmetry in Hp. apply Permutation_nil_r in Hp. by destruct specs. }
    assert (Hne : gs <> []) by (by intros ->). destruct (Hchk Hne) as (Hmem & needed & Hnd' & Hle).
    split; [apply Htot; [done|lia]|]. by destruct (Hneed c needed Hne Hnd') as [[<-|Hk] _].
  - intros Ho Hgne. assert (Hne : gs <> []) by (intros ->; by destruct groups).
    destruct (Hchk Hne) as (_ & needed & Hnd' & Hle). by apply (Hneed c needed Hne Hnd').
Qed.

(** C15: get_kv_cache_configs: the configurations have the same number of blocks, and
    the tensors of a worker hold each of its layers exactly once, one page per block.
    If the number of blocks is not overridden (num_gpu_blocks_override), the tensors of
    a worker also fit together in its memory, and one request of max_model_len tokens,
    the fitted one where it is fitted, needs no more memory than the tensors have,
    after they were shrunk to the smallest number of blocks of a worker. *)
Theorem kv_configs_consistent c workers mems configs len :
  length mems = length workers ->
  (forall specs, specs ∈ workers -> NoDup (od_keys specs) /\ pages_positive get_dtype_size specs) ->
  get_kv_cache_configs get_dtype_size c workers mems = Ok (configs, len) ->
  length configs = length workers /\
  exists n, forall i specs mem config, workers !! i = Some specs -> mems !! i = Some mem -> configs !! i = Some config ->
    worker_config_ok c len n specs mem config.
Proof.
  intros Hlen Hspecs H. unfold get_kv_cache_configs in H. bind_inv H as merged Hmerged. bind_inv H as groups Hgroups.
  bind_inv H as per Hper. bind_inv H as len' Hlen'. cbn zeta in H. bind_inv H as us Hus. bind_inv H as configs0 Hc0. bind_inv H as n Hn.
  bind_inv H as configs' Hc. injection H as -> ->. clear Hlen'.
  destruct (merge_workers_Ok workers merged Hmerged) as (Hnd & Hin & Hkeys).
  destruct (get_groups_Ok get_dtype_size c merged groups Hnd) as [Hwf Hperm]; [|done|].
  { intros kv p Hkv. destruct (Hin kv Hkv) as (specs & Hsp & Hkv'). by apply (proj2 (Hspecs specs Hsp)). }
  set (K := fun c' => request_pages c' groups) in Hwf. set (c' := set_max_model_len len c) in *.
  assert (Hl : length configs = length workers).
  { apply mapM_length in Hc, Hc0, Hper. rewrite Hc, Hc0, !length_zip_with, Hper. lia. }
  split; [done|]. exists n.
  assert (Hworker : forall i specs mem config0, workers !! i = Some specs -> mems !! i = Some mem -> configs0 !! i = Some config0 ->
    exists gs total, config_wf get_dtype_size gs total config0 /\ concat (map layer_names gs) ≡ₚ od_keys specs
      /\ (kc_num_gpu_blocks_override c = None -> specs <> [] -> total * num_blocks config0 <= mem /\ _max_memory_usage_bytes_from_groups c' gs = Ok (K c' * total))
      /\ (kc_num_gpu_blocks_override c = None -> groups <> [] -> K c' <= num_blocks config0)).
  { intros i specs mem config0 Hs Hm Hc0i. destruct (mapM_lookup _ _ _ _ _ Hc0 Hc0i) as ([[gs specs'] mem'] & Hz & Hcfg).
    apply zip_lookup in Hz as [Hz Hm']. apply zip_lookup in Hz as [Hgs Hs']. cbn [fst snd] in *.
    rewrite Hs in Hs'. injection Hs' as <-. rewrite Hm in Hm'. injection Hm' as <-.
    bind_inv Hcfg as u _. destruct (mapM_lookup _ _ _ _ _ Hper Hgs) as (specs' & Hs'' & Hproj). rewrite Hs in Hs''. injection Hs'' as <-.
    exists gs. apply (worker_before_shrink K c' groups specs gs mem config0 Hwf); try done.
    - by apply Hspecs; eapply list_elem_of_lookup_2.
    - by rewrite Hperm.
    - intros name Hname. rewrite Hperm. eapply Hkeys; [by eapply list_elem_of_lookup_2|done].
    - intros Hne. assert (Hz : zip per mems !! i = Some (gs, mem)) by (apply lookup_zip_with_Some; eauto).
      apply mapM_Ok in Hus. eapply Forall2_lookup_l in Hus as (u' & _ & Hu); [|exact Hz]. cbn [fst snd] in Hu.
      destruct gs; [done|]. by apply check_memory_Ok in Hu. }
  intros i specs mem config Hs Hm Hci. destruct (mapM_lookup _ _ _ _ _ Hc Hci) as (config0 & Hc0i & Hshrink).
  destruct (Hworker i specs mem config0 Hs Hm Hc0i) as (gs & total & Hcwf & Hp & Hmem & _).
  destruct (shrink_Ok get_dtype_size _ _ _ _ _ _ Hcwf Hshrink) as (Hcwf' & Hnb & _). apply py_list_min_Ok in Hn as [Hnin Hnmin].
  pose proof (config_total _ _ _ _ Hcwf') as Htot. destruct Hcwf' as [Hg Hlay Hsz _ Hnonneg]. rewrite Hnb in *.
  split; [done|]. split; [by rewrite Hlay|]. rewrite Hg. split; [done|]. intros Ho Hsne. destruct (Hmem Ho Hsne) as (Hle & Hneeded).
  rewrite Htot. assert (Hn0 : n <= num_blocks config0) by (apply Hnmin, list_elem_of_fmap; exists config0; split; [done|by eapply list_elem_of_lookup_2]).
  split; [nia|]. exists (K c' * total). split; [done|]. enough (K c' <= n) by nia.
  apply list_elem_of_fmap in Hnin as (config1 & -> & Hin1). apply list_elem_of_lookup in Hin1 as [j Hj].
  pose proof (lookup_lt_Some _ _ _ Hj) as Hjl. apply mapM_length in Hc. rewrite <-Hc, Hl in Hjl.
  destruct (lookup_lt_is_Some_2 workers j Hjl) as [specs1 Hs1]. destruct (lookup_lt_is_Some_2 mems j ltac:(lia)) as [mem1 Hm1].
  destruct (Hworker j specs1 mem1 config1 Hs1 Hm1 Hj) as (gs1 & total1 & _ & _ & _ & HK). apply HK; [done|]. intros ->.
  (* no groups: no layers *)
  cbn in Hperm. symmetry in Hperm. apply Permutation_nil_r in Hperm. destruct specs as [|[name s] specs]; [done|].
  pose proof (Hkeys ((name, s) :: specs) name) as Hk. rewrite Hperm in Hk. eapply not_elem_of_nil, Hk; [by eapply list_elem_of_lookup_2|left].
Qed.
End Spec.

(** * Runs of the KV cache configuration: the theorems at concrete models, and what
    the configuration lets through. *)
Local Open Scope Z_scope.

(** Two bytes for every data type. *)
Definition two_bytes (_ : dtype) : Z := 2.

(** Layers with 16 tokens per block: 256 bytes per page for [full] and [window]. *)
Definition toy_attention (block_size : Z) : AttentionSpec := mkAttention block_size 2 2 "bfloat16" None.
Definition full : LayerSpec := FullAttentionSpec (toy_attention 16) 2 None None.
Definition window : LayerSpec := SlidingWindowSpec (toy_attention 16) 32.
Definition wide : LayerSpec := FullAttentionSpec (toy_attention 16) 6 None None.

Definition toy_config (max_len original : Z) : kv_vllm_config := mkVllmConfig max_len original 1 1 64 64 "none" None false.

(** Two pipeline stages of a model with two full and three sliding-window layers. *)
Definition stage0 : layer_dict := [("f0", full); ("w0", window); ("w1", window)]%string.
Definition stage1 : layer_dict := [("f1", full); ("w2", window)]%string.

(** ** Witnesses *)

Definition toy_groups : list KVCacheGroupSpec :=
  [mkGroup ["f0"; "f1"]%string (OneSpec full); mkGroup ["w0"; "w2"]%string (OneSpec window); mkGroup ["w1"]%string (OneSpec window)].

Lemma auto_fit_largest_witness :
  match _auto_fit_max_model_len two_bytes (toy_config 1000 (-1)) [toy_groups; []] [20000; 0] with
  | Ok r => 1 <= r <= 1000 | Err e => e = ValueError
  end.
Proof.
  pose proof (auto_fit_largest two_bytes (toy_config 1000 (-1)) [(toy_groups, 20000); ([], 0)]
    ltac:(vm_compute; reflexivity) ltac:(vm_compute; congruence) ltac:(vm_compute; reflexivity)) as H.
  cbv zeta in H. cbn [map fst snd] in H. destruct (_auto_fit_max_model_len _ _ _ _) as [r|e].
  - exact (proj1 H).
  - exact (proj1 H).
Defined.

(** The length that fits there. *)
Example auto_fit_length : _auto_fit_max_model_len two_bytes (toy_config 1000 (-1)) [toy_groups; []] [20000; 0] = Ok 400.
Proof. vm_compute. reflexivity. Qed.

Lemma toy_layers_ok (specs : layer_dict) : bool_decide (NoDup (od_keys specs)) = true ->
  forallb (fun kv => match page_size_bytes two_bytes kv.2 with Ok p => 0 <? p | Err _ => true end) specs = true ->
  NoDup (od_keys specs) /\ pages_positive two_bytes specs.
Proof.
  intros Hnd%bool_decide_eq_true Hp. split; [done|]. intros kv p Hkv Hpage.
  eapply forallb_forall in Hp; [|by apply list_elem_of_In]. cbv beta in Hp. rewrite Hpage in Hp. lia.
Qed.

Lemma kv_groups_typed_witness : concat (map layer_names toy_groups) ≡ₚ od_keys (stage0 ++ stage1).
Proof.
  destruct (toy_layers_ok (stage0 ++ stage1)) as [Hnd Hp]; [vm_compute; reflexivity..|].
  apply (kv_groups_typed two_bytes (toy_config 100 100) (stage0 ++ stage1) toy_groups Hnd Hp).
  vm_compute. reflexivity.
Defined.

Definition toy_configs : list KVConfig.KVCacheConfig :=
  match get_kv_cache_configs two_bytes (toy_config 1000 (-1)) [stage0; stage1] [20000; 15000] with Ok (cs, _) => cs | Err _ => [] end.

Lemma kv_configs_consistent_witness : length toy_configs = 2%nat.
Proof.
  apply (kv_configs_consistent two_bytes (toy_config 1000 (-1)) [stage0; stage1] [20000; 15000] toy_configs 704); [reflexivity| |].
  - intros specs [->|[->|[]%not_elem_of_nil]%elem_of_cons]%elem_of_cons; apply toy_layers_ok; vm_compute; reflexivity.
  - vm_compute. reflexivity.
Defined.

(** ** The null block *)

(** One full-attention layer with two tokens per block, for eight tokens. *)
Definition narrow : LayerSpec := FullAttentionSpec (toy_attention 2) 2 None None.
Definition exact_memory : list layer_dict * list Z := ([[("l0"%string, narrow)]], [4 * 32]).

(** A prompt of seven tokens, to which the model may add one. *)
Definition longest_prompt : Request := bare_request "r" [1; 2; 3; 4; 5; 6; 7].

(** The memory check of get_kv_cache_configs counts the blocks that one request of
    max_model_len tokens needs, but not the null block that every block pool takes out
    of num_blocks: with memory for exactly four blocks the configuration of a model of
    eight tokens passes with four blocks, and a manager built from it refuses the
    slots of a single seven-token prompt while it has no other request; with a fifth
    block the prompt gets its slots. *)
Theorem memory_check_ignores_null_block :
  let alloc n := match kv_manager_init (mkConfig n [mkSpec 2 FullAttention 0]) 8 2 false false true false 1 1 None with
                 | Ok k => match fst (allocate_slots false toy_sha256 longest_prompt 7 0 None 0 0 false 0 k) with
                           | Ok (Some _) => Some true | Ok None => Some false | Err _ => None
                           end
                 | Err _ => None
                 end in
  match get_kv_cache_configs two_bytes (toy_config 8 8) exact_memory.1 exact_memory.2 with
  | Ok ([config], 8) => KVConfig.num_blocks config = 4 /\ alloc (KVConfig.num_blocks config) = Some false /\ alloc (KVConfig.num_blocks config + 1) = Some true
  | _ => False
  end.
Proof. vm_compute. repeat split; reflexivity. Qed.

(** ** Value heads of different sizes *)

(** [FullAttentionSpec.merge] compares the fields of [AttentionSpec] only: two layers
    that differ in [head_size_v] get one group, and both tensors the pages of the
    first layer, although the pages of the second have twice their size. *)
Theorem merge_ignores_head_size_v :
  page_size_bytes two_bytes full = Ok 256 /\ page_size_bytes two_bytes wide = Ok 512 /\
  match get_kv_cache_configs two_bytes (toy_config 32 32) [[("l0", full); ("l1", wide)]%string] [10 * 512] with
  | Ok ([config], _) => kv_cache_tensors config = [mkTensor (10 * 256) ["l0"%string]; mkTensor (10 * 256) ["l1"%string]]
  | _ => False
  end.
Proof. vm_compute. repeat split; reflexivity. Qed.

(** ** An exception that is not caught *)

(** [is_kv_cache_spec_uniform] catches the assertions of [merge] only.  With the hybrid
    manager disabled, a full and two different sliding-window layers become three
    full-attention layers of one type, which one group could hold; the [ValueError] of
    [merge_window_sizes] ends the configuration instead. *)
Theorem window_sizes_escape :
  let specs := [("f0", full); ("w0", window); ("w1", SlidingWindowSpec (toy_attention 16) 64)]%string in
  let unified := map (fun kv => (kv.1, unify_hybrid_layer kv.2)) specs in
  let c := mkVllmConfig 100 100 1 1 64 64 "none" None true in
  is_uniform_type unified = Ok true /\ is_kv_cache_spec_uniform unified = Err ValueError /\
  get_kv_cache_groups two_bytes c specs = Err ValueError.
Proof. vm_compute. repeat split; reflexivity. Qed.
