(* ===== verification/Ngram.v ===== *)
(** The n-gram proposer ([vllm/v1/spec_decode/ngram_proposer.py]): drafts are the
    tokens after an earlier occurrence of the last tokens.

    NumPy rows are lists, and the buffers that [propose] keeps between steps are part
    of the state.  The parallel loop of [batch_propose_numba] writes disjoint rows; it
    runs in order here; Numba checks no index, an index out of range is an error
    here.  The number of threads is left out. *)
From S2P Require Import Prelude PyRes.
Local Open Scope Z_scope.

Section Matcher.
Context (max_ngram : Z) (tokens : list Z).

(** The variables of the loop. *)
Record lps_state := mkLps { lps : list Z; longest_ngram : Z; position : Z; prev_lps : Z; lps_i : Z }.

Definition match_step (s : lps_state) : res lps_state :=
  a ← py_get tokens (prev_lps s) ;
  b ← py_get tokens (lps_i s) ;
  if a =? b then
    let prev := prev_lps s + 1 in
    let '(longest, pos) := if longest_ngram s <=? prev then (prev, lps_i s) else (longest_ngram s, position s) in
    l ← (if lps_i s <? max_ngram then np_set (lps s) (lps_i s) prev else Ok (lps s)) ;
    prev ← (if prev =? max_ngram then py_get l (max_ngram - 1) else Ok prev) ;
    Ok (mkLps l longest pos prev (lps_i s + 1))
  else if negb (prev_lps s =? 0) then
    prev ← py_get (lps s) (prev_lps s - 1) ;
    Ok (mkLps (lps s) (longest_ngram s) (position s) prev (lps_i s))
  else Ok (mkLps (lps s) (longest_ngram s) (position s) (prev_lps s) (lps_i s + 1)).

(** [while i < total_token]: [2 i - prev_lps] grows in every round, so that
    [2 total_token] rounds are enough. *)
Fixpoint match_loop (fuel : nat) (s : lps_state) : res lps_state :=
  match fuel with
  | O => Err FuelExhausted
  | S fuel => if lps_i s <? zlen tokens then s' ← match_step s ; match_loop fuel s' else Ok s
  end.
End Matcher.

Definition _find_longest_matched_ngram_and_propose_tokens (origin_tokens : list Z) (min_ngram max_ngram max_model_len k : Z) : res (list Z) :=
  let total_token := zlen origin_tokens in
  if total_token <? min_ngram then Ok []
  else
    let k := Z.min k (max_model_len - total_token) in
    if k <=? 0 then Ok []
    else
      s ← match_loop max_ngram (reverse origin_tokens) (S (2 * length origin_tokens)) (mkLps (zreplicate max_ngram 0) 0 0 0 1) ;
      if longest_ngram s <? min_ngram then Ok []
      else
        let start_position := total_token - 1 - position s + longest_ngram s in
        let k := Z.min k (total_token - start_position) in
        Ok (py_slice origin_tokens start_position (start_position + k)).

(** ** The proposer *)

Record NgramProposer := mkNgram {
  min_n : Z;
  max_n : Z;
  ng_k : Z;
  ng_max_model_len : Z;
  valid_ngram_draft : list (list Z);
  valid_ngram_num_drafts : list Z
}.

(** [__init__] after the configuration; the call of [propose] that triggers the
    compilation proposes for no request. *)
Definition ngram_init (min_n max_n k max_model_len max_num_seqs : Z) : NgramProposer :=
  mkNgram min_n max_n k max_model_len (zreplicate max_num_seqs (zreplicate k 0)) (zreplicate max_num_seqs 0).

(** [a[:len(x)] = x] *)
Definition np_write_prefix (row x : list Z) : res (list Z) :=
  if zlen x <=? zlen row then Ok (x ++ drop (length x) row) else Err ValueError.

Definition batch_propose_numba (p : NgramProposer) (valid_ngram_requests : list Z) (num_tokens_no_spec : list Z)
    (token_ids_cpu : list (list Z)) : res NgramProposer :=
  foldl (fun acc idx =>
    p ← acc ;
    num_tokens ← py_get num_tokens_no_spec idx ;
    row ← py_get token_ids_cpu idx ;
    drafter_output ← _find_longest_matched_ngram_and_propose_tokens (py_slice_to row num_tokens) (min_n p) (max_n p) (ng_max_model_len p) (ng_k p) ;
    nums ← np_set (valid_ngram_num_drafts p) idx (zlen drafter_output) ;
    drafts ← (match drafter_output with
              | [] => Ok (valid_ngram_draft p)
              | _ => old ← py_get (valid_ngram_draft p) idx ; row ← np_write_prefix old drafter_output ; np_set (valid_ngram_draft p) idx row
              end) ;
    Ok (mkNgram (min_n p) (max_n p) (ng_k p) (ng_max_model_len p) drafts nums)) (Ok p) valid_ngram_requests.

Definition batch_propose (p : NgramProposer) (num_requests : Z) (valid_ngram_requests : list Z) (num_tokens_no_spec : list Z)
    (token_ids_cpu : list (list Z)) : res (list (list Z) * NgramProposer) :=
  p ← (match valid_ngram_requests with [] => Ok p | _ => batch_propose_numba p valid_ngram_requests num_tokens_no_spec token_ids_cpu end) ;
  drafts ← mapM (fun i =>
    if bool_decide (i ∈ valid_ngram_requests) then
      n ← py_get (valid_ngram_num_drafts p) i ;
      if 0 <? n then row ← py_get (valid_ngram_draft p) i ; Ok (py_slice_to row n) else Ok []
    else Ok []) (zrange 0 num_requests) ;
  Ok (drafts, p).

(** The requests that get a proposal. *)
Fixpoint valid_requests (max_model_len : Z) (i : Z) (sampled_token_ids : list (list Z)) (num_tokens_no_spec : list Z) : res (list Z) :=
  match sampled_token_ids with
  | [] => Ok []
  | [] :: rest => valid_requests max_model_len (i + 1) rest num_tokens_no_spec
  | _ :: rest =>
      num_tokens ← py_get num_tokens_no_spec i ;
      valid ← valid_requests max_model_len (i + 1) rest num_tokens_no_spec ;
      Ok (if max_model_len <=? num_tokens then valid else i :: valid)
  end.

Definition propose (p : NgramProposer) (sampled_token_ids : list (list Z)) (num_tokens_no_spec : list Z)
    (token_ids_cpu : list (list Z)) : res (list (list Z) * NgramProposer) :=
  valid_ngram_requests ← valid_requests (ng_max_model_len p) 0 sampled_token_ids num_tokens_no_spec ;
  batch_propose p (zlen sampled_token_ids) valid_ngram_requests num_tokens_no_spec token_ids_cpu.
