(* ===== verification/NgramSpec.v ===== *)
(** The matcher of the n-gram proposer: borders of a list, and the invariant of the
    Knuth-Morris-Pratt loop with a capped length. *)
From S2P Require Import Prelude PyRes Ngram.
Local Open Scope Z_scope.

(** ** Borders *)

Section Borders.
Context (T : list Z).

(** The first [v] tokens are the last [v] of the first [i]. *)
Definition border (v i : nat) : Prop := (v <= i)%nat /\ forall j, (j < v)%nat -> T !! j = T !! (i - v + j)%nat.

Lemma border_0 i : border 0 i.
Proof. split; [lia|]. intros j Hj. lia. Qed.

Lemma border_S u i : border (S u) (S i) <-> border u i /\ T !! u = T !! i.
Proof.
  split.
  - intros [Hle H]. split; [split; [lia|]|].
    + intros j Hj. rewrite (H j) by lia. by replace (S i - S u + j)%nat with (i - u + j)%nat by lia.
    + rewrite (H u) by lia. by replace (S i - S u + u)%nat with i by lia.
  - intros [[Hle H] Hu]. split; [lia|]. intros j Hj. destruct (decide (j = u)) as [->|Hne].
    + rewrite Hu. by replace (S i - S u + u)%nat with i by lia.
    + rewrite (H j) by lia. by replace (S i - S u + j)%nat with (i - u + j)%nat by lia.
Qed.

(** Borders of one prefix are borders of one another. *)
Lemma border_nested u v i : border u i -> border v i -> (u <= v)%nat -> border u v.
Proof.
  intros [Hu Hju] [Hv Hjv] Huv. split; [done|]. intros j Hj. rewrite (Hju j) by lia.
  rewrite (Hjv (v - u + j)%nat) by lia. by replace (i - v + (v - u + j))%nat with (i - u + j)%nat by lia.
Qed.

Lemma border_trans u v i : border u v -> border v i -> border u i.
Proof.
  intros [Hu Hju] [Hv Hjv]. split; [lia|]. intros j Hj. rewrite (Hju j) by lia.
  rewrite (Hjv (v - u + j)%nat) by lia. by replace (i - v + (v - u + j))%nat with (i - u + j)%nat by lia.
Qed.

(** The longest proper border of the first [i] tokens. *)
Definition longest_border (w i : nat) : Prop := border w i /\ (w < i)%nat /\ forall v, (v < i)%nat -> border v i -> (v <= w)%nat.

(** ** The loop *)

Context (M : nat) (HM : (1 <= M)%nat).

(** [prev] is the longest border of the first [i] tokens that may still be extended
    by the next one, and shorter than the cap. *)
Definition candidate (prev i : nat) : Prop :=
  border prev i /\ (prev < i)%nat /\ (prev < M)%nat /\
  forall v, (v < i)%nat -> (v < M)%nat -> border v i -> T !! v = T !! i -> (v <= prev)%nat.

(** [longest] is the longest border up to the cap of a prefix up to [i], and
    [position] the last token of the last such prefix. *)
Definition best (longest pos i : nat) : Prop :=
  (longest <= M)%nat /\ (longest = 0%nat \/ (longest <= pos < i)%nat /\ border longest (S pos)) /\
  forall q v, (q < i)%nat -> (1 <= v <= M)%nat -> (v <= q)%nat -> border v (S q) ->
    (v <= longest)%nat /\ (v = longest -> (q <= pos)%nat).

Record loop_inv (s : lps_state) (prev i : nat) : Prop := {
  li_prev : prev_lps s = Z.of_nat prev;
  li_i : lps_i s = Z.of_nat i;
  li_pos : (1 <= i)%nat;
  li_candidate : candidate prev i;
  li_best : exists l p, longest_ngram s = Z.of_nat l /\ position s = Z.of_nat p /\ best l p i;
  li_len : length (lps s) = M;
  li_lps : forall j, (j < i)%nat -> (j < M)%nat -> exists w, lps s !! j = Some (Z.of_nat w) /\ longest_border w (S j);
  li_zero : forall j, (i <= j)%nat -> (j < M)%nat -> lps s !! j = Some 0
}.

Lemma lps_get (s : lps_state) j w : lps s !! j = Some w -> py_get (lps s) (Z.of_nat j) = Ok w.
Proof. intros H. apply py_get_Some; [lia|]. by rewrite Nat2Z.id. Qed.

Lemma candidate_shorter prev w i : candidate prev i -> (1 <= prev)%nat -> T !! prev <> T !! i -> longest_border w prev -> candidate w i.
Proof.
  intros (Hb & Hlt & HltM & Hmax) Hp Hne (Hw & Hwlt & Hwmax). split; [by eapply border_trans|]. split; [lia|]. split; [lia|].
  intros v Hv HvM Hbv Heq. assert (v <= prev)%nat by auto. assert (v <> prev) by (intros ->; done).
  apply Hwmax; [lia|]. eapply border_nested; [exact Hbv|exact Hb|lia].
Qed.

(** The next token extends the candidate. *)
Lemma candidate_extends prev i : candidate prev i -> T !! prev = T !! i ->
  border (S prev) (S i) /\ forall v, (v <= i)%nat -> (v <= M)%nat -> border v (S i) -> (v <= S prev)%nat.
Proof.
  intros (Hb & Hlt & HltM & Hmax) Heq. split; [by apply border_S|].
  intros [|u] Hv HvM Hbv; [lia|]. apply border_S in Hbv as [Hbu Hu]. enough (u <= prev)%nat by lia. apply Hmax; (done || lia).
Qed.

Lemma candidate_none i : candidate 0 i -> T !! 0%nat <> T !! i ->
  forall v, (v <= i)%nat -> (v <= M)%nat -> border v (S i) -> v = 0%nat.
Proof.
  intros (_ & _ & _ & Hmax) Hne [|u] Hv HvM Hbv; [done|]. exfalso. apply border_S in Hbv as [Hbu Hu].
  assert (u <= 0)%nat by (apply Hmax; (done || lia)). assert (u = 0%nat) as -> by lia. done.
Qed.

Lemma best_extend l p prev i : best l p i -> border (S prev) (S i) -> (S prev <= i)%nat -> (S prev <= M)%nat ->
  (forall v, (v <= i)%nat -> (v <= M)%nat -> border v (S i) -> (v <= S prev)%nat) ->
  if (l <=? S prev)%nat then best (S prev) i (S i) else best l p (S i).
Proof.
  intros (HlM & Hl & Hmax) Hb Hi HM' Hlong. destruct (Nat.leb_spec l (S prev)) as [Hle|Hgt].
  - split; [done|]. split; [right; split; [lia|done]|]. intros q v Hq Hv Hvq Hbv.
    destruct (decide (q = i)) as [->|Hne]; [split; [apply Hlong; (done || lia)|lia]|].
    destruct (Hmax q v ltac:(lia) Hv Hvq Hbv). split; lia.
  - split; [done|]. split; [destruct Hl as [?|[? ?]]; [by left|right; split; [lia|done]]|]. intros q v Hq Hv Hvq Hbv.
    destruct (decide (q = i)) as [->|Hne]; [|apply Hmax; (done || lia)].
    assert (v <= S prev)%nat by (apply Hlong; (done || lia)). lia.
Qed.

Lemma best_skip l p i : best l p i -> (forall v, (v <= i)%nat -> (v <= M)%nat -> border v (S i) -> v = 0%nat) -> best l p (S i).
Proof.
  intros (HlM & Hl & Hmax) Hnone. split; [done|]. split; [destruct Hl as [?|[? ?]]; [by left|right; split; [lia|done]]|].
  intros q v Hq Hv Hvq Hbv. destruct (decide (q = i)) as [->|Hne]; [|apply Hmax; (done || lia)].
  assert (v = 0%nat) by (apply Hnone; (done || lia)). lia.
Qed.

Lemma longest_border_lt w i : longest_border w i -> (w < i)%nat.
Proof. by intros (_ & H & _). Qed.

(** The table after a round that ends with token [i]; [w] is its longest border. *)
Definition set_lps (l : list Z) (i : nat) (w : Z) : list Z := if (i <? M)%nat then <[i := w]> l else l.

Lemma lps_table l i w l' : length l = M -> (forall j, (j < i)%nat -> (j < M)%nat -> exists w, l !! j = Some (Z.of_nat w) /\ longest_border w (S j)) ->
  (forall j, (i <= j)%nat -> (j < M)%nat -> l !! j = Some 0) -> ((i < M)%nat -> longest_border w (S i)) ->
  l' = set_lps l i (Z.of_nat w) \/ w = 0%nat /\ l' = l ->
  length l' = M /\ (forall j, (j < S i)%nat -> (j < M)%nat -> exists w, l' !! j = Some (Z.of_nat w) /\ longest_border w (S j)) /\
  (forall j, (S i <= j)%nat -> (j < M)%nat -> l' !! j = Some 0).
Proof.
  intros Hlen Htab Hzero Hw Hl'. assert (Hlook : forall j, (j < M)%nat -> l' !! j = if decide (j = i) then Some (Z.of_nat w) else l !! j).
  { intros j Hj. destruct Hl' as [->|[-> ->]].
    - unfold set_lps. destruct (Nat.ltb_spec i M); case_decide as Hji; subst; try done; try lia.
      + apply list_lookup_insert_eq. lia.
      + by rewrite list_lookup_insert_ne by done.
    - case_decide; [subst; by apply Hzero|done]. }
  split; [destruct Hl' as [->|[_ ->]]; [unfold set_lps; destruct (_ <? _)%nat; by rewrite ?length_insert|done]|]. split.
  - intros j Hj HjM. rewrite Hlook by done. case_decide; [subst j; exists w; split; [done|by apply Hw]|apply Htab; lia].
  - intros j Hj HjM. rewrite Hlook by done. case_decide; [lia|apply Hzero; lia].
Qed.

Lemma match_step_ok s prev i : loop_inv s prev i -> (i < length T)%nat ->
  exists s' prev' i', match_step (Z.of_nat M) T s = Ok s' /\ loop_inv s' prev' i' /\ (i' <= length T)%nat /\ (2 * i - prev < 2 * i' - prev')%nat.
Proof.
  intros [Hprev Hi Hpos Hc (l & p & Hl & Hp & Hbest) Hlen Hlps Hzero] Hlt. pose proof Hc as (Hb & Hpi & HpM & Hmax).
  destruct (lookup_lt_is_Some_2 T prev ltac:(lia)) as [a Ha]. destruct (lookup_lt_is_Some_2 T i Hlt) as [b Hb'].
  unfold match_step. rewrite Hprev, Hi, (py_get_Some T (Z.of_nat prev) a), (py_get_Some T (Z.of_nat i) b) by (rewrite ?Nat2Z.id; (done || lia)).
  cbn [mbind res_bind]. destruct (Z.eqb_spec a b) as [->|Hne].
  - assert (Heq : T !! prev = T !! i) by congruence. destruct (candidate_extends prev i Hc Heq) as [Hbs Hlong].
    pose proof (best_extend l p prev i Hbest Hbs ltac:(lia) ltac:(lia) Hlong) as Hbest'.
    assert (Hlp : exists l' p', (if longest_ngram s <=? Z.of_nat prev + 1 then (Z.of_nat prev + 1, Z.of_nat i) else (longest_ngram s, position s))
      = (Z.of_nat l', Z.of_nat p') /\ best l' p' (S i)).
    { rewrite Hl, Hp. destruct (Nat.leb_spec l (S prev)); [exists (S prev), i|exists l, p]; (split; [|done]);
        destruct (Z.leb_spec (Z.of_nat l) (Z.of_nat prev + 1)); try lia; [f_equal; lia|done]. }
    destruct Hlp as (l' & p' & -> & Hbest''). clear Hbest'. set (tab := set_lps (lps s) i (Z.of_nat (S prev))).
    assert (Htab : (if Z.of_nat i <? Z.of_nat M then np_set (lps s) (Z.of_nat i) (Z.of_nat prev + 1) else Ok (lps s)) = Ok tab).
    { unfold tab, set_lps. destruct (Nat.ltb_spec i M); [rewrite (proj2 (Z.ltb_lt _ _)) by lia|by rewrite (proj2 (Z.ltb_ge _ _)) by lia].
      rewrite np_set_ok by lia. do 3 f_equal. lia. }
    rewrite Htab. cbn [mbind res_bind].
    destruct (lps_table (lps s) i (S prev) tab Hlen Hlps Hzero) as (Hlen' & Hlps' & Hzero'); [|by left|].
    { intros HiM. split; [done|]. split; [lia|]. intros v Hv Hbv. apply Hlong; (done || lia). }
    destruct (Z.eqb_spec (Z.of_nat prev + 1) (Z.of_nat M)) as [HM'|HM'].
    + destruct (Hlps' (M - 1)%nat ltac:(lia) ltac:(lia)) as (w & Hw & (Hwb & Hwlt & Hwmax)).
      rewrite (py_get_Some tab _ (Z.of_nat w)); [|lia|by replace (Z.to_nat (Z.of_nat M - 1)) with (M - 1)%nat by lia]. cbn [mbind res_bind].
      assert (Hsp : S prev = M) by lia. assert (HSM : S (M - 1) = M) by lia. rewrite HSM in *. rewrite Hsp in Hbs, Hlong.
      eexists _, w, (S i). split; [reflexivity|]. split; [|lia]. constructor; cbn; [done|lia|lia| |by exists l', p'|done|done|done].
      split; [by eapply border_trans|]. split; [lia|]. split; [lia|]. intros v Hv HvM Hbv _. apply Hwmax; [lia|].
      eapply border_nested; [exact Hbv|exact Hbs|lia].
    + cbn [mbind res_bind]. eexists _, (S prev), (S i). split; [reflexivity|]. split; [|lia].
      constructor; cbn; [lia|lia|lia| |by exists l', p'|done|done|done].
      split; [done|]. split; [lia|]. split; [lia|]. intros v Hv HvM Hbv _. apply Hlong; (done || lia).
  - assert (Hne' : T !! prev <> T !! i) by congruence. destruct (Z.eqb_spec (Z.of_nat prev) 0) as [Hp0|Hp0]; cbn [negb].
    + assert (prev = 0%nat) as -> by lia. pose proof (candidate_none i Hc Hne') as Hnone.
      eexists _, 0%nat, (S i). split; [reflexivity|]. split; [|lia].
      destruct (lps_table (lps s) i 0 (lps s) Hlen Hlps Hzero) as (Hlen' & Hlps' & Hzero'); [|by right|].
      { intros HiM. split; [apply border_0|]. split; [lia|]. intros v Hv Hbv. rewrite (Hnone v); (done || lia). }
      constructor; cbn; [done|lia|lia| |exists l, p; split; [done|]; split; [done|by apply best_skip]|done|done|done].
      split; [apply border_0|]. split; [lia|]. split; [lia|]. intros v Hv HvM Hbv _. rewrite (Hnone v); (done || lia).
    + destruct (Hlps (prev - 1)%nat ltac:(lia) ltac:(lia)) as (w & Hw & Hwl). replace (S (prev - 1)) with prev in Hwl by lia.
      rewrite (py_get_Some (lps s) _ (Z.of_nat w)); [|lia|by replace (Z.to_nat (Z.of_nat prev - 1)) with (prev - 1)%nat by lia]. cbn [mbind res_bind].
      eexists _, w, i. split; [reflexivity|]. pose proof (longest_border_lt w prev Hwl). split; [|lia].
      constructor; cbn; [done|done|done| |by exists l, p|done|done|done]. eapply candidate_shorter; (done || lia).
Qed.

Lemma match_loop_ok fuel s prev i : loop_inv s prev i -> (i <= length T)%nat -> (2 * length T < fuel + (2 * i - prev))%nat ->
  exists s' prev', match_loop (Z.of_nat M) T fuel s = Ok s' /\ loop_inv s' prev' (length T).
Proof.
  revert s prev i. induction fuel as [|fuel IH]; intros s prev i Hinv Hi Hf.
  { destruct Hinv as [_ _ _ (_ & ? & _) _ _ _ _]. lia. }
  cbn [match_loop]. rewrite (li_i s prev i Hinv). unfold zlen. destruct (Z.ltb_spec (Z.of_nat i) (Z.of_nat (length T))) as [Hlt|Hge].
  - destruct (match_step_ok s prev i Hinv ltac:(lia)) as (s' & prev' & i' & Hs & Hinv' & Hi' & Hmeas). rewrite Hs. cbn [mbind res_bind].
    apply (IH s' prev' i' Hinv' Hi'). lia.
  - assert (i = length T) as -> by lia. by exists s, prev.
Qed.

Lemma loop_inv_init : loop_inv (mkLps (zreplicate (Z.of_nat M) 0) 0 0 0 1) 0 1.
Proof.
  assert (Hz : forall j, (j < M)%nat -> zreplicate (Z.of_nat M) 0 !! j = Some 0).
  { intros j Hj. unfold zreplicate. rewrite Nat2Z.id. by apply lookup_replicate_2. }
  constructor; cbn; [done|done|lia| | | |intros j Hj HjM|intros j Hj HjM; by apply Hz].
  - split; [apply border_0|]. split; [lia|]. split; [lia|]. intros v Hv. lia.
  - exists 0%nat, 0%nat. split; [done|]. split; [done|]. split; [lia|]. split; [by left|]. intros q v Hq Hv Hvq. lia.
  - unfold zreplicate. rewrite length_replicate. lia.
  - exists 0%nat. split; [by apply Hz|]. assert (j = 0%nat) as -> by lia. split; [apply border_0|]. split; [lia|]. intros v Hv. lia.
Qed.
End Borders.

(** * The n-gram proposer against its definition: the search for the longest n-gram, at
    its first occurrence. *)
Local Open Scope Z_scope.

(** ** The definition *)

(** The last [n] tokens of [l] also start at [s], and a token follows them there. *)
Definition occurs_at (l : list Z) (n s : nat) : bool := bool_decide (take n (drop s l) = drop (length l - n) l).
Definition first_occurrence (l : list Z) (n : nat) : option nat :=
  fst <$> list_find (fun s => occurs_at l n s = true) (seq 0 (length l - n)).

(** The lengths [ns] in order. *)
Fixpoint search_lengths (l : list Z) (ns : list nat) (k : nat) : list Z :=
  match ns with
  | [] => []
  | n :: ns => match first_occurrence l n with Some s => take k (drop (s + n) l) | None => search_lengths l ns k end
  end.
(** From [max_n] tokens down to [min_n]. *)
Definition search_ngram (l : list Z) (min_n max_n k : nat) : list Z := search_lengths l (reverse (seq min_n (S max_n - min_n))) k.

(** What [propose] promises for one request: nothing without a sampled token or at
    the maximum length, and otherwise at most [k] tokens, not past that length. *)
Definition proposal (min_n max_n k max_model_len : Z) (sampled : list Z) (num_tokens : Z) (row : list Z) : list Z :=
  if bool_decide (sampled = []) || (max_model_len <=? num_tokens) then []
  else search_ngram (take (Z.to_nat num_tokens) row) (Z.to_nat min_n) (Z.to_nat max_n) (Z.to_nat (Z.min k (max_model_len - num_tokens))).

(** ** Borders of the reversed tokens are occurrences *)

Lemma occurs_at_border l n s : (s + n < length l)%nat -> occurs_at l n s = true <-> border (reverse l) n (length l - s).
Proof.
  intros Hs. unfold occurs_at. rewrite bool_decide_eq_true. unfold border.
  assert (Hrev : forall j, (j < length l)%nat -> reverse l !! j = l !! (length l - 1 - j)%nat).
  { intros j Hj. rewrite reverse_lookup by done. f_equal. lia. }
  split.
  - intros H. split; [lia|]. intros j Hj. rewrite !Hrev by lia.
    assert (Hj' : take n (drop s l) !! (n - 1 - j)%nat = drop (length l - n) l !! (n - 1 - j)%nat) by (by rewrite H).
    rewrite lookup_take_lt, !lookup_drop in Hj' by lia.
    replace (length l - 1 - j)%nat with (length l - n + (n - 1 - j))%nat by lia.
    replace (length l - 1 - (length l - s - n + j))%nat with (s + (n - 1 - j))%nat by lia. done.
  - intros [_ H]. apply list_eq. intros j. destruct (decide (j < n)%nat) as [Hj|Hj].
    + rewrite lookup_take_lt, !lookup_drop by lia. specialize (H (n - 1 - j)%nat ltac:(lia)). rewrite !Hrev in H by lia.
      replace (length l - 1 - (n - 1 - j))%nat with (length l - n + j)%nat in H by lia.
      replace (length l - 1 - (length l - s - n + (n - 1 - j)))%nat with (s + j)%nat in H by lia. done.
    + rewrite lookup_take_ge by lia. symmetry. apply lookup_ge_None_2. rewrite length_drop. lia.
Qed.

Lemma first_occurrence_Some l n s : first_occurrence l n = Some s <->
  (s + n < length l)%nat /\ occurs_at l n s = true /\ forall s', (s' < s)%nat -> occurs_at l n s' = false.
Proof.
  unfold first_occurrence. rewrite fmap_Some. split.
  - intros ((i & x) & Hf & ->). apply list_find_Some in Hf as (Hx & Hocc & Hbefore). cbn.
    apply lookup_seq in Hx as [-> Hlt]. cbn in *. split; [lia|]. split; [done|]. intros s' Hs'.
    apply not_true_is_false. apply (Hbefore s' s'); [|lia]. apply lookup_seq. lia.
  - intros (Hlt & Hocc & Hbefore). exists (s, s). split; [|done]. apply list_find_Some. split; [apply lookup_seq; lia|].
    split; [done|]. intros j y Hj Hlt'. apply lookup_seq in Hj as [-> _]. cbn. by rewrite Hbefore by lia.
Qed.

Lemma first_occurrence_None l n : first_occurrence l n = None <-> forall s, (s + n < length l)%nat -> occurs_at l n s = false.
Proof.
  unfold first_occurrence. rewrite fmap_None, list_find_None, Forall_forall. split.
  - intros H s Hs. apply not_true_is_false, H. apply elem_of_seq. lia.
  - intros H s Hs%elem_of_seq. rewrite H; [done|lia].
Qed.

(** The search stops at the first length that occurs. *)
Lemma search_lengths_none l ns k : (forall n, n ∈ ns -> first_occurrence l n = None) -> search_lengths l ns k = [].
Proof. induction ns as [|n ns IH]; intros H; [done|]. cbn. rewrite (H n) by left. apply IH. intros n' Hn'. apply H. by right. Qed.

Lemma search_ngram_none l mn mx k : (forall n, (mn <= n <= mx)%nat -> first_occurrence l n = None) -> search_ngram l mn mx k = [].
Proof. intros H. apply search_lengths_none. intros n Hn. rewrite elem_of_reverse, elem_of_seq in Hn. apply H. lia. Qed.

Lemma search_ngram_some l mn mx k n s : (mn <= n <= mx)%nat -> first_occurrence l n = Some s ->
  (forall n', (n < n' <= mx)%nat -> first_occurrence l n' = None) -> search_ngram l mn mx k = take k (drop (s + n) l).
Proof.
  intros Hn Hs Hlong. unfold search_ngram. replace (S mx - mn)%nat with ((n - mn) + S (mx - n))%nat by lia.
  rewrite seq_app, reverse_app. cbn [seq]. rewrite reverse_cons. replace (mn + (n - mn))%nat with n by lia. rewrite <-app_assoc. cbn [app].
  assert (Hskip : forall ns ns', (forall n', n' ∈ ns -> first_occurrence l n' = None) -> search_lengths l (ns ++ ns') k = search_lengths l ns' k).
  { induction ns as [|x ns IH]; intros ns' H; [done|]. cbn. rewrite (H x) by left. apply IH. intros n' Hn'. apply H. by right. }
  rewrite Hskip; [cbn; by rewrite Hs|]. intros n' Hn'. rewrite elem_of_reverse, elem_of_seq in Hn'. apply Hlong. lia.
Qed.

(** ** The matcher *)

Lemma matcher_search l (mn mx : Z) max_model_len k : 1 <= mn <= mx ->
  _find_longest_matched_ngram_and_propose_tokens l mn mx max_model_len k
  = Ok (search_ngram l (Z.to_nat mn) (Z.to_nat mx) (Z.to_nat (Z.min k (max_model_len - zlen l)))).
Proof.
  intros Hmn. unfold _find_longest_matched_ngram_and_propose_tokens.
  assert (Hlong : forall n, (length l <= n)%nat -> first_occurrence l n = None) by (intros n Hn; apply first_occurrence_None; intros s Hs; lia).
  destruct (Z.ltb_spec (zlen l) mn) as [Hlt|Hge].
  { rewrite search_ngram_none; [done|]. intros n Hn. apply Hlong. unfold zlen in Hlt. lia. }
  set (k' := Z.min k (max_model_len - zlen l)). destruct (Z.leb_spec k' 0) as [Hk|Hk].
  { replace (Z.to_nat k') with 0%nat by lia. assert (H0 : forall ns, search_lengths l ns 0 = []).
    { induction ns as [|n ns IH]; [done|]. cbn. destruct (first_occurrence l n); [by rewrite take_0|done]. }
    unfold search_ngram. by rewrite H0. }
  assert (Hlen : length (reverse l) = length l) by apply length_reverse. unfold zlen in *.
  destruct (match_loop_ok (reverse l) (Z.to_nat mx) ltac:(lia) (S (2 * length l)) (mkLps (zreplicate mx 0) 0 0 0 1) 0 1) as (s & prev & Hloop & Hinv).
  { pose proof (loop_inv_init (reverse l) (Z.to_nat mx) ltac:(lia)) as H. by rewrite Z2Nat.id in H by lia. }
  { lia. } { lia. }
  rewrite Z2Nat.id in Hloop by lia. rewrite Hloop. cbn [mbind res_bind]. destruct (li_best _ _ _ _ _ Hinv) as (n & p & -> & -> & HnM & Hn & Hmax).
  rewrite Hlen in *. clear Hloop Hinv Hlen.
  assert (Hocc : forall n' s', (n' <= Z.to_nat mx)%nat -> (1 <= n')%nat -> (s' + n' < length l)%nat -> occurs_at l n' s' = true ->
    (n' <= n)%nat /\ (n' = n -> (length l - 1 - s' <= p)%nat)).
  { intros n' s' Hn'M Hn' Hs' Ho. apply occurs_at_border in Ho; [|done]. apply Hmax; [lia|lia|lia|].
    by replace (S (length l - 1 - s')) with (length l - s')%nat by lia. }
  assert (Hnone : forall n', (n < n' <= Z.to_nat mx)%nat -> first_occurrence l n' = None).
  { intros n' Hn'. apply first_occurrence_None. intros s' Hs'. apply not_true_is_false. intros Ho.
    destruct (Hocc n' s' ltac:(lia) ltac:(lia) Hs' Ho). lia. }
  destruct (Z.ltb_spec (Z.of_nat n) mn) as [Hshort|Hmatch].
  { rewrite search_ngram_none; [done|]. intros n' Hn'. apply Hnone. lia. }
  destruct Hn as [->|[Hp Hb]]; [lia|]. set (st := (length l - 1 - p)%nat).
  assert (Hfirst : first_occurrence l n = Some st).
  { apply first_occurrence_Some. split; [lia|]. split.
    - apply occurs_at_border; [lia|]. by replace (length l - st)%nat with (S p) by lia.
    - intros s' Hs'. apply not_true_is_false. intros Ho. destruct (Hocc n s' ltac:(lia) ltac:(lia) ltac:(lia) Ho) as [_ Hle].
      specialize (Hle eq_refl). lia. }
  rewrite (search_ngram_some l _ _ _ n st) by (done || lia). f_equal. unfold zlen.
  rewrite py_slice_nonneg by (unfold zlen; lia).
  replace (Z.to_nat (Z.of_nat (length l) - 1 - Z.of_nat p + Z.of_nat n)) with (st + n)%nat by lia.
  set (r := drop (st + n) l). assert (Hr : length r = (length l - (st + n))%nat) by (unfold r; by rewrite length_drop).
  destruct (decide (Z.to_nat k' <= length r)%nat) as [Hkr|Hkr].
  - f_equal. lia.
  - rewrite !take_ge; [done|lia|lia].
Qed.

Lemma search_ngram_length l mn mx k : (length (search_ngram l mn mx k) <= k)%nat.
Proof.
  unfold search_ngram. induction (reverse (seq mn (S mx - mn))) as [|n ns IH]; cbn; [lia|].
  destruct (first_occurrence l n); [rewrite length_take; lia|done].
Qed.

(** ** The proposer *)

(** The buffers have a row of [k] tokens for each of [n] requests. *)
Definition ngram_wf (n : nat) (p : NgramProposer) : Prop :=
  1 <= min_n p <= max_n p /\ 0 <= ng_k p /\ length (valid_ngram_num_drafts p) = n /\ length (valid_ngram_draft p) = n
  /\ forall row, row ∈ valid_ngram_draft p -> zlen row = ng_k p.
Definition same_params (p p' : NgramProposer) : Prop :=
  min_n p' = min_n p /\ max_n p' = max_n p /\ ng_k p' = ng_k p /\ ng_max_model_len p' = ng_max_model_len p.

Lemma ngram_init_wf mn mx k max_model_len n : 1 <= mn <= mx -> 0 <= k -> ngram_wf (Z.to_nat n) (ngram_init mn mx k max_model_len n).
Proof.
  intros Hm Hk. unfold ngram_init, ngram_wf, zreplicate. cbn. rewrite !length_replicate. repeat split; try lia.
  intros row ->%elem_of_replicate_inv. unfold zlen. rewrite length_replicate. lia.
Qed.

(** The draft [out] is what the buffers hold for request [i]. *)
Definition stored (p : NgramProposer) (i : nat) (out : list Z) : Prop :=
  valid_ngram_num_drafts p !! i = Some (zlen out) /\ (out <> [] -> exists row, valid_ngram_draft p !! i = Some row /\ take (length out) row = out).

(** The call of [batch_propose_numba] for one request. *)
Lemma batch_step_ok n p i (nums : list Z) (rows : list (list Z)) m row : ngram_wf n p -> (i < n)%nat -> nums !! i = Some m -> rows !! i = Some row -> 0 <= m <= zlen row ->
  let out := search_ngram (take (Z.to_nat m) row) (Z.to_nat (min_n p)) (Z.to_nat (max_n p)) (Z.to_nat (Z.min (ng_k p) (ng_max_model_len p - m))) in
  exists drafts counts, batch_propose_numba p [Z.of_nat i] nums rows = Ok (mkNgram (min_n p) (max_n p) (ng_k p) (ng_max_model_len p) drafts counts)
  /\ counts = <[i := zlen out]> (valid_ngram_num_drafts p)
  /\ (drafts = valid_ngram_draft p /\ out = [] \/ exists old, valid_ngram_draft p !! i = Some old /\ drafts = <[i := out ++ drop (length out) old]> (valid_ngram_draft p)
      /\ (length out <= length old)%nat).
Proof.
  intros (Hmn & Hk & Hlc & Hld & Hrow) Hi Hm Hr Hmr out. unfold batch_propose_numba. cbn [foldl mbind res_bind].
  rewrite (py_get_Some nums _ m), (py_get_Some rows _ row) by (rewrite ?Nat2Z.id; (done || lia)). cbn [mbind res_bind].
  rewrite py_slice_to_nonneg by lia. rewrite matcher_search by done. cbn [mbind res_bind].
  assert (Hzl : zlen (take (Z.to_nat m) row) = m) by (unfold zlen in *; rewrite length_take; lia). rewrite Hzl. fold out.
  rewrite np_set_ok by lia. cbn [mbind res_bind].
  assert (Hout : (length out <= Z.to_nat (ng_k p))%nat) by (unfold out; pose proof (search_ngram_length (take (Z.to_nat m) row) (Z.to_nat (min_n p)) (Z.to_nat (max_n p)) (Z.to_nat (Z.min (ng_k p) (ng_max_model_len p - m)))); lia).
  destruct out as [|o os] eqn:Eo; [eexists _, _; split; [reflexivity|]; auto|]. rewrite <-Eo in *. clear Eo.
  destruct (lookup_lt_is_Some_2 (valid_ngram_draft p) i ltac:(lia)) as [old Hold]. pose proof (Hrow old ltac:(by eapply list_elem_of_lookup_2)) as Hol.
  rewrite (py_get_Some _ _ old) by (rewrite ?Nat2Z.id; (done || lia)). cbn [mbind res_bind].
  unfold np_write_prefix. rewrite (proj2 (Z.leb_le _ _)) by (unfold zlen in *; lia). cbn [mbind res_bind].
  rewrite np_set_ok by lia. cbn [mbind res_bind].
  eexists _, _. split; [reflexivity|]. split; [done|]. right. exists old. split; [done|]. split; [done|]. unfold zlen in *; lia.
Qed.

(** The rounds of the batch: the drafts of the requests [is_] are stored, the others
    stay. *)
Lemma batch_ok n p js nums rows : ngram_wf n p -> NoDup js ->
  (forall i, i ∈ js -> (i < n)%nat /\ exists m row, nums !! i = Some m /\ rows !! i = Some row /\ 0 <= m <= zlen row) ->
  exists p', batch_propose_numba p (map Z.of_nat js) nums rows = Ok p' /\ ngram_wf n p' /\ same_params p p'
  /\ (forall i m row, i ∈ js -> nums !! i = Some m -> rows !! i = Some row ->
       stored p' i (search_ngram (take (Z.to_nat m) row) (Z.to_nat (min_n p)) (Z.to_nat (max_n p)) (Z.to_nat (Z.min (ng_k p) (ng_max_model_len p - m)))))
  /\ (forall i, i ∉ js -> valid_ngram_num_drafts p' !! i = valid_ngram_num_drafts p !! i /\ valid_ngram_draft p' !! i = valid_ngram_draft p !! i).
Proof.
  revert p. induction js as [|i js IH]; intros p Hwf Hnd Hin.
  { exists p. split; [done|]. split; [done|]. split; [done|]. split; [|done]. intros i m row Hi. by apply not_elem_of_nil in Hi. }
  apply NoDup_cons in Hnd as [Hni Hnd]. destruct (Hin i ltac:(left)) as (Hi & m & row & Hm & Hr & Hmr).
  destruct (batch_step_ok n p i nums rows m row Hwf Hi Hm Hr Hmr) as (drafts & counts & Hstep & Hcounts & Hdrafts).
  set (p1 := mkNgram _ _ _ _ drafts counts) in Hstep. destruct Hwf as (Hmn & Hk & Hlc & Hld & Hrow).
  assert (Hwf1 : ngram_wf n p1).
  { split; [done|]. split; [done|]. cbn. split; [by rewrite Hcounts, length_insert|]. destruct Hdrafts as [[-> _]|(old & Hold & -> & Hle)]; [done|].
    split; [by rewrite length_insert|]. intros r Hr'. apply list_elem_of_lookup in Hr' as [j Hj].
    apply list_lookup_insert_Some in Hj as [(-> & <- & _)|(_ & Hj)]; [|apply Hrow; by eapply list_elem_of_lookup_2].
    transitivity (zlen old); [unfold zlen; rewrite length_app, length_drop; lia|apply Hrow; by eapply list_elem_of_lookup_2]. }
  destruct (IH p1 Hwf1 Hnd) as (p' & Hp' & Hwf' & Hsame & Hst & Hother); [intros j Hj; apply Hin; by right|].
  exists p'. split.
  { unfold batch_propose_numba in *. cbn [map foldl] in *. by rewrite Hstep. }
  split; [done|]. split; [done|]. split.
  - intros j m' row' [->|Hj]%elem_of_cons Hm' Hr'; [|by apply Hst]. rewrite Hm in Hm'. injection Hm' as <-. rewrite Hr in Hr'. injection Hr' as <-.
    destruct (Hother i Hni) as [Hc Hd]. split; [rewrite Hc; cbn; rewrite Hcounts; apply list_lookup_insert_eq; lia|].
    intros Hne. rewrite Hd. cbn. destruct Hdrafts as [[_ ?]|(old & Hold & -> & Hle)]; [done|].
    eexists. split; [apply list_lookup_insert_eq; lia|]. by rewrite take_app_length.
  - intros j Hj. apply not_elem_of_cons in Hj as [Hne Hj]. destruct (Hother j Hj) as [-> ->]. cbn. rewrite Hcounts.
    rewrite list_lookup_insert_ne by done. split; [done|]. destruct Hdrafts as [[-> _]|(old & Hold & -> & Hle)]; [done|].
    by rewrite list_lookup_insert_ne by done.
Qed.

(** The requests with a proposal, from request [i] on. *)
Lemma valid_requests_ok max_len sampled nums i : (forall j, (j < length sampled)%nat -> is_Some (nums !! (i + j)%nat)) ->
  exists js, valid_requests max_len (Z.of_nat i) sampled nums = Ok (map Z.of_nat js) /\ NoDup js /\
  forall j, j ∈ js <-> exists s m, (i <= j)%nat /\ sampled !! (j - i)%nat = Some s /\ nums !! j = Some m /\ s <> [] /\ m < max_len.
Proof.
  revert i. induction sampled as [|s sampled IH]; intros i Hn.
  - exists []. split; [done|]. split; [constructor|]. intros j. rewrite elem_of_nil. split; [done|]. intros (s & m & _ & Hs & _). by rewrite lookup_nil in Hs.
  - destruct (IH (S i)) as (js & Hjs & Hnd & Hel); [intros j Hj; replace (S i + j)%nat with (i + S j)%nat by lia; apply Hn; cbn; lia|].
    replace (Z.of_nat (S i)) with (Z.of_nat i + 1) in Hjs by lia. cbn [valid_requests].
    assert (Hshift : forall j, j <> i -> (exists s' m, (i <= j)%nat /\ (s :: sampled) !! (j - i)%nat = Some s' /\ nums !! j = Some m /\ s' <> [] /\ m < max_len) <-> j ∈ js).
    { intros j Hne. rewrite Hel. split; intros (s' & m & Hle & Hs & H); exists s', m; (split; [lia|]); (split; [|done]).
      - by replace (j - i)%nat with (S (j - S i)) in Hs by lia.
      - by replace (j - i)%nat with (S (j - S i)) by lia. }
    assert (Hi : i ∉ js) by (intros (s' & m & Hle & _)%Hel; lia).
    destruct (Hn 0%nat ltac:(cbn; lia)) as [m Hm]. rewrite Nat.add_0_r in Hm.
    destruct s as [|t s].
    + exists js. split; [done|]. split; [done|]. intros j. destruct (decide (j = i)) as [->|Hne]; [|symmetry; by apply Hshift].
      split; [done|]. intros (s' & m' & _ & Hs & _ & Hne & _). rewrite Nat.sub_diag in Hs. injection Hs as <-. done.
    + rewrite (py_get_Some nums _ m) by (rewrite ?Nat2Z.id; (done || lia)). rewrite Hjs. cbn [mbind res_bind].
      destruct (Z.leb_spec max_len m).
      * exists js. split; [done|]. split; [done|]. intros j. destruct (decide (j = i)) as [->|Hne]; [|symmetry; by apply Hshift].
        split; [done|]. intros (s' & m' & _ & _ & Hm' & _ & Hlt). assert (m' = m) by congruence. lia.
      * exists (i :: js). split; [done|]. split; [by constructor|]. intros j. rewrite elem_of_cons.
        destruct (decide (j = i)) as [->|Hne]; [|rewrite <-(Hshift j Hne); split; [intros [?|?]; done|by right]].
        split; [|by left]. intros _. exists (t :: s), m. rewrite Nat.sub_diag. done.
Qed.

(** C18: NgramProposer.propose, for buffers as __init__ makes them and rows that hold
    the tokens they count, never reads or writes out of range and returns for every
    request exactly what the definition says: nothing without a sampled token or at
    max_model_len; otherwise, for the longest n-gram of min_n to max_n tokens at the
    end of the request that also occurs before, the tokens that follow its first
    occurrence, at most k of them and not past max_model_len.  So the matcher that
    runs in linear time (Knuth-Morris-Pratt on the reversed tokens, with a table of
    max_n entries) ends and equals the search by definition, and drafts that earlier
    steps left in the buffers are never returned.  The buffers are ready for the next
    step. *)
Theorem ngram_propose_reference n p (sampled : list (list Z)) (nums : list Z) (rows : list (list Z)) :
  ngram_wf n p -> (length sampled <= n)%nat ->
  (forall i, (i < length sampled)%nat -> exists m row, nums !! i = Some m /\ rows !! i = Some row /\ 0 <= m <= zlen row) ->
  exists drafts p', propose p sampled nums rows = Ok (drafts, p') /\ ngram_wf n p' /\ same_params p p' /\ length drafts = length sampled
  /\ forall i s m row, sampled !! i = Some s -> nums !! i = Some m -> rows !! i = Some row ->
       drafts !! i = Some (proposal (min_n p) (max_n p) (ng_k p) (ng_max_model_len p) s m row).
Proof.
  intros Hwf Hn Hrows. unfold propose.
  destruct (valid_requests_ok (ng_max_model_len p) sampled nums 0) as (js & Hjs & Hnd & Hel).
  { intros j Hj. destruct (Hrows j Hj) as (m & row & Hm & _). by exists m. }
  change 0 with (Z.of_nat 0) at 1. rewrite Hjs. cbn [mbind res_bind]. unfold batch_propose.
  assert (Hjs_in : forall i, i ∈ js -> (i < n)%nat /\ exists m row, nums !! i = Some m /\ rows !! i = Some row /\ 0 <= m <= zlen row).
  { intros i Hi. apply Hel in Hi as (s & m & _ & Hs & _). rewrite Nat.sub_0_r in Hs. apply lookup_lt_Some in Hs. split; [lia|by apply Hrows]. }
  destruct (batch_ok n p js nums rows Hwf Hnd Hjs_in) as (p' & Hp' & Hwf' & Hsame & Hst & _).
  assert (Hrun : match map Z.of_nat js with [] => Ok p | _ :: _ => batch_propose_numba p (map Z.of_nat js) nums rows end = Ok p') by (by destruct js).
  rewrite Hrun. cbn [mbind res_bind]. clear Hrun Hp'.
  set (out i := proposal (min_n p) (max_n p) (ng_k p) (ng_max_model_len p) (default [] (sampled !! i)) (default 0 (nums !! i)) (default [] (rows !! i))).
  rewrite (mapM_total _ (fun i => out (Z.to_nat i))).
  - cbn [mbind res_bind]. exists (map (fun i => out (Z.to_nat i)) (zrange 0 (zlen sampled))), p'. split; [done|]. split; [done|]. split; [done|]. split.
    + rewrite length_map. unfold zrange, zlen. rewrite length_seqZ. lia.
    + intros i s m row Hs Hm Hr. rewrite list_lookup_fmap, lookup_zrange, decide_True by (apply lookup_lt_Some in Hs; unfold zlen; lia).
      cbn [fmap option_fmap option_map]. f_equal. unfold out. replace (Z.to_nat (0 + Z.of_nat i)) with i by lia. by rewrite Hs, Hm, Hr.
  - intros i Hi. apply elem_of_zrange in Hi. unfold zlen in Hi. set (j := Z.to_nat i). replace i with (Z.of_nat j) by lia. assert (Hj : (j < length sampled)%nat) by lia.
    destruct (lookup_lt_is_Some_2 sampled j Hj) as [s Hs]. destruct (Hrows j Hj) as (m & row & Hm & Hr & Hmr).
    unfold out. rewrite ?Nat2Z.id, Hs, Hm, Hr. cbn [default from_option]. unfold proposal.
    assert (Hmem : Z.of_nat j ∈ map Z.of_nat js <-> s <> [] /\ m < ng_max_model_len p).
    { rewrite list_elem_of_fmap. split.
      - intros (j' & Hjj & Hj'). assert (j' = j) as -> by lia. apply Hel in Hj' as (s' & m' & _ & Hs' & Hm' & H). rewrite Nat.sub_0_r in Hs'. naive_solver.
      - intros [Hne Hlt]. exists j. split; [done|]. apply Hel. exists s, m. rewrite Nat.sub_0_r. repeat split; try done; lia. }
    case_bool_decide as Hv; rewrite Hmem in Hv.
    + destruct Hv as [Hne Hlt]. rewrite bool_decide_eq_false_2 by done. rewrite (proj2 (Z.leb_gt _ _)) by done. cbn [orb].
      destruct (Hst j m row) as [Hc Hd]; [apply Hel; exists s, m; rewrite Nat.sub_0_r; repeat split; try done; lia|done|done|].
      set (o := search_ngram _ _ _ _) in *. rewrite (py_get_Some _ _ (zlen o)) by (rewrite ?Nat2Z.id; (done || lia)). cbn [mbind res_bind].
      destruct o as [|t o'] eqn:Eo; [done|]. rewrite <-Eo in *. rewrite (proj2 (Z.ltb_lt _ _)) by (rewrite Eo; unfold zlen; cbn; lia).
      destruct Hd as (r & Hr' & Htake); [by rewrite Eo|]. rewrite (py_get_Some _ _ r) by (rewrite ?Nat2Z.id; (done || lia)). cbn [mbind res_bind].
      rewrite py_slice_to_nonneg by (unfold zlen; lia). unfold zlen. by rewrite Nat2Z.id, Htake.
    + destruct (decide (s = [])) as [->|Hne]; [done|]. rewrite (proj2 (Z.leb_le _ _)) by (destruct (Z.le_gt_cases (ng_max_model_len p) m); naive_solver). by rewrite orb_true_r.
Qed.

(** ** A run *)

(** Two requests: the first repeats [5; 6; 7] twice, the second is at its limit. *)
Lemma ngram_propose_reference_witness :
  exists p', propose (ngram_init 2 3 4 20 4) [[7]; [1]; []]
    [9; 20; 3] [[5; 6; 7; 8; 9; 1; 5; 6; 7; 0]; zreplicate 20 1; [1; 1; 1]]
  = Ok ([[8; 9; 1; 5]; []; []], p').
Proof.
  destruct (ngram_propose_reference 4 (ngram_init 2 3 4 20 4) [[7]; [1]; []]
    [9; 20; 3] [[5; 6; 7; 8; 9; 1; 5; 6; 7; 0]; zreplicate 20 1; [1; 1; 1]]) as (drafts & p' & Hrun & _ & _ & Hlen & Hd).
  - apply (ngram_init_wf 2 3 4 20 4); lia.
  - cbn. lia.
  - intros [|[|[|i]]] Hi; cbn in Hi; [..|lia]; eexists _, _; (split; [reflexivity|]); (split; [reflexivity|]); vm_compute; split; congruence.
  - exists p'. rewrite Hrun. do 2 f_equal. destruct drafts as [|a [|b [|c [|]]]]; try discriminate Hlen.
    pose proof (Hd 0%nat _ _ _ eq_refl eq_refl eq_refl) as H0. pose proof (Hd 1%nat _ _ _ eq_refl eq_refl eq_refl) as H1. pose proof (Hd 2%nat _ _ _ eq_refl eq_refl eq_refl) as H2.
    injection H0 as ->. injection H1 as ->. injection H2 as ->. vm_compute. reflexivity.
Defined.
