(* ===== verification/Aggregator.v ===== *)
(** The outputs of all the workers in one ([distributed/kv_transfer/kv_connector/utils.py:
    KVOutputAggregator]) and the counters of KV events behind it
    ([distributed/kv_events.py: KVEventAggregator], [LMCacheKVEvents]).

    Of a [ModelRunnerOutput] only the connector's part is read.  Statistics and
    worker metadata are opaque: the interfaces below hold the methods that are
    called.  Sets are iterated in the order of [elements]; the results do not depend
    on it. *)
From S2P Require Import Prelude PyDict.
Local Open Scope Z_scope.

(** ** Event counters *)

Section Events.
Context {Event : Type} `{EqDecision Event}.

(** [Counter] keeps its keys in insertion order. *)
Record KVEventAggregator := mkEvents { event_counter : list (Event * Z); num_workers : Z }.

Definition events_init (n : Z) : res KVEventAggregator := if n <=? 0 then Err ValueError else Ok (mkEvents [] n).
Definition counter_update (c : list (Event * Z)) (events : list Event) : list (Event * Z) :=
  foldl (fun c e => od_set e (default 0 (od_lookup e c) + 1) c) c events.
Definition add_events (events : list Event) (a : KVEventAggregator) : KVEventAggregator :=
  mkEvents (counter_update (event_counter a) events) (num_workers a).
Definition get_common_events (a : KVEventAggregator) : list Event :=
  map fst (filter (fun ec => ec.2 = num_workers a) (event_counter a)).
Definition get_all_events (a : KVEventAggregator) : list Event :=
  concat (map (fun ec => zreplicate ec.2 ec.1) (event_counter a)).
Definition clear_counter (a : KVEventAggregator) : KVEventAggregator := mkEvents [] (num_workers a).
Definition increment_workers (count : Z) (a : KVEventAggregator) : res KVEventAggregator :=
  if count <=? 0 then Err ValueError else Ok (mkEvents (event_counter a) (num_workers a + count)).
Definition reset_workers (a : KVEventAggregator) : KVEventAggregator := mkEvents (event_counter a) 1.

(** [LMCacheKVEvents.aggregate] and [clear_events] *)
Definition events_aggregate (a : KVEventAggregator) : KVEventAggregator :=
  let common_events := get_common_events a in
  reset_workers (add_events common_events (clear_counter a)).
Definition clear_events (a : KVEventAggregator) : KVEventAggregator := reset_workers (clear_counter a).
End Events.
Arguments KVEventAggregator : clear implicits.

(** ** The outputs of the workers *)

(** [KVConnectorStats] and [KVConnectorWorkerMetadata]: truth, [isinstance(x, type(y))]
    and [x.aggregate(y)]. *)
Class Aggregate (A : Type) := {
  truthy : A -> bool;
  same_type : A -> A -> bool;
  aggregate_with : A -> A -> res A
}.

Section Outputs.
Context {Event Stats Meta : Type} `{EqDecision Event} `{Aggregate Stats} `{Aggregate Meta}.

Record KVConnectorOutput := mkOutput {
  finished_sending : option (gset string);
  finished_recving : option (gset string);
  kv_connector_stats : option Stats;
  kv_cache_events : option (KVEventAggregator Event);
  kv_connector_worker_meta : option Meta;
  invalid_block_ids : gset Z;
  expected_finished_count : Z
}.

Record KVOutputAggregator := mkAggregator {
  recv_remaining_count : gmap string Z;
  send_remaining_count : gmap string Z;
  ag_expected_finished_count : Z
}.
Definition aggregator_init (expected : Z) : KVOutputAggregator := mkAggregator ∅ ∅ expected.
(** [connector.get_finished_count() or world_size] *)
Definition from_connector (finished_count : option Z) (world_size : Z) : KVOutputAggregator :=
  aggregator_init (match finished_count with Some n => if n =? 0 then world_size else n | None => world_size end).

(** One report of [req_id]. *)
Definition count_report (expected : Z) (acc : gmap string Z * gset string) (req_id : string) : gmap string Z * gset string :=
  let '(remaining_count_dict, finished_set) := acc in
  let remaining_count := default expected (remaining_count_dict !! req_id) in
  if remaining_count - 1 =? 0 then (delete req_id remaining_count_dict, {[ req_id ]} ∪ finished_set)
  else (<[req_id := remaining_count - 1]> remaining_count_dict, finished_set).
Definition update_finished_set (expected : Z) (req_ids : option (gset string)) (acc : gmap string Z * gset string) : gmap string Z * gset string :=
  foldl (count_report expected) acc (elements (default ∅ req_ids)).

(** The accumulators of the loop. *)
Record agg_acc := mkAcc {
  ac_state : KVOutputAggregator;
  ac_sending : gset string;
  ac_recving : gset string;
  ac_stats : option Stats;
  ac_meta : option Meta;
  ac_events : option (KVEventAggregator Event);
  ac_invalid : gset Z
}.

(** [if acc is None: acc = new] and [elif new: acc = acc.aggregate(new)] *)
Definition aggregate_option {A} `{Aggregate A} (check : bool) (acc new : option A) : res (option A) :=
  match acc, new with
  | None, _ => Ok new
  | Some a, Some n =>
      if truthy n then
        if check && negb (same_type a n) then Err AssertionError
        else a ← aggregate_with a n ; Ok (Some a)
      else Ok acc
  | Some _, None => Ok acc
  end.
Definition combine_events (acc new : option (KVEventAggregator Event)) : res (option (KVEventAggregator Event)) :=
  match acc, new with
  | None, _ => Ok new
  | Some a, Some n => a ← increment_workers 1 (add_events (get_all_events n) a) ; Ok (Some a)
  | Some _, None => Ok acc
  end.

Definition aggregate_worker (acc : agg_acc) (kv_output : KVConnectorOutput) : res agg_acc :=
  let s := ac_state acc in
  let expected := if (0 <? expected_finished_count kv_output) && negb (expected_finished_count kv_output =? ag_expected_finished_count s)
                  then expected_finished_count kv_output else ag_expected_finished_count s in
  let '(send, sending) := update_finished_set expected (finished_sending kv_output) (send_remaining_count s, ac_sending acc) in
  let '(recv, recving) := update_finished_set expected (finished_recving kv_output) (recv_remaining_count s, ac_recving acc) in
  stats ← aggregate_option true (ac_stats acc) (kv_connector_stats kv_output) ;
  meta ← aggregate_option false (ac_meta acc) (kv_connector_worker_meta kv_output) ;
  events ← combine_events (ac_events acc) (kv_cache_events kv_output) ;
  Ok (mkAcc (mkAggregator recv send expected) sending recving stats meta events (ac_invalid acc ∪ invalid_block_ids kv_output)).

Fixpoint aggregate_loop (acc : agg_acc) (outputs : list (option (option KVConnectorOutput))) : res agg_acc :=
  match outputs with
  | [] => Ok acc
  | None :: _ => Err AssertionError
  | Some None :: rest => aggregate_loop acc rest
  | Some (Some kv_output) :: rest => acc ← aggregate_worker acc kv_output ; aggregate_loop acc rest
  end.

(** [s or None] *)
Definition or_none (s : gset string) : option (gset string) := if decide (s = ∅) then None else Some s.
Definition truthy_option {A} `{Aggregate A} (x : option A) : option A := a ← x ; if truthy a then Some a else None.

(** [aggregate]: the connector's part of the output it returns, and the new state. *)
Definition aggregate (outputs : list (option (option KVConnectorOutput))) (output_rank : Z) (s : KVOutputAggregator)
    : res (option KVConnectorOutput * KVOutputAggregator) :=
  first ← py_get outputs output_rank ;
  match first with
  | None => Ok (None, s)
  | Some _ =>
      acc ← aggregate_loop (mkAcc s ∅ ∅ None None None ∅) outputs ;
      Ok (Some (mkOutput (or_none (ac_sending acc)) (or_none (ac_recving acc)) (truthy_option (ac_stats acc)) (ac_events acc)
                  (truthy_option (ac_meta acc)) (ac_invalid acc) (ag_expected_finished_count (ac_state acc))), ac_state acc)
  end.
End Outputs.
Arguments KVConnectorOutput : clear implicits.
Arguments mkOutput {_ _ _}.

(** * What the aggregation of the workers' outputs reports to the scheduler, and when
    an event is common to the workers. *)
Local Open Scope Z_scope.

(** ** Requests finished by all the workers *)

(** The reports of a request, each with the number of reports that is expected when it
    arrives, fall into rounds: the first report of a round fixes how many reports the
    round has, whatever the later ones expect.  [rounds counts k m]: [k] rounds are
    complete and the one under way lacks [m] reports ([0] if none is under way). *)
Inductive rounds : list Z -> nat -> Z -> Prop :=
| rounds_none : rounds [] 0 0
| rounds_open E counts : zlen (E :: counts) < E -> rounds (E :: counts) 0 (E - zlen (E :: counts))
| rounds_full E counts rest k m : zlen (E :: counts) = E -> rounds rest k m -> rounds ((E :: counts) ++ rest) (S k) m.

Lemma rounds_nonneg counts k m : rounds counts k m -> 0 <= m.
Proof. induction 1; lia. Qed.

(** Another report. *)
Lemma rounds_report counts k m E : 1 <= E -> rounds counts k m ->
  let m' := (if m =? 0 then E else m) - 1 in rounds (counts ++ [E]) (if m' =? 0 then S k else k) m'.
Proof.
  intros HE Hr. cbv zeta. induction Hr as [|E0 counts Hlt|E0 counts rest k m Heq Hr IH].
  - cbn [Z.eqb app]. destruct (Z.eqb_spec (E - 1) 0) as [H1|H1].
    + replace (E - 1) with 0 by lia. apply (rounds_full E [] [] 0 0); [unfold zlen; cbn; lia|constructor].
    + replace (E - 1) with (E - zlen [E]) by (unfold zlen; cbn; lia). constructor. unfold zlen; cbn; lia.
  - rewrite (proj2 (Z.eqb_neq (E0 - zlen (E0 :: counts)) 0)) by lia. assert (Hlen : zlen ((E0 :: counts) ++ [E]) = zlen (E0 :: counts) + 1) by (unfold zlen; rewrite length_app; cbn; lia).
    destruct (Z.eqb_spec (E0 - zlen (E0 :: counts) - 1) 0) as [H1|H1].
    + rewrite H1, <- (app_nil_r ((E0 :: counts) ++ [E])). apply (rounds_full E0 (counts ++ [E])); [cbn [app] in Hlen; lia|constructor].
    + replace (E0 - zlen (E0 :: counts) - 1) with (E0 - zlen ((E0 :: counts) ++ [E])) by lia. apply (rounds_open E0 (counts ++ [E])). cbn [app] in *. lia.
  - rewrite <- app_assoc. destruct (_ - 1 =? 0) eqn:H1; by apply rounds_full.
Qed.

(** The rounds are determined by the reports. *)
Lemma rounds_unique counts k m k' m' : rounds counts k m -> rounds counts k' m' -> k = k' /\ m = m'.
Proof.
  intros Hr. revert k' m'. induction Hr as [|E counts Hlt|E counts rest k m Heq Hr IH]; intros k' m' Hr'.
  - inversion Hr'; auto.
  - inversion Hr' as [| |E' counts' rest k0 m0 Heq' Hr0 Happ]; subst; [auto|]. exfalso. unfold zlen in *. cbn [length] in *. rewrite length_app in Hlt. lia.
  - inversion Hr' as [|E' counts' Hlt' Happ|E' counts' rest' k0 m0 Heq' Hr0 Happ]; subst.
    + exfalso. unfold zlen in *. cbn [length] in *. rewrite length_app in Hlt'. lia.
    + destruct (app_inj_1 counts' counts rest' rest) as [-> ->]; [unfold zlen in *; cbn [length] in *; lia|done|]. by destruct (IH _ _ Hr0) as [-> ->].
Qed.

(** If [n] reports are always expected, every [n]th report completes a round. *)
Lemma rounds_constant n counts k m : 1 <= n -> rounds counts k m -> Forall (eq n) counts -> Z.of_nat k = zlen counts / n.
Proof.
  intros Hn. induction 1 as [|E counts Hlt|E counts rest k m Heq Hr IH]; intros Hall.
  - by rewrite Z.div_0_l by lia.
  - apply Forall_cons in Hall as [-> _]. symmetry. apply Z.div_small. split; [unfold zlen; lia|done].
  - apply Forall_app in Hall as [[-> _]%Forall_cons Hall]. specialize (IH Hall).
    replace (zlen ((E :: counts) ++ rest)) with (zlen rest + 1 * E) by (unfold zlen in *; rewrite length_app; lia).
    rewrite Z.div_add by lia. lia.
Qed.

(** A request [r] in one direction, with [k0] rounds complete before the step: the dict
    holds what its round under way lacks, and it is in the set of the step iff a round
    was completed since. *)
Definition tracks (r : string) (k0 : nat) (reports : list Z) (acc : gmap string Z * gset string) : Prop :=
  exists k m, rounds reports k m /\ acc.1 !! r = (if m =? 0 then None else Some m) /\ (k0 <= k)%nat /\ (r ∈ acc.2 <-> (k0 < k)%nat).

Lemma count_report_ok r k0 reports acc E x : 1 <= E -> tracks r k0 reports acc ->
  tracks r k0 (reports ++ if decide (x = r) then [E] else []) (count_report E acc x).
Proof.
  intros HE (k & m & Hr & Hd & Hle & Hf). destruct acc as [d f]. cbn [fst snd] in *. unfold count_report. destruct (decide (x = r)) as [->|Hne].
  - pose proof (rounds_report _ _ _ E HE Hr) as Hr'. cbv zeta in Hr'. rewrite Hd.
    replace (default E (if m =? 0 then None else Some m)) with (if m =? 0 then E else m) by (by destruct (m =? 0)).
    destruct (_ - 1 =? 0) eqn:Hlast; eexists _, _; (split; [exact Hr'|]); cbn [fst snd].
    + rewrite Hlast, lookup_delete_eq. split; [done|]. split; [lia|]. split; [lia|]. intros _. set_solver.
    + rewrite Hlast, lookup_insert_eq. auto.
  - rewrite app_nil_r. destruct (_ - 1 =? 0); exists k, m; cbn [fst snd].
    + rewrite lookup_delete_ne by done. split; [done|]. split; [done|]. split; [done|]. set_solver.
    + by rewrite lookup_insert_ne by done.
Qed.

(** All the reports of a worker. *)
Definition reported (E : Z) (ids : option (gset string)) (r : string) : list Z := if decide (r ∈ default ∅ ids) then [E] else [].

Lemma update_finished_ok r k0 reports acc E ids : 1 <= E -> tracks r k0 reports acc ->
  tracks r k0 (reports ++ reported E ids r) (update_finished_set E ids acc).
Proof.
  intros HE Hacc. unfold update_finished_set, reported.
  assert (H : forall l reports acc, NoDup l -> tracks r k0 reports acc ->
    tracks r k0 (reports ++ if decide (r ∈ l) then [E] else []) (foldl (count_report E) acc l)).
  { clear -HE. induction l as [|x l IH]; intros reports acc Hnd Hacc; [by rewrite app_nil_r|].
    apply NoDup_cons in Hnd as [Hx Hnd]. cbn [foldl]. pose proof (IH _ _ Hnd (count_report_ok r k0 reports acc E x HE Hacc)) as H.
    rewrite <- app_assoc in H. destruct (decide (x = r)) as [->|Hne].
    - rewrite (decide_False (P := r ∈ l)) in H by done. rewrite decide_True by left. done.
    - rewrite (decide_ext (r ∈ x :: l) (r ∈ l)) by (rewrite elem_of_cons; naive_solver). done. }
  rewrite <- (decide_ext (r ∈ elements (default ∅ ids)) (r ∈ default ∅ ids)) by apply elem_of_elements.
  by apply H; [apply NoDup_elements|].
Qed.

Lemma or_none_elem (s : gset string) r : r ∈ default ∅ (or_none s) <-> r ∈ s.
Proof. unfold or_none. case_decide as E; [rewrite E|]; done. Qed.

Section Outputs.
Context {Event Stats Meta : Type} `{EqDecision Event} `{Aggregate Stats} `{Aggregate Meta}.
Abbreviation Output := (KVConnectorOutput Event Stats Meta).

(** The number of reports expected from an output on: its own if it has one. *)
Definition expected_from (n : Z) (out : Output) : Z := if 0 <? expected_finished_count out then expected_finished_count out else n.
Fixpoint expected_after (n : Z) (outputs : list (option (option Output))) : Z :=
  match outputs with
  | [] => n
  | Some (Some out) :: rest => expected_after (expected_from n out) rest
  | _ :: rest => expected_after n rest
  end.
(** The reports of [r] in these outputs, each with the number expected by then. *)
Fixpoint reports (n : Z) (ids : Output -> option (gset string)) (outputs : list (option (option Output))) (r : string) : list Z :=
  match outputs with
  | [] => []
  | Some (Some out) :: rest => reported (expected_from n out) (ids out) r ++ reports (expected_from n out) ids rest r
  | _ :: rest => reports n ids rest r
  end.

Lemma expected_after_app n outputs rest : expected_after n (outputs ++ rest) = expected_after (expected_after n outputs) rest.
Proof. revert n. induction outputs as [|[[out|]|] outputs IH]; intros n; cbn; auto. Qed.
Lemma reports_app n ids outputs rest r : reports n ids (outputs ++ rest) r = reports n ids outputs r ++ reports (expected_after n outputs) ids rest r.
Proof. revert n. induction outputs as [|[[out|]|] outputs IH]; intros n; cbn; auto. by rewrite IH, app_assoc. Qed.
Lemma expected_from_pos n out : 1 <= n -> 1 <= expected_from n out.
Proof. unfold expected_from. destruct (Z.ltb_spec 0 (expected_finished_count out)); lia. Qed.

(** The outputs that are counted: [aggregate] does nothing in a step without an output
    of [rank]. *)
Definition counted (rank : Z) (outputs : list (option (option Output))) : list (option (option Output)) :=
  match py_get outputs rank with Ok (Some _) => outputs | _ => [] end.
Definition counted_steps (rank : Z) (steps : list (list (option (option Output)))) : list (option (option Output)) :=
  concat (map (counted rank) steps).

(** Steps one after the other. *)
Fixpoint run_steps (rank : Z) (steps : list (list (option (option Output)))) (s : KVOutputAggregator) : res KVOutputAggregator :=
  match steps with
  | [] => Ok s
  | outputs :: steps => x ← aggregate outputs rank s ; run_steps rank steps x.2
  end.

Section Request.
Context (n : Z) (r : string).

(** After the outputs [done], of which [ks] and [kr] rounds were complete before the
    step. *)
Record acc_inv (ks kr : nat) (done : list (option (option Output))) (acc : @agg_acc Event Stats Meta) : Prop := {
  ai_pos : 1 <= expected_after n done;
  ai_expected : ag_expected_finished_count (ac_state acc) = expected_after n done;
  ai_send : tracks r ks (reports n finished_sending done r) (send_remaining_count (ac_state acc), ac_sending acc);
  ai_recv : tracks r kr (reports n finished_recving done r) (recv_remaining_count (ac_state acc), ac_recving acc)
}.

Lemma aggregate_worker_ok ks kr done acc out acc' : acc_inv ks kr done acc -> aggregate_worker acc out = Ok acc' ->
  acc_inv ks kr (done ++ [Some (Some out)]) acc'.
Proof.
  intros [Hp He Hs Hr] Hw. unfold aggregate_worker in Hw.
  replace (if (0 <? expected_finished_count out) && negb (expected_finished_count out =? ag_expected_finished_count (ac_state acc))
           then expected_finished_count out else ag_expected_finished_count (ac_state acc)) with (expected_from (expected_after n done) out) in Hw
    by (rewrite He; unfold expected_from; destruct (0 <? _); [|done]; cbn [andb]; by destruct (Z.eqb_spec (expected_finished_count out) (expected_after n done)) as [->|]).
  pose proof (expected_from_pos _ out Hp) as HE.
  pose proof (update_finished_ok r ks _ _ _ (finished_sending out) HE Hs) as Hs1. pose proof (update_finished_ok r kr _ _ _ (finished_recving out) HE Hr) as Hr1.
  cbv zeta in Hw. destruct (update_finished_set _ (finished_sending out) _) as [d1 f1]. destruct (update_finished_set _ (finished_recving out) _) as [d2 f2].
  unfold mbind, res_bind in Hw. repeat match type of Hw with match ?x with _ => _ end = _ => destruct x; [|done] end. injection Hw as <-.
  constructor; rewrite ?expected_after_app, ?reports_app; cbn [expected_after reports]; rewrite ?app_nil_r; done.
Qed.

Lemma aggregate_loop_ok ks kr outputs done acc acc' : acc_inv ks kr done acc -> aggregate_loop acc outputs = Ok acc' -> acc_inv ks kr (done ++ outputs) acc'.
Proof.
  revert done acc. induction outputs as [|o outputs IH]; intros done acc Hinv Hrun; cbn in Hrun.
  - injection Hrun as <-. by rewrite app_nil_r.
  - replace (done ++ o :: outputs) with ((done ++ [o]) ++ outputs) by (by rewrite <- app_assoc). destruct o as [[out|]|]; [| |done].
    + unfold mbind, res_bind in Hrun. destruct (aggregate_worker acc out) as [acc1|] eqn:Hw; [|done]. by apply (IH _ acc1); [apply (aggregate_worker_ok _ _ _ acc)|].
    + apply (IH _ acc); [|done]. destruct Hinv. constructor; rewrite ?expected_after_app, ?reports_app; cbn [expected_after reports]; rewrite ?app_nil_r; done.
Qed.

(** Between the steps. *)
Definition state_inv (ks kr : nat) (done : list (option (option Output))) (s : KVOutputAggregator) : Prop :=
  acc_inv ks kr done (mkAcc s ∅ ∅ None None None ∅).

Lemma acc_inv_state ks kr done acc : acc_inv ks kr done acc -> exists ks' kr', state_inv ks' kr' done (ac_state acc)
  /\ (exists m, rounds (reports n finished_sending done r) ks' m) /\ (exists m, rounds (reports n finished_recving done r) kr' m)
  /\ (r ∈ ac_sending acc <-> (ks < ks')%nat) /\ (r ∈ ac_recving acc <-> (kr < kr')%nat).
Proof.
  intros [Hp He (ks' & ms & Hs & Hds & Hles & Hfs) (kr' & mr & Hr & Hdr & Hler & Hfr)]. exists ks', kr'. split_and!; eauto.
  constructor; [done|done|exists ks', ms|exists kr', mr]; cbn in *; (split_and!; [done|done|done|]); split; [set_solver|lia|set_solver|lia].
Qed.

Lemma aggregate_ok rank ks kr done s outputs out s' : state_inv ks kr done s -> aggregate outputs rank s = Ok (out, s') ->
  exists ks' kr', state_inv ks' kr' (done ++ counted rank outputs) s'
  /\ (exists m, rounds (reports n finished_sending (done ++ counted rank outputs) r) ks' m)
  /\ (exists m, rounds (reports n finished_recving (done ++ counted rank outputs) r) kr' m)
  /\ match out with
     | Some o => counted rank outputs = outputs /\ (r ∈ default ∅ (finished_sending o) <-> (ks < ks')%nat) /\ (r ∈ default ∅ (finished_recving o) <-> (kr < kr')%nat)
     | None => py_get outputs rank = Ok None
     end.
Proof.
  intros Hinv Hrun. unfold aggregate, counted, mbind, res_bind in *. destruct (py_get outputs rank) as [[f|]|] eqn:Hf; [| |done].
  - destruct (aggregate_loop _ outputs) as [acc|] eqn:Hloop; [|done]. injection Hrun as <- <-.
    destruct (acc_inv_state _ _ _ _ (aggregate_loop_ok _ _ _ _ _ _ Hinv Hloop)) as (ks' & kr' & H1 & H2 & H3 & Hs & Hr).
    exists ks', kr'. split_and!; try done; cbn [finished_sending finished_recving]; by rewrite or_none_elem.
  - injection Hrun as <- <-. rewrite app_nil_r. destruct (acc_inv_state _ _ _ _ Hinv) as (ks' & kr' & H1 & H2 & H3 & _). by exists ks', kr'.
Qed.

Lemma run_steps_ok rank steps ks kr done s s' : state_inv ks kr done s -> run_steps rank steps s = Ok s' ->
  exists ks' kr', state_inv ks' kr' (done ++ counted_steps rank steps) s'.
Proof.
  revert ks kr done s. induction steps as [|outputs steps IH]; intros ks kr done s Hinv Hrun; cbn in Hrun.
  - injection Hrun as <-. exists ks, kr. by rewrite app_nil_r.
  - unfold mbind, res_bind in Hrun. destruct (aggregate outputs rank s) as [[out s1]|] eqn:Ha; [|done].
    destruct (aggregate_ok rank ks kr done s outputs out s1 Hinv Ha) as (ks1 & kr1 & Hinv1 & _).
    unfold counted_steps. cbn [map concat]. rewrite app_assoc. by apply (IH ks1 kr1 _ s1).
Qed.
End Request.

(** C19: KVOutputAggregator refines a count of reports.  An output with a positive
    expected_finished_count sets the number of reports that is expected from it on;
    the reports of a request, each with the number expected by then, fall into rounds,
    and the first report of a round fixes its length, so a round under way is not
    affected by a later number.  After any steps, aggregate puts a request into
    finished_sending (finished_recving) exactly when a round of its reports is
    completed in this step.  So if every worker reports a request once, in whatever
    steps and order, while n reports are expected, the scheduler sees it finished
    once, in the step of the last report (rounds_constant); an id that is used again
    is counted anew. *)
Theorem aggregator_reports_last n rank steps outputs s out s' :
  1 <= n -> run_steps rank steps (aggregator_init n) = Ok s -> aggregate outputs rank s = Ok (Some out, s') ->
  let before := counted_steps rank steps in
  forall r, exists k m k' m' kr mr kr' mr',
  (rounds (reports n finished_sending before r) k m /\ rounds (reports n finished_sending (before ++ outputs) r) k' m'
    /\ (r ∈ default ∅ (finished_sending out) <-> (k < k')%nat))
  /\ (rounds (reports n finished_recving before r) kr mr /\ rounds (reports n finished_recving (before ++ outputs) r) kr' mr'
    /\ (r ∈ default ∅ (finished_recving out) <-> (kr < kr')%nat)).
Proof.
  intros Hn Hrun Hagg before r.
  assert (Hinit : state_inv n r 0 0 [] (aggregator_init n)).
  { constructor; [done|done|exists 0%nat, 0..]; cbn; (split_and!; [constructor|done|done|]); split; [set_solver|lia|set_solver|lia]. }
  destruct (run_steps_ok n r rank steps _ _ _ _ s Hinit Hrun) as (k0 & k1 & Hinv0). cbn [app] in Hinv0.
  destruct (acc_inv_state n r _ _ _ _ Hinv0) as (k & kr & Hinv & (m & Hk) & (mr & Hkr) & _). clear Hinv0.
  destruct (aggregate_ok n r rank _ _ _ _ outputs (Some out) s' Hinv Hagg) as (k' & kr' & _ & (m' & Hk') & (mr' & Hkr') & Hc & Hs & Hr).
  rewrite Hc in Hk', Hkr'. by exists k, m, k', m', kr, mr, kr', mr'.
Qed.
End Outputs.

(** ** Common events *)

Section Common.
Context {Event : Type} `{EqDecision Event}.

Definition count (e : Event) (c : list (Event * Z)) : Z := default 0 (od_lookup e c).

(** Counters with every key once. *)
Definition counter_wf (c : list (Event * Z)) : Prop := NoDup (od_keys c).

Lemma od_set_wf e n (c : list (Event * Z)) : counter_wf c -> counter_wf (od_set e n c).
Proof.
  unfold counter_wf. intros Hwf. destruct (decide (e ∈ od_keys c)) as [Hin|Hout].
  - by rewrite od_set_keys by (by apply od_lookup_keys).
  - rewrite od_set_new by done. unfold od_keys in *. rewrite map_app. apply NoDup_app. split; [done|]. split; [|apply NoDup_singleton].
    intros x Hx ->%list_elem_of_singleton. done.
Qed.

Lemma counter_update_ok l c : counter_wf c -> counter_wf (counter_update c l) /\
  forall e, count e (counter_update c l) = count e c + Z.of_nat (occ e l).
Proof.
  revert c. induction l as [|x l IH]; intros c Hwf; [split; [done|]; intros e; rewrite occ_nil; unfold counter_update; cbn [foldl]; lia|].
  destruct (IH _ (od_set_wf x (default 0 (od_lookup x c) + 1) c Hwf)) as [Hwf' Hcnt]. split; [done|].
  intros e. cbn [counter_update foldl] in *. unfold counter_update in Hcnt. rewrite Hcnt, occ_cons. unfold count at 1. rewrite od_lookup_set.
  case_decide; subst; cbn [default from_option]; unfold count, id; lia.
Qed.

Lemma occ_concat_replicate e (c : list (Event * Z)) : counter_wf c -> Z.of_nat (occ e (concat (map (fun ec => zreplicate ec.2 ec.1) c))) = Z.max 0 (count e c).
Proof.
  unfold counter_wf. induction c as [|[x n] c IH]; intros Hwf; [done|]. cbn in Hwf. apply NoDup_cons in Hwf as [Hx Hwf].
  cbn [map concat fst snd]. rewrite occ_app, Nat2Z.inj_add, IH by done. unfold count. cbn [od_lookup]. destruct (decide (e = x)) as [->|Hne].
  - rewrite (proj2 (od_lookup_None x c) Hx). cbn [default from_option]. unfold id. enough (occ x (zreplicate n x) = Z.to_nat n) as -> by lia.
    unfold zreplicate. induction (Z.to_nat n) as [|k IHk]; [done|]. rewrite replicate_S. by rewrite occ_cons_eq, IHk.
  - unfold zreplicate. rewrite occ_replicate_ne by done. lia.
Qed.

(** The events of one worker, and of all of them as [KVOutputAggregator] combines them. *)
Definition worker_events (events : list Event) : KVEventAggregator Event := add_events events (mkEvents [] 1).
Definition combine_all (workers : list (list Event)) : res (option (KVEventAggregator Event)) :=
  foldl (fun acc w => acc ← acc ; combine_events acc (Some (worker_events w))) (Ok None) workers.

Lemma combine_all_ok workers ws0 a : counter_wf (event_counter a) -> num_workers a = zlen ws0 -> 1 <= zlen ws0 ->
  (forall e, count e (event_counter a) = zsum (map (fun w => Z.of_nat (occ e w)) ws0)) ->
  exists a', foldl (fun acc w => acc ← acc ; combine_events acc (Some (worker_events w))) (Ok (Some a)) workers = Ok (Some a')
  /\ counter_wf (event_counter a') /\ num_workers a' = zlen (ws0 ++ workers)
  /\ forall e, count e (event_counter a') = zsum (map (fun w => Z.of_nat (occ e w)) (ws0 ++ workers)).
Proof.
  revert ws0 a. induction workers as [|w workers IH]; intros ws0 a Hwf Hnum Hpos Hcnt.
  - exists a. rewrite app_nil_r. auto.
  - cbn [foldl mbind res_bind combine_events]. unfold increment_workers. cbn [Z.leb Z.compare Pos.compare Pos.compare_cont].
    destruct (counter_update_ok w [] ltac:(constructor)) as [Hw Hwc].
    destruct (counter_update_ok (get_all_events (worker_events w)) (event_counter a) Hwf) as [Hwf' Hcnt'].
    replace (ws0 ++ w :: workers) with ((ws0 ++ [w]) ++ workers) by (by rewrite <-app_assoc).
    apply (IH (ws0 ++ [w])); cbn [event_counter num_workers add_events mbind res_bind].
    + done.
    + rewrite Hnum. unfold zlen. rewrite length_app. cbn. lia.
    + unfold zlen in *. rewrite length_app. lia.
    + intros e. cbn [event_counter]. rewrite Hcnt', Hcnt. unfold get_all_events. rewrite occ_concat_replicate by done. cbn [worker_events add_events event_counter].
      rewrite Hwc, map_app, zsum_app. cbn [map]. rewrite zsum_cons. change (zsum []) with 0. change (count e []) with 0. lia.
Qed.

(** If no worker repeats an event, the common events are those of every worker.  (A
    worker without any events does not count: it sends no counter.) *)
Theorem common_events_of_all workers a : workers <> [] -> (forall w, w ∈ workers -> NoDup w) -> combine_all workers = Ok (Some a) ->
  forall e, e ∈ get_common_events a <-> forall w, w ∈ workers -> e ∈ w.
Proof.
  intros Hne Hnd Ha e. destruct workers as [|w0 workers]; [done|]. unfold combine_all in Ha. cbn [foldl mbind res_bind combine_events] in Ha.
  destruct (counter_update_ok w0 [] ltac:(constructor)) as [Hwf0 Hc0].
  destruct (combine_all_ok workers [w0] (worker_events w0) Hwf0 eq_refl ltac:(unfold zlen; cbn; lia)) as (a' & Ha' & Hwf & Hnum & Hcnt).
  { intros e'. unfold worker_events, add_events. cbn [event_counter]. rewrite Hc0. unfold count, zsum. cbn. lia. }
  rewrite Ha' in Ha. injection Ha as ->. cbn [app] in *. set (ws := w0 :: workers) in *.
  assert (Hcommon : e ∈ get_common_events a <-> count e (event_counter a) = num_workers a).
  { unfold get_common_events. rewrite list_elem_of_fmap. split.
    - intros ((e' & n) & -> & Hin%list_elem_of_filter). destruct Hin as [Hn Hin]. cbn in *. apply od_lookup_Some in Hin; [|done]. unfold count. by rewrite Hin.
    - unfold count. intros Hn. destruct (od_lookup e (event_counter a)) as [n|] eqn:El; cbn in Hn.
      + exists (e, n). split; [done|]. apply list_elem_of_filter. split; [done|]. by apply od_lookup_Some in El.
      + rewrite Hnum in Hn. unfold ws, zlen in Hn. cbn in Hn. lia. }
  rewrite Hcommon, Hcnt, Hnum. clear Hcommon Hcnt Hnum Ha' Hwf Hwf0 Hc0. clearbody ws. clear Hne w0 workers.
  enough (zsum (map (fun w => Z.of_nat (occ e w)) ws) <= zlen ws /\ (zsum (map (fun w => Z.of_nat (occ e w)) ws) = zlen ws <-> forall w, w ∈ ws -> e ∈ w)) by tauto.
  induction ws as [|w ws IH]; [split; [done|]; split; [intros _ w Hw; by apply not_elem_of_nil in Hw|done]|].
  destruct (IH (fun w' Hw' => Hnd w' ltac:(by right))) as [Hle Hiff]. pose proof (occ_NoDup e w (Hnd w ltac:(left))) as Hocc.
  cbn [map]. rewrite zsum_cons. assert (Hz : zlen (w :: ws) = zlen ws + 1) by (unfold zlen; cbn; lia). rewrite Hz. split; [lia|]. split.
  - intros Heq w' [->|Hw']%elem_of_cons; [apply occ_pos_iff; lia|apply Hiff; [lia|done]].
  - intros Hall. pose proof (proj2 (occ_pos_iff e w) (Hall w ltac:(left))). rewrite (proj2 Hiff (fun w' Hw' => Hall w' ltac:(by right))). lia.
Qed.
End Common.

(** Repeated events break that: of two workers, one stores the event twice and the
    other another event once; the first event counts as stored by both. *)
Example repeated_event_is_common :
  (a ← combine_all [[1; 1]; [2]] ; Ok (option_map get_common_events a)) = Ok (Some [1]).
Proof. reflexivity. Qed.
(** So does a worker that sends no counter because it has no events. *)
Example silent_worker_does_not_count :
  (a ← (a ← combine_events None (Some (worker_events [1])) ; combine_events a None) ; Ok (option_map get_common_events a)) = Ok (Some [1]).
Proof. reflexivity. Qed.

(** ** A run *)

#[local] Instance unit_aggregate : Aggregate unit := {| truthy _ := true; same_type _ _ := true; aggregate_with _ _ := Ok tt |}.
Definition sends (ids : list string) (expected : Z) : option (option (KVConnectorOutput Z unit unit)) :=
  Some (Some (mkOutput (Some (list_to_set ids)) None None None None ∅ expected)).

(** Three workers: the first reports "a"; a step without an output of rank 0 is not
    counted; in the third step the second worker expects one report from now on and
    reports "a", whose round still lacks a report then, and "b", which is finished. *)
Lemma aggregator_reports_last_witness :
  exists out s', aggregate [sends [] 0; sends ["a"; "b"] 1; Some None]%string 0 (mkAggregator ∅ {["a"%string := 2]} 3) = Ok (Some out, s')
  /\ ("a"%string ∉ default ∅ (finished_sending out)) /\ "b"%string ∈ default ∅ (finished_sending out).
Proof.
  eexists _, _. split; [vm_compute; reflexivity|].
  unshelve epose proof (aggregator_reports_last 3 0 [[sends ["a"] 0; Some None; Some None]; [None; sends ["a"] 0; Some None]]%string
    [sends [] 0; sends ["a"; "b"] 1; Some None]%string (mkAggregator ∅ {["a"%string := 2]} 3) _ _ _ _ _) as H';
    [..|lia|vm_compute; reflexivity|vm_compute; reflexivity|]. cbv zeta in H'. split.
  - destruct (H' "a"%string) as (k & m & k' & m' & _ & _ & _ & _ & (Hk & Hk' & Hin) & _). intros Hx%Hin. clear Hin H'.
    destruct (rounds_unique [3] k m 0 2) as [-> _]; [vm_compute in Hk; exact Hk|by apply (rounds_open 3 [])|].
    destruct (rounds_unique [3; 1] k' m' 0 1) as [-> _]; [vm_compute in Hk'; exact Hk'|by apply (rounds_open 3 [1])|lia].
  - destruct (H' "b"%string) as (k & m & k' & m' & _ & _ & _ & _ & (Hk & Hk' & Hin) & _). apply Hin. clear Hin H'.
    destruct (rounds_unique [] k m 0 0) as [-> _]; [vm_compute in Hk; exact Hk|constructor|].
    destruct (rounds_unique [1] k' m' 1 0) as [-> _]; [vm_compute in Hk'; exact Hk'|by apply (rounds_full 1 [] [] 0 0); [|constructor]|lia].
Defined.
