(* ===== verification/BatchUpdate.v ===== *)
(** The changes of the batch in a step, as logits processors get them
    ([vllm/v1/sample/logits_processor/state.py], [interface.py] and
    [process_dict_updates] of [builtin.py]). *)
From S2P Require Import Prelude.
From stdpp Require Import sorting.
Local Open Scope Z_scope.

Inductive MoveDirectionality := UNIDIRECTIONAL | SWAP.

Section Updates.
(** What an added request carries: its sampling parameters and tokens. *)
Context {Params : Type}.

Definition AddedRequest : Type := (Z * Params)%type.
Definition MovedRequest : Type := (Z * Z * MoveDirectionality)%type.

Record BatchUpdate := mkUpdate {
  batch_size : Z;
  bu_removed : list Z;
  bu_moved : list MovedRequest;
  bu_added : list AddedRequest
}.

Record BatchUpdateBuilder := mkBuilder {
  _removed : list Z;
  _is_removed_sorted : bool;
  added : list AddedRequest;
  moved : list MovedRequest;
  batch_changed : bool
}.
Definition builder_init : BatchUpdateBuilder := mkBuilder [] false [] [] false.

(** [sort(reverse=True)] on the first call. *)
Definition _ensure_removed_sorted (b : BatchUpdateBuilder) : BatchUpdateBuilder :=
  if _is_removed_sorted b then b
  else mkBuilder (merge_sort (H := fun x y => decide (y <= x)) (fun x y => y <= x) (_removed b)) true (added b) (moved b) (batch_changed b).
(** The property [removed]. *)
Definition removed_sorted (b : BatchUpdateBuilder) : list Z * BatchUpdateBuilder :=
  let b := _ensure_removed_sorted b in (_removed b, b).
Definition removed_append (index : Z) (b : BatchUpdateBuilder) : res BatchUpdateBuilder :=
  if _is_removed_sorted b then Err RuntimeError
  else Ok (mkBuilder (_removed b ++ [index]) (_is_removed_sorted b) (added b) (moved b) true).
Definition has_removed (b : BatchUpdateBuilder) : bool := match _removed b with [] => false | _ => true end.
Definition peek_removed (b : BatchUpdateBuilder) : option Z * BatchUpdateBuilder :=
  if has_removed b then let b := _ensure_removed_sorted b in (last (_removed b), b) else (None, b).
Definition pop_removed (b : BatchUpdateBuilder) : option Z * BatchUpdateBuilder :=
  if has_removed b then
    let b := _ensure_removed_sorted b in
    (last (_removed b), mkBuilder (removelast (_removed b)) (_is_removed_sorted b) (added b) (moved b) (batch_changed b))
  else (None, b).
Definition reset (b : BatchUpdateBuilder) : bool * BatchUpdateBuilder := (batch_changed b, builder_init).
Definition get_and_reset (size : Z) (b : BatchUpdateBuilder) : option BatchUpdate * BatchUpdateBuilder :=
  match _removed b, moved b, added b with
  | [], [], [] => (None, mkBuilder [] false [] [] false)
  | _, _, _ => (Some (mkUpdate size (_removed b) (moved b) (added b)), builder_init)
  end.

Definition add_added (a : AddedRequest) (b : BatchUpdateBuilder) : BatchUpdateBuilder :=
  mkBuilder (_removed b) (_is_removed_sorted b) (added b ++ [a]) (moved b) (batch_changed b).
Definition add_moved (m : MovedRequest) (b : BatchUpdateBuilder) : BatchUpdateBuilder :=
  mkBuilder (_removed b) (_is_removed_sorted b) (added b) (moved b ++ [m]) (batch_changed b).
Definition set_batch_changed (b : BatchUpdateBuilder) : BatchUpdateBuilder :=
  mkBuilder (_removed b) (_is_removed_sorted b) (added b) (moved b) true.

(** ** [process_dict_updates] *)

Context {T : Type} (new_state : Params -> option T).

Definition process_added (req_entries : gmap Z T) (a : AddedRequest) : gmap Z T :=
  match new_state a.2 with Some state => <[a.1 := state]> req_entries | None => delete a.1 req_entries end.
Definition process_moved (req_entries : gmap Z T) (m : MovedRequest) : gmap Z T :=
  let '(a_index, b_index, direct) := m in
  let a_entry := req_entries !! a_index in
  let req_entries := delete a_index req_entries in
  let b_entry := req_entries !! b_index in
  let req_entries := delete b_index req_entries in
  let req_entries := match a_entry with Some a => <[b_index := a]> req_entries | None => req_entries end in
  match b_entry, direct with Some b, SWAP => <[a_index := b]> req_entries | _, _ => req_entries end.

(** The entries it leaves; [if req_entries] only skips work on an empty dict. *)
Definition process_dict_updates (req_entries : gmap Z T) (batch_update : option BatchUpdate) : gmap Z T :=
  match batch_update with
  | None => req_entries
  | Some u =>
      let req_entries := foldl process_added req_entries (bu_added u) in
      if decide (req_entries = ∅) then req_entries
      else foldl process_moved (foldl (fun m i => delete i m) req_entries (bu_removed u)) (bu_moved u)
  end.
End Updates.
Arguments BatchUpdate : clear implicits.
Arguments BatchUpdateBuilder : clear implicits.
