(* ===== verification/BlockTable.v ===== *)
(** The block tables of the persistent batch ([vllm/v1/worker/block_table.py]): one
    row of block ids per request and cache group. *)
From S2P Require Import Prelude PyRes.
Local Open Scope Z_scope.

Record BlockTable := mkTable {
  bt_blocks_per_kv_block : Z;
  bt_use_hybrid_blocks : bool;
  bt_rows : list (list Z);
  num_blocks_per_row : list Z
}.

(** [__init__]: the kernel's blocks may be a part of the manager's. *)
Definition table_init (block_size max_num_reqs max_num_blocks_per_req kernel_block_size : Z) : res BlockTable :=
  ph ← (if kernel_block_size =? block_size then Ok (1, false)
        else m ← py_mod block_size kernel_block_size ;
             if negb (m =? 0) then Err ValueError else Ok (block_size / kernel_block_size, true)) ;
  Ok (mkTable ph.1 ph.2 (zreplicate max_num_reqs (zreplicate (max_num_blocks_per_req * ph.1) 0)) (zreplicate max_num_reqs 0)).

Definition map_to_kernel_blocks (kv_manager_block_ids : list Z) (blocks_per_kv_block : Z) : list Z :=
  if blocks_per_kv_block =? 1 then kv_manager_block_ids
  else concat (map (fun b => map (fun k => b * blocks_per_kv_block + k) (zrange 0 blocks_per_kv_block)) kv_manager_block_ids).

Definition append_row (block_ids : list Z) (row_idx : Z) (t : BlockTable) : res BlockTable :=
  match block_ids with
  | [] => Ok t
  | _ =>
      let block_ids := if bt_use_hybrid_blocks t then map_to_kernel_blocks block_ids (bt_blocks_per_kv_block t) else block_ids in
      let num_blocks := zlen block_ids in
      start ← py_get (num_blocks_per_row t) row_idx ;
      nums ← np_set (num_blocks_per_row t) row_idx (start + num_blocks) ;
      rows ← np_update (bt_rows t) row_idx (fun row => np_assign row start (start + num_blocks) block_ids) ;
      Ok (mkTable (bt_blocks_per_kv_block t) (bt_use_hybrid_blocks t) rows nums)
  end.
Definition add_row (block_ids : list Z) (row_idx : Z) (t : BlockTable) : res BlockTable :=
  nums ← np_set (num_blocks_per_row t) row_idx 0 ;
  append_row block_ids row_idx (mkTable (bt_blocks_per_kv_block t) (bt_use_hybrid_blocks t) (bt_rows t) nums).
Definition clear_row (row_idx : Z) (t : BlockTable) : res BlockTable :=
  num_blocks ← py_get (num_blocks_per_row t) row_idx ;
  rows ← (if 0 <? num_blocks then np_update (bt_rows t) row_idx (fun row => Ok (np_fill row 0 num_blocks 0)) else Ok (bt_rows t)) ;
  nums ← np_set (num_blocks_per_row t) row_idx 0 ;
  Ok (mkTable (bt_blocks_per_kv_block t) (bt_use_hybrid_blocks t) rows nums).
Definition move_row (src tgt : Z) (t : BlockTable) : res BlockTable :=
  num_blocks ← py_get (num_blocks_per_row t) src ;
  rows ← np_move_prefix (bt_rows t) src tgt num_blocks ;
  nums ← np_set (num_blocks_per_row t) tgt num_blocks ;
  Ok (mkTable (bt_blocks_per_kv_block t) (bt_use_hybrid_blocks t) rows nums).
(** Indexing with a list copies. *)
Definition swap_row (src tgt : Z) (t : BlockTable) : res BlockTable :=
  nums ← np_swap (num_blocks_per_row t) src tgt ;
  rows ← np_swap (bt_rows t) src tgt ;
  Ok (mkTable (bt_blocks_per_kv_block t) (bt_use_hybrid_blocks t) rows nums).

(** [MultiGroupBlockTable]: the tables of the cache groups. *)
Fixpoint multi_rows (op : list Z -> BlockTable -> res BlockTable) (block_ids : list (list Z)) (ts : list BlockTable) : res (list BlockTable) :=
  match ts, block_ids with
  | [], _ => Ok []
  | _ :: _, [] => Err IndexError
  | t :: ts, ids :: block_ids => t ← op ids t ; ts ← multi_rows op block_ids ts ; Ok (t :: ts)
  end.
Definition multi_append_row (block_ids : list (list Z)) (row_idx : Z) := multi_rows (fun ids => append_row ids row_idx) block_ids.
Definition multi_add_row (block_ids : list (list Z)) (row_idx : Z) := multi_rows (fun ids => add_row ids row_idx) block_ids.
Definition multi_clear_row (row_idx : Z) (ts : list BlockTable) : res (list BlockTable) := mapM (clear_row row_idx) ts.
Definition multi_move_row (src tgt : Z) (ts : list BlockTable) : res (list BlockTable) := mapM (move_row src tgt) ts.
Definition multi_swap_row (src tgt : Z) (ts : list BlockTable) : res (list BlockTable) := mapM (swap_row src tgt) ts.
