(* ===== verification/InputBatch.v ===== *)
(** The persistent batch of a worker ([vllm/v1/worker/gpu_input_batch.py:
    InputBatch]): one row per request in arrays that live across steps.

    Arrays on the host are lists; the copies on the device are not modelled.  The
    output tokens of a request are one list object that the batch and the request
    share: the batch holds its reference.  Generators, prompt embeddings, pooling
    objects and LoRA requests are opaque.  [as_float32] is torch's conversion of a
    Python float. *)
From S2P Require Import Prelude PyRes PyFloat BatchUpdate BlockTable.
From Stdlib Require Import SpecFloat.
Local Open Scope Z_scope.

(** The sampling parameters that the batch reads. *)
Record RowParams := mkRowParams {
  rp_greedy : bool;
  rp_temperature : spec_float;
  rp_top_p : spec_float;
  rp_top_k : Z;
  rp_frequency_penalty : spec_float;
  rp_presence_penalty : spec_float;
  rp_repetition_penalty : spec_float;
  rp_logprobs : option Z;
  rp_allowed_token_ids : option (list Z);
  rp_bad_words_token_ids : option (list (list Z))
}.
Definition float_lt_int (f : spec_float) (z : Z) : bool := match compare_float_int f z with Some Lt => true | _ => false end.
Definition float_ne_int (f : spec_float) (z : Z) : bool := match compare_float_int f z with Some Eq => false | _ => true end.

Section Batch.
Context {Tensor Generator LoRA Pooling States Logprobs : Type}.
Context (len_tensor : Tensor -> Z) (lora_int_id : LoRA -> Z) (requires_token_ids : Pooling -> bool) (as_float32 : spec_float -> spec_float).
Context (max_num_reqs max_model_len vocab_size : Z) (is_pooling_model : bool).

Record CachedRequestState := mkCached {
  cr_req_id : string;
  cr_prompt_token_ids : option (list Z);
  cr_prompt_embeds : option Tensor;
  cr_sampling_params : option RowParams;
  cr_pooling_params : option Pooling;
  cr_pooling_states : option States;
  cr_generator : option Generator;
  cr_block_ids : list (list Z);
  cr_num_computed_tokens : Z;
  cr_output_token_ids : list Z;
  cr_output_ref : Z;
  cr_lora_request : option LoRA;
  cr_prev_num_draft_len : Z
}.

Definition prompt_length (ids : option (list Z)) (embeds : option Tensor) : res Z :=
  match ids, embeds with
  | None, None => Err ValueError
  | None, Some e => Ok (len_tensor e)
  | Some l, None => Ok (zlen l)
  | Some l, Some e => if len_tensor e =? zlen l then Ok (zlen l) else Err ValueError
  end.
(** [num_tokens], with [num_prompt_tokens] as [__post_init__] sets it. *)
Definition cr_num_tokens (r : CachedRequestState) : res Z :=
  n ← prompt_length (cr_prompt_token_ids r) (cr_prompt_embeds r) ; Ok (n + zlen (cr_output_token_ids r)).

(** ** The state *)

Record BatchIds := mkIds {
  _req_ids : list (option string);
  req_id_to_index : gmap string Z;
  req_output_token_ids : list (option Z);
  spec_token_ids : list (list Z)
}.
Record BatchRows := mkRows {
  token_ids_cpu : list (list Z);
  is_token_ids : list (list bool);
  num_tokens_no_spec : list Z;
  num_prompt_tokens : list Z;
  num_computed_tokens_cpu : list Z;
  request_lora_mapping : list Z
}.
Record SamplingRows := mkSampling {
  temperature_cpu : list spec_float;
  top_p_cpu : list spec_float;
  top_k_cpu : list Z;
  frequency_penalties_cpu : list spec_float;
  presence_penalties_cpu : list spec_float;
  repetition_penalties_cpu : list spec_float;
  num_accepted_tokens_cpu : list Z
}.
Record RequestSets := mkSets {
  greedy_reqs : gset string;
  random_reqs : gset string;
  top_p_reqs : gset string;
  top_k_reqs : gset string;
  frequency_penalties_reqs : gset string;
  presence_penalties_reqs : gset string;
  repetition_penalties_reqs : gset string;
  has_allowed_token_ids : gset string;
  num_logprobs : gmap string Z;
  in_progress_prompt_logprobs_cpu : gmap string Logprobs
}.
Record RowDicts := mkDicts {
  generators : gmap Z Generator;
  bad_words_token_ids : gmap Z (list (list Z));
  allowed_token_ids_mask_cpu_tensor : option (list (list bool))
}.
Record LoraState := mkLora {
  lora_id_to_request_ids : gmap Z (gset string);
  lora_id_to_lora_request : gmap Z LoRA
}.
Record PoolState := mkPoolState {
  pooling_params : gmap string Pooling;
  pooling_states : gmap string States;
  logits_processing_needs_token_ids : list bool
}.
Definition AddedParams : Type := (RowParams * option (list Z) * Z)%type.
Record InputBatch := mkBatch {
  ib_ids : BatchIds;
  ib_rows : BatchRows;
  req_prompt_embeds : gmap Z Tensor;
  block_table : list BlockTable;
  ib_sampling : SamplingRows;
  ib_sets : RequestSets;
  ib_dicts : RowDicts;
  ib_lora : LoraState;
  ib_pool : PoolState;
  batch_update_builder : BatchUpdateBuilder AddedParams;
  prev_req_id_to_index : option (gmap string Z)
}.

(** [__init__]; [torch.empty] leaves any values. *)
Definition batch_init (empty : list spec_float) (empty_k : list Z) (tables : list BlockTable) : InputBatch :=
  let zeros := zreplicate max_num_reqs 0 in
  mkBatch (mkIds [] ∅ [] (zreplicate max_num_reqs []))
    (mkRows (zreplicate max_num_reqs (zreplicate max_model_len 0)) (zreplicate max_num_reqs (zreplicate max_model_len false)) zeros zeros zeros zeros)
    ∅ tables (mkSampling empty empty empty_k empty empty empty (zreplicate max_num_reqs 1)) (mkSets ∅ ∅ ∅ ∅ ∅ ∅ ∅ ∅ ∅ ∅)
    (mkDicts ∅ ∅ None) (mkLora ∅ ∅) (mkPoolState ∅ ∅ (zreplicate max_num_reqs false)) builder_init None.

Definition batch_num_reqs (b : InputBatch) : Z := Z.of_nat (size (req_id_to_index (ib_ids b))).
Definition set_ids (i : BatchIds) (b : InputBatch) : InputBatch :=
  mkBatch i (ib_rows b) (req_prompt_embeds b) (block_table b) (ib_sampling b) (ib_sets b) (ib_dicts b) (ib_lora b) (ib_pool b) (batch_update_builder b) (prev_req_id_to_index b).
Definition set_builder (u : BatchUpdateBuilder AddedParams) (b : InputBatch) : InputBatch :=
  mkBatch (ib_ids b) (ib_rows b) (req_prompt_embeds b) (block_table b) (ib_sampling b) (ib_sets b) (ib_dicts b) (ib_lora b) (ib_pool b) u (prev_req_id_to_index b).

(** ** Adding *)

Definition _register_add_request (request : CachedRequestState) (b : InputBatch) : res (Z * BatchUpdateBuilder AddedParams) :=
  let '(i, u) := pop_removed (batch_update_builder b) in
  let new_req_index := default (batch_num_reqs b) i in
  _ ← r_assert (new_req_index <? max_num_reqs) ;
  let u := set_batch_changed u in
  Ok (new_req_index,
      match cr_sampling_params request with
      | Some p => add_added (new_req_index, (p, cr_prompt_token_ids request, cr_output_ref request)) u
      | None => u
      end).

Definition ids_add (req_index : Z) (request : CachedRequestState) (d : BatchIds) : res BatchIds :=
  let index := <[cr_req_id request := req_index]> (req_id_to_index d) in
  if req_index =? zlen (_req_ids d) then
    Ok (mkIds (_req_ids d ++ [Some (cr_req_id request)]) index (req_output_token_ids d ++ [Some (cr_output_ref request)]) (spec_token_ids d ++ [[]]))
  else
    ids ← np_set (_req_ids d) req_index (Some (cr_req_id request)) ;
    outs ← np_set (req_output_token_ids d) req_index (Some (cr_output_ref request)) ;
    specs ← np_set (spec_token_ids d) req_index [] ;
    Ok (mkIds ids index outs specs).

(** The prompt, then the output tokens, of one row. *)
Definition rows_add (req_index : Z) (request : CachedRequestState) (d : BatchRows) : res BatchRows :=
  num_prompt ← prompt_length (cr_prompt_token_ids request) (cr_prompt_embeds request) ;
  nps ← np_set (num_prompt_tokens d) req_index num_prompt ;
  let end_idx := num_prompt + zlen (cr_output_token_ids request) in
  toks ← (match cr_prompt_token_ids request with
          | Some prompt => np_update (token_ids_cpu d) req_index (fun row => np_assign row 0 num_prompt prompt)
          | None => Ok (token_ids_cpu d)
          end) ;
  flags ← np_update (is_token_ids d) req_index (fun row => Ok (np_fill row 0 num_prompt (bool_decide (is_Some (cr_prompt_token_ids request))))) ;
  toks ← np_update toks req_index (fun row => np_assign row num_prompt end_idx (cr_output_token_ids request)) ;
  flags ← np_update flags req_index (fun row => Ok (np_fill row num_prompt end_idx true)) ;
  n ← cr_num_tokens request ;
  nts ← np_set (num_tokens_no_spec d) req_index n ;
  ncs ← np_set (num_computed_tokens_cpu d) req_index (cr_num_computed_tokens request) ;
  loras ← np_set (request_lora_mapping d) req_index (match cr_lora_request request with Some l => lora_int_id l | None => 0 end) ;
  Ok (mkRows toks flags nts nps ncs loras).

Definition sampling_add (req_index : Z) (p : RowParams) (d : SamplingRows) : res SamplingRows :=
  ts ← np_set (temperature_cpu d) req_index (if rp_greedy p then S754_zero false else as_float32 (rp_temperature p)) ;
  ps ← np_set (top_p_cpu d) req_index (as_float32 (rp_top_p p)) ;
  ks ← np_set (top_k_cpu d) req_index (if (0 <? rp_top_k p) && (rp_top_k p <? vocab_size) then rp_top_k p else vocab_size) ;
  fs ← np_set (frequency_penalties_cpu d) req_index (as_float32 (rp_frequency_penalty p)) ;
  prs ← np_set (presence_penalties_cpu d) req_index (as_float32 (rp_presence_penalty p)) ;
  rs ← np_set (repetition_penalties_cpu d) req_index (as_float32 (rp_repetition_penalty p)) ;
  Ok (mkSampling ts ps ks fs prs rs (num_accepted_tokens_cpu d)).

Definition add_if (b : bool) (req_id : string) (s : gset string) : gset string := if b then {[ req_id ]} ∪ s else s.
Definition non_empty {A} (l : option (list A)) : bool := match l with Some (_ :: _) => true | _ => false end.
Definition sets_add (req_id : string) (p : RowParams) (d : RequestSets) : RequestSets :=
  mkSets (add_if (rp_greedy p) req_id (greedy_reqs d)) (add_if (negb (rp_greedy p)) req_id (random_reqs d))
    (add_if (float_lt_int (rp_top_p p) 1) req_id (top_p_reqs d))
    (add_if ((0 <? rp_top_k p) && (rp_top_k p <? vocab_size)) req_id (top_k_reqs d))
    (add_if (float_ne_int (rp_frequency_penalty p) 0) req_id (frequency_penalties_reqs d))
    (add_if (float_ne_int (rp_presence_penalty p) 0) req_id (presence_penalties_reqs d))
    (add_if (float_ne_int (rp_repetition_penalty p) 1) req_id (repetition_penalties_reqs d))
    (add_if (non_empty (rp_allowed_token_ids p)) req_id (has_allowed_token_ids d))
    (match rp_logprobs p with Some n => <[req_id := if n =? -1 then vocab_size else n]> (num_logprobs d) | None => num_logprobs d end)
    (in_progress_prompt_logprobs_cpu d).

(** [mask[i][ids] = False]: an index may count from the end. *)
Definition unmask (ids : list Z) (row : list bool) : res (list bool) :=
  foldl (fun acc t => row ← acc ; np_set row (if t <? 0 then t + zlen row else t) false) (Ok row) ids.
Definition dicts_add (req_index : Z) (generator : option Generator) (p : RowParams) (d : RowDicts) : res RowDicts :=
  mask ← (if non_empty (rp_allowed_token_ids p) then
            let mask := default (zreplicate max_num_reqs (zreplicate vocab_size false)) (allowed_token_ids_mask_cpu_tensor d) in
            mask ← np_update mask req_index (fun row => unmask (default [] (rp_allowed_token_ids p)) (map (fun _ => true) row)) ;
            Ok (Some mask)
          else Ok (allowed_token_ids_mask_cpu_tensor d)) ;
  Ok (mkDicts (match generator with Some g => <[req_index := g]> (generators d) | None => generators d end)
        (if non_empty (rp_bad_words_token_ids p) then <[req_index := default [] (rp_bad_words_token_ids p)]> (bad_words_token_ids d) else bad_words_token_ids d)
        mask).

Definition lora_add (req_id : string) (lora : option LoRA) (d : LoraState) : LoraState :=
  match lora with
  | Some l =>
      mkLora (<[lora_int_id l := {[ req_id ]} ∪ default ∅ (lora_id_to_request_ids d !! lora_int_id l)]> (lora_id_to_request_ids d))
        (<[lora_int_id l := l]> (lora_id_to_lora_request d))
  | None => d
  end.

Definition batch_add_request (request : CachedRequestState) (b : InputBatch) : res (Z * InputBatch) :=
  iu ← _register_add_request request b ;
  let req_index := iu.1 in
  let req_id := cr_req_id request in
  ids ← ids_add req_index request (ib_ids b) ;
  rows ← rows_add req_index request (ib_rows b) ;
  let embeds := match cr_prompt_embeds request with Some e => <[req_index := e]> (req_prompt_embeds b) | None => req_prompt_embeds b end in
  tables ← multi_add_row (cr_block_ids request) req_index (block_table b) ;
  spd ← (match cr_sampling_params request, cr_pooling_params request with
         | Some p, _ =>
             s ← sampling_add req_index p (ib_sampling b) ;
             d ← dicts_add req_index (cr_generator request) p (ib_dicts b) ;
             Ok (s, sets_add req_id p (ib_sets b), d, ib_pool b)
         | None, Some p =>
             st ← match cr_pooling_states request with Some st => Ok st | None => Err AssertionError end ;
             needs ← np_set (logits_processing_needs_token_ids (ib_pool b)) req_index (requires_token_ids p) ;
             Ok (ib_sampling b, ib_sets b, ib_dicts b,
                 mkPoolState (<[req_id := p]> (pooling_params (ib_pool b))) (<[req_id := st]> (pooling_states (ib_pool b))) needs)
         | None, None => Err NotImplementedError
         end) ;
  let '(s, sets, d, pool) := spd in
  acc ← np_set (num_accepted_tokens_cpu s) req_index 1 ;
  let s := mkSampling (temperature_cpu s) (top_p_cpu s) (top_k_cpu s) (frequency_penalties_cpu s) (presence_penalties_cpu s) (repetition_penalties_cpu s) acc in
  Ok (req_index, mkBatch ids rows embeds tables s sets d (lora_add req_id (cr_lora_request request) (ib_lora b)) pool iu.2 (prev_req_id_to_index b)).

(** The draft tokens of the step, after the tokens of the request. *)
Definition update_req_spec_token_ids (request : CachedRequestState) (scheduled_spec_tokens : gmap string (list Z)) (b : InputBatch)
    : res (CachedRequestState * InputBatch) :=
  let d := ib_ids b in
  let req_id := cr_req_id request in
  req_index ← match req_id_to_index d !! req_id with Some i => Ok i | None => Err KeyError end ;
  _ ← py_get (spec_token_ids d) req_index ;
  let spec := default [] (scheduled_spec_tokens !! req_id) in
  let request := mkCached req_id (cr_prompt_token_ids request) (cr_prompt_embeds request) (cr_sampling_params request) (cr_pooling_params request)
    (cr_pooling_states request) (cr_generator request) (cr_block_ids request) (cr_num_computed_tokens request) (cr_output_token_ids request)
    (cr_output_ref request) (cr_lora_request request) (zlen spec) in
  specs ← np_set (spec_token_ids d) req_index spec ;
  let ids := mkIds (_req_ids d) (req_id_to_index d) (req_output_token_ids d) specs in
  match spec with
  | [] => Ok (request, set_ids ids b)
  | _ =>
      start_index ← py_get (num_tokens_no_spec (ib_rows b)) req_index ;
      toks ← np_update (token_ids_cpu (ib_rows b)) req_index (fun row => np_assign row start_index (start_index + zlen spec) spec) ;
      let r := ib_rows b in
      Ok (request, mkBatch ids (mkRows toks (is_token_ids r) (num_tokens_no_spec r) (num_prompt_tokens r) (num_computed_tokens_cpu r) (request_lora_mapping r))
        (req_prompt_embeds b) (block_table b) (ib_sampling b) (ib_sets b) (ib_dicts b) (ib_lora b) (ib_pool b) (batch_update_builder b) (prev_req_id_to_index b))
  end.

(** ** Removing *)

Definition sets_remove (req_id : string) (d : RequestSets) : RequestSets :=
  let discard (s : gset string) := s ∖ {[ req_id ]} in
  mkSets (discard (greedy_reqs d)) (discard (random_reqs d)) (discard (top_p_reqs d)) (discard (top_k_reqs d))
    (discard (frequency_penalties_reqs d)) (discard (presence_penalties_reqs d)) (discard (repetition_penalties_reqs d))
    (discard (has_allowed_token_ids d)) (delete req_id (num_logprobs d)) (delete req_id (in_progress_prompt_logprobs_cpu d)).
Definition lora_remove (req_id : string) (lora_id : Z) (d : LoraState) : res LoraState :=
  if lora_id =? 0 then Ok d
  else
    old ← match lora_id_to_request_ids d !! lora_id with Some s => Ok s | None => Err KeyError end ;
    let reqs : gset string := old ∖ {[ req_id ]} in
    if decide (reqs = ∅) then
      match lora_id_to_lora_request d !! lora_id with
      | Some _ => Ok (mkLora (delete lora_id (lora_id_to_request_ids d)) (delete lora_id (lora_id_to_lora_request d)))
      | None => Err KeyError
      end
    else Ok (mkLora (<[lora_id := reqs]> (lora_id_to_request_ids d)) (lora_id_to_lora_request d)).

(** Prompt embeddings stay in [req_prompt_embeds]. *)
Definition batch_remove_request (req_id : string) (b : InputBatch) : res (option Z * InputBatch) :=
  match req_id_to_index (ib_ids b) !! req_id with
  | None => Ok (None, b)
  | Some req_index =>
      let d := ib_ids b in
      u ← removed_append req_index (batch_update_builder b) ;
      ids ← np_set (_req_ids d) req_index None ;
      outs ← np_set (req_output_token_ids d) req_index None ;
      specs ← np_set (spec_token_ids d) req_index [] ;
      let d := mkIds ids (delete req_id (req_id_to_index d)) outs specs in
      tables ← multi_clear_row req_index (block_table b) ;
      lora_id ← py_get (request_lora_mapping (ib_rows b)) req_index ;
      lora ← lora_remove req_id lora_id (ib_lora b) ;
      loras ← (if lora_id =? 0 then Ok (request_lora_mapping (ib_rows b)) else np_set (request_lora_mapping (ib_rows b)) req_index 0) ;
      let r := ib_rows b in
      let rows := mkRows (token_ids_cpu r) (is_token_ids r) (num_tokens_no_spec r) (num_prompt_tokens r) (num_computed_tokens_cpu r) loras in
      if is_pooling_model then
        let pool := mkPoolState (delete req_id (pooling_params (ib_pool b))) (delete req_id (pooling_states (ib_pool b))) (logits_processing_needs_token_ids (ib_pool b)) in
        Ok (Some req_index, mkBatch d rows (req_prompt_embeds b) tables (ib_sampling b) (ib_sets b) (ib_dicts b) lora pool u (prev_req_id_to_index b))
      else
        mask ← (match allowed_token_ids_mask_cpu_tensor (ib_dicts b) with
                | Some mask => mask ← np_update mask req_index (fun row => Ok (map (fun _ => false) row)) ; Ok (Some mask)
                | None => Ok None
                end) ;
        let dicts := mkDicts (delete req_index (generators (ib_dicts b))) (delete req_index (bad_words_token_ids (ib_dicts b))) mask in
        Ok (Some req_index, mkBatch d rows (req_prompt_embeds b) tables (ib_sampling b) (sets_remove req_id (ib_sets b)) dicts lora (ib_pool b) u
              (delete req_id <$> prev_req_id_to_index b))
  end.

(** ** Swapping and moving rows *)

Definition _get_active_token_count (req_index : Z) (b : InputBatch) : res Z :=
  n ← py_get (num_tokens_no_spec (ib_rows b)) req_index ;
  spec ← py_get (spec_token_ids (ib_ids b)) req_index ;
  Ok (n + zlen spec).

(** [swap_dict_values] *)
Definition swap_dict_values {V} (obj : gmap Z V) (key1 key2 : Z) : gmap Z V :=
  let v1 := obj !! key1 in
  let v2 := obj !! key2 in
  let obj := match v1 with Some v => <[key2 := v]> obj | None => delete key2 obj end in
  match v2 with Some v => <[key1 := v]> obj | None => delete key1 obj end.

Definition ids_swap (i1 i2 : Z) (d : BatchIds) : res BatchIds :=
  old_id_i1 ← py_get (_req_ids d) i1 ;
  old_id_i2 ← py_get (_req_ids d) i2 ;
  ids ← np_swap (_req_ids d) i1 i2 ;
  outs ← np_swap (req_output_token_ids d) i1 i2 ;
  specs ← np_swap (spec_token_ids d) i1 i2 ;
  match old_id_i1, old_id_i2 with
  | Some r1, Some r2 =>
      match req_id_to_index d !! r2, req_id_to_index d !! r1 with
      | Some x2, Some x1 => Ok (mkIds ids (<[r2 := x1]> (<[r1 := x2]> (req_id_to_index d))) outs specs)
      | _, _ => Err KeyError
      end
  | _, _ => Err AssertionError
  end.
Definition rows_swap (i1 i2 n : Z) (d : BatchRows) : res BatchRows :=
  nts ← np_swap (num_tokens_no_spec d) i1 i2 ;
  nps ← np_swap (num_prompt_tokens d) i1 i2 ;
  ncs ← np_swap (num_computed_tokens_cpu d) i1 i2 ;
  toks ← np_swap_prefix (token_ids_cpu d) i1 i2 n ;
  flags ← np_swap_prefix (is_token_ids d) i1 i2 n ;
  loras ← np_swap (request_lora_mapping d) i1 i2 ;
  Ok (mkRows toks flags nts nps ncs loras).
Definition sampling_swap (i1 i2 : Z) (d : SamplingRows) : res SamplingRows :=
  ts ← np_swap (temperature_cpu d) i1 i2 ;
  ps ← np_swap (top_p_cpu d) i1 i2 ;
  ks ← np_swap (top_k_cpu d) i1 i2 ;
  fs ← np_swap (frequency_penalties_cpu d) i1 i2 ;
  prs ← np_swap (presence_penalties_cpu d) i1 i2 ;
  rs ← np_swap (repetition_penalties_cpu d) i1 i2 ;
  acc ← np_swap (num_accepted_tokens_cpu d) i1 i2 ;
  Ok (mkSampling ts ps ks fs prs rs acc).
Definition dicts_swap (i1 i2 : Z) (d : RowDicts) : res RowDicts :=
  mask ← (match allowed_token_ids_mask_cpu_tensor d with Some mask => mask ← view_swap mask i1 i2 ; Ok (Some mask) | None => Ok None end) ;
  Ok (mkDicts (swap_dict_values (generators d) i1 i2) (swap_dict_values (bad_words_token_ids d) i1 i2) mask).

Definition swap_states (i1 i2 : Z) (b : InputBatch) : res InputBatch :=
  n1 ← _get_active_token_count i1 b ;
  n2 ← _get_active_token_count i2 b ;
  ids ← ids_swap i1 i2 (ib_ids b) ;
  rows ← rows_swap i1 i2 (Z.max n1 n2) (ib_rows b) ;
  let embeds := swap_dict_values (req_prompt_embeds b) i1 i2 in
  tables ← multi_swap_row i1 i2 (block_table b) ;
  if is_pooling_model then
    Ok (mkBatch ids rows embeds tables (ib_sampling b) (ib_sets b) (ib_dicts b) (ib_lora b) (ib_pool b) (batch_update_builder b) (prev_req_id_to_index b))
  else
    sampling ← sampling_swap i1 i2 (ib_sampling b) ;
    dicts ← dicts_swap i1 i2 (ib_dicts b) ;
    Ok (mkBatch ids rows embeds tables sampling (ib_sets b) dicts (ib_lora b) (ib_pool b) (add_moved (i1, i2, SWAP) (batch_update_builder b)) (prev_req_id_to_index b)).

(** The move of the last request into an empty row. *)
Definition ids_move (src tgt : Z) (d : BatchIds) : res BatchIds :=
  req_id ← py_get (_req_ids d) src ;
  out ← py_get (req_output_token_ids d) src ;
  req_id ← match req_id with Some r => Ok r | None => Err AssertionError end ;
  ids ← np_set (_req_ids d) tgt (Some req_id) ;
  ids ← np_set ids src None ;
  outs ← np_set (req_output_token_ids d) tgt out ;
  outs ← np_set outs src None ;
  specs ← np_swap (spec_token_ids d) src tgt ;
  specs ← np_set specs src [] ;
  Ok (mkIds ids (<[req_id := tgt]> (req_id_to_index d)) outs specs).
Definition rows_move (src tgt n : Z) (d : BatchRows) : res BatchRows :=
  toks ← np_move_prefix (token_ids_cpu d) src tgt n ;
  flags ← np_move_prefix (is_token_ids d) src tgt n ;
  nts ← np_move (num_tokens_no_spec d) src tgt ;
  nps ← np_move (num_prompt_tokens d) src tgt ;
  ncs ← np_move (num_computed_tokens_cpu d) src tgt ;
  loras ← np_move (request_lora_mapping d) src tgt ;
  Ok (mkRows toks flags nts nps ncs loras).
Definition sampling_move (src tgt : Z) (d : SamplingRows) : res SamplingRows :=
  ts ← np_move (temperature_cpu d) src tgt ;
  ps ← np_move (top_p_cpu d) src tgt ;
  ks ← np_move (top_k_cpu d) src tgt ;
  fs ← np_move (frequency_penalties_cpu d) src tgt ;
  prs ← np_move (presence_penalties_cpu d) src tgt ;
  rs ← np_move (repetition_penalties_cpu d) src tgt ;
  acc ← np_move (num_accepted_tokens_cpu d) src tgt ;
  Ok (mkSampling ts ps ks fs prs rs acc).
(** [x = d.pop(src, None); if x is not None: d[tgt] = x] *)
Definition move_entry {V} (src tgt : Z) (d : gmap Z V) : gmap Z V :=
  match d !! src with Some v => <[tgt := v]> (delete src d) | None => d end.
Definition dicts_move (src tgt : Z) (d : RowDicts) : res RowDicts :=
  mask ← (match allowed_token_ids_mask_cpu_tensor d with Some mask => mask ← np_move mask src tgt ; Ok (Some mask) | None => Ok None end) ;
  Ok (mkDicts (move_entry src tgt (generators d)) (move_entry src tgt (bad_words_token_ids d)) mask).

Definition condense_move (src tgt : Z) (b : InputBatch) : res InputBatch :=
  num_tokens ← _get_active_token_count src b ;
  ids ← ids_move src tgt (ib_ids b) ;
  rows ← rows_move src tgt num_tokens (ib_rows b) ;
  let embeds := move_entry src tgt (req_prompt_embeds b) in
  tables ← multi_move_row src tgt (block_table b) ;
  if is_pooling_model then
    Ok (mkBatch ids rows embeds tables (ib_sampling b) (ib_sets b) (ib_dicts b) (ib_lora b) (ib_pool b) (batch_update_builder b) (prev_req_id_to_index b))
  else
    sampling ← sampling_move src tgt (ib_sampling b) ;
    dicts ← dicts_move src tgt (ib_dicts b) ;
    Ok (mkBatch ids rows embeds tables sampling (ib_sets b) dicts (ib_lora b) (ib_pool b) (add_moved (src, tgt, UNIDIRECTIONAL) (batch_update_builder b)) (prev_req_id_to_index b)).

(** [while last_req_index in empty_req_indices: last_req_index -= 1] *)
Fixpoint skip_empty (fuel : nat) (empty_req_indices : list Z) (last_req_index : Z) : Z :=
  match fuel with
  | O => last_req_index
  | S fuel => if decide (last_req_index ∈ empty_req_indices) then skip_empty fuel empty_req_indices (last_req_index - 1) else last_req_index
  end.
(** [while empty_req_indices]: each round pops one of them. *)
Fixpoint condense_loop (fuel : nat) (last_req_index : Z) (b : InputBatch) : res InputBatch :=
  match fuel with
  | O => Err FuelExhausted
  | S fuel =>
      let '(empty_req_indices, u) := removed_sorted (batch_update_builder b) in
      match empty_req_indices with
      | [] => Ok (set_builder u b)
      | _ =>
          let last_req_index := skip_empty (S (length empty_req_indices)) empty_req_indices last_req_index in
          let '(empty_index, u) := peek_removed u in
          empty_index ← match empty_index with Some i => Ok i | None => Err AssertionError end ;
          if last_req_index <=? empty_index then Ok (set_builder u b)
          else
            b ← condense_move last_req_index empty_index (set_builder (pop_removed u).2 b) ;
            condense_loop fuel (last_req_index - 1) b
      end
  end.
Definition condense (b : InputBatch) : res InputBatch :=
  let n := batch_num_reqs b in
  let '(empty_req_indices, u) := removed_sorted (batch_update_builder b) in
  let b := set_builder u b in
  let d := ib_ids b in
  match empty_req_indices with
  | [] => Ok b
  | _ =>
      if n =? 0 then Ok (set_ids (mkIds [] (req_id_to_index d) [] []) b)
      else
        b ← condense_loop (S (length empty_req_indices)) (n + zlen empty_req_indices - 1) b ;
        let d := ib_ids b in
        let trim {A} (l : list A) := take (Z.to_nat n) l in
        Ok (set_ids (mkIds (trim (_req_ids d)) (req_id_to_index d) (trim (req_output_token_ids d)) (trim (spec_token_ids d))) b)
  end.

(** ** Metadata for the step *)

Definition _make_prompt_token_ids_cpu_tensor (b : InputBatch) : res (list (list Z)) :=
  let n := Z.to_nat (batch_num_reqs b) in
  max_prompt_len ← py_list_max (take n (num_prompt_tokens (ib_rows b))) ;
  Ok (zip_with (fun row k => np_fill (py_slice_to row max_prompt_len) k max_prompt_len vocab_size)
        (take n (token_ids_cpu (ib_rows b))) (take n (num_prompt_tokens (ib_rows b)))).

(** The fields of [SamplingMetadata] that come from the host. *)
Record SamplingMetadata := mkMetadata {
  sm_temperature : option (list spec_float);
  all_greedy : bool;
  all_random : bool;
  sm_top_p : option (list spec_float);
  sm_top_k : option (list Z);
  max_num_logprobs : option Z;
  no_penalties : bool;
  sm_prompt_token_ids : option (list (list Z));
  sm_output_token_ids : list (option Z);
  allowed_token_ids_mask : option (list (list bool))
}.
Definition empty_set (s : gset string) : bool := bool_decide (s = ∅).
Definition _make_sampling_metadata (logitsprocs_need_output_token_ids : bool) (b : InputBatch) : res SamplingMetadata :=
  let n := Z.to_nat (batch_num_reqs b) in
  let s := ib_sampling b in
  let d := ib_sets b in
  let greedy := empty_set (random_reqs d) in
  let unpenalised := empty_set (presence_penalties_reqs d) && empty_set (frequency_penalties_reqs d) && empty_set (repetition_penalties_reqs d) in
  prompts ← (if negb unpenalised || existsb id (take n (logits_processing_needs_token_ids (ib_pool b))) then p ← _make_prompt_token_ids_cpu_tensor b ; Ok (Some p) else Ok None) ;
  mask ← (if empty_set (has_allowed_token_ids d) then Ok None
          else match allowed_token_ids_mask_cpu_tensor (ib_dicts b) with Some mask => Ok (Some (take n mask)) | None => Err AssertionError end) ;
  Ok (mkMetadata (if greedy then None else Some (take n (temperature_cpu s))) greedy (empty_set (greedy_reqs d))
        (if empty_set (top_p_reqs d) then None else Some (take n (top_p_cpu s)))
        (if empty_set (top_k_reqs d) then None else Some (take n (top_k_cpu s)))
        (match map snd (map_to_list (num_logprobs d)) with [] => None | x :: l => Some (foldl Z.max x l) end)
        unpenalised prompts
        (if negb unpenalised || negb (bool_decide (bad_words_token_ids (ib_dicts b) = ∅)) || logitsprocs_need_output_token_ids then req_output_token_ids (ib_ids b) else [])
        mask).

(** The update for the logits processors, and new metadata if the batch changed. *)
Definition refresh_metadata (logitsprocs_need_output_token_ids : bool) (metadata : SamplingMetadata) (b : InputBatch)
    : res (option (BatchUpdate AddedParams) * SamplingMetadata * InputBatch) :=
  if is_pooling_model then
    let '(changed, u) := reset (batch_update_builder b) in
    let b := set_builder u b in
    m ← (if changed then _make_sampling_metadata logitsprocs_need_output_token_ids b else Ok metadata) ;
    Ok (None, m, b)
  else
    let '(update, u) := get_and_reset (batch_num_reqs b) (batch_update_builder b) in
    let b := set_builder u b in
    m ← (match update with Some _ => _make_sampling_metadata logitsprocs_need_output_token_ids b | None => Ok metadata end) ;
    Ok (update, m, b).

(** [make_lora_inputs]: the mapping repeated per sampled and per scheduled token. *)
Definition make_lora_inputs (num_scheduled_tokens num_sampled_tokens : list Z) (b : InputBatch) : res (list Z * list Z * list LoRA) :=
  let n := Z.to_nat (batch_num_reqs b) in
  let mapping := take n (request_lora_mapping (ib_rows b)) in
  let repeat counts := if zlen counts =? zlen mapping then Ok (concat (zip_with (fun l k => zreplicate k l) mapping counts)) else Err ValueError in
  prompts ← repeat num_sampled_tokens ;
  tokens ← repeat num_scheduled_tokens ;
  Ok (prompts, tokens, map snd (map_to_list (lora_id_to_lora_request (ib_lora b)))).
End Batch.
