(* ===== verification/BatchRows.v ===== *)
(** The rows of the persistent batch under moves and swaps: what a row shows after
    the rows were permuted. *)
From S2P Require Import Prelude PyRes PyFloat BatchUpdate BlockTable InputBatch.
From Stdlib Require Import SpecFloat.
Local Open Scope Z_scope.

(** ** Row maps *)

(** Row [k] shows what row [f k] showed. *)
Definition reidx {A} (f : nat -> nat) (a a' : list A) : Prop := length a' = length a /\ forall k, (k < length a)%nat -> a' !! k = a !! f k.

Definition mv (src tgt k : nat) : nat := if decide (k = tgt) then src else k.
Definition tr (i j k : nat) : nat := if decide (k = i) then j else if decide (k = j) then i else k.

Lemma np_move_reidx {A} (a : list A) i j : (i < length a)%nat -> (j < length a)%nat ->
  exists a', np_move a (Z.of_nat i) (Z.of_nat j) = Ok a' /\ reidx (mv i j) a a'.
Proof.
  intros Hi Hj. destruct (lookup_lt_is_Some_2 a i Hi) as [x Hx]. eexists. split; [by apply np_move_ok|].
  split; [by rewrite length_insert|]. intros k Hk. unfold mv. case_decide as E; [subst k|by rewrite list_lookup_insert_ne by done].
  by rewrite list_lookup_insert_eq.
Qed.

Lemma np_swap_reidx {A} (a : list A) i j : (i < length a)%nat -> (j < length a)%nat ->
  exists a', np_swap a (Z.of_nat i) (Z.of_nat j) = Ok a' /\ reidx (tr i j) a a'.
Proof.
  intros Hi Hj. destruct (lookup_lt_is_Some_2 a i Hi) as [x Hx]. destruct (lookup_lt_is_Some_2 a j Hj) as [y Hy].
  eexists. split; [by apply np_swap_ok|]. split; [by rewrite !length_insert|]. intros k Hk. rewrite (lookup_swap a i j x y k Hx Hy).
  unfold tr. repeat case_decide; subst; congruence.
Qed.

(** Prefixes: the first [n k] elements of row [k] are those of row [f k]. *)
Definition reidx_prefix {A} (f : nat -> nat) (n : nat -> Z) (a a' : list (list A)) : Prop :=
  length a' = length a /\ forall k, (k < length a)%nat -> take (Z.to_nat (n k)) <$> a' !! k = take (Z.to_nat (n k)) <$> a !! f k.

Definition width {A} (w : nat) (a : list (list A)) : Prop := forall row, row ∈ a -> length row = w.

Lemma width_lookup {A} w (a : list (list A)) i row : width w a -> a !! i = Some row -> length row = w.
Proof. intros Hw Hi. apply Hw. by eapply list_elem_of_lookup_2. Qed.

Lemma width_insert {A} w (a : list (list A)) i row : width w a -> length row = w -> width w (<[i := row]> a).
Proof.
  intros Hw Hr row' [j Hj]%list_elem_of_lookup. apply list_lookup_insert_Some in Hj as [(_ & <- & _)|[_ Hj]]; [done|].
  by eapply width_lookup.
Qed.

Lemma prefix_copy_length {A} n (x y : list A) : length x = length y -> length (prefix_copy n x y) = length y.
Proof.
  intros Hl. unfold prefix_copy. assert (H : (Z.to_nat (py_clip (zlen y) n) <= length y)%nat) by (unfold py_clip, zlen; case_match; lia).
  rewrite length_app, length_take, length_drop. lia.
Qed.

Lemma prefix_copy_take {A} n m (x y : list A) : length x = length y -> 0 <= n <= m -> take (Z.to_nat n) (prefix_copy m x y) = take (Z.to_nat n) x.
Proof.
  intros Hl Hn. unfold prefix_copy, py_clip. replace (m <? 0) with false by lia. destruct (Z.le_gt_cases m (zlen y)) as [Hm|Hm]; unfold zlen in *.
  - rewrite Z.min_l by lia. rewrite take_app_le by (rewrite length_take; lia). rewrite take_take. f_equal. lia.
  - rewrite Z.min_r by lia. rewrite Nat2Z.id, drop_ge, app_nil_r by lia. by rewrite (take_ge x) by lia.
Qed.

Lemma np_move_prefix_ok {A} w (a : list (list A)) i j n m : width w a -> (i < length a)%nat -> (j < length a)%nat -> 0 <= n i <= m ->
  exists a', np_move_prefix a (Z.of_nat i) (Z.of_nat j) m = Ok a' /\ width w a' /\ length a' = length a
  /\ forall k, (k < length a)%nat -> take (Z.to_nat (n (mv i j k))) <$> a' !! k = take (Z.to_nat (n (mv i j k))) <$> a !! mv i j k.
Proof.
  intros Hw Hi Hj Hn. destruct (lookup_lt_is_Some_2 a i Hi) as [x Hx]. destruct (lookup_lt_is_Some_2 a j Hj) as [y Hy].
  pose proof (width_lookup w a i x Hw Hx) as Hlx. pose proof (width_lookup w a j y Hw Hy) as Hly.
  unfold np_move_prefix. rewrite (py_get_ok a i x Hx), (py_get_ok a j y Hy). cbn [mbind res_bind]. rewrite np_set_ok by done.
  eexists. split; [done|]. split; [apply width_insert; [done|rewrite prefix_copy_length; lia]|]. split; [by rewrite length_insert|].
  intros k Hk. unfold mv. case_decide as E; [subst k|by rewrite list_lookup_insert_ne by done].
  rewrite list_lookup_insert_eq, Hx by done. cbn. f_equal. apply prefix_copy_take; lia.
Qed.

Lemma np_swap_prefix_ok {A} w (a : list (list A)) i j n m : width w a -> (i < length a)%nat -> (j < length a)%nat -> i <> j ->
  0 <= n i <= m -> 0 <= n j <= m ->
  exists a', np_swap_prefix a (Z.of_nat i) (Z.of_nat j) m = Ok a' /\ width w a' /\ length a' = length a
  /\ forall k, (k < length a)%nat -> take (Z.to_nat (n (tr i j k))) <$> a' !! k = take (Z.to_nat (n (tr i j k))) <$> a !! tr i j k.
Proof.
  intros Hw Hi Hj Hij Hni Hnj. destruct (lookup_lt_is_Some_2 a i Hi) as [x Hx]. destruct (lookup_lt_is_Some_2 a j Hj) as [y Hy].
  pose proof (width_lookup w a i x Hw Hx) as Hlx. pose proof (width_lookup w a j y Hw Hy) as Hly.
  unfold np_swap_prefix. rewrite (py_get_ok a i x Hx), (py_get_ok a j y Hy). cbn [mbind res_bind]. rewrite np_set_ok by done. cbn [mbind res_bind].
  rewrite np_set_ok by (by rewrite length_insert).
  eexists. split; [done|]. split; [apply width_insert; [apply width_insert; [done|]|]; rewrite prefix_copy_length; lia|].
  split; [by rewrite !length_insert|]. intros k Hk. unfold tr. destruct (decide (k = i)) as [->|Hki].
  - rewrite list_lookup_insert_ne, list_lookup_insert_eq, Hy by done. cbn. f_equal. apply prefix_copy_take; lia.
  - destruct (decide (k = j)) as [->|Hkj]; [|by rewrite !list_lookup_insert_ne by done].
    rewrite list_lookup_insert_eq, Hx by (by rewrite length_insert). cbn. f_equal. apply prefix_copy_take; lia.
Qed.

(** Dicts by row. *)
Lemma swap_dict_values_lookup {V} (d : gmap Z V) i j (k : nat) :
  swap_dict_values d (Z.of_nat i) (Z.of_nat j) !! Z.of_nat k = d !! Z.of_nat (tr i j k).
Proof.
  unfold swap_dict_values, tr. destruct (decide (k = i)) as [->|Hki].
  - destruct (d !! Z.of_nat j) eqn:Ej; [by rewrite lookup_insert_eq|by rewrite lookup_delete_eq].
  - assert (Hne : Z.of_nat i <> Z.of_nat k) by lia. destruct (d !! Z.of_nat j) eqn:Ej; [rewrite lookup_insert_ne by done|rewrite lookup_delete_ne by done];
      (destruct (decide (k = j)) as [->|Hkj]; [destruct (d !! Z.of_nat i) eqn:Ei; [by rewrite lookup_insert_eq|by rewrite lookup_delete_eq]|]);
      (destruct (d !! Z.of_nat i) eqn:Ei; [rewrite lookup_insert_ne by lia|rewrite lookup_delete_ne by lia]); done.
Qed.

Lemma move_entry_lookup {V} (d : gmap Z V) i j (k : nat) : d !! Z.of_nat j = None -> k <> i ->
  move_entry (Z.of_nat i) (Z.of_nat j) d !! Z.of_nat k = d !! Z.of_nat (mv i j k).
Proof.
  intros Hj Hki. unfold move_entry, mv. destruct (d !! Z.of_nat i) as [v|] eqn:Ei.
  - case_decide; [subst; by rewrite lookup_insert_eq|]. by rewrite lookup_insert_ne, lookup_delete_ne by lia.
  - case_decide; [subst; by rewrite Hj, Ei|done].
Qed.

Lemma move_entry_source {V} (d : gmap Z V) i j : i <> j -> move_entry (Z.of_nat i) (Z.of_nat j) d !! Z.of_nat i = None.
Proof.
  intros Hij. unfold move_entry. destruct (d !! Z.of_nat i) as [v|] eqn:E; [|done]. by rewrite lookup_insert_ne, lookup_delete_eq by lia.
Qed.

(** ** Block tables *)

Definition table_view (t : BlockTable) (k : nat) : option (list Z) :=
  n ← num_blocks_per_row t !! k ; row ← bt_rows t !! k ; Some (take (Z.to_nat n) row).
Definition table_wf (n : nat) (t : BlockTable) : Prop :=
  length (bt_rows t) = n /\ length (num_blocks_per_row t) = n /\ (exists w, (0 < w)%nat /\ width w (bt_rows t)) /\ forall x, x ∈ num_blocks_per_row t -> 0 <= x.

Lemma move_row_ok n t i j : table_wf n t -> (i < n)%nat -> (j < n)%nat ->
  exists t', move_row (Z.of_nat i) (Z.of_nat j) t = Ok t' /\ table_wf n t' /\ forall k, table_view t' k = table_view t (mv i j k).
Proof.
  intros (Hr & Hn & (w & Hw0 & Hw) & Hpos) Hi Hj. unfold move_row. destruct (lookup_lt_is_Some_2 (num_blocks_per_row t) i ltac:(lia)) as [x Hx].
  assert (0 <= x) by (apply Hpos; by eapply list_elem_of_lookup_2). rewrite (py_get_ok _ _ x Hx). cbn [mbind res_bind].
  destruct (np_move_prefix_ok w (bt_rows t) i j (fun k => default 0 (num_blocks_per_row t !! k)) x Hw) as (rows & -> & Hw' & Hl & Hv); try lia; [rewrite Hx; cbn; lia|].
  cbn [mbind res_bind]. rewrite np_set_ok by lia. cbn [mbind res_bind]. eexists. split; [reflexivity|]. split.
  - split; [cbn; lia|]. split; [cbn; by rewrite length_insert|]. split; [by exists w|]. cbn. intros z [k Hk]%list_elem_of_lookup.
    apply list_lookup_insert_Some in Hk as [(_ & <- & _)|[_ Hk]]; [done|]. apply Hpos. by eapply list_elem_of_lookup_2.
  - intros k. unfold table_view. cbn [num_blocks_per_row bt_rows]. destruct (decide (k < n)%nat) as [Hk|Hk].
    + specialize (Hv k ltac:(lia)). assert (Hnum : <[j := x]> (num_blocks_per_row t) !! k = num_blocks_per_row t !! mv i j k).
      { unfold mv. case_decide; [subst; rewrite list_lookup_insert_eq by lia; done|by rewrite list_lookup_insert_ne by done]. }
      rewrite Hnum. destruct (num_blocks_per_row t !! mv i j k) as [z|]; [|done]. cbn in Hv |- *.
      destruct (rows !! k), (bt_rows t !! mv i j k); cbn in *; congruence.
    + rewrite (lookup_ge_None_2 (<[j:=x]> _)) by (rewrite length_insert; lia). unfold mv. rewrite decide_False by lia.
      by rewrite (lookup_ge_None_2 (num_blocks_per_row t)) by lia.
Qed.

Lemma swap_row_ok n t i j : table_wf n t -> (i < n)%nat -> (j < n)%nat ->
  exists t', swap_row (Z.of_nat i) (Z.of_nat j) t = Ok t' /\ table_wf n t' /\ forall k, table_view t' k = table_view t (tr i j k).
Proof.
  intros (Hr & Hn & (w & Hw0 & Hw) & Hpos) Hi Hj. unfold swap_row.
  destruct (np_swap_reidx (num_blocks_per_row t) i j ltac:(lia) ltac:(lia)) as (nums & -> & Hln & Hvn). cbn [mbind res_bind].
  destruct (np_swap_reidx (bt_rows t) i j ltac:(lia) ltac:(lia)) as (rows & -> & Hlr & Hvr). cbn [mbind res_bind].
  assert (Htr : forall k, (k < n)%nat -> (tr i j k < n)%nat) by (intros k; unfold tr; repeat case_decide; lia).
  eexists. split; [reflexivity|]. split.
  - split; [cbn; lia|]. split; [cbn; lia|]. split.
    + exists w. split; [done|]. intros row [k Hk]%list_elem_of_lookup. cbn in Hk. pose proof (lookup_lt_Some _ _ _ Hk). rewrite Hvr in Hk by lia. by eapply width_lookup.
    + cbn. intros z [k Hk]%list_elem_of_lookup. pose proof (lookup_lt_Some _ _ _ Hk). rewrite Hvn in Hk by lia. apply Hpos. by eapply list_elem_of_lookup_2.
  - intros k. unfold table_view. cbn [num_blocks_per_row bt_rows]. destruct (decide (k < n)%nat) as [Hk|Hk]; [by rewrite Hvn, Hvr by lia|].
    rewrite (lookup_ge_None_2 nums) by lia. unfold tr. rewrite !decide_False by lia. by rewrite (lookup_ge_None_2 (num_blocks_per_row t)) by lia.
Qed.

Definition tables_view (ts : list BlockTable) (k : nat) : list (option (list Z)) := map (fun t => table_view t k) ts.

Lemma multi_ok (op : BlockTable -> res BlockTable) n f (Q : nat -> Prop) ts :
  (forall t, table_wf n t -> exists t', op t = Ok t' /\ table_wf n t' /\ forall k, Q k -> table_view t' k = table_view t (f k)) -> Forall (table_wf n) ts ->
  exists ts', mapM op ts = Ok ts' /\ Forall (table_wf n) ts' /\ forall k, Q k -> tables_view ts' k = tables_view ts (f k).
Proof.
  intros Hop. induction 1 as [|t ts Ht Hts (ts' & Hts' & Hwf & Hv)]; [exists []; by repeat split|].
  destruct (Hop t Ht) as (t' & Ht' & Hwf' & Hv'). exists (t' :: ts'). split; [cbn; by rewrite Ht', Hts'|]. split; [by constructor|].
  intros k Hk. unfold tables_view in *. cbn. by rewrite Hv', Hv.
Qed.

(** * What one row of the persistent batch shows, and the shape of its arrays. *)

Section Batch.
Context {Tensor Generator LoRA Pooling States Logprobs : Type}.
Context (len_tensor : Tensor -> Z) (lora_int_id : LoRA -> Z) (requires_token_ids : Pooling -> bool) (as_float32 : spec_float -> spec_float).
Context (max_num_reqs max_model_len vocab_size : Z) (is_pooling_model : bool).
Abbreviation InputBatch := (@InputBatch Tensor Generator LoRA Pooling States Logprobs).
Abbreviation condense_move := (@condense_move Tensor Generator LoRA Pooling States Logprobs is_pooling_model).
Abbreviation swap_states := (@swap_states Tensor Generator LoRA Pooling States Logprobs is_pooling_model).
Let N := Z.to_nat max_num_reqs.

(** ** What a row shows *)

Record RowView := mkView {
  rv_output : option (option Z);
  rv_spec : option (list Z);
  rv_tokens : option (list Z);
  rv_flags : option (list bool);
  rv_num_tokens : option Z;
  rv_num_prompt : option Z;
  rv_num_computed : option Z;
  rv_lora : option Z;
  rv_blocks : list (option (list Z));
  rv_sampling : option spec_float * option spec_float * option Z * option spec_float * option spec_float * option spec_float * option Z;
  rv_generator : option Generator;
  rv_bad_words : option (list (list Z))
}.

(** The tokens of the request and its drafts. *)
Definition active (b : InputBatch) (k : nat) : Z :=
  default 0 (num_tokens_no_spec (ib_rows b) !! k) + zlen (default [] (spec_token_ids (ib_ids b) !! k)).
Definition sampling_view (s : SamplingRows) (k : nat) :=
  (temperature_cpu s !! k, top_p_cpu s !! k, top_k_cpu s !! k, frequency_penalties_cpu s !! k, presence_penalties_cpu s !! k,
   repetition_penalties_cpu s !! k, num_accepted_tokens_cpu s !! k).
Definition view (b : InputBatch) (k : nat) : RowView :=
  mkView (req_output_token_ids (ib_ids b) !! k) (spec_token_ids (ib_ids b) !! k)
    (take (Z.to_nat (active b k)) <$> token_ids_cpu (ib_rows b) !! k) (take (Z.to_nat (active b k)) <$> is_token_ids (ib_rows b) !! k)
    (num_tokens_no_spec (ib_rows b) !! k) (num_prompt_tokens (ib_rows b) !! k) (num_computed_tokens_cpu (ib_rows b) !! k)
    (request_lora_mapping (ib_rows b) !! k) (tables_view (block_table b) k)
    (sampling_view (ib_sampling b) k) (generators (ib_dicts b) !! Z.of_nat k) (bad_words_token_ids (ib_dicts b) !! Z.of_nat k).

(** The requests of the batch by id. *)
Definition batch_map (b : InputBatch) : gmap string RowView := (fun i => view b (Z.to_nat i)) <$> req_id_to_index (ib_ids b).

(** ** Shapes *)

Record rows_shape (d : BatchRows) : Prop := {
  rs_tokens : length (token_ids_cpu d) = N;
  rs_tokens_width : width (Z.to_nat max_model_len) (token_ids_cpu d);
  rs_flags : length (is_token_ids d) = N;
  rs_flags_width : width (Z.to_nat max_model_len) (is_token_ids d);
  rs_num_tokens : length (num_tokens_no_spec d) = N;
  rs_num_pos : forall x, x ∈ num_tokens_no_spec d -> 0 <= x;
  rs_num_prompt : length (num_prompt_tokens d) = N;
  rs_prompt_pos : forall x, x ∈ num_prompt_tokens d -> 0 <= x;
  rs_num_computed : length (num_computed_tokens_cpu d) = N;
  rs_lora : length (request_lora_mapping d) = N
}.
Record sampling_shape (s : SamplingRows) : Prop := {
  ss_temperature : length (temperature_cpu s) = N;
  ss_top_p : length (top_p_cpu s) = N;
  ss_top_k : length (top_k_cpu s) = N;
  ss_frequency : length (frequency_penalties_cpu s) = N;
  ss_presence : length (presence_penalties_cpu s) = N;
  ss_repetition : length (repetition_penalties_cpu s) = N;
  ss_accepted : length (num_accepted_tokens_cpu s) = N
}.
Definition dicts_shape (d : @RowDicts Generator) : Prop := forall mask, allowed_token_ids_mask_cpu_tensor d = Some mask -> length mask = N.
Definition ids_shape (d : BatchIds) : Prop :=
  length (req_output_token_ids d) = length (_req_ids d) /\ (length (_req_ids d) <= length (spec_token_ids d))%nat /\ (length (_req_ids d) <= N)%nat.
Record shape (b : InputBatch) : Prop := {
  sh_ids : ids_shape (ib_ids b);
  sh_rows : rows_shape (ib_rows b);
  sh_tables : Forall (table_wf N) (block_table b);
  sh_sampling : sampling_shape (ib_sampling b);
  sh_dicts : dicts_shape (ib_dicts b);
  sh_needs : length (logits_processing_needs_token_ids (ib_pool b)) = N
}.

Lemma active_nonneg b k : rows_shape (ib_rows b) -> 0 <= active b k.
Proof.
  intros Hs. unfold active, zlen. destruct (num_tokens_no_spec (ib_rows b) !! k) as [x|] eqn:E; cbn; [|lia].
  apply list_elem_of_lookup_2 in E. pose proof (rs_num_pos _ Hs x E). lia.
Qed.

Lemma active_count_ok b k : shape b -> (k < length (_req_ids (ib_ids b)))%nat -> _get_active_token_count (Z.of_nat k) b = Ok (active b k).
Proof.
  intros [[Ho [Hs Hn]] Hr _ _ _ _] Hk. unfold _get_active_token_count, active.
  destruct (lookup_lt_is_Some_2 (num_tokens_no_spec (ib_rows b)) k) as [n Hnk]; [rewrite rs_num_tokens by done; lia|].
  destruct (lookup_lt_is_Some_2 (spec_token_ids (ib_ids b)) k ltac:(lia)) as [s Hsk].
  rewrite (py_get_ok _ _ _ Hnk), (py_get_ok _ _ _ Hsk), Hnk, Hsk. done.
Qed.

(** ** The arrays under a row map *)

Lemma reidx_pos f (a a' : list Z) : reidx f a a' -> (forall x, x ∈ a -> 0 <= x) -> forall x, x ∈ a' -> 0 <= x.
Proof.
  intros [Hl Hv] Hpos x [k Hk]%list_elem_of_lookup. pose proof (lookup_lt_Some _ _ _ Hk). rewrite Hv in Hk by lia.
  apply Hpos. by eapply list_elem_of_lookup_2.
Qed.

(** The scalar arrays, then the tokens as far as [n] counts them. *)
Definition rows_reidx (f : nat -> nat) (n : nat -> Z) (d d' : BatchRows) : Prop :=
  reidx f (num_tokens_no_spec d) (num_tokens_no_spec d') /\ reidx f (num_prompt_tokens d) (num_prompt_tokens d') /\
  reidx f (num_computed_tokens_cpu d) (num_computed_tokens_cpu d') /\ reidx f (request_lora_mapping d) (request_lora_mapping d') /\
  forall k, (k < N)%nat -> take (Z.to_nat (n (f k))) <$> token_ids_cpu d' !! k = take (Z.to_nat (n (f k))) <$> token_ids_cpu d !! f k /\
    take (Z.to_nat (n (f k))) <$> is_token_ids d' !! k = take (Z.to_nat (n (f k))) <$> is_token_ids d !! f k.

(** Row [k] shows what row [k'] showed, as far as [n] counts the tokens. *)
Definition rows_at (n : Z) (d d' : BatchRows) (k k' : nat) : Prop :=
  num_tokens_no_spec d' !! k = num_tokens_no_spec d !! k' /\ num_prompt_tokens d' !! k = num_prompt_tokens d !! k' /\
  num_computed_tokens_cpu d' !! k = num_computed_tokens_cpu d !! k' /\ request_lora_mapping d' !! k = request_lora_mapping d !! k' /\
  take (Z.to_nat n) <$> token_ids_cpu d' !! k = take (Z.to_nat n) <$> token_ids_cpu d !! k' /\
  take (Z.to_nat n) <$> is_token_ids d' !! k = take (Z.to_nat n) <$> is_token_ids d !! k'.

Lemma rows_reidx_at f n d d' k : rows_shape d -> rows_reidx f n d d' -> (k < N)%nat -> rows_at (n (f k)) d d' k (f k).
Proof.
  intros [] ([_ H1] & [_ H2] & [_ H3] & [_ H4] & H5) Hk. destruct (H5 k Hk) as [H6 H7]. unfold rows_at. rewrite H1, H2, H3, H4 by lia. done.
Qed.

(** The next array of a move or a swap. *)
Ltac array_step :=
  match goal with
  | |- context [np_move ?a (Z.of_nat ?i) (Z.of_nat ?j)] => destruct (np_move_reidx a i j ltac:(lia) ltac:(lia)) as (? & -> & ?); cbn [mbind res_bind]
  | |- context [np_swap ?a (Z.of_nat ?i) (Z.of_nat ?j)] => destruct (np_swap_reidx a i j ltac:(lia) ltac:(lia)) as (? & -> & ?); cbn [mbind res_bind]
  end.
Ltac lengths := repeat match goal with H : reidx _ _ _ |- _ => destruct H as [? _] end; lia.

Lemma rows_move_ok d i j n : rows_shape d -> (i < N)%nat -> (j < N)%nat -> 0 <= n i ->
  exists d', rows_move (Z.of_nat i) (Z.of_nat j) (n i) d = Ok d' /\ rows_shape d' /\ rows_reidx (mv i j) n d d'.
Proof.
  intros [Ht Hw Hf Hw' Hnt Hpos Hnp Hnpos Hnc Hl] Hi Hj Hn. unfold rows_move.
  destruct (np_move_prefix_ok _ (token_ids_cpu d) i j n (n i) Hw) as (toks & -> & Hw1 & Hl1 & Hv1); [lia..|]. cbn [mbind res_bind].
  destruct (np_move_prefix_ok _ (is_token_ids d) i j n (n i) Hw') as (flags & -> & Hw2 & Hl2 & Hv2); [lia..|]. cbn [mbind res_bind].
  repeat array_step. eexists. split; [reflexivity|]. split.
  - constructor; cbn; try done; try lengths; by eapply reidx_pos.
  - split; [done|]. split; [done|]. split; [done|]. split; [done|]. intros k Hk. split; [apply Hv1; lia|apply Hv2; lia].
Qed.

Lemma rows_swap_ok d i j n : rows_shape d -> (i < N)%nat -> (j < N)%nat -> i <> j -> 0 <= n i -> 0 <= n j ->
  exists d', rows_swap (Z.of_nat i) (Z.of_nat j) (Z.max (n i) (n j)) d = Ok d' /\ rows_shape d' /\ rows_reidx (tr i j) n d d'.
Proof.
  intros [Ht Hw Hf Hw' Hnt Hpos Hnp Hnpos Hnc Hl] Hi Hj Hij Hni Hnj. unfold rows_swap. do 3 array_step.
  destruct (np_swap_prefix_ok _ (token_ids_cpu d) i j n (Z.max (n i) (n j)) Hw) as (toks & -> & Hw1 & Hl1 & Hv1); [lia || done..|]. cbn [mbind res_bind].
  destruct (np_swap_prefix_ok _ (is_token_ids d) i j n (Z.max (n i) (n j)) Hw') as (flags & -> & Hw2 & Hl2 & Hv2); [lia || done..|]. cbn [mbind res_bind].
  array_step. eexists. split; [reflexivity|]. split.
  - constructor; cbn; try done; try lengths; by eapply reidx_pos.
  - split; [done|]. split; [done|]. split; [done|]. split; [done|]. intros k Hk. split; [apply Hv1; lia|apply Hv2; lia].
Qed.

Lemma sampling_move_ok s i j : sampling_shape s -> (i < N)%nat -> (j < N)%nat ->
  exists s', sampling_move (Z.of_nat i) (Z.of_nat j) s = Ok s' /\ sampling_shape s' /\ forall k, (k < N)%nat -> sampling_view s' k = sampling_view s (mv i j k).
Proof.
  intros [H1 H2 H3 H4 H5 H6 H7] Hi Hj. unfold sampling_move. repeat array_step.
  eexists. split; [reflexivity|]. split; [constructor; cbn; lengths|]. intros k Hk. unfold sampling_view. cbn.
  repeat match goal with H : reidx _ _ _ |- _ => destruct H as [_ H]; rewrite H by lia; clear H end. done.
Qed.

Lemma sampling_swap_ok s i j : sampling_shape s -> (i < N)%nat -> (j < N)%nat ->
  exists s', sampling_swap (Z.of_nat i) (Z.of_nat j) s = Ok s' /\ sampling_shape s' /\ forall k, (k < N)%nat -> sampling_view s' k = sampling_view s (tr i j k).
Proof.
  intros [H1 H2 H3 H4 H5 H6 H7] Hi Hj. unfold sampling_swap. repeat array_step.
  eexists. split; [reflexivity|]. split; [constructor; cbn; lengths|]. intros k Hk. unfold sampling_view. cbn.
  repeat match goal with H : reidx _ _ _ |- _ => destruct H as [_ H]; rewrite H by lia; clear H end. done.
Qed.
End Batch.
