(* ===== verification/BatchInv.v ===== *)
(** The invariant of the persistent batch: ids and rows correspond, the builder
    knows the empty rows, an empty row keeps nothing of the request it had. *)
From S2P Require Import Prelude PyRes PyFloat BatchUpdate BlockTable InputBatch BatchRows.
From stdpp Require Import sorting.
From Stdlib Require Import SpecFloat.
Local Open Scope Z_scope.

(** ** Ids and empty rows *)

Definition row_of (d : BatchIds) (k : nat) (r : string) : Prop := _req_ids d !! k = Some (Some r).
Definition index_ok (d : BatchIds) : Prop := forall r i, req_id_to_index d !! r = Some i <-> exists k, i = Z.of_nat k /\ row_of d k r.
(** The builder holds the empty rows, in descending order once it has sorted them. *)
Record holes_ok {P} (u : BatchUpdateBuilder P) (d : BatchIds) : Prop := {
  ho_nodup : NoDup (_removed u);
  ho_holes : forall i, i ∈ _removed u <-> exists k, i = Z.of_nat k /\ _req_ids d !! k = Some None;
  ho_sorted : _is_removed_sorted u = true -> StronglySorted (fun x y => y <= x) (_removed u)
}.

Lemma index_row d r k : index_ok d -> row_of d k r -> req_id_to_index d !! r = Some (Z.of_nat k).
Proof. intros H Hk. apply H. by exists k. Qed.

Lemma index_inj d r k k' : index_ok d -> row_of d k r -> row_of d k' r -> k = k'.
Proof. intros H Hk%(index_row _ _ _ H) Hk'%(index_row _ _ _ H). rewrite Hk in Hk'. injection Hk' as Hk'. lia. Qed.

Lemma elem_of_rows n i : i ∈ map Z.of_nat (seq 0 n) <-> exists k, i = Z.of_nat k /\ (k < n)%nat.
Proof.
  rewrite list_elem_of_fmap. split.
  - intros (k & -> & Hk%elem_of_seq). exists k. split; [done|lia].
  - intros (k & -> & Hk). exists k. split; [done|]. apply elem_of_seq. lia.
Qed.

(** Every row has a request or is empty. *)
Lemma batch_count {P} d (u : BatchUpdateBuilder P) : index_ok d -> holes_ok u d ->
  (size (req_id_to_index d) + length (_removed u))%nat = length (_req_ids d).
Proof.
  intros Hi [Hnd Hh _]. set (live := map snd (map_to_list (req_id_to_index d))).
  assert (Hl : forall i, i ∈ live <-> exists r, req_id_to_index d !! r = Some i).
  { intros i. unfold live. rewrite list_elem_of_fmap. split.
    - intros ([r j] & -> & Hj%elem_of_map_to_list). by exists r.
    - intros (r & Hr). exists (r, i). split; [done|]. by apply elem_of_map_to_list. }
  assert (Hndl : NoDup live).
  { unfold live. apply NoDup_fmap_2_strong; [|apply NoDup_map_to_list]. intros [r i] [r' i'] Hr Hr' E. cbn in E. subst i'.
    apply elem_of_map_to_list in Hr, Hr'. pose proof Hr as (k & -> & Hk)%Hi. pose proof Hr' as (k' & Ek & Hk')%Hi.
    assert (k = k') as -> by lia. unfold row_of in *. congruence. }
  assert (Hp : live ++ _removed u ≡ₚ map Z.of_nat (seq 0 (length (_req_ids d)))).
  { apply NoDup_Permutation.
    - apply NoDup_app. split; [done|]. split; [|done]. intros i (r & Hr)%Hl Hin. apply Hi in Hr as (k & -> & Hk). apply Hh in Hin as (k' & Ek & Hk').
      assert (k = k') as -> by lia. unfold row_of in Hk. congruence.
    - apply NoDup_fmap_2; [apply _|]. apply NoDup_seq.
    - intros i. rewrite elem_of_app, elem_of_rows, Hl, Hh. split.
      + intros [(r & (k & -> & Hk)%Hi)|(k & -> & Hk)]; exists k; (split; [done|]); by eapply lookup_lt_Some.
      + intros (k & -> & [x Hx]%lookup_lt_is_Some_2). destruct x as [r|]; [left|right; by exists k]. exists r. by apply index_row. }
  apply Permutation_length in Hp. rewrite length_app, length_map, length_seq in Hp. unfold live in Hp. rewrite length_map in Hp. by rewrite <-Hp, length_map_to_list.
Qed.

(** ** The builder *)

Section Builder.
Context {P : Type}.
Implicit Types (u : BatchUpdateBuilder P) (d : BatchIds).

Definition descending : list Z -> Prop := StronglySorted (fun x y => y <= x).
Definition sorted_ok u : Prop := _is_removed_sorted u = true -> descending (_removed u).

Lemma removed_sorted_ok u l u' : sorted_ok u -> removed_sorted u = (l, u') ->
  l = _removed u' /\ descending l /\ l ≡ₚ _removed u /\ added u' = added u /\ moved u' = moved u /\ _is_removed_sorted u' = true.
Proof.
  unfold removed_sorted, _ensure_removed_sorted. intros Ho. destruct (_is_removed_sorted u) eqn:E; intros [= <- <-].
  - repeat split; try done; by apply Ho.
  - cbn. set (l := merge_sort _ _). pose proof (merge_sort_Permutation (fun x y => y <= x) (_removed u) : l ≡ₚ _removed u) as Hp.
    assert (Hs : descending l) by (apply StronglySorted_merge_sort; [intros x y z; lia|intros x y; lia]). done.
Qed.

Lemma holes_perm u u' d : holes_ok u d -> _removed u' ≡ₚ _removed u -> sorted_ok u' -> holes_ok u' d.
Proof. intros [Hnd Hh _] Hp Hs. constructor; [by rewrite Hp|intros i; by rewrite Hp|done]. Qed.

Lemma sorted_last (l : list Z) x : descending (l ++ [x]) -> forall y, y ∈ l -> x <= y.
Proof.
  induction l as [|z l IH]; cbn; intros Hs y Hy; [by apply elem_of_nil in Hy|]. inversion Hs as [|? ? Hs' Hf]; subst.
  apply elem_of_cons in Hy as [->|Hy]; [|by apply IH]. rewrite Forall_forall in Hf. apply Hf, elem_of_app. right. by apply list_elem_of_singleton.
Qed.

Lemma sorted_init (l : list Z) x : descending (l ++ [x]) -> descending l.
Proof.
  induction l as [|z l IH]; cbn; intros Hs; [constructor|]. inversion Hs as [|? ? Hs' Hf]; subst. constructor; [by apply IH|].
  by apply Forall_app in Hf as [Hf _].
Qed.

(** What popping does on the sorted builder. *)
Lemma pop_removed_cases u : sorted_ok u ->
  (_removed u = [] /\ pop_removed u = (None, u)) \/
  exists l i u', pop_removed u = (Some i, u') /\ _removed u' = l /\ (_removed u) ≡ₚ l ++ [i] /\ descending l /\
    (forall y, y ∈ l -> i <= y) /\ added u' = added u /\ moved u' = moved u /\ _is_removed_sorted u' = true.
Proof.
  intros Ho. unfold pop_removed, has_removed. destruct (_removed u) as [|x0 l0] eqn:E; [by left|]. right.
  destruct (removed_sorted u) as [l' u1] eqn:Es. destruct (removed_sorted_ok u l' u1 Ho Es) as (-> & Hs & Hp & Ha & Hm & Hf).
  unfold removed_sorted in Es. injection Es as Es. rewrite Es in *. clear Es. rewrite E in Hp. destruct (_removed u1) as [|y l1] eqn:E1 using rev_ind.
  - apply Permutation_nil in Hp. done.
  - clear IHl1. rewrite removelast_last, last_snoc. eexists l1, y, _. split; [reflexivity|]. cbn. split; [done|]. split; [by symmetry|].
    split; [by eapply sorted_init|]. split; [by apply sorted_last|].
    by rewrite H.
Qed.

Lemma peek_removed_sorted u l u' : removed_sorted u = (l, u') -> l <> [] -> peek_removed u' = (last l, u') /\ (pop_removed u').1 = last l.
Proof.
  unfold removed_sorted. intros [= <- <-] Hl. unfold peek_removed, pop_removed, has_removed.
  assert (Hid : _ensure_removed_sorted (_ensure_removed_sorted u) = _ensure_removed_sorted u).
  { unfold _ensure_removed_sorted. destruct (_is_removed_sorted u) eqn:E; [by rewrite E|done]. }
  rewrite Hid. by destruct (_removed (_ensure_removed_sorted u)).
Qed.
End Builder.

(** ** The batch *)

Section Batch.
Context {Tensor Generator LoRA Pooling States Logprobs : Type} (max_num_reqs max_model_len : Z).
Abbreviation InputBatch := (@InputBatch Tensor Generator LoRA Pooling States Logprobs).
Let N := Z.to_nat max_num_reqs.
Implicit Types b : InputBatch.

Definition live b (k : nat) : Prop := exists r, row_of (ib_ids b) k r.
Record batch_ok b : Prop := {
  bo_shape : shape max_num_reqs max_model_len b;
  bo_index : index_ok (ib_ids b);
  bo_empty : forall k, ~ live b k -> generators (ib_dicts b) !! Z.of_nat k = None /\ bad_words_token_ids (ib_dicts b) !! Z.of_nat k = None /\
    default [] (spec_token_ids (ib_ids b) !! k) = [];
  bo_lora : forall r v n, batch_map b !! r = Some v -> rv_lora v = Some n -> n <> 0 ->
    exists s, lora_id_to_request_ids (ib_lora b) !! n = Some s /\ r ∈ s /\ is_Some (lora_id_to_lora_request (ib_lora b) !! n)
}.

Lemma row_lt b k o : batch_ok b -> _req_ids (ib_ids b) !! k = Some o -> (k < length (_req_ids (ib_ids b)))%nat /\ (k < N)%nat.
Proof. intros Hb Hk%lookup_lt_Some. destruct (sh_ids _ _ _ (bo_shape b Hb)) as (_ & _ & H). split; [done|]. fold N in H. lia. Qed.

Lemma batch_map_row b r k : batch_ok b -> row_of (ib_ids b) k r -> batch_map b !! r = Some (view b k).
Proof. intros Hb Hk. unfold batch_map. rewrite lookup_fmap, (index_row _ _ _ (bo_index b Hb) Hk). cbn. by rewrite Nat2Z.id. Qed.

Lemma batch_map_Some b r v : index_ok (ib_ids b) -> batch_map b !! r = Some v -> exists k, row_of (ib_ids b) k r /\ v = view b k.
Proof.
  intros Hi. unfold batch_map. rewrite lookup_fmap. intros (i & (k & -> & Hk)%Hi & ->)%fmap_Some. exists k. split; [done|]. by rewrite Nat2Z.id.
Qed.

Lemma view_eq b b' k k' :
  req_output_token_ids (ib_ids b') !! k = req_output_token_ids (ib_ids b) !! k' -> spec_token_ids (ib_ids b') !! k = spec_token_ids (ib_ids b) !! k' ->
  rows_at (active b k') (ib_rows b) (ib_rows b') k k' -> tables_view (block_table b') k = tables_view (block_table b) k' ->
  sampling_view (ib_sampling b') k = sampling_view (ib_sampling b) k' ->
  generators (ib_dicts b') !! Z.of_nat k = generators (ib_dicts b) !! Z.of_nat k' ->
  bad_words_token_ids (ib_dicts b') !! Z.of_nat k = bad_words_token_ids (ib_dicts b) !! Z.of_nat k' -> view b' k = view b k'.
Proof.
  intros Ho Hsp (Hn & Hp & Hc & Hl & Ht & Hf) Hb Hsam Hg Hw. unfold view. rewrite Hn, Hp, Hc, Hl, Ho, Hsp, Hb, Hsam, Hg, Hw.
  assert (Ha : active b' k = active b k') by (unfold active; by rewrite Hsp, Hn). by rewrite Ha, Ht, Hf.
Qed.

(** The rows may be permuted. *)
Lemma batch_map_reidx f b b' : index_ok (ib_ids b) -> index_ok (ib_ids b') ->
  (forall r k, row_of (ib_ids b') k r -> row_of (ib_ids b) (f k) r /\ view b' k = view b (f k)) ->
  (forall r k, row_of (ib_ids b) k r -> exists k', row_of (ib_ids b') k' r) -> batch_map b' = batch_map b.
Proof.
  intros Hi Hi' Hv Hr. apply map_eq. intros r. apply option_eq. intros v. split.
  - intros (k & Hk & ->)%(batch_map_Some _ _ _ Hi'). destruct (Hv r k Hk) as [Hf ->]. unfold batch_map.
    by rewrite lookup_fmap, (index_row _ _ _ Hi Hf); cbn; rewrite Nat2Z.id.
  - intros (k & Hk & ->)%(batch_map_Some _ _ _ Hi). destruct (Hr r k Hk) as (k' & Hk'). destruct (Hv r k' Hk') as [Hf Ev].
    rewrite (index_inj _ _ _ _ Hi Hk Hf), <-Ev. unfold batch_map. by rewrite lookup_fmap, (index_row _ _ _ Hi' Hk'); cbn; rewrite Nat2Z.id.
Qed.

(** *** Moving a row *)

Lemma row_move d i j r k x : row_of d i r -> _req_ids d !! j = Some None -> <[i := None]> (<[j := Some r]> (_req_ids d)) !! k = Some (Some x) ->
  k <> i /\ row_of d (mv i j k) x.
Proof.
  intros Hi Hj. pose proof (lookup_lt_Some _ _ _ Hi). pose proof (lookup_lt_Some _ _ _ Hj). unfold row_of, mv in *.
  rewrite list_lookup_insert_Some. intros [(_ & ? & _)|[Hki Hk]]; [done|]. split; [done|].
  apply list_lookup_insert_Some in Hk as [(-> & [= ->] & _)|[Hjk Hk]]; [by rewrite decide_True|]. by rewrite decide_False by done.
Qed.

Lemma ids_move_ok d i j r : ids_shape max_num_reqs d -> index_ok d -> row_of d i r -> _req_ids d !! j = Some None ->
  exists d', ids_move (Z.of_nat i) (Z.of_nat j) d = Ok d' /\ ids_shape max_num_reqs d' /\ index_ok d' /\
    _req_ids d' = <[i := None]> (<[j := Some r]> (_req_ids d)) /\ spec_token_ids d' !! i = Some [] /\
    forall k, k <> i -> req_output_token_ids d' !! k = req_output_token_ids d !! mv i j k /\ spec_token_ids d' !! k = spec_token_ids d !! mv i j k.
Proof.
  intros (Hlo & Hls & Hln) Hx Hi Hj. pose proof (lookup_lt_Some _ _ _ Hi) as Hil. pose proof (lookup_lt_Some _ _ _ Hj) as Hjl.
  assert (Hij : i <> j) by (intros ->; unfold row_of in Hi; congruence).
  destruct (lookup_lt_is_Some_2 (req_output_token_ids d) i ltac:(lia)) as [o Ho].
  destruct (lookup_lt_is_Some_2 (spec_token_ids d) i ltac:(lia)) as [s Hs]. destruct (lookup_lt_is_Some_2 (spec_token_ids d) j ltac:(lia)) as [s' Hs'].
  unfold ids_move. rewrite (py_get_ok _ _ _ Hi), (py_get_ok _ _ _ Ho). cbn [mbind res_bind].
  do 4 (rewrite np_set_ok by (rewrite ?length_insert; lia); cbn [mbind res_bind]). rewrite (np_swap_ok _ _ _ _ _ Hs Hs'). cbn [mbind res_bind].
  rewrite np_set_ok by (rewrite !length_insert; lia). cbn [mbind res_bind]. eexists. split; [reflexivity|].
  split; [split; [cbn; by rewrite !length_insert|]; split; cbn; rewrite !length_insert; lia|]. split.
  - intros x n. cbn. rewrite lookup_insert_Some. split.
    + intros [[<- <-]|[Hr Hn]].
      * exists j. split; [done|]. unfold row_of. cbn. by rewrite list_lookup_insert_ne, list_lookup_insert_eq by done.
      * apply Hx in Hn as (k & -> & Hk). exists k. split; [done|]. unfold row_of in *. cbn.
        rewrite !list_lookup_insert_ne; [done|intros ->; congruence..].
    + intros (k & -> & Hk). unfold row_of in Hk. cbn in Hk. pose proof Hk as [Hki Hm]%(row_move d i j r k x Hi Hj). unfold mv in Hm.
      destruct (decide (k = j)) as [->|Hkj].
      * left. unfold row_of in *. rewrite Hi in Hm. by injection Hm as ->.
      * right. split; [|by apply index_row]. intros ->. apply Hki. by eapply index_inj.
  - split; [done|]. cbn. split; [by rewrite list_lookup_insert_eq by (rewrite !length_insert; lia)|]. intros k Hki. unfold mv.
    rewrite !(list_lookup_insert_ne _ i k) by done. split.
    + case_decide; [subst|by rewrite list_lookup_insert_ne by done]. rewrite list_lookup_insert_eq by lia. done.
    + case_decide; [subst|by rewrite !list_lookup_insert_ne by done]. by rewrite list_lookup_insert_eq by (rewrite length_insert; lia).
Qed.

Lemma dicts_move_ok (d : @RowDicts Generator) i j : dicts_shape max_num_reqs d -> (i < N)%nat -> (j < N)%nat ->
  exists d', dicts_move (Z.of_nat i) (Z.of_nat j) d = Ok d' /\ dicts_shape max_num_reqs d' /\
    generators d' = move_entry (Z.of_nat i) (Z.of_nat j) (generators d) /\ bad_words_token_ids d' = move_entry (Z.of_nat i) (Z.of_nat j) (bad_words_token_ids d).
Proof.
  intros Hd Hi Hj. unfold dicts_move, dicts_shape in *. destruct (allowed_token_ids_mask_cpu_tensor d) as [mask|] eqn:E; [|by eexists].
  specialize (Hd mask eq_refl). destruct (np_move_reidx mask i j ltac:(lia) ltac:(lia)) as (mask' & -> & Hl & _). cbn [mbind res_bind].
  eexists. split; [reflexivity|]. split; [intros m [= <-]; lia|done].
Qed.

Lemma condense_move_ok b i j r : batch_ok b -> row_of (ib_ids b) i r -> _req_ids (ib_ids b) !! j = Some None ->
  exists b', condense_move false (Z.of_nat i) (Z.of_nat j) b = Ok b' /\ batch_ok b' /\ batch_map b' = batch_map b /\
    _req_ids (ib_ids b') = <[i := None]> (<[j := Some r]> (_req_ids (ib_ids b))) /\
    batch_update_builder b' = add_moved (Z.of_nat i, Z.of_nat j, UNIDIRECTIONAL) (batch_update_builder b).
Proof.
  intros Hb Hi Hj. pose proof (row_lt _ _ _ Hb Hi) as [Hil HiN]. pose proof (row_lt _ _ _ Hb Hj) as [_ HjN].
  destruct Hb as [Hs Hx He Hlora]. pose proof Hs as [Sids Srows Stab Ssam Sdict Sneed]. unfold condense_move. rewrite (active_count_ok _ _ _ i Hs Hil). cbn [mbind res_bind].
  destruct (ids_move_ok _ i j r Sids Hx Hi Hj) as (ids & -> & Si & Xi & Eids & Espec & Vids). cbn [mbind res_bind].
  destruct (rows_move_ok _ _ _ i j (active b) Srows HiN HjN ltac:(by eapply active_nonneg)) as (rows & -> & Sr & Vr). cbn [mbind res_bind].
  destruct (multi_ok (move_row (Z.of_nat i) (Z.of_nat j)) N (mv i j) (fun _ => True) (block_table b)) as (ts & Ets & St & Vt).
  { intros t Ht. destruct (move_row_ok N t i j Ht HiN HjN) as (t' & ? & ? & ?). by exists t'. } { done. }
  unfold multi_move_row. rewrite Ets. cbn [mbind res_bind].
  destruct (sampling_move_ok _ _ i j Ssam HiN HjN) as (sam & -> & Ss & Vs). cbn [mbind res_bind].
  destruct (dicts_move_ok _ i j Sdict HiN HjN) as (dic & -> & Sd & Eg & Ew). cbn [mbind res_bind].
  eexists. split; [reflexivity|]. set (b' := mkBatch _ _ _ _ _ _ _ _ _ _ _).
  destruct (He j) as (Gj & Wj & _); [intros (x & Hr); unfold row_of in Hr; congruence|].
  assert (Hv : forall k, k <> i -> (k < N)%nat -> view b' k = view b (mv i j k)).
  { intros k Hki Hk. destruct (Vids k Hki) as [Vo Vsp]. apply view_eq; try done; cbn.
    - by eapply rows_reidx_at.
    - by apply Vt.
    - by apply Vs.
    - rewrite Eg. by apply move_entry_lookup.
    - rewrite Ew. by apply move_entry_lookup. }
  assert (Hrow : forall x k, row_of (ib_ids b') k x -> k <> i /\ row_of (ib_ids b) (mv i j k) x).
  { intros x k Hk. unfold row_of in Hk. cbn in Hk. rewrite Eids in Hk. by eapply row_move. }
  assert (Hmap : batch_map b' = batch_map b).
  { apply (batch_map_reidx (mv i j)); [done..| |].
    - intros x k Hk. pose proof Hk as Hlt%lookup_lt_Some. cbn in Hlt. rewrite Eids, !length_insert in Hlt. destruct Sids as (_ & _ & HN). fold N in HN.
      destruct (Hrow x k Hk) as [Hki Hm]. split; [done|]. apply Hv; [done|lia].
    - intros x k Hk. destruct (decide (k = i)) as [->|Hki].
      + exists j. unfold row_of in *. cbn. rewrite Eids, list_lookup_insert_ne, list_lookup_insert_eq; [congruence|by eapply lookup_lt_Some|congruence].
      + exists k. unfold row_of in *. cbn. rewrite Eids, !list_lookup_insert_ne; congruence. }
  split; [|by split; [|split]]. constructor.
  - constructor; done.
  - done.
  - intros k Hk. cbn. rewrite Eg, Ew. destruct (decide (k = i)) as [->|Hki].
    + assert (Hij : i <> j) by (intros ->; unfold row_of in Hi; congruence). by rewrite !move_entry_source, Espec by done.
    + rewrite !move_entry_lookup by done. destruct (Vids k Hki) as [_ ->]. apply He. intros (x & Hr). apply Hk. exists x. unfold row_of in *. cbn. rewrite Eids.
      unfold mv in Hr. case_decide as E; [subst k|by rewrite !list_lookup_insert_ne by congruence].
      rewrite list_lookup_insert_ne, list_lookup_insert_eq by (by eapply lookup_lt_Some || congruence). congruence.
  - rewrite Hmap. apply Hlora.
Qed.
End Batch.

(** * A logits processor that follows the updates of the batch: its entries agree
    with the requests in the rows. *)

Section Sync.
Context {P T : Type} (new_state : P -> option T).
Implicit Types (u : BatchUpdateBuilder P) (E : gmap Z T) (S : gmap string T).

(** ** The changes a builder has collected *)

Definition drop_removed (R : list Z) E : gmap Z T := foldl (fun m i => delete i m) E R.
Definition pending E u : gmap Z T :=
  foldl process_moved (drop_removed (_removed u) (foldl (process_added new_state) E (added u))) (moved u).

Lemma drop_removed_empty R : drop_removed R ∅ = ∅.
Proof. induction R as [|i R IH]; [done|]. unfold drop_removed in *. cbn. by rewrite delete_empty. Qed.

Lemma process_moved_empty m : process_moved (∅ : gmap Z T) m = ∅.
Proof. destruct m as [[a b] d]. unfold process_moved. rewrite lookup_empty, !delete_empty, lookup_empty. by destruct d. Qed.

Lemma process_dict_updates_pending E n u : process_dict_updates new_state E (get_and_reset n u).1 = pending E u.
Proof.
  assert (Hm : forall M, foldl process_moved (∅ : gmap Z T) M = ∅) by (induction M as [|m M IH]; [done|]; cbn [foldl]; by rewrite process_moved_empty).
  unfold get_and_reset, pending, process_dict_updates. destruct (_removed u) as [|i R] eqn:ER, (moved u) as [|m M] eqn:EM, (added u) as [|a A] eqn:EA; try done;
    cbn [fst bu_added bu_removed bu_moved]; rewrite ?ER, ?EM, ?EA; (case_decide as H0; [|done]); by rewrite H0, drop_removed_empty, Hm.
Qed.

Lemma drop_removed_lookup R E k : drop_removed R E !! k = if decide (k ∈ R) then None else E !! k.
Proof.
  revert E. induction R as [|i R IH]; intros E; [done|]. unfold drop_removed in *. cbn [foldl]. rewrite IH. destruct (decide (k ∈ R)) as [H|H].
  - rewrite decide_True; [done|by right].
  - destruct (decide (k = i)) as [->|Hki]; [rewrite lookup_delete_eq, decide_True; [done|left]|].
    rewrite lookup_delete_ne, decide_False by (done || (intros [?|?]%elem_of_cons; done)). done.
Qed.

Lemma process_moved_lookup E a b d k :
  process_moved E (a, b, d) !! k = if decide (k = b) then E !! a else if decide (k = a) then match d with SWAP => E !! b | UNIDIRECTIONAL => None end else E !! k.
Proof.
  unfold process_moved. destruct (decide (a = b)) as [->|Hab].
  - rewrite lookup_delete_eq. destruct (E !! b) eqn:Eb; repeat case_decide; subst; rewrite ?lookup_insert_eq, ?lookup_insert_ne, ?lookup_delete_eq, ?lookup_delete_ne by done; done.
  - rewrite lookup_delete_ne by done. repeat case_decide; subst; destruct (E !! a) eqn:Ea; destruct (E !! b) eqn:Eb; destruct d;
      repeat first [rewrite lookup_insert_eq|rewrite lookup_insert_ne by done|rewrite lookup_delete_eq|rewrite lookup_delete_ne by done]; congruence.
Qed.

(** Entries that a move does not read do not matter. *)
Definition agree_but (j : Z) E E' : Prop := forall k, k <> j -> E !! k = E' !! k.

Lemma process_moved_agree j E E' m : agree_but j E E' -> m.1.1 <> j -> m.1.2 <> j -> agree_but j (process_moved E m) (process_moved E' m).
Proof.
  intros H Ha Hb k Hk. destruct m as [[a b] d]. cbn in Ha, Hb. rewrite !process_moved_lookup, (H a), (H b), (H k) by done. done.
Qed.

Lemma moves_agree j E E' M : agree_but j E E' -> (forall m, m ∈ M -> m.1.1 <> j /\ m.1.2 <> j) -> agree_but j (foldl process_moved E M) (foldl process_moved E' M).
Proof.
  revert E E'. induction M as [|m M IH]; intros E E' H HM; [done|]. cbn [foldl]. apply IH; [|intros m' Hm'; apply HM; by right].
  destruct (HM m ltac:(left)). by apply process_moved_agree.
Qed.

(** ** Agreement with the rows *)

Definition row_state S (ids : list (option string)) (k : nat) : option T := o ← ids !! k ; r ← o ; S !! r.
(** The entries, once the collected changes are applied, are those of the requests. *)
Definition in_sync S E u (ids : list (option string)) : Prop := forall k : nat, pending E u !! Z.of_nat k = row_state S ids k.
Definition moved_ok u : Prop := forall m, m ∈ moved u -> m.1.1 ∉ _removed u /\ m.1.2 ∉ _removed u.

Lemma row_state_insert S (ids : list (option string)) i o k : (i < length ids)%nat ->
  row_state S (<[i := o]> ids) k = if decide (k = i) then r ← o ; S !! r else row_state S ids k.
Proof.
  intros Hi. unfold row_state. case_decide as Hk; [subst; by rewrite list_lookup_insert_eq by done|by rewrite list_lookup_insert_ne by done].
Qed.

Lemma in_sync_perm S E u u' ids : _removed u' ≡ₚ _removed u -> added u' = added u -> moved u' = moved u -> in_sync S E u ids -> in_sync S E u' ids.
Proof.
  intros Hp Ha Hm H k. rewrite <-H. unfold pending. rewrite Ha, Hm. do 2 f_equal. apply map_eq. intros i. rewrite !drop_removed_lookup.
  by repeat case_decide; rewrite ?Hp in *.
Qed.

(** A row is emptied. *)
Lemma in_sync_remove S E u u' ids i r : in_sync S E u ids -> added u' = added u -> moved u = [] -> moved u' = [] -> _removed u' = _removed u ++ [Z.of_nat i] ->
  ids !! i = Some (Some r) -> (forall k, ids !! k = Some (Some r) -> k = i) -> in_sync (delete r S) E u' (<[i := None]> ids).
Proof.
  intros H Ha Hm Hm' Hr Hi Hu k. specialize (H k). unfold pending in *. rewrite Ha, Hm', Hr. rewrite Hm in H. cbn [foldl] in *.
  rewrite row_state_insert by (by eapply lookup_lt_Some). rewrite drop_removed_lookup in *. destruct (decide (k = i)) as [->|Hk].
  - rewrite decide_True; [done|]. apply elem_of_app. right. by apply list_elem_of_singleton.
  - replace (row_state (delete r S) ids k) with (row_state S ids k).
    + rewrite <-H. assert (Hin : Z.of_nat k ∈ _removed u ++ [Z.of_nat i] <-> Z.of_nat k ∈ _removed u) by (rewrite elem_of_app, list_elem_of_singleton; lia || (split; [intros [?|?]; [done|lia]|tauto])).
      repeat case_decide; tauto.
    + unfold row_state. destruct (ids !! k) as [[x|]|] eqn:Ek; cbn; try done. destruct (decide (x = r)) as [->|Hx]; [by apply Hu in Ek|].
      by rewrite lookup_delete_ne by done.
Qed.

Definition new_request_state S (r : string) (p : P) : gmap string T := match new_state p with Some st => <[r := st]> S | None => delete r S end.

Lemma new_request_lookup S r p x : new_request_state S r p !! x = if decide (x = r) then new_state p else S !! x.
Proof.
  unfold new_request_state. destruct (new_state p) eqn:E; case_decide; subst; rewrite ?lookup_insert_eq, ?lookup_delete_eq, ?lookup_insert_ne, ?lookup_delete_ne by done; done.
Qed.

(** A request gets a row: an empty one, or the next. *)
Lemma in_sync_add S E u u' ids ids' i r p : in_sync S E u ids -> moved u = [] -> moved u' = [] -> added u' = added u ++ [(Z.of_nat i, p)] ->
  Z.of_nat i ∉ _removed u' -> (forall j, j <> Z.of_nat i -> j ∈ _removed u' <-> j ∈ _removed u) ->
  ids' !! i = Some (Some r) -> (forall k, k <> i -> ids' !! k = ids !! k) -> (forall k, ids !! k = Some (Some r) -> False) ->
  in_sync (new_request_state S r p) E u' ids'.
Proof.
  intros H Hm Hm' Ha Hi Hr Hids Hids' Hu k. specialize (H k). unfold pending in *. rewrite Ha, Hm'. rewrite Hm in H. cbn [foldl] in *.
  rewrite foldl_app. cbn [foldl]. rewrite drop_removed_lookup in *. unfold row_state in *. destruct (decide (k = i)) as [->|Hk].
  - rewrite decide_False, Hids by done. cbn. rewrite new_request_lookup, decide_True by done. unfold process_added. cbn.
    destruct (new_state p); [by rewrite lookup_insert_eq|by rewrite lookup_delete_eq].
  - rewrite Hids' by done. assert (Hl : forall X : gmap Z T, process_added new_state X (Z.of_nat i, p) !! Z.of_nat k = X !! Z.of_nat k).
    { intros X. unfold process_added. cbn. destruct (new_state p); [by rewrite lookup_insert_ne by lia|by rewrite lookup_delete_ne by lia]. }
    rewrite Hl. transitivity (o ← ids !! k ; r ← o ; S !! r).
    + rewrite <-H. specialize (Hr (Z.of_nat k) ltac:(lia)). repeat case_decide; tauto.
    + destruct (ids !! k) as [[x|]|] eqn:Ek; cbn; try done. rewrite new_request_lookup, decide_False; [done|]. intros ->. by apply (Hu k).
Qed.

(** A row moves into an empty one. *)
Lemma in_sync_move S E u u' ids i j r l : in_sync S E u ids -> _removed u ≡ₚ l ++ [Z.of_nat j] -> moved_ok u -> added u' = added u ->
  moved u' = moved u ++ [(Z.of_nat i, Z.of_nat j, UNIDIRECTIONAL)] -> _removed u' = l -> Z.of_nat j ∉ l ->
  ids !! i = Some (Some r) -> ids !! j = Some None -> in_sync S E u' (<[i := None]> (<[j := Some r]> ids)).
Proof.
  intros H Hp Hmok Ha Hm Hr Hj Hi Hjn k. assert (Hij : i <> j) by congruence.
  pose proof (lookup_lt_Some _ _ _ Hi). pose proof (lookup_lt_Some _ _ _ Hjn).
  assert (Hag : agree_but (Z.of_nat j) (foldl process_moved (drop_removed l (foldl (process_added new_state) E (added u))) (moved u)) (pending E u)).
  { apply moves_agree.
    - intros x Hx. rewrite !drop_removed_lookup. assert (Hin : x ∈ _removed u <-> x ∈ l) by (rewrite Hp, elem_of_app, list_elem_of_singleton; tauto).
      repeat case_decide; tauto.
    - intros m Hin. destruct (Hmok m Hin) as [Hm1 Hm2]. rewrite Hp, elem_of_app, list_elem_of_singleton in Hm1, Hm2. split; intros E'; tauto. }
  unfold pending at 1. rewrite Ha, Hm, Hr, foldl_app. cbn [foldl]. rewrite process_moved_lookup.
  rewrite !row_state_insert by (rewrite ?length_insert; lia). destruct (decide (k = j)) as [->|Hkj].
  - rewrite decide_True, decide_False by done. rewrite Hag, H by lia. unfold row_state. by rewrite Hi.
  - rewrite decide_False by lia. destruct (decide (k = i)) as [->|Hki]; [by rewrite decide_True by done|].
    rewrite decide_False by lia. rewrite Hag, H by lia. done.
Qed.

(** Two rows change places. *)
Lemma in_sync_swap S E u u' ids ids' i j : in_sync S E u ids -> _removed u' = _removed u -> added u' = added u ->
  moved u' = moved u ++ [(Z.of_nat i, Z.of_nat j, SWAP)] -> (forall k, ids' !! k = ids !! tr i j k) -> in_sync S E u' ids'.
Proof.
  intros H Hr Ha Hm Hids k. unfold pending. rewrite Hr, Ha, Hm, foldl_app. cbn [foldl]. rewrite process_moved_lookup.
  fold (pending E u). unfold row_state in *. rewrite Hids. unfold tr, in_sync, row_state in *.
  destruct (decide (k = j)) as [->|Hkj].
  - rewrite decide_True by done. rewrite H. case_decide; [by subst|done].
  - rewrite decide_False by lia. destruct (decide (k = i)) as [->|Hki]; [by rewrite decide_True by done|]. by rewrite decide_False by lia.
Qed.
End Sync.

(** * [condense]: it ends without an error, and leaves every request, in as many rows
    as there are requests. *)

(** ** The largest row that is not empty *)

Lemma skip_empty_ok fuel R (L : Z) : (length (filter (fun i : Z => (i <= L)%Z) R) < fuel)%nat ->
  skip_empty fuel R L <= L /\ skip_empty fuel R L ∉ R /\ forall i, skip_empty fuel R L < i <= L -> i ∈ R.
Proof.
  revert L. induction fuel as [|fuel IH]; intros L Hf; [lia|]. cbn [skip_empty]. case_decide as HL; [|split; [lia|]; split; [done|lia]].
  destruct (IH (L - 1)) as (H1 & H2 & H3).
  - assert (length (filter (fun i : Z => (i <= L - 1)%Z) R) < length (filter (fun i : Z => (i <= L)%Z) R))%nat; [|lia].
    rewrite <-(list_filter_filter_l (fun i : Z => (i <= L - 1)%Z) (fun i : Z => (i <= L)%Z)) by lia.
    apply (length_filter_lt _ _ L); [|lia]. by apply list_elem_of_filter.
  - split; [lia|]. split; [done|]. intros i Hi. destruct (decide (i = L)) as [->|]; [done|]. apply H3. lia.
Qed.

Section Condense.
Context {Tensor Generator LoRA Pooling States Logprobs T : Type} (max_num_reqs max_model_len : Z) (new_state : AddedParams -> option T).
Abbreviation InputBatch := (@InputBatch Tensor Generator LoRA Pooling States Logprobs).
Abbreviation batch_ok := (@batch_ok Tensor Generator LoRA Pooling States Logprobs max_num_reqs max_model_len).
Implicit Types (b : InputBatch) (S : gmap string T) (E : gmap Z T).
Abbreviation rows b := (_req_ids (ib_ids b)).
Abbreviation builder b := (batch_update_builder b).

(** Requests may still be removed or added. *)
Record open_batch S E b : Prop := {
  op_ok : batch_ok b;
  op_holes : holes_ok (builder b) (ib_ids b);
  op_sync : in_sync new_state S E (builder b) (rows b);
  op_moved : moved (builder b) = []
}.
(** Every row has a request. *)
Record compact S E b : Prop := {
  cp_ok : batch_ok b;
  cp_rows : forall k, (k < length (rows b))%nat -> live b k;
  cp_sync : in_sync new_state S E (builder b) (rows b)
}.

(** Rows above [last] are empty; below it the builder knows the empty ones. *)
Record condensing S E (last : Z) b : Prop := {
  cd_ok : batch_ok b;
  cd_sync : in_sync new_state S E (builder b) (rows b);
  cd_moved : moved_ok (builder b);
  cd_nodup : NoDup (_removed (builder b));
  cd_sorted : sorted_ok (builder b);
  cd_holes : forall i, i ∈ _removed (builder b) -> exists k, i = Z.of_nat k /\ rows b !! k = Some None;
  cd_below : forall k, Z.of_nat k <= last -> rows b !! k = Some None -> Z.of_nat k ∈ _removed (builder b);
  cd_above : forall k, last < Z.of_nat k -> ~ live b k;
  cd_length : last < zlen (rows b)
}.

Lemma row_cases b k : Z.of_nat k < zlen (rows b) -> live b k \/ rows b !! k = Some None.
Proof.
  intros Hk. destruct (lookup_lt_is_Some_2 (rows b) k) as [[r|] Hr]; [unfold zlen in Hk; lia|left; by exists r|by right].
Qed.

Lemma not_live_none b k : rows b !! k = Some None -> ~ live b k.
Proof. intros Hk (r & Hr). unfold row_of in Hr. congruence. Qed.

Lemma live_map b k : batch_ok b -> live b k -> exists r, is_Some (batch_map b !! r).
Proof. intros Hb (r & Hr). exists r. by rewrite (batch_map_row _ _ _ _ _ Hb Hr). Qed.

Lemma map_live b r : batch_ok b -> is_Some (batch_map b !! r) -> exists k, live b k.
Proof. intros Hb [v (k & Hk & _)%(batch_map_Some _ _ _ (bo_index _ _ _ Hb))]. exists k. by exists r. Qed.

(** The state with another builder that holds the same changes. *)
Lemma batch_ok_builder b u : batch_ok b -> batch_ok (set_builder u b).
Proof. intros [[] ? ? ?]. constructor; done. Qed.

(** One round of the loop. *)
Lemma condense_round S E last b l (i j : nat) u : condensing S E last b -> _removed (builder b) ≡ₚ l ++ [Z.of_nat j] -> descending l ->
  _removed u = l -> added u = added (builder b) -> moved u = moved (builder b) -> Z.of_nat i ∉ _removed (builder b) ->
  (j < i)%nat -> Z.of_nat i <= last -> (forall k, Z.of_nat i < Z.of_nat k <= last -> Z.of_nat k ∈ _removed (builder b)) ->
  exists b', condense_move false (Z.of_nat i) (Z.of_nat j) (set_builder u b) = Ok b' /\ condensing S E (Z.of_nat i - 1) b' /\
    batch_map b' = batch_map b /\ _removed (builder b') = l.
Proof.
  intros [Hok Hsync Hmok Hnd Hso Hho Hbe Hab Hlen] Hp Hl Hu Hua Hum Hi Hji Hil Hsk.
  assert (Hj : rows b !! j = Some None).
  { destruct (Hho (Z.of_nat j)) as (k & Ek & Hk); [rewrite Hp; apply elem_of_app; right; by apply list_elem_of_singleton|]. by assert (j = k) as -> by lia. }
  destruct (row_cases b i ltac:(lia)) as [(r & Hr)|Hn]; [|by apply Hbe in Hn].
  rewrite Hp in Hnd, Hi. apply NoDup_app in Hnd as (Hndl & Hjl & _). rewrite elem_of_app, list_elem_of_singleton in Hi.
  assert (Hjl' : Z.of_nat j ∉ l) by (intros Hin; apply (Hjl _ Hin); by apply list_elem_of_singleton).
  destruct (condense_move_ok max_num_reqs max_model_len (set_builder u b) i j r) as (b' & Hb' & Hok' & Hmap & Hids & Hbu); [by apply batch_ok_builder|done|done|].
  cbn in Hids, Hbu, Hmap. exists b'. split; [done|]. pose proof (lookup_lt_Some _ _ _ Hj) as Hjlen. pose proof (lookup_lt_Some _ _ _ Hr) as Hrlen.
  assert (Hrem : _removed (builder b') = l) by (rewrite Hbu; cbn; done).
  split; [constructor|by split].
  - done.
  - rewrite Hids. eapply in_sync_move; [exact Hsync|exact Hp|done|rewrite Hbu; cbn; done|rewrite Hbu; cbn; by rewrite Hum|done|done|exact Hr|exact Hj].
  - intros m Hm. rewrite Hbu in Hm |- *. cbn in Hm |- *. rewrite Hum in Hm; rewrite Hu. apply elem_of_app in Hm as [Hm| ->%list_elem_of_singleton].
    + destruct (Hmok m Hm) as [H1 H2]. rewrite Hp, elem_of_app in H1, H2. tauto.
    + cbn. split; [tauto|done].
  - by rewrite Hrem.
  - intros _. by rewrite Hrem.
  - intros x Hx. rewrite Hrem in Hx. destruct (Hho x) as (k & -> & Hk); [rewrite Hp; apply elem_of_app; by left|]. exists k. split; [done|].
    rewrite Hids, !list_lookup_insert_ne; [done|intros ->..]; [done|tauto].
  - intros k Hk Hn. rewrite Hrem. rewrite Hids, list_lookup_insert_ne in Hn by lia. apply list_lookup_insert_Some in Hn as [(_ & ? & _)|[Hkj Hn]]; [done|].
    specialize (Hbe k ltac:(lia) Hn). rewrite Hp, elem_of_app, list_elem_of_singleton in Hbe. destruct Hbe; [done|lia].
  - intros k Hk (x & Hx). unfold row_of in Hx. rewrite Hids in Hx. apply list_lookup_insert_Some in Hx as [(_ & ? & _)|[Hki Hx]]; [done|].
    apply list_lookup_insert_Some in Hx as [(<- & _ & _)|[_ Hx]].
    + lia.
    + destruct (Z.le_gt_cases (Z.of_nat k) last) as [Hkl|Hkl]; [|apply (Hab k Hkl); by exists x].
      destruct (Hho _ (Hsk k ltac:(lia))) as (k' & Ek & Hk'). assert (k = k') as -> by lia. congruence.
  - rewrite Hids. unfold zlen in *. rewrite !length_insert. lia.
Qed.

Lemma condense_loop_ok S E fuel last b : condensing S E last b -> (exists k, live b k) -> (length (_removed (builder b)) < fuel)%nat ->
  exists b' last', condense_loop false fuel last b = Ok b' /\ condensing S E last' b' /\ batch_map b' = batch_map b /\
    0 <= last' /\ forall k, Z.of_nat k <= last' -> live b' k.
Proof.
  revert last b. induction fuel as [|fuel IH]; intros last b Hc [m Hm] Hf; [lia|]. cbn [condense_loop].
  destruct (removed_sorted (builder b)) as [R u] eqn:Es. pose proof Hc as [Hok Hsync Hmok Hnd Hso Hho Hbe Hab Hlen].
  destruct (removed_sorted_ok _ _ _ Hso Es) as (-> & Hs & Hp & Hua & Hum & Huf).
  assert (Hm_last : Z.of_nat m <= last) by (destruct (Z.le_gt_cases (Z.of_nat m) last) as [|Hgt]; [done|]; by apply Hab in Hgt).
  assert (Hm_in : Z.of_nat m ∉ _removed u).
  { rewrite Hp. intros (k & Ek & Hk)%Hho. assert (m = k) as -> by lia. by apply not_live_none in Hk. }
  assert (Hset : forall last', last' <= last -> (forall i, last' < i <= last -> i ∈ _removed u) -> condensing S E last' (set_builder u b)).
  { intros last' Hl Hsk. constructor; cbn; rewrite ?Hp; try done.
    - by apply batch_ok_builder.
    - by eapply in_sync_perm; [..|exact Hsync].
    - intros x Hx. rewrite Hum in Hx. rewrite Hp. by apply Hmok.
    - by intros _.
    - intros x Hx. apply Hho. by rewrite <-Hp.
    - intros k Hk Hn. rewrite Hp. apply Hbe; [lia|done].
    - intros k Hk. destruct (Z.le_gt_cases (Z.of_nat k) last) as [Hkl|Hkl]; [|by apply Hab].
      specialize (Hsk (Z.of_nat k) ltac:(lia)). rewrite Hp in Hsk. apply Hho in Hsk as (k' & Ek & Hk'). assert (k = k') as -> by lia. by apply not_live_none.
    - lia. }
  assert (Hlive : forall last', last' <= last -> (forall k, Z.of_nat k <= last' -> Z.of_nat k ∉ _removed u) -> forall k, Z.of_nat k <= last' -> live b k).
  { intros last' Hl Hno k Hk. destruct (row_cases b k ltac:(lia)) as [|Hn]; [done|]. destruct (Hno k Hk). rewrite Hp. apply Hbe; [lia|done]. }
  destruct (_removed u) as [|x0 l0] eqn:ER.
  - exists (set_builder u b), last. split; [done|]. split; [apply Hset; [lia|intros; lia]|]. split; [done|]. split; [lia|].
    apply (Hlive last); [lia|]. intros k _. apply not_elem_of_nil.
  - rewrite <-ER in *. set (last' := skip_empty _ _ _).
    destruct (skip_empty_ok (Datatypes.S (length (_removed u))) (_removed u) last) as (H1 & H2 & H3); [pose proof (length_filter (fun i => i <= last) (_removed u)); lia|].
    fold last' in H1, H2, H3. assert (Hm_le : Z.of_nat m <= last') by (destruct (Z.le_gt_cases (Z.of_nat m) last') as [|Hgt]; [done|]; destruct Hm_in; apply H3; lia).
    assert (Hsu : sorted_ok u) by (intros _; done).
    destruct (pop_removed_cases u Hsu) as [[E0 _]|(l & i & u' & Epop & El & Hpl & Hl & Hmin & Ha' & Hm' & Hf')]; [rewrite E0 in ER; done|].
    destruct (peek_removed_sorted (builder b) (_removed u) u Es) as [Epeek Epk]; [by rewrite ER|]. rewrite Epeek. rewrite Epop in Epk. cbn in Epk. rewrite <-Epk.
    cbn [mbind res_bind]. destruct (last' <=? i) eqn:Ele.
    + exists (set_builder u b), last'. split; [done|]. split; [apply Hset; [done|]; intros; by apply H3|]. split; [done|]. split; [lia|].
      apply Hlive; [done|]. intros k Hk Hin. pose proof Hin as Hin'. rewrite Hpl, elem_of_app, list_elem_of_singleton in Hin'.
      assert (i <= Z.of_nat k) by (destruct Hin' as [Hin'| ->]; [by apply Hmin|lia]). assert (Z.of_nat k = last') as E1 by lia. rewrite E1 in Hin. done.
    + assert (Hir : i ∈ _removed u) by (rewrite Hpl; apply elem_of_app; right; by apply list_elem_of_singleton).
      rewrite Hp in Hir. destruct (Hho i Hir) as (j & -> & Hj). rewrite Epop. cbn [snd].
      assert (El' : last' = Z.of_nat (Z.to_nat last')) by lia. rewrite El'.
      destruct (condense_round S E last b l (Z.to_nat last') j u') as (b' & -> & Hc' & Hmap & Hrem); try done.
      * by rewrite <-Hp.
      * by rewrite Ha'.
      * by rewrite Hm'.
      * rewrite <-El', <-Hp. done.
      * lia.
      * lia.
      * intros k Hk. rewrite <-Hp. apply H3. lia.
      * cbn [mbind res_bind]. destruct (IH _ _ Hc') as (b2 & last2 & -> & Hc2 & Hmap2 & Hpos & Hl2).
        -- destruct (live_map b m Hok Hm) as (r & Hr). rewrite <-Hmap in Hr. eapply map_live; [apply Hc'|exact Hr].
        -- rewrite Hrem. apply Permutation_length in Hpl, Hp. rewrite length_app in Hpl. cbn in Hpl. lia.
        -- exists b2, last2. split; [done|]. split; [done|]. split; [by rewrite Hmap2|done].
Qed.

(** ** The lists cut to the requests *)

Definition cut_ids (n : nat) (d : BatchIds) : BatchIds := mkIds (take n (_req_ids d)) (req_id_to_index d) (take n (req_output_token_ids d)) (take n (spec_token_ids d)).

Lemma lookup_take_lt {A} (l : list A) n k : (k < n)%nat -> take n l !! k = l !! k.
Proof. intros Hk. by rewrite lookup_take_lt. Qed.

Lemma cut_row d n k r : row_of (cut_ids n d) k r <-> (k < n)%nat /\ row_of d k r.
Proof.
  unfold row_of, cut_ids. cbn. destruct (Nat.lt_ge_cases k n) as [Hk|Hk]; [by rewrite lookup_take_lt by done; split; [|intros [_ ?]]|].
  rewrite lookup_take_ge by done. split; [done|]. intros [? _]. lia.
Qed.

Lemma cut_ok b n : batch_ok b -> (forall k, live b k -> (k < n)%nat) ->
  let b' := set_ids (cut_ids n (ib_ids b)) b in batch_ok b' /\ batch_map b' = batch_map b /\ (forall S k, row_state S (rows b') k = row_state S (rows b) k).
Proof.
  intros [Hs Hx He Hlora] Hlive b'. pose proof Hs as [(Hlo & Hls & Hln) Sr St Ss Sd Sn].
  assert (Hx' : index_ok (ib_ids b')).
  { intros r i. split; [intros (k & -> & Hk)%Hx; exists k; split; [done|]|intros (k & -> & Hk); apply Hx; exists k; split; [done|]; by apply cut_row in Hk as [_ Hk]].
    apply cut_row. split; [|done]. apply Hlive. by exists r. }
  assert (Hmap : batch_map b' = batch_map b).
  { apply (batch_map_reidx (fun k => k)); [done..| |].
    - intros r k Hk. apply cut_row in Hk as [Hkn Hk]. split; [done|].
      apply view_eq; cbn; try done; by rewrite lookup_take_lt by done.
    - intros r k Hk. exists k. apply cut_row. split; [|done]. apply Hlive. by exists r. }
  split; [|split; [done|]].
  - constructor; [|done| |by rewrite Hmap].
    + constructor; try done. split; [|split]; cbn; rewrite !length_take; lia.
    + intros k Hk. cbn. destruct (He k) as (H1 & H2 & H3).
      { intros (r & Hr). apply Hk. exists r. apply cut_row. split; [|done]. apply Hlive. by exists r. }
      split; [done|]. split; [done|]. destruct (Nat.lt_ge_cases k n); [by rewrite lookup_take_lt|by rewrite lookup_take_ge].
  - intros S k. unfold row_state. cbn. destruct (Nat.lt_ge_cases k n) as [Hk|Hk]; [by rewrite lookup_take_lt|]. rewrite lookup_take_ge by done.
    destruct (rows b !! k) as [[r|]|] eqn:E; try done. assert (live b k) as ?%Hlive by (by exists r). lia.
Qed.

(** As many requests as there are rows up to the last one. *)
Lemma num_reqs_rows b n : batch_ok b -> (forall k, live b k <-> (k < n)%nat) -> (n <= length (rows b))%nat -> batch_num_reqs b = Z.of_nat n.
Proof.
  intros Hb Hn Hl. destruct (cut_ok b n Hb) as ([_ Hx _ _] & _); [by intros k ?%Hn|].
  assert (Hho : holes_ok (builder_init (Params:=Z)) (ib_ids (set_ids (cut_ids n (ib_ids b)) b))).
  { constructor; cbn; [constructor| |done]. intros i. split; [by intros ?%elem_of_nil|]. intros (k & -> & Hk).
    destruct (Nat.lt_ge_cases k n) as [Hkn|Hkn]; [|by rewrite lookup_take_ge in Hk by done]. rewrite lookup_take_lt in Hk by done.
    apply Hn in Hkn as (r & Hr). unfold row_of in Hr. congruence. }
  pose proof (batch_count _ _ Hx Hho) as Hc. cbn in Hc. rewrite length_take in Hc. unfold batch_num_reqs. lia.
Qed.

Lemma condense_ok S E b : open_batch S E b ->
  exists b', condense false b = Ok b' /\ compact S E b' /\ batch_map b' = batch_map b.
Proof.
  intros [Hok Hho Hsync Hmov]. unfold condense. destruct (removed_sorted (builder b)) as [R u] eqn:Es.
  destruct (removed_sorted_ok _ _ _ (ho_sorted _ _ Hho) Es) as (-> & Hs & Hp & Hua & Hum & Huf).
  assert (Hset : condensing S E (batch_num_reqs b + zlen (_removed u) - 1) (set_builder u b)).
  { pose proof (batch_count _ _ (bo_index _ _ _ Hok) Hho) as Hc. rewrite <-(Permutation_length Hp) in Hc.
    assert (Hl : batch_num_reqs b + zlen (_removed u) = zlen (rows b)) by (unfold batch_num_reqs, zlen; lia). rewrite Hl. constructor; cbn.
    - by apply batch_ok_builder.
    - by eapply in_sync_perm; [..|exact Hsync].
    - intros m Hm. rewrite Hum, Hmov in Hm. by apply elem_of_nil in Hm.
    - rewrite Hp. apply Hho.
    - by intros _.
    - intros i. rewrite Hp. apply Hho.
    - intros k _ Hk. rewrite Hp. apply Hho. by exists k.
    - intros k Hk (r & Hr%lookup_lt_Some). cbn in Hr. unfold zlen in Hk. lia.
    - lia. }
  assert (Hlen : length (_removed u) = length (_removed (builder (set_builder u b)))) by done.
  destruct (_removed u) as [|x0 l0] eqn:ER.
  - exists (set_builder u b). split; [done|]. split; [|done]. constructor; [apply Hset| |apply Hset].
    intros k Hk. destruct (row_cases (set_builder u b) k) as [|Hn]; [unfold zlen; lia|done|].
    assert (Hin : Z.of_nat k ∈ _removed (builder b)) by (apply Hho; by exists k). rewrite <-Hp in Hin. by apply elem_of_nil in Hin.
  - rewrite <-ER in *. case_match eqn:E0.
    + apply Z.eqb_eq in E0. assert (Hi0 : req_id_to_index (ib_ids b) = ∅) by (apply map_size_empty_iff; unfold batch_num_reqs in E0; lia).
      assert (Hlive : forall k, ~ live b k).
      { intros k (r & Hr). pose proof (index_row _ _ _ (bo_index _ _ _ Hok) Hr) as H. by rewrite Hi0 in H. }
      destruct (cut_ok (set_builder u b) 0 (cd_ok _ _ _ _ Hset)) as (H1 & H2 & H3); [by intros k ?%Hlive|].
      eexists. split; [reflexivity|]. unfold cut_ids in H1, H2, H3. cbn in H1, H2, H3 |- *. split; [|done]. constructor; [done|intros k Hk; cbn in Hk; lia|].
      intros k. rewrite H3. apply Hset.
    + assert (Hex : exists k, live (set_builder u b) k).
      { apply Z.eqb_neq in E0. destruct (map_choose (req_id_to_index (ib_ids b))) as (r & i & Hi).
        - intros H0. apply E0. unfold batch_num_reqs. by rewrite H0, map_size_empty.
        - apply (bo_index _ _ _ Hok) in Hi as (k & _ & Hk). by exists k, r. }
      destruct (condense_loop_ok S E (Datatypes.S (length (_removed u))) _ _ Hset Hex) as (b' & last' & -> & Hc & Hmap & Hpos & Hl); [cbn; lia|].
      cbn [mbind res_bind]. destruct Hc as [Hok' Hsync' _ _ _ _ _ Hab Hlen'].
      assert (Hn : batch_num_reqs b = Z.of_nat (Datatypes.S (Z.to_nat last'))).
      { transitivity (batch_num_reqs b').
        - unfold batch_num_reqs. f_equal. assert (Hsz : size (batch_map b') = size (batch_map (set_builder u b))) by (by rewrite Hmap).
          unfold batch_map in Hsz. rewrite !map_size_fmap in Hsz. by symmetry.
        - apply num_reqs_rows; [done| |unfold zlen in Hlen'; lia]. intros k. split; [|intros Hk; apply Hl; lia].
          intros Hk. destruct (Z.le_gt_cases (Z.of_nat k) last'); [lia|]. by destruct (Hab k). }
      rewrite Hn, Nat2Z.id. destruct (cut_ok b' (Datatypes.S (Z.to_nat last')) Hok') as (H1 & H2 & H3).
      { intros k Hk. destruct (Z.le_gt_cases (Z.of_nat k) last'); [lia|]. by destruct (Hab k). }
      eexists. split; [reflexivity|]. split; [|etransitivity; [exact H2|exact Hmap]]. constructor; [done| |].
      * intros k Hk. cbn in Hk. rewrite length_take in Hk. destruct (Hl k ltac:(lia)) as (r & Hr). exists r. apply (cut_row (ib_ids b') _ k r). split; [lia|done].
      * intros k. cbn. fold (rows (set_ids (cut_ids (Datatypes.S (Z.to_nat last')) (ib_ids b')) b')) in H3. cbn in H3. rewrite H3. apply Hsync'.
Qed.
End Condense.
