(* ===== verification/BatchOps.v ===== *)
(** Requests that leave and enter the persistent batch, and rows that change
    places. *)
From S2P Require Import Prelude PyRes PyFloat BatchUpdate BlockTable InputBatch BatchRows BatchInv.
From Stdlib Require Import SpecFloat.
Local Open Scope Z_scope.

(** ** Lengths *)

Lemma np_fill_length {A} (l : list A) lo hi x : length (np_fill l lo hi x) = length l.
Proof.
  unfold np_fill. rewrite !length_app, length_take, length_drop. unfold zreplicate. rewrite length_replicate. unfold py_clip, zlen. repeat case_match; lia.
Qed.

Lemma np_assign_length {A} (l : list A) lo hi vals l' : np_assign l lo hi vals = Ok l' -> length l' = length l.
Proof.
  unfold np_assign. set (a := py_clip (zlen l) lo). set (b := Z.max a (py_clip (zlen l) hi)).
  assert (Hb : 0 <= a <= zlen l /\ a <= b <= zlen l) by (unfold b, a, py_clip, zlen; repeat case_match; lia). unfold zlen in Hb.
  destruct (zlen vals =? b - a) eqn:E.
  - intros [= <-]. rewrite !length_app, length_take, length_drop. unfold zlen in E. lia.
  - destruct vals as [|x [|? ?]]; [done| |done]. intros [= <-]. rewrite !length_app, length_take, length_drop. unfold zreplicate. rewrite length_replicate. lia.
Qed.

Lemma np_update_Ok {A} (l : list A) (i : nat) f l' : np_update l (Z.of_nat i) f = Ok l' -> exists x y, l !! i = Some x /\ f x = Ok y /\ l' = <[i := y]> l.
Proof.
  unfold np_update. intros H. bind_inv H as x Hx. bind_inv H as y Hy. apply py_get_Ok in Hx. apply np_set_Ok in H as [_ ->]. rewrite Nat2Z.id. by exists x, y.
Qed.

Lemma np_update_ok {A} (l : list A) (i : nat) f x y : l !! i = Some x -> f x = Ok y -> np_update l (Z.of_nat i) f = Ok (<[i := y]> l).
Proof.
  intros Hx Hy. unfold np_update. rewrite (py_get_ok _ _ _ Hx). cbn [mbind res_bind]. rewrite Hy. cbn [mbind res_bind]. apply np_set_ok. by eapply lookup_lt_Some.
Qed.

Lemma width_update {A} w (l : list (list A)) (i : nat) f l' : width w l -> (forall x y, f x = Ok y -> length y = length x) -> np_update l (Z.of_nat i) f = Ok l' -> width w l'.
Proof.
  intros Hw Hf (x & y & Hx & Hy & ->)%np_update_Ok. apply width_insert; [done|]. rewrite (Hf _ _ Hy). by eapply width_lookup.
Qed.

(** ** Block tables *)

Lemma clear_row_ok n t i : table_wf n t -> (i < n)%nat ->
  exists t', clear_row (Z.of_nat i) t = Ok t' /\ table_wf n t' /\ forall k, k <> i -> table_view t' k = table_view t k.
Proof.
  intros (Hr & Hn & (w & Hw0 & Hw) & Hpos) Hi. unfold clear_row. destruct (lookup_lt_is_Some_2 (num_blocks_per_row t) i ltac:(lia)) as [x Hx].
  rewrite (py_get_ok _ _ _ Hx). cbn [mbind res_bind]. destruct (lookup_lt_is_Some_2 (bt_rows t) i ltac:(lia)) as [row Hrow].
  assert (Hrows : exists rows, (if 0 <? x then np_update (bt_rows t) (Z.of_nat i) (fun row => Ok (np_fill row 0 x 0)) else Ok (bt_rows t)) = Ok rows /\
    length rows = n /\ width w rows /\ forall k, k <> i -> rows !! k = bt_rows t !! k).
  { case_match; [|by eexists]. rewrite (np_update_ok _ _ _ row (np_fill row 0 x 0)) by done. eexists. split; [done|]. split; [by rewrite length_insert|].
    split; [|intros k Hk; by rewrite list_lookup_insert_ne]. apply width_insert; [done|]. rewrite np_fill_length. by eapply width_lookup. }
  destruct Hrows as (rows & -> & Hl & Hw' & Hv). cbn [mbind res_bind]. rewrite np_set_ok by lia. cbn [mbind res_bind]. eexists. split; [reflexivity|]. split.
  - split; [done|]. split; [cbn; by rewrite length_insert|]. split; [by exists w|]. cbn. intros z [k Hk]%list_elem_of_lookup.
    apply list_lookup_insert_Some in Hk as [(_ & <- & _)|[_ Hk]]; [done|]. apply Hpos. by eapply list_elem_of_lookup_2.
  - intros k Hk. unfold table_view. cbn. by rewrite Hv, list_lookup_insert_ne by done.
Qed.

(** The ids that a table keeps of a request. *)
Definition kernel_ids (t : BlockTable) (ids : list Z) : list Z := if bt_use_hybrid_blocks t then map_to_kernel_blocks ids (bt_blocks_per_kv_block t) else ids.

Lemma add_row_Ok n t i ids t' : table_wf n t -> add_row ids (Z.of_nat i) t = Ok t' ->
  table_wf n t' /\ (forall k, k <> i -> table_view t' k = table_view t k) /\ (ids <> [] -> table_view t' i = Some (kernel_ids t ids)).
Proof.
  intros (Hr & Hn & (w & Hw0 & Hw) & Hpos) H. unfold add_row in H. bind_inv H as nums Hnums. apply np_set_Ok in Hnums as [Hi ->]. rewrite Nat2Z.id in *.
  unfold zlen in Hi. assert (Hlt : (i < n)%nat) by lia. unfold append_row in H. destruct ids as [|x0 ids0].
  - injection H as <-. split; [|split; [|done]].
    + split; [done|]. split; [cbn; by rewrite length_insert|]. split; [by exists w|]. cbn. intros z [k Hk]%list_elem_of_lookup.
      apply list_lookup_insert_Some in Hk as [(_ & <- & _)|[_ Hk]]; [done|]. apply Hpos. by eapply list_elem_of_lookup_2.
    + intros k Hk. unfold table_view. cbn. by rewrite list_lookup_insert_ne by done.
  - set (ids := x0 :: ids0) in *. cbn [bt_use_hybrid_blocks bt_blocks_per_kv_block num_blocks_per_row bt_rows] in H. fold (kernel_ids t ids) in H.
    set (ks := kernel_ids t ids) in *. bind_inv H as start Hstart. apply py_get_Ok in Hstart. rewrite list_lookup_insert_eq in Hstart by lia. injection Hstart as <-.
    bind_inv H as nums Hnums. apply np_set_Ok in Hnums as [_ ->]. rewrite Nat2Z.id in *. bind_inv H as rows Hrows.
    pose proof (width_update w _ _ _ _ Hw (fun x y => np_assign_length x _ _ _ y) Hrows) as Hw'. apply np_update_Ok in Hrows as (row & row' & Hrow & Has & ->).
    injection H as <-. split; [|split].
    + split; [cbn; by rewrite length_insert|]. split; [cbn; by rewrite !length_insert|]. split; [by exists w|]. cbn. intros z [k Hk]%list_elem_of_lookup.
      apply list_lookup_insert_Some in Hk as [(_ & <- & _)|[_ Hk]]; [unfold zlen; lia|].
      apply list_lookup_insert_Some in Hk as [(_ & <- & _)|[_ Hk]]; [done|]. apply Hpos. by eapply list_elem_of_lookup_2.
    + intros k Hk. unfold table_view. cbn. by rewrite !list_lookup_insert_ne by done.
    + intros _. unfold table_view. cbn. rewrite !list_lookup_insert_eq by (rewrite ?length_insert; lia). cbn. f_equal.
      pose proof (width_lookup _ _ _ _ Hw Hrow) as Hlw. unfold np_assign in Has.
      assert (E0 : py_clip (zlen row) 0 = 0) by (unfold py_clip, zlen; repeat case_match; lia). rewrite E0 in Has.
      assert (Ec : Z.max 0 (py_clip (zlen row) (0 + zlen ks)) = Z.min (zlen ks) (zlen row)) by (unfold py_clip, zlen; repeat case_match; lia). rewrite Ec in Has.
      assert (Hcase : zlen ks =? Z.min (zlen ks) (zlen row) - 0 = true).
      { destruct (_ =? _) eqn:E; [done|]. destruct ks as [|y [|? ?]]; try done. unfold zlen in E. cbn in E. lia. }
      rewrite Hcase in Has. injection Has as <-. cbn. rewrite take_app_le by (unfold zlen; lia). apply take_ge. unfold zlen. lia.
Qed.

Section Ops.
Context {Tensor Generator LoRA Pooling States Logprobs T : Type} (max_num_reqs max_model_len : Z) (new_state : AddedParams -> option T).
Abbreviation InputBatch := (@InputBatch Tensor Generator LoRA Pooling States Logprobs).
Abbreviation batch_ok := (@batch_ok Tensor Generator LoRA Pooling States Logprobs max_num_reqs max_model_len).
Implicit Types (b : InputBatch) (S : gmap string T) (E : gmap Z T).
Abbreviation rows b := (_req_ids (ib_ids b)).
Abbreviation builder b := (batch_update_builder b).
Abbreviation open_batch := (open_batch max_num_reqs max_model_len new_state).
Abbreviation compact := (compact max_num_reqs max_model_len new_state).

(** ** Removing *)

(** A request that stays finds its LoRA. *)
Definition lora_known (d : LoraState (LoRA:=LoRA)) (n : Z) (r : string) : Prop :=
  exists s, lora_id_to_request_ids d !! n = Some s /\ r ∈ s /\ is_Some (lora_id_to_lora_request d !! n).

Lemma lora_remove_ok d n r : (n <> 0 -> lora_known d n r) ->
  exists d', lora_remove r n d = Ok d' /\ forall n' r', r' <> r -> lora_known d n' r' -> lora_known d' n' r'.
Proof.
  intros Hk. unfold lora_remove. destruct (n =? 0) eqn:E0; [by eexists|]. destruct (Hk ltac:(lia)) as (s & Hs & Hr & [l Hl]).
  rewrite Hs. cbn [mbind res_bind]. case_decide as Hd.
  - rewrite Hl. eexists. split; [reflexivity|]. intros n' r' Hne (s' & Hs' & Hr' & Hl'). exists s'. cbn.
    assert (n <> n') by (intros ->; rewrite Hs in Hs'; injection Hs' as ->; assert (r' ∈ s' ∖ {[r]}) as Hin by set_solver; rewrite Hd in Hin; set_solver).
    by rewrite !lookup_delete_ne.
  - eexists. split; [reflexivity|]. intros n' r' Hne (s' & Hs' & Hr' & Hl'). cbn. destruct (decide (n = n')) as [->|Hnn].
    + exists (s ∖ {[r]}). cbn. rewrite lookup_insert_eq. rewrite Hs in Hs'. injection Hs' as ->. split; [done|]. split; [set_solver|done].
    + exists s'. cbn. by rewrite lookup_insert_ne.
Qed.

Lemma remove_absent S E b r : open_batch S E b -> req_id_to_index (ib_ids b) !! r = None ->
  batch_remove_request false r b = Ok (None, b) /\ open_batch (delete r S) E b /\ batch_map b = delete r (batch_map b).
Proof.
  intros [Hok Hho Hsync Hm] Hr. unfold batch_remove_request. rewrite Hr. split; [done|]. split.
  - constructor; try done. intros k. rewrite Hsync. unfold row_state. destruct (rows b !! k) as [[x|]|] eqn:Ek; cbn; try done.
    rewrite lookup_delete_ne; [done|]. intros <-. pose proof (index_row _ _ _ (bo_index _ _ _ Hok) Ek) as H. congruence.
  - unfold batch_map. rewrite <-fmap_delete. by rewrite delete_id.
Qed.

Lemma ids_remove_ok d i r : ids_shape max_num_reqs d -> index_ok d -> row_of d i r ->
  let d' := mkIds (<[i := None]> (_req_ids d)) (delete r (req_id_to_index d)) (<[i := None]> (req_output_token_ids d)) (<[i := []]> (spec_token_ids d)) in
  ids_shape max_num_reqs d' /\ index_ok d' /\ forall k x, row_of d' k x <-> k <> i /\ row_of d k x.
Proof.
  intros (Ho & Hs & Hn) Hx Hi d'. pose proof (lookup_lt_Some _ _ _ Hi) as Hlt.
  assert (Hrow : forall k x, row_of d' k x <-> k <> i /\ row_of d k x).
  { intros k x. unfold row_of, d'. cbn. destruct (decide (k = i)) as [->|Hk]; [rewrite list_lookup_insert_eq by done; naive_solver|].
    rewrite list_lookup_insert_ne by done. tauto. }
  split; [split; [|split]; cbn; rewrite ?length_insert; lia|]. split; [|done]. intros x n. cbn. rewrite lookup_delete_Some. split.
  - intros [Hne (k & -> & Hk)%Hx]. exists k. split; [done|]. apply Hrow. split; [|done]. intros ->. unfold row_of in *. congruence.
  - intros (k & -> & [Hki Hk]%Hrow). split; [|by apply index_row]. intros ->. apply Hki. by eapply index_inj.
Qed.

Lemma remove_ok S E b i r : open_batch S E b -> _is_removed_sorted (builder b) = false -> row_of (ib_ids b) i r ->
  exists b', batch_remove_request false r b = Ok (Some (Z.of_nat i), b') /\ open_batch (delete r S) E b' /\ _is_removed_sorted (builder b') = false /\
    batch_map b' = delete r (batch_map b).
Proof.
  intros [Hok Hho Hsync Hm] Hf Hi. pose proof (row_lt _ _ _ _ _ Hok Hi) as [Hil HiN]. pose proof Hok as [Hs Hx He Hlora].
  pose proof Hs as [(Hlo & Hls & Hln) [] St Ss Sd Sn].
  destruct (ids_remove_ok _ i r (sh_ids _ _ _ Hs) Hx Hi) as (Si & Xi & Hrow). set (d' := mkIds _ _ _ _) in *.
  unfold batch_remove_request. rewrite (index_row _ _ _ Hx Hi). unfold removed_append. rewrite Hf. cbn [mbind res_bind].
  rewrite (np_set_ok (rows b)), (np_set_ok (req_output_token_ids (ib_ids b))), (np_set_ok (spec_token_ids (ib_ids b))) by lia. cbn [mbind res_bind]. fold d'.
  destruct (multi_ok (clear_row (Z.of_nat i)) (Z.to_nat max_num_reqs) (fun k => k) (fun k => k <> i) (block_table b)) as (ts & Ets & St' & Vt).
  { intros t Ht. by apply clear_row_ok. } { done. }
  unfold multi_clear_row. rewrite Ets. cbn [mbind res_bind]. destruct (lookup_lt_is_Some_2 (request_lora_mapping (ib_rows b)) i ltac:(lia)) as [n Hn].
  rewrite (py_get_ok _ _ _ Hn). cbn [mbind res_bind].
  destruct (lora_remove_ok (ib_lora b) n r) as (lora & -> & Hl).
  { intros Hn0. apply (Hlora r (view b i) n); [by apply (batch_map_row max_num_reqs max_model_len)|done|done]. }
  cbn [mbind res_bind]. assert (Hloras : exists loras, (if n =? 0 then Ok (request_lora_mapping (ib_rows b)) else np_set (request_lora_mapping (ib_rows b)) (Z.of_nat i) 0) = Ok loras /\
    length loras = Z.to_nat max_num_reqs /\ forall k, k <> i -> loras !! k = request_lora_mapping (ib_rows b) !! k).
  { case_match; [by eexists|]. rewrite np_set_ok by lia. eexists. split; [done|]. split; [by rewrite length_insert|]. intros k Hk. by rewrite list_lookup_insert_ne. }
  destruct Hloras as (loras & -> & Hll & Hlv). cbn [mbind res_bind].
  assert (Hmask : exists mask, match allowed_token_ids_mask_cpu_tensor (ib_dicts b) with
      | Some mask => mask ← np_update mask (Z.of_nat i) (fun row => Ok (map (fun _ => false) row)) ; Ok (Some mask) | None => Ok None end = Ok mask /\
    forall m, mask = Some m -> length m = Z.to_nat max_num_reqs).
  { unfold dicts_shape in Sd. destruct (allowed_token_ids_mask_cpu_tensor (ib_dicts b)) as [m|]; [|by eexists]. specialize (Sd m eq_refl).
    destruct (lookup_lt_is_Some_2 m i ltac:(lia)) as [row Hrw]. rewrite (np_update_ok _ _ _ row (map (fun _ => false) row)) by done. cbn [mbind res_bind]. eexists. split; [reflexivity|].
    intros m' [= <-]. by rewrite length_insert. }
  destruct Hmask as (mask & -> & Hml). cbn [mbind res_bind]. eexists. split; [reflexivity|]. set (b' := mkBatch _ _ _ _ _ _ _ _ _ _ _).
  assert (Hview : forall k, k <> i -> view b' k = view b k).
  { intros k Hk. apply view_eq; cbn; try by rewrite list_lookup_insert_ne.
    - repeat split; try done. by apply Hlv.
    - by apply Vt.
    - done.
    - by rewrite lookup_delete_ne by lia.
    - by rewrite lookup_delete_ne by lia. }
  assert (Hmap : batch_map b' = delete r (batch_map b)).
  { apply map_eq. intros x. apply option_eq. intros v. rewrite lookup_delete_Some. split.
    - intros (k & [Hk Hkx]%Hrow & ->)%(batch_map_Some b' _ _ Xi). split; [intros ->; apply Hk; exact (index_inj _ _ _ _ Hx Hkx Hi)|]. rewrite Hview by done.
      by apply (batch_map_row max_num_reqs max_model_len).
    - intros [Hxr (k & Hk & ->)%(batch_map_Some _ _ _ Hx)]. assert (Hki : k <> i) by (intros ->; unfold row_of in *; congruence).
      rewrite <-Hview by done. unfold batch_map. rewrite lookup_fmap, (index_row (ib_ids b') x k Xi) by (by apply Hrow). cbn. by rewrite Nat2Z.id. }
  split; [|split; [done|done]]. constructor.
  - constructor; [|done| |].
    + constructor; [done| |done|done|exact Hml|done]. constructor; done.
    + intros k Hk. cbn. destruct (decide (k = i)) as [->|Hki].
      * rewrite !lookup_delete_eq, list_lookup_insert_eq by lia. done.
      * rewrite !lookup_delete_ne, list_lookup_insert_ne by lia. apply He. intros (x & Hxr). apply Hk. exists x. by apply Hrow.
    + intros x v m Hv Hm0 Hm1. rewrite Hmap in Hv. apply lookup_delete_Some in Hv as [Hne Hv]. cbn. apply Hl; [done|]. by eapply Hlora.
  - destruct Hho as [Hnd Hh Hso]. constructor; cbn; [|intros j|done].
    + apply NoDup_app. split; [done|]. split; [|apply NoDup_singleton]. intros j (k & -> & Hk)%Hh Hin%list_elem_of_singleton.
      assert (k = i) as -> by lia. unfold row_of in Hi. congruence.
    + rewrite elem_of_app, list_elem_of_singleton, Hh. split.
      * intros [(k & -> & Hk)| ->]; [|exists i; split; [done|]; by rewrite list_lookup_insert_eq].
        exists k. split; [done|]. rewrite list_lookup_insert_ne; [done|]. intros <-. unfold row_of in Hi. congruence.
      * intros (k & -> & Hk). apply list_lookup_insert_Some in Hk as [(-> & _ & _)|[_ Hk]]; [by right|left; by exists k].
  - cbn. eapply in_sync_remove; [exact Hsync|done|exact Hm|done|done|exact Hi|]. intros k Hk. exact (index_inj _ _ _ _ Hx Hk Hi).
  - done.
Qed.

(** ** Rows that change places *)

Lemma tr_lt i j k n : (i < n)%nat -> (j < n)%nat -> (tr i j k < n)%nat <-> (k < n)%nat.
Proof. unfold tr. repeat case_decide; lia. Qed.

Lemma tr_invol i j k : tr i j (tr i j k) = k.
Proof. unfold tr. repeat case_decide; congruence. Qed.

Lemma swap_lookup {A} (l : list A) i j x y k : l !! i = Some x -> l !! j = Some y -> <[j := x]> (<[i := y]> l) !! k = l !! tr i j k.
Proof. intros Hx Hy. rewrite (lookup_swap l i j x y k Hx Hy). unfold tr. repeat case_decide; subst; congruence. Qed.

Lemma ids_swap_ok d i j ri rj : ids_shape max_num_reqs d -> index_ok d -> row_of d i ri -> row_of d j rj -> i <> j ->
  exists d', ids_swap (Z.of_nat i) (Z.of_nat j) d = Ok d' /\ ids_shape max_num_reqs d' /\ index_ok d' /\ length (_req_ids d') = length (_req_ids d) /\
    forall k, _req_ids d' !! k = _req_ids d !! tr i j k /\ req_output_token_ids d' !! k = req_output_token_ids d !! tr i j k /\
      spec_token_ids d' !! k = spec_token_ids d !! tr i j k.
Proof.
  intros (Ho & Hs & Hn) Hx Hi Hj Hij. pose proof (lookup_lt_Some _ _ _ Hi). pose proof (lookup_lt_Some _ _ _ Hj).
  destruct (lookup_lt_is_Some_2 (req_output_token_ids d) i ltac:(lia)) as [oi Hoi]. destruct (lookup_lt_is_Some_2 (req_output_token_ids d) j ltac:(lia)) as [oj Hoj].
  destruct (lookup_lt_is_Some_2 (spec_token_ids d) i ltac:(lia)) as [si Hsi]. destruct (lookup_lt_is_Some_2 (spec_token_ids d) j ltac:(lia)) as [sj Hsj].
  unfold ids_swap. rewrite (py_get_ok _ _ _ Hi), (py_get_ok _ _ _ Hj). cbn [mbind res_bind].
  rewrite (np_swap_ok _ _ _ _ _ Hi Hj), (np_swap_ok _ _ _ _ _ Hoi Hoj), (np_swap_ok _ _ _ _ _ Hsi Hsj). cbn [mbind res_bind].
  rewrite (index_row _ _ _ Hx Hi), (index_row _ _ _ Hx Hj). eexists. split; [reflexivity|].
  assert (Hrows : forall k, <[j := Some ri]> (<[i := Some rj]> (_req_ids d)) !! k = _req_ids d !! tr i j k) by (intros k; by apply swap_lookup).
  split; [split; [|split]; cbn; rewrite !length_insert; lia|]. split; [|split; [cbn; by rewrite !length_insert|intros k; cbn; by rewrite Hrows, !swap_lookup]].
  intros x n. cbn. assert (Hr : forall k, row_of (mkIds (<[j := Some ri]> (<[i := Some rj]> (_req_ids d))) ∅ [] []) k x <-> row_of d (tr i j k) x).
  { intros k. unfold row_of. cbn. by rewrite Hrows. }
  unfold row_of in Hr |- *. cbn in Hr |- *. split.
  - rewrite lookup_insert_Some. intros [[<- <-]|[Hxj H1]].
    + exists i. split; [done|]. apply Hr. unfold tr. by rewrite decide_True.
    + apply lookup_insert_Some in H1 as [[<- <-]|[Hxi (k & -> & Hk)%Hx]].
      * exists j. split; [done|]. apply Hr. unfold tr. by rewrite decide_False, decide_True by done.
      * exists k. split; [done|]. apply Hr. unfold tr. unfold row_of in *. rewrite !decide_False; [done|intros ->; congruence..].
  - intros (k & -> & Hk%Hr). unfold tr in Hk. destruct (decide (k = i)) as [->|Hki].
    + unfold row_of in Hj. rewrite Hj in Hk. injection Hk as <-. by rewrite lookup_insert_eq.
    + assert (Hxj : rj <> x) by (intros <-; destruct (decide (k = j)) as [->|Hkj];
        [apply Hij; exact (index_inj _ _ _ _ Hx Hk Hj)|apply Hkj; exact (index_inj _ _ _ _ Hx Hk Hj)]).
      rewrite lookup_insert_ne by done. destruct (decide (k = j)) as [->|Hkj].
      * unfold row_of in Hi. rewrite Hi in Hk. injection Hk as <-. by rewrite lookup_insert_eq.
      * rewrite lookup_insert_ne by (intros <-; apply Hki; exact (index_inj _ _ _ _ Hx Hk Hi)). by apply index_row.
Qed.

Lemma dicts_swap_ok (d : @RowDicts Generator) i j : dicts_shape max_num_reqs d -> (i < Z.to_nat max_num_reqs)%nat -> (j < Z.to_nat max_num_reqs)%nat ->
  exists d', dicts_swap (Z.of_nat i) (Z.of_nat j) d = Ok d' /\ dicts_shape max_num_reqs d' /\
    generators d' = swap_dict_values (generators d) (Z.of_nat i) (Z.of_nat j) /\ bad_words_token_ids d' = swap_dict_values (bad_words_token_ids d) (Z.of_nat i) (Z.of_nat j).
Proof.
  intros Hd Hi Hj. unfold dicts_swap, dicts_shape in *. destruct (allowed_token_ids_mask_cpu_tensor d) as [mask|]; [|by eexists].
  specialize (Hd mask eq_refl). destruct (lookup_lt_is_Some_2 mask i ltac:(lia)) as [x Hx]. destruct (lookup_lt_is_Some_2 mask j ltac:(lia)) as [y Hy].
  rewrite (view_swap_ok _ _ _ _ _ Hx Hy). cbn [mbind res_bind]. eexists. split; [reflexivity|]. split; [|done]. intros m [= <-]. by rewrite !length_insert.
Qed.

Lemma swap_ok S E b i j : compact S E b -> i <> j -> (i < length (rows b))%nat -> (j < length (rows b))%nat ->
  exists b', swap_states false (Z.of_nat i) (Z.of_nat j) b = Ok b' /\ compact S E b' /\ batch_map b' = batch_map b /\
    length (rows b') = length (rows b) /\ forall k, rows b' !! k = rows b !! tr i j k.
Proof.
  intros [Hok Hlive Hsync] Hij Hil Hjl. destruct (Hlive i Hil) as (ri & Hi). destruct (Hlive j Hjl) as (rj & Hj).
  pose proof (row_lt _ _ _ _ _ Hok Hi) as [_ HiN]. pose proof (row_lt _ _ _ _ _ Hok Hj) as [_ HjN].
  destruct Hok as [Hs Hx He Hlora]. pose proof Hs as [Sids Srows Stab Ssam Sdict Sneed]. unfold swap_states.
  rewrite (active_count_ok _ _ _ i Hs Hil), (active_count_ok _ _ _ j Hs Hjl). cbn [mbind res_bind].
  destruct (ids_swap_ok _ i j ri rj Sids Hx Hi Hj Hij) as (ids & -> & Si & Xi & Hlen & Vids). cbn [mbind res_bind].
  destruct (rows_swap_ok _ _ _ i j (active b) Srows HiN HjN Hij ltac:(by eapply active_nonneg) ltac:(by eapply active_nonneg)) as (rws & -> & Sr & Vr). cbn [mbind res_bind].
  destruct (multi_ok (swap_row (Z.of_nat i) (Z.of_nat j)) (Z.to_nat max_num_reqs) (tr i j) (fun _ => True) (block_table b)) as (ts & Ets & St & Vt).
  { intros t Ht. destruct (swap_row_ok _ t i j Ht HiN HjN) as (t' & ? & ? & ?). by exists t'. } { done. }
  unfold multi_swap_row. rewrite Ets. cbn [mbind res_bind].
  destruct (sampling_swap_ok _ _ i j Ssam HiN HjN) as (sam & -> & Ss & Vs). cbn [mbind res_bind].
  destruct (dicts_swap_ok _ i j Sdict HiN HjN) as (dic & -> & Sd & Eg & Ew). cbn [mbind res_bind].
  eexists. split; [reflexivity|]. set (b' := mkBatch _ _ _ _ _ _ _ _ _ _ _).
  assert (Hrow : forall k, rows b' !! k = rows b !! tr i j k) by (intros k; apply Vids).
  assert (Hview : forall k, (k < Z.to_nat max_num_reqs)%nat -> view b' k = view b (tr i j k)).
  { intros k Hk. destruct (Vids k) as (_ & Vo & Vsp). apply view_eq; try done; cbn.
    - by eapply rows_reidx_at.
    - by apply Vt.
    - by apply Vs.
    - rewrite Eg. apply swap_dict_values_lookup.
    - rewrite Ew. apply swap_dict_values_lookup. }
  assert (Hmap : batch_map b' = batch_map b).
  { apply (batch_map_reidx (tr i j)); [done..| |].
    - intros x k Hk. pose proof Hk as Hlt%lookup_lt_Some. cbn in Hlt. rewrite Hlen in Hlt. destruct Sids as (_ & _ & HN).
      split; [unfold row_of in *; by rewrite <-Hrow|apply Hview; lia].
    - intros x k Hk. exists (tr i j k). unfold row_of in *. by rewrite Hrow, tr_invol. }
  assert (Hlive' : forall k, live b' k <-> live b (tr i j k)) by (intros k; unfold live, row_of; by rewrite Hrow).
  split; [|split; [done|split; [done|done]]]. constructor; [constructor; [by constructor|done| |by rewrite Hmap]| |].
  - intros k Hk. cbn. rewrite Eg, Ew, !swap_dict_values_lookup. destruct (Vids k) as (_ & _ & ->). apply He. by rewrite <-Hlive'.
  - intros k Hk. apply Hlive', Hlive, tr_lt; [done..|]. cbn in Hk. by rewrite Hlen in Hk.
  - cbn. eapply in_sync_swap; [exact Hsync|done|done|done|exact Hrow].
Qed.
End Ops.

(** * Requests that enter the persistent batch: the row shows the request, the other
    rows are as before. *)

Lemma np_set_row {A} (l : list A) (i : nat) x l' : np_set l (Z.of_nat i) x = Ok l' ->
  length l' = length l /\ (forall k, k <> i -> l' !! k = l !! k) /\ l' !! i = Some x.
Proof.
  intros [Hi ->]%np_set_Ok. rewrite Nat2Z.id. unfold zlen in Hi. split; [by rewrite length_insert|].
  split; [intros k Hk; by rewrite list_lookup_insert_ne|]. by rewrite list_lookup_insert_eq by lia.
Qed.

Lemma np_update_row {A} (l : list A) (i : nat) f l' : np_update l (Z.of_nat i) f = Ok l' ->
  length l' = length l /\ (forall k, k <> i -> l' !! k = l !! k) /\ exists x y, l !! i = Some x /\ f x = Ok y /\ l' !! i = Some y.
Proof.
  intros (x & y & Hx & Hy & ->)%np_update_Ok. split; [by rewrite length_insert|]. split; [intros k Hk; by rewrite list_lookup_insert_ne|].
  exists x, y. split; [done|]. split; [done|]. by rewrite list_lookup_insert_eq by (by eapply lookup_lt_Some).
Qed.

(** [row[n : n + len(vals)] = vals], when it returns, is cut at the end of the row. *)
Lemma np_assign_take {A} (row : list A) n vals row' : 0 <= n -> np_assign row n (n + zlen vals) vals = Ok row' ->
  take (Z.to_nat (n + zlen vals)) row' = take (length row) (take (Z.to_nat n) row ++ vals).
Proof.
  intros Hn H. pose proof (np_assign_length _ _ _ _ _ H) as Hlen. unfold np_assign in H.
  assert (E1 : py_clip (zlen row) n = Z.min n (zlen row)) by (clear H; unfold py_clip, zlen; case_match; lia). rewrite E1 in H.
  assert (E2 : Z.max (Z.min n (zlen row)) (py_clip (zlen row) (n + zlen vals)) = Z.min (n + zlen vals) (zlen row)) by (clear H; unfold py_clip, zlen; case_match; lia).
  rewrite E2 in H. unfold zlen in *. destruct (_ =? _) eqn:E.
  - injection H as <-. assert (En : take (Z.to_nat (Z.min n (Z.of_nat (length row)))) row = take (Z.to_nat n) row).
    { destruct (Z.le_gt_cases n (Z.of_nat (length row))); [by rewrite Z.min_l|]. rewrite Z.min_r, !take_ge by lia. done. }
    rewrite En, app_assoc. set (h := take (Z.to_nat n) row). assert (Hh : (length (h ++ vals) <= length row)%nat) by (unfold h; rewrite length_app, length_take; lia).
    rewrite (take_ge (h ++ vals)) by done. destruct (Nat.le_gt_cases (Z.to_nat (n + Z.of_nat (length vals))) (length row)) as [Hle|Hgt].
    + rewrite take_app_le by (unfold h; rewrite length_app, length_take; lia). apply take_ge. unfold h. rewrite length_app, length_take. lia.
    + rewrite drop_ge, app_nil_r by lia. apply take_ge. lia.
  - destruct vals as [|x [|? ?]]; [done| |done]. cbn in *. injection H as <-.
    assert (Ez : Z.min (n + Z.of_nat 1) (Z.of_nat (length row)) = Z.of_nat (length row) /\ Z.min n (Z.of_nat (length row)) = Z.of_nat (length row)) by lia.
    destruct Ez as [Ez1 Ez2]. rewrite Ez1, Ez2, Z.sub_diag, Nat2Z.id. cbn. rewrite (take_ge row (length row)), (take_ge row (Z.to_nat n)), (drop_ge row), app_nil_r by lia.
    by rewrite take_app_length, take_ge by lia.
Qed.

Lemma take_app_take {A} n (l k : list A) : take n (take n l ++ k) = take n (l ++ k).
Proof.
  destruct (Nat.le_gt_cases n (length l)) as [Hle|Hgt]; [|by rewrite (take_ge l) by lia].
  rewrite !take_app_le by (rewrite ?length_take; lia). by rewrite take_take, Nat.min_id.
Qed.

Section Add.
Context {Tensor Generator LoRA Pooling States Logprobs T : Type} (max_num_reqs max_model_len vocab_size : Z) (new_state : AddedParams -> option T).
Context (len_tensor : Tensor -> Z) (lora_int_id : LoRA -> Z) (requires_token_ids : Pooling -> bool) (as_float32 : spec_float -> spec_float).
(** A tensor has no negative length. *)
Context (len_tensor_pos : forall t, 0 <= len_tensor t).
Abbreviation InputBatch := (@InputBatch Tensor Generator LoRA Pooling States Logprobs).
Abbreviation Cached := (@CachedRequestState Tensor Generator LoRA Pooling States).
Abbreviation batch_ok := (@batch_ok Tensor Generator LoRA Pooling States Logprobs max_num_reqs max_model_len).
Implicit Types (b : InputBatch) (S : gmap string T) (E : gmap Z T) (request : Cached).
Abbreviation rows b := (_req_ids (ib_ids b)).
Abbreviation builder b := (batch_update_builder b).
Abbreviation open_batch := (open_batch max_num_reqs max_model_len new_state).
Abbreviation prompt_len request := (prompt_length len_tensor (cr_prompt_token_ids request) (cr_prompt_embeds request)).
Let W := Z.to_nat max_model_len.

(** ** What the row of a request shows *)

Definition lora_of request : Z := match cr_lora_request request with Some l => lora_int_id l | None => 0 end.
Definition row_shows (tables : list BlockTable) request (p : RowParams) (v : RowView (Generator:=Generator)) : Prop := exists n_prompt,
  prompt_len request = Ok n_prompt /\ rv_output v = Some (Some (cr_output_ref request)) /\ rv_spec v = Some [] /\
  rv_num_prompt v = Some n_prompt /\ rv_num_tokens v = Some (n_prompt + zlen (cr_output_token_ids request)) /\
  rv_num_computed v = Some (cr_num_computed_tokens request) /\ rv_lora v = Some (lora_of request) /\
  (forall prompt, cr_prompt_token_ids request = Some prompt -> rv_tokens v = Some (take W (prompt ++ cr_output_token_ids request))) /\
  (forall g t ids, tables !! g = Some t -> cr_block_ids request !! g = Some ids -> ids <> [] -> rv_blocks v !! g = Some (Some (kernel_ids t ids))) /\
  rv_generator v = cr_generator request /\
  rv_bad_words v = (if non_empty (rp_bad_words_token_ids p) then rp_bad_words_token_ids p else None) /\
  rv_sampling v = (Some (if rp_greedy p then S754_zero false else as_float32 (rp_temperature p)), Some (as_float32 (rp_top_p p)),
    Some (if (0 <? rp_top_k p) && (rp_top_k p <? vocab_size) then rp_top_k p else vocab_size), Some (as_float32 (rp_frequency_penalty p)),
    Some (as_float32 (rp_presence_penalty p)), Some (as_float32 (rp_repetition_penalty p)), Some 1).

Lemma prompt_length_pos request n : prompt_len request = Ok n -> 0 <= n.
Proof.
  unfold prompt_length, zlen. destruct (cr_prompt_token_ids request), (cr_prompt_embeds request); [destruct (_ =? _)| | |]; intros [= <-]; try lia. apply len_tensor_pos.
Qed.

Lemma prompt_length_tokens request n prompt : prompt_len request = Ok n -> cr_prompt_token_ids request = Some prompt -> n = zlen prompt.
Proof. unfold prompt_length. intros H Hp. rewrite Hp in H. destruct (cr_prompt_embeds request); [destruct (_ =? _)|]; by inversion H. Qed.

(** ** The parts of the state *)

Lemma ids_add_Ok d (i : nat) request d' : ids_shape max_num_reqs d -> index_ok d -> req_id_to_index d !! cr_req_id request = None ->
  _req_ids d !! i = Some None \/ i = length (_req_ids d) -> (i < Z.to_nat max_num_reqs)%nat -> ids_add (Z.of_nat i) request d = Ok d' ->
  ids_shape max_num_reqs d' /\ index_ok d' /\ (forall k, k <> i -> _req_ids d' !! k = _req_ids d !! k) /\ row_of d' i (cr_req_id request) /\
  (forall k, k <> i -> (k < length (_req_ids d))%nat -> req_output_token_ids d' !! k = req_output_token_ids d !! k /\ spec_token_ids d' !! k = spec_token_ids d !! k) /\
  req_output_token_ids d' !! i = Some (Some (cr_output_ref request)) /\ (default [] (spec_token_ids d !! i) = [] -> spec_token_ids d' !! i = Some []) /\
  forall k, default [] (spec_token_ids d !! k) = [] -> default [] (spec_token_ids d' !! k) = [].
Proof.
  intros (Ho & Hs & Hn) Hx Hfresh Hi HiN H. unfold ids_add in H. set (r := cr_req_id request) in *.
  assert (Hnew : forall ids outs specs, (forall k, k <> i -> ids !! k = _req_ids d !! k) -> ids !! i = Some (Some r) -> index_ok (mkIds ids (<[r := Z.of_nat i]> (req_id_to_index d)) outs specs)).
  { intros ids outs specs Hne Heq x n. cbn. rewrite lookup_insert_Some. split.
    - intros [[<- <-]|[Hr (k & -> & Hk)%Hx]]; [by exists i|]. exists k. split; [done|]. unfold row_of in *. cbn. rewrite Hne; [done|].
      intros ->. destruct Hi as [Hi| ->]; [congruence|]. apply lookup_lt_Some in Hk. lia.
    - intros (k & -> & Hk). unfold row_of in Hk. cbn in Hk. destruct (decide (k = i)) as [->|Hki]; [left; split; congruence|].
      rewrite Hne in Hk by done. right. pose proof (index_row _ _ _ Hx Hk) as Hxk. split; [|done]. intros <-. congruence. }
  destruct (Z.of_nat i =? zlen (_req_ids d)) eqn:Ez.
  - unfold zlen in Ez. assert (i = length (_req_ids d)) as Ei by lia. injection H as <-.
    assert (Hne : forall k, k <> i -> (_req_ids d ++ [Some r]) !! k = _req_ids d !! k).
    { intros k Hk. destruct (Nat.lt_ge_cases k i); [by rewrite lookup_app_l by lia|]. rewrite !lookup_ge_None_2; rewrite ?length_app; cbn; (done || lia). }
    assert (Heq : (_req_ids d ++ [Some r]) !! i = Some (Some r)) by (rewrite Ei; by apply list_lookup_middle).
    split; [split; [|split]; cbn; rewrite !length_app; cbn; lia|]. split; [by apply Hnew|]. split; [done|]. split; [done|]. cbn. split; [|split; [|split]].
    + intros k _ Hk. by rewrite !lookup_app_l by lia.
    + rewrite Ei, <-Ho. by apply list_lookup_middle.
    + intros Hd. destruct (Nat.lt_ge_cases i (length (spec_token_ids d))) as [Hlt|Hge].
      * rewrite lookup_app_l by done. apply lookup_lt_is_Some_2 in Hlt as [s Es]. rewrite Es in *. cbn in Hd. by subst s.
      * assert (i = length (spec_token_ids d)) as -> by lia. by apply list_lookup_middle.
    + intros k Hd. destruct (Nat.lt_ge_cases k (length (spec_token_ids d))) as [Hlt|Hge]; [by rewrite lookup_app_l by done|].
      rewrite lookup_app_r by done. by destruct (k - length (spec_token_ids d))%nat as [|[|?]].
  - bind_inv H as ids Hids. bind_inv H as outs Houts. bind_inv H as specs Hspecs. injection H as <-.
    apply np_set_row in Hids as (Hl1 & Hne1 & Heq1), Houts as (Hl2 & Hne2 & Heq2), Hspecs as (Hl3 & Hne3 & Heq3).
    split; [split; [|split]; cbn; lia|]. split; [by apply Hnew|]. split; [done|]. split; [done|]. cbn. split; [intros k Hk _; by rewrite Hne2, Hne3|].
    split; [done|]. split; [done|]. intros k Hd. destruct (decide (k = i)) as [->|]; [by rewrite Heq3|by rewrite Hne3].
Qed.

Lemma rows_add_Ok d (i : nat) request d' : rows_shape max_num_reqs max_model_len d -> rows_add len_tensor lora_int_id (Z.of_nat i) request d = Ok d' ->
  rows_shape max_num_reqs max_model_len d' /\ (forall k n, k <> i -> rows_at n d d' k k) /\
  exists n_prompt, prompt_len request = Ok n_prompt /\ num_prompt_tokens d' !! i = Some n_prompt /\
    num_tokens_no_spec d' !! i = Some (n_prompt + zlen (cr_output_token_ids request)) /\
    num_computed_tokens_cpu d' !! i = Some (cr_num_computed_tokens request) /\ request_lora_mapping d' !! i = Some (lora_of request) /\
    forall prompt, cr_prompt_token_ids request = Some prompt ->
      take (Z.to_nat (n_prompt + zlen (cr_output_token_ids request))) <$> token_ids_cpu d' !! i = Some (take W (prompt ++ cr_output_token_ids request)).
Proof.
  intros [Ht Hw Hf Hwf Hnt Hpos Hnp Hppos Hnc Hl] H. unfold rows_add in H. bind_inv H as np Enp. pose proof (prompt_length_pos _ _ Enp) as Hnp0.
  assert (Hpt : forall prompt, cr_prompt_token_ids request = Some prompt -> np = zlen prompt) by (intros prompt Hp; by eapply prompt_length_tokens).
  bind_inv H as nps Enps. bind_inv H as toks Etoks. bind_inv H as flags Eflags. bind_inv H as toks2 Etoks2. bind_inv H as flags2 Eflags2.
  bind_inv H as n En. bind_inv H as nts Ents. bind_inv H as ncs Encs. bind_inv H as loras Eloras. injection H as <-.
  assert (n = np + zlen (cr_output_token_ids request)) as ->.
  { unfold cr_num_tokens in En. rewrite Enp in En. cbn [mbind res_bind] in En. by injection En. }
  assert (Htoks : length toks = length (token_ids_cpu d) /\ width W toks /\ (forall k, k <> i -> toks !! k = token_ids_cpu d !! k) /\
    forall prompt row, cr_prompt_token_ids request = Some prompt -> toks !! i = Some row -> take (Z.to_nat np) row = take W prompt).
  { destruct (cr_prompt_token_ids request) as [prompt|] eqn:Ep; [|injection Etoks as <-; by repeat split].
    pose proof (width_update W _ _ _ _ Hw (fun x y => np_assign_length x _ _ _ y) Etoks) as Hw1. apply np_update_row in Etoks as (H1 & H2 & x & y & Hx & Hy & Hy').
    split; [done|]. split; [done|]. split; [done|]. intros prompt' row [= <-] Hrow. rewrite Hy' in Hrow. injection Hrow as <-.
    pose proof (Hpt prompt eq_refl) as ->. replace (zlen prompt) with (0 + zlen prompt) in Hy by lia.
    apply np_assign_take in Hy; [|done]. rewrite (width_lookup _ _ _ _ Hw Hx) in Hy. exact Hy. }
  destruct Htoks as (Hl1 & Hw1 & Hne1 & Heq1).
  pose proof (width_update W _ _ _ _ Hw1 (fun x y => np_assign_length x _ _ _ y) Etoks2) as Hw2.
  assert (Hfill : forall lo hi v (x y : list bool), Ok (np_fill x lo hi v) = Ok y -> length y = length x) by (intros lo hi v x y [= <-]; apply np_fill_length).
  pose proof (width_update W _ _ _ _ Hwf (Hfill _ _ _) Eflags) as Hw3. pose proof (width_update W _ _ _ _ Hw3 (Hfill _ _ _) Eflags2) as Hw4.
  apply np_update_row in Etoks2 as (Hl2 & Hne2 & x2 & y2 & Hx2 & Hy2 & Heq2), Eflags as (Hl3 & Hne3 & _), Eflags2 as (Hl4 & Hne4 & _).
  apply np_set_row in Enps as (Hl5 & Hne5 & Heq5), Ents as (Hl6 & Hne6 & Heq6), Encs as (Hl7 & Hne7 & Heq7), Eloras as (Hl8 & Hne8 & Heq8).
  split; [|split].
  - constructor; cbn; try done; try congruence; intros z [k Hk]%list_elem_of_lookup; destruct (decide (k = i)) as [->|Hki].
    + rewrite Heq6 in Hk. injection Hk as <-. unfold zlen. lia.
    + rewrite Hne6 in Hk by done. apply Hpos. by eapply list_elem_of_lookup_2.
    + rewrite Heq5 in Hk. by injection Hk as <-.
    + rewrite Hne5 in Hk by done. apply Hppos. by eapply list_elem_of_lookup_2.
  - intros k m Hk. unfold rows_at. cbn. by rewrite Hne6, Hne5, Hne7, Hne8, Hne2, Hne1, Hne4, Hne3 by done.
  - exists np. cbn. split; [done|]. split; [done|]. split; [done|]. split; [done|]. split; [done|]. intros prompt Hp. rewrite Heq2. cbn. f_equal.
    specialize (Heq1 prompt x2 Hp Hx2). pose proof (width_lookup _ _ _ _ Hw1 Hx2) as Hlx. pose proof (Hpt prompt Hp) as ->.
    apply np_assign_take in Hy2; [|done]. rewrite Hy2, Hlx, Heq1. apply take_app_take.
Qed.
Lemma sampling_add_Ok d (i : nat) p d' acc : sampling_shape max_num_reqs d -> sampling_add as_float32 vocab_size (Z.of_nat i) p d = Ok d' ->
  np_set (num_accepted_tokens_cpu d') (Z.of_nat i) 1 = Ok acc ->
  let s := mkSampling (temperature_cpu d') (top_p_cpu d') (top_k_cpu d') (frequency_penalties_cpu d') (presence_penalties_cpu d') (repetition_penalties_cpu d') acc in
  sampling_shape max_num_reqs s /\ (forall k, k <> i -> sampling_view s k = sampling_view d k) /\
  sampling_view s i = (Some (if rp_greedy p then S754_zero false else as_float32 (rp_temperature p)), Some (as_float32 (rp_top_p p)),
    Some (if (0 <? rp_top_k p) && (rp_top_k p <? vocab_size) then rp_top_k p else vocab_size), Some (as_float32 (rp_frequency_penalty p)),
    Some (as_float32 (rp_presence_penalty p)), Some (as_float32 (rp_repetition_penalty p)), Some 1).
Proof.
  intros [H1 H2 H3 H4 H5 H6 H7] H Hacc s. unfold sampling_add in H. bind_inv H as ts Ets. bind_inv H as ps Eps. bind_inv H as ks Eks. bind_inv H as fs Efs.
  bind_inv H as prs Eprs. bind_inv H as rs Ers. injection H as <-. cbn in Hacc.
  apply np_set_row in Ets as (L1 & N1 & Q1), Eps as (L2 & N2 & Q2), Eks as (L3 & N3 & Q3), Efs as (L4 & N4 & Q4), Eprs as (L5 & N5 & Q5), Ers as (L6 & N6 & Q6), Hacc as (L7 & N7 & Q7).
  split; [constructor; cbn; congruence|]. unfold sampling_view, s. cbn. split; [|by rewrite Q1, Q2, Q3, Q4, Q5, Q6, Q7].
  intros k Hk. by rewrite N1, N2, N3, N4, N5, N6, N7 by done.
Qed.

Lemma dicts_add_Ok d (i : nat) g p d' : dicts_shape max_num_reqs d -> dicts_add max_num_reqs vocab_size (Z.of_nat i) g p d = Ok d' ->
  dicts_shape max_num_reqs d' /\
  generators d' = (match g with Some g => <[Z.of_nat i := g]> (generators d) | None => generators d end : gmap Z Generator) /\
  bad_words_token_ids d' = (if non_empty (rp_bad_words_token_ids p) then <[Z.of_nat i := default [] (rp_bad_words_token_ids p)]> (bad_words_token_ids d) else bad_words_token_ids d).
Proof.
  intros Hd H. unfold dicts_add in H. bind_inv H as mask Emask. injection H as <-. split; [|done]. intros m Hm. cbn in Hm. subst mask.
  destruct (non_empty _); [|apply Hd; by injection Emask]. bind_inv Emask as m' Em. injection Emask as <-. apply np_update_row in Em as (-> & _ & _).
  unfold dicts_shape in Hd. destruct (allowed_token_ids_mask_cpu_tensor d) as [m0|]; cbn; [by apply Hd|]. unfold zreplicate. by rewrite length_replicate.
Qed.

Lemma multi_add_Ok n (i : nat) idss ts ts' : Forall (table_wf n) ts -> multi_add_row idss (Z.of_nat i) ts = Ok ts' ->
  Forall (table_wf n) ts' /\ (forall k, k <> i -> tables_view ts' k = tables_view ts k) /\
  forall g t ids, ts !! g = Some t -> idss !! g = Some ids -> ids <> [] -> tables_view ts' i !! g = Some (Some (kernel_ids t ids)).
Proof.
  unfold multi_add_row. intros Hts. revert idss ts'. induction Hts as [|t ts Ht Hts IH]; intros idss ts' H.
  - assert (ts' = []) as -> by (destruct idss; by injection H). by repeat split.
  - destruct idss as [|ids idss]; [done|]. cbn in H. bind_inv H as t' Et. bind_inv H as ts1 Ets. injection H as <-.
    destruct (IH _ _ Ets) as (H1 & H2 & H3). destruct (add_row_Ok _ _ _ _ _ Ht Et) as (H4 & H5 & H6). split; [by constructor|]. split.
    + intros k Hk. unfold tables_view in *. cbn. by rewrite H5, H2 by done.
    + intros [|g] t0 ids0 Hg Hids Hne; cbn in *.
      * injection Hg as <-. injection Hids as <-. by rewrite H6.
      * by eapply H3.
Qed.

Lemma lora_add_Ok d request :
  (forall n r, lora_known d n r -> lora_known (lora_add lora_int_id (cr_req_id request) (cr_lora_request request) d) n r) /\
  (lora_of request <> 0 -> lora_known (lora_add lora_int_id (cr_req_id request) (cr_lora_request request) d) (lora_of request) (cr_req_id request)).
Proof.
  unfold lora_of, lora_add. destruct (cr_lora_request request) as [l|]; [|by split]. split.
  - intros n r (s & Hs & Hr & Hl). unfold lora_known. cbn. destruct (decide (lora_int_id l = n)) as [<-|Hne].
    + rewrite !lookup_insert_eq, Hs. eexists. split; [done|]. split; [cbn; set_solver|done].
    + rewrite !lookup_insert_ne by done. by exists s.
  - intros _. unfold lora_known. cbn. rewrite !lookup_insert_eq. eexists. split; [done|]. split; [set_solver|done].
Qed.

(** The row that a new request gets. *)
Lemma register_Ok S E b request n u' : open_batch S E b -> _register_add_request max_num_reqs request b = Ok (n, u') ->
  exists i : nat, n = Z.of_nat i /\ (i < Z.to_nat max_num_reqs)%nat /\ (rows b !! i = Some None \/ i = length (rows b)) /\ Z.of_nat i ∉ _removed u' /\
    (forall j, j <> Z.of_nat i -> j ∈ _removed u' <-> j ∈ _removed (builder b)) /\ NoDup (_removed u') /\ sorted_ok u' /\ moved u' = [] /\
    added u' = added (builder b) ++ (match cr_sampling_params request with Some p => [(Z.of_nat i, (p, cr_prompt_token_ids request, cr_output_ref request))] | None => [] end).
Proof.
  intros [Hok Hho _ Hm]. unfold _register_add_request. destruct (pop_removed_cases _ (ho_sorted _ _ Hho)) as [[E0 Epop]|(l & x & u & Epop & El & Hp & Hl & _ & Ha & Hm' & Hf)];
    rewrite Epop; intros H; bind_inv H as a Ha'; apply r_assert_Ok in Ha'; injection H as <- <-.
  - pose proof (batch_count _ _ (bo_index _ _ _ Hok) Hho) as Hc. rewrite E0 in Hc. cbn in Hc. cbn in Ha' |- *.
    assert (En : batch_num_reqs b = Z.of_nat (length (rows b))) by (unfold batch_num_reqs; lia). rewrite En in *. exists (length (rows b)).
    split; [done|]. split; [lia|]. split; [by right|].
    destruct (cr_sampling_params request); cbn; rewrite E0, Hm; (split; [apply not_elem_of_nil|]); (split; [done|]); (split; [constructor|]); (split; [intros _; cbn; rewrite ?E0; constructor|]); (split; [done|]); [done|by rewrite app_nil_r].
  - destruct Hho as [Hnd Hh _]. assert (Hx : x ∈ _removed (builder b)) by (rewrite Hp; apply elem_of_app; right; by apply list_elem_of_singleton).
    apply Hh in Hx as (i & -> & Hi). exists i. cbn in Ha' |- *. rewrite Hp in Hnd. apply NoDup_app in Hnd as (Hndl & Hnin & _). split; [done|]. split; [lia|]. split; [by left|].
    destruct (cr_sampling_params request); cbn; rewrite El, Hm', Hm, Ha; (split; [intros Hin; apply (Hnin _ Hin); by apply list_elem_of_singleton|]);
      (split; [intros j Hj; rewrite Hp, elem_of_app, list_elem_of_singleton; tauto|]); (split; [done|]); (split; [intros _; cbn; by rewrite El|]); (split; [done|]); [done|by rewrite app_nil_r].
Qed.
Abbreviation add_request := (batch_add_request len_tensor lora_int_id requires_token_ids as_float32 max_num_reqs vocab_size).

Lemma add_ok S E b request p n b' : open_batch S E b -> req_id_to_index (ib_ids b) !! cr_req_id request = None -> cr_sampling_params request = Some p ->
  add_request request b = Ok (n, b') ->
  open_batch (new_request_state new_state S (cr_req_id request) (p, cr_prompt_token_ids request, cr_output_ref request)) E b' /\
  exists v, row_shows (block_table b) request p v /\ batch_map b' = <[cr_req_id request := v]> (batch_map b).
Proof.
  intros Hop Hfresh Hp H. pose proof Hop as [Hok Hho Hsync Hmv]. unfold batch_add_request in H. set (r := cr_req_id request) in *. bind_inv H as [n0 u'] Hreg. cbn [fst snd] in H.
  destruct (register_Ok S E b request n0 u' Hop Hreg) as (i & -> & HiN & Hrow & Hin & Hrem & Hnd & Hso & Hmov & Hadd). rewrite Hp in Hadd.
  bind_inv H as ids Eids. bind_inv H as rws Erws. bind_inv H as ts Ets. rewrite Hp in H.
  bind_inv H as spd Espd. bind_inv Espd as sam Esam. bind_inv Espd as dic Edic. injection Espd as <-. bind_inv H as acc Eacc. injection H as <- <-.
  pose proof Hok as [Hs Hx He Hlora]. destruct Hs as [Sids Srows Stab Ssam Sdict Sneed].
  destruct (ids_add_Ok _ _ _ _ Sids Hx Hfresh Hrow HiN Eids) as (Si & Xi & Hne & Hri & Hsame & Hout & Hspec & Hspecs).
  destruct (rows_add_Ok _ _ _ _ Srows Erws) as (Sr & Vr & n_prompt & Enp & Vnp & Vnt & Vnc & Vl & Vtok).
  destruct (multi_add_Ok _ _ _ _ _ Stab Ets) as (St & Vt & Vti).
  destruct (sampling_add_Ok _ _ _ _ _ Ssam Esam Eacc) as (Ss & Vs & Vsi). destruct (dicts_add_Ok _ _ _ _ _ Sdict Edic) as (Sd & Eg & Ew).
  destruct (lora_add_Ok (ib_lora b) request) as [Hlk Hlnew].
  set (b' := mkBatch _ _ _ _ _ _ _ _ _ _ _). assert (Hnl : ~ live b i).
  { intros (x & Hxr). destruct Hrow as [Hn| ->]; unfold row_of in *; [congruence|]. apply lookup_lt_Some in Hxr. lia. }
  destruct (He i Hnl) as (Hgi & Hwi & Hsi).
  assert (Hview : forall k, k <> i -> (k < length (rows b))%nat -> view b' k = view b k).
  { intros k Hk Hlt. destruct (Hsame k Hk Hlt) as [Vo Vsp]. apply view_eq; cbn.
    - done. - done. - by apply Vr. - by apply Vt. - by apply Vs.
    - rewrite Eg. destruct (cr_generator request); [by rewrite lookup_insert_ne by lia|done].
    - rewrite Ew. destruct (non_empty _); [by rewrite lookup_insert_ne by lia|done]. }
  assert (Hmap : batch_map b' = <[r := view b' i]> (batch_map b)).
  { apply map_eq. intros x. apply option_eq. intros v. rewrite lookup_insert_Some. split.
    - intros (k & Hk & ->)%(batch_map_Some b' _ _ Xi). destruct (decide (k = i)) as [->|Hki].
      + left. unfold row_of in *. cbn in Hk. rewrite Hri in Hk. by injection Hk as <-.
      + right. unfold row_of in Hk. cbn in Hk. rewrite Hne in Hk by done. split; [intros <-; pose proof (index_row _ _ _ Hx Hk); congruence|].
        rewrite Hview by (done || by eapply lookup_lt_Some). by apply (batch_map_row max_num_reqs max_model_len).
    - intros [[<- <-]|[Hxr (k & Hk & ->)%(batch_map_Some _ _ _ Hx)]].
      + unfold batch_map. rewrite lookup_fmap, (index_row (ib_ids b') r i Xi Hri). cbn. by rewrite Nat2Z.id.
      + assert (Hki : k <> i) by (intros ->; apply Hnl; by exists x). rewrite <-Hview by (done || by eapply lookup_lt_Some).
        unfold batch_map. rewrite lookup_fmap, (index_row (ib_ids b') x k Xi) by (unfold row_of; cbn; by rewrite Hne). cbn. by rewrite Nat2Z.id. }
  assert (Hnone : forall k, _req_ids ids !! k = Some None <-> k <> i /\ rows b !! k = Some None).
  { intros k. destruct (decide (k = i)) as [->|Hki]; [unfold row_of in Hri; rewrite Hri; naive_solver|]. rewrite Hne by done. tauto. }
  split; [constructor|].
  - constructor; [by constructor|done| |].
    + intros k Hk. cbn. assert (Hki : k <> i) by (intros ->; apply Hk; by exists r).
      destruct (He k) as (H1 & H2 & H3); [intros (x & Hxr); apply Hk; exists x; unfold row_of in *; cbn; by rewrite Hne|].
      rewrite Eg, Ew. split; [destruct (cr_generator request); [by rewrite lookup_insert_ne by lia|done]|].
      split; [destruct (non_empty _); [by rewrite lookup_insert_ne by lia|done]|]. by apply Hspecs.
    + intros x v m Hv Hm Hm0. rewrite Hmap in Hv. apply lookup_insert_Some in Hv as [[<- <-]|[_ Hv]].
      * cbn in Hm. rewrite Vl in Hm. injection Hm as <-. by apply Hlnew.
      * apply Hlk. by eapply Hlora.
  - constructor; cbn; [done| |done]. intros j. destruct (decide (j = Z.of_nat i)) as [->|Hji].
    + split; [done|]. intros (k & Ek & [Hki _]%Hnone). lia.
    + rewrite Hrem, (ho_holes _ _ Hho) by done. split; intros (k & -> & Hk); exists k; (split; [done|]); apply Hnone; [split; [|done]; congruence|done].
  - cbn. eapply in_sync_add; [exact Hsync|exact Hmv|exact Hmov|exact Hadd|exact Hin|exact Hrem|exact Hri|exact Hne|].
    intros k Hk. pose proof (index_row (ib_ids b) r k Hx Hk). congruence.
  - done.
  - exists (view b' i). split; [|done]. exists n_prompt. cbn. specialize (Hspec Hsi). rewrite Vnp, Vnt, Vnc, Vl, Hout, Hspec, Vsi, Eg, Ew.
    assert (Ha : active b' i = n_prompt + zlen (cr_output_token_ids request)) by (unfold active; cbn; rewrite Vnt, Hspec; unfold zlen; cbn; lia). rewrite Ha.
    repeat (split; [done|]).
    split; [destruct (cr_generator request); [by rewrite lookup_insert_eq|done]|]. split; [|done].
    destruct (rp_bad_words_token_ids p) as [[|w ws]|]; cbn; [done|by rewrite lookup_insert_eq|done].
Qed.
End Add.
