(* ===== verification/BatchReorder.v ===== *)
(** The order of the rows that attention backends ask for
    ([reorder_batch_to_split_decodes_and_prefills] of
    [vllm/v1/attention/backends/utils.py]): decodes, then short and long extensions,
    then prefills, by swaps along the cycles of a permutation. *)
From S2P Require Import Prelude PyRes PyFloat BatchUpdate BlockTable InputBatch.
From stdpp Require Import sorting.
From S2P Require Import BatchRows BatchInv BatchOps.
Local Open Scope Z_scope.

(** The category of a request: 0 decode, 1 short extension, 2 long extension, 3
    prefill. *)
Definition req_region (decode_threshold num_scheduled num_computed num_prompt : Z) : Z :=
  let has_context := 0 <? num_computed in
  let is_below_threshold := num_scheduled <=? decode_threshold in
  let done_prefilling := num_prompt <=? num_computed in
  let is_pure_prefill := negb has_context in
  let is_long_extend := has_context && negb is_below_threshold in
  let is_short_extend := has_context && is_below_threshold && negb done_prefilling in
  let region := 0 in
  let region := if is_short_extend then 1 else region in
  let region := if is_long_extend then 2 else region in
  if is_pure_prefill then 3 else region.

Definition region_count (region : Z) (regions : list Z) : Z := zlen (filter (fun x => x = region) regions).
(** [np.repeat] *)
Definition target_regions (regions : list Z) : list Z :=
  concat (map (fun r => zreplicate (region_count r regions) r) [0; 1; 2; 3]).

Section Reorder.
Context {Tensor Generator LoRA Pooling States Logprobs : Type} (is_pooling_model : bool).
Abbreviation InputBatch := (@InputBatch Tensor Generator LoRA Pooling States Logprobs).

Definition req_regions (decode_threshold : Z) (num_scheduled_tokens : gmap string Z) (b : InputBatch) : res (list Z) :=
  let num_reqs := length (_req_ids (ib_ids b)) in
  ns ← mapM (fun o => match o ≫= fun r => num_scheduled_tokens !! r with Some n => Ok n | None => Err KeyError end) (_req_ids (ib_ids b)) ;
  let computed := take num_reqs (num_computed_tokens_cpu (ib_rows b)) in
  let prompt := take num_reqs (num_prompt_tokens (ib_rows b)) in
  if (length computed =? num_reqs)%nat && (length prompt =? num_reqs)%nat
  then Ok (zip_with (fun n cp => req_region decode_threshold n cp.1 cp.2) ns (zip computed prompt)) else Err ValueError.

(** [while src != dst]: the request at [src] goes to [dst]; the one that was there
    is next. *)
Fixpoint cycle_loop (fuel : nat) (src dst : nat) (src_dest_map : gmap nat nat) (b : InputBatch) : res (gmap nat nat * InputBatch) :=
  if (src =? dst)%nat then Ok (src_dest_map, b)
  else
    match fuel with
    | O => Err FuelExhausted
    | S fuel =>
        b ← swap_states is_pooling_model (Z.of_nat src) (Z.of_nat dst) b ;
        let next_dst := default dst (src_dest_map !! dst) in
        cycle_loop fuel src next_dst (<[dst := dst]> src_dest_map) b
    end.
(** [for src in src_dest_map]: the iterator raises if the dict has grown. *)
Fixpoint source_loop (srcs : list nat) (num_keys : nat) (src_dest_map : gmap nat nat) (b : InputBatch) : res InputBatch :=
  if negb (size src_dest_map =? num_keys)%nat then Err RuntimeError
  else
    match srcs with
    | [] => Ok b
    | src :: srcs =>
        dst ← match src_dest_map !! src with Some d => Ok d | None => Err KeyError end ;
        mb ← cycle_loop (S (size src_dest_map)) src dst src_dest_map b ;
        source_loop srcs num_keys mb.1 mb.2
    end.

Definition reorder_batch_to_split_decodes_and_prefills (decode_threshold : Z) (num_scheduled_tokens : gmap string Z) (b : InputBatch) : res (bool * InputBatch) :=
  regions ← req_regions decode_threshold num_scheduled_tokens b ;
  let targets := target_regions regions in
  let orig_indices := filter (fun i => regions !! i <> targets !! i) (seq 0 (length regions)) in
  match orig_indices with
  | [] => Ok (false, b)
  | _ =>
      let region i := default 0 (regions !! i) in
      let src_indices := merge_sort (H := fun i j => decide (region i <= region j)) (fun i j => region i <= region j) orig_indices in
      let src_dest_map : gmap nat nat := foldl (fun m sd => <[sd.1 := sd.2]> m) ∅ (zip src_indices orig_indices) in
      b ← source_loop src_indices (size src_dest_map) src_dest_map b ;
      Ok (true, b)
  end.
End Reorder.

(** * Regions and cycles: the target order is the sorted one, and swapping along the
    cycles of the map puts every request where it belongs. *)

(** ** The target order *)

Lemma req_region_bounds t n c p : 0 <= req_region t n c p <= 3.
Proof. unfold req_region. repeat case_match; lia. Qed.

Lemma target_count x regions : (forall y, y ∈ regions -> 0 <= y <= 3) ->
  length (filter (fun y => y = x) (target_regions regions)) = length (filter (fun y => y = x) regions).
Proof.
  intros Hb. assert (Hrep : forall r m, filter (fun y : Z => y = x) (replicate m r) = if decide (r = x) then replicate m r else []).
  { intros r m. induction m as [|m IH]; [by case_decide|]. cbn [replicate]. rewrite filter_cons, IH. by case_decide. }
  unfold target_regions, zreplicate, region_count, zlen. cbn [map concat]. rewrite !filter_app, !Hrep, !length_app, !Nat2Z.id.
  destruct (decide (0 <= x <= 3)) as [Hx|Hx].
  - repeat (case_decide; [subst; rewrite ?length_replicate; repeat (rewrite decide_False by lia); cbn; lia|]). lia.
  - repeat (rewrite decide_False by lia). cbn. symmetry. apply length_zero_iff_nil. destruct (filter _ regions) as [|y l] eqn:E; [done|].
    assert (Hy : y ∈ filter (fun y => y = x) regions) by (rewrite E; left). apply list_elem_of_filter in Hy as [-> Hy]. specialize (Hb _ Hy). lia.
Qed.

Lemma perm_of_counts (l k : list Z) : (forall x, length (filter (fun y => y = x) l) = length (filter (fun y => y = x) k)) -> l ≡ₚ k.
Proof.
  revert k. induction l as [|a l IH]; intros k Hc.
  - destruct k as [|b k]; [done|]. specialize (Hc b). by rewrite filter_cons_True in Hc.
  - assert (Ha : a ∈ k).
    { specialize (Hc a). rewrite filter_cons_True in Hc by done. destruct (filter _ k) as [|y m] eqn:E; [done|].
      assert (Hy : y ∈ filter (fun y => y = a) k) by (rewrite E; left). by apply list_elem_of_filter in Hy as [-> Hy]. }
    apply elem_of_Permutation in Ha as (k' & Hk). rewrite Hk. apply perm_skip, IH. intros x. specialize (Hc x). rewrite Hk in Hc. rewrite !filter_cons in Hc.
    case_decide; cbn in Hc; lia.
Qed.

Lemma target_perm regions : (forall y, y ∈ regions -> 0 <= y <= 3) -> target_regions regions ≡ₚ regions.
Proof. intros Hb. apply perm_of_counts. intros x. by apply target_count. Qed.

Lemma replicate_sorted n (x : Z) : StronglySorted Z.le (replicate n x).
Proof. induction n as [|n IH]; cbn; constructor; [done|]. apply Forall_replicate. lia. Qed.

Lemma target_sorted regions : StronglySorted Z.le (target_regions regions).
Proof.
  unfold target_regions, zreplicate. cbn [map concat].
  assert (H : forall n x l, StronglySorted Z.le l -> (forall y, y ∈ l -> x <= y) -> StronglySorted Z.le (replicate n x ++ l) /\ forall y, y ∈ replicate n x ++ l -> x <= y).
  { intros n x l Hl Hx. split.
    - apply StronglySorted_app. split; [|by split; [apply replicate_sorted|]]. intros y z [-> _]%elem_of_replicate Hz. by apply Hx.
    - intros y [[-> _]%elem_of_replicate|Hy]%elem_of_app; [lia|by apply Hx]. }
  destruct (H (Z.to_nat (region_count 3 regions)) 3 [] ltac:(constructor) ltac:(intros y Hy%elem_of_nil; done)) as [H3 B3].
  destruct (H (Z.to_nat (region_count 2 regions)) 2 _ H3) as [H2 B2]; [intros y Hy; specialize (B3 y Hy); lia|].
  destruct (H (Z.to_nat (region_count 1 regions)) 1 _ H2) as [H1 B1]; [intros y Hy; specialize (B2 y Hy); lia|].
  apply (H _ 0 _ H1). intros y Hy. specialize (B1 y Hy). lia.
Qed.

Lemma sorted_lookup (l : list Z) i j x y : StronglySorted Z.le l -> (i <= j)%nat -> l !! i = Some x -> l !! j = Some y -> x <= y.
Proof.
  revert i j. induction l as [|a l IH]; intros i j Hs Hij Hx Hy; [done|]. inversion Hs as [|? ? Hs' Hf]; subst.
  destruct i as [|i], j as [|j]; cbn in *; [injection Hx as <-; injection Hy as <-; lia| |lia|by eapply (IH i j); [|lia|..]].
  injection Hx as <-. rewrite Forall_forall in Hf. apply Hf. by eapply list_elem_of_lookup_2.
Qed.

Lemma map_sorted (f : nat -> Z) (P : nat -> Prop) `{!forall x, Decision (P x)} a n :
  (forall i j, (a <= i <= j)%nat -> (j < a + n)%nat -> f i <= f j) -> StronglySorted Z.le (map f (filter P (seq a n))).
Proof.
  revert a. induction n as [|n IH]; intros a Hf; [constructor|]. cbn [seq]. rewrite filter_cons.
  assert (Hs : StronglySorted Z.le (map f (filter P (seq (S a) n)))) by (apply IH; intros i j Hi Hj; apply Hf; lia).
  case_decide; [|done]. cbn. constructor; [done|]. apply Forall_forall. intros y (j & -> & Hj)%list_elem_of_fmap.
  apply list_elem_of_filter in Hj as [_ Hj%elem_of_seq]. apply Hf; lia.
Qed.

Lemma map_default_seq (l : list Z) : map (fun i => default 0 (l !! i)) (seq 0 (length l)) = l.
Proof.
  apply list_eq. intros i. rewrite list_lookup_fmap. destruct (decide (i < length l)%nat) as [Hi|Hi].
  - rewrite lookup_seq_lt by done. cbn. by destruct (lookup_lt_is_Some_2 l i Hi) as [x ->].
  - rewrite lookup_seq_ge, lookup_ge_None_2 by lia. done.
Qed.

(** Where a request that is out of place comes from. *)
Section Targets.
Context (regions : list Z) (Hb : forall y, y ∈ regions -> 0 <= y <= 3).
Let n := length regions.
Let targets := target_regions regions.
Let region i := default 0 (regions !! i).
Let target i := default 0 (targets !! i).
Let K := filter (fun i => regions !! i <> targets !! i) (seq 0 n).

Lemma targets_length : length targets = n.
Proof. apply Permutation_length. by apply target_perm. Qed.

Lemma in_place i : i ∉ K -> region i = target i.
Proof.
  intros Hi. unfold region, target. destruct (decide (i < n)%nat) as [Hlt|Hge].
  - destruct (decide (regions !! i = targets !! i)) as [->|Hne]; [done|]. destruct Hi. apply list_elem_of_filter. split; [done|]. apply elem_of_seq. lia.
  - rewrite !lookup_ge_None_2; [done| |]; [rewrite targets_length|unfold n in *]; lia.
Qed.

Lemma sources_regions srcs : srcs ≡ₚ K -> StronglySorted (fun i j => region i <= region j) srcs -> map region srcs = map target K.
Proof.
  intros Hp Hs. apply (StronglySorted_unique Z.le).
  - clear Hp. induction Hs as [|i l Hl IH Hf]; cbn; constructor; [done|]. apply Forall_forall. intros y (j & -> & Hj)%list_elem_of_fmap.
    rewrite Forall_forall in Hf. by apply Hf.
  - apply map_sorted. intros i j Hij Hj. unfold target. destruct (lookup_lt_is_Some_2 targets i) as [x Hx]; [rewrite targets_length; lia|].
    destruct (lookup_lt_is_Some_2 targets j) as [y Hy]; [rewrite targets_length; lia|]. rewrite Hx, Hy. cbn. eapply (sorted_lookup targets i j); [apply target_sorted|lia|done..].
  - rewrite Hp. set (C := filter (fun i => ~ regions !! i <> targets !! i) (seq 0 n)).
    assert (Hall : K ++ C ≡ₚ seq 0 n) by apply filter_app_complement. apply (Permutation_app_inv_r (map region C)).
    assert (HC : map region C = map target C).
    { apply map_ext_in. intros i Hi%list_elem_of_In%list_elem_of_filter. apply in_place. intros [HK _]%list_elem_of_filter. tauto. }
    rewrite HC at 2. rewrite <-!map_app, Hall. unfold region, target. rewrite map_default_seq.
    rewrite <-targets_length, map_default_seq. symmetry. by apply target_perm.
Qed.
End Targets.

(** ** Cycles *)

(** The map of [zip(src_indices, orig_indices)]. *)
Lemma dict_of_zip (l : list (nat * nat)) (m : gmap nat nat) k v : NoDup l.*1 ->
  foldl (fun m sd => <[sd.1 := sd.2]> m) m l !! k = Some v <-> (k, v) ∈ l \/ (k ∉ l.*1 /\ m !! k = Some v).
Proof.
  revert m. induction l as [|[x y] l IH]; intros m Hnd; [cbn; split; [intros H; right; split; [apply not_elem_of_nil|done]|intros [?%elem_of_nil|[_ ?]]; done]|].
  cbn in Hnd. apply NoDup_cons in Hnd as [Hx Hnd]. cbn [foldl fst snd]. rewrite IH by done. rewrite lookup_insert_Some. cbn. rewrite !elem_of_cons. split.
  - intros [Hin|[Hk [[<- <-]|[Hne Hm]]]]; [by left; right|left; by left|right]. split; [|done]. intros [?|?]; done.
  - intros [[[= -> ->]|Hin]|[Hk Hm]]; [right; split; [done|by left]|by left|right]. split; [tauto|]. right. split; [|done]. intros <-. tauto.
Qed.

(** The destination of the request that is at a row now. *)
Definition shift (f : nat -> nat) (src dst x : nat) : nat := if decide (x = dst) then dst else if decide (x = src) then f dst else f x.

Lemma shift_inj f src dst : Inj (=) (=) f -> f src = dst -> src <> dst -> Inj (=) (=) (shift f src dst).
Proof.
  intros Hf Hd Hne x y. unfold shift. repeat case_decide; subst; try done; intros E; try (apply Hf in E); try congruence; symmetry in E; apply Hf in E; congruence.
Qed.

Section Cycles.
Context {Tensor Generator LoRA Pooling States Logprobs T : Type} (max_num_reqs max_model_len : Z) (new_state : AddedParams -> option T).
Abbreviation InputBatch := (@InputBatch Tensor Generator LoRA Pooling States Logprobs).
Implicit Types (b : InputBatch) (S : gmap string T) (E : gmap Z T).
Abbreviation rows b := (_req_ids (ib_ids b)).
Abbreviation compact := (compact max_num_reqs max_model_len new_state).

Context (key : string -> Z) (target : nat -> Z) (K : list nat) (n : nat) (HK : NoDup K) (HKn : forall k, k ∈ K -> (k < n)%nat).

(** The request at row [p] belongs to a row of the region of [f p]. *)
Record arranged S E (M : gmap string (RowView (Generator:=Generator))) (m : gmap nat nat) (f : nat -> nat) b : Prop := {
  ar_compact : compact S E b;
  ar_map : batch_map b = M;
  ar_rows : length (rows b) = n;
  ar_key : forall p r, row_of (ib_ids b) p r -> key r = target (f p);
  ar_inj : Inj (=) (=) f;
  ar_in : forall p, p ∈ K -> f p ∈ K;
  ar_out : forall p, p ∉ K -> f p = p;
  ar_keys : forall p, p ∈ K <-> is_Some (m !! p);
  ar_size : size m = length K
}.

Definition misplaced (f : nat -> nat) : list nat := filter (fun p => f p <> p) K.

(** One swap puts the request at [src] in its place. *)
Lemma swap_arranged S E M m f b src dst : arranged S E M m f b -> src ∈ K -> f src = dst -> dst <> src ->
  exists b', swap_states false (Z.of_nat src) (Z.of_nat dst) b = Ok b' /\ arranged S E M (<[dst := dst]> m) (shift f src dst) b' /\
    (length (misplaced (shift f src dst)) < length (misplaced f))%nat.
Proof.
  intros [Hc HM Hn Hkey Hinj Hin Hout Hkeys Hsz] Hs Hd0 Hne. assert (Hd : dst ∈ K) by (rewrite <-Hd0; by apply Hin).
  destruct (swap_ok _ _ _ S E b src dst Hc) as (b' & -> & Hc' & Hmap & Hlen & Hrows); [congruence|rewrite Hn; by apply HKn|rewrite Hn; by apply HKn|].
  exists b'. split; [done|]. split.
  - constructor; [done|by rewrite Hmap|by rewrite Hlen| | | | | |].
    + intros p r Hp. unfold row_of in Hp. rewrite Hrows in Hp. apply Hkey in Hp. rewrite Hp. unfold tr, shift. repeat case_decide; subst; try done; congruence.
    + by apply shift_inj.
    + intros p Hp. unfold shift. repeat case_decide; [done|by apply Hin..].
    + intros p Hp. unfold shift. repeat case_decide; [by subst|by subst|by apply Hout].
    + intros p. rewrite lookup_insert_is_Some, Hkeys. destruct (decide (p = dst)) as [->|Hpd]; [|naive_solver]. split; [by left|]. intros _. by apply Hkeys.
    + rewrite <-Hsz. apply map_size_insert_Some. by apply Hkeys.
  - unfold misplaced. rewrite <-(list_filter_filter_l (fun p => shift f src dst p <> p) (fun p => f p <> p)).
    + apply (length_filter_lt _ _ dst); [|intros Hx; apply Hx; unfold shift; by rewrite decide_True]. apply list_elem_of_filter. split; [|done].
      intros E'. apply Hne. apply Hinj. congruence.
    + intros p Hp. unfold shift in Hp. repeat case_decide; subst; done.
Qed.

(** The map tells where the requests at the rows of [l] go. *)
Definition told (m : gmap nat nat) (f : nat -> nat) (l : list nat) (p : nat) : Prop := m !! p = Some (f p) \/ (f p = p /\ p ∉ l).

Lemma cycle_ok S E M fuel m f b src l : arranged S E M m f b -> src ∈ K -> (forall p, p ∈ K -> p <> src -> told m f l p) ->
  (length (misplaced f) <= fuel)%nat ->
  exists m' b' f', cycle_loop false fuel src (f src) m b = Ok (m', b') /\ arranged S E M m' f' b' /\
    f' src = src /\ (forall p, p ∈ K -> p <> src -> told m' f' l p) /\ forall p, f p = p -> f' p = p.
Proof.
  revert m f b. induction fuel as [|fuel IH]; intros m f b Ha Hs Ht Hf; cbn [cycle_loop]; destruct (Nat.eqb_spec src (f src)) as [E0|E0].
  1,3: exists m, b, f; by split.
  - exfalso. assert (src ∈ misplaced f) as Hin by (apply list_elem_of_filter; split; [by apply not_eq_sym|done]). destruct (misplaced f); [by apply elem_of_nil in Hin|cbn in Hf; lia].
  - remember (f src) as dst eqn:Ed. destruct (swap_arranged S E M m f b src dst Ha Hs ltac:(done) ltac:(congruence)) as (b' & -> & Ha' & Hlt). cbn [mbind res_bind].
    pose proof Ha as [_ _ _ _ Hinj Hin _ _ _]. assert (Hd : dst ∈ K) by (rewrite Ed; by apply Hin).
    assert (Hnext : default dst (m !! dst) = shift f src dst src).
    { unfold shift. rewrite decide_False, decide_True by done. destruct (Ht dst Hd ltac:(congruence)) as [->|[Hfix _]]; [done|].
      exfalso. apply E0. rewrite Ed in Hfix at 2. by apply Hinj in Hfix. }
    rewrite Hnext. destruct (IH _ _ _ Ha' Hs) as (m' & b2 & f' & Hrun & Ha2 & Hsrc & Ht2 & Hfix).
    + intros p Hp Hps. unfold told, shift. destruct (decide (p = dst)) as [->|Hpd]; [left; by rewrite lookup_insert_eq|].
      rewrite decide_False, lookup_insert_ne by done. by apply Ht.
    + lia.
    + exists m', b2, f'. split; [done|]. split; [done|]. split; [done|]. split; [done|]. intros p Hp. apply Hfix. unfold shift.
      repeat case_decide; subst; try done.
Qed.

Lemma sources_ok S E M srcs m f b : arranged S E M m f b -> NoDup srcs -> (forall p, p ∈ srcs -> p ∈ K) -> (forall p, p ∈ K -> told m f srcs p) ->
  (forall p, p ∈ K -> p ∈ srcs \/ f p = p) ->
  exists m' b', source_loop false srcs (length K) m b = Ok b' /\ arranged S E M m' (fun p => p) b'.
Proof.
  revert m f b. induction srcs as [|src srcs IH]; intros m f b Ha Hnd Hsub Ht Hdone; cbn [source_loop]; rewrite (ar_size _ _ _ _ _ _ Ha), Nat.eqb_refl; cbn [negb].
  - exists m, b. split; [done|]. assert (Hid : forall p, f p = p).
    { intros p. destruct (decide (p ∈ K)) as [Hp|Hp]; [|by apply (ar_out _ _ _ _ _ _ Ha)]. destruct (Hdone p Hp) as [Hin|]; [by apply elem_of_nil in Hin|done]. }
    destruct Ha as [Hc HM Hn Hkey Hinj Hin Hout Hkeys Hsz]. constructor; try done; [|apply _]. intros p r Hp. by rewrite (Hkey p r Hp), Hid.
  - apply NoDup_cons in Hnd as [Hnin Hnd]. assert (Hs : src ∈ K) by (apply Hsub; left).
    destruct (Ht src Hs) as [Hm|[_ Hbad]]; [|destruct Hbad; left]. rewrite Hm. cbn [mbind res_bind].
    destruct (cycle_ok S E M (Datatypes.S (length K)) m f b src srcs Ha Hs) as (m' & b' & f' & -> & Ha' & Hsrc & Ht' & Hfix).
    + intros p Hp Hps. destruct (Ht p Hp) as [|[Hf Hno]]; [by left|right]. split; [done|]. intros Hin. apply Hno. by right.
    + pose proof (length_filter (fun p => f p <> p) K). unfold misplaced. lia.
    + cbn [mbind res_bind fst snd]. apply (IH m' f' b'); [done|done|intros p Hp; apply Hsub; by right| |].
      * intros p Hp. destruct (decide (p = src)) as [->|Hps]; [by right|by apply Ht'].
      * intros p Hp. destruct (Hdone p Hp) as [[->|Hin]%elem_of_cons|Hf]; [by right|by left|right; by apply Hfix].
Qed.
End Cycles.
