(* ===== verification/BatchSpec.v ===== *)
(** The persistent batch implements a map from requests to rows; logits processors
    that follow its updates keep the state of every request; the reordering puts
    the rows in the order of their regions. *)
From S2P Require Import Prelude PyRes PyFloat BatchUpdate BlockTable InputBatch BatchRows BatchInv BatchOps BatchReorder.
From stdpp Require Import sorting.
From Stdlib Require Import SpecFloat.
Local Open Scope Z_scope.

Section Spec.
Context {Tensor Generator LoRA Pooling States Logprobs T : Type} (max_num_reqs max_model_len vocab_size : Z) (new_state : AddedParams -> option T).
Context (len_tensor : Tensor -> Z) (lora_int_id : LoRA -> Z) (requires_token_ids : Pooling -> bool) (as_float32 : spec_float -> spec_float).
Context (len_tensor_pos : forall t, 0 <= len_tensor t).
Abbreviation InputBatch := (@InputBatch Tensor Generator LoRA Pooling States Logprobs).
Implicit Types (b : InputBatch) (S : gmap string T) (E : gmap Z T).
Abbreviation rows b := (_req_ids (ib_ids b)).
Abbreviation builder b := (batch_update_builder b).
Abbreviation open_batch := (open_batch max_num_reqs max_model_len new_state).
Abbreviation compact := (compact max_num_reqs max_model_len new_state).
Abbreviation add_request := (batch_add_request len_tensor lora_int_id requires_token_ids as_float32 max_num_reqs vocab_size).
Abbreviation remove_request := (batch_remove_request false).
Abbreviation refresh := (refresh_metadata vocab_size false).

(** ** Reordering *)

Section Reordering.
Context (threshold : Z) (scheduled : gmap string Z).
Abbreviation reorder := (reorder_batch_to_split_decodes_and_prefills false threshold scheduled).

Definition region_key (M : gmap string (RowView (Generator:=Generator))) (r : string) : Z :=
  match M !! r with
  | Some v => req_region threshold (default 0 (scheduled !! r)) (default 0 (rv_num_computed v)) (default 0 (rv_num_prompt v))
  | None => 0
  end.

Lemma req_regions_Ok b l : batch_ok max_num_reqs max_model_len b -> req_regions threshold scheduled b = Ok l ->
  length l = length (rows b) /\ (forall r, is_Some (batch_map b !! r) -> is_Some (scheduled !! r)) /\
  forall p r, row_of (ib_ids b) p r -> l !! p = Some (region_key (batch_map b) r).
Proof.
  intros Hok H. unfold req_regions in H. bind_inv H as ns Hns. apply mapM_Ok in Hns. destruct (_ && _) eqn:Hl; [|done]. injection H as <-.
  apply andb_true_iff in Hl as [Hl1%Nat.eqb_eq Hl2%Nat.eqb_eq]. pose proof (Forall2_length _ _ _ Hns) as Hln.
  split; [rewrite length_zip_with, length_zip; lia|]. split.
  - intros r [v (k & Hk & _)%(batch_map_Some _ _ _ (bo_index _ _ _ Hok))]. unfold row_of in Hk.
    destruct (Forall2_lookup_l _ _ _ _ _ Hns Hk) as (x & _ & Hx). cbn in Hx. by destruct (scheduled !! r).
  - intros p r Hp. pose proof Hp as Hlt%lookup_lt_Some. destruct (Forall2_lookup_l _ _ _ _ _ Hns Hp) as (x & Hx & Ex). cbn in Ex.
    destruct (lookup_lt_is_Some_2 (take (length (rows b)) (num_computed_tokens_cpu (ib_rows b))) p ltac:(lia)) as [c Hc].
    destruct (lookup_lt_is_Some_2 (take (length (rows b)) (num_prompt_tokens (ib_rows b))) p ltac:(lia)) as [t Ht].
    rewrite lookup_zip_with, Hx, lookup_zip_with, Hc, Ht. cbn. unfold region_key. rewrite (batch_map_row _ _ _ _ _ Hok Hp). cbn.
    rewrite lookup_take_lt in Hc, Ht by done. rewrite Hc, Ht. cbn. destruct (scheduled !! r); [|done]. injection Ex as ->. done.
Qed.

Lemma req_regions_total S E b : compact S E b -> (forall r, is_Some (batch_map b !! r) -> is_Some (scheduled !! r)) ->
  exists l, req_regions threshold scheduled b = Ok l.
Proof.
  intros [Hok Hlive _] Hs.
  unfold req_regions. rewrite (mapM_total _ (fun o => default 0 (o ≫= fun r => scheduled !! r))).
  - cbn [mbind res_bind]. destruct (sh_ids _ _ _ (bo_shape _ _ _ Hok)) as (_ & _ & Hn). destruct (sh_rows _ _ _ (bo_shape _ _ _ Hok)).
    rewrite !length_take, !Nat.min_l, !Nat.eqb_refl by lia. by eexists.
  - intros o [k Hk]%list_elem_of_lookup. destruct (Hlive k ltac:(by eapply lookup_lt_Some)) as (r & Hr). unfold row_of in Hr. rewrite Hk in Hr. injection Hr as ->.
    cbn. destruct (Hs r) as [n ->]; [|done]. rewrite (batch_map_row _ _ _ _ _ Hok Hk). by eexists.
Qed.

Lemma regions_bounded S E b l : compact S E b -> req_regions threshold scheduled b = Ok l -> forall y, y ∈ l -> 0 <= y <= 3.
Proof.
  intros [Hok Hlive _] H y [k Hk]%list_elem_of_lookup.
  destruct (req_regions_Ok b l Hok H) as (Hlen & _ & Hkey). destruct (Hlive k) as (r & Hr); [rewrite <-Hlen; by eapply lookup_lt_Some|].
  rewrite (Hkey k r Hr) in Hk. injection Hk as <-. unfold region_key. case_match; [apply req_region_bounds|lia].
Qed.

Lemma foldl_dict srcs K : NoDup srcs -> srcs ≡ₚ K ->
  let m : gmap nat nat := foldl (fun m sd => <[sd.1 := sd.2]> m) ∅ (zip srcs K) in
  (forall k v, m !! k = Some v <-> exists i, srcs !! i = Some k /\ K !! i = Some v) /\ (forall p, p ∈ K <-> is_Some (m !! p)) /\ size m = length K.
Proof.
  intros Hnd Hp m. pose proof (Permutation_length Hp) as Hl. assert (Hfst : (zip srcs K).*1 = srcs) by (apply fst_zip; lia).
  assert (Hm : forall k v, m !! k = Some v <-> exists i, srcs !! i = Some k /\ K !! i = Some v).
  { intros k v. unfold m. rewrite dict_of_zip by (by rewrite Hfst). split.
    - intros [(i & (k' & v' & [= -> ->] & Hk & Hv)%lookup_zip_with_Some)%list_elem_of_lookup|[_ ?]]; [by exists i|done].
    - intros (i & Hk & Hv). left. apply list_elem_of_lookup. exists i. apply lookup_zip_with_Some. by exists k, v. }
  assert (Hdom : forall p, p ∈ K <-> is_Some (m !! p)).
  { intros p. rewrite <-Hp, list_elem_of_lookup. split.
    - intros (i & Hi). destruct (lookup_lt_is_Some_2 K i) as [v Hv]; [rewrite <-Hl; by eapply lookup_lt_Some|]. exists v. apply Hm. by exists i.
    - intros [v (i & Hi & _)%Hm]. by exists i. }
  split; [done|]. split; [done|]. rewrite <-size_dom. assert (Ed : dom m = list_to_set (C:=gset nat) K).
  { apply set_eq. intros p. by rewrite elem_of_dom, <-Hdom, elem_of_list_to_set. }
  rewrite Ed. apply size_list_to_set. by rewrite <-Hp.
Qed.

Lemma reorder_cycles S E b regions srcs : compact S E b -> req_regions threshold scheduled b = Ok regions ->
  let K := filter (fun i => regions !! i <> target_regions regions !! i) (seq 0 (length regions)) in
  srcs ≡ₚ K -> StronglySorted (fun i j => default 0 (regions !! i) <= default 0 (regions !! j)) srcs ->
  let m : gmap nat nat := foldl (fun m sd => <[sd.1 := sd.2]> m) ∅ (zip srcs K) in
  exists b', source_loop false srcs (size m) m b = Ok b' /\ compact S E b' /\ batch_map b' = batch_map b /\
    req_regions threshold scheduled b' = Ok (target_regions regions).
Proof.
  intros Hc Hr K Hperm Hsorted m. pose proof (regions_bounded S E b regions Hc Hr) as Hb.
  destruct (req_regions_Ok b regions (cp_ok _ _ _ _ _ _ Hc) Hr) as (Hlen & Hs & Hkey). set (target i := default 0 (target_regions regions !! i)).
  assert (HK : NoDup K) by (apply NoDup_filter, NoDup_seq). assert (HKn : forall k, k ∈ K -> (k < length (rows b))%nat).
  { intros k [_ Hk%elem_of_seq]%list_elem_of_filter. lia. }
  assert (Hnds : NoDup srcs) by (by rewrite Hperm). destruct (foldl_dict srcs K Hnds Hperm) as (Hm & Hdom & Hsz).
  fold m in Hm, Hdom, Hsz. set (f p := default p (m !! p)). rewrite Hsz.
  destruct (sources_ok max_num_reqs max_model_len new_state (region_key (batch_map b)) target K (length (rows b)) HKn S E (batch_map b) srcs m f b) as (m' & b' & -> & [Hc' Hmap' Hlen' Hkey' _ _ _ _ _]).
  - constructor; try done.
    + intros p r Hp. unfold f. destruct (m !! p) as [v|] eqn:Ev; cbn.
      * apply Hm in Ev as (i & Hi & Hv). pose proof (sources_regions regions Hb srcs Hperm Hsorted) as Heq.
        apply (f_equal (fun l => l !! i)) in Heq. rewrite !list_lookup_fmap, Hi in Heq. fold K in Heq. rewrite Hv in Heq.
        change (Some (default 0 (regions !! p)) = Some (target v)) in Heq. injection Heq as Heq. by rewrite <-Heq, (Hkey p r Hp).
      * assert (Hout : p ∉ K) by (rewrite Hdom, Ev; by intros []). apply (in_place regions Hb) in Hout. unfold target. by rewrite <-Hout, (Hkey p r Hp).
    + intros x y Exy. unfold f in Exy. destruct (m !! x) as [v|] eqn:Ex, (m !! y) as [w|] eqn:Ey; cbn in Exy; subst.
      * apply Hm in Ex as (i & Hi & Hv), Ey as (j & Hj & Hw). assert (i = j) as -> by (exact (NoDup_lookup K i j _ HK Hv Hw)). congruence.
      * exfalso. apply Hm in Ex as (i & Hi & Hv). assert (Hin : y ∈ K) by (by eapply list_elem_of_lookup_2). apply Hdom in Hin as [? ?]. congruence.
      * exfalso. apply Hm in Ey as (i & Hi & Hv). assert (Hin : w ∈ K) by (by eapply list_elem_of_lookup_2). apply Hdom in Hin as [? ?]. congruence.
      * done.
    + intros p [v Hv]%Hdom. unfold f. rewrite Hv. cbn. apply Hm in Hv as (i & _ & Hv). by eapply list_elem_of_lookup_2.
    + intros p Hp. unfold f. destruct (m !! p) eqn:Ep; [|done]. exfalso. apply Hp, Hdom. by rewrite Ep.
  - done.
  - intros p Hp. by rewrite <-Hperm.
  - intros p [v Hv]%Hdom. left. unfold f. by rewrite Hv.
  - intros p Hp. left. by rewrite Hperm.
  - exists b'. split; [done|]. split; [done|]. split; [done|].
    destruct (req_regions_total S E b' Hc') as (l & Hl'); [by rewrite Hmap'|]. rewrite Hl'. f_equal.
    destruct (req_regions_Ok b' l (cp_ok _ _ _ _ _ _ Hc') Hl') as (Hll & _ & Hlk). apply (list_eq_same_length _ _ (length (rows b))); [|lia|].
    + rewrite (targets_length regions Hb). lia.
    + intros p x y Hp Hx Hy. destruct (cp_rows _ _ _ _ _ _ Hc' p ltac:(lia)) as (r & Hpr). rewrite (Hlk p r Hpr), Hmap' in Hx. injection Hx as <-.
      rewrite (Hkey' p r Hpr). unfold target. by rewrite Hy.
Qed.

Lemma reorder_ok S E b : compact S E b -> (forall r, is_Some (batch_map b !! r) -> is_Some (scheduled !! r)) ->
  exists regions changed b', req_regions threshold scheduled b = Ok regions /\ reorder b = Ok (changed, b') /\ compact S E b' /\ batch_map b' = batch_map b /\
    req_regions threshold scheduled b' = Ok (target_regions regions) /\ (changed = false -> b' = b).
Proof.
  intros Hc Hs. destruct (req_regions_total S E b Hc Hs) as (regions & Hr). exists regions. unfold reorder_batch_to_split_decodes_and_prefills. rewrite Hr. cbn [mbind res_bind].
  set (region i := default 0 (regions !! i)).
  destruct (reorder_cycles S E b regions (merge_sort (H := fun i j => decide (region i <= region j)) (fun i j => region i <= region j)
    (filter (fun i => regions !! i <> target_regions regions !! i) (seq 0 (length regions)))) Hc Hr) as (b' & Hrun & Hc' & Hmap & Ht).
  { apply merge_sort_Permutation. } { apply StronglySorted_merge_sort; [intros x y z; lia|intros x y; lia]. }
  destruct (filter _ _) as [|k0 K0] eqn:EK.
  - exists false, b. cbn in Hrun. injection Hrun as <-. done.
  - exists true, b'. unfold region in *. rewrite Hrun. done.
Qed.
End Reordering.

(** ** Steps *)

Lemma in_sync_settled S E b n : compact S E b ->
  let b' := set_builder (get_and_reset n (builder b)).2 b in
  open_batch S (process_dict_updates new_state E (get_and_reset n (builder b)).1) b' /\ _is_removed_sorted (builder b') = false.
Proof.
  intros [Hok Hlive Hsync] b'. assert (Hb : builder b' = builder_init).
  { cbn. unfold get_and_reset. by destruct (_removed (builder b)), (moved (builder b)), (added (builder b)). }
  rewrite Hb. split; [|done]. constructor; rewrite ?Hb; [by apply batch_ok_builder| | |done].
  - constructor; cbn; [constructor| |done]. intros i. split; [by intros ?%elem_of_nil|]. intros (k & -> & Hk).
    destruct (Hlive k ltac:(by eapply lookup_lt_Some)) as (r & Hr). unfold row_of in Hr. congruence.
  - intros k. cbn. rewrite process_dict_updates_pending. apply Hsync.
Qed.

(** Writes to the rows of requests: tokens, counters, blocks, drafts. *)
Definition row_write b b' : Prop :=
  shape max_num_reqs max_model_len b' /\ rows b' = rows b /\ req_id_to_index (ib_ids b') = req_id_to_index (ib_ids b) /\ builder b' = builder b /\
  ib_dicts b' = ib_dicts b /\ ib_lora b' = ib_lora b /\ request_lora_mapping (ib_rows b') = request_lora_mapping (ib_rows b) /\
  forall k, ~ live b k -> default [] (spec_token_ids (ib_ids b') !! k) = [].

Lemma row_write_live b b' k : row_write b b' -> live b' k <-> live b k.
Proof. intros (_ & Hr & _). unfold live, row_of. by rewrite Hr. Qed.

Lemma row_write_ok b b' : row_write b b' -> batch_ok max_num_reqs max_model_len b -> batch_ok max_num_reqs max_model_len b'.
Proof.
  intros Hw [Hs Hx He Hlora]. pose proof Hw as (Hs' & Hr & Hi & _ & Hd & Hl & Hm & Hsp). assert (Hx' : index_ok (ib_ids b')).
  { intros r i. rewrite Hi, (Hx r i). unfold row_of. by rewrite Hr. }
  constructor; [done|done| |].
  - intros k Hk. rewrite (row_write_live b b' k Hw) in Hk. rewrite Hd. destruct (He k Hk) as (? & ? & _). split; [done|]. split; [done|]. by apply Hsp.
  - intros r v n (k & Hk & ->)%(batch_map_Some b' _ _ Hx') Hn Hn0. cbn in Hn. rewrite Hm in Hn. rewrite Hl.
    apply (Hlora r (view b k) n); [|done|done]. apply (batch_map_row max_num_reqs max_model_len); [by constructor|]. unfold row_of in *. by rewrite Hr in Hk.
Qed.

Lemma row_write_open S E b b' : row_write b b' -> open_batch S E b -> open_batch S E b'.
Proof.
  intros Hw [Hok Hho Hsync Hm]. pose proof Hw as (_ & Hr & _ & Hb & _). constructor; [by eapply row_write_ok| | |by rewrite Hb].
  - rewrite Hb. destruct Hho as [? Hh ?]. constructor; [done| |done]. intros i. by rewrite Hr.
  - by rewrite Hb, Hr.
Qed.

Lemma row_write_compact S E b b' : row_write b b' -> compact S E b -> compact S E b'.
Proof.
  intros Hw [Hok Hl Hsync]. pose proof Hw as (_ & Hr & _ & Hb & _). constructor; [by eapply row_write_ok| |by rewrite Hb, Hr].
  intros k Hk. rewrite Hr in Hk. apply (row_write_live _ _ _ Hw). by apply Hl.
Qed.

(** The drafts of a step are such a write. *)
Lemma spec_tokens_write request tokens b request' b' : batch_ok max_num_reqs max_model_len b ->
  update_req_spec_token_ids request tokens b = Ok (request', b') -> row_write b b'.
Proof.
  intros [[(Ho & Hsl & Hn) Sr St Ss Sd Sn] Hx He _] H. unfold update_req_spec_token_ids in H. bind_inv H as i Hi.
  destruct (req_id_to_index _ !! _) as [j|] eqn:Ej; [|done]. injection Hi as ->. apply Hx in Ej as (k & -> & Hk). bind_inv H as s0 _.
  set (spec := default [] _) in H. bind_inv H as specs Hspecs. apply np_set_row in Hspecs as (Hl & Hne & Heq).
  assert (Hdead : forall x, ~ live b x -> default [] (specs !! x) = []).
  { intros x Hnl. rewrite Hne; [by apply He|]. intros ->. apply Hnl. by eexists. }
  assert (Hids : ids_shape max_num_reqs (mkIds (rows b) (req_id_to_index (ib_ids b)) (req_output_token_ids (ib_ids b)) specs)) by (split; [done|]; split; cbn; lia).
  destruct spec as [|x0 spec0].
  - injection H as _ <-. split; [by constructor|]. by repeat split.
  - bind_inv H as start _. bind_inv H as toks Htoks. injection H as _ <-. split; [|by repeat split]. constructor; try done.
    destruct Sr as [Ht Hw Hf Hwf Hnt Hpos Hnp Hppos Hnc Hlo].
    pose proof (width_update _ _ _ _ _ Hw (fun x y => np_assign_length x _ _ _ y) Htoks) as Hw'. apply np_update_row in Htoks as (Hlt & _).
    constructor; cbn; try done. lia.
Qed.

(** Between two refreshes requests leave, requests enter, the batch is condensed and
    may be reordered; rows are written at any time. *)
Inductive batch_phase := Removing | Adding | Condensed.
Inductive batch_reaches : batch_phase -> gmap string T -> gmap Z T -> InputBatch -> Prop :=
  | br_init empty empty_k tables : length empty = Z.to_nat max_num_reqs -> length empty_k = Z.to_nat max_num_reqs ->
      Forall (table_wf (Z.to_nat max_num_reqs)) tables -> batch_reaches Removing ∅ ∅ (batch_init max_num_reqs max_model_len empty empty_k tables : InputBatch)
  | br_write ph S E b b' : batch_reaches ph S E b -> row_write b b' -> batch_reaches ph S E b'
  | br_remove S E b r i b' : batch_reaches Removing S E b -> remove_request r b = Ok (i, b') -> batch_reaches Removing (delete r S) E b'
  | br_add ph S E b request p n b' : batch_reaches ph S E b -> ph <> Condensed -> req_id_to_index (ib_ids b) !! cr_req_id request = None ->
      cr_sampling_params request = Some p -> add_request request b = Ok (n, b') ->
      batch_reaches Adding (new_request_state new_state S (cr_req_id request) (p, cr_prompt_token_ids request, cr_output_ref request)) E b'
  | br_condense ph S E b b' : batch_reaches ph S E b -> ph <> Condensed -> condense false b = Ok b' -> batch_reaches Condensed S E b'
  | br_reorder S E b threshold scheduled c b' : batch_reaches Condensed S E b ->
      reorder_batch_to_split_decodes_and_prefills false threshold scheduled b = Ok (c, b') -> batch_reaches Condensed S E b'
  | br_refresh S E b need m u m' b' : batch_reaches Condensed S E b -> refresh need m b = Ok (u, m', b') ->
      batch_reaches Removing S (process_dict_updates new_state E u) b'.

Definition phase_ok (ph : batch_phase) S E b : Prop :=
  match ph with
  | Removing => open_batch S E b /\ _is_removed_sorted (builder b) = false
  | Adding => open_batch S E b
  | Condensed => compact S E b
  end.

Lemma init_ok empty empty_k tables : length empty = Z.to_nat max_num_reqs -> length empty_k = Z.to_nat max_num_reqs -> Forall (table_wf (Z.to_nat max_num_reqs)) tables ->
  open_batch ∅ ∅ (batch_init max_num_reqs max_model_len empty empty_k tables : InputBatch).
Proof.
  intros He Hk Ht. assert (Hrep : forall A (n : Z) (x y : A), y ∈ zreplicate n x -> y = x) by (intros A n x y [-> _]%elem_of_replicate; done).
  assert (Hlen : forall A (x : A), length (zreplicate max_num_reqs x) = Z.to_nat max_num_reqs) by (intros A x; apply length_replicate).
  constructor.
  - constructor.
    + constructor; [split; [done|split; cbn; lia]| |done| |by intros m| apply Hlen].
      * constructor; try apply Hlen; try (intros row ->%Hrep; apply length_replicate). all: intros x ->%Hrep; lia.
      * constructor; try done. apply Hlen.
    + intros r i. split; [done|]. by intros (k & _ & Hr).
    + intros k _. split; [done|]. split; [done|]. cbn. destruct (zreplicate max_num_reqs [] !! k) as [l|] eqn:E; [|done]. apply list_elem_of_lookup_2 in E. cbn. by apply Hrep in E.
    + intros r v n Hv. done.
  - constructor; [constructor| |done]. intros i. split; [by intros ?%elem_of_nil|]. by intros (k & _ & Hk0).
  - intros k. done.
  - done.
Qed.

Lemma reorder_sched threshold scheduled b c b' : batch_ok max_num_reqs max_model_len b ->
  reorder_batch_to_split_decodes_and_prefills false threshold scheduled b = Ok (c, b') -> forall r, is_Some (batch_map b !! r) -> is_Some (scheduled !! r).
Proof.
  intros Hok H. unfold reorder_batch_to_split_decodes_and_prefills in H. bind_inv H as regions Hr. apply (req_regions_Ok threshold scheduled b regions Hok) in Hr as (_ & Hs & _). exact Hs.
Qed.

Lemma open_remove S E b r : open_batch S E b -> _is_removed_sorted (builder b) = false ->
  exists i b', remove_request r b = Ok (i, b') /\ open_batch (delete r S) E b' /\ _is_removed_sorted (builder b') = false /\ batch_map b' = delete r (batch_map b).
Proof.
  intros Ho Hf. destruct (req_id_to_index (ib_ids b) !! r) as [i|] eqn:Ei.
  - apply (bo_index _ _ _ (op_ok _ _ _ _ _ _ Ho)) in Ei as (k & -> & Hk). destruct (remove_ok _ _ _ S E b k r Ho Hf Hk) as (b' & H). by exists (Some (Z.of_nat k)), b'.
  - destruct (remove_absent _ _ _ S E b r Ho Ei) as (H1 & H2 & H3). by exists None, b.
Qed.

Lemma batch_reaches_ok ph S E b : batch_reaches ph S E b -> phase_ok ph S E b.
Proof.
  induction 1 as [e ek ts He Hek Hts|ph S E b b' _ IH Hw|S E b r i b' _ IH Hrun|ph S E b request p n b' _ IH Hph Hfresh Hp Hrun|ph S E b b' _ IH Hph Hrun|S E b th sc c b' _ IH Hrun|S E b need m u m' b' _ IH Hrun].
  - split; [by apply init_ok|done].
  - destruct ph; cbn in *; [|by eapply row_write_open|by eapply row_write_compact]. destruct IH as [IH Hf]. split; [by eapply row_write_open|].
    by destruct Hw as (_ & _ & _ & -> & _).
  - destruct IH as [IH Hf]. destruct (open_remove S E b r IH Hf) as (i' & b2 & Hrun' & Ho & Hf' & _). rewrite Hrun in Hrun'. injection Hrun' as <- <-. by split.
  - assert (Ho : open_batch S E b) by (destruct ph; [apply IH|done|done]). by destruct (add_ok _ _ _ _ _ _ _ _ len_tensor_pos S E b request p n b' Ho Hfresh Hp Hrun).
  - assert (Ho : open_batch S E b) by (destruct ph; [apply IH|done|done]). destruct (condense_ok _ _ _ S E b Ho) as (b2 & Hrun' & Hc & _).
    rewrite Hrun in Hrun'. by injection Hrun' as <-.
  - cbn in *. destruct (reorder_ok th sc S E b IH) as (l & c' & b2 & _ & Hrun' & Hc & _); [by eapply reorder_sched; [apply IH|]|].
    rewrite Hrun in Hrun'. by injection Hrun' as <- <-.
  - cbn in IH |- *. destruct (in_sync_settled S E b (batch_num_reqs b) IH) as [H1 H2]. unfold refresh_metadata in Hrun.
    destruct (get_and_reset _ _) as [u0 u1]. bind_inv Hrun as m2 Hm2. injection Hrun as <- <- <-. by split.
Qed.

(** ** The theorems *)

Lemma compact_num_reqs S E b : compact S E b -> batch_num_reqs b = zlen (rows b).
Proof.
  intros [Hok Hl _]. unfold zlen. eapply (num_reqs_rows (T:=T)); [exact Hok| |done]. intros k. split; [|apply Hl].
  intros (r & Hr). by eapply lookup_lt_Some.
Qed.

(** C12: Whatever the order of arrivals, departures, condensations, reorderings and
    writes to the rows, the batch implements a map from requests to what their rows
    show: removing a request always succeeds and deletes it, adding one that succeeds
    inserts a row that shows it and leaves the others, condensing always succeeds,
    changes nothing in the map and fills exactly the first [num_reqs] rows, and
    swapping two rows changes nothing in the map. *)
Theorem batch_refines_map ph S E b : batch_reaches ph S E b ->
  (ph = Removing -> forall r, exists i b', remove_request r b = Ok (i, b') /\ batch_map b' = delete r (batch_map b)) /\
  (ph <> Condensed -> forall request p n b', batch_map b !! cr_req_id request = None -> cr_sampling_params request = Some p -> add_request request b = Ok (n, b') ->
    exists v, row_shows max_model_len vocab_size len_tensor lora_int_id as_float32 (block_table b) request p v /\ batch_map b' = <[cr_req_id request := v]> (batch_map b)) /\
  (ph <> Condensed -> exists b', condense false b = Ok b' /\ batch_map b' = batch_map b /\ batch_num_reqs b' = zlen (rows b') /\
    forall k, (k < length (rows b'))%nat -> live b' k) /\
  (ph = Condensed -> forall i j, i <> j -> (i < length (rows b))%nat -> (j < length (rows b))%nat ->
    exists b', swap_states false (Z.of_nat i) (Z.of_nat j) b = Ok b' /\ batch_map b' = batch_map b /\ forall k, rows b' !! k = rows b !! tr i j k).
Proof.
  intros Hr%batch_reaches_ok. assert (Hopen : ph <> Condensed -> open_batch S E b) by (destruct ph; [by intros _; destruct Hr|done|done]).
  split; [|split; [|split]].
  - intros -> r. destruct Hr as [Ho Hf]. destruct (open_remove S E b r Ho Hf) as (i & b' & H1 & _ & _ & H2). by exists i, b'.
  - intros Hph request p n b' Hfresh Hp Hrun. unfold batch_map in Hfresh. rewrite lookup_fmap in Hfresh. apply fmap_None in Hfresh.
    destruct (add_ok _ _ _ _ _ _ _ _ len_tensor_pos S E b request p n b' (Hopen Hph) Hfresh Hp Hrun) as (_ & v & Hv). by exists v.
  - intros Hph. destruct (condense_ok _ _ _ S E b (Hopen Hph)) as (b' & H1 & Hc & H2). exists b'. split; [done|]. split; [done|].
    split; [by eapply compact_num_reqs|apply Hc].
  - intros -> i j Hij Hi Hj. destruct (swap_ok _ _ _ S E b i j Hr Hij Hi Hj) as (b' & H1 & _ & H2 & _ & H3). by exists b'.
Qed.

(** C13: A logits processor that applies every update of the batch with
    [process_dict_updates] holds, after each refresh, at every row the state of the
    request in that row: the state it made when the request was added, and nothing
    where there is no request. *)
Theorem processors_in_sync S E b need m u m' b' : batch_reaches Condensed S E b -> refresh need m b = Ok (u, m', b') ->
  forall k : nat, process_dict_updates new_state E u !! Z.of_nat k = (o ← rows b' !! k ; r ← o ; S !! r).
Proof.
  intros Hr Hrun k. destruct (batch_reaches_ok Removing S _ b' (br_refresh S E b need m u m' b' Hr Hrun)) as [[_ _ Hsync Hm] _].
  specialize (Hsync k). unfold row_state in Hsync. rewrite <-Hsync. unfold refresh_metadata in Hrun. unfold get_and_reset in Hrun.
  destruct (_removed (builder b)), (moved (builder b)), (added (builder b)); bind_inv Hrun as m2 Hm2; injection Hrun as <- <- <-; done.
Qed.

(** C14: Reordering a condensed batch succeeds when every request is scheduled, changes
    no request's row data, and leaves the rows in the order of their regions: decodes,
    short extensions, long extensions, prefills, as many of each as there were. *)
Theorem reorder_sorts_regions threshold scheduled S E b : batch_reaches Condensed S E b -> (forall r, is_Some (batch_map b !! r) -> is_Some (scheduled !! r)) ->
  exists regions changed b', req_regions threshold scheduled b = Ok regions /\
    reorder_batch_to_split_decodes_and_prefills false threshold scheduled b = Ok (changed, b') /\ batch_map b' = batch_map b /\
    req_regions threshold scheduled b' = Ok (target_regions regions) /\ StronglySorted Z.le (target_regions regions) /\ target_regions regions ≡ₚ regions /\
    (changed = false -> b' = b).
Proof.
  intros Hc%batch_reaches_ok Hs. cbn in Hc. destruct (reorder_ok threshold scheduled S E b Hc Hs) as (regions & c & b' & H1 & H2 & _ & H3 & H4 & H5).
  exists regions, c, b'. split; [done|]. split; [done|]. split; [done|]. split; [done|]. split; [apply target_sorted|]. split; [|done].
  apply target_perm. by eapply regions_bounded.
Qed.
End Spec.

(** * Runs of the persistent batch: the theorems at concrete batches, and what happens
    to the masks of allowed tokens. *)

(** Four rows of eight tokens over a vocabulary of three, in blocks of two. *)
Definition zero : spec_float := S754_zero false.
Definition one : spec_float := S754_finite false 4503599627370496 (-52).
Definition run_params (allowed : option (list Z)) : RowParams := mkRowParams true zero one 0 zero zero one None allowed None.
Definition RunBatch : Type := @InputBatch unit Z Z unit unit unit.
Definition RunRequest : Type := @CachedRequestState unit Z Z unit unit.
Definition run_cached (id : string) (prompt : list Z) (computed ref : Z) (allowed : option (list Z)) : RunRequest :=
  mkCached id (Some prompt) None (Some (run_params allowed)) None None None [[ref]] computed [] ref None 0.
Definition run_empty : RunBatch := batch_init 4 8 (replicate 4 zero) (replicate 4 0) [mkTable 1 false (replicate 4 (replicate 4 0)) (replicate 4 0)].

Definition run_len (_ : unit) : Z := 0.
(** A processor that keeps the number of prompt tokens of a request. *)
Definition run_state (p : AddedParams) : option Z := match p.1.2 with Some l => Some (zlen l) | None => None end.
Abbreviation add := (batch_add_request run_len id (fun _ => false) id 4 3).
Abbreviation refresh := (refresh_metadata 3 false false).
Definition run_metadata : SamplingMetadata := mkMetadata None true false None None None true None [] None.

Definition added_to (request : RunRequest) (b : RunBatch) : RunBatch := match add request b with Ok p => p.2 | Err _ => b end.
Definition removed_from (r : string) (b : RunBatch) : RunBatch := match batch_remove_request false r b with Ok p => p.2 | Err _ => b end.
Definition condensed (b : RunBatch) : RunBatch := match condense false b with Ok b' => b' | Err _ => b end.
Definition refreshed (b : RunBatch) : RunBatch := match refresh run_metadata b with Ok p => p.2 | Err _ => b end.
Definition run_mask (b : RunBatch) : option (list (list bool)) := match refresh run_metadata b with Ok p => allowed_token_ids_mask p.1.2 | Err _ => None end.

(** [a] has not started, [b] decodes and may only produce token 1. *)
Definition req_a : RunRequest := run_cached "a" [0; 2; 1] 0 10 None.
Definition req_b : RunRequest := run_cached "b" [1; 1] 2 11 (Some [1]).
Definition req_c : RunRequest := run_cached "c" [2] 0 12 None.
Definition batch_ab : RunBatch := added_to req_b (added_to req_a run_empty).
Definition batch_ready : RunBatch := condensed batch_ab.
Definition batch_next : RunBatch := refreshed batch_ready.
Definition batch_b : RunBatch := condensed (removed_from "a" batch_next).

Definition run_reaches := @batch_reaches unit Z Z unit unit unit Z 4 8 3 run_state run_len id (fun _ => false) id.

Lemma run_len_pos t : 0 <= run_len t.
Proof. done. Qed.

Lemma empty_reached : run_reaches Removing ∅ ∅ run_empty.
Proof.
  apply br_init; [done|done|]. constructor; [|constructor]. split; [done|]. split; [done|]. split.
  - exists 4%nat. split; [lia|]. intros row Hrow. apply elem_of_replicate in Hrow as [-> _]. done.
  - intros x Hx. apply elem_of_replicate in Hx as [-> _]. done.
Qed.

Definition key_of (request : RunRequest) : AddedParams := (run_params (default None (rp_allowed_token_ids <$> cr_sampling_params request)), cr_prompt_token_ids request, cr_output_ref request).
Definition states_ab : gmap string Z := new_request_state run_state (new_request_state run_state ∅ "a" (key_of req_a)) "b" (key_of req_b).

Lemma ab_reached : run_reaches Adding states_ab ∅ batch_ab.
Proof.
  assert (Ha : run_reaches Adding (new_request_state run_state ∅ "a" (key_of req_a)) ∅ (added_to req_a run_empty)).
  { apply (br_add _ _ _ _ _ _ _ _ Removing ∅ ∅ run_empty req_a (run_params None) 0); [apply empty_reached|done|vm_compute; reflexivity..]. }
  apply (br_add _ _ _ _ _ _ _ _ Adding _ ∅ (added_to req_a run_empty) req_b (run_params (Some [1])) 1); [exact Ha|done|vm_compute; reflexivity..].
Qed.

Lemma ready_reached : run_reaches Condensed states_ab ∅ batch_ready.
Proof. apply (br_condense _ _ _ _ _ _ _ _ Adding states_ab ∅ batch_ab); [apply ab_reached|done|vm_compute; reflexivity]. Qed.

Definition update_of (b : RunBatch) : option (BatchUpdate AddedParams) := match refresh run_metadata b with Ok p => p.1.1 | Err _ => None end.
Definition entries_ab : gmap Z Z := process_dict_updates run_state ∅ (update_of batch_ready).

Lemma next_reached : run_reaches Removing states_ab entries_ab batch_next.
Proof.
  apply (br_refresh _ _ _ _ _ _ _ _ states_ab ∅ batch_ready false run_metadata (update_of batch_ready)
    (match refresh run_metadata batch_ready with Ok p => p.1.2 | Err _ => run_metadata end)); [apply ready_reached|vm_compute; reflexivity].
Qed.

Lemma b_reached : run_reaches Condensed (delete "a" states_ab) entries_ab batch_b.
Proof.
  apply (br_condense _ _ _ _ _ _ _ _ Removing (delete "a" states_ab) entries_ab (removed_from "a" batch_next)); [|done|vm_compute; reflexivity].
  apply (br_remove _ _ _ _ _ _ _ _ states_ab entries_ab batch_next "a" (Some 0)); [apply next_reached|vm_compute; reflexivity].
Qed.

(** ** Witnesses *)

Lemma batch_refines_map_witness :
  (exists i b', batch_remove_request false "a" batch_next = Ok (i, b') /\ batch_map b' = delete "a" (batch_map batch_next)) /\
  exists v, row_shows 8 3 run_len id id (block_table batch_next) req_c (run_params None) v /\ batch_map (added_to req_c batch_next) = <["c" := v]> (batch_map batch_next).
Proof.
  destruct (batch_refines_map 4 8 3 run_state run_len id (fun _ => false) id run_len_pos Removing states_ab entries_ab batch_next next_reached) as (Hr & Ha & _).
  split; [exact (Hr eq_refl "a")|].
  apply (Ha ltac:(discriminate) req_c (run_params None) 2 (added_to req_c batch_next)); vm_compute; reflexivity.
Defined.

Lemma processors_in_sync_witness : process_dict_updates run_state entries_ab (update_of batch_b) !! 0 = Some 2 /\ entries_ab !! 0 = Some 3.
Proof.
  split; [|vm_compute; reflexivity].
  etransitivity; [apply (processors_in_sync 4 8 3 run_state run_len id (fun _ => false) id run_len_pos (delete "a" states_ab) entries_ab batch_b false run_metadata
    (update_of batch_b) (match refresh run_metadata batch_b with Ok p => p.1.2 | Err _ => run_metadata end) (refreshed batch_b) b_reached ltac:(vm_compute; reflexivity) 0%nat)|].
  vm_compute. reflexivity.
Defined.

(** [b] decodes and comes before [a], which has not started. *)
Definition run_scheduled : gmap string Z := {["a" := 3; "b" := 1]}.
Lemma reorder_sorts_regions_witness :
  exists changed b', reorder_batch_to_split_decodes_and_prefills false 1 run_scheduled batch_ready = Ok (changed, b') /\
    req_regions 1 run_scheduled batch_ready = Ok [3; 0] /\ req_regions 1 run_scheduled b' = Ok [0; 3].
Proof.
  destruct (reorder_sorts_regions 4 8 3 run_state run_len id (fun _ => false) id run_len_pos 1 run_scheduled states_ab ∅ batch_ready ready_reached) as (l & c & b' & H1 & H2 & _ & H3 & _).
  - intros r Hr. change (batch_map batch_ready) with ((fun i => view batch_ready (Z.to_nat i)) <$> req_id_to_index (ib_ids batch_ready)) in Hr. rewrite lookup_fmap in Hr.
    apply fmap_is_Some in Hr. assert (Hi : req_id_to_index (ib_ids batch_ready) = {["a" := 0; "b" := 1]}) by (vm_compute; reflexivity). rewrite Hi in Hr.
    unfold run_scheduled. destruct Hr as [x Hx]. apply lookup_insert_Some in Hx as [[<- _]|[_ Hx]]; [by eexists|].
    apply lookup_singleton_Some in Hx as [<- _]. by eexists.
  - exists c, b'. assert (Hl : req_regions 1 run_scheduled batch_ready = Ok [3; 0]) by (vm_compute; reflexivity). rewrite Hl in H1. injection H1 as <-. split; [exact H2|split; [exact Hl|]]. rewrite H3. vm_compute. reflexivity.
Defined.

(** ** Masks of allowed tokens *)

Definition two_masks : RunBatch :=
  added_to (run_cached "n" [0] 1 14 (Some [2])) (added_to (run_cached "m" [2; 0] 2 13 (Some [0])) run_empty).
Definition batch_bc : RunBatch := condensed (added_to req_c (refreshed batch_b)).
Definition swapped (b : RunBatch) : RunBatch := match swap_states false 0 1 b with Ok b' => b' | Err _ => b end.

(** In these batches the rows of [allowed_token_ids_mask_cpu_tensor] do not follow the
    requests.  A row that [condense] empties keeps its mask, so that a request without allowed
    tokens that gets the row later, [c], is restricted to the tokens of the one that
    was moved, [b]; and [swap_states] exchanges views of the rows, which leaves both
    requests with the mask of the second. *)
Theorem allowed_mask_leaks :
  (batch_map batch_bc !! "c" <> None /\ cr_sampling_params req_c ≫= rp_allowed_token_ids = None /\
    run_mask batch_bc = Some [[true; false; true]; [true; false; true]]) /\
  run_mask (condensed two_masks) = Some [[false; true; true]; [true; true; false]] /\
  run_mask (swapped (condensed two_masks)) = Some [[true; true; false]; [true; true; false]].
Proof. split; [split; [vm_compute; discriminate|split; vm_compute; reflexivity]|split; vm_compute; reflexivity]. Qed.
