(* ===== verification/Runner.v ===== *)
(** The states of the requests in a worker and the persistent batch at the start of
    a step ([_update_states] of [vllm/v1/worker/gpu_model_runner.py]), for
    generative models and synchronous scheduling.

    Requests are kept by id; the batch gets a new list of output tokens per request,
    named by a reference.  [row_params] are the fields of the sampling parameters
    that the batch reads, [prompt_logprobs] another one, [seeded_generator] the
    generator of a request that has a seed.  The order of sets is [id_order].  The
    writes on the device (zeroed blocks, positions, encoder outputs) are left out. *)
From S2P Require Import Prelude PyDict PyRes PyFloat Request BlockPool SingleType Coordinator KVManager SchedState.
From S2P Require Import BatchUpdate BlockTable InputBatch BatchReorder.
From Stdlib Require Import SpecFloat.
Local Open Scope Z_scope.

Section Runner.
Context {Generator States Logprobs : Type} (new_states : States).
Context (row_params : SamplingParams -> RowParams) (prompt_logprobs : SamplingParams -> option Z) (seeded_generator : SamplingParams -> option Generator).
Context (requires_token_ids : PoolingParams -> bool) (as_float32 : spec_float -> spec_float) (id_order : gset string -> list string).
Context (max_num_reqs vocab_size : Z) (is_last_rank has_kv_cache_groups logitsprocs_need_output_token_ids : bool) (reorder_batch_threshold : option Z).

Abbreviation Cached := (@CachedRequestState (list bytes) Generator LoRARequest PoolingParams States).
Definition Batch : Type := @InputBatch (list bytes) Generator LoRARequest PoolingParams States Logprobs.
Abbreviation add_to_batch := (batch_add_request zlen lora_int_id requires_token_ids as_float32 max_num_reqs vocab_size).

Record Runner := mkRunner {
  rn_requests : gmap string Cached;
  rn_num_prompt_logprobs : gmap string Z;
  rn_next_ref : Z;
  rn_batch : Batch;
  rn_metadata : SamplingMetadata
}.
Definition set_requests (f : gmap string Cached -> gmap string Cached) (rn : Runner) : Runner :=
  mkRunner (f (rn_requests rn)) (rn_num_prompt_logprobs rn) (rn_next_ref rn) (rn_batch rn) (rn_metadata rn).
Definition set_batch (b : Batch) (rn : Runner) : Runner :=
  mkRunner (rn_requests rn) (rn_num_prompt_logprobs rn) (rn_next_ref rn) b (rn_metadata rn).

(** ** Requests that leave *)

Fixpoint remove_each (req_ids : list string) (b : Batch) : res Batch :=
  match req_ids with
  | [] => Ok b
  | req_id :: req_ids => p ← batch_remove_request false req_id b ; remove_each req_ids p.2
  end.
Definition unscheduled_req_ids (so : SchedulerOutput) (b : Batch) : gset string :=
  let scheduled_req_ids := list_to_set (od_keys (so_num_scheduled_tokens so)) in
  dom (req_id_to_index (ib_ids b)) ∖ (scheduled_req_ids ∖ cr_resumed_req_ids (so_scheduled_cached_reqs so)).
Definition drop_unscheduled (so : SchedulerOutput) (rn : Runner) : res Runner :=
  let finished := id_order (so_finished_req_ids so) in
  let rn := mkRunner (foldl (fun m r => delete r m) (rn_requests rn) finished) (foldl (fun m r => delete r m) (rn_num_prompt_logprobs rn) finished)
    (rn_next_ref rn) (rn_batch rn) (rn_metadata rn) in
  b ← remove_each finished (rn_batch rn) ;
  b ← remove_each (id_order (unscheduled_req_ids so b)) b ;
  Ok (set_batch b rn).

(** ** New requests *)

(** A later prompt of a streaming session; the output list is emptied. *)
Definition _update_streaming_request (req_id : string) (new_req_data : NewRequestData) (block_ids : list (list Z)) (rn : Runner) : res Runner :=
  p ← batch_remove_request false req_id (rn_batch rn) ;
  req_state ← match rn_requests rn !! req_id with Some r => Ok r | None => Err KeyError end ;
  _ ← prompt_length zlen (nr_prompt_token_ids new_req_data) (nr_prompt_embeds new_req_data) ;
  let req_state := mkCached (cr_req_id req_state) (nr_prompt_token_ids new_req_data) (nr_prompt_embeds new_req_data)
    (row_params <$> nr_sampling_params new_req_data) (nr_pooling_params new_req_data) (cr_pooling_states req_state) (cr_generator req_state) block_ids
    (nr_num_computed_tokens new_req_data) [] (cr_output_ref req_state) (cr_lora_request req_state) (cr_prev_num_draft_len req_state) in
  Ok (set_requests <[req_id := req_state]> (set_batch p.2 rn)).
(** A request without block ids fails when it is added to the batch. *)
Definition new_request (new_req_data : NewRequestData) (rn : Runner) : res Runner :=
  let req_id := nr_req_id new_req_data in
  block_ids ← match nr_block_ids new_req_data with Some ids => Ok ids | None => Err TypeError end ;
  match rn_requests rn !! req_id with
  | Some _ => _update_streaming_request req_id new_req_data block_ids rn
  | None =>
      _ ← prompt_length zlen (nr_prompt_token_ids new_req_data) (nr_prompt_embeds new_req_data) ;
      let params := nr_sampling_params new_req_data in
      let req_state := mkCached req_id (nr_prompt_token_ids new_req_data) (nr_prompt_embeds new_req_data) (row_params <$> params)
        (nr_pooling_params new_req_data) ((fun _ => new_states) <$> nr_pooling_params new_req_data) (params ≫= seeded_generator) block_ids
        (nr_num_computed_tokens new_req_data) [] (rn_next_ref rn) (nr_lora_request new_req_data) 0 in
      let logprobs := match params ≫= prompt_logprobs with
                      | Some n => <[req_id := if n =? -1 then vocab_size else n]> (rn_num_prompt_logprobs rn)
                      | None => rn_num_prompt_logprobs rn
                      end in
      Ok (mkRunner (<[req_id := req_state]> (rn_requests rn)) logprobs (rn_next_ref rn + 1) (rn_batch rn) (rn_metadata rn))
  end.
Fixpoint new_requests (data : list NewRequestData) (rn : Runner) (reqs_to_add : list string) : res (Runner * list string) :=
  match data with
  | [] => Ok (rn, reqs_to_add)
  | d :: data => rn ← new_request d rn ; new_requests data rn (reqs_to_add ++ [nr_req_id d])
  end.

(** ** Running and resumed requests *)

Definition new_token_ids (i : Z) (d : CachedRequestData) : res (list Z) :=
  if is_last_rank then Ok [] else match cr_new_token_ids d with [] => Ok [] | l => py_get l i end.
(** The output tokens after the step before: those of the scheduler on the first
    ranks; on the last one, none beyond what the scheduler knows. *)
Definition cached_outputs (d : CachedRequestData) (num_computed_tokens num_output_tokens : Z) (new : list Z) (r : Cached) : res (list Z) :=
  let outs := cr_output_token_ids r in
  if is_last_rank then Ok (if num_output_tokens <? zlen outs then py_slice_to outs num_output_tokens else outs)
  else if bool_decide (cr_new_token_ids d = []) then Ok outs
  else
    num_tokens ← cr_num_tokens zlen r ;
    let num_new_tokens := num_computed_tokens + zlen new - num_tokens in
    if num_new_tokens =? 1 then x ← py_get new (-1) ; Ok (outs ++ [x])
    else Ok (if 0 <? num_new_tokens then outs ++ py_slice_from new (- num_new_tokens) else outs).
Definition cached_blocks (resumed in_batch : bool) (new_block_ids : option (list (list Z))) (r : Cached) : res (list (list Z)) :=
  if resumed then
    _ ← r_assert (negb in_batch) ;
    match new_block_ids with Some ids => Ok ids | None => Err AssertionError end
  else
    Ok (match new_block_ids with
        | Some ids => zip_with app (cr_block_ids r) ids ++ drop (length ids) (cr_block_ids r)
        | None => cr_block_ids r
        end).
Definition with_progress (r : Cached) (num_computed_tokens : Z) (outs : list Z) (blocks : list (list Z)) : Cached :=
  mkCached (cr_req_id r) (cr_prompt_token_ids r) (cr_prompt_embeds r) (cr_sampling_params r) (cr_pooling_params r) (cr_pooling_states r) (cr_generator r)
    blocks num_computed_tokens outs (cr_output_ref r) (cr_lora_request r) (cr_prev_num_draft_len r).

(** The row of a request that stays: tokens dropped, progress, blocks, new tokens. *)
Definition write_row (req_index num_computed_tokens : Z) (num_tokens : option Z) (new_block_ids : option (list (list Z))) (new : list Z) (b : Batch) : res Batch :=
  let r := ib_rows b in
  nts ← match num_tokens with
        | Some n => num_prompt ← py_get (num_prompt_tokens r) req_index ; np_set (num_tokens_no_spec r) req_index (num_prompt + n)
        | None => Ok (num_tokens_no_spec r)
        end ;
  ncs ← np_set (num_computed_tokens_cpu r) req_index num_computed_tokens ;
  tables ← match new_block_ids with Some ids => multi_append_row ids req_index (block_table b) | None => Ok (block_table b) end ;
  tn ← (if is_last_rank then Ok (token_ids_cpu r, nts)
        else
          let end_token_index := num_computed_tokens + zlen new in
          toks ← np_update (token_ids_cpu r) req_index (fun row => np_assign row num_computed_tokens end_token_index new) ;
          nts ← np_set nts req_index end_token_index ;
          Ok (toks, nts)) ;
  Ok (mkBatch (ib_ids b) (mkRows tn.1 (is_token_ids r) tn.2 (num_prompt_tokens r) ncs (request_lora_mapping r)) (req_prompt_embeds b) tables
        (ib_sampling b) (ib_sets b) (ib_dicts b) (ib_lora b) (ib_pool b) (batch_update_builder b) (prev_req_id_to_index b)).

Definition spec_tokens (so : SchedulerOutput) : gmap string (list Z) := list_to_map (so_scheduled_spec_decode_tokens so).
Definition cached_request (so : SchedulerOutput) (i : Z) (req_id : string) (rn : Runner) : res (Runner * bool) :=
  let d := so_scheduled_cached_reqs so in
  req_state ← match rn_requests rn !! req_id with Some r => Ok r | None => Err KeyError end ;
  num_computed_tokens ← py_get (SchedState.cr_num_computed_tokens d) i ;
  new_block_ids ← py_get (cr_new_block_ids d) i ;
  let resumed_from_preemption := bool_decide (req_id ∈ cr_resumed_req_ids d) in
  num_output_tokens ← py_get (cr_num_output_tokens d) i ;
  let req_index := req_id_to_index (ib_ids (rn_batch rn)) !! req_id in
  new ← new_token_ids i d ;
  outs ← cached_outputs d num_computed_tokens num_output_tokens new req_state ;
  blocks ← cached_blocks resumed_from_preemption (bool_decide (is_Some req_index)) new_block_ids req_state ;
  let updated := with_progress req_state num_computed_tokens outs blocks in
  match req_index with
  | None => Ok (set_requests <[req_id := updated]> rn, true)
  | Some index =>
      let cut := if is_last_rank && (num_output_tokens <? zlen (cr_output_token_ids req_state)) then Some num_output_tokens else None in
      b ← write_row index num_computed_tokens cut new_block_ids new (rn_batch rn) ;
      rb ← update_req_spec_token_ids updated (spec_tokens so) b ;
      Ok (set_batch rb.2 (set_requests <[req_id := rb.1]> rn), false)
  end.
Fixpoint cached_requests (so : SchedulerOutput) (i : Z) (req_ids : list string) (rn : Runner) (reqs_to_add : list string) : res (Runner * list string) :=
  match req_ids with
  | [] => Ok (rn, reqs_to_add)
  | req_id :: req_ids =>
      ra ← cached_request so i req_id rn ;
      cached_requests so (i + 1) req_ids ra.1 (if (ra.2 : bool) then reqs_to_add ++ [req_id] else reqs_to_add)
  end.

(** ** The batch of the step *)

Fixpoint add_requests (so : SchedulerOutput) (reqs_to_add : list string) (rn : Runner) : res Runner :=
  match reqs_to_add with
  | [] => Ok rn
  | req_id :: reqs_to_add =>
      request ← match rn_requests rn !! req_id with Some r => Ok r | None => Err KeyError end ;
      p ← add_to_batch request (rn_batch rn) ;
      rb ← update_req_spec_token_ids request (spec_tokens so) p.2 ;
      add_requests so reqs_to_add (set_batch rb.2 (set_requests <[req_id := rb.1]> rn))
  end.
Definition _may_reorder_batch (so : SchedulerOutput) (b : Batch) : res Batch :=
  if negb has_kv_cache_groups then Ok b
  else match reorder_batch_threshold with
       | None => Ok b
       | Some t => p ← reorder_batch_to_split_decodes_and_prefills false t (list_to_map (so_num_scheduled_tokens so) : gmap string Z) b ; Ok p.2
       end.

Definition _update_states (so : SchedulerOutput) (rn : Runner) : res (Runner * option (BatchUpdate AddedParams)) :=
  rn ← drop_unscheduled so rn ;
  ra ← new_requests (so_scheduled_new_reqs so) rn [] ;
  ra ← cached_requests so 0 (cr_req_ids (so_scheduled_cached_reqs so)) ra.1 ra.2 ;
  rn ← add_requests so ra.2 ra.1 ;
  b ← condense false (rn_batch rn) ;
  b ← _may_reorder_batch so b ;
  umb ← refresh_metadata vocab_size false logitsprocs_need_output_token_ids (rn_metadata rn) b ;
  Ok (mkRunner (rn_requests rn) (rn_num_prompt_logprobs rn) (rn_next_ref rn) umb.2 umb.1.2, umb.1.1).
End Runner.

(** * What a step makes of the batch *)
From S2P Require Import BatchRows BatchInv BatchOps BatchReorder BatchSpec.

Section Steps.
Context {Generator States Logprobs T : Type} (new_states : States) (new_state : AddedParams -> option T).
Context (row_params : SamplingParams -> RowParams) (prompt_logprobs : SamplingParams -> option Z) (seeded_generator : SamplingParams -> option Generator).
Context (requires_token_ids : PoolingParams -> bool) (as_float32 : spec_float -> spec_float) (id_order : gset string -> list string).
Context (Horder : forall s, id_order s ≡ₚ elements s).
Context (max_num_reqs max_model_len vocab_size : Z) (is_last_rank has_kv_cache_groups need : bool) (reorder_batch_threshold : option Z).
Abbreviation Batch := (@Batch Generator States Logprobs).
Abbreviation Runner := (@Runner Generator States Logprobs).
Abbreviation Cached := (@CachedRequestState (list bytes) Generator LoRARequest PoolingParams States).
Abbreviation add_to_batch := (batch_add_request zlen lora_int_id requires_token_ids as_float32 max_num_reqs vocab_size).
Definition reaches : batch_phase -> gmap string T -> gmap Z T -> Batch -> Prop :=
  batch_reaches max_num_reqs max_model_len vocab_size new_state zlen lora_int_id requires_token_ids as_float32.
Implicit Types (b : Batch) (rn : Runner) (S : gmap string T) (E : gmap Z T).

(** ** The computed tokens of the requests in the batch *)

Definition row_computed b (r : string) : option Z := v ← batch_map b !! r ; rv_num_computed v.

Lemma reaches_ok ph S E b : reaches ph S E b -> phase_ok max_num_reqs max_model_len new_state ph S E b.
Proof. apply batch_reaches_ok. intros t. unfold zlen. lia. Qed.

Lemma reaches_batch_ok ph S E b : reaches ph S E b -> batch_ok max_num_reqs max_model_len b.
Proof. intros H%reaches_ok. destruct ph; [apply H|apply H|apply H]. Qed.

Lemma row_computed_row b k r : batch_ok max_num_reqs max_model_len b -> row_of (ib_ids b) k r ->
  row_computed b r = num_computed_tokens_cpu (ib_rows b) !! k /\ is_Some (row_computed b r).
Proof.
  intros Hok Hk. unfold row_computed. rewrite (batch_map_row _ _ _ _ _ Hok Hk). cbn. split; [done|].
  destruct (row_lt _ _ _ _ _ Hok Hk) as [_ Hlt]. apply lookup_lt_is_Some_2. by rewrite (rs_num_computed _ _ _ (sh_rows _ _ _ (bo_shape _ _ _ Hok))).
Qed.

Lemma row_computed_map b b' r : batch_map b' !! r = batch_map b !! r -> row_computed b' r = row_computed b r.
Proof. unfold row_computed. by intros ->. Qed.

Lemma row_computed_None b r : batch_ok max_num_reqs max_model_len b -> row_computed b r = None <-> req_id_to_index (ib_ids b) !! r = None.
Proof.
  intros Hok. split.
  - intros H. destruct (req_id_to_index (ib_ids b) !! r) as [i|] eqn:Ei; [|done]. apply (bo_index _ _ _ Hok) in Ei as (k & -> & Hk).
    destruct (row_computed_row b k r Hok Hk) as [_ [n Hn]]. congruence.
  - intros H. unfold row_computed, batch_map. by rewrite lookup_fmap, H.
Qed.

(** A write to one row. *)
Lemma row_computed_write b b' r k n r' : row_write max_num_reqs max_model_len b b' -> batch_ok max_num_reqs max_model_len b -> row_of (ib_ids b) k r ->
  num_computed_tokens_cpu (ib_rows b') = <[k := n]> (num_computed_tokens_cpu (ib_rows b)) ->
  row_computed b' r' = if decide (r' = r) then Some n else row_computed b r'.
Proof.
  intros Hw Hok Hk Hn. pose proof (row_write_ok _ _ _ _ Hw Hok) as Hok'. pose proof Hw as (_ & Hr & Hi & _).
  assert (Hrow : forall k r, row_of (ib_ids b') k r <-> row_of (ib_ids b) k r) by (intros; unfold row_of; by rewrite Hr).
  destruct (req_id_to_index (ib_ids b) !! r') as [i|] eqn:Ei.
  - apply (bo_index _ _ _ Hok) in Ei as (k' & -> & Hk'). destruct (row_computed_row b' k' r' Hok' ltac:(by apply Hrow)) as [-> _].
    destruct (row_computed_row b k' r' Hok Hk') as [-> _]. rewrite Hn. case_decide as Er.
    + subst. rewrite (index_inj _ _ _ _ (bo_index _ _ _ Hok) Hk' Hk). apply list_lookup_insert_eq.
      rewrite (rs_num_computed _ _ _ (sh_rows _ _ _ (bo_shape _ _ _ Hok))). by apply (row_lt _ _ _ _ _ Hok Hk).
    + apply list_lookup_insert_ne. intros ->. apply Er. unfold row_of in *. congruence.
  - rewrite decide_False by (intros ->; apply (index_row _ _ _ (bo_index _ _ _ Hok)) in Hk; congruence).
    rewrite (proj2 (row_computed_None b' r' Hok')) by (by rewrite Hi). by rewrite (proj2 (row_computed_None b r' Hok)).
Qed.

Lemma row_computed_same b b' r : row_write max_num_reqs max_model_len b b' -> batch_ok max_num_reqs max_model_len b ->
  num_computed_tokens_cpu (ib_rows b') = num_computed_tokens_cpu (ib_rows b) -> row_computed b' r = row_computed b r.
Proof.
  intros Hw Hok Hn. pose proof (row_write_ok _ _ _ _ Hw Hok) as Hok'. pose proof Hw as (_ & Hr & Hi & _).
  destruct (req_id_to_index (ib_ids b) !! r) as [i|] eqn:Ei.
  - apply (bo_index _ _ _ Hok) in Ei as (k & -> & Hk). assert (Hk' : row_of (ib_ids b') k r) by (unfold row_of in *; by rewrite Hr).
    destruct (row_computed_row b' k r Hok' Hk') as [-> _]. destruct (row_computed_row b k r Hok Hk) as [-> _]. by rewrite Hn.
  - rewrite (proj2 (row_computed_None b' r Hok')) by (by rewrite Hi). by rewrite (proj2 (row_computed_None b r Hok)).
Qed.

(** ** Requests that leave *)

Lemma remove_reaches S E b r : reaches Removing S E b ->
  exists i b', batch_remove_request false r b = Ok (i, b') /\ reaches Removing (delete r S) E b' /\
    forall r', row_computed b' r' = if decide (r' = r) then None else row_computed b r'.
Proof.
  intros Hr. destruct (reaches_ok Removing S E b Hr) as [Ho Hf]. destruct (open_remove _ _ _ S E b r Ho Hf) as (i & b' & Hrun & _ & _ & Hmap).
  exists i, b'. split; [done|]. split; [by eapply br_remove|]. intros r'. unfold row_computed. rewrite Hmap.
  case_decide; [subst; by rewrite lookup_delete_eq|by rewrite lookup_delete_ne].
Qed.

Lemma remove_each_ok rs S E b : reaches Removing S E b ->
  exists S' b', remove_each rs b = Ok b' /\ reaches Removing S' E b' /\ forall r, row_computed b' r = if decide (r ∈ rs) then None else row_computed b r.
Proof.
  revert S b. induction rs as [|r rs IH]; intros S b Hr; cbn [remove_each]; [exists S, b; split; [done|]; split; [done|]; intros r; by rewrite decide_False by apply not_elem_of_nil|].
  destruct (remove_reaches S E b r Hr) as (i & b1 & -> & Hr1 & H1). cbn [mbind res_bind snd]. destruct (IH _ _ Hr1) as (S' & b' & Hrun & Hr' & H').
  exists S', b'. split; [done|]. split; [done|]. intros x. rewrite H', H1. destruct (decide (x ∈ rs)) as [H2|H2]; [by rewrite decide_True by (by right)|].
  destruct (decide (x = r)) as [->|H3]; [by rewrite decide_True by left|]. rewrite decide_False; [done|]. by intros [?|?]%elem_of_cons.
Qed.

(** The states of the requests in the batch are known, under their own ids. *)
Record runner_in (ph : batch_phase) rn : Prop := {
  ro_batch : exists S E, reaches ph S E (rn_batch rn);
  ro_known : forall r, is_Some (row_computed (rn_batch rn) r) -> is_Some (rn_requests rn !! r);
  ro_ids : forall r c, rn_requests rn !! r = Some c -> cr_req_id c = r /\ is_Some (cr_sampling_params c)
}.
Abbreviation runner_ok := (runner_in Removing).

Lemma fold_delete_lookup {V} (m : gmap string V) rs r : foldl (fun m r => delete r m) m rs !! r = if decide (r ∈ rs) then None else m !! r.
Proof.
  revert m. induction rs as [|x rs IH]; intros m; cbn [foldl]; [by rewrite decide_False by apply not_elem_of_nil|]. rewrite IH.
  destruct (decide (r ∈ rs)) as [H|H]; [by rewrite decide_True by (by right)|]. destruct (decide (r = x)) as [->|Hx].
  - by rewrite lookup_delete_eq, decide_True by left.
  - rewrite lookup_delete_ne, decide_False; [done|by intros [?|?]%elem_of_cons|done].
Qed.

Lemma in_order (s : gset string) r : r ∈ id_order s <-> r ∈ s.
Proof. by rewrite Horder, elem_of_elements. Qed.

Definition scheduled_ids (so : SchedulerOutput) : gset string := list_to_set (od_keys (so_num_scheduled_tokens so)).
Definition stays (so : SchedulerOutput) (r : string) : Prop :=
  r ∉ so_finished_req_ids so /\ r ∈ scheduled_ids so /\ r ∉ cr_resumed_req_ids (so_scheduled_cached_reqs so).

Lemma drop_unscheduled_ok so rn : runner_ok rn ->
  exists rn', drop_unscheduled id_order so rn = Ok rn' /\ runner_ok rn' /\
    (forall r, row_computed (rn_batch rn') r = if decide (stays so r) then row_computed (rn_batch rn) r else None) /\
    forall r, rn_requests rn' !! r = if decide (r ∈ so_finished_req_ids so) then None else rn_requests rn !! r.
Proof.
  intros [(S & E & Hr) Hknown Hids]. unfold drop_unscheduled. cbn [rn_batch].
  destruct (remove_each_ok (id_order (so_finished_req_ids so)) S E (rn_batch rn) Hr) as (S1 & b1 & -> & Hr1 & H1). cbn [mbind res_bind].
  destruct (remove_each_ok (id_order (unscheduled_req_ids so b1)) S1 E b1 Hr1) as (S2 & b2 & -> & Hr2 & H2). cbn [mbind res_bind].
  eexists. split; [reflexivity|]. cbn [rn_batch rn_requests set_batch].
  assert (Hcomp : forall r, row_computed b2 r = if decide (stays so r) then row_computed (rn_batch rn) r else None).
  { intros r. rewrite H2. destruct (row_computed b1 r) as [n|] eqn:E1.
    - rewrite H1 in E1. destruct (decide (r ∈ id_order (so_finished_req_ids so))) as [|Hfin]; [done|]. rewrite in_order in Hfin. rewrite E1.
      assert (Hin : r ∈ dom (req_id_to_index (ib_ids b1))).
      { apply elem_of_dom. destruct (req_id_to_index (ib_ids b1) !! r) eqn:Ei; [by eexists|]. apply (row_computed_None b1 r) in Ei; [|by eapply reaches_batch_ok].
        rewrite H1, decide_False in Ei by (by rewrite in_order). congruence. }
      assert (Hiff : r ∈ id_order (unscheduled_req_ids so b1) <-> ~ stays so r).
      { rewrite in_order. unfold unscheduled_req_ids, stays, scheduled_ids. rewrite !elem_of_difference. destruct (decide (r ∈ cr_resumed_req_ids (so_scheduled_cached_reqs so)));
          destruct (decide (r ∈ (list_to_set (od_keys (so_num_scheduled_tokens so)) : gset string))); tauto. }
      repeat case_decide; tauto.
    - destruct (decide (stays so r)) as [[Hfin _]|]; [|by case_decide]. rewrite H1, decide_False in E1 by (by rewrite in_order). rewrite E1. by case_decide. }
  split; [|split; [done|]].
  - constructor; cbn.
    + by exists S2, E.
    + intros r [n Hn]. rewrite Hcomp in Hn. case_decide as Hs; [|done]. rewrite fold_delete_lookup, decide_False by (rewrite in_order; apply Hs). apply Hknown. by exists n.
    + intros r c. rewrite fold_delete_lookup. case_decide; [done|]. apply Hids.
  - intros r. rewrite fold_delete_lookup. destruct (decide (r ∈ id_order (so_finished_req_ids so))) as [H|H]; rewrite in_order in H; [by rewrite decide_True|by rewrite decide_False].
Qed.

(** ** New requests *)

(** The state of a request that the scheduler sends for the first time. *)
Definition is_new_state (d : NewRequestData) (c : Cached) : Prop :=
  cr_num_computed_tokens c = nr_num_computed_tokens d /\ cr_prompt_token_ids c = nr_prompt_token_ids d /\ cr_output_token_ids c = [] /\
  nr_block_ids d = Some (cr_block_ids c).

Abbreviation new_req := (new_request (Logprobs:=Logprobs) new_states row_params prompt_logprobs seeded_generator vocab_size).
Abbreviation new_reqs := (new_requests (Logprobs:=Logprobs) new_states row_params prompt_logprobs seeded_generator vocab_size).

Lemma new_request_Ok d rn rn' : runner_ok rn -> is_Some (nr_sampling_params d) -> new_req d rn = Ok rn' ->
  runner_ok rn' /\ (forall r, row_computed (rn_batch rn') r = if decide (r = nr_req_id d) then None else row_computed (rn_batch rn) r) /\
  (forall r, r <> nr_req_id d -> rn_requests rn' !! r = rn_requests rn !! r) /\ exists c, rn_requests rn' !! nr_req_id d = Some c /\ is_new_state d c.
Proof.
  intros [(S & E & Hr) Hknown Hids] [p Hp] H. unfold new_request in H. bind_inv H as blocks Hblocks. destruct (nr_block_ids d) as [ids|] eqn:Eb; [injection Hblocks as ->|done].
  destruct (rn_requests rn !! nr_req_id d) as [c|] eqn:Ec.
  - destruct (remove_reaches S E (rn_batch rn) (nr_req_id d) Hr) as (i & b' & Hrun & Hr' & H'). unfold _update_streaming_request in H. rewrite Hrun, Ec in H. cbn [mbind res_bind snd] in H.
    bind_inv H as n Hn. injection H as <-. cbn.
    destruct (Hids _ _ Ec) as [Hid _]. split; [|split; [done|split; [intros r Hne; by rewrite lookup_insert_ne|]]].
    + constructor; cbn; [by exists (delete (nr_req_id d) S), E| |].
      * intros r Hs. rewrite H' in Hs. case_decide; [by destruct Hs|]. rewrite lookup_insert_ne by done. by apply Hknown.
      * intros r x [[<- <-]|[_ Hx]]%lookup_insert_Some; [cbn; rewrite Hp; split; [done|by eexists]|by apply Hids].
    + eexists. split; [apply lookup_insert_eq|]. by repeat split.
  - bind_inv H as n Hn. injection H as <-. cbn. assert (Hnone : row_computed (rn_batch rn) (nr_req_id d) = None).
    { destruct (row_computed (rn_batch rn) (nr_req_id d)) eqn:Er; [|done]. destruct (Hknown (nr_req_id d)) as [? Hx]; [by rewrite Er|congruence]. }
    split; [|split; [intros r; by case_decide; subst|split; [intros r Hne; by rewrite lookup_insert_ne|]]].
    + constructor; cbn; [by exists S, E| |].
      * intros r Hs. destruct (decide (r = nr_req_id d)) as [->|Hne]; [rewrite Hnone in Hs; by destruct Hs|]. rewrite lookup_insert_ne by done. by apply Hknown.
      * intros r x [[<- <-]|[_ Hx]]%lookup_insert_Some; [cbn; rewrite Hp; split; [done|by eexists]|by apply Hids].
    + eexists. split; [apply lookup_insert_eq|]. by repeat split.
Qed.

Lemma new_requests_Ok data rn acc rn' to_add : runner_ok rn -> NoDup (map nr_req_id data) -> (forall d, d ∈ data -> is_Some (nr_sampling_params d)) ->
  new_reqs data rn acc = Ok (rn', to_add) ->
  runner_ok rn' /\ to_add = acc ++ map nr_req_id data /\
  (forall r, row_computed (rn_batch rn') r = if decide (r ∈ map nr_req_id data) then None else row_computed (rn_batch rn) r) /\
  (forall r, r ∉ map nr_req_id data -> rn_requests rn' !! r = rn_requests rn !! r) /\
  forall d, d ∈ data -> exists c, rn_requests rn' !! nr_req_id d = Some c /\ is_new_state d c.
Proof.
  revert rn acc. induction data as [|d data IH]; intros rn acc Hok Hnd Hp H; cbn [new_requests] in H.
  - injection H as <- <-. rewrite app_nil_r. split; [done|]. split; [done|]. split; [intros r; by rewrite decide_False by apply not_elem_of_nil|]. split; [done|].
    by intros d ?%elem_of_nil.
  - bind_inv H as rn1 H1. cbn [map] in *. apply NoDup_cons in Hnd as [Hnin Hnd]. destruct (new_request_Ok d rn rn1 Hok (Hp d ltac:(left)) H1) as (Hok1 & Hc1 & Hq1 & c & Hc & Hs).
    destruct (IH rn1 (acc ++ [nr_req_id d]) Hok1 Hnd ltac:(intros d' Hd'; apply Hp; by right) H) as (Hok' & -> & Hc' & Hq' & Hn').
    split; [done|]. split; [by rewrite <-app_assoc|]. split; [|split].
    + intros r. rewrite Hc', Hc1. destruct (decide (r ∈ map nr_req_id data)) as [H2|H2]; [by rewrite decide_True by (by right)|].
      destruct (decide (r = nr_req_id d)) as [->|H3]; [by rewrite decide_True by left|]. rewrite decide_False; [done|]. by intros [?|?]%elem_of_cons.
    + intros r Hr. apply not_elem_of_cons in Hr as [Hr1 Hr2]. by rewrite Hq', Hq1.
    + intros d' [->|Hd']%elem_of_cons; [|by apply Hn']. exists c. split; [|done]. by rewrite Hq'.
Qed.

(** ** Running and resumed requests *)

Lemma append_row_wf n t (i : nat) ids t' : table_wf n t -> append_row ids (Z.of_nat i) t = Ok t' -> table_wf n t'.
Proof.
  intros (Hr & Hn & (w & Hw0 & Hw) & Hpos) H. unfold append_row in H. destruct ids as [|x ids]; [injection H as <-; split; [done|]; split; [done|]; by split; [exists w|]|].
  set (ks := if bt_use_hybrid_blocks t then _ else _) in H. bind_inv H as start Hstart. apply py_get_Ok in Hstart. bind_inv H as nums Hnums. bind_inv H as rws Hrws. injection H as <-.
  pose proof (width_update w _ _ _ _ Hw (fun x y => np_assign_length x _ _ _ y) Hrws) as Hw'. apply np_update_row in Hrws as (Hl & _). apply np_set_row in Hnums as (Hln & Hne & Heq).
  split; [cbn; lia|]. split; [cbn; lia|]. split; [by exists w|]. cbn. intros z [k Hk]%list_elem_of_lookup. destruct (decide (k = i)) as [->|Hki].
  - rewrite Heq in Hk. injection Hk as <-. assert (0 <= start) by (apply Hpos; by eapply list_elem_of_lookup_2). unfold zlen. lia.
  - rewrite Hne in Hk by done. apply Hpos. by eapply list_elem_of_lookup_2.
Qed.

Lemma multi_append_wf n (i : nat) idss ts ts' : Forall (table_wf n) ts -> multi_append_row idss (Z.of_nat i) ts = Ok ts' -> Forall (table_wf n) ts'.
Proof.
  unfold multi_append_row. intros Hts. revert idss ts'. induction Hts as [|t ts Ht Hts IH]; intros idss ts' H.
  - assert (ts' = []) as -> by (destruct idss; by injection H). constructor.
  - destruct idss as [|ids idss]; [done|]. cbn in H. bind_inv H as t' Et. bind_inv H as ts1 Ets. injection H as <-. constructor; [by eapply append_row_wf|by eapply IH].
Qed.

Lemma write_row_Ok (k : nat) r n cut blocks new b b' : batch_ok max_num_reqs max_model_len b -> row_of (ib_ids b) k r -> (is_last_rank = false -> 0 <= n) -> (forall m, cut = Some m -> 0 <= m) ->
  write_row is_last_rank (Z.of_nat k) n cut blocks new b = Ok b' ->
  row_write max_num_reqs max_model_len b b' /\ num_computed_tokens_cpu (ib_rows b') = <[k := n]> (num_computed_tokens_cpu (ib_rows b)).
Proof.
  intros [[Si [Ht Hw Hf Hwf Hnt Hpos Hnp Hppos Hnc Hl] St Ss Sd Sn] Hx He _] Hk Hn Hcut H. unfold write_row in H. bind_inv H as nts Hnts. bind_inv H as ncs Hncs. bind_inv H as ts Hts. bind_inv H as tn Htn. injection H as <-.
  assert (Hnts' : length nts = length (num_tokens_no_spec (ib_rows b)) /\ forall x, x ∈ nts -> 0 <= x).
  { destruct cut as [m|]; [|by injection Hnts as <-]. bind_inv Hnts as np Hnp1. apply py_get_Ok in Hnp1. apply np_set_row in Hnts as (Hl1 & Hne & Heq). split; [done|].
    intros x [j Hj]%list_elem_of_lookup. destruct (decide (j = k)) as [->|Hjk].
    - rewrite Heq in Hj. injection Hj as <-. assert (0 <= np) by (apply Hppos; by eapply list_elem_of_lookup_2). specialize (Hcut m eq_refl). lia.
    - rewrite Hne in Hj by done. apply Hpos. by eapply list_elem_of_lookup_2. }
  destruct Hnts' as [Hl1 Hp1]. assert (Htn' : length tn.1 = length (token_ids_cpu (ib_rows b)) /\ width (Z.to_nat max_model_len) tn.1 /\ length tn.2 = length nts /\ forall x, x ∈ tn.2 -> 0 <= x).
  { destruct is_last_rank; [by injection Htn as <-|]. bind_inv Htn as toks Htoks. bind_inv Htn as nts2 Hnts2. injection Htn as <-. cbn.
    pose proof (width_update _ _ _ _ _ Hw (fun x y => np_assign_length x _ _ _ y) Htoks) as Hw'. apply np_update_row in Htoks as (Hlt & _). apply np_set_row in Hnts2 as (Hl2 & Hne & Heq).
    split; [done|]. split; [done|]. split; [done|]. intros x [j Hj]%list_elem_of_lookup. destruct (decide (j = k)) as [->|Hjk].
    - rewrite Heq in Hj. injection Hj as <-. unfold zlen. lia.
    - rewrite Hne in Hj by done. apply Hp1. by eapply list_elem_of_lookup_2. }
  destruct Htn' as (Hl3 & Hw3 & Hl4 & Hp4). apply np_set_Ok in Hncs as [_ ->]. rewrite Nat2Z.id. split; [|done]. split; [|by repeat split; intros x Hx'; apply He].
  constructor; cbn; try done; [constructor; cbn; rewrite ?length_insert; try done; lia|].
  destruct blocks as [ids|]; [by eapply multi_append_wf|by injection Hts as <-].
Qed.

Lemma spec_tokens_keep request tokens b request' b' : update_req_spec_token_ids request tokens b = Ok (request', b') ->
  num_computed_tokens_cpu (ib_rows b') = num_computed_tokens_cpu (ib_rows b) /\ cr_req_id request' = cr_req_id request /\
  cr_sampling_params request' = cr_sampling_params request /\ cr_num_computed_tokens request' = cr_num_computed_tokens request.
Proof.
  unfold update_req_spec_token_ids. intros H. bind_inv H as i Hi. bind_inv H as s0 _. bind_inv H as specs Hs. destruct (default [] _); [by injection H as <- <-|].
  bind_inv H as start Hst. bind_inv H as toks Ht. by injection H as <- <-.
Qed.

(** A write followed by the drafts of the step. *)
Lemma spec_reaches ph S E request tokens b request' b' : reaches ph S E b -> update_req_spec_token_ids request tokens b = Ok (request', b') ->
  reaches ph S E b' /\ forall r, row_computed b' r = row_computed b r.
Proof.
  intros Hr H. pose proof (reaches_batch_ok _ _ _ _ Hr) as Hok. pose proof (spec_tokens_write _ _ _ _ _ _ _ Hok H) as Hw. split; [by eapply br_write|].
  intros r. apply row_computed_same; [done|done|]. by apply spec_tokens_keep in H as [? _].
Qed.

Definition numbers_ok (d : CachedRequestData) : Prop :=
  (is_last_rank = false -> forall n, n ∈ SchedState.cr_num_computed_tokens d -> 0 <= n) /\ forall n, n ∈ cr_num_output_tokens d -> 0 <= n.

Lemma cached_request_Ok so (i : nat) r rn rn' added : runner_ok rn -> numbers_ok (so_scheduled_cached_reqs so) -> cached_request is_last_rank so (Z.of_nat i) r rn = Ok (rn', added) ->
  exists n c, SchedState.cr_num_computed_tokens (so_scheduled_cached_reqs so) !! i = Some n /\ runner_ok rn' /\
    (forall x, x <> r -> rn_requests rn' !! x = rn_requests rn !! x /\ row_computed (rn_batch rn') x = row_computed (rn_batch rn) x) /\
    rn_requests rn' !! r = Some c /\ cr_num_computed_tokens c = n /\
    if added then row_computed (rn_batch rn) r = None /\ row_computed (rn_batch rn') r = None else row_computed (rn_batch rn') r = Some n.
Proof.
  intros [(S & E & Hr) Hknown Hids] [Hn1 Hn2] H. unfold cached_request in H. bind_inv H as c Hc. destruct (rn_requests rn !! r) as [c0|] eqn:Ec; [injection Hc as ->|done].
  bind_inv H as n Hn. apply py_get_Ok in Hn. bind_inv H as blocks Hb. bind_inv H as no Hno. apply py_get_Ok in Hno. bind_inv H as new Hnew. bind_inv H as outs Houts. bind_inv H as ids Hids'.
  destruct (Hids _ _ Ec) as [Hid Hp]. pose proof (reaches_batch_ok _ _ _ _ Hr) as Hok. exists n.
  destruct (req_id_to_index (ib_ids (rn_batch rn)) !! r) as [ix|] eqn:Eix.
  - apply (bo_index _ _ _ Hok) in Eix as (k & -> & Hk). bind_inv H as b1 Hb1. bind_inv H as [c1 b2] Hb2. cbn [fst snd] in H. injection H as <- <-.
    apply (write_row_Ok k r) in Hb1 as [Hw Hnc]; [|done|done|intros Hl; apply (Hn1 Hl); by eapply list_elem_of_lookup_2|].
    2:{ intros m Hm. destruct (_ && _); [|done]. injection Hm as <-. apply Hn2. by eapply list_elem_of_lookup_2. }
    pose proof (br_write _ _ _ _ _ _ _ _ _ _ _ _ _ Hr Hw) as Hr1. destruct (spec_reaches _ _ _ _ _ _ _ _ Hr1 Hb2) as [Hr2 Hsame].
    assert (Hcomp : forall x, row_computed b2 x = if decide (x = r) then Some n else row_computed (rn_batch rn) x) by (intros x; rewrite Hsame; by eapply row_computed_write).
    apply spec_tokens_keep in Hb2 as (_ & Hid1 & Hp1 & Hc1). cbn in Hid1, Hp1, Hc1. exists c1. split; [done|]. cbn. split; [|split; [|split; [|split]]].
    + constructor; cbn; [by exists S, E| |].
      * intros x Hs. destruct (decide (x = r)) as [->|Hx]; [rewrite lookup_insert_eq; by eexists|]. rewrite lookup_insert_ne by done. rewrite Hcomp, decide_False in Hs by done. by apply Hknown.
      * intros x y [[<- <-]|[_ Hy]]%lookup_insert_Some; [split; [congruence|by rewrite Hp1]|by apply Hids].
    + intros x Hx. rewrite lookup_insert_ne by done. split; [done|]. by rewrite Hcomp, decide_False.
    + apply lookup_insert_eq.
    + done.
    + by rewrite Hcomp, decide_True.
  - injection H as <- <-. cbn. eexists. split; [done|]. split; [|split; [|split; [apply lookup_insert_eq|split; [done|]]]].
    + constructor; cbn; [by exists S, E| |].
      * intros x Hs. destruct (decide (x = r)) as [->|Hx]; [rewrite lookup_insert_eq; by eexists|]. rewrite lookup_insert_ne by done. by apply Hknown.
      * intros x y [[<- <-]|[_ Hy]]%lookup_insert_Some; [by split|by apply Hids].
    + intros x Hx. by rewrite lookup_insert_ne.
    + split; by apply row_computed_None.
Qed.

Lemma cached_requests_Ok so ids (i : nat) rn acc rn' to_add : runner_ok rn -> numbers_ok (so_scheduled_cached_reqs so) -> NoDup ids ->
  cached_requests is_last_rank so (Z.of_nat i) ids rn acc = Ok (rn', to_add) ->
  exists extra, to_add = acc ++ extra /\ NoDup extra /\ (forall r, r ∈ extra -> r ∈ ids) /\ runner_ok rn' /\
    (forall r, r ∉ ids -> rn_requests rn' !! r = rn_requests rn !! r /\ row_computed (rn_batch rn') r = row_computed (rn_batch rn) r) /\
    forall j r, ids !! j = Some r -> exists n (c : Cached), SchedState.cr_num_computed_tokens (so_scheduled_cached_reqs so) !! (i + j)%nat = Some n /\
      rn_requests rn' !! r = Some c /\ cr_num_computed_tokens c = n /\ row_computed (rn_batch rn') r = if decide (r ∈ extra) then None else Some n.
Proof.
  intros Hok Hn. revert i rn acc Hok. induction ids as [|r ids IH]; intros i rn acc Hok Hnd H; cbn [cached_requests] in H.
  - injection H as <- <-. exists []. rewrite app_nil_r. split; [done|]. split; [constructor|]. split; [done|]. split; [done|]. split; done.
  - apply NoDup_cons in Hnd as [Hnin Hnd]. bind_inv H as [rn1 added] H1. cbn [fst snd] in H.
    destruct (cached_request_Ok so i r rn rn1 added Hok Hn H1) as (n & c & En & Hok1 & Hother & Hc & Hnum & Hadded).
    replace (Z.of_nat i + 1) with (Z.of_nat (S i)) in H by lia.
    destruct (IH (S i) rn1 _ Hok1 Hnd H) as (extra & -> & Hnde & Hsub & Hok' & Hout & Hin).
    destruct (Hout r Hnin) as [Hr1 Hr2]. assert (Hre : r ∉ extra) by (intros ?%Hsub; done).
    assert (Hrest : forall j r', ids !! j = Some r' -> exists n (c : Cached), SchedState.cr_num_computed_tokens (so_scheduled_cached_reqs so) !! (i + S j)%nat = Some n /\
      rn_requests rn' !! r' = Some c /\ cr_num_computed_tokens c = n /\ row_computed (rn_batch rn') r' = if decide (r' ∈ extra) then None else Some n).
    { intros j r' Hj. destruct (Hin j r' Hj) as (n' & c' & Hx). exists n', c'. by rewrite Nat.add_succ_r. }
    exists (if (added : bool) then r :: extra else extra). split; [by destruct added; rewrite <-?app_assoc|].
    split; [destruct added; [by constructor|done]|]. split; [|split; [done|split]].
    + intros x Hx. destruct added; [apply elem_of_cons in Hx as [->|Hx]; [by left|]|]; right; by apply Hsub.
    + intros x [Hxr Hx]%not_elem_of_cons. destruct (Hout x Hx) as [-> ->]. by apply Hother.
    + intros [|j] r' Hj; cbn in Hj.
      * injection Hj as Hj. subst r'. exists n, c. rewrite Nat.add_0_r, Hr1, Hr2. split; [done|]. split; [done|]. split; [done|].
        destruct added; [rewrite decide_True by left; apply Hadded|by rewrite decide_False].
      * destruct (Hrest j r' Hj) as (n' & c' & E1 & E2 & E3 & E4). exists n', c'. split; [done|]. split; [done|]. split; [done|]. rewrite E4.
        assert (r' <> r) by (intros ->; apply Hnin; by eapply list_elem_of_lookup_2). destruct added; [|done].
        destruct (decide (r' ∈ extra)) as [Hx|Hx]; [by rewrite decide_True by (by right)|]. rewrite decide_False; [done|]. by intros [?|?]%elem_of_cons.
Qed.

(** ** The batch of the step *)

Abbreviation add_reqs := (add_requests requires_token_ids as_float32 max_num_reqs vocab_size).


Lemma add_request_step ph so r rn c p c2 b2 : runner_in ph rn -> ph <> Condensed -> row_computed (rn_batch rn) r = None -> rn_requests rn !! r = Some c ->
  add_to_batch c (rn_batch rn) = Ok p -> update_req_spec_token_ids c (spec_tokens so) p.2 = Ok (c2, b2) ->
  runner_in Adding (set_batch b2 (set_requests <[r := c2]> rn)) /\ cr_num_computed_tokens c2 = cr_num_computed_tokens c /\
  forall x, row_computed b2 x = if decide (x = r) then Some (cr_num_computed_tokens c) else row_computed (rn_batch rn) x.
Proof.
  intros Hin Hph Hnone Hc Hadd Hspec. pose proof Hin as [(S & E & Hr) Hknown Hids]. destruct (Hids r c Hc) as [<- [q Hq]]. destruct p as [k b1]. cbn [snd] in Hspec.
  apply row_computed_None in Hnone; [|by eapply reaches_batch_ok].
  assert (Hopen : open_batch max_num_reqs max_model_len new_state S E (rn_batch rn)) by (apply reaches_ok in Hr; destruct ph; [apply Hr|done|done]).
  destruct (add_ok _ _ _ _ _ _ _ _ (fun t : list bytes => Nat2Z.is_nonneg (length t)) S E (rn_batch rn) c q k b1 Hopen Hnone Hq Hadd) as (_ & v & (np & _ & _ & _ & _ & _ & Hv & _) & Hmap).
  pose proof (br_add _ _ _ _ _ _ _ _ _ _ _ _ _ _ _ _ Hr Hph Hnone Hq Hadd) as Hr1. destruct (spec_reaches _ _ _ _ _ _ _ _ Hr1 Hspec) as [Hr2 Hsame].
  assert (Hcomp : forall x, row_computed b2 x = if decide (x = cr_req_id c) then Some (cr_num_computed_tokens c) else row_computed (rn_batch rn) x).
  { intros x. rewrite Hsame. unfold row_computed. rewrite Hmap. case_decide as Hx; [subst; by rewrite lookup_insert_eq|by rewrite lookup_insert_ne by done]. }
  apply spec_tokens_keep in Hspec as (_ & Hid & Hp & Hnum). split; [|done]. constructor; cbn; [by do 2 eexists| |].
  - intros x Hx. destruct (decide (x = cr_req_id c)) as [->|Hne]; [rewrite lookup_insert_eq; by eexists|]. rewrite lookup_insert_ne by done.
    rewrite Hcomp, decide_False in Hx by done. by apply Hknown.
  - intros x y [[<- <-]|[_ Hy]]%lookup_insert_Some; [rewrite Hid, Hp, Hq; split; [done|by eexists]|by apply Hids].
Qed.

Lemma add_requests_Ok ph so to_add rn rn' : runner_in ph rn -> ph <> Condensed -> NoDup to_add -> (forall r, r ∈ to_add -> row_computed (rn_batch rn) r = None) ->
  add_reqs so to_add rn = Ok rn' ->
  exists ph', ph' <> Condensed /\ runner_in ph' rn' /\ (forall r, r ∉ to_add -> rn_requests rn' !! r = rn_requests rn !! r) /\
    forall r, row_computed (rn_batch rn') r = if decide (r ∈ to_add) then cr_num_computed_tokens <$> rn_requests rn !! r else row_computed (rn_batch rn) r.
Proof.
  revert ph rn. induction to_add as [|r to_add IH]; intros ph rn Hin Hph Hnd Hnone H; cbn [add_requests] in H.
  - injection H as <-. exists ph. split; [done|]. split; [done|]. split; [done|]. intros r. by rewrite decide_False by apply not_elem_of_nil.
  - apply NoDup_cons in Hnd as [Hnin Hnd]. bind_inv H as c Hc. destruct (rn_requests rn !! r) as [c0|] eqn:Ec; [injection Hc as ->|done].
    bind_inv H as p Hp. bind_inv H as [c2 b2] Hspec. cbn [fst snd] in H.
    destruct (add_request_step ph so r rn c p c2 b2 Hin Hph (Hnone r ltac:(left)) Ec Hp Hspec) as (Hin2 & Hnum & Hcomp).
    assert (Hnone2 : forall x, x ∈ to_add -> row_computed b2 x = None) by (intros x Hx; rewrite Hcomp, decide_False by (by intros ->); apply Hnone; by right).
    destruct (IH Adding _ Hin2 ltac:(discriminate) Hnd Hnone2 H) as (ph' & Hph' & Hin' & Hkeep & Hrows).
    exists ph'. split; [done|]. split; [done|]. split; [intros x [Hx Hx']%not_elem_of_cons; rewrite Hkeep by done; by apply lookup_insert_ne|]. intros x. rewrite Hrows. cbn. destruct (decide (x = r)) as [->|Hx].
    + rewrite decide_False, Hcomp, decide_True by done. by rewrite decide_True, Ec by left.
    + rewrite lookup_insert_ne, Hcomp, (decide_False (P := x = r)) by done. destruct (decide (x ∈ to_add)) as [H1|H1]; [by rewrite decide_True by (by right)|].
      rewrite decide_False; [done|]. by intros [?|?]%elem_of_cons.
Qed.

Lemma row_computed_dom b r : r ∈ dom (batch_map b) -> batch_ok max_num_reqs max_model_len b -> is_Some (row_computed b r).
Proof.
  intros Hd Hok. destruct (row_computed b r) eqn:Er; [by eexists|]. apply (row_computed_None b r Hok) in Er.
  apply elem_of_dom in Hd as [v Hv]. unfold batch_map in Hv. by rewrite lookup_fmap, Er in Hv.
Qed.

Abbreviation reorder_step := (_may_reorder_batch has_kv_cache_groups reorder_batch_threshold).

Lemma reorder_step_Ok so S E b b' : reaches Condensed S E b -> reorder_step so b = Ok b' -> reaches Condensed S E b' /\ batch_map b' = batch_map b.
Proof.
  intros Hr H. unfold _may_reorder_batch in H. destruct (negb _); [by injection H as <-|]. destruct reorder_batch_threshold as [t|]; [|by injection H as <-].
  bind_inv H as [c b1] H1. cbn [snd] in H. injection H as <-. split; [by eapply br_reorder|].
  pose proof (reorder_sched _ _ t (list_to_map (so_num_scheduled_tokens so)) b c b1 (reaches_batch_ok _ _ _ _ Hr) H1) as Hs.
  destruct (reorder_ok _ _ _ t _ S E b (reaches_ok _ _ _ _ Hr) Hs) as (l & c' & b2 & _ & Hrun & _ & Hmap & _). rewrite H1 in Hrun. by injection Hrun as <- <-.
Qed.

(** The last three calls keep the map and leave no empty row. *)
Lemma finish_Ok ph so S E b m b1 b2 u m' b3 : reaches ph S E b -> ph <> Condensed -> condense false b = Ok b1 -> reorder_step so b1 = Ok b2 ->
  refresh_metadata vocab_size false need m b2 = Ok (u, m', b3) ->
  reaches Removing S (process_dict_updates new_state E u) b3 /\ batch_map b3 = batch_map b /\ batch_num_reqs b3 = zlen (_req_ids (ib_ids b3)) /\
  forall k, (k < length (_req_ids (ib_ids b3)))%nat -> live b3 k.
Proof.
  intros Hr Hph H1 H2 H3. pose proof (br_condense _ _ _ _ _ _ _ _ _ _ _ _ _ Hr Hph H1) as Hr1. destruct (reorder_step_Ok so S E b1 b2 Hr1 H2) as [Hr2 Hmap2].
  pose proof (br_refresh _ _ _ _ _ _ _ _ _ _ _ _ _ _ _ _ Hr2 H3) as Hr3. pose proof (reaches_ok _ _ _ _ Hr2) as Hc2. cbn in Hc2.
  assert (Hopen : open_batch max_num_reqs max_model_len new_state S E b) by (apply reaches_ok in Hr; destruct ph; [apply Hr|done|done]).
  destruct (condense_ok _ _ _ S E b Hopen) as (b1' & Hrun & _ & Hmap1). rewrite H1 in Hrun. injection Hrun as <-.
  assert (E3 : ib_ids b3 = ib_ids b2 /\ batch_map b3 = batch_map b2).
  { unfold refresh_metadata in H3. destruct (get_and_reset _ _) as [u0 u1]. bind_inv H3 as m2 Hm2. by injection H3 as <- <- <-. }
  destruct E3 as [Ei Em]. split; [done|]. split; [congruence|]. split.
  - rewrite Ei, <-(compact_num_reqs _ _ _ S E b2 Hc2). unfold batch_num_reqs. by rewrite Ei.
  - intros k Hk. rewrite Ei in Hk. destruct (cp_rows _ _ _ _ _ _ Hc2 k Hk) as (r & Hx). exists r. unfold row_of in *. by rewrite Ei.
Qed.

(** ** The outputs of the scheduler *)

Definition new_ids (so : SchedulerOutput) : list string := map nr_req_id (so_scheduled_new_reqs so).
Definition cached_ids (so : SchedulerOutput) : list string := cr_req_ids (so_scheduled_cached_reqs so).
(** The scheduled requests are the new ones and the cached ones, each once. *)
Record output_ok (so : SchedulerOutput) : Prop := {
  oo_nodup : NoDup (new_ids so ++ cached_ids so);
  oo_scheduled : forall r, r ∈ scheduled_ids so <-> r ∈ new_ids so ++ cached_ids so;
  oo_params : forall d, d ∈ so_scheduled_new_reqs so -> is_Some (nr_sampling_params d);
  oo_numbers : numbers_ok (so_scheduled_cached_reqs so)
}.
(** The number of computed tokens that the scheduler announces. *)
Definition announced (so : SchedulerOutput) (r : string) (n : Z) : Prop :=
  (exists d, d ∈ so_scheduled_new_reqs so /\ nr_req_id d = r /\ nr_num_computed_tokens d = n) \/
  (exists j, cached_ids so !! j = Some r /\ SchedState.cr_num_computed_tokens (so_scheduled_cached_reqs so) !! j = Some n).

Abbreviation update_states := (_update_states new_states row_params prompt_logprobs seeded_generator requires_token_ids as_float32 id_order
  max_num_reqs vocab_size is_last_rank has_kv_cache_groups need reorder_batch_threshold).

(** The requests of the step, before the batch is condensed. *)
Lemma phases_Ok so rn rn1 rn2 rn3 rn4 to_add1 to_add2 : runner_ok rn -> output_ok so -> drop_unscheduled id_order so rn = Ok rn1 ->
  new_reqs (so_scheduled_new_reqs so) rn1 [] = Ok (rn2, to_add1) -> cached_requests is_last_rank so 0 (cached_ids so) rn2 to_add1 = Ok (rn3, to_add2) ->
  add_reqs so to_add2 rn3 = Ok rn4 ->
  exists ph, ph <> Condensed /\ runner_in ph rn4 /\ (forall r n, row_computed (rn_batch rn4) r = Some n <-> announced so r n) /\
    (forall r, is_Some (row_computed (rn_batch rn4) r) <-> r ∈ scheduled_ids so) /\
    forall r, r ∉ scheduled_ids so -> rn_requests rn4 !! r = if decide (r ∈ so_finished_req_ids so) then None else rn_requests rn !! r.
Proof.
  intros Hok [Hnd Hsch Hpar Hnum] H1 H2 H3 H4. destruct (drop_unscheduled_ok so rn Hok) as (rn1' & Hrun & Hok1 & Hc1 & Hq1). rewrite H1 in Hrun. injection Hrun as <-.
  apply NoDup_app in Hnd as (Hnd1 & Hdis & Hnd2).
  destruct (new_requests_Ok _ rn1 [] rn2 to_add1 Hok1 Hnd1 Hpar H2) as (Hok2 & -> & Hc2 & Hq2 & Hd2). cbn [app] in *. fold (new_ids so) in *.
  destruct (cached_requests_Ok so (cached_ids so) 0 rn2 _ rn3 to_add2 Hok2 Hnum Hnd2 H3) as (extra & -> & Hnde & Hsub & Hok3 & Hout3 & Hin3).
  assert (Hrow3 : forall r, r ∈ new_ids so ++ extra -> row_computed (rn_batch rn3) r = None).
  { intros r [Hr|Hr]%elem_of_app.
    - destruct (Hout3 r (Hdis r Hr)) as [_ ->]. by rewrite Hc2, decide_True.
    - destruct (proj1 (list_elem_of_lookup (cached_ids so) r) (Hsub r Hr)) as (j & Hj). destruct (Hin3 j r Hj) as (n & c & _ & _ & _ & ->). by rewrite decide_True. }
  assert (Hndl : NoDup (new_ids so ++ extra)) by (apply NoDup_app; split; [done|split; [intros r Hr He; by apply (Hdis r Hr), Hsub|done]]).
  destruct (add_requests_Ok Removing so _ rn3 rn4 Hok3 ltac:(discriminate) Hndl Hrow3 H4) as (ph & Hph & Hok4 & Hq4 & Hc4).
  assert (Hnew : forall d, d ∈ so_scheduled_new_reqs so -> row_computed (rn_batch rn4) (nr_req_id d) = Some (nr_num_computed_tokens d)).
  { intros d Hd. assert (Hin : nr_req_id d ∈ new_ids so) by (by apply list_elem_of_fmap_2). rewrite Hc4, decide_True by (apply elem_of_app; by left).
    destruct (Hout3 _ (Hdis _ Hin)) as [-> _]. destruct (Hd2 d Hd) as (c & -> & Hs & _). cbn. by rewrite Hs. }
  assert (Hcached : forall j r, cached_ids so !! j = Some r -> exists n, SchedState.cr_num_computed_tokens (so_scheduled_cached_reqs so) !! j = Some n /\ row_computed (rn_batch rn4) r = Some n).
  { intros j r Hj. destruct (Hin3 j r Hj) as (n & c & E1 & E2 & E3 & E4). exists n. split; [done|]. assert (Hr : r ∉ new_ids so).
    { intros Hr. apply (Hdis r Hr). by eapply list_elem_of_lookup_2. }
    rewrite Hc4, E2, E4. cbn. rewrite E3. destruct (decide (r ∈ extra)) as [He|He]; [by rewrite decide_True by (apply elem_of_app; by right)|].
    rewrite decide_False; [done|]. by intros [?|?]%elem_of_app. }
  assert (Hrest : forall r, r ∉ new_ids so ++ cached_ids so -> row_computed (rn_batch rn4) r = None /\
    rn_requests rn4 !! r = if decide (r ∈ so_finished_req_ids so) then None else rn_requests rn !! r).
  { intros r Hr. assert (Hr' := Hr). apply not_elem_of_app in Hr as [Hr1 Hr2]. assert (Hr3 : r ∉ new_ids so ++ extra).
    { intros [?|?%Hsub]%elem_of_app; done. }
    rewrite Hc4, decide_False, Hq4 by done. destruct (Hout3 r Hr2) as [-> ->]. rewrite Hc2, decide_False, Hq2, Hc1, Hq1, decide_False by (done || (intros (_ & Hs & _); by apply Hr', Hsch)).
    done. }
  exists ph. split; [done|]. split; [done|]. split; [|split].
  - intros r n. split.
    + intros Hn. destruct (decide (r ∈ new_ids so ++ cached_ids so)) as [Hin|Hout]; [|destruct (Hrest r Hout); congruence].
      apply elem_of_app in Hin as [(d & -> & Hd)%list_elem_of_fmap|(j & Hj)%list_elem_of_lookup].
      * left. exists d. rewrite (Hnew d Hd) in Hn. by injection Hn.
      * right. exists j. destruct (Hcached j r Hj) as (m & Hm & Hc). split; [done|]. congruence.
    + intros [(d & Hd & <- & <-)|(j & Hj & Hn)]; [by apply Hnew|]. destruct (Hcached j r Hj) as (m & Hm & ->). congruence.
  - intros r. rewrite Hsch. split.
    + intros [n Hn]. destruct (decide (r ∈ new_ids so ++ cached_ids so)) as [|Hout]; [done|]. destruct (Hrest r Hout). congruence.
    + intros [(d & -> & Hd)%list_elem_of_fmap|(j & Hj)%list_elem_of_lookup]%elem_of_app; [rewrite (Hnew d Hd); by eexists|].
      destruct (Hcached j r Hj) as (m & _ & ->). by eexists.
  - intros r Hr. rewrite Hsch in Hr. by apply Hrest.
Qed.

Lemma update_states_Ok so rn rn' u : runner_ok rn -> output_ok so -> update_states so rn = Ok (rn', u) ->
  runner_ok rn' /\ dom (batch_map (rn_batch rn')) = scheduled_ids so /\ (forall r n, row_computed (rn_batch rn') r = Some n <-> announced so r n) /\
  batch_num_reqs (rn_batch rn') = zlen (_req_ids (ib_ids (rn_batch rn'))) /\ (forall k, (k < length (_req_ids (ib_ids (rn_batch rn'))))%nat -> live (rn_batch rn') k) /\
  forall r, r ∉ scheduled_ids so -> rn_requests rn' !! r = if decide (r ∈ so_finished_req_ids so) then None else rn_requests rn !! r.
Proof.
  intros Hok Hso H. unfold _update_states in H. bind_inv H as rn1 H1. bind_inv H as [rn2 l2] H2. cbn [fst snd] in H. bind_inv H as [rn3 l3] H3. cbn [fst snd] in H.
  bind_inv H as rn4 H4. destruct (phases_Ok so rn rn1 rn2 rn3 rn4 l2 l3 Hok Hso H1 H2 H3 H4) as (ph & Hph & [(S & E & Hr) Hknown Hids] & Hrow & Hdom & Hkeep).
  bind_inv H as b1 Hb1. bind_inv H as b2 Hb2. bind_inv H as [[u' m'] b3] Hb3. cbn [fst snd] in H. injection H as <- <-. cbn.
  destruct (finish_Ok ph so S E _ _ b1 b2 u' m' b3 Hr Hph Hb1 Hb2 Hb3) as (Hr3 & Hmap & Hnum & Hlive).
  assert (Hsame : forall r, row_computed b3 r = row_computed (rn_batch rn4) r) by (intros r; by apply row_computed_map; rewrite Hmap).
  split; [|split; [|split; [|split; [done|split; [done|done]]]]].
  - constructor; cbn; [by do 2 eexists|intros r; rewrite Hsame; apply Hknown|exact Hids].
  - apply set_eq. intros r. rewrite <-Hdom, <-Hsame. split; [intros Hd; apply row_computed_dom; [done|by eapply reaches_batch_ok]|].
    intros [n Hn]. unfold row_computed in Hn. apply elem_of_dom. destruct (batch_map b3 !! r); [by eexists|done].
  - intros r n. rewrite Hsame. apply Hrow.
Qed.
End Steps.

(** * What the scheduler tells the worker

    From a scheduler whose requests are generative, with the first model runner and
    synchronous scheduling, every output of [schedule] is one that the worker's step
    is proved for. *)
From S2P Require Import SchedUtils EncoderCache RequestQueue RequestQueueSpec SchedStep Partial SchedLemmas SchedInv SchedGrants SchedFinish.

Ltac kv := kp; auto with keeps.

Section Told.
Context {C Ec : Type} (kvc : KVConnector C) (ecc : ECConnector Ec).
Context (cfg : SchedConfig) (use_int : bool) (sha256 : bytes -> bytes) (py_id : Request -> Z).
Context (set_order : forall A, list A -> list A).
Abbreviation Sched := (Scheduler C Ec).
Implicit Types s : Sched.

(** The parts of a request that a step leaves alone. *)
Definition worker_view (r : Request) : string * option SamplingParams * Z := (request_id r, sampling_params r, num_output_placeholders r).
Abbreviation R := (same_view (C:=C) (E:=Ec) worker_view).

Lemma view_record_event now t ts : view_safe worker_view (record_event now t ts).
Proof. intros r. by destruct r. Qed.
Hint Resolve view_record_event : keeps.

Lemma kv_preempt rid ts : keeps R (preempt_request cfg py_id set_order rid ts).
Proof. kv. Qed.
Hint Resolve kv_preempt : keeps.

Lemma kv_encoder_loop r computed shift i fs t : keeps R (encoder_loop ecc cfg r computed shift i fs t).
Proof. revert i t. induction fs as [|f fs IH]; simpl; kv. Qed.
Hint Resolve kv_encoder_loop : keeps.

Lemma kv_allocate_or_preempt fuel rid n ts st idx : keeps R (allocate_or_preempt cfg use_int sha256 py_id set_order fuel rid n ts st idx).
Proof. revert st idx. induction fuel as [|fuel IH]; simpl; kv. Qed.
Hint Resolve kv_allocate_or_preempt : keeps.

Lemma kv_running_loop fuel ts st idx : keeps R (running_loop ecc cfg use_int sha256 py_id set_order fuel ts st idx).
Proof. revert st idx. induction fuel as [|fuel IH]; simpl; kv. Qed.
Hint Resolve kv_running_loop : keeps.

Lemma kv_promote rid : keeps R (try_promote_blocked_waiting_request use_int sha256 rid).
Proof. kv. Qed.
Hint Resolve kv_promote : keeps.

Lemma kv_waiting_round q ts st : keeps R (waiting_round kvc ecc cfg use_int sha256 py_id set_order q ts st).
Proof. destruct q; kv. Qed.
Hint Resolve kv_waiting_round : keeps.

Lemma kv_waiting_loop fuel ts st : keeps R (waiting_loop kvc ecc cfg use_int sha256 py_id set_order fuel ts st).
Proof. revert st. induction fuel as [|fuel IH]; cbn [waiting_loop]; kv. Qed.
Hint Resolve kv_waiting_loop : keeps.

Lemma kv_decide_step now pause : keeps R (decide_step kvc ecc cfg use_int sha256 py_id set_order now pause).
Proof. kv. Qed.

(** ** The output *)

Definition requests_ok s : Prop := forall rid r, s_objs s !! rid = Some r -> request_id r = rid /\ is_Some (sampling_params r) /\ 0 <= num_output_placeholders r.

Lemma requests_ok_view s s' : same_view worker_view s s' -> requests_ok s -> requests_ok s'.
Proof.
  intros Hv Hok rid r Hr. specialize (Hv rid). unfold seen in Hv. rewrite Hr in Hv. destruct (s_objs s !! rid) as [r0|] eqn:E; [|done].
  apply Hok in E. cbn in Hv. unfold worker_view in Hv. injection Hv as -> -> ->. exact E.
Qed.

Lemma frame_objs s s' rid : frame (fun r => r) s s' -> s_objs s' !! rid = s_objs s !! rid.
Proof. intros H. pose proof (fr_seen _ _ _ H rid) as Hv. unfold seen in Hv. by rewrite !option_fmap_id in Hv. Qed.

(** The data of the new requests [l]: each says how far its request has come. *)
Definition told_new s (l : list string) (d : list NewRequestData) : Prop :=
  map nr_req_id d = l /\ forall x, x ∈ d -> exists r, s_objs s !! nr_req_id x = Some r /\ num_computed_tokens r = nr_num_computed_tokens x /\ is_Some (nr_sampling_params x).
(** The data of the cached requests [l]. *)
Definition told_cached s (l : list string) (d : CachedRequestData) : Prop :=
  cr_req_ids d = l /\ (forall j rid n, l !! j = Some rid -> SchedState.cr_num_computed_tokens d !! j = Some n -> exists r, s_objs s !! rid = Some r /\ num_computed_tokens r = n) /\
  length (SchedState.cr_num_computed_tokens d) = length l /\ forall n, n ∈ cr_num_output_tokens d -> 0 <= n.

Lemma new_data_wpp l st s : requests_ok s -> wpp (make_new_request_data cfg l st) (fun d s' => frame (fun r => r) s s' /\ told_new s l d) s.
Proof.
  intros Hok. assert (Hfr : framed (C:=C) (E:=Ec) (fun r => r) (make_new_request_data cfg l st)) by fr. apply wpp_and; [apply Hfr|]. unfold make_new_request_data.
  apply (wpp_foldM (fun done _ d s' => frame (fun r => r) s s' /\ told_new s done d) _ []); [split; [done|]; by split; [|intros x ?%elem_of_nil]| |by intros d s' [_ H]].
  intros l0 rid t d s' [Hf [Hm Hd]]. apply wpp_bind, wpp_robj. intros r Hr. apply wpp_bind, wpp_lift_opt; [done|]. intros b Hb. apply wpp_bind, wpp_gets, wpp_ret.
  rewrite (frame_objs s s' rid Hf) in Hr. destruct (Hok rid r Hr) as (Hid & Hp & _). split; [done|]. split; [rewrite map_app; cbn; by rewrite Hm, Hid|].
  intros x [Hx| ->%list_elem_of_singleton]%elem_of_app; [by apply Hd|]. exists r. cbn. by rewrite Hid.
Qed.

Lemma cached_data_wpp running resumed st s : requests_ok s ->
  wpp (make_cached_request_data cfg running resumed st) (fun d s' => frame (fun r => r) s s' /\ told_cached s (running ++ resumed) d) s.
Proof.
  intros Hok. assert (Hfr : framed (C:=C) (E:=Ec) (fun r => r) (make_cached_request_data cfg running resumed st)) by fr. apply wpp_and; [apply Hfr|].
  unfold make_cached_request_data.
  apply (wpp_foldM (fun done _ d s' => frame (fun r => r) s s' /\ told_cached s (map snd done) d) _ []).
  - split; [done|]. split; [done|]. split; [done|]. split; [done|]. by intros n ?%elem_of_nil.
  - intros l0 [k rid] t d s' [Hf (Hm & Hd & Hl & Hn)]. unfold cached_request_step. apply wpp_bind, wpp_robj. intros r Hr. apply wpp_bind, wpp_lift_opt; [done|]. intros c Hc. cbv zeta.
    apply wpp_bind, wpp_gets. apply wpp_bind. apply wpp_when; intros Hres; [apply wpp_assert; intros _|]; (apply wpp_bind, wpp_lift_opt; [done|]; intros b Hb; apply wpp_bind, wpp_gets, wpp_ret).
    all: rewrite (frame_objs s s' rid Hf) in Hr; destruct (Hok rid r Hr) as (_ & _ & Hp); split; [done|]; unfold told_cached; cbn; rewrite map_app; cbn.
    all: split; [by rewrite Hm|]; split; [|split; [rewrite !length_app; cbn; lia|]].
    all: try (intros n [Hx| ->%list_elem_of_singleton]%elem_of_app; [by apply Hn|]; unfold num_output_tokens, zlen; lia).
    all: intros j x n Hj Hx; apply lookup_snoc_Some in Hj as [[Hj1 Hj]|[Hj1 Hj]]; rewrite <-Hl in Hj1; [rewrite lookup_app_l in Hx by done; by eapply Hd|].
    all: subst x; rewrite lookup_app_r, Hj1, Nat.sub_diag in Hx by lia; injection Hx as <-; by exists r.
  - intros d s' [_ H]. cbn [app] in H. replace (map snd (imap pair (running ++ resumed))) with (running ++ resumed) in H; [done|].
    symmetry. apply (list_eq_same_length _ _ _ eq_refl); [by rewrite length_map, length_imap|]. intros i x y _ Hx Hy.
    change (map snd (imap pair (running ++ resumed))) with (snd <$> imap pair (running ++ resumed)) in Hx. rewrite list_lookup_fmap, list_lookup_imap, Hy in Hx. cbn in Hx. congruence.
Qed.

Definition told s (st : Step) (o : SchedulerOutput) : Prop :=
  told_new s (st_new st) (so_scheduled_new_reqs o) /\ told_cached s (st_running st ++ st_resumed st) (so_scheduled_cached_reqs o) /\ so_num_scheduled_tokens o = st_tokens st.

Lemma told_frame s s' st o : frame (fun r => r) s s' -> told s' st o -> told s st o.
Proof.
  intros Hf ([Hm Hn] & (Hc & Hd & Hl & Ho) & Ht). split; [split; [done|]|split; [|done]].
  - intros x (r & Hr & H)%Hn. exists r. by rewrite <-(frame_objs s s' _ Hf).
  - split; [done|]. split; [|done]. intros j rid n Hj Hx. destruct (Hd j rid n Hj Hx) as (r & Hr & H). exists r. by rewrite <-(frame_objs s s' _ Hf).
Qed.

Lemma make_output_told st s : cf_use_v2_model_runner cfg = false -> requests_ok s -> wpp (make_output cfg st) (fun o s' => frame (fun r => r) s s' /\ told s st o) s.
Proof.
  intros Hv2 Hok. assert (Hfr : framed (C:=C) (E:=Ec) (fun r => r) (make_output cfg st)) by apply framed_make_output. apply wpp_and; [apply Hfr|].
  assert (Hview : forall s', frame (fun r => r) s s' -> requests_ok s').
  { intros s' Hf rid r Hr. rewrite (frame_objs s s' rid Hf) in Hr. by apply Hok. }
  unfold make_output. rewrite Hv2. apply wpp_bind, wpp_gets. apply wpp_bind, wpp_gets. apply wpp_bind, (wpp_framed (fun r => r)); [fr|]. intros common s1 F1. cbv zeta.
  apply wpp_bind. eapply wpp_mono; [apply new_data_wpp; by apply Hview|]. intros d s2 [F2 Hnew]. apply wpp_bind.
  eapply wpp_mono; [apply cached_data_wpp; apply Hview; by etrans|]. intros c s3 [F3 Hc]. assert (Ht : told s st (mkSchedulerOutput d c (st_tokens st) 0 [] [] [] None ∅ [] false false None None)).
  { apply (told_frame s s1); [done|]. split; [exact Hnew|]. split; [|done]. destruct Hc as (Hm & Hd & Hc). split; [done|]. split; [|exact Hc].
    intros j rid n Hj Hx. destruct (Hd j rid n Hj Hx) as (r & Hr & H). exists r. by rewrite <-(frame_objs s1 s2 _ F2). }
  apply wpp_bind, wpp_modify. apply wpp_bind, (wpp_framed (fun r => r)); [fr|]. intros tz s4 F4. apply wpp_bind, wpp_gets. apply wpp_bind, (wpp_framed (fun r => r)); [fr|]. intros fd s5 F5.
  by apply wpp_ret.
Qed.

(** The tokens granted to a request in a list of grants. *)
Definition granted_to (rid : string) (l : list (string * Z)) : Z := zsum (map snd (filter (fun it => it.1 = rid) l)).

Lemma granted_to_app rid l it : granted_to rid (l ++ [it]) = granted_to rid l + (if decide (rid = it.1) then it.2 else 0).
Proof.
  unfold granted_to. rewrite filter_app, map_app, zsum_app. f_equal. destruct (decide (rid = it.1)) as [Hr|Hr].
  - rewrite filter_cons_True, filter_nil by done. cbn. lia.
  - rewrite filter_cons_False, filter_nil by congruence. done.
Qed.

Lemma granted_to_one rid n l : NoDup (od_keys l) -> (rid, n) ∈ l -> granted_to rid l = n.
Proof.
  intros Hnd (l1 & l2 & ->)%list_elem_of_split. unfold granted_to, od_keys in *. rewrite fmap_app, fmap_cons in Hnd. cbn in Hnd.
  apply NoDup_app in Hnd as (_ & H1 & [H2 _]%NoDup_cons). rewrite filter_app, filter_cons_True by done.
  assert (Hnil : forall k, (rid ∈ k.*1 -> False) -> filter (fun it : string * Z => it.1 = rid) k = []).
  { intros k Hk. induction k as [|[x y] k IH]; [done|]. rewrite filter_cons_False; [apply IH; intros Hx; apply Hk; by right|]. cbn. intros ->. apply Hk. by left. }
  rewrite (Hnil l2 H2), (Hnil l1); [cbn; lia|]. intros Hr. apply (H1 rid Hr). by left.
Qed.

(** The parts of the output that the worker's step reads. *)
Definition same_orders (o o' : SchedulerOutput) : Prop := so_scheduled_new_reqs o' = so_scheduled_new_reqs o /\
  so_scheduled_cached_reqs o' = so_scheduled_cached_reqs o /\ so_num_scheduled_tokens o' = so_num_scheduled_tokens o.

Lemma update_after_told o s : cf_async_class cfg = false -> wpp (update_after_schedule cfg set_order o) (fun o' s' => same_orders o o' /\
  forall rid c, seen num_computed_tokens s rid = Some c -> seen num_computed_tokens s' rid = Some (c + granted_to rid (so_num_scheduled_tokens o))) s.
Proof.
  intros Ha. unfold update_after_schedule, base_update_after_schedule. rewrite Ha. apply wpp_bind.
  apply (wpp_foldM (fun done _ o' s' => same_orders o o' /\ forall rid c, seen num_computed_tokens s rid = Some c -> seen num_computed_tokens s' rid = Some (c + granted_to rid done)) _ []).
  - split; [done|]. intros rid c ->. f_equal. unfold granted_to. cbn. lia.
  - intros l [rid n] t o1 s1 [Hs Hg]. apply wpp_bind, (wpp_framed num_computed_tokens); [fr|]. intros ? s2 F2. apply wpp_bind, wpp_modify. apply wpp_bind, wpp_robj. intros r Hr. cbv zeta.
    apply wpp_bind, wpp_modify. apply wpp_bind, (wpp_framed num_computed_tokens); [apply framed_when, framed_free_encoder_inputs|]. intros ? s3 F3. apply wpp_ret.
    split; [exact Hs|]. intros x c Hx. apply Hg in Hx. rewrite (fr_seen _ _ _ F3), seen_alter, granted_to_app. rewrite <-(fr_seen _ _ _ F2 x) in Hx. cbn [fst snd].
    assert (H1 : seen num_computed_tokens (set_objs (alter (set_num_computed_tokens (fun m => m + n)) rid) s2) x = Some (c + granted_to x l + (if decide (x = rid) then n else 0))).
    { rewrite seen_alter. case_decide as Ex; [|rewrite Hx; f_equal; lia]. subst x. unfold seen in Hx. destruct (s_objs s2 !! rid) as [r2|]; [|done].
      cbn in Hx |- *. injection Hx as Hx. f_equal. cbn. lia. }
    rewrite Z.add_assoc. case_decide as Ex; [|exact H1]. subst x. cbn in H1 |- *. unfold seen in H1. cbn in H1. rewrite lookup_alter_eq in H1 |- *. by destruct (s_objs s2 !! rid).
  - intros o1 s1 H. apply wpp_bind, wpp_modify. by apply wpp_ret.
Qed.

Lemma keeps_wpp {A} (m : M Sched A) Q s : keeps R m -> wpp m Q s -> wpp m (fun a s' => Q a s' /\ R s s') s.
Proof. unfold wpp. intros Hk. destruct (m s) as [[a|e] s'] eqn:E; [|done]. intros HQ. split; [done|by eapply Hk]. Qed.

Lemma frame_view {V} (v : Request -> V) s s' : frame (fun r => r) s s' -> frame v s s'.
Proof. intros Hf. pose proof Hf as []. split; try done. intros rid. unfold seen. by rewrite (frame_objs s s' rid Hf). Qed.

Context (Hkvc : connector_safe kvc) (Hecc : ec_connector_safe ecc) (Hcfg : SchedGrants.config_ok cfg).
Context (Hv2 : cf_use_v2_model_runner cfg = false) (Hsync : cf_async_class cfg = false).

Lemma told_output s st o o' pause s0 s1 : granted_ok cfg s0 pause st s1 -> told s st o -> same_orders o o' -> output_ok true o' /\
  forall rid n, (rid, n) ∈ so_num_scheduled_tokens o' -> exists m r, announced o' rid m /\ s_objs s !! rid = Some r /\ num_computed_tokens r = m.
Proof.
  intros [_ _ Hnd Hkeys _ _ _ _] ([Hm Hn] & (Hc & Hd & Hl & Ho) & Ht) (E1 & E2 & E3).
  assert (Hn' : new_ids o' = st_new st) by (unfold new_ids; by rewrite E1). assert (Hc' : cached_ids o' = st_running st ++ st_resumed st) by (unfold cached_ids; by rewrite E2).
  assert (Hp : od_keys (so_num_scheduled_tokens o') ≡ₚ new_ids o' ++ cached_ids o').
  { rewrite E3, Ht, Hkeys, Hn', Hc'. rewrite (Permutation_app_comm (st_new st)). by rewrite <-app_assoc. }
  split; [constructor|].
  - rewrite <-Hp. by rewrite E3, Ht.
  - intros r. unfold scheduled_ids. by rewrite elem_of_list_to_set, Hp.
  - rewrite E1. intros d Hd'. by destruct (Hn d Hd') as (r & _ & _ & H).
  - split; [done|]. by rewrite E2.
  - intros rid n Hin%(list_elem_of_fmap_2 fst). change (rid ∈ od_keys (so_num_scheduled_tokens o')) in Hin. rewrite Hp in Hin. apply elem_of_app in Hin as [Hin|Hin].
    + unfold new_ids in Hin. apply list_elem_of_fmap in Hin as (d & -> & Hin). rewrite E1 in Hin. destruct (Hn d Hin) as (r & Hr & Hnum & _).
      exists (nr_num_computed_tokens d), r. split; [left; exists d; by rewrite E1|done].
    + apply list_elem_of_lookup in Hin as (j & Hj). pose proof Hj as Hlt%lookup_lt_Some. rewrite Hc', <-Hl in Hlt. apply lookup_lt_is_Some_2 in Hlt as [m Hm'].
      destruct (Hd j rid m) as (r & Hr & Hnum); [by rewrite <-Hc'|done|]. exists m, r. split; [right; exists j; by rewrite E2|done].
Qed.

Lemma schedule_told now s : sched_wf cfg s -> requests_ok s -> wpp (schedule kvc ecc cfg use_int sha256 py_id set_order now) (fun o s' => output_ok true o /\
  forall rid n, (rid, n) ∈ so_num_scheduled_tokens o -> exists r, s_objs s' !! rid = Some r /\ announced o rid (num_computed_tokens r - n)) s.
Proof.
  intros Hwf Hok. unfold schedule. apply wpp_bind, wpp_gets. apply wpp_bind, (wpp_framed (fun r => r)); [fr|]. intros [] s0 F0.
  destruct (sched_wf_frame cfg s s0 Hwf (frame_view status _ _ F0)) as [Hwf0 _]. assert (Hok0 : requests_ok s0).
  { apply (requests_ok_view s); [|done]. intros rid. apply (frame_view worker_view _ _ F0). }
  apply wpp_bind. eapply wpp_mono; [apply keeps_wpp; [apply kv_decide_step|by apply decide_step_wpp]|]. intros st s1 [Hg Hv]. pose proof (requests_ok_view _ _ Hv Hok0) as Hok1.
  apply wpp_bind, (wpp_framed (fun r => r)); [by apply framed_check_constraints|]. intros [] s2 F2. assert (Hok2 : requests_ok s2).
  { apply (requests_ok_view s1); [|done]. intros rid. apply (frame_view worker_view _ _ F2). }
  apply wpp_bind. eapply wpp_mono; [by apply make_output_told|]. intros o s3 [F3 Ht].
  apply wpp_bind, (wpp_framed (fun r => r)); [fr|]. intros ? s4 F4. apply wpp_bind, (wpp_framed (fun r => r)); [fr|]. intros ? s5 F5.
  eapply wpp_mono; [by apply update_after_told|]. intros o' s6 [Ho' Hg6]. destruct (told_output s2 st o o' _ s0 s1 Hg Ht Ho') as [Hout Hann]. split; [done|].
  intros rid n Hin. destruct (Hann rid n Hin) as (m & r & Ha & Hr & Hnum). pose proof Ho' as (_ & _ & Etok). destruct Ht as (_ & _ & Et).
  assert (H5 : seen num_computed_tokens s5 rid = Some m).
  { unfold seen. rewrite (frame_objs s4 s5 rid F5), (frame_objs s3 s4 rid F4), (frame_objs s2 s3 rid F3), Hr. cbn. by rewrite Hnum. }
  apply Hg6 in H5. rewrite <-Etok, (granted_to_one rid n) in H5; [|rewrite Etok, Et; apply Hg|done].
  unfold seen in H5. destruct (s_objs s6 !! rid) as [r6|] eqn:E6; [|done]. cbn in H5. injection H5 as H5. exists r6. split; [done|].
  by replace (num_computed_tokens r6 - n) with m by lia.
Qed.
End Told.

(** * The theorems *)

Section Theorems.
Context {Generator States Logprobs T : Type} (new_states : States) (new_state : AddedParams -> option T).
Context (row_params : SamplingParams -> RowParams) (prompt_logprobs : SamplingParams -> option Z) (seeded_generator : SamplingParams -> option Generator).
Context (requires_token_ids : PoolingParams -> bool) (as_float32 : spec_float -> spec_float) (id_order : gset string -> list string).
Context (Horder : forall s, id_order s ≡ₚ elements s).
Context (max_num_reqs max_model_len vocab_size : Z) (has_kv_cache_groups need : bool) (reorder_batch_threshold : option Z).
Abbreviation runner_ok := (runner_in (Generator:=Generator) (States:=States) (Logprobs:=Logprobs) new_state requires_token_ids as_float32 max_num_reqs max_model_len vocab_size Removing).
Abbreviation update_states is_last_rank := (_update_states new_states row_params prompt_logprobs seeded_generator requires_token_ids as_float32 id_order
  max_num_reqs vocab_size is_last_rank has_kv_cache_groups need reorder_batch_threshold).

(** C11: Whatever the scheduler preempts, resumes, starts or finishes in a step, the
    persistent batch of the worker then holds a row for exactly the requests that are
    scheduled, in rows without gaps, and the row of each says that it has as many
    computed tokens as the scheduler announced for it.  A request that is not scheduled keeps the state the worker had
    for it, unless it has finished, when the state is dropped.  The worker is ready for the next step. *)
Theorem update_states_batch is_last_rank so rn rn' u : runner_ok rn -> output_ok is_last_rank so -> update_states is_last_rank so rn = Ok (rn', u) ->
  runner_ok rn' /\ dom (batch_map (rn_batch rn')) = scheduled_ids so /\ (forall r n, row_computed (rn_batch rn') r = Some n <-> announced so r n) /\
  batch_num_reqs (rn_batch rn') = zlen (_req_ids (ib_ids (rn_batch rn'))) /\ (forall k, (k < length (_req_ids (ib_ids (rn_batch rn'))))%nat -> BatchInv.live (rn_batch rn') k) /\
  forall r, r ∉ scheduled_ids so -> rn_requests rn' !! r = if decide (r ∈ so_finished_req_ids so) then None else rn_requests rn !! r.
Proof. by apply update_states_Ok. Qed.

Section Agreement.
Context {C Ec : Type} (kvc : KVConnector C) (ecc : ECConnector Ec) (cfg : SchedConfig) (use_int : bool) (sha256 : bytes -> bytes) (py_id : Request -> Z).
Context (set_order : forall A, list A -> list A).
Context (Hkvc : connector_safe kvc) (Hecc : ec_connector_safe ecc) (Hcfg : SchedGrants.config_ok cfg).
Context (Hv2 : cf_use_v2_model_runner cfg = false) (Hsync : cf_async_class cfg = false).

(** C2: A step of the scheduler and the worker's update for it agree.  After [schedule]
    has returned an output and [_update_states] has taken it over, the persistent
    batch has rows for exactly the requests with granted tokens, and the row of each
    says that as many tokens are computed as the scheduler counts for the request,
    less those it has just granted.  The worker is ready for the next step. *)
Theorem schedule_reaches_worker now s o s' rn rn' u : sched_wf cfg s -> requests_ok s ->
  schedule kvc ecc cfg use_int sha256 py_id set_order now s = (Ok o, s') -> runner_ok rn -> update_states true o rn = Ok (rn', u) ->
  runner_ok rn' /\ dom (batch_map (rn_batch rn')) = list_to_set (od_keys (so_num_scheduled_tokens o)) /\
  forall rid n, (rid, n) ∈ so_num_scheduled_tokens o -> exists r, s_objs s' !! rid = Some r /\ row_computed (rn_batch rn') rid = Some (num_computed_tokens r - n).
Proof.
  intros Hwf Hok Hrun Hrn Hup. apply (wpp_ok _ _ _ _ _ (schedule_told kvc ecc cfg use_int sha256 py_id set_order Hkvc Hecc Hcfg Hv2 Hsync now s Hwf Hok)) in Hrun as [Ho Htold].
  destruct (update_states_Ok _ _ _ _ _ _ _ _ Horder _ _ _ _ _ _ _ o rn rn' u Hrn Ho Hup) as (Hrn' & Hdom & Hrow & _). split; [done|]. split; [done|].
  intros rid n Hin. destruct (Htold rid n Hin) as (r & Hr & Ha). exists r. split; [done|]. by apply Hrow.
Qed.
End Agreement.
End Theorems.

(** * Runs: a scheduler and its worker over two steps *)
From S2P Require Import Samples SchedSamples.

(** Four rows of twenty tokens over a vocabulary of three, in blocks of two; whether
    the last rank, and one group of caches with decodes of one token. *)
Definition run_batch : @Batch unit unit unit := batch_init 4 20 (replicate 4 zero) (replicate 4 0) [mkTable 1 false (replicate 4 (replicate 10 0)) (replicate 4 0)].
Definition run_start : @Runner unit unit unit := mkRunner ∅ ∅ 0 run_batch run_metadata.
Abbreviation run_update is_last_rank := (_update_states tt (fun _ => run_params None) (fun _ => None) (fun _ => None) (fun _ => false) id elements 4 3 is_last_rank true false (Some 1)).
Abbreviation run_ok := (runner_in (T:=Z) run_state (fun _ => false) id 4 20 3 Removing).
Definition after (o : SchedulerOutput) (rn : @Runner unit unit unit) : @Runner unit unit unit := match run_update true o rn with Ok p => p.1 | Err _ => rn end.

(** The step before [busy]: [a] and [b] start; [c] waits. *)
Definition first_output : SchedulerOutput :=
  match fst (run false busy_config 20 (add busy_config (bare_request "a" [1; 2; 3; 4; 5; 6]) ;; add busy_config (bare_request "b" [7; 8; 9; 10; 11; 12]) ;;
               add busy_config (bare_request "c" [13; 14]) ;; step busy_config)) with
  | Ok o => o
  | Err _ => scheduler_output_make_empty
  end.

Lemma run_start_ok : run_ok run_start.
Proof.
  constructor; [exists ∅, ∅; apply br_init|intros r [n Hn]|intros r c Hc].
  - done.
  - done.
  - constructor; [|constructor]. split; [done|]. split; [done|]. split.
    + exists 10%nat. split; [lia|]. intros row Hrow. apply elem_of_replicate in Hrow as [-> _]. done.
    + intros x Hx. apply elem_of_replicate in Hx as [-> _]. done.
  - unfold row_computed in Hn. vm_compute in Hn. discriminate.
  - done.
Qed.

Lemma first_output_ok : output_ok true first_output.
Proof.
  constructor.
  - apply (bool_decide_unpack _). vm_compute. exact I.
  - intros r. unfold scheduled_ids. rewrite elem_of_list_to_set. replace (od_keys (so_num_scheduled_tokens first_output)) with (new_ids first_output ++ cached_ids first_output); [done|].
    vm_compute. reflexivity.
  - apply Forall_forall. assert (Hb : forallb (fun d => match nr_sampling_params d with Some _ => true | None => false end) (so_scheduled_new_reqs first_output) = true) by (vm_compute; reflexivity).
    rewrite forallb_forall in Hb. apply Forall_forall. intros d Hd. apply list_elem_of_In, Hb in Hd. destruct (nr_sampling_params d); [by eexists|discriminate].
  - split; [discriminate|]. intros n Hn. change (cr_num_output_tokens (so_scheduled_cached_reqs first_output)) with (@nil Z) in Hn. by apply elem_of_nil in Hn.
Qed.

Definition run_first : @Runner unit unit unit := after first_output run_start.
Definition update_told (o : SchedulerOutput) (rn : @Runner unit unit unit) : option (BatchUpdate AddedParams) := match run_update true o rn with Ok p => p.2 | Err _ => None end.

Lemma run_first_ok : run_ok run_first.
Proof.
  destruct (update_states_Ok tt run_state (fun _ => run_params None) (fun _ => None) (fun _ => None) (fun _ => false) id elements (fun s => Permutation_refl _) 4 20 3 true true false (Some 1)
    first_output run_start run_first (update_told first_output run_start) run_start_ok first_output_ok) as (H & _); [vm_compute; reflexivity|exact H].
Qed.

Lemma update_states_batch_witness : run_ok run_first /\ dom (batch_map (rn_batch run_first)) = scheduled_ids first_output /\
  row_computed (rn_batch run_first) "a" = Some 0 /\ od_keys (so_num_scheduled_tokens first_output) = ["a"; "b"].
Proof.
  destruct (update_states_batch tt run_state (fun _ => run_params None) (fun _ => None) (fun _ => None) (fun _ => false) id elements (fun s => Permutation_refl _) 4 20 3 true false (Some 1)
    true first_output run_start run_first (update_told first_output run_start) run_start_ok first_output_ok) as (H1 & H2 & _).
  { vm_compute. reflexivity. }
  split; [exact H1|]. split; [exact H2|]. split; vm_compute; reflexivity.
Defined.

Lemma requests_ok_list {C Ec} (s : Scheduler C Ec) :
  forallb (fun p : string * Request => bool_decide (request_id p.2 = p.1) && bool_decide (is_Some (sampling_params p.2)) && (0 <=? num_output_placeholders p.2)) (map_to_list (s_objs s)) = true ->
  requests_ok s.
Proof.
  rewrite forallb_forall. intros H rid r Hr%elem_of_map_to_list%list_elem_of_In%H. cbn in Hr.
  apply andb_true_iff in Hr as [[H1%bool_decide_eq_true H2%bool_decide_eq_true]%andb_true_iff H3%Z.leb_le]. done.
Qed.

(** The step from [busy]: [a] waits for its sampled token and has no row; [b] goes on. *)
Definition busy_output : SchedulerOutput := match fst (step busy_config busy) with Ok o => o | Err _ => scheduler_output_make_empty end.
Definition run_second : @Runner unit unit unit := after busy_output run_first.

Lemma schedule_reaches_worker_witness :
  run_ok run_second /\ dom (batch_map (rn_batch run_second)) = {["b"]} /\ row_computed (rn_batch run_second) "b" = Some 2 /\
  exists s' r, step busy_config busy = (Ok busy_output, s') /\ s_objs s' !! "b" = Some r /\ num_computed_tokens r = 6.
Proof.
  destruct (step busy_config busy) as [o s'] eqn:Hrun. assert (Ho : o = Ok busy_output).
  { apply (f_equal fst) in Hrun. cbn [fst] in Hrun. rewrite <-Hrun. vm_compute. reflexivity. }
  subst o. assert (Hok : requests_ok busy) by (apply requests_ok_list; vm_compute; reflexivity).
  destruct (schedule_reaches_worker tt run_state (fun _ => run_params None) (fun _ => None) (fun _ => None) (fun _ => false) id elements (fun s => Permutation_refl _) 4 20 3 true false (Some 1)
    no_connector no_ec_connector busy_config false toy_sha256 (fun _ => 0) (fun _ l => l) no_connector_safe no_ec_connector_safe (small_config_ok FCFS 20) eq_refl eq_refl
    0 busy busy_output s' run_first run_second (update_told busy_output run_first) busy_wf Hok Hrun run_first_ok) as (H1 & H2 & H3).
  { vm_compute. reflexivity. }
  assert (Hb : row_computed (rn_batch run_second) "b" = Some 2) by (vm_compute; reflexivity).
  split; [exact H1|]. split.
  - rewrite H2. assert (od_keys (so_num_scheduled_tokens busy_output) = ["b"]) as -> by (vm_compute; reflexivity). apply set_eq. intros x. cbn. rewrite elem_of_union, elem_of_empty. tauto.
  - split; [exact Hb|]. destruct (H3 "b" 4) as (r & Hr & Hn).
    + assert (so_num_scheduled_tokens busy_output = [("b", 4)]) as -> by (vm_compute; reflexivity). by left.
    + exists s', r. split; [reflexivity|]. split; [exact Hr|]. rewrite Hb in Hn. injection Hn as Hn. lia.
Defined.
